(* ===== verification/_CoqProject ===== *)
-Q . S2P
Prelude.v
Bytes.v
Pmm.v
Dll.v
Heap.v
Kmem.v
PageTables.v
UserMem.v
PageFault.v
AddrSpace.v
CopyUser.v
Fork.v
KernelMm.v
MmExamples.v
Runq.v
RrSched.v
PrioSched.v
Sched.v
Rtc.v
Pipe.v
Perm.v
CString.v
Format.v
Path.v
Flock.v
Minix.v
MinixFile.v
MinixOps.v
MinixZones.v
MinixTree.v
MinixContent.v
MinixFs.v
MinixRw.v
MinixTrunc.v
MinixDir.v
MinixInode.v
MinixCreate.v
MinixRemove.v
MinixSpec.v
MinixExamples.v
Tmpfs.v
TmpfsTree.v
TmpfsOps.v
TmpfsFree.v
TmpfsSpec.v
FdTypes.v
Eventfd.v
ObjTable.v
Timerfd.v
Files.v
Futex.v
FdObjects.v
RecordUpdate.v
ProcState.v
Signal.v
SigFrame.v
SigDeliver.v
SigFate.v
SigSpec.v
ProcTable.v
ProcInv.v
ProcExit.v
ProcCalls.v
ProcSpec.v
