(* ===== verification/Prelude.v ===== *)
(** * IR0 kernel verification library

    A verification of the core of the IR0 kernel, a uniprocessor x86-64
    kernel in C: memory management, scheduling, processes and signals,
    descriptors and the objects behind them, permissions, path names, the
    in-memory and the on-disk file system, and the kernel's own C library.  Each source file is translated function by
    function under the names of the source; the theorems are about those
    definitions.

    ** The program and its model

    Memory.  [Pmm] is src/mm/pmm.c: the frame bitmap, reference counts and
    owner classes as the record [pmm_state].  [Heap] (on the linked segments of
    [Dll]) is src/mm/allocator.c, a boundary-tag first-fit allocator over
    typed memory; [Kmem] is src/mm/kmem.c on top of it.  [PageTables] and
    [UserMem] are src/mm/paging.c over the descriptor encoding of
    src/arch/x86-64/sources/mm_ops.c: tables of 512 entries found by physical
    address, the walks, mapping, unmapping with reclaim, splitting of 2 MiB
    leaves, the copy-on-write break and copies to and from user pages.
    [Fork] is copy_process_memory, [PageFault] src/mm/page_fault.c,
    [AddrSpace] the walks of src/kernel/process/mm.c, [CopyUser]
    src/kernel/lib/copy_user.c.  Page tables take their pages from whatever
    satisfies the class [PageSource]; [KernelMm] shows that the kmalloc layer
    does, and [MmExamples] runs the theorems on a system with two processes
    over a page pool small enough to compute with.

    Scheduling.  [Runq] holds process descriptors as the scheduler sees them
    and src/sched/sched_switch.c; [RrSched] and [PrioSched] are the two
    backends, pointer lists in a node memory.  struct ir0_sched_ops is the
    class [SchedOps] of [Sched], what the kernel relies on the class
    [SchedLaws], which both backends discharge; src/sched/sched.c and
    sched_resched.c are verified against the class.  [Futex] is
    src/kernel/futex.c over the same processes.

    Processes and signals.  [ProcState] has the fields of process_t that
    signals, wait4 and fork use, with the moves of registers between task,
    system-call frame and signal context (core.c, domains.c, signal_enter.c,
    wait_state.c and saved_context.c of src/kernel/process, arch_task_ops.c and
    arch_signal.c of src/arch/x86-64/sources); [RecordUpdate] has the notation
    [p <| f := v |>] for their assignments.  [Signal] is src/kernel/lib/signals.c
    with rt_sigaction, rt_sigprocmask and rt_sigreturn, functions on one process
    and a user stack behind the interface [SigMem]; [SigFrame] is about the
    address of a handler's frame, [SigDeliver] about one pass of delivery,
    [SigFate] about which pending signal decides what becomes of the process,
    [SigSpec] about whole runs.  [ProcTable] is wait.c, exit.c, signals.c and
    fork.c of src/kernel/process and send_signal: linked descriptors that are
    freed when they are reaped, over the scheduler of [Sched] and over what a
    process owns, the interface [ProcRes].  [ProcInv] is its invariant, with the
    walks and the reaping of children; [ProcExit], [ProcCalls] and [ProcSpec] are
    the ends of a process, the calls, and their contracts.

    Descriptors.  [Files] is files_struct.c and fdtable.c of
    src/kernel/process: the lifetime of descriptor tables over the interface
    [FdBackend] (acquire and release of the object behind a descriptor).
    [Pipe], [Eventfd] and, on the slot tables of [ObjTable], [Timerfd] are
    the objects; [FdObjects] discharges the laws of the interface with pipes,
    event counters and timers.

    Files and paths.  [Path] is src/fs/path.c with the chroot jail, and the
    resolution of names in src/kernel/lib/path_user.c, [Flock]
    src/fs/flock.c, [Perm] src/fs/permissions.c with the credentials and open
    flags.  [Tmpfs] is src/fs/tmpfs.c, [TmpfsTree] the invariant of its inode
    table, [TmpfsOps] and [TmpfsFree] what each operation does to the tree of
    paths, [TmpfsSpec] the resulting theorems.

    The MINIX file system, src/fs/minix_fs.c, is [Minix] (volume, bitmaps,
    inodes, directories), [MinixFile] (the zones and bytes of a file) and
    [MinixOps] (the operations by path) over a device of 1024-byte blocks whose
    requests may fail.  The theorems are about volumes whose requests succeed:
    [MinixZones] has the encodings and the set of free zones, [MinixTree] the
    tree of zones behind an inode and the invariant that no zone is named
    twice, [MinixContent] the bytes of a file, [MinixFs] the inode table and
    path walks, [MinixRw] and [MinixTrunc] reading, writing and truncation,
    [MinixDir], [MinixInode], [MinixCreate] and [MinixRemove] names,
    [MinixSpec] the theorems that join them and a small volume, and
    [MinixExamples] runs in which the code departs from its documentation.
    [Bytes] holds the bit arrays and path splitting that several components
    share.

    Library.  [CString] and [Format] are src/includes/string.c, [Rtc] is
    src/kernel/lib/rtc_calendar.c.

    ** Conventions

    A machine integer is a [Z] reduced to its width at every operation that can
    leave it ([u8] to [u64], [s32]).  A pointer is its address and NULL is 0, or an
    [option] where the code only tests it.  A function that can halt the machine
    or touch memory outside its object returns an [outcome]: [Ok], [Panic] for
    panicex, [UB] otherwise; most safety theorems say that the result is [Ok].
    The error codes are the negative numbers of the source.  State is passed
    explicitly.  The interrupt-masking locks of this uniprocessor kernel make
    each operation atomic, so a sequence of operations is an interleaving.
    Where a function sleeps in the middle it is two definitions, between
    which any other code may run.  Copies to and from user space and readings of
    clocks, where a component only uses their result, are arguments.

    ** What the theorems show

    - Refinement of an abstract specification, returned values included: the
      frame allocator is a map of reference counts, the heap a map of disjoint
      objects that keep their bytes, a pipe a FIFO byte stream with open ends, the
      lock table a map of lock modes without conflicts, tmpfs (without link) a
      tree of files, a MINIX file without holes the bytes written to it, the
      futex table a set of wait records (an interrupted wait leaves its own).  An
      event counter and a timer account for every event: delivered, pending,
      or lost by a read whose copy to the user failed.
    - Isolation: fork, page faults, user copies, region mapping and table
      teardown change what they are asked to and nothing of any other address
      space; reference counts stay exact; a failure restores the state.
    - Scheduling: each backend picks the process its policy names, round robin
      is fair, the dispatcher preserves one running process whatever the backend,
      and a blocked process does not keep the processor.
    - Processes: over resources that keep the laws of [ProcRes], exits, kills,
      waits and forks touch no freed descriptor, leave no zombie in the run queue
      and no process with a parent that is gone; a parent that waits is woken and
      reads the child's status; fork returns twice.
    - Signals: which signal kills, stops, is dropped, stays pending or enters its
      handler, where the handler's frame lies, and that a handler which interrupted
      a system call and returns gives back registers, mask and the call.
    - On disk: every operation on a sound MINIX volume leaves a sound volume,
      in which no zone belongs to two files or is both used and free, changes
      the file or the name it is asked to, gives back the zones it cuts off, and
      fails only without room.  Reads, writes and truncation are about files
      without holes, the only ones this code makes.
    - Resources balance: fork and exit over pipes, event counters and timers,
      opening and closing of pipes, mounting and unmounting of tmpfs.
    - Text: absolute names cannot leave the jail (relative ones can), formatted output stays
      inside its buffer, numbers and user strings survive their round trips.
    - Termination: every loop and recursion is a definition by structural
      recursion on its own bound or on fuel, and the theorems show that the
      result is not the exhaustion of fuel.

    Lemmas named in the manifest's findings exhibit executions in which the
    code does something other than what its callers or its comments expect.

    ** Fuel

    List walks in the heap and the schedulers have the number of blocks or
    nodes as fuel, more than a list without a cycle can visit.  The search
    bounds of the schedulers (100 and 64 attempts) are the source's own.
    A walk of the process table has the number of descriptors plus one.
    [send_signal] has 2: a process it kills sends SIGCHLD to its parent, and
    SIGCHLD kills nobody.  The delivery loop runs over the 31 signals.
    Formatting and path routines have the length of their input, the copy loops
    the number of bytes, the 2 MiB identity map the number of leaves.  The
    catch-up loop of a timer has the time of day plus one, since every round
    moves the expiry or disarms the timer.  A tmpfs child list has 128 steps, the size
    of the table, and its recursive release the number of inodes plus one.  The
    MINIX walk has the longest path, its read and write loops the number of
    blocks their range touches.  The
    calendar loops run to the year and to the month of their argument.

    ** Not modelled

    Translation look-aside buffers, the debugger's probe array, log output
    and event traces other than those listed with a component;
    map_supervisor_identity_low and create_process_page_directory, which end
    in device code; saving of registers and the assembly of the context switch;
    the creation of the first processes, exec and threads; of exit and fork,
    what lies behind [ProcRes], since memory, descriptors and futexes are
    verified apart from the table; the heap blocks behind tmpfs files, which are
    values of their inodes; epoll, sockets, devices and memory files behind
    descriptors, which the laws of [FdBackend] describe; [send_signal_pgrp] beyond its definition; the
    virtual file system and the file systems other than tmpfs and MINIX; for
    MINIX, theorems about failing requests and about [mkdir], [rmdir] and [link]
    beyond their definitions; the system call
    layer beyond the functions named above; networking; device drivers and
    firmware tables, whose behaviour is the hardware's.  User programs, other
    languages, tests and vendored code are outside the kernel. *)

(** ** Prelude

    Shared vocabulary of the development: machine-width arithmetic, the
    outcome monad of kernel code, counting over index ranges, and the tactics
    and hints the component files use. *)

From stdpp Require Export base numbers list gmap strings.
From Stdlib Require Export ZArith Lia.

Declare Scope ir0_scope.
Delimit Scope ir0_scope with ir0.
#[export] Set Default Goal Selector "!".
Global Open Scope Z_scope.

(** ** Machine integers

    A [w]-bit unsigned value is a [Z] reduced modulo [2^w] at every operation
    that can leave the range; [s32] is the two's-complement reading. *)

Definition u8 (z : Z) : Z := z mod 2 ^ 8.
Definition u16 (z : Z) : Z := z mod 2 ^ 16.
Definition u32 (z : Z) : Z := z mod 2 ^ 32.
Definition u64 (z : Z) : Z := z mod 2 ^ 64.
Definition s32 (z : Z) : Z := (z + 2 ^ 31) mod 2 ^ 32 - 2 ^ 31.

Definition U32_MAX : Z := 4294967295.
Definition U64_MAX : Z := 18446744073709551615.

(** C's truth of an integer. *)
Definition truthy (z : Z) : bool := negb (z =? 0).
Definition flag_set (v bit : Z) : bool := truthy (Z.land v bit).

(** ** Outcomes

    Kernel code returns, panics (the machine halts in [panicex]) or reaches
    undefined behaviour (an access outside its object). *)

Inductive outcome (A : Type) : Type :=
| Ok (a : A)
| Panic (msg : string)
| UB.
Arguments Ok {A} _.
Arguments Panic {A} _.
Arguments UB {A}.

#[export] Instance outcome_ret : MRet outcome := fun A a => Ok a.
#[export] Instance outcome_bind : MBind outcome := fun A B f m =>
  match m with Ok a => f a | Panic s => Panic s | UB => UB end.

(** An access that must stay inside its object. *)
Definition or_ub {A} (o : option A) : outcome A :=
  match o with Some a => Ok a | None => UB end.

Definition is_ok {A} (m : outcome A) : Prop := exists a, m = Ok a.

(** [x++] on a C [int]: overflow is undefined. *)
Definition INT_MAX : Z := 2147483647.
Definition int_incr (x : Z) : outcome Z := if decide (x < INT_MAX) then Ok (x + 1) else UB.

(** ** Error numbers (includes/ir0/errno.h); calls return them negated *)

Definition EPERM : Z := 1.
Definition ENOENT : Z := 2.
Definition ESRCH : Z := 3.
Definition EINTR : Z := 4.
Definition EBADF : Z := 9.
Definition EAGAIN : Z := 11.
Definition EWOULDBLOCK : Z := EAGAIN.
Definition ENOMEM : Z := 12.
Definition EACCES : Z := 13.
Definition EFAULT : Z := 14.
Definition EBUSY : Z := 16.
Definition EEXIST : Z := 17.
Definition ENOTDIR : Z := 20.
Definition EISDIR : Z := 21.
Definition EINVAL : Z := 22.
Definition EMFILE : Z := 24.
Definition EFBIG : Z := 27.
Definition ENOSPC : Z := 28.
Definition EPIPE : Z := 32.
Definition ENAMETOOLONG : Z := 36.
Definition ENOLCK : Z := 37.
Definition ENOSYS : Z := 38.
Definition ENOTEMPTY : Z := 39.
Definition ETIMEDOUT : Z := 110.

(** ** Counting over an index range *)

Fixpoint count_upto (f : nat -> bool) (n : nat) : nat :=
  match n with
  | O => O
  | S m => (count_upto f m + if f m then 1 else 0)%nat
  end.

Section count.
Implicit Types f g : nat -> bool.

Lemma count_upto_ext f g n :
  (forall i, (i < n)%nat -> f i = g i) -> count_upto f n = count_upto g n.
Proof. induction n; intros H; simpl; [done|]. rewrite IHn, H; auto with lia. Qed.

Lemma count_upto_le f n : (count_upto f n <= n)%nat.
Proof. induction n; simpl; [done|]. destruct (f n); lia. Qed.

Lemma count_upto_false n : count_upto (fun _ => false) n = 0%nat.
Proof. induction n; simpl; lia. Qed.

Lemma count_upto_full f n :
  count_upto f n = n <-> (forall i, (i < n)%nat -> f i = true).
Proof.
  induction n; simpl; [split; intros; lia|].
  pose proof (count_upto_le f n). split.
  - intros H1 i Hi. destruct (f n) eqn:E; [|lia].
    destruct (decide (i = n)) as [->|]; [done|]. apply IHn; lia.
  - intros H1. rewrite (H1 n) by lia.
    assert (count_upto f n = n) by (apply IHn; intros; apply H1; lia). lia.
Qed.

(** Turning index [k] on raises the count by exactly one. *)
Lemma count_upto_set f g n k :
  (k < n)%nat -> f k = false -> g k = true ->
  (forall i, (i < n)%nat -> i <> k -> f i = g i) ->
  count_upto g n = S (count_upto f n).
Proof.
  induction n; intros Hk Hf Hg Hext; [lia|]. simpl.
  destruct (decide (k = n)) as [->|Hne].
  - rewrite Hf, Hg, (count_upto_ext g f); [lia|].
    intros; symmetry; apply Hext; lia.
  - rewrite IHn, (Hext n); auto with lia.
Qed.
End count.

(** ** First index of a range satisfying a test: the [for ... break] loop *)

Fixpoint find_from (p : nat -> bool) (i n : nat) : option nat :=
  match n with
  | O => None
  | S n' => if p i then Some i else find_from p (S i) n'
  end.

Lemma find_from_Some p i n k :
  find_from p i n = Some k <->
  (i <= k < i + n)%nat /\ p k = true /\ (forall j, (i <= j < k)%nat -> p j = false).
Proof.
  revert i; induction n; intros i; simpl.
  - split; [done|]. intros [? _]; lia.
  - destruct (p i) eqn:E.
    + split.
      * intros [= <-]. repeat split; auto; lia.
      * intros (H1 & H2 & H3). f_equal.
        destruct (decide (i = k)); [done|]. rewrite H3 in E by lia. done.
    + rewrite IHn. split; intros (H1 & H2 & H3); (split; [|split]); auto; try lia.
      * intros j Hj. destruct (decide (j = i)) as [->|]; [done|]. apply H3; lia.
      * destruct (decide (i = k)) as [->|]; [congruence|lia].
      * intros j Hj. apply H3. lia.
Qed.

Lemma find_from_None p i n :
  find_from p i n = None <-> (forall j, (i <= j < i + n)%nat -> p j = false).
Proof.
  revert i; induction n; intros i; simpl.
  - split; [|done]. intros; lia.
  - destruct (p i) eqn:E.
    + split; [done|]. intros H. rewrite H in E by lia. done.
    + rewrite IHn. split; intros H j Hj; [|apply H; lia].
      destruct (decide (j = i)) as [->|]; [done|]. apply H; lia.
Qed.

(** ** Tactics *)

(** Split a conjunction into named goals and close what is arithmetic. *)
Ltac splits := repeat match goal with |- _ /\ _ => split end.
Ltac solve_arith := first [lia | nia].

(** Case analysis on a decision of the goal, leaving the hypotheses alone. *)
Ltac dec_goal :=
  match goal with |- context [@decide ?P ?D] => destruct (@decide P D) end.

(** Case analysis on every [if]/[match] the hypothesis or the goal is stuck on. *)
Ltac cases_in H :=
  repeat (case_decide || case_match || simplify_eq/=); try done.

Create HintDb ir0 discriminated.
#[export] Hint Constants Opaque : ir0.
#[export] Hint Resolve Nat.lt_le_incl Z.lt_le_incl : ir0.
