(* ===== verification/Bytes.v ===== *)
(** * Bytes, bits and texts

    Byte-level vocabulary shared by several components: bitmaps in byte
    arrays and texts split at slashes. *)

From S2P Require Import Prelude.

(** ** Bitmaps *)

Definition bitmap_set (b : list Z) (i : nat) : list Z :=
  <[(i / 8)%nat := u8 (Z.lor (b !!! (i / 8)%nat) (Z.shiftl 1 (Z.of_nat (i mod 8))))]> b.

Definition bitmap_clear (b : list Z) (i : nat) : list Z :=
  <[(i / 8)%nat := u8 (Z.land (b !!! (i / 8)%nat) (Z.lnot (Z.shiftl 1 (Z.of_nat (i mod 8)))))]> b.

Definition bitmap_test (b : list Z) (i : nat) : bool :=
  truthy (Z.land (b !!! (i / 8)%nat) (Z.shiftl 1 (Z.of_nat (i mod 8)))).

Lemma truthy_land_bit x k : 0 <= k -> truthy (Z.land x (Z.shiftl 1 k)) = Z.testbit x k.
Proof.
  intros Hk. rewrite Z.shiftl_1_l. unfold truthy. destruct (Z.testbit x k) eqn:E.
  - destruct (Z.eqb_spec (Z.land x (2 ^ k)) 0) as [H|H]; [|done].
    apply (f_equal (fun z => Z.testbit z k)) in H.
    rewrite Z.land_spec, E, Z.pow2_bits_true, Z.bits_0 in H by lia. done.
  - replace (Z.land x (2 ^ k)) with 0; [done|]. symmetry. apply Z.bits_inj_0. intros n.
    rewrite Z.land_spec. destruct (decide (n = k)) as [->|]; [by rewrite E|].
    rewrite Z.pow2_bits_false by lia. by rewrite andb_false_r.
Qed.

Lemma bitmap_test_bit b i : bitmap_test b i = Z.testbit (b !!! (i / 8)%nat) (Z.of_nat (i mod 8)).
Proof. apply truthy_land_bit. lia. Qed.

Lemma bit_coord (i j : nat) : (i / 8 = j / 8 -> i mod 8 = j mod 8 -> i = j)%nat.
Proof. intros H1 H2. rewrite (Nat.div_mod_eq i 8), (Nat.div_mod_eq j 8). lia. Qed.

(** A byte update that only touches bit [i mod 8] of byte [i / 8]. *)
Lemma bitmap_update_bits (b : list Z) i x v :
  (i / 8 < length b)%nat ->
  (forall n, (n < 8)%nat -> Z.testbit x (Z.of_nat n) =
     if decide (n = i mod 8)%nat then v else Z.testbit (b !!! (i / 8)%nat) (Z.of_nat n)) ->
  forall j, bitmap_test (<[(i / 8)%nat := u8 x]> b) j = if decide (j = i) then v else bitmap_test b j.
Proof.
  intros Hl Hx j. rewrite !bitmap_test_bit.
  pose proof (Nat.mod_upper_bound j 8 ltac:(lia)).
  destruct (decide (j / 8 = i / 8)%nat) as [E|E].
  - rewrite E, list_lookup_total_insert_eq by lia. unfold u8.
    rewrite Z.mod_pow2_bits_low, Hx by lia.
    destruct (decide (j = i)) as [->|Hne]; [by rewrite decide_True|].
    rewrite decide_False; [done|]. intros H'. apply Hne, bit_coord; congruence.
  - rewrite list_lookup_total_insert_ne by done. rewrite decide_False by congruence. done.
Qed.

Lemma bitmap_test_set b i j :
  (i / 8 < length b)%nat ->
  bitmap_test (bitmap_set b i) j = if decide (j = i) then true else bitmap_test b j.
Proof.
  intros Hl. apply bitmap_update_bits; [done|]. intros n Hn.
  rewrite Z.lor_spec, Z.shiftl_1_l. case_decide.
  - subst. by rewrite Z.pow2_bits_true, orb_true_r by lia.
  - by rewrite Z.pow2_bits_false, orb_false_r by lia.
Qed.

Lemma bitmap_test_clear b i j :
  (i / 8 < length b)%nat ->
  bitmap_test (bitmap_clear b i) j = if decide (j = i) then false else bitmap_test b j.
Proof.
  intros Hl. apply bitmap_update_bits; [done|]. intros n Hn.
  rewrite Z.land_spec, Z.lnot_spec, Z.shiftl_1_l by lia. case_decide.
  - subst. by rewrite Z.pow2_bits_true, andb_false_r by lia.
  - by rewrite Z.pow2_bits_false, andb_true_r by lia.
Qed.

(** ** Texts split at slashes *)

Definition SLASH : Z := 47.

(** [strchr(s, '/')]: the text before the first slash, and the text behind it. *)
Fixpoint break_slash (s : list Z) : list Z * option (list Z) :=
  match s with
  | [] => ([], None)
  | c :: s' => if decide (c = SLASH) then ([], Some s') else let '(a, b) := break_slash s' in (c :: a, b)
  end.
(** [strrchr(s, '/')]: the text before the last slash, and the text behind it. *)
Fixpoint break_last_slash (s : list Z) : option (list Z * list Z) :=
  match s with
  | [] => None
  | c :: s' =>
      match break_last_slash s' with
      | Some (a, b) => Some (c :: a, b)
      | None => if decide (c = SLASH) then Some ([], s') else None
      end
  end.

Fixpoint split_slash (s : list Z) : list (list Z) :=
  match s with
  | [] => [[]]
  | c :: s' => if decide (c = SLASH) then [] :: split_slash s' else
               match split_slash s' with [] => [[c]] | x :: r => (c :: x) :: r end
  end.

Definition comps (s : list Z) : list (list Z) := filter (fun c => c <> []) (split_slash s).

Lemma split_slash_nonempty s : split_slash s <> [].
Proof. destruct s as [|c s]; [done|]. cbn. case_decide; [done|]. by destruct (split_slash s). Qed.

Lemma split_slash_plain s : Forall (fun c => c <> SLASH) s -> split_slash s = [s].
Proof. induction 1 as [|c s Hc _ IH]; [done|]. cbn. rewrite decide_False by done. by rewrite IH. Qed.

Lemma split_slash_app a b : split_slash (a ++ SLASH :: b) = split_slash a ++ split_slash b.
Proof.
  induction a as [|c a IH]; [cbn; by rewrite decide_True|]. cbn [app split_slash]. rewrite IH. case_decide; [done|].
  pose proof (split_slash_nonempty a). by destruct (split_slash a).
Qed.

Lemma comps_app a b : comps (a ++ SLASH :: b) = comps a ++ comps b.
Proof. unfold comps. by rewrite split_slash_app, filter_app. Qed.

Lemma comps_plain s : s <> [] -> Forall (fun c => c <> SLASH) s -> comps s = [s].
Proof. intros H1 H2. unfold comps. rewrite split_slash_plain by done. by rewrite filter_cons_True. Qed.

Lemma comps_slash b : comps (SLASH :: b) = comps b.
Proof. apply (comps_app []). Qed.

Lemma break_slash_spec s a b : break_slash s = (a, b) ->
  Forall (fun c => c <> SLASH) a /\ match b with None => s = a | Some b => s = a ++ SLASH :: b end.
Proof.
  revert a. induction s as [|c s IH]; intros a; cbn; [by intros [= <- <-]|]. case_decide as E; [intros [= <- <-]; by subst|].
  destruct (break_slash s) as [a' b'] eqn:Es. intros [= <- <-]. destruct (IH a' eq_refl) as [Ha Hb]. split; [by constructor|].
  destruct b'; by subst.
Qed.

Lemma break_last_slash_spec s :
  match break_last_slash s with
  | None => Forall (fun c => c <> SLASH) s
  | Some (a, b) => s = a ++ SLASH :: b /\ Forall (fun c => c <> SLASH) b
  end.
Proof.
  induction s as [|c s IH]; cbn; [done|]. destruct (break_last_slash s) as [[a b]|]; [destruct IH as [-> ?]; done|].
  case_decide as E; [by subst|by constructor].
Qed.
