(* ===== verification/Pmm.v ===== *)
(** * Physical memory manager (src/mm/pmm.c)

    The static [pmm] struct and its side tables are the record [pmm_state];
    every function of the file is a definition of the same name.  A table the
    code reaches through a possibly-NULL pointer is an [option (list _)].
    Locking ([pmm_lock]) only masks interrupts on a uniprocessor and has no
    counterpart here: each definition is one critical section. *)

From S2P Require Import Prelude Bytes.

Definition PMM_FRAME_SIZE : Z := 4096.
(** [IR0_DEBUG_PMM] of includes/ir0/debug_runtime.h. *)
Definition IR0_DEBUG_PMM : bool := false.

Inductive pmm_owner_class_t :=
| PMM_OWNER_NONE | PMM_OWNER_KERNEL | PMM_OWNER_USER
| PMM_OWNER_SHARED | PMM_OWNER_PAGE_TABLE.

#[export] Instance owner_class_eq_dec : EqDecision pmm_owner_class_t.
Proof. solve_decision. Defined.
#[export] Instance owner_class_inhabited : Inhabited pmm_owner_class_t := populate PMM_OWNER_NONE.

(** What [pmm_owner_on_alloc_locked] reads of [current_process]. *)
Record proc_view := { pv_user_mode : bool; pv_pid : Z }.

Record pmm_state := {
  mem_start : Z;
  mem_end : Z;
  total_frames : nat;
  bitmap : list Z;
  used_frames : Z;
  initialized : bool;
  pmm_search_hint : Z;
  pmm_owner_class_tab : option (list pmm_owner_class_t);
  pmm_frame_owner_pid : option (list Z);
  pmm_frame_refs : option (list Z);
  pmm_diag_double_free : Z;
  pmm_diag_events : Z
}.

(** The zero-initialised statics. *)
Definition pmm_boot : pmm_state := {|
  mem_start := 0; mem_end := 0; total_frames := 0; bitmap := [];
  used_frames := 0; initialized := false; pmm_search_hint := 0;
  pmm_owner_class_tab := None; pmm_frame_owner_pid := None; pmm_frame_refs := None;
  pmm_diag_double_free := 0; pmm_diag_events := 0 |}.

(** ** Field updates *)

Definition set_bitmap (b : list Z) (s : pmm_state) : pmm_state := {|
  mem_start := mem_start s; mem_end := mem_end s; total_frames := total_frames s;
  bitmap := b; used_frames := used_frames s; initialized := initialized s;
  pmm_search_hint := pmm_search_hint s; pmm_owner_class_tab := pmm_owner_class_tab s;
  pmm_frame_owner_pid := pmm_frame_owner_pid s; pmm_frame_refs := pmm_frame_refs s;
  pmm_diag_double_free := pmm_diag_double_free s; pmm_diag_events := pmm_diag_events s |}.

Definition set_used (u : Z) (s : pmm_state) : pmm_state := {|
  mem_start := mem_start s; mem_end := mem_end s; total_frames := total_frames s;
  bitmap := bitmap s; used_frames := u; initialized := initialized s;
  pmm_search_hint := pmm_search_hint s; pmm_owner_class_tab := pmm_owner_class_tab s;
  pmm_frame_owner_pid := pmm_frame_owner_pid s; pmm_frame_refs := pmm_frame_refs s;
  pmm_diag_double_free := pmm_diag_double_free s; pmm_diag_events := pmm_diag_events s |}.

Definition set_hint (h : Z) (s : pmm_state) : pmm_state := {|
  mem_start := mem_start s; mem_end := mem_end s; total_frames := total_frames s;
  bitmap := bitmap s; used_frames := used_frames s; initialized := initialized s;
  pmm_search_hint := h; pmm_owner_class_tab := pmm_owner_class_tab s;
  pmm_frame_owner_pid := pmm_frame_owner_pid s; pmm_frame_refs := pmm_frame_refs s;
  pmm_diag_double_free := pmm_diag_double_free s; pmm_diag_events := pmm_diag_events s |}.

Definition set_owner (c : option (list pmm_owner_class_t)) (p : option (list Z))
    (s : pmm_state) : pmm_state := {|
  mem_start := mem_start s; mem_end := mem_end s; total_frames := total_frames s;
  bitmap := bitmap s; used_frames := used_frames s; initialized := initialized s;
  pmm_search_hint := pmm_search_hint s; pmm_owner_class_tab := c;
  pmm_frame_owner_pid := p; pmm_frame_refs := pmm_frame_refs s;
  pmm_diag_double_free := pmm_diag_double_free s; pmm_diag_events := pmm_diag_events s |}.

Definition set_refs (r : option (list Z)) (s : pmm_state) : pmm_state := {|
  mem_start := mem_start s; mem_end := mem_end s; total_frames := total_frames s;
  bitmap := bitmap s; used_frames := used_frames s; initialized := initialized s;
  pmm_search_hint := pmm_search_hint s; pmm_owner_class_tab := pmm_owner_class_tab s;
  pmm_frame_owner_pid := pmm_frame_owner_pid s; pmm_frame_refs := r;
  pmm_diag_double_free := pmm_diag_double_free s; pmm_diag_events := pmm_diag_events s |}.

Definition set_events (e : Z) (s : pmm_state) : pmm_state := {|
  mem_start := mem_start s; mem_end := mem_end s; total_frames := total_frames s;
  bitmap := bitmap s; used_frames := used_frames s; initialized := initialized s;
  pmm_search_hint := pmm_search_hint s; pmm_owner_class_tab := pmm_owner_class_tab s;
  pmm_frame_owner_pid := pmm_frame_owner_pid s; pmm_frame_refs := pmm_frame_refs s;
  pmm_diag_double_free := pmm_diag_double_free s; pmm_diag_events := e |}.

(** [tab[i] = x] through a pointer that may be NULL (the code tests it first). *)
Definition tab_set {A} (tab : option (list A)) (i : nat) (x : A) : option (list A) :=
  (fun l => <[i := x]> l) <$> tab.

(** ** Index arithmetic and bitmap *)

(** [phys_addr & ~(PMM_FRAME_SIZE - 1)] *)
Definition frame_align_down (a : Z) : Z := Z.land a (Z.lnot (PMM_FRAME_SIZE - 1)).

Definition pmm_frame_index (s : pmm_state) (phys_addr : Z) : option nat :=
  if negb (initialized s) then None
  else if decide (phys_addr < mem_start s \/ mem_end s <= phys_addr) then None
  else
    let a := frame_align_down phys_addr in
    let i := Z.to_nat (u64 (a - mem_start s) / PMM_FRAME_SIZE) in
    if decide (total_frames s <= i)%nat then None else Some i.

(** ** Ownership tags *)

Definition pmm_owner_clear_locked (s : pmm_state) (i : nat) : pmm_state :=
  set_owner (tab_set (pmm_owner_class_tab s) i PMM_OWNER_NONE)
            (tab_set (pmm_frame_owner_pid s) i (-1)) s.

Definition pmm_owner_on_alloc_locked (cur : option proc_view) (s : pmm_state) (i : nat) : pmm_state :=
  let '(cls, pid) :=
    match cur with
    | Some p =>
        if pv_user_mode p then
          if decide (0 < pv_pid p) then (PMM_OWNER_USER, pv_pid p) else (PMM_OWNER_KERNEL, -1)
        else (PMM_OWNER_KERNEL, -1)
    | None => (PMM_OWNER_KERNEL, -1)
    end in
  set_owner (tab_set (pmm_owner_class_tab s) i cls)
            (tab_set (pmm_frame_owner_pid s) i pid) s.

Definition pmm_owner_on_get_locked (s : pmm_state) (i : nat) : pmm_state :=
  match pmm_owner_class_tab s, pmm_frame_refs s with
  | Some cl, Some rf =>
      if decide (2 <= rf !!! i /\ cl !!! i = PMM_OWNER_USER)
      then set_owner (Some (<[i := PMM_OWNER_SHARED]> cl))
                     (tab_set (pmm_frame_owner_pid s) i (-1)) s
      else s
  | _, _ => s
  end.

Definition pmm_owner_set_locked (s : pmm_state) (i : nat) (cls0 : pmm_owner_class_t) (pid : Z) : pmm_state :=
  match pmm_owner_class_tab s with
  | None => s
  | Some cl =>
      let refs := match pmm_frame_refs s with Some rf => rf !!! i | None => 0 end in
      let cls := if decide (2 <= refs /\ cls0 = PMM_OWNER_USER) then PMM_OWNER_SHARED else cls0 in
      if decide (cls = PMM_OWNER_SHARED \/ 2 <= refs)
      then set_owner (Some (<[i := PMM_OWNER_SHARED]> cl))
                     (tab_set (pmm_frame_owner_pid s) i (-1)) s
      else set_owner (Some (<[i := cls]> cl))
                     (tab_set (pmm_frame_owner_pid s) i
                        (if decide (cls = PMM_OWNER_USER /\ 0 < pid) then pid else -1)) s
  end.

(** ** Operations *)

(** The four [kmalloc] calls are the parameters [km_*]: [false] is a NULL. *)
Definition pmm_init (km_bitmap km_class km_pid km_refs : bool)
    (start size : Z) (s : pmm_state) : pmm_state :=
  if initialized s then s else
  let ms := Z.land (u64 (start + PMM_FRAME_SIZE - 1)) (Z.lnot (PMM_FRAME_SIZE - 1)) in
  let me := Z.land (u64 (start + size)) (Z.lnot (PMM_FRAME_SIZE - 1)) in
  let total := Z.to_nat (u64 (me - ms) / PMM_FRAME_SIZE) in
  let bitmap_size := ((total + 7) / 8)%nat in
  if km_bitmap then
    {| mem_start := ms; mem_end := me; total_frames := total;
       bitmap := replicate bitmap_size 0; used_frames := 0; initialized := true;
       pmm_search_hint := 0;
       pmm_owner_class_tab := if km_class then Some (replicate total PMM_OWNER_NONE) else None;
       pmm_frame_owner_pid := if km_pid then Some (replicate total (-1)) else None;
       pmm_frame_refs := if km_refs then Some (replicate total 0) else None;
       pmm_diag_double_free := 0; pmm_diag_events := 0 |}
  else
    {| mem_start := ms; mem_end := me; total_frames := total; bitmap := [];
       used_frames := used_frames s; initialized := initialized s;
       pmm_search_hint := pmm_search_hint s;
       pmm_owner_class_tab := pmm_owner_class_tab s;
       pmm_frame_owner_pid := pmm_frame_owner_pid s; pmm_frame_refs := pmm_frame_refs s;
       pmm_diag_double_free := pmm_diag_double_free s; pmm_diag_events := pmm_diag_events s |}.

Definition note_event (s : pmm_state) : pmm_state :=
  if decide (pmm_diag_events s < 2048) then
    if IR0_DEBUG_PMM then set_events (pmm_diag_events s + 1) s else s
  else s.

(** The body of the inner [if (!bitmap_test(i))] of [pmm_alloc_frame]. *)
Definition take_frame (cur : option proc_view) (s : pmm_state) (i : nat) : pmm_state :=
  let s := set_bitmap (bitmap_set (bitmap s) i) s in
  let s := set_used (u64 (used_frames s + 1)) s in
  let s := set_hint (u32 (Z.of_nat ((i + 1) mod total_frames s))) s in
  let s := set_refs (tab_set (pmm_frame_refs s) i 1) s in
  let s := pmm_owner_on_alloc_locked cur s i in
  note_event s.

(** One pass of the outer loop: scan [i, end) for a clear bit. *)
Definition alloc_pass (cur : option proc_view) (s : pmm_state) (i e : nat) : pmm_state * Z :=
  match find_from (fun k => negb (bitmap_test (bitmap s) k)) i (e - i) with
  | Some k => (take_frame cur s k, u64 (mem_start s + Z.of_nat k * PMM_FRAME_SIZE))
  | None => (s, 0)
  end.

Definition pmm_alloc_frame (cur : option proc_view) (s : pmm_state) : pmm_state * Z :=
  if negb (initialized s) then (s, 0) else
  let h := Z.to_nat (pmm_search_hint s) in
  let start := if decide (total_frames s <= h)%nat then 0%nat else h in
  let '(s1, ret) := alloc_pass cur s start (total_frames s) in
  if decide (ret = 0) then alloc_pass cur s1 0 start else (s1, ret).

Definition pmm_frame_get (s : pmm_state) (phys_addr : Z) : outcome pmm_state :=
  match pmm_frame_index s phys_addr with
  | None => Ok s
  | Some i =>
      if negb (bitmap_test (bitmap s) i) then Ok s
      else match pmm_frame_refs s with
           | None => Ok s
           | Some rf =>
               if decide (U32_MAX <= rf !!! i) then Panic "PMM: refcount overflow on frame_get"
               else Ok (pmm_owner_on_get_locked
                          (set_refs (Some (<[i := u32 (rf !!! i + 1)]> rf)) s) i)
           end
  end.

(** The tail of [pmm_frame_put]: the frame goes back to the free pool. *)
Definition release_frame (s : pmm_state) (i : nat) : pmm_state :=
  let s := set_bitmap (bitmap_clear (bitmap s) i) s in
  let s := set_used (u64 (used_frames s - 1)) s in
  let s := pmm_owner_clear_locked s i in
  let s := if decide (i < Z.to_nat (pmm_search_hint s))%nat then set_hint 0 s else s in
  note_event s.

Definition pmm_frame_put (s : pmm_state) (phys_addr : Z) : outcome pmm_state :=
  match pmm_frame_index s phys_addr with
  | None => Ok s
  | Some i =>
      if negb (bitmap_test (bitmap s) i) then Panic "PMM: double free detected"
      else match pmm_frame_refs s with
           | Some rf =>
               if decide (rf !!! i = 0) then Panic "PMM: put with zero refcount on used frame"
               else if decide (1 < rf !!! i)
                    then Ok (set_refs (Some (<[i := u32 (rf !!! i - 1)]> rf)) s)
                    else Ok (release_frame (set_refs (Some (<[i := 0]> rf)) s) i)
           | None => Ok (release_frame s i)
           end
  end.

Definition pmm_free_frame := pmm_frame_put.

Definition pmm_frame_refcount (s : pmm_state) (phys_addr : Z) : Z :=
  match pmm_frame_index s phys_addr with
  | None => 0
  | Some i =>
      if bitmap_test (bitmap s) i
      then match pmm_frame_refs s with Some rf => rf !!! i | None => 0 end
      else 0
  end.

Definition pmm_frame_set_owner_class (s : pmm_state) (phys_addr : Z)
    (cls : pmm_owner_class_t) (pid : Z) : pmm_state :=
  match pmm_frame_index s phys_addr with
  | None => s
  | Some i => if negb (bitmap_test (bitmap s) i) then s else pmm_owner_set_locked s i cls pid
  end.

Definition pmm_frame_owner_class (s : pmm_state) (phys_addr : Z) : pmm_owner_class_t :=
  match pmm_frame_index s phys_addr with
  | None => PMM_OWNER_NONE
  | Some i =>
      if bitmap_test (bitmap s) i
      then match pmm_owner_class_tab s with Some cl => cl !!! i | None => PMM_OWNER_NONE end
      else PMM_OWNER_NONE
  end.

(** [pmm_stats]: total, used and free, or nothing before [pmm_init]. *)
Definition pmm_stats (s : pmm_state) : option (Z * Z * Z) :=
  if negb (initialized s) then None
  else Some (Z.of_nat (total_frames s), used_frames s,
             u64 (Z.of_nat (total_frames s) - used_frames s)).

(** [pmm_owner_audit]; [alive pid] is [process_find_by_pid(pid) != NULL]. *)
Definition pmm_owner_audit (alive : Z -> bool) (s : pmm_state) : option (Z * Z * Z) :=
  if negb (initialized s) then None else
  let '(orphan, missing) :=
    match pmm_owner_class_tab s with
    | None => (0%nat, 0%nat)
    | Some cl =>
        (count_upto (fun i => bitmap_test (bitmap s) i &&
                              bool_decide (cl !!! i = PMM_OWNER_NONE)) (total_frames s),
         count_upto (fun i => bitmap_test (bitmap s) i &&
           match pmm_frame_owner_pid s with
           | Some pids => bool_decide (cl !!! i = PMM_OWNER_USER) &&
                          bool_decide (0 < pids !!! i) && negb (alive (pids !!! i))
           | None => false
           end) (total_frames s))
    end in
  Some (Z.of_nat orphan, pmm_diag_double_free s, Z.of_nat missing).

Definition pmm_fase47_frame_is_used (s : pmm_state) (i : nat) : bool :=
  if negb (initialized s) then false
  else if decide (total_frames s <= i)%nat then false else bitmap_test (bitmap s) i.

Definition pmm_fase47_frame_owner_class (s : pmm_state) (i : nat) : pmm_owner_class_t :=
  if negb (initialized s) then PMM_OWNER_NONE
  else if decide (total_frames s <= i)%nat then PMM_OWNER_NONE
  else match pmm_owner_class_tab s with
       | None => PMM_OWNER_NONE
       | Some cl => if bitmap_test (bitmap s) i then cl !!! i else PMM_OWNER_NONE
       end.

Definition pmm_fase47_frame_owner (s : pmm_state) (i : nat) : Z :=
  if negb (initialized s) then -1
  else if decide (total_frames s <= i)%nat then -1
  else match pmm_frame_owner_pid s with
       | None => -1
       | Some pids =>
           match pmm_owner_class_tab s with
           | Some cl => if bitmap_test (bitmap s) i && bool_decide (cl !!! i = PMM_OWNER_USER)
                        then pids !!! i else -1
           | None => -1
           end
       end.

Definition pmm_fase47_frame_phys (s : pmm_state) (i : nat) : Z :=
  if negb (initialized s) then 0
  else if decide (total_frames s <= i)%nat then 0
  else u64 (mem_start s + Z.of_nat i * PMM_FRAME_SIZE).

(** ** Invariant *)

Definition bit (s : pmm_state) (i : nat) : bool := bitmap_test (bitmap s) i.

Definition tab_len {A} (t : option (list A)) (n : nat) : Prop :=
  match t with Some l => length l = n | None => True end.

Definition refs_ok (s : pmm_state) : Prop :=
  match pmm_frame_refs s with
  | Some rf => forall i, (i < total_frames s)%nat ->
      if bit s i then 1 <= rf !!! i <= U32_MAX else rf !!! i = 0
  | None => True
  end.

(** A free frame carries no tag, and a frame with two or more references is
    never attributed to a single process. *)
Definition owner_ok (s : pmm_state) : Prop :=
  match pmm_owner_class_tab s with
  | Some cl =>
      (forall i, (i < total_frames s)%nat -> bit s i = false -> cl !!! i = PMM_OWNER_NONE) /\
      match pmm_frame_refs s with
      | Some rf => forall i, (i < total_frames s)%nat ->
          2 <= rf !!! i -> cl !!! i <> PMM_OWNER_USER
      | None => True
      end
  | None => True
  end.

Record pmm_inv (s : pmm_state) : Prop := {
  inv_init : initialized s = true;
  inv_start : 0 < mem_start s;
  inv_align : mem_start s mod PMM_FRAME_SIZE = 0;
  inv_end : mem_end s = mem_start s + Z.of_nat (total_frames s) * PMM_FRAME_SIZE;
  inv_top : mem_end s < 2 ^ 64;
  inv_bitmap : length (bitmap s) = ((total_frames s + 7) / 8)%nat;
  inv_used : used_frames s = Z.of_nat (count_upto (bit s) (total_frames s));
  inv_hint : 0 <= pmm_search_hint s;
  inv_cls_len : tab_len (pmm_owner_class_tab s) (total_frames s);
  inv_pid_len : tab_len (pmm_frame_owner_pid s) (total_frames s);
  inv_refs_len : tab_len (pmm_frame_refs s) (total_frames s);
  inv_refs : refs_ok s;
  inv_owner : owner_ok s
}.

(** The abstract allocator: used frames with their reference counts. *)
Definition refcnt (s : pmm_state) (i : nat) : Z :=
  match pmm_frame_refs s with Some rf => rf !!! i | None => 1 end.

Definition pmm_abs (s : pmm_state) : gmap nat Z :=
  list_to_map ((fun i => (i, refcnt s i)) <$> filter (fun i => bit s i = true) (seq 0 (total_frames s))).

Lemma pmm_abs_lookup s i :
  pmm_abs s !! i = if decide (i < total_frames s)%nat then if bit s i then Some (refcnt s i) else None else None.
Proof.
  unfold pmm_abs.
  set (l := filter (fun i => bit s i = true) (seq 0 (total_frames s))).
  assert (Hnd : NoDup ((fun i => (i, refcnt s i)) <$> l).*1).
  { rewrite <- list_fmap_compose. rewrite (list_fmap_ext _ id).
    - rewrite list_fmap_id. apply NoDup_filter, NoDup_seq.
    - done. }
  assert (Hin : forall r, (i, r) ∈ ((fun i => (i, refcnt s i)) <$> l) <->
             (i < total_frames s)%nat /\ bit s i = true /\ r = refcnt s i).
  { intros r. rewrite list_elem_of_fmap. unfold l. setoid_rewrite list_elem_of_filter.
    setoid_rewrite elem_of_seq. naive_solver lia. }
  case_decide as Hi.
  - destruct (bit s i) eqn:E.
    + apply elem_of_list_to_map_1; [done|]. by apply Hin.
    + apply not_elem_of_list_to_map_1. intros Hx. apply list_elem_of_fmap in Hx as ([k r] & -> & Hx).
      simpl in *. apply Hin in Hx. naive_solver.
  - apply not_elem_of_list_to_map_1. intros Hx. apply list_elem_of_fmap in Hx as ([k r] & -> & Hx).
    simpl in *. apply Hin in Hx. naive_solver.
Qed.

(** ** Preservation *)

Lemma note_event_id s : note_event s = s.
Proof. unfold note_event. by case_decide. Qed.

Lemma byte_count_lt i n : (i < n -> i / 8 < (n + 7) / 8)%nat.
Proof.
  intros Hi. apply Nat.Div0.div_lt_upper_bound.
  pose proof (Nat.div_mod_eq (n + 7) 8). pose proof (Nat.mod_upper_bound (n + 7) 8). lia.
Qed.

Lemma byte_index_lt s i :
  pmm_inv s -> (i < total_frames s)%nat -> (i / 8 < length (bitmap s))%nat.
Proof. intros [] Hi. rewrite inv_bitmap0. by apply byte_count_lt. Qed.

Lemma tab_set_len {A} (t : option (list A)) i x n : tab_len t n -> tab_len (tab_set t i x) n.
Proof. destruct t as [l|]; simpl; [|done]. by rewrite length_insert. Qed.

Lemma used_lt_total s i :
  pmm_inv s -> (i < total_frames s)%nat -> bit s i = false ->
  (count_upto (bit s) (total_frames s) < total_frames s)%nat.
Proof.
  intros [] Hi Hb. pose proof (count_upto_le (bit s) (total_frames s)).
  destruct (decide (count_upto (bit s) (total_frames s) = total_frames s)) as [E|]; [|lia].
  rewrite count_upto_full in E. by rewrite E in Hb.
Qed.

Lemma total_frames_bound s : pmm_inv s -> Z.of_nat (total_frames s) < 2 ^ 52.
Proof. intros []. unfold PMM_FRAME_SIZE in *. lia. Qed.

(** The frame [i] leaves the free pool: every field after [take_frame]. *)
Lemma take_frame_shape cur s i : exists cls pid, take_frame cur s i = {|
  mem_start := mem_start s; mem_end := mem_end s; total_frames := total_frames s;
  bitmap := bitmap_set (bitmap s) i; used_frames := u64 (used_frames s + 1);
  initialized := initialized s;
  pmm_search_hint := u32 (Z.of_nat ((i + 1) mod total_frames s));
  pmm_owner_class_tab := tab_set (pmm_owner_class_tab s) i cls;
  pmm_frame_owner_pid := tab_set (pmm_frame_owner_pid s) i pid;
  pmm_frame_refs := tab_set (pmm_frame_refs s) i 1;
  pmm_diag_double_free := pmm_diag_double_free s; pmm_diag_events := pmm_diag_events s |}.
Proof.
  unfold take_frame. rewrite note_event_id. unfold pmm_owner_on_alloc_locked.
  destruct (match cur with Some _ => _ | None => _ end) as [cls pid]. by exists cls, pid.
Qed.

(** Same for [release_frame] (the hint only ever drops to zero). *)
Lemma release_frame_shape s i : exists h, (h = 0 \/ h = pmm_search_hint s) /\ release_frame s i = {|
  mem_start := mem_start s; mem_end := mem_end s; total_frames := total_frames s;
  bitmap := bitmap_clear (bitmap s) i; used_frames := u64 (used_frames s - 1);
  initialized := initialized s; pmm_search_hint := h;
  pmm_owner_class_tab := tab_set (pmm_owner_class_tab s) i PMM_OWNER_NONE;
  pmm_frame_owner_pid := tab_set (pmm_frame_owner_pid s) i (-1);
  pmm_frame_refs := pmm_frame_refs s;
  pmm_diag_double_free := pmm_diag_double_free s; pmm_diag_events := pmm_diag_events s |}.
Proof.
  unfold release_frame. rewrite note_event_id. cbv zeta. simpl. case_decide; eauto.
Qed.

(** Insertion into a side table, read back. *)
Lemma tab_insert_lookup {A} `{!Inhabited A} (l : list A) i j x n :
  length l = n -> (i < n)%nat -> <[i := x]> l !!! j = if decide (j = i) then x else l !!! j.
Proof.
  intros <- Hi. case_decide; subst.
  - by rewrite list_lookup_total_insert_eq.
  - by rewrite list_lookup_total_insert_ne.
Qed.

Section take.
Context (cur : option proc_view) (s : pmm_state) (i : nat).
Hypothesis Hinv : pmm_inv s.
Hypothesis Hi : (i < total_frames s)%nat.
Hypothesis Hfree : bit s i = false.

Lemma bit_take j : bit (take_frame cur s i) j = if decide (j = i) then true else bit s j.
Proof.
  destruct (take_frame_shape cur s i) as (cls & pid & ->). unfold bit. simpl.
  apply bitmap_test_set, byte_index_lt; done.
Qed.

Lemma take_frame_inv : pmm_inv (take_frame cur s i).
Proof.
  pose proof bit_take as Hbit.
  pose proof (used_lt_total s i Hinv Hi Hfree). pose proof (total_frames_bound s Hinv).
  assert (Hcnt : count_upto (bit (take_frame cur s i)) (total_frames s)
                 = S (count_upto (bit s) (total_frames s))).
  { apply (count_upto_set _ _ _ i); [done|done|by rewrite Hbit, decide_True|].
    intros j _ Hj. by rewrite Hbit, decide_False. }
  destruct Hinv, (take_frame_shape cur s i) as (cls & pid & E). rewrite E in *.
  constructor; simpl in *; auto using @tab_set_len.
  - unfold bitmap_set. by rewrite length_insert.
  - rewrite Hcnt. unfold u64. rewrite Z.mod_small; lia.
  - apply Z.mod_pos_bound. lia.
  - unfold refs_ok in *. simpl. destruct (pmm_frame_refs s) as [rf|]; simpl in *; [|done].
    intros j Hj. rewrite Hbit, (tab_insert_lookup _ _ _ _ _ inv_refs_len0 Hi).
    case_decide; [unfold U32_MAX; lia|]. by apply inv_refs0.
  - unfold owner_ok in *. simpl. destruct (pmm_owner_class_tab s) as [cl|]; simpl in *; [|done].
    destruct inv_owner0 as [Ho1 Ho2]. split.
    + intros j Hj. rewrite Hbit, (tab_insert_lookup _ _ _ _ _ inv_cls_len0 Hi).
      case_decide; [done|]. by apply Ho1.
    + destruct (pmm_frame_refs s) as [rf|]; simpl in *; [|done].
      intros j Hj. rewrite (tab_insert_lookup rf _ _ _ _ inv_refs_len0 Hi).
      rewrite (tab_insert_lookup cl _ _ _ _ inv_cls_len0 Hi).
      case_decide; [lia|]. by apply Ho2.
Qed.

Lemma take_frame_abs : pmm_abs (take_frame cur s i) = <[i := 1]> (pmm_abs s).
Proof.
  apply map_eq. intros j. rewrite lookup_insert, !pmm_abs_lookup, bit_take.
  destruct (take_frame_shape cur s i) as (cls & pid & ->). unfold refcnt. simpl.
  pose proof (inv_refs_len _ Hinv) as Hl.
  destruct (pmm_frame_refs s) as [rf|]; simpl in *.
  - rewrite (tab_insert_lookup rf _ _ _ _ Hl Hi). repeat case_decide; congruence.
  - repeat case_decide; congruence.
Qed.
End take.

Section release.
Context (s : pmm_state) (i : nat) (rf' : option (list Z)).
Hypothesis Hinv : pmm_inv s.
Hypothesis Hi : (i < total_frames s)%nat.
Hypothesis Hused : bit s i = true.
Hypothesis Hrf : rf' = tab_set (pmm_frame_refs s) i 0.

Let s' := release_frame (set_refs rf' s) i.

Lemma bit_release j : bit s' j = if decide (j = i) then false else bit s j.
Proof.
  unfold s'. destruct (release_frame_shape (set_refs rf' s) i) as (h & _ & ->).
  unfold bit. simpl. apply bitmap_test_clear, byte_index_lt; done.
Qed.

Lemma release_frame_inv : pmm_inv s'.
Proof.
  pose proof bit_release as Hbit. pose proof (total_frames_bound s Hinv).
  pose proof (count_upto_le (bit s) (total_frames s)).
  assert (Hcnt : count_upto (bit s) (total_frames s) = S (count_upto (bit s') (total_frames s))).
  { apply (count_upto_set _ _ _ i); [done|by rewrite Hbit, decide_True|done|].
    intros j _ Hj. by rewrite Hbit, decide_False. }
  destruct Hinv, (release_frame_shape (set_refs rf' s) i) as (h & Hh & E).
  unfold s' in *. rewrite E in *.
  constructor; simpl in *; subst rf'; auto using @tab_set_len.
  - unfold bitmap_clear. by rewrite length_insert.
  - unfold u64 at 1. rewrite Z.mod_small; lia.
  - destruct Hh; lia.
  - unfold refs_ok in *. simpl. destruct (pmm_frame_refs s) as [rf|]; simpl in *; [|done].
    intros j Hj. rewrite Hbit, (tab_insert_lookup _ _ _ _ _ inv_refs_len0 Hi).
    case_decide; [done|]. by apply inv_refs0.
  - unfold owner_ok in *. simpl. destruct (pmm_owner_class_tab s) as [cl|]; simpl in *; [|done].
    destruct inv_owner0 as [Ho1 Ho2]. split.
    + intros j Hj. rewrite Hbit, (tab_insert_lookup _ _ _ _ _ inv_cls_len0 Hi).
      case_decide; [done|]. by apply Ho1.
    + destruct (pmm_frame_refs s) as [rf|]; simpl in *; [|done].
      intros j Hj. rewrite (tab_insert_lookup rf _ _ _ _ inv_refs_len0 Hi).
      rewrite (tab_insert_lookup cl _ _ _ _ inv_cls_len0 Hi).
      case_decide; [done|]. by apply Ho2.
Qed.

Lemma release_frame_abs : pmm_abs s' = delete i (pmm_abs s).
Proof.
  apply map_eq. intros j. rewrite lookup_delete, !pmm_abs_lookup, bit_release.
  unfold s'. destruct (release_frame_shape (set_refs rf' s) i) as (h & _ & ->). unfold refcnt. simpl.
  pose proof (inv_refs_len _ Hinv) as Hl. subst rf'.
  destruct (pmm_frame_refs s) as [rf|]; simpl in *.
  - rewrite (tab_insert_lookup rf _ _ _ _ Hl Hi). repeat case_decide; congruence.
  - repeat case_decide; congruence.
Qed.
End release.

(** ** Addresses and indices *)

Lemma mask_align_down a : Z.land a (Z.lnot (PMM_FRAME_SIZE - 1)) = a / PMM_FRAME_SIZE * PMM_FRAME_SIZE.
Proof.
  change (PMM_FRAME_SIZE - 1) with (Z.ones 12).
  rewrite <- Z.ldiff_land, Z.ldiff_ones_r, Z.shiftl_mul_pow2, Z.shiftr_div_pow2 by lia. done.
Qed.

Lemma pmm_frame_index_spec s a i :
  pmm_inv s ->
  pmm_frame_index s a = Some i <->
  (i < total_frames s)%nat /\
  mem_start s + Z.of_nat i * PMM_FRAME_SIZE <= a < mem_start s + (Z.of_nat i + 1) * PMM_FRAME_SIZE.
Proof.
  intros []. unfold pmm_frame_index, frame_align_down. rewrite inv_init0, mask_align_down. simpl.
  apply Z.div_exact in inv_align0; [|done].
  set (q := mem_start s / PMM_FRAME_SIZE) in *. unfold PMM_FRAME_SIZE in *.
  case_decide as Hr.
  { split; [done|]. intros [? ?]. nia. }
  assert (Hu : u64 (a / 4096 * 4096 - mem_start s) / 4096 = a / 4096 - q).
  { unfold u64. rewrite Z.mod_small.
    - replace (a / 4096 * 4096 - mem_start s) with ((a / 4096 - q) * 4096) by lia.
      by rewrite Z.div_mul.
    - pose proof (Z.div_mod a 4096). pose proof (Z.mod_pos_bound a 4096).
      assert (q <= a / 4096) by (apply Z.div_le_lower_bound; lia). lia. }
  rewrite Hu. pose proof (Z.div_mod a 4096 ltac:(lia)). pose proof (Z.mod_pos_bound a 4096 ltac:(lia)).
  assert (q <= a / 4096) by (apply Z.div_le_lower_bound; lia).
  case_decide; split.
  - done.
  - lia.
  - intros [= <-]. split; [lia|]. rewrite Z2Nat.id by lia. lia.
  - intros [? ?]. f_equal. apply Nat2Z.inj. rewrite Z2Nat.id by lia. lia.
Qed.

Lemma pmm_frame_index_lt s a i : pmm_inv s -> pmm_frame_index s a = Some i -> (i < total_frames s)%nat.
Proof. intros Hinv Hx. by apply pmm_frame_index_spec in Hx as [? _]. Qed.

(** ** Operations that keep the pool fixed *)

(** Any ownership retag that respects [owner_ok] preserves the invariant. *)
Lemma set_owner_inv s cl p :
  pmm_inv s -> tab_len cl (total_frames s) -> tab_len p (total_frames s) ->
  owner_ok (set_owner cl p s) -> pmm_inv (set_owner cl p s).
Proof. intros [] ???. constructor; done. Qed.

Lemma set_owner_abs s cl p : pmm_abs (set_owner cl p s) = pmm_abs s.
Proof. done. Qed.

Lemma pmm_owner_set_locked_inv s i cls pid :
  pmm_inv s -> (i < total_frames s)%nat -> bit s i = true ->
  pmm_inv (pmm_owner_set_locked s i cls pid) /\ pmm_abs (pmm_owner_set_locked s i cls pid) = pmm_abs s.
Proof.
  intros Hinv Hi Hb. pose proof Hinv as []. unfold pmm_owner_set_locked.
  destruct (pmm_owner_class_tab s) as [cl|] eqn:Ecl; [|done]. simpl in *.
  assert (Hgo : forall c p, (2 <= refcnt s i -> pmm_frame_refs s <> None -> c <> PMM_OWNER_USER) ->
     pmm_inv (set_owner (Some (<[i := c]> cl)) (tab_set (pmm_frame_owner_pid s) i p) s)).
  { intros c p Hc. apply set_owner_inv; auto using @tab_set_len.
    - simpl. by rewrite length_insert.
    - unfold owner_ok in *. rewrite Ecl in inv_owner0. simpl. destruct inv_owner0 as [Ho1 Ho2]. split.
      + intros j Hj. rewrite (tab_insert_lookup _ _ _ _ _ inv_cls_len0 Hi).
        case_decide; [subst; unfold bit in *; simpl; congruence|]. by apply Ho1.
      + unfold refcnt in Hc. destruct (pmm_frame_refs s) as [rf|] eqn:Erf; [|done]. intros j Hj.
        rewrite (tab_insert_lookup _ _ _ _ _ inv_cls_len0 Hi). case_decide; [subst; auto|].
        by apply Ho2. }
  set (refs := match pmm_frame_refs s with Some rf => _ | None => _ end).
  assert (Hrefs : pmm_frame_refs s <> None -> refs = refcnt s i).
  { unfold refs, refcnt. by destruct (pmm_frame_refs s). }
  destruct (decide (2 <= refs /\ cls = PMM_OWNER_USER)) as [[Hr ->]|Hn].
  - rewrite decide_True by auto. split; [by apply Hgo|done].
  - case_decide as Hd; (split; [|done]); apply Hgo; [done|].
    intros Hr Hs. rewrite <- Hrefs in Hr by done. naive_solver.
Qed.

Lemma pmm_owner_on_get_locked_inv s i rf :
  pmm_inv s -> (i < total_frames s)%nat -> bit s i = true ->
  pmm_frame_refs s = Some rf -> rf !!! i < U32_MAX ->
  let s' := pmm_owner_on_get_locked (set_refs (Some (<[i := u32 (rf !!! i + 1)]> rf)) s) i in
  pmm_inv s' /\ pmm_abs s' = <[i := rf !!! i + 1]> (pmm_abs s).
Proof.
  intros Hinv Hi Hb Erf Hmax s'. pose proof Hinv as [].
  rewrite Erf in inv_refs_len0. simpl in inv_refs_len0.
  assert (Hr : 1 <= rf !!! i) by (unfold refs_ok in *; rewrite Erf in *;
    specialize (inv_refs0 i Hi); rewrite Hb in inv_refs0; lia).
  assert (Hu : u32 (rf !!! i + 1) = rf !!! i + 1)
    by (unfold u32, U32_MAX in *; rewrite Z.mod_small; lia).
  pose proof (fun j => tab_insert_lookup rf i j (rf !!! i + 1) _ inv_refs_len0 Hi) as Hlk.
  assert (Hs : exists cl' p', s' = set_owner cl' p' (set_refs (Some (<[i := rf !!! i + 1]> rf)) s) /\
             tab_len cl' (total_frames s) /\ tab_len p' (total_frames s) /\
             owner_ok s').
  { unfold s', pmm_owner_on_get_locked. rewrite Hu. simpl. unfold owner_ok in inv_owner0.
    destruct (pmm_owner_class_tab s) as [cl|] eqn:Ecl; simpl in *.
    - rewrite Erf in inv_owner0. destruct inv_owner0 as [Ho1 Ho2].
      case_decide as Hd; (do 2 eexists); (split; [reflexivity|]);
        unfold owner_ok; simpl; rewrite ?Ecl; simpl; splits; auto using @tab_set_len.
      + by rewrite length_insert.
      + intros j Hj. rewrite (tab_insert_lookup _ _ _ _ _ inv_cls_len0 Hi).
        case_decide; [subst; unfold bit in *; simpl; congruence|]. by apply Ho1.
      + intros j Hj. rewrite (tab_insert_lookup _ _ _ _ _ inv_cls_len0 Hi), Hlk.
        case_decide; [done|]. by apply Ho2.
      + intros j Hj. rewrite Hlk. case_decide; [|by apply Ho2]. subst j. intros Hj2 Hcls.
        apply Hd. rewrite Hlk, decide_True by done. done.
    - do 2 eexists. split; [reflexivity|]. unfold owner_ok. simpl. by rewrite Ecl. }
  destruct Hs as (cl' & p' & E & Hcl & Hp & Hok). split.
  - rewrite E in *. constructor; simpl; auto.
    + by rewrite length_insert.
    + unfold refs_ok in *. simpl. rewrite Erf in inv_refs0. intros j Hj. rewrite Hlk.
      case_decide; [|by apply inv_refs0]. subst. unfold bit in *. simpl. rewrite Hb. lia.
  - rewrite E, set_owner_abs. apply map_eq. intros j.
    rewrite lookup_insert, !pmm_abs_lookup. unfold refcnt, bit in *. simpl. rewrite Erf, Hlk.
    repeat case_decide; subst; try congruence. by rewrite Hb.
Qed.

(** ** Abstract allocator and refinement *)

Inductive pmm_op :=
| OpAlloc (cur : option proc_view)
| OpGet (a : Z)
| OpPut (a : Z)
| OpRefcount (a : Z)
| OpSetOwner (a : Z) (cls : pmm_owner_class_t) (pid : Z).

(** One call, with the value it returns (0 for the [void] functions). *)
Definition run_op (s : pmm_state) (op : pmm_op) : outcome (pmm_state * Z) :=
  match op with
  | OpAlloc cur => Ok (pmm_alloc_frame cur s)
  | OpGet a => s' ← pmm_frame_get s a; Ok (s', 0)
  | OpPut a => s' ← pmm_frame_put s a; Ok (s', 0)
  | OpRefcount a => Ok (s, pmm_frame_refcount s a)
  | OpSetOwner a cls pid => Ok (pmm_frame_set_owner_class s a cls pid, 0)
  end.

Fixpoint run_ops (s : pmm_state) (ops : list pmm_op) : outcome (pmm_state * list Z) :=
  match ops with
  | [] => Ok (s, [])
  | op :: ops' => '(s1, r) ← run_op s op; '(s2, rs) ← run_ops s1 ops'; Ok (s2, r :: rs)
  end.

(** The allocator a client sees: [n] frames from address [base], and the map
    from the frames in use to their reference counts.  [abs_op m op out] says
    that calling [op] in [m] gives [out]: the new map and the value returned,
    or [None] for a panic.  Only the choice of the frame [OpAlloc] takes is
    left open.  [counted] is whether the reference table was allocated; without
    it every frame in use has count one and gets are ignored. *)
Section abstract_allocator.
Context (base : Z) (n : nat) (counted : bool).

Definition frame_no (a : Z) : option nat :=
  if decide (base <= a < base + Z.of_nat n * PMM_FRAME_SIZE)
  then Some (Z.to_nat ((a - base) / PMM_FRAME_SIZE)) else None.

Definition count_at (m : gmap nat Z) (a : Z) : option Z := frame_no a ≫= fun i => m !! i.

Inductive abs_op (m : gmap nat Z) : pmm_op -> option (gmap nat Z * Z) -> Prop :=
| AbsAlloc cur i : (i < n)%nat -> m !! i = None ->
    abs_op m (OpAlloc cur) (Some (<[i := 1]> m, base + Z.of_nat i * PMM_FRAME_SIZE))
| AbsFull cur : (forall i, (i < n)%nat -> is_Some (m !! i)) ->
    abs_op m (OpAlloc cur) (Some (m, 0))
| AbsGet a i r : frame_no a = Some i -> m !! i = Some r -> counted = true -> r < U32_MAX ->
    abs_op m (OpGet a) (Some (<[i := r + 1]> m, 0))
| AbsGetOverflow a : count_at m a = Some U32_MAX -> counted = true -> abs_op m (OpGet a) None
| AbsGetIgnored a : count_at m a = None \/ counted = false -> abs_op m (OpGet a) (Some (m, 0))
| AbsPut a i r : frame_no a = Some i -> m !! i = Some r -> 1 < r ->
    abs_op m (OpPut a) (Some (<[i := r - 1]> m, 0))
| AbsFree a i : frame_no a = Some i -> m !! i = Some 1 ->
    abs_op m (OpPut a) (Some (delete i m, 0))
| AbsDoubleFree a i : frame_no a = Some i -> m !! i = None -> abs_op m (OpPut a) None
| AbsPutIgnored a : frame_no a = None -> abs_op m (OpPut a) (Some (m, 0))
| AbsRefcount a : abs_op m (OpRefcount a)
    (Some (m, if counted then default 0 (count_at m a) else 0))
| AbsSetOwner a cls pid : abs_op m (OpSetOwner a cls pid) (Some (m, 0)).

(** A sequence of calls: the final map and every value returned, or a panic. *)
Inductive abs_run (m : gmap nat Z) : list pmm_op -> option (gmap nat Z * list Z) -> Prop :=
| AbsDone : abs_run m [] (Some (m, []))
| AbsPanic op ops : abs_op m op None -> abs_run m (op :: ops) None
| AbsCont op ops m1 r out : abs_op m op (Some (m1, r)) -> abs_run m1 ops out ->
    abs_run m (op :: ops) (prod_map id (cons r) <$> out).
End abstract_allocator.

Lemma abs_used s i : (i < total_frames s)%nat -> bit s i = true -> pmm_abs s !! i = Some (refcnt s i).
Proof. intros Hi Hb. by rewrite pmm_abs_lookup, decide_True, Hb. Qed.

Lemma alloc_pass_spec cur s lo hi s' r :
  pmm_inv s -> (hi <= total_frames s)%nat -> alloc_pass cur s lo hi = (s', r) ->
  (r = 0 /\ s' = s /\ forall k, (lo <= k < hi)%nat -> bit s k = true) \/
  exists k, (lo <= k < hi)%nat /\ bit s k = false /\ s' = take_frame cur s k /\
            r = mem_start s + Z.of_nat k * PMM_FRAME_SIZE /\ 0 < r /\
            forall j, (lo <= j < k)%nat -> bit s j = true.
Proof.
  intros Hinv Hhi. unfold alloc_pass.
  destruct (find_from _ lo (hi - lo)) as [k|] eqn:E; intros [= <- <-].
  - right. apply find_from_Some in E as (Hk & Hb & Hj). exists k.
    apply negb_true_iff in Hb. destruct Hinv. unfold u64, PMM_FRAME_SIZE in *.
    splits; [lia|lia|done|done| | |].
    + rewrite Z.mod_small; lia.
    + rewrite Z.mod_small; lia.
    + intros j Hl. by apply negb_false_iff, Hj.
  - left. rewrite find_from_None in E. splits; auto.
    intros k Hk. apply negb_false_iff, E. lia.
Qed.

(** [pmm_alloc_frame] on both outcomes: the frame it takes is free and is the
    first free one in the cyclic order that starts at the search hint. *)
Lemma pmm_alloc_frame_cases cur s s' r :
  pmm_inv s -> pmm_alloc_frame cur s = (s', r) ->
  (r = 0 /\ s' = s /\ forall k, (k < total_frames s)%nat -> bit s k = true) \/
  exists k, (k < total_frames s)%nat /\ bit s k = false /\ s' = take_frame cur s k /\
            r = mem_start s + Z.of_nat k * PMM_FRAME_SIZE /\ 0 < r.
Proof.
  intros Hinv. unfold pmm_alloc_frame. rewrite (inv_init _ Hinv). cbv zeta. simpl negb. cbv iota.
  set (st := if decide _ then 0%nat else _).
  assert (Hst : (st <= total_frames s)%nat) by (unfold st; case_decide; lia).
  destruct (alloc_pass cur s st (total_frames s)) as [s1 r1] eqn:E1.
  apply alloc_pass_spec in E1; [|done|done].
  destruct E1 as [(-> & -> & H1)|(k & Hk & Hb & -> & Hr & Hpos & _)].
  - rewrite decide_True by done. intros E2.
    apply alloc_pass_spec in E2; [|done|lia].
    destruct E2 as [(-> & -> & H2)|(k & Hk & Hb & -> & -> & Hpos & _)].
    + left. splits; auto. intros k Hk. destruct (decide (k < st)%nat); [apply H2; lia|apply H1; lia].
    + right. exists k. splits; auto. lia.
  - rewrite decide_False by lia. intros [= <- <-]. right. exists k. splits; auto. lia.
Qed.

Lemma pmm_frame_put_cases s a s' :
  pmm_inv s -> pmm_frame_put s a = Ok s' ->
  (pmm_frame_index s a = None /\ s' = s) \/
  exists i, pmm_frame_index s a = Some i /\ bit s i = true /\ pmm_inv s' /\
    ((refcnt s i = 1 /\ pmm_abs s' = delete i (pmm_abs s)) \/
     (1 < refcnt s i /\ pmm_abs s' = <[i := refcnt s i - 1]> (pmm_abs s))).
Proof.
  intros Hinv. unfold pmm_frame_put.
  destruct (pmm_frame_index s a) as [i|] eqn:Ei; [|intros [= <-]; eauto].
  pose proof (pmm_frame_index_lt _ _ _ Hinv Ei) as Hi.
  destruct (bitmap_test (bitmap s) i) eqn:Eb; simpl; [|done].
  intros H. right. exists i. split; [done|]. split; [done|].
  pose proof Hinv as []. unfold refs_ok in inv_refs0. unfold refcnt.
  destruct (pmm_frame_refs s) as [rf|] eqn:Erf; simpl in inv_refs_len0.
  - specialize (inv_refs0 i Hi). unfold bit in inv_refs0. rewrite Eb in inv_refs0.
    rewrite decide_False in H by lia. case_decide as Hd; injection H as <-.
    + assert (Hu : u32 (rf !!! i - 1) = rf !!! i - 1)
        by (unfold u32, U32_MAX in *; rewrite Z.mod_small; lia).
      pose proof (fun j => tab_insert_lookup rf i j (rf !!! i - 1) _ inv_refs_len0 Hi) as Hlk.
      rewrite Hu. split; [|right; split; [done|]].
      * constructor; simpl; auto.
        -- by rewrite length_insert.
        -- unfold refs_ok. simpl. intros j Hj. rewrite Hlk.
           pose proof (inv_refs _ Hinv) as Hr. unfold refs_ok in Hr. rewrite Erf in Hr.
           case_decide; [|by apply Hr]. subst. unfold bit; simpl. rewrite Eb. lia.
        -- unfold owner_ok in *. simpl. destruct (pmm_owner_class_tab s); [|done].
           rewrite Erf in inv_owner0. destruct inv_owner0 as [Ho1 Ho2]. split; [done|].
           intros j Hj. rewrite Hlk. case_decide; [|by apply Ho2]. subst. intros. apply Ho2; lia.
      * apply map_eq. intros j. rewrite lookup_insert, !pmm_abs_lookup. unfold refcnt, bit. simpl.
        rewrite Erf, Hlk. repeat case_decide; subst; try congruence. by rewrite Eb.
    + assert (E1 : rf !!! i = 1) by lia.
      split; [|left; split; [done|]].
      * apply release_frame_inv; auto. by rewrite Erf.
      * apply release_frame_abs; auto. by rewrite Erf.
  - injection H as <-.
    assert (Es : s = set_refs None s) by (destruct s; simpl in *; by subst).
    rewrite Es. split; [|left; split; [done|]].
    + apply release_frame_inv; auto. by rewrite Erf.
    + rewrite (release_frame_abs s i None); auto; [|by rewrite Erf]. by rewrite <- Es.
Qed.

(** ** What clients use: geometry and the effect on the reference counts *)

Definition frame_at (s : pmm_state) (i : nat) : Z := mem_start s + Z.of_nat i * PMM_FRAME_SIZE.

Record same_geom (s s' : pmm_state) : Prop := {
  sg_start : mem_start s' = mem_start s;
  sg_end : mem_end s' = mem_end s;
  sg_total : total_frames s' = total_frames s;
  sg_refs : is_Some (pmm_frame_refs s) -> is_Some (pmm_frame_refs s')
}.

#[export] Instance same_geom_refl : Reflexive same_geom.
Proof. by constructor. Qed.
#[export] Instance same_geom_trans : Transitive same_geom.
Proof. intros ? ? ? [] []. constructor; try congruence. auto. Qed.

Lemma same_geom_frame_at s s' i : same_geom s s' -> frame_at s' i = frame_at s i.
Proof. intros []. unfold frame_at. congruence. Qed.

Lemma frame_at_index s i : pmm_inv s -> (i < total_frames s)%nat -> pmm_frame_index s (frame_at s i) = Some i.
Proof. intros Hinv Hi. apply pmm_frame_index_spec; [done|]. unfold frame_at, PMM_FRAME_SIZE. lia. Qed.

Lemma frame_at_range s i : pmm_inv s -> (i < total_frames s)%nat ->
  0 < mem_start s <= frame_at s i /\ frame_at s i + PMM_FRAME_SIZE <= mem_end s /\ frame_at s i mod PMM_FRAME_SIZE = 0.
Proof.
  intros Hinv Hi. pose proof (inv_start _ Hinv). pose proof (inv_end _ Hinv). unfold frame_at.
  rewrite Z.mod_add by done. rewrite (inv_align _ Hinv). unfold PMM_FRAME_SIZE in *. lia.
Qed.

Lemma frame_at_inj s i j : frame_at s i = frame_at s j -> i = j.
Proof. unfold frame_at, PMM_FRAME_SIZE. lia. Qed.

Lemma pmm_alloc_abs cur s s' r : pmm_inv s -> pmm_alloc_frame cur s = (s', r) ->
  pmm_inv s' /\ same_geom s s' /\
  ((r = 0 /\ s' = s) \/ exists k, (k < total_frames s)%nat /\ pmm_abs s !! k = None /\
     pmm_abs s' = <[k := 1]> (pmm_abs s) /\ r = frame_at s k).
Proof.
  intros Hinv E. apply pmm_alloc_frame_cases in E; [|done].
  destruct E as [(-> & -> & _)|(k & Hk & Hb & -> & -> & Hpos)].
  - split; [done|]. split; [reflexivity|]. by left.
  - split; [by apply take_frame_inv|]. split.
    + destruct (take_frame_shape cur s k) as (cls & pid & ->). constructor; simpl; auto.
      intros [rf ->]. simpl. eauto.
    + right. exists k. splits; [done| |by apply take_frame_abs|done]. by rewrite pmm_abs_lookup, decide_True, Hb.
Qed.

Lemma pmm_get_live s a i c : pmm_inv s -> pmm_frame_index s a = Some i -> pmm_abs s !! i = Some c ->
  is_Some (pmm_frame_refs s) -> c < U32_MAX ->
  exists s', pmm_frame_get s a = Ok s' /\ pmm_inv s' /\ same_geom s s' /\ pmm_abs s' = <[i := c + 1]> (pmm_abs s).
Proof.
  intros Hinv Hi Hc [rf Hrf] Hm. pose proof (pmm_frame_index_lt _ _ _ Hinv Hi) as Hlt.
  rewrite pmm_abs_lookup, decide_True in Hc by done. destruct (bit s i) eqn:Hb; [|done].
  unfold refcnt in Hc. rewrite Hrf in Hc. injection Hc as <-.
  unfold pmm_frame_get. rewrite Hi. unfold bit in Hb. rewrite Hb, Hrf. simpl negb. cbv iota. rewrite decide_False by lia.
  destruct (pmm_owner_on_get_locked_inv s i rf Hinv Hlt Hb Hrf Hm) as [H1 H2].
  eexists. split; [reflexivity|]. split; [done|]. split; [|done].
  unfold pmm_owner_on_get_locked. simpl. destruct (pmm_owner_class_tab s); [destruct (decide _)|]; constructor; simpl; eauto.
Qed.

(** Putting a frame in use returns, and lowers its count by one or frees it. *)
Definition put_abs (A : gmap nat Z) (i : nat) : gmap nat Z :=
  match A !! i with Some k => if decide (k = 1) then delete i A else <[i := k - 1]> A | None => A end.

Lemma pmm_put_live s a i : pmm_inv s -> pmm_frame_index s a = Some i -> is_Some (pmm_abs s !! i) ->
  exists s', pmm_frame_put s a = Ok s' /\ pmm_inv s' /\ pmm_abs s' = put_abs (pmm_abs s) i /\ same_geom s s'.
Proof.
  intros Hinv Hi Hl. pose proof (pmm_frame_index_lt _ _ _ Hinv Hi) as Hlt.
  rewrite pmm_abs_lookup, decide_True in Hl by done. destruct (bit s i) eqn:Hb; [|by destruct Hl].
  assert (He : exists s', pmm_frame_put s a = Ok s' /\ same_geom s s').
  { unfold pmm_frame_put. rewrite Hi. unfold bit in Hb. rewrite Hb. simpl negb. cbv iota.
    pose proof (inv_refs _ Hinv) as Hr. unfold refs_ok in Hr. destruct (pmm_frame_refs s) as [rf|] eqn:Erf.
    - specialize (Hr i Hlt). unfold bit in Hr. rewrite Hb in Hr. rewrite decide_False by lia.
      destruct (decide _); eexists; (split; [reflexivity|]); [constructor; simpl; eauto|].
      destruct (release_frame_shape (set_refs (Some (<[i := 0]> rf)) s) i) as (h & _ & ->). constructor; simpl; eauto.
    - eexists. split; [reflexivity|]. destruct (release_frame_shape s i) as (h & _ & ->). constructor; simpl; eauto. }
  destruct He as (s' & E & Hg). exists s'. split; [done|].
  destruct (pmm_frame_put_cases _ _ _ Hinv E) as [[? _]|(j & Hj & _ & Hinv' & Hc)]; [congruence|].
  assert (j = i) as -> by congruence. split; [done|]. split; [|done]. unfold put_abs. rewrite (abs_used _ _ Hlt Hb).
  destruct Hc as [(-> & ->)|(Hgt & ->)]; [by rewrite decide_True|]. by rewrite decide_False by lia.
Qed.

(** ** The calls refine the abstract allocator *)

Definition counted_of (s : pmm_state) : bool := bool_decide (is_Some (pmm_frame_refs s)).

Abbreviation abs_op_of s := (abs_op (mem_start s) (total_frames s) (counted_of s)).

Lemma frame_no_index s a : pmm_inv s -> frame_no (mem_start s) (total_frames s) a = pmm_frame_index s a.
Proof.
  intros Hinv. apply option_eq. intros i. rewrite (pmm_frame_index_spec _ _ _ Hinv).
  unfold frame_no, PMM_FRAME_SIZE. pose proof (Z.div_mod (a - mem_start s) 4096 ltac:(lia)).
  pose proof (Z.mod_pos_bound (a - mem_start s) 4096 ltac:(lia)).
  case_decide; split; [intros [= <-]| |done|]; intros; [lia| |lia]. f_equal. lia.
Qed.

Lemma owner_set_geom s i cls pid : let t := pmm_owner_set_locked s i cls pid in
  mem_start t = mem_start s /\ total_frames t = total_frames s /\ counted_of t = counted_of s.
Proof. unfold pmm_owner_set_locked. destruct (pmm_owner_class_tab s); [|done]. simpl. by destruct (decide (_ \/ _)). Qed.

Lemma run_op_geom s op s' r : pmm_inv s -> run_op s op = Ok (s', r) ->
  mem_start s' = mem_start s /\ total_frames s' = total_frames s /\ counted_of s' = counted_of s.
Proof.
  intros Hinv. destruct op as [cur|a|a|a|a cls pid]; simpl.
  - intros [= E]. apply pmm_alloc_frame_cases in E as [(_ & -> & _)|(k & _ & _ & -> & _)]; [done| |done].
    destruct (take_frame_shape cur s k) as (cls & pid & ->). unfold counted_of. simpl. by destruct (pmm_frame_refs s).
  - unfold pmm_frame_get. destruct (pmm_frame_index s a); simpl; [|by intros [= <- _]].
    destruct (negb _); simpl; [by intros [= <- _]|]. unfold counted_of. destruct (pmm_frame_refs s) eqn:E; simpl; [|by intros [= <- _]; rewrite E].
    case_decide; simpl; [done|]. intros [= <- _]. unfold pmm_owner_on_get_locked. simpl.
    destruct (pmm_owner_class_tab s); [case_decide|]; done.
  - unfold pmm_frame_put. destruct (pmm_frame_index s a) as [i|]; simpl; [|by intros [= <- _]].
    destruct (negb _); simpl; [done|]. unfold counted_of. destruct (pmm_frame_refs s) as [rf|] eqn:E; simpl.
    + case_decide; simpl; [done|]. case_decide; simpl; intros [= <- _]; [done|].
      by destruct (release_frame_shape (set_refs (Some (<[i := 0]> rf)) s) i) as (h & _ & ->).
    + intros [= <- _]. destruct (release_frame_shape s i) as (h & _ & ->). simpl. by rewrite E.
  - by intros [= <- _].
  - intros [= <- _]. unfold pmm_frame_set_owner_class. destruct (pmm_frame_index s a); [|done].
    destruct (negb _); [done|]. apply owner_set_geom.
Qed.

Lemma abs_free s i : bit s i = false -> pmm_abs s !! i = None.
Proof. intros Hb. rewrite pmm_abs_lookup, Hb. by case_decide. Qed.

(** The count of the frame that holds an address, as the tables have it. *)
Lemma count_at_bits s a : pmm_inv s ->
  count_at (mem_start s) (total_frames s) (pmm_abs s) a =
  i ← pmm_frame_index s a; if bitmap_test (bitmap s) i then Some (refcnt s i) else None.
Proof.
  intros Hinv. unfold count_at. rewrite frame_no_index by done.
  destruct (pmm_frame_index s a) as [i|] eqn:Ei; simpl; [|done].
  by rewrite pmm_abs_lookup, decide_True by eauto using pmm_frame_index_lt.
Qed.

(** What a call does is what the abstract allocator allows, panics included. *)
Definition refines_call (s : pmm_state) (op : pmm_op) : Prop :=
  match run_op s op with
  | Ok (s', r) => pmm_inv s' /\ abs_op_of s (pmm_abs s) op (Some (pmm_abs s', r))
  | Panic _ => abs_op_of s (pmm_abs s) op None
  | UB => False
  end.

Lemma alloc_refines s cur : pmm_inv s -> refines_call s (OpAlloc cur).
Proof.
  intros Hinv. unfold refines_call. simpl. destruct (pmm_alloc_frame cur s) as [s' r] eqn:E.
  apply pmm_alloc_frame_cases in E; [|done].
  destruct E as [(-> & -> & Hall)|(k & Hk & Hb & -> & -> & _)].
  - split; [done|]. apply AbsFull. intros i Hi. rewrite abs_used by auto. eauto.
  - split; [by apply take_frame_inv|]. rewrite take_frame_abs by done. apply AbsAlloc; [done|by apply abs_free].
Qed.

Lemma get_refines s a : pmm_inv s -> refines_call s (OpGet a).
Proof.
  intros Hinv. unfold refines_call. simpl. unfold pmm_frame_get.
  pose proof (count_at_bits s a Hinv) as Hc. destruct (pmm_frame_index s a) as [i|] eqn:Ei; simpl in *.
  2: { split; [done|]. apply AbsGetIgnored. by left. }
  pose proof (pmm_frame_index_lt _ _ _ Hinv Ei) as Hi.
  destruct (bitmap_test (bitmap s) i) eqn:Eb; simpl in *.
  2: { split; [done|]. apply AbsGetIgnored. by left. }
  unfold counted_of. destruct (pmm_frame_refs s) as [rf|] eqn:Erf.
  2: { simpl. split; [done|]. apply AbsGetIgnored. by right. }
  pose proof (inv_refs _ Hinv) as Hr. unfold refs_ok in Hr. rewrite Erf in Hr. specialize (Hr i Hi).
  unfold bit in Hr. rewrite Eb in Hr. unfold refcnt in Hc. rewrite Erf in Hc. case_decide; simpl.
  - apply AbsGetOverflow; [|done]. rewrite Hc. f_equal. lia.
  - destruct (pmm_owner_on_get_locked_inv s i rf) as [H1 H2]; auto; [lia|]. split; [done|]. rewrite H2.
    apply AbsGet; [by rewrite frame_no_index| |done|lia]. rewrite abs_used by done. unfold refcnt. by rewrite Erf.
Qed.

Lemma put_refines s a : pmm_inv s -> refines_call s (OpPut a).
Proof.
  intros Hinv. unfold refines_call. simpl. pose proof (frame_no_index s a Hinv) as Hf.
  destruct (pmm_frame_index s a) as [i|] eqn:Ei.
  2: { unfold pmm_frame_put. rewrite Ei. simpl. split; [done|]. by apply AbsPutIgnored. }
  pose proof (pmm_frame_index_lt _ _ _ Hinv Ei) as Hi. destruct (bit s i) eqn:Eb.
  - pose proof (abs_used s i Hi Eb) as Ha. destruct (pmm_put_live s a i) as (s' & -> & Hinv' & Ep & _); eauto.
    simpl. split; [done|]. rewrite Ep. unfold put_abs. rewrite Ha.
    assert (1 <= refcnt s i).
    { pose proof (inv_refs _ Hinv) as Hr. unfold refs_ok, refcnt in *. destruct (pmm_frame_refs s); [|lia].
      specialize (Hr i Hi). rewrite Eb in Hr. lia. }
    case_decide as H1; [apply AbsFree; [done|congruence]|]. apply AbsPut; [done|done|lia].
  - unfold pmm_frame_put. rewrite Ei. unfold bit in Eb. rewrite Eb. simpl. apply (AbsDoubleFree _ _ _ _ _ i); [done|].
    by apply abs_free.
Qed.

Lemma run_op_refines s op : pmm_inv s -> refines_call s op.
Proof.
  destruct op as [cur|a|a|a|a cls pid]; auto using alloc_refines, get_refines, put_refines; intros Hinv.
  - unfold refines_call. simpl. split; [done|]. pose proof (count_at_bits s a Hinv) as Hc.
    assert (pmm_frame_refcount s a =
      if counted_of s then default 0 (count_at (mem_start s) (total_frames s) (pmm_abs s) a) else 0) as ->;
      [|constructor].
    rewrite Hc. unfold pmm_frame_refcount, counted_of, refcnt. destruct (pmm_frame_index s a); simpl.
    + by destruct (pmm_frame_refs s), (bitmap_test _ _).
    + by case_match.
  - unfold refines_call. simpl. unfold pmm_frame_set_owner_class.
    destruct (pmm_frame_index s a) as [i|] eqn:Ei; [|split; [done|constructor]].
    destruct (bitmap_test (bitmap s) i) eqn:Eb; simpl; [|split; [done|constructor]].
    destruct (pmm_owner_set_locked_inv s i cls pid) as [H1 ->]; eauto using pmm_frame_index_lt, abs_op.
Qed.

Lemma run_ops_refines s ops : pmm_inv s ->
  match run_ops s ops with
  | Ok (s', rs) => pmm_inv s' /\ abs_run (mem_start s) (total_frames s) (counted_of s) (pmm_abs s) ops (Some (pmm_abs s', rs))
  | Panic _ => abs_run (mem_start s) (total_frames s) (counted_of s) (pmm_abs s) ops None
  | UB => False
  end.
Proof.
  revert s. induction ops as [|op ops IH]; intros s Hinv; simpl; [split; [done|constructor]|].
  pose proof (run_op_refines s op Hinv) as Hop. unfold refines_call in Hop.
  destruct (run_op s op) as [[s1 r]| |] eqn:E; simpl; [|by constructor|done].
  destruct Hop as [Hinv1 Hop]. destruct (run_op_geom _ _ _ _ Hinv E) as (Eg1 & Eg2 & Eg3).
  specialize (IH s1 Hinv1). rewrite Eg1, Eg2, Eg3 in IH.
  destruct (run_ops s1 ops) as [[s2 rs]| |]; simpl; [|by apply (AbsCont _ _ _ _ _ _ _ _ None Hop)|done].
  destruct IH as [H1 H2]. split; [done|]. by apply (AbsCont _ _ _ _ _ _ _ _ (Some (pmm_abs s2, rs)) Hop).
Qed.

Lemma pmm_init_inv kc kp kr start size :
  0 < start -> PMM_FRAME_SIZE <= size -> start + size < 2 ^ 64 ->
  pmm_inv (pmm_init true kc kp kr start size pmm_boot) /\
  pmm_abs (pmm_init true kc kp kr start size pmm_boot) = ∅.
Proof.
  intros Hs Hz Hw. unfold PMM_FRAME_SIZE in Hz.
  pose proof (Z.div_mod (start + 4095) 4096 ltac:(lia)).
  pose proof (Z.mod_pos_bound (start + 4095) 4096 ltac:(lia)).
  pose proof (Z.div_mod (start + size) 4096 ltac:(lia)).
  pose proof (Z.mod_pos_bound (start + size) 4096 ltac:(lia)).
  unfold pmm_init. simpl initialized. cbv iota.
  rewrite !mask_align_down. unfold u64, PMM_FRAME_SIZE.
  replace (start + 4096 - 1) with (start + 4095) by lia.
  rewrite (Z.mod_small (start + 4095)), (Z.mod_small (start + size)) by lia.
  set (q0 := (start + 4095) / 4096) in *. set (q1 := (start + size) / 4096) in *.
  assert (Hq : (q1 * 4096 - q0 * 4096) mod 2 ^ 64 / 4096 = q1 - q0).
  { rewrite Z.mod_small by lia. replace (q1 * 4096 - q0 * 4096) with ((q1 - q0) * 4096) by lia.
    by rewrite Z.div_mul. }
  rewrite Hq. set (n := Z.to_nat (q1 - q0)).
  assert (Hbit : forall i, (i < n)%nat -> bitmap_test (replicate ((n + 7) / 8) 0) i = false).
  { intros i Hi. rewrite bitmap_test_bit, lookup_total_replicate_2; [apply Z.bits_0|].
    by apply byte_count_lt. }
  split.
  - constructor; unfold bit; simpl; try done; try lia.
    + unfold PMM_FRAME_SIZE. by rewrite Z.mod_mul.
    + unfold PMM_FRAME_SIZE, n. rewrite Z2Nat.id by lia. lia.
    + by rewrite length_replicate.
    + rewrite (count_upto_ext _ (fun _ => false)), count_upto_false; [done|]. intros; by apply Hbit.
    + destruct kc; simpl; [by rewrite length_replicate|done].
    + destruct kp; simpl; [by rewrite length_replicate|done].
    + destruct kr; simpl; [by rewrite length_replicate|done].
    + unfold refs_ok, bit. simpl. destruct kr; [|done]. intros i Hi. rewrite Hbit by done.
      by rewrite lookup_total_replicate_2.
    + unfold owner_ok, bit. simpl. destruct kc; [|done]. split.
      * intros i Hi _. by rewrite lookup_total_replicate_2.
      * destruct kr; [|done]. intros i Hi. rewrite !lookup_total_replicate_2 by done. done.
  - apply map_eq. intros i. rewrite lookup_empty, pmm_abs_lookup. unfold bit. simpl.
    case_decide; [|done]. by rewrite Hbit.
Qed.

Lemma pmm_init_geom kc kp kr start size :
  0 < start -> PMM_FRAME_SIZE <= size -> start + size < 2 ^ 64 ->
  let s := pmm_init true kc kp kr start size pmm_boot in
  mem_start s = (start + 4095) / 4096 * 4096 /\
  total_frames s = Z.to_nat ((start + size) / 4096 - (start + 4095) / 4096) /\ counted_of s = kr.
Proof.
  intros Hs Hz Hw. unfold PMM_FRAME_SIZE in Hz.
  pose proof (Z.div_mod (start + 4095) 4096 ltac:(lia)).
  pose proof (Z.mod_pos_bound (start + 4095) 4096 ltac:(lia)).
  pose proof (Z.div_mod (start + size) 4096 ltac:(lia)).
  pose proof (Z.mod_pos_bound (start + size) 4096 ltac:(lia)).
  unfold pmm_init, counted_of. simpl. rewrite !mask_align_down. unfold u64, PMM_FRAME_SIZE.
  replace (start + 4096 - 1) with (start + 4095) by lia.
  rewrite (Z.mod_small (start + 4095)), (Z.mod_small (start + size)) by lia. splits; [done| |by destruct kr].
  rewrite Z.mod_small by lia.
  replace ((start + size) / 4096 * 4096 - (start + 4095) / 4096 * 4096)
    with (((start + size) / 4096 - (start + 4095) / 4096) * 4096) by lia.
  by rewrite Z.div_mul.
Qed.

(** ** Main theorems *)

(** C1: Take [pmm_init] on any physical range of at least a page that starts
    above 0 and does not wrap, with the bitmap allocated and each side table
    allocated or not, and call
    allocation, get, put, refcount and retag in any order.  The calls behave,
    values returned included, as the abstract allocator [abs_run] over the
    whole frames of the range: allocation gives the address of a frame not in
    use, which then has count one, and gives 0 only when every frame is in use;
    get adds one to the count of a frame in use; put takes one off and frees
    the frame with the last; refcount reports the count; and the kernel panics
    exactly on the put of a free frame and on the get of a frame whose count is
    the largest [uint32_t].  The manager's invariant holds at the end. *)
Theorem pmm_runs_refine_abstract_allocator kc kp kr start size ops :
  0 < start -> PMM_FRAME_SIZE <= size -> start + size < 2 ^ 64 ->
  let base := (start + 4095) / 4096 * 4096 in
  let n := Z.to_nat ((start + size) / 4096 - (start + 4095) / 4096) in
  match run_ops (pmm_init true kc kp kr start size pmm_boot) ops with
  | Ok (s', rs) => pmm_inv s' /\ abs_run base n kr ∅ ops (Some (pmm_abs s', rs))
  | Panic _ => abs_run base n kr ∅ ops None
  | UB => False
  end.
Proof.
  intros Hs Hz Hw base n. destruct (pmm_init_inv kc kp kr start size Hs Hz Hw) as [Hi <-].
  destruct (pmm_init_geom kc kp kr start size Hs Hz Hw) as (E1 & E2 & E3).
  pose proof (run_ops_refines _ ops Hi) as H. rewrite E1, E2, E3 in H. exact H.
Qed.

(** Three frames from 0x1000: allocate for pid 7, share, put, put. *)
Definition demo_pmm : pmm_state := pmm_init true true true true 4096 12288 pmm_boot.
Definition demo_user : option proc_view := Some {| pv_user_mode := true; pv_pid := 7 |}.
Definition demo_ops : list pmm_op :=
  [OpAlloc demo_user; OpGet 4096; OpRefcount 4100; OpPut 4100; OpAlloc None; OpPut 4096].

(** The calls return 4096, then the count 2, then 8192, and end with the second
    frame in use once; one more put of the first frame is a double free. *)
Lemma pmm_runs_refine_abstract_allocator_witness :
  (exists s', run_ops demo_pmm demo_ops = Ok (s', [4096; 0; 2; 0; 8192; 0]) /\
    pmm_inv s' /\ abs_run 4096 3 true ∅ demo_ops (Some (pmm_abs s', [4096; 0; 2; 0; 8192; 0]))) /\
  abs_run 4096 3 true ∅ (demo_ops ++ [OpPut 4096]) None.
Proof.
  split.
  - eexists. split; [vm_compute; reflexivity|].
    apply (pmm_runs_refine_abstract_allocator true true true 4096 12288 demo_ops); unfold PMM_FRAME_SIZE; lia.
  - apply (pmm_runs_refine_abstract_allocator true true true 4096 12288 (demo_ops ++ [OpPut 4096]));
      unfold PMM_FRAME_SIZE; lia.
Defined.

(** In a consistent state [pmm_alloc_frame] returns 0, changing nothing,
    exactly when every frame is in use; otherwise it returns the page-aligned
    address of a frame inside the managed range that was free, leaves it with
    reference count one and leaves the count of every other frame as it was. *)
Theorem pmm_alloc_frame_correct cur s s' r :
  pmm_inv s -> pmm_alloc_frame cur s = (s', r) ->
  (r = 0 <-> forall i, (i < total_frames s)%nat -> is_Some (pmm_abs s !! i)) /\
  (r = 0 -> s' = s) /\
  (r <> 0 -> exists i, pmm_abs s !! i = None /\ pmm_abs s' = <[i := 1]> (pmm_abs s) /\
     pmm_frame_index s' r = Some i /\ mem_start s <= r < mem_end s /\ r mod PMM_FRAME_SIZE = 0).
Proof.
  intros Hinv E. apply pmm_alloc_frame_cases in E; [|done].
  destruct E as [(-> & -> & Hall)|(k & Hk & Hb & -> & Hr & Hpos)].
  - split; [split; [intros _|done]|done]. intros i Hi. rewrite abs_used by auto. eauto.
  - pose proof (take_frame_inv cur s k Hinv Hk Hb) as Hinv'.
    assert (Hnone : pmm_abs s !! k = None) by by rewrite pmm_abs_lookup, decide_True, Hb.
    split; [split; [lia|]|split; [lia|]].
    + intros Hall. destruct (Hall k Hk) as [? Hx]. congruence.
    + intros _. exists k. split; [done|]. split; [by apply take_frame_abs|].
      destruct (take_frame_shape cur s k) as (cls & pid & Et).
      assert (Hg : mem_start (take_frame cur s k) = mem_start s /\
                   total_frames (take_frame cur s k) = total_frames s) by by rewrite Et.
      split; [|split].
      * apply pmm_frame_index_spec; [done|]. destruct Hg as [-> ->].
        unfold PMM_FRAME_SIZE in *. lia.
      * rewrite (inv_end _ Hinv). unfold PMM_FRAME_SIZE in *. lia.
      * rewrite Hr, Z.mod_add by done. apply (inv_align _ Hinv).
Qed.

Lemma pmm_alloc_frame_correct_witness :
  (pmm_alloc_frame None demo_pmm).2 = 4096 /\
  exists i, pmm_abs demo_pmm !! i = None /\
    pmm_abs (pmm_alloc_frame None demo_pmm).1 = <[i := 1]> (pmm_abs demo_pmm) /\
    pmm_frame_index (pmm_alloc_frame None demo_pmm).1 4096 = Some i /\
    mem_start demo_pmm <= 4096 < mem_end demo_pmm /\ 4096 mod PMM_FRAME_SIZE = 0.
Proof.
  split; [reflexivity|].
  apply (pmm_alloc_frame_correct None demo_pmm (pmm_alloc_frame None demo_pmm).1 4096);
    [apply (pmm_init_inv true true true 4096 12288); unfold PMM_FRAME_SIZE; lia|reflexivity|lia].
Defined.

(** [pmm_frame_put] on an address of a free frame of the range is detected
    (the kernel panics), on a frame in use it never panics and drops exactly
    one reference, returning the frame to the pool with the last one, and on an
    address outside the range it does nothing. *)
Theorem pmm_frame_put_correct s a :
  pmm_inv s ->
  match pmm_frame_index s a with
  | None => pmm_frame_put s a = Ok s
  | Some i =>
      match pmm_abs s !! i with
      | None => pmm_frame_put s a = Panic "PMM: double free detected"
      | Some r => exists s', pmm_frame_put s a = Ok s' /\ pmm_inv s' /\
          pmm_abs s' = if decide (r = 1) then delete i (pmm_abs s) else <[i := r - 1]> (pmm_abs s)
      end
  end.
Proof.
  intros Hinv. destruct (pmm_frame_index s a) as [i|] eqn:Ei.
  - pose proof (pmm_frame_index_lt _ _ _ Hinv Ei) as Hi.
    rewrite pmm_abs_lookup, decide_True by done. destruct (bit s i) eqn:Eb.
    + assert (Hok : exists s', pmm_frame_put s a = Ok s').
      { pose proof (inv_refs _ Hinv) as Hr. unfold refs_ok in Hr. unfold pmm_frame_put.
        rewrite Ei. unfold bit in *. rewrite Eb. simpl.
        destruct (pmm_frame_refs s) as [rf|]; [|eauto]. specialize (Hr i Hi). rewrite Eb in Hr.
        rewrite decide_False by lia. case_decide; eauto. }
      destruct Hok as [s' Hs']. exists s'. split; [done|].
      apply pmm_frame_put_cases in Hs'; [|done].
      destruct Hs' as [[? _]|(j & Hj & _ & Hinv' & Hc)]; [congruence|].
      replace j with i in * by congruence. split; [done|].
      destruct Hc as [[H1 H2]|[H1 H2]]; case_decide; congruence || lia.
    + unfold pmm_frame_put. rewrite Ei. unfold bit in Eb. by rewrite Eb.
  - unfold pmm_frame_put. by rewrite Ei.
Qed.

Lemma pmm_frame_put_correct_witness :
  pmm_inv demo_pmm /\
  match pmm_frame_index demo_pmm 8192 with
  | None => pmm_frame_put demo_pmm 8192 = Ok demo_pmm
  | Some i =>
      match pmm_abs demo_pmm !! i with
      | None => pmm_frame_put demo_pmm 8192 = Panic "PMM: double free detected"
      | Some r => exists s', pmm_frame_put demo_pmm 8192 = Ok s' /\ pmm_inv s' /\
          pmm_abs s' = if decide (r = 1) then delete i (pmm_abs demo_pmm)
                       else <[i := r - 1]> (pmm_abs demo_pmm)
      end
  end.
Proof.
  assert (H : pmm_inv demo_pmm) by (apply (pmm_init_inv true true true 4096 12288); unfold PMM_FRAME_SIZE; lia).
  split; [exact H|]. apply (pmm_frame_put_correct demo_pmm 8192 H).
Defined.

(** The figures [pmm_stats] reports are exact: the used count is the number
    of frames in use and used plus free is the number of frames. *)
Theorem pmm_stats_exact s :
  pmm_inv s ->
  exists used free, pmm_stats s = Some (Z.of_nat (total_frames s), used, free) /\
    used = Z.of_nat (size (pmm_abs s)) /\ used + free = Z.of_nat (total_frames s) /\ 0 <= free.
Proof.
  intros Hinv. pose proof (total_frames_bound s Hinv). pose proof Hinv as [].
  pose proof (count_upto_le (bit s) (total_frames s)).
  assert (Hsz : size (pmm_abs s) = count_upto (bit s) (total_frames s)).
  { unfold pmm_abs. rewrite map_size_list_to_map.
    - rewrite length_fmap. generalize (total_frames s) as n. induction n as [|n IH]; [done|].
      rewrite seq_S, filter_app, length_app, IH. simpl.
      destruct (decide (bit s n = true)) as [E|E].
      + rewrite filter_cons_True by done. rewrite E. done.
      + rewrite filter_cons_False by done. apply not_true_is_false in E. by rewrite E.
    - rewrite <- list_fmap_compose, (list_fmap_ext _ id); [|done].
      rewrite list_fmap_id. apply NoDup_filter, NoDup_seq. }
  unfold pmm_stats. rewrite inv_init0. simpl. do 2 eexists. split; [reflexivity|].
  rewrite Hsz. split; [done|]. unfold u64. rewrite Z.mod_small; lia.
Qed.

Lemma pmm_stats_exact_witness :
  exists used free, pmm_stats demo_pmm = Some (Z.of_nat (total_frames demo_pmm), used, free) /\
    used = Z.of_nat (size (pmm_abs demo_pmm)) /\ used + free = Z.of_nat (total_frames demo_pmm) /\ 0 <= free.
Proof.
  apply (pmm_stats_exact demo_pmm).
  apply (pmm_init_inv true true true 4096 12288); unfold PMM_FRAME_SIZE; lia.
Defined.
