(* ===== verification/Dll.v ===== *)
(** * Doubly linked list segments

    Intrusive lists as the allocator keeps them: [L a] is the (next, prev)
    pair stored at node [a], NULL is 0.  [seg L p c xs q n] says that the nodes
    [xs] are linked in order, starting at [c], the first node's [prev] is [p],
    the last node (or [p] for the empty segment) is [q], and the last [next]
    is [n]. *)

From S2P Require Import Prelude.

Fixpoint seg (L : Z -> option (Z * Z)) (p c : Z) (xs : list Z) (q n : Z) : Prop :=
  match xs with
  | [] => c = n /\ p = q
  | a :: xs' => c = a /\ a <> 0 /\ exists nx, L a = Some (nx, p) /\ seg L a nx xs' q n
  end.

Section seg.
Implicit Types (L : Z -> option (Z * Z)) (xs : list Z).

Lemma seg_app L p c xs ys q n :
seg L p c (xs ++ ys) q n <-> exists k m, seg L p c xs k m /\ seg L k m ys q n.
Proof.
revert p c; induction xs as [|a xs IH]; intros p c; simpl.
- split; [intros H; exists p, c; auto|]. intros (k & m & [-> ->] & H). done.
- split.
  + intros (-> & Ha & nx & HL & H). apply IH in H as (k & m & H1 & H2).
    exists k, m. split; [|done]. eauto 6.
  + intros (k & m & (-> & Ha & nx & HL & H1) & H2). repeat split; auto.
    exists nx. split; [done|]. apply IH. eauto.
Qed.

Lemma seg_frame L L' p c xs q n :
(forall x, x ∈ xs -> L' x = L x) -> seg L p c xs q n -> seg L' p c xs q n.
Proof.
revert p c; induction xs as [|a xs IH]; intros p c Hf; simpl; [done|].
intros (-> & Ha & nx & HL & H). repeat split; auto. exists nx. split.
- rewrite Hf; [done|]. by left.
- apply IH; [|done]. intros x Hx. apply Hf. by right.
Qed.

Lemma seg_nonzero L p c xs q n x : seg L p c xs q n -> x ∈ xs -> x <> 0.
Proof.
revert p c; induction xs as [|a xs IH]; intros p c; simpl; [by intros _ ?%not_elem_of_nil|].
intros (-> & Ha & nx & _ & H) Hx. apply elem_of_cons in Hx as [->|Hx]; eauto.
Qed.

Lemma seg_link L p c xs q n x : seg L p c xs q n -> x ∈ xs -> is_Some (L x).
Proof.
revert p c; induction xs as [|a xs IH]; intros p c; simpl; [by intros _ ?%not_elem_of_nil|].
intros (-> & Ha & nx & HL & H) Hx. apply elem_of_cons in Hx as [->|Hx]; eauto.
Qed.

(** A non-empty segment starts at its first node and ends at its last. *)
Lemma seg_head L p c xs q n : seg L p c xs q n -> xs <> [] -> c ∈ xs /\ c <> 0.
Proof. destruct xs; simpl; [done|]. intros (-> & ? & _) _. split; [by left|done]. Qed.

Lemma seg_last L p c xs q n : seg L p c xs q n -> xs <> [] -> q ∈ xs /\ q <> 0.
Proof.
revert p c; induction xs as [|a xs IH]; intros p c; simpl; [done|].
intros (-> & Ha & nx & _ & H) _. destruct xs as [|b xs'].
- simpl in H. destruct H as [_ <-]. split; [by left|done].
- destruct (IH _ _ H ltac:(done)) as [H1 H2]. split; [by right|done].
Qed.

(** The successor stored in the last node of a non-empty segment. *)
Lemma seg_last_next L p c xs q n : seg L p c xs q n -> xs <> [] -> exists pv, L q = Some (n, pv).
Proof.
revert p c; induction xs as [|a xs IH]; intros p c; simpl; [done|].
intros (-> & Ha & nx & HL & H) _. destruct xs as [|b xs'].
- simpl in H. destruct H as [-> <-]. eauto.
- by eapply IH.
Qed.

(** Redirect the last node's [next]. *)
Lemma seg_set_last_next L L' p c xs q n n' :
seg L p c xs q n -> xs <> [] -> NoDup xs ->
(forall x, x ∈ xs -> x <> q -> L' x = L x) ->
(forall nx pv, L q = Some (nx, pv) -> L' q = Some (n', pv)) ->
seg L' p c xs q n'.
Proof.
revert p c; induction xs as [|a xs IH]; intros p c; simpl; [done|].
intros (-> & Ha & nx & HL & H) _ Hnd Hf Hq. apply NoDup_cons in Hnd as [Hna Hnd].
destruct xs as [|b xs'].
- simpl in H. destruct H as [-> <-]. repeat split; auto. exists n'. split; [eauto|]. by simpl.
- assert (Hqin : q ∈ b :: xs') by (by eapply seg_last).
  repeat split; auto. exists nx. split.
  + rewrite Hf; [done|by left|]. set_solver.
  + apply IH; auto. intros x Hx Hne. apply Hf; [by right|done].
Qed.

(** Redirect the first node's [prev]. *)
Lemma seg_set_first_prev L L' p p' c xs q n :
seg L p c xs q n -> xs <> [] -> NoDup xs ->
(forall x, x ∈ xs -> x <> c -> L' x = L x) ->
(forall nx pv, L c = Some (nx, pv) -> L' c = Some (nx, p')) ->
seg L' p' c xs q n.
Proof.
destruct xs as [|a xs]; [done|]. simpl. intros (-> & Ha & nx & HL & H) _ Hnd Hf Hc.
apply NoDup_cons in Hnd as [Hna Hnd].
repeat split; auto. exists nx. split; [eauto|]. eapply seg_frame; [|done].
intros x Hx. apply Hf; [by right|]. set_solver.
Qed.

(** A node in the middle: its neighbours are the end of the prefix and the
  start of the suffix. *)
Lemma seg_middle L c xs a ys q :
seg L 0 c (xs ++ a :: ys) q 0 ->
exists k m, L a = Some (m, k) /\ a <> 0 /\ seg L 0 c xs k a /\ seg L a m ys q 0 /\
  (k = 0 <-> xs = []) /\ (m = 0 <-> ys = []).
Proof.
intros H. apply seg_app in H as (k & m' & H1 & H2). simpl in H2.
destruct H2 as (-> & Ha & m & HL & H2). exists k, m.
split; [done|]. split; [done|]. split; [done|]. split; [done|]. split.
- split; [|intros ->; by destruct H1].
  intros ->. destruct xs as [|x xs]; [done|]. by apply seg_last in H1 as [_ ?].
- split; [|intros ->; by destruct H2].
  intros ->. destruct ys as [|y ys]; [done|]. by apply seg_head in H2 as [_ ?].
Qed.
(** Unlinking [a] and substituting [b] for [a] share the two redirections of
  the neighbours [k] and [m]; [z] is what the neighbours now point to. *)
Section relink.
Context (L L' : Z -> option (Z * Z)) (c : Z) (xs ys : list Z) (a q k m : Z).
Hypothesis Hseg : seg L 0 c (xs ++ a :: ys) q 0.
Hypothesis Hnd : NoDup (xs ++ a :: ys).
Hypothesis Ha : L a = Some (m, k).
Hypothesis Hframe : forall x, x ∈ xs \/ x ∈ ys -> x <> k -> x <> m -> L' x = L x.

Lemma relink_prefix z :
  (k <> 0 -> forall nx pv, L k = Some (nx, pv) -> L' k = Some (z, pv)) ->
  seg L' 0 (if decide (k = 0) then z else c) xs k z.
Proof.
  intros Hk. destruct (seg_middle _ _ _ _ _ _ Hseg) as (k' & m' & HL & _ & H1 & H2 & Hk0 & Hm0).
  rewrite Ha in HL; injection HL as <- <-. apply NoDup_app in Hnd as (Hnd1 & Hdis & Hnd2).
  destruct (decide (xs = [])) as [->|Hxs].
  - rewrite decide_True by by apply Hk0. simpl. split; [done|]. symmetry. by apply Hk0.
  - assert (Hne : k <> 0) by (by intros ?%Hk0). rewrite decide_False by done.
    eapply seg_set_last_next; [exact H1|done|done| |exact (Hk Hne)].
    intros y Hy Hyk. apply Hframe; [by left|done|]. intros ->.
    destruct (decide (ys = [])) as [Hys|Hys].
    + apply (seg_nonzero _ _ _ _ _ _ _ H1 Hy). by apply Hm0.
    + apply (Hdis _ Hy). right. by apply seg_head in H2 as [? _].
Qed.

Lemma relink_suffix z :
  (m <> 0 -> forall nx pv, L m = Some (nx, pv) -> L' m = Some (nx, z)) ->
  exists q', seg L' z m ys q' 0.
Proof.
  intros Hm. destruct (seg_middle _ _ _ _ _ _ Hseg) as (k' & m' & HL & _ & H1 & H2 & Hk0 & Hm0).
  rewrite Ha in HL; injection HL as <- <-. apply NoDup_app in Hnd as (Hnd1 & Hdis & Hnd2). apply NoDup_cons in Hnd2 as [Hnay Hnd2].
  destruct (decide (ys = [])) as [->|Hys].
  - exists z. simpl. split; [|done]. by apply Hm0.
  - assert (Hne : m <> 0) by (by intros ?%Hm0).
    exists q. eapply seg_set_first_prev; [exact H2|done|done| |exact (Hm Hne)].
    intros x Hx Hxm. apply Hframe; [by right| |done]. intros ->.
    destruct (decide (xs = [])) as [Hxs|Hxs].
    + apply (seg_nonzero _ _ _ _ _ _ _ H2 Hx). by apply Hk0.
    + apply (Hdis k); [by apply seg_last in H1 as [? _]|]. by right.
Qed.

Lemma seg_remove :
  (k <> 0 -> forall nx pv, L k = Some (nx, pv) -> L' k = Some (m, pv)) ->
  (m <> 0 -> forall nx pv, L m = Some (nx, pv) -> L' m = Some (nx, k)) ->
  exists q', seg L' 0 (if decide (k = 0) then m else c) (xs ++ ys) q' 0.
Proof.
  intros Hk Hm. destruct (relink_suffix k Hm) as [q' H2]. exists q'.
  apply seg_app. exists k, m. split; [by apply relink_prefix|done].
Qed.

Lemma seg_replace b :
  b <> 0 -> L' b = Some (m, k) ->
  (k <> 0 -> forall nx pv, L k = Some (nx, pv) -> L' k = Some (b, pv)) ->
  (m <> 0 -> forall nx pv, L m = Some (nx, pv) -> L' m = Some (nx, b)) ->
  exists q', seg L' 0 (if decide (k = 0) then b else c) (xs ++ b :: ys) q' 0.
Proof.
  intros Hb HLb Hk Hm. destruct (relink_suffix b Hm) as [q' H2]. exists q'.
  apply seg_app. exists k, b. split; [by apply relink_prefix|]. simpl. eauto.
Qed.
End relink.

(** Pushing a node in front of a list. *)
Lemma seg_push L L' c xs q a :
seg L 0 c xs q 0 -> NoDup xs -> a <> 0 -> L' a = Some (c, 0) ->
(forall x, x ∈ xs -> x <> c -> L' x = L x) ->
(c <> 0 -> forall nx pv, L c = Some (nx, pv) -> L' c = Some (nx, a)) ->
exists q', seg L' 0 a (a :: xs) q' 0.
Proof.
intros H Hnd Ha HLa Hf Hc. destruct (decide (xs = [])) as [->|Hxs].
- destruct H as [-> _]. exists a. simpl. eauto 6.
- exists q. simpl. split; [done|]. split; [done|]. exists c. split; [done|].
  eapply seg_set_first_prev; [exact H|done|done|done|]. apply Hc.
  by apply seg_head in H as [_ ?].
Qed.
End seg.
