(* ===== verification/Heap.v ===== *)
(** * Kernel heap (src/mm/allocator.c) and its kmalloc layer (src/mm/kmem.c)

    Memory is typed by what the allocator keeps in it: [hdr] maps the address
    of a block header to its four fields, [ftr] the address of a footer to its
    two fields, [ubytes] the address of a payload byte to its value.  A pointer is
    its address and NULL is 0.  Reading a header or footer that was never
    written, or touching payload bytes outside the block, is [UB]. *)

From S2P Require Import Prelude Dll.

Record block_header := { bsize : Z; is_free : bool; next : Z; prev : Z }.
Record block_footer := { fsize : Z; ffree : bool }.

(** [sizeof] on the LP64 ABI of both ports. *)
Definition sizeof_header : Z := 32.
Definition sizeof_footer : Z := 16.

(** [SIMPLE_HEAP_START] and [SIMPLE_HEAP_SIZE] (arch-provided window). *)
Record heap_cfg := { SIMPLE_HEAP_START : Z; SIMPLE_HEAP_SIZE : Z }.
Definition SIMPLE_HEAP_END (c : heap_cfg) : Z := SIMPLE_HEAP_START c + SIMPLE_HEAP_SIZE c.

Record heap_state := {
  heap_start : Z;
  heap_end : Z;
  heap_size : Z;
  free_list : Z;
  total_allocated : Z;
  total_freed : Z;
  coalesce_forward_count : Z;
  coalesce_backward_count : Z;
  initialized : bool;
  hdr : gmap Z block_header;
  ftr : gmap Z block_footer;
  ubytes : gmap Z Z
}.

Definition heap_boot : heap_state := {|
  heap_start := 0; heap_end := 0; heap_size := 0; free_list := 0;
  total_allocated := 0; total_freed := 0; coalesce_forward_count := 0;
  coalesce_backward_count := 0; initialized := false; hdr := ∅; ftr := ∅; ubytes := ∅ |}.

(** ** State updates *)

Definition with_mem (h : gmap Z block_header) (f : gmap Z block_footer) (s : heap_state) : heap_state := {|
  heap_start := heap_start s; heap_end := heap_end s; heap_size := heap_size s;
  free_list := free_list s; total_allocated := total_allocated s; total_freed := total_freed s;
  coalesce_forward_count := coalesce_forward_count s;
  coalesce_backward_count := coalesce_backward_count s;
  initialized := initialized s; hdr := h; ftr := f; ubytes := ubytes s |}.

Definition with_free_list (p : Z) (s : heap_state) : heap_state := {|
  heap_start := heap_start s; heap_end := heap_end s; heap_size := heap_size s;
  free_list := p; total_allocated := total_allocated s; total_freed := total_freed s;
  coalesce_forward_count := coalesce_forward_count s;
  coalesce_backward_count := coalesce_backward_count s;
  initialized := initialized s; hdr := hdr s; ftr := ftr s; ubytes := ubytes s |}.

Definition with_stats (al fr fw bw : Z) (s : heap_state) : heap_state := {|
  heap_start := heap_start s; heap_end := heap_end s; heap_size := heap_size s;
  free_list := free_list s; total_allocated := al; total_freed := fr;
  coalesce_forward_count := fw; coalesce_backward_count := bw;
  initialized := initialized s; hdr := hdr s; ftr := ftr s; ubytes := ubytes s |}.

Definition with_bytes (b : gmap Z Z) (s : heap_state) : heap_state := {|
  heap_start := heap_start s; heap_end := heap_end s; heap_size := heap_size s;
  free_list := free_list s; total_allocated := total_allocated s; total_freed := total_freed s;
  coalesce_forward_count := coalesce_forward_count s;
  coalesce_backward_count := coalesce_backward_count s;
  initialized := initialized s; hdr := hdr s; ftr := ftr s; ubytes := b |}.

(** ** Field accesses *)

Definition load_hdr (s : heap_state) (a : Z) : outcome block_header := or_ub (hdr s !! a).
Definition load_ftr (s : heap_state) (a : Z) : outcome block_footer := or_ub (ftr s !! a).

Definition store_hdr (s : heap_state) (a : Z) (f : block_header -> block_header) : outcome heap_state :=
  h ← load_hdr s a; Ok (with_mem (<[a := f h]> (hdr s)) (ftr s) s).

Definition set_next (v : Z) (h : block_header) : block_header :=
  {| bsize := bsize h; is_free := is_free h; next := v; prev := prev h |}.
Definition set_prev (v : Z) (h : block_header) : block_header :=
  {| bsize := bsize h; is_free := is_free h; next := next h; prev := v |}.
Definition set_is_free (v : bool) (h : block_header) : block_header :=
  {| bsize := bsize h; is_free := v; next := next h; prev := prev h |}.

Definition store_ftr_free (s : heap_state) (f : Z) (v : bool) : outcome heap_state :=
  t ← load_ftr s f; Ok (with_mem (hdr s) (<[f := {| fsize := fsize t; ffree := v |}]> (ftr s)) s).

Definition get_footer (a : Z) (h : block_header) : Z := a + bsize h - sizeof_footer.

Definition get_header_from_footer (f : Z) (t : block_footer) : Z := f + sizeof_footer - fsize t.

(** [get_prev_block].  The two [klog_print] lines sit between an unbraced [if]
    and its [return NULL]: with DEBUG_MEMORY_ALLOCATOR the [if] guards the
    print and the first [return NULL] is unconditional. *)
Definition get_prev_block (debug_alloc : bool) (s : heap_state) (current : Z) : outcome Z :=
  if debug_alloc then Ok 0
  else if decide (current <= heap_start s) then Ok 0
  else
    let prev_footer := current - sizeof_footer in
    if decide (prev_footer < heap_start s) then Ok 0
    else t ← load_ftr s prev_footer; Ok (get_header_from_footer prev_footer t).

Definition get_next_block (s : heap_state) (current : Z) : outcome Z :=
  h ← load_hdr s current;
  let nxt := current + bsize h in
  if decide (heap_end s <= nxt) then Ok 0 else Ok nxt.

(** [set_block]: the link fields keep whatever the memory held. *)
Definition set_block (s : heap_state) (a size : Z) (fr : bool) : heap_state :=
  let old := default {| bsize := 0; is_free := false; next := 0; prev := 0 |} (hdr s !! a) in
  with_mem (<[a := {| bsize := size; is_free := fr; next := next old; prev := prev old |}]> (hdr s))
           (<[a + size - sizeof_footer := {| fsize := size; ffree := fr |}]> (ftr s)) s.

Definition alloc_init (c : heap_cfg) (s : heap_state) : outcome heap_state :=
  if initialized s then Ok s else
  let s := {| heap_start := SIMPLE_HEAP_START c; heap_end := SIMPLE_HEAP_END c;
              heap_size := SIMPLE_HEAP_SIZE c; free_list := SIMPLE_HEAP_START c;
              total_allocated := 0; total_freed := 0; coalesce_forward_count := 0;
              coalesce_backward_count := 0; initialized := initialized s;
              hdr := hdr s; ftr := ftr s; ubytes := ubytes s |} in
  let s := set_block s (free_list s) (heap_size s) true in
  s ← store_hdr s (free_list s) (set_next 0);
  s ← store_hdr s (free_list s) (set_prev 0);
  Ok {| heap_start := heap_start s; heap_end := heap_end s; heap_size := heap_size s;
        free_list := free_list s; total_allocated := total_allocated s;
        total_freed := total_freed s; coalesce_forward_count := coalesce_forward_count s;
        coalesce_backward_count := coalesce_backward_count s; initialized := true;
        hdr := hdr s; ftr := ftr s; ubytes := ubytes s |}.

(** [(size + sizeof(header) + sizeof(footer) + 15) & ~15] in size_t. *)
Definition block_total_size (size : Z) : Z :=
  Z.land (u64 (size + sizeof_header + sizeof_footer + 15)) (Z.lnot 15).

(** Store zero at [p[i]] for [i < n]. *)
Fixpoint zero_bytes (m : gmap Z Z) (p : Z) (n : nat) : gmap Z Z :=
  match n with O => m | S k => <[p + Z.of_nat k := 0]> (zero_bytes m p k) end.

(** [for (i = 0; i < n; i++) dst[i] = src[i];] *)
Fixpoint copy_bytes (m : gmap Z Z) (dst src : Z) (n : nat) : gmap Z Z :=
  match n with
  | O => m
  | S k => let m' := copy_bytes m dst src k in
           <[dst + Z.of_nat k := default 0 (m' !! (src + Z.of_nat k))]> m'
  end.

(** The split branch: carve [total_size] bytes off the front of [current]. *)
Definition alloc_split (s : heap_state) (current total_size : Z) : outcome heap_state :=
  h ← load_hdr s current;
  let new_block := current + total_size in
  let new_size := bsize h - total_size in
  let s := set_block s new_block new_size true in
  s ← store_hdr s new_block (set_next (next h));
  s ← store_hdr s new_block (set_prev (prev h));
  s ← (if decide (next h = 0) then Ok s else store_hdr s (next h) (set_prev new_block));
  s ← (if decide (prev h = 0) then Ok (with_free_list new_block s)
       else store_hdr s (prev h) (set_next new_block));
  let s := set_block s current total_size false in
  s ← store_hdr s current (set_next 0);
  store_hdr s current (set_prev 0).

(** Remove [b] from the doubly linked free list. *)
Definition unlink (s : heap_state) (b : Z) : outcome heap_state :=
  h ← load_hdr s b;
  s ← (if decide (prev h = 0) then Ok (with_free_list (next h) s)
       else store_hdr s (prev h) (set_next (next h)));
  if decide (next h = 0) then Ok s else store_hdr s (next h) (set_prev (prev h)).

(** The whole-block branch: unlink [current] and mark its footer. *)
Definition alloc_whole (s : heap_state) (current : Z) : outcome heap_state :=
  s ← unlink s current;
  h ← load_hdr s current;
  store_ftr_free s (get_footer current h) false.

(** The body of the loop for the block that fits. *)
Definition alloc_take (s : heap_state) (current total_size size : Z) : outcome (heap_state * Z) :=
  s ← store_hdr s current (set_is_free false);
  h ← load_hdr s current;
  s ← (if decide (total_size + sizeof_header + sizeof_footer + 32 < bsize h)
       then alloc_split s current total_size
       else alloc_whole s current);
  h ← load_hdr s current;
  let s := with_stats (u64 (total_allocated s + bsize h)) (total_freed s)
                      (coalesce_forward_count s) (coalesce_backward_count s) s in
  let ptr := current + sizeof_header in
  if decide (bsize h - sizeof_header - sizeof_footer < size) then UB
  else Ok (with_bytes (zero_bytes (ubytes s) ptr (Z.to_nat size)) s, ptr).

(** [while (current) ...]: the walk is bounded by the number of blocks the
    heap can hold, which [fuel] is at least. *)
Fixpoint alloc_walk (fuel : nat) (s : heap_state) (current total_size size : Z) : outcome (heap_state * Z) :=
  match fuel with
  | O => Ok (s, 0)
  | S n =>
      if decide (current = 0) then Ok (s, 0) else
      h ← load_hdr s current;
      if is_free h && bool_decide (total_size <= bsize h)
      then alloc_take s current total_size size
      else alloc_walk n s (next h) total_size size
  end.

Definition walk_fuel (s : heap_state) : nat := S (Z.to_nat (heap_size s / 48)).

Definition alloc (c : heap_cfg) (s : heap_state) (size : Z) : outcome (heap_state * Z) :=
  s ← alloc_init c s;
  if decide (size = 0) then Ok (s, 0)
  else alloc_walk (walk_fuel s) s (free_list s) (block_total_size size) size.

(** ** Free with bidirectional coalescing *)

Definition coalesce_forward (s : heap_state) (block : Z) : outcome heap_state :=
  nb ← get_next_block s block;
  if decide (nb = 0) then Ok s else
  nh ← load_hdr s nb;
  if negb (is_free nh) then Ok s else
  s ← unlink s nb;
  bh ← load_hdr s block;
  nh ← load_hdr s nb;
  let s := set_block s block (bsize bh + bsize nh) true in
  Ok (with_stats (total_allocated s) (total_freed s)
        (u64 (coalesce_forward_count s + 1)) (coalesce_backward_count s) s).

Definition coalesce_backward (dbg : bool) (s : heap_state) (block : Z) : outcome (heap_state * Z) :=
  pb ← get_prev_block dbg s block;
  if decide (pb = 0) then Ok (s, block) else
  ph ← load_hdr s pb;
  if negb (is_free ph) then Ok (s, block) else
  s ← unlink s pb;
  ph ← load_hdr s pb;
  bh ← load_hdr s block;
  let s := set_block s pb (bsize ph + bsize bh) true in
  Ok (with_stats (total_allocated s) (total_freed s)
        (coalesce_forward_count s) (u64 (coalesce_backward_count s + 1)) s, pb).

Definition insert_free (s : heap_state) (block : Z) : outcome heap_state :=
  s ← store_hdr s block (set_next (free_list s));
  s ← store_hdr s block (set_prev 0);
  s ← (if decide (free_list s = 0) then Ok s else store_hdr s (free_list s) (set_prev block));
  Ok (with_free_list block s).

Definition alloc_free (dbg : bool) (s : heap_state) (ptr : Z) : outcome heap_state :=
  if decide (ptr = 0) then Ok s else
  if negb (initialized s) then Ok s else
  let block := ptr - sizeof_header in
  if decide (block < heap_start s \/ heap_end s <= block) then Panic "Out of bounds allocation" else
  h ← load_hdr s block;
  if is_free h then Panic "double-free detected" else
  s ← store_hdr s block (set_is_free true);
  s ← store_ftr_free s (get_footer block h) true;
  let s := with_stats (total_allocated s) (u64 (total_freed s + bsize h))
             (coalesce_forward_count s) (coalesce_backward_count s) s in
  s ← coalesce_forward s block;
  '(s, block) ← coalesce_backward dbg s block;
  insert_free s block.

Definition all_realloc (dbg : bool) (c : heap_cfg) (s : heap_state) (ptr new_size : Z) : outcome (heap_state * Z) :=
  if decide (ptr = 0) then alloc c s new_size else
  if decide (new_size = 0) then s ← alloc_free dbg s ptr; Ok (s, 0) else
  oh ← load_hdr s (ptr - sizeof_header);
  let old_size := bsize oh - sizeof_header - sizeof_footer in
  '(s, new_ptr) ← alloc c s new_size;
  if decide (new_ptr = 0) then Ok (s, 0) else
  let copy_size := if decide (old_size < new_size) then old_size else new_size in
  let s := with_bytes (copy_bytes (ubytes s) new_ptr ptr (Z.to_nat copy_size)) s in
  s ← alloc_free dbg s ptr;
  Ok (s, new_ptr).

(** [alloc_stats]: heap size, bytes in live blocks, bytes ever handed out. *)
Definition alloc_stats (s : heap_state) : Z * Z * Z :=
  (heap_size s, u64 (total_allocated s - total_freed s), total_allocated s).

(** ** Views of the header map: sizes and status on one side, links on the other *)

Definition meta (s : heap_state) (a : Z) : option (Z * bool) :=
  (fun h => (bsize h, is_free h)) <$> hdr s !! a.
Definition link (s : heap_state) (a : Z) : option (Z * Z) :=
  (fun h => (next h, prev h)) <$> hdr s !! a.

(** The parts of the state no block operation changes, and the counters. *)
Definition geom (s : heap_state) : Z * Z * Z * bool :=
  (heap_start s, heap_end s, heap_size s, initialized s).
Definition stats (s : heap_state) : Z * Z * Z * Z :=
  (total_allocated s, total_freed s, coalesce_forward_count s, coalesce_backward_count s).

(** ** Tiling: the heap is a sequence of blocks with matching boundary tags *)

Abbreviation blocks := (list (Z * bool)).

Fixpoint tiled (M : Z -> option (Z * bool)) (F : gmap Z block_footer) (a : Z) (bl : blocks) (e : Z) : Prop :=
  match bl with
  | [] => a = e
  | (sz, fr) :: bl' =>
      48 <= sz /\ sz mod 16 = 0 /\ M a = Some (sz, fr) /\
      F !! (a + sz - sizeof_footer) = Some {| fsize := sz; ffree := fr |} /\
      tiled M F (a + sz) bl' e
  end.

(** Addresses of the free blocks, in address order. *)
Fixpoint frees (a : Z) (bl : blocks) : list Z :=
  match bl with
  | [] => []
  | (sz, fr) :: bl' => (if fr then [a] else []) ++ frees (a + sz) bl'
  end.

Fixpoint extent (bl : blocks) : Z :=
  match bl with [] => 0 | (sz, _) :: bl' => sz + extent bl' end.

(** Bytes held by allocated blocks. *)
Fixpoint live_bytes (bl : blocks) : Z :=
  match bl with [] => 0 | (sz, fr) :: bl' => (if fr then 0 else sz) + live_bytes bl' end.

(** No two neighbouring blocks are both free. *)
Fixpoint coalesced (bl : blocks) : Prop :=
  match bl with
  | [] => True
  | (_, fr) :: bl' =>
      match bl' with (_, fr') :: _ => fr && fr' = false | [] => True end /\ coalesced bl'
  end.

Section tiling.
Implicit Types (M : Z -> option (Z * bool)) (F : gmap Z block_footer) (bl : blocks).

Lemma extent_app b1 b2 : extent (b1 ++ b2) = extent b1 + extent b2.
Proof. induction b1 as [|[sz fr] b1 IH]; simpl; lia. Qed.

Lemma live_bytes_app b1 b2 : live_bytes (b1 ++ b2) = live_bytes b1 + live_bytes b2.
Proof. induction b1 as [|[sz []] b1 IH]; simpl; lia. Qed.

Lemma frees_app a b1 b2 : frees a (b1 ++ b2) = frees a b1 ++ frees (a + extent b1) b2.
Proof.
  revert a; induction b1 as [|[sz fr] b1 IH]; intros a; simpl; [by rewrite Z.add_0_r|].
  rewrite IH, app_assoc. do 2 f_equal. lia.
Qed.

Lemma tiled_app M F a b1 b2 e :
  tiled M F a (b1 ++ b2) e <-> tiled M F a b1 (a + extent b1) /\ tiled M F (a + extent b1) b2 e.
Proof.
  revert a; induction b1 as [|[sz fr] b1 IH]; intros a; simpl.
  - rewrite Z.add_0_r. naive_solver.
  - rewrite IH. replace (a + sz + extent b1) with (a + (sz + extent b1)) by lia. naive_solver.
Qed.

Lemma tiled_extent M F a bl e : tiled M F a bl e -> e = a + extent bl /\ a <= e.
Proof.
  revert a; induction bl as [|[sz fr] bl IH]; intros a; simpl; [lia|].
  intros (? & _ & _ & _ & H). apply IH in H. lia.
Qed.

Lemma tiled_frame M M' F F' a bl e :
  (forall x, a <= x < e -> M' x = M x) -> (forall x, a <= x < e -> F' !! x = F !! x) ->
  tiled M F a bl e -> tiled M' F' a bl e.
Proof.
  revert a; induction bl as [|[sz fr] bl IH]; intros a HM HF; simpl; [done|].
  intros (H1 & H2 & H3 & H4 & H5). pose proof (tiled_extent _ _ _ _ _ H5) as [_ Hle].
  unfold sizeof_footer in *.
  rewrite HM, HF by lia. splits; auto.
  apply IH; [intros; apply HM; lia|intros; apply HF; lia|done].
Qed.

Lemma tiled_length M F a bl e : tiled M F a bl e -> 48 * Z.of_nat (length bl) <= e - a.
Proof.
  revert a; induction bl as [|[sz fr] bl IH]; intros a; simpl; [lia|].
  intros (? & _ & _ & _ & H). apply IH in H. lia.
Qed.

Lemma frees_length a bl : (length (frees a bl) <= length bl)%nat.
Proof.
  revert a; induction bl as [|[sz []] bl IH]; intros a; simpl; auto; specialize (IH (a + sz)); lia.
Qed.

Lemma frees_range M F a bl e x : tiled M F a bl e -> x ∈ frees a bl -> a <= x < e.
Proof.
  revert a; induction bl as [|[sz fr] bl IH]; intros a; simpl; [by intros _ ?%not_elem_of_nil|].
  intros (? & _ & _ & _ & H) Hx. pose proof (tiled_extent _ _ _ _ _ H).
  apply elem_of_app in Hx as [Hx|Hx]; [|apply (IH _ H) in Hx; lia].
  destruct fr; [apply list_elem_of_singleton in Hx; lia|by apply not_elem_of_nil in Hx].
Qed.

Lemma frees_nodup M F a bl e : tiled M F a bl e -> NoDup (frees a bl).
Proof.
  revert a; induction bl as [|[sz fr] bl IH]; intros a; simpl; [intros _; constructor|].
  intros (? & _ & _ & _ & H). destruct fr; [|by apply IH].
  apply NoDup_cons. split; [|by apply IH].
  intros Hx. apply (frees_range _ _ _ _ _ _ H) in Hx. lia.
Qed.

(** Every block, free or not, is found by splitting the tiling. *)
Lemma frees_split M F a bl e x :
  tiled M F a bl e -> x ∈ frees a bl ->
  exists b1 sz b2, bl = b1 ++ (sz, true) :: b2 /\ x = a + extent b1 /\ M x = Some (sz, true).
Proof.
  revert a; induction bl as [|[sz fr] bl IH]; intros a; simpl; [by intros _ ?%not_elem_of_nil|].
  intros (? & _ & HM & _ & H) Hx. apply elem_of_app in Hx as [Hx|Hx].
  - destruct fr; [|by apply not_elem_of_nil in Hx]. apply list_elem_of_singleton in Hx as ->.
    exists [], sz, bl. simpl. splits; auto. lia.
  - destruct (IH _ H Hx) as (b1 & sz' & b2 & -> & -> & HM').
    exists ((sz, fr) :: b1), sz', b2. simpl. splits; auto. lia.
Qed.

Lemma coalesced_app b1 b2 :
  coalesced (b1 ++ b2) <->
  coalesced b1 /\ coalesced b2 /\
  match last b1, head b2 with Some (_, f1), Some (_, f2) => f1 && f2 = false | _, _ => True end.
Proof.
  induction b1 as [|[sz fr] b1 IH]; simpl; [naive_solver|].
  destruct b1 as [|[sz' fr'] b1]; simpl in *.
  - destruct b2 as [|[sz2 fr2] b2]; simpl; naive_solver.
  - rewrite IH. naive_solver.
Qed.
End tiling.

(** ** The heap invariant *)

Record heap_ok (s : heap_state) (bl : blocks) (fl : list Z) : Prop := {
  hk_init : initialized s = true;
  hk_start : 0 < heap_start s;
  hk_align : heap_start s mod 16 = 0;
  hk_end : heap_end s = heap_start s + heap_size s;
  hk_top : heap_end s < 2 ^ 63;
  hk_tiled : tiled (meta s) (ftr s) (heap_start s) bl (heap_end s);
  hk_perm : fl ≡ₚ frees (heap_start s) bl;
  hk_dll : exists q, seg (link s) 0 (free_list s) fl q 0;
  hk_coal : coalesced bl
}.

(** Two states with the same tiling, payload and counters (links may differ). *)
Record same_blocks (s s' : heap_state) : Prop := {
  sb_meta : forall x, meta s' x = meta s x;
  sb_ftr : ftr s' = ftr s;
  sb_bytes : ubytes s' = ubytes s;
  sb_geom : geom s' = geom s;
  sb_stats : stats s' = stats s
}.

#[export] Instance same_blocks_preorder : PreOrder same_blocks.
Proof.
  split.
  - intros s. by constructor.
  - intros s1 s2 s3 [] []. constructor; congruence.
Qed.

Lemma meta_link_hdr s a sz fr nx pv :
  meta s a = Some (sz, fr) -> link s a = Some (nx, pv) ->
  hdr s !! a = Some {| bsize := sz; is_free := fr; next := nx; prev := pv |}.
Proof.
  unfold meta, link. destruct (hdr s !! a) as [[]|]; simpl; [|done]. by intros [= -> ->] [= -> ->].
Qed.

Lemma store_next_spec s a v nx pv :
  link s a = Some (nx, pv) ->
  exists s', store_hdr s a (set_next v) = Ok s' /\ same_blocks s s' /\ free_list s' = free_list s /\
    forall x, link s' x = if decide (x = a) then Some (v, pv) else link s x.
Proof.
  unfold link, store_hdr, load_hdr, meta. destruct (hdr s !! a) as [h|] eqn:E; simpl; [|done].
  intros [= <- <-]. eexists. split; [reflexivity|]. split; [constructor; try done|split; [done|]].
  - intros x. unfold meta. simpl. rewrite lookup_insert. case_decide; [subst; by rewrite E|done].
  - intros x. simpl. rewrite lookup_insert. repeat case_decide; by simplify_eq/=.
Qed.

Lemma store_prev_spec s a v nx pv :
  link s a = Some (nx, pv) ->
  exists s', store_hdr s a (set_prev v) = Ok s' /\ same_blocks s s' /\ free_list s' = free_list s /\
    forall x, link s' x = if decide (x = a) then Some (nx, v) else link s x.
Proof.
  unfold link, store_hdr, load_hdr, meta. destruct (hdr s !! a) as [h|] eqn:E; simpl; [|done].
  intros [= <- <-]. eexists. split; [reflexivity|]. split; [constructor; try done|split; [done|]].
  - intros x. unfold meta. simpl. rewrite lookup_insert. case_decide; [subst; by rewrite E|done].
  - intros x. simpl. rewrite lookup_insert. repeat case_decide; by simplify_eq/=.
Qed.

Lemma link_load s a nx pv :
  link s a = Some (nx, pv) -> exists h, load_hdr s a = Ok h /\ next h = nx /\ prev h = pv.
Proof.
  unfold link, load_hdr. destruct (hdr s !! a) as [h|]; simpl; [|done]. intros [= <- <-]. eauto.
Qed.

Lemma meta_load s a sz fr :
  meta s a = Some (sz, fr) -> exists h, load_hdr s a = Ok h /\ bsize h = sz /\ is_free h = fr /\ hdr s !! a = Some h.
Proof.
  unfold meta, load_hdr. destruct (hdr s !! a) as [h|]; simpl; [|done]. intros [= <- <-]. eauto.
Qed.

(** The two conditional link writes every list operation is made of. *)
Lemma cond_set_prev s m v :
  (m <> 0 -> is_Some (link s m)) ->
  exists s', (if decide (m = 0) then Ok s else store_hdr s m (set_prev v)) = Ok s' /\
    same_blocks s s' /\ free_list s' = free_list s /\
    (m <> 0 -> forall nx pv, link s m = Some (nx, pv) -> link s' m = Some (nx, v)) /\
    (forall x, x <> m \/ m = 0 -> link s' x = link s x).
Proof.
  intros Hm. destruct (decide (m = 0)) as [Hm0|Hm0].
  - exists s. split; [done|]. split; [reflexivity|]. by splits.
  - destruct (Hm Hm0) as [[nm pm] Hl]. destruct (store_prev_spec s m v _ _ Hl) as (s2 & -> & Hsb & Hfl & Hx).
    exists s2. splits; auto.
    + intros _ nx pv Hy. rewrite Hx, decide_True by done. congruence.
    + intros x [Hy|Hy]; [|done]. by rewrite Hx, decide_False.
Qed.

Lemma cond_set_next s k v :
  (k <> 0 -> is_Some (link s k)) ->
  exists s', (if decide (k = 0) then Ok (with_free_list v s) else store_hdr s k (set_next v)) = Ok s' /\
    same_blocks s s' /\ free_list s' = (if decide (k = 0) then v else free_list s) /\
    (k <> 0 -> forall nx pv, link s k = Some (nx, pv) -> link s' k = Some (v, pv)) /\
    (forall x, x <> k \/ k = 0 -> link s' x = link s x).
Proof.
  intros Hk. destruct (decide (k = 0)) as [Hk0|Hk0].
  - eexists. split; [reflexivity|]. by splits.
  - destruct (Hk Hk0) as [[nk pk] Hl]. destruct (store_next_spec s k v _ _ Hl) as (s2 & -> & Hsb & Hfl & Hx).
    exists s2. splits; auto.
    + intros _ nx pv Hy. rewrite Hx, decide_True by done. congruence.
    + intros x [Hy|Hy]; [|done]. by rewrite Hx, decide_False.
Qed.

(** What the neighbours of a node look like. *)
Lemma seg_neighbours L c f1 b f2 q :
  seg L 0 c (f1 ++ b :: f2) q 0 -> NoDup (f1 ++ b :: f2) ->
  exists k m, L b = Some (m, k) /\ b <> 0 /\ (k <> 0 -> k <> m) /\
    (k <> 0 -> is_Some (L k) /\ k ∈ f1) /\ (m <> 0 -> is_Some (L m) /\ m ∈ f2).
Proof.
  intros Hseg Hnd. pose proof (seg_middle _ _ _ _ _ _ Hseg) as (k & m & HL & Hb & H1 & H2 & Hk & Hm).
  apply NoDup_app in Hnd as (_ & Hdis & _). exists k, m.
  assert (Hki : k <> 0 -> k ∈ f1) by (intros ?; apply seg_last in H1; naive_solver).
  assert (Hmi : m <> 0 -> m ∈ f2) by (intros ?; apply seg_head in H2; naive_solver).
  splits; auto.
  - intros Hk0 ->. apply (Hdis m); [auto|]. right. auto.
  - intros Hk0. split; [|auto]. by eapply seg_link; [exact H1|auto].
  - intros Hm0. split; [|auto]. by eapply seg_link; [exact H2|auto].
Qed.

(** [unlink] takes its argument out of the free list and touches nothing else. *)
Lemma unlink_spec s f1 b f2 q :
  seg (link s) 0 (free_list s) (f1 ++ b :: f2) q 0 -> NoDup (f1 ++ b :: f2) ->
  exists s', unlink s b = Ok s' /\ same_blocks s s' /\
    exists q', seg (link s') 0 (free_list s') (f1 ++ f2) q' 0.
Proof.
  intros Hseg Hnd. destruct (seg_neighbours _ _ _ _ _ _ Hseg Hnd) as (k & m & HL & Hb & Hkm & Hki & Hmi).
  destruct (link_load _ _ _ _ HL) as (h & Hh & Hnx & Hpv). unfold unlink. rewrite Hh. simpl. rewrite Hnx, Hpv.
  destruct (cond_set_next s k m) as (s1 & -> & Hsb1 & Hfl1 & Hlk1 & Hlf1); [naive_solver|]. simpl.
  destruct (cond_set_prev s1 m k) as (s2 & -> & Hsb2 & Hfl2 & Hlm2 & Hlf2).
  { intros Hm0. rewrite Hlf1; [naive_solver|]. destruct (decide (k = 0)); naive_solver. }
  exists s2. split; [done|]. split; [by etrans|]. rewrite Hfl2, Hfl1.
  apply (seg_remove (link s) (link s2) (free_list s) f1 f2 b q k m); auto.
  - intros x Hx Hxk Hxm. rewrite Hlf2, Hlf1; auto.
  - intros Hk0 nx pv Hx. rewrite Hlf2; [by eapply Hlk1|]. left. auto.
  - intros Hm0 nx pv Hx. eapply Hlm2; [done|]. rewrite Hlf1; [done|].
    destruct (decide (k = 0)); naive_solver.
Qed.

Lemma set_block_spec s a sz fr :
  let s' := set_block s a sz fr in
  (forall x, meta s' x = if decide (x = a) then Some (sz, fr) else meta s x) /\
  (forall x, ftr s' !! x = if decide (x = a + sz - sizeof_footer) then Some {| fsize := sz; ffree := fr |} else ftr s !! x) /\
  (forall x, x <> a \/ is_Some (link s a) -> link s' x = link s x) /\
  is_Some (link s' a) /\
  free_list s' = free_list s /\ ubytes s' = ubytes s /\
  geom s' = geom s /\
  stats s' = stats s.
Proof.
  simpl. unfold set_block, meta, link. simpl. splits; try done.
  - intros x. rewrite lookup_insert. repeat case_decide; by simplify_eq/=.
  - intros x. rewrite lookup_insert. repeat case_decide; by simplify_eq/=.
  - intros x Hx. rewrite lookup_insert. case_decide; [subst|done].
    destruct (hdr s !! x); simpl in *; [done|]. destruct Hx as [?|[? ?]]; done.
  - rewrite lookup_insert_eq. simpl. eauto.
Qed.

(** ** Local surgery on the tiling *)

Lemma tiled_replace M M' F F' a0 b1 sz fr b2 e mid :
  tiled M F a0 (b1 ++ (sz, fr) :: b2) e ->
  let a := a0 + extent b1 in
  (forall x, x < a \/ a + sz <= x -> M' x = M x) ->
  (forall x, x < a \/ a + sz <= x -> F' !! x = F !! x) ->
  tiled M' F' a mid (a + sz) -> tiled M' F' a0 (b1 ++ mid ++ b2) e.
Proof.
  intros Ht a HM HF Hmid. apply tiled_app in Ht as [H1 H2]. simpl in H2.
  destruct H2 as (_ & _ & _ & _ & H2). pose proof (tiled_extent _ _ _ _ _ Hmid) as [Hx _].
  apply tiled_app. split; [|apply tiled_app; split].
  - eapply tiled_frame; [| |exact H1]; intros x Hr; [apply HM|apply HF]; unfold a; lia.
  - fold a. by rewrite <- Hx.
  - fold a. rewrite <- Hx. eapply tiled_frame; [| |exact H2]; intros x Hr; [apply HM|apply HF]; unfold a in *; lia.
Qed.

Lemma frees_middle a0 b1 sz fr b2 :
  frees a0 (b1 ++ (sz, fr) :: b2) =
  frees a0 b1 ++ (if fr then [a0 + extent b1] else []) ++ frees (a0 + extent b1 + sz) b2.
Proof. by rewrite frees_app. Qed.

(** A block of the free list, located both in the tiling and in the list. *)
Lemma heap_ok_locate s bl fl a :
  heap_ok s bl fl -> a ∈ fl ->
  exists b1 sz b2 f1 f2, bl = b1 ++ (sz, true) :: b2 /\ a = heap_start s + extent b1 /\
    fl = f1 ++ a :: f2 /\ NoDup fl /\ meta s a = Some (sz, true) /\
    48 <= sz /\ sz mod 16 = 0 /\ heap_start s <= a /\ a + sz <= heap_end s /\
    f1 ++ f2 ≡ₚ frees (heap_start s) b1 ++ frees (a + sz) b2.
Proof.
  intros [] Ha. assert (Hnd : NoDup fl) by (rewrite hk_perm0; by eapply frees_nodup).
  assert (Hin : a ∈ frees (heap_start s) bl) by (by rewrite <- hk_perm0).
  destruct (frees_split _ _ _ _ _ _ hk_tiled0 Hin) as (b1 & sz & b2 & -> & -> & HM).
  apply list_elem_of_split in Ha as (f1 & f2 & Ef). rewrite Ef in *.
  exists b1, sz, b2, f1, f2. apply tiled_app in hk_tiled0 as [H1 H2].
  simpl in H2. destruct H2 as (Hs & Hm & _ & _ & H2).
  pose proof (tiled_extent _ _ _ _ _ H1). pose proof (tiled_extent _ _ _ _ _ H2).
  splits; auto; try lia.
  rewrite frees_middle in hk_perm0. simpl in hk_perm0.
  rewrite <- Permutation_middle in hk_perm0. rewrite <- Permutation_middle in hk_perm0.
  by apply Permutation_cons_inv in hk_perm0.
Qed.

Lemma store_is_free_spec s a v sz fr :
  meta s a = Some (sz, fr) ->
  exists s', store_hdr s a (set_is_free v) = Ok s' /\
    (forall x, meta s' x = if decide (x = a) then Some (sz, v) else meta s x) /\
    (forall x, link s' x = link s x) /\ ftr s' = ftr s /\ ubytes s' = ubytes s /\
    free_list s' = free_list s /\
    geom s' = geom s /\
    stats s' = stats s.
Proof.
  intros H. destruct (meta_load _ _ _ _ H) as (h & Hh & <- & _ & He). unfold store_hdr. rewrite Hh. simpl.
  eexists. split; [reflexivity|]. unfold meta, link. simpl. splits; try done.
  - intros x. rewrite lookup_insert. repeat case_decide; by simplify_eq/=.
  - intros x. rewrite lookup_insert. case_decide; [subst; by rewrite He|done].
Qed.

Lemma store_ftr_free_spec s f sz v0 v :
  ftr s !! f = Some {| fsize := sz; ffree := v0 |} ->
  exists s', store_ftr_free s f v = Ok s' /\ hdr s' = hdr s /\
    (forall x, ftr s' !! x = if decide (x = f) then Some {| fsize := sz; ffree := v |} else ftr s !! x) /\
    ubytes s' = ubytes s /\ free_list s' = free_list s /\
    geom s' = geom s /\
    stats s' = stats s.
Proof.
  intros H. unfold store_ftr_free, load_ftr. rewrite H. simpl. eexists. split; [reflexivity|].
  simpl. splits; try done. intros x. rewrite lookup_insert. repeat case_decide; by simplify_eq/=.
Qed.

(** ** Allocation from a located free block *)

Section take.
Context (s s0 : heap_state) (b1 b2 : blocks) (sz : Z) (f1 f2 : list Z).
Let a := heap_start s + extent b1.
Hypothesis Hok : heap_ok s (b1 ++ (sz, true) :: b2) (f1 ++ a :: f2).
Hypothesis Hnd : NoDup (f1 ++ a :: f2).
Hypothesis Hperm : f1 ++ f2 ≡ₚ frees (heap_start s) b1 ++ frees (a + sz) b2.
Hypothesis Hmeta : meta s a = Some (sz, true).
Hypothesis Hrange : 48 <= sz /\ sz mod 16 = 0 /\ heap_start s <= a /\ a + sz <= heap_end s.
(** [s0] is [s] with [current->is_free = 0] already stored. *)
Hypothesis H0meta : forall x, meta s0 x = if decide (x = a) then Some (sz, false) else meta s x.
Hypothesis H0link : forall x, link s0 x = link s x.
Hypothesis H0ftr : ftr s0 = ftr s.
Hypothesis H0fl : free_list s0 = free_list s.
Hypothesis H0geom : geom s0 = geom s.

Lemma take_seg : exists q, seg (link s0) 0 (free_list s0) (f1 ++ a :: f2) q 0.
Proof.
  destruct (hk_dll _ _ _ Hok) as [q Hq]. exists q. rewrite H0fl.
  eapply seg_frame; [|exact Hq]. intros x _. apply H0link.
Qed.

Lemma take_ftr : ftr s0 !! (a + sz - sizeof_footer) = Some {| fsize := sz; ffree := true |}.
Proof.
  rewrite H0ftr. pose proof (hk_tiled _ _ _ Hok) as Ht.
  apply tiled_app in Ht as [_ Ht]. simpl in Ht. naive_solver.
Qed.

Lemma take_coalesced mid :
  match head mid with Some (_, f) => f = false | None => False end ->
  coalesced (mid ++ b2) -> coalesced (b1 ++ mid ++ b2).
Proof.
  intros Hh Hm. pose proof (hk_coal _ _ _ Hok) as Hc. apply coalesced_app in Hc as (Hc1 & _ & _).
  apply coalesced_app. split; [done|]. split; [done|].
  destruct mid as [|[zm fm] mid]; simpl in *; [done|]. subst.
  destruct (last b1) as [[z f]|]; [|done]. by rewrite andb_false_r.
Qed.

Lemma alloc_whole_spec :
  exists s1, alloc_whole s0 a = Ok s1 /\
    heap_ok s1 (b1 ++ (sz, false) :: b2) (f1 ++ f2) /\
    meta s1 a = Some (sz, false) /\ ubytes s1 = ubytes s0 /\ geom s1 = geom s /\ stats s1 = stats s0.
Proof.
  destruct take_seg as [q Hq]. unfold alloc_whole.
  destruct (unlink_spec s0 f1 a f2 q Hq Hnd) as (s1 & -> & [] & q' & Hq'). simpl.
  assert (Hm1 : meta s1 a = Some (sz, false)) by by rewrite sb_meta0, H0meta, decide_True.
  destruct (meta_load _ _ _ _ Hm1) as (h & -> & Hsz & _ & _). simpl.
  unfold get_footer. rewrite Hsz.
  destruct (store_ftr_free_spec s1 (a + sz - sizeof_footer) sz true false) as
    (s2 & -> & Hh & Hf & Hb & Hfl & Hg & Hst).
  { rewrite sb_ftr0. apply take_ftr. }
  exists s2. split; [done|].
  assert (Hmeta2 : forall x, meta s2 x = meta s1 x) by (intros x; unfold meta; by rewrite Hh).
  assert (Hlink2 : forall x, link s2 x = link s1 x) by (intros x; unfold link; by rewrite Hh).
  assert (Hg2 : geom s2 = geom s) by (unfold geom in *; congruence).
  split; [|splits; [by rewrite Hmeta2|congruence|done|unfold stats in *; congruence]].
  pose proof Hok as []. unfold geom in Hg2. injection Hg2 as E1 E2 E3 E4.
  constructor; rewrite ?E1, ?E2, ?E3, ?E4; auto.
  - change ((sz, false) :: b2) with ([(sz, false)] ++ b2).
    eapply tiled_replace; [exact hk_tiled0| | |].
    + intros x Hx. fold a in Hx. rewrite Hmeta2, sb_meta0, H0meta, decide_False by lia. done.
    + intros x Hx. fold a in Hx. unfold sizeof_footer in *.
      rewrite Hf, sb_ftr0, H0ftr, decide_False by lia. done.
    + fold a. simpl. rewrite Hmeta2, Hf, decide_True by done. naive_solver.
  - rewrite frees_middle. fold a. done.
  - rewrite Hfl. exists q'. eapply seg_frame; [|exact Hq']. intros x _. apply Hlink2.
  - change ((sz, false) :: b2) with ([(sz, false)] ++ b2). apply take_coalesced; [done|].
    apply coalesced_app in hk_coal0 as (_ & Hc2 & _). simpl in *.
    destruct b2 as [|[z f] b2']; naive_solver.
Qed.

(** No node of the rest of the list lies inside the block being split. *)
Lemma nodes_outside x : x ∈ f1 \/ x ∈ f2 -> x < a \/ a + sz <= x.
Proof.
  intros Hx. assert (Hx' : x ∈ f1 ++ f2) by (by apply elem_of_app).
  rewrite Hperm in Hx'. pose proof (hk_tiled _ _ _ Hok) as Ht.
  apply tiled_app in Ht as [Ht1 Ht2]. simpl in Ht2.
  fold a in Ht1, Ht2. destruct Ht2 as (_ & _ & _ & _ & Ht2).
  apply elem_of_app in Hx' as [Hx'|Hx'].
  - apply (frees_range _ _ _ _ _ _ Ht1) in Hx'. lia.
  - apply (frees_range _ _ _ _ _ _ Ht2) in Hx'. lia.
Qed.

(** Every memory cell after the split branch. *)
Lemma alloc_split_effect T m k :
  link s0 a = Some (m, k) -> 0 < T < sz ->
  (k <> 0 -> is_Some (link s0 k) /\ k <> m /\ (k < a \/ a + sz <= k)) ->
  (m <> 0 -> is_Some (link s0 m) /\ (m < a \/ a + sz <= m)) ->
  let b := a + T in
  exists s1, alloc_split s0 a T = Ok s1 /\
    (forall x, meta s1 x = if decide (x = a) then Some (T, false)
               else if decide (x = b) then Some (sz - T, true) else meta s0 x) /\
    (forall x, ftr s1 !! x = if decide (x = a + T - sizeof_footer) then Some {| fsize := T; ffree := false |}
               else if decide (x = a + sz - sizeof_footer) then Some {| fsize := sz - T; ffree := true |}
               else ftr s0 !! x) /\
    (forall x, x <> a -> x <> b -> x <> k -> x <> m -> link s1 x = link s0 x) /\
    link s1 b = Some (m, k) /\
    (k <> 0 -> forall nx pv, link s0 k = Some (nx, pv) -> link s1 k = Some (b, pv)) /\
    (m <> 0 -> forall nx pv, link s0 m = Some (nx, pv) -> link s1 m = Some (nx, b)) /\
    free_list s1 = (if decide (k = 0) then b else free_list s0) /\
    ubytes s1 = ubytes s0 /\ geom s1 = geom s0 /\ stats s1 = stats s0.
Proof.
  intros HL HT Hk Hm b.
  assert (Ha0 : 0 < a) by (pose proof (hk_start _ _ _ Hok); lia).
  assert (Hdist : a <> b /\ m <> b /\ k <> b /\ a <> m /\ a <> k /\ (m <> k \/ k = 0)).
  { unfold b. clear -HT Hk Hm Ha0. splits; try lia.
    all: destruct (decide (m = 0)), (decide (k = 0)); try lia; destruct Hm, Hk; try done; lia. }
  destruct Hdist as (Hab & Hmb & Hkb & Ham & Hak & Hmk).
  assert (Hm0 : meta s0 a = Some (sz, false)) by by rewrite H0meta, decide_True.
  pose proof (meta_link_hdr _ _ _ _ _ _ Hm0 HL) as Hhdr.
  unfold alloc_split, load_hdr at 1. rewrite Hhdr. simpl. fold b.
  destruct (set_block_spec s0 b (sz - T) true) as (M1 & F1 & L1 & [[nb pb] Lb1] & P1 & B1 & G1 & S1).
  set (s1 := set_block s0 b (sz - T) true) in *. clearbody s1.
  destruct (store_next_spec s1 b m _ _ Lb1) as (s2 & -> & Sb2 & P2 & L2). simpl.
  assert (Lb2 : link s2 b = Some (m, pb)) by by rewrite L2, decide_True.
  destruct (store_prev_spec s2 b k _ _ Lb2) as (s3 & -> & Sb3 & P3 & L3). simpl.
  assert (L3' : forall x, x <> b -> link s3 x = link s0 x).
  { intros x Hx. rewrite L3, decide_False, L2, decide_False, L1 by auto. done. }
  destruct (cond_set_prev s3 m b) as (s4 & -> & Sb4 & P4 & L4 & L4').
  { intros Hx. rewrite L3' by auto. by apply Hm. }
  simpl. destruct (cond_set_next s4 k b) as (s5 & -> & Sb5 & P5 & L5 & L5').
  { intros Hx. rewrite L4', L3' by (auto; left; by apply Hk). by apply Hk. }
  simpl.
  assert (La5 : link s5 a = Some (m, k)) by (rewrite L5', L4', L3' by auto; done).
  destruct (set_block_spec s5 a T false) as (M6 & F6 & L6 & _ & P6 & B6 & G6 & S6).
  set (s6 := set_block s5 a T false) in *. clearbody s6.
  assert (L6' : forall x, link s6 x = link s5 x) by (intros x; apply L6; rewrite La5; eauto).
  assert (La6 : link s6 a = Some (m, k)) by by rewrite L6'.
  destruct (store_next_spec s6 a 0 _ _ La6) as (s7 & -> & Sb7 & P7 & L7). simpl.
  assert (La7 : link s7 a = Some (0, k)) by by rewrite L7, decide_True.
  destruct (store_prev_spec s7 a 0 _ _ La7) as (s8 & -> & Sb8 & P8 & L8).
  assert (L8' : forall x, x <> a -> link s8 x = link s5 x).
  { intros x Hx. rewrite L8, decide_False, L7, decide_False, L6' by done. done. }
  exists s8. split; [done|].
  destruct (transitivity (transitivity Sb2 Sb3) (transitivity Sb4 Sb5)) as [Ma Fa Ba Ga Sa].
  destruct (transitivity Sb7 Sb8) as [Mb Fb Bb Gb Sb].
  splits; [..|congruence|congruence|congruence].
  - intros x. rewrite Mb, M6. dec_goal; [done|]. by rewrite Ma, M1.
  - intros x. replace (a + sz) with (b + (sz - T)) by (unfold b; lia).
    rewrite Fb, F6. fold b. dec_goal; [done|]. by rewrite Fa, F1.
  - intros x ? ? ? ?. rewrite L8', L5', L4', L3' by auto. done.
  - rewrite L8', L5', L4', L3, decide_True by auto. done.
  - intros Hk0 nx pv Hx. rewrite L8' by auto. eapply L5; [done|].
    rewrite L4', L3' by (auto; left; by apply Hk). exact Hx.
  - intros Hm00 nx pv Hx. rewrite L8', L5' by auto. eapply L4; [done|]. rewrite L3' by auto. exact Hx.
  - by rewrite P8, P7, P6, P5, P4, P3, P2, P1.
Qed.

Lemma alloc_split_spec T :
  48 <= T -> T mod 16 = 0 -> T + 80 < sz ->
  exists s1, alloc_split s0 a T = Ok s1 /\
    heap_ok s1 (b1 ++ (T, false) :: (sz - T, true) :: b2) (f1 ++ (a + T) :: f2) /\
    meta s1 a = Some (T, false) /\ ubytes s1 = ubytes s0 /\ geom s1 = geom s /\ stats s1 = stats s0.
Proof.
  intros HT HT16 Hbig. destruct take_seg as [q Hq].
  destruct (seg_neighbours _ _ _ _ _ _ Hq Hnd) as (k & m & HL & Ha0 & Hkm & Hki & Hmi).
  destruct (alloc_split_effect T m k HL) as (s1 & E & M8 & F8 & L8 & Lb & Lk & Lm & P8 & B8 & G8 & S8).
  { lia. }
  { intros Hx. destruct (Hki Hx). splits; auto. apply nodes_outside. by left. }
  { intros Hx. destruct (Hmi Hx). splits; auto. apply nodes_outside. by right. }
  exists s1. split; [done|].
  assert (Hg : geom s1 = geom s) by congruence.
  split; [|splits; [by rewrite M8, decide_True|done|done|done]].
  pose proof Hok as []. unfold geom in Hg. injection Hg as E1 E2 E3 E4.
  constructor; rewrite ?E1, ?E2, ?E3, ?E4; auto.
  - change ((T, false) :: (sz - T, true) :: b2) with ([(T, false); (sz - T, true)] ++ b2).
    eapply tiled_replace; [exact hk_tiled0| | |]; fold a; clear -M8 F8 H0meta H0ftr HT HT16 Hbig Hrange.
    + intros x Hx. rewrite M8, !decide_False, H0meta, decide_False by lia. done.
    + intros x Hx. unfold sizeof_footer in *. rewrite F8, !decide_False by lia. by rewrite H0ftr.
    + simpl. unfold sizeof_footer in *.
      replace (a + T + (sz - T)) with (a + sz) by lia.
      rewrite M8, decide_True, F8, decide_True by done.
      rewrite M8, decide_False, decide_True by lia.
      rewrite F8, decide_False, decide_True by lia.
      destruct Hrange as (_ & Hsz16 & _). splits; auto; try lia. rewrite Zminus_mod, Hsz16, HT16. done.
  - rewrite <- Permutation_middle, Hperm, frees_middle. fold a. simpl.
    replace (a + T + (sz - T)) with (a + sz) by lia. by rewrite <- Permutation_middle.
  - rewrite P8. eapply (seg_replace (link s0) (link s1) (free_list s0) f1 f2 a q k m); auto.
    + intros x Hx Hxk Hxm. pose proof (nodes_outside x Hx). apply L8; auto; lia.
    + pose proof Hrange. lia.
  - change ((T, false) :: (sz - T, true) :: b2) with ([(T, false); (sz - T, true)] ++ b2).
    apply take_coalesced; [done|].
    apply coalesced_app in hk_coal0 as (_ & Hc2 & _). simpl in *.
    destruct b2 as [|[z f] b2']; naive_solver.
Qed.
End take.

(** A block is determined by its address. *)
Lemma tiled_split_unique M F a b1 x b2 e b1' x' b2' :
  tiled M F a (b1 ++ x :: b2) e -> b1 ++ x :: b2 = b1' ++ x' :: b2' ->
  extent b1 = extent b1' -> b1 = b1' /\ x = x' /\ b2 = b2'.
Proof.
  revert a b1'. induction b1 as [|[z f] b1 IH]; intros a [|[z' f'] b1']; simpl.
  - intros _ [= -> ->]. auto.
  - destruct x as [zx fx]. intros (? & _ & _ & _ & Ht) [= <- <- ->] Ee.
    apply tiled_app in Ht as [Ht _]. apply tiled_extent in Ht. lia.
  - intros (? & _ & _ & _ & Ht) [= <- <-] Ee. apply tiled_app in Ht as [Ht _].
    apply tiled_extent in Ht. lia.
  - intros (_ & _ & _ & _ & Ht) [= -> -> E] Ee.
    destruct (IH _ b1' Ht E ltac:(lia)) as (-> & -> & ->). done.
Qed.

Lemma block_total_size_spec size :
  0 < size -> size + 63 < 2 ^ 64 ->
  let T := block_total_size size in size + 48 <= T <= size + 63 /\ T mod 16 = 0.
Proof.
  intros H1 H2. unfold block_total_size, sizeof_header, sizeof_footer, u64.
  rewrite Z.mod_small by lia. change 15 with (Z.ones 4).
  rewrite <- Z.ldiff_land, Z.ldiff_ones_r, Z.shiftl_mul_pow2, Z.shiftr_div_pow2 by lia.
  change (2 ^ 4) with 16. change (Z.ones 4) with 15.
  pose proof (Z.div_mod (size + 32 + 16 + 15) 16). pose proof (Z.mod_pos_bound (size + 32 + 16 + 15) 16).
  split; [lia|]. by rewrite Z.mod_mul.
Qed.

Lemma zero_bytes_lookup m p n x :
  zero_bytes m p n !! x = if decide (p <= x < p + Z.of_nat n) then Some 0 else m !! x.
Proof.
  induction n as [|n IH]; simpl.
  - by rewrite decide_False by lia.
  - rewrite lookup_insert. destruct (decide (p + Z.of_nat n = x)) as [<-|].
    + by rewrite decide_True by lia.
    + rewrite IH. repeat case_decide; auto; lia.
Qed.

(** The blocks [alloc] leaves in place of a free block of size [sz]. *)
Definition carve (T sz : Z) : blocks :=
  if decide (T + sizeof_header + sizeof_footer + 32 < sz) then [(T, false); (sz - T, true)] else [(sz, false)].

Lemma heap_ok_stats s bl fl al fr fw bw : heap_ok s bl fl -> heap_ok (with_stats al fr fw bw s) bl fl.
Proof. intros []. by constructor. Qed.

Lemma heap_ok_bytes s bl fl b : heap_ok s bl fl -> heap_ok (with_bytes b s) bl fl.
Proof. intros []. by constructor. Qed.

Lemma alloc_take_spec s bl fl a b1 sz b2 size :
  heap_ok s bl fl -> a ∈ fl -> bl = b1 ++ (sz, true) :: b2 -> a = heap_start s + extent b1 ->
  meta s a = Some (sz, true) ->
  0 < size -> size + 63 < 2 ^ 64 -> block_total_size size <= sz ->
  let T := block_total_size size in let p := a + sizeof_header in
  exists s' fl', alloc_take s a T size = Ok (s', p) /\ heap_ok s' (b1 ++ carve T sz ++ b2) fl' /\
    geom s' = geom s /\
    (forall x, ubytes s' !! x = if decide (p <= x < p + size) then Some 0 else ubytes s !! x) /\
    exists n, (n, false) ∈ carve T sz /\ total_allocated s' = u64 (total_allocated s + n) /\
      total_freed s' = total_freed s.
Proof.
  intros Hok Hin -> -> HM Hs1 Hs2 Hfit T p.
  destruct (block_total_size_spec size Hs1 Hs2) as [HT HT16]. fold T in HT, HT16, Hfit.
  destruct (heap_ok_locate _ _ _ _ Hok Hin) as (b1' & sz' & b2' & f1 & f2 & Ebl & Ea & -> & Hnd & Hmeta & Hr & Hr2 & Hr3 & Hr4 & Hperm).
  assert (Hb : b1' = b1 /\ sz' = sz /\ b2' = b2).
  { destruct (tiled_split_unique _ _ _ _ _ _ _ _ _ _ (hk_tiled _ _ _ Hok) Ebl ltac:(lia)) as (-> & E & ->).
    by injection E as ->. }
  destruct Hb as (-> & -> & ->).
  set (a := heap_start s + extent b1) in *. unfold alloc_take.
  destruct (store_is_free_spec s a false sz true HM) as (s0 & -> & H0m & H0l & H0f & H0b & H0fl & H0g & H0st). simpl.
  assert (Hm0 : meta s0 a = Some (sz, false)) by by rewrite H0m, decide_True.
  destruct (meta_load _ _ _ _ Hm0) as (h & -> & Eh & _ & _). simpl. rewrite Eh.
  assert (Hbr : exists s1 fl' n, (if decide (T + sizeof_header + sizeof_footer + 32 < sz)
                  then alloc_split s0 a T else alloc_whole s0 a) = Ok s1 /\
     heap_ok s1 (b1 ++ carve T sz ++ b2) fl' /\ meta s1 a = Some (n, false) /\ (n, false) ∈ carve T sz /\
     T <= n /\ ubytes s1 = ubytes s0 /\ geom s1 = geom s /\ stats s1 = stats s0).
  { unfold carve, sizeof_header, sizeof_footer.
    destruct (decide (T + 32 + 16 + 32 < sz)) as [Hd|Hd].
    - destruct (alloc_split_spec s s0 b1 b2 sz f1 f2 Hok Hnd Hperm ltac:(done) H0m H0l H0f H0fl H0g T)
        as (s1 & Es1 & Hok1 & Hm1 & Hb1 & Hg1 & Hst1); [lia|done|lia|].
      fold a in Es1, Hok1, Hm1.
      exists s1, (f1 ++ (a + T) :: f2), T. splits; auto; try lia. by left.
    - destruct (alloc_whole_spec s s0 b1 b2 sz f1 f2)
        as (s1 & Es1 & Hok1 & Hm1 & Hb1 & Hg1 & Hst1); [by auto..|]. fold a in Es1, Hok1, Hm1.
      exists s1, (f1 ++ f2), sz. splits; auto. by left. }
  destruct Hbr as (s1 & fl' & n & -> & Hok1 & Hm1 & Hn & HTn & Hb1 & Hg1 & Hst1). simpl.
  destruct (meta_load _ _ _ _ Hm1) as (h' & -> & Eh' & _ & _). simpl. rewrite Eh'.
  unfold sizeof_header, sizeof_footer in *. rewrite decide_False by lia.
  do 2 eexists. split; [reflexivity|]. split; [by apply heap_ok_bytes, heap_ok_stats|].
  split; [done|]. split.
  - intros x. simpl. rewrite zero_bytes_lookup, Z2Nat.id, Hb1, H0b by lia. done.
  - exists n. unfold stats in *. simpl. split; [done|]. split; congruence.
Qed.

(** ** The first-fit walk *)

Definition msize (s : heap_state) (a : Z) : Z := match meta s a with Some (z, _) => z | None => 0 end.

(** First block, in free-list order, of at least [T] bytes. *)
Fixpoint first_fit (s : heap_state) (fl : list Z) (T : Z) : option Z :=
  match fl with
  | [] => None
  | a :: fl' => if decide (T <= msize s a) then Some a else first_fit s fl' T
  end.

Lemma first_fit_Some s fl T a : first_fit s fl T = Some a -> a ∈ fl /\ T <= msize s a.
Proof.
  induction fl as [|b fl IH]; simpl; [done|]. case_decide.
  - intros [= ->]. split; [by left|done].
  - intros H'. apply IH in H' as [? ?]. split; [by right|done].
Qed.

Lemma first_fit_None s fl T : first_fit s fl T = None -> forall a, a ∈ fl -> msize s a < T.
Proof.
  induction fl as [|b fl IH]; simpl; [by intros _ a ?%not_elem_of_nil|]. case_decide; [done|].
  intros Hn a Ha. apply elem_of_cons in Ha as [->|Ha]; [lia|]. by apply IH.
Qed.

Lemma alloc_walk_spec fuel s p cur fl q T size :
  seg (link s) p cur fl q 0 -> (forall x, x ∈ fl -> exists z, meta s x = Some (z, true)) ->
  (length fl < fuel)%nat ->
  alloc_walk fuel s cur T size =
  match first_fit s fl T with Some a => alloc_take s a T size | None => Ok (s, 0) end.
Proof.
  revert p cur fl. induction fuel as [|fuel IH]; intros p cur fl Hseg Hm Hlen; [lia|]. simpl.
  destruct fl as [|a fl]; simpl in *.
  - destruct Hseg as [-> _]. by rewrite decide_True.
  - destruct Hseg as (-> & Ha & nx & HL & Hseg). rewrite decide_False by done.
    destruct (Hm a ltac:(by left)) as [z Hz].
    pose proof (meta_link_hdr _ _ _ _ _ _ Hz HL) as Hh. unfold load_hdr. rewrite Hh. simpl.
    assert (Hs : msize s a = z) by (unfold msize; by rewrite Hz).
    destruct (decide (T <= msize s a)) as [Hd|Hd]; rewrite Hs in Hd.
    + by rewrite bool_decide_true.
    + rewrite bool_decide_false by done. eapply IH; [exact Hseg| |lia].
      intros x Hx. apply Hm. by right.
Qed.

Lemma heap_ok_free_meta s bl fl x : heap_ok s bl fl -> x ∈ fl -> exists z, meta s x = Some (z, true).
Proof.
  intros Hok Hx. destruct (heap_ok_locate _ _ _ _ Hok Hx) as (? & z & ? & ? & ? & _ & _ & _ & _ & Hm & _). eauto.
Qed.

Lemma heap_ok_fuel s bl fl : heap_ok s bl fl -> (length fl < walk_fuel s)%nat.
Proof.
  intros []. rewrite hk_perm0. unfold walk_fuel.
  pose proof (frees_length (heap_start s) bl). pose proof (tiled_length _ _ _ _ _ hk_tiled0).
  assert (Z.of_nat (length bl) <= heap_size s / 48) by (apply Z.div_le_lower_bound; lia). lia.
Qed.

(** [alloc] on a consistent heap. *)
Lemma alloc_cases c s bl fl size :
  heap_ok s bl fl -> 0 < size -> size + 63 < 2 ^ 64 ->
  let T := block_total_size size in
  (alloc c s size = Ok (s, 0) /\ forall z, (z, true) ∈ bl -> z < T) \/
  exists b1 sz b2 s' fl', let p := heap_start s + extent b1 + sizeof_header in
    alloc c s size = Ok (s', p) /\ bl = b1 ++ (sz, true) :: b2 /\ T <= sz /\
    first_fit s fl T = Some (heap_start s + extent b1) /\
    heap_ok s' (b1 ++ carve T sz ++ b2) fl' /\ geom s' = geom s /\
    (forall x, ubytes s' !! x = if decide (p <= x < p + size) then Some 0 else ubytes s !! x) /\
    exists n, (n, false) ∈ carve T sz /\ total_allocated s' = u64 (total_allocated s + n) /\
      total_freed s' = total_freed s.
Proof.
  intros Hok H1 H2 T. unfold alloc, alloc_init. rewrite (hk_init _ _ _ Hok).
  cbn [mbind outcome_bind]. rewrite decide_False by lia.
  destruct (hk_dll _ _ _ Hok) as [q Hq].
  rewrite (alloc_walk_spec _ s 0 (free_list s) fl q) by eauto using heap_ok_free_meta, heap_ok_fuel.
  fold T. destruct (first_fit s fl T) as [a|] eqn:Ef.
  - right. pose proof (first_fit_Some _ _ _ _ Ef) as [Hin Hfit].
    destruct (heap_ok_locate _ _ _ _ Hok Hin) as (b1 & sz & b2 & f1 & f2 & Ebl & Ea & _ & _ & Hm & _).
    unfold msize in Hfit. rewrite Hm in Hfit.
    destruct (alloc_take_spec s bl fl a b1 sz b2 size Hok Hin Ebl Ea Hm H1 H2 Hfit)
      as (s' & fl' & E & Hok' & Hg & Hb & Hn).
    exists b1, sz, b2, s', fl'. rewrite <- Ea. auto 10.
  - left. split; [done|]. intros z Hz. apply list_elem_of_split in Hz as (b1 & b2 & ->).
    pose proof (hk_tiled _ _ _ Hok) as Ht. apply tiled_app in Ht as [_ Ht]. simpl in Ht.
    destruct Ht as (_ & _ & Hm & _).
    assert (Hin : heap_start s + extent b1 ∈ fl).
    { rewrite (hk_perm _ _ _ Hok), frees_middle. simpl. set_solver. }
    pose proof (first_fit_None _ _ _ Ef _ Hin) as Hlt. unfold msize in Hlt. by rewrite Hm in Hlt.
Qed.

(** ** Freeing *)

(** The state between marking a block free and linking it: the block is free in
    the tiling but not yet on the list. *)
Record mid_ok (s : heap_state) (b1 : blocks) (sz : Z) (b2 : blocks) (fl : list Z) : Prop := {
  mk_init : initialized s = true;
  mk_start : 0 < heap_start s;
  mk_align : heap_start s mod 16 = 0;
  mk_end : heap_end s = heap_start s + heap_size s;
  mk_top : heap_end s < 2 ^ 63;
  mk_tiled : tiled (meta s) (ftr s) (heap_start s) (b1 ++ (sz, true) :: b2) (heap_end s);
  mk_perm : fl ≡ₚ frees (heap_start s) b1 ++ frees (heap_start s + extent b1 + sz) b2;
  mk_dll : exists q, seg (link s) 0 (free_list s) fl q 0;
  mk_coal1 : coalesced b1;
  mk_coal2 : coalesced b2
}.

(** Result of merging with a free right neighbour, then a free left one. *)
Definition merge_next (sz : Z) (b2 : blocks) : Z * blocks :=
  match b2 with (z, true) :: b2' => (sz + z, b2') | _ => (sz, b2) end.
Definition merge_prev (b1 : blocks) (sz : Z) : blocks * Z :=
  match reverse b1 with (z, true) :: r => (reverse r, z + sz) | _ => (b1, sz) end.

Section mid.
Context (s : heap_state) (b1 : blocks) (sz : Z) (b2 : blocks) (fl : list Z).
Hypothesis Hmid : mid_ok s b1 sz b2 fl.
Let a := heap_start s + extent b1.

Lemma mid_meta : meta s a = Some (sz, true) /\ 48 <= sz /\ sz mod 16 = 0 /\
  tiled (meta s) (ftr s) (heap_start s) b1 a /\ tiled (meta s) (ftr s) (a + sz) b2 (heap_end s).
Proof.
  destruct Hmid. apply tiled_app in mk_tiled0 as [H1 H2]. simpl in H2. fold a in H1, H2. naive_solver.
Qed.

Lemma mid_nodup : NoDup fl.
Proof.
  rewrite (mk_perm _ _ _ _ _ Hmid). pose proof (frees_nodup _ _ _ _ _ (mk_tiled _ _ _ _ _ Hmid)) as Hn.
  rewrite frees_middle in Hn. simpl in Hn. rewrite <- Permutation_middle in Hn.
  by apply NoDup_cons in Hn as [_ ?].
Qed.

Lemma mid_fresh : a ∉ fl.
Proof.
  rewrite (mk_perm _ _ _ _ _ Hmid). pose proof (frees_nodup _ _ _ _ _ (mk_tiled _ _ _ _ _ Hmid)) as Hn.
  rewrite frees_middle in Hn. simpl in Hn. rewrite <- Permutation_middle in Hn.
  by apply NoDup_cons in Hn as [? _].
Qed.
End mid.

Lemma tiled_replace_seg M M' F F' a0 b1 old b2 e mid :
  tiled M F a0 (b1 ++ old ++ b2) e ->
  let a := a0 + extent b1 in
  (forall x, x < a \/ a + extent old <= x -> M' x = M x) ->
  (forall x, x < a \/ a + extent old <= x -> F' !! x = F !! x) ->
  tiled M' F' a mid (a + extent old) -> tiled M' F' a0 (b1 ++ mid ++ b2) e.
Proof.
  intros Ht a HM HF Hmid. apply tiled_app in Ht as [H1 H2]. apply tiled_app in H2 as [Ho H2].
  pose proof (tiled_extent _ _ _ _ _ Hmid) as [Hx _]. pose proof (tiled_extent _ _ _ _ _ Ho).
  apply tiled_app. split; [|apply tiled_app; split].
  - eapply tiled_frame; [| |exact H1]; intros x Hr; [apply HM|apply HF]; unfold a; lia.
  - fold a. by rewrite <- Hx.
  - fold a. rewrite <- Hx. eapply tiled_frame; [| |exact H2]; intros x Hr; [apply HM|apply HF]; unfold a in *; lia.
Qed.

Lemma meta_is_link s a z : meta s a = Some z -> is_Some (link s a).
Proof. unfold meta, link. destruct (hdr s !! a); simpl; [eauto|done]. Qed.

Lemma mid_ok_stats s b1 sz b2 fl al fr fw bw : mid_ok s b1 sz b2 fl -> mid_ok (with_stats al fr fw bw s) b1 sz b2 fl.
Proof. intros []. by constructor. Qed.

(** Rewriting the boundary tags of two adjacent free blocks into one. *)
Lemma mid_merge s0 c1 w c2 fl0 s b1 x y b2 fl :
  mid_ok s0 c1 w c2 fl0 -> same_blocks s0 s ->
  c1 ++ (w, true) :: c2 = b1 ++ [(x, true); (y, true)] ++ b2 ->
  (exists q, seg (link s) 0 (free_list s) fl q 0) ->
  fl ≡ₚ frees (heap_start s) b1 ++ frees (heap_start s + extent b1 + (x + y)) b2 ->
  coalesced b1 -> coalesced b2 ->
  mid_ok (set_block s (heap_start s + extent b1) (x + y) true) b1 (x + y) b2 fl.
Proof.
  intros [] [] Eb [q Hq] Hp Hc1 Hc2. set (a := heap_start s + extent b1) in *.
  destruct (set_block_spec s a (x + y) true) as (M1 & F1 & L1 & _ & P1 & B1 & G1 & S1).
  set (s1 := set_block s a (x + y) true) in *. clearbody s1.
  assert (Hg : geom s1 = geom s0) by congruence. unfold geom in Hg, sb_geom0.
  injection Hg as E1 E2 E3 E4. injection sb_geom0 as E1' E2' E3' E4'.
  rewrite Eb in mk_tiled0. rewrite <- E1', <- E2' in mk_tiled0.
  pose proof mk_tiled0 as Ht. apply tiled_app in Ht as [_ Ht]. simpl in Ht. fold a in Ht.
  destruct Ht as (Hx & Hx16 & HMa & _ & Hy & Hy16 & _ & _ & _).
  assert (Hl : forall z, link s1 z = link s z).
  { intros z. apply L1. right. eapply (meta_is_link s a). rewrite sb_meta0. exact HMa. }
  constructor; rewrite ?E1, ?E2, ?E3, ?E4; auto; rewrite <- ?E1', <- ?E2'; auto.
  - change ((x + y, true) :: b2) with ([(x + y, true)] ++ b2).
    eapply tiled_replace_seg; [exact mk_tiled0|..]; fold a; simpl; unfold sizeof_footer in *.
    + intros z Hz. rewrite M1, decide_False, sb_meta0 by lia. done.
    + intros z Hz. rewrite F1, decide_False, sb_ftr0 by lia. done.
    + rewrite M1, decide_True, F1, decide_True by lia. splits; auto; try lia.
      rewrite Zplus_mod, Hx16, Hy16. done.
  - rewrite P1. exists q. eapply seg_frame; [|exact Hq]. auto.
Qed.

Lemma mid_head_meta s b1 sz z f b2 fl :
  mid_ok s b1 sz ((z, f) :: b2) fl ->
  let b := heap_start s + extent b1 + sz in
  meta s b = Some (z, f) /\ 0 < b /\ b < heap_end s.
Proof.
  intros Hm b. destruct (mid_meta _ _ _ _ _ Hm) as (_ & Hsz & _ & H1 & H2). simpl in H2.
  destruct H2 as (? & _ & ? & _ & Ht). apply tiled_extent in Ht. apply tiled_extent in H1.
  pose proof (mk_start _ _ _ _ _ Hm). unfold b. splits; [done|lia|lia].
Qed.

Lemma get_next_block_spec s b1 sz b2 fl :
  mid_ok s b1 sz b2 fl ->
  get_next_block s (heap_start s + extent b1) =
  Ok (match b2 with [] => 0 | _ => heap_start s + extent b1 + sz end).
Proof.
  intros Hm. destruct (mid_meta _ _ _ _ _ Hm) as (HM & _ & _ & _ & H2).
  unfold get_next_block. destruct (meta_load _ _ _ _ HM) as (h & -> & Eh & _ & _). simpl. rewrite Eh.
  destruct b2 as [|[z f] b2]; [simpl in H2; by rewrite decide_True by lia|].
  pose proof (mid_head_meta _ _ _ _ _ _ _ Hm) as (_ & _ & ?). by rewrite decide_False by lia.
Qed.

Lemma coalesce_forward_spec s b1 sz b2 fl :
  mid_ok s b1 sz b2 fl -> let '(sz', b2') := merge_next sz b2 in
  exists s' fl', coalesce_forward s (heap_start s + extent b1) = Ok s' /\
    mid_ok s' b1 sz' b2' fl' /\ ubytes s' = ubytes s /\ geom s' = geom s /\
    total_allocated s' = total_allocated s /\ total_freed s' = total_freed s.
Proof.
  intros Hm. unfold coalesce_forward. rewrite (get_next_block_spec _ _ _ _ _ Hm).
  destruct b2 as [|[z [|]] b2]; cbn [merge_next mbind outcome_bind].
  { exists s, fl. auto 10. }
  2: { destruct (mid_head_meta _ _ _ _ _ _ _ Hm) as (HM & Hpos & _).
       rewrite decide_False by lia. destruct (meta_load _ _ _ _ HM) as (h & -> & _ & Hf & _).
       cbn [mbind outcome_bind]. rewrite Hf. exists s, fl. auto 10. }
  destruct (mid_head_meta _ _ _ _ _ _ _ Hm) as (HM & Hpos & _). destruct (mid_meta _ _ _ _ _ Hm) as (HMa & _).
  rewrite decide_False by lia. destruct (meta_load _ _ _ _ HM) as (h & -> & _ & Hf & _).
  cbn [mbind outcome_bind]. rewrite Hf. simpl negb. cbn iota.
  set (b := heap_start s + extent b1 + sz) in *. pose proof Hm as [].
  simpl in mk_perm0. fold b in mk_perm0. rewrite <- Permutation_middle in mk_perm0.
  assert (Hin : b ∈ fl) by (rewrite mk_perm0; by left). pose proof (mid_nodup _ _ _ _ _ Hm) as Hnd.
  apply list_elem_of_split in Hin as (f1 & f2 & ->). destruct mk_dll0 as [q Hq].
  destruct (unlink_spec s f1 b f2 q Hq Hnd) as (s1 & -> & Hsb & Hseg). cbn [mbind outcome_bind].
  pose proof Hsb as []. rewrite <- sb_meta0 in HMa, HM.
  destruct (meta_load _ _ _ _ HMa) as (ha & -> & Ea & _). destruct (meta_load _ _ _ _ HM) as (hb & -> & Eb & _).
  cbn [mbind outcome_bind]. rewrite Ea, Eb. eexists _, (f1 ++ f2). split; [reflexivity|].
  unfold geom in sb_geom0. injection sb_geom0 as E1 E2 E3 E4.
  split; [|unfold geom, stats in *; simpl; splits; congruence].
  apply mid_ok_stats. rewrite <- E1. eapply (mid_merge s b1 sz ((z, true) :: b2)); eauto; rewrite ?E1.
  - rewrite <- Permutation_middle in mk_perm0. apply Permutation_cons_inv in mk_perm0.
    rewrite mk_perm0. unfold b. by rewrite Z.add_assoc.
  - simpl in mk_coal4. naive_solver.
Qed.

Lemma merge_prev_snoc b1 z f sz :
  merge_prev (b1 ++ [(z, f)]) sz = if f then (b1, z + sz) else (b1 ++ [(z, f)], sz).
Proof.
  unfold merge_prev. rewrite reverse_app. simpl. destruct f; [|done]. by rewrite reverse_involutive.
Qed.

Lemma get_prev_block_spec s b1 z f sz b2 fl :
  mid_ok s (b1 ++ [(z, f)]) sz b2 fl ->
  let p := heap_start s + extent b1 in
  get_prev_block false s (p + z) = Ok p /\ meta s p = Some (z, f) /\ 0 < p.
Proof.
  intros Hm p. pose proof (mk_start _ _ _ _ _ Hm). destruct (mid_meta _ _ _ _ _ Hm) as (_ & _ & _ & H1 & _).
  apply tiled_app in H1 as [H1 H2]. fold p in H1, H2. simpl in H2. destruct H2 as (? & _ & HM & HF & _).
  apply tiled_extent in H1. unfold get_prev_block, load_ftr.
  rewrite !decide_False by (unfold p, sizeof_footer; lia). rewrite HF. simpl.
  unfold get_header_from_footer, sizeof_footer. simpl. splits; [f_equal; lia|done|unfold p; lia].
Qed.

Lemma coalesce_backward_spec s b1 sz b2 fl :
  mid_ok s b1 sz b2 fl -> let '(b1', sz') := merge_prev b1 sz in
  exists s' fl', coalesce_backward false s (heap_start s + extent b1) = Ok (s', heap_start s' + extent b1') /\
    mid_ok s' b1' sz' b2 fl' /\ ubytes s' = ubytes s /\ geom s' = geom s /\
    total_allocated s' = total_allocated s /\ total_freed s' = total_freed s.
Proof.
  intros Hm. unfold coalesce_backward. destruct b1 as [|[z f] b1 _] using rev_ind.
  { simpl. unfold get_prev_block. rewrite decide_True by lia. simpl.
    exists s, fl. rewrite Z.add_0_r. auto 10. }
  rewrite merge_prev_snoc. destruct (get_prev_block_spec _ _ _ _ _ _ _ Hm) as (Hg & HM & Hpos).
  destruct (mid_meta _ _ _ _ _ Hm) as (HMa & _).
  rewrite extent_app in HMa |- *. simpl extent in HMa |- *. rewrite Z.add_0_r, Z.add_assoc in HMa |- *.
  rewrite Hg. cbn [mbind outcome_bind]. rewrite decide_False by lia.
  destruct (meta_load _ _ _ _ HM) as (h & -> & _ & Hf & _). cbn [mbind outcome_bind]. rewrite Hf.
  destruct f; simpl negb; cbn iota.
  2: { exists s, fl. rewrite extent_app. simpl. rewrite Z.add_0_r, Z.add_assoc. auto 10. }
  set (b := heap_start s + extent b1) in *. pose proof Hm as [].
  rewrite frees_app in mk_perm0. simpl in mk_perm0. fold b in mk_perm0.
  rewrite <- app_assoc in mk_perm0. simpl in mk_perm0. rewrite <- Permutation_middle in mk_perm0.
  assert (Hin : b ∈ fl) by (rewrite mk_perm0; by left). pose proof (mid_nodup _ _ _ _ _ Hm) as Hnd.
  apply list_elem_of_split in Hin as (f1 & f2 & ->). destruct mk_dll0 as [q Hq].
  destruct (unlink_spec s f1 b f2 q Hq Hnd) as (s1 & -> & Hsb & Hseg). cbn [mbind outcome_bind].
  pose proof Hsb as []. rewrite <- sb_meta0 in HMa, HM.
  destruct (meta_load _ _ _ _ HM) as (hb & -> & Eb & _). destruct (meta_load _ _ _ _ HMa) as (ha & -> & Ea & _).
  cbn [mbind outcome_bind]. rewrite Ea, Eb.
  unfold geom in sb_geom0. injection sb_geom0 as E1 E2 E3 E4.
  replace b with (heap_start s1 + extent b1) by (unfold b; by rewrite E1).
  set (s2 := set_block s1 (heap_start s1 + extent b1) (z + sz) true).
  exists (with_stats (total_allocated s2) (total_freed s2) (coalesce_forward_count s2)
            (u64 (coalesce_backward_count s2 + 1)) s2), (f1 ++ f2). split; [reflexivity|].
  split; [|unfold geom, stats in *; simpl; splits; congruence].
  apply mid_ok_stats. apply (mid_merge s (b1 ++ [(z, true)]) sz b2 (f1 ++ b :: f2)); auto; rewrite ?E1.
  - by rewrite <- app_assoc.
  - rewrite <- Permutation_middle in mk_perm0. apply Permutation_cons_inv in mk_perm0.
    rewrite mk_perm0, extent_app. simpl.
    by replace (heap_start s + (extent b1 + (z + 0)) + sz) with (heap_start s + extent b1 + (z + sz)) by lia.
  - apply coalesced_app in mk_coal3 as (? & _). done.
Qed.

Lemma insert_free_spec s b1 sz b2 fl :
  mid_ok s b1 sz b2 fl ->
  match last b1 with Some (_, f) => f = false | None => True end ->
  match head b2 with Some (_, f) => f = false | None => True end ->
  exists s', insert_free s (heap_start s + extent b1) = Ok s' /\
    heap_ok s' (b1 ++ (sz, true) :: b2) ((heap_start s + extent b1) :: fl) /\ same_blocks s s'.
Proof.
  intros Hm Hl Hh. destruct (mid_meta _ _ _ _ _ Hm) as (HM & _ & _ & H1 & _).
  pose proof (mid_nodup _ _ _ _ _ Hm) as Hnd. pose proof (mid_fresh _ _ _ _ _ Hm) as Hnin.
  apply tiled_extent in H1. set (a := heap_start s + extent b1) in *. pose proof Hm as [].
  destruct mk_dll0 as [q Hq]. destruct (meta_is_link _ _ _ HM) as [[nx pv] Hlk].
  unfold insert_free. destruct (store_next_spec s a (free_list s) _ _ Hlk) as (s1 & -> & Sb1 & P1 & L1).
  cbn [mbind outcome_bind].
  assert (La1 : link s1 a = Some (free_list s, pv)) by by rewrite L1, decide_True.
  destruct (store_prev_spec s1 a 0 _ _ La1) as (s2 & -> & Sb2 & P2 & L2). cbn [mbind outcome_bind].
  assert (Hc : free_list s <> 0 -> free_list s ∈ fl).
  { intros Hx. destruct fl as [|y fl]; [by destruct Hq|]. apply seg_head in Hq as [? _]; done. }
  assert (Hca : free_list s <> 0 -> free_list s <> a) by (intros Hx Ex; apply Hnin; rewrite <- Ex; auto).
  assert (L2' : forall x, x <> a -> link s2 x = link s x).
  { intros x Hx. rewrite L2, decide_False, L1, decide_False by done. done. }
  rewrite P2, P1. destruct (cond_set_prev s2 (free_list s) a) as (s3 & -> & Sb3 & P3 & L3 & L3').
  { intros Hx. rewrite L2' by auto. eapply seg_link; [exact Hq|auto]. }
  cbn [mbind outcome_bind]. eexists. split; [reflexivity|].
  pose proof (transitivity (transitivity Sb1 Sb2) Sb3) as Sb. pose proof Sb as [].
  split; [|constructor; auto]. unfold geom in sb_geom0. injection sb_geom0 as E1 E2 E3 E4.
  constructor; simpl; rewrite ?E1, ?E2, ?E3, ?E4; auto.
  - eapply tiled_frame; [| |exact mk_tiled0]; intros; [apply sb_meta0|by rewrite sb_ftr0].
  - rewrite frees_middle. fold a. simpl. rewrite <- Permutation_middle. by rewrite mk_perm0.
  - eapply (seg_push (link s)); [exact Hq|done|lia|..].
    + change (link (with_free_list a s3) a) with (link s3 a). rewrite L3'; [by rewrite L2, decide_True|].
      destruct (decide (free_list s = 0)); [by right|]. left. intros Ex. by apply Hca.
    + intros x Hx Hxc. change (link s3 x = link s x). rewrite L3', L2' by (auto; congruence). done.
    + intros Hc0 nx' pv' Hx. eapply (L3 Hc0). rewrite L2' by auto. exact Hx.
  - apply coalesced_app. split; [done|]. split; [|destruct (last b1) as [[? ?]|]; [by subst|done]].
    simpl. destruct b2 as [|[z f] b2]; [done|]. simpl in Hh. by subst.
Qed.

(** ** The allocated blocks, as payload pointer and payload capacity *)

Fixpoint lives (a : Z) (bl : blocks) : list (Z * Z) :=
  match bl with
  | [] => []
  | (sz, fr) :: bl' => (if fr then [] else [(a + sizeof_header, sz - sizeof_header - sizeof_footer)]) ++ lives (a + sz) bl'
  end.

Lemma lives_app a b1 b2 : lives a (b1 ++ b2) = lives a b1 ++ lives (a + extent b1) b2.
Proof.
  revert a; induction b1 as [|[sz fr] b1 IH]; intros a; simpl; [by rewrite Z.add_0_r|].
  rewrite IH, app_assoc. do 2 f_equal. lia.
Qed.

Lemma lives_split M F a bl e p c :
  tiled M F a bl e -> (p, c) ∈ lives a bl ->
  exists b1 b2, bl = b1 ++ (c + 48, false) :: b2 /\ p = a + extent b1 + sizeof_header /\ M (p - 32) = Some (c + 48, false) /\
    0 <= c /\ a + 32 <= p /\ p + c + 16 <= e /\ (p - a) mod 16 = 0.
Proof.
  revert a; induction bl as [|[sz fr] bl IH]; intros a; simpl; [by intros _ ?%not_elem_of_nil|].
  unfold sizeof_header, sizeof_footer in *.
  intros (Hs & Hs16 & HM & _ & H) Hx. apply elem_of_app in Hx as [Hx|Hx].
  - destruct fr; [by apply not_elem_of_nil in Hx|]. apply list_elem_of_singleton in Hx. injection Hx as -> ->.
    pose proof (tiled_extent _ _ _ _ _ H). exists [], bl. replace (sz - 32 - 16 + 48) with sz by lia.
    replace (a + 32 - 32) with a by lia. simpl. splits; auto; try lia. replace (a + 32 - a) with 32 by lia. done.
  - destruct (IH _ H Hx) as (b1 & b2 & -> & -> & HM' & ? & ? & ? & Hm).
    exists ((sz, fr) :: b1), b2. simpl. splits; auto; try lia.
    replace (a + sz + extent b1 + 32 - a) with (sz + (a + sz + extent b1 + 32 - (a + sz))) by lia.
    rewrite Zplus_mod, Hs16, Hm. done.
Qed.

(** Distinct live payloads, with their headers and footers, do not overlap. *)
Lemma lives_disjoint M F a bl e p c p' c' :
  tiled M F a bl e -> (p, c) ∈ lives a bl -> (p', c') ∈ lives a bl ->
  (p = p' /\ c = c') \/ p + c + 48 <= p' \/ p' + c' + 48 <= p.
Proof.
  revert a; induction bl as [|[sz fr] bl IH]; intros a; simpl; [by intros _ ?%not_elem_of_nil|].
  unfold sizeof_header, sizeof_footer in *.
  intros (Hs & _ & _ & _ & H) Hx Hy. apply elem_of_app in Hx as [Hx|Hx], Hy as [Hy|Hy].
  - destruct fr; [by apply not_elem_of_nil in Hx|]. apply list_elem_of_singleton in Hx, Hy. simplify_eq. lia.
  - destruct fr; [by apply not_elem_of_nil in Hx|]. apply list_elem_of_singleton in Hx. simplify_eq.
    destruct (lives_split _ _ _ _ _ _ _ H Hy) as (? & ? & _ & _ & _ & ? & ? & _). lia.
  - destruct fr; [by apply not_elem_of_nil in Hy|]. apply list_elem_of_singleton in Hy. simplify_eq.
    destruct (lives_split _ _ _ _ _ _ _ H Hx) as (? & ? & _ & _ & _ & ? & ? & _). lia.
  - by eapply IH.
Qed.

Lemma lives_nodup M F a bl e : tiled M F a bl e -> NoDup (lives a bl).*1.
Proof.
  revert a; induction bl as [|[sz fr] bl IH]; intros a; simpl; [intros _; constructor|].
  intros (? & _ & _ & _ & H). destruct fr; simpl; [by eapply IH|].
  apply NoDup_cons. split; [|by eapply IH].
  intros Hx. apply list_elem_of_fmap in Hx as ([p c] & Hp & Hx). simpl in Hp. subst.
  destruct (lives_split _ _ _ _ _ _ _ H Hx) as (? & ? & _ & _ & _ & ? & ? & _).
  unfold sizeof_header in *. lia.
Qed.

Lemma live_bytes_nonneg M F a bl e : tiled M F a bl e -> 0 <= live_bytes bl <= e - a.
Proof.
  revert a; induction bl as [|[sz fr] bl IH]; intros a; simpl; [lia|].
  intros (? & _ & _ & _ & H). apply IH in H. destruct fr; lia.
Qed.

(** ** [alloc_free] on a live block *)

Definition free_result (b1 : blocks) (sz : Z) (b2 : blocks) : blocks :=
  let '(sz1, b2') := merge_next sz b2 in
  let '(b1', sz2) := merge_prev b1 sz1 in
  b1' ++ (sz2, true) :: b2'.

Lemma merge_next_props a sz b2 sz' b2' :
  merge_next sz b2 = (sz', b2') -> coalesced b2 ->
  lives (a + sz') b2' = lives (a + sz) b2 /\ live_bytes b2' = live_bytes b2 /\ coalesced b2' /\
  match head b2' with Some (_, f) => f = false | None => True end.
Proof.
  destruct b2 as [|[z [|]] b2]; simpl; intros [= <- <-]; simpl; auto.
  intros [Hh Hc]. rewrite Z.add_assoc. splits; auto. destruct b2 as [|[? ?] ?]; auto.
Qed.

Lemma merge_prev_props a b1 sz b1' sz' :
  merge_prev b1 sz = (b1', sz') -> coalesced b1 ->
  lives a b1' = lives a b1 /\ live_bytes b1' = live_bytes b1 /\ extent b1' + sz' = extent b1 + sz /\
  match last b1' with Some (_, f) => f = false | None => True end.
Proof.
  destruct b1 as [|[z f] b1 _] using rev_ind; [by intros [= <- <-]|].
  rewrite merge_prev_snoc, lives_app, live_bytes_app, extent_app. destruct f; intros [= <- <-] Hc; simpl.
  - rewrite app_nil_r. splits; auto; try lia. apply coalesced_app in Hc as (_ & _ & Hl). simpl in Hl.
    destruct (last b1) as [[? ?]|]; [|done]. by rewrite andb_true_r in Hl.
  - rewrite lives_app, live_bytes_app, extent_app, last_snoc. auto.
Qed.

Lemma free_result_lives a b1 sz b2 :
  coalesced b1 -> coalesced b2 ->
  let bl := b1 ++ (sz, false) :: b2 in let bl' := free_result b1 sz b2 in
  lives a bl ≡ₚ (a + extent b1 + sizeof_header, sz - 48) :: lives a bl' /\
  live_bytes bl = live_bytes bl' + sz.
Proof.
  intros H1 H2 bl bl'. subst bl bl'. unfold free_result.
  destruct (merge_next sz b2) as [sz1 b2'] eqn:E1. destruct (merge_prev b1 sz1) as [b1' sz2] eqn:E2.
  destruct (merge_next_props (a + extent b1) _ _ _ _ E1 H2) as (L1 & B1 & _ & _).
  destruct (merge_prev_props a _ _ _ _ E2 H1) as (L2 & B2 & X2 & _).
  rewrite !lives_app, !live_bytes_app. simpl. rewrite L2, B1, B2.
  replace (a + extent b1' + sz2) with (a + extent b1 + sz1) by lia. rewrite L1.
  unfold sizeof_header, sizeof_footer. replace (sz - 32 - 16) with (sz - 48) by lia.
  split; [by rewrite <- Permutation_middle|lia].
Qed.

Lemma mark_free_mid s b1 sz b2 fl :
  heap_ok s (b1 ++ (sz, false) :: b2) fl ->
  let a := heap_start s + extent b1 in
  exists h s1 s2, load_hdr s a = Ok h /\ bsize h = sz /\ is_free h = false /\
    store_hdr s a (set_is_free true) = Ok s1 /\ store_ftr_free s1 (get_footer a h) true = Ok s2 /\
    mid_ok s2 b1 sz b2 fl /\ ubytes s2 = ubytes s /\ geom s2 = geom s /\ stats s2 = stats s.
Proof.
  intros [] a. pose proof hk_tiled0 as Ht. apply tiled_app in Ht as [_ Ht]. simpl in Ht. fold a in Ht.
  destruct Ht as (Hs & Hs16 & HM & HF & Ht). destruct (meta_load _ _ _ _ HM) as (h & Hh & Eh & Hf & _).
  destruct (store_is_free_spec s a true sz false HM) as (s1 & E1 & M1 & L1 & F1 & B1 & P1 & G1 & S1).
  destruct (store_ftr_free_spec s1 (a + sz - sizeof_footer) sz false true) as (s2 & E2 & H2 & F2 & B2 & P2 & G2 & S2).
  { by rewrite F1. }
  exists h, s1, s2. unfold get_footer. rewrite Eh. splits; auto; try congruence.
  assert (Hg : geom s2 = geom s) by congruence. unfold geom in Hg. injection Hg as X1 X2 X3 X4.
  assert (M2 : forall x, meta s2 x = meta s1 x) by (intros; unfold meta; by rewrite H2).
  apply coalesced_app in hk_coal0 as (Hc1 & Hc2 & _).
  constructor; rewrite ?X1, ?X2, ?X3, ?X4; auto.
  - change ((sz, true) :: b2) with ([(sz, true)] ++ b2).
    eapply tiled_replace; [exact hk_tiled0|..]; fold a; unfold sizeof_footer in *.
    + intros x Hx. rewrite M2, M1, decide_False by lia. done.
    + intros x Hx. rewrite F2, decide_False, F1 by lia. done.
    + simpl. unfold sizeof_footer. rewrite M2, M1, decide_True, F2, decide_True by done. auto.
  - rewrite hk_perm0, frees_middle. done.
  - rewrite P2, P1. destruct hk_dll0 as [q Hq]. exists q. eapply seg_frame; [|exact Hq].
    intros x _. rewrite <- L1. unfold link. by rewrite H2.
  - simpl in Hc2. naive_solver.
Qed.

Lemma alloc_free_spec s b1 sz b2 fl :
  heap_ok s (b1 ++ (sz, false) :: b2) fl ->
  exists s' fl', alloc_free false s (heap_start s + extent b1 + sizeof_header) = Ok s' /\
    heap_ok s' (free_result b1 sz b2) fl' /\ ubytes s' = ubytes s /\ geom s' = geom s /\
    total_allocated s' = total_allocated s /\ total_freed s' = u64 (total_freed s + sz).
Proof.
  intros Hok. pose proof (hk_tiled _ _ _ Hok) as Ht. apply tiled_app in Ht as [Ht1 Ht2]. simpl in Ht2.
  destruct Ht2 as (? & _ & _ & _ & Ht2). apply tiled_extent in Ht1. apply tiled_extent in Ht2.
  pose proof (hk_start _ _ _ Hok). set (a := heap_start s + extent b1) in *. unfold alloc_free.
  assert (Hsub : a + sizeof_header - sizeof_header = a) by lia. rewrite Hsub.
  rewrite decide_False by (unfold sizeof_header; lia). rewrite (hk_init _ _ _ Hok). cbn [negb].
  rewrite decide_False by lia.
  destruct (mark_free_mid _ _ _ _ _ Hok) as (h & s1 & s2 & Hh & Eh & Hf & E1 & E2 & Hm & B2 & G2 & S2).
  fold a in Hh, E1, E2. rewrite Hh. cbn [mbind outcome_bind]. rewrite Hf, E1. cbn [mbind outcome_bind].
  rewrite E2. cbn [mbind outcome_bind]. rewrite Eh.
  apply (mid_ok_stats _ _ _ _ _ (total_allocated s2) (u64 (total_freed s2 + sz))
           (coalesce_forward_count s2) (coalesce_backward_count s2)) in Hm.
  set (s3 := with_stats _ _ _ _ s2) in *.
  assert (Ha : a = heap_start s3 + extent b1) by (change (heap_start s3) with (heap_start s2); unfold geom in G2; unfold a; congruence).
  pose proof (coalesce_forward_spec _ _ _ _ _ Hm) as Hfw. unfold free_result.
  destruct (merge_next sz b2) as [sz1 b2'] eqn:Em1. destruct Hfw as (s4 & fl4 & E4 & Hm4 & B4 & G4 & A4 & T4).
  rewrite Ha, E4. cbn [mbind outcome_bind].
  pose proof (coalesce_backward_spec _ _ _ _ _ Hm4) as Hbw. 
  destruct (merge_prev b1 sz1) as [b1' sz2] eqn:Em2. destruct Hbw as (s5 & fl5 & E5 & Hm5 & B5 & G5 & A5 & T5).
  replace (heap_start s3) with (heap_start s4) by (unfold geom in G4; congruence). rewrite E5. cbn [mbind outcome_bind].
  destruct (merge_next_props 0 _ _ _ _ Em1 (mk_coal2 _ _ _ _ _ Hm)) as (_ & _ & _ & Hhd).
  destruct (merge_prev_props 0 _ _ _ _ Em2 (mk_coal1 _ _ _ _ _ Hm)) as (_ & _ & _ & Hla).
  destruct (insert_free_spec _ _ _ _ _ Hm5 Hla Hhd) as (s6 & E6 & Hok6 & [_ _ B6 G6 S6]).
  eexists s6, _. split; [exact E6|]. split; [exact Hok6|].
  change (geom s3) with (geom s2) in G4. change (ubytes s3) with (ubytes s2) in B4. unfold stats in S6, S2. simpl in A4, T4.
  splits; congruence.
Qed.

(** ** Boot *)

(** A window the allocator can manage: aligned, large enough for one block,
    below the canonical half. *)
Definition cfg_ok (c : heap_cfg) : Prop :=
  0 < SIMPLE_HEAP_START c /\ SIMPLE_HEAP_START c mod 16 = 0 /\ 48 <= SIMPLE_HEAP_SIZE c /\
  SIMPLE_HEAP_SIZE c mod 16 = 0 /\ SIMPLE_HEAP_END c < 2 ^ 63.

Lemma alloc_init_spec c s :
  cfg_ok c -> initialized s = false ->
  exists s', alloc_init c s = Ok s' /\ heap_ok s' [(SIMPLE_HEAP_SIZE c, true)] [SIMPLE_HEAP_START c] /\
    heap_start s' = SIMPLE_HEAP_START c /\ total_allocated s' = 0 /\ total_freed s' = 0 /\ ubytes s' = ubytes s.
Proof.
  intros (H1 & H2 & H3 & H4 & H5) Hi. unfold alloc_init. rewrite Hi.
  set (a := SIMPLE_HEAP_START c) in *. set (n := SIMPLE_HEAP_SIZE c) in *.
  unfold store_hdr, load_hdr, set_block. simpl. rewrite !lookup_insert_eq. simpl. rewrite !lookup_insert_eq. simpl.
  eexists. split; [reflexivity|]. unfold SIMPLE_HEAP_END in *. fold a n in H5 |- *.
  split; [|done]. constructor; simpl; auto.
  - unfold meta. simpl. rewrite !lookup_insert_eq. done.
  - exists a. splits; [done|lia|]. exists 0. unfold link. simpl. rewrite lookup_insert_eq. done.
Qed.

Lemma heap_ok_alloc_init c s bl fl : heap_ok s bl fl -> alloc_init c s = Ok s.
Proof. intros Hok. unfold alloc_init. by rewrite (hk_init _ _ _ Hok). Qed.

(** ** The client's view: a finite map of objects

    An object is the list of its bytes; [None] is a byte whose value is not
    promised (the grown tail after a reallocation). *)

Abbreviation objects := (gmap Z (list (option Z))).

Inductive heap_op :=
| HAlloc (size : Z)
| HFree (ptr : Z)
| HRealloc (ptr new_size : Z)
| HWrite (ptr : Z) (i : nat) (v : Z).

Definition heap_exec (c : heap_cfg) (s : heap_state) (op : heap_op) : outcome (heap_state * Z) :=
  match op with
  | HAlloc n => alloc c s n
  | HFree p => s ← alloc_free false s p; Ok (s, 0)
  | HRealloc p n => all_realloc false c s p n
  | HWrite p i v => Ok (with_bytes (<[p + Z.of_nat i := v]> (ubytes s)) s, 0)
  end.

(** What a well-behaved client may ask. *)
Definition op_valid (A : objects) (op : heap_op) : Prop :=
  match op with
  | HAlloc n => 0 <= n /\ n + 63 < 2 ^ 64
  | HFree p => p = 0 \/ is_Some (A !! p)
  | HRealloc p n => (p = 0 \/ is_Some (A !! p)) /\ 0 <= n /\ n + 63 < 2 ^ 64
  | HWrite p i _ => exists d, A !! p = Some d /\ (i < length d)%nat
  end.

#[export] Instance op_valid_dec A op : Decision (op_valid A op).
Proof.
  destruct op; simpl; try (apply _). destruct (A !! ptr) as [d|] eqn:E.
  - destruct (decide (i < length d)%nat); [left; eauto|right; intros (d' & [= <-] & ?); lia].
  - right. by intros (d' & ? & _).
Defined.

(** The objects after an operation that returned [r]. *)
Definition abs_next (A : objects) (op : heap_op) (r : Z) : objects :=
  match op with
  | HAlloc n => if decide (r = 0) then A else <[r := replicate (Z.to_nat n) (Some 0)]> A
  | HFree p => delete p A
  | HRealloc p n =>
      if decide (p = 0) then (if decide (r = 0) then A else <[r := replicate (Z.to_nat n) (Some 0)]> A)
      else if decide (n = 0) then delete p A
      else if decide (r = 0) then A
      else <[r := resize (Z.to_nat n) None (default [] (A !! p))]> (delete p A)
  | HWrite p i v => alter (fun d => <[i := Some v]> d) p A
  end.

(** A returned pointer is NULL or the aligned address of a new object. *)
Definition result_ok (A : objects) (op : heap_op) (r : Z) : Prop :=
  r = 0 \/ (r mod 16 = 0 /\ A !! r = None).

Record represents (s : heap_state) (A : objects) (bl : blocks) (fl : list Z) : Prop := {
  rp_ok : heap_ok s bl fl;
  rp_used : u64 (total_allocated s - total_freed s) = live_bytes bl;
  rp_dom : forall p, is_Some (A !! p) <-> p ∈ (lives (heap_start s) bl).*1;
  rp_data : forall p d, A !! p = Some d -> exists c, (p, c) ∈ lives (heap_start s) bl /\ Z.of_nat (length d) <= c;
  rp_bytes : forall p d i v, A !! p = Some d -> d !! i = Some (Some v) -> ubytes s !! (p + Z.of_nat i) = Some v
}.

Lemma carve_lives a T sz b2 n :
  (n, false) ∈ carve T sz ->
  lives a (carve T sz ++ b2) = (a + sizeof_header, n - 48) :: lives (a + sz) b2 /\
  live_bytes (carve T sz) = n /\ (T <= sz -> T <= n).
Proof.
  unfold carve. case_decide; intros Hn; simpl; unfold sizeof_header, sizeof_footer in *.
  - apply elem_of_cons in Hn as [[= ->]|Hn]; [|apply list_elem_of_singleton in Hn; done].
    replace (a + T + (sz - T)) with (a + sz) by lia. replace (T - 32 - 16) with (T - 48) by lia. auto with lia.
  - apply list_elem_of_singleton in Hn. injection Hn as ->. replace (sz - 32 - 16) with (sz - 48) by lia.
    simpl. auto with lia.
Qed.

Lemma u64_used_add al fr n : 0 <= n -> u64 (al - fr) + n < 2 ^ 64 ->
  u64 (u64 (al + n) - fr) = u64 (al - fr) + n.
Proof.
  unfold u64. intros. rewrite Zminus_mod_idemp_l. rewrite <- (Z.mod_small ((al - fr) mod 2 ^ 64 + n) (2 ^ 64)).
  - rewrite Zplus_mod_idemp_l. f_equal. lia.
  - pose proof (Z.mod_pos_bound (al - fr) (2 ^ 64)). lia.
Qed.

Lemma u64_used_sub al fr n m : 0 <= m < 2 ^ 64 -> u64 (al - fr) = m + n -> u64 (al - u64 (fr + n)) = m.
Proof.
  unfold u64. intros H1 H2. rewrite Zminus_mod_idemp_r. replace (al - (fr + n)) with (al - fr - n) by lia.
  rewrite <- Zminus_mod_idemp_l, H2. replace (m + n - n) with m by lia. by apply Z.mod_small.
Qed.

(** [alloc] in terms of the live blocks. *)
Lemma alloc_lives c s bl fl size :
  heap_ok s bl fl -> u64 (total_allocated s - total_freed s) = live_bytes bl ->
  0 < size -> size + 63 < 2 ^ 64 ->
  (alloc c s size = Ok (s, 0) /\ forall z, (z, true) ∈ bl -> z < block_total_size size) \/
  exists s' p cap bl' fl', alloc c s size = Ok (s', p) /\ heap_ok s' bl' fl' /\
    u64 (total_allocated s' - total_freed s') = live_bytes bl' /\ geom s' = geom s /\
    first_fit s fl (block_total_size size) = Some (p - sizeof_header) /\
    p <> 0 /\ p mod 16 = 0 /\ size <= cap /\
    lives (heap_start s') bl' ≡ₚ (p, cap) :: lives (heap_start s) bl /\
    (forall x, ubytes s' !! x = if decide (p <= x < p + size) then Some 0 else ubytes s !! x).
Proof.
  intros Hok Hu H1 H2. destruct (alloc_cases c s bl fl size Hok H1 H2) as [?|Hs]; [by left|right].
  destruct Hs as (b1 & sz & b2 & s' & fl' & E & -> & Hfit & Hff & Hok' & Hg & Hb & n & Hn & Ha & Hf).
  destruct (block_total_size_spec size H1 H2) as [HT _]. set (T := block_total_size size) in *.
  destruct (carve_lives (heap_start s + extent b1) T sz b2 n Hn) as (Hl & Hlb & HTn). specialize (HTn Hfit).
  set (p := heap_start s + extent b1 + sizeof_header) in *.
  assert (Hst : heap_start s' = heap_start s) by (unfold geom in Hg; congruence).
  pose proof (live_bytes_nonneg _ _ _ _ _ (hk_tiled _ _ _ Hok')) as Hbnd.
  assert (Hlives : lives (heap_start s') (b1 ++ carve T sz ++ b2) ≡ₚ (p, n - 48) :: lives (heap_start s) (b1 ++ (sz, true) :: b2)).
  { rewrite Hst, !(lives_app _ b1), Hl. simpl. by rewrite <- Permutation_middle. }
  assert (Hin : (p, n - 48) ∈ lives (heap_start s') (b1 ++ carve T sz ++ b2)) by (rewrite Hlives; by left).
  destruct (lives_split _ _ _ _ _ _ _ (hk_tiled _ _ _ Hok') Hin) as (? & ? & _ & _ & _ & _ & Hlo & _ & Hmod).
  pose proof (hk_start _ _ _ Hok'). pose proof (hk_top _ _ _ Hok'). pose proof (hk_align _ _ _ Hok') as Hal.
  exists s', p, (n - 48), (b1 ++ carve T sz ++ b2), fl'. splits; auto; try lia.
  - rewrite Ha, Hf. rewrite !(live_bytes_app b1), (live_bytes_app (carve T sz)) in Hbnd |- *.
    rewrite live_bytes_app in Hu. simpl in Hu. rewrite u64_used_add, Hu; [lia|lia|rewrite Hu].
    assert (2 ^ 63 < 2 ^ 64) by lia. lia.
  - rewrite Hff. f_equal. unfold p. lia.
  - replace p with (p - heap_start s' + heap_start s') by lia. rewrite Zplus_mod, Hmod, Hal. done.
Qed.

Lemma copy_bytes_lookup m dst src n x :
  dst + Z.of_nat n <= src \/ src + Z.of_nat n <= dst ->
  copy_bytes m dst src n !! x =
  if decide (dst <= x < dst + Z.of_nat n) then Some (default 0 (m !! (src + (x - dst)))) else m !! x.
Proof.
  revert x; induction n as [|n IH]; intros x Hd; simpl; [by rewrite decide_False by lia|].
  rewrite lookup_insert. destruct (decide (dst + Z.of_nat n = x)) as [<-|].
  - rewrite decide_True, IH, decide_False by lia. do 4 f_equal. lia.
  - rewrite IH by lia. repeat case_decide; auto; lia.
Qed.

Section represents.
Context (c : heap_cfg).

Lemma represents_at s A bl fl p d :
  represents s A bl fl -> A !! p = Some d ->
  exists cap, (p, cap) ∈ lives (heap_start s) bl /\ Z.of_nat (length d) <= cap /\ p <> 0 /\
    forall p' d', A !! p' = Some d' -> p' <> p ->
      p + cap + 48 <= p' \/ p' + Z.of_nat (length d') + 48 <= p.
Proof.
  intros [] Hp. destruct (rp_data0 _ _ Hp) as (cap & Hin & Hlen). exists cap.
  pose proof (hk_tiled _ _ _ rp_ok0) as Ht. pose proof (hk_start _ _ _ rp_ok0).
  destruct (lives_split _ _ _ _ _ _ _ Ht Hin) as (? & ? & _ & _ & _ & _ & ? & _).
  splits; auto; [lia|]. intros p' d' Hp' Hne. destruct (rp_data0 _ _ Hp') as (cap' & Hin' & Hlen').
  destruct (lives_disjoint _ _ _ _ _ _ _ _ _ Ht Hin Hin') as [[? _]|?]; [congruence|lia].
Qed.

(** New bytes, same blocks. *)
Lemma represents_bytes s A bl fl b A' :
  represents s A bl fl -> (forall p, is_Some (A' !! p) <-> is_Some (A !! p)) ->
  (forall p d', A' !! p = Some d' -> exists cap, (p, cap) ∈ lives (heap_start s) bl /\ Z.of_nat (length d') <= cap) ->
  (forall p d' i v, A' !! p = Some d' -> d' !! i = Some (Some v) -> b !! (p + Z.of_nat i) = Some v) ->
  represents (with_bytes b s) A' bl fl.
Proof.
  intros [] Hd Hl Hb. constructor; simpl; auto; [by apply heap_ok_bytes|]. intros p. by rewrite Hd, rp_dom0.
Qed.

Lemma represents_alloc s A bl fl n :
  represents s A bl fl -> 0 <= n -> n + 63 < 2 ^ 64 ->
  exists s' r bl' fl', alloc c s n = Ok (s', r) /\ result_ok A (HAlloc n) r /\
    (forall x, x ∈ lives (heap_start s) bl -> x ∈ lives (heap_start s') bl') /\
    represents s' (abs_next A (HAlloc n) r) bl' fl'.
Proof.
  intros Hr H1 H2. pose proof Hr as []. destruct (decide (n = 0)) as [->|Hn0].
  { exists s, 0, bl, fl. unfold alloc. rewrite (heap_ok_alloc_init _ _ _ _ rp_ok0). splits; auto. by left. }
  destruct (alloc_lives c s bl fl n rp_ok0 rp_used0 ltac:(lia) H2) as
    [[E _]|(s' & p & cap & bl' & fl' & E & Hok & Hu & Hg & _ & Hp & H16 & Hcap & Hl & Hb)].
  { exists s, 0, bl, fl. splits; auto; by left. }
  assert (Hst : heap_start s' = heap_start s) by (unfold geom in Hg; congruence).
  pose proof (hk_tiled _ _ _ Hok) as Ht. pose proof (lives_nodup _ _ _ _ _ Ht) as Hnd.
  rewrite Hl in Hnd. simpl in Hnd. apply NoDup_cons in Hnd as [Hnin _].
  assert (HA : A !! p = None) by (apply eq_None_not_Some; by rewrite rp_dom0).
  exists s', p, bl', fl'. splits; [done|by right|intros x Hx; rewrite Hl; by right|].
  simpl. rewrite decide_False by done. constructor; auto.
  - intros x. rewrite Hl. simpl. rewrite elem_of_cons, <- rp_dom0, lookup_insert. case_decide; naive_solver.
  - intros x d Hx. apply lookup_insert_Some in Hx as [[<- <-]|[? Hx]].
    + exists cap. rewrite length_replicate, Hl. split; [by left|lia].
    + destruct (rp_data0 _ _ Hx) as (cx & ? & ?). exists cx. rewrite Hl. split; [by right|done].
  - intros x d i v Hx Hi. rewrite Hb. apply lookup_insert_Some in Hx as [[<- <-]|[? Hx]].
    + apply lookup_replicate in Hi as [[= <-] ?]. by rewrite decide_True by lia.
    + rewrite decide_False; [by eapply rp_bytes0|]. apply lookup_lt_Some in Hi.
      destruct (rp_data0 _ _ Hx) as (cx & Hin & ?).
      destruct (lives_disjoint _ _ _ _ _ x cx p cap Ht) as [[? _]|?]; rewrite ?Hl; [by right|by left|done|lia].
Qed.

Lemma represents_alloc_geom s A bl fl n s' r :
  represents s A bl fl -> 0 <= n -> n + 63 < 2 ^ 64 -> alloc c s n = Ok (s', r) -> geom s' = geom s.
Proof.
  intros [] H1 H2 E. destruct (decide (n = 0)) as [->|Hn0].
  { unfold alloc in E. rewrite (heap_ok_alloc_init _ _ _ _ rp_ok0) in E. simpl in E. by injection E as <- _. }
  destruct (alloc_lives c s bl fl n rp_ok0 rp_used0 ltac:(lia) H2) as
    [[E' _]|(s1 & p & cap & bl' & fl' & E' & _ & _ & Hg & _)]; congruence.
Qed.

Lemma represents_free s A bl fl p :
  represents s A bl fl -> is_Some (A !! p) ->
  exists s' bl' fl', alloc_free false s p = Ok s' /\ represents s' (delete p A) bl' fl' /\ geom s' = geom s.
Proof.
  intros [] Hp. apply rp_dom0 in Hp. apply list_elem_of_fmap in Hp as ([p' cap] & -> & Hin). simpl.
  destruct (lives_split _ _ _ _ _ _ _ (hk_tiled _ _ _ rp_ok0) Hin) as (b1 & b2 & -> & -> & _).
  destruct (alloc_free_spec _ _ _ _ _ rp_ok0) as (s' & fl' & E & Hok & B & G & Ha & Hf).
  pose proof (hk_coal _ _ _ rp_ok0) as Hc. apply coalesced_app in Hc as (Hc1 & Hc2 & _). simpl in Hc2.
  destruct Hc2 as [_ Hc2].
  destruct (free_result_lives (heap_start s) b1 (cap + 48) b2 Hc1 Hc2) as [Hl Hlb].
  assert (Hst : heap_start s' = heap_start s) by (unfold geom in G; congruence).
  pose proof (lives_nodup _ _ _ _ _ (hk_tiled _ _ _ rp_ok0)) as Hnd.
  set (p := heap_start s + extent b1 + sizeof_header) in *. rewrite Hl in Hnd. simpl in Hnd.
  apply NoDup_cons in Hnd as [Hnin _].
  pose proof (live_bytes_nonneg _ _ _ _ _ (hk_tiled _ _ _ Hok)). pose proof (hk_top _ _ _ Hok).
  pose proof (hk_start _ _ _ Hok).
  exists s', (free_result b1 (cap + 48) b2), fl'. split; [done|]. split; [|done]. constructor; auto.
  - rewrite Ha, Hf. apply u64_used_sub; [lia|]. by rewrite rp_used0.
  - intros x. rewrite Hst, lookup_delete_is_Some, rp_dom0, Hl. simpl. rewrite elem_of_cons. naive_solver.
  - intros x d Hx. apply lookup_delete_Some in Hx as [Hne Hx]. destruct (rp_data0 _ _ Hx) as (cx & Hi & ?).
    exists cx. rewrite Hst. rewrite Hl in Hi. apply elem_of_cons in Hi as [[= -> _]|?]; [done|auto].
  - intros x d i v Hx Hi. apply lookup_delete_Some in Hx as [Hne Hx]. rewrite B. by eapply rp_bytes0.
Qed.

(** Copying [k] bytes of object [p] into object [q]. *)
Lemma represents_copy s A bl fl p d q dq n k :
  represents s A bl fl -> A !! p = Some d -> A !! q = Some dq -> p <> q ->
  length dq = n -> (exists cap, (p, cap) ∈ lives (heap_start s) bl /\ Z.of_nat k <= cap) ->
  (k <= n)%nat -> (length d `min` n <= k)%nat ->
  represents (with_bytes (copy_bytes (ubytes s) q p k) s) (<[q := resize n None d]> A) bl fl.
Proof.
  intros Hr Hp Hq Hne Hn (cap & Hin & Hk) Hkn Hmin. pose proof Hr as [].
  pose proof (hk_tiled _ _ _ rp_ok0) as Ht.
  destruct (represents_at _ _ _ _ _ _ Hr Hp) as (cp & Hinp & Hlp & Hp0 & Hdp).
  destruct (represents_at _ _ _ _ _ _ Hr Hq) as (cq & Hinq & Hlq & Hq0 & Hdq).
  assert (Hdis : q + Z.of_nat k <= p \/ p + Z.of_nat k <= q).
  { destruct (lives_disjoint _ _ _ _ _ _ _ _ _ Ht Hin Hinq) as [[? _]|?]; [done|lia]. }
  apply (represents_bytes _ A); auto.
  - intros x. rewrite lookup_insert. case_decide; naive_solver.
  - intros x d' Hx. apply lookup_insert_Some in Hx as [[<- <-]|[? Hx]]; [|eauto].
    exists cq. rewrite length_resize. split; [done|lia].
  - intros x d' i v Hx Hi. rewrite copy_bytes_lookup by done.
    apply lookup_insert_Some in Hx as [[<- <-]|[Hxq Hx]].
    + assert (i < n)%nat by (apply lookup_lt_Some in Hi; by rewrite length_resize in Hi).
      destruct (decide (i < length d)%nat) as [Hid|Hid].
      2: { rewrite lookup_resize_new in Hi by lia. done. }
      rewrite lookup_resize in Hi by lia. rewrite decide_True by lia.
      replace (p + (q + Z.of_nat i - q)) with (p + Z.of_nat i) by lia.
      by rewrite (rp_bytes0 _ _ _ _ Hp Hi).
    + pose proof (lookup_lt_Some _ _ _ Hi). specialize (Hdq x d' Hx ltac:(done)).
      rewrite decide_False by lia. by eapply rp_bytes0.
Qed.

Lemma represents_realloc s A bl fl p n :
  represents s A bl fl -> is_Some (A !! p) -> 0 < n -> n + 63 < 2 ^ 64 ->
  exists s' r bl' fl', all_realloc false c s p n = Ok (s', r) /\ result_ok A (HRealloc p n) r /\
    represents s' (if decide (r = 0) then A else <[r := resize (Z.to_nat n) None (default [] (A !! p))]> (delete p A)) bl' fl'.
Proof.
  intros Hr [d Hp] H1 H2. destruct (represents_at _ _ _ _ _ _ Hr Hp) as (cap & Hin & Hlen & Hp0 & _).
  pose proof Hr as []. unfold all_realloc. rewrite !decide_False by lia.
  destruct (lives_split _ _ _ _ _ _ _ (hk_tiled _ _ _ rp_ok0) Hin) as (? & ? & _ & _ & HM & Hc0 & _).
  change (p - sizeof_header) with (p - 32). destruct (meta_load _ _ _ _ HM) as (h & -> & Eh & _). cbn [mbind outcome_bind].
  rewrite Eh. destruct (represents_alloc _ _ _ _ n Hr ltac:(lia) H2) as (s1 & q & bl1 & fl1 & -> & Hq & Hsub & Hr1).
  cbn [mbind outcome_bind]. simpl in Hr1. rewrite Hp. cbn [default from_option].
  destruct (decide (q = 0)) as [->|Hq0]; [exists s1, 0, bl1, fl1; splits; auto|].
  destruct Hq as [?|[Hq16 Hqn]]; [done|]. assert (Hpq : p <> q) by congruence.
  unfold sizeof_header, sizeof_footer. replace (cap + 48 - 32 - 16) with cap by lia.
  set (k := if decide (cap < n) then cap else n).
  assert (Hk : 0 <= k <= cap /\ k <= n /\ Z.min cap n <= k) by (unfold k; case_decide; lia).
  set (A1 := <[q := replicate (Z.to_nat n) (Some 0)]> A) in *.
  assert (Hp1 : A1 !! p = Some d) by (unfold A1; by rewrite lookup_insert_ne).
  assert (Hin1 : exists cap', (p, cap') ∈ lives (heap_start s1) bl1 /\ Z.of_nat (Z.to_nat k) <= cap').
  { exists cap. split; [by apply Hsub|lia]. }
  assert (Hr2 : represents (with_bytes (copy_bytes (ubytes s1) q p (Z.to_nat k)) s1)
            (<[q := resize (Z.to_nat n) None d]> A1) bl1 fl1).
  { eapply represents_copy; [exact Hr1|exact Hp1| | | |exact Hin1|lia|lia]; [|done|].
    - unfold A1. by rewrite lookup_insert_eq.
    - by rewrite length_replicate. }
  destruct (represents_free _ _ _ _ p Hr2) as (s3 & bl3 & fl3 & -> & Hr3 & _).
  { rewrite lookup_insert_ne by done. eauto. }
  cbn [mbind outcome_bind]. exists s3, q, bl3, fl3. splits; [done|by right|].
  rewrite decide_False by done. unfold A1 in Hr3. by rewrite insert_insert_eq, delete_insert_ne in Hr3.
Qed.
End represents.

(** ** Runs of client operations *)

(** Execute the operations that are valid when their turn comes. *)
Fixpoint heap_run (c : heap_cfg) (s : heap_state) (A : objects) (ops : list heap_op) : outcome (heap_state * objects) :=
  match ops with
  | [] => Ok (s, A)
  | op :: ops' =>
      if decide (op_valid A op) then
        '(s', r) ← heap_exec c s op; heap_run c s' (abs_next A op r) ops'
      else heap_run c s A ops'
  end.

Lemma heap_exec_refines c s A bl fl op :
  represents s A bl fl -> op_valid A op ->
  exists s' r bl' fl', heap_exec c s op = Ok (s', r) /\ result_ok A op r /\ represents s' (abs_next A op r) bl' fl'.
Proof.
  intros Hr Hv. destruct op as [n|p|p n|p i v]; simpl in *.
  - destruct (represents_alloc c _ _ _ _ n Hr) as (s' & r & bl' & fl' & ? & ? & _ & ?); [lia|lia|eauto 10].
  - destruct Hv as [->|Hp].
    + exists s, 0, bl, fl. rewrite delete_id; [by splits; auto; left|].
      destruct (A !! 0) as [d|] eqn:E; [|done].
      destruct (represents_at _ _ _ _ _ _ Hr E) as (? & _ & _ & ? & _). done.
    + destruct (represents_free _ _ _ _ _ Hr Hp) as (s' & bl' & fl' & -> & ? & _).
      exists s', 0, bl', fl'. splits; auto. by left.
  - destruct Hv as ([->|Hp] & Hn & Hn2).
    + destruct (represents_alloc c _ _ _ _ n Hr) as (s' & r & bl' & fl' & ? & ? & _ & ?); [lia|lia|].
      exists s', r, bl', fl'. splits; auto.
    + pose proof Hp as [d Hd]. destruct (represents_at _ _ _ _ _ _ Hr Hd) as (_ & _ & _ & Hp0 & _).
      destruct (decide (n = 0)) as [->|Hn0].
      * destruct (represents_free _ _ _ _ _ Hr Hp) as (s' & bl' & fl' & E & ? & _).
        exists s', 0, bl', fl'. unfold all_realloc. rewrite decide_False, decide_True, E by done.
        splits; [done|by left|]. by rewrite decide_False by done.
      * destruct (represents_realloc c _ _ _ _ _ n Hr Hp) as (s' & r & bl' & fl' & ? & ? & ?); [lia|lia|].
        exists s', r, bl', fl'. rewrite !decide_False by done. splits; auto.
  - destruct Hv as (d & Hd & Hi). eexists _, 0, bl, fl. split; [reflexivity|]. split; [by left|].
    apply (represents_bytes _ A); auto.
    + intros x. rewrite lookup_alter. case_decide; [subst|done]. rewrite fmap_is_Some. done.
    + intros x d' Hx. destruct (decide (p = x)) as [<-|Hne]; [|rewrite lookup_alter_ne in Hx by done; by eapply rp_data].
      rewrite lookup_alter_eq, Hd in Hx. injection Hx as <-. rewrite length_insert. by eapply rp_data.
    + intros x d' j w Hx Hj. destruct (represents_at _ _ _ _ _ _ Hr Hd) as (cap & _ & Hlen & _ & Hdis).
      destruct (decide (p = x)) as [<-|Hne].
      * rewrite lookup_alter_eq, Hd in Hx. injection Hx as <-. destruct (decide (i = j)) as [<-|Hij].
        -- rewrite list_lookup_insert_eq in Hj by done. injection Hj as ->. by rewrite lookup_insert_eq.
        -- rewrite list_lookup_insert_ne in Hj by done. rewrite lookup_insert_ne by lia. by eapply rp_bytes.
      * rewrite lookup_alter_ne in Hx by done. pose proof (lookup_lt_Some _ _ _ Hj).
        specialize (Hdis x d' Hx ltac:(done)). rewrite lookup_insert_ne by lia. by eapply rp_bytes.
Qed.

Lemma heap_run_refines c s A bl fl ops :
  represents s A bl fl ->
  exists s' A' bl' fl', heap_run c s A ops = Ok (s', A') /\ represents s' A' bl' fl'.
Proof.
  revert s A bl fl. induction ops as [|op ops IH]; intros s A bl fl Hr; simpl; [eauto 10|].
  case_decide as Hv; [|eauto]. destruct (heap_exec_refines c _ _ _ _ _ Hr Hv) as (s' & r & bl' & fl' & -> & _ & Hr').
  simpl. eauto.
Qed.

Lemma represents_init c s : cfg_ok c -> alloc_init c heap_boot = Ok s ->
  represents s ∅ [(SIMPLE_HEAP_SIZE c, true)] [SIMPLE_HEAP_START c].
Proof.
  intros Hc E. destruct (alloc_init_spec c heap_boot Hc) as (s' & E' & Hok & Hst & Ha & Hf & Hb); [done|].
  rewrite E in E'. injection E' as <-. constructor; auto.
  - by rewrite Ha, Hf.
  - intros p. simpl. rewrite lookup_empty. split; [by intros [? ?]|]. by intros ?%not_elem_of_nil.
  - intros p d. by rewrite lookup_empty.
  - intros p d i v. by rewrite lookup_empty.
Qed.

(** A coalesced heap without live blocks is one block. *)
Lemma coalesced_all_free M F a bl e :
  tiled M F a bl e -> coalesced bl -> lives a bl = [] -> a < e -> bl = [(e - a, true)].
Proof.
  destruct bl as [|[sz [|]] bl]; simpl; [lia| |done]. intros (? & _ & _ & _ & H) [Hh Hc] Hl Hlt.
  destruct bl as [|[sz' [|]] bl]; [|done|done]. simpl in H. subst. do 2 f_equal. lia.
Qed.

(** The x86-64 window (arch_kernel_heap_base, arch_kernel_heap_size). *)
Definition heap_x86 : heap_cfg := {| SIMPLE_HEAP_START := 0x00800000; SIMPLE_HEAP_SIZE := 0x01800000 |}.

Lemma heap_x86_ok : cfg_ok heap_x86.
Proof. unfold cfg_ok. splits; by vm_compute. Qed.

(** C10: from boot, any sequence of allocations, reallocations, frees and
    in-object writes whose arguments the client is entitled to (live pointers,
    indices inside the object, sizes below 2^64 - 63) runs to completion without a
    panic and without an access outside a block, and the heap then implements a
    finite map of disjoint objects: each live object still holds exactly the
    bytes last written to it (zero after allocation, the old prefix after a
    reallocation), whatever happened to the others. *)
Theorem heap_runs_refine_objects c ops :
  cfg_ok c ->
  exists s0 s A bl fl, alloc_init c heap_boot = Ok s0 /\ heap_run c s0 ∅ ops = Ok (s, A) /\ represents s A bl fl.
Proof.
  intros Hc. destruct (alloc_init_spec c heap_boot Hc) as (s0 & E & _); [done|].
  pose proof (represents_init c s0 Hc E) as Hr.
  destruct (heap_run_refines c _ _ _ _ ops Hr) as (s & A & bl & fl & ? & ?). eauto 10.
Qed.

Lemma heap_runs_refine_objects_witness :
  exists s0 s A bl fl, alloc_init heap_x86 heap_boot = Ok s0 /\
    heap_run heap_x86 s0 ∅ [HAlloc 100; HWrite 0x800020 3 65; HRealloc 0x800020 200; HFree 0x800020] = Ok (s, A) /\
    represents s A bl fl.
Proof. apply heap_runs_refine_objects. apply heap_x86_ok. Defined.


(** freeing a live object succeeds, forgets exactly that object, keeps the
    contents of all the others and the byte accounting of [alloc_stats], and
    leaves no two adjacent free blocks; once the last object is gone the heap is
    one free block spanning the whole window again. *)
Theorem alloc_free_correct s A bl fl p :
  represents s A bl fl -> is_Some (A !! p) ->
  exists s' bl' fl', alloc_free false s p = Ok s' /\ represents s' (delete p A) bl' fl' /\
    coalesced bl' /\ alloc_stats s' = (heap_size s', live_bytes bl', total_allocated s') /\
    (delete p A = ∅ -> bl' = [(heap_size s', true)]).
Proof.
  intros Hr Hp. destruct (represents_free _ _ _ _ _ Hr Hp) as (s' & bl' & fl' & E & Hr' & Hg).
  exists s', bl', fl'. pose proof Hr' as []. pose proof rp_ok0 as []. splits; auto.
  - unfold alloc_stats. by rewrite rp_used0.
  - intros HA. rewrite HA in rp_dom0. assert (Hl : lives (heap_start s') bl' = []).
    { destruct (lives (heap_start s') bl') as [|[q cq] l]; [done|].
      destruct (rp_dom0 q) as [_ Hx]. rewrite lookup_empty in Hx. destruct Hx as [? ?]; [by left|done]. }
    destruct Hp as [d Hd]. destruct (represents_at _ _ _ _ _ _ Hr Hd) as (cap & Hin & _).
    destruct (lives_split _ _ _ _ _ _ _ (hk_tiled _ _ _ (rp_ok _ _ _ _ Hr)) Hin) as (? & ? & _ & _ & _ & ? & ? & ? & _).
    unfold geom in Hg. injection Hg as E1 E2 E3 E4.
    rewrite (coalesced_all_free _ _ _ _ _ hk_tiled0 hk_coal0 Hl) by lia. do 2 f_equal. lia.
Qed.

(** ** Concrete runs *)

Definition booted : heap_state :=
  match alloc_init heap_x86 heap_boot with Ok s => s | _ => heap_boot end.

Lemma booted_represents : represents booted ∅ [(0x01800000, true)] [0x00800000].
Proof. apply (represents_init heap_x86 booted heap_x86_ok). reflexivity. Qed.

(** After [alloc(100)]: the object sits right behind the first header. *)
Definition booted_100 : heap_state :=
  match alloc heap_x86 booted 100 with Ok (s, _) => s | _ => heap_boot end.

Lemma booted_100_represents :
  exists bl fl, represents booted_100 {[ 0x800020 := replicate 100 (Some 0) ]} bl fl.
Proof.
  destruct (represents_alloc heap_x86 _ _ _ _ 100 booted_represents) as (s' & r & bl' & fl' & E & _ & _ & Hr); [lia|lia|].
  assert (Ep : alloc heap_x86 booted 100 = Ok (booted_100, 0x800020)) by (vm_compute; reflexivity).
  rewrite E in Ep. injection Ep as -> ->. eauto.
Qed.


Lemma alloc_free_correct_witness :
  exists s' bl' fl', alloc_free false booted_100 0x800020 = Ok s' /\
    represents s' (delete 0x800020 {[ 0x800020 := replicate 100 (Some 0) ]}) bl' fl' /\ coalesced bl' /\
    alloc_stats s' = (heap_size s', live_bytes bl', total_allocated s') /\
    (delete 0x800020 {[ 0x800020 := replicate 100 (Some (A:=Z) 0) ]} = (∅ : objects) -> bl' = [(heap_size s', true)]).
Proof.
  destruct booted_100_represents as (bl & fl & Hr).
  apply (alloc_free_correct booted_100 _ bl fl 0x800020 Hr). rewrite lookup_singleton_eq. eauto.
Defined.

(** [alloc_free] refuses bad pointers before touching anything: NULL is a
    no-op, a pointer whose header lies outside the heap window panics, and so
    does one whose header is marked free (double free). *)
Theorem alloc_free_rejects dbg s A bl fl p :
  represents s A bl fl ->
  (p = 0 -> alloc_free dbg s p = Ok s) /\
  (p <> 0 -> p < heap_start s + sizeof_header \/ heap_end s + sizeof_header <= p ->
   alloc_free dbg s p = Panic "Out of bounds allocation") /\
  (heap_start s + sizeof_header <= p < heap_end s + sizeof_header ->
   forall z, meta s (p - sizeof_header) = Some (z, true) -> alloc_free dbg s p = Panic "double-free detected").
Proof.
  intros [Hok _ _ _ _]. unfold alloc_free. rewrite (hk_init _ _ _ Hok). pose proof (hk_start _ _ _ Hok).
  unfold sizeof_header in *. splits.
  - intros ->. done.
  - intros Hp Hb. rewrite decide_False by done. simpl. rewrite decide_True by lia. done.
  - intros Hr z Hm. rewrite !decide_False by lia. simpl. destruct (meta_load _ _ _ _ Hm) as (h & -> & _ & Hf & _).
    simpl. by rewrite Hf.
Qed.

Lemma alloc_free_rejects_witness :
  alloc_free false booted 0x800020 = Panic "double-free detected" /\
  alloc_free false booted 16 = Panic "Out of bounds allocation".
Proof.
  destruct (alloc_free_rejects false booted ∅ _ _ 0x800020 booted_represents) as (_ & _ & H3).
  destruct (alloc_free_rejects false booted ∅ _ _ 16 booted_represents) as (_ & H2 & _).
  split.
  - apply (H3 ltac:(by vm_compute) 0x01800000). vm_compute. reflexivity.
  - apply H2; [lia|left; by vm_compute].
Defined.

(** A build with DEBUG_MEMORY_ALLOCATOR never merges with the previous block:
    freeing two neighbours in address order leaves two adjacent free blocks. *)
Lemma debug_build_skips_backward_coalescing :
  let run := s ← alloc_init heap_x86 heap_boot;
             '(s, p0) ← alloc heap_x86 s 100; '(s, p1) ← alloc heap_x86 s 100; '(s, p2) ← alloc heap_x86 s 100;
             s ← alloc_free true s p0; s ← alloc_free true s p1;
             Ok (meta s (p0 - 32), meta s (p1 - 32), p1 - p0, coalesce_backward_count s) in
  run = Ok (Some (160, true), Some (160, true), 160, 0).
Proof. vm_compute. reflexivity. Qed.

(** A request within 63 bytes of 2^64 wraps to a tiny block, and clearing the
    payload then runs past it. *)
Lemma alloc_huge_size_overruns : alloc heap_x86 booted (2 ^ 64 - 16) = UB.
Proof. vm_compute. reflexivity. Qed.
