(* ===== verification/Kmem.v ===== *)
(** * The kmalloc layer (src/mm/kmem.c) over the block allocator

    Every function of the file, with [panicex] as [Panic].  The aligned variants
    store the raw pointer in the eight bytes below the aligned address; those
    bytes are payload, so the model writes and reads them little-endian. *)

From S2P Require Import Prelude Heap.

Definition sizeof_ptr : Z := 8.

Section kmem.
Context (dbg : bool) (c : heap_cfg).

Definition kmalloc_impl (s : heap_state) (size : Z) : outcome (heap_state * Z) :=
  if decide (size = 0) then Ok (s, 0) else alloc c s size.

Definition kfree_impl (s : heap_state) (ptr : Z) : outcome heap_state :=
  if decide (ptr <> 0) then alloc_free dbg s ptr else Ok s.

Definition krealloc_impl (s : heap_state) (ptr size : Z) : outcome (heap_state * Z) :=
  if decide (size = 0) then s ← kfree_impl s ptr; Ok (s, 0)
  else all_realloc dbg c s ptr size.

(** A pointer stored in memory: eight bytes, least significant first. *)
Fixpoint store_le (m : gmap Z Z) (a v : Z) (n : nat) : gmap Z Z :=
  match n with
  | O => m
  | S k => store_le (<[a := v mod 256]> m) (a + 1) (v / 256) k
  end.

Fixpoint load_le (m : gmap Z Z) (a : Z) (n : nat) : outcome Z :=
  match n with
  | O => Ok 0
  | S k => b ← or_ub (m !! a); v ← load_le m (a + 1) k; Ok (b + 256 * v)
  end.

Definition kmalloc_aligned_impl (s : heap_state) (size alignment : Z) : outcome (heap_state * Z) :=
  if decide (size = 0 \/ alignment = 0) then Ok (s, 0) else
  if decide (Z.land alignment (alignment - 1) <> 0) then Ok (s, 0) else
  let total_size := u64 (size + alignment - 1 + sizeof_ptr) in
  '(s, raw_ptr) ← kmalloc_impl s total_size;
  if decide (raw_ptr = 0) then Ok (s, 0) else
  let aligned_addr := Z.land (u64 (raw_ptr + sizeof_ptr + alignment - 1)) (Z.lnot (alignment - 1)) in
  Ok (with_bytes (store_le (ubytes s) (aligned_addr - sizeof_ptr) raw_ptr 8) s, aligned_addr).

Definition kfree_aligned_impl (s : heap_state) (ptr : Z) : outcome heap_state :=
  if decide (ptr = 0) then Ok s else
  orig_ptr ← load_le (ubytes s) (ptr - sizeof_ptr) 8;
  kfree_impl s orig_ptr.

Definition kmalloc_checked (s : heap_state) (size : Z) : outcome (heap_state * Z) :=
  if decide (size = 0) then Panic "kmalloc: size is 0" else
  if decide (SIMPLE_HEAP_SIZE c < size) then Panic "kmalloc: size too large (possible overflow)" else
  '(s, ptr) ← kmalloc_impl s size;
  if decide (ptr = 0) then Panic "kmalloc: out of memory" else Ok (s, ptr).

(** [fault] is KTM_FAULT_HIT("kmem.alloc"): the fault-injection hook. *)
Definition kmalloc_try (fault : bool) (s : heap_state) (size : Z) : outcome (heap_state * Z) :=
  if decide (size = 0) then Ok (s, 0) else
  if decide (SIMPLE_HEAP_SIZE c < size) then Ok (s, 0) else
  if fault then Ok (s, 0) else kmalloc_impl s size.

Definition kmalloc_aligned_try (s : heap_state) (size alignment : Z) : outcome (heap_state * Z) :=
  if decide (size = 0) then Ok (s, 0) else
  if decide (alignment = 0) then Ok (s, 0) else
  if decide (Z.land alignment (alignment - 1) <> 0) then Ok (s, 0) else
  if decide (SIMPLE_HEAP_SIZE c < size) then Ok (s, 0) else
  kmalloc_aligned_impl s size alignment.

Definition kfree_checked (s : heap_state) (ptr : Z) : outcome heap_state :=
  if decide (ptr = 0) then Ok s else
  if decide (ptr < SIMPLE_HEAP_START c \/ SIMPLE_HEAP_END c <= ptr)
  then Panic "kfree: pointer out of heap range"
  else kfree_impl s ptr.

Definition krealloc_checked (s : heap_state) (ptr new_size : Z) : outcome (heap_state * Z) :=
  if decide (new_size = 0) then s ← kfree_checked s ptr; Ok (s, 0) else
  if decide (SIMPLE_HEAP_SIZE c < new_size) then Panic "krealloc: new_size too large" else
  if decide (ptr <> 0 /\ (ptr < SIMPLE_HEAP_START c \/ SIMPLE_HEAP_END c <= ptr))
  then Panic "krealloc: invalid pointer" else
  '(s, new_ptr) ← krealloc_impl s ptr new_size;
  if decide (new_ptr = 0) then Panic "krealloc: out of memory" else Ok (s, new_ptr).

Definition kmalloc_aligned_checked (s : heap_state) (size alignment : Z) : outcome (heap_state * Z) :=
  if decide (size = 0) then Panic "kmalloc_aligned: size is 0" else
  if decide (alignment = 0) then Panic "kmalloc_aligned: alignment is 0" else
  if decide (Z.land alignment (alignment - 1) <> 0) then Panic "kmalloc_aligned: alignment not power of 2" else
  if decide (SIMPLE_HEAP_SIZE c < size) then Panic "kmalloc_aligned: size too large" else
  '(s, ptr) ← kmalloc_aligned_impl s size alignment;
  if decide (ptr = 0) then Panic "kmalloc_aligned: out of memory" else Ok (s, ptr).

Definition kfree_aligned_checked (s : heap_state) (ptr : Z) : outcome heap_state :=
  if decide (ptr = 0) then Ok s else
  if decide (ptr < SIMPLE_HEAP_START c \/ SIMPLE_HEAP_END c <= ptr)
  then Panic "kfree_aligned: pointer out of heap range"
  else kfree_aligned_impl s ptr.

Definition heap_init (s : heap_state) : outcome heap_state := alloc_init c s.
End kmem.

(** ** Stored pointers *)

Lemma store_le_lookup_out m a v n x : x < a \/ a + Z.of_nat n <= x -> store_le m a v n !! x = m !! x.
Proof.
  revert m a v; induction n as [|n IH]; intros m a v Hx; simpl; [done|].
  rewrite IH, lookup_insert_ne by lia. done.
Qed.

Fixpoint le_bytes (v : Z) (n : nat) : list Z :=
  match n with O => [] | S k => v mod 256 :: le_bytes (v / 256) k end.

Lemma length_le_bytes v n : length (le_bytes v n) = n.
Proof. revert v; induction n; intros v; simpl; auto. Qed.

Lemma store_le_lookup m a v n i b :
  le_bytes v n !! i = Some b -> store_le m a v n !! (a + Z.of_nat i) = Some b.
Proof.
  revert m a v i; induction n as [|n IH]; intros m a v [|i] H; simpl in *; try done.
  - injection H as <-. by rewrite store_le_lookup_out, Z.add_0_r, lookup_insert_eq by lia.
  - rewrite <- (IH (<[a := v mod 256]> m) (a + 1) _ _ H). f_equal. lia.
Qed.

(** Any memory holding the little-endian bytes of [v] reads back as [v]. *)
Lemma load_le_bytes m a v n :
  0 <= v < 256 ^ Z.of_nat n ->
  (forall i b, le_bytes v n !! i = Some b -> m !! (a + Z.of_nat i) = Some b) -> load_le m a n = Ok v.
Proof.
  revert a v; induction n as [|n IH]; intros a v Hv Hb.
  - simpl in *. f_equal. lia.
  - rewrite Nat2Z.inj_succ, Z.pow_succ_r in Hv by lia. simpl.
    pose proof (Hb 0%nat _ eq_refl) as H0. simpl in H0. rewrite Z.add_0_r in H0. rewrite H0. simpl.
    rewrite (IH (a + 1) (v / 256)); [simpl; f_equal; pose proof (Z.div_mod v 256); lia| |].
    + split; [apply Z.div_pos; lia|apply Z.div_lt_upper_bound; lia].
    + intros i b Hi. rewrite <- (Hb (S i) b Hi). f_equal. lia.
Qed.

(** Rounding down by masking with a power of two. *)
Lemma land_align x k : 0 <= k -> let al := 2 ^ k in
  Z.land x (Z.lnot (al - 1)) = x - x mod al.
Proof.
  intros Hk al. unfold al. replace (2 ^ k - 1) with (Z.ones k) by (rewrite Z.ones_equiv; lia).
  rewrite <- Z.ldiff_land, Z.ldiff_ones_r, Z.shiftl_mul_pow2, Z.shiftr_div_pow2 by done.
  pose proof (Z.div_mod x (2 ^ k)). pose proof (Z.pow_pos_nonneg 2 k). lia.
Qed.

Lemma pow2_land_pred k : 0 <= k -> Z.land (2 ^ k) (2 ^ k - 1) = 0.
Proof.
  intros Hk. replace (2 ^ k - 1) with (Z.ones k) by (rewrite Z.ones_equiv; lia).
  rewrite Z.land_ones by done. apply Z.mod_same. pose proof (Z.pow_pos_nonneg 2 k). lia.
Qed.

(** ** The wrappers refine the object map *)

(** The heap's own bounds are those of the configured window. *)
Definition in_window (c : heap_cfg) (s : heap_state) : Prop :=
  cfg_ok c /\ heap_start s = SIMPLE_HEAP_START c /\ heap_end s = SIMPLE_HEAP_END c.

Lemma kmalloc_impl_refines c s A bl fl n :
  represents s A bl fl -> 0 <= n -> n + 63 < 2 ^ 64 ->
  exists s' r bl' fl', kmalloc_impl c s n = Ok (s', r) /\ result_ok A (HAlloc n) r /\
    represents s' (abs_next A (HAlloc n) r) bl' fl'.
Proof.
  intros Hr H1 H2. unfold kmalloc_impl. destruct (decide (n = 0)) as [->|Hn].
  - exists s, 0, bl, fl. splits; auto. by left.
  - destruct (represents_alloc c _ _ _ _ n Hr H1 H2) as (s' & r & bl' & fl' & ? & ? & _ & ?). eauto 10.
Qed.

Lemma kmalloc_impl_geom c s A bl fl n s' r :
  represents s A bl fl -> 0 <= n -> n + 63 < 2 ^ 64 -> kmalloc_impl c s n = Ok (s', r) -> geom s' = geom s.
Proof.
  intros Hr H1 H2. unfold kmalloc_impl. destruct (decide (n = 0)) as [->|Hn]; [by intros [= <- _]|].
  by apply (represents_alloc_geom c s A bl fl).
Qed.

(** The object behind an aligned allocation: zeros, with the raw pointer stored
    [off] bytes in. *)
Definition aligned_object (raw total : Z) (off : nat) : list (option Z) :=
  list_inserts off (Some <$> le_bytes raw 8) (replicate (Z.to_nat total) (Some 0)).

Section aligned.
Context (c : heap_cfg) (s : heap_state) (A : objects) (bl : blocks) (fl : list Z) (raw total off : Z).
Hypothesis Hr : represents s (<[raw := replicate (Z.to_nat total) (Some 0)]> A) bl fl.
Hypothesis Hoff : 0 <= off /\ off + 8 <= total.

Lemma represents_stored_ptr :
  represents (with_bytes (store_le (ubytes s) (raw + off) raw 8) s)
    (<[raw := aligned_object raw total (Z.to_nat off)]> A) bl fl.
Proof.
  set (A0 := <[raw := _]> A) in *.
  assert (H0 : A0 !! raw = Some (replicate (Z.to_nat total) (Some 0))) by (unfold A0; by rewrite lookup_insert_eq).
  destruct (represents_at _ _ _ _ _ _ Hr H0) as (cap & Hin & Hlen & _ & Hdis). rewrite length_replicate in Hlen.
  apply (represents_bytes _ A0); auto.
  - intros p. unfold A0. rewrite !lookup_insert. case_decide; naive_solver.
  - intros p d Hp. apply lookup_insert_Some in Hp as [[<- <-]|[Hne Hp]].
    + exists cap. unfold aligned_object. rewrite length_inserts, length_replicate. auto.
    + apply (rp_data _ _ _ _ Hr p d). unfold A0. by rewrite lookup_insert_ne.
  - intros p d i v Hp Hi. apply lookup_insert_Some in Hp as [[<- <-]|[Hne Hp]].
    + unfold aligned_object in Hi.
      destruct (decide (Z.to_nat off <= i < Z.to_nat off + 8)%nat) as [Hio|Hio].
      * rewrite list_lookup_inserts in Hi by (rewrite ?length_fmap, ?length_replicate, ?length_le_bytes; lia).
        rewrite list_lookup_fmap in Hi. destruct (le_bytes raw 8 !! _) as [b|] eqn:Eb; [|done].
        injection Hi as <-. rewrite <- (store_le_lookup (ubytes s) (raw + off) _ _ _ _ Eb). f_equal. lia.
      * rewrite store_le_lookup_out by lia. eapply (rp_bytes _ _ _ _ Hr); [exact H0|].
        rewrite <- Hi. symmetry. destruct (decide (i < Z.to_nat off)%nat).
        -- by rewrite list_lookup_inserts_lt.
        -- rewrite list_lookup_inserts_ge; [done|]. rewrite length_fmap, length_le_bytes. lia.
    + rewrite store_le_lookup_out.
      * eapply (rp_bytes _ _ _ _ Hr); [|exact Hi]. unfold A0. by rewrite lookup_insert_ne.
      * apply lookup_lt_Some in Hi. specialize (Hdis p d). unfold A0 in Hdis.
        rewrite lookup_insert_ne in Hdis by done. specialize (Hdis Hp ltac:(done)). lia.
Qed.
End aligned.

Lemma represents_bounds s A bl fl p d :
  represents s A bl fl -> A !! p = Some d ->
  heap_start s + 32 <= p /\ p + Z.of_nat (length d) + 16 <= heap_end s /\ heap_end s < 2 ^ 63 /\ 0 < heap_start s.
Proof.
  intros Hr Hp. destruct (represents_at _ _ _ _ _ _ Hr Hp) as (cap & Hin & Hlen & _).
  pose proof (rp_ok _ _ _ _ Hr) as Hok. pose proof (hk_top _ _ _ Hok). pose proof (hk_start _ _ _ Hok).
  destruct (lives_split _ _ _ _ _ _ _ (hk_tiled _ _ _ Hok) Hin) as (? & ? & _ & _ & _ & ? & ? & ? & _). lia.
Qed.

Lemma aligned_object_stored raw total off i b :
  off + 8 <= total -> 0 <= off -> le_bytes raw 8 !! i = Some b ->
  aligned_object raw total (Z.to_nat off) !! (Z.to_nat off + i)%nat = Some (Some b).
Proof.
  intros H1 H2 Hi. pose proof (lookup_lt_Some _ _ _ Hi) as Hlt. rewrite length_le_bytes in Hlt.
  unfold aligned_object. rewrite list_lookup_inserts by (rewrite ?length_fmap, ?length_replicate, ?length_le_bytes; lia).
  replace (Z.to_nat off + i - Z.to_nat off)%nat with i by lia. rewrite list_lookup_fmap, Hi. done.
Qed.

(** [kfree_aligned] finds the raw pointer and frees it. *)
Lemma kfree_aligned_spec c s A bl fl raw d off size :
  represents s A bl fl -> in_window c s -> A !! raw = Some d -> 0 <= off -> 0 < size ->
  off + 8 + size <= Z.of_nat (length d) ->
  (forall i b, le_bytes raw 8 !! i = Some b -> d !! (Z.to_nat off + i)%nat = Some (Some b)) ->
  exists s' bl' fl', kfree_aligned_checked false c s (raw + off + 8) = Ok s' /\ represents s' (delete raw A) bl' fl' /\ geom s' = geom s.
Proof.
  intros Hr (_ & Hs & He) Hd Ho Hsz Hlen Hb.
  destruct (represents_bounds _ _ _ _ _ _ Hr Hd) as (B1 & B2 & B3 & B4).
  destruct (represents_free _ _ _ _ raw Hr) as (s' & bl' & fl' & E & Hr' & Hg); [by rewrite Hd|].
  exists s', bl', fl'. split; [|done]. unfold kfree_aligned_checked, kfree_aligned_impl.
  rewrite !decide_False by lia. unfold sizeof_ptr. replace (raw + off + 8 - 8) with (raw + off) by lia.
  rewrite (load_le_bytes _ _ raw).
  - simpl. unfold kfree_impl. rewrite decide_True by lia. done.
  - change (256 ^ Z.of_nat 8) with (2 ^ 64). lia.
  - intros i b Hi. rewrite <- (rp_bytes _ _ _ _ Hr raw d _ b Hd (Hb i b Hi)). f_equal. lia.
Qed.

(** The aligned path, with the heap window unchanged. *)
Lemma kmalloc_aligned_spec c s A bl fl size k :
  represents s A bl fl -> in_window c s -> 0 < size <= SIMPLE_HEAP_SIZE c -> 0 <= k <= 62 ->
  exists s' p, kmalloc_aligned_try c s size (2 ^ k) = Ok (s', p) /\ geom s' = geom s /\
  ((exists bl' fl', p = 0 /\ represents s' A bl' fl') \/
   exists raw total off bl' fl',
    p mod 2 ^ k = 0 /\ A !! raw = None /\ p = raw + off + 8 /\ 0 <= off /\ off + 8 + size <= total /\
    represents s' (<[raw := aligned_object raw total (Z.to_nat off)]> A) bl' fl').
Proof.
  intros Hr Hw [Hs1 Hs2] Hk. destruct Hw as ((Hc1 & Hc2 & Hc3 & Hc4 & Hc5) & Hst & Hen). unfold SIMPLE_HEAP_END in Hc5.
  assert (Hal : 1 <= 2 ^ k <= 2 ^ 62) by (split; [pose proof (Z.pow_pos_nonneg 2 k); lia|apply Z.pow_le_mono_r; lia]).
  set (total := size + 2 ^ k - 1 + 8).
  unfold kmalloc_aligned_try, kmalloc_aligned_impl. rewrite pow2_land_pred by lia.
  rewrite !decide_False by lia. unfold sizeof_ptr. cbv zeta.
  assert (Hu : u64 (size + 2 ^ k - 1 + 8) = total) by (apply Z.mod_small; unfold total; lia). rewrite Hu.
  destruct (kmalloc_impl_refines c _ _ _ _ total Hr) as (s1 & raw & bl1 & fl1 & E1 & Hres & Hr1); [lia|lia|].
  pose proof (kmalloc_impl_geom c _ _ _ _ total _ _ Hr ltac:(lia) ltac:(lia) E1) as Hg. rewrite E1.
  cbn [mbind outcome_bind]. simpl in Hr1. destruct (decide (raw = 0)) as [->|Hraw].
  { exists s1, 0. splits; auto. left. exists bl1, fl1. auto. }
  destruct Hres as [?|[_ Hnone]]; [done|].
  destruct (represents_bounds _ _ _ _ raw (replicate (Z.to_nat total) (Some 0)) Hr1)
    as (B1 & B2 & B3 & B4); [by rewrite lookup_insert_eq|].
  rewrite length_replicate in B2. unfold u64. rewrite Z.mod_small by lia.
  rewrite land_align by lia. set (X := raw + 8 + 2 ^ k - 1) in *.
  pose proof (Z.mod_pos_bound X (2 ^ k)) as HX. set (off := X - X mod 2 ^ k - 8 - raw).
  assert (Hoff : 0 <= off /\ off + 8 + size <= total) by (unfold off, X in *; unfold total; lia).
  assert (Hp : X - X mod 2 ^ k = raw + off + 8) by (unfold off; lia).
  eexists _, (X - X mod 2 ^ k). splits; [reflexivity|done|]. right. exists raw, total, off, bl1, fl1.
  splits; [|done|done|lia|lia|].
  - rewrite Zminus_mod, Zmod_mod, Z.sub_diag. apply Zmod_0_l.
  - rewrite Hp. replace (raw + off + 8 - 8) with (raw + off) by lia. apply represents_stored_ptr; [done|lia].
Qed.

(** The stored pointer survives as long as its eight bytes do. *)
Lemma kfree_aligned_later c s A bl fl raw d total off size :
  represents s A bl fl -> in_window c s -> A !! raw = Some d -> total = Z.of_nat (length d) ->
  0 <= off -> 0 < size -> off + 8 + size <= total ->
  (forall i, (Z.to_nat off <= i < Z.to_nat off + 8)%nat -> d !! i = aligned_object raw total (Z.to_nat off) !! i) ->
  exists s' bl' fl', kfree_aligned_checked false c s (raw + off + 8) = Ok s' /\ represents s' (delete raw A) bl' fl' /\ geom s' = geom s.
Proof.
  intros Hr Hw Hd Ht Ho Hs Hle Hsame.
  apply (kfree_aligned_spec c s A bl fl raw d off size); auto; [lia|].
  intros i b Hi. pose proof (lookup_lt_Some _ _ _ Hi) as Hlt. rewrite length_le_bytes in Hlt.
  rewrite Hsame by lia. apply aligned_object_stored; [lia|lia|done].
Qed.

(** an aligned allocation through [kmalloc_aligned_try], for any power of
    two up to 2^62, returns NULL with the objects unchanged, or an address that is a multiple of
    the alignment with [size] usable bytes of a fresh object after it and the raw pointer
    stored before it.  From every later state in which that object is live and
    the stored pointer was not overwritten, [kfree_aligned] releases exactly that object. *)
Theorem kmalloc_aligned_roundtrip c s A bl fl size k :
  represents s A bl fl -> in_window c s -> 0 < size <= SIMPLE_HEAP_SIZE c -> 0 <= k <= 62 ->
  (exists bl' fl' s', kmalloc_aligned_try c s size (2 ^ k) = Ok (s', 0) /\ represents s' A bl' fl') \/
  exists s' p raw total off bl' fl', kmalloc_aligned_try c s size (2 ^ k) = Ok (s', p) /\
    p mod 2 ^ k = 0 /\ A !! raw = None /\ p = raw + off + 8 /\ 0 <= off /\ off + 8 + size <= total /\
    represents s' (<[raw := aligned_object raw total (Z.to_nat off)]> A) bl' fl' /\
    forall s2 A2 bl2 fl2 d, represents s2 A2 bl2 fl2 -> in_window c s2 -> A2 !! raw = Some d ->
      total = Z.of_nat (length d) ->
      (forall i, (Z.to_nat off <= i < Z.to_nat off + 8)%nat ->
         d !! i = aligned_object raw total (Z.to_nat off) !! i) ->
      exists s3 bl3 fl3, kfree_aligned_checked false c s2 p = Ok s3 /\ represents s3 (delete raw A2) bl3 fl3.
Proof.
  intros Hr Hw Hs Hk. destruct (kmalloc_aligned_spec c s A bl fl size k Hr Hw Hs Hk)
    as (s' & p & E & _ & [(bl' & fl' & -> & Hr')|(raw & total & off & bl' & fl' & Ha & Hn & -> & Ho & Ht & Hr')]); [left; eauto 6|].
  right. exists s', (raw + off + 8), raw, total, off, bl', fl'. splits; auto.
  intros s2 A2 bl2 fl2 d Hr2 Hw2 Hd Hl Hsame.
  destruct (kfree_aligned_later c s2 A2 bl2 fl2 raw d total off size) as (s3 & bl3 & fl3 & ? & ? & _); auto; [lia|eauto].
Qed.

Lemma kmalloc_aligned_roundtrip_witness :
  represents booted ∅ [(0x01800000, true)] [0x00800000] /\ in_window heap_x86 booted /\
  exists s' p, kmalloc_aligned_try heap_x86 booted 100 (2 ^ 12) = Ok (s', p).
Proof.
  assert (Hw : in_window heap_x86 booted) by (split; [exact heap_x86_ok|by vm_compute]).
  split; [exact booted_represents|]. split; [exact Hw|].
  destruct (kmalloc_aligned_roundtrip heap_x86 booted ∅ _ _ 100 12 booted_represents Hw)
    as [(? & ? & s' & H & _)|(s' & p & _ & _ & _ & _ & _ & H & _)]; [split; by vm_compute|lia|eauto|eauto].
Defined.

(** For every 64-bit size, [kmalloc_try] returns (never a wild write: the
    size guard keeps the rounded block size from wrapping) with NULL or a fresh
    zeroed object, NULL for every size that is 0 or larger than the heap; and
    [kmalloc] returns the same non-NULL pointer or panics with the message of
    the failed check. *)
Theorem kmalloc_total c s A bl fl size :
  represents s A bl fl -> in_window c s -> 0 <= size < 2 ^ 64 ->
  exists s' r bl' fl', kmalloc_try c false s size = Ok (s', r) /\ result_ok A (HAlloc size) r /\
    represents s' (abs_next A (HAlloc size) r) bl' fl' /\
    (size = 0 \/ SIMPLE_HEAP_SIZE c < size -> r = 0 /\ s' = s) /\
    kmalloc_checked c s size =
      (if decide (size = 0) then Panic "kmalloc: size is 0"
       else if decide (SIMPLE_HEAP_SIZE c < size) then Panic "kmalloc: size too large (possible overflow)"
       else if decide (r = 0) then Panic "kmalloc: out of memory" else Ok (s', r)).
Proof.
  intros Hr ((Hc1 & Hc2 & Hc3 & Hc4 & Hc5) & _ & _) Hs. unfold SIMPLE_HEAP_END in Hc5.
  unfold kmalloc_try, kmalloc_checked.
  destruct (decide (size = 0)) as [->|Hz]; [exists s, 0, bl, fl; splits; auto; by left|].
  destruct (decide (SIMPLE_HEAP_SIZE c < size)) as [Hb|Hb]; [exists s, 0, bl, fl; splits; auto; by left|].
  destruct (kmalloc_impl_refines c _ _ _ _ size Hr) as (s' & r & bl' & fl' & -> & ? & ?); [lia|lia|].
  exists s', r, bl', fl'. splits; auto. intros [?|?]; lia.
Qed.

Lemma kmalloc_total_witness :
  in_window heap_x86 booted /\
  exists s' r, kmalloc_try heap_x86 false booted (2 ^ 64 - 1) = Ok (s', r) /\ r = 0.
Proof.
  assert (Hw : in_window heap_x86 booted) by (split; [exact heap_x86_ok|by vm_compute]).
  split; [exact Hw|].
  destruct (kmalloc_total heap_x86 booted ∅ _ _ (2 ^ 64 - 1) booted_represents Hw) as (s' & r & _ & _ & H1 & _ & _ & H2 & _); [lia|].
  exists s', r. split; [done|]. apply H2. right. by vm_compute.
Defined.
