(* ===== verification/PageTables.v ===== *)
(** * Page tables (src/mm/paging.c over src/arch/x86-64/sources/mm_ops.c)

    The descriptor encoding of the x86-64 port, the four-level walk, and the
    operations that change a tree: [get_or_create_table], the split of a 2 MiB
    leaf, [map_page_in_directory], [unmap_page_in_directory], the supervisor
    identity maps and [paging_reclaim_user_tables], together with the frame and
    table accounting they update.

    A table is a page of 512 entries found by its physical address (the kernel
    reaches tables through the identity map).  A pointer to an entry is the pair
    of table address and index.  Dereferencing an address at which no table is
    live is [UB]. *)

From S2P Require Import Prelude Bytes Pmm.

(** ** Descriptors: src/arch/x86-64/sources/mm_ops.c *)

Definition X86_PTE_PRESENT : Z := 0x1.
Definition X86_PTE_RW : Z := 0x2.
Definition X86_PTE_USER : Z := 0x4.
Definition X86_PTE_LARGE : Z := 0x80.
Definition X86_PTE_NX : Z := 2 ^ 63.
Definition X86_PTE_PFN_MASK : Z := 0x000FFFFFFFFFF000.
Definition X86_INDEX_MASK : Z := 0x1FF.

Definition va_index (va sh : Z) : nat := Z.to_nat (Z.land (Z.shiftr va sh) X86_INDEX_MASK).

Definition mm_va_indices (va : Z) : nat * nat * nat * nat :=
  (va_index va 39, va_index va 30, va_index va 21, va_index va 12).

Definition mm_pte_present (e : Z) : bool := flag_set e X86_PTE_PRESENT.
Definition mm_pte_large (e : Z) : bool := mm_pte_present e && flag_set e X86_PTE_LARGE.
Definition mm_pte_phys (e : Z) : Z := Z.land e X86_PTE_PFN_MASK.

Definition mm_make_table_pte (phys : Z) (user : bool) : Z :=
  let e := Z.lor (Z.lor (Z.land phys X86_PTE_PFN_MASK) X86_PTE_PRESENT) X86_PTE_RW in
  if user then Z.lor e X86_PTE_USER else e.

Definition mm_make_leaf_pte (phys flags12 : Z) (exec : bool) : Z :=
  let e := Z.lor (Z.lor (Z.land phys X86_PTE_PFN_MASK) (Z.land flags12 0xFFF)) X86_PTE_PRESENT in
  if exec then e else Z.lor e X86_PTE_NX.

Definition mm_pte_set_user (e : Z) : Z := Z.lor e X86_PTE_USER.

(** src/arch/x86-64/sources/arch_mm.c *)
Definition mm_user_root_slots : nat := 256.
Definition mm_root_slots : nat := 512.

(** ** Flags of the mapping API: src/mm/paging.h *)

Definition PAGE_PRESENT : Z := 0x1.
Definition PAGE_RW : Z := 0x2.
Definition PAGE_USER : Z := 0x4.
Definition PAGE_SIZE_2MB_FLAG : Z := 0x80.
Definition PAGE_GLOBAL : Z := 0x100.
Definition PAGE_COW : Z := 0x200.
Definition PAGE_NX : Z := 2 ^ 63.
Definition PAGE_EXEC : Z := 2 ^ 52.
Definition PAGE_SIZE_4KB : Z := 4096.
Definition PAGE_SIZE_2MB : Z := 2 * 1024 * 1024.
Definition PAGE_PTE_PFN_MASK : Z := 0x000FFFFFFFFFF000.
(** src/config.h *)
Definition PMM_PHYS_BASE : Z := 0x2000000.

(** ** The pages tables are made of

    What [alloc_page_table] and [ir0_mm_free_table_frame] need of the kmalloc
    layer: page-aligned pages from a window of physical memory. *)

Class PageSource (H : Type) := {
  ps_alloc : H -> outcome (H * Z);        (* kmalloc_aligned_try(4096, 4096) *)
  ps_free : H -> Z -> outcome H;          (* kfree_aligned(page) *)
  ps_kmalloc : H -> Z -> outcome (H * Z)  (* kmalloc(n) *)
}.

Class PageSourceLaws (H : Type) `{!PageSource H} := {
  ps_lo : Z;
  ps_hi : Z;
  ps_window : 0 < ps_lo /\ ps_hi <= 2 ^ 52;
  (** [ps_inv h P]: consistent, with exactly the pages [P] handed out. *)
  ps_inv : H -> gset Z -> Prop;
  ps_alloc_ok h P : ps_inv h P ->
    exists h' p, ps_alloc h = Ok (h', p) /\
      ((p = 0 /\ ps_inv h' P) \/
       ((p ∉ P) /\ ps_lo <= p < ps_hi /\ p mod 4096 = 0 /\ ps_inv h' ({[p]} ∪ P)));
  ps_free_ok h P p : ps_inv h P -> p ∈ P ->
    exists h', ps_free h p = Ok h' /\ ps_inv h' (P ∖ {[p]});
  ps_kmalloc_ok h P n : ps_inv h P -> 0 < n < 2 ^ 52 ->
    (exists h' p, ps_kmalloc h n = Ok (h', p) /\ p <> 0 /\ ps_inv h' P) \/
    exists m, ps_kmalloc h n = Panic m
}.

(** ** Accounting: the counters and the frame type map of paging.c *)

Inductive ir0_mm_frame_type_t :=
| IR0_MM_FRAME_UNKNOWN | IR0_MM_FRAME_USER | IR0_MM_FRAME_PT | IR0_MM_FRAME_KERNEL.

#[export] Instance frame_type_eq_dec : EqDecision ir0_mm_frame_type_t.
Proof. solve_decision. Defined.

Inductive fase43_oom_class_t :=
| FASE43_OOM_BOOT_FATAL | FASE43_OOM_KERNEL_FATAL | FASE43_OOM_USER_RECOVERABLE.

(** The static [uint64_t] counters. *)
Inductive counter :=
| root_created | root_freed | level1_created | level1_freed | level2_created | level2_freed
| level3_created | level3_freed | leaf_created | leaf_freed
| frame_user_alloc | frame_user_free | frame_pt_alloc | frame_pt_free
| frame_kernel_alloc | frame_kernel_free
| oom_boot_fatal | oom_kernel_fatal | oom_user_recoverable.

#[export] Instance counter_eq_dec : EqDecision counter.
Proof. solve_decision. Defined.

(** The state of the file: live tables, frame contents, the kernel heap, the
    frame allocator, the accounting, CR3 and the pinned kernel root. *)
Record pg_state (H : Type) := PgState {
  tabs : gmap Z (list Z);
  ram : gmap Z (list Z);
  kheap : H;
  pmm : pmm_state;
  ftypes : option (list ir0_mm_frame_type_t);
  counts : counter -> Z;
  cr3 : Z;
  paging_kernel_root : Z
}.
Arguments PgState {H}.
Arguments tabs {H}. Arguments ram {H}. Arguments kheap {H}. Arguments pmm {H}.
Arguments ftypes {H}. Arguments counts {H}. Arguments cr3 {H}. Arguments paging_kernel_root {H}.

Section state.
Context {H : Type}.
Implicit Types s : pg_state H.

Definition set_tabs (t : gmap Z (list Z)) s : pg_state H :=
  PgState t (ram s) (kheap s) (pmm s) (ftypes s) (counts s) (cr3 s) (paging_kernel_root s).
Definition set_ram (r : gmap Z (list Z)) s : pg_state H :=
  PgState (tabs s) r (kheap s) (pmm s) (ftypes s) (counts s) (cr3 s) (paging_kernel_root s).
Definition set_kheap (h : H) s : pg_state H :=
  PgState (tabs s) (ram s) h (pmm s) (ftypes s) (counts s) (cr3 s) (paging_kernel_root s).
Definition set_pmm (p : pmm_state) s : pg_state H :=
  PgState (tabs s) (ram s) (kheap s) p (ftypes s) (counts s) (cr3 s) (paging_kernel_root s).
Definition set_acct (f : option (list ir0_mm_frame_type_t)) (c : counter -> Z) s : pg_state H :=
  PgState (tabs s) (ram s) (kheap s) (pmm s) f c (cr3 s) (paging_kernel_root s).
Definition set_cr3 (r : Z) s : pg_state H :=
  PgState (tabs s) (ram s) (kheap s) (pmm s) (ftypes s) (counts s) r (paging_kernel_root s).
Definition set_kernel_root (r : Z) s : pg_state H :=
  PgState (tabs s) (ram s) (kheap s) (pmm s) (ftypes s) (counts s) (cr3 s) r.

(** [counter++] on a [uint64_t]. *)
Definition bump (c : counter) s : pg_state H :=
  set_acct (ftypes s) (fun d => if decide (d = c) then u64 (counts s d + 1) else counts s d) s.

(** Loads and stores of one entry. *)
Definition load_entry s (a : Z) (i : nat) : outcome Z :=
  t ← or_ub (tabs s !! a); or_ub (t !! i).
Definition store_entry s (a : Z) (i : nat) (e : Z) : outcome (pg_state H) :=
  t ← or_ub (tabs s !! a);
  if decide (i < length t)%nat then Ok (set_tabs (<[a := <[i := e]> t]> (tabs s)) s) else UB.
End state.

(** ** Operations *)

Section ops.
Context {H : Type} `{!PageSource H}.
(** What the code reads of [current_process]. *)
Context (cur : option proc_view).
Implicit Types s : pg_state H.

Definition paging_classify_oom : fase43_oom_class_t :=
  match cur with
  | Some p => if pv_user_mode p then FASE43_OOM_USER_RECOVERABLE else FASE43_OOM_KERNEL_FATAL
  | None => FASE43_OOM_BOOT_FATAL
  end.

Definition paging_fase43_note_oom s (cls : fase43_oom_class_t) : pg_state H :=
  match cls with
  | FASE43_OOM_BOOT_FATAL => bump oom_boot_fatal s
  | FASE43_OOM_KERNEL_FATAL => bump oom_kernel_fatal s
  | FASE43_OOM_USER_RECOVERABLE => bump oom_user_recoverable s
  end.

(** The type map is allocated on first use; [kmalloc] panics when it cannot. *)
Definition ir0_mm_frame_type_ensure s : outcome (pg_state H * Z) :=
  match ftypes s with
  | Some _ => Ok (s, 0)
  | None =>
      let total_frames := match pmm_stats (pmm s) with Some (t, _, _) => t | None => 0 end in
      if decide (total_frames = 0) then Ok (s, -1) else
      '(h, p) ← ps_kmalloc (kheap s) total_frames;
      let s := set_kheap h s in
      if decide (p = 0) then Ok (s, -1) else
      Ok (set_acct (Some (replicate (Z.to_nat total_frames) IR0_MM_FRAME_UNKNOWN)) (counts s) s, 0)
  end.

Definition ir0_mm_frame_index s (phys_addr : Z) : Z :=
  if decide (phys_addr < mem_start (pmm s) \/ mem_end (pmm s) <= phys_addr) then -1
  else (phys_addr - mem_start (pmm s)) / PAGE_SIZE_4KB.

Definition ir0_mm_get_frame_type s (phys_addr : Z) : outcome (pg_state H * ir0_mm_frame_type_t) :=
  '(s, r) ← ir0_mm_frame_type_ensure s;
  if decide (r <> 0) then Ok (s, IR0_MM_FRAME_UNKNOWN) else
  let idx := ir0_mm_frame_index s phys_addr in
  match ftypes s with
  | Some m =>
      if decide (idx < 0 \/ Z.of_nat (length m) <= idx) then Ok (s, IR0_MM_FRAME_UNKNOWN)
      else t ← or_ub (m !! Z.to_nat idx); Ok (s, t)
  | None => UB
  end.

Definition ir0_mm_set_frame_type s (phys_addr : Z) (t : ir0_mm_frame_type_t) : outcome (pg_state H) :=
  '(s, r) ← ir0_mm_frame_type_ensure s;
  if decide (r <> 0) then Ok s else
  let idx := ir0_mm_frame_index s phys_addr in
  match ftypes s with
  | Some m =>
      if decide (idx < 0 \/ Z.of_nat (length m) <= idx) then Ok s
      else Ok (set_acct (Some (<[Z.to_nat idx := t]> m)) (counts s) s)
  | None => UB
  end.

Definition page_table_is_empty s (table : Z) : outcome bool :=
  t ← or_ub (tabs s !! table);
  if decide (length t = 512%nat) then Ok (forallb (fun e => negb (mm_pte_present e)) t) else UB.

Definition ir0_mm_free_table_frame s (frame : Z) (level : nat) : outcome (pg_state H) :=
  if decide (frame = 0) then Ok s else
  let s := match level with
           | 1%nat => bump level1_freed s
           | 2%nat => bump level2_freed s
           | 3%nat => bump level3_freed s
           | _ => s
           end in
  s ← ir0_mm_set_frame_type s frame IR0_MM_FRAME_UNKNOWN;
  let s := bump frame_pt_free s in
  h ← ps_free (kheap s) frame;
  Ok (set_tabs (delete frame (tabs s)) (set_kheap h s)).

Definition paging_entry_pfn (e : Z) : Z := mm_pte_phys e.
Definition paging_entry_large (e : Z) : bool := mm_pte_large e.

(** NULL is 0. *)
Definition paging_entry_table (e : Z) : Z :=
  if mm_pte_present e then if paging_entry_large e then 0 else paging_entry_pfn e else 0.

(** The result and what is stored through [flags_out]. *)
Definition is_page_mapped_in_directory s (root virt_addr : Z) : outcome (Z * option Z) :=
  if decide (root = 0) then Ok (-1, None) else
  let '(i0, i1, i2, i3) := mm_va_indices virt_addr in
  e0 ← load_entry s root i0;
  if negb (mm_pte_present e0) then Ok (0, None) else
  if paging_entry_large e0 then Ok (1, Some (Z.land e0 0xFFF)) else
  let level1_table := paging_entry_table e0 in
  if decide (level1_table = 0) then Ok (0, None) else
  e1 ← load_entry s level1_table i1;
  if negb (mm_pte_present e1) then Ok (0, None) else
  if paging_entry_large e1 then Ok (1, Some (Z.land e1 0xFFF)) else
  let level2_table := paging_entry_table e1 in
  if decide (level2_table = 0) then Ok (0, None) else
  e2 ← load_entry s level2_table i2;
  if negb (mm_pte_present e2) then Ok (0, None) else
  if paging_entry_large e2 then Ok (1, Some (Z.land e2 0xFFF)) else
  let level3_table := paging_entry_table e2 in
  if decide (level3_table = 0) then Ok (0, None) else
  e3 ← load_entry s level3_table i3;
  if negb (mm_pte_present e3) then Ok (0, None) else
  Ok (1, Some (Z.land e3 0xFFF)).

(** The pointer to the leaf entry, or NULL. *)
Definition paging_get_pte s (root vaddr : Z) : outcome (option (Z * nat)) :=
  if decide (root = 0) then Ok None else
  let '(i0, i1, i2, i3) := mm_va_indices vaddr in
  e0 ← load_entry s root i0;
  if negb (mm_pte_present e0) then Ok None else
  if paging_entry_large e0 then Ok None else
  let level1_table := paging_entry_table e0 in
  if decide (level1_table = 0) then Ok None else
  e1 ← load_entry s level1_table i1;
  if negb (mm_pte_present e1) then Ok None else
  if paging_entry_large e1 then Ok None else
  let level2_table := paging_entry_table e1 in
  if decide (level2_table = 0) then Ok None else
  e2 ← load_entry s level2_table i2;
  if negb (mm_pte_present e2) then Ok None else
  if paging_entry_large e2 then Ok None else
  let level3_table := paging_entry_table e2 in
  if decide (level3_table = 0) then Ok None else
  Ok (Some (level3_table, i3)).

Definition get_existing_table s (table : Z) (index : nat) : outcome Z :=
  e ← load_entry s table index;
  if negb (mm_pte_present e) then Ok 0 else
  if paging_entry_large e then Ok 0 else Ok (paging_entry_table e).

Definition alloc_page_table s (level : nat) : outcome (pg_state H * Z) :=
  '(h, page) ← ps_alloc (kheap s);
  let s := set_kheap h s in
  if decide (page = 0) then Ok (paging_fase43_note_oom s paging_classify_oom, 0) else
  let s := set_tabs (<[page := replicate 512 0]> (tabs s)) s in
  let s := match level with
           | 1%nat => bump level1_created s
           | 2%nat => bump level2_created s
           | 3%nat => bump level3_created s
           | _ => s
           end in
  s ← ir0_mm_set_frame_type s page IR0_MM_FRAME_PT;
  Ok (bump frame_pt_alloc s, page).

(** The 512 entries a 2 MiB leaf is split into. *)
Definition split_entry (level2_entry : Z) (i : nat) : Z :=
  let pa := u64 (paging_entry_pfn level2_entry + Z.of_nat i * PAGE_SIZE_4KB) in
  if decide (PMM_PHYS_BASE <= pa) then 0
  else mm_make_leaf_pte pa PAGE_RW (negb (flag_set level2_entry PAGE_NX)).

Definition paging_split_large_level2_leaf s (level2_table : Z) (index : nat) : outcome (pg_state H * Z) :=
  if decide (level2_table = 0) then Ok (s, -1) else
  level2_entry ← load_entry s level2_table index;
  if negb (mm_pte_present level2_entry) || negb (paging_entry_large level2_entry) then Ok (s, -1) else
  '(s, pt_phys) ← alloc_page_table s 3;
  if decide (pt_phys = 0) then Ok (s, -1) else
  let s := set_tabs (<[pt_phys := map (split_entry level2_entry) (seq 0 512)]> (tabs s)) s in
  s ← store_entry s level2_table index (mm_make_table_pte pt_phys false);
  Ok (s, 0).

Definition paging_ensure_4k_leaf s (root vaddr : Z) : outcome (pg_state H * Z) :=
  if decide (root = 0) then Ok (s, -1) else
  let '(i0, i1, i2, _) := mm_va_indices vaddr in
  e0 ← load_entry s root i0;
  if negb (mm_pte_present e0) || paging_entry_large e0 then Ok (s, -1) else
  let level1_table := paging_entry_table e0 in
  if decide (level1_table = 0) then Ok (s, -1) else
  e1 ← load_entry s level1_table i1;
  if negb (mm_pte_present e1) || paging_entry_large e1 then Ok (s, -1) else
  let level2_table := paging_entry_table e1 in
  if decide (level2_table = 0) then Ok (s, -1) else
  e2 ← load_entry s level2_table i2;
  if negb (mm_pte_present e2) then Ok (s, -1) else
  if paging_entry_large e2 then
    '(s, r) ← paging_split_large_level2_leaf s level2_table i2;
    if decide (r <> 0) then Ok (s, -1) else Ok (s, 0)
  else Ok (s, 0).

Definition get_or_create_table s (parent : Z) (index : nat) (create : bool) (map_flags : Z) (level : nat)
    : outcome (pg_state H * Z) :=
  let user := flag_set map_flags PAGE_USER in
  e ← load_entry s parent index;
  if negb (mm_pte_present e) then
    if negb create then Ok (s, 0) else
    '(s, phys_addr) ← alloc_page_table s level;
    if decide (phys_addr = 0) then Ok (s, 0) else
    s ← store_entry s parent index (mm_make_table_pte phys_addr user);
    Ok (s, paging_entry_pfn phys_addr)
  else
    '(s, r) ←
      (if paging_entry_large e then
         if negb create || negb (bool_decide (level = 3%nat)) then Ok (s, -1)
         else paging_split_large_level2_leaf s parent index
       else Ok (s, 0));
    if decide (r <> 0) then Ok (s, 0) else
    e ← load_entry s parent index;
    s ← (if user then store_entry s parent index (mm_pte_set_user e) else Ok s);
    e ← load_entry s parent index;
    Ok (s, paging_entry_table e).

Definition map_page_in_directory s (root virt_addr phys_addr flags : Z) : outcome (pg_state H * Z) :=
  if decide (root = 0) then Ok (s, -1) else
  let '(i0, i1, i2, i3) := mm_va_indices virt_addr in
  '(s, level1_table) ← get_or_create_table s root i0 true flags 1;
  if decide (level1_table = 0) then Ok (s, -1) else
  '(s, level2_table) ← get_or_create_table s level1_table i1 true flags 2;
  if decide (level2_table = 0) then Ok (s, -1) else
  '(s, level3_table) ← get_or_create_table s level2_table i2 true flags 3;
  if decide (level3_table = 0) then Ok (s, -1) else
  old ← load_entry s level3_table i3;
  let entry := mm_make_leaf_pte phys_addr (Z.land flags 0xFFF) (flag_set flags PAGE_EXEC) in
  s ← store_entry s level3_table i3 entry;
  let s := if mm_pte_present old then s else bump leaf_created s in
  if flag_set flags PAGE_USER then
    s ← ir0_mm_set_frame_type s phys_addr IR0_MM_FRAME_USER;
    Ok (bump frame_user_alloc s, 0)
  else
    s ← ir0_mm_set_frame_type s phys_addr IR0_MM_FRAME_KERNEL;
    Ok (bump frame_kernel_alloc s, 0).

(** The frame leaves with its mapping; device pages are not the PMM's. *)
Definition unmap_release_frame s (phys_frame : Z) : outcome (pg_state H) :=
  if decide (phys_frame <> 0 /\ mem_start (pmm s) <= phys_frame < mem_end (pmm s)) then
    s ← (if decide (pmm_frame_refcount (pmm s) phys_frame = 1) then
           '(s, freed_type) ← ir0_mm_get_frame_type s phys_frame;
           let s := match freed_type with
                    | IR0_MM_FRAME_USER => bump frame_user_free s
                    | IR0_MM_FRAME_KERNEL => bump frame_kernel_free s
                    | IR0_MM_FRAME_PT => bump frame_pt_free s
                    | IR0_MM_FRAME_UNKNOWN => s
                    end in
           ir0_mm_set_frame_type s phys_frame IR0_MM_FRAME_UNKNOWN
         else Ok s);
    p ← pmm_frame_put (pmm s) phys_frame;
    Ok (set_pmm p s)
  else Ok s.

(** One of the three collapses after an unmap: an empty table is unlinked from
    its parent slot and freed. *)
Definition collapse_table s (table parent : Z) (index : nat) (level : nat) : outcome (pg_state H) :=
  empty ← page_table_is_empty s table;
  if (empty : bool) then
    e ← load_entry s parent index;
    s ← store_entry s parent index 0;
    ir0_mm_free_table_frame s (paging_entry_pfn e) level
  else Ok s.

Definition unmap_page_in_directory s (root virt_addr : Z) : outcome (pg_state H * Z) :=
  if decide (root = 0) then Ok (s, -1) else
  let '(i0, i1, i2, i3) := mm_va_indices virt_addr in
  e0 ← load_entry s root i0;
  if negb (mm_pte_present e0) then Ok (s, -1) else
  if paging_entry_large e0 then Ok (s, -1) else
  let level1_table := paging_entry_table e0 in
  if decide (level1_table = 0) then Ok (s, -1) else
  e1 ← load_entry s level1_table i1;
  if negb (mm_pte_present e1) then Ok (s, -1) else
  if paging_entry_large e1 then Ok (s, -1) else
  let level2_table := paging_entry_table e1 in
  if decide (level2_table = 0) then Ok (s, -1) else
  e2 ← load_entry s level2_table i2;
  if negb (mm_pte_present e2) then Ok (s, -1) else
  if paging_entry_large e2 then Ok (s, -1) else
  let level3_table := paging_entry_table e2 in
  if decide (level3_table = 0) then Ok (s, -1) else
  e3 ← load_entry s level3_table i3;
  if negb (mm_pte_present e3) then Ok (s, -1) else
  let phys_frame := paging_entry_pfn e3 in
  s ← store_entry s level3_table i3 0;
  let s := bump leaf_freed s in
  s ← unmap_release_frame s phys_frame;
  s ← collapse_table s level3_table level2_table i2 3;
  s ← collapse_table s level2_table level1_table i1 2;
  s ← (if decide (i0 < 256)%nat then collapse_table s level1_table root i0 1 else Ok s);
  Ok (s, 0).

(** The same in the current address space. *)
Definition map_page s (virt_addr phys_addr flags : Z) : outcome (pg_state H * Z) :=
  map_page_in_directory s (cr3 s) virt_addr phys_addr flags.
Definition unmap_page s (virt_addr : Z) : outcome (pg_state H * Z) := unmap_page_in_directory s (cr3 s) virt_addr.
Definition map_user_page s (virtual_addr physical_addr flags : Z) : outcome (pg_state H * Z) :=
  map_page s virtual_addr physical_addr (Z.lor flags PAGE_USER).

(** A [for] loop over indices. *)
Fixpoint each (f : nat -> pg_state H -> outcome (pg_state H)) (l : list nat) s : outcome (pg_state H) :=
  match l with [] => Ok s | i :: l => s ← f i s; each f l s end.

(** ** Supervisor identity maps *)

Definition map_supervisor_identity_2mb_step s (root va : Z) : outcome (pg_state H * Z) :=
  let '(i0, i1, i2, _) := mm_va_indices va in
  '(s, level1_table) ← get_or_create_table s root i0 true 0 1;
  if decide (level1_table = 0) then Ok (s, -1) else
  '(s, level2_table) ← get_or_create_table s level1_table i1 true 0 2;
  if decide (level2_table = 0) then Ok (s, -1) else
  e ← load_entry s level2_table i2;
  if mm_pte_present e then
    if paging_entry_large e then Ok (s, 0) else Ok (s, -1)
  else
    s ← store_entry s level2_table i2 (mm_make_leaf_pte va (Z.lor PAGE_RW PAGE_SIZE_2MB_FLAG) true);
    Ok (bump leaf_created s, 0).

Fixpoint identity_2mb_loop (fuel : nat) s (root va e : Z) : outcome (pg_state H * Z) :=
  match fuel with
  | O => Ok (s, 0)
  | S k => if decide (va < e) then
             '(s, r) ← map_supervisor_identity_2mb_step s root va;
             if decide (r <> 0) then Ok (s, -1) else identity_2mb_loop k s root (u64 (va + PAGE_SIZE_2MB)) e
           else Ok (s, 0)
  end.

Definition map_supervisor_identity_2mb s (root start e : Z) : outcome (pg_state H * Z) :=
  if decide (root = 0 \/ e <= start) then Ok (s, -1) else
  let start := Z.land (u64 (start + PAGE_SIZE_2MB - 1)) (Z.lnot (PAGE_SIZE_2MB - 1)) in
  let e := Z.land e (Z.lnot (PAGE_SIZE_2MB - 1)) in
  if decide (e <= start) then Ok (s, 0)
  else identity_2mb_loop (Z.to_nat ((e - start) / PAGE_SIZE_2MB)) s root start e.

(** ** Tearing down the user half *)

(** Innermost loop body: one second-level slot. *)
Definition reclaim_slot3 (level2_table : Z) (i2 : nat) s : outcome (pg_state H) :=
  level2_entry ← load_entry s level2_table i2;
  if negb (mm_pte_present level2_entry) then Ok s else
  if paging_entry_large level2_entry then store_entry s level2_table i2 0 else
  let level3_table := paging_entry_table level2_entry in
  if decide (level3_table = 0) then Ok s else
  t ← or_ub (tabs s !! level3_table);
  s ← (if decide (length t = 512%nat) then Ok (set_tabs (<[level3_table := replicate 512 0]> (tabs s)) s) else UB);
  s ← store_entry s level2_table i2 0;
  ir0_mm_free_table_frame s (paging_entry_pfn level2_entry) 3.

Definition reclaim_slot2 (level1_table : Z) (i3 : nat) s : outcome (pg_state H) :=
  level1_entry ← load_entry s level1_table i3;
  if negb (mm_pte_present level1_entry) || paging_entry_large level1_entry then Ok s else
  let level2_table := paging_entry_table level1_entry in
  if decide (level2_table = 0) then Ok s else
  s ← each (reclaim_slot3 level2_table) (seq 0 512) s;
  s ← store_entry s level1_table i3 0;
  ir0_mm_free_table_frame s (paging_entry_pfn level1_entry) 2.

Definition reclaim_slot1 (root : Z) (i4 : nat) s : outcome (pg_state H) :=
  root_entry ← load_entry s root i4;
  if negb (mm_pte_present root_entry) || paging_entry_large root_entry then Ok s else
  let level1_table := paging_entry_table root_entry in
  if decide (level1_table = 0) then Ok s else
  s ← each (reclaim_slot2 level1_table) (seq 0 512) s;
  s ← store_entry s root i4 0;
  ir0_mm_free_table_frame s (paging_entry_pfn root_entry) 1.

Definition paging_reclaim_user_tables s (root : Z) : outcome (pg_state H) :=
  if decide (root = 0) then Ok s else each (reclaim_slot1 root) (seq 0 mm_user_root_slots) s.

Definition paging_ir0_mm_note_root_created s (root_phys : Z) : outcome (pg_state H) :=
  let s := bump root_created s in
  s ← ir0_mm_set_frame_type s root_phys IR0_MM_FRAME_PT;
  Ok (bump frame_pt_alloc s).

Definition paging_ir0_mm_note_root_freed s (root_phys : Z) : outcome (pg_state H) :=
  let s := bump root_freed s in
  s ← ir0_mm_set_frame_type s root_phys IR0_MM_FRAME_UNKNOWN;
  Ok (bump frame_pt_free s).
End ops.

(** ** Descriptor arithmetic *)

Lemma testbit_pow2 k n : 0 <= k -> Z.testbit (2 ^ k) n = bool_decide (n = k).
Proof.
  intros Hk. rewrite Z.pow2_bits_eqb by done. destruct (Z.eqb_spec k n) as [->|].
  - by rewrite bool_decide_eq_true_2.
  - by rewrite bool_decide_eq_false_2.
Qed.

Lemma testbit_low n : 0 <= n -> Z.testbit 0xFFF n = bool_decide (n < 12).
Proof.
  intros Hn. change 0xFFF with (Z.ones 12). case_bool_decide.
  - by apply Z.ones_spec_low.
  - apply Z.ones_spec_high. lia.
Qed.

Lemma testbit_pfn n : 0 <= n -> Z.testbit X86_PTE_PFN_MASK n = bool_decide (12 <= n < 52).
Proof.
  intros Hn. change X86_PTE_PFN_MASK with (Z.lxor (Z.ones 52) (Z.ones 12)). rewrite Z.lxor_spec.
  case_bool_decide.
  - rewrite Z.ones_spec_low, Z.ones_spec_high by lia. done.
  - destruct (decide (n < 12)); [by rewrite !Z.ones_spec_low by lia|].
    by rewrite !Z.ones_spec_high by lia.
Qed.

Lemma flag_set_bit v k : 0 <= k -> flag_set v (2 ^ k) = Z.testbit v k.
Proof. intros Hk. unfold flag_set. rewrite <- Z.shiftl_1_l. by apply truthy_land_bit. Qed.

Lemma present_bit e : mm_pte_present e = Z.testbit e 0.
Proof. exact (flag_set_bit e 0 ltac:(lia)). Qed.
Lemma large_bit e : mm_pte_large e = Z.testbit e 0 && Z.testbit e 7.
Proof. unfold mm_pte_large. rewrite present_bit. f_equal. exact (flag_set_bit e 7 ltac:(lia)). Qed.

(** Bits of the encodings. *)
Lemma leaf_pte_bit phys fl ex n : 0 <= n ->
  Z.testbit (mm_make_leaf_pte phys fl ex) n =
  if decide (n = 0) then true
  else if decide (n < 12) then Z.testbit fl n
  else if decide (n < 52) then Z.testbit phys n
  else bool_decide (n = 63) && negb ex.
Proof.
  intros Hn. unfold mm_make_leaf_pte. cbv zeta. change X86_PTE_NX with (2 ^ 63). change X86_PTE_PRESENT with (2 ^ 0).
  assert (Hc : Z.testbit (Z.lor (Z.lor (Z.land phys X86_PTE_PFN_MASK) (Z.land fl 0xFFF)) (2 ^ 0)) n =
    if decide (n = 0) then true else if decide (n < 12) then Z.testbit fl n
    else if decide (n < 52) then Z.testbit phys n else false).
  { rewrite !Z.lor_spec, !Z.land_spec, testbit_pfn, testbit_low, testbit_pow2 by lia.
    repeat case_bool_decide; repeat case_decide; try lia;
      rewrite ?andb_true_r, ?andb_false_r, ?orb_false_r, ?orb_true_r; done. }
  destruct ex; [rewrite Hc|rewrite Z.lor_spec, Hc, testbit_pow2 by lia];
    repeat case_decide; rewrite ?andb_false_r, ?andb_true_r; try done;
    case_bool_decide; try lia; by rewrite ?orb_false_r.
Qed.

Lemma table_pte_bit phys us n : 0 <= n ->
  Z.testbit (mm_make_table_pte phys us) n =
  if decide (n = 0) then true else if decide (n = 1) then true else if decide (n = 2) then us
  else if decide (12 <= n < 52) then Z.testbit phys n else false.
Proof.
  intros Hn. unfold mm_make_table_pte. cbv zeta. change X86_PTE_USER with (2 ^ 2).
  change X86_PTE_PRESENT with (2 ^ 0). change X86_PTE_RW with (2 ^ 1).
  destruct us; rewrite !Z.lor_spec, !Z.land_spec, testbit_pfn, !testbit_pow2 by lia;
    repeat case_bool_decide; repeat case_decide; try lia;
    rewrite ?andb_true_r, ?andb_false_r, ?orb_false_r, ?orb_true_r; done.
Qed.

Lemma phys_bit e n : 0 <= n ->
  Z.testbit (mm_pte_phys e) n = bool_decide (12 <= n < 52) && Z.testbit e n.
Proof. intros Hn. unfold mm_pte_phys. by rewrite Z.land_spec, testbit_pfn, andb_comm. Qed.

Lemma leaf_pte_present phys fl ex : mm_pte_present (mm_make_leaf_pte phys fl ex) = true.
Proof. by rewrite present_bit, leaf_pte_bit. Qed.

Lemma leaf_pte_phys phys fl ex : mm_pte_phys (mm_make_leaf_pte phys fl ex) = mm_pte_phys phys.
Proof.
  apply Z.bits_inj'. intros n Hn. rewrite !phys_bit, leaf_pte_bit by done.
  case_bool_decide; [|done]. by repeat case_decide; try lia.
Qed.

(** A frame address is its own page-frame field. *)
Lemma phys_id p : 0 <= p < 2 ^ 52 -> p mod 4096 = 0 -> mm_pte_phys p = p.
Proof.
  intros Hp Hm. apply Z.bits_inj'. intros n Hn. rewrite phys_bit by done.
  case_bool_decide as Hd; [done|]. simpl. symmetry.
  destruct (decide (n < 12)) as [Hl|Hl].
  - replace p with (p / 4096 * 2 ^ 12) by (pose proof (Z.div_mod p 4096); lia).
    by apply Z.mul_pow2_bits_low.
  - assert (Hz : p < 2 ^ n) by (pose proof (Z.pow_le_mono_r 2 52 n); lia).
    destruct (decide (p = 0)) as [->|]; [apply Z.bits_0|].
    apply Z.bits_above_log2; [lia|]. apply Z.log2_lt_pow2; lia.
Qed.

Lemma phys_idem e : mm_pte_phys (mm_pte_phys e) = mm_pte_phys e.
Proof.
  apply Z.bits_inj'. intros n Hn. rewrite !phys_bit by done. by case_bool_decide.
Qed.

Arguments mm_make_table_pte : simpl never.
Arguments mm_make_leaf_pte : simpl never.
Arguments mm_pte_present : simpl never.
Arguments mm_pte_large : simpl never.
Arguments split_entry : simpl never.

(** A table entry is one a walk descends through. *)
Definition is_table (e : Z) : bool := mm_pte_present e && negb (mm_pte_large e).

Lemma is_table_bits e : is_table e = Z.testbit e 0 && negb (Z.testbit e 7).
Proof. unfold is_table. rewrite large_bit, present_bit. by destruct (Z.testbit e 0). Qed.

Lemma table_pte_spec phys us : is_table (mm_make_table_pte phys us) = true /\
  mm_pte_phys (mm_make_table_pte phys us) = mm_pte_phys phys.
Proof.
  split; [by rewrite is_table_bits, !table_pte_bit|].
  apply Z.bits_inj'. intros n Hn. rewrite !phys_bit, table_pte_bit by done.
  case_bool_decide; [|done]. by repeat case_decide; try lia.
Qed.

Lemma set_user_spec e : mm_pte_present (mm_pte_set_user e) = mm_pte_present e /\
  mm_pte_large (mm_pte_set_user e) = mm_pte_large e /\ mm_pte_phys (mm_pte_set_user e) = mm_pte_phys e.
Proof.
  assert (Hb : forall n, 0 <= n -> n <> 2 -> Z.testbit (mm_pte_set_user e) n = Z.testbit e n).
  { intros n Hn H2. unfold mm_pte_set_user. change X86_PTE_USER with (2 ^ 2).
    rewrite Z.lor_spec, testbit_pow2, bool_decide_eq_false_2 by lia. apply orb_false_r. }
  splits.
  - rewrite !present_bit. by apply Hb.
  - rewrite !large_bit, !Hb by lia. done.
  - apply Z.bits_inj'. intros n Hn. rewrite !phys_bit by done. case_bool_decide; [|done].
    by rewrite Hb by lia.
Qed.

Lemma entry_table_spec e :
  paging_entry_table e = if is_table e then mm_pte_phys e else 0.
Proof.
  unfold paging_entry_table, paging_entry_large, paging_entry_pfn, is_table.
  destruct (mm_pte_present e), (mm_pte_large e); done.
Qed.

(** ** Trees of tables

    [walk] follows a path of indices through table entries; [resolve] is the
    translation of a path: the leaf entry it ends in and how many levels above
    the last table it was found (0 for a 4 KiB page, 1 for a 2 MiB leaf). *)

Definition entry (T : gmap Z (list Z)) (a : Z) (i : nat) : option Z := t ← T !! a; t !! i.

Fixpoint walk (T : gmap Z (list Z)) (a : Z) (p : list nat) : option Z :=
  match p with
  | [] => Some a
  | i :: p => match entry T a i with
              | Some e => if is_table e then walk T (mm_pte_phys e) p else None
              | None => None
              end
  end.

Definition leaf_here (e : Z) (p : list nat) : bool :=
  match p with [] => true | _ => mm_pte_large e end.

Fixpoint resolve (T : gmap Z (list Z)) (a : Z) (p : list nat) : option (Z * nat) :=
  match p with
  | [] => None
  | i :: p => match entry T a i with
              | Some e => if negb (mm_pte_present e) then None
                          else if leaf_here e p then Some (e, length p)
                          else resolve T (mm_pte_phys e) p
              | None => None
              end
  end.

Definition upd (T : gmap Z (list Z)) (a : Z) (i : nat) (e : Z) : gmap Z (list Z) :=
  alter (fun t => <[i := e]> t) a T.

Section trees.
Implicit Types (T : gmap Z (list Z)) (a b r : Z) (p q : list nat).

Lemma entry_upd T a i e b j :
  entry (upd T a i e) b j =
  if decide (b = a /\ j = i) then (fun _ => e) <$> entry T a i else entry T b j.
Proof.
  unfold entry, upd. destruct (decide (b = a)) as [->|Hne].
  - rewrite lookup_alter_eq. destruct (decide (a = a /\ j = i)) as [[_ ->]|Hd]; (destruct (T !! a) as [t|]; [|done]); cbn.
    + destruct (decide (i < length t)%nat).
      * rewrite list_lookup_insert_eq by done. destruct (t !! i) eqn:E; [done|]. apply lookup_ge_None in E. lia.
      * rewrite list_insert_ge by lia. rewrite lookup_ge_None_2 by lia. done.
    + rewrite list_lookup_insert_ne; [done|]. naive_solver.
  - rewrite lookup_alter_ne by done. rewrite decide_False by naive_solver. done.
Qed.

Lemma entry_insert_ne T a t b i : b <> a -> entry (<[a := t]> T) b i = entry T b i.
Proof. intros. unfold entry. by rewrite lookup_insert_ne. Qed.

Lemma entry_delete_ne T a b i : b <> a -> entry (delete a T) b i = entry T b i.
Proof. intros. unfold entry. by rewrite lookup_delete_ne. Qed.

Lemma walk_app T a p q : walk T a (p ++ q) = b ← walk T a p; walk T b q.
Proof.
  revert a; induction p as [|i p IH]; intros a; simpl; [done|].
  destruct (entry T a i) as [e|]; [|done]. destruct (is_table e); [apply IH|done].
Qed.

Lemma walk_snoc T a p i : walk T a (p ++ [i]) =
  match walk T a p with
  | Some b => match entry T b i with Some e => if is_table e then Some (mm_pte_phys e) else None | None => None end
  | None => None
  end.
Proof. rewrite walk_app. destruct (walk T a p); done. Qed.

Lemma walk_snoc_Some T a p i c : walk T a (p ++ [i]) = Some c <->
  exists b e, walk T a p = Some b /\ entry T b i = Some e /\ is_table e = true /\ c = mm_pte_phys e.
Proof.
  rewrite walk_snoc. split.
  - intros Hc. destruct (walk T a p) as [b|]; [|done]. destruct (entry T b i) as [e|] eqn:E; [|done].
    destruct (is_table e) eqn:Ee; [|done]. injection Hc as <-. eauto 10.
  - intros (b & e & -> & -> & -> & ->). done.
Qed.

(** A path resolves below a table exactly as from that table. *)
Lemma resolve_app T a p b q : walk T a p = Some b -> q <> [] -> resolve T a (p ++ q) = resolve T b q.
Proof.
  revert a; induction p as [|i p IH]; intros a Hw Hq; simpl in *; [by simplify_eq|].
  destruct (entry T a i) as [e|]; [|done]. destruct (is_table e) eqn:Et; [|done].
  unfold is_table in Et. apply andb_true_iff in Et as [-> El]. apply negb_true_iff in El. simpl.
  unfold leaf_here. rewrite El. destruct (p ++ q) eqn:Epq; [by destruct p, q|].
  by apply IH.
Qed.

(** A 4 KiB leaf sits in a table at the path before its last index. *)
Lemma resolve_small T a p i e : resolve T a (p ++ [i]) = Some (e, 0%nat) ->
  exists b, walk T a p = Some b /\ entry T b i = Some e /\ mm_pte_present e = true.
Proof.
  revert a; induction p as [|j p IH]; intros a Hr; simpl in *.
  - destruct (entry T a i) as [e'|] eqn:E; [|done]. destruct (mm_pte_present e') eqn:Ep; simpl in Hr; [|done].
    injection Hr as ->. eauto.
  - destruct (entry T a j) as [e'|]; [|done]. destruct (mm_pte_present e') eqn:Ep; simpl in Hr; [|done].
    unfold leaf_here in Hr. destruct (p ++ [i]) as [|k q] eqn:Eq; [by destruct p|].
    destruct (mm_pte_large e') eqn:El; [by injection Hr|].
    unfold is_table. rewrite Ep, El. simpl. by apply IH.
Qed.

(** Tables that agree on the entries a path visits give it the same meaning. *)
Lemma walk_frame T T' a p :
  (forall q i q' b, p = q ++ i :: q' -> walk T a q = Some b -> entry T' b i = entry T b i) ->
  walk T' a p = walk T a p.
Proof.
  revert a; induction p as [|i p IH]; intros a Hag; simpl; [done|].
  rewrite (Hag [] i p a) by done. destruct (entry T a i) as [e|] eqn:E; [|done].
  destruct (is_table e) eqn:Et; [|done]. apply IH. intros q j q' b -> Hb.
  apply (Hag (i :: q) j q' b); [done|]. simpl. by rewrite E, Et.
Qed.

Lemma resolve_frame T T' a p :
  (forall q i q' b, p = q ++ i :: q' -> walk T a q = Some b -> entry T' b i = entry T b i) ->
  resolve T' a p = resolve T a p.
Proof.
  revert a; induction p as [|i p IH]; intros a Hag; simpl; [done|].
  rewrite (Hag [] i p a) by done. destruct (entry T a i) as [e|] eqn:E; [|done].
  destruct (negb (mm_pte_present e)) eqn:Ep; [done|]. destruct (leaf_here e p) eqn:El; [done|].
  apply IH. intros q j q' b Hp Hb. apply (Hag (i :: q) j q' b); [by rewrite Hp|]. simpl. rewrite E.
  assert (is_table e = true) as ->; [|done].
  unfold is_table. apply negb_false_iff in Ep. rewrite Ep. unfold leaf_here in El.
  destruct p; [done|]. by rewrite El.
Qed.

(** ** Well-formed families of address spaces

    [wf n R T]: from the roots [R], the tables reached through root slots below
    [n] are live 512-entry pages, none is reached twice (within an address
    space or between two), and all but the roots come from the page source's
    window.  With [n = 256] this speaks of the user halves only; the kernel
    halves may share tables. *)
Definition okp (n : nat) (p : list nat) : Prop := match p with [] => True | i :: _ => (i < n)%nat end.

Record wf (lo hi : Z) (n : nat) (R : gset Z) (T : gmap Z (list Z)) : Prop := {
  wf_live r p a : r ∈ R -> okp n p -> (length p <= 3)%nat -> walk T r p = Some a ->
    a <> 0 /\ exists t, T !! a = Some t /\ length t = 512%nat;
  wf_inj r p r' p' a : r ∈ R -> r' ∈ R -> okp n p -> okp n p' -> (length p <= 3)%nat -> (length p' <= 3)%nat ->
    walk T r p = Some a -> walk T r' p' = Some a -> r = r' /\ p = p';
  wf_window r p a : r ∈ R -> okp n p -> p <> [] -> (length p <= 3)%nat -> walk T r p = Some a -> lo <= a < hi
}.

Lemma okp_app n p q : okp n (p ++ q) -> okp n p.
Proof. by destruct p. Qed.

Lemma okp_app_l n p q q' : okp n (p ++ q) -> p <> [] -> okp n (p ++ q').
Proof. by destruct p. Qed.
#[local] Hint Resolve okp_app : core.

Context {lo hi : Z} {n : nat} {R : gset Z} {T : gmap Z (list Z)}.
Hypothesis Hwf : wf lo hi n R T.

Lemma wf_entry r p a i : r ∈ R -> okp n p -> (length p <= 3)%nat -> walk T r p = Some a -> (i < 512)%nat ->
  exists t e, T !! a = Some t /\ length t = 512%nat /\ t !! i = Some e /\ entry T a i = Some e.
Proof.
  intros Hr Ho Hl Hw Hi. destruct (wf_live _ _ _ _ _ Hwf _ _ _ Hr Ho Hl Hw) as (_ & t & Ht & Hlen).
  destruct (lookup_lt_is_Some_2 t i) as [e He]; [lia|].
  exists t, e. splits; auto. unfold entry. by rewrite Ht.
Qed.

(** A change confined to entry [i] of the table at path [p] is seen only by
    paths that go through that entry. *)
Lemma change_off_path T' r p a i r' p' :
  r ∈ R -> r' ∈ R -> okp n p -> (length p <= 3)%nat -> walk T r p = Some a ->
  okp n p' -> (length p' <= 4)%nat -> (r' = r -> ~ (p ++ [i]) `prefix_of` p') ->
  (forall b j, (exists q, okp n q /\ (length q <= 3)%nat /\ walk T r' q = Some b) -> b <> a \/ j <> i -> entry T' b j = entry T b j) ->
  resolve T' r' p' = resolve T r' p' /\ walk T' r' p' = walk T r' p'.
Proof.
  intros Hr Hr' Ho Hl Hw Ho' Hl' Hnp Hag.
  assert (Hstep : forall q j q' b, p' = q ++ j :: q' -> walk T r' q = Some b -> entry T' b j = entry T b j).
  { intros q j q' b -> Hb. rewrite length_app in Hl'. simpl in Hl'. apply okp_app in Ho'.
    apply Hag; [exists q; splits; auto; lia|].
    destruct (decide (b = a)) as [->|]; [|by left]. right. intros ->.
    destruct (wf_inj _ _ _ _ _ Hwf r p r' q a) as [<- <-]; auto; [lia|].
    apply (Hnp eq_refl). exists q'. by rewrite <- app_assoc. }
  split; [by apply resolve_frame|by apply walk_frame].
Qed.

(** Any change that adds at most one path to the family keeps it well formed. *)
Lemma wf_change T' (new : option (Z * list nat * Z)) :
  (forall r p a, r ∈ R -> okp n p -> (length p <= 3)%nat -> walk T' r p = Some a ->
     walk T r p = Some a \/ new = Some (r, p, a)) ->
  (forall r p a t, r ∈ R -> okp n p -> (length p <= 3)%nat -> walk T' r p = Some a -> walk T r p = Some a ->
     T !! a = Some t -> length t = 512%nat -> exists t', T' !! a = Some t' /\ length t' = 512%nat) ->
  (forall r p a, new = Some (r, p, a) -> p <> [] /\ lo <= a < hi /\ a <> 0 /\
     (exists t', T' !! a = Some t' /\ length t' = 512%nat) /\
     forall r' p', r' ∈ R -> okp n p' -> (length p' <= 3)%nat -> walk T r' p' <> Some a) ->
  wf lo hi n R T'.
Proof.
  intros Hold Hkeep Hnew. split.
  - intros r p a Hr Ho Hl Hw. destruct (Hold _ _ _ Hr Ho Hl Hw) as [H|H].
    + destruct (wf_live _ _ _ _ _ Hwf _ _ _ Hr Ho Hl H) as (H0 & t & Ht & Hlen). split; [done|]. eauto.
    + destruct (Hnew _ _ _ H) as (_ & _ & ? & ? & _). auto.
  - intros r p r' p' a Hr Hr' Ho Ho' Hl Hl' Hw Hw'.
    destruct (Hold _ _ _ Hr Ho Hl Hw) as [H|H], (Hold _ _ _ Hr' Ho' Hl' Hw') as [H'|H'].
    + by apply (wf_inj _ _ _ _ _ Hwf r p r' p' a).
    + destruct (Hnew _ _ _ H') as (_ & _ & _ & _ & Hf). by destruct (Hf r p).
    + destruct (Hnew _ _ _ H) as (_ & _ & _ & _ & Hf). by destruct (Hf r' p').
    + rewrite H in H'. by simplify_eq.
  - intros r p a Hr Ho Hp Hl Hw. destruct (Hold _ _ _ Hr Ho Hl Hw) as [H|H].
    + by apply (wf_window _ _ _ _ _ Hwf r p a).
    + by destruct (Hnew _ _ _ H) as (_ & ? & _).
Qed.
End trees.

(** ** Changing one entry of a well-formed family *)

Section change.
Context {lo hi : Z} {n : nat} {R : gset Z} {T T' : gmap Z (list Z)} {r : Z} {p : list nat} {a : Z} {i : nat} {e' : Z}.
Hypothesis Hwf : wf lo hi n R T.
Hypothesis Hr : r ∈ R.
Hypothesis Ho : okp n (p ++ [i]).
Hypothesis Hl : (length p <= 3)%nat.
Hypothesis Hw : walk T r p = Some a.
(** [T'] differs from [T] in entry [i] of the table at [a] only, as far as the
    family sees. *)
Hypothesis Hag : forall r' q b j, r' ∈ R -> okp n q -> (length q <= 3)%nat -> walk T r' q = Some b ->
  b <> a \/ j <> i -> entry T' b j = entry T b j.
Hypothesis He : entry T' a i = Some e'.

Lemma ch_off r' p' : r' ∈ R -> okp n p' -> (length p' <= 4)%nat -> (r' = r -> ~ (p ++ [i]) `prefix_of` p') ->
  resolve T' r' p' = resolve T r' p' /\ walk T' r' p' = walk T r' p'.
Proof.
  intros Hr' Ho' Hl' Hnp. apply (change_off_path Hwf T' r p a i); auto; [by eapply okp_app|].
  intros b j (q & Hq1 & Hq2 & Hq3). by apply (Hag r' q).
Qed.

Lemma ch_here : walk T' r p = Some a.
Proof.
  rewrite <- Hw. apply ch_off; [done|by eapply okp_app|lia|].
  intros _ [q Hq]. apply (f_equal length) in Hq. rewrite !length_app in Hq. simpl in Hq. lia.
Qed.

Lemma ch_on_walk q : walk T' r (p ++ i :: q) = if is_table e' then walk T' (mm_pte_phys e') q else None.
Proof. rewrite walk_app, ch_here. simpl. by rewrite He. Qed.

Lemma ch_on_resolve q : resolve T' r (p ++ i :: q) =
  if negb (mm_pte_present e') then None else if leaf_here e' q then Some (e', length q)
  else resolve T' (mm_pte_phys e') q.
Proof. rewrite (resolve_app _ _ _ a) by first [exact ch_here|done]. simpl. by rewrite He. Qed.

Lemma ch_below b q : walk T r (p ++ [i]) = Some b -> (length p + 1 + length q <= 4)%nat ->
  resolve T' b q = resolve T b q /\ walk T' b q = walk T b q.
Proof.
  intros Hb Hlq.
  assert (Hst : forall q1 j q2 c, q = q1 ++ j :: q2 -> walk T b q1 = Some c -> entry T' c j = entry T c j).
  { intros q1 j q2 c -> Hc. rewrite length_app in Hlq. simpl in Hlq.
    assert (Hp : walk T r ((p ++ [i]) ++ q1) = Some c) by by rewrite walk_app, Hb.
    assert (Hok : okp n ((p ++ [i]) ++ q1)) by (destruct p; done).
    apply (Hag r _ c j Hr Hok); [rewrite !length_app; simpl; lia|done|]. left. intros ->.
    destruct (wf_inj _ _ _ _ _ Hwf r ((p ++ [i]) ++ q1) r p a) as [_ Hpp]; auto;
      [by eapply okp_app|rewrite !length_app; simpl; lia|].
    apply (f_equal length) in Hpp. rewrite !length_app in Hpp. simpl in Hpp. lia. }
  split; [by apply resolve_frame|by apply walk_frame].
Qed.

Lemma prefix_path p' : (p ++ [i]) `prefix_of` p' -> exists q, p' = p ++ i :: q.
Proof. intros [q ->]. exists q. by rewrite <- app_assoc. Qed.

Lemma not_prefix_path p' : (forall q, p' <> p ++ i :: q) -> ~ (p ++ [i]) `prefix_of` p'.
Proof. intros Hn Hp. apply prefix_path in Hp as [q Hq]. by apply (Hn q). Qed.

(** Case analysis of a path against the changed entry. *)
Lemma path_cases r' p' : (r' = r /\ exists q, p' = p ++ i :: q) \/ (r' = r -> ~ (p ++ [i]) `prefix_of` p').
Proof.
  destruct (decide (r' = r)) as [->|Hne]; [|by right].
  destruct (decide ((p ++ [i]) `prefix_of` p')) as [Hp|Hp]; [left|by right].
  split; [done|]. by apply prefix_path.
Qed.

(** Rewriting a table entry with the same target. *)
Lemma retag_spec e : entry T a i = Some e -> is_table e = true -> is_table e' = true ->
  mm_pte_phys e' = mm_pte_phys e ->
  (forall b t, T !! b = Some t -> length t = 512%nat -> exists t', T' !! b = Some t' /\ length t' = 512%nat) ->
  wf lo hi n R T' /\
  (forall r' p', r' ∈ R -> okp n p' -> (length p' <= 3)%nat -> walk T' r' p' = walk T r' p') /\
  ((length p <= 2)%nat -> forall r' p', r' ∈ R -> okp n p' -> length p' = 4%nat -> resolve T' r' p' = resolve T r' p').
Proof.
  intros Hee Ht Ht' Hph Hlen.
  assert (Hb : walk T r (p ++ [i]) = Some (mm_pte_phys e)) by (apply walk_snoc_Some; eauto 10).
  assert (Hwk : forall r' p', r' ∈ R -> okp n p' -> (length p' <= 3)%nat -> walk T' r' p' = walk T r' p').
  { intros r' p' Hr' Ho' Hl'. destruct (path_cases r' p') as [(-> & q & ->)|Hnp].
    - rewrite length_app in Hl'. simpl in Hl'. rewrite ch_on_walk, Ht', Hph.
      rewrite walk_app, Hw. simpl. rewrite Hee, Ht. apply ch_below; [done|lia].
    - apply ch_off; [done..|lia|done]. }
  split; [|split; [done|]].
  - apply (wf_change Hwf T' None); [|by intros; eapply Hlen|done].
    intros r' p' c Hr' Ho' Hl' Hc. left. by rewrite <- Hwk.
  - intros Hl2 r' p' Hr' Ho' Hl'. destruct (path_cases r' p') as [(-> & q & ->)|Hnp].
    + rewrite length_app in Hl'. simpl in Hl'. rewrite ch_on_resolve.
      rewrite (resolve_app _ _ _ a) by done. simpl. rewrite Hee.
      unfold is_table in Ht, Ht'. apply andb_true_iff in Ht as [-> Hx], Ht' as [-> Hx'].
      apply negb_true_iff in Hx, Hx'. unfold leaf_here. destruct q as [|j q]; [simpl in Hl'; lia|].
      rewrite Hx, Hx', Hph. simpl negb. cbv iota. apply ch_below; [done|simpl in *; lia].
    + apply ch_off; [done..|lia|done].
Qed.

(** Overwriting an entry with one a walk does not descend through. *)
Lemma cut_spec : is_table e' = false ->
  (forall r' q b t, r' ∈ R -> okp n q -> (length q <= 3)%nat -> walk T r' q = Some b ->
     (r' = r -> ~ (p ++ [i]) `prefix_of` q) -> T !! b = Some t -> length t = 512%nat ->
     exists t', T' !! b = Some t' /\ length t' = 512%nat) ->
  wf lo hi n R T' /\
  (forall r' p', r' ∈ R -> okp n p' -> (length p' <= 4)%nat ->
     walk T' r' p' = if decide (r' = r /\ (p ++ [i]) `prefix_of` p') then None else walk T r' p').
Proof.
  intros Ht Hlen.
  assert (Hwk : forall r' p', r' ∈ R -> okp n p' -> (length p' <= 4)%nat ->
     walk T' r' p' = if decide (r' = r /\ (p ++ [i]) `prefix_of` p') then None else walk T r' p').
  { intros r' p' Hr' Ho' Hl'. destruct (path_cases r' p') as [(-> & q & ->)|Hnp].
    - rewrite decide_True; [by rewrite ch_on_walk, Ht|]. split; [done|]. exists q. by rewrite <- app_assoc.
    - rewrite decide_False by naive_solver. apply ch_off; auto. }
  split; [|done]. apply (wf_change Hwf T' None); [| |done].
  - intros r' p' c Hr' Ho' Hl' Hc. rewrite Hwk in Hc by (auto; lia). case_decide; [done|]. by left.
  - intros r' p' c t Hr' Ho' Hl' Hc Hc' Hct. rewrite Hwk in Hc by (auto; lia).
    case_decide as Hd; [done|]. apply (Hlen r' p'); auto.
Qed.

(** Linking a fresh table [b] under the entry. *)
Lemma link_spec b t0 : is_table e' = true -> mm_pte_phys e' = b -> T' !! b = Some t0 -> length t0 = 512%nat ->
  lo <= b < hi -> b <> 0 -> (length p <= 2)%nat ->
  (forall e, entry T a i = Some e -> is_table e = false) ->
  (length p < 2 -> Forall (fun x => mm_pte_present x = false) t0)%nat ->
  T !! b = None ->
  (forall c t, T !! c = Some t -> length t = 512%nat -> exists t', T' !! c = Some t' /\ length t' = 512%nat) ->
  wf lo hi n R T' /\ walk T' r (p ++ [i]) = Some b /\
  (forall r' p', r' ∈ R -> okp n p' -> (length p' <= 3)%nat ->
     walk T' r' p' = if decide (r' = r /\ p' = p ++ [i]) then Some b else walk T r' p') /\
  (forall q, resolve T' r (p ++ i :: q) = if decide (q = []) then Some (e', 0%nat) else resolve T' b q).
Proof.
  intros Ht Hph Hb Hlb Hwin Hb0 Hl2 Hold Hz Hnone Hlen.
  assert (Htop : walk T' r (p ++ [i]) = Some b) by (rewrite ch_on_walk, Ht, Hph; done).
  assert (Hwk : forall r' p', r' ∈ R -> okp n p' -> (length p' <= 3)%nat ->
     walk T' r' p' = if decide (r' = r /\ p' = p ++ [i]) then Some b else walk T r' p').
  { intros r' p' Hr' Ho' Hl'. destruct (path_cases r' p') as [(-> & q & ->)|Hnp].
    - destruct q as [|j q]; [by rewrite decide_True|].
      rewrite decide_False by (intros [_ Hx]; apply app_inv_head in Hx; done).
      rewrite length_app in Hl'. simpl in Hl'. rewrite ch_on_walk, Ht, Hph. simpl.
      assert (Hold' : walk T r (p ++ i :: j :: q) = None).
      { rewrite walk_app, Hw. simpl. destruct (entry T a i) as [e|] eqn:E; [|done]. by rewrite (Hold e). }
      rewrite Hold'. unfold entry. rewrite Hb. simpl. destruct (t0 !! j) as [x|] eqn:Ex; [|done].
      unfold is_table. rewrite Forall_lookup in Hz. rewrite (Hz ltac:(lia) j x Ex). done.
    - rewrite decide_False by (intros [-> ->]; by apply (Hnp eq_refl)). apply ch_off; [done..|lia|done]. }
  splits; auto.
  - apply (wf_change Hwf T' (Some (r, p ++ [i], b))).
    + intros r' p' c Hr' Ho' Hl' Hc. rewrite Hwk in Hc by done.
      case_decide as Hd; [destruct Hd as [-> ->]; right; congruence|by left].
    + intros r' p' c t Hr' Ho' Hl' _ _. apply Hlen.
    + intros r' p' c [= <- <- <-]. splits; try done; try lia; [by destruct p|eauto|].
      intros r' p' Hr' Ho' Hl' Hc. destruct (wf_live _ _ _ _ _ Hwf _ _ _ Hr' Ho' Hl' Hc) as (_ & t & Htt & _).
      congruence.
  - intros q. rewrite ch_on_resolve, Hph. unfold is_table in Ht. apply andb_true_iff in Ht as [-> Hx].
    apply negb_true_iff in Hx. destruct q; simpl; [done|]. by rewrite Hx.
Qed.
End change.

(** ** The operations on well-formed states *)

Section specs.
Context {H : Type} `{!PageSource H, !PageSourceLaws H} (cur : option proc_view).
Implicit Types s : pg_state H.

(** The live tables that came from the page source. *)
Definition window_tabs (T : gmap Z (list Z)) : gset Z := filter (fun a => ps_lo <= a < ps_hi) (dom T).

(** The pinned kernel root, once there is one, is a live table outside the
    page source's window (the boot tables are static). *)
Definition kroot_ok (T : gmap Z (list Z)) (k : Z) : Prop :=
  k = 0 \/ (exists t, T !! k = Some t /\ length t = 512%nat) /\ ~ (ps_lo <= k < ps_hi).

Record mm_ok (n : nat) (R : gset Z) s : Prop := {
  ok_wf : wf ps_lo ps_hi n R (tabs s);
  ok_heap : ps_inv (kheap s) (window_tabs (tabs s));
  ok_types : is_Some (ftypes s);
  ok_kroot : kroot_ok (tabs s) (paging_kernel_root s)
}.

(** The part of the state table operations leave alone. *)
Definition rest s := (ram s, pmm s, cr3 s, paging_kernel_root s).

Record acct_only s s' : Prop := {
  ao_tabs : tabs s' = tabs s;
  ao_heap : kheap s' = kheap s;
  ao_rest : rest s' = rest s;
  ao_types : is_Some (ftypes s) -> is_Some (ftypes s')
}.

#[global] Instance acct_only_refl : Reflexive acct_only.
Proof. by constructor. Qed.
#[global] Instance acct_only_trans : Transitive acct_only.
Proof. intros ? ? ? [] []. constructor; try congruence. auto. Qed.

Lemma bump_acct c s : acct_only s (bump c s).
Proof. done. Qed.

Lemma note_oom_acct s cls : acct_only s (paging_fase43_note_oom s cls).
Proof. by destruct cls. Qed.

Lemma set_frame_type_acct s a t : is_Some (ftypes s) ->
  exists s', ir0_mm_set_frame_type s a t = Ok s' /\ acct_only s s'.
Proof.
  intros [m Hm]. unfold ir0_mm_set_frame_type, ir0_mm_frame_type_ensure. rewrite Hm.
  cbn [mbind outcome_bind]. rewrite decide_False by lia. cbv zeta. rewrite Hm.
  destruct (decide _); eexists; (split; [reflexivity|]); constructor; simpl; eauto.
Qed.

Lemma get_frame_type_ready s a : is_Some (ftypes s) -> exists t, ir0_mm_get_frame_type s a = Ok (s, t).
Proof.
  intros [m Hm]. unfold ir0_mm_get_frame_type, ir0_mm_frame_type_ensure. rewrite Hm.
  cbn [mbind outcome_bind]. rewrite decide_False by lia. cbv zeta. rewrite Hm.
  destruct (decide _) as [|Hn]; [eauto|]. destruct (lookup_lt_is_Some_2 m (Z.to_nat (ir0_mm_frame_index s a))) as [t Ht]; [lia|].
  rewrite Ht. cbn. eauto.
Qed.

Lemma acct_only_ok n R s s' : mm_ok n R s -> acct_only s s' -> mm_ok n R s'.
Proof.
  intros [] [Et Eh Er Hty]. constructor; [by rewrite Et|by rewrite Et, Eh|auto|].
  rewrite Et. unfold rest in Er. injection Er as _ _ _ ->. done.
Qed.

Lemma load_entry_eq s a i : load_entry s a i = or_ub (entry (tabs s) a i).
Proof. unfold load_entry, entry. by destruct (tabs s !! a). Qed.

Lemma store_entry_eq s a i e e' : entry (tabs s) a i = Some e ->
  store_entry s a i e' = Ok (set_tabs (upd (tabs s) a i e') s).
Proof.
  unfold entry, store_entry, upd. destruct (tabs s !! a) as [t|] eqn:E; cbn; [|done]. intros Hi.
  apply lookup_lt_Some in Hi. rewrite decide_True by done. do 2 f_equal.
  apply map_eq. intros b. destruct (decide (b = a)) as [->|Hne].
  - by rewrite lookup_insert_eq, lookup_alter_eq, E.
  - by rewrite lookup_insert_ne, lookup_alter_ne by done.
Qed.

Lemma window_tabs_upd T a i e : window_tabs (upd T a i e) = window_tabs T.
Proof. unfold window_tabs, upd. by rewrite dom_alter_L. Qed.

Lemma window_tabs_insert T a t : ps_lo <= a < ps_hi -> window_tabs (<[a := t]> T) = {[a]} ∪ window_tabs T.
Proof. intros Ha. unfold window_tabs. rewrite dom_insert_L. set_solver. Qed.

Lemma window_tabs_delete T a : ps_lo <= a < ps_hi -> window_tabs (delete a T) = window_tabs T ∖ {[a]}.
Proof. intros Ha. unfold window_tabs. rewrite dom_delete_L. set_solver. Qed.

Lemma upd_length T a i e b t : upd T a i e !! b = Some t ->
  exists t0, T !! b = Some t0 /\ length t0 = length t.
Proof.
  unfold upd. destruct (decide (b = a)) as [->|Hne].
  - rewrite lookup_alter_eq. intros Ht. apply fmap_Some in Ht as (t0 & -> & ->).
    exists t0. by rewrite length_insert.
  - rewrite lookup_alter_ne by done. eauto.
Qed.

Lemma upd_keeps T a i e b t : T !! b = Some t -> length t = 512%nat ->
  exists t', upd T a i e !! b = Some t' /\ length t' = 512%nat.
Proof.
  intros Ht Hlt. unfold upd. destruct (decide (b = a)) as [->|Hne].
  - rewrite lookup_alter_eq, Ht. eexists. split; [done|]. by rewrite length_insert.
  - rewrite lookup_alter_ne by done. eauto.
Qed.

Lemma kroot_upd T k a i e : kroot_ok T k -> kroot_ok (upd T a i e) k.
Proof. intros [->|[(t & Ht & Hl) Hw]]; [by left|]. right. split; [by eapply upd_keeps|done]. Qed.

Lemma kroot_insert T k b t0 : ps_lo <= b < ps_hi -> kroot_ok T k -> kroot_ok (<[b := t0]> T) k.
Proof.
  intros Hb [->|[(t & Ht & Hl) Hw]]; [by left|]. right. split; [|done]. exists t.
  rewrite lookup_insert_ne; [done|]. by intros ->.
Qed.

Lemma kroot_delete T k b : ps_lo <= b < ps_hi -> kroot_ok T k -> kroot_ok (delete b T) k.
Proof.
  intros Hb [->|[(t & Ht & Hl) Hw]]; [by left|]. right. split; [|done]. exists t.
  rewrite lookup_delete_ne; [done|]. by intros ->.
Qed.

Lemma rest_kroot s s' : rest s' = rest s -> paging_kernel_root s' = paging_kernel_root s.
Proof. unfold rest. congruence. Qed.

Lemma alloc_page_table_spec n R s lv : mm_ok n R s ->
  exists s' p, alloc_page_table cur s lv = Ok (s', p) /\ rest s' = rest s /\ is_Some (ftypes s') /\
    ps_inv (kheap s') (window_tabs (tabs s')) /\
    ((p = 0 /\ tabs s' = tabs s /\ ps_alloc (kheap s) = Ok (kheap s', 0)) \/
     (ps_lo <= p < ps_hi /\ p mod 4096 = 0 /\ tabs s !! p = None /\ tabs s' = <[p := replicate 512 0]> (tabs s))).
Proof.
  intros [Hwf Hh Ht _]. unfold alloc_page_table.
  destruct (ps_alloc_ok _ _ Hh) as (h' & p & Ea & [(-> & Hh')|(Hnp & Hwin & Hmod & Hh')]); rewrite Ea; cbn [mbind outcome_bind].
  - rewrite decide_True by done. eexists _, _. split; [reflexivity|].
    destruct (note_oom_acct (set_kheap h' s) (paging_classify_oom cur)) as [-> Hkh -> Hty]. rewrite Hkh. splits; auto.
  - pose proof ps_window. rewrite decide_False by lia.
    set (s1 := match lv with O => _ | _ => _ end).
    assert (H1 : acct_only (set_tabs (<[p := replicate 512 0]> (tabs s)) (set_kheap h' s)) s1)
      by (unfold s1; destruct lv as [|[|[|[|?]]]]; done).
    destruct (set_frame_type_acct s1 p IR0_MM_FRAME_PT) as (s2 & E2 & H2); [by apply H1|].
    rewrite E2. cbn [mbind outcome_bind]. eexists _, _. split; [reflexivity|].
    assert (H3 : acct_only (set_tabs (<[p := replicate 512 0]> (tabs s)) (set_kheap h' s)) (bump frame_pt_alloc s2))
      by (etrans; [exact H1|]; etrans; [exact H2|]; apply bump_acct).
    destruct H3 as [-> -> -> Hty]. simpl. splits; auto.
    + by rewrite window_tabs_insert.
    + right. splits; auto; try lia. destruct (tabs s !! p) eqn:E; [|done].
      destruct Hnp. unfold window_tabs. apply elem_of_filter. split; [lia|]. by apply elem_of_dom.
Qed.
Lemma insert_zero_upd T b t0 a i e c :
  T !! b = None -> b <> a ->
  (exists t, T !! c = Some t /\ length t = 512%nat) -> exists t', upd (<[b := t0]> T) a i e !! c = Some t' /\ length t' = 512%nat.
Proof.
  intros Hb Hab (t & Ht & Hlt). eapply upd_keeps; [|exact Hlt]. rewrite lookup_insert_ne by congruence. done.
Qed.

Section at_entry.
Context (n : nat) (R : gset Z) (s : pg_state H) (r : Z) (p : list nat) (a : Z) (i : nat).
Hypothesis Hok : mm_ok n R s.
Hypothesis Hr : r ∈ R.
Hypothesis Ho : okp n (p ++ [i]).
Hypothesis Hi : (i < 512)%nat.
Hypothesis Hl : (length p <= 2)%nat.
Hypothesis Hw : walk (tabs s) r p = Some a.

Lemma at_entry_live : a <> 0 /\ exists e, entry (tabs s) a i = Some e.
Proof.
  split; [by apply (wf_live _ _ _ _ _ (ok_wf _ _ _ Hok) r p a); [|eapply okp_app| lia|]|].
  destruct (wf_entry (ok_wf _ _ _ Hok) r p a i) as (? & e & _ & _ & _ & ?); [done|by eapply okp_app|lia|done|done|eauto].
Qed.

(** Linking a fresh page [b] with contents [t0] below the entry. *)
Lemma link_page b t0 us e :
  entry (tabs s) a i = Some e -> is_table e = false ->
  ps_lo <= b < ps_hi -> b mod 4096 = 0 -> tabs s !! b = None -> length t0 = 512%nat ->
  (length p < 2 -> Forall (fun x => mm_pte_present x = false) t0)%nat ->
  let T' := upd (<[b := t0]> (tabs s)) a i (mm_make_table_pte b us) in
  wf ps_lo ps_hi n R T' /\ walk T' r (p ++ [i]) = Some b /\ walk T' r p = Some a /\
  entry T' a i = Some (mm_make_table_pte b us) /\
  (forall r' p', r' ∈ R -> okp n p' -> length p' = 4%nat ->
     (r' = r /\ exists j q, p' = p ++ i :: j :: q /\ resolve T' r' p' = resolve T' b (j :: q)) \/
     resolve T' r' p' = resolve (tabs s) r' p' /\ ~ (r' = r /\ (p ++ [i]) `prefix_of` p')) /\
  (forall j q, resolve T' b (j :: q) = match t0 !! j with
     | Some x => if negb (mm_pte_present x) then None else if leaf_here x q then Some (x, length q)
                 else resolve T' (mm_pte_phys x) q
     | None => None end) /\
  (forall r' p', r' ∈ R -> okp n p' -> (length p' <= 3)%nat ->
     (forall c, walk (tabs s) r' p' = Some c -> walk T' r' p' = Some c) /\ (r' <> r -> walk T' r' p' = walk (tabs s) r' p')).
Proof.
  intros He Ht Hwin Hmod Hb Hlt Hz T'. pose proof (ok_wf _ _ _ Hok) as Hwf. pose proof ps_window as Hpw.
  destruct (table_pte_spec b us) as [Ht1 Ht2]. rewrite (phys_id b) in Ht2 by lia.
  assert (Hab : b <> a) by (intros ->; unfold entry in He; by rewrite Hb in He).
  assert (Hag : forall r' q c j, r' ∈ R -> okp n q -> (length q <= 3)%nat -> walk (tabs s) r' q = Some c ->
     c <> a \/ j <> i -> entry T' c j = entry (tabs s) c j).
  { intros r' q c j Hr' Hq1 Hq2 Hq Hne. unfold T'. rewrite entry_upd, decide_False by naive_solver.
    apply entry_insert_ne. intros ->. destruct (wf_live _ _ _ _ _ Hwf _ _ _ Hr' Hq1 Hq2 Hq) as (_ & t & Hx & _). congruence. }
  assert (HeT : entry T' a i = Some (mm_make_table_pte b us)).
  { unfold T'. rewrite entry_upd, decide_True by done. rewrite entry_insert_ne by congruence. by rewrite He. }
  assert (HbT : T' !! b = Some t0) by (unfold T', upd; rewrite lookup_alter_ne by done; by rewrite lookup_insert_eq).
  assert (Hl3 : (length p <= 3)%nat) by lia.
  destruct (link_spec Hwf Hr Ho Hl3 Hw Hag HeT b t0) as (H1 & H2 & H3 & H4); auto; [lia|by intros e0 He0; simplify_eq| |].
  { intros c t Hc Hlc. eapply insert_zero_upd; eauto. }
  splits; auto.
  - by apply (ch_here Hwf Hr Ho Hl3 Hw Hag).
  - intros r' p' Hr' Ho' Hl'. destruct (path_cases (r := r) (p := p) (i := i) r' p') as [(-> & q & ->)|Hnp].
    + left. split; [done|]. rewrite length_app in Hl'. simpl in Hl'. destruct q as [|j q]; [simpl in Hl'; lia|].
      exists j, q. split; [done|]. by rewrite H4, decide_False.
    + right. split; [|naive_solver]. apply (ch_off Hwf Hr Ho Hl3 Hw Hag); auto. lia.
  - intros j q. simpl. unfold entry. rewrite HbT. done.
  - intros r' p' Hr' Ho' Hl'. rewrite H3 by done. split.
    + intros c Hc. case_decide as Hd; [|done]. destruct Hd as [-> ->].
      apply walk_snoc_Some in Hc as (a' & e'' & Hw' & He'' & Ht'' & _). congruence.
    + intros Hne. rewrite decide_False; [done|]. naive_solver.
Qed.

(** The user bit on a table entry changes no walk and no translation. *)
Lemma user_bit_page e (us : bool) : entry (tabs s) a i = Some e -> is_table e = true ->
  let s' := if us then set_tabs (upd (tabs s) a i (mm_pte_set_user e)) s else s in
  (if us then store_entry s a i (mm_pte_set_user e) else Ok s) = Ok s' /\ mm_ok n R s' /\ rest s' = rest s /\
  (exists e', entry (tabs s') a i = Some e' /\ is_table e' = true /\ mm_pte_phys e' = mm_pte_phys e) /\
  walk (tabs s') r (p ++ [i]) = Some (mm_pte_phys e) /\
  (forall r' p', r' ∈ R -> okp n p' -> length p' = 4%nat -> resolve (tabs s') r' p' = resolve (tabs s) r' p') /\
  (forall r' p', r' ∈ R -> okp n p' -> (length p' <= 3)%nat -> walk (tabs s') r' p' = walk (tabs s) r' p').
Proof.
  intros He Ht. assert (Hwi : walk (tabs s) r (p ++ [i]) = Some (mm_pte_phys e)) by (apply walk_snoc_Some; eauto 10).
  destruct us; [|simpl; splits; eauto]. intros s'.
  destruct (set_user_spec e) as (Hu1 & Hu2 & Hu3).
  assert (Ht' : is_table (mm_pte_set_user e) = true) by (unfold is_table; by rewrite Hu1, Hu2).
  assert (HeT : entry (tabs s') a i = Some (mm_pte_set_user e)) by (simpl; rewrite entry_upd, decide_True by done; by rewrite He).
  assert (Hl3 : (length p <= 3)%nat) by lia.
  assert (Hag : forall r' q c j, r' ∈ R -> okp n q -> (length q <= 3)%nat -> walk (tabs s) r' q = Some c ->
     c <> a \/ j <> i -> entry (tabs s') c j = entry (tabs s) c j).
  { intros r' q c j _ _ _ _ Hne. simpl. rewrite entry_upd. by rewrite decide_False by naive_solver. }
  destruct (retag_spec (ok_wf _ _ _ Hok) Hr Ho Hl3 Hw Hag HeT e) as (H1 & H2 & H3); auto.
  { intros b t Hb Hlb. simpl. by eapply upd_keeps. }
  splits; auto.
  - simpl. by apply store_entry_eq with e.
  - split; [done| |exact (ok_types _ _ _ Hok)|apply kroot_upd, (ok_kroot _ _ _ Hok)].
    simpl. rewrite window_tabs_upd. exact (ok_heap _ _ _ Hok).
  - eauto.
  - rewrite H2; auto. rewrite length_app. simpl. lia.
Qed.
End at_entry.
(** What a path through a split 2 MiB leaf translates to afterwards. *)
Definition broken (v : option (Z * nat)) (j : nat) : option (Z * nat) :=
  match v with
  | Some (e, 1%nat) => if mm_pte_present (split_entry e j) then Some (split_entry e j, 0%nat) else None
  | _ => v
  end.

(** The path of a 4 KiB page below root slots less than [n]. *)
Definition page_path (n : nat) (p : list nat) : Prop :=
  okp n p /\ length p = 4%nat /\ Forall (fun i => i < 512)%nat p.

(** [T'] translates every path as [T] does, except that a 2 MiB leaf at path
    [P] of [r] is split. *)
Definition breaks (n : nat) (R : gset Z) (T T' : gmap Z (list Z)) (r : Z) (P : list nat) : Prop :=
  forall r' p', r' ∈ R -> page_path n p' ->
    resolve T' r' p' =
    if decide (r' = r /\ P `prefix_of` p' /\ length P = 3%nat) then broken (resolve T r' p') (p' !!! 3%nat)
    else resolve T r' p'.

(** Tables are only added, and only below [r]. *)
Definition grows (n : nat) (R : gset Z) (T T' : gmap Z (list Z)) (r : Z) : Prop :=
  forall r' p, r' ∈ R -> okp n p -> (length p <= 3)%nat ->
    (forall b, walk T r' p = Some b -> walk T' r' p = Some b) /\ (r' <> r -> walk T' r' p = walk T r' p).

Lemma grows_same n R T T' r :
  (forall r' p, r' ∈ R -> okp n p -> (length p <= 3)%nat -> walk T' r' p = walk T r' p) -> grows n R T T' r.
Proof. intros Hs r' p Hr Ho Hl. by rewrite Hs. Qed.

Lemma grows_trans n R T1 T2 T3 r : grows n R T1 T2 r -> grows n R T2 T3 r -> grows n R T1 T3 r.
Proof.
  intros H1 H2 r' p Hr Ho Hl. destruct (H1 r' p Hr Ho Hl) as [A1 B1], (H2 r' p Hr Ho Hl) as [A2 B2].
  split; [auto|]. intros Hne. by rewrite B2, B1.
Qed.

Lemma breaks_refl n R T r P : (forall q, length P = 3%nat -> length q = 4%nat -> P `prefix_of` q ->
    broken (resolve T r q) (q !!! 3%nat) = resolve T r q) -> breaks n R T T r P.
Proof.
  intros Hs r' p' Hr (Ho & Hl & _). case_decide as Hd; [|done]. destruct Hd as (-> & HP & HPl). symmetry. by apply Hs.
Qed.

(** Below an existing third-level table there is nothing to split. *)
Lemma broken_table T r P q b : walk T r P = Some b -> length P = 3%nat -> length q = 4%nat -> P `prefix_of` q ->
  broken (resolve T r q) (q !!! 3%nat) = resolve T r q.
Proof.
  intros Hw Hl Hlq [q' ->]. rewrite length_app in Hlq. destruct q' as [|j [|? ?]]; simpl in Hlq; try lia.
  rewrite (resolve_app _ _ _ b) by done. simpl. destruct (entry T b j) as [e|]; [|done].
  by destruct (mm_pte_present e).
Qed.

Lemma broken_unmapped T r p a i e q :
  walk T r p = Some a -> entry T a i = Some e -> mm_pte_present e = false -> (p ++ [i]) `prefix_of` q ->
  resolve T r q = None.
Proof.
  intros Hw He Hp [q' ->]. rewrite <- app_assoc. rewrite (resolve_app _ _ _ a) by done.
  simpl. by rewrite He, Hp.
Qed.

Lemma split_entries_lookup e j : (j < 512)%nat -> map (split_entry e) (seq 0 512) !! j = Some (split_entry e j).
Proof. intros Hj. rewrite list_lookup_fmap, lookup_seq_lt by done. done. Qed.

Section at_entry_ops.
Context (n : nat) (R : gset Z) (s : pg_state H) (r : Z) (p : list nat) (a : Z) (i : nat).
Hypothesis Hok : mm_ok n R s.
Hypothesis Hr : r ∈ R.
Hypothesis Ho : okp n (p ++ [i]).
Hypothesis Hi : (i < 512)%nat.
Hypothesis Hl : (length p <= 2)%nat.
Hypothesis Hw : walk (tabs s) r p = Some a.

Lemma alloc_failed_ok s' : rest s' = rest s -> is_Some (ftypes s') -> ps_inv (kheap s') (window_tabs (tabs s')) ->
  tabs s' = tabs s -> mm_ok n R s'.
Proof.
  intros H0 H1 H2 H3. split; auto; rewrite H3; [exact (ok_wf _ _ _ Hok)|].
  rewrite (rest_kroot _ _ H0). exact (ok_kroot _ _ _ Hok).
Qed.

Lemma split_large_spec e : length p = 2%nat -> entry (tabs s) a i = Some e -> mm_pte_large e = true ->
  exists s' rc, paging_split_large_level2_leaf cur s a i = Ok (s', rc) /\ rest s' = rest s /\ mm_ok n R s' /\
    ((rc = -1 /\ tabs s' = tabs s /\ ps_alloc (kheap s) = Ok (kheap s', 0)) \/
     (rc = 0 /\ exists b, ps_lo <= b < ps_hi /\ b mod 4096 = 0 /\
        walk (tabs s') r p = Some a /\ entry (tabs s') a i = Some (mm_make_table_pte b false) /\
        breaks n R (tabs s) (tabs s') r (p ++ [i]) /\ grows n R (tabs s) (tabs s') r)).
Proof.
  intros Hl2 He Hlg. destruct (at_entry_live n R s r p a i) as [Ha0 _]; auto.
  assert (Hpr : mm_pte_present e = true) by (unfold mm_pte_large in Hlg; by apply andb_true_iff in Hlg as [? _]).
  unfold paging_split_large_level2_leaf. rewrite decide_False by done. rewrite load_entry_eq, He. cbn [mbind outcome_bind or_ub].
  unfold paging_entry_large. rewrite Hlg, Hpr. simpl orb. cbv iota.
  destruct (alloc_page_table_spec n R s 3 Hok) as (s1 & b & -> & Hre & Hty & Hhp & [(-> & Ht1 & Hf)|(Hwin & Hmod & Hnone & Ht1)]);
    cbn [mbind outcome_bind].
  { rewrite decide_True by done. exists s1, (-1). splits; [done|done|by apply alloc_failed_ok|left; auto]. }
  pose proof ps_window. rewrite decide_False by lia.
  assert (Hab : b <> a) by (intros ->; unfold entry in He; by rewrite Hnone in He).
  assert (Ht0 : forall j, (j < 512)%nat -> map (split_entry e) (seq 0 512) !! j = Some (split_entry e j))
    by apply split_entries_lookup.
  assert (Hlt0 : length (map (split_entry e) (seq 0 512)) = 512%nat) by by rewrite length_map, length_seq.
  revert Ht0 Hlt0. generalize (map (split_entry e) (seq 0 512)) as t0. intros t0 Ht0 Hlt0.
  destruct (link_page n R s r p a i Hok Hr Ho Hi Hl Hw b t0 false e)
    as (H1 & H2 & H3 & H4 & H5 & H6 & H7);
    [done|unfold is_table; by rewrite Hlg, andb_false_r|done|done|done|done|lia|].
  set (s2 := set_tabs _ s1).
  assert (Ht2 : tabs s2 = <[b := t0]> (tabs s)) by (unfold s2; simpl; by rewrite Ht1, insert_insert_eq).
  rewrite (store_entry_eq s2 a i e) by (rewrite Ht2, entry_insert_ne by congruence; exact He).
  cbn [mbind outcome_bind]. rewrite Ht2. eexists _, 0. split; [reflexivity|]. split; [exact Hre|].
  split; [split; simpl; auto; [|rewrite (rest_kroot _ _ Hre); by apply kroot_upd, kroot_insert, (ok_kroot _ _ _ Hok)]|].
  { rewrite window_tabs_upd, window_tabs_insert by done. by rewrite Ht1, window_tabs_insert in Hhp by done. }
  right. split; [done|]. exists b. simpl. splits; auto; try lia. intros r' p' Hr' (Ho' & Hl' & Hlt).
  destruct (H5 r' p' Hr' Ho' Hl') as [(-> & j & q & -> & Hres)|[Hres Hnp]].
  - rewrite length_app in Hl'. simpl in Hl'. destruct q; [|simpl in Hl'; lia].
    rewrite decide_True by (rewrite length_app; simpl; splits; [done| |lia]; exists [j]; by rewrite <- app_assoc).
    rewrite (lookup_total_app_r p) by lia. replace (3 - length p)%nat with 1%nat by lia. simpl (_ !!! _).
    rewrite Hres, H6. rewrite (resolve_app _ _ _ a) by done. simpl. rewrite He, Hpr, Hlg. simpl.
    apply Forall_app in Hlt as [_ Hlt]. do 2 (apply Forall_cons in Hlt as [? Hlt]).
    rewrite Ht0 by done. simpl. by destruct (mm_pte_present (split_entry e j)).
  - rewrite decide_False by naive_solver. done.
Qed.
(** Why no table could be produced: a 1 GiB leaf in the way, or no memory. *)
Definition no_table (T : gmap Z (list Z)) (h h' : H) : Prop :=
  (exists e, entry T a i = Some e /\ mm_pte_large e = true /\ (length p < 2)%nat) \/
  ps_alloc h = Ok (h', 0).

Lemma get_or_create_spec fl lv : lv = S (length p) ->
  exists s' b, get_or_create_table cur s a i true fl lv = Ok (s', b) /\
    rest s' = rest s /\ mm_ok n R s' /\
    ((b = 0 /\ tabs s' = tabs s /\ no_table (tabs s) (kheap s) (kheap s')) \/
     (b <> 0 /\ walk (tabs s') r (p ++ [i]) = Some b /\ breaks n R (tabs s) (tabs s') r (p ++ [i]) /\
      grows n R (tabs s) (tabs s') r)).
Proof.
  intros ->. destruct (at_entry_live n R s r p a i) as [Ha0 [e He]]; auto. pose proof ps_window as Hpw.
  unfold get_or_create_table. rewrite load_entry_eq, He. cbn [mbind outcome_bind or_ub].
  set (us := flag_set fl PAGE_USER). destruct (mm_pte_present e) eqn:Hpr; simpl negb; cbv iota.
  2: { (* not present: a fresh table *)
    destruct (alloc_page_table_spec n R s (S (length p)) Hok)
      as (s1 & b & -> & Hre & Hty & Hhp & [(-> & Ht1 & Hf)|(Hwin & Hmod & Hnone & Ht1)]); cbn [mbind outcome_bind].
    { rewrite decide_True by done. exists s1, 0. splits; [done|done|by apply alloc_failed_ok|left].
      splits; [done|done|by right]. }
    rewrite decide_False by lia.
    assert (Hab : b <> a) by (intros ->; unfold entry in He; by rewrite Hnone in He).
    assert (Hz1 : length (replicate 512 0) = 512%nat) by apply length_replicate.
    assert (Hz2 : forall j x, replicate 512 0 !! j = Some x -> mm_pte_present x = false)
      by (intros j x Hx; apply lookup_replicate in Hx as [-> _]; done).
    revert Ht1 Hz1 Hz2. generalize (replicate 512 0) as t0. intros t0 Ht1 Hz1 Hz2.
    destruct (link_page n R s r p a i Hok Hr Ho Hi Hl Hw b t0 us e)
      as (H1 & H2 & H3 & H4 & H5 & H6 & H7); [done|unfold is_table; by rewrite Hpr|done|done|done|
        done|intros _; apply Forall_lookup; eauto|].
    rewrite (store_entry_eq s1 a i e) by (rewrite Ht1, entry_insert_ne by congruence; exact He).
    cbn [mbind outcome_bind]. eexists _, _. split; [reflexivity|]. split; [exact Hre|].
    unfold paging_entry_pfn. rewrite phys_id by lia. rewrite Ht1. split.
    { split; cbn [tabs set_tabs kheap paging_kernel_root]; auto; [by rewrite window_tabs_upd, <- Ht1|].
      rewrite (rest_kroot _ _ Hre). by apply kroot_upd, kroot_insert, (ok_kroot _ _ _ Hok). }
    right. splits; [lia|done| |exact H7]. intros r' p' Hr' (Ho' & Hl' & Hlt). cbn [tabs set_tabs].
    destruct (H5 r' p' Hr' Ho' Hl') as [(-> & j & q & -> & Hres)|[Hres Hnp]].
    + assert (Hn : resolve (tabs s) r (p ++ i :: j :: q) = None).
      { eapply broken_unmapped; eauto. exists (j :: q). by rewrite <- app_assoc. }
      rewrite Hres, H6, Hn. destruct (t0 !! j) as [x|] eqn:Ex; [|by dec_goal].
      rewrite (Hz2 _ _ Ex). by dec_goal.
    + rewrite decide_False by naive_solver. done. }
  destruct (mm_pte_large e) eqn:Hlg.
  - unfold paging_entry_large. rewrite Hlg. simpl orb. destruct (decide (length p = 2%nat)) as [Hl2|Hl2].
    2: { rewrite bool_decide_eq_false_2 by lia. cbn [negb orb mbind outcome_bind]. rewrite decide_True by lia. exists s, 0.
         splits; [done|done|done|left]. splits; [done|done|left]. exists e. splits; [done|done|lia]. }
    rewrite bool_decide_eq_true_2 by lia. simpl negb. cbv iota.
    destruct (split_large_spec e Hl2 He Hlg) as (s1 & rc & -> & Hre & Hok1 & [(-> & Ht1 & Hf)|(-> & b & Hwin & Hmod & H1 & H2 & H3 & Hg)]);
      cbn [mbind outcome_bind].
    { rewrite decide_True by lia. exists s1, 0. splits; [done|done|done|left]. splits; [done|done|by right]. }
    rewrite decide_False by lia. destruct (table_pte_spec b false) as [Htb1 Htb2]. rewrite (phys_id b) in Htb2 by lia.
    rewrite load_entry_eq, H2. cbn [mbind outcome_bind or_ub].
    destruct (user_bit_page n R s1 r p a i Hok1 Hr Ho Hi Hl H1 _ us H2 Htb1)
      as (E & Hok2 & Hre2 & (e' & He' & Het' & Hph') & Hwk & Hres & Hsame).
    rewrite E. cbn [mbind outcome_bind]. rewrite load_entry_eq, He'. cbn [mbind outcome_bind or_ub].
    rewrite entry_table_spec, Het', Hph', Htb2. eexists _, b. split; [reflexivity|].
    split; [congruence|]. split; [done|]. right. rewrite Htb2 in Hwk. splits; [lia|done| |eapply grows_trans; [exact Hg|by apply grows_same]].
    intros r' p' Hr' Hp'. rewrite Hres by (apply Hr' || apply Hp'). by apply H3.
  - unfold paging_entry_large. rewrite Hlg. cbn [mbind outcome_bind]. rewrite decide_False by lia.
    assert (Ht : is_table e = true) by (unfold is_table; by rewrite Hpr, Hlg).
    rewrite load_entry_eq, He. cbn [mbind outcome_bind or_ub].
    destruct (user_bit_page n R s r p a i Hok Hr Ho Hi Hl Hw _ us He Ht)
      as (E & Hok2 & Hre2 & (e' & He' & Het' & Hph') & Hwk & Hres & Hsame).
    rewrite E. cbn [mbind outcome_bind]. rewrite load_entry_eq, He'. cbn [mbind outcome_bind or_ub].
    rewrite entry_table_spec, Het', Hph'. eexists _, _. split; [reflexivity|]. split; [done|]. split; [done|].
    right. splits; auto.
    + assert (Hl3 : (length (p ++ [i]) <= 3)%nat) by (rewrite length_app; simpl; lia).
      by destruct (wf_live _ _ _ _ _ (ok_wf _ _ _ Hok2) _ _ _ Hr Ho Hl3 Hwk).
    + intros r' p' Hr' (Ho' & Hl' & _). rewrite Hres by done. case_decide as Hd; [|done]. destruct Hd as (-> & HP & HPl).
      symmetry. apply (broken_table _ _ (p ++ [i]) _ (mm_pte_phys e)); auto. apply walk_snoc_Some. eauto 10.
    + by apply grows_same.
Qed.
End at_entry_ops.
(** The four indices of an address. *)
Definition va_path (va : Z) : list nat :=
  [va_index va 39; va_index va 30; va_index va 21; va_index va 12].

Lemma va_index_lt va sh : (va_index va sh < 512)%nat.
Proof.
  unfold va_index. change X86_INDEX_MASK with (Z.ones 9). rewrite Z.land_ones by lia.
  pose proof (Z.mod_pos_bound (Z.shiftr va sh) (2 ^ 9)). lia.
Qed.

Lemma va_path_ok n va : okp n (va_path va) -> page_path n (va_path va).
Proof. intros Hn. split; [done|]. split; [done|]. by repeat (apply Forall_cons_2; [apply va_index_lt|]). Qed.

(** Storing a leaf in a third-level table. *)
Lemma store_leaf_spec n R s r P j b e' :
  mm_ok n R s -> r ∈ R -> okp n (P ++ [j]) -> length P = 3%nat -> (j < 512)%nat -> walk (tabs s) r P = Some b ->
  store_entry s b j e' = Ok (set_tabs (upd (tabs s) b j e') s) /\
  mm_ok n R (set_tabs (upd (tabs s) b j e') s) /\
  (forall r' p', r' ∈ R -> okp n p' -> (length p' <= 3)%nat -> walk (upd (tabs s) b j e') r' p' = walk (tabs s) r' p') /\
  (forall r' p', r' ∈ R -> okp n p' -> length p' = 4%nat ->
     resolve (upd (tabs s) b j e') r' p' =
     if decide (r' = r /\ p' = P ++ [j]) then if mm_pte_present e' then Some (e', 0%nat) else None
     else resolve (tabs s) r' p').
Proof.
  intros Hok Hr Ho Hl Hj Hw. pose proof (ok_wf _ _ _ Hok) as Hwf. assert (Hl3 : (length P <= 3)%nat) by lia.
  destruct (wf_entry Hwf r P b j) as (t & e & _ & _ & _ & He); [done|by eapply okp_app|lia|done|done|].
  set (T' := upd (tabs s) b j e').
  assert (Hag : forall r' q c k, r' ∈ R -> okp n q -> (length q <= 3)%nat -> walk (tabs s) r' q = Some c ->
     c <> b \/ k <> j -> entry T' c k = entry (tabs s) c k).
  { intros r' q c k _ _ _ _ Hne. unfold T'. rewrite entry_upd. by rewrite decide_False by naive_solver. }
  assert (HeT : entry T' b j = Some e') by (unfold T'; rewrite entry_upd, decide_True by done; by rewrite He).
  assert (Hwk : forall r' p', r' ∈ R -> okp n p' -> (length p' <= 3)%nat -> walk T' r' p' = walk (tabs s) r' p').
  { intros r' p' Hr' Ho' Hl'. apply (ch_off Hwf Hr Ho Hl3 Hw Hag); [done|done|lia|].
    intros _ [q ->]. rewrite !length_app in Hl'. simpl in Hl'. lia. }
  splits; auto.
  - by apply store_entry_eq with e.
  - split; simpl; [|unfold T'; rewrite window_tabs_upd; exact (ok_heap _ _ _ Hok)|exact (ok_types _ _ _ Hok)|
      apply kroot_upd, (ok_kroot _ _ _ Hok)].
    apply (wf_change Hwf T' None); [| |done].
    + intros r' p' c Hr' Ho' Hl' Hc. left. by rewrite <- Hwk.
    + intros r' p' c t' _ _ _ _ _. apply upd_keeps.
  - intros r' p' Hr' Ho' Hl'. destruct (path_cases (r := r) (p := P) (i := j) r' p') as [(-> & q & ->)|Hnp].
    + rewrite length_app in Hl'. simpl in Hl'. destruct q; [|simpl in Hl'; lia]. rewrite decide_True by done.
      rewrite (ch_on_resolve Hwf Hr Ho Hl3 Hw Hag HeT). simpl. by destruct (mm_pte_present e').
    + rewrite decide_False by (intros [-> ->]; by apply (Hnp eq_refl)).
      apply (ch_off Hwf Hr Ho Hl3 Hw Hag); [done..|lia|done].
Qed.

Lemma breaks_short n R T T' r P : breaks n R T T' r P -> (length P < 3)%nat ->
  forall r' p', r' ∈ R -> page_path n p' -> resolve T' r' p' = resolve T r' p'.
Proof. intros Hb Hl r' p' Hr Hp. rewrite Hb by done. rewrite decide_False by lia. done. Qed.

(** A walk blocked by a large leaf resolves to it. *)
Lemma blocked_resolves T r p a i e q : walk T r p = Some a -> entry T a i = Some e -> mm_pte_large e = true ->
  q <> [] -> resolve T r (p ++ i :: q) = Some (e, length q).
Proof.
  intros Hw He Hlg Hq. rewrite (resolve_app _ _ _ a) by done. simpl. rewrite He.
  unfold leaf_here. rewrite Hlg. assert (mm_pte_present e = true) as ->
    by (unfold mm_pte_large in Hlg; by apply andb_true_iff in Hlg as [? _]).
  by destruct q.
Qed.

(** The leaf [map_page_in_directory] writes. *)
Definition map_entry (pa fl : Z) : Z := mm_make_leaf_pte pa (Z.land fl 0xFFF) (flag_set fl PAGE_EXEC).

(** The accounting after the store. *)
Lemma map_account n R s (old : bool) (us : bool) pa : mm_ok n R s ->
  exists s', (let s0 := if old then s else bump leaf_created s in
     if us then s1 ← ir0_mm_set_frame_type s0 pa IR0_MM_FRAME_USER; Ok (bump frame_user_alloc s1, 0)
     else s1 ← ir0_mm_set_frame_type s0 pa IR0_MM_FRAME_KERNEL; Ok (bump frame_kernel_alloc s1, 0)) = Ok (s', 0) /\
  acct_only s s'.
Proof.
  intros Hok. cbv zeta. set (s0 := if old then s else bump leaf_created s).
  assert (H0 : acct_only s s0) by (unfold s0; destruct old; [reflexivity|apply bump_acct]).
  destruct (set_frame_type_acct s0 pa IR0_MM_FRAME_USER) as (s1 & E1 & H1); [apply H0, (ok_types _ _ _ Hok)|].
  destruct (set_frame_type_acct s0 pa IR0_MM_FRAME_KERNEL) as (s2 & E2 & H2); [apply H0, (ok_types _ _ _ Hok)|].
  destruct us.
  - rewrite E1. eexists. split; [reflexivity|]. etrans; [exact H0|]. etrans; [exact H1|]. apply bump_acct.
  - rewrite E2. eexists. split; [reflexivity|]. etrans; [exact H0|]. etrans; [exact H2|]. apply bump_acct.
Qed.

Lemma map_page_spec n R s root va pa fl :
  mm_ok n R s -> root ∈ R -> okp n (va_path va) ->
  exists s' rc, map_page_in_directory cur s root va pa fl = Ok (s', rc) /\ mm_ok n R s' /\ rest s' = rest s /\
    grows n R (tabs s) (tabs s') root /\
    ((rc = 0 /\ forall r' p', r' ∈ R -> page_path n p' ->
        resolve (tabs s') r' p' =
        if decide (r' = root /\ p' = va_path va) then Some (map_entry pa fl, 0%nat)
        else if decide (r' = root /\ take 3 p' = take 3 (va_path va)) then broken (resolve (tabs s) r' p') (p' !!! 3%nat)
        else resolve (tabs s) r' p') \/
     (rc = -1 /\ (forall r' p', r' ∈ R -> page_path n p' -> resolve (tabs s') r' p' = resolve (tabs s) r' p') /\
        ((exists e k, (2 <= k)%nat /\ resolve (tabs s) root (va_path va) = Some (e, k)) \/
         exists h, ps_inv h (window_tabs (tabs s')) /\ ps_alloc h = Ok (kheap s', 0)))).
Proof.
  intros Hok Hr Ho. unfold va_path in *. set (i0 := va_index va 39) in *. set (i1 := va_index va 30) in *.
  set (i2 := va_index va 21) in *. set (i3 := va_index va 12) in *.
  assert (Hi0 : (i0 < 512)%nat) by apply va_index_lt. assert (Hi1 : (i1 < 512)%nat) by apply va_index_lt.
  assert (Hi2 : (i2 < 512)%nat) by apply va_index_lt. assert (Hi3 : (i3 < 512)%nat) by apply va_index_lt.
  assert (Hroot : root <> 0) by (apply (wf_live _ _ _ _ _ (ok_wf _ _ _ Hok) root [] root); auto; simpl; lia).
  unfold map_page_in_directory. rewrite decide_False by done. unfold mm_va_indices. fold i0 i1 i2 i3. cbv iota beta.
  destruct (get_or_create_spec n R s root [] root i0 Hok Hr Ho Hi0 ltac:(simpl; lia) eq_refl fl 1%nat eq_refl)
    as (s1 & b1 & -> & Hre1 & Hok1 & [(-> & Ht1 & Hnt)|(Hb1 & Hw1 & Hbk1 & Hg1)]); cbn [mbind outcome_bind].
  { rewrite decide_True by done. exists s1, (-1). splits; [done|done|done|by rewrite Ht1; apply grows_same|]. right. rewrite Ht1. splits; auto.
    destruct Hnt as [(e & He & Hlg & _)|Hf].
    - left. exists e, 3%nat. split; [lia|]. by apply (blocked_resolves _ _ [] root).
    - right. exists (kheap s). split; [exact (ok_heap _ _ _ Hok)|done]. }
  rewrite (decide_False (P := b1 = 0)) by done. pose proof (breaks_short _ _ _ _ _ _ Hbk1 ltac:(simpl; lia)) as Hv1.
  destruct (get_or_create_spec n R s1 root [i0] b1 i1 Hok1 Hr Ho Hi1 ltac:(simpl; lia) Hw1 fl 2%nat eq_refl)
    as (s2 & b2 & -> & Hre2 & Hok2 & [(-> & Ht2 & Hnt)|(Hb2 & Hw2 & Hbk2 & Hg2)]); cbn [mbind outcome_bind].
  { rewrite decide_True by done. exists s2, (-1). splits; [done|done|congruence|by rewrite Ht2|]. right. rewrite Ht2. splits; auto.
    destruct Hnt as [(e & He & Hlg & _)|Hf].
    - left. exists e, 2%nat. split; [lia|]. rewrite <- Hv1 by (done || by apply va_path_ok).
      by apply (blocked_resolves _ _ [i0] b1).
    - right. exists (kheap s1). split; [|done]. exact (ok_heap _ _ _ Hok1). }
  rewrite (decide_False (P := b2 = 0)) by done. pose proof (breaks_short _ _ _ _ _ _ Hbk2 ltac:(simpl; lia)) as Hv2.
  destruct (get_or_create_spec n R s2 root [i0; i1] b2 i2 Hok2 Hr Ho Hi2 ltac:(simpl; lia) Hw2 fl 3%nat eq_refl)
    as (s3 & b3 & -> & Hre3 & Hok3 & [(-> & Ht3 & Hnt)|(Hb3 & Hw3 & Hbk3 & Hg3)]); cbn [mbind outcome_bind].
  { rewrite decide_True by done. exists s3, (-1). splits; [done|done|congruence|rewrite Ht3; by eapply grows_trans|]. right. rewrite Ht3. splits; auto.
    - intros r' p' Hr' Hp'. by rewrite Hv2, Hv1.
    - destruct Hnt as [(e & He & Hlg & Hx)|Hf]; [simpl in Hx; lia|].
      right. exists (kheap s2). split; [|done]. exact (ok_heap _ _ _ Hok2). }
  rewrite (decide_False (P := b3 = 0)) by done. simpl app in Hw3.
  destruct (wf_entry (ok_wf _ _ _ Hok3) root [i0; i1; i2] b3 i3) as (_ & old & _ & _ & _ & He3); auto.
  rewrite load_entry_eq, He3. cbn [mbind outcome_bind or_ub].
  destruct (store_leaf_spec n R s3 root [i0; i1; i2] i3 b3 (map_entry pa fl) Hok3 Hr Ho eq_refl Hi3 Hw3)
    as (Est & Hok4 & Hwk4 & Hv4).
  unfold map_entry in Est. rewrite Est. cbn [mbind outcome_bind].
  destruct (map_account n R _ (mm_pte_present old) (flag_set fl PAGE_USER) pa Hok4) as (s5 & E5 & H5).
  unfold map_entry in E5. cbv zeta in E5. rewrite E5. exists s5, 0. split; [done|].
  split; [by eapply acct_only_ok|]. destruct H5 as [Ht5 _ Hre5 _]. split; [rewrite Hre5; change (rest s3 = rest s); congruence|].
  split. { rewrite Ht5. eapply grows_trans; [exact Hg1|]. eapply grows_trans; [exact Hg2|].
           eapply grows_trans; [exact Hg3|]. by apply grows_same. }
  left. split; [done|]. intros r' p' Hr' Hp'. pose proof Hp' as (Hp1 & Hp2 & _). rewrite Ht5. cbn [tabs set_tabs].
  simpl app in Hv4. rewrite Hv4 by done. unfold map_entry at 1. rewrite leaf_pte_present. fold (map_entry pa fl). case_decide; [done|].
  rewrite Hbk3, Hv2, Hv1 by done.
  destruct p' as [|j0 [|j1 [|j2 [|j3 [|? ?]]]]]; try (simpl in Hp2; lia). simpl take.
  destruct (decide (r' = root /\ [j0; j1; j2] = [i0; i1; i2])) as [[-> Hj]|Hj].
  - rewrite decide_True; [done|]. splits; try done. simpl in *. exists [j3]. simpl. by simplify_eq.
  - rewrite decide_False; [done|]. intros (-> & [q Hq] & _). apply Hj. simpl in Hq. by simplify_eq.
Qed.
(** ** Walking *)

(** One step of every walk in the file. *)
Lemma descend_cases n R s r p a i q :
  mm_ok n R s -> r ∈ R -> okp n (p ++ [i]) -> (i < 512)%nat -> (length p <= 2)%nat -> walk (tabs s) r p = Some a ->
  q <> [] ->
  exists e, load_entry s a i = Ok e /\ entry (tabs s) a i = Some e /\
    ((mm_pte_present e = false /\ resolve (tabs s) r (p ++ i :: q) = None /\ walk (tabs s) r (p ++ [i]) = None) \/
     (mm_pte_present e = true /\ mm_pte_large e = true /\ resolve (tabs s) r (p ++ i :: q) = Some (e, length q) /\
        walk (tabs s) r (p ++ [i]) = None) \/
     (mm_pte_present e = true /\ mm_pte_large e = false /\ paging_entry_table e <> 0 /\
        mm_pte_phys e = paging_entry_table e /\ walk (tabs s) r (p ++ [i]) = Some (paging_entry_table e))).
Proof.
  intros Hok Hr Ho Hi Hl Hw Hq. destruct (at_entry_live n R s r p a i) as [_ [e He]]; auto.
  exists e. rewrite load_entry_eq, He. split; [done|]. split; [done|].
  rewrite walk_snoc, Hw, He, entry_table_spec. rewrite (resolve_app _ _ _ a) by done.
  simpl. rewrite He. unfold is_table, leaf_here.
  destruct (mm_pte_present e) eqn:Hp; [|by left]. right.
  destruct (mm_pte_large e) eqn:Hlg; simpl; [left; splits; auto; by destruct q|]. right. splits; auto.
  assert (Hwi : walk (tabs s) r (p ++ [i]) = Some (mm_pte_phys e))
    by (apply walk_snoc_Some; exists a, e; unfold is_table; rewrite Hp, Hlg; done).
  assert (Hl3 : (length (p ++ [i]) <= 3)%nat) by (rewrite length_app; simpl; lia).
  by destruct (wf_live _ _ _ _ _ (ok_wf _ _ _ Hok) _ _ _ Hr Ho Hl3 Hwi).
Qed.

Ltac walk_step n R s r p a i q Hok Hr Ho Hw :=
  let e := fresh "e" in let He := fresh "He" in
  destruct (descend_cases n R s r p a i q Hok Hr Ho ltac:(apply va_index_lt) ltac:(simpl; lia) Hw ltac:(done))
    as (e & -> & He & [(Hp & Hres & Hwn)|[(Hp & Hlg & Hres & Hwn)|(Hp & Hlg & Hnz & Hph & Hwn)]]);
  simpl app in *; cbn [mbind outcome_bind]; unfold paging_entry_large; rewrite ?Hp, ?Hlg; simpl negb; cbv iota.

Section walks.
Context (n : nat) (R : gset Z) (s : pg_state H) (root va : Z).
Hypothesis Hok : mm_ok n R s.
Hypothesis Hr : root ∈ R.
Hypothesis Ho : okp n (va_path va).

Lemma root_nonzero : root <> 0.
Proof. apply (wf_live _ _ _ _ _ (ok_wf _ _ _ Hok) root [] root); auto; simpl; lia. Qed.

Lemma third_level_entry b : walk (tabs s) root (take 3 (va_path va)) = Some b ->
  exists e, load_entry s b (va_index va 12) = Ok e /\ entry (tabs s) b (va_index va 12) = Some e /\
    resolve (tabs s) root (va_path va) = if mm_pte_present e then Some (e, 0%nat) else None.
Proof.
  intros Hw. destruct (wf_entry (ok_wf _ _ _ Hok) root (take 3 (va_path va)) b (va_index va 12)) as (_ & e & _ & _ & _ & He);
    auto; [apply va_index_lt|].
  exists e. rewrite load_entry_eq, He. split; [done|]. split; [done|].
  change (va_path va) with (take 3 (va_path va) ++ [va_index va 12]).
  rewrite (resolve_app _ _ _ b) by done. simpl. rewrite He. by destruct (mm_pte_present e).
Qed.

Lemma get_pte_spec : paging_get_pte s root va =
  Ok (match walk (tabs s) root (take 3 (va_path va)) with Some b => Some (b, va_index va 12) | None => None end).
Proof.
  unfold paging_get_pte. rewrite decide_False by exact root_nonzero. unfold mm_va_indices. cbv beta iota.
  change (take 3 (va_path va)) with ([va_index va 39; va_index va 30] ++ [va_index va 21]).
  assert (Hsub : forall p i q, walk (tabs s) root (p ++ [i]) = None -> walk (tabs s) root ((p ++ [i]) ++ q) = None)
    by (intros p i q Hn; rewrite walk_app, Hn; done).
  walk_step n R s root (@nil nat) root (va_index va 39) [va_index va 30] Hok Hr Ho (eq_refl (Some root)).
  { change [va_index va 39; va_index va 30; va_index va 21] with (([] ++ [va_index va 39]) ++ [va_index va 30; va_index va 21]).
    by rewrite Hsub. }
  { change [va_index va 39; va_index va 30; va_index va 21] with (([] ++ [va_index va 39]) ++ [va_index va 30; va_index va 21]).
    by rewrite Hsub. }
  rewrite (decide_False (P := paging_entry_table e = 0)) by done. clear Hp Hlg Hnz Hph. rename Hwn into Hw1.
  walk_step n R s root [va_index va 39] (paging_entry_table e) (va_index va 30) [va_index va 21] Hok Hr Ho Hw1.
  { change [va_index va 39; va_index va 30; va_index va 21] with (([va_index va 39] ++ [va_index va 30]) ++ [va_index va 21]).
    by rewrite Hsub. }
  { change [va_index va 39; va_index va 30; va_index va 21] with (([va_index va 39] ++ [va_index va 30]) ++ [va_index va 21]).
    by rewrite Hsub. }
  rewrite (decide_False (P := paging_entry_table e0 = 0)) by done. clear Hp Hlg Hnz Hph. rename Hwn into Hw2.
  walk_step n R s root [va_index va 39; va_index va 30] (paging_entry_table e0) (va_index va 21) [va_index va 12] Hok Hr Ho Hw2.
  - by rewrite Hwn.
  - by rewrite Hwn.
  - by rewrite (decide_False (P := paging_entry_table e1 = 0)), Hwn by done.
Qed.

Lemma is_page_mapped_spec : is_page_mapped_in_directory s root va =
  Ok (match resolve (tabs s) root (va_path va) with Some (e, _) => (1, Some (Z.land e 0xFFF)) | None => (0, None) end).
Proof.
  unfold is_page_mapped_in_directory. rewrite decide_False by exact root_nonzero. unfold mm_va_indices, va_path in *. cbv beta iota.
  walk_step n R s root (@nil nat) root (va_index va 39) [va_index va 30; va_index va 21; va_index va 12] Hok Hr Ho (eq_refl (Some root));
    [by rewrite Hres|by rewrite Hres|].
  rewrite (decide_False (P := paging_entry_table e = 0)) by done. clear Hp Hlg Hnz Hph. rename Hwn into Hw1.
  walk_step n R s root [va_index va 39] (paging_entry_table e) (va_index va 30) [va_index va 21; va_index va 12] Hok Hr Ho Hw1;
    [by rewrite Hres|by rewrite Hres|].
  rewrite (decide_False (P := paging_entry_table e0 = 0)) by done. clear Hp Hlg Hnz Hph. rename Hwn into Hw2.
  walk_step n R s root [va_index va 39; va_index va 30] (paging_entry_table e0) (va_index va 21) [va_index va 12] Hok Hr Ho Hw2;
    [by rewrite Hres|by rewrite Hres|].
  rewrite (decide_False (P := paging_entry_table e1 = 0)) by done.
  destruct (third_level_entry _ Hwn) as (e3 & -> & _ & Hrs). cbn [mbind outcome_bind]. unfold va_path in Hrs. rewrite Hrs.
  by destruct (mm_pte_present e3).
Qed.
(** After [paging_ensure_4k_leaf] succeeds three levels of tables lead to the
    page; at most a 2 MiB leaf over it was split. *)
Lemma ensure_4k_spec : exists s' rc, paging_ensure_4k_leaf cur s root va = Ok (s', rc) /\ mm_ok n R s' /\ rest s' = rest s /\
  ((rc = -1 /\ tabs s' = tabs s) \/
   (rc = 0 /\ is_Some (walk (tabs s') root (take 3 (va_path va))) /\ breaks n R (tabs s) (tabs s') root (take 3 (va_path va)))).
Proof.
  assert (Hfail : exists s' rc, Ok (s, -1) = Ok (s', rc) /\ mm_ok n R s' /\ rest s' = rest s /\
    ((rc = -1 /\ tabs s' = tabs s) \/
     (rc = 0 /\ is_Some (walk (tabs s') root (take 3 (va_path va))) /\ breaks n R (tabs s) (tabs s') root (take 3 (va_path va)))))
    by (exists s, (-1); splits; auto).
  unfold paging_ensure_4k_leaf. rewrite decide_False by exact root_nonzero. unfold mm_va_indices, va_path in *. cbv beta iota.
  simpl take in *.
  walk_step n R s root (@nil nat) root (va_index va 39) [va_index va 30; va_index va 21; va_index va 12] Hok Hr Ho (eq_refl (Some root));
    [exact Hfail|exact Hfail|].
  simpl orb. cbv iota. rewrite (decide_False (P := paging_entry_table e = 0)) by done. clear Hp Hlg Hnz Hph. rename Hwn into Hw1.
  walk_step n R s root [va_index va 39] (paging_entry_table e) (va_index va 30) [va_index va 21; va_index va 12] Hok Hr Ho Hw1;
    [exact Hfail|exact Hfail|].
  simpl orb. cbv iota. rewrite (decide_False (P := paging_entry_table e0 = 0)) by done. clear Hp Hlg Hnz Hph. rename Hwn into Hw2.
  walk_step n R s root [va_index va 39; va_index va 30] (paging_entry_table e0) (va_index va 21) [va_index va 12] Hok Hr Ho Hw2;
    [exact Hfail| |].
  - destruct (split_large_spec n R s root [va_index va 39; va_index va 30] (paging_entry_table e0) (va_index va 21) Hok Hr Ho
      ltac:(apply va_index_lt) ltac:(simpl; lia) Hw2 e1 eq_refl He1 Hlg) as (s' & rc & -> & Hre & Hok' & Hc). cbn [mbind outcome_bind].
    destruct Hc as [(-> & Ht & _)|(-> & b & _ & Hbm & Hwk & Hen & Hbr & _)].
    + rewrite decide_True by lia. exists s', (-1). splits; auto.
    + rewrite decide_False by lia. exists s', 0. splits; auto. right. splits; auto.
      change [va_index va 39; va_index va 30; va_index va 21] with ([va_index va 39; va_index va 30] ++ [va_index va 21]).
      exists (mm_pte_phys (mm_make_table_pte b false)). apply walk_snoc_Some. exists (paging_entry_table e0), (mm_make_table_pte b false).
      splits; auto. apply table_pte_spec.
  - exists s, 0. splits; auto. right. splits; [done|eauto|]. apply breaks_refl. intros q Hl Hlq Hpre.
    by apply (broken_table _ _ [va_index va 39; va_index va 30; va_index va 21] _ (paging_entry_table e1)).
Qed.
End walks.
(** ** Removing tables *)

(** Freeing a table page nothing reaches. *)
Lemma free_table_spec n R s b lv : mm_ok n R s -> ps_lo <= b < ps_hi -> is_Some (tabs s !! b) ->
  (forall r p, r ∈ R -> okp n p -> (length p <= 3)%nat -> walk (tabs s) r p <> Some b) ->
  exists s', ir0_mm_free_table_frame s b lv = Ok s' /\ mm_ok n R s' /\ rest s' = rest s /\
    tabs s' = delete b (tabs s) /\
    (forall r p, r ∈ R -> okp n p -> (length p <= 3)%nat -> walk (tabs s') r p = walk (tabs s) r p) /\
    (forall r p, r ∈ R -> okp n p -> (length p <= 4)%nat -> resolve (tabs s') r p = resolve (tabs s) r p).
Proof.
  intros [Hwf Hh Hty Hkr] Hwin Hlive Hun. pose proof ps_window. unfold ir0_mm_free_table_frame.
  rewrite decide_False by lia. cbv zeta. set (s1 := match lv with O => _ | _ => _ end).
  assert (H1 : acct_only s s1) by (unfold s1; destruct lv as [|[|[|[|?]]]]; try apply bump_acct; reflexivity).
  destruct (set_frame_type_acct s1 b IR0_MM_FRAME_UNKNOWN) as (s2 & -> & H2); [by apply H1|].
  cbn [mbind outcome_bind].
  assert (H3 : acct_only s (bump frame_pt_free s2)) by (etrans; [exact H1|]; etrans; [exact H2|]; apply bump_acct).
  destruct H3 as [Et Ek Er Hty3]. rewrite Ek.
  destruct (ps_free_ok _ _ b Hh) as (h' & -> & Hh').
  { unfold window_tabs. apply elem_of_filter. split; [lia|]. by apply elem_of_dom. }
  cbn [mbind outcome_bind]. eexists. split; [reflexivity|]. cbn [tabs set_tabs set_kheap kheap ftypes]. rewrite Et.
  assert (Hst : forall r q c j, r ∈ R -> okp n q -> (length q <= 3)%nat -> walk (tabs s) r q = Some c ->
     entry (delete b (tabs s)) c j = entry (tabs s) c j).
  { intros r q c j Hr Hq Hlq Hc. apply entry_delete_ne. intros ->. by apply (Hun r q). }
  assert (Hwk : forall r p, r ∈ R -> okp n p -> (length p <= 3)%nat -> walk (delete b (tabs s)) r p = walk (tabs s) r p).
  { intros r p Hr Ho Hl. apply walk_frame. intros q i q' c -> Hc. rewrite length_app in Hl. simpl in Hl.
    apply (Hst r q); auto; [by eapply okp_app|lia]. }
  splits; auto.
  - split; cbn [tabs set_tabs kheap ftypes].
    + apply (wf_change Hwf _ None); [| |done].
      * intros r p c Hr Ho Hl Hc. left. by rewrite <- Hwk.
      * intros r p c t Hr Ho Hl _ Hc Ht Hlt. exists t. split; [|done]. rewrite lookup_delete_ne; [done|].
        intros ->. by apply (Hun r p).
    + by rewrite window_tabs_delete.
    + by apply Hty3.
    + cbn [paging_kernel_root set_tabs set_kheap]. rewrite (rest_kroot _ _ Er). by apply kroot_delete.
  - intros r p Hr Ho Hl. apply resolve_frame. intros q i q' c -> Hc. rewrite length_app in Hl. simpl in Hl.
    apply (Hst r q); auto; [by eapply okp_app|lia].
Qed.

Lemma page_table_is_empty_spec s b t : tabs s !! b = Some t -> length t = 512%nat ->
  exists v, page_table_is_empty s b = Ok v /\
    (if v then forall j e, t !! j = Some e -> mm_pte_present e = false
     else exists j e, t !! j = Some e /\ mm_pte_present e = true).
Proof.
  intros Ht Hl. unfold page_table_is_empty. rewrite Ht. cbn [mbind outcome_bind or_ub]. rewrite decide_True by done.
  destruct (forallb _ t) eqn:E; (eexists; split; [reflexivity|]); cbn.
  - rewrite forallb_forall in E. intros j e Hj. apply negb_true_iff, E, list_elem_of_In. by eapply list_elem_of_lookup_2.
  - apply not_true_iff_false in E. rewrite forallb_forall in E.
    destruct (decide (Exists (fun e => mm_pte_present e = true) t)) as [Hx|Hx].
    + apply Exists_exists in Hx as (e & Hin & He). apply list_elem_of_lookup in Hin as [j Hj]. eauto.
    + destruct E. intros e Hin. apply list_elem_of_In in Hin. apply negb_true_iff.
      destruct (mm_pte_present e) eqn:Ee; [|done]. destruct Hx. apply Exists_exists. eauto.
Qed.

(** One collapse: the table stays, with something in it, or its slot is
    cleared and its page returned; no translation changes. *)
Lemma collapse_spec n R s r p a i b lv :
  mm_ok n R s -> r ∈ R -> okp n (p ++ [i]) -> (length p <= 2)%nat ->
  walk (tabs s) r p = Some a -> walk (tabs s) r (p ++ [i]) = Some b ->
  exists s', collapse_table s b a i lv = Ok s' /\ mm_ok n R s' /\ rest s' = rest s /\
    (forall r' p', r' ∈ R -> okp n p' -> length p' = 4%nat -> resolve (tabs s') r' p' = resolve (tabs s) r' p') /\
    ((s' = s /\ exists j e, entry (tabs s) b j = Some e /\ mm_pte_present e = true) \/
     (dom (tabs s') = dom (tabs s) ∖ {[b]} /\
      forall r' p', r' ∈ R -> okp n p' -> (length p' <= 3)%nat ->
      walk (tabs s') r' p' = if decide (r' = r /\ (p ++ [i]) `prefix_of` p') then None else walk (tabs s) r' p')).
Proof.
  intros Hok Hr Ho Hl Hw Hb. pose proof (ok_wf _ _ _ Hok) as Hwf. assert (Hl3 : (length p <= 3)%nat) by lia.
  assert (Hlb : (length (p ++ [i]) <= 3)%nat) by (rewrite length_app; simpl; lia).
  destruct (wf_live _ _ _ _ _ Hwf _ _ _ Hr Ho Hlb Hb) as (Hb0 & t & Ht & Hlt).
  apply walk_snoc_Some in Hb as Hb'. destruct Hb' as (a' & e & Hw' & He & Hte & Hbe). simplify_eq.
  set (b := mm_pte_phys e) in *. unfold collapse_table.
  destruct (page_table_is_empty_spec s b t Ht Hlt) as (v & -> & Hv). cbn [mbind outcome_bind]. destruct v.
  2: { destruct Hv as (j & e2 & Hj & He2). exists s. splits; auto. left. split; [done|]. exists j, e2.
       split; [|done]. unfold entry. by rewrite Ht. }
  rewrite load_entry_eq, He. cbn [mbind outcome_bind or_ub]. rewrite (store_entry_eq _ _ _ e) by done.
  cbn [mbind outcome_bind]. set (T1 := upd (tabs s) a i 0). set (s1 := set_tabs T1 s).
  assert (Hag : forall r' q c k, r' ∈ R -> okp n q -> (length q <= 3)%nat -> walk (tabs s) r' q = Some c ->
     c <> a \/ k <> i -> entry T1 c k = entry (tabs s) c k).
  { intros r' q c k _ _ _ _ Hne. unfold T1. rewrite entry_upd. by rewrite decide_False by naive_solver. }
  assert (HeT : entry T1 a i = Some 0) by (unfold T1; rewrite entry_upd, decide_True by done; by rewrite He).
  destruct (cut_spec Hwf Hr Ho Hl3 Hw Hag HeT) as [Hwf1 Hwk1]; [done|intros; eapply upd_keeps; eauto|].
  assert (Hok1 : mm_ok n R s1).
  { split; [done| |exact (ok_types _ _ _ Hok)|apply kroot_upd, (ok_kroot _ _ _ Hok)]. unfold s1, T1. cbn [tabs set_tabs kheap]. rewrite window_tabs_upd.
    exact (ok_heap _ _ _ Hok). }
  assert (Hres1 : forall r' p', r' ∈ R -> okp n p' -> length p' = 4%nat -> resolve T1 r' p' = resolve (tabs s) r' p').
  { intros r' p' Hr' Ho' Hl'. destruct (path_cases (r := r) (p := p) (i := i) r' p') as [(-> & q & ->)|Hnp].
    - rewrite (ch_on_resolve Hwf Hr Ho Hl3 Hw Hag HeT). simpl. symmetry.
      rewrite length_app in Hl'. simpl in Hl'. destruct q as [|j q]; [simpl in Hl'; lia|].
      replace (p ++ i :: j :: q) with ((p ++ [i]) ++ j :: q) by by rewrite <- app_assoc.
      rewrite (resolve_app _ _ _ b) by done. simpl. unfold entry. rewrite Ht. simpl.
      destruct (t !! j) as [x|] eqn:Ex; [|done]. by rewrite (Hv _ _ Ex).
    - apply (ch_off Hwf Hr Ho Hl3 Hw Hag); [done..|lia|done]. }
  destruct (free_table_spec n R s1 b lv Hok1) as (s2 & E2 & Hok2 & Hre2 & Ht2 & Hwk2 & Hres2).
  - by apply (wf_window _ _ _ _ _ Hwf r (p ++ [i])); [|done|destruct p| |].
  - unfold s1, T1. cbn [tabs set_tabs]. destruct (upd_keeps (tabs s) a i 0 b t Ht Hlt) as (? & -> & _). eauto.
  - intros r' p' Hr' Ho' Hl' Hc. unfold s1 in Hc. cbn [tabs set_tabs] in Hc. rewrite Hwk1 in Hc by (auto; lia).
    case_decide as Hd; [done|]. destruct (wf_inj _ _ _ _ _ Hwf r' p' r (p ++ [i]) b) as [-> ->]; auto.
  - unfold paging_entry_pfn. fold b. rewrite E2. exists s2. split; [done|]. split; [done|]. split; [done|]. split.
    + intros r' p' Hr' Ho' Hl'. rewrite Hres2 by (auto; lia). by apply Hres1.
    + right. split; [rewrite Ht2, dom_delete_L; unfold s1, T1, upd; cbn [tabs set_tabs]; by rewrite dom_alter_L|].
      intros r' p' Hr' Ho' Hl'. rewrite Hwk2 by done. apply Hwk1; [done|done|lia].
Qed.
(** ** Unmapping *)

Definition in_pmm (q : pmm_state) (f : Z) : Prop := f <> 0 /\ mem_start q <= f < mem_end q.

(** A frame the PMM manages is in use. *)
Definition frame_used (q : pmm_state) (f : Z) : Prop :=
  in_pmm q f -> exists k, pmm_frame_index q f = Some k /\ is_Some (pmm_abs q !! k).

Lemma release_frame_spec s f : is_Some (ftypes s) -> pmm_inv (pmm s) -> frame_used (pmm s) f ->
  exists s', unmap_release_frame s f = Ok s' /\
    tabs s' = tabs s /\ kheap s' = kheap s /\ ram s' = ram s /\ cr3 s' = cr3 s /\
    paging_kernel_root s' = paging_kernel_root s /\ is_Some (ftypes s') /\ pmm_inv (pmm s') /\
    (in_pmm (pmm s) f -> pmm_frame_put (pmm s) f = Ok (pmm s')) /\ (~ in_pmm (pmm s) f -> pmm s' = pmm s).
Proof.
  intros Hty Hinv Hu. unfold unmap_release_frame. unfold in_pmm in *.
  destruct (decide (f <> 0 /\ mem_start (pmm s) <= f < mem_end (pmm s))) as [Hin|Hin]; [|exists s; splits; auto; done].
  destruct (Hu Hin) as (k & Hk & Hl). destruct (pmm_put_live _ _ _ Hinv Hk Hl) as (q & Eq & Hinv' & _ & _).
  set (m := if decide (pmm_frame_refcount (pmm s) f = 1) then _ else _).
  assert (Hm : exists s1, m = Ok s1 /\ acct_only s s1).
  { unfold m. destruct (decide _); [|exists s; split; done].
    destruct (get_frame_type_ready s f Hty) as [t ->]. cbn [mbind outcome_bind].
    set (s0 := match t with IR0_MM_FRAME_UNKNOWN => s | _ => _ end).
    assert (H0 : acct_only s s0) by (unfold s0; destruct t; try apply bump_acct; reflexivity).
    destruct (set_frame_type_acct s0 f IR0_MM_FRAME_UNKNOWN) as (s1 & E1 & H1); [by apply H0|].
    exists s1. split; [done|]. by etrans. }
  destruct Hm as (s1 & -> & [Et Ek Er Hty1]). cbn [mbind outcome_bind]. unfold rest in Er. injection Er as Er1 Er2 Er3 Er4.
  rewrite Er2, Eq. cbn [mbind outcome_bind]. eexists. split; [reflexivity|]. simpl. splits; auto. by intros [].
Qed.

(** The tables left on the path of an unmapped page hold something. *)
Definition pruned (n0 : nat) (T : gmap Z (list Z)) (r : Z) (p : list nat) : Prop :=
  forall k b, (n0 <= k <= 3)%nat -> walk T r (take k p) = Some b ->
    exists j e, entry T b j = Some e /\ mm_pte_present e = true.

(** A collapse at depth [k] of the path [P] extends the pruned part upwards. *)
Lemma collapse_prunes n R s r P k a i b lv :
  mm_ok n R s -> r ∈ R -> okp n P -> (k <= 2)%nat -> take (S k) P = take k P ++ [i] -> length (take k P) = k ->
  walk (tabs s) r (take k P) = Some a -> walk (tabs s) r (take (S k) P) = Some b ->
  pruned (S (S k)) (tabs s) r P ->
  exists s', collapse_table s b a i lv = Ok s' /\ mm_ok n R s' /\ rest s' = rest s /\ dom (tabs s') ⊆ dom (tabs s) /\
    (forall r' p', r' ∈ R -> okp n p' -> length p' = 4%nat -> resolve (tabs s') r' p' = resolve (tabs s) r' p') /\
    pruned (S k) (tabs s') r P /\
    (forall m, (m <= k)%nat -> walk (tabs s') r (take m P) = walk (tabs s) r (take m P)).
Proof.
  intros Hok Hr Ho Hk Hsn Hlk Ha Hb Hpr.
  assert (Hot : forall m, okp n (take m P)) by (intros m; apply (okp_app n _ (drop m P)); by rewrite take_drop).
  destruct (collapse_spec n R s r (take k P) a i b lv) as (s' & E & Hok' & Hre & Hv & Hc);
    [done|done|by rewrite <- Hsn|lia|done|by rewrite <- Hsn|].
  exists s'. split; [done|]. split; [done|]. split; [done|]. destruct Hc as [[-> Hne]|[Hd Hwk]].
  - splits; auto. intros m c Hm Hc. destruct (decide (m = S k)) as [->|]; [|apply (Hpr m); auto; lia].
    rewrite Hb in Hc. by injection Hc as <-.
  - split; [rewrite Hd; set_solver|]. split; [done|]. rewrite <- Hsn in Hwk. split.
    + intros m c Hm Hc. rewrite Hwk in Hc by (auto; rewrite length_take; lia). rewrite decide_True in Hc; [done|].
      split; [done|]. exists (drop (S k) (take m P)). rewrite <- (take_drop (S k) (take m P)) at 1.
      by rewrite take_take, Nat.min_l by lia.
    + intros m Hm. rewrite Hwk by (auto; rewrite length_take; lia). rewrite decide_False; [done|].
      intros [_ Hpre]. apply prefix_length in Hpre. rewrite Hsn, length_app, Hlk, length_take in Hpre. simpl in Hpre. lia.
Qed.

Lemma unmap_page_spec n R s root va :
  mm_ok n R s -> root ∈ R -> okp n (va_path va) -> pmm_inv (pmm s) ->
  (forall e, resolve (tabs s) root (va_path va) = Some (e, 0%nat) -> frame_used (pmm s) (mm_pte_phys e)) ->
  (unmap_page_in_directory s root va = Ok (s, -1) /\ forall e, resolve (tabs s) root (va_path va) <> Some (e, 0%nat)) \/
  exists s' e, unmap_page_in_directory s root va = Ok (s', 0) /\ resolve (tabs s) root (va_path va) = Some (e, 0%nat) /\
    mm_ok n R s' /\ ram s' = ram s /\ cr3 s' = cr3 s /\ paging_kernel_root s' = paging_kernel_root s /\
    pmm_inv (pmm s') /\
    (in_pmm (pmm s) (mm_pte_phys e) -> pmm_frame_put (pmm s) (mm_pte_phys e) = Ok (pmm s')) /\
    (~ in_pmm (pmm s) (mm_pte_phys e) -> pmm s' = pmm s) /\
    dom (tabs s') ⊆ dom (tabs s) /\
    (forall r' p', r' ∈ R -> page_path n p' -> resolve (tabs s') r' p' =
       if decide (r' = root /\ p' = va_path va) then None else resolve (tabs s) r' p') /\
    pruned (if decide (va_index va 39 < 256)%nat then 1 else 2) (tabs s') root (va_path va).
Proof.
  intros Hok Hr Ho Hinv Hu. pose proof (root_nonzero _ _ _ _ Hok Hr) as Hroot.
  unfold unmap_page_in_directory. rewrite decide_False by done. unfold mm_va_indices. cbv beta iota.
  assert (Hok0 : forall p q : list nat, okp n (p ++ q) -> okp n p) by (intros p q; apply okp_app).
  walk_step n R s root (@nil nat) root (va_index va 39) [va_index va 30; va_index va 21; va_index va 12] Hok Hr Ho (eq_refl (Some root));
    [left; split; [done|]; intros x Hx; unfold va_path in Hx; rewrite Hres in Hx; by simplify_eq/=..|].
  rewrite (decide_False (P := paging_entry_table e = 0)) by done. clear Hp Hlg Hnz Hph. rename Hwn into Hw1.
  walk_step n R s root [va_index va 39] (paging_entry_table e) (va_index va 30) [va_index va 21; va_index va 12] Hok Hr Ho Hw1;
    [left; split; [done|]; intros x Hx; unfold va_path in Hx; rewrite Hres in Hx; by simplify_eq/=..|].
  rewrite (decide_False (P := paging_entry_table e0 = 0)) by done. clear Hp Hlg Hnz Hph. rename Hwn into Hw2.
  walk_step n R s root [va_index va 39; va_index va 30] (paging_entry_table e0) (va_index va 21) [va_index va 12] Hok Hr Ho Hw2;
    [left; split; [done|]; intros x Hx; unfold va_path in Hx; rewrite Hres in Hx; by simplify_eq/=..|].
  rewrite (decide_False (P := paging_entry_table e1 = 0)) by done. clear Hp Hlg Hnz Hph. rename Hwn into Hw3.
  destruct (third_level_entry n R s root va Hok Hr Ho _ Hw3) as (e3 & -> & _ & Hrs). cbn [mbind outcome_bind].
  destruct (mm_pte_present e3) eqn:Hp3; simpl negb; cbv iota; [|left; split; [done|]; intros x; by rewrite Hrs].
  right. unfold paging_entry_pfn.
  set (i0 := va_index va 39) in *. set (i1 := va_index va 30) in *. set (i2 := va_index va 21) in *. set (i3 := va_index va 12) in *.
  set (b1 := paging_entry_table e) in *. set (b2 := paging_entry_table e0) in *. set (b3 := paging_entry_table e1) in *.
  destruct (store_leaf_spec n R s root [i0; i1; i2] i3 b3 0 Hok Hr Ho eq_refl (va_index_lt _ _) Hw3) as (-> & Hok1 & Hwk1 & Hv1).
  cbn [mbind outcome_bind]. set (s1 := set_tabs _ s) in *.
  destruct (release_frame_spec (bump leaf_freed s1) (mm_pte_phys e3)) as (s2 & -> & Et2 & Ek2 & Er2 & Ec2 & Ekr2 & Hty2 & Hinv2 & Hin2 & Hout2);
    [exact (ok_types _ _ _ Hok1)|done|by apply Hu|].
  cbn [mbind outcome_bind]. cbn in Et2, Ek2, Er2, Ec2, Ekr2, Hin2, Hout2.
  assert (Hok2 : mm_ok n R s2).
  { split; [rewrite Et2; exact (ok_wf _ _ _ Hok1)|rewrite Et2, Ek2; exact (ok_heap _ _ _ Hok1)|done|].
    rewrite Et2, Ekr2. exact (ok_kroot _ _ _ Hok1). }
  assert (Hwk2 : forall m, (m <= 3)%nat -> walk (tabs s2) root (take m (va_path va)) = walk (tabs s) root (take m (va_path va))).
  { intros m Hm. rewrite Et2. apply Hwk1; [done| |rewrite length_take; lia].
    apply (okp_app n _ (drop m (va_path va))). by rewrite take_drop. }
  pose proof (Hwk2 3%nat ltac:(lia)) as W3. pose proof (Hwk2 2%nat ltac:(lia)) as W2. pose proof (Hwk2 1%nat ltac:(lia)) as W1.
  rewrite (Hw1 : walk _ _ (take 1 (va_path va)) = _) in W1. rewrite (Hw2 : walk _ _ (take 2 (va_path va)) = _) in W2.
  rewrite (Hw3 : walk _ _ (take 3 (va_path va)) = _) in W3.
  assert (Hd2 : dom (tabs s2) = dom (tabs s)) by (rewrite Et2; unfold s1, upd; cbn [tabs set_tabs]; by rewrite dom_alter_L).
  assert (Hv2 : forall r' p', r' ∈ R -> page_path n p' -> resolve (tabs s2) r' p' =
       if decide (r' = root /\ p' = va_path va) then None else resolve (tabs s) r' p').
  { intros r' p' Hr' (Hp1 & Hp2 & _). rewrite Et2. unfold s1. cbn [tabs set_tabs]. by rewrite Hv1. }
  destruct (collapse_prunes n R s2 root (va_path va) 2 b2 i2 b3 3 Hok2 Hr Ho ltac:(lia) eq_refl eq_refl W2 W3)
    as (s3 & -> & Hok3 & Hre3 & Hd3 & Hv3 & Hp3' & Hwk3); [intros k b Hk; lia|].
  cbn [mbind outcome_bind]. unfold rest in Hre3. injection Hre3 as Q1 Q2 Q3 Q4.
  rewrite <- (Hwk3 1%nat ltac:(lia)) in W1. rewrite <- (Hwk3 2%nat ltac:(lia)) in W2.
  destruct (collapse_prunes n R s3 root (va_path va) 1 b1 i1 b2 2 Hok3 Hr Ho ltac:(lia) eq_refl eq_refl W1 W2)
    as (s4 & -> & Hok4 & Hre4 & Hd4 & Hv4 & Hp4' & Hwk4); [done|].
  cbn [mbind outcome_bind]. unfold rest in Hre4. injection Hre4 as Q5 Q6 Q7 Q8.
  rewrite <- (Hwk4 1%nat ltac:(lia)) in W1.
  assert (Hlast : exists s5, (if decide (i0 < 256)%nat then collapse_table s4 b1 root i0 1 else Ok s4) = Ok s5 /\
    mm_ok n R s5 /\ rest s5 = rest s4 /\ dom (tabs s5) ⊆ dom (tabs s4) /\
    (forall r' p', r' ∈ R -> okp n p' -> length p' = 4%nat -> resolve (tabs s5) r' p' = resolve (tabs s4) r' p') /\
    pruned (if decide (i0 < 256)%nat then 1 else 2) (tabs s5) root (va_path va)).
  { destruct (decide (i0 < 256)%nat); [|exists s4; splits; auto].
    destruct (collapse_prunes n R s4 root (va_path va) 0 root i0 b1 1 Hok4 Hr Ho ltac:(lia) eq_refl eq_refl eq_refl W1)
      as (s5 & -> & ? & ? & ? & ? & ? & _); [done|]. exists s5. splits; auto. }
  destruct Hlast as (s5 & -> & Hok5 & Hre5 & Hd5 & Hv5 & Hp5). cbn [mbind outcome_bind].
  unfold rest in Hre5. injection Hre5 as Q9 Q10 Q11 Q12.
  exists s5, e3. split; [done|]. split; [done|]. split; [done|]. rewrite Q10, Q6, Q2.
  split; [congruence|]. split; [congruence|]. split; [congruence|]. split; [done|]. split; [done|]. split; [done|].
  split; [etrans; [exact Hd5|]; etrans; [exact Hd4|]; rewrite <- Hd2; exact Hd3|]. split; [|done].
  intros r' p' Hr' Hp'. pose proof Hp' as (Hp1 & Hp2 & _). by rewrite Hv5, Hv4, Hv3, Hv2.
Qed.
(** ** Tearing down: which paths are erased *)

(** [T'] is [T] without the tables at the paths of root [r] selected by [X]:
    such paths lead nowhere, every other walk is as before, and exactly the
    tables that were at a selected path are gone.  Translations change only
    within [Y]. *)
Record erased (n : nat) (R : gset Z) (T T' : gmap Z (list Z)) (r : Z) (X Y : list nat -> bool) : Prop := {
  er_walk r' p : r' ∈ R -> okp n p -> (length p <= 3)%nat ->
    walk T' r' p = if decide (r' = r /\ X p = true) then None else walk T r' p;
  er_out r' p : r' ∈ R -> okp n p -> length p = 4%nat -> ~ (r' = r /\ Y p = true) -> resolve T' r' p = resolve T r' p;
  er_dom b : b ∈ dom T' <->
    b ∈ dom T /\ ~ exists p, okp n p /\ (length p <= 3)%nat /\ X p = true /\ walk T r p = Some b
}.

Lemma erased_none n R T r X Y : (forall p, okp n p -> (length p <= 3)%nat -> X p = true -> walk T r p = None) ->
  erased n R T T r X Y.
Proof.
  intros H1. split; [|done|].
  - intros r' p _ Ho Hl. case_decide as Hd; [destruct Hd as [-> Hx]; by apply H1|done].
  - intros b. split; [|by intros [? _]]. intros Hb. split; [done|]. intros (p & Ho & Hl & Hx & Hp).
    rewrite H1 in Hp by done. done.
Qed.

Lemma erased_trans n R T1 T2 T3 r X1 X2 Y : r ∈ R -> erased n R T1 T2 r X1 Y -> erased n R T2 T3 r X2 Y ->
  erased n R T1 T3 r (fun p => X1 p || X2 p) Y.
Proof.
  intros Hr [W1 V1 D1] [W2 V2 D2]. split.
  - intros r' p Hr' Ho Hl. rewrite W2, W1 by done. clear -Hr. by destruct (X1 p), (X2 p), (decide (r' = r)) as [->|];
      simpl; repeat case_decide; try tauto.
  - intros r' p Hr' Ho Hl Hn. by rewrite V2, V1.
  - intros b. rewrite D2, D1. split.
    + intros [[Hb Hx] Hy]. split; [done|]. intros (p & Ho & Hl & Hxy & Hp).
      destruct (X1 p) eqn:Ex; [apply Hx; eauto 10|]. apply Hy. exists p. simpl in Hxy. splits; auto.
      rewrite W1 by done. rewrite decide_False; [done|]. intros [_ ?]. congruence.
    + intros [Hb Hxy]. splits; auto.
      * intros (p & Ho & Hl & Hx & Hp). apply Hxy. exists p. by rewrite Hx.
      * intros (p & Ho & Hl & Hy & Hp). rewrite W1 in Hp by done. case_decide as Hd; [done|].
        apply Hxy. exists p. by rewrite Hy, orb_true_r.
Qed.

Lemma erased_mono n R T T' r X X' Y Y' : (forall p, X p = X' p) -> (forall p, Y p = true -> Y' p = true) ->
  erased n R T T' r X Y -> erased n R T T' r X' Y'.
Proof.
  intros He HY [W V D]. split.
  - intros r' p Hr Ho Hl. by rewrite W, He.
  - intros r' p Hr Ho Hl Hn. apply V; auto. naive_solver.
  - intros b. rewrite D. by setoid_rewrite He.
Qed.

Definition below (P p : list nat) : bool := bool_decide (P `prefix_of` p).
Lemma below_true P p : below P p = true <-> P `prefix_of` p.
Proof. unfold below. by rewrite bool_decide_eq_true. Qed.

Lemma erased_pre n R T T0 T' r X Y :
  (forall r' p, r' ∈ R -> okp n p -> (length p <= 3)%nat -> walk T0 r' p = walk T r' p) ->
  (forall r' p, r' ∈ R -> okp n p -> length p = 4%nat -> ~ (r' = r /\ Y p = true) -> resolve T0 r' p = resolve T r' p) ->
  dom T0 = dom T -> r ∈ R -> erased n R T0 T' r X Y -> erased n R T T' r X Y.
Proof.
  intros Hw Hv Hd Hr [W V D]. split.
  - intros r' p Hr' Ho Hl. rewrite W, Hw by done. done.
  - intros r' p Hr' Ho Hl Hn. rewrite V by done. by apply Hv.
  - intros b. rewrite D, Hd. split; intros [Hb Hn]; (split; [done|]); intros (p & Ho & Hl & Hx & Hp);
      apply Hn; exists p; splits; auto; [rewrite Hw|rewrite <- Hw]; auto.
Qed.

(** Clearing a slot. *)
Lemma unlink_entry n R s r p a i e :
  mm_ok n R s -> r ∈ R -> okp n (p ++ [i]) -> (length p <= 2)%nat -> walk (tabs s) r p = Some a ->
  entry (tabs s) a i = Some e ->
  let T1 := upd (tabs s) a i 0 in
  store_entry s a i 0 = Ok (set_tabs T1 s) /\ mm_ok n R (set_tabs T1 s) /\ dom T1 = dom (tabs s) /\
  (forall r' p', r' ∈ R -> okp n p' -> (length p' <= 3)%nat ->
     walk T1 r' p' = if decide (r' = r /\ below (p ++ [i]) p' = true) then None else walk (tabs s) r' p') /\
  (forall r' p', r' ∈ R -> okp n p' -> length p' = 4%nat ->
     resolve T1 r' p' = if decide (r' = r /\ below (p ++ [i]) p' = true) then None else resolve (tabs s) r' p').
Proof.
  intros Hok Hr Ho Hl Hw He T1. pose proof (ok_wf _ _ _ Hok) as Hwf. assert (Hl3 : (length p <= 3)%nat) by lia.
  assert (Hag : forall r' q c k, r' ∈ R -> okp n q -> (length q <= 3)%nat -> walk (tabs s) r' q = Some c ->
     c <> a \/ k <> i -> entry T1 c k = entry (tabs s) c k).
  { intros r' q c k _ _ _ _ Hne. unfold T1. rewrite entry_upd. by rewrite decide_False by naive_solver. }
  assert (HeT : entry T1 a i = Some 0) by (unfold T1; rewrite entry_upd, decide_True by done; by rewrite He).
  destruct (cut_spec Hwf Hr Ho Hl3 Hw Hag HeT) as [Hwf1 Hwk1]; [done|intros; eapply upd_keeps; eauto|].
  splits.
  - by apply store_entry_eq with e.
  - split; [done| |exact (ok_types _ _ _ Hok)|apply kroot_upd, (ok_kroot _ _ _ Hok)]. unfold T1. cbn [tabs set_tabs kheap]. rewrite window_tabs_upd.
    exact (ok_heap _ _ _ Hok).
  - unfold T1, upd. by rewrite dom_alter_L.
  - intros r' p' Hr' Ho' Hl'. rewrite Hwk1 by (auto; lia). by apply decide_ext; rewrite below_true.
  - intros r' p' Hr' Ho' Hl'. destruct (path_cases (r := r) (p := p) (i := i) r' p') as [(-> & q & ->)|Hnp].
    + rewrite decide_True by (split; [done|]; apply below_true; exists q; by rewrite <- app_assoc).
      by rewrite (ch_on_resolve Hwf Hr Ho Hl3 Hw Hag HeT).
    + rewrite decide_False by (rewrite below_true; naive_solver).
      apply (ch_off Hwf Hr Ho Hl3 Hw Hag); [done..|lia|done].
Qed.

(** Unlinking and freeing a table with nothing below it. *)
Lemma drop_table_spec n R s r p a i e lv :
  mm_ok n R s -> r ∈ R -> okp n (p ++ [i]) -> (length p <= 2)%nat -> walk (tabs s) r p = Some a ->
  entry (tabs s) a i = Some e -> is_table e = true ->
  (forall q, q <> [] -> (length (p ++ i :: q) <= 3)%nat -> walk (tabs s) r (p ++ i :: q) = None) ->
  exists s', (s1 ← store_entry s a i 0; ir0_mm_free_table_frame s1 (mm_pte_phys e) lv) = Ok s' /\
    mm_ok n R s' /\ rest s' = rest s /\ erased n R (tabs s) (tabs s') r (below (p ++ [i])) (below (p ++ [i])) /\
    (forall p', okp n p' -> length p' = 4%nat -> below (p ++ [i]) p' = true -> resolve (tabs s') r p' = None).
Proof.
  intros Hok Hr Ho Hl Hw He Ht Hch. set (b := mm_pte_phys e). pose proof (ok_wf _ _ _ Hok) as Hwf.
  assert (Hb : walk (tabs s) r (p ++ [i]) = Some b) by (apply walk_snoc_Some; eauto 10).
  assert (Hlb : (length (p ++ [i]) <= 3)%nat) by (rewrite length_app; simpl; lia).
  destruct (wf_live _ _ _ _ _ Hwf _ _ _ Hr Ho Hlb Hb) as (Hb0 & t & Hbt & Hlt).
  destruct (unlink_entry n R s r p a i e Hok Hr Ho Hl Hw He) as (-> & Hok1 & Hd1 & Hw1 & Hv1). cbn [mbind outcome_bind].
  set (s1 := set_tabs _ s) in *.
  destruct (free_table_spec n R s1 b lv Hok1) as (s2 & E2 & Hok2 & Hre2 & Ht2 & Hwk2 & Hres2).
  - by apply (wf_window _ _ _ _ _ Hwf r (p ++ [i])); [|done|destruct p| |].
  - apply elem_of_dom. cbn [tabs set_tabs s1]. rewrite Hd1. apply elem_of_dom. eauto.
  - intros r' p' Hr' Ho' Hl' Hc. cbn [tabs set_tabs s1] in Hc. rewrite Hw1 in Hc by done. case_decide as Hd; [done|].
    apply Hd. destruct (wf_inj _ _ _ _ _ Hwf r' p' r (p ++ [i]) b) as [-> ->]; auto. split; [done|]. by apply below_true.
  - rewrite E2. exists s2. split; [done|]. split; [done|]. split; [done|]. split; [split|].
    + intros r' p' Hr' Ho' Hl'. rewrite Hwk2 by done. by apply Hw1.
    + intros r' p' Hr' Ho' Hl' Hn. rewrite Hres2 by (auto; lia). cbn [tabs set_tabs s1]. by rewrite Hv1, decide_False.
    + intros c. rewrite Ht2, dom_delete_L. cbn [tabs set_tabs s1]. rewrite Hd1, elem_of_difference, elem_of_singleton.
      split; intros [Hc Hn]; (split; [done|]).
      * intros (p' & Ho' & Hl' & Hx & Hp). apply Hn. apply below_true, prefix_path in Hx as [[|j q] ->]; [congruence|].
        rewrite Hch in Hp by done. done.
      * intros ->. apply Hn. exists (p ++ [i]). splits; auto. by apply below_true.
    + intros p' Ho' Hl' Hbl. rewrite Hres2 by (auto; lia). cbn [tabs set_tabs s1]. by rewrite Hv1, decide_True.
Qed.

(** Zeroing a third-level table. *)
Lemma zero_leaf_table n R s r P b t z : mm_ok n R s -> r ∈ R -> okp n P -> length P = 3%nat ->
  walk (tabs s) r P = Some b -> tabs s !! b = Some t -> length z = 512%nat ->
  let T0 := <[b := z]> (tabs s) in
  mm_ok n R (set_tabs T0 s) /\ dom T0 = dom (tabs s) /\
  (forall r' p, r' ∈ R -> okp n p -> (length p <= 3)%nat -> walk T0 r' p = walk (tabs s) r' p) /\
  (forall r' p, r' ∈ R -> okp n p -> length p = 4%nat -> ~ (r' = r /\ below P p = true) -> resolve T0 r' p = resolve (tabs s) r' p).
Proof.
  intros Hok Hr Ho Hl Hw Ht Hlz T0. pose proof (ok_wf _ _ _ Hok) as Hwf.
  assert (Hd : dom T0 = dom (tabs s)).
  { unfold T0. rewrite dom_insert_L. assert (b ∈ dom (tabs s)) by (apply elem_of_dom; eauto). set_solver. }
  assert (Hent : forall r' q c j, r' ∈ R -> okp n q -> (length q <= 3)%nat -> walk (tabs s) r' q = Some c ->
    ~ (r' = r /\ q = P) -> entry T0 c j = entry (tabs s) c j).
  { intros r' q c j Hr' Hq Hlq Hc Hne. apply entry_insert_ne. intros ->. apply Hne.
    destruct (wf_inj _ _ _ _ _ Hwf r' q r P b) as [-> ->]; auto. lia. }
  assert (Hwk : forall r' p, r' ∈ R -> okp n p -> (length p <= 3)%nat -> walk T0 r' p = walk (tabs s) r' p).
  { intros r' p Hr' Ho' Hl'. apply walk_frame. intros q j q' c -> Hc. rewrite length_app in Hl'. simpl in Hl'.
    apply (Hent r' q); auto; [by eapply okp_app|lia|]. intros [_ ->]. lia. }
  split; [|split; [done|split; [done|]]].
  - split; cbn [tabs set_tabs kheap ftypes].
    + apply (wf_change Hwf _ None); [| |done].
      * intros r' p c Hr' Ho' Hl' Hc. left. by rewrite <- Hwk.
      * intros r' p c t' _ _ _ _ _ Hc Hlc. unfold T0. destruct (decide (c = b)) as [->|].
        -- rewrite lookup_insert_eq. eauto.
        -- rewrite lookup_insert_ne by done. eauto.
    + unfold window_tabs. rewrite Hd. exact (ok_heap _ _ _ Hok).
    + exact (ok_types _ _ _ Hok).
    + destruct (ok_kroot _ _ _ Hok) as [Hk|[(tk & Htk & Hlk) Hwk']]; [by left|right]. split; [|done].
      unfold T0. destruct (decide (paging_kernel_root s = b)) as [Eb|Eb].
      * exists z. cbn [paging_kernel_root set_tabs]. by rewrite Eb, lookup_insert_eq.
      * exists tk. cbn [paging_kernel_root set_tabs]. by rewrite lookup_insert_ne.
  - intros r' p Hr' Ho' Hl' Hn. apply resolve_frame. intros q j q' c -> Hc. rewrite length_app in Hl'. simpl in Hl'.
    apply (Hent r' q); auto; [by eapply okp_app|lia|]. intros [-> ->]. apply Hn. split; [done|].
    apply below_true. by exists (j :: q').
Qed.
(** ** [paging_reclaim_user_tables] *)

Lemma below_app P q p : below (P ++ q) p = true -> below P p = true.
Proof. rewrite !below_true. intros [x ->]. exists (q ++ x). by rewrite app_assoc. Qed.

Lemma existsb_below P l p : Forall (fun i => i < 512)%nat l ->
  existsb (fun i => below (P ++ [i]) p) l = true -> below P p = true /\ p <> P.
Proof.
  intros Hl He. apply existsb_exists in He as (i & _ & Hi). split; [by eapply below_app|].
  intros ->. apply below_true, prefix_length in Hi. rewrite length_app in Hi. simpl in Hi. lia.
Qed.

(** A loop whose body erases what lies below one slot of a table. *)
Lemma each_erases n R r P a (f : nat -> pg_state H -> outcome (pg_state H)) (Y : list nat -> bool) l s :
  r ∈ R -> okp n P -> (length P <= 3)%nat -> Forall (fun i => i < 512)%nat l ->
  (forall i s, i ∈ l -> mm_ok n R s -> walk (tabs s) r P = Some a ->
     exists s', f i s = Ok s' /\ mm_ok n R s' /\ rest s' = rest s /\
       erased n R (tabs s) (tabs s') r (below (P ++ [i])) Y) ->
  mm_ok n R s -> walk (tabs s) r P = Some a ->
  exists s', each f l s = Ok s' /\ mm_ok n R s' /\ rest s' = rest s /\ walk (tabs s') r P = Some a /\
    erased n R (tabs s) (tabs s') r (fun p => existsb (fun i => below (P ++ [i]) p) l) Y.
Proof.
  intros Hr HoP HlP. revert s. induction l as [|i l IH]; intros s Hl Hf Hok Hw; simpl.
  - exists s. splits; auto. by apply erased_none.
  - apply Forall_cons in Hl as [Hi Hl].
    destruct (Hf i s) as (s1 & -> & Hok1 & Hre1 & Her1); [left|done|done|]. cbn [mbind outcome_bind].
    assert (Hw1 : walk (tabs s1) r P = Some a).
    { rewrite (er_walk _ _ _ _ _ _ _ Her1) by auto. rewrite decide_False; [done|]. rewrite below_true.
      intros [_ Hp]. apply prefix_length in Hp. rewrite length_app in Hp. simpl in Hp. lia. }
    destruct (IH s1 Hl) as (s2 & -> & Hok2 & Hre2 & Hw2 & Her2); auto; [intros; apply Hf; auto; by right|].
    exists s2. splits; auto; [congruence|]. exact (erased_trans _ _ _ _ _ _ _ _ _ Hr Her1 Her2).
Qed.

Lemma reclaim_slot3_spec n R r i0 i1 l2 i2 s :
  r ∈ R -> okp n [i0] -> (i2 < 512)%nat -> mm_ok n R s -> walk (tabs s) r [i0; i1] = Some l2 ->
  exists s', reclaim_slot3 l2 i2 s = Ok s' /\ mm_ok n R s' /\ rest s' = rest s /\
    erased n R (tabs s) (tabs s') r (below ([i0; i1] ++ [i2])) (below [i0; i1]).
Proof.
  intros Hr Ho Hi Hok Hw.
  assert (Hbl : forall p, below ([i0; i1] ++ [i2]) p = true -> below [i0; i1] p = true) by (intros; by eapply below_app).
  destruct (descend_cases n R s r [i0; i1] l2 i2 [0%nat] Hok Hr Ho Hi ltac:(simpl; lia) Hw ltac:(done))
    as (e & El & He & [(Hp & Hres & Hwn)|[(Hp & Hlg & Hres & Hwn)|(Hp & Hlg & Hnz & Hph & Hwn)]]);
    unfold reclaim_slot3; rewrite El; cbn [mbind outcome_bind]; rewrite Hp; simpl negb; cbv iota.
  - exists s. splits; auto. apply erased_none. intros p Hop Hl Hx. apply below_true in Hx as [q ->]. by rewrite walk_app, Hwn.
  - unfold paging_entry_large. rewrite Hlg.
    destruct (unlink_entry n R s r [i0; i1] l2 i2 e Hok Hr Ho ltac:(simpl; lia) Hw He) as (-> & Hok1 & Hd1 & Hw1 & Hv1).
    eexists. split; [reflexivity|]. split; [done|]. split; [done|]. split; cbn [tabs set_tabs].
    + done.
    + intros r' p Hr' Hop Hl Hn. rewrite Hv1 by done. rewrite decide_False; [done|]. naive_solver.
    + intros b. rewrite Hd1. split; [|by intros [? _]]. intros Hb. split; [done|]. intros (p & Hop & Hl & Hx & Hpp).
      apply below_true in Hx as [q ->]. by rewrite walk_app, Hwn in Hpp.
  - unfold paging_entry_large. rewrite Hlg, decide_False by done.
    destruct (wf_live _ _ _ _ _ (ok_wf _ _ _ Hok) r [i0; i1; i2] _ Hr Ho ltac:(simpl; lia) Hwn) as (_ & t & Ht & Hlt).
    rewrite Ht. cbn [mbind outcome_bind or_ub]. rewrite decide_True by done. cbn [mbind outcome_bind].
    assert (Hz : length (replicate 512 0) = 512%nat) by apply length_replicate. revert Hz. generalize (replicate 512 0) as z. intros z Hz.
    destruct (zero_leaf_table n R s r [i0; i1; i2] _ t z Hok Hr Ho eq_refl Hwn Ht Hz) as (Hok0 & Hd0 & Hw0 & Hv0).
    set (s0 := set_tabs _ s) in *.
    assert (He0 : entry (tabs s0) l2 i2 = Some e).
    { unfold s0. cbn [tabs set_tabs]. rewrite entry_insert_ne; [done|]. intros ->.
      destruct (wf_inj _ _ _ _ _ (ok_wf _ _ _ Hok) r [i0; i1] r [i0; i1; i2] (paging_entry_table e)) as [_ ?]; auto; simpl; lia || done. }
    destruct (drop_table_spec n R s0 r [i0; i1] l2 i2 e 3 Hok0 Hr Ho ltac:(simpl; lia)) as (s' & E & Hok' & Hre' & Her & _).
    + unfold s0. cbn [tabs set_tabs]. rewrite Hw0; [done|done|done|simpl; lia].
    + done.
    + unfold is_table. by rewrite Hp, Hlg.
    + intros q Hq Hl. rewrite length_app in Hl. simpl in Hl. destruct q; [done|simpl in Hl; lia].
    + exists s'. unfold paging_entry_pfn. split; [exact E|]. split; [done|]. split; [done|].
      eapply erased_mono; [done|exact Hbl|]. eapply (erased_pre _ _ _ (tabs s0)); eauto.
Qed.
Lemma seq_lt k : Forall (fun i => i < k)%nat (seq 0 k).
Proof. apply Forall_forall. intros i Hi. apply elem_of_seq in Hi. lia. Qed.

(** The common shape of the two outer loop bodies: empty the table below a
    slot, then clear the slot and free the table. *)
Lemma reclaim_below n R r p a i e f lv s :
  mm_ok n R s -> r ∈ R -> okp n (p ++ [i]) -> (length p <= 1)%nat -> walk (tabs s) r p = Some a ->
  entry (tabs s) a i = Some e -> is_table e = true ->
  (forall j s, (j < 512)%nat -> mm_ok n R s -> walk (tabs s) r (p ++ [i]) = Some (mm_pte_phys e) ->
     exists s', f j s = Ok s' /\ mm_ok n R s' /\ rest s' = rest s /\
       erased n R (tabs s) (tabs s') r (below ((p ++ [i]) ++ [j])) (below (p ++ [i]))) ->
  exists s', (s1 ← each f (seq 0 512) s; s2 ← store_entry s1 a i 0; ir0_mm_free_table_frame s2 (mm_pte_phys e) lv) = Ok s' /\
    mm_ok n R s' /\ rest s' = rest s /\ erased n R (tabs s) (tabs s') r (below (p ++ [i])) (below (p ++ [i])) /\
    (forall p', okp n p' -> length p' = 4%nat -> below (p ++ [i]) p' = true -> resolve (tabs s') r p' = None).
Proof.
  intros Hok Hr Ho Hl Hw He Ht Hf. pose proof (seq_lt 512) as Hsq. revert Hsq.
  assert (Hin : forall j, (j < 512)%nat -> j ∈ seq 0 512) by (intros j Hj; apply elem_of_seq; lia). revert Hin.
  generalize (seq 0 512) as l. intros l Hin Hsq.
  assert (Hb : walk (tabs s) r (p ++ [i]) = Some (mm_pte_phys e)) by (apply walk_snoc_Some; eauto 10).
  assert (Hlb : (length (p ++ [i]) <= 3)%nat) by (rewrite length_app; simpl; lia).
  destruct (each_erases n R r (p ++ [i]) (mm_pte_phys e) f (below (p ++ [i])) l s) as (s1 & -> & Hok1 & Hre1 & Hb1 & Her1); auto.
  { intros j s0 Hj. apply Hf. rewrite Forall_forall in Hsq. by apply Hsq. }
  cbn [mbind outcome_bind]. apply walk_snoc_Some in Hb1 as Hx. destruct Hx as (a1 & e1 & Hw1 & He1 & Ht1 & Hph).
  assert (a1 = a) as ->.
  { rewrite (er_walk _ _ _ _ _ _ _ Her1) in Hw1; [|done|by eapply okp_app|lia]. case_decide; [done|]. congruence. }
  destruct (drop_table_spec n R s1 r p a i e1 lv Hok1 Hr Ho ltac:(lia) Hw1 He1 Ht1) as (s2 & E2 & Hok2 & Hre2 & Her2 & Hv2).
  { intros [|j q] Hq Hlq; [done|]. rewrite length_app in Hlq. simpl in Hlq.
    rewrite (er_walk _ _ _ _ _ _ _ Her1); [|done|by destruct p|rewrite length_app; simpl; lia].
    destruct (decide (j < 512)%nat) as [Hj|Hj].
    - rewrite decide_True; [done|]. split; [done|]. apply existsb_exists. exists j.
      split; [by apply list_elem_of_In, Hin|]. apply below_true. exists q. by rewrite <- !app_assoc.
    - case_decide; [done|]. replace (p ++ i :: j :: q) with ((p ++ [i]) ++ j :: q) by by rewrite <- app_assoc.
      rewrite walk_app, Hb. simpl.
      destruct (wf_live _ _ _ _ _ (ok_wf _ _ _ Hok) _ _ _ Hr Ho Hlb Hb) as (_ & t & Htt & Hlt).
      unfold entry. rewrite Htt. simpl. by rewrite lookup_ge_None_2 by lia. }
  rewrite Hph. exists s2. split; [exact E2|]. split; [done|]. split; [congruence|]. split; [|done].
  eapply erased_mono; [|done|exact (erased_trans _ _ _ _ _ _ _ _ _ Hr Her1 Her2)].
  intros q. simpl. destruct (existsb _ l) eqn:E; [|done]. apply existsb_below in E as [-> _]; done.
Qed.

Lemma reclaim_slot2_spec n R r i0 l1 i1 s :
  r ∈ R -> okp n [i0] -> (i1 < 512)%nat -> mm_ok n R s -> walk (tabs s) r [i0] = Some l1 ->
  exists s', reclaim_slot2 l1 i1 s = Ok s' /\ mm_ok n R s' /\ rest s' = rest s /\
    erased n R (tabs s) (tabs s') r (below ([i0] ++ [i1])) (below [i0]).
Proof.
  intros Hr Ho Hi Hok Hw.
  destruct (descend_cases n R s r [i0] l1 i1 [0%nat; 0%nat] Hok Hr Ho Hi ltac:(simpl; lia) Hw ltac:(done))
    as (e & El & He & [(Hp & Hres & Hwn)|[(Hp & Hlg & Hres & Hwn)|(Hp & Hlg & Hnz & Hph & Hwn)]]);
    unfold reclaim_slot2, paging_entry_large; rewrite El; cbn [mbind outcome_bind]; rewrite Hp, ?Hlg; simpl orb; cbv iota.
  1, 2: exists s; splits; auto; apply erased_none; intros p Hop Hl Hx; apply below_true in Hx as [q ->]; by rewrite walk_app, Hwn.
  rewrite decide_False by done.
  destruct (reclaim_below n R r [i0] l1 i1 e (reclaim_slot3 (paging_entry_table e)) 2 s) as (s' & E & Hok' & Hre' & Her & _); auto.
  - unfold is_table. by rewrite Hp, Hlg.
  - intros j s0 Hj Hok0 Hw0. rewrite Hph in Hw0. by apply reclaim_slot3_spec.
  - exists s'. unfold paging_entry_pfn. split; [exact E|]. split; [done|]. split; [done|].
    eapply erased_mono; [done| |exact Her]. intros q. apply below_app.
Qed.

(** What survives in the user half: a root slot that is itself a leaf. *)
Definition root_leaf (v : option (Z * nat)) : option (Z * nat) :=
  match v with Some (e, 3%nat) => Some (e, 3%nat) | _ => None end.

Lemma reclaim_slot1_spec n R r i0 s :
  r ∈ R -> okp n [i0] -> (i0 < 512)%nat -> mm_ok n R s ->
  exists s', reclaim_slot1 r i0 s = Ok s' /\ mm_ok n R s' /\ rest s' = rest s /\
    erased n R (tabs s) (tabs s') r (below ([] ++ [i0])) (below [i0]) /\
    (forall p, okp n p -> length p = 4%nat -> below [i0] p = true -> resolve (tabs s') r p = root_leaf (resolve (tabs s) r p)).
Proof.
  intros Hr Ho Hi Hok.
  destruct (descend_cases n R s r [] r i0 [0%nat; 0%nat; 0%nat] Hok Hr Ho Hi ltac:(simpl; lia) eq_refl ltac:(done))
    as (e & El & He & [(Hp & Hres & Hwn)|[(Hp & Hlg & Hres & Hwn)|(Hp & Hlg & Hnz & Hph & Hwn)]]);
    unfold reclaim_slot1, paging_entry_large; rewrite El; cbn [mbind outcome_bind]; rewrite Hp, ?Hlg; simpl orb; cbv iota.
  1, 2: exists s; splits; auto; [apply erased_none; intros p Hop Hl Hx; apply below_true in Hx as [q ->]; by rewrite walk_app, Hwn|].
  - intros p Hop Hl Hx. apply below_true in Hx as [q ->]. simpl. by rewrite He, Hp.
  - intros p Hop Hl Hx. apply below_true in Hx as [[|j q] ->]; [done|]. simpl in *. rewrite He, Hp. simpl.
    rewrite Hlg. by replace (length q) with 2%nat by lia.
  - rewrite decide_False by done.
    destruct (reclaim_below n R r [] r i0 e (reclaim_slot2 (paging_entry_table e)) 1 s) as (s' & E & Hok' & Hre' & Her & Hv); auto.
    + unfold is_table. by rewrite Hp, Hlg.
    + intros j s0 Hj Hok0 Hw0. rewrite Hph in Hw0. by apply reclaim_slot2_spec.
    + exists s'. unfold paging_entry_pfn. split; [exact E|]. split; [done|]. split; [done|]. split; [exact Her|].
      intros p Hop Hl Hx. rewrite Hv by done. apply below_true in Hx as [q ->]. simpl in Hl.
      destruct q as [|j1 [|j2 [|j3 [|? ?]]]]; try (simpl in Hl; lia).
      rewrite (resolve_app _ _ _ _ _ Hwn) by done. simpl.
      repeat match goal with |- context [entry ?T ?b ?j] => destruct (entry T b j) end;
        repeat match goal with |- context [mm_pte_present ?x] => destruct (mm_pte_present x) end;
        repeat match goal with |- context [mm_pte_large ?x] => destruct (mm_pte_large x) end; done.
Qed.
Lemma reclaim_loop n R r l s : r ∈ R -> (n <= 512)%nat -> Forall (fun i => i < n)%nat l -> mm_ok n R s ->
  exists s', each (reclaim_slot1 r) l s = Ok s' /\ mm_ok n R s' /\ rest s' = rest s /\
    erased n R (tabs s) (tabs s') r (fun p => existsb (fun i => below [i] p) l) (fun p => existsb (fun i => below [i] p) l) /\
    (forall p, okp n p -> length p = 4%nat -> existsb (fun i => below [i] p) l = true ->
       resolve (tabs s') r p = root_leaf (resolve (tabs s) r p)).
Proof.
  intros Hr Hn. revert s. induction l as [|i l IH]; intros s Hl Hok; simpl.
  { exists s. splits; auto; [by apply erased_none|done]. }
  apply Forall_cons in Hl as [Hi Hl].
  destruct (reclaim_slot1_spec n R r i s Hr Hi ltac:(lia) Hok) as (s1 & -> & Hok1 & Hre1 & Her1 & Hv1).
  cbn [mbind outcome_bind]. simpl app in Her1.
  destruct (IH s1 Hl Hok1) as (s2 & -> & Hok2 & Hre2 & Her2 & Hv2).
  exists s2. split; [done|]. split; [done|]. split; [congruence|].
  assert (Her : erased n R (tabs s) (tabs s2) r (fun p => below [i] p || existsb (fun i => below [i] p) l)
     (fun p => below [i] p || existsb (fun i => below [i] p) l)).
  { eapply (erased_trans _ _ _ (tabs s1)); [done| |].
    - eapply erased_mono; [done| |exact Her1]. intros p Hp. by rewrite Hp.
    - eapply erased_mono; [done| |exact Her2]. intros p Hp. simpl. by rewrite Hp, orb_true_r. }
  split; [exact Her|]. intros p Ho Hlp Hx. destruct (existsb (fun i0 => below [i0] p) l) eqn:Ex.
  - rewrite Hv2 by done. destruct (below [i] p) eqn:Eb.
    + rewrite Hv1 by done. by destruct (resolve (tabs s) r p) as [[e [|[|[|[|]]]]]|].
    + rewrite (er_out _ _ _ _ _ _ _ Her1) by (auto; intros [_ ?]; congruence). done.
  - rewrite orb_false_r in Hx. rewrite (er_out _ _ _ _ _ _ _ Her2) by (auto; intros [_ ?]; congruence). by apply Hv1.
Qed.
End specs.

(** ** Main theorems *)

Section theorems.
Context {H : Type} `{!PageSource H, !PageSourceLaws H} (cur : option proc_view).

(** the walk functions read off the translation.  In a well-formed family of
    address spaces, [is_page_mapped_in_directory] answers 1 with the low flag
    bits exactly for an address that resolves to a leaf of any size and 0
    otherwise; [paging_get_pte] returns the slot of the 4 KiB leaf entry exactly when three
    levels of tables lead to it, NULL on a hole or a large leaf; and two
    addresses of the family never share that slot unless they are the same page of the same space. *)
Theorem walks_read_translation n R (s : pg_state H) root va :
  mm_ok n R s -> root ∈ R -> okp n (va_path va) ->
  is_page_mapped_in_directory s root va =
    Ok (match resolve (tabs s) root (va_path va) with Some (e, _) => (1, Some (Z.land e 0xFFF)) | None => (0, None) end) /\
  exists pte, paging_get_pte s root va = Ok pte /\
    match pte with
    | Some (t, i) => exists e, load_entry s t i = Ok e /\
        resolve (tabs s) root (va_path va) = (if mm_pte_present e then Some (e, 0%nat) else None) /\
        forall root' va', root' ∈ R -> okp n (va_path va') -> paging_get_pte s root' va' = Ok pte ->
          root' = root /\ va_path va' = va_path va
    | None => forall e, resolve (tabs s) root (va_path va) <> Some (e, 0%nat)
    end.
Proof.
  intros Hok Hr Ho. split; [by apply (is_page_mapped_spec n R)|]. rewrite (get_pte_spec n R) by done.
  eexists. split; [reflexivity|]. destruct (walk (tabs s) root (take 3 (va_path va))) as [b|] eqn:Hw.
  - destruct (third_level_entry n R s root va Hok Hr Ho b Hw) as (e & He & _ & Hres). exists e. splits; auto.
    intros root' va' Hr' Ho'. rewrite (get_pte_spec n R) by done.
    destruct (walk (tabs s) root' (take 3 (va_path va'))) as [b'|] eqn:Hw'; [|done]. intros [= -> Hi].
    destruct (wf_inj _ _ _ _ _ (ok_wf _ _ _ Hok) root' (take 3 (va_path va')) root (take 3 (va_path va)) b) as [-> Hp]; auto.
    split; [done|]. unfold va_path in *. simpl in Hp. congruence.
  - intros e He. change (va_path va) with (take 3 (va_path va) ++ [va_index va 12]) in He.
    apply resolve_small in He as (b & Hb & _). congruence.
Qed.

(** C6: [map_page_in_directory] always returns.  On success the page translates
    to exactly the leaf built from the frame and the flags; every other page of every
    address space of the family translates as before, except that a 2 MiB
    leaf over the page is broken into the supervisor identity of
    its frames below PMM_PHYS_BASE.  On failure no translation changes, and the
    cause is a 1 GiB or larger leaf over the address or the allocator
    refusing a page.  Frames, RAM and CR3 are not touched, the family
    stays well formed, and tables are only added, below this root. *)
Theorem map_page_in_directory_correct n R (s : pg_state H) root va pa fl :
  mm_ok n R s -> root ∈ R -> okp n (va_path va) ->
  exists s' rc, map_page_in_directory cur s root va pa fl = Ok (s', rc) /\ mm_ok n R s' /\ rest s' = rest s /\
    grows n R (tabs s) (tabs s') root /\
    ((rc = 0 /\ forall r' p', r' ∈ R -> page_path n p' ->
        resolve (tabs s') r' p' =
        if decide (r' = root /\ p' = va_path va) then Some (map_entry pa fl, 0%nat)
        else if decide (r' = root /\ take 3 p' = take 3 (va_path va)) then broken (resolve (tabs s) r' p') (p' !!! 3%nat)
        else resolve (tabs s) r' p') \/
     (rc = -1 /\ (forall r' p', r' ∈ R -> page_path n p' -> resolve (tabs s') r' p' = resolve (tabs s) r' p') /\
        ((exists e k, (2 <= k)%nat /\ resolve (tabs s) root (va_path va) = Some (e, k)) \/
         exists h, ps_inv h (window_tabs (tabs s')) /\ ps_alloc h = Ok (kheap s', 0)))).
Proof. apply map_page_spec. Qed.

(** C7: On a well-formed family of tables, [unmap_page_in_directory] of a page of the
    family whose frame, when the PMM manages it, is in use, fails, changing
    nothing, exactly when the address has no 4 KiB leaf.  Otherwise the page loses
    its translation, no other page of the family does, its frame loses one
    reference in the PMM when the PMM manages it (and the PMM is untouched when it
    does not), and every table left on the path (from level 1 in the user half,
    level 2 in the kernel half) still holds an entry: emptied tables were returned
    to the allocator, and none was added. *)
Theorem unmap_page_in_directory_correct n R (s : pg_state H) root va :
  mm_ok n R s -> root ∈ R -> okp n (va_path va) -> pmm_inv (pmm s) ->
  (forall e, resolve (tabs s) root (va_path va) = Some (e, 0%nat) -> frame_used (pmm s) (mm_pte_phys e)) ->
  (unmap_page_in_directory s root va = Ok (s, -1) /\ forall e, resolve (tabs s) root (va_path va) <> Some (e, 0%nat)) \/
  exists s' e, unmap_page_in_directory s root va = Ok (s', 0) /\ resolve (tabs s) root (va_path va) = Some (e, 0%nat) /\
    mm_ok n R s' /\ ram s' = ram s /\ cr3 s' = cr3 s /\ paging_kernel_root s' = paging_kernel_root s /\
    pmm_inv (pmm s') /\
    (in_pmm (pmm s) (mm_pte_phys e) -> pmm_frame_put (pmm s) (mm_pte_phys e) = Ok (pmm s')) /\
    (~ in_pmm (pmm s) (mm_pte_phys e) -> pmm s' = pmm s) /\
    dom (tabs s') ⊆ dom (tabs s) /\
    (forall r' p', r' ∈ R -> page_path n p' -> resolve (tabs s') r' p' =
       if decide (r' = root /\ p' = va_path va) then None else resolve (tabs s) r' p') /\
    pruned (if decide (va_index va 39 < 256)%nat then 1 else 2) (tabs s') root (va_path va).
Proof. apply unmap_page_spec. Qed.

(** C8: [paging_reclaim_user_tables] frees every table of the user half of the
    address space and nothing else, without touching a freed page: afterwards no user page
    translates (only a root slot that is itself a leaf is left as it was), the other address
    spaces translate as before, and the live tables are exactly those that
    were not below a user slot of this root. *)
Theorem paging_reclaim_user_tables_correct R (s : pg_state H) root :
  mm_ok mm_user_root_slots R s -> root ∈ R ->
  exists s', paging_reclaim_user_tables s root = Ok s' /\ mm_ok mm_user_root_slots R s' /\ rest s' = rest s /\
    (forall p, page_path mm_user_root_slots p -> resolve (tabs s') root p = root_leaf (resolve (tabs s) root p)) /\
    (forall r' p, r' ∈ R -> r' <> root -> page_path mm_user_root_slots p -> resolve (tabs s') r' p = resolve (tabs s) r' p) /\
    (forall b, b ∈ dom (tabs s') <-> b ∈ dom (tabs s) /\
       ~ exists p, okp mm_user_root_slots p /\ p <> [] /\ (length p <= 3)%nat /\ walk (tabs s) root p = Some b).
Proof.
  intros Hok Hr. unfold paging_reclaim_user_tables.
  rewrite decide_False by (eapply (root_nonzero mm_user_root_slots R s); eauto).
  pose proof (seq_lt mm_user_root_slots) as Hl.
  assert (Hin : forall i, (i < mm_user_root_slots)%nat -> i ∈ seq 0 mm_user_root_slots) by (intros; apply elem_of_seq; lia).
  revert Hl Hin. generalize (seq 0 mm_user_root_slots) as l. intros l Hl Hin.
  destruct (reclaim_loop mm_user_root_slots R root l s Hr) as (s' & E & Hok' & Hre & Her & Hv); auto; [unfold mm_user_root_slots; lia|].
  assert (HX : forall p, okp mm_user_root_slots p -> p <> [] -> existsb (fun i => below [i] p) l = true).
  { intros [|i p] Ho Hp; [done|]. apply existsb_exists. exists i. split; [by apply list_elem_of_In, Hin|].
    apply below_true. by exists p. }
  assert (HX0 : existsb (fun i => below [i] []) l = true -> False).
  { intros Hx. apply existsb_exists in Hx as (i & _ & Hx). apply below_true, prefix_length in Hx. simpl in Hx. lia. }
  exists s'. splits; auto.
  - intros p (Ho & Hlp & _). apply Hv; auto. apply HX; auto. by intros ->.
  - intros r' p Hr' Hne (Ho & Hlp & _). apply (er_out _ _ _ _ _ _ _ Her); auto. by intros [? _].
  - intros b. rewrite (er_dom _ _ _ _ _ _ _ Her). split; intros [Hb Hn]; (split; [done|]).
    + intros (p & Ho & Hp & Hlp & Hw). apply Hn. exists p. splits; auto.
    + intros (p & Ho & Hlp & Hx & Hw). apply Hn. exists p. splits; auto. intros ->. by apply HX0.
Qed.
End theorems.
