(* ===== verification/UserMem.v ===== *)
(** * User memory (src/mm/paging.c over the page tables)

    The operations of paging.c that also move frames and bytes: access to
    physical pages through the pinned kernel root, the copy-on-write break,
    [copy_to_user_region_in_directory] and its relatives,
    and [map_user_region_in_directory] with its rollback.

    RAM is a map from frame addresses to 4096 bytes.  The probe array that
    [copy_to_user_region_in_directory] fills for the debugger is left out. *)

From S2P Require Import Prelude Pmm PageTables.

(** Overwriting part of a page: memcpy into it. *)
Definition splice_page (page : list Z) (off : nat) (src : list Z) : list Z :=
  take off page ++ src ++ drop (off + length src) page.

Definition page_of (a : Z) : Z := Z.land a (Z.lnot 0xFFF).
Definition page_off (a : Z) : nat := Z.to_nat (Z.land a 0xFFF).

Section ops.
Context {H : Type} `{!PageSource H}.
Context (cur : option proc_view).
Implicit Types s : pg_state H.

Definition paging_pin_kernel_address_space s (root : Z) : pg_state H :=
  if decide (paging_kernel_root s <> 0 \/ root = 0) then s else set_kernel_root root s.

(** src/arch/x86-64/sources/arch_mm.c: copy the kernel half of the root table. *)
Definition mm_copy_kernel_half s (dst_root src_root : Z) : outcome (pg_state H) :=
  if decide (dst_root = 0 \/ src_root = 0) then Ok s else
  each (fun i s => e ← load_entry s src_root i;
                   if flag_set e PAGE_PRESENT then store_entry s dst_root i e else Ok s)
       (seq mm_user_root_slots (mm_root_slots - mm_user_root_slots)) s.

Definition paging_sync_kernel_mappings s (root : Z) : outcome (pg_state H) :=
  if decide (root = 0 \/ paging_kernel_root s = 0) then Ok s else
  if decide (root = paging_kernel_root s) then Ok s else
  mm_copy_kernel_half s root (paging_kernel_root s).

Definition paging_activate_address_space s (root : Z) : outcome (pg_state H) :=
  s ← (if decide (root <> 0) then paging_sync_kernel_mappings s root else Ok s);
  Ok (set_cr3 root s).

Definition paging_phys_map_begin s : outcome (pg_state H * Z) :=
  let saved_root := cr3 s in
  s ← (if decide (paging_kernel_root s <> 0 /\ paging_kernel_root s <> saved_root)
       then paging_activate_address_space s (paging_kernel_root s) else Ok s);
  Ok (s, saved_root).

Definition paging_phys_map_end s (saved_root : Z) : outcome (pg_state H) :=
  if decide (paging_kernel_root s <> 0 /\ paging_kernel_root s <> saved_root)
  then paging_activate_address_space s saved_root else Ok s.

(** Run an access to physical memory between the two. *)
Definition with_phys_map {A} s (f : pg_state H -> outcome (pg_state H * A)) : outcome (pg_state H * A) :=
  '(s, saved) ← paging_phys_map_begin s;
  '(s, a) ← f s;
  s ← paging_phys_map_end s saved;
  Ok (s, a).

(** memcpy and memset inside one frame. *)
Definition write_frame s (frame : Z) (off : nat) (src : list Z) : outcome (pg_state H * unit) :=
  page ← or_ub (ram s !! frame);
  if decide (off + length src <= length page)%nat
  then Ok (set_ram (<[frame := splice_page page off src]> (ram s)) s, tt) else UB.

Definition read_frame s (frame : Z) (off n : nat) : outcome (pg_state H * list Z) :=
  page ← or_ub (ram s !! frame);
  if decide (off + n <= length page)%nat then Ok (s, take n (drop off page)) else UB.

Definition paging_copy_phys_page s (dst_phys src_phys : Z) : outcome (pg_state H) :=
  '(s, _) ← with_phys_map s (fun s =>
     if decide (dst_phys = src_phys) then UB else
     '(s, src) ← read_frame s src_phys 0 4096; write_frame s dst_phys 0 src);
  Ok s.

Definition paging_zero_phys_page s (phys : Z) : outcome (pg_state H) :=
  '(s, _) ← with_phys_map s (fun s => write_frame s phys 0 (replicate 4096 0));
  Ok s.

Definition paging_poison_phys_page s (phys pattern : Z) : outcome (pg_state H) :=
  '(s, _) ← with_phys_map s (fun s => write_frame s phys 0 (replicate 4096 (u8 pattern)));
  Ok s.

(** ** Copy on write *)

Definition cow_flags (entry : Z) : Z :=
  let f := Z.lor (Z.lor (Z.land entry 0xFFF) PAGE_USER) PAGE_RW in
  let f := Z.land f (Z.lnot (Z.lor PAGE_COW PAGE_GLOBAL)) in
  if flag_set entry PAGE_NX then f else Z.lor f PAGE_EXEC.

Definition paging_cow_break_leaf s (root : Z) (pte : option (Z * nat)) (vaddr : Z) : outcome (pg_state H * Z) :=
  match pte with
  | None => Ok (s, -1)
  | Some (t, i) =>
      entry ← load_entry s t i;
      if negb (flag_set entry PAGE_PRESENT) then Ok (s, -1) else
      if flag_set entry PAGE_RW then Ok (s, 0) else
      if negb (flag_set entry PAGE_COW) || negb (flag_set entry PAGE_USER) then Ok (s, -1) else
      let old_phys := Z.land entry PAGE_PTE_PFN_MASK in
      let '(p, new_phys) := pmm_alloc_frame cur (pmm s) in
      let s := set_pmm p s in
      if decide (new_phys = 0) then Ok (s, -1) else
      s ← paging_copy_phys_page s new_phys old_phys;
      '(s, r) ← map_page_in_directory cur s root (page_of vaddr) new_phys (cow_flags entry);
      if decide (r <> 0) then
        p ← pmm_free_frame (pmm s) new_phys; Ok (set_pmm p s, -1)
      else
        p ← pmm_frame_put (pmm s) old_phys; Ok (set_pmm p s, 0)
  end.

(** The start of each loop iteration of the two writers: the frame behind
    the page, after breaking copy-on-write. *)
Definition writable_frame s (root page : Z) : outcome (pg_state H * option Z) :=
  pte ← paging_get_pte s root page;
  match pte with
  | None => Ok (s, None)
  | Some (t, i) =>
      e ← load_entry s t i;
      if negb (mm_pte_present e) then Ok (s, None) else
      if negb (flag_set e PAGE_RW) && flag_set e PAGE_COW then
        '(s, r) ← paging_cow_break_leaf s root (Some (t, i)) page;
        if decide (r <> 0) then Ok (s, None) else
        pte ← paging_get_pte s root page;
        match pte with
        | None => Ok (s, None)
        | Some (t, i) =>
            e ← load_entry s t i;
            if negb (mm_pte_present e) || negb (flag_set e PAGE_RW) then Ok (s, None)
            else Ok (s, Some (paging_entry_pfn e))
        end
      else Ok (s, Some (paging_entry_pfn e))
  end.

Definition chunk_len (addr : Z) (n : nat) : nat := Nat.min (4096 - page_off addr) n.

(** The loops advance by at least one byte; the fuel is the byte count. *)
Fixpoint copy_to_loop (fuel : nat) s (root dst : Z) (src : list Z) : outcome (pg_state H * Z) :=
  match src with
  | [] => Ok (s, 0)
  | _ =>
      match fuel with
      | O => UB
      | S k =>
          '(s, fr) ← writable_frame s root (page_of dst);
          match fr with
          | None => Ok (s, -1)
          | Some phys =>
              let chunk := chunk_len dst (length src) in
              '(s, _) ← with_phys_map s (fun s => write_frame s phys (page_off dst) (take chunk src));
              copy_to_loop k s root (u64 (dst + Z.of_nat chunk)) (drop chunk src)
          end
      end
  end.

(** [src = None] is a NULL source. *)
Definition copy_to_user_region_in_directory s (root dst : Z) (src : option (list Z)) : outcome (pg_state H * Z) :=
  match src with
  | None => Ok (s, -1)
  | Some src => if decide (root = 0) then Ok (s, -1) else copy_to_loop (length src) s root dst src
  end.

Fixpoint zero_loop (fuel : nat) s (root dst : Z) (n : nat) : outcome (pg_state H * Z) :=
  match n with
  | O => Ok (s, 0)
  | _ =>
      match fuel with
      | O => UB
      | S k =>
          '(s, fr) ← writable_frame s root (page_of dst);
          match fr with
          | None => Ok (s, -1)
          | Some phys =>
              let chunk := chunk_len dst n in
              '(s, _) ← with_phys_map s (fun s => write_frame s phys (page_off dst) (replicate chunk 0));
              zero_loop k s root (u64 (dst + Z.of_nat chunk)) (n - chunk)
          end
      end
  end.

Definition zero_user_region_in_directory s (root dst : Z) (n : nat) : outcome (pg_state H * Z) :=
  if decide (root = 0) then Ok (s, -1) else zero_loop n s root dst n.

(** The bytes delivered to the kernel buffer, with the result. *)
Fixpoint copy_from_loop (fuel : nat) s (root src : Z) (n : nat) (acc : list Z) : outcome (pg_state H * Z * list Z) :=
  match n with
  | O => Ok (s, 0, acc)
  | _ =>
      match fuel with
      | O => UB
      | S k =>
          pte ← paging_get_pte s root (page_of src);
          match pte with
          | None => Ok (s, -1, acc)
          | Some (t, i) =>
              e ← load_entry s t i;
              if negb (mm_pte_present e) then Ok (s, -1, acc) else
              let chunk := chunk_len src n in
              '(s, bs) ← with_phys_map s (fun s => read_frame s (paging_entry_pfn e) (page_off src) chunk);
              copy_from_loop k s root (u64 (src + Z.of_nat chunk)) (n - chunk) (acc ++ bs)
          end
      end
  end.

Definition copy_from_user_region_in_directory s (root src : Z) (dst_null : bool) (n : nat)
    : outcome (pg_state H * Z * list Z) :=
  if decide (root = 0 \/ dst_null = true) then Ok (s, -1, []) else copy_from_loop n s root src n [].

(** ** Regions *)

(** [for (rb = 0; rb < offset; rb += 0x1000) unmap(virtual_start + rb)] over
    [k] pages. *)
Fixpoint rollback (k : nat) s (root va : Z) : outcome (pg_state H) :=
  match k with
  | O => Ok s
  | S k => '(s, _) ← unmap_page_in_directory s root va; rollback k s root (u64 (va + 0x1000))
  end.

(** [left] pages still to map, [done] mapped so far. *)
Fixpoint region_loop (left done : nat) s (root start fl : Z) : outcome (pg_state H * Z) :=
  match left with
  | O => Ok (s, 0)
  | S k =>
      let va := u64 (start + Z.of_nat done * 0x1000) in
      let '(p, phys_addr) := pmm_alloc_frame cur (pmm s) in
      let s := set_pmm p s in
      if decide (phys_addr = 0) then s ← rollback done s root start; Ok (s, -1) else
      s ← paging_zero_phys_page s phys_addr;
      '(s, r) ← map_page_in_directory cur s root va phys_addr fl;
      if decide (r <> 0) then
        p ← pmm_free_frame (pmm s) phys_addr;
        s ← rollback done (set_pmm p s) root start; Ok (s, -1)
      else region_loop k (S done) s root start fl
  end.

Definition region_pages (size : Z) : nat := Z.to_nat (page_of (u64 (size + 0xFFF)) / 0x1000).

Definition map_user_region_in_directory s (root virtual_start size flags : Z) : outcome (pg_state H * Z) :=
  if decide (root = 0) then Ok (s, -1) else
  region_loop (region_pages size) 0 s root (page_of virtual_start) (Z.lor flags PAGE_USER).

Definition map_user_region s (virtual_start size flags : Z) : outcome (pg_state H * Z) :=
  map_user_region_in_directory s (cr3 s) virtual_start size flags.
End ops.

(** ** Physical access leaves the user halves alone *)

Abbreviation U := mm_user_root_slots.

Section phys.
Context {H : Type} `{!PageSource H, !PageSourceLaws H}.
Implicit Types s : pg_state H.

Definition same_user (R : gset Z) (T T' : gmap Z (list Z)) : Prop :=
  forall r p, r ∈ R -> okp U p -> (length p <= 4)%nat -> walk T' r p = walk T r p /\ resolve T' r p = resolve T r p.

Lemma same_user_trans R T1 T2 T3 : same_user R T1 T2 -> same_user R T2 T3 -> same_user R T1 T3.
Proof. intros H1 H2 r p Hr Ho Hl. destruct (H1 r p Hr Ho Hl), (H2 r p Hr Ho Hl). split; congruence. Qed.

(** CR3 is one of the address spaces, or there is no switch to make. *)
Definition cr3_ok (R : gset Z) s : Prop :=
  paging_kernel_root s = 0 \/ paging_kernel_root s = cr3 s \/ cr3 s ∈ R.

Lemma kernel_slot_store R s d i e :
  mm_ok U R s -> d ∈ R -> (U <= i < 512)%nat ->
  store_entry s d i e = Ok (set_tabs (upd (tabs s) d i e) s) /\ mm_ok U R (set_tabs (upd (tabs s) d i e) s) /\
  same_user R (tabs s) (upd (tabs s) d i e).
Proof.
  intros Hok Hd Hi. pose proof (ok_wf _ _ _ Hok) as Hwf.
  destruct (wf_entry Hwf d [] d i) as (t & e0 & _ & _ & _ & He); [done|done|simpl; lia|done|lia|].
  assert (Hst : forall r q j q' b, r ∈ R -> okp U (q ++ j :: q') -> (length (q ++ j :: q') <= 4)%nat ->
    walk (tabs s) r q = Some b -> entry (upd (tabs s) d i e) b j = entry (tabs s) b j).
  { intros r q j q' b Hr Ho Hl Hb. rewrite entry_upd, decide_False; [done|]. intros [-> ->].
    rewrite length_app in Hl. simpl in Hl.
    destruct (wf_inj _ _ _ _ _ Hwf r q d [] d) as [-> ->]; [done|done|by eapply okp_app|done|lia|simpl; lia|done|done|].
    simpl in Ho. lia. }
  assert (Hs : same_user R (tabs s) (upd (tabs s) d i e)).
  { intros r p Hr Ho Hl. split; [apply walk_frame|apply resolve_frame]; intros q j q' b -> Hb; by eapply Hst. }
  split; [by apply store_entry_eq with e0|]. split; [|done].
  split; [|cbn [tabs set_tabs kheap]; rewrite window_tabs_upd; exact (ok_heap _ _ _ Hok)|exact (ok_types _ _ _ Hok)|
    apply kroot_upd, (ok_kroot _ _ _ Hok)].
  apply (wf_change Hwf _ None); [| |done].
  - intros r p a Hr Ho Hl Hw. left. destruct (Hs r p) as [<- _]; [done|done|lia|done].
  - intros r p a t' _ _ _ _ _. apply upd_keeps.
Qed.

Lemma copy_kernel_half_spec R s d k :
  mm_ok U R s -> d ∈ R -> k <> 0 -> (exists t, tabs s !! k = Some t /\ length t = 512%nat) ->
  exists s', mm_copy_kernel_half s d k = Ok s' /\ mm_ok U R s' /\ same_user R (tabs s) (tabs s') /\ rest s' = rest s.
Proof.
  intros Hok Hd Hk Hlive. pose proof (root_nonzero _ _ _ _ Hok Hd) as Hd0.
  unfold mm_copy_kernel_half. rewrite decide_False by naive_solver.
  assert (Hl : Forall (fun i => U <= i < 512)%nat (seq U (mm_root_slots - U))).
  { apply Forall_forall. intros i Hi. apply elem_of_seq in Hi. unfold U, mm_root_slots in *. lia. }
  revert Hl. generalize (seq U (mm_root_slots - U)) as l. intros l. revert s Hok Hlive.
  induction l as [|i l IH]; intros s Hok Hlive Hl; simpl.
  { exists s. splits; auto. by intros r p _ _ _. }
  apply Forall_cons in Hl as [Hi Hl]. destruct Hlive as (t & Ht & Hlt).
  destruct (lookup_lt_is_Some_2 t i) as [e He]; [lia|].
  rewrite load_entry_eq. unfold entry. rewrite Ht. simpl. rewrite He. cbn [mbind outcome_bind or_ub].
  destruct (flag_set e PAGE_PRESENT).
  - destruct (kernel_slot_store R s d i e Hok Hd Hi) as (-> & Hok1 & Hs1). cbn [mbind outcome_bind].
    destruct (IH _ Hok1) as (s' & -> & Hok' & Hs' & Hre); auto; [simpl; by eapply upd_keeps|].
    exists s'. splits; auto. by eapply same_user_trans.
  - cbn [mbind outcome_bind]. apply IH; eauto.
Qed.

Lemma activate_kernel s : paging_kernel_root s <> 0 ->
  paging_activate_address_space s (paging_kernel_root s) = Ok (set_cr3 (paging_kernel_root s) s).
Proof.
  intros Hk. unfold paging_activate_address_space, paging_sync_kernel_mappings. rewrite decide_True by done.
  rewrite (decide_False (P := _ \/ _)) by naive_solver. by rewrite (decide_True (P := paging_kernel_root s = _)).
Qed.

Lemma phys_map_spec {A} R s (f : pg_state H -> outcome (pg_state H * A)) m a :
  mm_ok U R s -> cr3_ok R s ->
  (forall s1, ram s1 = ram s -> f s1 = Ok (set_ram m s1, a)) ->
  exists s', with_phys_map s f = Ok (s', a) /\ mm_ok U R s' /\ same_user R (tabs s) (tabs s') /\ ram s' = m /\
    pmm s' = pmm s /\ cr3 s' = cr3 s /\ paging_kernel_root s' = paging_kernel_root s.
Proof.
  intros Hok Hc Hf. unfold with_phys_map, paging_phys_map_begin, paging_phys_map_end.
  assert (Hrefl : forall T, same_user R T T) by by intros T r p _ _ _.
  destruct (decide (paging_kernel_root s <> 0 /\ paging_kernel_root s <> cr3 s)) as [[Hk0 Hkc]|Hn].
  - destruct Hc as [?|[?|Hc]]; [done|done|].
    rewrite activate_kernel by done. cbn [mbind outcome_bind]. rewrite Hf by done. cbn [mbind outcome_bind].
    cbn [paging_kernel_root set_ram set_cr3]. rewrite decide_True by done.
    pose proof (root_nonzero _ _ _ _ Hok Hc) as Hc0.
    unfold paging_activate_address_space, paging_sync_kernel_mappings. rewrite decide_True by done.
    cbn [paging_kernel_root set_ram set_cr3]. rewrite (decide_False (P := _ \/ _)) by naive_solver.
    rewrite (decide_False (P := cr3 s = _)) by done.
    set (s1 := set_ram m (set_cr3 (paging_kernel_root s) s)).
    assert (Hok1 : mm_ok U R s1) by (destruct Hok; by split).
    destruct (copy_kernel_half_spec R s1 (cr3 s) (paging_kernel_root s) Hok1 Hc Hk0) as (s2 & -> & Hok2 & Hs2 & Hre2).
    { destruct (ok_kroot _ _ _ Hok) as [?|[? _]]; done. }
    cbn [mbind outcome_bind]. unfold rest in Hre2. injection Hre2 as R1 R2 R3 R4.
    eexists. split; [reflexivity|]. splits; auto. destruct Hok2. by split.
  - cbn [mbind outcome_bind]. rewrite Hf by done. cbn [mbind outcome_bind paging_kernel_root set_ram].
    rewrite decide_False by done. cbn [mbind outcome_bind]. eexists. split; [reflexivity|]. splits; auto. destruct Hok. by split.
Qed.

Lemma with_write_spec R s fr off src page :
  mm_ok U R s -> cr3_ok R s -> ram s !! fr = Some page -> (off + length src <= length page)%nat ->
  exists s', with_phys_map s (fun s => write_frame s fr off src) = Ok (s', tt) /\ mm_ok U R s' /\
    same_user R (tabs s) (tabs s') /\ ram s' = <[fr := splice_page page off src]> (ram s) /\
    pmm s' = pmm s /\ cr3 s' = cr3 s /\ paging_kernel_root s' = paging_kernel_root s.
Proof.
  intros Hok Hc Hfr Hl. apply phys_map_spec; auto. intros s1 E. unfold write_frame. rewrite E, Hfr.
  cbn [mbind outcome_bind or_ub]. by rewrite decide_True.
Qed.

Lemma with_read_spec R s fr off n page :
  mm_ok U R s -> cr3_ok R s -> ram s !! fr = Some page -> (off + n <= length page)%nat ->
  exists s', with_phys_map s (fun s => read_frame s fr off n) = Ok (s', take n (drop off page)) /\ mm_ok U R s' /\
    same_user R (tabs s) (tabs s') /\ ram s' = ram s /\
    pmm s' = pmm s /\ cr3 s' = cr3 s /\ paging_kernel_root s' = paging_kernel_root s.
Proof.
  intros Hok Hc Hfr Hl. apply phys_map_spec; auto. intros s1 E. unfold read_frame. rewrite E, Hfr.
  cbn [mbind outcome_bind or_ub]. rewrite decide_True by done. rewrite <- E. by destruct s1.
Qed.
End phys.

(** ** Addresses and paths *)

Lemma va_index_arith va sh : 0 <= sh -> Z.of_nat (va_index va sh) = va / 2 ^ sh mod 512.
Proof.
  intros Hs. unfold va_index. change X86_INDEX_MASK with (Z.ones 9). rewrite Z.land_ones, Z.shiftr_div_pow2 by lia.
  change (2 ^ 9) with 512. rewrite Z2Nat.id; [done|]. apply Z.mod_pos_bound. lia.
Qed.

(** The page number, from its four indices. *)
Lemma va_page_number va : 0 <= va < 2 ^ 48 ->
  va / 4096 = ((Z.of_nat (va_index va 39) * 512 + Z.of_nat (va_index va 30)) * 512 + Z.of_nat (va_index va 21)) * 512
              + Z.of_nat (va_index va 12).
Proof.
  intros Hv. rewrite !va_index_arith by lia.
  change (2 ^ 39) with (4096 * 512 * 512 * 512). change (2 ^ 30) with (4096 * 512 * 512).
  change (2 ^ 21) with (4096 * 512). change (2 ^ 12) with 4096.
  rewrite <- !Z.div_div by lia. set (q := va / 4096).
  assert (Hq : 0 <= q < 512 * 512 * 512 * 512).
  { unfold q. split; [apply Z.div_pos; lia|]. apply Z.div_lt_upper_bound; lia. }
  assert (H4 : q / 512 / 512 / 512 < 512) by (do 3 (apply Z.div_lt_upper_bound; [lia|]); lia).
  rewrite (Z.mod_small (q / 512 / 512 / 512)) by (split; [repeat apply Z.div_pos; lia|done]).
  pose proof (Z.div_mod q 512). pose proof (Z.div_mod (q / 512) 512). pose proof (Z.div_mod (q / 512 / 512) 512). lia.
Qed.

Lemma va_path_inj a b : 0 <= a < 2 ^ 48 -> 0 <= b < 2 ^ 48 -> va_path a = va_path b <-> a / 4096 = b / 4096.
Proof.
  intros Ha Hb. split.
  - intros Hp. rewrite (va_page_number a), (va_page_number b) by done. unfold va_path in Hp. by injection Hp as -> -> -> ->.
  - intros Hq.
    assert (Hi : forall sh, 12 <= sh -> va_index a sh = va_index b sh).
    { intros sh Hs. apply Nat2Z.inj. rewrite !va_index_arith by lia.
      replace (2 ^ sh) with (4096 * 2 ^ (sh - 12)) by (change 4096 with (2 ^ 12); rewrite <- Z.pow_add_r by lia; f_equal; lia).
      rewrite <- !Z.div_div by (try apply Z.pow_pos_nonneg; lia). by rewrite Hq. }
    unfold va_path. by rewrite !Hi by lia.
Qed.

Lemma page_of_arith a : page_of a = a / 4096 * 4096.
Proof. exact (mask_align_down a). Qed.

Lemma page_off_arith a : Z.of_nat (page_off a) = a mod 4096.
Proof.
  unfold page_off. change 0xFFF with (Z.ones 12). rewrite Z.land_ones by lia.
  rewrite Z2Nat.id; [done|]. apply Z.mod_pos_bound. lia.
Qed.

Lemma page_off_lt a : (page_off a < 4096)%nat.
Proof. pose proof (page_off_arith a). pose proof (Z.mod_pos_bound a 4096). lia. Qed.

Lemma va_path_page_of a : 0 <= a < 2 ^ 48 -> va_path (page_of a) = va_path a.
Proof.
  intros Ha. rewrite page_of_arith. pose proof (Z.div_mod a 4096). pose proof (Z.mod_pos_bound a 4096).
  apply va_path_inj; [lia|lia|]. by rewrite Z.div_mul.
Qed.

Lemma va_user_okp a : 0 <= a < 2 ^ 47 -> okp mm_user_root_slots (va_path a).
Proof.
  intros Ha. cbn. pose proof (va_index_arith a 39 ltac:(lia)) as Hi.
  assert (a / 2 ^ 39 < 256) by (apply Z.div_lt_upper_bound; lia).
  rewrite Z.mod_small in Hi by (split; [apply Z.div_pos; lia|lia]). unfold mm_user_root_slots. lia.
Qed.

Lemma va_user_path a : 0 <= a < 2 ^ 47 -> page_path mm_user_root_slots (va_path a).
Proof. intros Ha. by apply va_path_ok, va_user_okp. Qed.

(** Disjoint bit fields add. *)
(** ** The abstract view: user leaves and the frames behind them *)

Abbreviation leaves := (gmap (Z * list nat) Z).

Definition user_leaf (v : option (Z * nat)) : option Z :=
  match v with Some (e, O) => if flag_set e PAGE_USER then Some e else None | _ => None end.

(** How many user pages map the frame. *)
Definition mapcount (A : leaves) (f : Z) : nat := size (filter (fun x => mm_pte_phys x.2 = f) A).

(** A writable user page shares its frame with no other user page. *)
Definition exclusive (A : leaves) : Prop :=
  forall x y e e', A !! x = Some e -> A !! y = Some e' -> mm_pte_phys e = mm_pte_phys e' ->
    flag_set e PAGE_RW = true -> x = y.

Section counting.
Implicit Types A : leaves.

Lemma mapcount_delete A x e f : A !! x = Some e ->
  mapcount A f = (mapcount (delete x A) f + if decide (mm_pte_phys e = f) then 1 else 0)%nat.
Proof.
  intros Hx. unfold mapcount. rewrite <- (insert_delete_id A x e Hx) at 1. rewrite map_filter_insert. simpl.
  case_decide; [|by rewrite delete_delete_eq, Nat.add_0_r].
  rewrite map_size_insert_None; [lia|]. apply map_lookup_filter_None. left. apply lookup_delete_eq.
Qed.

Lemma mapcount_insert A x e f :
  mapcount (<[x := e]> A) f = (mapcount (delete x A) f + if decide (mm_pte_phys e = f) then 1 else 0)%nat.
Proof.
  rewrite (mapcount_delete _ x e) by apply lookup_insert_eq. by rewrite delete_insert_eq.
Qed.

Lemma mapcount_insert_fresh A x e f : A !! x = None ->
  mapcount (<[x := e]> A) f = (mapcount A f + if decide (mm_pte_phys e = f) then 1 else 0)%nat.
Proof. intros Hx. by rewrite mapcount_insert, delete_id. Qed.

Lemma mapcount_pos A x e : A !! x = Some e -> (0 < mapcount A (mm_pte_phys e))%nat.
Proof. intros Hx. rewrite (mapcount_delete _ _ _ _ Hx), decide_True by done. lia. Qed.

Lemma mapcount_one A x e : A !! x = Some e -> mapcount A (mm_pte_phys e) = 1%nat ->
  forall y e', A !! y = Some e' -> mm_pte_phys e' = mm_pte_phys e -> y = x.
Proof.
  intros Hx Hc y e' Hy Hp. destruct (decide (y = x)) as [|Hne]; [done|].
  rewrite (mapcount_delete _ _ _ _ Hx), decide_True in Hc by done.
  assert (Hy' : delete x A !! y = Some e') by by rewrite lookup_delete_ne.
  pose proof (mapcount_pos _ _ _ Hy'). rewrite Hp in *. lia.
Qed.
End counting.

(** ** Flags of the leaves the code writes *)

Lemma map_entry_bit pa fl k : 0 < k < 12 -> flag_set (map_entry pa fl) (2 ^ k) = Z.testbit fl k.
Proof.
  intros Hk. rewrite flag_set_bit by lia. unfold map_entry. rewrite leaf_pte_bit by lia.
  rewrite decide_False, decide_True by lia. rewrite Z.land_spec, testbit_low, bool_decide_eq_true_2 by lia. apply andb_true_r.
Qed.

Lemma map_entry_phys pa fl : mm_pte_phys (map_entry pa fl) = mm_pte_phys pa.
Proof. apply leaf_pte_phys. Qed.

Lemma lnot_bit m k n : 0 <= k -> 0 <= n -> m = 2 ^ k -> Z.testbit (Z.lnot m) n = bool_decide (n <> k).
Proof.
  intros Hk Hn ->. rewrite Z.lnot_spec, testbit_pow2 by lia. repeat case_bool_decide; done.
Qed.

Lemma low_bits_exec f e k : 0 <= k < 12 ->
  Z.testbit (if flag_set e PAGE_NX then f else Z.lor f PAGE_EXEC) k = Z.testbit f k.
Proof.
  intros Hk. destruct (flag_set e PAGE_NX); [done|]. change PAGE_EXEC with (2 ^ 52).
  rewrite Z.lor_spec, testbit_pow2, bool_decide_eq_false_2 by lia. apply orb_false_r.
Qed.

Ltac flag_bits :=
  change PAGE_USER with (2 ^ 2); change PAGE_RW with (2 ^ 1); change PAGE_COW with (2 ^ 9); change PAGE_GLOBAL with (2 ^ 8);
  rewrite ?Z.lnot_lor, ?Z.lor_spec, ?Z.land_spec, ?Z.lor_spec, ?Z.land_spec, ?Z.lor_spec, ?Z.land_spec;
  rewrite ?Z.lnot_spec, ?testbit_pow2, ?testbit_low by lia;
  repeat (rewrite bool_decide_eq_false_2 by lia); repeat (rewrite bool_decide_eq_true_2 by lia);
  rewrite ?andb_true_r, ?andb_false_r, ?orb_false_r, ?orb_true_r; try done.

Lemma cow_flags_bits e : Z.testbit (cow_flags e) 1 = true /\ Z.testbit (cow_flags e) 2 = true /\ Z.testbit (cow_flags e) 9 = false.
Proof.
  unfold cow_flags. cbv zeta. rewrite !low_bits_exec by lia. splits; flag_bits.
Qed.

(** A split never makes a user page. *)
Lemma user_leaf_broken v j : user_leaf (broken v j) = user_leaf v.
Proof.
  destruct v as [[e [|[|k]]]|]; try done. unfold broken. destruct (mm_pte_present (split_entry e j)) eqn:Hp; [|done].
  unfold user_leaf. assert (flag_set (split_entry e j) PAGE_USER = false) as ->; [|done].
  change PAGE_USER with (2 ^ 2). rewrite flag_set_bit by lia. unfold split_entry. destruct (decide _); [apply Z.bits_0|].
  rewrite leaf_pte_bit by lia. rewrite decide_False, decide_True by lia. done.
Qed.

(** ** The invariant of user memory *)

Section user.
Context {H : Type} `{!PageSource H, !PageSourceLaws H} (cur : option proc_view).
Implicit Types s : pg_state H.
Implicit Types A : leaves.

(** [A] is the map of user leaves of the address spaces [R]; every one maps a
    frame of the PMM, and a frame's reference count covers the user pages that
    map it. *)
Record user_ok (R : gset Z) s A : Prop := {
  uo_mm : mm_ok U R s;
  uo_cr3 : cr3_ok R s;
  uo_pmm : pmm_inv (pmm s);
  uo_refs : is_Some (pmm_frame_refs (pmm s));
  uo_top : mem_end (pmm s) <= 2 ^ 52;
  uo_ram i : (i < total_frames (pmm s))%nat -> exists page, ram s !! frame_at (pmm s) i = Some page /\ length page = 4096%nat;
  uo_dom r p e : A !! (r, p) = Some e -> r ∈ R /\ page_path U p;
  uo_abs r p : r ∈ R -> page_path U p -> A !! (r, p) = user_leaf (resolve (tabs s) r p);
  uo_frame x e : A !! x = Some e -> exists i, (i < total_frames (pmm s))%nat /\ mm_pte_phys e = frame_at (pmm s) i;
  uo_count i : (i < total_frames (pmm s))%nat ->
    Z.of_nat (mapcount A (frame_at (pmm s) i)) <= default 0 (pmm_abs (pmm s) !! i)
}.

(** The bytes behind a user page, and one byte of user memory. *)
Definition view s A (x : Z * list nat) : option (list Z) := e ← A !! x; ram s !! mm_pte_phys e.
Definition ubyte s A (r va : Z) : option Z := page ← view s A (r, va_path va); page !! page_off va.

Lemma frame_phys R s A i : user_ok R s A -> (i < total_frames (pmm s))%nat ->
  mm_pte_phys (frame_at (pmm s) i) = frame_at (pmm s) i.
Proof.
  intros Hu Hi. destruct (frame_at_range _ _ (uo_pmm _ _ _ Hu) Hi) as (H1 & H2 & H3). pose proof (uo_top _ _ _ Hu).
  unfold PMM_FRAME_SIZE in *. apply phys_id; [lia|done].
Qed.

(** The frame of a mapped page is in use. *)
Lemma mapped_used R s A x e i : user_ok R s A -> A !! x = Some e -> (i < total_frames (pmm s))%nat ->
  mm_pte_phys e = frame_at (pmm s) i -> is_Some (pmm_abs (pmm s) !! i).
Proof.
  intros Hu Hx Hi Hp. pose proof (uo_count _ _ _ Hu i Hi) as Hc. rewrite <- Hp in Hc.
  pose proof (mapcount_pos _ _ _ Hx). destruct (pmm_abs (pmm s) !! i); [eauto|]. simpl in Hc. lia.
Qed.

(** The leaf map after installing a user leaf. *)
Lemma abs_after_map (R : gset Z) (T T' : gmap Z (list Z)) A root va pa fl :
  (forall r p e, A !! (r, p) = Some e -> r ∈ R /\ page_path U p) ->
  (forall r p, r ∈ R -> page_path U p -> A !! (r, p) = user_leaf (resolve T r p)) ->
  root ∈ R -> page_path U (va_path va) -> Z.testbit fl 2 = true ->
  (forall r' p', r' ∈ R -> page_path U p' ->
        resolve T' r' p' =
        if decide (r' = root /\ p' = va_path va) then Some (map_entry pa fl, 0%nat)
        else if decide (r' = root /\ take 3 p' = take 3 (va_path va)) then broken (resolve T r' p') (p' !!! 3%nat)
        else resolve T r' p') ->
  let A' := <[(root, va_path va) := map_entry pa fl]> A in
  (forall r p e, A' !! (r, p) = Some e -> r ∈ R /\ page_path U p) /\
  (forall r p, r ∈ R -> page_path U p -> A' !! (r, p) = user_leaf (resolve T' r p)).
Proof.
  intros Hd Ha Hr Hp Hus Hres A'. split.
  - intros r p e He. apply lookup_insert_Some in He as [[[= <- <-] _]|[_ He]]; eauto.
  - intros r p Hr' Hp'. rewrite Hres by done. destruct (decide (r = root /\ p = va_path va)) as [[-> ->]|Hne].
    + unfold A'. rewrite lookup_insert_eq. simpl. change PAGE_USER with (2 ^ 2). by rewrite map_entry_bit, Hus by lia.
    + unfold A'. rewrite lookup_insert_ne by (intros Hx; apply Hne; by injection Hx as <- <-).
      rewrite (Ha r p) by done. destruct (decide _); [by rewrite user_leaf_broken|done].
Qed.

Lemma ram_kept s s' : rest s' = rest s -> ram s' = ram s /\ pmm s' = pmm s /\ cr3 s' = cr3 s /\
  paging_kernel_root s' = paging_kernel_root s.
Proof. unfold rest. by intros [= -> -> -> ->]. Qed.

(** Replacing the physical memory manager and the tables, with the leaf map. *)
Lemma user_ok_intro R s s' A A' :
  user_ok R s A -> mm_ok U R s' -> pmm_inv (pmm s') -> same_geom (pmm s) (pmm s') ->
  cr3 s' = cr3 s -> paging_kernel_root s' = paging_kernel_root s ->
  (forall i, (i < total_frames (pmm s))%nat -> exists page, ram s' !! frame_at (pmm s) i = Some page /\ length page = 4096%nat) ->
  (forall r p e, A' !! (r, p) = Some e -> r ∈ R /\ page_path U p) ->
  (forall r p, r ∈ R -> page_path U p -> A' !! (r, p) = user_leaf (resolve (tabs s') r p)) ->
  (forall x e, A' !! x = Some e -> exists i, (i < total_frames (pmm s))%nat /\ mm_pte_phys e = frame_at (pmm s) i) ->
  (forall i, (i < total_frames (pmm s))%nat ->
    Z.of_nat (mapcount A' (frame_at (pmm s) i)) <= default 0 (pmm_abs (pmm s') !! i)) ->
  user_ok R s' A'.
Proof.
  intros Hu Hok Hinv Hg Hc Hk Hram Hd Ha Hf Hn. pose proof (sg_total _ _ Hg) as Ht. split; auto.
  - unfold cr3_ok. rewrite Hc, Hk. exact (uo_cr3 _ _ _ Hu).
  - apply (sg_refs _ _ Hg), (uo_refs _ _ _ Hu).
  - rewrite (sg_end _ _ Hg). exact (uo_top _ _ _ Hu).
  - intros i Hi. rewrite (same_geom_frame_at _ _ _ Hg). apply Hram. lia.
  - intros x e Hx. destruct (Hf x e Hx) as (i & Hi & Hp). exists i. rewrite (same_geom_frame_at _ _ _ Hg). split; [lia|done].
  - intros i Hi. rewrite (same_geom_frame_at _ _ _ Hg). apply Hn. lia.
Qed.

(** Steps that only touch the user-invisible part. *)
Lemma user_ok_same R s s' A :
  user_ok R s A -> mm_ok U R s' -> same_user R (tabs s) (tabs s') -> pmm s' = pmm s -> cr3 s' = cr3 s ->
  paging_kernel_root s' = paging_kernel_root s ->
  (forall i, (i < total_frames (pmm s))%nat -> exists page, ram s' !! frame_at (pmm s) i = Some page /\ length page = 4096%nat) ->
  user_ok R s' A.
Proof.
  intros Hu Hok Hs Hp Hc Hk Hram. apply (user_ok_intro R s s' A A); auto; rewrite ?Hp.
  - exact (uo_pmm _ _ _ Hu).
  - reflexivity.
  - exact (uo_dom _ _ _ Hu).
  - intros r p Hr Hpp. destruct (Hs r p Hr) as [_ ->]; [apply Hpp|destruct Hpp as (_ & -> & _); lia|].
    by apply (uo_abs _ _ _ Hu).
  - exact (uo_frame _ _ _ Hu).
  - exact (uo_count _ _ _ Hu).
Qed.

(** Table changes that translate every user page as before. *)
Lemma user_ok_resolve R s s' A :
  user_ok R s A -> mm_ok U R s' -> rest s' = rest s ->
  (forall r p, r ∈ R -> page_path U p -> resolve (tabs s') r p = resolve (tabs s) r p) -> user_ok R s' A.
Proof.
  intros Hu Hok Hre Hres. destruct (ram_kept _ _ Hre) as (Er & Ep & Ec & Ek).
  apply (user_ok_intro R s s' A A); rewrite ?Ep, ?Er; auto.
  - exact (uo_pmm _ _ _ Hu).
  - reflexivity.
  - exact (uo_ram _ _ _ Hu).
  - exact (uo_dom _ _ _ Hu).
  - intros r p Hr Hp. rewrite Hres by done. by apply (uo_abs _ _ _ Hu).
  - exact (uo_frame _ _ _ Hu).
  - exact (uo_count _ _ _ Hu).
Qed.

(** Page copies between two frames. *)
Lemma splice_whole page src : length page = length src -> splice_page page 0 src = src.
Proof. intros Hl. unfold splice_page. simpl. rewrite drop_ge, app_nil_r by lia. done. Qed.

Lemma splice_length page off src : (off + length src <= length page)%nat -> length (splice_page page off src) = length page.
Proof. intros Hl. unfold splice_page. rewrite !length_app, length_take, length_drop. lia. Qed.

Lemma splice_lookup page off src i : (off + length src <= length page)%nat ->
  splice_page page off src !! i = if decide (off <= i < off + length src)%nat then src !! (i - off)%nat else page !! i.
Proof.
  intros Hl. unfold splice_page. destruct (decide (i < off)%nat).
  - rewrite decide_False by lia. rewrite lookup_app_l by (rewrite length_take; lia). by rewrite lookup_take_lt by lia.
  - rewrite lookup_app_r by (rewrite length_take; lia). rewrite length_take, Nat.min_l by lia. case_decide.
    + by rewrite lookup_app_l by lia.
    + rewrite lookup_app_r by lia. rewrite lookup_drop. f_equal. lia.
Qed.
Lemma copy_phys_spec R s dst src page old :
  mm_ok U R s -> cr3_ok R s -> dst <> src -> ram s !! src = Some page -> length page = 4096%nat ->
  ram s !! dst = Some old -> length old = 4096%nat ->
  exists s', paging_copy_phys_page s dst src = Ok s' /\ mm_ok U R s' /\ same_user R (tabs s) (tabs s') /\
    ram s' = <[dst := page]> (ram s) /\ pmm s' = pmm s /\ cr3 s' = cr3 s /\ paging_kernel_root s' = paging_kernel_root s.
Proof.
  intros Hok Hc Hne Hs Hls Hd Hld. unfold paging_copy_phys_page.
  match goal with |- context [with_phys_map s ?f] =>
    destruct (phys_map_spec R s f (<[dst := page]> (ram s)) tt Hok Hc) as (s' & -> & Hr) end.
  - intros s1 E. rewrite decide_False by done. unfold read_frame, write_frame. rewrite E, Hs. cbn [mbind outcome_bind or_ub].
    rewrite decide_True by lia. cbn [mbind outcome_bind]. rewrite E, Hd. cbn [mbind outcome_bind or_ub].
    rewrite drop_0, take_ge by lia. rewrite decide_True by lia. by rewrite splice_whole by lia.
  - cbn [mbind outcome_bind]. eauto.
Qed.

Lemma zero_phys_spec R s dst old :
  mm_ok U R s -> cr3_ok R s -> ram s !! dst = Some old -> length old = 4096%nat ->
  exists s', paging_zero_phys_page s dst = Ok s' /\ mm_ok U R s' /\ same_user R (tabs s) (tabs s') /\
    ram s' = <[dst := replicate 4096 0]> (ram s) /\ pmm s' = pmm s /\ cr3 s' = cr3 s /\
    paging_kernel_root s' = paging_kernel_root s.
Proof.
  intros Hok Hc Hd Hld. unfold paging_zero_phys_page.
  assert (Hz : length (replicate 4096 0) = 4096%nat) by apply length_replicate.
  revert Hz. generalize (replicate 4096 0) as z. intros z Hz.
  destruct (with_write_spec R s dst 0 z old Hok Hc Hd) as (s' & -> & Hr); [lia|]. cbn [mbind outcome_bind].
  rewrite splice_whole in Hr by lia. eauto.
Qed.

(** A frame that is free is mapped by nobody. *)
Lemma free_unmapped R s A k x e : user_ok R s A -> (k < total_frames (pmm s))%nat -> pmm_abs (pmm s) !! k = None ->
  A !! x = Some e -> mm_pte_phys e <> frame_at (pmm s) k.
Proof.
  intros Hu Hk Hn Hx Hp. pose proof (uo_count _ _ _ Hu k Hk) as Hc. rewrite Hn in Hc. simpl in Hc.
  pose proof (mapcount_pos _ _ _ Hx). rewrite Hp in *. lia.
Qed.

Lemma exclusive_fresh R s A x e' k : user_ok R s A -> exclusive A ->
  (k < total_frames (pmm s))%nat -> pmm_abs (pmm s) !! k = None -> mm_pte_phys e' = frame_at (pmm s) k ->
  exclusive (<[x := e']> A).
Proof.
  intros Hu Hex Hk Hn Hp y z ey ez Hy Hz Hph Hrw.
  apply lookup_insert_Some in Hy as [[<- <-]|[Hne Hy]]; apply lookup_insert_Some in Hz as [[<- <-]|[Hne' Hz]]; auto.
  - destruct (free_unmapped R s A k z ez); auto. congruence.
  - destruct (free_unmapped R s A k y ey); auto. congruence.
  - by apply (Hex y z ey ez).
Qed.
(** The slot of a user leaf. *)
Lemma user_leaf_slot R s A root va e : user_ok R s A -> root ∈ R -> 0 <= va < 2 ^ 47 ->
  A !! (root, va_path va) = Some e ->
  exists t, paging_get_pte s root va = Ok (Some (t, va_index va 12)) /\ load_entry s t (va_index va 12) = Ok e /\
    mm_pte_present e = true /\ flag_set e PAGE_USER = true.
Proof.
  intros Hu Hr Hv HA. pose proof (va_user_okp _ Hv) as Ho. pose proof (uo_mm _ _ _ Hu) as Hok.
  rewrite (uo_abs _ _ _ Hu) in HA by auto using va_user_path.
  destruct (resolve (tabs s) root (va_path va)) as [[e' [|?]]|] eqn:Hres; try done. simpl in HA.
  destruct (flag_set e' PAGE_USER) eqn:Hus; [|done]. injection HA as ->.
  change (va_path va) with (take 3 (va_path va) ++ [va_index va 12]) in Hres.
  apply resolve_small in Hres as (t & Hw & He & Hp). exists t.
  rewrite (get_pte_spec U R) by done. rewrite Hw, load_entry_eq, He. done.
Qed.

Lemma set_pmm_id s : set_pmm (pmm s) s = s.
Proof. by destruct s. Qed.

(** Dropping a reference no user page needs. *)
Lemma put_spare R s A i :
  user_ok R s A -> (i < total_frames (pmm s))%nat ->
  Z.of_nat (mapcount A (frame_at (pmm s) i)) < default 0 (pmm_abs (pmm s) !! i) ->
  exists q, pmm_frame_put (pmm s) (frame_at (pmm s) i) = Ok q /\ user_ok R (set_pmm q s) A /\
    pmm_abs q = put_abs (pmm_abs (pmm s)) i /\ same_geom (pmm s) q.
Proof.
  intros Hu Hi Hlt. pose proof (uo_pmm _ _ _ Hu) as Hinv.
  destruct (pmm_abs (pmm s) !! i) as [c|] eqn:Hc; simpl in Hlt; [|lia].
  destruct (pmm_put_live (pmm s) _ i Hinv (frame_at_index _ _ Hinv Hi)) as (q & E & Hinv' & Habs & Hg); [eauto|].
  exists q. splits; auto. apply (user_ok_intro R s _ A); auto; cbn [pmm ram set_pmm tabs].
  - destruct (uo_mm _ _ _ Hu). by split.
  - exact (uo_ram _ _ _ Hu).
  - exact (uo_dom _ _ _ Hu).
  - exact (uo_abs _ _ _ Hu).
  - exact (uo_frame _ _ _ Hu).
  - intros j Hj. pose proof (uo_count _ _ _ Hu j Hj) as Hcj. rewrite Habs. unfold put_abs. rewrite Hc.
    destruct (decide (j = i)) as [->|Hne].
    + case_decide; [rewrite lookup_delete_eq; simpl; lia|]. rewrite lookup_insert_eq. simpl. lia.
    + case_decide; [rewrite lookup_delete_ne by done; done|]. by rewrite lookup_insert_ne.
Qed.

(** Installing a fresh frame [k], already filled with [content], under a user
    page: the common tail of the copy-on-write break and of region mapping. *)
Section install.
Context (R : gset Z) (s s2 : pg_state H) (A : leaves) (q : pmm_state) (k : nat) (root va fl : Z) (content : list Z).
Hypothesis Hu : user_ok R s A.
Hypothesis Hr : root ∈ R.
Hypothesis Hv : 0 <= va < 2 ^ 47.
Hypothesis Hus : Z.testbit fl 2 = true.
Hypothesis Hk : (k < total_frames (pmm s))%nat.
Hypothesis Hnk : pmm_abs (pmm s) !! k = None.
Hypothesis Hinvq : pmm_inv q.
Hypothesis Hgq : same_geom (pmm s) q.
Hypothesis Hqk : pmm_abs q = <[k := 1]> (pmm_abs (pmm s)).
Hypothesis Hok2 : mm_ok U R s2.
Hypothesis Hs2 : same_user R (tabs s) (tabs s2).
Hypothesis Hr2 : ram s2 = <[frame_at (pmm s) k := content]> (ram s).
Hypothesis Hlc : length content = 4096%nat.
Hypothesis Hp2 : pmm s2 = q.
Hypothesis Hc2 : cr3 s2 = cr3 s.
Hypothesis Hkr2 : paging_kernel_root s2 = paging_kernel_root s.

Lemma install_ram j : (j < total_frames (pmm s))%nat ->
  exists pg, ram s2 !! frame_at (pmm s) j = Some pg /\ length pg = 4096%nat.
Proof.
  intros Hj. rewrite Hr2. destruct (decide (j = k)) as [->|Hne].
  - rewrite lookup_insert_eq. eauto.
  - rewrite lookup_insert_ne by (intros Hx; apply frame_at_inj in Hx; congruence). by apply (uo_ram _ _ _ Hu).
Qed.

Lemma install_view x ex : A !! x = Some ex -> ram s2 !! mm_pte_phys ex = ram s !! mm_pte_phys ex.
Proof. intros Hx. rewrite Hr2, lookup_insert_ne; [done|]. intros Hy. by apply (free_unmapped R s A k x ex). Qed.

Lemma install_abs r p : r ∈ R -> page_path U p -> A !! (r, p) = user_leaf (resolve (tabs s2) r p).
Proof.
  intros Hr' Hp'. destruct (Hs2 r p Hr') as [_ ->]; [apply Hp'|destruct Hp' as (_ & -> & _); lia|]. by apply (uo_abs _ _ _ Hu).
Qed.

(** With the frame taken and filled but not mapped, nothing changed for users. *)
Lemma install_ready : user_ok R s2 A.
Proof.
  apply (user_ok_intro R s s2 A A); auto; rewrite ?Hp2; auto using install_ram, install_abs.
  - exact (uo_dom _ _ _ Hu).
  - exact (uo_frame _ _ _ Hu).
  - intros j Hj. rewrite Hqk. pose proof (uo_count _ _ _ Hu j Hj) as Hc. destruct (decide (j = k)) as [->|Hne].
    + rewrite lookup_insert_eq. rewrite Hnk in Hc. simpl in *. lia.
    + by rewrite lookup_insert_ne.
Qed.

Let x0 := (root, va_path va).
Let e' := map_entry (frame_at (pmm s) k) fl.

Lemma install_spec : exists s3 rc, map_page_in_directory cur s2 root va (frame_at (pmm s) k) fl = Ok (s3, rc) /\
  rest s3 = rest s2 /\ mm_pte_phys e' = frame_at (pmm s) k /\
  ((rc = 0 /\ user_ok R s3 (<[x0 := e']> A) /\ (exclusive A -> exclusive (<[x0 := e']> A)) /\
    (forall x, view s3 (<[x0 := e']> A) x = if decide (x = x0) then Some content else view s A x) /\
    (forall r p, r ∈ R -> page_path U p -> ~ (r = root /\ p = va_path va) -> resolve (tabs s3) r p =
       if decide (r = root /\ take 3 p = take 3 (va_path va)) then broken (resolve (tabs s) r p) (p !!! 3%nat)
       else resolve (tabs s) r p)) \/
   (rc = -1 /\ exists q', pmm_free_frame (pmm s3) (frame_at (pmm s) k) = Ok q' /\ user_ok R (set_pmm q' s3) A /\
      pmm_abs q' = pmm_abs (pmm s) /\ same_geom (pmm s) q' /\
      (forall r p, r ∈ R -> page_path U p -> resolve (tabs s3) r p = resolve (tabs s) r p) /\
      forall x, view (set_pmm q' s3) A x = view s A x)).
Proof.
  pose proof (frame_phys R s A k Hu Hk) as Hfk.
  assert (Hpe : mm_pte_phys e' = frame_at (pmm s) k) by (unfold e'; by rewrite map_entry_phys).
  assert (Hfa : frame_at (pmm s2) k = frame_at (pmm s) k) by (rewrite Hp2; by apply same_geom_frame_at).
  assert (Htot : total_frames (pmm s2) = total_frames (pmm s)) by (rewrite Hp2; apply (sg_total _ _ Hgq)).
  destruct (map_page_spec cur U R s2 root va (frame_at (pmm s) k) fl Hok2 Hr (va_user_okp _ Hv)) as (s3 & rc & E & Hok3 & Hre3 & _ & Hres).
  destruct (ram_kept _ _ Hre3) as (Er3 & Ep3 & Ec3 & Ek3). exists s3, rc. split; [done|]. split; [done|]. split; [done|].
  destruct Hres as [(-> & Hres)|(-> & Hres & _)].
  - left. split; [done|].
    destruct (abs_after_map R (tabs s2) (tabs s3) A root va (frame_at (pmm s) k) fl) as [Hd Hab]; auto using install_abs, va_user_path.
    { exact (uo_dom _ _ _ Hu). }
    split; [|split; [intros Hex; by apply (exclusive_fresh R s A _ _ k)|split]].
    + apply (user_ok_intro R s s3 A); auto; rewrite ?Ep3, ?Hp2, ?Er3, ?Ec3, ?Ek3; auto using install_ram.
      * intros x ex Hx. apply lookup_insert_Some in Hx as [[<- <-]|[_ Hx]]; [eauto|by apply (uo_frame _ _ _ Hu x)].
      * intros j Hj. rewrite mapcount_insert. fold e'. rewrite Hpe, Hqk. pose proof (uo_count _ _ _ Hu j Hj) as Hc.
        assert (Hle : (mapcount (delete x0 A) (frame_at (pmm s) j) <= mapcount A (frame_at (pmm s) j))%nat).
        { destruct (A !! x0) as [e0|] eqn:E0; [rewrite (mapcount_delete _ _ _ _ E0); lia|]. by rewrite delete_id. }
        fold x0. destruct (decide (j = k)) as [->|Hne].
        -- rewrite decide_True, lookup_insert_eq by done. rewrite Hnk in Hc. simpl in *. lia.
        -- rewrite decide_False by (intros Hx; apply frame_at_inj in Hx; congruence). rewrite lookup_insert_ne by done. lia.
    + intros x. unfold view. rewrite Er3. case_decide as Hd'; [subst x|].
      * rewrite lookup_insert_eq. simpl. by rewrite Hpe, Hr2, lookup_insert_eq.
      * rewrite lookup_insert_ne by done. destruct (A !! x) as [ex|] eqn:Ex; [|done]. simpl. by apply (install_view x).
    + intros r p Hr' Hp' Hne. rewrite Hres, decide_False by done.
      destruct (Hs2 r p Hr') as [_ ->]; [apply Hp'|destruct Hp' as (_ & -> & _); lia|done].
  - right. split; [done|]. pose proof install_ready as Hu2.
    assert (Hu3 : user_ok R s3 A) by by apply (user_ok_resolve R s2 s3 A).
    assert (Hq3 : pmm s3 = q) by congruence. assert (Hf3 : frame_at (pmm s3) k = frame_at (pmm s) k) by congruence.
    destruct (put_spare R s3 A k Hu3) as (q' & Eq & Hu' & Habs & Hg'); [rewrite Ep3, Htot; lia| |].
    { rewrite Hf3, Hq3, Hqk, lookup_insert_eq. pose proof (uo_count _ _ _ Hu k Hk) as Hc. rewrite Hnk in Hc. simpl in *. lia. }
    rewrite Hf3 in Eq. exists q'. unfold pmm_free_frame. splits; auto.
    + rewrite Habs, Hq3, Hqk. unfold put_abs. by rewrite lookup_insert_eq, decide_True, delete_insert_id.
    + rewrite Hq3 in Hg'. by etrans.
    + intros r p Hr' Hp'. rewrite Hres by done.
      destruct (Hs2 r p Hr') as [_ ->]; [apply Hp'|destruct Hp' as (_ & -> & _); lia|done].
    + intros x. unfold view. cbn [ram set_pmm]. rewrite Er3. destruct (A !! x) as [ex|] eqn:Ex; [|done]. simpl. by apply (install_view x).
Qed.
End install.

(** References of a frame beyond those of the user pages that map it. *)
Definition slack s A (i : nat) : Z :=
  default 0 (pmm_abs (pmm s) !! i) - Z.of_nat (mapcount A (frame_at (pmm s) i)).

(** Taking a reference more than the user pages need. *)
Lemma get_spare R s A i c : user_ok R s A -> (i < total_frames (pmm s))%nat -> pmm_abs (pmm s) !! i = Some c -> c < U32_MAX ->
  exists q, pmm_frame_get (pmm s) (frame_at (pmm s) i) = Ok q /\ user_ok R (set_pmm q s) A /\
    pmm_abs q = <[i := c + 1]> (pmm_abs (pmm s)) /\ same_geom (pmm s) q.
Proof.
  intros Hu Hi Hc Hm. pose proof (uo_pmm _ _ _ Hu) as Hinv.
  destruct (pmm_get_live (pmm s) (frame_at (pmm s) i) i c) as (q & Eq & Hinvq & Hgq & Hq); auto.
  { by apply frame_at_index. }
  { exact (uo_refs _ _ _ Hu). }
  exists q. splits; auto. apply (user_ok_intro R s _ A); auto; cbn [pmm ram set_pmm tabs].
  - destruct (uo_mm _ _ _ Hu). by split.
  - exact (uo_ram _ _ _ Hu).
  - exact (uo_dom _ _ _ Hu).
  - exact (uo_abs _ _ _ Hu).
  - exact (uo_frame _ _ _ Hu).
  - intros j Hj. pose proof (uo_count _ _ _ Hu j Hj) as Hcj. rewrite Hq. destruct (decide (j = i)) as [->|Hji].
    + rewrite lookup_insert_eq. rewrite Hc in Hcj. simpl in *. lia.
    + by rewrite lookup_insert_ne.
Qed.

(** [paging_cow_break_leaf] on a copy-on-write user page: either nothing
    changes for any process and it reports failure, or the page gets a private writable
    frame with the same bytes. *)
Lemma cow_break_spec R s A root va e t :
  user_ok R s A -> exclusive A -> root ∈ R -> 0 <= va < 2 ^ 47 -> va mod 4096 = 0 ->
  A !! (root, va_path va) = Some e -> load_entry s t (va_index va 12) = Ok e ->
  flag_set e PAGE_RW = false -> flag_set e PAGE_COW = true ->
  exists s' rc A', paging_cow_break_leaf cur s root (Some (t, va_index va 12)) va = Ok (s', rc) /\
    user_ok R s' A' /\ exclusive A' /\ (forall x, view s' A' x = view s A x) /\
    same_geom (pmm s) (pmm s') /\ (forall j, (j < total_frames (pmm s))%nat -> slack s' A' j = slack s A j) /\
    ((rc = -1 /\ A' = A) \/
     (rc = 0 /\ exists e', A' = <[(root, va_path va) := e']> A /\ flag_set e' PAGE_RW = true)).
Proof.
  intros Hu Hex Hr Hv Hal HA He Hrw Hcow. destruct (user_leaf_slot R s A root va e Hu Hr Hv HA) as (_ & _ & _ & Hp & Hus).
  pose proof (uo_pmm _ _ _ Hu) as Hinv. pose proof (uo_mm _ _ _ Hu) as Hok.
  destruct (uo_frame _ _ _ Hu _ _ HA) as (i & Hi & Hpi). destruct (mapped_used _ _ _ _ _ _ Hu HA Hi Hpi) as [c Hc].
  unfold paging_cow_break_leaf. rewrite He. cbn [mbind outcome_bind].
  change (flag_set e PAGE_PRESENT) with (mm_pte_present e). rewrite Hp, Hrw, Hcow, Hus. simpl negb. simpl orb. cbv iota.
  destruct (pmm_alloc_frame cur (pmm s)) as [q new] eqn:Ea.
  destruct (pmm_alloc_abs _ _ _ _ Hinv Ea) as (Hinvq & Hgq & [(-> & ->)|(k & Hk & Hnk & Hqk & ->)]).
  { cbv zeta. rewrite set_pmm_id, decide_True by done. exists s, (-1), A. splits; auto. }
  pose proof (frame_at_range _ _ Hinv Hk) as (Hk1 & Hk2 & Hk3). cbv zeta. rewrite decide_False by lia.
  destruct (uo_ram _ _ _ Hu i Hi) as (page & Hpage & Hlp). destruct (uo_ram _ _ _ Hu k Hk) as (oldk & Holdk & Hlk).
  assert (Hik : i <> k) by congruence.
  change (Z.land e PAGE_PTE_PFN_MASK) with (mm_pte_phys e). rewrite Hpi.
  destruct (copy_phys_spec R (set_pmm q s) (frame_at (pmm s) k) (frame_at (pmm s) i) page oldk)
    as (s2 & -> & Hok2 & Hs2 & Hr2 & Hp2 & Hc2 & Hkr2);
    [destruct Hok; by split|exact (uo_cr3 _ _ _ Hu)|intros Hx; apply frame_at_inj in Hx; congruence|done..|].
  assert (Hpv : page_of va = va) by (rewrite page_of_arith; pose proof (Z.div_mod va 4096); lia).
  cbn [mbind outcome_bind]. rewrite Hpv. destruct (cow_flags_bits e) as (Hb1 & Hb2 & Hb9).
  destruct (install_spec R s s2 A q k root va (cow_flags e) page Hu Hr Hv Hb2 Hk Hnk Hinvq Hgq Hqk Hok2 Hs2 Hr2 Hlp Hp2 Hc2 Hkr2)
    as (s3 & rc & -> & Hre3 & Hpe & [(-> & Hu3 & Hex3 & Hvw & _)|(-> & q' & Eq & Hu' & Habs' & Hg' & _ & Hvw)]); cbn [mbind outcome_bind].
  2: { rewrite decide_True, Eq by lia. exists (set_pmm q' s3), (-1), A. splits; auto.
    intros j _. unfold slack. cbn [pmm set_pmm]. by rewrite Habs', (same_geom_frame_at _ _ _ Hg'). }
  rewrite decide_False by lia. destruct (ram_kept _ _ Hre3) as (_ & Ep3 & _). set (e' := map_entry _ _) in *.
  assert (Hq3 : pmm s3 = q) by (rewrite Ep3, Hp2; done). pose proof (same_geom_frame_at _ _ i Hgq) as Hfi.
  destruct (put_spare R s3 _ i Hu3) as (q' & Eq & Hu' & Habs' & Hg').
  { rewrite Hq3, (sg_total _ _ Hgq). lia. }
  { rewrite Hq3, Hqk, lookup_insert_ne, Hc, Hfi by done. simpl. rewrite mapcount_insert, Hpe, decide_False
      by (intros Hx; apply frame_at_inj in Hx; congruence).
    pose proof (uo_count _ _ _ Hu i Hi) as Hci. rewrite (mapcount_delete _ _ _ _ HA), Hpi, decide_True, Hc in Hci by done. simpl in Hci. lia. }
  rewrite Hq3, Hfi in Eq. rewrite Hq3, Eq. cbn [mbind outcome_bind].
  exists (set_pmm q' s3), 0, (<[(root, va_path va) := e']> A). splits; auto.
  - intros x. change (view (set_pmm q' s3)) with (view s3). rewrite Hvw. case_decide as Hd; [subst x|done].
    unfold view. rewrite HA. simpl. by rewrite Hpi.
  - cbn [pmm set_pmm]. rewrite Hq3 in Hg'. by etrans.
  - rewrite Hq3 in Hg'. intros j Hj. unfold slack. cbn [pmm set_pmm]. rewrite Habs', Hq3, (same_geom_frame_at _ _ _ Hg'), (same_geom_frame_at _ _ _ Hgq).
    rewrite mapcount_insert, Hpe, (mapcount_delete _ _ _ (frame_at (pmm s) j) HA), Hpi, Hqk. unfold put_abs. rewrite lookup_insert_ne, Hc by done.
    destruct (decide (j = i)) as [->|Hji]; [|destruct (decide (j = k)) as [->|Hjk]].
    + rewrite (decide_False (P := frame_at (pmm s) k = frame_at (pmm s) i)) by (intros Hx; apply frame_at_inj in Hx; congruence).
      rewrite (decide_True (P := frame_at (pmm s) i = frame_at (pmm s) i)), Hc by done. simpl.
      case_decide; [rewrite lookup_delete_eq; simpl; lia|]. rewrite lookup_insert_eq. simpl. lia.
    + rewrite (decide_False (P := frame_at (pmm s) i = frame_at (pmm s) k)) by (intros Hx; apply frame_at_inj in Hx; congruence).
      rewrite (decide_True (P := frame_at (pmm s) k = frame_at (pmm s) k)), Hnk by done.
      case_decide; [rewrite lookup_delete_ne by done|rewrite lookup_insert_ne by done]; rewrite lookup_insert_eq; simpl; lia.
    + rewrite (decide_False (P := frame_at (pmm s) k = frame_at (pmm s) j)), (decide_False (P := frame_at (pmm s) i = frame_at (pmm s) j))
        by (intros Hx; apply frame_at_inj in Hx; congruence).
      case_decide; [rewrite lookup_delete_ne by done|rewrite lookup_insert_ne by done]; rewrite lookup_insert_ne by done; lia.
  - right. split; [done|]. exists e'. split; [done|]. change PAGE_RW with (2 ^ 1). unfold e'. by rewrite map_entry_bit by lia.
Qed.
(** ** Writing user memory *)

(** A user page the kernel may write: writable, or copy-on-write. *)
Definition writable A (x : Z * list nat) : Prop :=
  exists e, A !! x = Some e /\ (flag_set e PAGE_RW = true \/ flag_set e PAGE_COW = true).

Lemma writable_frame_spec R s A root va :
  user_ok R s A -> exclusive A -> root ∈ R -> 0 <= va < 2 ^ 47 -> va mod 4096 = 0 -> writable A (root, va_path va) ->
  exists s' fr A', writable_frame cur s root va = Ok (s', fr) /\ user_ok R s' A' /\ exclusive A' /\
    (forall x, view s' A' x = view s A x) /\ (forall x, writable A x -> writable A' x) /\
    (fr = None \/ exists e', fr = Some (mm_pte_phys e') /\ A' !! (root, va_path va) = Some e' /\ flag_set e' PAGE_RW = true).
Proof.
  intros Hu Hex Hr Hv Hal (e & HA & Hwr).
  destruct (user_leaf_slot R s A root va e Hu Hr Hv HA) as (t & Eg & El & Hp & Hus).
  unfold writable_frame. rewrite Eg. cbn [mbind outcome_bind]. rewrite El. cbn [mbind outcome_bind]. rewrite Hp. simpl negb. cbv iota.
  destruct (flag_set e PAGE_RW) eqn:Hrw; simpl negb; simpl andb; cbv iota.
  { exists s, (Some (mm_pte_phys e)), A. splits; auto. right. eauto. }
  destruct Hwr as [?|Hcow]; [done|]. rewrite Hcow.
  destruct (cow_break_spec R s A root va e t Hu Hex Hr Hv Hal HA El Hrw Hcow)
    as (s1 & rc & A' & -> & Hu1 & Hex1 & Hvw & _ & _ & [(-> & ->)|(-> & e' & -> & Hrw')]); cbn [mbind outcome_bind].
  { rewrite decide_True by lia. exists s1, None, A. splits; auto. }
  rewrite decide_False by lia.
  assert (HA' : <[(root, va_path va) := e']> A !! (root, va_path va) = Some e') by by rewrite lookup_insert_eq.
  destruct (user_leaf_slot R s1 _ root va e' Hu1 Hr Hv HA') as (t' & -> & El' & Hp' & _).
  cbn [mbind outcome_bind]. rewrite El'. cbn [mbind outcome_bind]. rewrite Hp', Hrw'. simpl orb. cbv iota.
  exists s1, (Some (paging_entry_pfn e')), (<[(root, va_path va) := e']> A). splits; auto.
  - intros x (ex & Hx & Hw). destruct (decide (x = (root, va_path va))) as [->|Hne]; [exists e'; auto|].
    exists ex. by rewrite lookup_insert_ne.
  - right. exists e'. splits; auto.
Qed.

Lemma ubyte_ext s s' A A' r va : view s' A' (r, va_path va) = view s A (r, va_path va) -> ubyte s' A' r va = ubyte s A r va.
Proof. unfold ubyte. by intros ->. Qed.

Lemma chunk_pages dst va n : 0 <= dst -> 0 <= va -> (n <= 4096 - page_off dst)%nat ->
  dst <= va < dst + Z.of_nat n <-> va / 4096 = dst / 4096 /\ (page_off dst <= page_off va < page_off dst + n)%nat.
Proof.
  intros Hd Hv Hn. pose proof (page_off_arith dst) as E1. pose proof (page_off_arith va) as E2.
  pose proof (page_off_lt dst). pose proof (page_off_lt va).
  pose proof (Z.div_mod dst 4096). pose proof (Z.div_mod va 4096). split; [|lia].
  intros Hi. assert (va / 4096 = dst / 4096) by nia. lia.
Qed.

(** Overwriting part of one writable page changes those bytes of that process
    and nothing else anybody sees. *)
Lemma write_page_spec R s A root dst src e :
  user_ok R s A -> exclusive A -> root ∈ R -> 0 <= dst -> dst < 2 ^ 47 ->
  (length src <= 4096 - page_off dst)%nat ->
  A !! (root, va_path dst) = Some e -> flag_set e PAGE_RW = true ->
  exists s', with_phys_map s (fun s => write_frame s (mm_pte_phys e) (page_off dst) src) = Ok (s', tt) /\
    user_ok R s' A /\
    forall r va, 0 <= va < 2 ^ 47 -> ubyte s' A r va =
      if decide (r = root /\ dst <= va < dst + Z.of_nat (length src)) then src !! Z.to_nat (va - dst) else ubyte s A r va.
Proof.
  intros Hu Hex Hr Hd0 Hd1 Hl HA Hrw. destruct (uo_frame _ _ _ Hu _ _ HA) as (i & Hi & Hpi).
  destruct (uo_ram _ _ _ Hu i Hi) as (page & Hpage & Hlp). rewrite <- Hpi in Hpage.
  pose proof (page_off_lt dst) as Hoff. pose proof (uo_mm _ _ _ Hu) as Hok. assert (Hls : (page_off dst + length src <= length page)%nat) by lia.
  destruct (with_write_spec R s (mm_pte_phys e) (page_off dst) src page Hok (uo_cr3 _ _ _ Hu) Hpage Hls)
    as (s' & -> & Hok' & Hs' & Hr' & Hp' & Hc' & Hk').
  exists s'. split; [done|]. split.
  { apply (user_ok_same R s s' A); auto. intros j Hj. rewrite Hr'. destruct (decide (frame_at (pmm s) j = mm_pte_phys e)) as [->|Hne].
    - rewrite lookup_insert_eq. eexists. split; [done|]. rewrite splice_length by done. done.
    - rewrite lookup_insert_ne by done. by apply (uo_ram _ _ _ Hu). }
  intros r va Hva. unfold ubyte, view. rewrite Hr'.
  destruct (decide (r = root /\ va / 4096 = dst / 4096)) as [[-> Hpg]|Hne].
  - assert (va_path va = va_path dst) as -> by (apply va_path_inj; lia). rewrite HA. simpl.
    rewrite lookup_insert_eq, Hpage. simpl. rewrite splice_lookup by done.
    pose proof (chunk_pages dst va (length src)) as Hch. destruct (decide (page_off dst <= page_off va < page_off dst + length src)%nat) as [Hin|Hin].
    + rewrite decide_True by (split; [done|]; apply Hch; lia). f_equal.
      pose proof (page_off_arith dst). pose proof (page_off_arith va). pose proof (Z.div_mod dst 4096). pose proof (Z.div_mod va 4096). lia.
    + rewrite decide_False; [done|]. intros [_ Hx]. apply Hin, Hch; lia.
  - rewrite decide_False by (intros [-> Hx]; apply Hne; split; [done|]; apply (chunk_pages dst va (length src)); lia).
    destruct (A !! (r, va_path va)) as [ex|] eqn:Ex; [|done]. simpl. rewrite lookup_insert_ne; [done|]. intros Hph.
    assert (Hxy : (root, va_path dst) = (r, va_path va)) by by apply (Hex _ _ e ex).
    apply Hne. split; [exact (eq_sym (f_equal fst Hxy))|]. apply va_path_inj; [lia|lia|exact (eq_sym (f_equal snd Hxy))].
Qed.

Lemma chunk_len_spec dst n : (0 < n)%nat -> (0 < chunk_len dst n <= n)%nat /\ (chunk_len dst n <= 4096 - page_off dst)%nat.
Proof. intros Hn. pose proof (page_off_lt dst). unfold chunk_len. lia. Qed.

(** The copy loop: some prefix of the source is stored, all of it exactly
    when the result is 0. *)
Lemma copy_to_loop_spec fuel R s A root dst src :
  user_ok R s A -> exclusive A -> root ∈ R -> (length src <= fuel)%nat ->
  0 <= dst -> dst + Z.of_nat (length src) <= 2 ^ 47 ->
  (forall va, dst <= va < dst + Z.of_nat (length src) -> writable A (root, va_path va)) ->
  exists s' rc A' m, copy_to_loop cur fuel s root dst src = Ok (s', rc) /\ user_ok R s' A' /\ exclusive A' /\
    (m <= length src)%nat /\ ((rc = 0 /\ m = length src) \/ rc = -1) /\
    forall r va, 0 <= va < 2 ^ 47 -> ubyte s' A' r va =
      if decide (r = root /\ dst <= va < dst + Z.of_nat m) then src !! Z.to_nat (va - dst) else ubyte s A r va.
Proof.
  revert s A dst src. induction fuel as [|fuel IH]; intros s A dst src Hu Hex Hr Hf Hd0 Hd1 Hwr.
  { destruct src; [|simpl in Hf; lia]. exists s, 0, A, 0%nat. splits; auto. intros r va _. by rewrite decide_False by lia. }
  destruct src as [|b0 src0] eqn:Esrc.
  { exists s, 0, A, 0%nat. splits; auto. intros r va _. by rewrite decide_False by lia. }
  rewrite <- Esrc in *. assert (Hpos : (0 < length src)%nat) by (subst; simpl; lia). clear Esrc b0 src0.
  set (c := chunk_len dst (length src)). destruct (chunk_len_spec dst (length src) Hpos) as [Hc1 Hc2]. fold c in Hc1, Hc2.
  assert (Hstep : copy_to_loop cur (S fuel) s root dst src =
    '(s, fr) ← writable_frame cur s root (page_of dst);
    match fr with
    | None => Ok (s, -1)
    | Some phys =>
        '(s, _) ← with_phys_map s (fun s => write_frame s phys (page_off dst) (take c src));
        copy_to_loop cur fuel s root (u64 (dst + Z.of_nat c)) (drop c src)
    end) by (destruct src; [simpl in Hpos; lia|done]).
  rewrite Hstep. clear Hstep.
  assert (Hpp : va_path (page_of dst) = va_path dst) by (apply va_path_page_of; lia).
  assert (Hpr : 0 <= page_of dst < 2 ^ 47 /\ page_of dst mod 4096 = 0).
  { rewrite page_of_arith, Z.mod_mul by lia. pose proof (Z.div_mod dst 4096). pose proof (Z.mod_pos_bound dst 4096). lia. }
  destruct Hpr as [Hpr Hpm].
  destruct (writable_frame_spec R s A root (page_of dst) Hu Hex Hr Hpr Hpm) as (s1 & fr & A1 & -> & Hu1 & Hex1 & Hv1 & Hw1 & Hfr).
  { rewrite Hpp. apply Hwr. lia. }
  cbn [mbind outcome_bind]. destruct Hfr as [->|(e1 & -> & HA1 & Hrw1)].
  { exists s1, (-1), A1, 0%nat. splits; auto; [lia|]. intros r va _. rewrite decide_False by lia. by apply ubyte_ext. }
  rewrite Hpp in HA1.
  destruct (write_page_spec R s1 A1 root dst (take c src) e1 Hu1 Hex1 Hr Hd0) as (s2 & -> & Hu2 & Hb2); auto;
    [lia|rewrite length_take; lia|].
  rewrite length_take, Nat.min_l in Hb2 by lia. cbn [mbind outcome_bind].
  assert (Hnext : u64 (dst + Z.of_nat c) = dst + Z.of_nat c) by (apply Z.mod_small; lia). rewrite Hnext.
  destruct (IH s2 A1 (dst + Z.of_nat c) (drop c src) Hu2 Hex1 Hr) as (s3 & rc & A3 & m & -> & Hu3 & Hex3 & Hm & Hrc & Hb3);
    [rewrite length_drop; lia|lia|rewrite length_drop; lia| |].
  { intros va Hva. rewrite length_drop in Hva. apply Hw1, Hwr. lia. }
  rewrite length_drop in Hm, Hrc. exists s3, rc, A3, (c + m)%nat. splits; auto; [lia|destruct Hrc as [[-> ->]| -> ]; [left; split; [done|lia]|by right]|].
  intros r va Hva. rewrite Hb3, Hb2 by done. destruct (decide (r = root)) as [->|Hne].
  2: { rewrite !decide_False by naive_solver. apply ubyte_ext, Hv1. }
  destruct (decide (root = root /\ dst + Z.of_nat c <= va < dst + Z.of_nat c + Z.of_nat m)) as [[_ Hi]|Hi].
  - rewrite decide_True by lia. rewrite lookup_drop. f_equal. lia.
  - destruct (decide (root = root /\ dst <= va < dst + Z.of_nat c)) as [[_ Hj]|Hj].
    + rewrite decide_True by lia. by rewrite lookup_take_lt by lia.
    + rewrite decide_False; [|lia]. apply ubyte_ext, Hv1.
Qed.

(** Zeroing is copying zeros. *)
Lemma zero_loop_copy fuel s root dst n : zero_loop cur fuel s root dst n = copy_to_loop cur fuel s root dst (replicate n 0).
Proof.
  revert s dst n. induction fuel as [|fuel IH]; intros s dst [|n]; try done.
  unfold zero_loop, copy_to_loop. fold (zero_loop cur) (copy_to_loop cur). rewrite replicate_S.
  destruct (writable_frame cur s root (page_of dst)) as [[s1 [phys|]]| |]; try done. cbn [mbind outcome_bind].
  rewrite <- replicate_S, length_replicate, take_replicate, drop_replicate.
  assert (Hc : (chunk_len dst (S n) <= S n)%nat) by (unfold chunk_len; lia). rewrite Nat.min_l by lia.
  destruct (with_phys_map s1 _) as [[s2 []]| |]; try done. cbn [mbind outcome_bind]. apply IH.
Qed.
(** ** Reading user memory *)

Lemma read_page_spec R s A root src n e :
  user_ok R s A -> root ∈ R -> 0 <= src < 2 ^ 47 -> (n <= 4096 - page_off src)%nat ->
  A !! (root, va_path src) = Some e ->
  exists s' bs, with_phys_map s (fun s => read_frame s (mm_pte_phys e) (page_off src) n) = Ok (s', bs) /\
    user_ok R s' A /\ ram s' = ram s /\ length bs = n /\
    forall i, (i < n)%nat -> ubyte s A root (src + Z.of_nat i) = bs !! i.
Proof.
  intros Hu Hr Hs Hn HA. destruct (uo_frame _ _ _ Hu _ _ HA) as (k & Hk & Hpk).
  destruct (uo_ram _ _ _ Hu k Hk) as (page & Hpage & Hlp). rewrite <- Hpk in Hpage. pose proof (page_off_lt src) as Hoff.
  destruct (with_read_spec R s (mm_pte_phys e) (page_off src) n page (uo_mm _ _ _ Hu) (uo_cr3 _ _ _ Hu) Hpage)
    as (s' & -> & Hok' & Hs' & Hr' & Hp' & Hc' & Hk'); [lia|].
  eexists _, _. split; [reflexivity|]. split; [|split; [done|split]].
  - apply (user_ok_same R s s' A); auto. rewrite Hr'. exact (uo_ram _ _ _ Hu).
  - rewrite length_take, length_drop. lia.
  - intros i Hi. rewrite lookup_take_lt, lookup_drop by lia.
    assert (Hin : src <= src + Z.of_nat i < src + Z.of_nat n) by lia.
    apply (chunk_pages src (src + Z.of_nat i) n) in Hin as [Hpg _]; [|lia..].
    pose proof (page_off_arith src) as E1. pose proof (page_off_arith (src + Z.of_nat i)) as E2.
    pose proof (Z.div_mod src 4096). pose proof (Z.div_mod (src + Z.of_nat i) 4096).
    unfold ubyte, view. assert (va_path (src + Z.of_nat i) = va_path src) as ->.
    { apply va_path_inj; [|lia|done]. pose proof (Z.mod_pos_bound (src + Z.of_nat i) 4096). lia. }
    rewrite HA. simpl. rewrite Hpage. simpl. f_equal. lia.
Qed.

Lemma copy_from_loop_spec fuel R s A root src n acc :
  user_ok R s A -> root ∈ R -> (n <= fuel)%nat -> 0 <= src -> src + Z.of_nat n <= 2 ^ 47 ->
  (forall va, src <= va < src + Z.of_nat n -> is_Some (A !! (root, va_path va))) ->
  exists s' bs, copy_from_loop fuel s root src n acc = Ok (s', 0, acc ++ bs) /\ user_ok R s' A /\ ram s' = ram s /\
    length bs = n /\ forall i, (i < n)%nat -> ubyte s A root (src + Z.of_nat i) = bs !! i.
Proof.
  revert s src n acc. induction fuel as [|fuel IH]; intros s src n acc Hu Hr Hf Hs0 Hs1 Hm.
  { assert (n = 0%nat) as -> by lia. exists s, []. splits; auto; [by rewrite app_nil_r|lia]. }
  destruct n as [|n0] eqn:En. { exists s, []. splits; auto; [by rewrite app_nil_r|lia]. }
  rewrite <- En in *. assert (Hpos : (0 < n)%nat) by lia. clear En n0.
  set (c := chunk_len src n). destruct (chunk_len_spec src n Hpos) as [Hc1 Hc2]. fold c in Hc1, Hc2.
  assert (Hstep : copy_from_loop (S fuel) s root src n acc =
    pte ← paging_get_pte s root (page_of src);
    match pte with
    | None => Ok (s, -1, acc)
    | Some (t, i) =>
        e ← load_entry s t i;
        if negb (mm_pte_present e) then Ok (s, -1, acc) else
        '(s, bs) ← with_phys_map s (fun s => read_frame s (paging_entry_pfn e) (page_off src) c);
        copy_from_loop fuel s root (u64 (src + Z.of_nat c)) (n - c) (acc ++ bs)
    end) by (destruct n; [lia|done]).
  rewrite Hstep. clear Hstep.
  destruct (Hm src) as [e HA]; [lia|].
  assert (Hpp : va_path (page_of src) = va_path src) by (apply va_path_page_of; lia).
  assert (Hpr : 0 <= page_of src < 2 ^ 47).
  { rewrite page_of_arith. pose proof (Z.div_mod src 4096). pose proof (Z.mod_pos_bound src 4096). lia. }
  rewrite <- Hpp in HA. destruct (user_leaf_slot R s A root (page_of src) e Hu Hr Hpr HA) as (t & -> & El & Hp & _).
  cbn [mbind outcome_bind]. rewrite El. cbn [mbind outcome_bind]. rewrite Hp. simpl negb. cbv iota. rewrite Hpp in HA.
  destruct (read_page_spec R s A root src c e Hu Hr) as (s1 & b1 & E1 & Hu1 & Hr1 & Hl1 & Hb1); auto; [lia|].
  unfold paging_entry_pfn. rewrite E1. cbn [mbind outcome_bind].
  assert (Hnext : u64 (src + Z.of_nat c) = src + Z.of_nat c) by (apply Z.mod_small; lia). rewrite Hnext.
  destruct (IH s1 (src + Z.of_nat c) (n - c)%nat (acc ++ b1) Hu1 Hr) as (s2 & b2 & -> & Hu2 & Hr2 & Hl2 & Hb2); [lia..| |].
  { intros va Hva. apply Hm. lia. }
  exists s2, (b1 ++ b2). rewrite app_assoc. splits; auto; [congruence|rewrite length_app; lia|].
  intros i Hi. destruct (decide (i < c)%nat).
  - rewrite lookup_app_l by lia. by apply Hb1.
  - rewrite lookup_app_r by lia. rewrite Hl1, <- Hb2 by lia.
    replace (src + Z.of_nat c + Z.of_nat (i - c)) with (src + Z.of_nat i) by lia.
    unfold ubyte, view. by rewrite Hr1.
Qed.
(** ** Mapping a region *)

(** [unmap_page_in_directory] on a user page. *)
Lemma unmap_user_spec R s A root va e i :
  user_ok R s A -> root ∈ R -> 0 <= va < 2 ^ 47 -> A !! (root, va_path va) = Some e ->
  (i < total_frames (pmm s))%nat -> mm_pte_phys e = frame_at (pmm s) i ->
  exists s', unmap_page_in_directory s root va = Ok (s', 0) /\ user_ok R s' (delete (root, va_path va) A) /\
    ram s' = ram s /\ same_geom (pmm s) (pmm s') /\ pmm_abs (pmm s') = put_abs (pmm_abs (pmm s)) i /\
    (forall r p, r ∈ R -> page_path U p -> resolve (tabs s') r p =
       if decide (r = root /\ p = va_path va) then None else resolve (tabs s) r p).
Proof.
  intros Hu Hr Hv HA Hi Hpi. pose proof (uo_pmm _ _ _ Hu) as Hinv. pose proof (uo_mm _ _ _ Hu) as Hok.
  pose proof (frame_at_range _ _ Hinv Hi) as (Hf1 & Hf2 & _). unfold PMM_FRAME_SIZE in Hf2.
  pose proof (mapped_used _ _ _ _ _ _ Hu HA Hi Hpi) as Hused.
  pose proof (uo_abs _ _ _ Hu root _ Hr (va_user_path _ Hv)) as Hab. rewrite HA in Hab.
  destruct (resolve (tabs s) root (va_path va)) as [[e0 [|?]]|] eqn:Hres; try done. simpl in Hab.
  destruct (flag_set e0 PAGE_USER) eqn:Hus; [|done]. injection Hab as <-.
  assert (Hin : in_pmm (pmm s) (mm_pte_phys e)) by (rewrite Hpi; split; lia).
  assert (Hidx : pmm_frame_index (pmm s) (mm_pte_phys e) = Some i) by (rewrite Hpi; by apply frame_at_index).
  destruct (unmap_page_spec U R s root va Hok Hr (va_user_okp _ Hv) Hinv) as [[_ Hn]|Hs].
  { intros e1 He1. rewrite Hres in He1. injection He1 as <-. intros _. eauto. }
  { by destruct (Hn e). }
  destruct Hs as (s' & e1 & E & He1 & Hok' & Er & Ec & Ek & Hinv' & Hput & _ & _ & Hv' & _).
  rewrite Hres in He1. injection He1 as <-.
  destruct (pmm_put_live _ _ _ Hinv Hidx Hused) as (q & Eq & _ & Habs & Hg). rewrite (Hput Hin) in Eq. injection Eq as <-.
  exists s'. splits; auto. apply (user_ok_intro R s s' A); auto.
  - rewrite Er. exact (uo_ram _ _ _ Hu).
  - intros r p ex Hx. apply lookup_delete_Some in Hx as [_ Hx]. by apply (uo_dom _ _ _ Hu r p ex).
  - intros r p Hr' Hp'. rewrite Hv' by done. case_decide as Hd; [destruct Hd as [-> ->]; by rewrite lookup_delete_eq|].
    rewrite lookup_delete_ne by (intros Hx; apply Hd; exact (conj (eq_sym (f_equal fst Hx)) (eq_sym (f_equal snd Hx)))).
    by apply (uo_abs _ _ _ Hu).
  - intros x ex Hx. apply lookup_delete_Some in Hx as [_ Hx]. by apply (uo_frame _ _ _ Hu x).
  - intros j Hj. pose proof (uo_count _ _ _ Hu j Hj) as Hc. rewrite (mapcount_delete _ _ _ _ HA), Hpi in Hc.
    rewrite Habs. unfold put_abs. destruct Hused as [c Hc']. rewrite Hc'. destruct (decide (j = i)) as [->|Hne].
    + rewrite decide_True, Hc' in Hc by done. simpl in Hc.
      case_decide; [rewrite lookup_delete_eq; simpl; lia|]. rewrite lookup_insert_eq. simpl. lia.
    + rewrite decide_False in Hc by (intros Hx; apply frame_at_inj in Hx; congruence).
      case_decide; [rewrite lookup_delete_ne by done; lia|]. rewrite lookup_insert_ne by done. lia.
Qed.

(** The leaves and counts after mapping fresh frames [ks] from [va] on. *)
Fixpoint region_leaves (q : pmm_state) A (root va fl : Z) (ks : list nat) : leaves :=
  match ks with
  | [] => A
  | k :: ks => <[(root, va_path va) := map_entry (frame_at q k) fl]> (region_leaves q A root (va + 4096) fl ks)
  end.

Fixpoint region_counts (B : gmap nat Z) (ks : list nat) : gmap nat Z :=
  match ks with [] => B | k :: ks => <[k := 1]> (region_counts B ks) end.

Definition region_page (va : Z) (n : nat) (p : list nat) : Prop := exists j, (j < n)%nat /\ p = va_path (va + Z.of_nat j * 4096).

Lemma region_page_S va n p : region_page va (S n) p <-> p = va_path va \/ region_page (va + 4096) n p.
Proof.
  split.
  - intros ([|j] & Hj & ->); [left; f_equal; lia|]. right. exists j. split; [lia|]. f_equal. lia.
  - intros [->|(j & Hj & ->)]; [exists 0%nat; split; [lia|f_equal; lia]|]. exists (S j). split; [lia|f_equal; lia].
Qed.

Lemma region_page_snoc va n p : region_page va (S n) p <-> region_page va n p \/ p = va_path (va + Z.of_nat n * 4096).
Proof.
  split.
  - intros (j & Hj & ->). destruct (decide (j = n)) as [->|]; [by right|]. left. exists j. split; [lia|done].
  - intros [(j & Hj & ->)| ->]; [exists j|exists n]; split; auto; lia.
Qed.

Lemma region_page_not va n : 0 <= va -> va mod 4096 = 0 -> va + 4096 + Z.of_nat n * 4096 <= 2 ^ 47 ->
  ~ region_page (va + 4096) n (va_path va).
Proof.
  intros Hv Hm Hb (j & Hj & Hp). apply va_path_inj in Hp; [|lia..].
  replace (va + 4096 + Z.of_nat j * 4096) with (va + (Z.of_nat j + 1) * 4096) in Hp by lia.
  rewrite Z.div_add in Hp by lia. lia.
Qed.

Lemma region_leaves_out q A root va fl ks r p :
  ~ (r = root /\ region_page va (length ks) p) -> region_leaves q A root va fl ks !! (r, p) = A !! (r, p).
Proof.
  revert va. induction ks as [|k ks IH]; intros va Hn; simpl; [done|].
  simpl in Hn. rewrite region_page_S in Hn. rewrite lookup_insert_ne.
  - apply IH. naive_solver.
  - intros Hx. apply Hn. split; [exact (eq_sym (f_equal fst Hx))|]. left. exact (eq_sym (f_equal snd Hx)).
Qed.

Lemma next_page_mod va : va mod 4096 = 0 -> (va + 4096) mod 4096 = 0.
Proof. intros Hm. rewrite Z.add_mod, Hm by lia. done. Qed.

Lemma region_leaves_snoc q A root va fl ks k :
  0 <= va -> va mod 4096 = 0 -> va + Z.of_nat (S (length ks)) * 4096 <= 2 ^ 47 ->
  region_leaves q A root va fl (ks ++ [k]) =
  <[(root, va_path (va + Z.of_nat (length ks) * 4096)) := map_entry (frame_at q k) fl]> (region_leaves q A root va fl ks).
Proof.
  revert va. induction ks as [|k0 ks IH]; intros va H1 H2 H3; simpl length in *.
  - simpl. by rewrite Z.add_0_r.
  - simpl. rewrite IH; [|lia|by apply next_page_mod|lia]. rewrite insert_insert_ne.
    + replace (va + 4096 + Z.of_nat (length ks) * 4096) with (va + Z.of_nat (S (length ks)) * 4096) by lia. done.
    + intros Hx. apply (region_page_not va (S (length ks))); [done|done|lia|].
      apply region_page_snoc. right. etrans; [exact (f_equal snd Hx)|]. simpl. f_equal.
Qed.

Lemma region_counts_out B ks k : k ∉ ks -> region_counts B ks !! k = B !! k.
Proof.
  induction ks as [|k0 ks IH]; simpl; [done|]. intros Hn. apply not_elem_of_cons in Hn as [H1 H2].
  rewrite lookup_insert_ne by done. by apply IH.
Qed.

Lemma region_counts_snoc B ks k : k ∉ ks -> region_counts B (ks ++ [k]) = <[k := 1]> (region_counts B ks).
Proof.
  induction ks as [|k0 ks IH]; simpl; [done|]. intros Hn. apply not_elem_of_cons in Hn as [H1 H2].
  rewrite IH by done. by rewrite insert_insert_ne.
Qed.
Lemma region_next va n : 0 <= va -> va + Z.of_nat (S n) * 4096 <= 2 ^ 47 -> u64 (va + 0x1000) = va + 4096.
Proof. intros H1 H2. apply Z.mod_small. lia. Qed.

Lemma put_fresh_one B k : B !! k = None -> put_abs (<[k := 1]> B) k = B.
Proof. intros Hn. unfold put_abs. by rewrite lookup_insert_eq, decide_True, delete_insert_id. Qed.

(** Unmapping a freshly mapped region restores the leaves and the counts. *)
Lemma rollback_spec R A q0 B root fl ks s va :
  user_ok R s (region_leaves q0 A root va fl ks) -> same_geom q0 (pmm s) -> root ∈ R ->
  0 <= va -> va mod 4096 = 0 -> va + Z.of_nat (length ks) * 4096 <= 2 ^ 47 ->
  NoDup ks -> (forall k, k ∈ ks -> B !! k = None /\ (k < total_frames q0)%nat) ->
  (forall p, region_page va (length ks) p -> A !! (root, p) = None) ->
  pmm_abs (pmm s) = region_counts B ks ->
  exists s', rollback (length ks) s root va = Ok s' /\ user_ok R s' A /\ pmm_abs (pmm s') = B /\
    same_geom q0 (pmm s') /\ ram s' = ram s /\
    (forall r p, r ∈ R -> page_path U p -> ~ (r = root /\ region_page va (length ks) p) -> resolve (tabs s') r p = resolve (tabs s) r p) /\
    (forall p, region_page va (length ks) p -> page_path U p -> resolve (tabs s') root p = None).
Proof.
  revert s va. induction ks as [|k ks IH]; intros s va Hu Hg Hr Hv Hm Hb Hnd Hk HA Habs; simpl in *.
  { exists s. splits; auto. intros p (j & Hj & _). lia. }
  apply NoDup_cons in Hnd as [Hkn Hnd]. destruct (Hk k) as [HBk Hkt]; [left|].
  assert (HAk : region_leaves q0 A root (va + 4096) fl ks !! (root, va_path va) = None).
  { rewrite region_leaves_out; [apply HA, region_page_S; by left|]. intros [_ Hp]. revert Hp. apply region_page_not; lia || done. }
  assert (Hfa : frame_at (pmm s) k = frame_at q0 k) by by apply same_geom_frame_at.
  assert (Hkt' : (k < total_frames (pmm s))%nat) by (rewrite (sg_total _ _ Hg); done).
  destruct (unmap_user_spec R s _ root va (map_entry (frame_at q0 k) fl) k Hu Hr) as (s1 & -> & Hu1 & Er1 & Hg1 & Habs1 & Hv1);
    [lia|by rewrite lookup_insert_eq|done|rewrite map_entry_phys, <- Hfa; by apply (frame_phys R s _ k Hu)|].
  cbn [mbind outcome_bind]. rewrite (region_next va (length ks)) by lia.
  rewrite delete_insert_id in Hu1 by done.
  assert (HBc : region_counts B ks !! k = None) by by rewrite region_counts_out.
  destruct (IH s1 (va + 4096)) as (s2 & -> & Hu2 & Habs2 & Hg2 & Er2 & Hv2 & Hn2); auto; [by etrans|lia|by apply next_page_mod|lia| | | |].
  { intros k' Hk'. apply Hk. by right. }
  { intros p Hp. apply HA, region_page_S. by right. }
  { rewrite Habs1, Habs. by apply put_fresh_one. }
  exists s2. splits; auto; [congruence| |].
  - intros r p Hr' Hp Hn. rewrite region_page_S in Hn. rewrite Hv2 by naive_solver. rewrite Hv1 by done.
    rewrite decide_False by naive_solver. done.
  - intros p Hp Hpp. apply region_page_S in Hp as [->|Hp]; [|by apply Hn2].
    rewrite Hv2, Hv1 by (done || intros [_ Hx]; revert Hx; apply region_page_not; lia || done). by rewrite decide_True.
Qed.

(** Without a last-level table the last index does not matter. *)
Lemma resolve_no_table T a p i j : walk T a p = None -> resolve T a (p ++ [i]) = resolve T a (p ++ [j]).
Proof.
  revert a. induction p as [|k p IH]; intros a Hw; simpl in *; [done|].
  destruct (entry T a k) as [e|]; [|done]. unfold is_table in Hw.
  destruct (mm_pte_present e); simpl in *; [|done]. unfold leaf_here.
  assert (Hne : forall l, exists x y, p ++ [l] = x :: y) by (intros l; destruct p; simpl; eauto).
  destruct (Hne i) as (x & y & Ei), (Hne j) as (x' & y' & Ej). rewrite Ei, Ej. rewrite <- Ei, <- Ej.
  destruct (mm_pte_large e); simpl in *; [by rewrite !length_app|]. by apply IH.
Qed.

(** A hole has no 2 MiB leaf over it. *)
Lemma broken_hole T r p p' : length p = 4%nat -> length p' = 4%nat -> take 3 p' = take 3 p -> resolve T r p = None ->
  broken (resolve T r p') (p' !!! 3%nat) = resolve T r p'.
Proof.
  intros Hl Hl' Ht Hn. destruct (walk T r (take 3 p)) as [b|] eqn:Hw.
  - apply (broken_table T r (take 3 p') p' b); [by rewrite Ht|by rewrite length_take, Hl'|done|].
    exists (drop 3 p'). by rewrite take_drop.
  - assert (Hx : resolve T r p' = resolve T r p); [|by rewrite Hx, Hn].
    destruct p as [|a [|c [|d [|x [|? ?]]]]]; try done. destruct p' as [|a' [|c' [|d' [|x' [|? ?]]]]]; try done.
    simpl in Ht. injection Ht as -> -> ->. by apply (resolve_no_table T r [a; c; d]).
Qed.

Section region.
Context (R : gset Z) (s0 : pg_state H) (A : leaves) (root start fl : Z) (n : nat).
Hypothesis Hu0 : user_ok R s0 A.
Hypothesis Hr : root ∈ R.
Hypothesis Hus : Z.testbit fl 2 = true.
Hypothesis Hst : 0 <= start /\ start mod 4096 = 0 /\ start + Z.of_nat n * 4096 <= 2 ^ 47.
Hypothesis Hclean : forall p, region_page start n p -> resolve (tabs s0) root p = None.

Let B := pmm_abs (pmm s0).
Let q0 := pmm s0.

(** After mapping the frames [ks]. *)
Record mapped (s : pg_state H) (ks : list nat) : Prop := {
  md_user : user_ok R s (region_leaves q0 A root start fl ks);
  md_geom : same_geom q0 (pmm s);
  md_nodup : NoDup ks;
  md_free k : k ∈ ks -> B !! k = None /\ (k < total_frames q0)%nat;
  md_abs : pmm_abs (pmm s) = region_counts B ks;
  md_out r p : r ∈ R -> page_path U p -> ~ (r = root /\ region_page start (length ks) p) ->
    resolve (tabs s) r p = resolve (tabs s0) r p;
  md_excl : exclusive A -> exclusive (region_leaves q0 A root start fl ks);
  md_zero p : region_page start (length ks) p -> view s (region_leaves q0 A root start fl ks) (root, p) = Some (replicate 4096 0);
  md_view x : ~ (x.1 = root /\ region_page start (length ks) x.2) -> view s (region_leaves q0 A root start fl ks) x = view s0 A x
}.

Lemma region_path_ok j : (j < n)%nat -> 0 <= start + Z.of_nat j * 4096 < 2 ^ 47.
Proof. lia. Qed.

Lemma region_page_path m p : (m <= n)%nat -> region_page start m p -> page_path U p.
Proof. intros Hm (j & Hj & ->). apply va_user_path, region_path_ok. lia. Qed.

Lemma region_unmapped p : region_page start n p -> A !! (root, p) = None.
Proof.
  intros Hp. rewrite (uo_abs _ _ _ Hu0) by (auto; by apply (region_page_path n)). by rewrite Hclean.
Qed.

Lemma mapped_undo s s1 q' ks : mapped s ks -> (length ks < n)%nat ->
  user_ok R (set_pmm q' s1) (region_leaves q0 A root start fl ks) -> same_geom q0 q' -> pmm_abs q' = region_counts B ks ->
  (forall r p, r ∈ R -> page_path U p -> resolve (tabs s1) r p = resolve (tabs s) r p) ->
  (forall x, view (set_pmm q' s1) (region_leaves q0 A root start fl ks) x = view s (region_leaves q0 A root start fl ks) x) ->
  exists s', rollback (length ks) (set_pmm q' s1) root start = Ok s' /\ user_ok R s' A /\ pmm_abs (pmm s') = B /\
    same_geom q0 (pmm s') /\ (forall x, view s' A x = view s0 A x) /\
    (forall r p, r ∈ R -> page_path U p -> resolve (tabs s') r p = resolve (tabs s0) r p).
Proof.
  intros [] Hl Hu Hg Habs Hres Hvw. destruct Hst as (Hs1 & Hs2 & Hs3).
  assert (Hsub : forall p, region_page start (length ks) p -> region_page start n p)
    by (intros p (j & Hj & ->); exists j; split; [lia|done]).
  destruct (rollback_spec R A q0 B root fl ks (set_pmm q' s1) start) as (s' & E & Hu' & Habs' & Hg' & Er & Hv & Hn); auto; [lia| |].
  { intros p Hp. by apply region_unmapped, Hsub. }
  exists s'. splits; auto.
  - intros x. destruct (A !! x) as [e|] eqn:Ex; [|unfold view; by rewrite Ex].
    rewrite <- md_view0, <- Hvw; [unfold view|].
    + destruct x as [r p]. rewrite region_leaves_out, Ex, Er; [done|].
      intros [-> Hp]. rewrite region_unmapped in Ex by auto. done.
    + intros [Hx1 Hx2]. destruct x as [r p]. simpl in *. subst r. rewrite region_unmapped in Ex by auto. done.
  - intros r p Hr' Hp. destruct (decide (r = root)) as [->|Hne].
    2: { rewrite Hv by naive_solver. cbn [tabs set_pmm]. rewrite Hres by done. apply md_out0; naive_solver. }
    assert (Hdec : region_page start (length ks) p \/ ~ region_page start (length ks) p).
    { clear -p. induction (length ks) as [|m IH]; [right; intros (j & Hj & _); lia|].
      destruct IH as [?|Hn]; [left; apply region_page_snoc; by left|].
      destruct (decide (p = va_path (start + Z.of_nat m * 4096))) as [->|]; [left; apply region_page_snoc; by right|].
      right. rewrite region_page_snoc. naive_solver. }
    destruct Hdec as [Hreg|Hreg].
    + rewrite Hn by done. by rewrite Hclean by auto.
    + rewrite Hv by naive_solver. cbn [tabs set_pmm]. rewrite Hres by done. apply md_out0; naive_solver.
Qed.
Lemma mapped_start : mapped s0 [].
Proof.
  constructor; [exact Hu0|reflexivity|constructor| |done|done|done| |done].
  - intros k Hk. by apply not_elem_of_nil in Hk.
  - intros p (j & Hj & _). simpl in Hj. lia.
Qed.

Lemma mapped_step s s3 ks k :
  mapped s ks -> (length ks < n)%nat -> (k < total_frames q0)%nat -> k ∉ ks -> B !! k = None ->
  let va := start + Z.of_nat (length ks) * 4096 in
  let x0 := (root, va_path va) in
  let e' := map_entry (frame_at q0 k) fl in
  let L := region_leaves q0 A root start fl ks in
  user_ok R s3 (<[x0 := e']> L) -> (exclusive L -> exclusive (<[x0 := e']> L)) ->
  same_geom q0 (pmm s3) -> pmm_abs (pmm s3) = <[k := 1]> (region_counts B ks) ->
  (forall x, view s3 (<[x0 := e']> L) x = if decide (x = x0) then Some (replicate 4096 0) else view s L x) ->
  (forall r p, r ∈ R -> page_path U p -> ~ (r = root /\ p = va_path va) -> resolve (tabs s3) r p =
       if decide (r = root /\ take 3 p = take 3 (va_path va)) then broken (resolve (tabs s) r p) (p !!! 3%nat)
       else resolve (tabs s) r p) ->
  mapped s3 (ks ++ [k]).
Proof.
  intros [] Hl Hk Hkn HBk va x0 e' L Hu Hex Hg Habs Hvw Hres. destruct Hst as (Hs1 & Hs2 & Hs3).
  assert (Hsn : region_leaves q0 A root start fl (ks ++ [k]) = <[x0 := e']> L) by (apply region_leaves_snoc; [done|done|lia]).
  assert (Hlen : length (ks ++ [k]) = S (length ks)) by (rewrite length_app; simpl; lia).
  assert (Hnew : forall p, region_page start (length (ks ++ [k])) p <-> region_page start (length ks) p \/ p = va_path va)
    by (intros p; rewrite Hlen; apply region_page_snoc).
  split; rewrite ?Hsn; auto.
  - apply NoDup_app. splits; [done| |apply NoDup_singleton].
    intros y Hy1 Hy2. apply list_elem_of_singleton in Hy2 as ->. done.
  - intros k' Hk'. apply elem_of_app in Hk' as [?|Hk']; [auto|]. apply list_elem_of_singleton in Hk' as ->. auto.
  - rewrite Habs. by rewrite region_counts_snoc.
  - intros r p Hr' Hp Hn. rewrite Hnew in Hn. rewrite Hres by (try done; clear -Hn; tauto).
    assert (Hold : resolve (tabs s) r p = resolve (tabs s0) r p) by (apply md_out0; [done|done|clear -Hn; tauto]).
    rewrite Hold. case_decide as Hd; [|done]. destruct Hd as [-> Ht3].
    apply (broken_hole _ _ (va_path va)); [done|by destruct Hp as (_ & ? & _)|done|].
    apply Hclean. exists (length ks). split; [lia|done].
  - intros p Hp. rewrite Hvw. case_decide as Hd; [done|]. apply md_zero0. apply Hnew in Hp as [?| ->]; [done|]. by destruct Hd.
  - intros x Hx. rewrite Hnew in Hx. rewrite Hvw. case_decide as Hd; [subst x; destruct Hx; auto|]. apply md_view0. clear -Hx; tauto.
Qed.

Lemma region_loop_spec left s ks : mapped s ks -> (length ks + left = n)%nat ->
  exists s' rc, region_loop cur left (length ks) s root start fl = Ok (s', rc) /\
    ((rc = 0 /\ exists ks', length ks' = n /\ mapped s' ks') \/
     (rc = -1 /\ user_ok R s' A /\ pmm_abs (pmm s') = B /\ same_geom q0 (pmm s') /\ (forall x, view s' A x = view s0 A x) /\
        forall r p, r ∈ R -> page_path U p -> resolve (tabs s') r p = resolve (tabs s0) r p)).
Proof.
  revert s ks. induction left as [|left IH]; intros s ks Hmd Hl; simpl.
  { exists s, 0. split; [done|]. left. split; [done|]. exists ks. split; [lia|done]. }
  pose proof Hmd as []. destruct Hst as (Hs1 & Hs2 & Hs3).
  assert (Hva : u64 (start + Z.of_nat (length ks) * 0x1000) = start + Z.of_nat (length ks) * 4096) by (apply Z.mod_small; lia).
  rewrite Hva. set (va := start + Z.of_nat (length ks) * 4096).
  assert (Hvr : 0 <= va < 2 ^ 47) by (unfold va; lia). pose proof (uo_pmm _ _ _ md_user0) as Hinv.
  destruct (pmm_alloc_frame cur (pmm s)) as [q new] eqn:Ea.
  destruct (pmm_alloc_abs _ _ _ _ Hinv Ea) as (Hinvq & Hgq & [(-> & ->)|(k & Hk & Hnk & Hqk & ->)]).
  { rewrite decide_True by done.
    destruct (mapped_undo s s (pmm s) ks Hmd) as (s' & E & ? & ? & ? & ? & ?);
      [lia|by rewrite set_pmm_id|done|done|done|by rewrite set_pmm_id|].
    rewrite E. cbn [mbind outcome_bind]. eexists _, _. split; [done|]. right. splits; auto. }
  pose proof (frame_at_range _ _ Hinv Hk) as (Hk1 & Hk2 & Hk3). rewrite decide_False by lia.
  destruct (uo_ram _ _ _ md_user0 k Hk) as (oldk & Holdk & Hlk).
  destruct (zero_phys_spec R (set_pmm q s) (frame_at (pmm s) k) oldk) as (s2 & -> & Hok2 & Hsu2 & Hr2 & Hp2 & Hc2 & Hkr2);
    [destruct (uo_mm _ _ _ md_user0); by split|exact (uo_cr3 _ _ _ md_user0)|done|done|].
  cbn [mbind outcome_bind]. assert (Hlz : length (replicate 4096 0) = 4096%nat) by apply length_replicate.
  destruct (install_spec R s s2 _ q k root va fl (replicate 4096 0) md_user0 Hr Hvr Hus Hk Hnk Hinvq Hgq Hqk Hok2 Hsu2 Hr2 Hlz Hp2 Hc2 Hkr2)
    as (s3 & rc & -> & Hre3 & Hpe & Hcase); cbn [mbind outcome_bind].
  destruct (ram_kept _ _ Hre3) as (_ & Ep3 & _). assert (Hq3 : pmm s3 = q) by (rewrite Ep3, Hp2; done).
  assert (Hf : frame_at (pmm s) k = frame_at q0 k) by by apply same_geom_frame_at.
  assert (Hkt : (k < total_frames q0)%nat) by (rewrite <- (sg_total _ _ md_geom0); done).
  assert (Hkn : k ∉ ks).
  { intros Hin. rewrite md_abs0 in Hnk. clear -Hin Hnk. induction ks as [|k0 ks IH]; [by apply not_elem_of_nil in Hin|].
    simpl in Hnk. apply lookup_insert_None in Hnk as [Hnk Hne]. apply elem_of_cons in Hin as [->|Hin]; [done|]. by apply IH. }
  assert (HBk : B !! k = None) by by rewrite <- (region_counts_out B ks k Hkn), <- md_abs0.
  destruct Hcase as [(-> & Hu3 & Hex3 & Hvw & Hres)|(-> & q' & Eq & Hu' & Habs & Hg & Hres & Hvw)].
  - rewrite decide_False by lia. rewrite Hf in *.
    destruct (IH s3 (ks ++ [k])) as (s' & rc & E & Hfin).
    + apply (mapped_step s s3 ks k); auto; [lia|rewrite Hq3; by etrans|by rewrite Hq3, Hqk, md_abs0].
    + rewrite length_app. simpl. lia.
    + rewrite length_app in E. simpl in E. rewrite Nat.add_1_r in E. eauto.
  - rewrite decide_True by lia. unfold pmm_free_frame in Eq |- *. rewrite Eq. cbn [mbind outcome_bind].
    destruct (mapped_undo s s3 q' ks Hmd) as (s' & E & ? & ? & ? & ? & ?);
      [lia|done|by etrans|congruence|done|done|].
    rewrite E. cbn [mbind outcome_bind]. eexists _, _. split; [done|]. right. splits; auto.
Qed.
End region.
(** ** Main theorems *)


(** [zero_user_region_in_directory] is [copy_to_user_region_in_directory]
    of a buffer of zeros, in every state and on every path, failures included. *)
Theorem zero_user_region_is_copy s root dst n :
  zero_user_region_in_directory cur s root dst n = copy_to_user_region_in_directory cur s root dst (Some (replicate n 0)).
Proof.
  unfold zero_user_region_in_directory, copy_to_user_region_in_directory. rewrite length_replicate.
  destruct (decide (root = 0)); [done|apply zero_loop_copy].
Qed.

(** what [copy_to_user_region_in_directory] stored,
    [copy_from_user_region_in_directory] reads back, across page boundaries and copy-on-write
    breaks, without changing memory. *)
Theorem user_copy_roundtrip R s A root dst src :
  user_ok R s A -> exclusive A -> root ∈ R -> 0 <= dst -> dst + Z.of_nat (length src) <= 2 ^ 47 ->
  (forall va, dst <= va < dst + Z.of_nat (length src) -> writable A (root, va_path va)) ->
  exists s1 rc, copy_to_user_region_in_directory cur s root dst (Some src) = Ok (s1, rc) /\
    (rc = 0 -> exists s2, copy_from_user_region_in_directory s1 root dst false (length src) = Ok (s2, 0, src) /\ ram s2 = ram s1).
Proof.
  intros Hu Hex Hr H1 H2 Hw. assert (Hroot : root <> 0) by (eapply (root_nonzero U R s); [exact (uo_mm _ _ _ Hu)|done]).
  unfold copy_to_user_region_in_directory, copy_from_user_region_in_directory. rewrite decide_False by done.
  destruct (copy_to_loop_spec (length src) R s A root dst src) as (s1 & rc & A1 & m & -> & Hu1 & _ & _ & Hrc & Hb); auto.
  exists s1, rc. split; [done|]. intros ->. destruct Hrc as [[_ ->]|?]; [|done]. rewrite decide_False by naive_solver.
  assert (Hread : forall i, (i < length src)%nat -> ubyte s1 A1 root (dst + Z.of_nat i) = src !! i).
  { intros i Hi. rewrite Hb, decide_True by lia. f_equal. lia. }
  destruct (copy_from_loop_spec (length src) R s1 A1 root dst (length src) []) as (s2 & bs & -> & _ & Hram & Hl & Hbs); auto.
  { intros va Hva. specialize (Hread (Z.to_nat (va - dst)) ltac:(lia)). replace (dst + Z.of_nat (Z.to_nat (va - dst))) with va in Hread by lia.
    destruct (lookup_lt_is_Some_2 src (Z.to_nat (va - dst)) ltac:(lia)) as [b Eb]. rewrite Eb in Hread. unfold ubyte, view in Hread.
    destruct (A1 !! (root, va_path va)); [eauto|done]. }
  exists s2. split; [|done]. simpl. do 2 f_equal. apply list_eq_same_length with (length src); [lia|done|].
  intros i x y Hi Hx Hy. rewrite <- Hbs, Hread in Hx by done. congruence.
Qed.

(** C5: [map_user_region_in_directory] is all or nothing.  On a region of the
    user half in which nothing is mapped it returns 0 or -1.  After 0 every page of the region has a
    frame of its own that was free, with one reference, reads as zeros and carries the requested flags
    with PAGE_USER; no other page of any address space changed.  After -1 (out of frames or of table
    pages, at any point) the reference counts, the contents and the translation of every page
    are what they were. *)
Theorem map_user_region_all_or_nothing R s A root virtual_start size flags :
  let start := page_of virtual_start in
  let n := region_pages size in
  let fl := Z.lor flags PAGE_USER in
  user_ok R s A -> root ∈ R -> 0 <= virtual_start -> start + Z.of_nat n * 4096 <= 2 ^ 47 ->
  (forall p, region_page start n p -> resolve (tabs s) root p = None) ->
  exists s' rc, map_user_region_in_directory cur s root virtual_start size flags = Ok (s', rc) /\
    ((rc = 0 /\ exists ks, length ks = n /\ NoDup ks /\ (forall k, k ∈ ks -> pmm_abs (pmm s) !! k = None) /\
        let A' := region_leaves (pmm s) A root start fl ks in
        user_ok R s' A' /\ (exclusive A -> exclusive A') /\ pmm_abs (pmm s') = region_counts (pmm_abs (pmm s)) ks /\
        (forall p, region_page start n p -> view s' A' (root, p) = Some (replicate 4096 0)) /\
        (forall x, ~ (x.1 = root /\ region_page start n x.2) -> view s' A' x = view s A x)) \/
     (rc = -1 /\ user_ok R s' A /\ pmm_abs (pmm s') = pmm_abs (pmm s) /\ (forall x, view s' A x = view s A x) /\
        forall r p, r ∈ R -> page_path U p -> resolve (tabs s') r p = resolve (tabs s) r p)).
Proof.
  intros start n fl Hu Hr Hv Htop Hclean. unfold map_user_region_in_directory. fold start n fl.
  rewrite decide_False by (eapply (root_nonzero U R s); [exact (uo_mm _ _ _ Hu)|done]).
  assert (Hst : 0 <= start /\ start mod 4096 = 0 /\ start + Z.of_nat n * 4096 <= 2 ^ 47).
  { unfold start in *. rewrite page_of_arith in *. rewrite Z.mod_mul by lia. pose proof (Z.div_pos virtual_start 4096). lia. }
  assert (Hus : Z.testbit fl 2 = true).
  { unfold fl. change PAGE_USER with (2 ^ 2). rewrite Z.lor_spec, testbit_pow2 by lia. apply orb_true_r. }
  destruct (region_loop_spec R s A root start fl n Hu Hr Hus Hst Hclean n s [] (mapped_start R s A root start fl n Hu) eq_refl)
    as (s' & rc & E & [(-> & ks & Hl & [])|(-> & Hu' & Habs & _ & Hvw & Hres)]); exists s'.
  - exists 0. split; [exact E|]. left. split; [done|]. exists ks. rewrite Hl in *. splits; auto. intros k Hk. by apply md_free0.
  - exists (-1). split; [exact E|]. right. auto.
Qed.
End user.
