(* ===== verification/PageFault.v ===== *)
(** * Page faults (src/mm/page_fault.c)

    [mm_page_fault_handle] over the page tables: demand-zero pages for the heap,
    the stack and anonymous mappings, copy-on-write, the promotion of leftover
    supervisor identity leaves, and every path that ends in SIGSEGV or in a
    kernel panic.  [pf_user_segv] ends the handler, so it is a result here
    ([PF_SEGV]); what the signal then does belongs to the process layer.
    Logging, event records and the debug classification are left out. *)

From S2P Require Import Prelude Bytes Pmm PageTables UserMem.

Definition PF_USER_SPACE_START : Z := 0x00400000.
Definition PF_USER_SPACE_END : Z := 0x00007FFFFFFFFFFF.
Definition PF_IDENTITY_USER_FLOOR : Z := 0x00600000.
(** src/config.h, src/includes/ir0/abi/mmap_contract.h *)
Definition USER_STACK_TOP : Z := 0x7FFFF000.
Definition USER_STACK_SIZE : Z := 0x100000.
Definition USER_MMAP_START : Z := 0x20000000.
Definition IR0_MAP_ANONYMOUS : Z := 0x20.

Record mmap_region := { mr_addr : Z; mr_length : Z; mr_prot : Z; mr_flags : Z }.

(** The fields of the faulting process the handler reads. *)
Record pf_process := {
  process_pgd : Z;
  process_heap_start : Z;
  process_heap_end : Z;
  process_stack_start : Z;
  process_stack_size : Z;
  process_mmap_list : list mmap_region
}.

Record page_fault_info := {
  pfi_address : Z; pfi_present : bool; pfi_write : bool; pfi_user : bool; pfi_exec : bool
}.

(** How the handler ends: back to the instruction, SIGSEGV for the current
    process, or the current process killed for a fault inside the kernel. *)
Inductive pf_result := PF_RETURN | PF_SEGV | PF_KILL.

Definition pf_addr_in_heap (p : pf_process) (fa : Z) : bool :=
  let heap_lo := process_heap_start p in
  let heap_hi := process_heap_end p in
  if decide (heap_hi <= heap_lo) then false else
  let heap_lo := if decide (heap_lo = 0) then PF_USER_SPACE_START else heap_lo in
  bool_decide (heap_lo <= fa < heap_hi).

Definition pf_addr_in_stack (p : pf_process) (fa : Z) : bool :=
  let lo := process_stack_start p in
  let hi := u64 (lo + process_stack_size p) in
  if decide (lo = 0 \/ hi <= lo)
  then bool_decide (USER_STACK_TOP - USER_STACK_SIZE <= fa < USER_STACK_TOP)
  else bool_decide (lo <= fa < hi).

Definition pf_mmap_region_for (p : pf_process) (fa : Z) : option mmap_region :=
  List.find (fun r => bool_decide (mr_addr r <= fa < u64 (mr_addr r + mr_length r))) (process_mmap_list p).

Definition pf_addr_may_promote_identity (p : pf_process) (fa : Z) : bool :=
  if pf_addr_in_heap p fa || pf_addr_in_stack p fa || bool_decide (is_Some (pf_mmap_region_for p fa)) then true else
  let heap_hi := process_heap_end p in
  bool_decide (PF_IDENTITY_USER_FLOOR < heap_hi /\ PF_IDENTITY_USER_FLOOR <= fa /\ fa < heap_hi /\ fa < USER_MMAP_START).

Section ops.
Context {H : Type} `{!PageSource H}.
Context (cur : option proc_view).
Implicit Types s : pg_state H.

(** The frame is mapped first and zeroed afterwards. *)
Definition pf_demand_zero_page s (p : pf_process) (fault_addr map_flags : Z) : outcome (pg_state H * pf_result) :=
  let '(q, phys_addr) := pmm_alloc_frame cur (pmm s) in
  let s := set_pmm q s in
  if decide (phys_addr = 0) then Ok (s, PF_SEGV) else
  '(s, r) ← map_page_in_directory cur s (process_pgd p) (page_of fault_addr) phys_addr map_flags;
  if decide (r <> 0) then
    q ← pmm_free_frame (pmm s) phys_addr; Ok (set_pmm q s, PF_SEGV)
  else
    s ← paging_zero_phys_page s phys_addr; Ok (s, PF_RETURN).

Definition pf_identity_to_anon_zero s (p : pf_process) (vaddr_aligned map_flags : Z) : outcome (pg_state H * Z) :=
  let '(q, new_phys) := pmm_alloc_frame cur (pmm s) in
  let s := set_pmm q s in
  if decide (new_phys = 0) then Ok (s, -1) else
  s ← paging_zero_phys_page s new_phys;
  '(s, r) ← map_page_in_directory cur s (process_pgd p) vaddr_aligned new_phys map_flags;
  if decide (r <> 0) then
    q ← pmm_free_frame (pmm s) new_phys; Ok (set_pmm q s, -1)
  else Ok (s, 0).

(** [user && not_present] *)
Definition pf_not_present s (p : pf_process) (fault_addr : Z) (write insn_fetch : bool) : outcome (pg_state H * pf_result) :=
  match pf_mmap_region_for p fault_addr with
  | Some mr =>
      if negb (flag_set (mr_flags mr) IR0_MAP_ANONYMOUS) then Ok (s, PF_SEGV) else
      if decide (mr_prot mr = 0) then Ok (s, PF_SEGV) else
      if write && negb (flag_set (mr_prot mr) 0x2) then Ok (s, PF_SEGV) else
      if insn_fetch && negb (flag_set (mr_prot mr) 0x4) then Ok (s, PF_SEGV) else
      let map_flags := PAGE_USER in
      let map_flags := if flag_set (mr_prot mr) 0x2 then Z.lor map_flags PAGE_RW else map_flags in
      let map_flags := if flag_set (mr_prot mr) 0x4 then Z.lor map_flags PAGE_EXEC else map_flags in
      pf_demand_zero_page s p fault_addr map_flags
  | None =>
      if negb (pf_addr_in_heap p fault_addr) && negb (pf_addr_in_stack p fault_addr) then Ok (s, PF_SEGV) else
      let map_flags := Z.lor PAGE_USER PAGE_RW in
      let map_flags := if insn_fetch then Z.lor map_flags PAGE_EXEC else map_flags in
      pf_demand_zero_page s p fault_addr map_flags
  end.

(** The copy for a leaf with PAGE_USER and PAGE_COW, without PAGE_RW: the old
    frame is pinned while it is copied. *)
Definition pf_cow_copy s (p : pf_process) (vaddr_aligned entry : Z) : outcome (pg_state H * pf_result) :=
  let old_phys := Z.land entry PAGE_PTE_PFN_MASK in
  let pinned := bool_decide (0 < pmm_frame_refcount (pmm s) old_phys) in
  s ← (if pinned then q ← pmm_frame_get (pmm s) old_phys; Ok (set_pmm q s) else Ok s);
  let unpin s := if pinned then q ← pmm_frame_put (pmm s) old_phys; Ok (set_pmm q s) else Ok s in
  let '(q, new_phys) := pmm_alloc_frame cur (pmm s) in
  let s := set_pmm q s in
  if decide (new_phys = 0) then s ← unpin s; Ok (s, PF_SEGV) else
  s ← paging_copy_phys_page s new_phys old_phys;
  '(s, r) ← map_page_in_directory cur s (process_pgd p) vaddr_aligned new_phys (cow_flags entry);
  if decide (r <> 0) then
    q ← pmm_free_frame (pmm s) new_phys; s ← unpin (set_pmm q s); Ok (s, PF_SEGV)
  else
    s ← unpin s; q ← pmm_frame_put (pmm s) old_phys; Ok (set_pmm q s, PF_RETURN).

(** [user && !not_present]: the write branch and the read branch share their
    beginning; a read that is not promoted falls through to the final SIGSEGV. *)
Definition pf_present s (p : pf_process) (fault_addr : Z) (write insn_fetch : bool) : outcome (pg_state H * pf_result) :=
  let vaddr_aligned := page_of fault_addr in
  '(s, r) ← paging_ensure_4k_leaf cur s (process_pgd p) vaddr_aligned;
  if decide (r <> 0) then Ok (s, PF_SEGV) else
  pte ← paging_get_pte s (process_pgd p) vaddr_aligned;
  e ← match pte with None => Ok 0 | Some (t, i) => load_entry s t i end;
  if bool_decide (pte = None) || negb (flag_set e PAGE_PRESENT) then
    if pf_addr_may_promote_identity p fault_addr then
      pf_demand_zero_page s p fault_addr
        (if write && insn_fetch then Z.lor (Z.lor PAGE_USER PAGE_RW) PAGE_EXEC else Z.lor PAGE_USER PAGE_RW)
    else Ok (s, PF_SEGV)
  else if negb (flag_set e PAGE_USER) && pf_addr_may_promote_identity p fault_addr then
    '(s, r) ← pf_identity_to_anon_zero s p vaddr_aligned (Z.lor PAGE_USER PAGE_RW);
    if decide (r <> 0) then Ok (s, PF_SEGV) else Ok (s, PF_RETURN)
  else if negb write || negb (flag_set e PAGE_USER) || negb (flag_set e PAGE_COW) || flag_set e PAGE_RW then Ok (s, PF_SEGV)
  else pf_cow_copy s p vaddr_aligned e.

Definition mm_page_fault_handle s (panic_in_progress : bool) (current : option pf_process) (user_mode : bool)
    (info : option page_fault_info) : outcome (pg_state H * pf_result) :=
  match info with
  | None => Ok (s, PF_RETURN)
  | Some info =>
      if panic_in_progress then Ok (s, PF_RETURN) else
      let fault_addr := pfi_address info in
      let in_user := bool_decide (PF_USER_SPACE_START <= fault_addr <= PF_USER_SPACE_END) in
      if pfi_user info then
        match current with
        | None => Ok (s, PF_RETURN)
        | Some p =>
            if negb (pfi_present info) then
              if negb in_user then Ok (s, PF_SEGV) else
              if decide (process_pgd p = 0) then Ok (s, PF_RETURN) else
              pf_not_present s p fault_addr (pfi_write info) (pfi_exec info)
            else
              if decide (process_pgd p = 0) then Ok (s, PF_RETURN) else
              pf_present s p fault_addr (pfi_write info) (pfi_exec info)
        end
      else if in_user then
        match current with
        | Some _ => if user_mode then Ok (s, PF_KILL) else Panic "Unhandled kernel page fault (uaccess, no user task)"
        | None => Panic "Unhandled kernel page fault (uaccess, no user task)"
        end
      else Panic "Unhandled kernel page fault"
  end.
End ops.

(** ** What a fault may do *)

(** The policy for a missing page: where it may appear, and how. *)
Definition pf_permits (p : pf_process) (fa : Z) (write exec : bool) : bool :=
  match pf_mmap_region_for p fa with
  | Some mr => flag_set (mr_flags mr) IR0_MAP_ANONYMOUS && negb (bool_decide (mr_prot mr = 0)) &&
      implb write (flag_set (mr_prot mr) 0x2) && implb exec (flag_set (mr_prot mr) 0x4)
  | None => pf_addr_in_heap p fa || pf_addr_in_stack p fa
  end.

Section faults.
Context {H : Type} `{!PageSource H, !PageSourceLaws H} (cur : option proc_view).
Implicit Types s : pg_state H.
Implicit Types A : leaves.

(** What one fault at the page [x] may do to user memory: nothing, give the
    page a zeroed frame of its own, or replace a copy-on-write leaf by a
    private copy.  Other pages are untouched. *)
Record fault_effect (R : gset Z) s A (x : Z * list nat) s' A' : Prop := {
  fe_user : user_ok R s' A';
  fe_excl : exclusive A';
  fe_other y : y <> x -> A' !! y = A !! y /\ view s' A' y = view s A y
}.

Definition fault_case s A (x : Z * list nat) s' A' (res : pf_result) : Prop :=
  (res <> PF_RETURN /\ A' = A /\ view s' A' x = view s A x) \/
  (res = PF_RETURN /\ A !! x = None /\ is_Some (A' !! x) /\ view s' A' x = Some (replicate 4096 0)) \/
  (res = PF_RETURN /\ exists e e', A !! x = Some e /\ flag_set e PAGE_RW = false /\ flag_set e PAGE_COW = true /\
     A' !! x = Some e' /\ flag_set e' PAGE_RW = true /\ view s' A' x = view s A x).

(** A frame that was free, now zeroed, under a page that had none. *)
Lemma demand_zero_spec R s A p fa fl :
  user_ok R s A -> exclusive A -> process_pgd p ∈ R -> 0 <= fa < 2 ^ 47 -> Z.testbit fl 2 = true ->
  let x := (process_pgd p, va_path fa) in
  exists s' res A', pf_demand_zero_page cur s p fa fl = Ok (s', res) /\ fault_effect R s A x s' A' /\
    ((res = PF_SEGV /\ A' = A /\ view s' A' x = view s A x) \/
     (res = PF_RETURN /\ (exists f, A' !! x = Some (map_entry f fl)) /\ view s' A' x = Some (replicate 4096 0))).
Proof.
  intros Hu Hex Hr Hv Hus x. pose proof (uo_pmm _ _ _ Hu) as Hinv. pose proof (uo_mm _ _ _ Hu) as Hok.
  set (va := page_of fa). assert (Hpv : 0 <= va < 2 ^ 47).
  { unfold va. rewrite page_of_arith. pose proof (Z.div_mod fa 4096). pose proof (Z.mod_pos_bound fa 4096). lia. }
  assert (Hva : va_path va = va_path fa) by (apply va_path_page_of; lia).
  unfold pf_demand_zero_page. fold va. destruct (pmm_alloc_frame cur (pmm s)) as [q new] eqn:Ea.
  destruct (pmm_alloc_abs _ _ _ _ Hinv Ea) as (Hinvq & Hgq & [(-> & ->)|(k & Hk & Hnk & Hqk & ->)]).
  { rewrite set_pmm_id, decide_True by done. exists s, PF_SEGV, A. splits; auto. by split. }
  pose proof (frame_at_range _ _ Hinv Hk) as (Hk1 & Hk2 & Hk3). cbv zeta. rewrite decide_False by lia.
  destruct (uo_ram _ _ _ Hu k Hk) as (oldk & Holdk & Hlk).
  assert (Hok2 : mm_ok U R (set_pmm q s)) by (destruct Hok; by split).
  destruct (install_spec cur R s (set_pmm q s) A q k (process_pgd p) va fl oldk Hu Hr Hpv Hus Hk Hnk Hinvq Hgq Hqk Hok2)
    as (s3 & rc & -> & Hre & Hpe & Hc); try done; [symmetry; by apply insert_id|]. rewrite Hva in Hc. fold x in Hc. cbn [mbind outcome_bind].
  destruct Hc as [(-> & Hu3 & Hex3 & Hvw & _)|(-> & q' & -> & Hu' & _ & _ & _ & Hvw)]; cbn [mbind outcome_bind].
  2: { rewrite decide_True by lia. exists (set_pmm q' s3), PF_SEGV, A. splits; auto. split; auto. }
  rewrite decide_False by lia. destruct (ram_kept _ _ Hre) as (Er & Ep & Ec & Ek). cbn [ram pmm cr3 paging_kernel_root set_pmm] in *.
  set (e' := map_entry (frame_at (pmm s) k) fl) in *. set (A' := <[x := e']> A) in *.
  destruct (zero_phys_spec R s3 (frame_at (pmm s) k) oldk (uo_mm _ _ _ Hu3) (uo_cr3 _ _ _ Hu3)) as (s4 & -> & Hok4 & Hsu & Hr4 & Hp4 & Hc4 & Hk4);
    [by rewrite Er|done|]. cbn [mbind outcome_bind].
  assert (Hview : forall y, y <> x -> view s4 A' y = view s3 A' y).
  { intros y Hy. unfold view, A'. rewrite lookup_insert_ne by done. destruct (A !! y) as [ey|] eqn:Ey; [|done]. simpl.
    rewrite Hr4, lookup_insert_ne; [done|]. apply not_eq_sym. by apply (free_unmapped R s A k y ey). }
  exists s4, PF_RETURN, A'. split; [done|]. split; [split|].
  - apply (user_ok_same R s3 s4 A'); auto. intros j Hj. rewrite Hr4.
    destruct (decide (frame_at (pmm s) k = frame_at (pmm s3) j)) as [->|Hne]; [rewrite lookup_insert_eq; eauto using length_replicate|].
    rewrite lookup_insert_ne by done. by apply (uo_ram _ _ _ Hu3).
  - by apply Hex3.
  - intros y Hy. split; [unfold A'; by rewrite lookup_insert_ne|]. rewrite Hview, Hvw by done. by rewrite decide_False by done.
  - right. splits; [done|exists (frame_at (pmm s) k); unfold A'; by rewrite lookup_insert_eq|].
    unfold view, A'. rewrite lookup_insert_eq. cbn [mbind option_bind]. by rewrite Hpe, Hr4, lookup_insert_eq.
Qed.

Lemma anon_zero_spec R s A p va fl :
  user_ok R s A -> exclusive A -> process_pgd p ∈ R -> 0 <= va < 2 ^ 47 -> Z.testbit fl 2 = true ->
  let x := (process_pgd p, va_path va) in
  exists s' rc A', pf_identity_to_anon_zero cur s p va fl = Ok (s', rc) /\ fault_effect R s A x s' A' /\
    ((rc = -1 /\ A' = A /\ view s' A' x = view s A x) \/
     (rc = 0 /\ (exists f, A' !! x = Some (map_entry f fl)) /\ view s' A' x = Some (replicate 4096 0))).
Proof.
  intros Hu Hex Hr Hv Hus x. pose proof (uo_pmm _ _ _ Hu) as Hinv. pose proof (uo_mm _ _ _ Hu) as Hok.
  unfold pf_identity_to_anon_zero. destruct (pmm_alloc_frame cur (pmm s)) as [q new] eqn:Ea.
  destruct (pmm_alloc_abs _ _ _ _ Hinv Ea) as (Hinvq & Hgq & [(-> & ->)|(k & Hk & Hnk & Hqk & ->)]).
  { rewrite set_pmm_id, decide_True by done. exists s, (-1), A. splits; auto. by split. }
  pose proof (frame_at_range _ _ Hinv Hk) as (Hk1 & Hk2 & Hk3). cbv zeta. rewrite decide_False by lia.
  destruct (uo_ram _ _ _ Hu k Hk) as (oldk & Holdk & Hlk).
  destruct (zero_phys_spec R (set_pmm q s) (frame_at (pmm s) k) oldk) as (s2 & -> & Hok2 & Hsu2 & Hr2 & Hp2 & Hc2 & Hkr2);
    [destruct Hok; by split|exact (uo_cr3 _ _ _ Hu)|done|done|].
  cbn [mbind outcome_bind]. assert (Hlz : length (replicate 4096 0) = 4096%nat) by apply length_replicate.
  destruct (install_spec cur R s s2 A q k (process_pgd p) va fl (replicate 4096 0) Hu Hr Hv Hus Hk Hnk Hinvq Hgq Hqk Hok2 Hsu2 Hr2 Hlz Hp2 Hc2 Hkr2)
    as (s3 & rc & -> & Hre & Hpe & Hc). cbn [mbind outcome_bind]. fold x in Hc.
  destruct Hc as [(-> & Hu3 & Hex3 & Hvw & _)|(-> & q' & -> & Hu' & _ & _ & _ & Hvw)]; cbn [mbind outcome_bind].
  2: { rewrite decide_True by lia. exists (set_pmm q' s3), (-1), A. splits; auto. split; auto. }
  rewrite decide_False by lia. eexists s3, 0, _. split; [done|]. split; [split; [exact Hu3|by apply Hex3|]|].
  - intros y Hy. rewrite Hvw, decide_False by done. by rewrite lookup_insert_ne.
  - right. splits; [done|eexists; by rewrite lookup_insert_eq|]. by rewrite Hvw, decide_True.
Qed.
(** The fault path is the copy-on-write break of the kernel's own writers, run
    under one extra reference to the old frame. *)
Lemma cow_copy_break s p va e t i q :
  page_of va = va -> load_entry s t i = Ok e -> flag_set e PAGE_PRESENT = true -> flag_set e PAGE_USER = true ->
  flag_set e PAGE_COW = true -> flag_set e PAGE_RW = false ->
  0 < pmm_frame_refcount (pmm s) (mm_pte_phys e) -> pmm_frame_get (pmm s) (mm_pte_phys e) = Ok q ->
  pf_cow_copy cur s p va e =
    '(s, r) ← paging_cow_break_leaf cur (set_pmm q s) (process_pgd p) (Some (t, i)) va;
    q ← pmm_frame_put (pmm s) (mm_pte_phys e);
    Ok (set_pmm q s, if decide (r = 0) then PF_RETURN else PF_SEGV).
Proof.
  intros Hva He Hp Hus Hcow Hrw Hpin Hget. unfold pf_cow_copy, paging_cow_break_leaf.
  change (load_entry (set_pmm q s) t i) with (load_entry s t i). rewrite He, Hva. cbn [mbind outcome_bind].
  rewrite Hp, Hus, Hcow, Hrw. simpl negb. simpl orb. cbv iota zeta.
  change (Z.land e PAGE_PTE_PFN_MASK) with (mm_pte_phys e). rewrite bool_decide_true, Hget by done. cbn [mbind outcome_bind].
  destruct (pmm_alloc_frame cur (pmm (set_pmm q s))) as [q1 new].
  destruct (decide (new = 0)); cbn [mbind outcome_bind].
  { destruct (pmm_frame_put _ _); done. }
  destruct (paging_copy_phys_page _ new (mm_pte_phys e)) as [s2| |]; cbn [mbind outcome_bind]; try done.
  destruct (map_page_in_directory cur s2 _ _ _ _) as [[s3 r]| |]; cbn [mbind outcome_bind]; try done.
  destruct (decide (r <> 0)) as [Hr|Hr].
  - destruct (pmm_free_frame _ _); cbn [mbind outcome_bind]; try done. destruct (pmm_frame_put _ _); done.
  - destruct (pmm_frame_put (pmm s3) _) as [q3| |]; cbn [mbind outcome_bind]; try done.
Qed.

Lemma refcount_live q a i c : pmm_inv q -> pmm_frame_index q a = Some i -> pmm_abs q !! i = Some c -> is_Some (pmm_frame_refs q) ->
  pmm_frame_refcount q a = c.
Proof.
  intros Hinv Hi Hc [rf Hrf]. pose proof (pmm_frame_index_lt _ _ _ Hinv Hi) as Hlt.
  rewrite pmm_abs_lookup, decide_True in Hc by done. unfold pmm_frame_refcount. rewrite Hi. unfold bit in Hc.
  destruct (bitmap_test (bitmap q) i); [|done]. unfold refcnt in Hc. rewrite Hrf in *. by injection Hc.
Qed.

(** [pf_cow_copy] on a copy-on-write user page. *)
Lemma cow_copy_spec R s A p va e t :
  user_ok R s A -> exclusive A -> process_pgd p ∈ R -> 0 <= va < 2 ^ 47 -> va mod 4096 = 0 ->
  (forall i c, pmm_abs (pmm s) !! i = Some c -> c < U32_MAX) ->
  let x := (process_pgd p, va_path va) in
  A !! x = Some e -> load_entry s t (va_index va 12) = Ok e -> flag_set e PAGE_RW = false -> flag_set e PAGE_COW = true ->
  exists s' res A', pf_cow_copy cur s p va e = Ok (s', res) /\ fault_effect R s A x s' A' /\
    ((res = PF_SEGV /\ A' = A /\ view s' A' x = view s A x) \/
     (res = PF_RETURN /\ exists e', A' !! x = Some e' /\ flag_set e' PAGE_RW = true /\ view s' A' x = view s A x)).
Proof.
  intros Hu Hex Hr Hv Hal Hmax x HA He Hrw Hcow. destruct (user_leaf_slot R s A _ va e Hu Hr Hv HA) as (_ & _ & _ & Hp & Hus).
  pose proof (uo_pmm _ _ _ Hu) as Hinv. destruct (uo_frame _ _ _ Hu _ _ HA) as (i & Hi & Hpi).
  destruct (mapped_used _ _ _ _ _ _ Hu HA Hi Hpi) as [c Hc]. pose proof (uo_count _ _ _ Hu i Hi) as Hcnt.
  pose proof (mapcount_pos _ _ _ HA) as Hpos. rewrite Hpi in Hpos. rewrite Hc in Hcnt. simpl in Hcnt.
  destruct (get_spare R s A i c Hu Hi Hc (Hmax _ _ Hc)) as (q & Eq & Hu1 & Hq & Hgq). rewrite <- Hpi in Eq.
  rewrite (cow_copy_break s p va e t (va_index va 12) q); auto.
  2: { rewrite page_of_arith. pose proof (Z.div_mod va 4096). lia. }
  2: { rewrite Hpi. rewrite (refcount_live _ _ i c); auto; [lia|by apply frame_at_index|exact (uo_refs _ _ _ Hu)]. }
  destruct (cow_break_spec cur R (set_pmm q s) A (process_pgd p) va e t Hu1 Hex Hr Hv Hal HA He Hrw Hcow)
    as (s1 & rc & A' & -> & Hu2 & Hex2 & Hvw & Hg2 & Hsl & Hcase). cbn [mbind outcome_bind]. cbn [pmm set_pmm] in Hg2, Hsl.
  assert (Hi2 : (i < total_frames q)%nat) by (rewrite (sg_total _ _ Hgq); done).
  pose proof (same_geom_frame_at _ _ i Hgq) as Hfq. pose proof (same_geom_frame_at _ _ i Hg2) as Hf2.
  destruct (put_spare R s1 A' i Hu2) as (q' & Eq' & Hu3 & _ & _).
  { rewrite (sg_total _ _ Hg2). done. }
  { specialize (Hsl i Hi2). unfold slack in Hsl. cbn [pmm set_pmm] in Hsl. rewrite Hq, lookup_insert_eq, Hfq in Hsl. simpl in Hsl. lia. }
  rewrite Hf2, Hfq, <- Hpi in Eq'. rewrite Eq'. cbn [mbind outcome_bind]. eexists _, _, A'. split; [done|].
  assert (Hfe : fault_effect R s A x (set_pmm q' s1) A').
  { split; auto. intros y Hy. split; [|exact (Hvw y)].
    destruct Hcase as [(_ & ->)|(_ & e' & -> & _)]; [done|]. by rewrite lookup_insert_ne. }
  split; [done|]. destruct Hcase as [(-> & ->)|(-> & e' & -> & Hrw')]; [left|right].
  - rewrite decide_False by lia. splits; auto. exact (Hvw x).
  - rewrite decide_True by lia. split; [done|]. exists e'. rewrite lookup_insert_eq. splits; auto. exact (Hvw x).
Qed.
(** Splitting a 2 MiB leaf shows to no user page. *)
Lemma ensure_user R s A root va : user_ok R s A -> root ∈ R -> 0 <= va < 2 ^ 47 ->
  exists s' rc, paging_ensure_4k_leaf cur s root va = Ok (s', rc) /\ user_ok R s' A /\ rest s' = rest s /\
    (rc = -1 \/ (rc = 0 /\ exists b, walk (tabs s') root (take 3 (va_path va)) = Some b)).
Proof.
  intros Hu Hr Hv. pose proof (uo_mm _ _ _ Hu) as Hok.
  destruct (ensure_4k_spec cur U R s root va Hok Hr (va_user_okp _ Hv)) as (s' & rc & E & Hok' & Hre & Hc).
  exists s', rc. destruct (ram_kept _ _ Hre) as (Er & Ep & Ec & Ek). splits; auto.
  - apply (user_ok_intro R s s' A A); rewrite ?Ep, ?Er; auto.
    + exact (uo_pmm _ _ _ Hu).
    + reflexivity.
    + exact (uo_ram _ _ _ Hu).
    + exact (uo_dom _ _ _ Hu).
    + intros r p Hr' Hp. rewrite (uo_abs _ _ _ Hu) by done. destruct Hc as [(_ & ->)|(_ & _ & Hb)]; [done|].
      rewrite Hb by done. case_decide; [by rewrite user_leaf_broken|done].
    + exact (uo_frame _ _ _ Hu).
    + exact (uo_count _ _ _ Hu).
  - destruct Hc as [(-> & _)|(-> & [b Hb] & _)]; [by left|right; eauto].
Qed.

Lemma effect_none R s s' A x : user_ok R s' A -> exclusive A -> ram s' = ram s -> fault_effect R s A x s' A.
Proof. intros Hu Hex Hram. split; auto. intros y _. split; [done|]. unfold view. by rewrite Hram. Qed.

(** The view before, seen from a state with the same RAM. *)
Lemma effect_from R s1 s A x s' A' : fault_effect R s1 A x s' A' -> ram s1 = ram s -> fault_effect R s A x s' A'.
Proof.
  intros [] Hram. split; auto. intros y Hy. destruct (fe_other0 y Hy) as [H1 H2]. split; [done|]. rewrite H2. unfold view. by rewrite Hram.
Qed.

Lemma not_present_spec R s A p fa w ex :
  user_ok R s A -> exclusive A -> process_pgd p ∈ R -> 0 <= fa < 2 ^ 47 -> A !! (process_pgd p, va_path fa) = None ->
  exists s' res A', pf_not_present cur s p fa w ex = Ok (s', res) /\ fault_effect R s A (process_pgd p, va_path fa) s' A' /\
    fault_case s A (process_pgd p, va_path fa) s' A' res /\
    (pf_permits p fa w ex = false -> res = PF_SEGV) /\
    (res = PF_RETURN -> w = true -> exists e', A' !! (process_pgd p, va_path fa) = Some e' /\ flag_set e' PAGE_RW = true).
Proof.
  intros Hu Hex Hr Hv HA. set (x := (process_pgd p, va_path fa)) in *.
  assert (Hsegv : exists s' res A', Ok (s, PF_SEGV) = Ok (s', res) /\ fault_effect R s A x s' A' /\
    fault_case s A x s' A' res /\ (pf_permits p fa w ex = false -> res = PF_SEGV) /\
    (res = PF_RETURN -> w = true -> exists e', A' !! x = Some e' /\ flag_set e' PAGE_RW = true)).
  { exists s, PF_SEGV, A. splits; [done|by apply effect_none|by left|done|done]. }
  assert (Hmap : forall fl, Z.testbit fl 2 = true -> pf_permits p fa w ex = true -> (w = true -> Z.testbit fl 1 = true) ->
    exists s' res A', pf_demand_zero_page cur s p fa fl = Ok (s', res) /\ fault_effect R s A x s' A' /\
    fault_case s A x s' A' res /\ (pf_permits p fa w ex = false -> res = PF_SEGV) /\
    (res = PF_RETURN -> w = true -> exists e', A' !! x = Some e' /\ flag_set e' PAGE_RW = true)).
  { intros fl Hfl Hper Hfw. destruct (demand_zero_spec R s A p fa fl Hu Hex Hr Hv Hfl) as (s' & res & A' & -> & Hfe & Hc).
    exists s', res, A'. fold x in Hfe, Hc. splits; auto; [|congruence|].
    - destruct Hc as [(-> & -> & ?)|(-> & [f Hf] & Hz)]; [by left|right; left; eauto 6].
    - intros -> Hw. destruct Hc as [(? & _ & _)|(_ & [f Hf] & _)]; [done|]. eexists. split; [exact Hf|].
      change PAGE_RW with (2 ^ 1). rewrite map_entry_bit by lia. auto. }
  unfold pf_not_present. destruct (pf_mmap_region_for p fa) as [mr|] eqn:Emr.
  - unfold pf_permits in *. rewrite Emr in *.
    destruct (flag_set (mr_flags mr) IR0_MAP_ANONYMOUS); simpl negb; cbv iota; [|exact Hsegv].
    case_decide as Hz; [exact Hsegv|].
    destruct (w && negb (flag_set (mr_prot mr) 2)) eqn:Ew; [exact Hsegv|].
    destruct (ex && negb (flag_set (mr_prot mr) 4)) eqn:Ex; [exact Hsegv|].
    assert (Hw : implb w (flag_set (mr_prot mr) 2) = true) by (by destruct w, (flag_set (mr_prot mr) 2)).
    assert (Hx : implb ex (flag_set (mr_prot mr) 4) = true) by (by destruct ex, (flag_set (mr_prot mr) 4)).
    apply Hmap.
    + by destruct (flag_set (mr_prot mr) 2), (flag_set (mr_prot mr) 4).
    + rewrite bool_decide_false by done. by rewrite Hw, Hx.
    + intros ->. simpl in Hw. rewrite Hw. by destruct (flag_set (mr_prot mr) 4).
  - unfold pf_permits in *. rewrite Emr in *. destruct (pf_addr_in_heap p fa || pf_addr_in_stack p fa) eqn:Ehs.
    + assert (negb (pf_addr_in_heap p fa) && negb (pf_addr_in_stack p fa) = false) as -> by (by rewrite <- negb_orb, Ehs).
      apply Hmap; [by destruct ex|done|by destruct ex].
    + assert (negb (pf_addr_in_heap p fa) && negb (pf_addr_in_stack p fa) = true) as -> by (by rewrite <- negb_orb, Ehs).
      exact Hsegv.
Qed.
Lemma present_spec R s A p fa w ex :
  user_ok R s A -> exclusive A -> process_pgd p ∈ R -> 0 <= fa < 2 ^ 47 ->
  (forall i c, pmm_abs (pmm s) !! i = Some c -> c < U32_MAX) ->
  let x := (process_pgd p, va_path fa) in
  exists s' res A', pf_present cur s p fa w ex = Ok (s', res) /\ fault_effect R s A x s' A' /\ fault_case s A x s' A' res /\
    (A !! x = None -> pf_addr_may_promote_identity p fa = false -> res = PF_SEGV) /\
    (res = PF_RETURN -> exists e', A' !! x = Some e' /\ flag_set e' PAGE_RW = true).
Proof.
  intros Hu Hex Hr Hv Hmax x. set (va := page_of fa).
  assert (Hpv : 0 <= va < 2 ^ 47 /\ va mod 4096 = 0).
  { unfold va. rewrite page_of_arith, Z.mod_mul by lia. pose proof (Z.div_mod fa 4096). pose proof (Z.mod_pos_bound fa 4096). lia. }
  destruct Hpv as [Hpv Hpm]. assert (Hva : va_path va = va_path fa) by (apply va_path_page_of; lia).
  destruct (ensure_user R s A (process_pgd p) va Hu Hr Hpv) as (s1 & rc & E1 & Hu1 & Hre & Hc).
  destruct (ram_kept _ _ Hre) as (Er & Ep & _). rewrite Hva in Hc.
  assert (Hsegv : exists s' res A', Ok (s1, PF_SEGV) = Ok (s', res) /\ fault_effect R s A x s' A' /\ fault_case s A x s' A' res /\
    (A !! x = None -> pf_addr_may_promote_identity p fa = false -> res = PF_SEGV) /\
    (res = PF_RETURN -> exists e', A' !! x = Some e' /\ flag_set e' PAGE_RW = true)).
  { exists s1, PF_SEGV, A. splits; [done|by apply effect_none|left; splits; auto; unfold view; by rewrite Er|done|done]. }
  unfold pf_present. fold va. rewrite E1. cbn [mbind outcome_bind].
  destruct Hc as [->|(-> & b & Hw)]; [rewrite decide_True by lia; exact Hsegv|]. rewrite decide_False by lia.
  pose proof (uo_mm _ _ _ Hu1) as Hok1. rewrite <- Hva in Hw.
  rewrite (get_pte_spec U R s1 _ va Hok1 Hr (va_user_okp _ Hpv)), Hw. cbn [mbind outcome_bind].
  destruct (third_level_entry U R s1 _ va Hok1 Hr (va_user_okp _ Hpv) b Hw) as (e & El & _ & Hres). rewrite El. cbn [mbind outcome_bind].
  assert (HA : A !! x = if mm_pte_present e && flag_set e PAGE_USER then Some e else None).
  { unfold x. rewrite <- Hva. rewrite (uo_abs _ _ _ Hu1), Hres by auto using va_user_path. by destruct (mm_pte_present e). }
  rewrite bool_decide_false by done. simpl orb. change (flag_set e PAGE_PRESENT) with (mm_pte_present e).
  assert (Hnew : forall s2 res A', A !! x = None -> pf_addr_may_promote_identity p fa = true -> fault_effect R s1 A x s2 A' ->
     ((res = PF_SEGV /\ A' = A /\ view s2 A' x = view s1 A x) \/
      (res = PF_RETURN /\ (exists f fl, Z.testbit fl 1 = true /\ A' !! x = Some (map_entry f fl)) /\ view s2 A' x = Some (replicate 4096 0))) ->
     fault_effect R s A x s2 A' /\ fault_case s A x s2 A' res /\
     (A !! x = None -> pf_addr_may_promote_identity p fa = false -> res = PF_SEGV) /\
     (res = PF_RETURN -> exists e', A' !! x = Some e' /\ flag_set e' PAGE_RW = true)).
  { intros s2 res A' Hn Hpr Hfe Hcase. splits; [by apply (effect_from R s1)| |congruence|].
    - destruct Hcase as [(-> & -> & Hvx)|(-> & (f & fl & _ & Hf) & Hz)]; [|right; left; eauto 6].
      left. splits; auto. rewrite Hvx. unfold view. by rewrite Er.
    - intros ->. destruct Hcase as [(? & _)|(_ & (f & fl & Hb & Hf) & _)]; [done|]. eexists. split; [exact Hf|].
      change PAGE_RW with (2 ^ 1). by rewrite map_entry_bit by lia. }
  destruct (mm_pte_present e) eqn:Hpe; simpl negb; cbv iota.
  2: { destruct (pf_addr_may_promote_identity p fa) eqn:Hpr; [|exact Hsegv].
    set (fl := if w && ex then _ else _). assert (Hfl : Z.testbit fl 2 = true /\ Z.testbit fl 1 = true) by (unfold fl; by destruct (w && ex)).
    destruct Hfl as [Hfl Hfl1]. destruct (demand_zero_spec R s1 A p fa fl Hu1 Hex Hr Hv Hfl) as (s2 & res & A' & -> & Hfe & Hcase).
    exists s2, res, A'. split; [done|]. apply Hnew; auto. destruct Hcase as [?|(-> & [f Hf] & ?)]; [by left|right; eauto 8]. }
  destruct (flag_set e PAGE_USER) eqn:Hpu; simpl negb; simpl andb; cbv iota.
  2: { destruct (pf_addr_may_promote_identity p fa) eqn:Hpr; [|rewrite orb_true_r; exact Hsegv].
    destruct (anon_zero_spec R s1 A p va (Z.lor PAGE_USER PAGE_RW) Hu1 Hex Hr Hpv eq_refl) as (s2 & r2 & A' & -> & Hfe & Hcase).
    rewrite Hva in Hfe, Hcase. cbn [mbind outcome_bind]. destruct Hcase as [(-> & -> & Hvx)|(-> & [f Hf] & Hz)].
    - rewrite decide_True by lia. exists s2, PF_SEGV, A. split; [done|]. apply Hnew; auto.
    - rewrite decide_False by lia. exists s2, PF_RETURN, A'. split; [done|]. apply Hnew; auto. right. split; [done|]. split; [|done].
      exists f, (Z.lor PAGE_USER PAGE_RW). done. }
  destruct w; simpl orb; [|exact Hsegv].
  destruct (flag_set e PAGE_COW) eqn:Hcow; simpl orb; [|exact Hsegv].
  destruct (flag_set e PAGE_RW) eqn:Hrw; [exact Hsegv|]. simpl in HA.
  destruct (cow_copy_spec R s1 A p va e b Hu1 Hex Hr Hpv Hpm) as (s2 & res & A' & -> & Hfe & Hcase); auto;
    [by rewrite Ep|by rewrite Hva|]. rewrite Hva in Hfe, Hcase. fold x in Hfe, Hcase.
  exists s2, res, A'. split; [done|]. splits; [by apply (effect_from R s1)| |congruence|].
  - destruct Hcase as [(-> & -> & Hvx)|(-> & e' & HA' & Hrw' & Hvw)]; [left; splits; auto; rewrite Hvx; unfold view; by rewrite Er|]. right; right. split; [done|]. exists e, e'. splits; auto.
    rewrite Hvw. unfold view. by rewrite Er.
  - intros ->. destruct Hcase as [(? & _)|(_ & e' & ? & ? & _)]; [done|eauto].
Qed.

(** C3: a fault raised by user code changes at most the faulting page.  For
    every user-mode fault in the user half (the P bit of the error code
    telling whether the page has a leaf), the handler returns and ends in one of three ways.  It
    reports SIGSEGV with every page's contents and leaf unchanged; or
    the page had no user leaf and now has a frame of its own full of zeros; or it was
    copy-on-write, and is now writable with the same bytes, on a frame no other page
    maps.  A missing page appears only where the process has a heap, stack or
    anonymous mapping that permits the access, and resuming after a write fault
    finds the page writable.  Everything else every process can read is as before. *)
Theorem page_fault_isolated R s A p info :
  let x := (process_pgd p, va_path (pfi_address info)) in
  user_ok R s A -> exclusive A -> process_pgd p ∈ R -> pfi_user info = true -> 0 <= pfi_address info < 2 ^ 47 ->
  (pfi_present info = false -> A !! x = None) ->
  (forall i c, pmm_abs (pmm s) !! i = Some c -> c < U32_MAX) ->
  exists s' res A', mm_page_fault_handle cur s false (Some p) true (Some info) = Ok (s', res) /\
    fault_effect R s A x s' A' /\ fault_case s A x s' A' res /\
    (A !! x = None -> res = PF_RETURN ->
       if pfi_present info then pf_addr_may_promote_identity p (pfi_address info) = true
       else PF_USER_SPACE_START <= pfi_address info /\ pf_permits p (pfi_address info) (pfi_write info) (pfi_exec info) = true) /\
    (res = PF_RETURN -> pfi_write info = true -> exists e', A' !! x = Some e' /\ flag_set e' PAGE_RW = true).
Proof.
  intros x Hu Hex Hr Hus Hv Hhw Hmax. unfold mm_page_fault_handle. rewrite Hus.
  assert (Hroot : process_pgd p <> 0) by (eapply (root_nonzero U R s); [exact (uo_mm _ _ _ Hu)|done]).
  destruct (pfi_present info) eqn:Hpres; simpl negb; cbv iota.
  - rewrite decide_False by done.
    destruct (present_spec R s A p (pfi_address info) (pfi_write info) (pfi_exec info) Hu Hex Hr Hv Hmax)
      as (s' & res & A' & E & Hfe & Hfc & Hpol & Hwr). exists s', res, A'. splits; auto. intros Hn Hres.
    destruct (pf_addr_may_promote_identity p (pfi_address info)); [done|]. subst res. by specialize (Hpol Hn eq_refl).
  - case_bool_decide as Hin; simpl negb; cbv iota.
    2: { exists s, PF_SEGV, A. splits; [done|by apply effect_none|by left|done|done]. }
    rewrite decide_False by done.
    destruct (not_present_spec R s A p (pfi_address info) (pfi_write info) (pfi_exec info) Hu Hex Hr Hv (Hhw eq_refl))
      as (s' & res & A' & E & Hfe & Hfc & Hpol & Hwr). exists s', res, A'. splits; auto. intros _ Hres. split; [lia|].
    destruct (pf_permits p (pfi_address info) (pfi_write info) (pfi_exec info)); [done|]. subst res. by specialize (Hpol eq_refl).
Qed.
End faults.
