(* ===== verification/AddrSpace.v ===== *)
(** * Address-space helpers of the process layer (src/kernel/process/mm.c)

    Range overlap, the process layer's own page-table descent, the resident
    page count and the teardown walk [process_unmap_user_pages_all]. *)

From S2P Require Import Prelude Pmm PageTables UserMem PageFault.

(** ** Ranges *)

Definition process_va_ranges_overlap (a_start a_len b_start b_len : Z) : bool :=
  if decide (a_len = 0 \/ b_len = 0) then false else
  bool_decide (a_start < u64 (b_start + b_len) /\ b_start < u64 (a_start + a_len)).

(** [proc] is the process, or NULL. *)
Definition process_user_va_range_overlaps (proc : option pf_process) (addr length : Z) : bool :=
  match proc with
  | None => false
  | Some p =>
      if decide (length = 0) then false else
      if bool_decide (process_heap_start p < process_heap_end p) &&
         process_va_ranges_overlap addr length (process_heap_start p) (process_heap_end p - process_heap_start p) then true else
      if bool_decide (0 < process_stack_size p) &&
         process_va_ranges_overlap addr length (process_stack_start p) (process_stack_size p) then true else
      existsb (fun r => process_va_ranges_overlap addr length (mr_addr r) (mr_length r)) (process_mmap_list p)
  end.

(** ** Walking the tables *)

Definition PAGE_FRAME_MASK : Z := U64_MAX - 0xFFF.

(** The counters this walk moves; the other fields of the C struct stay zero. *)
Record process_reclaim_stats := {
  mapped_pages : Z; freed_pages : Z; missing_pages : Z;
  pdpt_present : Z; pd_present : Z; pt_present : Z; leaf_present : Z; leaf_freed : Z
}.

Section ops.
Context {H : Type} `{!PageSource H}.
Implicit Types s : pg_state H.
Implicit Types st : option process_reclaim_stats.

Definition process_pt_child s (table : Z) (index : nat) : outcome Z :=
  e ← load_entry s table index;
  if negb (flag_set e PAGE_PRESENT) then Ok 0 else
  if flag_set e PAGE_SIZE_2MB_FLAG then Ok 0 else Ok (Z.land e PAGE_FRAME_MASK).

(** [for (i = 0; i < n; i++)] with an accumulator and no early exit. *)
Fixpoint fold_slots {X} (f : nat -> X -> outcome X) (l : list nat) (x : X) : outcome X :=
  match l with [] => Ok x | i :: l => x ← f i x; fold_slots f l x end.

Definition count_leaf s (pt : Z) (i1 : nat) (count : Z) : outcome Z :=
  ent ← load_entry s pt i1;
  Ok (if flag_set ent PAGE_PRESENT && flag_set ent PAGE_USER then u64 (count + 1) else count).

Definition count_pd s (pd : Z) (i2 : nat) (count : Z) : outcome Z :=
  pd_ent ← load_entry s pd i2;
  if negb (flag_set pd_ent PAGE_PRESENT) then Ok count else
  if flag_set pd_ent PAGE_USER && flag_set pd_ent PAGE_SIZE_2MB_FLAG then Ok (u64 (count + 512)) else
  pt ← process_pt_child s pd i2;
  if decide (pt = 0) then Ok count else fold_slots (count_leaf s pt) (seq 0 512) count.

Definition count_pdpt s (pdpt : Z) (i3 : nat) (count : Z) : outcome Z :=
  pd ← process_pt_child s pdpt i3;
  if decide (pd = 0) then
    pdpt_ent ← load_entry s pdpt i3;
    Ok (if flag_set pdpt_ent PAGE_PRESENT && flag_set pdpt_ent PAGE_USER && flag_set pdpt_ent PAGE_SIZE_2MB_FLAG
        then u64 (count + 512) else count)
  else fold_slots (count_pd s pd) (seq 0 512) count.

(** [root] is [mm->page_directory], 0 when absent. *)
Definition mm_count_resident_user_pages s (root : Z) : outcome Z :=
  if decide (root = 0) then Ok 0 else
  fold_slots (fun i4 count =>
    pdpt ← process_pt_child s root i4;
    if decide (pdpt = 0) then Ok count else fold_slots (count_pdpt s pdpt) (seq 0 512) count)
  (seq 0 mm_user_root_slots) 0.

Definition bump_stat (f : process_reclaim_stats -> process_reclaim_stats) st := f <$> st.
Definition note_leaf st := bump_stat (fun t => Build_process_reclaim_stats (mapped_pages t + 1) (freed_pages t) (missing_pages t)
  (pdpt_present t) (pd_present t) (pt_present t) (leaf_present t + 1) (leaf_freed t)) st.
Definition note_freed st := bump_stat (fun t => Build_process_reclaim_stats (mapped_pages t) (freed_pages t + 1) (missing_pages t)
  (pdpt_present t) (pd_present t) (pt_present t) (leaf_present t) (leaf_freed t + 1)) st.
Definition note_missing st := bump_stat (fun t => Build_process_reclaim_stats (mapped_pages t) (freed_pages t) (missing_pages t + 1)
  (pdpt_present t) (pd_present t) (pt_present t) (leaf_present t) (leaf_freed t)) st.
Definition note_table (level : nat) st := bump_stat (fun t => Build_process_reclaim_stats (mapped_pages t) (freed_pages t) (missing_pages t)
  (pdpt_present t + if decide (level = 1%nat) then 1 else 0) (pd_present t + if decide (level = 2%nat) then 1 else 0)
  (pt_present t + if decide (level = 3%nat) then 1 else 0) (leaf_present t) (leaf_freed t)) st.

Definition unmap_slot (pml4 pt : Z) (i4 i3 i2 i1 : nat) (x : pg_state H * option process_reclaim_stats)
    : outcome (pg_state H * option process_reclaim_stats) :=
  let '(s, st) := x in
  ent ← load_entry s pt i1;
  if negb (flag_set ent PAGE_PRESENT) || negb (flag_set ent PAGE_USER) then Ok (s, st) else
  let st := note_leaf st in
  let virt := Z.lor (Z.lor (Z.lor (Z.shiftl (Z.of_nat i4) 39) (Z.shiftl (Z.of_nat i3) 30))
                           (Z.shiftl (Z.of_nat i2) 21)) (Z.shiftl (Z.of_nat i1) 12) in
  '(s, r) ← unmap_page_in_directory s pml4 virt;
  Ok (s, if decide (r = 0) then note_freed st else note_missing st).

(** The table pointers are read once, before the loop over the level below. *)
Definition descend (level : nat) (table : Z) (i : nat)
    (body : Z -> pg_state H * option process_reclaim_stats -> outcome (pg_state H * option process_reclaim_stats))
    (x : pg_state H * option process_reclaim_stats) : outcome (pg_state H * option process_reclaim_stats) :=
  let '(s, st) := x in
  t ← process_pt_child s table i;
  if decide (t = 0) then Ok (s, st) else body t (s, note_table level st).

Definition process_unmap_user_pages_all s (pml4 : Z) st : outcome (pg_state H * option process_reclaim_stats) :=
  if decide (pml4 = 0) then Ok (s, st) else
  fold_slots (fun i4 => descend 1 pml4 i4 (fun pdpt =>
    fold_slots (fun i3 => descend 2 pdpt i3 (fun pd =>
      fold_slots (fun i2 => descend 3 pd i2 (fun pt =>
        fold_slots (unmap_slot pml4 pt i4 i3 i2) (seq 0 512)))
      (seq 0 512)))
    (seq 0 512)))
  (seq 0 mm_user_root_slots) (s, st).
End ops.

(** Without wrap-around, overlap is a common address. *)
Lemma ranges_overlap_exact a n b m : 0 <= a -> 0 <= b -> 0 <= n -> 0 <= m -> a + n < 2 ^ 64 -> b + m < 2 ^ 64 ->
  process_va_ranges_overlap a n b m = true <-> exists x, a <= x < a + n /\ b <= x < b + m.
Proof.
  intros H1 H2 H3 H4 H5 H6. unfold process_va_ranges_overlap. unfold u64. rewrite !Z.mod_small by lia. case_decide.
  - split; [done|]. intros (x & ? & ?). lia.
  - rewrite bool_decide_eq_true. split; [|intros (x & ? & ?); lia]. intros [? ?]. exists (Z.max a b). lia.
Qed.

(** A mapping request is refused exactly when it meets the heap, the stack or a
    region of the list. *)
Lemma user_va_range_overlaps_exact p addr n :
  0 <= addr -> 0 < n -> addr + n < 2 ^ 64 ->
  0 <= process_heap_start p -> process_heap_end p < 2 ^ 64 ->
  0 <= process_stack_start p -> 0 <= process_stack_size p -> process_stack_start p + process_stack_size p < 2 ^ 64 ->
  Forall (fun r => 0 <= mr_addr r /\ 0 <= mr_length r /\ mr_addr r + mr_length r < 2 ^ 64) (process_mmap_list p) ->
  process_user_va_range_overlaps (Some p) addr n = true <->
  exists x, addr <= x < addr + n /\
    (process_heap_start p <= x < process_heap_end p \/
     process_stack_start p <= x < process_stack_start p + process_stack_size p \/
     exists r, r ∈ process_mmap_list p /\ mr_addr r <= x < mr_addr r + mr_length r).
Proof.
  intros Ha Hn Hw Hh1 Hh2 Hs1 Hs2 Hs3 Hr. unfold process_user_va_range_overlaps. rewrite decide_False by lia.
  assert (Hex : forall b m, 0 <= b -> 0 <= m -> b + m < 2 ^ 64 ->
    process_va_ranges_overlap addr n b m = true <-> exists x, addr <= x < addr + n /\ b <= x < b + m)
    by (intros b m ? ? ?; apply ranges_overlap_exact; lia).
  assert (Hlist : existsb (fun r => process_va_ranges_overlap addr n (mr_addr r) (mr_length r)) (process_mmap_list p) = true <->
    exists r, r ∈ process_mmap_list p /\ exists x, addr <= x < addr + n /\ mr_addr r <= x < mr_addr r + mr_length r).
  { rewrite existsb_exists. split; intros (r & Hin & Hx); exists r.
    - apply list_elem_of_In in Hin. split; [done|]. rewrite Forall_forall in Hr. destruct (Hr r Hin) as (? & ? & ?). by apply Hex in Hx.
    - split; [by apply list_elem_of_In|]. rewrite Forall_forall in Hr. destruct (Hr r Hin) as (? & ? & ?). by apply Hex. }
  destruct (bool_decide (process_heap_start p < process_heap_end p) && _) eqn:Eh; [|destruct (bool_decide (0 < process_stack_size p) && _) eqn:Es].
  - apply andb_true_iff in Eh as [E1 E2]. apply bool_decide_eq_true in E1. apply Hex in E2 as (x & ? & ?); [|lia..].
    split; [|done]. intros _. exists x. split; [done|]. left. lia.
  - apply andb_true_iff in Es as [E1 E2]. apply Hex in E2 as (x & ? & ?); [|lia..]. split; [|done]. intros _. exists x. auto.
  - rewrite Hlist. split; [intros (r & Hin & x & ? & ?); exists x; split; [done|]; right; right; eauto|].
    intros (x & Hx & [Hb|[Hb|(r & Hin & Hb)]]); [| |eauto]; exfalso.
    + apply andb_false_iff in Eh as [Eh|Eh]; [apply bool_decide_eq_false in Eh; lia|]. apply not_true_iff_false in Eh. apply Eh, Hex; [lia..|].
      exists x. split; [done|lia].
    + apply andb_false_iff in Es as [Es|Es]; [apply bool_decide_eq_false in Es; lia|]. apply not_true_iff_false in Es. apply Es, Hex; [lia..|]. eauto.
Qed.
