(* ===== verification/CopyUser.v ===== *)
(** * User access from system calls (src/kernel/lib/copy_user.c)

    The range check, [copy_to_user], [copy_from_user], [clear_user] and the
    bounded string copy, over the page-table walks of UserMem.  In kernel mode the functions access memory
    directly; that access is an argument ([raw_...]). *)

From S2P Require Import Prelude Pmm PageTables UserMem.

(** src/arch/x86-64/sources/arch_mm.c *)
Definition mm_user_va_ok (addr size : Z) : bool :=
  let user_lo := 0x00400000 in
  let user_hi := 0x00007FFFFFFFFFFF in
  let e := u64 (addr + size) in
  if decide (addr = 0) then false else
  if decide (e < addr) then false else
  if decide (addr < user_lo \/ user_hi < e) then false else true.

(** The current process: kernel mode or not, and its page directory. *)
Record cu_process := { cu_kernel_mode : bool; cu_pgd : Z }.

Section ops.
Context {H : Type} `{!PageSource H}.
Context (cur : option proc_view).
Implicit Types s : pg_state H.
Implicit Types current : option cu_process.

(** [pages] bounds the loop: [end - start] is below 2^47. *)
Fixpoint mapped_loop (pages : nat) s (root addr_check e : Z) : outcome bool :=
  match pages with
  | O => Ok true
  | S k =>
      if decide (addr_check < e) then
        '(mapped, _) ← is_page_mapped_in_directory s root addr_check;
        if decide (mapped <> 1) then Ok false else mapped_loop k s root (u64 (addr_check + 0x1000)) e
      else Ok true
  end.

Definition is_user_address_checked s current (addr size : Z) (check_mapped : bool) : outcome bool :=
  let e := u64 (addr + size) in
  if decide (addr = 0) then Ok false else
  if decide (e < addr) then Ok false else
  if negb (mm_user_va_ok addr size) then Ok false else
  if check_mapped then
    match current with
    | None => Ok false
    | Some p => if decide (cu_pgd p = 0) then Ok false
                else mapped_loop (Z.to_nat ((e - page_of addr + 0xFFF) / 0x1000)) s (cu_pgd p) (page_of addr) e
    end
  else Ok true.

Definition is_user_address s current (addr size : Z) : outcome bool := is_user_address_checked s current addr size false.

Definition in_kernel_mode current : bool := match current with Some p => cu_kernel_mode p | None => false end.

Definition copy_to_user (raw_store : pg_state H -> Z -> list Z -> outcome (pg_state H)) s current (dst : Z) (src : list Z)
    : outcome (pg_state H * Z) :=
  let n := Z.of_nat (length src) in
  if decide (n = 0) then Ok (s, 0) else
  if in_kernel_mode current then s ← raw_store s dst src; Ok (s, 0) else
  ok ← is_user_address s current dst n;
  if negb ok then Ok (s, - EFAULT) else
  match current with
  | Some p => if decide (cu_pgd p = 0) then Ok (s, - EFAULT) else
      '(s, r) ← copy_to_user_region_in_directory cur s (cu_pgd p) dst (Some src);
      Ok (s, if decide (r <> 0) then - EFAULT else 0)
  | None => Ok (s, - EFAULT)
  end.

(** The bytes delivered to the kernel buffer, with the result. *)
Definition copy_from_user (raw_load : pg_state H -> Z -> nat -> outcome (list Z)) s current (src : Z) (n : nat)
    : outcome (pg_state H * Z * list Z) :=
  if decide (n = 0%nat) then Ok (s, 0, []) else
  if in_kernel_mode current then bs ← raw_load s src n; Ok (s, 0, bs) else
  ok ← is_user_address s current src (Z.of_nat n);
  if negb ok then Ok (s, - EFAULT, []) else
  match current with
  | Some p => if decide (cu_pgd p = 0) then Ok (s, - EFAULT, []) else
      '(s, r, bs) ← copy_from_user_region_in_directory s (cu_pgd p) src false n;
      Ok (s, if decide (r <> 0) then - EFAULT else 0, bs)
  | None => Ok (s, - EFAULT, [])
  end.

Definition clear_user (raw_store : pg_state H -> Z -> list Z -> outcome (pg_state H)) s current (dst : Z) (n : nat)
    : outcome (pg_state H * Z) :=
  if decide (n = 0%nat) then Ok (s, 0) else
  if in_kernel_mode current then s ← raw_store s dst (replicate n 0); Ok (s, 0) else
  ok ← is_user_address s current dst (Z.of_nat n);
  if negb ok then Ok (s, - EFAULT) else
  match current with
  | Some p => if decide (cu_pgd p = 0) then Ok (s, - EFAULT) else
      '(s, r) ← zero_user_region_in_directory cur s (cu_pgd p) dst n;
      Ok (s, if decide (r <> 0) then - EFAULT else 0)
  | None => Ok (s, - EFAULT)
  end.

(** The copy loop: [k] bytes of room before the terminator, [acc] stored. *)
Fixpoint cstring_loop (k : nat) s (root src : Z) (acc : list Z) : outcome (pg_state H * Z * list Z) :=
  match k with
  | O => Ok (s, 0, acc ++ [0])
  | S k =>
      '(s, r, bs) ← copy_from_user_region_in_directory s root src false 1;
      if decide (r <> 0) then Ok (s, - EFAULT, acc) else
      c ← or_ub (head bs);
      if decide (c = 0) then Ok (s, 0, acc ++ [c]) else cstring_loop k s root (u64 (src + 1)) (acc ++ [c])
  end.

(** [dst_sz] bytes of room at [dst] (non-NULL); the contents of [dst] after the
    call, as far as written. *)
Definition copy_from_user_cstring (raw_string : pg_state H -> Z -> nat -> outcome (list Z)) s current (dst_sz : nat) (src : Z)
    : outcome (pg_state H * Z * list Z) :=
  if decide (dst_sz = 0%nat \/ src = 0) then Ok (s, - EFAULT, []) else
  if in_kernel_mode current then bs ← raw_string s src (dst_sz - 1)%nat; Ok (s, 0, bs ++ [0]) else
  ok ← is_user_address s current src 1;
  if negb ok then Ok (s, - EFAULT, []) else
  match current with
  | Some p => if decide (cu_pgd p = 0) then Ok (s, - EFAULT, []) else cstring_loop (dst_sz - 1)%nat s (cu_pgd p) src []
  | None => Ok (s, - EFAULT, [])
  end.
End ops.

(** ** The range check *)

(** A range passes exactly when it lies in the user window without wrapping. *)
Lemma mm_user_va_ok_exact addr size : 0 <= addr < 2 ^ 64 -> 0 <= size < 2 ^ 64 ->
  mm_user_va_ok addr size = true <-> 0x400000 <= addr /\ addr + size <= 0x7FFFFFFFFFFF.
Proof.
  intros Ha Hs. unfold mm_user_va_ok, u64. destruct (decide (addr + size < 2 ^ 64)) as [Hlt|Hge].
  - rewrite Z.mod_small by lia. repeat case_decide; split; try done; lia.
  - assert ((addr + size) mod 2 ^ 64 = addr + size - 2 ^ 64) as ->
      by (rewrite <- (Z.mod_add _ (-1)) by lia; rewrite Z.mod_small; lia).
    repeat case_decide; split; try done; lia.
Qed.

Section correct.
Context {H : Type} `{!PageSource H, !PageSourceLaws H} (cur : option proc_view).
Implicit Types s : pg_state H.
Implicit Types A : leaves.

Lemma is_user_address_spec s current addr size : 0 <= addr < 2 ^ 64 -> 0 <= size < 2 ^ 64 ->
  is_user_address s current addr size = Ok (bool_decide (0x400000 <= addr /\ addr + size <= 0x7FFFFFFFFFFF)).
Proof.
  intros Ha Hs. unfold is_user_address, is_user_address_checked. pose proof (mm_user_va_ok_exact addr size Ha Hs) as Hok.
  destruct (mm_user_va_ok addr size) eqn:E.
  - destruct Hok as [Hok _]. specialize (Hok eq_refl). rewrite bool_decide_true by done.
    unfold u64. rewrite Z.mod_small by lia. rewrite !decide_False by lia. done.
  - rewrite bool_decide_false by (intros Hx; by apply Hok in Hx). by repeat case_decide.
Qed.

(** The string the loop delivers: user bytes up to the first NUL, or all the
    room, then a terminator. *)
Fixpoint cstring_of (bs : list Z) : list Z :=
  match bs with [] => [0] | b :: bs => if decide (b = 0) then [0] else b :: cstring_of bs end.

Lemma cstring_loop_spec R k s A root src acc bs :
  user_ok R s A -> root ∈ R -> length bs = k -> 0 <= src -> src + Z.of_nat k <= 2 ^ 47 ->
  (forall i b, bs !! i = Some b -> ubyte s A root (src + Z.of_nat i) = Some b) ->
  exists s', cstring_loop k s root src acc = Ok (s', 0, acc ++ cstring_of bs) /\ user_ok R s' A /\ ram s' = ram s.
Proof.
  revert s src acc bs. induction k as [|k IH]; intros s src acc bs Hu Hr Hl H1 H2 Hb.
  { destruct bs; [|done]. simpl. eauto. }
  destruct bs as [|b bs]; [done|]. injection Hl as Hl. simpl cstring_loop. simpl cstring_of.
  pose proof (Hb 0%nat b eq_refl) as Hb0. rewrite Z.add_0_r in Hb0.
  assert (Hroot : root <> 0) by (eapply (root_nonzero U R s); [exact (uo_mm _ _ _ Hu)|done]).
  unfold copy_from_user_region_in_directory. rewrite decide_False by naive_solver.
  destruct (copy_from_loop_spec 1 R s A root src 1 [] Hu Hr) as (s1 & bs1 & -> & Hu1 & Hram & Hl1 & Hbs1); [lia|lia|lia| |].
  { intros va Hva. assert (va = src) as -> by lia. unfold ubyte, view in Hb0. destruct (A !! (root, va_path src)); [eauto|done]. }
  cbn [mbind outcome_bind]. rewrite decide_False by lia. destruct bs1 as [|c [|]]; try (simpl in Hl1; lia). simpl app. cbn [head or_ub mbind outcome_bind].
  assert (c = b) as -> by (specialize (Hbs1 0%nat ltac:(lia)); rewrite Z.add_0_r, Hb0 in Hbs1; by injection Hbs1).
  destruct (decide (b = 0)) as [->|Hnz]; [eauto|].
  assert (Hnx : u64 (src + 1) = src + 1) by (apply Z.mod_small; lia). rewrite Hnx.
  destruct (IH s1 (src + 1) (acc ++ [b]) bs Hu1 Hr Hl) as (s2 & -> & Hu2 & Hr2); [lia|lia| |].
  - intros i b' Hi. pose proof (Hb (S i) b' Hi) as Hbi. replace (src + 1 + Z.of_nat i) with (src + Z.of_nat (S i)) by lia.
    unfold ubyte, view in *. by rewrite Hram.
  - exists s2. rewrite <- app_assoc. splits; auto. congruence.
Qed.


(** [copy_from_user_cstring] delivers, in user mode, the user's bytes up to
    and including the first NUL when it lies within the room, and otherwise the
    first [dst_sz - 1] bytes followed by a NUL: the buffer is always terminated
    and never overrun; user memory is not changed. *)
Theorem copy_from_user_cstring_correct raw R s A p dst_sz src bs :
  user_ok R s A -> cu_pgd p ∈ R -> cu_kernel_mode p = false -> length bs = (dst_sz - 1)%nat -> (0 < dst_sz)%nat ->
  0x400000 <= src -> src + Z.of_nat dst_sz <= 0x7FFFFFFFFFFF ->
  (forall i b, bs !! i = Some b -> ubyte s A (cu_pgd p) (src + Z.of_nat i) = Some b) ->
  exists s', copy_from_user_cstring raw s (Some p) dst_sz src = Ok (s', 0, cstring_of bs) /\ ram s' = ram s /\
    (length (cstring_of bs) <= dst_sz)%nat /\ last (cstring_of bs) = Some 0.
Proof.
  intros Hu Hr Hm Hl Hsz H1 H2 Hb. unfold copy_from_user_cstring, in_kernel_mode. rewrite decide_False by lia. rewrite Hm.
  rewrite is_user_address_spec by lia. cbn [mbind outcome_bind]. rewrite bool_decide_true by lia. simpl negb. cbv iota.
  rewrite decide_False by (eapply (root_nonzero U R s); [exact (uo_mm _ _ _ Hu)|done]).
  destruct (cstring_loop_spec R (dst_sz - 1) s A (cu_pgd p) src [] bs Hu Hr Hl) as (s' & -> & _ & Hram); [lia|lia|done|].
  exists s'. splits; auto.
  - assert (Hlen : forall l, (length (cstring_of l) <= S (length l))%nat).
    { induction l as [|b l IH]; simpl; [lia|]. destruct (decide (b = 0)); simpl; lia. }
    pose proof (Hlen bs). lia.
  - clear. induction bs as [|b bs IH]; [done|]. simpl. destruct (decide (b = 0)); [done|]. rewrite last_cons, IH. done.
Qed.
End correct.
