(* ===== verification/Fork.v ===== *)
(** * Fork (copy_process_memory of src/mm/paging.c)

    Copy-on-write duplication of an address space: the first traversal shares
    every user page of the parent with the child and counts the new references,
    the second makes the parent's writable pages read-only.  The bookkeeping of
    [fase40_copy_diag_events] (a debug counter) is left out. *)

From S2P Require Import Prelude Pmm PageTables UserMem.

Section ops.
Context {H : Type} `{!PageSource H}.
Context (cur : option proc_view).
Implicit Types s : pg_state H.

Definition fork_flags (page_entry : Z) : Z :=
  let f := Z.lor (Z.land (Z.land page_entry 0xFFF) (Z.lnot PAGE_GLOBAL)) PAGE_USER in
  let f := if flag_set page_entry PAGE_RW || flag_set page_entry PAGE_COW
           then Z.lor (Z.land f (Z.lnot PAGE_RW)) PAGE_COW else f in
  if flag_set page_entry PAGE_NX then f else Z.lor f PAGE_EXEC.

Definition fork_va (i4 i3 i2 i1 : nat) : Z :=
  Z.lor (Z.lor (Z.lor (Z.shiftl (Z.of_nat i4) 39) (Z.shiftl (Z.of_nat i3) 30))
               (Z.shiftl (Z.of_nat i2) 21)) (Z.shiftl (Z.of_nat i1) 12).

(** A loop that a [return] leaves early. *)
Fixpoint each_rc (f : nat -> pg_state H -> outcome (pg_state H * Z)) (l : list nat) s : outcome (pg_state H * Z) :=
  match l with
  | [] => Ok (s, 0)
  | i :: l => '(s, r) ← f i s; if decide (r <> 0) then Ok (s, r) else each_rc f l s
  end.

(** The three outer loops both phases share: descend through the existing
    tables of the user half. *)
Definition over_leaf_tables (body : list nat -> Z -> nat -> pg_state H -> outcome (pg_state H * Z)) s (root : Z)
    : outcome (pg_state H * Z) :=
  each_rc (fun i4 s =>
    level1_table ← get_existing_table s root i4;
    if decide (level1_table = 0) then Ok (s, 0) else
    each_rc (fun i3 s =>
      level2_table ← get_existing_table s level1_table i3;
      if decide (level2_table = 0) then Ok (s, 0) else
      each_rc (fun i2 s =>
        level3_table ← get_existing_table s level2_table i2;
        if decide (level3_table = 0) then Ok (s, 0) else
        each_rc (body [i4; i3; i2] level3_table) (seq 0 512) s)
      (seq 0 512) s)
    (seq 0 512) s)
  (seq 0 mm_user_root_slots) s.

Definition fork_share (child_root : Z) (P : list nat) (level3_table : Z) (i1 : nat) s : outcome (pg_state H * Z) :=
  page_entry ← load_entry s level3_table i1;
  if negb (mm_pte_present page_entry) || negb (flag_set page_entry PAGE_USER) then Ok (s, 0) else
  let parent_phys := paging_entry_pfn page_entry in
  let virt_addr := fork_va (P !!! 0%nat) (P !!! 1%nat) (P !!! 2%nat) i1 in
  p ← pmm_frame_get (pmm s) parent_phys;
  '(s, r) ← map_page_in_directory cur (set_pmm p s) child_root virt_addr parent_phys (fork_flags page_entry);
  if decide (r <> 0) then p ← pmm_frame_put (pmm s) parent_phys; Ok (set_pmm p s, -1)
  else Ok (s, 0).

Definition fork_protect (P : list nat) (level3_table : Z) (i1 : nat) s : outcome (pg_state H * Z) :=
  page_entry ← load_entry s level3_table i1;
  if negb (mm_pte_present page_entry) || negb (flag_set page_entry PAGE_USER) || negb (flag_set page_entry PAGE_RW)
  then Ok (s, 0) else
  s ← store_entry s level3_table i1 (Z.lor (Z.land page_entry (Z.lnot (Z.lor PAGE_RW PAGE_GLOBAL))) PAGE_COW);
  Ok (s, 0).

(** The roots are [process_pgd] of the two processes, 0 when absent.  The
    second traversal has no early return; the TLB flush at the end runs under
    the parent's root. *)
Definition copy_process_memory s (parent_root child_root : Z) : outcome (pg_state H * Z) :=
  if decide (parent_root = 0 \/ child_root = 0) then Ok (s, -1) else
  '(s, r) ← over_leaf_tables (fork_share child_root) s parent_root;
  if decide (r <> 0) then Ok (s, r) else
  '(s, _) ← over_leaf_tables fork_protect s parent_root;
  let saved_root := cr3 s in
  let s := if decide (saved_root <> parent_root) then set_cr3 parent_root s else s in
  let s := if decide (saved_root <> parent_root) then set_cr3 saved_root s else s in
  Ok (s, 0).
End ops.

(** ** Addresses and descriptors *)

Lemma lor_shift_add a b k : 0 <= k -> 0 <= b < 2 ^ k -> Z.lor (Z.shiftl a k) b = a * 2 ^ k + b.
Proof.
  intros Hk Hb. rewrite Z.shiftl_mul_pow2 by done. destruct (decide (b = 0)) as [->|Hb0]; [rewrite Z.lor_0_r; lia|].
  rewrite <- Z.lxor_lor, <- Z.add_nocarry_lxor; [done| |].
  all: apply Z.bits_inj'; intros n Hn; rewrite Z.land_spec, Z.bits_0; destruct (decide (n < k)).
  1, 3: by rewrite Z.mul_pow2_bits_low.
  all: rewrite (Z.bits_above_log2 b n), ?andb_false_r; [done|lia|];
    apply Z.log2_lt_pow2; [lia|]; pose proof (Z.pow_le_mono_r 2 k n); lia.
Qed.

Lemma fork_va_arith i4 i3 i2 i1 : (i3 < 512)%nat -> (i2 < 512)%nat -> (i1 < 512)%nat ->
  fork_va i4 i3 i2 i1 = (((Z.of_nat i4 * 512 + Z.of_nat i3) * 512 + Z.of_nat i2) * 512 + Z.of_nat i1) * 4096.
Proof.
  intros H3 H2 H1. unfold fork_va. rewrite <- !Z.lor_assoc.
  rewrite (Z.shiftl_mul_pow2 (Z.of_nat i1)) by lia.
  rewrite (lor_shift_add (Z.of_nat i2)); [|lia..]. rewrite (lor_shift_add (Z.of_nat i3)); [|lia..].
  rewrite (lor_shift_add (Z.of_nat i4)); lia.
Qed.

Lemma fork_va_path i4 i3 i2 i1 : (i4 < 256)%nat -> (i3 < 512)%nat -> (i2 < 512)%nat -> (i1 < 512)%nat ->
  va_path (fork_va i4 i3 i2 i1) = [i4; i3; i2; i1].
Proof.
  intros H4 H3 H2 H1. rewrite fork_va_arith by done. set (q := ((_ * 512 + _) * 512 + _) * 512 + Z.of_nat i1).
  assert (Hq : 0 <= q * 4096 < 2 ^ 48) by (unfold q; lia).
  pose proof (va_page_number _ Hq) as Hp. rewrite Z.div_mul in Hp by lia.
  unfold va_path. pose proof (va_index_lt (q * 4096) 39). pose proof (va_index_lt (q * 4096) 30).
  pose proof (va_index_lt (q * 4096) 21). pose proof (va_index_lt (q * 4096) 12).
  unfold q in Hp at 1. repeat f_equal; lia.
Qed.

Lemma fork_flags_bits e : Z.testbit (fork_flags e) 1 = false /\ Z.testbit (fork_flags e) 2 = true /\
  Z.testbit (fork_flags e) 9 = flag_set e PAGE_RW || flag_set e PAGE_COW.
Proof.
  unfold fork_flags. cbv zeta. rewrite !low_bits_exec by lia.
  destruct (flag_set e PAGE_RW) eqn:E1; [simpl orb; cbv iota; splits; flag_bits|].
  destruct (flag_set e PAGE_COW) eqn:E2; simpl orb; cbv iota.
  - splits; flag_bits.
  - change PAGE_RW with (2 ^ 1) in E1. change PAGE_COW with (2 ^ 9) in E2. rewrite flag_set_bit in E1, E2 by lia.
    splits; flag_bits; by rewrite ?E1, ?E2.
Qed.

(** The descriptors the two phases write. *)
Definition share (e : Z) : Z := map_entry (mm_pte_phys e) (fork_flags e).
Definition protect (e : Z) : Z :=
  if flag_set e PAGE_RW then Z.lor (Z.land e (Z.lnot (Z.lor PAGE_RW PAGE_GLOBAL))) PAGE_COW else e.

Lemma share_spec e : mm_pte_phys (share e) = mm_pte_phys e /\ flag_set (share e) PAGE_RW = false /\
  flag_set (share e) PAGE_COW = flag_set e PAGE_RW || flag_set e PAGE_COW.
Proof.
  unfold share. destruct (fork_flags_bits e) as (H1 & H2 & H9). rewrite map_entry_phys, phys_idem.
  change PAGE_RW with (2 ^ 1) at 1. change PAGE_COW with (2 ^ 9) at 1. by rewrite !map_entry_bit, H1, H9 by lia.
Qed.

Lemma protect_bit e n : 0 <= n -> Z.testbit (protect e) n =
  if Z.testbit e 1 then (Z.testbit e n && bool_decide (n <> 1 /\ n <> 8)) || bool_decide (n = 9) else Z.testbit e n.
Proof.
  intros Hn. unfold protect. change PAGE_RW with (2 ^ 1). change PAGE_GLOBAL with (2 ^ 8). change PAGE_COW with (2 ^ 9).
  rewrite flag_set_bit by lia. destruct (Z.testbit e 1); [|done].
  rewrite Z.lor_spec, Z.land_spec, Z.lnot_spec, Z.lor_spec, !testbit_pow2 by lia.
  repeat case_bool_decide; simpl; rewrite ?andb_true_r, ?andb_false_r; (done || lia).
Qed.

Lemma protect_spec e : mm_pte_phys (protect e) = mm_pte_phys e /\ mm_pte_present (protect e) = mm_pte_present e /\
  flag_set (protect e) PAGE_USER = flag_set e PAGE_USER /\ flag_set (protect e) PAGE_RW = false /\
  flag_set (protect e) PAGE_COW = flag_set e PAGE_RW || flag_set e PAGE_COW.
Proof.
  change PAGE_RW with (2 ^ 1). change PAGE_USER with (2 ^ 2). change PAGE_COW with (2 ^ 9).
  rewrite !present_bit, !flag_set_bit, !protect_bit by lia. splits.
  - apply Z.bits_inj'. intros n Hn. rewrite !phys_bit by done. rewrite protect_bit by done.
    destruct (Z.testbit e 1), (Z.testbit e n); simpl; repeat case_bool_decide; simpl; (done || lia).
  - destruct (Z.testbit e 1), (Z.testbit e 0); done.
  - destruct (Z.testbit e 1), (Z.testbit e 2); done.
  - destruct (Z.testbit e 1) eqn:E; done.
  - destruct (Z.testbit e 1), (Z.testbit e 9); done.
Qed.

(** Counting through an injection of pages. *)
Lemma mapcount_le (A B : leaves) (g : Z * list nat -> Z * list nat) f :
  (forall x e, B !! x = Some e -> exists e', A !! g x = Some e' /\ mm_pte_phys e' = mm_pte_phys e) ->
  (forall x y, is_Some (B !! x) -> is_Some (B !! y) -> g x = g y -> x = y) ->
  (mapcount B f <= mapcount A f)%nat.
Proof.
  intros Hg Hinj. unfold mapcount. rewrite <- !(size_dom (D := gset (Z * list nat))). unfold size, set_size. simpl.
  set (LB := elements (dom _)). set (LA := elements (dom (filter _ A))).
  assert (HB : forall x, x ∈ LB -> exists e, B !! x = Some e /\ mm_pte_phys e = f).
  { intros x Hx. unfold LB in Hx. rewrite elem_of_elements, elem_of_dom in Hx. destruct Hx as [e He].
    apply map_lookup_filter_Some in He as [? ?]. eauto. }
  rewrite <- (length_fmap g LB). apply submseteq_length, NoDup_submseteq.
  - apply NoDup_fmap_2_strong; [|apply NoDup_elements]. intros x y Hx Hy.
    destruct (HB x Hx) as (? & ? & _), (HB y Hy) as (? & ? & _). apply Hinj; eauto.
  - intros y Hy. apply list_elem_of_fmap in Hy as (x & -> & Hx). destruct (HB x Hx) as (e & He & Hp).
    destruct (Hg x e He) as (e' & He' & Hp'). unfold LA. rewrite elem_of_elements, elem_of_dom. exists e'.
    apply map_lookup_filter_Some. split; [done|]. simpl. congruence.
Qed.

Lemma mapcount_ext (A B : leaves) f : (forall x, mm_pte_phys <$> A !! x = mm_pte_phys <$> B !! x) -> mapcount A f = mapcount B f.
Proof.
  intros HAB. apply Nat.le_antisymm; apply (mapcount_le _ _ id); try done; intros x e He; specialize (HAB x); rewrite He in HAB; simpl in *.
  - destruct (B !! x); simplify_eq/=; eauto.
  - destruct (A !! x); simplify_eq/=; eauto.
Qed.

(** ** The traversal *)

Section traversal.
Context {H : Type} `{!PageSource H, !PageSourceLaws H}.
Implicit Types s : pg_state H.

(** A loop over slots keeps a property indexed by the slots done, and stops at
    the first failure. *)
Lemma each_rc_seq n (f : nat -> pg_state H -> outcome (pg_state H * Z)) (J : nat -> pg_state H -> Prop) (F : pg_state H -> Prop) s :
  (forall k s, (k < n)%nat -> J k s ->
     exists s' r, f k s = Ok (s', r) /\ ((r = 0 /\ J (S k) s') \/ (r = -1 /\ F s'))) ->
  J 0%nat s ->
  exists s' r, each_rc f (seq 0 n) s = Ok (s', r) /\ ((r = 0 /\ J n s') \/ (r = -1 /\ F s')).
Proof.
  intros Hf HJ. cut (forall m k s, (k + m = n)%nat -> J k s ->
    exists s' r, each_rc f (seq k m) s = Ok (s', r) /\ ((r = 0 /\ J n s') \/ (r = -1 /\ F s'))).
  { intros Hc. apply (Hc n 0%nat s); [lia|done]. }
  clear s HJ. induction m as [|m IH]; intros k s Hk HJ; simpl.
  { exists s, 0. split; [done|]. left. assert (k = n) as -> by lia. done. }
  destruct (Hf k s) as (s1 & r & -> & [(-> & HJ1)|(-> & HF)]); [lia|done| |]; cbn [mbind outcome_bind].
  - rewrite decide_False by lia. apply IH; [lia|done].
  - rewrite decide_True by lia. eexists _, _. split; [done|]. by right.
Qed.

(** [Inv X s]: the pages of [X] are done.  The body handles one page, tables
    are not touched, and pages without a table count as done.  [F] holds after an
    early return. *)
Context (R : gset Z) (root : Z) (T0 : gmap Z (list Z)).
Context (Inv : (list nat -> bool) -> pg_state H -> Prop) (F : pg_state H -> Prop).
Context (body : list nat -> Z -> nat -> pg_state H -> outcome (pg_state H * Z)).
Hypothesis Hr : root ∈ R.
Hypothesis Inv_ext : forall X Y s, (forall p, page_path U p -> X p = Y p) -> Inv X s -> Inv Y s.
Hypothesis Inv_ok : forall X s, Inv X s -> mm_ok U R s /\
  forall p, okp U p -> (length p <= 3)%nat -> walk (tabs s) root p = walk T0 root p.
Hypothesis Inv_skip : forall X s P, Inv X s -> P <> [] -> okp U P -> (length P <= 3)%nat -> walk (tabs s) root P = None ->
  Inv (fun p => X p || below P p) s.
Hypothesis Inv_body : forall X s i4 i3 i2 i1 t, Inv X s -> page_path U [i4; i3; i2; i1] -> X [i4; i3; i2; i1] = false ->
  walk (tabs s) root [i4; i3; i2] = Some t ->
  exists s' r, body [i4; i3; i2] t i1 s = Ok (s', r) /\
    ((r = 0 /\ Inv (fun p => X p || below [i4; i3; i2; i1] p) s') \/ (r = -1 /\ F s')).

Definition covers (P : list nat) (f : pg_state H -> outcome (pg_state H * Z)) : Prop :=
  forall X s, Inv X s -> (forall p, below P p = true -> X p = false) -> exists s' r, f s = Ok (s', r) /\
    ((r = 0 /\ Inv (fun p => X p || below P p) s') \/ (r = -1 /\ F s')).

(** The pages below slots less than [k] of the table at path [P]. *)
Definition below_slots (P : list nat) (k : nat) (p : list nat) : bool := existsb (fun i => below (P ++ [i]) p) (seq 0 k).

Lemma below_slots_S P k p : below_slots P (S k) p = below_slots P k p || below (P ++ [k]) p.
Proof. unfold below_slots. rewrite seq_S, existsb_app. simpl. by rewrite orb_false_r. Qed.

Lemma below_slots_all P n k p : page_path n p -> (length P <= 3)%nat -> (P = [] -> (n <= k)%nat) -> (512 <= k \/ P = [])%nat ->
  below_slots P k p = below P p.
Proof.
  intros (Ho & Hl & Hf) HP Hk1 Hk. apply eq_true_iff_eq. split.
  - intros He. apply existsb_exists in He as (i & _ & Hi). by eapply below_app.
  - rewrite below_true. intros [q ->]. rewrite length_app in Hl. destruct q as [|i q]; [simpl in Hl; lia|].
    apply existsb_exists. exists i. split; [|apply below_true; exists q; by rewrite <- app_assoc].
    apply in_seq. rewrite Forall_app, Forall_cons in Hf. destruct Hf as (_ & Hi & _).
    destruct Hk as [?| -> ]; [lia|]. simpl in Ho. specialize (Hk1 eq_refl). lia.
Qed.

Lemma below_slots_fresh P k p : below (P ++ [k]) p = true -> below_slots P k p = false /\ below P p = true.
Proof.
  intros Hb. split; [|by eapply below_app]. apply not_true_iff_false. intros He. apply existsb_exists in He as (i & Hi & Hb').
  apply below_true in Hb as [q ->], Hb' as [q' Hq]. rewrite <- !app_assoc in Hq. apply app_inv_head in Hq. injection Hq as <-.
  apply in_seq in Hi. lia.
Qed.

Lemma slots_cover P k f : (length P <= 3)%nat -> (P = [] -> (U <= k)%nat) -> (512 <= k \/ P = [])%nat ->
  (forall i, (i < k)%nat -> covers (P ++ [i]) (f i)) -> covers P (each_rc f (seq 0 k)).
Proof.
  intros HP Hk1 Hk Hf X s HI Hnew.
  destruct (each_rc_seq k f (fun j => Inv (fun p => X p || below_slots P j p)) F s)
    as (s' & r & E & Hc).
  - intros j s1 Hj HJ. destruct (Hf j Hj _ _ HJ) as (s2 & r & -> & Hc).
    { intros p Hp. destruct (below_slots_fresh _ _ _ Hp) as [-> Hb]. by rewrite Hnew. }
    eexists _, _. split; [done|].
    destruct Hc as [(-> & Hc)|Hc]; [left|by right]. split; [done|]. revert Hc. apply Inv_ext. intros p _.
    by rewrite below_slots_S, orb_assoc.
  - revert HI. apply Inv_ext. intros p _. by rewrite orb_false_r.
  - eexists _, _. split; [exact E|]. destruct Hc as [(-> & Hc)|Hc]; [left|by right]. split; [done|].
    revert Hc. apply Inv_ext. intros p Hp. by rewrite (below_slots_all P U).
Qed.

(** One level of the descent. *)
Lemma descend_cover P i (f : Z -> pg_state H -> outcome (pg_state H * Z)) : okp U (P ++ [i]) -> (i < 512)%nat -> (length P <= 2)%nat ->
  (forall b, walk T0 root (P ++ [i]) = Some b -> covers (P ++ [i]) (f b)) ->
  forall a, walk T0 root P = Some a ->
  covers (P ++ [i]) (fun s => t ← get_existing_table s a i; if decide (t = 0) then Ok (s, 0) else f t s).
Proof.
  intros Ho Hi HP Hf a Ha X s HI Hnew. destruct (Inv_ok _ _ HI) as [Hok Hw].
  assert (Hl : (length (P ++ [i]) <= 3)%nat) by (rewrite length_app; simpl; lia).
  assert (Hwa : walk (tabs s) root P = Some a) by (rewrite Hw; [done|by eapply okp_app|lia]).
  destruct (descend_cases U R s root P a i [0%nat] Hok Hr Ho Hi HP Hwa) as (e & El & _ & Hc); [done|].
  assert (Hskip : walk (tabs s) root (P ++ [i]) = None ->
    exists s' r, Ok (s, 0) = Ok (s', r) /\ ((r = 0 /\ Inv (fun p => X p || below (P ++ [i]) p) s') \/ (r = -1 /\ F s'))).
  { intros Hn. exists s, 0. split; [done|]. left. split; [done|]. apply Inv_skip; auto. by destruct P. }
  unfold get_existing_table, paging_entry_large. rewrite El. cbn [mbind outcome_bind].
  destruct Hc as [(-> & _ & Hn)|[(-> & -> & _ & Hn)|(-> & -> & Hnz & _ & Hs)]]; simpl negb; cbv iota; cbn [mbind outcome_bind].
  - rewrite decide_True by done. auto.
  - rewrite decide_True by done. auto.
  - rewrite decide_False by done. apply Hf; [by rewrite <- Hw|done|done].
Qed.

Lemma over_leaf_tables_covers s : Inv (fun _ => false) s ->
  exists s' r, over_leaf_tables body s root = Ok (s', r) /\
    ((r = 0 /\ Inv (fun _ => true) s') \/ (r = -1 /\ F s')).
Proof.
  intros HI. assert (Hc : covers [] (fun s => over_leaf_tables body s root)).
  { unfold over_leaf_tables. apply (slots_cover [] U); [simpl; lia|lia|by right|]. intros i4 Hi4.
    apply (descend_cover [] i4); [done|unfold mm_user_root_slots in *; lia|simpl; lia| |done]. intros b1 Hb1.
    apply (slots_cover _ 512); [simpl; lia|done|by left|]. intros i3 Hi3.
    apply (descend_cover [i4] i3); [done|done|simpl; lia| |done]. intros b2 Hb2.
    apply (slots_cover _ 512); [simpl; lia|done|by left|]. intros i2 Hi2.
    apply (descend_cover [i4; i3] i2); [done|done|simpl; lia| |done]. intros b3 Hb3.
    apply (slots_cover _ 512); [simpl; lia|done|by left|]. intros i1 Hi1 Y s1 HI1 Hnew.
    destruct (Inv_ok _ _ HI1) as [_ Hw]. apply Inv_body; [done| |by apply Hnew, below_true|].
    - split; [done|]. split; [done|]. unfold mm_user_root_slots in *.
      by repeat (apply Forall_cons_2; [lia|]).
    - rewrite Hw; [done|done|simpl; lia]. }
  destruct (Hc _ s HI) as (s' & r & E & Hfin); [done|]. eexists _, _. split; [exact E|].
  destruct Hfin as [(-> & Hfin)|Hfin]; [left|by right]. split; [done|]. revert Hfin. apply Inv_ext.
  intros p _. rewrite orb_true_iff. right. apply below_true, prefix_nil.
Qed.
End traversal.

Section fork.
Context {H : Type} `{!PageSource H, !PageSourceLaws H} (cur : option proc_view).
Implicit Types s : pg_state H.
Implicit Types A C : leaves.

(** A slot of a leaf table, and the user leaf it holds. *)
Lemma leaf_load R s A r P i t : user_ok R s A -> r ∈ R -> page_path U (P ++ [i]) -> walk (tabs s) r P = Some t ->
  exists e, load_entry s t i = Ok e /\ A !! (r, P ++ [i]) = if mm_pte_present e && flag_set e PAGE_USER then Some e else None.
Proof.
  intros Hu Hr Hp Hw. pose proof Hp as (Ho & Hl & Hf). rewrite length_app in Hl. simpl in Hl.
  rewrite Forall_app, Forall_singleton in Hf. destruct Hf as [_ Hi].
  destruct (wf_entry (ok_wf _ _ _ (uo_mm _ _ _ Hu)) r P t i) as (_ & e & _ & _ & _ & He); [done|by eapply okp_app|lia|done|done|].
  exists e. rewrite load_entry_eq, He. split; [done|]. rewrite (uo_abs _ _ _ Hu) by done.
  rewrite (resolve_app _ _ _ t) by done. simpl. rewrite He. by destruct (mm_pte_present e).
Qed.

(** Where there is no table there is no user page. *)
Lemma no_table_no_leaf R s A r P p : user_ok R s A -> r ∈ R -> (length P <= 3)%nat -> walk (tabs s) r P = None ->
  P `prefix_of` p -> A !! (r, p) = None.
Proof.
  intros Hu Hr HP Hw Hpre. destruct (A !! (r, p)) as [e|] eqn:He; [|done]. destruct (uo_dom _ _ _ Hu _ _ _ He) as [_ Hp].
  rewrite (uo_abs _ _ _ Hu) in He by done. destruct (resolve (tabs s) r p) as [[e' [|?]]|] eqn:Hres; try done.
  destruct Hp as (_ & Hl & _). destruct Hpre as [q ->]. rewrite length_app in Hl.
  destruct (exists_last (l := q)) as (q' & i & ->); [intros ->; simpl in Hl; lia|].
  rewrite app_assoc in Hres. apply resolve_small in Hres as (t & Ht & _). rewrite walk_app, Hw in Ht. done.
Qed.

Section phases.
Context (R : gset Z) (s0 : pg_state H) (A : leaves) (parent child : Z).
Hypothesis Hu0 : user_ok R s0 A.
Hypothesis Hpar : parent ∈ R.
Hypothesis Hchi : child ∈ R.
Hypothesis Hne : parent <> child.
Hypothesis Hclean : forall p, A !! (child, p) = None.
Hypothesis Hmax : forall i, (i < total_frames (pmm s0))%nat ->
  default 0 (pmm_abs (pmm s0) !! i) + Z.of_nat (mapcount A (frame_at (pmm s0) i)) <= U32_MAX.

(** The pages of [X] have been shared: [C] holds the child's leaves, and each
    frame has one reference more per leaf. *)
Record sharing (X : list nat -> bool) s C : Prop := {
  sh_user : user_ok R s (C ∪ A);
  sh_geom : same_geom (pmm s0) (pmm s);
  sh_ram : ram s = ram s0;
  sh_cr3 : cr3 s = cr3 s0;
  sh_walk p : okp U p -> (length p <= 3)%nat -> walk (tabs s) parent p = walk (tabs s0) parent p;
  sh_child p : C !! (child, p) = if X p then share <$> A !! (parent, p) else None;
  sh_other r p : r <> child -> C !! (r, p) = None;
  sh_count f : mapcount (C ∪ A) f = (mapcount A f + mapcount C f)%nat;
  sh_refs i : (i < total_frames (pmm s0))%nat ->
    pmm_abs (pmm s) !! i = (fun c => c + Z.of_nat (mapcount C (frame_at (pmm s0) i))) <$> pmm_abs (pmm s0) !! i
}.

Lemma sharing_mono X Y s C : (forall p e, A !! (parent, p) = Some e -> X p = Y p) -> sharing X s C -> sharing Y s C.
Proof.
  intros HXY []. split; auto. intros p. rewrite sh_child0. destruct (A !! (parent, p)) as [e|] eqn:E.
  - by rewrite (HXY p e).
  - by destruct (X p), (Y p).
Qed.

(** The child's leaves are copies of the parent's. *)
Definition copies C : Prop := forall x e, C !! x = Some e ->
  x.1 = child /\ exists e', A !! (parent, x.2) = Some e' /\ mm_pte_phys e' = mm_pte_phys e.

Lemma copies_count C f : copies C -> (mapcount C f <= mapcount A f)%nat.
Proof.
  intros HC. apply (mapcount_le _ _ (fun x => (parent, x.2))).
  - intros x e He. by destruct (HC x e He) as [_ ?].
  - intros [r p] [r' p'] [e He] [e' He'] [= Hpp]. destruct (HC _ _ He) as [Hx _], (HC _ _ He') as [Hy _]. simpl in *. by subst.
Qed.

Lemma sharing_copies X s C : sharing X s C -> copies C.
Proof.
  intros [] [r p] e He. simpl. destruct (decide (r = child)) as [->|Hn]; [|by rewrite sh_other0 in He]. split; [done|].
  rewrite sh_child0 in He. destruct (X p); [|done]. destruct (A !! (parent, p)) as [e0|]; [|done]. injection He as <-.
  exists e0. split; [done|]. by destruct (share_spec e0) as [-> _].
Qed.

Lemma sharing_parent X s C p : sharing X s C -> (C ∪ A) !! (parent, p) = A !! (parent, p).
Proof. intros []. rewrite lookup_union, sh_other0 by done. apply left_id, _. Qed.

(** The child's new leaf. *)
Lemma sharing_insert X s s' C e p i :
  sharing X s C -> A !! (parent, p) = Some e -> X p = false -> page_path U p ->
  (i < total_frames (pmm s0))%nat -> mm_pte_phys e = frame_at (pmm s0) i -> same_geom (pmm s0) (pmm s') ->
  user_ok R s' (<[(child, p) := share e]> (C ∪ A)) -> ram s' = ram s0 -> cr3 s' = cr3 s0 ->
  (forall q, okp U q -> (length q <= 3)%nat -> walk (tabs s') parent q = walk (tabs s) parent q) ->
  pmm_abs (pmm s') = <[i := default 0 (pmm_abs (pmm s) !! i) + 1]> (pmm_abs (pmm s)) ->
  sharing (fun q => X q || below p q) s' (<[(child, p) := share e]> C).
Proof.
  intros [] HA HX Hp Hi Hf Hg Hu' Hram Hcr Hwk Habs. destruct (share_spec e) as (Hph & _ & _).
  assert (HC0 : C !! (child, p) = None) by by rewrite sh_child0, HX.
  assert (HCA : (C ∪ A) !! (child, p) = None) by (apply lookup_union_None; auto).
  split; auto; rewrite <- ?insert_union_l; auto.
  - intros q Ho Hl. by rewrite Hwk, sh_walk0.
  - intros q. destruct (decide (q = p)) as [->|Hqp].
    + rewrite lookup_insert_eq, HA. assert (below p p = true) as -> by (by apply below_true). by rewrite orb_true_r.
    + rewrite lookup_insert_ne, sh_child0 by (intros [= ->]; done). destruct (X q) eqn:EX; [done|]. simpl.
      destruct (below p q) eqn:Eb; [|done]. apply below_true in Eb as [z ->].
      destruct (A !! (parent, p ++ z)) as [e'|] eqn:Ez; [|done]. destruct (uo_dom _ _ _ Hu0 _ _ _ Ez) as [_ (_ & Hlz & _)].
      destruct Hp as (_ & Hlp & _). rewrite length_app in Hlz. destruct z; [by rewrite app_nil_r in Hqp|simpl in Hlz; lia].
  - intros r q Hr. rewrite lookup_insert_ne by congruence. auto.
  - intros f. rewrite !mapcount_insert_fresh, sh_count0 by done. lia.
  - intros j Hj. rewrite Habs, mapcount_insert_fresh, Hph, Hf by done. destruct (decide (j = i)) as [->|Hji].
    + rewrite lookup_insert_eq, decide_True by done. rewrite sh_refs0 by done.
      destruct (mapped_used _ _ _ _ _ i Hu0 HA Hi Hf) as [c Hc]. rewrite Hc. simpl. f_equal. lia.
    + rewrite lookup_insert_ne, sh_refs0 by done. rewrite decide_False by (intros Hx; apply frame_at_inj in Hx; congruence).
      by rewrite Nat.add_0_r.
Qed.
(** Taking one more reference to a mapped frame. *)
Lemma get_shared X s C e p i : sharing X s C -> A !! (parent, p) = Some e -> X p = false ->
  (i < total_frames (pmm s0))%nat -> mm_pte_phys e = frame_at (pmm s0) i ->
  exists q c, pmm_frame_get (pmm s) (mm_pte_phys e) = Ok q /\ same_geom (pmm s) q /\ pmm_abs (pmm s) !! i = Some c /\
    pmm_abs q = <[i := c + 1]> (pmm_abs (pmm s)) /\ user_ok R (set_pmm q s) (C ∪ A) /\
    Z.of_nat (mapcount (C ∪ A) (frame_at (pmm s0) i)) < c + 1.
Proof.
  intros Hsh HA HX Hi Hf. pose proof Hsh as []. pose proof (uo_pmm _ _ _ sh_user0) as Hinv.
  assert (His : (i < total_frames (pmm s))%nat) by (rewrite (sg_total _ _ sh_geom0); done).
  pose proof (same_geom_frame_at _ _ i sh_geom0) as Hfi.
  destruct (mapped_used _ _ _ _ _ i Hu0 HA Hi Hf) as [c0 Hc0]. pose proof (Hmax i Hi) as Hm. rewrite Hc0 in Hm. simpl in Hm.
  pose proof (sh_refs0 i Hi) as Hci. rewrite Hc0 in Hci. simpl in Hci. set (c := c0 + _) in Hci.
  pose proof (uo_count _ _ _ sh_user0 i His) as Hcnt. rewrite Hci, Hfi in Hcnt. simpl in Hcnt.
  assert (Hlt : (mapcount C (frame_at (pmm s0) i) < mapcount A (frame_at (pmm s0) i))%nat).
  { pose proof (mapcount_insert_fresh C (child, p) (share e) (frame_at (pmm s0) i)) as Hins.
    rewrite sh_child0, HX in Hins. specialize (Hins eq_refl). destruct (share_spec e) as (Hph & _). rewrite Hph, Hf, decide_True in Hins by done.
    assert (Hcp : copies (<[(child, p) := share e]> C)); [|pose proof (copies_count _ (frame_at (pmm s0) i) Hcp); lia].
    intros x e' He'. apply lookup_insert_Some in He' as [[<- <-]|[_ He']]; [simpl; eauto|].
    exact (sharing_copies _ _ _ Hsh _ _ He'). }
  destruct (get_spare R s (C ∪ A) i c sh_user0 His Hci) as (q & Eq & Hu' & Hq & Hgq); [unfold c; lia|].
  rewrite Hfi, <- Hf in Eq. exists q, c. splits; auto. lia.
Qed.

(** The child's page table takes the shared frame, or nothing changed. *)
Lemma share_leaf X s C e p va i : sharing X s C -> A !! (parent, p) = Some e -> X p = false -> 0 <= va < 2 ^ 47 -> va_path va = p ->
  (i < total_frames (pmm s0))%nat -> mm_pte_phys e = frame_at (pmm s0) i ->
  exists s' r, (q ← pmm_frame_get (pmm s) (mm_pte_phys e);
    '(s, r) ← map_page_in_directory cur (set_pmm q s) child va (mm_pte_phys e) (fork_flags e);
    if decide (r <> 0) then p ← pmm_frame_put (pmm s) (mm_pte_phys e); Ok (set_pmm p s, -1) else Ok (s, 0)) = Ok (s', r) /\
   ((r = 0 /\ sharing (fun q => X q || below p q) s' (<[(child, p) := share e]> C)) \/ (r = -1 /\ sharing X s' C)).
Proof.
  intros Hsh HA HX Hv Hva Hi Hf. pose proof Hsh as [].
  destruct (get_shared X s C e p i Hsh HA HX Hi Hf) as (q & c & -> & Hgq & Hc & Hq & Hu1 & Hlt). cbn [mbind outcome_bind].
  assert (His : (i < total_frames (pmm s))%nat) by (rewrite (sg_total _ _ sh_geom0); done).
  pose proof (same_geom_frame_at _ _ i sh_geom0) as Hfi. pose proof (va_user_path _ Hv) as Hpp. rewrite Hva in Hpp.
  assert (Hg0 : same_geom (pmm s0) q) by by etrans. pose proof (same_geom_frame_at _ _ i Hg0) as Hfq.
  destruct (map_page_spec cur U R (set_pmm q s) child va (mm_pte_phys e) (fork_flags e) (uo_mm _ _ _ Hu1) Hchi (va_user_okp _ Hv))
    as (s3 & rc & -> & Hok3 & Hre3 & Hgr & Hcase). cbn [mbind outcome_bind].
  destruct (ram_kept _ _ Hre3) as (Er3 & Ep3 & Ec3 & Ek3). cbn [ram pmm cr3 paging_kernel_root set_pmm tabs] in *.
  assert (Hwk : forall z, okp U z -> (length z <= 3)%nat -> walk (tabs s3) parent z = walk (tabs s) parent z)
    by (intros z Ho Hl; by apply Hgr).
  destruct Hcase as [(-> & Hres)|(-> & Hres & _)].
  - rewrite decide_False by lia. exists s3, 0. split; [done|]. left. split; [done|].
    apply (sharing_insert X s s3 C e p i); auto; try congruence.
    2: { rewrite Ep3, Hq, Hc. done. }
    destruct (fork_flags_bits e) as (_ & Hb2 & _). rewrite <- Hva in *.
    destruct (abs_after_map R (tabs s) (tabs s3) (C ∪ A) child va (mm_pte_phys e) (fork_flags e)) as [Hd Hab]; auto;
      [exact (uo_dom _ _ _ sh_user0)|exact (uo_abs _ _ _ sh_user0)|].
    assert (HCA : (C ∪ A) !! (child, va_path va) = None) by (apply lookup_union_None; by rewrite sh_child0, HX).
    apply (user_ok_intro R (set_pmm q s) s3 (C ∪ A)); rewrite ?Ep3, ?Er3; cbn [ram pmm cr3 paging_kernel_root set_pmm tabs]; auto.
    + exact (uo_pmm _ _ _ Hu1).
    + reflexivity.
    + exact (uo_ram _ _ _ Hu1).
    + intros x ex Hx. apply lookup_insert_Some in Hx as [[<- <-]|[_ Hx]]; [|by apply (uo_frame _ _ _ Hu1 x)].
      exists i. destruct (share_spec e) as (Hph & _). rewrite Hph, Hfq. split; [|done]. rewrite (sg_total _ _ Hgq). done.
    + intros j Hj. rewrite mapcount_insert_fresh by done. destruct (share_spec e) as (Hph & _).
      rewrite Hph, Hf. pose proof (uo_count _ _ _ Hu1 j Hj) as Hcj. cbn [pmm set_pmm] in Hcj. destruct (decide (j = i)) as [->|Hji].
      * rewrite Hfq, decide_True by done. rewrite Hq, lookup_insert_eq in *. simpl in *. lia.
      * rewrite decide_False; [by rewrite Nat.add_0_r|]. rewrite <- Hfq. intros Hx. apply frame_at_inj in Hx. congruence.
  - rewrite decide_True by lia.
    assert (Hu3 : user_ok R s3 (C ∪ A)) by by apply (user_ok_resolve R (set_pmm q s) s3).
    destruct (put_spare R s3 (C ∪ A) i Hu3) as (q' & Eq & Hu' & Habs & Hg').
    { rewrite Ep3, (sg_total _ _ Hgq). done. }
    { rewrite Ep3, Hfq, Hq, lookup_insert_eq. simpl. lia. }
    rewrite Ep3, Hfq, <- Hf in Eq. rewrite Ep3, Eq. cbn [mbind outcome_bind]. eexists _, _. split; [done|]. right. split; [done|].
    assert (Habs' : pmm_abs q' = pmm_abs (pmm s)).
    { rewrite Habs, Ep3, Hq. unfold put_abs. rewrite lookup_insert_eq. pose proof (uo_count _ _ _ sh_user0 i His) as Hci.
      rewrite Hc in Hci. simpl in Hci. pose proof (sharing_parent _ _ _ p Hsh) as HpA. rewrite HA in HpA.
      pose proof (mapcount_pos _ _ _ HpA) as Hpos. rewrite Hf in Hpos. rewrite Hfi in Hci. rewrite decide_False by lia.
      rewrite insert_insert_eq. replace (c + 1 - 1) with c by lia. by apply insert_id. }
    split; cbn [ram pmm cr3 tabs set_pmm]; auto; try congruence.
    + rewrite Ep3 in Hg'. by etrans.
    + intros z Ho Hl. rewrite Hwk by done. auto.
    + intros j Hj. rewrite Habs'. auto.
Qed.
Lemma sharing_start : sharing (fun _ => false) s0 ∅.
Proof.
  split; rewrite ?(left_id_L ∅ (∪)); try done.
  - intros i Hi. unfold mapcount. rewrite map_filter_empty, map_size_empty. destruct (pmm_abs (pmm s0) !! i); simpl; [|done]. f_equal. lia.
Qed.

(** The first traversal. *)
Lemma share_phase : exists s r, over_leaf_tables (fork_share cur child) s0 parent = Ok (s, r) /\
  ((r = 0 /\ exists C, sharing (fun _ => true) s C) \/ (r = -1 /\ exists X C, sharing X s C)).
Proof.
  destruct (over_leaf_tables_covers R parent (tabs s0) (fun X s => exists C, sharing X s C)
    (fun s => exists X C, sharing X s C) (fork_share cur child) Hpar)
    with (s := s0) as (s & r & E & Hc).
  - intros X Y s HXY [C HC]. exists C. apply (sharing_mono X _ s C); [|done]. intros p e He. apply HXY. by destruct (uo_dom _ _ _ Hu0 _ _ _ He).
  - intros X s [C HC]. split; [exact (uo_mm _ _ _ (sh_user _ _ _ HC))|exact (sh_walk _ _ _ HC)].
  - intros X s P [C HC] _ HoP HlP Hw. exists C. apply (sharing_mono X _ s C); [|done]. intros p e He.
    destruct (below P p) eqn:Hb; [|by rewrite orb_false_r]. apply below_true in Hb. rewrite (sh_walk _ _ _ HC) in Hw by done.
    by rewrite (no_table_no_leaf _ _ _ _ _ _ Hu0 Hpar HlP Hw Hb) in He.
  - intros X s i4 i3 i2 i1 t [C HC] Hp HX Hw. pose proof Hp as (Ho & _ & Hf). simpl in Ho.
    rewrite !Forall_cons in Hf. destruct Hf as (H4 & H3 & H2 & H1 & _).
    destruct (leaf_load R s (C ∪ A) parent [i4; i3; i2] i1 t (sh_user _ _ _ HC) Hpar Hp Hw) as (e & El & He). simpl app in He.
    rewrite (sharing_parent _ _ _ _ HC) in He. unfold fork_share. rewrite El. cbn [mbind outcome_bind].
    destruct (mm_pte_present e && flag_set e PAGE_USER) eqn:Hpu; simpl in He.
    2: { assert (negb (mm_pte_present e) || negb (flag_set e PAGE_USER) = true) as -> by (rewrite <- negb_andb, Hpu; done).
         exists s, 0. split; [done|]. left. split; [done|]. exists C. apply (sharing_mono X _ s C); [|done]. intros p e' He'.
         destruct (below _ p) eqn:Hb; [|by rewrite orb_false_r]. apply below_true in Hb as [z ->].
         destruct (uo_dom _ _ _ Hu0 _ _ _ He') as [_ (_ & Hl & _)]. rewrite length_app in Hl. simpl in Hl. destruct z; [|simpl in Hl; lia].
         rewrite app_nil_r in He'. congruence. }
    assert (negb (mm_pte_present e) || negb (flag_set e PAGE_USER) = false) as -> by (rewrite <- negb_andb, Hpu; done).
    destruct (uo_frame _ _ _ Hu0 _ _ He) as (i & Hi & Hfi). unfold paging_entry_pfn. simpl lookup_total.
    destruct (share_leaf X s C e [i4; i3; i2; i1] (fork_va i4 i3 i2 i1) i HC He HX) as (s' & r & -> & Hcase); auto.
    + rewrite fork_va_arith by done. unfold mm_user_root_slots in *. lia.
    + by apply fork_va_path.
    + exists s', r. split; [done|]. destruct Hcase as [(-> & ?)|(-> & ?)]; eauto 6.
  - exists ∅. apply sharing_start.
  - exists s, r. split; [done|]. destruct Hc as [(-> & ?)|(-> & Y & C & ?)]; eauto 6.
Qed.
(** The pages of [X] have been made copy-on-write in the parent. *)
Record protecting s1 A1 (X : list nat -> bool) s A2 : Prop := {
  pt_user : user_ok R s A2;
  pt_rest : rest s = rest s1;
  pt_walk p : okp U p -> (length p <= 3)%nat -> walk (tabs s) parent p = walk (tabs s1) parent p;
  pt_parent p : A2 !! (parent, p) = (if X p then protect else id) <$> A1 !! (parent, p);
  pt_other r p : r <> parent -> A2 !! (r, p) = A1 !! (r, p)
}.

Lemma protecting_mono s1 A1 X Y s A2 : (forall p e, A1 !! (parent, p) = Some e -> X p = Y p \/ protect e = e) ->
  protecting s1 A1 X s A2 -> protecting s1 A1 Y s A2.
Proof.
  intros HXY []. split; auto. intros p. rewrite pt_parent0. destruct (A1 !! (parent, p)) as [e|] eqn:E; [|done].
  destruct (HXY p e E) as [->|He]; [done|]. destruct (X p), (Y p); simpl; by rewrite ?He.
Qed.

(** Write-protecting one leaf in place. *)
Lemma protect_leaf s1 A1 X s A2 e P i t : protecting s1 A1 X s A2 -> page_path U (P ++ [i]) ->
  walk (tabs s) parent P = Some t -> A2 !! (parent, P ++ [i]) = Some e -> X (P ++ [i]) = false ->
  exists s', store_entry s t i (protect e) = Ok s' /\
    protecting s1 A1 (fun q => X q || below (P ++ [i]) q) s' (<[(parent, P ++ [i]) := protect e]> A2).
Proof.
  intros [] Hp Hw He HX. pose proof Hp as (Ho & Hl & Hf). rewrite length_app in Hl. simpl in Hl.
  rewrite Forall_app, Forall_singleton in Hf. destruct Hf as [_ Hi]. set (p := P ++ [i]) in *.
  destruct (store_leaf_spec U R s parent P i t (protect e) (uo_mm _ _ _ pt_user0) Hpar Ho) as (-> & Hok & Hwk & Hres); [lia|done|done|].
  eexists. split; [done|]. destruct (protect_spec e) as (Hph & Hpr & Hus & _).
  assert (Hep : mm_pte_present e = true /\ flag_set e PAGE_USER = true).
  { rewrite (uo_abs _ _ _ pt_user0) in He by done. unfold p in He. destruct (resolve (tabs s) parent (P ++ [i])) as [[e' [|?]]|] eqn:Hrs; try done.
    simpl in He. destruct (flag_set e' PAGE_USER) eqn:?; [|done]. injection He as ->. by apply resolve_small in Hrs as (? & _ & _ & ?). }
  destruct Hep as [Hep Heu]. split; cbn [tabs set_tabs]; auto.
  - apply (user_ok_intro R s _ A2); auto; cbn [pmm ram set_tabs tabs].
    + exact (uo_pmm _ _ _ pt_user0).
    + reflexivity.
    + exact (uo_ram _ _ _ pt_user0).
    + intros r q e' He'. apply lookup_insert_Some in He' as [[[= <- <-] _]|[_ He']]; [done|by apply (uo_dom _ _ _ pt_user0) in He'].
    + intros r q Hr Hq. rewrite Hres by (done || apply Hq). destruct (decide (r = parent /\ q = P ++ [i])) as [[-> ->]|Hn].
      * unfold p. rewrite lookup_insert_eq, Hpr, Hep. simpl. by rewrite Hus, Heu.
      * rewrite lookup_insert_ne by (intros [= <- <-]; by apply Hn). by apply (uo_abs _ _ _ pt_user0).
    + intros x ex Hx. apply lookup_insert_Some in Hx as [[<- <-]|[_ Hx]]; [rewrite Hph; by apply (uo_frame _ _ _ pt_user0 _ _ He)|].
      by apply (uo_frame _ _ _ pt_user0 x).
    + intros j Hj. pose proof (uo_count _ _ _ pt_user0 j Hj) as Hcj. rewrite mapcount_insert, Hph.
      by rewrite (mapcount_delete _ _ _ _ He) in Hcj.
  - intros q Hoq Hlq. rewrite Hwk by done. auto.
  - intros q. destruct (decide (q = p)) as [->|Hqp].
    + rewrite lookup_insert_eq. assert (below p p = true) as -> by by apply below_true. rewrite orb_true_r.
      rewrite pt_parent0, HX in He. destruct (A1 !! (parent, p)); simpl in *; congruence.
    + rewrite lookup_insert_ne, pt_parent0 by congruence. destruct (below p q) eqn:Hb; [|by rewrite orb_false_r].
      destruct (A1 !! (parent, q)) as [e1|] eqn:E1; [|done]. exfalso.
      assert (HA2 : is_Some (A2 !! (parent, q))) by (rewrite pt_parent0, E1; simpl; eauto).
      destruct HA2 as [e2 HA2]. destruct (uo_dom _ _ _ pt_user0 _ _ _ HA2) as [_ (_ & Hlq & _)].
      apply below_true in Hb as [z ->]. destruct Hp as (_ & Hlp & _). rewrite length_app in Hlq.
      destruct z; [by rewrite app_nil_r in Hqp|simpl in Hlq; lia].
  - intros r q Hr. rewrite lookup_insert_ne by congruence. auto.
Qed.

(** The second traversal cannot fail. *)
Lemma protect_phase s1 A1 : user_ok R s1 A1 ->
  exists s A2, over_leaf_tables fork_protect s1 parent = Ok (s, 0) /\ protecting s1 A1 (fun _ => true) s A2.
Proof.
  intros Hu1.
  destruct (over_leaf_tables_covers R parent (tabs s1) (fun X s => exists A2, protecting s1 A1 X s A2)
    (fun _ => False) fork_protect Hpar)
    with (s := s1) as (s & r & E & Hc).
  - intros X Y s HXY [A2 HA]. exists A2. apply (protecting_mono _ _ X); [|done]. intros p e He. left. apply HXY.
    by destruct (uo_dom _ _ _ Hu1 _ _ _ He).
  - intros X s [A2 HA]. split; [exact (uo_mm _ _ _ (pt_user _ _ _ _ _ HA))|exact (pt_walk _ _ _ _ _ HA)].
  - intros X s P [A2 HA] _ HoP HlP Hw. exists A2. apply (protecting_mono _ _ X); [|done]. intros p e He. left.
    destruct (below P p) eqn:Hb; [|by rewrite orb_false_r]. apply below_true in Hb. rewrite (pt_walk _ _ _ _ _ HA) in Hw by done.
    by rewrite (no_table_no_leaf _ _ _ _ _ _ Hu1 Hpar HlP Hw Hb) in He.
  - intros X s i4 i3 i2 i1 t [A2 HA] Hp HX Hw.
    destruct (leaf_load R s A2 parent [i4; i3; i2] i1 t (pt_user _ _ _ _ _ HA) Hpar Hp Hw) as (e & El & He).
    unfold fork_protect. rewrite El. cbn [mbind outcome_bind].
    assert (Hsame : (A2 !! (parent, [i4; i3; i2] ++ [i1]) = None \/ protect e = e) ->
      exists s' r, Ok (s, 0) = Ok (s', r) /\
       ((r = 0 /\ exists A2, protecting s1 A1 (fun p => X p || below [i4; i3; i2; i1] p) s' A2) \/
        (r = -1 /\ False))).
    { intros Hn. exists s, 0. split; [done|]. left. split; [done|]. exists A2. apply (protecting_mono _ _ X); [|done]. intros p e' He'.
      destruct (below _ p) eqn:Hb; [|by rewrite orb_false_r; left]. apply below_true in Hb as [z ->].
      destruct (uo_dom _ _ _ Hu1 _ _ _ He') as [_ (_ & Hl & _)]. rewrite length_app in Hl. simpl in Hl. destruct z; [|simpl in Hl; lia].
      rewrite app_nil_r in He'. pose proof (pt_parent _ _ _ _ _ HA [i4; i3; i2; i1]) as Hpt. rewrite HX, He' in Hpt. simpl in *.
      rewrite Hpt in He, Hn. right. destruct Hn as [|Hn]; [done|]. destruct (mm_pte_present e && _); [|done]. injection He as ->. done. }
    destruct (mm_pte_present e) eqn:Ep; simpl; simpl in He; [|by apply Hsame; left].
    destruct (flag_set e PAGE_USER) eqn:Eu; simpl; [|by apply Hsame; left].
    destruct (flag_set e PAGE_RW) eqn:Er; simpl; [|apply Hsame; right; unfold protect; by rewrite Er].
    destruct (protect_leaf s1 A1 X s A2 e [i4; i3; i2] i1 t HA Hp Hw He HX) as (s' & Es & HA').
    unfold protect in Es at 1. rewrite Er in Es. rewrite Es. cbn [mbind outcome_bind]. exists s', 0. split; [done|]. left. split; [done|]. eauto.
  - exists A1. split; auto. intros p. by destruct (A1 !! (parent, p)).
  - destruct Hc as [(-> & A2 & HA)|(_ & [])]. eauto.
Qed.
End phases.
(** After sharing and protecting, writable pages are again private. *)
Lemma fork_exclusive A A' parent child : exclusive A -> parent <> child -> (forall p, A !! (child, p) = None) ->
  (forall p, A' !! (parent, p) = protect <$> A !! (parent, p)) -> (forall p, A' !! (child, p) = share <$> A !! (parent, p)) ->
  (forall r p, r <> parent -> r <> child -> A' !! (r, p) = A !! (r, p)) -> exclusive A'.
Proof.
  intros Hex Hne Hclean Hpar Hchi Hoth.
  (* a leaf afterwards comes from a leaf before with the same frame *)
  assert (Hback : forall r p e, A' !! (r, p) = Some e -> exists e0 r0, A !! (r0, p) = Some e0 /\ mm_pte_phys e0 = mm_pte_phys e /\
     (r = r0 /\ e = e0 /\ r <> parent /\ r <> child \/ r0 = parent /\ flag_set e PAGE_RW = false)).
  { intros r p e He. destruct (decide (r = parent)) as [->|Hp]; [|destruct (decide (r = child)) as [->|Hc]].
    - rewrite Hpar in He. destruct (A !! (parent, p)) as [e0|] eqn:E0; [|done]. injection He as <-.
      destruct (protect_spec e0) as (H1 & _ & _ & H2 & _). exists e0, parent. rewrite H1. auto 10.
    - rewrite Hchi in He. destruct (A !! (parent, p)) as [e0|] eqn:E0; [|done]. injection He as <-.
      destruct (share_spec e0) as (H1 & H2 & _). exists e0, parent. rewrite H1. auto 10.
    - rewrite Hoth in He by done. exists e, r. auto 10. }
  intros [r p] [r' p'] e e' He He' Hph Hrw.
  destruct (Hback _ _ _ He) as (e0 & r0 & E0 & P0 & [(<- & <- & Hn1 & Hn2)|(_ & Hx)]); [|congruence].
  destruct (Hback _ _ _ He') as (e1 & r1 & E1 & P1 & Hc).
  assert (Hxy : (r, p) = (r1, p')) by (apply (Hex _ _ e e1); auto; congruence). injection Hxy as <- <-.
  destruct Hc as [(<- & _)|(-> & _)]; done.
Qed.

(** C2: fork by copy-on-write.  For a child whose user half is empty,
    [copy_process_memory] always returns.  After 0 the child reads, page by page, what the parent
    reads; both have every formerly writable page read-only with PAGE_COW on the same frame, so no
    writable page shares its frame with another; and each frame gained one
    reference per page the child now maps.  After -1 (no memory for a table)
    the parent's entries are exactly as they were, as the two-phase design promises, and the child holds a
    part of the shared pages, all counted, for its teardown to release.  Either way no byte of RAM and no
    leaf of any third process changed. *)
Theorem copy_process_memory_correct R s A parent child :
  user_ok R s A -> exclusive A -> parent ∈ R -> child ∈ R -> parent <> child ->
  (forall p, A !! (child, p) = None) ->
  (forall i, (i < total_frames (pmm s))%nat ->
     default 0 (pmm_abs (pmm s) !! i) + Z.of_nat (mapcount A (frame_at (pmm s) i)) <= U32_MAX) ->
  exists s' rc A', copy_process_memory cur s parent child = Ok (s', rc) /\ user_ok R s' A' /\
    ram s' = ram s /\ cr3 s' = cr3 s /\
    (forall r p, r <> parent -> r <> child -> A' !! (r, p) = A !! (r, p)) /\
    (forall i, (i < total_frames (pmm s))%nat -> pmm_abs (pmm s') !! i =
       (fun c => c + Z.of_nat (mapcount A' (frame_at (pmm s) i)) - Z.of_nat (mapcount A (frame_at (pmm s) i))) <$> pmm_abs (pmm s) !! i) /\
    ((rc = 0 /\ exclusive A' /\
      (forall p, A' !! (parent, p) = protect <$> A !! (parent, p)) /\
      (forall p, A' !! (child, p) = share <$> A !! (parent, p)) /\
      (forall p, view s' A' (child, p) = view s A (parent, p)) /\
      (forall p, view s' A' (parent, p) = view s A (parent, p))) \/
     (rc = -1 /\ (forall p, A' !! (parent, p) = A !! (parent, p)) /\
      (forall p e, A' !! (child, p) = Some e -> share <$> A !! (parent, p) = Some e))).
Proof.
  intros Hu Hex Hp Hc Hne Hclean Hmax. unfold copy_process_memory.
  assert (parent <> 0 /\ child <> 0) as [Hp0 Hc0] by (split; eapply (root_nonzero U R s); eauto; exact (uo_mm _ _ _ Hu)).
  rewrite decide_False by naive_solver.
  assert (Hun : forall C r p, C !! (r, p) = None -> (C ∪ A) !! (r, p) = A !! (r, p))
    by (intros C r p HC; rewrite lookup_union, HC; apply left_id, _).
  assert (Hch : forall C p, (C ∪ A) !! (child, p) = C !! (child, p)) by (intros C p; rewrite lookup_union, Hclean; apply right_id, _).
  destruct (share_phase R s A parent child Hu Hp Hc Hne Hclean Hmax) as (s1 & r & -> & [(-> & C & [])|(-> & X & C & [])]);
    cbn [mbind outcome_bind].
  2: { rewrite decide_True by lia. exists s1, (-1), (C ∪ A). splits; auto.
    - intros i Hi. rewrite sh_refs0, sh_count0 by done. destruct (pmm_abs (pmm s) !! i); simpl; [f_equal; lia|done].
    - right. splits; auto. intros p e He. rewrite Hch, sh_child0 in He. by destruct (X p). }
  rewrite decide_False by lia.
  destruct (protect_phase R parent Hp s1 (C ∪ A) sh_user0) as (s2 & A2 & -> & []). cbn [mbind outcome_bind]. cbv zeta.
  destruct (ram_kept _ _ pt_rest0) as (Er & Ep & Ec & _).
  match goal with |- exists s' rc A', Ok (?x, 0) = _ /\ _ => assert (x = s2) as -> end.
  { repeat case_decide; try done. by destruct s2. }
  assert (Hpar' : forall p, A2 !! (parent, p) = protect <$> A !! (parent, p)) by (intros p; rewrite pt_parent0, Hun; auto).
  assert (Hchi' : forall p, A2 !! (child, p) = share <$> A !! (parent, p)) by (intros p; rewrite pt_other0, Hch by done; auto).
  assert (Hoth' : forall r p, r <> parent -> r <> child -> A2 !! (r, p) = A !! (r, p)) by (intros r p ? ?; rewrite pt_other0, Hun; auto).
  exists s2, 0, A2. splits; auto; [congruence|congruence| |].
  - intros i Hi. rewrite Ep, sh_refs0 by done. assert (mapcount A2 (frame_at (pmm s) i) = mapcount (C ∪ A) (frame_at (pmm s) i)) as ->.
    { apply mapcount_ext. intros [r p]. destruct (decide (r = parent)) as [->|]; [|by rewrite pt_other0].
      rewrite pt_parent0. destruct ((C ∪ A) !! (parent, p)) as [e|]; [|done]. simpl. by destruct (protect_spec e) as (-> & _). }
    rewrite sh_count0. destruct (pmm_abs (pmm s) !! i); simpl; [f_equal; lia|done].
  - left. splits; auto.
    + by apply (fork_exclusive A A2 parent child).
    + intros p. unfold view. rewrite Hchi', Er, sh_ram0. destruct (A !! (parent, p)) as [e|]; [|done]. simpl. by destruct (share_spec e) as (-> & _).
    + intros p. unfold view. rewrite Hpar', Er, sh_ram0. destruct (A !! (parent, p)) as [e|]; [|done]. simpl. by destruct (protect_spec e) as (-> & _).
Qed.
End fork.
