(* ===== verification/KernelMm.v ===== *)
(** * Page tables over the kernel heap

    The kmalloc layer discharges the interface the page tables ask for
    ([PageSource] of PageTables): table pages come from
    [kmalloc_aligned_try(4096, 4096)] and go back through [kfree_aligned], the
    frame type map is one [kmalloc].  With it the theorems on page tables, user
    memory and fork hold of the composed system. *)

From S2P Require Import Prelude Heap Kmem PageTables.

#[export] Instance kmem_page_source : PageSource heap_state := {
  ps_alloc h := kmalloc_aligned_try heap_x86 h 4096 4096;
  ps_free h p := kfree_aligned_checked false heap_x86 h p;
  ps_kmalloc h n := kmalloc_checked heap_x86 h n
}.

(** Each page [p] handed out lies in an object [raw] of its own, [off + 8] bytes
    in, with the raw pointer stored below it. *)
Record pages_in (A : objects) (m : gmap Z (Z * Z * Z)) : Prop := {
  pi_object p raw total off : m !! p = Some (raw, total, off) ->
    A !! raw = Some (aligned_object raw total (Z.to_nat off)) /\ p = raw + off + 8 /\ 0 <= off /\ off + 8 + 4096 <= total;
  pi_inj p p' raw t t' o o' : m !! p = Some (raw, t, o) -> m !! p' = Some (raw, t', o') -> p = p'
}.

Definition kmem_inv (h : heap_state) (P : gset Z) : Prop :=
  exists A bl fl m, represents h A bl fl /\ in_window heap_x86 h /\ dom m = P /\ pages_in A m.

Lemma in_window_geom c s s' : geom s' = geom s -> in_window c s -> in_window c s'.
Proof. unfold geom, in_window. intros [= -> -> _ _]. done. Qed.

Lemma aligned_object_length raw total off : length (aligned_object raw total off) = Z.to_nat total.
Proof. unfold aligned_object. by rewrite length_inserts, length_replicate. Qed.

(** Growing the object map keeps the pages. *)
Lemma pages_in_grow A m raw d : pages_in A m -> A !! raw = None -> pages_in (<[raw := d]> A) m.
Proof.
  intros [Ho Hi] Hn. split; [|done]. intros p r t o Hp. destruct (Ho _ _ _ _ Hp) as (HA & ?).
  rewrite lookup_insert_ne by congruence. done.
Qed.

(** Two objects do not overlap, so a page lies in one of them only. *)
Lemma page_fresh h A bl fl m raw total off :
  represents h (<[raw := aligned_object raw total (Z.to_nat off)]> A) bl fl -> A !! raw = None -> pages_in A m ->
  0 <= off -> off + 8 + 4096 <= total -> m !! (raw + off + 8) = None.
Proof.
  intros Hr Hn [Ho _] H1 H2. destruct (m !! (raw + off + 8)) as [[[r t] o]|] eqn:Hm; [|done]. exfalso.
  destruct (Ho _ _ _ _ Hm) as (HA & Hp & Ho1 & Ho2). assert (Hne : raw <> r) by congruence.
  destruct (represents_at _ _ _ _ raw _ Hr (lookup_insert_eq _ _ _)) as (cap & _ & Hlen & _ & Hdis).
  specialize (Hdis r _ ltac:(rewrite lookup_insert_ne by done; exact HA) ltac:(done)).
  rewrite aligned_object_length in Hlen, Hdis. lia.
Qed.

Lemma kmem_alloc_ok h P : kmem_inv h P ->
  exists h' p, ps_alloc h = Ok (h', p) /\
    ((p = 0 /\ kmem_inv h' P) \/ ((p ∉ P) /\ 0x800000 <= p < 0x2000000 /\ p mod 4096 = 0 /\ kmem_inv h' ({[p]} ∪ P))).
Proof.
  intros (A & bl & fl & m & Hr & Hw & Hm & Hpi).
  destruct (kmalloc_aligned_spec heap_x86 h A bl fl 4096 12 Hr Hw) as (h' & p & E & Hg & Hc); [by vm_compute|lia|].
  exists h', p. split; [exact E|]. pose proof (in_window_geom _ _ _ Hg Hw) as Hw'.
  destruct Hc as [(bl' & fl' & -> & Hr')|(raw & total & off & bl' & fl' & Ha & Hn & -> & Ho & Ht & Hr')].
  - left. split; [done|]. exists A, bl', fl', m. done.
  - right. pose proof (page_fresh _ _ _ _ _ _ _ _ Hr' Hn Hpi Ho Ht) as Hfr.
    destruct (represents_bounds _ _ _ _ raw _ Hr' (lookup_insert_eq _ _ _)) as (B1 & B2 & _).
    rewrite aligned_object_length in B2. pose proof Hw' as (_ & Hws & Hwe).
    change (SIMPLE_HEAP_START heap_x86) with 0x800000 in Hws. change (SIMPLE_HEAP_END heap_x86) with 0x2000000 in Hwe.
    splits; [by rewrite <- Hm, not_elem_of_dom|lia|lia|exact Ha|].
    exists (<[raw := aligned_object raw total (Z.to_nat off)]> A), bl', fl', (<[raw + off + 8 := (raw, total, off)]> m).
    splits; [done|done|by rewrite dom_insert_L, Hm|].
    pose proof (pages_in_grow _ _ raw (aligned_object raw total (Z.to_nat off)) Hpi Hn) as [Ho' Hi'].
    destruct Hpi as [Ho0 _]. split.
    + intros p r t o Hp. apply lookup_insert_Some in Hp as [[<- [= <- <- <-]]|[_ Hp]]; [|by apply Ho'].
      by rewrite lookup_insert_eq.
    + intros p p' r t t' o o' Hp Hp'.
      apply lookup_insert_Some in Hp as [[<- [= <- <- <-]]|[_ Hp]]; apply lookup_insert_Some in Hp' as [[<- Hx]|[_ Hp']]; try done.
      * destruct (Ho0 _ _ _ _ Hp') as [? _]. congruence.
      * injection Hx as <- <- <-. destruct (Ho0 _ _ _ _ Hp) as [? _]. congruence.
      * by apply (Hi' p p' r t t' o o').
Qed.

Lemma kmem_free_ok h P p : kmem_inv h P -> p ∈ P -> exists h', ps_free h p = Ok h' /\ kmem_inv h' (P ∖ {[p]}).
Proof.
  intros (A & bl & fl & m & Hr & Hw & Hm & [Ho Hi]) Hp. rewrite <- Hm, elem_of_dom in Hp. destruct Hp as [[[raw total] off] Hp].
  destruct (Ho _ _ _ _ Hp) as (HA & -> & H1 & H2).
  destruct (kfree_aligned_later heap_x86 h A bl fl raw _ total off 4096 Hr Hw HA) as (h' & bl' & fl' & E & Hr' & Hg);
    [rewrite aligned_object_length; lia|lia|done|lia|done|].
  exists h'. split; [exact E|]. exists (delete raw A), bl', fl', (delete (raw + off + 8) m).
  splits; [done|by eapply in_window_geom|by rewrite dom_delete_L, Hm|]. split.
  - intros p r t o Hq. apply lookup_delete_Some in Hq as [Hne Hq]. destruct (Ho _ _ _ _ Hq) as (HAq & ?).
    rewrite lookup_delete_ne; [done|]. intros ->. by rewrite (Hi _ _ _ _ _ _ _ Hp Hq) in Hne.
  - intros p p' r t t' o o' Hq Hq'. apply lookup_delete_Some in Hq as [_ Hq], Hq' as [_ Hq']. eauto.
Qed.

Lemma kmem_kmalloc_ok h P n : kmem_inv h P -> 0 < n < 2 ^ 52 ->
  (exists h' p, ps_kmalloc h n = Ok (h', p) /\ p <> 0 /\ kmem_inv h' P) \/ exists msg, ps_kmalloc h n = Panic msg.
Proof.
  intros (A & bl & fl & m & Hr & Hw & Hm & Hpi) Hn. cbn [ps_kmalloc kmem_page_source]. unfold kmalloc_checked.
  rewrite decide_False by lia. destruct (decide (SIMPLE_HEAP_SIZE heap_x86 < n)) as [|Hsz]; [eauto|]. change (SIMPLE_HEAP_SIZE heap_x86) with 0x01800000 in Hsz.
  destruct (kmalloc_impl_refines heap_x86 _ _ _ _ n Hr) as (h' & r & bl' & fl' & E & Hres & Hr'); [lia|lia|].
  assert (Hg : geom h' = geom h) by (apply (kmalloc_impl_geom heap_x86 h A bl fl n h' r); [done|lia|lia|done]). rewrite E. cbn [mbind outcome_bind].
  destruct (decide (r = 0)) as [->|Hr0]; [eauto|]. left. exists h', r. splits; auto. destruct Hres as [?|[_ Hnone]]; [done|].
  simpl in Hr'. rewrite decide_False in Hr' by done. eexists _, bl', fl', m. splits; [exact Hr'|by eapply in_window_geom|done|].
  by apply pages_in_grow.
Qed.

Lemma kmem_window : 0 < 0x800000 /\ 0x2000000 <= 2 ^ 52.
Proof. lia. Qed.

#[export] Instance kmem_page_source_laws : PageSourceLaws heap_state := {
  ps_lo := 0x800000;
  ps_hi := 0x2000000;
  ps_window := kmem_window;
  ps_inv := kmem_inv;
  ps_alloc_ok := kmem_alloc_ok;
  ps_free_ok := kmem_free_ok;
  ps_kmalloc_ok := kmem_kmalloc_ok
}.

(** The heap at boot, with no table page handed out. *)
Lemma kmem_inv_booted : kmem_inv booted ∅.
Proof.
  exists ∅, [(0x01800000, true)], [0x00800000], ∅. splits; [exact booted_represents| |done|].
  - split; [exact heap_x86_ok|by vm_compute].
  - split; intros *; rewrite lookup_empty; done.
Qed.
