(* ===== verification/MmExamples.v ===== *)
(** * The memory theorems on a running system

    A page source small enough to compute with (a pool of free pages), a
    system with two processes over it, the instances of the theorems on page tables, user
    memory, fork and faults there, and the executions in which the code does
    not do what it means to. *)

From S2P Require Import Prelude Pmm PageTables UserMem PageFault AddrSpace CopyUser Fork.

(** ** A pool of pages *)

Record page_pool := Pool { free_pages : list Z }.

#[export] Instance pool_source : PageSource page_pool := {
  ps_alloc h := match free_pages h with [] => Ok (h, 0) | p :: l => Ok (Pool l, p) end;
  ps_free h p := Ok (Pool (p :: free_pages h));
  ps_kmalloc h n := Ok (h, 0x700000)
}.

Definition pool_page (p : Z) : Prop := 0x800000 <= p < 0x2000000 /\ p mod 4096 = 0.

Definition pool_inv (h : page_pool) (P : gset Z) : Prop :=
  NoDup (free_pages h) /\ (forall p, p ∈ free_pages h -> pool_page p /\ p ∉ P) /\ (forall p, p ∈ P -> pool_page p).

Lemma pool_window : 0 < 0x800000 /\ 0x2000000 <= 2 ^ 52.
Proof. lia. Qed.

Lemma pool_alloc_ok h P : pool_inv h P -> exists h' p, ps_alloc h = Ok (h', p) /\
  ((p = 0 /\ pool_inv h' P) \/ ((p ∉ P) /\ 0x800000 <= p < 0x2000000 /\ p mod 4096 = 0 /\ pool_inv h' ({[p]} ∪ P))).
Proof.
  destruct h as [[|p l]]; intros (Hnd & Hfr & HP); simpl in *; [eexists _, 0; split; [done|]; left; done|].
  exists (Pool l), p. split; [done|]. right. apply NoDup_cons in Hnd as [Hp Hnd]. destruct (Hfr p) as [[Hw Ha] HpP]; [left|]. splits; try (done || lia).
  split; [done|]. split.
  - intros q Hq. destruct (Hfr q) as [Hqp HqP]; [by right|]. split; [done|]. apply not_elem_of_union. split; [|done].
    rewrite elem_of_singleton. by intros ->.
  - intros q [->%elem_of_singleton|Hq]%elem_of_union; [done|auto].
Qed.

Lemma pool_free_ok h P p : pool_inv h P -> p ∈ P -> exists h', ps_free h p = Ok h' /\ pool_inv h' (P ∖ {[p]}).
Proof.
  intros (Hnd & Hfr & HP) Hp. eexists. split; [done|]. split; simpl; [|split].
  - apply NoDup_cons. split; [|done]. intros Hx. by destruct (Hfr p Hx).
  - intros q [->|Hq]%elem_of_cons; [split; [auto|]; by intros [_ ?%not_elem_of_singleton]%elem_of_difference|].
    destruct (Hfr q Hq) as [? Hn]. split; [done|]. by intros [? _]%elem_of_difference.
  - intros q [? _]%elem_of_difference. auto.
Qed.

Lemma pool_kmalloc_ok h P n : pool_inv h P -> 0 < n < 2 ^ 52 ->
  (exists h' p, ps_kmalloc h n = Ok (h', p) /\ p <> 0 /\ pool_inv h' P) \/ exists msg, ps_kmalloc h n = Panic msg.
Proof. intros Hi _. left. exists h, 0x700000. splits; (done || lia). Qed.

#[export] Instance pool_laws : PageSourceLaws page_pool := {
  ps_lo := 0x800000;
  ps_hi := 0x2000000;
  ps_window := pool_window;
  ps_inv := pool_inv;
  ps_alloc_ok := pool_alloc_ok;
  ps_free_ok := pool_free_ok;
  ps_kmalloc_ok := pool_kmalloc_ok
}.

(** The invariant of a concrete pool, by evaluation. *)
Definition pool_check (h : page_pool) (P : list Z) : bool :=
  bool_decide (NoDup (free_pages h)) &&
  forallb (fun p => bool_decide (0x800000 <= p < 0x2000000) && bool_decide (p mod 4096 = 0)) (free_pages h ++ P) &&
  forallb (fun p => bool_decide (p ∉ P)) (free_pages h).

Lemma pool_check_ok h P : pool_check h (elements P) = true -> ps_inv h P.
Proof.
  unfold pool_check. rewrite !andb_true_iff, bool_decide_eq_true, !forallb_forall. intros [[Hnd Hp] Hn].
  assert (Hpg : forall p, p ∈ free_pages h ++ elements P -> pool_page p).
  { intros p Hin. specialize (Hp p ltac:(by apply list_elem_of_In)). apply andb_true_iff in Hp as [H1 H2].
    rewrite bool_decide_eq_true in H1, H2. by split. }
  split; [done|]. split.
  - intros p Hin. split; [apply Hpg, elem_of_app; by left|]. specialize (Hn p ltac:(by apply list_elem_of_In)).
    rewrite bool_decide_eq_true, elem_of_elements in Hn. done.
  - intros p Hin. apply Hpg, elem_of_app. right. by apply elem_of_elements.
Qed.

(** ** A system at boot

    Eight frames from PMM_PHYS_BASE on, sixteen pages for tables, and two
    processes with empty address spaces whose roots are two pages of the pool. *)

Definition root_a : Z := 0x800000.
Definition root_b : Z := 0x801000.
Definition boot_pool : page_pool := Pool ((fun i => 0x800000 + Z.of_nat i * 4096) <$> seq 2 14).
Definition boot_pmm : pmm_state := pmm_init true true true true PMM_PHYS_BASE 0x8000 pmm_boot.
Definition roots : gset Z := {[root_a; root_b]}.

Definition boot_mm : pg_state page_pool := {|
  tabs := {[root_a := replicate 512 0; root_b := replicate 512 0]};
  ram := list_to_map ((fun i => (frame_at boot_pmm i, replicate 4096 0)) <$> seq 0 8);
  kheap := boot_pool;
  pmm := boot_pmm;
  ftypes := Some (replicate 8 IR0_MM_FRAME_UNKNOWN);
  counts := fun _ => 0;
  cr3 := root_a;
  paging_kernel_root := 0
|}.

Lemma boot_pool_inv : ps_inv boot_pool {[root_b; root_a]}.
Proof.
  assert (Hc : pool_check boot_pool (elements ({[root_b; root_a]} : gset Z)) = true) by (by vm_compute). by apply pool_check_ok.
Qed.

(** An empty root translates nothing. *)
Lemma empty_walk (T : gmap Z (list Z)) r p a : T !! r = Some (replicate 512 0) -> walk T r p = Some a -> p = [] /\ a = r.
Proof.
  intros Hr. destruct p as [|i p]; simpl; [by intros [= ->]|]. unfold entry. rewrite Hr. cbn [mbind option_bind].
  destruct (replicate 512 0 !! i) as [e|] eqn:He; [|done]. apply lookup_replicate in He as [-> _]. done.
Qed.

Lemma empty_resolve (T : gmap Z (list Z)) r p : T !! r = Some (replicate 512 0) -> resolve T r p = None.
Proof.
  intros Hr. destruct p as [|i p]; [done|]. simpl. unfold entry. rewrite Hr. cbn [mbind option_bind].
  destruct (replicate 512 0 !! i) as [e|] eqn:He; [|done]. apply lookup_replicate in He as [-> _]. done.
Qed.

Lemma boot_table r : r ∈ roots -> r <> 0 /\ tabs boot_mm !! r = Some (replicate 512 0).
Proof.
  intros Hr. unfold roots in Hr. apply elem_of_union in Hr as [Hr|Hr]; apply elem_of_singleton in Hr as ->; by vm_compute.
Qed.

Lemma boot_mm_ok : mm_ok U roots boot_mm.
Proof.
  split.
  - split.
    + intros r p a Hr _ _ Hw. apply boot_table in Hr as [Hr0 Hr]. apply empty_walk in Hw as [_ ->]; [|done]. eauto using length_replicate.
    + intros r p r' p' a Hr Hr' _ _ _ _ Hw Hw'. apply boot_table in Hr as [_ Hr], Hr' as [_ Hr'].
      apply empty_walk in Hw as [-> ->]; [|done]. apply empty_walk in Hw' as [-> ->]; done.
    + intros r p a Hr _ Hp _ Hw. apply boot_table in Hr as [_ Hr]. by apply empty_walk in Hw as [-> _].
  - assert (window_tabs (tabs boot_mm) = {[root_b; root_a]}) as -> by (by vm_compute). exact boot_pool_inv.
  - eexists. reflexivity.
  - by left.
Qed.

Lemma boot_pmm_inv : pmm_inv boot_pmm /\ pmm_abs boot_pmm = ∅.
Proof. apply (pmm_init_inv true true true PMM_PHYS_BASE 0x8000); unfold PMM_PHYS_BASE, PMM_FRAME_SIZE; lia. Qed.

Lemma boot_user_ok : user_ok roots boot_mm ∅.
Proof.
  destruct boot_pmm_inv as [Hinv Habs]. split.
  - exact boot_mm_ok.
  - by left.
  - exact Hinv.
  - eexists. reflexivity.
  - by vm_compute.
  - intros i Hi. change (total_frames (pmm boot_mm)) with 8%nat in Hi. exists (replicate 4096 0). split; [|apply length_replicate].
    do 8 (destruct i as [|i]; [by vm_compute|]). lia.
  - intros r p e. by rewrite lookup_empty.
  - intros r p Hr _. apply boot_table in Hr as [_ Hr]. by rewrite empty_resolve, lookup_empty.
  - intros x e. by rewrite lookup_empty.
  - intros i Hi. change (pmm boot_mm) with boot_pmm. rewrite Habs, lookup_empty. unfold mapcount. by rewrite map_filter_empty, map_size_empty.
Qed.

(** Two pages at 4 MiB in the first process. *)
Definition after {X} (d : pg_state page_pool) (o : outcome (pg_state page_pool * X)) : pg_state page_pool :=
  match o with Ok (s, _) => s | _ => d end.
Definition run_mm : pg_state page_pool :=
  after boot_mm (map_user_region_in_directory None boot_mm root_a 0x400000 0x1800 (Z.lor PAGE_PRESENT PAGE_RW)).
Definition result_of (o : outcome (pg_state page_pool * Z)) : Z := match o with Ok (_, rc) => rc | _ => -1 end.
Definition run_rc : Z :=
  result_of (map_user_region_in_directory None boot_mm root_a 0x400000 0x1800 (Z.lor PAGE_PRESENT PAGE_RW)).
Definition run_leaves (k0 k1 : nat) : leaves :=
  region_leaves boot_pmm ∅ root_a 0x400000 (Z.lor (Z.lor PAGE_PRESENT PAGE_RW) PAGE_USER) [k0; k1].

Lemma run_mm_ok : exists k0 k1, user_ok roots run_mm (run_leaves k0 k1) /\ exclusive (run_leaves k0 k1) /\
  pmm_abs (pmm run_mm) = {[k0 := 1; k1 := 1]} /\ total_frames (pmm run_mm) = 8%nat.
Proof.
  assert (Hr : root_a ∈ roots) by (unfold roots; set_solver).
  assert (Hst : 0 <= 0x400000 /\ 0x400000 mod 4096 = 0 /\ 0x400000 + Z.of_nat 2 * 4096 <= 2 ^ 47) by (by vm_compute).
  assert (Hcl : forall p, region_page 0x400000 2 p -> resolve (tabs boot_mm) root_a p = None).
  { intros p _. apply empty_resolve. by apply boot_table in Hr as [_ ?]. }
  destruct (region_loop_spec None roots boot_mm ∅ root_a 0x400000 (Z.lor (Z.lor PAGE_PRESENT PAGE_RW) PAGE_USER) 2
    boot_user_ok Hr eq_refl Hst Hcl 2 boot_mm [] (mapped_start roots boot_mm ∅ root_a 0x400000 _ 2 boot_user_ok) eq_refl)
    as (s' & rc & E & Hc).
  assert (Erc : map_user_region_in_directory None boot_mm root_a 0x400000 0x1800 (Z.lor PAGE_PRESENT PAGE_RW) = Ok (s', rc)) by exact E.
  assert (Hrc : run_rc = rc) by exact (f_equal result_of Erc).
  assert (Hs : run_mm = s') by exact (f_equal (after boot_mm) Erc).
  assert (Hz : run_rc = 0) by (by vm_compute). rewrite Hz in Hrc. rewrite Hs. clear Hs Hz Erc E. subst rc.
  destruct Hc as [(_ & ks & Hl & [Hu Hg _ _ Habs _ Hex _ _])|(? & _)]; [|done]. destruct ks as [|k0 [|k1 [|]]]; try (simpl in Hl; lia).
  exists k0, k1. splits; [exact Hu| | |].
  - apply Hex. intros x y e e'. by rewrite lookup_empty.
  - rewrite Habs. cbn [region_counts]. change (pmm boot_mm) with boot_pmm. rewrite (proj2 boot_pmm_inv). done.
  - rewrite (sg_total _ _ Hg). done.
Qed.

Lemma run_pages : (root_a, va_path 0x400000) <> (root_a, va_path (0x400000 + 4096)).
Proof.
  intros Hx. apply (f_equal snd) in Hx. cbn [snd] in Hx. apply va_path_inj in Hx; [by vm_compute in Hx|lia|lia].
Qed.

Lemma run_count k0 k1 f : (mapcount (run_leaves k0 k1) f <= 2)%nat.
Proof.
  unfold run_leaves. cbn [region_leaves]. rewrite !mapcount_insert_fresh.
  - unfold mapcount at 1. rewrite map_filter_empty, map_size_empty. repeat case_decide; lia.
  - apply lookup_empty.
  - rewrite lookup_insert_ne; [apply lookup_empty|]. apply not_eq_sym, run_pages.
Qed.

Lemma run_leaf k0 k1 va : 0x400000 <= va < 0x402000 ->
  exists k, run_leaves k0 k1 !! (root_a, va_path va) = Some (map_entry (frame_at boot_pmm k) 7).
Proof.
  intros Hva. unfold run_leaves. cbn [region_leaves]. change (Z.lor (Z.lor PAGE_PRESENT PAGE_RW) PAGE_USER) with 7.
  destruct (decide (va < 0x401000)).
  - exists k0. assert (va_path 0x400000 = va_path va) as -> by (apply va_path_inj; [lia|lia|]; Z.to_euclidean_division_equations; lia). by rewrite lookup_insert_eq.
  - exists k1. assert (Hp : va_path va = va_path (0x400000 + 4096)) by (apply va_path_inj; [lia|lia|]; Z.to_euclidean_division_equations; lia).
    rewrite Hp.
    rewrite lookup_insert_ne, lookup_insert_eq; [done|exact run_pages].
Qed.

Lemma run_writable k0 k1 va : 0x400ffe <= va < 0x400ffe + Z.of_nat (length [1; 2; 3; 4]) -> writable (run_leaves k0 k1) (root_a, va_path va).
Proof.
  intros Hva. simpl in Hva. destruct (run_leaf k0 k1 va) as [k Hk]; [lia|]. eexists. split; [exact Hk|]. left.
  change PAGE_RW with (2 ^ 1). by rewrite map_entry_bit by lia.
Qed.

(** The frame behind a user page is in use. *)
Lemma user_mapped R s A r va e : user_ok R s A -> r ∈ R -> 0 <= va < 2 ^ 47 -> A !! (r, va_path va) = Some e -> resolve (tabs s) r (va_path va) = Some (e, 0%nat).
Proof.
  intros Hu Hr Hva He. pose proof (uo_abs _ _ _ Hu r _ Hr (va_user_path _ Hva)) as Hab. rewrite He in Hab. unfold user_leaf in Hab.
  destruct (resolve _ _ _) as [[e' [|lv]]|]; [|done|done]. case_match; [congruence|done].
Qed.

Lemma user_frames_used R s A r va : user_ok R s A -> r ∈ R -> 0 <= va < 2 ^ 47 -> is_Some (A !! (r, va_path va)) ->
  forall e, resolve (tabs s) r (va_path va) = Some (e, 0%nat) -> frame_used (pmm s) (mm_pte_phys e).
Proof.
  intros Hu Hr Hva [e' He'] e He. pose proof (uo_abs _ _ _ Hu r _ Hr (va_user_path _ Hva)) as Hab. rewrite He, He' in Hab.
  simpl in Hab. destruct (flag_set e PAGE_USER); [|done]. injection Hab as ->.
  destruct (uo_frame _ _ _ Hu _ _ He') as (i & Hi & Hp). pose proof (mapped_used _ _ _ _ _ _ Hu He' Hi Hp) as Hused.
  intros _. exists i. split; [|done]. rewrite Hp. apply frame_at_index; [exact (uo_pmm _ _ _ Hu)|done].
Qed.

Lemma run_hole k0 k1 va : va_path va <> va_path 0x400000 /\ va_path va <> va_path (0x400000 + 4096) ->
  run_leaves k0 k1 !! (root_a, va_path va) = None.
Proof.
  intros [H1 H2]. unfold run_leaves. cbn [region_leaves]. rewrite !lookup_insert_ne; [apply lookup_empty|..];
    intros Hx; apply (f_equal snd) in Hx; cbn [snd] in Hx; congruence.
Qed.

Lemma run_other k0 k1 p : run_leaves k0 k1 !! (root_b, p) = None.
Proof. unfold run_leaves. cbn [region_leaves]. by rewrite !lookup_insert_ne, lookup_empty. Qed.

Lemma root_a_in : root_a ∈ roots.
Proof. unfold roots. set_solver. Qed.
Lemma root_b_in : root_b ∈ roots.
Proof. unfold roots. set_solver. Qed.

(** ** The theorems at work on it *)


Lemma user_copy_roundtrip_witness : exists s1 rc,
  copy_to_user_region_in_directory None run_mm root_a 0x400ffe (Some [1; 2; 3; 4]) = Ok (s1, rc) /\
  (rc = 0 -> exists s2, copy_from_user_region_in_directory s1 root_a 0x400ffe false 4 = Ok (s2, 0, [1; 2; 3; 4])).
Proof.
  destruct run_mm_ok as (k0 & k1 & Hu & Hex & _).
  destruct (user_copy_roundtrip None roots run_mm (run_leaves k0 k1) root_a 0x400ffe [1; 2; 3; 4] Hu Hex root_a_in)
    as (s' & rc & E & Hrc); [lia|simpl; lia|apply run_writable|]. exists s', rc. split; [exact E|].
  intros Hz. destruct (Hrc Hz) as (s2 & E2 & _). exists s2. exact E2.
Defined.

Lemma map_user_region_all_or_nothing_witness : exists s' rc,
  map_user_region_in_directory None boot_mm root_a 0x400123 0x1800 PAGE_RW = Ok (s', rc) /\ (rc = 0 \/ rc = -1).
Proof.
  destruct (map_user_region_all_or_nothing None roots boot_mm ∅ root_a 0x400123 0x1800 PAGE_RW boot_user_ok root_a_in)
    as (s' & rc & E & Hc); [lia|by vm_compute| |].
  - intros p _. apply empty_resolve. by destruct (boot_table _ root_a_in).
  - exists s', rc. split; [exact E|]. destruct Hc as [[? _]|[? _]]; auto.
Defined.

Lemma copy_process_memory_correct_witness : exists s' rc A',
  copy_process_memory None run_mm root_a root_b = Ok (s', rc) /\ user_ok roots s' A' /\ ram s' = ram run_mm.
Proof.
  destruct run_mm_ok as (k0 & k1 & Hu & Hex & Habs & Htot).
  destruct (copy_process_memory_correct None roots run_mm (run_leaves k0 k1) root_a root_b Hu Hex root_a_in root_b_in)
    as (s' & rc & A' & E & Hu' & Hram & _); [done|apply run_other| |exists s', rc, A'; auto].
  intros i Hi. rewrite Habs. assert (Hc : default 0 (({[k0 := 1; k1 := 1]} : gmap nat Z) !! i) <= 1).
  { rewrite lookup_insert. case_decide; [done|]. rewrite lookup_singleton. by case_decide. }
  assert (Hs : (mapcount (run_leaves k0 k1) (frame_at (pmm run_mm) i) <= 2)%nat); [|unfold U32_MAX; lia].
  apply run_count.
Defined.

Lemma walks_read_translation_witness :
  mm_ok U roots run_mm /\ exists pte, paging_get_pte run_mm root_a 0x401000 = Ok pte.
Proof.
  destruct run_mm_ok as (k0 & k1 & Hu & _). pose proof (uo_mm _ _ _ Hu) as Hok. split; [exact Hok|].
  destruct (walks_read_translation U roots run_mm root_a 0x401000 Hok root_a_in) as (_ & pte & E & _);
    [apply va_user_okp; lia|]. exists pte. exact E.
Defined.

Lemma map_page_in_directory_correct_witness : exists s' rc,
  map_page_in_directory None run_mm root_b 0x7000 0x2003000 (Z.lor PAGE_PRESENT PAGE_USER) = Ok (s', rc) /\ mm_ok U roots s'.
Proof.
  destruct run_mm_ok as (k0 & k1 & Hu & _). pose proof (uo_mm _ _ _ Hu) as Hok.
  destruct (map_page_in_directory_correct None U roots run_mm root_b 0x7000 0x2003000 (Z.lor PAGE_PRESENT PAGE_USER) Hok root_b_in)
    as (s' & rc & E & Hok' & _); [apply va_user_okp; lia|]. exists s', rc. auto.
Defined.

Lemma unmap_page_in_directory_correct_witness :
  exists s', unmap_page_in_directory run_mm root_a 0x401000 = Ok (s', 0) /\ resolve (tabs s') root_a (va_path 0x401000) = None.
Proof.
  destruct run_mm_ok as (k0 & k1 & Hu & _). pose proof (uo_mm _ _ _ Hu) as Hok. destruct (run_leaf k0 k1 0x401000) as [k Hk]; [lia|].
  assert (Hp : page_path U (va_path 0x401000)) by (apply va_user_path; lia).
  destruct (unmap_page_in_directory_correct U roots run_mm root_a 0x401000 Hok root_a_in) as [[_ Hno]|(s' & e & E & _ & _ & _ & _ & _ & _ & _ & _ & _ & Hres & _)];
    [apply va_user_okp; lia|exact (uo_pmm _ _ _ Hu)| | |].
  - apply (user_frames_used roots run_mm (run_leaves k0 k1)); [exact Hu|exact root_a_in|lia|eexists; exact Hk].
  - exfalso. apply (Hno (map_entry (frame_at boot_pmm k) 7)). apply (user_mapped roots run_mm (run_leaves k0 k1)); [exact Hu|exact root_a_in|lia|exact Hk].
  - exists s'. split; [exact E|]. rewrite (Hres root_a _ root_a_in Hp). apply decide_True. split; reflexivity.
Defined.

Lemma paging_reclaim_user_tables_correct_witness : exists s', paging_reclaim_user_tables run_mm root_a = Ok s' /\ mm_ok U roots s'.
Proof.
  destruct run_mm_ok as (k0 & k1 & Hu & _). pose proof (uo_mm _ _ _ Hu) as Hok.
  destruct (paging_reclaim_user_tables_correct roots run_mm root_a Hok root_a_in) as (s' & E & Hok' & _). exists s'. auto.
Defined.

(** A write fault in the stack of the first process. *)
Definition run_proc : pf_process := {|
  process_pgd := root_a; process_heap_start := 0; process_heap_end := 0;
  process_stack_start := 0; process_stack_size := 0; process_mmap_list := []
|}.
Definition stack_fault : page_fault_info := {|
  pfi_address := 0x7FFFE123; pfi_present := false; pfi_write := true; pfi_user := true; pfi_exec := false
|}.

Lemma page_fault_isolated_witness : exists s' res A',
  mm_page_fault_handle None run_mm false (Some run_proc) true (Some stack_fault) = Ok (s', res) /\ user_ok roots s' A'.
Proof.
  destruct run_mm_ok as (k0 & k1 & Hu & Hex & Habs & _).
  destruct (page_fault_isolated None roots run_mm (run_leaves k0 k1) run_proc stack_fault Hu Hex root_a_in)
    as (s' & res & A' & E & Hfe & _); [done|cbn [pfi_address stack_fault]; lia| | |exists s', res, A'; split; [exact E|apply (fe_user _ _ _ _ _ _ Hfe)]].
  - intros _. cbn [pfi_address stack_fault process_pgd run_proc]. apply run_hole.
    split; intros Hx; (apply va_path_inj in Hx; [by vm_compute in Hx|lia|lia]).
  - intros i c Hc. rewrite Habs in Hc. apply lookup_insert_Some in Hc as [[_ <-]|[_ Hc]]; [done|].
    apply lookup_singleton_Some in Hc as [_ <-]. done.
Defined.

(** The teardown walk keeps reading a page table after unmapping its last page
    has freed it: from a process with two user pages it reaches a table that
    is no longer allocated. *)
Lemma teardown_reads_freed_table : process_unmap_user_pages_all run_mm root_a None = UB.
Proof. vm_compute. reflexivity. Qed.

(** The resident count of the same process is right. *)
Lemma resident_count_two : mm_count_resident_user_pages run_mm root_a = Ok 2.
Proof. vm_compute. reflexivity. Qed.

Definition user_a : cu_process := {| cu_kernel_mode := false; cu_pgd := root_a |}.
Definition no_raw_store (s : pg_state page_pool) (_ : Z) (_ : list Z) : outcome (pg_state page_pool) := UB.
Definition no_raw_load (s : pg_state page_pool) (_ : Z) (_ : nat) : outcome (list Z) := UB.


(** The first four bytes of the first page are zeros. *)
Lemma run_ubyte k0 k1 va : user_ok roots run_mm (run_leaves k0 k1) -> 0x400000 <= va < 0x402000 ->
  exists b, ubyte run_mm (run_leaves k0 k1) root_a va = Some b.
Proof.
  intros Hu Hva. destruct (run_leaf k0 k1 va Hva) as [k Hk]. destruct (uo_frame _ _ _ Hu _ _ Hk) as (i & Hi & Hp).
  destruct (uo_ram _ _ _ Hu i Hi) as (page & Hpage & Hl). unfold ubyte, view. rewrite Hk. cbn [mbind option_bind]. rewrite Hp, Hpage.
  cbn [mbind option_bind]. pose proof (page_off_lt va). destruct (lookup_lt_is_Some_2 page (page_off va)) as [b Hb]; [lia|eauto].
Qed.

Lemma copy_from_user_cstring_correct_witness : exists s' bs, copy_from_user_cstring no_raw_load run_mm (Some user_a) 2 0x400000 = Ok (s', 0, bs).
Proof.
  destruct run_mm_ok as (k0 & k1 & Hu & _). destruct (run_ubyte k0 k1 0x400000 Hu) as [b Hb]; [lia|].
  destruct (copy_from_user_cstring_correct no_raw_load roots run_mm (run_leaves k0 k1) user_a 2 0x400000 [b] Hu root_a_in)
    as (s' & E & _); [done|done|lia|lia|lia| |exists s', (cstring_of [b]); exact E].
  intros [|i] b' Hi; [|done]. injection Hi as <-. exact Hb.
Defined.

(** ** Where the code falls short *)

(** The supervisor identity page at KEYBOARD_BUFFER_ADDR, here over the first
    frame: no user access. *)
Definition sup_mm : pg_state page_pool :=
  after boot_mm (map_page_in_directory None boot_mm root_a 0x500000 0x2000000 (Z.lor PAGE_PRESENT PAGE_RW)).

(** [copy_to_user] stores through a present leaf without PAGE_USER: the user
    window starts at 4 MiB, the supervisor identity map of every process reaches up to 6 MiB, and no walk
    looks at the user bit. *)
Lemma copy_to_user_writes_supervisor_page :
  match copy_to_user None no_raw_store sup_mm (Some user_a) 0x500000 [42] with
  | Ok (s', rc) => rc = 0 /\ (page ← ram s' !! 0x2000000; head page) = Some 42
  | _ => False
  end /\
  match is_page_mapped_in_directory sup_mm root_a 0x500000 with
  | Ok (_, Some fl) => flag_set fl PAGE_USER = false
  | _ => False
  end.
Proof. vm_compute. repeat split; reflexivity. Qed.

(** A page both processes map read-only after a fork. *)
Definition ro_mm : pg_state page_pool := after boot_mm (map_user_region_in_directory None boot_mm root_a 0x400000 0x1000 PAGE_PRESENT).
Definition ro_fork_mm : pg_state page_pool := after ro_mm (copy_process_memory None ro_mm root_a root_b).

(** A kernel write to it succeeds, and the other process sees it. *)
Lemma copy_to_user_writes_shared_read_only :
  match copy_to_user None no_raw_store ro_fork_mm (Some user_a) 0x400000 [42] with
  | Ok (s', rc) => rc = 0 /\
      match copy_from_user_region_in_directory s' root_b 0x400000 false 1 with
      | Ok (_, r, bs) => r = 0 /\ bs = [42]
      | _ => False
      end
  | _ => False
  end.
Proof. vm_compute. repeat split; reflexivity. Qed.

(** A size within a page of 2^64 rounds up to no page at all, and the call
    reports success. *)
Lemma map_user_region_huge_size s root va flags : root <> 0 ->
  map_user_region_in_directory None s root va U64_MAX flags = Ok (s, 0).
Proof.
  intros Hr. unfold map_user_region_in_directory. rewrite decide_False by done.
  assert (region_pages U64_MAX = 0%nat) as -> by (by vm_compute). done.
Qed.
