(* ===== verification/Runq.v ===== *)
(** * Run-queue vocabulary shared by the scheduler backends

    Process descriptors as far as the scheduler sees them
    (src/kernel/process.h), the shared context-switch path
    (src/sched/sched_switch.c), and singly linked lists of scheduler nodes in a
    node memory: [rr_task_t] and [prio_task_t] are the same two fields.

    A pointer is its address, NULL is 0.  Reading a node or a process that is not
    in its memory is [UB], and so is a list walk longer than the memory. *)

From S2P Require Import Prelude.

Inductive process_state_t := PROCESS_READY | PROCESS_RUNNING | PROCESS_BLOCKED | PROCESS_ZOMBIE.
Inductive task_state_t :=
| TASK_SCHED_RUNNABLE | TASK_SCHED_RUNNING | TASK_SCHED_SLEEPING | TASK_SCHED_TERMINATED | TASK_SCHED_STOPPED.

#[export] Instance process_state_eq_dec : EqDecision process_state_t.
Proof. solve_decision. Defined.

Record process_t := { state : process_state_t; task_state : task_state_t; sched_prio : Z }.

(** The machine as the scheduler drives it: process memory, [current_process],
    the [first] flag of the switch path, and the switches performed so far,
    latest first ([prev] is 0 for the first switch). *)
Record kern := {
  procs : gmap Z process_t;
  current_process : Z;
  first : bool;
  switches : list (Z * Z)
}.

Definition load_proc (k : kern) (p : Z) : outcome process_t := or_ub (procs k !! p).

Definition with_procs (m : gmap Z process_t) (k : kern) : kern := {|
  procs := m; current_process := current_process k; first := first k; switches := switches k |}.

(** [process_set_sched_state]; the trace hook it calls on sleep and wake only
    appends to the KTM ring. *)
Definition process_set_sched_state (k : kern) (p : Z) (st : process_state_t) : outcome kern :=
  if decide (p = 0 \/ st = PROCESS_ZOMBIE) then Ok k else
  d ← load_proc k p;
  let ts := match st with
            | PROCESS_READY => TASK_SCHED_RUNNABLE
            | PROCESS_RUNNING => TASK_SCHED_RUNNING
            | PROCESS_BLOCKED => TASK_SCHED_SLEEPING
            | PROCESS_ZOMBIE => task_state d
            end in
  Ok (with_procs (<[p := {| state := st; task_state := ts; sched_prio := sched_prio d |}]> (procs k)) k).

(** [sched_context_switch_to].  [first_switch_to] does not return: control goes
    on in [next], so the panic behind it is unreachable. *)
Definition sched_context_switch_to (k : kern) (next : Z) : outcome kern :=
  if decide (next = 0) then Ok k else
  let prev := current_process k in
  if negb (first k) && bool_decide (prev = next) then Ok k else
  k ← (if decide (prev = 0) then Ok k else
       d ← load_proc k prev;
       if decide (state d = PROCESS_RUNNING) then process_set_sched_state k prev PROCESS_READY else Ok k);
  k ← process_set_sched_state k next PROCESS_RUNNING;
  Ok {| procs := procs k; current_process := next; first := false;
        switches := (if first k then [(0, next)] else if decide (prev = 0) then [] else [(prev, next)]) ++ switches k |}.

(** The test of both pick loops: neither zombie nor blocked. *)
Definition runnable (k : kern) (p : Z) : bool :=
  match procs k !! p with
  | Some d => bool_decide (state d <> PROCESS_ZOMBIE) && bool_decide (state d <> PROCESS_BLOCKED)
  | None => false
  end.

Definition is_runnable (d : process_t) : bool :=
  bool_decide (state d <> PROCESS_ZOMBIE) && bool_decide (state d <> PROCESS_BLOCKED).

(** The test of both counters: READY or RUNNING. *)
Definition counts (d : process_t) : bool :=
  bool_decide (state d = PROCESS_READY) || bool_decide (state d = PROCESS_RUNNING).

Lemma counts_is_runnable d : counts d = is_runnable d.
Proof. unfold counts, is_runnable. by destruct (state d). Qed.

(** ** Scheduler nodes *)

Record task_node := { n_process : Z; n_next : Z }.

Abbreviation nodes := (gmap Z task_node).
Abbreviation queue := (list (Z * Z)).

Definition load_node (m : nodes) (a : Z) : outcome task_node := or_ub (m !! a).

Definition set_next (m : nodes) (a v : Z) : outcome nodes :=
  x ← load_node m a; Ok (<[a := {| n_process := n_process x; n_next := v |}]> m).

(** [for (scan = a; scan; scan = scan->next) if (scan->process == proc)]: the
    matching node, or NULL. *)
Fixpoint find_node (fuel : nat) (m : nodes) (a proc : Z) : outcome Z :=
  match fuel with
  | O => UB
  | S n => if decide (a = 0) then Ok 0 else
           x ← load_node m a;
           if decide (n_process x = proc) then Ok a else find_node n m (n_next x) proc
  end.

(** Counting walk over one list. *)
Fixpoint count_nodes (fuel : nat) (k : kern) (m : nodes) (a : Z) : outcome Z :=
  match fuel with
  | O => UB
  | S n => if decide (a = 0) then Ok 0 else
           x ← load_node m a;
           c ← (if decide (n_process x = 0) then Ok false else d ← load_proc k (n_process x); Ok (counts d));
           r ← count_nodes n k m (n_next x);
           Ok ((if c : bool then 1 else 0) + r)
  end.

Definition walk_fuel (m : nodes) : nat := S (size m).

(** ** Lists in memory *)

Fixpoint slseg (m : nodes) (a : Z) (q : queue) (b : Z) : Prop :=
  match q with
  | [] => a = b
  | (n, p) :: q' => a = n /\ n <> 0 /\ exists nx, m !! n = Some {| n_process := p; n_next := nx |} /\ slseg m nx q' b
  end.

Definition first_addr (q : queue) (b : Z) : Z := match q with [] => b | (n, _) :: _ => n end.
Definition last_addr (q : queue) : Z := match last q with Some (n, _) => n | None => 0 end.

Lemma slseg_app m a q1 q2 b : slseg m a (q1 ++ q2) b <-> exists c, slseg m a q1 c /\ slseg m c q2 b.
Proof.
  revert a; induction q1 as [|[n p] q1 IH]; intros a; simpl; [naive_solver|].
  split.
  - intros (-> & Hn & nx & Hm & H). apply IH in H as (c & H1 & H2). exists c. eauto 8.
  - intros (c & (-> & Hn & nx & Hm & H1) & H2). splits; auto. exists nx. split; [done|]. apply IH. eauto.
Qed.

Lemma slseg_first m a q b : slseg m a q b -> a = first_addr q b.
Proof. destruct q as [|[n p] q]; simpl; naive_solver. Qed.

Lemma slseg_frame m m' a q b :
  (forall n, n ∈ q.*1 -> m' !! n = m !! n) -> slseg m a q b -> slseg m' a q b.
Proof.
  revert a; induction q as [|[n p] q IH]; intros a Hf; simpl; [done|].
  intros (-> & Hn & nx & Hm & H). splits; auto. exists nx. split; [rewrite Hf; [done|by left]|].
  apply IH; [|done]. intros x Hx. apply Hf. by right.
Qed.

Lemma slseg_in m a q b n : slseg m a q b -> n ∈ q.*1 -> is_Some (m !! n) /\ n <> 0.
Proof.
  revert a; induction q as [|[n' p] q IH]; intros a; simpl; [by intros _ ?%not_elem_of_nil|].
  intros (-> & Hn & nx & Hm & H) Hx. apply elem_of_cons in Hx as [->|Hx]; [rewrite Hm; eauto|eauto].
Qed.

(** The last node can be redirected. *)
Lemma slseg_snoc_set m a q n p b b' :
  slseg m a (q ++ [(n, p)]) b -> NoDup (q ++ [(n, p)]).*1 ->
  slseg (<[n := {| n_process := p; n_next := b' |}]> m) a (q ++ [(n, p)]) b'.
Proof.
  intros H Hnd. apply slseg_app in H as (c & H1 & H2). simpl in H2. destruct H2 as (-> & Hn & nx & Hm & ->).
  apply slseg_app. exists n. split.
  - eapply slseg_frame; [|exact H1]. intros x Hx. rewrite lookup_insert_ne; [done|]. intros ->.
    rewrite fmap_app in Hnd. apply NoDup_app in Hnd as (_ & Hd & _). apply (Hd x Hx). by left.
  - simpl. splits; auto. exists b'. by rewrite lookup_insert_eq.
Qed.

Lemma queue_fuel (m : nodes) (q : queue) :
  NoDup q.*1 -> (forall n, n ∈ q.*1 -> is_Some (m !! n)) -> (length q < walk_fuel m)%nat.
Proof.
  intros Hnd Hin. unfold walk_fuel. rewrite <- (length_fmap fst q), <- (size_list_to_set (C:=gset Z) _ Hnd), <- size_dom.
  assert (Hsub : (list_to_set q.*1 : gset Z) ⊆ dom m).
  { intros n Hn. apply elem_of_list_to_set in Hn. apply elem_of_dom. auto. }
  pose proof (subseteq_size _ _ Hsub). lia.
Qed.

(** First node holding [p], or NULL. *)
Definition node_of (q : queue) (p : Z) : Z :=
  match list_find (fun x => x.2 = p) q with Some (_, (n, _)) => n | None => 0 end.

Lemma node_of_cons n p' q p : node_of ((n, p') :: q) p = if decide (p' = p) then n else node_of q p.
Proof.
  unfold node_of. simpl. case_decide; [done|]. destruct (list_find _ q) as [[i [n' ?]]|]; done.
Qed.

Lemma find_node_spec fuel m a q p :
  slseg m a q 0 -> (length q < fuel)%nat -> find_node fuel m a p = Ok (node_of q p).
Proof.
  revert fuel a; induction q as [|[n p'] q IH]; intros [|fuel] a H Hf; simpl in *; try lia.
  - subst. done.
  - destruct H as (-> & Hn & nx & Hm & H). rewrite decide_False by done.
    unfold load_node. rewrite Hm. simpl. rewrite node_of_cons. case_decide; [done|]. apply IH; [done|lia].
Qed.

Lemma node_of_zero q p : (forall n, n ∈ q.*1 -> n <> 0) -> node_of q p = 0 <-> p ∉ q.*2.
Proof.
  induction q as [|[n p'] q IH]; intros Hz; [split; [intros _; apply not_elem_of_nil|done]|].
  rewrite node_of_cons. simpl. rewrite not_elem_of_cons. case_decide as Hd.
  - split; [intros ->; destruct (Hz 0); [by left|done]|]. intros [? _]; congruence.
  - rewrite IH by (intros x Hx; apply Hz; by right). naive_solver.
Qed.

Lemma node_of_split a n p b : p ∉ a.*2 -> node_of (a ++ (n, p) :: b) p = n.
Proof.
  induction a as [|[n' p'] a IH]; simpl; rewrite node_of_cons; [by rewrite decide_True|].
  rewrite not_elem_of_cons. intros [? ?]. rewrite decide_False by done. auto.
Qed.

Lemma queue_split (q : queue) p : p ∈ q.*2 -> exists (a : queue) n b, q = a ++ (n, p) :: b /\ p ∉ a.*2.
Proof.
  induction q as [|[n p'] q IH]; simpl; [by intros ?%not_elem_of_nil|].
  destruct (decide (p' = p)) as [->|Hne].
  - intros _. exists [], n, q. split; [done|]. apply not_elem_of_nil.
  - intros Hx. apply elem_of_cons in Hx as [?|Hx]; [done|]. destruct (IH Hx) as (a & n' & b & -> & Ha).
    exists ((n, p') :: a), n', b. split; [done|]. simpl. rewrite not_elem_of_cons. auto.
Qed.

Lemma queue_addr_split (q : queue) n : n ∈ q.*1 -> exists (a : queue) p b, q = a ++ (n, p) :: b.
Proof.
  intros Hx. apply list_elem_of_fmap in Hx as ([n' p] & -> & Hx).
  apply list_elem_of_split in Hx as (a & b & ->). eauto.
Qed.

Definition runnable_in (k : kern) (q : queue) : list (Z * Z) := filter (fun x : Z * Z => runnable k x.2 = true) q.

Lemma count_nodes_spec fuel k m a q :
  slseg m a q 0 -> (length q < fuel)%nat -> (forall p, p ∈ q.*2 -> p <> 0 /\ is_Some (procs k !! p)) ->
  count_nodes fuel k m a = Ok (Z.of_nat (length (runnable_in k q))).
Proof.
  revert fuel a; induction q as [|[n p] q IH]; intros [|fuel] a H Hf Hp; simpl in *; try lia.
  - subst. done.
  - destruct H as (-> & Hn & nx & Hm & H). rewrite decide_False by done.
    unfold load_node. rewrite Hm. simpl. destruct (Hp p) as [Hp0 [d Hd]]; [by left|].
    rewrite decide_False by done. unfold load_proc. rewrite Hd. simpl.
    rewrite (IH fuel nx H) by (auto with lia; intros; apply Hp; by right). simpl.
    unfold runnable_in. rewrite filter_cons. simpl. unfold runnable. rewrite Hd.
    rewrite counts_is_runnable. unfold is_runnable.
    destruct (bool_decide (state d <> PROCESS_ZOMBIE) && bool_decide (state d <> PROCESS_BLOCKED)); simpl length; f_equal; lia.
Qed.

Lemma filter_keep {A} (P : A -> Prop) `{!forall x, Decision (P x)} (l : list A) :
  (forall x, x ∈ l -> P x) -> filter P l = l.
Proof.
  induction l as [|x l IH]; intros Hk; [done|]. rewrite filter_cons, decide_True by (apply Hk; by left).
  f_equal. apply IH. intros y Hy. apply Hk. by right.
Qed.

Lemma filter_absent (q : queue) p : p ∉ q.*2 -> filter (fun x : Z * Z => x.2 <> p) q = q.
Proof. intros Hp. apply filter_keep. intros x Hx Hxp. apply Hp. subst p. by apply list_elem_of_fmap_2. Qed.

(** In a list without repetitions an element has one position. *)
Lemma NoDup_split_unique {A} (a a' b b' : list A) x :
  NoDup (a ++ x :: b) -> a ++ x :: b = a' ++ x :: b' -> a = a' /\ b = b'.
Proof.
  revert a'. induction a as [|y a IH]; intros [|y' a'] Hnd E; simplify_eq/=; auto.
  - exfalso. apply NoDup_cons in Hnd as [Hx _]. apply Hx. set_solver.
  - exfalso. apply NoDup_cons in Hnd as [Hx _]. apply Hx. set_solver.
  - apply NoDup_cons in Hnd as [_ Hnd]. destruct (IH a' Hnd) as [-> ->]; [done|auto].
Qed.

(** ** The switch path *)

(** The two views of a process's state never diverge, only the current process
    is marked RUNNING, and the current process exists. *)
Definition views_ok (k : kern) : Prop :=
  forall p d, procs k !! p = Some d ->
    task_state d = match state d with
                   | PROCESS_READY => TASK_SCHED_RUNNABLE | PROCESS_RUNNING => TASK_SCHED_RUNNING
                   | PROCESS_BLOCKED => TASK_SCHED_SLEEPING | PROCESS_ZOMBIE => TASK_SCHED_TERMINATED end.

Record kern_ok (k : kern) : Prop := {
  ko_views : views_ok k;
  ko_sole : forall p d, procs k !! p = Some d -> state d = PROCESS_RUNNING -> p = current_process k;
  ko_current : current_process k = 0 \/ is_Some (procs k !! current_process k);
  ko_null : procs k !! 0 = None
}.

Lemma runnable_state k p d : procs k !! p = Some d -> runnable k p = is_runnable d.
Proof. intros H. unfold runnable. by rewrite H. Qed.

(** Descriptor after [process_set_sched_state]. *)
Definition in_state (d : process_t) (st : process_state_t) : process_t := {|
  state := st;
  task_state := match st with
                | PROCESS_READY => TASK_SCHED_RUNNABLE | PROCESS_RUNNING => TASK_SCHED_RUNNING
                | PROCESS_BLOCKED => TASK_SCHED_SLEEPING | PROCESS_ZOMBIE => task_state d end;
  sched_prio := sched_prio d |}.

Lemma set_state_Ok k p d st :
  procs k !! p = Some d -> p <> 0 -> st <> PROCESS_ZOMBIE ->
  process_set_sched_state k p st = Ok (with_procs (<[p := in_state d st]> (procs k)) k).
Proof.
  intros Hd Hp Hs. unfold process_set_sched_state, load_proc. rewrite decide_False by naive_solver. by rewrite Hd.
Qed.

(** A step that moves processes only between READY and RUNNING. *)
Record mild (k k' : kern) : Prop := {
  mi_runnable : forall x, runnable k' x = runnable k x;
  mi_asleep : forall x, runnable k x = false -> procs k' !! x = procs k !! x;
  mi_dom : forall x, procs k' !! x = None <-> procs k !! x = None;
  mi_prio : forall x, (sched_prio <$> procs k' !! x) = (sched_prio <$> procs k !! x);
  mi_views : views_ok k -> views_ok k'
}.

#[export] Instance mild_preorder : PreOrder mild.
Proof.
  split.
  - intros k. by constructor.
  - intros k1 k2 k3 [] []. constructor; auto; intros x.
    + congruence.
    + intros Hx. rewrite mi_asleep1 by congruence. auto.
    + rewrite mi_dom1. apply mi_dom0.
    + congruence.
Qed.

Lemma mild_set k p d st :
  procs k !! p = Some d -> is_runnable d = true -> st = PROCESS_READY \/ st = PROCESS_RUNNING ->
  mild k (with_procs (<[p := in_state d st]> (procs k)) k).
Proof.
  intros Hd Hr Hst. constructor; simpl.
  - intros x. unfold runnable. simpl. destruct (decide (p = x)) as [<-|Hne].
    + rewrite lookup_insert_eq, Hd. unfold is_runnable in Hr. rewrite Hr. by destruct Hst as [-> | ->].
    + by rewrite lookup_insert_ne.
  - intros x Hx. destruct (decide (p = x)) as [<-|Hne]; [rewrite (runnable_state _ _ _ Hd) in Hx; congruence|by rewrite lookup_insert_ne].
  - intros x. destruct (decide (p = x)) as [<-|Hne]; [rewrite lookup_insert_eq, Hd; done|by rewrite lookup_insert_ne].
  - intros x. destruct (decide (p = x)) as [<-|Hne]; [rewrite lookup_insert_eq, Hd; done|by rewrite lookup_insert_ne].
  - intros Hv x dx. simpl. rewrite lookup_insert_Some. intros [[<- <-]|[_ Hx]]; [|by apply (Hv x)].
    by destruct Hst as [-> | ->].
Qed.

(** The outgoing process: after this step nobody is RUNNING. *)
Lemma demote_spec k :
  kern_ok k ->
  exists k', (if decide (current_process k = 0) then Ok k else
       d ← load_proc k (current_process k);
       if decide (state d = PROCESS_RUNNING) then process_set_sched_state k (current_process k) PROCESS_READY else Ok k) = Ok k' /\
    mild k k' /\ first k' = first k /\ switches k' = switches k /\
    forall x d, procs k' !! x = Some d -> state d <> PROCESS_RUNNING.
Proof.
  intros []. destruct (decide (current_process k = 0)) as [Hc|Hc].
  - exists k. splits; auto; [reflexivity|]. intros x d Hx Hs. pose proof (ko_sole0 _ _ Hx Hs) as ->. congruence.
  - destruct ko_current0 as [?|[c Hcc]]; [done|]. unfold load_proc. rewrite Hcc. cbn [mbind outcome_bind or_ub].
    destruct (decide (state c = PROCESS_RUNNING)) as [Hs|Hs].
    + rewrite (set_state_Ok _ _ c) by done. eexists. split; [reflexivity|]. splits; auto.
      * apply mild_set; auto. unfold is_runnable. by rewrite Hs.
      * intros x d. simpl. rewrite lookup_insert_Some. intros [[<- <-]|[Hne Hx]]; [done|].
        intros Hr. by apply (ko_sole0 _ _ Hx) in Hr.
    + exists k. splits; auto; [reflexivity|]. intros x d Hx Hr. pose proof (ko_sole0 _ _ Hx Hr) as ->. congruence.
Qed.

(** A switch to a runnable process makes it the current and only running one. *)
Lemma switch_spec k p :
  kern_ok k -> runnable k p = true ->
  exists k', sched_context_switch_to k p = Ok k' /\ kern_ok k' /\ mild k k' /\
    current_process k' = p /\ first k' = false.
Proof.
  intros Hk Hr. pose proof Hk as []. unfold sched_context_switch_to.
  assert (Hpd : exists d, procs k !! p = Some d /\ is_runnable d = true).
  { unfold runnable in Hr. destruct (procs k !! p) as [d|]; [|done]. eauto. }
  destruct Hpd as (d & Hd & Hrd).
  rewrite decide_False by (intros ->; congruence).
  destruct (negb (first k) && bool_decide (current_process k = p)) eqn:Eb.
  { apply andb_true_iff in Eb as [Ef Ec]. apply negb_true_iff in Ef. apply bool_decide_eq_true in Ec.
    exists k. splits; auto. reflexivity. }
  destruct (demote_spec k Hk) as (k1 & -> & Hm1 & Hf1 & Hs1 & Hno). cbn [mbind outcome_bind].
  assert (Hp0 : p <> 0) by (intros ->; congruence).
  destruct (procs k1 !! p) as [d1|] eqn:Hd1; [|apply (mi_dom _ _ Hm1) in Hd1; congruence].
  rewrite (set_state_Ok _ _ d1) by done. cbn [mbind outcome_bind]. eexists. split; [reflexivity|].
  assert (Hm2 : mild k1 (with_procs (<[p := in_state d1 PROCESS_RUNNING]> (procs k1)) k1)).
  { apply mild_set; auto. rewrite <- (runnable_state k1 p d1 Hd1), (mi_runnable _ _ Hm1). done. }
  assert (Hm : mild k (with_procs (<[p := in_state d1 PROCESS_RUNNING]> (procs k1)) k1)) by by etrans.
  splits; [|by destruct Hm; constructor|done|done]. constructor; simpl.
  - by apply (mi_views _ _ Hm).
  - intros x dx. rewrite lookup_insert_Some. intros [[<- _]|[_ Hx]]; [done|]. intros Hs. by apply Hno in Hx.
  - right. by rewrite lookup_insert_eq.
  - by apply (mi_dom _ _ Hm).
Qed.

(** Waking a process never breaks the invariant. *)
Lemma wake_spec k p :
  kern_ok k -> is_Some (procs k !! p) ->
  exists k', process_set_sched_state k p PROCESS_READY = Ok k' /\ kern_ok k' /\
    current_process k' = current_process k /\ first k' = first k /\ switches k' = switches k /\
    runnable k' p = true /\ (forall x, x <> p -> procs k' !! x = procs k !! x) /\
    (forall x, procs k' !! x = None <-> procs k !! x = None) /\
    (forall x, (sched_prio <$> procs k' !! x) = (sched_prio <$> procs k !! x)).
Proof.
  intros [] [d Hd]. assert (Hp0 : p <> 0) by (intros ->; congruence).
  rewrite (set_state_Ok _ _ d) by done. eexists. split; [reflexivity|].
  assert (Hdom : forall x, <[p := in_state d PROCESS_READY]> (procs k) !! x = None <-> procs k !! x = None).
  { intros x. destruct (decide (p = x)) as [<-|Hne]; [rewrite lookup_insert_eq, Hd; done|by rewrite lookup_insert_ne]. }
  split; [constructor; simpl|].
  - intros x dx. simpl. rewrite lookup_insert_Some. intros [[<- <-]|[_ Hx]]; [done|by apply ko_views0 in Hx].
  - intros x dx. rewrite lookup_insert_Some. intros [[<- <-]|[_ Hx]]; [done|by apply ko_sole0].
  - destruct ko_current0 as [?|Hc]; [by left|right]. apply not_eq_None_Some. rewrite Hdom. by apply not_eq_None_Some.
  - by apply Hdom.
  - simpl. splits; auto.
    + unfold runnable. simpl. by rewrite lookup_insert_eq.
    + intros x Hx. by rewrite lookup_insert_ne.
    + intros x. destruct (decide (p = x)) as [<-|Hne]; [rewrite lookup_insert_eq, Hd; done|by rewrite lookup_insert_ne].
Qed.

(** ** A small machine for concrete runs: two ready processes *)

Definition demo_kern : kern := {|
  procs := {[ 100 := {| state := PROCESS_READY; task_state := TASK_SCHED_RUNNABLE; sched_prio := 2 |};
              200 := {| state := PROCESS_READY; task_state := TASK_SCHED_RUNNABLE; sched_prio := 5 |} ]};
  current_process := 0; first := true; switches := [] |}.

Lemma demo_procs p d : procs demo_kern !! p = Some d -> (p = 100 \/ p = 200) /\ state d = PROCESS_READY /\ task_state d = TASK_SCHED_RUNNABLE.
Proof. unfold demo_kern. simpl. rewrite lookup_insert_Some, lookup_singleton_Some. naive_solver. Qed.

Lemma demo_kern_ok : kern_ok demo_kern.
Proof.
  constructor; simpl; [|..|by left|done].
  - intros p d Hd. apply demo_procs in Hd as (_ & -> & ->). done.
  - intros p d Hd Hs. apply demo_procs in Hd as (_ & Hs' & _). congruence.
Qed.
