(* ===== verification/RrSched.v ===== *)
(** * Round-robin scheduler (src/sched/rr_sched.c)

    The ready list is a singly linked list of nodes in [rr_nodes]; the three
    static pointers are the other fields.  [kmalloc] is represented by the
    address it returned, [kfree] removes the node from the memory. *)

From S2P Require Import Prelude Runq.

Record rr_state := { rr_nodes : nodes; rr_head : Z; rr_tail : Z; rr_current : Z }.

Definition rr_boot : rr_state := {| rr_nodes := ∅; rr_head := 0; rr_tail := 0; rr_current := 0 |}.

Definition RR_MAX_PICK_ATTEMPTS : nat := 100.

(** Append the fresh [node] at the tail. *)
Definition rr_link (s : rr_state) (node proc : Z) : outcome rr_state :=
  let m := <[node := {| n_process := proc; n_next := 0 |}]> (rr_nodes s) in
  if decide (rr_head s = 0) then
    Ok {| rr_nodes := m; rr_head := node; rr_tail := node; rr_current := rr_current s |}
  else
    m ← set_next m (rr_tail s) node;
    Ok {| rr_nodes := m; rr_head := rr_head s; rr_tail := node; rr_current := rr_current s |}.

Definition rr_add_process (s : rr_state) (k : kern) (node proc : Z) : outcome (rr_state * kern) :=
  if decide (proc = 0) then Ok (s, k) else
  if decide (node = 0) then Panic "BUG_ON: rr_add_process" else
  let m := <[node := {| n_process := proc; n_next := 0 |}]> (rr_nodes s) in
  scan ← find_node (walk_fuel m) m (rr_head s) proc;
  if decide (scan <> 0) then
    k ← process_set_sched_state k proc PROCESS_READY;
    Ok ({| rr_nodes := delete node m; rr_head := rr_head s; rr_tail := rr_tail s; rr_current := rr_current s |}, k)
  else
  s ← rr_link s node proc;
  k ← process_set_sched_state k proc PROCESS_READY;
  Ok (s, k).

(** The found branch of [rr_remove_process]. *)
Definition rr_unlink (s : rr_state) (prev current : Z) : outcome rr_state :=
  x ← load_node (rr_nodes s) current;
  '(m, head, tail) ←
    (if decide (prev <> 0) then
       m ← set_next (rr_nodes s) prev (n_next x);
       Ok (m, rr_head s, if decide (current = rr_tail s) then prev else rr_tail s)
     else
       Ok (rr_nodes s, n_next x, if decide (n_next x = 0) then 0 else rr_tail s));
  let cur := if decide (rr_current s = current) then
               (if decide (n_next x = 0 /\ head <> 0) then head else n_next x)
             else rr_current s in
  Ok {| rr_nodes := delete current m; rr_head := head; rr_tail := tail; rr_current := cur |}.

(** [while (current)]: stops early should the list lead back to its head. *)
Fixpoint rr_remove_walk (fuel : nat) (s : rr_state) (prev current proc : Z) : outcome rr_state :=
  match fuel with
  | O => UB
  | S n =>
      if decide (current = 0) then Ok s else
      x ← load_node (rr_nodes s) current;
      if decide (n_process x = proc) then rr_unlink s prev current
      else if decide (n_next x = rr_head s) then Ok s
      else rr_remove_walk n s current (n_next x) proc
  end.

Definition rr_remove_process (s : rr_state) (proc : Z) : outcome rr_state :=
  if decide (proc = 0) then Ok s
  else rr_remove_walk (walk_fuel (rr_nodes s)) s 0 (rr_head s) proc.

(** [rr_current->next ? rr_current->next : rr_head] *)
Definition rr_advance (s : rr_state) (cur : Z) : outcome Z :=
  x ← load_node (rr_nodes s) cur; Ok (if decide (n_next x = 0) then rr_head s else n_next x).

(** [while (rr_current && attempts < RR_MAX_PICK_ATTEMPTS)] with [n] attempts left:
    the cursor and the last candidate. *)
Fixpoint rr_pick_walk (n : nat) (s : rr_state) (k : kern) (cur next : Z) : outcome (Z * Z) :=
  match n with
  | O => Ok (cur, next)
  | S n' =>
      if decide (cur = 0) then Ok (cur, next) else
      x ← load_node (rr_nodes s) cur;
      let cand := n_process x in
      ok ← (if decide (cand = 0) then Ok false else d ← load_proc k cand; Ok (is_runnable d));
      if ok : bool then Ok (cur, cand)
      else cur' ← rr_advance s cur; rr_pick_walk n' s k cur' cand
  end.

Definition rr_schedule_next (s : rr_state) (k : kern) : outcome (rr_state * kern) :=
  if decide (rr_head s = 0) then Ok (s, k) else
  cur ← (if decide (rr_current s = 0) then Ok (rr_head s) else rr_advance s (rr_current s));
  '(cur, next) ← rr_pick_walk RR_MAX_PICK_ATTEMPTS s k cur 0;
  let s := {| rr_nodes := rr_nodes s; rr_head := rr_head s; rr_tail := rr_tail s; rr_current := cur |} in
  if decide (cur = 0 \/ next = 0) then Ok (s, k) else
  d ← load_proc k next;
  if is_runnable d then k ← sched_context_switch_to k next; Ok (s, k) else Ok (s, k).

(** The [do ... while (walk && walk != rr_head)] count; a list that never
    returns to its head makes the second test redundant. *)
Fixpoint rr_count_walk (fuel : nat) (s : rr_state) (k : kern) (walk : Z) : outcome Z :=
  match fuel with
  | O => UB
  | S n =>
      x ← load_node (rr_nodes s) walk;
      c ← (if decide (n_process x = 0) then Ok false else d ← load_proc k (n_process x); Ok (counts d));
      r ← (if decide (n_next x = 0 \/ n_next x = rr_head s) then Ok 0 else rr_count_walk n s k (n_next x));
      Ok ((if c : bool then 1 else 0) + r)
  end.

Definition rr_count_runnable (s : rr_state) (k : kern) : outcome Z :=
  if decide (rr_head s = 0) then Ok 0 else rr_count_walk (walk_fuel (rr_nodes s)) s k (rr_head s).

Fixpoint rr_promote_walk (fuel : nat) (s : rr_state) (walk proc : Z) : outcome Z :=
  match fuel with
  | O => UB
  | S n =>
      if decide (walk = 0) then Ok 0 else
      x ← load_node (rr_nodes s) walk;
      if decide (n_process x = proc) then Ok walk
      else if decide (n_next x = rr_head s) then Ok 0
      else rr_promote_walk n s (n_next x) proc
  end.

Definition rr_promote_process (s : rr_state) (k : kern) (proc : Z) : outcome (rr_state * kern) :=
  if decide (proc = 0 \/ rr_head s = 0) then Ok (s, k) else
  walk ← rr_promote_walk (walk_fuel (rr_nodes s)) s (rr_head s) proc;
  if decide (walk = 0) then Ok (s, k) else
  k ← process_set_sched_state k proc PROCESS_READY;
  Ok ({| rr_nodes := rr_nodes s; rr_head := rr_head s; rr_tail := rr_tail s; rr_current := walk |}, k).

(** ** Invariant: the memory holds exactly the list, the cursor is on it *)

Record rr_ok (s : rr_state) (q : queue) : Prop := {
  rk_list : slseg (rr_nodes s) (rr_head s) q 0;
  rk_addrs : NoDup q.*1;
  rk_procs : NoDup q.*2;
  rk_nonnull : forall p, p ∈ q.*2 -> p <> 0;
  rk_tail : rr_tail s = last_addr q;
  rk_cursor : rr_current s = 0 \/ rr_current s ∈ q.*1;
  rk_dom : forall n, is_Some (rr_nodes s !! n) <-> n ∈ q.*1
}.

(** Every queued process exists. *)
Definition live_queue (k : kern) (q : queue) : Prop := forall p, p ∈ q.*2 -> is_Some (procs k !! p).

Lemma rr_ok_boot : rr_ok rr_boot [].
Proof.
  constructor; simpl; try (constructor; fail); auto.
  - by intros p ?%not_elem_of_nil.
  - intros n. rewrite lookup_empty. split; [by intros [? ?]|by intros ?%not_elem_of_nil].
Qed.

Lemma rr_ok_fuel s q : rr_ok s q -> (length q < walk_fuel (rr_nodes s))%nat.
Proof. intros []. apply queue_fuel; [done|]. intros n. apply rk_dom0. Qed.

Lemma rr_ok_addr s q n : rr_ok s q -> n ∈ q.*1 -> n <> 0.
Proof. intros [] Hn. by eapply slseg_in. Qed.

Lemma rr_head_spec s q : rr_ok s q -> rr_head s = first_addr q 0 /\ (rr_head s = 0 <-> q = []).
Proof.
  intros Hok. pose proof (slseg_first _ _ _ _ (rk_list _ _ Hok)) as ->. split; [done|].
  destruct q as [|[n p] q]; [done|]. simpl. split; [|done]. intros ->.
  by destruct (rr_ok_addr _ _ 0 Hok ltac:(by left)).
Qed.

Lemma set_state_ok k p st :
  is_Some (procs k !! p) -> st <> PROCESS_ZOMBIE ->
  exists k', process_set_sched_state k p st = Ok k' /\ current_process k' = current_process k /\
    first k' = first k /\ switches k' = switches k /\
    (forall x, is_Some (procs k' !! x) <-> is_Some (procs k !! x)) /\
    (forall x, x <> p -> procs k' !! x = procs k !! x) /\
    (p <> 0 -> exists d, procs k' !! p = Some d /\ state d = st).
Proof.
  intros [d Hd] Hst. unfold process_set_sched_state. case_decide as Hc.
  - destruct Hc as [->|?]; [|done]. exists k. splits; auto. done.
  - unfold load_proc. rewrite Hd. simpl. eexists. split; [reflexivity|]. simpl. splits; auto.
    + intros x. rewrite lookup_insert. case_decide; [subst; rewrite Hd; naive_solver|done].
    + intros x Hx. by rewrite lookup_insert_ne.
    + intros _. rewrite lookup_insert_eq. eauto.
Qed.

(** ** Insertion *)

Lemma last_addr_snoc q n p : last_addr (q ++ [(n, p)]) = n.
Proof. unfold last_addr. by rewrite last_snoc. Qed.

Lemma fresh_node s q node p :
  rr_ok s q -> rr_nodes s !! node = None ->
  let m := <[node := {| n_process := p; n_next := 0 |}]> (rr_nodes s) in
  (node ∉ q.*1) /\ slseg m (rr_head s) q 0 /\ (length q < walk_fuel m)%nat.
Proof.
  intros [] Hf m. assert (Hnin : node ∉ q.*1) by (rewrite <- rk_dom0, Hf; by intros [? ?]).
  assert (Hl : slseg m (rr_head s) q 0).
  { eapply slseg_frame; [|exact rk_list0]. intros x Hx. unfold m. rewrite lookup_insert_ne; [done|congruence]. }
  splits; auto. apply queue_fuel; [done|]. intros x Hx. by eapply slseg_in.
Qed.

Lemma rr_ok_appended s q node p s' :
  rr_ok s q -> p <> 0 -> (node ∉ q.*1) -> (p ∉ q.*2) -> rr_tail s' = node -> rr_current s' = rr_current s ->
  (forall x, is_Some (rr_nodes s' !! x) <-> x = node \/ is_Some (rr_nodes s !! x)) ->
  slseg (rr_nodes s') (rr_head s') (q ++ [(node, p)]) 0 -> rr_ok s' (q ++ [(node, p)]).
Proof.
  intros [] Hp Hn Hq Ht Hc Hd Hs. constructor; rewrite ?fmap_app; simpl; auto.
  - apply NoDup_app. splits; [done| |apply NoDup_singleton].
    intros x Hx Hy. apply list_elem_of_singleton in Hy as ->. done.
  - apply NoDup_app. splits; [done| |apply NoDup_singleton].
    intros x Hx Hy. apply list_elem_of_singleton in Hy as ->. done.
  - intros x Hx. apply elem_of_app in Hx as [Hx|Hx]; [auto|]. by apply list_elem_of_singleton in Hx as ->.
  - by rewrite last_addr_snoc.
  - rewrite Hc. destruct rk_cursor0; [by left|right; apply elem_of_app; by left].
  - intros x. rewrite Hd, rk_dom0, elem_of_app, list_elem_of_singleton. split; intros [?|?]; auto.
Qed.

Lemma rr_link_spec s q node p :
  rr_ok s q -> p <> 0 -> node <> 0 -> rr_nodes s !! node = None -> p ∉ q.*2 ->
  exists s', rr_link s node p = Ok s' /\ rr_ok s' (q ++ [(node, p)]) /\ rr_current s' = rr_current s.
Proof.
  intros Hok Hp0 Hn0 Hf Hq. destruct (fresh_node s q node p Hok Hf) as (Hnin & Hl & _).
  pose proof Hok as []. destruct (rr_head_spec _ _ Hok) as [Hh Hhe]. unfold rr_link.
  set (m := <[node := {| n_process := p; n_next := 0 |}]> (rr_nodes s)) in *.
  destruct (decide (rr_head s = 0)) as [Hh0|Hh0].
  - assert (q = []) by by apply Hhe. subst q.
    eexists. split; [reflexivity|]. split; [|done]. apply (rr_ok_appended s); simpl; auto.
    + intros x. unfold m. rewrite lookup_insert_is_Some'. split; intros [?|?]; auto.
    + splits; auto. exists 0. unfold m. by rewrite lookup_insert_eq.
  - destruct q as [|[n1 p1] q _] using rev_ind; [by destruct Hh0; apply Hhe|].
    rewrite last_addr_snoc in rk_tail0. rewrite rk_tail0.
    assert (Hl' := Hl). apply slseg_app in Hl' as (c & Hl1 & Hl2). simpl in Hl2.
    destruct Hl2 as (-> & Hn1 & nx & Hm1 & ->). unfold set_next, load_node. rewrite Hm1.
    cbn [mbind outcome_bind or_ub]. eexists. split; [reflexivity|]. split; [|done].
    assert (Hin : n1 ∈ (q ++ [(n1, p1)]).*1) by (rewrite fmap_app; apply elem_of_app; right; by left).
    assert (n1 <> node) by (intros ->; done).
    apply (rr_ok_appended s); simpl; auto.
    + intros x. unfold m. rewrite !lookup_insert_is_Some'. split.
      * intros [<-|[?|?]]; auto. right. by apply rk_dom0.
      * intros [?|?]; auto.
    + apply slseg_app. exists node. split; [by eapply slseg_snoc_set|]. simpl. splits; auto.
      exists 0. split; [|done]. rewrite lookup_insert_ne by done. unfold m. by rewrite lookup_insert_eq.
Qed.

Lemma rr_add_spec s k q node p :
  rr_ok s q -> is_Some (procs k !! p) -> p <> 0 -> node <> 0 -> rr_nodes s !! node = None ->
  exists s' k', rr_add_process s k node p = Ok (s', k') /\
    rr_ok s' (if decide (p ∈ q.*2) then q else q ++ [(node, p)]) /\ rr_current s' = rr_current s /\
    process_set_sched_state k p PROCESS_READY = Ok k'.
Proof.
  intros Hok Hp Hp0 Hn0 Hfresh. unfold rr_add_process. rewrite !decide_False by done.
  destruct (fresh_node s q node p Hok Hfresh) as (Hnin & Hl & Hfu).
  rewrite (find_node_spec _ _ _ _ _ Hl Hfu). cbn [mbind outcome_bind].
  destruct (set_state_ok k p PROCESS_READY Hp ltac:(done)) as (k' & Ek & _).
  pose proof (node_of_zero q p (fun n Hn => rr_ok_addr _ _ n Hok Hn)) as Hz.
  destruct (decide (p ∈ q.*2)) as [Hq|Hq].
  - rewrite decide_True by (intros E; by apply Hz in E). rewrite Ek. cbn [mbind outcome_bind].
    do 2 eexists. split; [reflexivity|]. split; [|done]. rewrite delete_insert_id by done. by destruct s.
  - rewrite decide_False by (intros E; apply E; by apply Hz).
    destruct (rr_link_spec s q node p Hok Hp0 Hn0 Hfresh Hq) as (s' & -> & Hok' & Hc). cbn [mbind outcome_bind].
    rewrite Ek. cbn [mbind outcome_bind]. exists s', k'. auto.
Qed.

(** ** Removal *)

Lemma last_addr_app a b : b <> [] -> last_addr (a ++ b) = last_addr b.
Proof.
  intros Hb. unfold last_addr. rewrite last_app. destruct (last b) as [[? ?]|] eqn:E; [done|].
  by apply last_None in E.
Qed.

Lemma last_addr_in q : q <> [] -> last_addr q ∈ q.*1.
Proof.
  intros Hq. destruct q as [|[n p] q _] using rev_ind; [done|].
  rewrite last_addr_snoc, fmap_app. apply elem_of_app. right. by left.
Qed.

(** The queue around one of its nodes. *)
Lemma rr_ok_middle s a n p b :
  rr_ok s (a ++ (n, p) :: b) ->
  n <> 0 /\ (n ∉ a.*1) /\ (n ∉ b.*1) /\ (p ∉ a.*2) /\ (p ∉ b.*2) /\ NoDup (a ++ b).*1 /\ NoDup (a ++ b).*2 /\
  rr_nodes s !! n = Some {| n_process := p; n_next := first_addr b 0 |} /\
  slseg (rr_nodes s) (rr_head s) a n /\ slseg (rr_nodes s) (first_addr b 0) b 0.
Proof.
  intros Hok. pose proof Hok as []. apply slseg_app in rk_list0 as (c & H1 & H2). simpl in H2.
  destruct H2 as (-> & Hn & nx & Hm & H2). pose proof (slseg_first _ _ _ _ H2) as ->.
  rewrite fmap_app in rk_addrs0, rk_procs0. simpl in *.
  apply NoDup_app in rk_addrs0 as (A1 & A2 & A3). apply NoDup_app in rk_procs0 as (P1 & P2 & P3).
  apply NoDup_cons in A3 as [A3 A4]. apply NoDup_cons in P3 as [P3 P4].
  rewrite !fmap_app. splits; auto.
  - intros Hx. apply (A2 n Hx). by left.
  - intros Hx. apply (P2 p Hx). by left.
  - apply NoDup_app. splits; auto. intros x Hx Hy. apply (A2 x Hx). by right.
  - apply NoDup_app. splits; auto. intros x Hx Hy. apply (P2 x Hx). by right.
Qed.

Lemma rr_ok_removed s a n p b m head tail cur :
  rr_ok s (a ++ (n, p) :: b) -> slseg m head (a ++ b) 0 -> tail = last_addr (a ++ b) ->
  (cur = 0 \/ cur ∈ (a ++ b).*1) ->
  (forall x, is_Some (m !! x) <-> x ∈ (a ++ b).*1) ->
  rr_ok {| rr_nodes := m; rr_head := head; rr_tail := tail; rr_current := cur |} (a ++ b).
Proof.
  intros Hok Hs Ht Hc Hd. destruct (rr_ok_middle _ _ _ _ _ Hok) as (_ & _ & _ & _ & _ & N1 & N2 & _).
  constructor; simpl; auto. intros x Hx. apply (rk_nonnull _ _ Hok). rewrite fmap_app in *. set_solver.
Qed.

Lemma first_addr_zero (q : queue) : (forall x, x ∈ q.*1 -> x <> 0) -> first_addr q 0 = 0 <-> q = [].
Proof.
  intros Hz. destruct q as [|[n p] q]; [done|]. simpl. split; [|done]. intros E. by destruct (Hz n); [left|].
Qed.

Lemma first_addr_in (q : queue) : first_addr q 0 = 0 \/ first_addr q 0 ∈ q.*1.
Proof. destruct q as [|[n p] q]; [by left|right; by left]. Qed.

(** The cursor of a removed node moves to its successor, or wraps to the head. *)
Lemma wrap_cursor (a b : queue) :
  (forall x, x ∈ a.*1 -> x <> 0) -> (forall x, x ∈ b.*1 -> x <> 0) ->
  (if decide (first_addr b 0 = 0 /\ first_addr (a ++ b) 0 <> 0) then first_addr (a ++ b) 0 else first_addr b 0) =
  first_addr (b ++ a) 0.
Proof.
  intros Ha Hb. destruct b as [|[nb pb] b']; simpl.
  - rewrite app_nil_r. destruct (decide _) as [[_ ?]|Hx]; [done|]. destruct a as [|[na pa] a']; [done|]. simpl in *.
    destruct Hx. split; [done|]. apply Ha. by left.
  - rewrite decide_False; [done|]. intros [? _]. destruct (Hb nb); [by left|done].
Qed.

Lemma rr_unlink_spec s a n p b :
  rr_ok s (a ++ (n, p) :: b) ->
  exists s', rr_unlink s (last_addr a) n = Ok s' /\ rr_ok s' (a ++ b) /\
    rr_current s' = (if decide (rr_current s = n) then first_addr (b ++ a) 0 else rr_current s).
Proof.
  intros Hok. destruct (rr_ok_middle _ _ _ _ _ Hok) as (Hn0 & Na & Nb & Pa & Pb & N1 & N2 & Hm & Ha & Hb).
  pose proof Hok as []. unfold rr_unlink, load_node. rewrite Hm. cbn [mbind outcome_bind or_ub n_next n_process].
  assert (Hbn : forall x, x ∈ b.*1 -> x <> 0) by (intros x Hx; eapply rr_ok_addr; [exact Hok|set_solver]).
  assert (Han : forall x, x ∈ a.*1 -> x <> 0) by (intros x Hx; eapply rr_ok_addr; [exact Hok|set_solver]).
  pose proof (first_addr_zero b Hbn) as Hb0. pose proof (wrap_cursor a b Han Hbn) as Hcs.
  assert (Hcur : let cur := if decide (rr_current s = n) then first_addr (b ++ a) 0 else rr_current s in
                 cur = 0 \/ cur ∈ (a ++ b).*1).
  { simpl. rewrite fmap_app. destruct (decide (rr_current s = n)) as [Hc|Hc].
    - destruct (first_addr_in (b ++ a)) as [?|Hx]; [by left|right]. rewrite fmap_app in Hx. set_solver.
    - destruct rk_cursor0 as [?|Hr]; [by left|right]. rewrite fmap_app in Hr. set_solver. }
  assert (Hdom : forall m : nodes, (forall x, is_Some (m !! x) <-> is_Some (rr_nodes s !! x)) ->
      forall x, is_Some (delete n m !! x) <-> x ∈ (a ++ b).*1).
  { intros m Hmd x. rewrite lookup_delete_is_Some, Hmd, rk_dom0, !fmap_app. simpl. set_solver. }
  destruct a as [|[n1 p1] a _] using rev_ind.
  - change (last_addr []) with 0. rewrite decide_False by (intros Hx; by apply Hx). cbn [mbind outcome_bind].
    simpl app in Hcs |- *. rewrite Hcs.
    eexists. split; [reflexivity|]. split; [|done].
    apply (rr_ok_removed s [] n p b); auto; simpl.
    + eapply slseg_frame; [|exact Hb]. intros x Hx. rewrite lookup_delete_ne; [done|]. intros ->. done.
    + rewrite rk_tail0. destruct b as [|[nb pb] b']; [done|]. rewrite decide_False by (rewrite Hb0; done).
      change ([] ++ (n, p) :: (nb, pb) :: b') with ([(n, p)] ++ (nb, pb) :: b'). by rewrite last_addr_app.
  - rewrite last_addr_snoc. rewrite decide_True by (apply Han; rewrite fmap_app; set_solver).
    pose proof Ha as Ha'. apply slseg_app in Ha as (c & Ha1 & Ha2). simpl in Ha2. destruct Ha2 as (-> & Hn1 & nx & Hm1 & ->).
    unfold set_next, load_node. rewrite Hm1. cbn [mbind outcome_bind or_ub].
    assert (Hne : n <> n1) by (intros ->; apply Na; rewrite fmap_app; set_solver).
    assert (Hh : rr_head s = first_addr ((a ++ [(n1, p1)]) ++ b) 0)
      by (destruct (rr_head_spec _ _ Hok) as [-> _]; by destruct a as [|[? ?] ?]).
    rewrite <- Hh in Hcs. rewrite Hcs.
    eexists. split; [reflexivity|]. split; [|done].
    apply (rr_ok_removed s (a ++ [(n1, p1)]) n p b); auto.
    + apply slseg_app. exists (first_addr b 0). split.
      * eapply slseg_frame; [|eapply (slseg_snoc_set (rr_nodes s) _ _ _ _ n); [exact Ha'|]].
        -- intros x Hx. rewrite lookup_delete_ne; [done|]. intros ->. done.
        -- rewrite fmap_app in N1. by apply NoDup_app in N1 as (? & _).
      * eapply slseg_frame; [|exact Hb]. intros x Hx. rewrite lookup_delete_ne by (intros ->; done).
        rewrite lookup_insert_ne; [done|]. intros ->. rewrite fmap_app in N1.
        apply NoDup_app in N1 as (_ & Hd & _). apply (Hd x); [rewrite fmap_app; set_solver|done].
    + rewrite rk_tail0. destruct b as [|[nb pb] b'].
      * rewrite app_nil_r, !last_addr_snoc. by rewrite decide_True.
      * rewrite (last_addr_app (a ++ [(n1, p1)]) ((nb, pb) :: b')) by done.
        change ((n, p) :: (nb, pb) :: b') with ([(n, p)] ++ (nb, pb) :: b').
        rewrite !(last_addr_app _ ([(n, p)] ++ _)), last_addr_app by done.
        rewrite decide_False; [done|]. intros ->. apply Nb. by apply last_addr_in.
    + apply Hdom. intros x. rewrite lookup_insert_is_Some'. split; [intros [<-|?]; [by rewrite Hm1|done]|auto].
Qed.

Lemma rr_remove_walk_found fuel s a0 a n p b :
  rr_ok s (a0 ++ a ++ (n, p) :: b) -> (length a < fuel)%nat ->
  rr_remove_walk fuel s (last_addr a0) (first_addr (a ++ (n, p) :: b) 0) p = rr_unlink s (last_addr (a0 ++ a)) n.
Proof.
  revert a0 a. induction fuel as [|fuel IH]; intros a0 a Hok Hf; [lia|]. simpl.
  destruct a as [|[n' p'] a]; simpl.
  - rewrite app_nil_r in *. destruct (rr_ok_middle _ _ _ _ _ Hok) as (Hn & _ & _ & _ & _ & _ & _ & Hm & _).
    rewrite decide_False by done. unfold load_node at 1. rewrite Hm. simpl. by rewrite decide_True.
  - pose proof Hok as Hok'. simpl in Hok'.
    destruct (rr_ok_middle _ _ _ _ _ Hok') as (Hn & _ & Hnb & _ & Hp & _ & _ & Hm & _).
    rewrite decide_False by done. unfold load_node. rewrite Hm. simpl.
    rewrite decide_False by (intros ->; apply Hp; rewrite fmap_app; set_solver).
    rewrite decide_False.
    2: { destruct (rr_head_spec _ _ Hok') as [-> _]. destruct (first_addr_in (a ++ (n, p) :: b)) as [Hx|Hx].
         - destruct (rr_ok_addr _ _ (first_addr (a ++ (n, p) :: b) 0) Hok'); [|done].
           destruct a as [|[? ?] ?]; simpl; rewrite fmap_app; simpl; set_solver.
         - pose proof (rk_addrs _ _ Hok') as Hnd. rewrite fmap_app in Hnd. simpl in Hnd. apply NoDup_app in Hnd as (_ & Hd & _).
           destruct a0 as [|[m0 p0] a0]; simpl; [by intros <-|]. intros E. rewrite E in Hx.
           apply (Hd m0); simpl; [by left|by right]. }
    replace (a0 ++ (n', p') :: a) with ((a0 ++ [(n', p')]) ++ a) by by rewrite <- app_assoc.
    rewrite <- (IH (a0 ++ [(n', p')]) a); [by rewrite last_addr_snoc|by rewrite <- app_assoc|simpl in *; lia].
Qed.

Lemma rr_remove_walk_absent fuel s a0 a p :
  rr_ok s (a0 ++ a) -> p ∉ a.*2 -> (length a < fuel)%nat ->
  rr_remove_walk fuel s (last_addr a0) (first_addr a 0) p = Ok s.
Proof.
  revert a0 a. induction fuel as [|fuel IH]; intros a0 a Hok Hp Hf; [lia|]. simpl.
  destruct a as [|[n' p'] a]; simpl; [done|]. simpl in Hp. rewrite not_elem_of_cons in Hp. destruct Hp as [Hp1 Hp2].
  destruct (rr_ok_middle _ _ _ _ _ Hok) as (Hn & _ & _ & _ & _ & _ & _ & Hm & _).
  rewrite decide_False by done. unfold load_node. rewrite Hm. simpl. rewrite decide_False by done.
  case_decide; [done|]. rewrite <- (IH (a0 ++ [(n', p')]) a); [by rewrite last_addr_snoc|by rewrite <- app_assoc|done|simpl in *; lia].
Qed.

Lemma rr_remove_spec s q p :
  rr_ok s q -> p <> 0 ->
  exists s', rr_remove_process s p = Ok s' /\ rr_ok s' (filter (fun x : Z * Z => x.2 <> p) q) /\
    (forall a n b, q = a ++ (n, p) :: b ->
       rr_current s' = if decide (rr_current s = n) then first_addr (b ++ a) 0 else rr_current s) /\
    (p ∉ q.*2 -> s' = s).
Proof.
  intros Hok Hp0. unfold rr_remove_process. rewrite decide_False by done.
  destruct (rr_head_spec _ _ Hok) as [-> _]. pose proof (rr_ok_fuel _ _ Hok) as Hf.
  destruct (decide (p ∈ q.*2)) as [Hin|Hnin].
  - destruct (queue_split _ _ Hin) as (a & n & b & -> & Ha). rewrite length_app in Hf.
    change 0 with (last_addr []) at 1. rewrite (rr_remove_walk_found _ s []) by (auto; lia). simpl.
    destruct (rr_unlink_spec _ _ _ _ _ Hok) as (s' & -> & Hok' & Hc). exists s'.
    destruct (rr_ok_middle _ _ _ _ _ Hok) as (_ & _ & _ & Hpa & Hpb & _).
    splits; auto.
    + rewrite filter_app, filter_cons, decide_False by (simpl; naive_solver). by rewrite !filter_absent.
    + intros a' n' b' E. assert (a' = a /\ n' = n /\ b' = b) as (-> & -> & ->); [|done].
      pose proof (rk_procs _ _ Hok) as Hnd. clear -E Hnd Hpa. revert a' E Hpa.
      induction a as [|[m1 p1] a IH]; intros [|[m2 p2] a'] E Ha; simpl in *; simplify_eq; auto.
      * exfalso. apply NoDup_cons in Hnd as [Hx _]. apply Hx. rewrite fmap_app. set_solver.
      * exfalso. apply Ha. by left.
      * apply NoDup_cons in Hnd as [_ Hnd]. rewrite not_elem_of_cons in Ha.
        destruct (IH Hnd a') as (-> & -> & ->); [done|naive_solver|done].
    + done.
  - exists s. change 0 with (last_addr []) at 1. rewrite (rr_remove_walk_absent _ s [] q) by auto.
    splits; auto.
    + by rewrite filter_absent.
    + intros a n b ->. destruct Hnin. rewrite fmap_app. set_solver.
Qed.

(** ** Picking the next process *)

Definition rotation (q r : queue) : Prop := exists a b, q = a ++ b /\ r = b ++ a.

(** The queue in the order the next pick examines it: from the node after the
    cursor round to the cursor itself. *)
Definition upcoming (s : rr_state) (q : queue) : queue :=
  match list_find (fun x : Z * Z => x.1 = rr_current s) q with
  | Some (i, _) => drop (S i) q ++ take (S i) q
  | None => q
  end.

Lemma rotation_step q x r : rotation q (x :: r) -> rotation q (r ++ [x]).
Proof.
  intros (a & b & -> & E). destruct b as [|y b]; simpl in E.
  - subst a. exists [x], r. by rewrite app_nil_r.
  - injection E as -> ->. exists (a ++ [y]), b. by rewrite <- !app_assoc.
Qed.

Lemma rotation_in q r x : rotation q r -> x ∈ q <-> x ∈ r.
Proof. intros (a & b & -> & ->). rewrite !elem_of_app. tauto. Qed.

Lemma rotation_upcoming s q : rotation q (upcoming s q).
Proof.
  unfold upcoming. destruct (list_find _ q) as [[i x]|].
  - exists (take (S i) q), (drop (S i) q). by rewrite take_drop.
  - exists [], q. by rewrite app_nil_r.
Qed.

Lemma upcoming_at s a n p b :
  rr_ok s (a ++ (n, p) :: b) -> rr_current s = n ->
  upcoming s (a ++ (n, p) :: b) = b ++ a ++ [(n, p)].
Proof.
  intros Hok Hc. destruct (rr_ok_middle _ _ _ _ _ Hok) as (_ & Hna & _). unfold upcoming.
  rewrite list_find_app_r.
  - simpl. rewrite decide_True by done. cbn -[take drop].
    rewrite drop_app_ge, take_app_ge by lia. replace (S (length a) - length a)%nat with 1%nat by lia. done.
  - apply list_find_None, Forall_forall. intros x Hx E. apply Hna. rewrite <- Hc, <- E. by apply list_elem_of_fmap_2.
Qed.

Lemma rr_advance_spec s a n p b :
  rr_ok s (a ++ (n, p) :: b) -> rr_advance s n = Ok (first_addr (b ++ a ++ [(n, p)]) 0).
Proof.
  intros Hok. destruct (rr_ok_middle _ _ _ _ _ Hok) as (_ & _ & _ & _ & _ & _ & _ & Hm & _).
  unfold rr_advance, load_node. rewrite Hm. simpl. destruct (rr_head_spec _ _ Hok) as [-> _].
  destruct b as [|[nb pb] b]; simpl.
  - by destruct a as [|[? ?] ?].
  - rewrite decide_False; [done|]. eapply rr_ok_addr; [exact Hok|]. rewrite fmap_app. simpl. set_solver.
Qed.

Lemma rotation_advance s q n p r :
  rr_ok s q -> rotation q ((n, p) :: r) -> rr_advance s n = Ok (first_addr (r ++ [(n, p)]) 0).
Proof.
  intros Hok (a & b & -> & E). destruct b as [|y b]; simpl in E.
  - subst a. rewrite app_nil_r in Hok. by apply (rr_advance_spec s [] n p r).
  - injection E as <- ->. by rewrite (rr_advance_spec _ _ _ _ _ Hok), <- app_assoc.
Qed.

(** What a node of the queue looks like to the pick loop. *)
Lemma rotation_head s k q n p r :
  rr_ok s q -> live_queue k q -> rotation q ((n, p) :: r) ->
  n <> 0 /\ p <> 0 /\ exists nx d, rr_nodes s !! n = Some {| n_process := p; n_next := nx |} /\
    procs k !! p = Some d /\ is_runnable d = runnable k p.
Proof.
  intros Hok Hl Hr. assert (Hin : (n, p) ∈ q) by (apply (rotation_in _ _ _ Hr); by left).
  apply list_elem_of_split in Hin as (a & b & ->).
  destruct (rr_ok_middle _ _ _ _ _ Hok) as (Hn & _ & _ & _ & _ & _ & _ & Hm & _).
  assert (Hp : p ∈ (a ++ (n, p) :: b).*2) by (rewrite fmap_app; set_solver).
  destruct (Hl p Hp) as [d Hd]. splits; [done|by apply (rk_nonnull _ _ Hok)|].
  exists (first_addr b 0), d. unfold runnable, is_runnable. by rewrite Hd.
Qed.

Section pick.
Context (s : rr_state) (k : kern) (q : queue).
Hypothesis Hok : rr_ok s q.
Hypothesis Hlive : live_queue k q.

Lemma rr_pick_walk_step n r x nx :
  rotation q (x :: r) ->
  rr_pick_walk (S n) s k (first_addr (x :: r) 0) nx =
  if runnable k x.2 then Ok (x.1, x.2) else rr_pick_walk n s k (first_addr (r ++ [x]) 0) x.2.
Proof.
  destruct x as [a p]. intros Hr. destruct (rotation_head _ _ _ _ _ _ Hok Hlive Hr) as (Ha & Hp & nxt & d & Hm & Hd & Hrun).
  cbn [rr_pick_walk first_addr fst snd]. rewrite decide_False by done. unfold load_node. rewrite Hm.
  cbn [mbind outcome_bind or_ub n_process]. rewrite decide_False by done. unfold load_proc. rewrite Hd.
  cbn [mbind outcome_bind or_ub]. rewrite Hrun. destruct (runnable k p); [done|].
  rewrite (rotation_advance _ _ _ _ _ Hok Hr). done.
Qed.

Lemma rr_pick_walk_found n r1 x r2 nx :
  rotation q (r1 ++ x :: r2) -> (forall y, y ∈ r1 -> runnable k y.2 = false) -> runnable k x.2 = true ->
  (length r1 < n)%nat -> rr_pick_walk n s k (first_addr (r1 ++ x :: r2) 0) nx = Ok (x.1, x.2).
Proof.
  revert n r2 nx. induction r1 as [|y r1 IH]; intros [|n] r2 nx Hr Hn Hx Hlt; simpl in Hlt; try lia.
  - rewrite (rr_pick_walk_step _ _ _ _ Hr), Hx. done.
  - simpl app in Hr |- *. rewrite (rr_pick_walk_step _ _ _ _ Hr), Hn by (by left).
    rewrite <- app_assoc. simpl. apply IH; [|intros z Hz; apply Hn; by right|done|lia].
    apply rotation_step in Hr. by rewrite <- app_assoc in Hr.
Qed.

(** If nothing is runnable, the walk ends on a node of the queue whose last
    candidate is not runnable either. *)
Lemma rr_pick_walk_none n r nx :
  rotation q r -> r <> [] -> (forall y, y ∈ r -> runnable k y.2 = false) ->
  exists cur nx', rr_pick_walk n s k (first_addr r 0) nx = Ok (cur, nx') /\ cur ∈ q.*1 /\
    (nx' = nx \/ (nx' ∈ q.*2 /\ runnable k nx' = false)).
Proof.
  revert r nx. induction n as [|n IH]; intros r nx Hr Hne Hn; destruct r as [|x r]; try done.
  - exists (first_addr (x :: r) 0), nx. split; [done|]. split; [|by left]. destruct x as [a p]. simpl.
    apply (list_elem_of_fmap_2 fst q (a, p)). apply (rotation_in _ _ _ Hr). by left.
  - rewrite (rr_pick_walk_step _ _ _ _ Hr), Hn by (by left).
    assert (Hxq : x ∈ q) by (apply (rotation_in _ _ _ Hr); by left).
    destruct (IH (r ++ [x]) x.2 (rotation_step _ _ _ Hr)) as (cur & nx' & -> & Hc & Hnx).
    + by destruct r.
    + intros y Hy. apply Hn. set_solver.
    + exists cur, nx'. split; [done|]. split; [done|]. right. destruct Hnx as [->|?]; [|done].
      split; [by apply list_elem_of_fmap_2|]. apply Hn. by left.
Qed.
End pick.

Lemma upcoming_start s q :
  rr_ok s q -> q <> [] ->
  (if decide (rr_current s = 0) then Ok (rr_head s) else rr_advance s (rr_current s)) = Ok (first_addr (upcoming s q) 0).
Proof.
  intros Hok Hq. destruct (decide (rr_current s = 0)) as [Hc|Hc].
  - destruct (rr_head_spec _ _ Hok) as [-> _]. unfold upcoming.
    destruct (list_find _ q) as [[i [n p]]|] eqn:E; [|done].
    apply list_find_Some in E as (Hi & Hx & _). simpl in Hx. subst n.
    destruct (rr_ok_addr _ _ (rr_current s) Hok); [|done]. apply (list_elem_of_fmap_2 fst q (rr_current s, p)).
    by eapply list_elem_of_lookup_2.
  - destruct (rk_cursor _ _ Hok) as [?|Hin]; [done|]. destruct (queue_addr_split _ _ Hin) as (a & p & b & E).
    rewrite E in Hok |- *. rewrite (rr_advance_spec _ _ _ _ _ Hok), (upcoming_at _ _ (rr_current s)) by done. done.
Qed.

Lemma rr_ok_cursor s q cur : rr_ok s q -> cur = 0 \/ cur ∈ q.*1 ->
  rr_ok {| rr_nodes := rr_nodes s; rr_head := rr_head s; rr_tail := rr_tail s; rr_current := cur |} q.
Proof. intros [] Hc. by constructor. Qed.

Lemma rr_schedule_next_found s k q o1 x o2 :
  rr_ok s q -> live_queue k q -> upcoming s q = o1 ++ x :: o2 ->
  (forall y, y ∈ o1 -> runnable k y.2 = false) -> runnable k x.2 = true ->
  (length o1 < RR_MAX_PICK_ATTEMPTS)%nat ->
  exists s', rr_schedule_next s k = (k' ← sched_context_switch_to k x.2; Ok (s', k')) /\
    rr_ok s' q /\ rr_current s' = x.1 /\ x ∈ q.
Proof.
  intros Hok Hl Hu Hn Hx Hlen. pose proof (rotation_upcoming s q) as Hrot. rewrite Hu in Hrot.
  assert (Hxq : x ∈ q) by (apply (rotation_in _ _ _ Hrot); set_solver).
  assert (Hq : q <> []) by (intros ->; by apply not_elem_of_nil in Hxq).
  destruct (rr_head_spec _ _ Hok) as [_ Hh]. unfold rr_schedule_next. rewrite decide_False by (by rewrite Hh).
  rewrite (upcoming_start _ _ Hok Hq), Hu. cbn [mbind outcome_bind].
  rewrite (rr_pick_walk_found s k q Hok Hl) by done. cbn [mbind outcome_bind].
  assert (Ha : x.1 ∈ q.*1) by by apply list_elem_of_fmap_2.
  assert (Hp : x.2 ∈ q.*2) by by apply list_elem_of_fmap_2.
  rewrite decide_False by (intros [E|E]; [by eapply rr_ok_addr|by apply (rk_nonnull _ _ Hok) in Hp]).
  destruct (Hl _ Hp) as [d Hd]. unfold load_proc. rewrite Hd. cbn [mbind outcome_bind or_ub].
  unfold runnable in Hx. rewrite Hd in Hx. unfold is_runnable. rewrite Hx.
  eexists. split; [reflexivity|]. split; [|done]. apply rr_ok_cursor; auto.
Qed.

Lemma rr_schedule_next_idle s k q :
  rr_ok s q -> live_queue k q -> (forall p, p ∈ q.*2 -> runnable k p = false) ->
  exists s', rr_schedule_next s k = Ok (s', k) /\ rr_ok s' q.
Proof.
  intros Hok Hl Hn. destruct (rr_head_spec _ _ Hok) as [_ Hh]. unfold rr_schedule_next.
  destruct (decide (rr_head s = 0)) as [H0|H0]; [eauto|].
  assert (Hq : q <> []) by (by rewrite <- Hh). pose proof (rotation_upcoming s q) as Hrot.
  assert (Hru : forall y, y ∈ upcoming s q -> runnable k y.2 = false).
  { intros y Hy. apply Hn, list_elem_of_fmap_2. by apply (rotation_in _ _ _ Hrot). }
  rewrite (upcoming_start _ _ Hok Hq). cbn [mbind outcome_bind].
  destruct (rr_pick_walk_none s k q Hok Hl RR_MAX_PICK_ATTEMPTS (upcoming s q) 0 Hrot) as (cur & nx & -> & Hc & Hnx); [|done|].
  { intros E. destruct Hrot as (a & b & -> & E'). rewrite E in E'. symmetry in E'. apply app_eq_nil in E' as [-> ->]. done. }
  cbn [mbind outcome_bind]. case_decide as Hd; [eexists; split; [reflexivity|]; apply rr_ok_cursor; auto|].
  destruct Hnx as [->|[Hin Hr]]; [naive_solver|]. destruct (Hl _ Hin) as [d Hdd]. unfold load_proc. rewrite Hdd.
  cbn [mbind outcome_bind or_ub]. unfold runnable in Hr. rewrite Hdd in Hr. unfold is_runnable. rewrite Hr.
  eexists. split; [reflexivity|]. apply rr_ok_cursor; auto.
Qed.

(** ** Rounds *)

Lemma rotation_cons_unique q a b x r :
  NoDup q -> q = a ++ x :: b -> rotation q (x :: r) -> r = b ++ a.
Proof.
  intros Hnd -> (a' & b' & E & E'). destruct b' as [|y b']; simpl in E'.
  - subst a'. rewrite app_nil_r in E. change (x :: r) with ([] ++ x :: r) in E.
    destruct (NoDup_split_unique _ _ _ _ _ Hnd E) as [-> ->]. by rewrite app_nil_r.
  - injection E' as <- ->. by destruct (NoDup_split_unique _ _ _ _ _ Hnd E) as [-> ->].
Qed.

(** Moving the cursor to the first upcoming node rotates the order by one. *)
Lemma upcoming_advance s s' q x r :
  rr_ok s q -> rr_ok s' q -> upcoming s q = x :: r -> rr_current s' = x.1 -> upcoming s' q = r ++ [x].
Proof.
  intros Hok Hok' Hu Hc. pose proof (rotation_upcoming s q) as Hrot. rewrite Hu in Hrot.
  assert (Hin : x ∈ q) by (apply (rotation_in _ _ _ Hrot); by left).
  apply list_elem_of_split in Hin as (a & b & E). destruct x as [n p]. simpl in Hc.
  assert (Hnd : NoDup q) by (eapply NoDup_fmap_1; apply (rk_addrs _ _ Hok)).
  rewrite (rotation_cons_unique _ _ _ _ _ Hnd E Hrot). rewrite E in Hok' |- *.
  rewrite (upcoming_at _ _ _ _ _ Hok' Hc). by rewrite <- app_assoc.
Qed.

(** [n] consecutive scheduling passes, and the process each one leaves current. *)
Fixpoint rr_rounds (n : nat) (s : rr_state) (k : kern) : outcome (list Z * rr_state * kern) :=
  match n with
  | O => Ok ([], s, k)
  | S m => '(s, k) ← rr_schedule_next s k;
           let p := current_process k in
           '(ps, s, k) ← rr_rounds m s k;
           Ok (p :: ps, s, k)
  end.

Lemma live_queue_mild k k' q : mild k k' -> live_queue k q -> live_queue k' q.
Proof.
  intros Hm Hl p Hp. apply not_eq_None_Some. rewrite (mi_dom _ _ Hm). by apply not_eq_None_Some, Hl.
Qed.

Lemma rr_rounds_spec n s k q :
  rr_ok s q -> live_queue k q -> kern_ok k -> (forall p, p ∈ q.*2 -> runnable k p = true) -> (n <= length q)%nat ->
  exists s' k', rr_rounds n s k = Ok (take n (upcoming s q).*2, s', k') /\ rr_ok s' q /\ kern_ok k'.
Proof.
  assert (Hgen : forall n s k, rr_ok s q -> live_queue k q -> kern_ok k -> (forall p, p ∈ q.*2 -> runnable k p = true) ->
     forall o1 o2, upcoming s q = o1 ++ o2 -> length o1 = n ->
     exists s' k', rr_rounds n s k = Ok (o1.*2, s', k') /\ rr_ok s' q /\ kern_ok k').
  { clear. induction n as [|n IH]; intros s k Hok Hl Hk Hr o1 o2 Hu Hn.
    - destruct o1; [|done]. exists s, k. done.
    - destruct o1 as [|x o1]; [done|]. simpl in Hn. injection Hn as Hn.
      assert (Hx : x ∈ q) by (apply (rotation_in _ _ _ (rotation_upcoming s q)); rewrite Hu; by left).
      assert (Hxr : runnable k x.2 = true) by (apply Hr; by apply list_elem_of_fmap_2).
      destruct (rr_schedule_next_found s k q [] x (o1 ++ o2) Hok Hl Hu) as (s1 & E1 & Hok1 & Hc1 & _);
        [by intros y ?%not_elem_of_nil|done|unfold RR_MAX_PICK_ATTEMPTS; simpl; lia|].
      destruct (switch_spec k x.2 Hk Hxr) as (k1 & E2 & Hk1 & Hm1 & Hc & _).
      simpl rr_rounds. rewrite E1, E2. cbn [mbind outcome_bind].
      destruct (IH s1 k1 Hok1 (live_queue_mild _ _ _ Hm1 Hl) Hk1) with (o1 := o1) (o2 := o2 ++ [x]) as (s' & k' & -> & ? & ?).
      + intros p Hp. rewrite (mi_runnable _ _ Hm1). auto.
      + rewrite (upcoming_advance s s1 q x (o1 ++ o2) Hok Hok1 Hu Hc1). by rewrite app_assoc.
      + done.
      + cbn [mbind outcome_bind]. rewrite Hc. eauto. }
  intros Hok Hl Hk Hr Hn. pose proof (rotation_upcoming s q) as (a & b & E & Eu).
  destruct (Hgen n s k Hok Hl Hk Hr (take n (upcoming s q)) (drop n (upcoming s q))) as (s' & k' & H1 & H2 & H3).
  - by rewrite take_drop.
  - rewrite length_take, Eu, length_app. rewrite E, length_app in Hn. lia.
  - exists s', k'. split; [by rewrite <- fmap_take|done].
Qed.

(** ** Properties *)

(** C21: with a consistent ready list of at most 100 processes, one scheduling
    pass examines the processes in cyclic order from the one after the cursor.
    If some process is runnable it switches to the first such one: that
    process becomes the current and only RUNNING process, the list is
    unchanged and the cursor is on it.  If none is, nothing is switched and the
    machine state is untouched. *)
Theorem rr_schedule_next_correct s k q :
  rr_ok s q -> live_queue k q -> kern_ok k -> (length q <= RR_MAX_PICK_ATTEMPTS)%nat ->
  (exists o1 x o2 s' k', upcoming s q = o1 ++ x :: o2 /\ (forall y, y ∈ o1 -> runnable k y.2 = false) /\
     runnable k x.2 = true /\ rr_schedule_next s k = Ok (s', k') /\ rr_ok s' q /\ rr_current s' = x.1 /\
     kern_ok k' /\ current_process k' = x.2) \/
  ((forall p, p ∈ q.*2 -> runnable k p = false) /\ exists s', rr_schedule_next s k = Ok (s', k) /\ rr_ok s' q).
Proof.
  intros Hok Hl Hk Hlen. pose proof (rotation_upcoming s q) as Hrot.
  destruct (list_find (fun x : Z * Z => runnable k x.2 = true) (upcoming s q)) as [[i x]|] eqn:E.
  - left. apply list_find_Some in E as (Hi & Hx & Hbefore).
    assert (Hu : upcoming s q = take i (upcoming s q) ++ x :: drop (S i) (upcoming s q)) by (by rewrite take_drop_middle).
    assert (Hn : forall y, y ∈ take i (upcoming s q) -> runnable k y.2 = false).
    { intros y Hy. apply list_elem_of_lookup_1 in Hy as [j Hj]. pose proof (lookup_lt_Some _ _ _ Hj) as Hlt.
      rewrite length_take in Hlt. rewrite lookup_take_lt in Hj by lia. apply not_true_iff_false.
      eapply Hbefore; [exact Hj|lia]. }
    assert (Hl2 : (length (take i (upcoming s q)) < RR_MAX_PICK_ATTEMPTS)%nat).
    { apply lookup_lt_Some in Hi. rewrite length_take. destruct Hrot as (a & b & -> & Eu). rewrite Eu in Hi |- *.
      rewrite length_app in *. lia. }
    destruct (rr_schedule_next_found s k q _ _ _ Hok Hl Hu Hn Hx Hl2) as (s' & E1 & Hok' & Hc' & _).
    destruct (switch_spec k x.2 Hk Hx) as (k' & E2 & Hk' & _ & Hc & _).
    exists (take i (upcoming s q)), x, (drop (S i) (upcoming s q)), s', k'. rewrite E1, E2. splits; auto.
  - right. apply list_find_None in E. rewrite Forall_forall in E.
    assert (Hn : forall p, p ∈ q.*2 -> runnable k p = false).
    { intros p Hp. apply list_elem_of_fmap in Hp as (x & -> & Hx). apply not_true_iff_false, E. by apply (rotation_in _ _ _ Hrot). }
    split; [done|]. by apply rr_schedule_next_idle.
Qed.

(** C22: round-robin fairness: when every queued process is runnable, as many
    consecutive passes as there are processes run each of them exactly once, in
    queue order starting after the cursor (whatever the queue length). *)
Theorem rr_fair s k q :
  rr_ok s q -> live_queue k q -> kern_ok k -> (forall p, p ∈ q.*2 -> runnable k p = true) ->
  exists ps s' k', rr_rounds (length q) s k = Ok (ps, s', k') /\ ps = (upcoming s q).*2 /\ ps ≡ₚ q.*2 /\
    rr_ok s' q /\ kern_ok k'.
Proof.
  intros Hok Hl Hk Hr. destruct (rr_rounds_spec (length q) s k q Hok Hl Hk Hr) as (s' & k' & E & ? & ?); [done|].
  pose proof (rotation_upcoming s q) as (a & b & Eq & Eu).
  assert (Ht : take (length q) (upcoming s q).*2 = (upcoming s q).*2).
  { apply take_ge. rewrite length_fmap, Eu, Eq, !length_app. lia. }
  rewrite Ht in E. exists (upcoming s q).*2, s', k'. splits; auto. rewrite Eu, Eq, !fmap_app. apply Permutation_app_comm.
Qed.

(** The ready list is a duplicate-free FIFO.  Adding appends a process that
    is not queued and otherwise only marks it READY, leaking no node; removing
    takes out exactly that process, keeps the others in order and moves the
    cursor off a removed node to its successor (wrapping to the head); the node memory always
    holds exactly the queue. *)
Theorem rr_queue_ops s k q node p :
  rr_ok s q -> kern_ok k -> is_Some (procs k !! p) -> node <> 0 -> rr_nodes s !! node = None ->
  (exists s' k', rr_add_process s k node p = Ok (s', k') /\ kern_ok k' /\ runnable k' p = true /\
     rr_ok s' (if decide (p ∈ q.*2) then q else q ++ [(node, p)]) /\ rr_current s' = rr_current s) /\
  (exists s', rr_remove_process s p = Ok s' /\ rr_ok s' (filter (fun x : Z * Z => x.2 <> p) q) /\
     (p ∉ q.*2 -> s' = s) /\
     forall a n b, q = a ++ (n, p) :: b ->
       rr_current s' = if decide (rr_current s = n) then first_addr (b ++ a) 0 else rr_current s).
Proof.
  intros Hok Hk Hp Hn Hf. assert (Hp0 : p <> 0) by (intros ->; rewrite (ko_null _ Hk) in Hp; by destruct Hp).
  split.
  - destruct (rr_add_spec s k q node p Hok Hp Hp0 Hn Hf) as (s' & k' & E & Hok' & Hc & Ek).
    destruct (wake_spec k p Hk Hp) as (k1 & Ek1 & ? & _ & _ & _ & ? & _). rewrite Ek in Ek1. injection Ek1 as <-.
    exists s', k'. auto.
  - destruct (rr_remove_spec s q p Hok Hp0) as (s' & ? & ? & ? & ?). eauto 10.
Qed.

(** ** Concrete run: two processes queued at boot *)

Definition demo_rr : rr_state :=
  match ('(s, k) ← rr_add_process rr_boot demo_kern 1000 100; rr_add_process s k 1016 200) with
  | Ok (s, _) => s | _ => rr_boot end.
Definition demo_q : queue := [(1000, 100); (1016, 200)].

Lemma demo_rr_ok : rr_ok demo_rr demo_q.
Proof.
  destruct (rr_add_spec rr_boot demo_kern [] 1000 100 rr_ok_boot) as (s1 & k1 & E1 & H1 & _); [by eexists|done..|].
  destruct (rr_add_spec s1 demo_kern [(1000, 100)] 1016 200 H1) as (s2 & k2 & E2 & H2 & _); [by eexists|done|done| |].
  { vm_compute in E1. injection E1 as <- _. reflexivity. }
  vm_compute in E1. injection E1 as <- _. vm_compute in E2. injection E2 as <- _. exact H2.
Qed.

Lemma demo_live : live_queue demo_kern demo_q.
Proof. intros p Hp. apply elem_of_cons in Hp as [->|Hp]; [by eexists|]. apply list_elem_of_singleton in Hp as ->. by eexists. Qed.

Lemma demo_runnable p : p ∈ demo_q.*2 -> runnable demo_kern p = true.
Proof. intros Hp. apply elem_of_cons in Hp as [->|Hp]; [done|]. by apply list_elem_of_singleton in Hp as ->. Qed.

Lemma rr_schedule_next_correct_witness :
  rr_ok demo_rr demo_q /\ live_queue demo_kern demo_q /\ kern_ok demo_kern /\
  exists s' k', rr_schedule_next demo_rr demo_kern = Ok (s', k') /\ current_process k' = 100 /\ kern_ok k'.
Proof.
  split; [exact demo_rr_ok|]. split; [exact demo_live|]. split; [exact demo_kern_ok|].
  destruct (rr_schedule_next_correct demo_rr demo_kern demo_q demo_rr_ok demo_live demo_kern_ok) as
    [(o1 & x & o2 & s' & k' & _ & _ & _ & E & _ & _ & Hk & _)|[Hn _]].
  - apply (proj1 (Nat.leb_le 2 100)). reflexivity.
  - exists s', k'. split; [done|]. split; [|done].
    assert (Hc : match rr_schedule_next demo_rr demo_kern with Ok (_, k1) => current_process k1 | _ => 0 end = 100) by (vm_compute; reflexivity).
    rewrite E in Hc. exact Hc.
  - specialize (Hn 100 ltac:(by left)). discriminate.
Defined.

Lemma rr_fair_witness :
  exists ps s' k', rr_rounds 2 demo_rr demo_kern = Ok (ps, s', k') /\ ps = [100; 200] /\ rr_ok s' demo_q.
Proof.
  destruct (rr_fair demo_rr demo_kern demo_q demo_rr_ok demo_live demo_kern_ok demo_runnable) as (ps & s' & k' & E & Hps & _ & Hok & _).
  exists ps, s', k'. split; [exact E|]. split; [|exact Hok]. rewrite Hps. vm_compute. reflexivity.
Defined.

Lemma rr_queue_ops_witness :
  (exists s' k', rr_add_process demo_rr demo_kern 2000 100 = Ok (s', k') /\ rr_ok s' demo_q) /\
  (exists s', rr_remove_process demo_rr 100 = Ok s' /\ rr_ok s' [(1016, 200)]).
Proof.
  destruct (rr_queue_ops demo_rr demo_kern demo_q 2000 100 demo_rr_ok demo_kern_ok) as
    [(s' & k' & E & _ & _ & Hok & _) (s1 & E1 & Hok1 & _)].
  - by eexists.
  - done.
  - reflexivity.
  - split; [exists s', k'|exists s1]; (split; [assumption|]); [exact Hok|exact Hok1].
Defined.
