(* ===== verification/PrioSched.v ===== *)
(** * Priority scheduler (src/sched/priority_sched.c)

    Eight bands, each a singly linked list with its own round-robin cursor.  A
    node is reachable only from the band it was added to, so each band carries
    the memory of its own nodes. *)

From S2P Require Import Prelude Runq RrSched.

Definition IR0_SCHED_PRIO_BANDS : nat := 8.
Definition IR0_SCHED_PRIO_MAX : Z := 7.
Definition IR0_SCHED_PRIO_DEFAULT : Z := 4.
Definition PRIO_MAX_ATTEMPTS : nat := 64.

Record prio_band := { b_nodes : nodes; b_head : Z; b_tail : Z; b_curr : Z }.

Definition prio_boot : list prio_band :=
  replicate IR0_SCHED_PRIO_BANDS {| b_nodes := ∅; b_head := 0; b_tail := 0; b_curr := 0 |}.

Definition prio_clamp (prio : Z) : Z :=
  if decide (prio < 0) then 0 else if decide (IR0_SCHED_PRIO_MAX < prio) then IR0_SCHED_PRIO_MAX else prio.

Definition prio_band_of (k : kern) (proc : Z) : outcome Z :=
  if decide (proc = 0) then Ok IR0_SCHED_PRIO_DEFAULT
  else d ← load_proc k proc; Ok (prio_clamp (sched_prio d)).

Fixpoint prio_already_queued (bands : list prio_band) (proc : Z) : outcome bool :=
  match bands with
  | [] => Ok false
  | bd :: rest =>
      scan ← find_node (walk_fuel (b_nodes bd)) (b_nodes bd) (b_head bd) proc;
      if decide (scan <> 0) then Ok true else prio_already_queued rest proc
  end.

(** Append a fresh node to a band. *)
Definition band_link (bd : prio_band) (node proc : Z) : outcome prio_band :=
  let m := <[node := {| n_process := proc; n_next := 0 |}]> (b_nodes bd) in
  if decide (b_head bd = 0) then
    Ok {| b_nodes := m; b_head := node; b_tail := node; b_curr := b_curr bd |}
  else
    m ← set_next m (b_tail bd) node;
    Ok {| b_nodes := m; b_head := b_head bd; b_tail := node; b_curr := b_curr bd |}.

Definition priority_add_process (bands : list prio_band) (k : kern) (node proc : Z) : outcome (list prio_band * kern) :=
  if decide (proc = 0) then Ok (bands, k) else
  if decide (node = 0) then Panic "BUG_ON: priority_add_process" else
  b ← prio_band_of k proc;
  queued ← prio_already_queued bands proc;
  if queued : bool then k ← process_set_sched_state k proc PROCESS_READY; Ok (bands, k) else
  bd ← or_ub (bands !! Z.to_nat b);
  bd ← band_link bd node proc;
  k ← process_set_sched_state k proc PROCESS_READY;
  Ok (<[Z.to_nat b := bd]> bands, k).

(** The found branch of [priority_remove_process]. *)
Definition band_unlink (bd : prio_band) (prev cur : Z) : outcome prio_band :=
  x ← load_node (b_nodes bd) cur;
  '(m, head) ← (if decide (prev <> 0) then m ← set_next (b_nodes bd) prev (n_next x); Ok (m, b_head bd)
                else Ok (b_nodes bd, n_next x));
  let tail := if decide (cur = b_tail bd) then prev else b_tail bd in
  let curr := if decide (b_curr bd = cur) then n_next x else b_curr bd in
  Ok {| b_nodes := delete cur m; b_head := head; b_tail := tail; b_curr := curr |}.

(** Search one band; [None] when the process is not in it. *)
Fixpoint band_remove_walk (fuel : nat) (bd : prio_band) (prev cur proc : Z) : outcome (option prio_band) :=
  match fuel with
  | O => UB
  | S n =>
      if decide (cur = 0) then Ok None else
      x ← load_node (b_nodes bd) cur;
      if decide (n_process x = proc) then bd ← band_unlink bd prev cur; Ok (Some bd)
      else band_remove_walk n bd cur (n_next x) proc
  end.

Fixpoint remove_bands (bands : list prio_band) (proc : Z) : outcome (list prio_band) :=
  match bands with
  | [] => Ok []
  | bd :: rest =>
      r ← band_remove_walk (walk_fuel (b_nodes bd)) bd 0 (b_head bd) proc;
      match r with
      | Some bd' => Ok (bd' :: rest)
      | None => rest' ← remove_bands rest proc; Ok (bd :: rest')
      end
  end.

Definition priority_remove_process (bands : list prio_band) (proc : Z) : outcome (list prio_band) :=
  if decide (proc = 0) then Ok bands else remove_bands bands proc.

Definition band_advance (bd : prio_band) (walk : Z) : outcome Z :=
  x ← load_node (b_nodes bd) walk; Ok (if decide (n_next x = 0) then b_head bd else n_next x).

(** The [do ... while (walk && walk != start && attempts < 64)] loop of one
    band with [n] further attempts allowed: the chosen node, or NULL. *)
Fixpoint band_pick_walk (n : nat) (bd : prio_band) (k : kern) (start walk : Z) : outcome (Z * Z) :=
  match n with
  | O => Ok (0, 0)
  | S n' =>
      x ← load_node (b_nodes bd) walk;
      let cand := n_process x in
      ok ← (if decide (cand = 0) then Ok false else d ← load_proc k cand; Ok (is_runnable d));
      if ok : bool then Ok (walk, cand)
      else w ← band_advance bd walk;
           if decide (w = 0 \/ w = start) then Ok (0, 0) else band_pick_walk n' bd k start w
  end.

(** One band of the outer loop: the band with its cursor moved, and the pick. *)
Definition band_pick (bd : prio_band) (k : kern) : outcome (prio_band * Z) :=
  if decide (b_head bd = 0) then Ok (bd, 0) else
  start ← (if decide (b_curr bd = 0) then Ok (b_head bd) else band_advance bd (b_curr bd));
  '(walk, cand) ← band_pick_walk PRIO_MAX_ATTEMPTS bd k start start;
  Ok ({| b_nodes := b_nodes bd; b_head := b_head bd; b_tail := b_tail bd;
         b_curr := if decide (cand = 0) then start else walk |}, cand).

(** [for (b = IR0_SCHED_PRIO_MAX; b >= 0; b--)], the bands above [n] done. *)
Fixpoint pick_bands (n : nat) (bands : list prio_band) (k : kern) : outcome (list prio_band * Z) :=
  match n with
  | O => Ok (bands, 0)
  | S b =>
      bd ← or_ub (bands !! b);
      '(bd, cand) ← band_pick bd k;
      let bands := <[b := bd]> bands in
      if decide (cand = 0) then pick_bands b bands k else Ok (bands, cand)
  end.

Definition priority_pick_next (bands : list prio_band) (k : kern) : outcome (list prio_band * Z) :=
  pick_bands IR0_SCHED_PRIO_BANDS bands k.

Definition priority_schedule_next (bands : list prio_band) (k : kern) : outcome (list prio_band * kern) :=
  '(bands, next) ← priority_pick_next bands k;
  if decide (next = 0) then Ok (bands, k) else k ← sched_context_switch_to k next; Ok (bands, k).

Fixpoint priority_count_runnable (bands : list prio_band) (k : kern) : outcome Z :=
  match bands with
  | [] => Ok 0
  | bd :: rest => c ← count_nodes (walk_fuel (b_nodes bd)) k (b_nodes bd) (b_head bd);
                  r ← priority_count_runnable rest k; Ok (c + r)
  end.

Definition priority_promote_process (bands : list prio_band) (k : kern) (proc : Z) : outcome (list prio_band * kern) :=
  if decide (proc = 0) then Ok (bands, k) else
  b ← prio_band_of k proc;
  bd ← or_ub (bands !! Z.to_nat b);
  walk ← find_node (walk_fuel (b_nodes bd)) (b_nodes bd) (b_head bd) proc;
  if decide (walk = 0) then Ok (bands, k) else
  k ← process_set_sched_state k proc PROCESS_READY;
  Ok (<[Z.to_nat b := {| b_nodes := b_nodes bd; b_head := b_head bd; b_tail := b_tail bd; b_curr := walk |}]> bands, k).

(** [priority_sched_selftest]: two stub descriptors at [lo] and [hi], their
    nodes at [n1] and [n2]. *)
Definition priority_sched_selftest (bands : list prio_band) (k : kern) (lo hi n1 n2 : Z) : outcome (list prio_band * Z) :=
  let stub pr := {| state := PROCESS_READY; task_state := TASK_SCHED_RUNNABLE; sched_prio := pr |} in
  let k := with_procs (<[hi := stub 6]> (<[lo := stub 1]> (procs k))) k in
  '(bands, k) ← priority_add_process bands k n1 lo;
  '(bands, k) ← priority_add_process bands k n2 hi;
  '(bands, pick) ← priority_pick_next bands k;
  bands ← priority_remove_process bands lo;
  bands ← priority_remove_process bands hi;
  if decide (pick <> hi) then Ok (bands, -1) else
  c ← priority_count_runnable bands k;
  Ok (bands, if decide (c <> 0) then -1 else 0).

(** ** A band is a ready list of the round-robin kind *)

Definition as_rr (bd : prio_band) : rr_state :=
  {| rr_nodes := b_nodes bd; rr_head := b_head bd; rr_tail := b_tail bd; rr_current := b_curr bd |}.

Definition band_ok (bd : prio_band) (q : queue) : Prop := rr_ok (as_rr bd) q.

Lemma band_link_spec bd q node p :
  band_ok bd q -> p <> 0 -> node <> 0 -> b_nodes bd !! node = None -> p ∉ q.*2 ->
  exists bd', band_link bd node p = Ok bd' /\ band_ok bd' (q ++ [(node, p)]).
Proof.
  intros Hok Hp Hn Hf Hq. destruct (rr_link_spec (as_rr bd) q node p Hok Hp Hn Hf Hq) as (s' & E & Hok' & _).
  unfold rr_link in E. simpl in E. unfold band_link. destruct (decide (b_head bd = 0)).
  - injection E as <-. eexists. split; [reflexivity|done].
  - destruct (set_next _ (b_tail bd) node) as [m| |]; simpl in *; try done. injection E as <-. eexists. split; [reflexivity|done].
Qed.

Lemma band_unlink_spec bd a n p b :
  band_ok bd (a ++ (n, p) :: b) ->
  exists bd', band_unlink bd (last_addr a) n = Ok bd' /\ band_ok bd' (a ++ b).
Proof.
  intros Hok. destruct (rr_unlink_spec (as_rr bd) a n p b Hok) as (s' & E & Hok' & _).
  destruct (rr_ok_middle _ _ _ _ _ Hok) as (Hn0 & Na & Nb & _ & _ & _ & _ & Hm & _).
  assert (Hcur : let c := if decide (b_curr bd = n) then first_addr b 0 else b_curr bd in c = 0 \/ c ∈ (a ++ b).*1).
  { simpl. rewrite fmap_app. destruct (decide (b_curr bd = n)) as [Hc|Hc].
    - destruct (first_addr_in b) as [?|?]; [by left|right; apply elem_of_app; by right].
    - destruct (rk_cursor _ _ Hok) as [?|Hx]; [by left|right]. simpl in Hx. rewrite fmap_app in Hx.
      apply elem_of_app in Hx as [?|Hx]; apply elem_of_app; [by left|right]. simpl in Hx. apply elem_of_cons in Hx as [?|?]; [congruence|done]. }
  assert (Htail : rr_tail s' = if decide (n = b_tail bd) then last_addr a else b_tail bd).
  { rewrite (rk_tail _ _ Hok'). pose proof (rk_tail _ _ Hok) as Ht. simpl in Ht. rewrite Ht.
    destruct b as [|[nb pb] b].
    - rewrite last_addr_snoc, decide_True, app_nil_r by done. done.
    - rewrite (last_addr_app a ((n, p) :: (nb, pb) :: b)), (last_addr_app a) by done.
      change ((n, p) :: (nb, pb) :: b) with ([(n, p)] ++ (nb, pb) :: b). rewrite last_addr_app by done.
      rewrite decide_False; [done|]. intros ->. apply Nb. by apply last_addr_in. }
  apply (rr_ok_cursor _ _ _ Hok') in Hcur. unfold band_unlink, rr_unlink, load_node in *. simpl in *. rewrite Hm in *.
  cbn [mbind outcome_bind or_ub n_next] in *.
  destruct (decide (last_addr a <> 0)) as [Ha|Ha].
  - destruct (set_next (b_nodes bd) (last_addr a) (first_addr b 0)) as [m| |]; cbn [mbind outcome_bind] in *; try done.
    injection E as <-. eexists. split; [reflexivity|]. simpl in *. unfold band_ok, as_rr. simpl. exact Hcur.
  - cbn [mbind outcome_bind] in *. injection E as <-. eexists. split; [reflexivity|]. simpl in *.
    unfold band_ok, as_rr. simpl. by rewrite <- Htail.
Qed.

Lemma band_remove_walk_found fuel bd a0 a n p b :
  band_ok bd (a0 ++ a ++ (n, p) :: b) -> (length a < fuel)%nat ->
  band_remove_walk fuel bd (last_addr a0) (first_addr (a ++ (n, p) :: b) 0) p =
  (bd' ← band_unlink bd (last_addr (a0 ++ a)) n; Ok (Some bd')).
Proof.
  revert a0 a. induction fuel as [|fuel IH]; intros a0 a Hok Hf; [lia|]. simpl.
  destruct a as [|[n' p'] a]; simpl.
  - rewrite app_nil_r in *. destruct (rr_ok_middle _ _ _ _ _ Hok) as (Hn & _ & _ & _ & _ & _ & _ & Hm & _).
    rewrite decide_False by done. unfold load_node at 1. simpl in Hm. rewrite Hm. simpl. by rewrite decide_True.
  - pose proof Hok as Hok'. simpl in Hok'.
    destruct (rr_ok_middle _ _ _ _ _ Hok') as (Hn & _ & _ & _ & Hp & _ & _ & Hm & _). simpl in Hm.
    rewrite decide_False by done. unfold load_node. rewrite Hm. simpl.
    rewrite decide_False by (intros ->; apply Hp; rewrite fmap_app; apply elem_of_app; right; by left).
    replace (a0 ++ (n', p') :: a) with ((a0 ++ [(n', p')]) ++ a) by by rewrite <- app_assoc.
    rewrite <- (IH (a0 ++ [(n', p')]) a); [by rewrite last_addr_snoc|by rewrite <- app_assoc|simpl in *; lia].
Qed.

Lemma band_remove_walk_absent fuel bd a0 a p :
  band_ok bd (a0 ++ a) -> p ∉ a.*2 -> (length a < fuel)%nat ->
  band_remove_walk fuel bd (last_addr a0) (first_addr a 0) p = Ok None.
Proof.
  revert a0 a. induction fuel as [|fuel IH]; intros a0 a Hok Hp Hf; [lia|]. simpl.
  destruct a as [|[n' p'] a]; simpl; [done|]. simpl in Hp. rewrite not_elem_of_cons in Hp. destruct Hp as [Hp1 Hp2].
  destruct (rr_ok_middle _ _ _ _ _ Hok) as (Hn & _ & _ & _ & _ & _ & _ & Hm & _). simpl in Hm.
  rewrite decide_False by done. unfold load_node. rewrite Hm. simpl. rewrite decide_False by done.
  rewrite <- (IH (a0 ++ [(n', p')]) a); [by rewrite last_addr_snoc|by rewrite <- app_assoc|done|simpl in *; lia].
Qed.

(** Removing a process from one band. *)
Lemma band_remove_spec bd q p :
  band_ok bd q ->
  exists r, band_remove_walk (walk_fuel (b_nodes bd)) bd 0 (b_head bd) p = Ok r /\
    match r with
    | Some bd' => p ∈ q.*2 /\ band_ok bd' (filter (fun x : Z * Z => x.2 <> p) q)
    | None => p ∉ q.*2
    end.
Proof.
  intros Hok. destruct (rr_head_spec _ _ Hok) as [Hh _]. simpl in Hh. rewrite Hh.
  pose proof (rr_ok_fuel _ _ Hok) as Hf. simpl in Hf. destruct (decide (p ∈ q.*2)) as [Hin|Hnin].
  - destruct (queue_split _ _ Hin) as (a & n & b & -> & Ha). rewrite length_app in Hf.
    change 0 with (last_addr []) at 1. rewrite (band_remove_walk_found _ bd []) by (auto; lia). simpl.
    destruct (band_unlink_spec _ _ _ _ _ Hok) as (bd' & -> & Hok'). eexists. split; [reflexivity|]. split; [done|].
    destruct (rr_ok_middle _ _ _ _ _ Hok) as (_ & _ & _ & Hpa & Hpb & _).
    rewrite filter_app, filter_cons, decide_False by (simpl; naive_solver). by rewrite !filter_absent.
  - change 0 with (last_addr []) at 1. rewrite (band_remove_walk_absent _ bd [] q) by auto. eauto.
Qed.

(** ** Picking within a band *)

Lemma rotation_shift q w v : rotation q (w ++ v) -> rotation q (v ++ w).
Proof.
  revert v. induction w as [|x w IH]; intros v Hr; [by rewrite app_nil_r|].
  apply rotation_step in Hr. rewrite <- app_assoc in Hr. apply IH in Hr. by rewrite <- app_assoc in Hr.
Qed.

Section band_pick.
Context (bd : prio_band) (k : kern) (q : queue) (ring : queue).
Hypothesis Hok : band_ok bd q.
Hypothesis Hlive : live_queue k q.
Hypothesis Hring : rotation q ring.

Lemma ring_nodup : NoDup ring.*1.
Proof.
  pose proof (rk_addrs _ _ Hok) as Hn. destruct Hring as (a & b & -> & ->). rewrite fmap_app in *. by rewrite Permutation_app_comm.
Qed.

Lemma band_pick_walk_step n w y r :
  ring = w ++ y :: r ->
  band_pick_walk (S n) bd k (first_addr ring 0) y.1 =
  if runnable k y.2 then Ok (y.1, y.2)
  else match r with [] => Ok (0, 0) | z :: _ => band_pick_walk n bd k (first_addr ring 0) z.1 end.
Proof.
  destruct y as [a p]. intros E. pose proof Hring as Hr. rewrite E in Hr. apply rotation_shift in Hr. simpl in Hr.
  destruct (rotation_head _ _ _ _ _ _ Hok Hlive Hr) as (Ha & Hp & nxt & d & Hm & Hd & Hrun). simpl in Hm.
  cbn [band_pick_walk fst snd]. unfold load_node. rewrite Hm.
  cbn [mbind outcome_bind or_ub n_process]. rewrite decide_False by done. unfold load_proc. rewrite Hd.
  cbn [mbind outcome_bind or_ub]. rewrite Hrun. destruct (runnable k p); [done|].
  change (band_advance bd a) with (rr_advance (as_rr bd) a).
  rewrite (rotation_advance _ _ _ _ _ Hok Hr). cbn [mbind outcome_bind].
  pose proof ring_nodup as Hnd. rewrite E in Hnd |- *.
  destruct r as [|[z pz] r]; simpl.
  - rewrite decide_True; [done|]. right. by destruct w as [|[? ?] ?].
  - rewrite decide_False; [done|]. intros [Hz|Hz].
    + assert (Hin : z ∈ q.*1).
      { apply (list_elem_of_fmap_2 fst q (z, pz)), (rotation_in _ _ _ Hring). rewrite E. apply elem_of_app. right. right. by left. }
      by apply (rr_ok_addr _ _ _ Hok) in Hin.
    + rewrite fmap_app in Hnd. simpl in Hnd. apply NoDup_app in Hnd as (_ & Hd2 & Hd3).
      destruct w as [|[w0 pw] w]; simpl in *.
      * apply NoDup_cons in Hd3 as [Hx _]. apply Hx. subst. by left.
      * apply (Hd2 w0); [by left|]. subst. right. by left.
Qed.

Lemma band_pick_walk_found n w r1 x r2 :
  ring = w ++ r1 ++ x :: r2 -> (forall y, y ∈ r1 -> runnable k y.2 = false) -> runnable k x.2 = true ->
  (length r1 < n)%nat -> band_pick_walk n bd k (first_addr ring 0) (first_addr (r1 ++ x :: r2) 0) = Ok (x.1, x.2).
Proof.
  revert n w. induction r1 as [|y r1 IH]; intros [|n] w E Hn Hx Hlt; simpl in Hlt; try lia.
  - change (first_addr ([] ++ x :: r2) 0) with (first_addr (x :: r2) 0).
    replace (first_addr (x :: r2) 0) with x.1 by by destruct x. by rewrite (band_pick_walk_step _ _ _ _ E), Hx.
  - replace (first_addr ((y :: r1) ++ x :: r2) 0) with y.1 by by destruct y.
    simpl app in E. rewrite (band_pick_walk_step _ _ _ _ E), Hn by (by left).
    rewrite <- (IH n (w ++ [y])); [|by rewrite <- app_assoc|intros z Hz; apply Hn; by right|done|lia].
    destruct r1 as [|[? ?] ?]; simpl; [by destruct x|done].
Qed.

Lemma band_pick_walk_none n w r :
  ring = w ++ r -> r <> [] -> (forall y, y ∈ r -> runnable k y.2 = false) ->
  band_pick_walk n bd k (first_addr ring 0) (first_addr r 0) = Ok (0, 0).
Proof.
  revert n w. induction r as [|y r IH]; intros [|n] w E Hne Hn; try done.
  replace (first_addr (y :: r) 0) with y.1 by by destruct y.
  rewrite (band_pick_walk_step _ _ _ _ E), Hn by (by left). destruct r as [|z r]; [done|].
  rewrite <- (IH n (w ++ [y])); [by destruct z|by rewrite <- app_assoc|done|intros u Hu; apply Hn; by right].
Qed.
End band_pick.

Lemma find_runnable k (l : queue) :
  (exists l1 x l2, l = l1 ++ x :: l2 /\ (forall y, y ∈ l1 -> runnable k y.2 = false) /\ runnable k x.2 = true) \/
  (forall y, y ∈ l -> runnable k y.2 = false).
Proof.
  induction l as [|y l IH]; [right; by intros y ?%not_elem_of_nil|].
  destruct (runnable k y.2) eqn:E.
  - left. exists [], y, l. splits; auto. by intros z ?%not_elem_of_nil.
  - destruct IH as [(l1 & x & l2 & -> & H1 & H2)|Hn].
    + left. exists (y :: l1), x, l2. splits; auto. intros z Hz. apply elem_of_cons in Hz as [->|?]; auto.
    + right. intros z Hz. apply elem_of_cons in Hz as [->|?]; auto.
Qed.

Lemma band_pick_spec bd k q :
  band_ok bd q -> live_queue k q -> (length q <= PRIO_MAX_ATTEMPTS)%nat ->
  exists bd' cand, band_pick bd k = Ok (bd', cand) /\ band_ok bd' q /\
    ((cand = 0 /\ forall p, p ∈ q.*2 -> runnable k p = false) \/
     exists o1 x o2, upcoming (as_rr bd) q = o1 ++ x :: o2 /\ (forall y, y ∈ o1 -> runnable k y.2 = false) /\
       runnable k x.2 = true /\ cand = x.2 /\ cand <> 0 /\ b_curr bd' = x.1).
Proof.
  intros Hok Hl Hlen. destruct (rr_head_spec _ _ Hok) as [_ Hh]. simpl in Hh. unfold band_pick.
  destruct (decide (b_head bd = 0)) as [H0|H0].
  { exists bd, 0. splits; auto. left. split; [done|]. assert (q = []) by by apply Hh. subst q. by intros p ?%not_elem_of_nil. }
  assert (Hq : q <> []) by (by rewrite <- Hh). pose proof (rotation_upcoming (as_rr bd) q) as Hrot.
  pose proof (upcoming_start _ _ Hok Hq) as Hst. simpl in Hst.
  change (rr_advance (as_rr bd) (b_curr bd)) with (band_advance bd (b_curr bd)) in Hst. rewrite Hst. cbn [mbind outcome_bind].
  set (u := upcoming (as_rr bd) q) in *.
  assert (Hlu : length u = length q) by (destruct Hrot as (a & b & -> & ->); rewrite !length_app; lia).
  destruct (find_runnable k u) as [(o1 & x & o2 & Eu & Hn & Hx)|Hn].
  - assert (E : band_pick_walk PRIO_MAX_ATTEMPTS bd k (first_addr u 0) (first_addr u 0) = Ok (x.1, x.2)).
    { pose proof (band_pick_walk_found bd k q u Hok Hl Hrot PRIO_MAX_ATTEMPTS [] o1 x o2 Eu Hn Hx) as Hw.
      rewrite <- Eu in Hw. apply Hw. rewrite Eu, length_app in Hlu. simpl in Hlu. lia. }
    rewrite E. cbn [mbind outcome_bind]. assert (Hxq : x ∈ q) by (apply (rotation_in _ _ _ Hrot); rewrite Eu; apply elem_of_app; right; by left).
    assert (Hp : x.2 <> 0) by (by apply (rk_nonnull _ _ Hok), list_elem_of_fmap_2).
    rewrite (decide_False (P := x.2 = 0)) by done. eexists _, _. split; [reflexivity|]. split.
    + apply (rr_ok_cursor _ _ _ Hok). right. simpl. by apply list_elem_of_fmap_2.
    + right. exists o1, x, o2. auto 10.
  - assert (Hu0 : u <> []) by (intros Eu; rewrite Eu in Hlu; by destruct q).
    rewrite (band_pick_walk_none bd k q u Hok Hl Hrot _ [] u eq_refl Hu0 Hn). cbn [mbind outcome_bind].
    rewrite (decide_True (P := 0 = 0)) by done. eexists _, _. split; [reflexivity|]. split.
    + apply (rr_ok_cursor _ _ _ Hok). destruct (first_addr_in u) as [?|Hi]; [by left|right].
      apply list_elem_of_fmap in Hi as (y & Ey & Hy). simpl in *. rewrite Ey.
      apply list_elem_of_fmap_2. by apply (rotation_in _ _ _ Hrot).
    + left. split; [done|]. intros p Hp. apply list_elem_of_fmap in Hp as (y & -> & Hy). apply Hn. by apply (rotation_in _ _ _ Hrot).
Qed.

(** ** All bands *)

Record prio_ok (bands : list prio_band) (qs : list queue) : Prop := {
  po_len : length bands = IR0_SCHED_PRIO_BANDS;
  po_bands : Forall2 band_ok bands qs;
  po_procs : NoDup (concat qs).*2
}.

Definition live_bands (k : kern) (qs : list queue) : Prop := live_queue k (concat qs).

Lemma live_band k qs b q : live_bands k qs -> qs !! b = Some q -> live_queue k q.
Proof.
  intros Hl Hq p Hp. apply Hl. apply list_elem_of_fmap in Hp as (x & -> & Hx). apply list_elem_of_fmap_2.
  apply list_elem_of_In, in_concat. exists q. rewrite <- !list_elem_of_In. split; [by eapply list_elem_of_lookup_2|done].
Qed.

Lemma pick_bands_spec n bands k qs :
  Forall2 band_ok bands qs -> live_bands k qs -> (forall q, q ∈ qs -> (length q <= PRIO_MAX_ATTEMPTS)%nat) ->
  (n <= length bands)%nat ->
  exists bands' cand, pick_bands n bands k = Ok (bands', cand) /\ Forall2 band_ok bands' qs /\ length bands' = length bands /\
    ((cand = 0 /\ forall b q p, (b < n)%nat -> qs !! b = Some q -> p ∈ q.*2 -> runnable k p = false) \/
     exists b bd q o1 x o2, (b < n)%nat /\ bands !! b = Some bd /\ qs !! b = Some q /\
       upcoming (as_rr bd) q = o1 ++ x :: o2 /\ (forall y, y ∈ o1 -> runnable k y.2 = false) /\
       runnable k x.2 = true /\ cand = x.2 /\ cand <> 0 /\
       forall b' q' p, (b < b' < n)%nat -> qs !! b' = Some q' -> p ∈ q'.*2 -> runnable k p = false).
Proof.
  revert bands. induction n as [|n IH]; intros bands Hb Hl Hlen Hn; simpl.
  { exists bands, 0. splits; auto. left. split; [done|]. lia. }
  destruct (lookup_lt_is_Some_2 bands n Hn) as [bd Hbd]. rewrite Hbd. cbn [mbind outcome_bind or_ub].
  destruct (Forall2_lookup_l _ _ _ _ _ Hb Hbd) as (q & Hq & Hbq).
  destruct (band_pick_spec bd k q Hbq (live_band _ _ _ _ Hl Hq)) as (bd' & cand & -> & Hbq' & Hcase).
  { apply Hlen. by eapply list_elem_of_lookup_2. }
  cbn [mbind outcome_bind].
  assert (Hb' : Forall2 band_ok (<[n := bd']> bands) qs).
  { rewrite <- (list_insert_id qs n q Hq). by apply Forall2_insert. }
  destruct Hcase as [[-> Hnone]|(o1 & x & o2 & Hu & Ho & Hx & -> & Hc & _)].
  - rewrite (decide_True (P := 0 = 0)) by done.
    destruct (IH (<[n := bd']> bands) Hb' Hl Hlen) as (bands' & cand & -> & Hf & Hlb & Hcase); [rewrite length_insert; lia|].
    exists bands', cand. rewrite length_insert in Hlb. splits; auto.
    assert (Hstep : forall b q' p, b = n -> qs !! b = Some q' -> p ∈ q'.*2 -> runnable k p = false) by (intros; simplify_eq; eauto).
    destruct Hcase as [[-> Hall]|(b & bdb & qb & o1 & x & o2 & Hbn & Hlk & Hqb & H1 & H2 & H3 & H4 & H5 & H6)].
    + left. split; [done|]. intros b q' p Hlt. destruct (decide (b = n)); [by eauto|]. apply Hall. lia.
    + right. rewrite list_lookup_insert_ne in Hlk by lia. exists b, bdb, qb, o1, x, o2. splits; auto.
      intros b' q' p Hlt. destruct (decide (b' = n)); [by eauto|]. apply H6. lia.
  - rewrite decide_False by done. eexists _, _. split; [reflexivity|]. splits; [done|by rewrite length_insert|].
    right. exists n, bd, q, o1, x, o2. splits; auto. lia.
Qed.

Lemma alter_at {A} (f : A -> A) (l : list A) i x : l !! i = Some x -> alter f i l = <[i := f x]> l.
Proof.
  revert i. induction l as [|y l IH]; intros [|i] Hx; simplify_eq/=; [done|].
  change (y :: alter f i l = y :: <[i := f x]> l). by rewrite IH.
Qed.

Lemma concat_alter_snoc (qs : list queue) b (x : Z * Z) :
  (b < length qs)%nat -> concat (alter (fun q => q ++ [x]) b qs) ≡ₚ x :: concat qs.
Proof.
  revert b. induction qs as [|q qs IH]; intros [|b] Hb; simpl in *; try lia.
  - rewrite <- app_assoc. simpl. by rewrite <- Permutation_middle.
  - change (q ++ concat (alter (fun q => q ++ [x]) b qs) ≡ₚ x :: q ++ concat qs).
    rewrite IH by lia. by rewrite <- Permutation_middle.
Qed.

Lemma fmap_keep {A} (f : A -> A) (l : list A) : (forall x, x ∈ l -> f x = x) -> f <$> l = l.
Proof.
  induction l as [|x l IH]; intros Hk; [done|]. simpl. f_equal; [apply Hk; by left|].
  apply IH. intros y Hy. apply Hk. by right.
Qed.

Lemma already_queued_spec bands qs p :
  Forall2 band_ok bands qs -> prio_already_queued bands p = Ok (bool_decide (p ∈ (concat qs).*2)).
Proof.
  induction 1 as [|bd q bands qs Hb Hf IH]; [done|]. cbn [prio_already_queued concat].
  rewrite (find_node_spec _ _ _ q) by (apply Hb || apply (rr_ok_fuel _ _ Hb)). cbn [mbind outcome_bind].
  pose proof (node_of_zero q p (fun n Hn => rr_ok_addr _ _ n Hb Hn)) as Hz.
  destruct (decide (node_of q p <> 0)) as [Hn|Hn].
  - rewrite bool_decide_true; [done|]. rewrite fmap_app, elem_of_app. left. apply dec_stable. by rewrite <- Hz.
  - rewrite IH. f_equal. apply bool_decide_ext. rewrite fmap_app, elem_of_app.
    assert (p ∉ q.*2) by (apply Hz; by apply dec_stable). naive_solver.
Qed.

Lemma prio_clamp_range z : 0 <= prio_clamp z <= IR0_SCHED_PRIO_MAX.
Proof. unfold prio_clamp, IR0_SCHED_PRIO_MAX. repeat case_decide; lia. Qed.

Lemma filter_fmap_NoDup (P : Z * Z -> Prop) `{!forall x, Decision (P x)} (l : queue) :
  NoDup l.*2 -> NoDup (filter P l).*2.
Proof.
  induction l as [|x l IH]; [done|]. rewrite fmap_cons, NoDup_cons. intros [Hx Hl]. rewrite filter_cons.
  destruct (decide (P x)); [|auto]. rewrite fmap_cons, NoDup_cons. split; [|auto].
  intros Hy. apply Hx. apply list_elem_of_fmap in Hy as (y & -> & Hy). apply list_elem_of_filter in Hy as [_ Hy].
  by apply list_elem_of_fmap_2.
Qed.

Lemma concat_filter (P : Z * Z -> Prop) `{!forall x, Decision (P x)} (qs : list queue) :
  concat (filter P <$> qs) = filter P (concat qs).
Proof. induction qs as [|q qs IH]; [done|]. rewrite fmap_cons. cbn [concat]. by rewrite filter_app, IH. Qed.

Lemma remove_bands_spec bands qs p :
  Forall2 band_ok bands qs -> NoDup (concat qs).*2 ->
  exists bands', remove_bands bands p = Ok bands' /\ length bands' = length bands /\
    Forall2 band_ok bands' (filter (fun x : Z * Z => x.2 <> p) <$> qs).
Proof.
  induction 1 as [|bd q bands qs Hb Hf IH]; intros Hnd; [by exists []|]. cbn [remove_bands].
  simpl in Hnd. rewrite fmap_app in Hnd. apply NoDup_app in Hnd as (Hn1 & Hn2 & Hn3).
  destruct (band_remove_spec bd q p Hb) as (r & -> & Hr). cbn [mbind outcome_bind]. destruct r as [bd'|].
  - destruct Hr as [Hin Hok]. exists (bd' :: bands). simpl. splits; auto. constructor; [done|].
    match goal with |- Forall2 _ _ ?l => assert (Hl : l = qs) end; [|by rewrite Hl]. apply fmap_keep.
    intros q' Hq'. apply filter_absent. intros Hp. apply (Hn2 p Hin).
    apply list_elem_of_fmap in Hp as (x & -> & Hx). apply list_elem_of_fmap_2.
    apply list_elem_of_In, in_concat. exists q'. by rewrite <- !list_elem_of_In.
  - destruct (IH Hn3) as (bands' & -> & Hlb & Hf'). cbn [mbind outcome_bind]. exists (bd :: bands'). simpl.
    splits; auto. constructor; [by rewrite filter_absent|done].
Qed.

Lemma priority_add_spec bands k qs node p d :
  prio_ok bands qs -> kern_ok k -> procs k !! p = Some d -> node <> 0 ->
  (forall bd, bd ∈ bands -> b_nodes bd !! node = None) ->
  let b := Z.to_nat (prio_clamp (sched_prio d)) in
  exists bands' k', priority_add_process bands k node p = Ok (bands', k') /\ kern_ok k' /\ runnable k' p = true /\
    prio_ok bands' (if decide (p ∈ (concat qs).*2) then qs else alter (fun q => q ++ [(node, p)]) b qs).
Proof.
  intros [Hlen Hb Hnd] Hk Hd Hn Hf b. assert (Hp0 : p <> 0) by (intros ->; rewrite (ko_null _ Hk) in Hd; done).
  unfold priority_add_process, prio_band_of. rewrite !decide_False by done. unfold load_proc. rewrite Hd.
  cbn [mbind outcome_bind or_ub]. rewrite (already_queued_spec _ _ _ Hb). cbn [mbind outcome_bind].
  destruct (wake_spec k p Hk ltac:(by eexists)) as (k' & Ek & Hk' & _ & _ & _ & Hr & _).
  destruct (decide (p ∈ (concat qs).*2)) as [Hin|Hnin].
  - rewrite bool_decide_true by done. rewrite Ek. cbn [mbind outcome_bind]. exists bands, k'. by splits.
  - rewrite bool_decide_false by done. fold b. pose proof (prio_clamp_range (sched_prio d)) as Hcl.
    assert (Hlt : (b < length bands)%nat) by (unfold b; rewrite Hlen; unfold IR0_SCHED_PRIO_MAX, IR0_SCHED_PRIO_BANDS in *; lia).
    destruct (lookup_lt_is_Some_2 bands b Hlt) as [bd Hbd]. rewrite Hbd. cbn [mbind outcome_bind or_ub].
    destruct (Forall2_lookup_l _ _ _ _ _ Hb Hbd) as (q & Hq & Hbq).
    destruct (band_link_spec bd q node p Hbq Hp0 Hn) as (bd' & -> & Hbq').
    { apply Hf. by eapply list_elem_of_lookup_2. }
    { intros Hp. apply Hnin. apply list_elem_of_fmap in Hp as (x & -> & Hx). apply list_elem_of_fmap_2.
      apply list_elem_of_In, in_concat. exists q. rewrite <- !list_elem_of_In. split; [by eapply list_elem_of_lookup_2|done]. }
    cbn [mbind outcome_bind]. rewrite Ek. cbn [mbind outcome_bind]. eexists _, k'. split; [reflexivity|]. splits; auto.
    constructor.
    + by rewrite length_insert.
    + replace (alter (fun q => q ++ [(node, p)]) b qs) with (<[b := q ++ [(node, p)]]> qs); [by apply Forall2_insert|].
      symmetry. by apply (alter_at (fun q => q ++ [(node, p)]) _ _ _ Hq).
    + apply Forall2_length in Hb. rewrite concat_alter_snoc by lia. simpl. apply NoDup_cons. done.
Qed.

Lemma priority_remove_spec bands qs p :
  prio_ok bands qs -> p <> 0 ->
  exists bands', priority_remove_process bands p = Ok bands' /\
    prio_ok bands' (filter (fun x : Z * Z => x.2 <> p) <$> qs).
Proof.
  intros [Hlen Hb Hnd] Hp. unfold priority_remove_process. rewrite decide_False by done.
  destruct (remove_bands_spec bands qs p Hb Hnd) as (bands' & E & Hl' & Hf). exists bands'. split; [done|].
  constructor; [congruence|done|]. rewrite concat_filter. by apply filter_fmap_NoDup.
Qed.

Lemma priority_count_spec bands k qs :
  Forall2 band_ok bands qs -> live_bands k qs ->
  priority_count_runnable bands k = Ok (Z.of_nat (length (runnable_in k (concat qs)))).
Proof.
  induction 1 as [|bd q bands qs Hb Hf IH]; intros Hl; [done|]. cbn [priority_count_runnable concat].
  rewrite (count_nodes_spec _ k _ _ q); [|apply Hb|apply (rr_ok_fuel _ _ Hb)|].
  2: { intros p Hp. split; [by apply (rk_nonnull _ _ Hb)|]. apply Hl. simpl. rewrite fmap_app. apply elem_of_app. by left. }
  cbn [mbind outcome_bind]. rewrite IH.
  2: { intros p Hp. apply Hl. simpl. rewrite fmap_app. apply elem_of_app. by right. }
  cbn [mbind outcome_bind]. unfold runnable_in. rewrite filter_app, length_app. f_equal. lia.
Qed.

(** ** Properties *)

(** C23: with consistent bands of at most 64 processes each, a scheduling pass
    switches to a runnable process of the highest band that has one, the
    first in that band's cyclic order after its cursor; no runnable process of
    a higher band exists.  When no queued process is runnable nothing is
    switched.  The bands' contents are unchanged either way. *)
Theorem priority_schedule_next_correct bands k qs :
  prio_ok bands qs -> live_bands k qs -> kern_ok k -> (forall q, q ∈ qs -> (length q <= PRIO_MAX_ATTEMPTS)%nat) ->
  (exists bands' k' b bd q o1 x o2, priority_schedule_next bands k = Ok (bands', k') /\ prio_ok bands' qs /\ kern_ok k' /\
     current_process k' = x.2 /\ bands !! b = Some bd /\ qs !! b = Some q /\
     upcoming (as_rr bd) q = o1 ++ x :: o2 /\ (forall y, y ∈ o1 -> runnable k y.2 = false) /\ runnable k x.2 = true /\
     forall b' q' p, (b < b')%nat -> qs !! b' = Some q' -> p ∈ q'.*2 -> runnable k p = false) \/
  ((forall p, p ∈ (concat qs).*2 -> runnable k p = false) /\
   exists bands', priority_schedule_next bands k = Ok (bands', k) /\ prio_ok bands' qs).
Proof.
  intros [Hlen Hb Hnd] Hl Hk Hls. unfold priority_schedule_next, priority_pick_next.
  pose proof (Forall2_length _ _ _ Hb) as Hlq.
  destruct (pick_bands_spec IR0_SCHED_PRIO_BANDS bands k qs Hb Hl Hls) as (bands' & cand & -> & Hf & Hlb & Hcase); [lia|].
  cbn [mbind outcome_bind]. destruct Hcase as [[-> Hall]|(b & bd & q & o1 & x & o2 & Hbn & H1 & H2 & H3 & H4 & H5 & -> & H6 & H7)].
  - right. split; [|exists bands'; split; [done|]; constructor; auto; congruence].
    intros p Hp. apply list_elem_of_fmap in Hp as (x & -> & Hx). apply list_elem_of_In, in_concat in Hx as (q & Hq & Hx).
    apply list_elem_of_In in Hq, Hx. apply list_elem_of_lookup_1 in Hq as [b Hq].
    apply (Hall b q); [apply lookup_lt_Some in Hq; lia|done|]. by apply list_elem_of_fmap_2.
  - left. rewrite decide_False by done. destruct (switch_spec k x.2 Hk H5) as (k' & -> & Hk' & _ & Hc & _).
    cbn [mbind outcome_bind]. exists bands', k', b, bd, q, o1, x, o2. splits; auto; [constructor; auto; congruence|].
    intros b' q' p Hlt Hq'. pose proof (lookup_lt_Some _ _ _ Hq'). apply (H7 b' q' p); [lia|done].
Qed.

(** A process lives in at most one band: adding puts it at the tail of the
    band its clamped priority names unless it is queued in any band, and then
    it is only marked READY; removing takes it out of its band and leaves every
    other band as it was; the runnable count is the number of queued processes that are
    READY or RUNNING. *)
Theorem priority_queue_ops bands k qs node p d :
  prio_ok bands qs -> kern_ok k -> live_bands k qs -> procs k !! p = Some d -> node <> 0 ->
  (forall bd, bd ∈ bands -> b_nodes bd !! node = None) ->
  let b := Z.to_nat (prio_clamp (sched_prio d)) in
  (exists bands' k', priority_add_process bands k node p = Ok (bands', k') /\ kern_ok k' /\ runnable k' p = true /\
     prio_ok bands' (if decide (p ∈ (concat qs).*2) then qs else alter (fun q => q ++ [(node, p)]) b qs)) /\
  (exists bands', priority_remove_process bands p = Ok bands' /\
     prio_ok bands' (filter (fun x : Z * Z => x.2 <> p) <$> qs)) /\
  priority_count_runnable bands k = Ok (Z.of_nat (length (runnable_in k (concat qs)))).
Proof.
  intros Hok Hk Hl Hd Hn Hf b. split; [by apply priority_add_spec|]. split.
  - apply priority_remove_spec; [done|]. intros ->. rewrite (ko_null _ Hk) in Hd. done.
  - apply priority_count_spec; [apply Hok|done].
Qed.

(** ** Concrete run: the low-priority process is queued first *)

Definition demo_prio : list prio_band :=
  match ('(s, k) ← priority_add_process prio_boot demo_kern 1000 100; priority_add_process s k 1016 200) with
  | Ok (s, _) => s | _ => prio_boot end.
Definition demo_bands : list queue := [[]; []; [(1000, 100)]; []; []; [(1016, 200)]; []; []].

Lemma prio_ok_boot : prio_ok prio_boot (replicate IR0_SCHED_PRIO_BANDS []).
Proof.
  constructor; [done| |constructor]. repeat constructor; try apply rr_ok_boot.
Qed.

Lemma demo_prio_ok : prio_ok demo_prio demo_bands.
Proof.
  destruct (priority_add_spec prio_boot demo_kern _ 1000 100 {| state := PROCESS_READY; task_state := TASK_SCHED_RUNNABLE; sched_prio := 2 |} prio_ok_boot demo_kern_ok)
    as (b1 & k1 & E1 & Hk1 & _ & H1); [reflexivity|done| |].
  { intros bd Hbd. repeat (apply elem_of_cons in Hbd as [->|Hbd]; [reflexivity|]). by apply not_elem_of_nil in Hbd. }
  vm_compute in E1. injection E1 as <- <-.
  destruct (priority_add_spec _ _ _ 1016 200 {| state := PROCESS_READY; task_state := TASK_SCHED_RUNNABLE; sched_prio := 5 |} H1 Hk1)
    as (b2 & k2 & E2 & _ & _ & H2); [reflexivity|done| |].
  { intros bd Hbd. repeat (apply elem_of_cons in Hbd as [->|Hbd]; [reflexivity|]). by apply not_elem_of_nil in Hbd. }
  vm_compute in E2. injection E2 as <- <-. exact H2.
Qed.

Lemma demo_live_bands : live_bands demo_kern demo_bands.
Proof. exact demo_live. Qed.

Lemma demo_short q : q ∈ demo_bands -> (length q <= PRIO_MAX_ATTEMPTS)%nat.
Proof. intros Hq. repeat (apply elem_of_cons in Hq as [->|Hq]; [by vm_compute; lia|]). by apply not_elem_of_nil in Hq. Qed.

Lemma priority_schedule_next_correct_witness :
  prio_ok demo_prio demo_bands /\ kern_ok demo_kern /\
  exists bands' k', priority_schedule_next demo_prio demo_kern = Ok (bands', k') /\ prio_ok bands' demo_bands /\ current_process k' = 200.
Proof.
  split; [exact demo_prio_ok|]. split; [exact demo_kern_ok|].
  destruct (priority_schedule_next_correct demo_prio demo_kern demo_bands demo_prio_ok demo_live_bands demo_kern_ok demo_short)
    as [(bands' & k' & _ & _ & _ & _ & _ & _ & E & Hok & _)|[Hn _]].
  - exists bands', k'. split; [exact E|]. split; [exact Hok|].
    assert (Hc : match priority_schedule_next demo_prio demo_kern with Ok (_, k1) => current_process k1 | _ => 0 end = 200) by (vm_compute; reflexivity).
    rewrite E in Hc. exact Hc.
  - specialize (Hn 100 ltac:(by left)). discriminate.
Defined.

Lemma priority_queue_ops_witness :
  (exists bands', priority_remove_process demo_prio 100 = Ok bands' /\
     prio_ok bands' [[]; []; []; []; []; [(1016, 200)]; []; []]) /\
  priority_count_runnable demo_prio demo_kern = Ok 2.
Proof.
  destruct (priority_queue_ops demo_prio demo_kern demo_bands 2000 100 {| state := PROCESS_READY; task_state := TASK_SCHED_RUNNABLE; sched_prio := 2 |}
    demo_prio_ok demo_kern_ok demo_live_bands) as (_ & (bands' & E & Hok) & Hc); [reflexivity|done| |].
  - intros bd Hbd. repeat (apply elem_of_cons in Hbd as [->|Hbd]; [reflexivity|]). by apply not_elem_of_nil in Hbd.
  - split; [exists bands'; split; [exact E|exact Hok]|exact Hc].
Defined.

(** The boot self-test passes on empty bands. *)
Lemma priority_sched_selftest_passes :
  match priority_sched_selftest prio_boot demo_kern 300 400 1000 1016 with Ok (_, r) => r | _ => -2 end = 0.
Proof. vm_compute. reflexivity. Qed.
