(* ===== verification/Sched.v ===== *)
(** * Scheduler dispatch and reschedule helpers (src/sched/sched.c, sched_resched.c)

    [struct ir0_sched_ops] is the class [SchedOps]; its two instances are the
    round-robin and the priority backend.  [SchedLaws] states what the rest of
    the kernel relies on, both backends discharge it, and the helpers of
    sched_resched.c are verified against it. *)

From S2P Require Import Prelude Runq RrSched PrioSched.

(** ** The operations table *)

Class SchedOps (S : Type) := {
  op_add : S -> kern -> Z -> Z -> outcome (S * kern);
  op_remove : S -> Z -> outcome S;
  op_schedule_next : S -> kern -> outcome (S * kern);
  op_count_runnable : S -> kern -> outcome Z;
  op_promote : S -> kern -> Z -> outcome (S * kern)
}.

#[export] Instance ir0_rr_sched_ops : SchedOps rr_state := {|
  op_add := rr_add_process; op_remove := rr_remove_process; op_schedule_next := rr_schedule_next;
  op_count_runnable := rr_count_runnable; op_promote := rr_promote_process |}.

#[export] Instance ir0_priority_sched_ops : SchedOps (list prio_band) := {|
  op_add := priority_add_process; op_remove := priority_remove_process;
  op_schedule_next := priority_schedule_next; op_count_runnable := priority_count_runnable;
  op_promote := priority_promote_process |}.

(** Number of processes of [ps] that may run. *)
Definition n_runnable (k : kern) (ps : list Z) : nat := length (filter (fun p => runnable k p = true) ps).

Lemma n_runnable_zero k ps : n_runnable k ps = 0%nat <-> forall p, p ∈ ps -> runnable k p = false.
Proof.
  unfold n_runnable. split.
  - intros H p Hp. apply not_true_iff_false. intros Hr. apply length_zero_iff_nil in H.
    assert (Hx : p ∈ filter (fun p => runnable k p = true) ps) by (by apply list_elem_of_filter). rewrite H in Hx.
    by apply not_elem_of_nil in Hx.
  - intros H. apply length_zero_iff_nil. destruct (filter _ ps) as [|p l] eqn:E; [done|].
    assert (Hx : p ∈ filter (fun p => runnable k p = true) ps) by (rewrite E; by left).
    apply list_elem_of_filter in Hx as [Hx Hp]. rewrite H in Hx by done. done.
Qed.

#[export] Instance n_runnable_proper k : Proper ((≡ₚ) ==> (=)) (n_runnable k).
Proof. intros ps ps' Hp. unfold n_runnable. by rewrite Hp. Qed.

Lemma runnable_in_count k q : length (runnable_in k q) = n_runnable k q.*2.
Proof.
  unfold runnable_in, n_runnable. induction q as [|x q IH]; [done|]. rewrite fmap_cons, !filter_cons.
  destruct (decide _); simpl; by rewrite IH.
Qed.

(** What a backend promises: [holds s ps] says its state [s] queues exactly the
    processes [ps]. *)
Class SchedLaws (S : Type) `{!SchedOps S} := {
  holds : S -> list Z -> Prop;
  fresh_node_for : S -> Z -> Prop;
  capacity : nat;
  law_add : forall s ps k node p,
    holds s ps -> kern_ok k -> is_Some (procs k !! p) -> node <> 0 -> fresh_node_for s node ->
    exists s' k', op_add s k node p = Ok (s', k') /\ kern_ok k' /\
      process_set_sched_state k p PROCESS_READY = Ok k' /\
      holds s' (if decide (p ∈ ps) then ps else ps ++ [p]);
  law_remove : forall s ps p, holds s ps -> p <> 0 ->
    exists s', op_remove s p = Ok s' /\ holds s' (filter (fun x => x <> p) ps);
  law_next : forall s ps k,
    holds s ps -> kern_ok k -> (forall p, p ∈ ps -> is_Some (procs k !! p)) -> (length ps <= capacity)%nat ->
    (exists s' k' p, op_schedule_next s k = Ok (s', k') /\ holds s' ps /\ kern_ok k' /\ mild k k' /\
       p ∈ ps /\ runnable k p = true /\ current_process k' = p) \/
    (n_runnable k ps = 0%nat /\ exists s', op_schedule_next s k = Ok (s', k) /\ holds s' ps);
  law_count : forall s ps k, holds s ps -> (forall p, p ∈ ps -> is_Some (procs k !! p)) ->
    op_count_runnable s k = Ok (Z.of_nat (n_runnable k ps));
  law_promote : forall s ps k p, holds s ps -> kern_ok k -> is_Some (procs k !! p) ->
    exists s' k', op_promote s k p = Ok (s', k') /\ kern_ok k' /\ holds s' ps /\
      (k' = k \/ process_set_sched_state k p PROCESS_READY = Ok k')
}.

(** ** The round-robin backend *)

Lemma rr_count_walk_spec fuel s k q a b :
  rr_ok s q -> live_queue k q -> q = a ++ b -> b <> [] -> (length b < fuel)%nat ->
  rr_count_walk fuel s k (first_addr b 0) = Ok (Z.of_nat (length (runnable_in k b))).
Proof.
  revert a b. induction fuel as [|fuel IH]; intros a b Hok Hl E Hb Hf; [lia|].
  destruct b as [|[n p] b]; [done|]. pose proof Hok as Hok'. rewrite E in Hok'.
  destruct (rr_ok_middle _ _ _ _ _ Hok') as (Hn & Hna & _ & _ & _ & _ & _ & Hm & _).
  assert (Hp : p ∈ q.*2) by (rewrite E, fmap_app; apply elem_of_app; right; by left).
  pose proof (rk_nonnull _ _ Hok p Hp) as Hp0. destruct (Hl p Hp) as [d Hd].
  cbn [rr_count_walk first_addr]. unfold load_node. rewrite Hm. cbn [mbind outcome_bind or_ub n_process n_next].
  rewrite (decide_False (P := p = 0)) by done. unfold load_proc. rewrite Hd. cbn [mbind outcome_bind or_ub].
  rewrite counts_is_runnable, <- (runnable_state k p d Hd). unfold runnable_in. rewrite filter_cons. cbn [snd].
  assert (Hrest : (if decide (first_addr b 0 = 0 \/ first_addr b 0 = rr_head s) then Ok 0 else rr_count_walk fuel s k (first_addr b 0))
    = Ok (Z.of_nat (length (runnable_in k b)))).
  { destruct b as [|[nb pb] b]; [done|]. rewrite decide_False.
    - apply (IH (a ++ [(n, p)])); auto; [by rewrite <- app_assoc|simpl in *; lia].
    - simpl. intros [Hz|Hh].
      + destruct (rr_ok_addr _ _ nb Hok); [|done]. rewrite E, fmap_app. apply elem_of_app. right. right. by left.
      + destruct (rr_head_spec _ _ Hok') as [Hh' _]. rewrite Hh' in Hh. pose proof (rk_addrs _ _ Hok') as Hnd.
        rewrite fmap_app in Hnd. apply NoDup_app in Hnd as (_ & Hd1 & Hd2). destruct a as [|[na pa] a]; simpl in *.
        * subst. apply NoDup_cons in Hd2 as [Hx _]. apply Hx. by left.
        * apply (Hd1 na); [by left|]. rewrite <- Hh. right. by left. }
  rewrite Hrest. cbn [mbind outcome_bind]. unfold runnable_in. f_equal.
  destruct (runnable k p); [rewrite decide_True by done; simpl length; lia|by rewrite decide_False by done].
Qed.

Lemma rr_promote_walk_spec fuel s q a b p :
  rr_ok s q -> q = a ++ b -> (length b < fuel)%nat ->
  exists w, rr_promote_walk fuel s (first_addr b 0) p = Ok w /\ (w = 0 \/ w ∈ q.*1).
Proof.
  revert a b. induction fuel as [|fuel IH]; intros a b Hok E Hf; [lia|].
  destruct b as [|[n p'] b]; simpl; [eauto|]. pose proof Hok as Hok'. rewrite E in Hok'.
  destruct (rr_ok_middle _ _ _ _ _ Hok') as (Hn & _ & _ & _ & _ & _ & _ & Hm & _).
  rewrite decide_False by done. unfold load_node. rewrite Hm. simpl.
  destruct (decide (p' = p)); [exists n; split; [done|right]; rewrite E, fmap_app; apply elem_of_app; right; by left|].
  destruct (decide _); [eauto|]. apply (IH (a ++ [(n, p')])); auto; [by rewrite <- app_assoc|simpl in *; lia].
Qed.

Lemma length_fmap2 (q : queue) : length q.*2 = length q.
Proof. apply length_fmap. Qed.

Lemma filter_snd (q : queue) p : (filter (fun x : Z * Z => x.2 <> p) q).*2 = filter (fun x => x <> p) q.*2.
Proof.
  induction q as [|x q IH]; [done|]. rewrite fmap_cons, !filter_cons. destruct (decide (x.2 <> p)); [|done].
  by rewrite fmap_cons, IH.
Qed.

#[export] Instance rr_sched_laws : SchedLaws rr_state.
Proof.
  refine {| holds := fun s ps => exists q, rr_ok s q /\ ps = q.*2;
            fresh_node_for := fun s n => rr_nodes s !! n = None;
            capacity := RR_MAX_PICK_ATTEMPTS |}.
  - intros s ps k node p (q & Hok & ->) Hk Hp Hn Hf.
    assert (Hp0 : p <> 0) by (intros ->; rewrite (ko_null _ Hk) in Hp; by destruct Hp).
    destruct (rr_add_spec s k q node p Hok Hp Hp0 Hn Hf) as (s' & k' & E & Hok' & _ & Ek).
    destruct (wake_spec k p Hk Hp) as (k1 & Ek1 & Hk1 & _). rewrite Ek in Ek1. injection Ek1 as <-.
    exists s', k'. splits; auto. destruct (decide _); eexists; (split; [exact Hok'|]); [done|by rewrite fmap_app].
  - intros s ps p (q & Hok & ->) Hp. destruct (rr_remove_spec s q p Hok Hp) as (s' & E & Hok' & _).
    exists s'. split; [done|]. eexists. split; [exact Hok'|]. by rewrite filter_snd.
  - intros s ps k (q & Hok & ->) Hk Hl Hlen. rewrite length_fmap in Hlen.
    destruct (find_runnable k (upcoming s q)) as [(o1 & x & o2 & Eu & Hn & Hx)|Hn].
    + left. destruct (rr_schedule_next_found s k q o1 x o2 Hok Hl Eu Hn Hx) as (s' & E & Hok' & _ & Hxq).
      { pose proof (rotation_upcoming s q) as (a & b & Eq & E'). rewrite Eu in E'. apply (f_equal length) in E'.
        rewrite Eq in Hlen. rewrite !length_app in *. simpl in E'. lia. }
      destruct (switch_spec k x.2 Hk Hx) as (k' & E2 & Hk' & Hm & Hc & _). exists s', k', x.2. simpl. rewrite E, E2.
      splits; auto; [eauto|]. by apply list_elem_of_fmap_2.
    + right. assert (Hn' : forall p, p ∈ q.*2 -> runnable k p = false).
      { intros p Hp. apply list_elem_of_fmap in Hp as (x & -> & Hx). apply Hn. by apply (rotation_in _ _ _ (rotation_upcoming s q)). }
      split; [by apply n_runnable_zero|]. destruct (rr_schedule_next_idle s k q Hok Hl Hn') as (s' & E & Hok'). eauto.
  - intros s ps k (q & Hok & ->) Hl. simpl. unfold rr_count_runnable. destruct (rr_head_spec _ _ Hok) as [Hh He].
    destruct (decide (rr_head s = 0)) as [H0|H0]; [by rewrite (proj1 He H0)|].
    rewrite Hh, (rr_count_walk_spec _ s k q [] q), runnable_in_count; auto; [by rewrite <- He|by apply rr_ok_fuel].
  - intros s ps k p (q & Hok & ->) Hk Hp. simpl. unfold rr_promote_process.
    destruct (decide (p = 0 \/ rr_head s = 0)); [exists s, k; splits; eauto|].
    destruct (rr_head_spec _ _ Hok) as [Hh _].
    destruct (rr_promote_walk_spec (walk_fuel (rr_nodes s)) s q [] q p Hok eq_refl (rr_ok_fuel _ _ Hok)) as (w & Ew & Hw).
    rewrite Hh, Ew. cbn [mbind outcome_bind]. destruct (decide (w = 0)); [exists s, k; splits; eauto|].
    destruct (wake_spec k p Hk Hp) as (k' & Ek & Hk' & _). rewrite Ek. cbn [mbind outcome_bind].
    eexists _, k'. split; [reflexivity|]. splits; auto. exists q. split; [|done]. rewrite <- Hh. by apply rr_ok_cursor.
Defined.

(** ** The priority backend *)

Lemma concat_elem_fmap (qs : list queue) q p : q ∈ qs -> p ∈ q.*2 -> p ∈ (concat qs).*2.
Proof.
  intros Hq Hp. apply list_elem_of_fmap in Hp as (x & -> & Hx). apply list_elem_of_fmap_2.
  apply list_elem_of_In, in_concat. exists q. by rewrite <- !list_elem_of_In.
Qed.

Lemma concat_length_le (qs : list queue) q : q ∈ qs -> (length q <= length (concat qs))%nat.
Proof.
  induction qs as [|q0 qs IH]; [by intros ?%not_elem_of_nil|]. simpl. rewrite length_app.
  intros Hq. apply elem_of_cons in Hq as [->|Hq]; [lia|]. apply IH in Hq. lia.
Qed.

#[export] Instance prio_sched_laws : SchedLaws (list prio_band).
Proof.
  refine {| holds := fun bands ps => exists qs, prio_ok bands qs /\ ps ≡ₚ (concat qs).*2;
            fresh_node_for := fun bands n => forall bd, bd ∈ bands -> b_nodes bd !! n = None;
            capacity := PRIO_MAX_ATTEMPTS |}.
  - intros s ps k node p (qs & Hok & Hps) Hk Hp Hn Hf. pose proof Hp as [d Hd].
    destruct (priority_add_spec s k qs node p d Hok Hk Hd Hn Hf) as (s' & k' & E & Hk' & _ & Hok').
    destruct (wake_spec k p Hk Hp) as (k1 & Ek1 & _).
    assert (Ek : k' = k1).
    { revert E. simpl. unfold priority_add_process. destruct (decide (p = 0)) as [->|]; [by rewrite (ko_null _ Hk) in Hd|].
      rewrite decide_False by done. unfold prio_band_of. rewrite decide_False by done. unfold load_proc. rewrite Hd. cbn [mbind outcome_bind or_ub].
      destruct (prio_already_queued s p) as [[|]| |]; cbn [mbind outcome_bind]; try done; rewrite ?Ek1; cbn [mbind outcome_bind]; [congruence|].
      destruct (s !! _) as [bd|]; cbn [mbind outcome_bind or_ub]; [|done]. destruct (band_link bd node p); cbn [mbind outcome_bind]; try done.
      congruence. }
    subst k1. exists s', k'. splits; auto.
    destruct (decide (p ∈ (concat qs).*2)) as [Hin|Hnin].
    + exists qs. split; [done|]. rewrite decide_True by (by rewrite Hps). done.
    + eexists. split; [exact Hok'|]. rewrite decide_False by (by rewrite Hps).
      pose proof Hok as []. apply Forall2_length in po_bands. pose proof (prio_clamp_range (sched_prio d)).
      rewrite concat_alter_snoc by (rewrite <- po_bands, po_len; unfold IR0_SCHED_PRIO_BANDS, IR0_SCHED_PRIO_MAX in *; lia).
      simpl. rewrite Hps. by rewrite Permutation_app_comm.
  - intros s ps p (qs & Hok & Hps) Hp. destruct (priority_remove_spec s qs p Hok Hp) as (s' & E & Hok').
    exists s'. split; [done|]. eexists. split; [exact Hok'|]. by rewrite concat_filter, filter_snd, Hps.
  - intros s ps k (qs & Hok & Hps) Hk Hl Hlen. rewrite Hps, length_fmap in Hlen.
    assert (Hl' : live_bands k qs) by (intros p Hp; apply Hl; by rewrite Hps).
    pose proof Hok as [Hln Hb Hnd]. pose proof (Forall2_length _ _ _ Hb) as Hlq. simpl. unfold priority_schedule_next, priority_pick_next.
    destruct (pick_bands_spec IR0_SCHED_PRIO_BANDS s k qs Hb Hl') as (s' & cand & -> & Hf & Hlb & Hcase); [|lia|].
    { intros q Hq. apply concat_length_le in Hq. lia. }
    assert (Hok' : prio_ok s' qs) by (constructor; auto; congruence).
    cbn [mbind outcome_bind]. destruct Hcase as [[-> Hall]|(b & bd & q & o1 & x & o2 & _ & _ & Hq & Hu & _ & Hx & -> & H0 & _)].
    + right. split; [|exists s'; split; [done|eauto]]. apply n_runnable_zero. intros p Hp. rewrite Hps in Hp.
      apply list_elem_of_fmap in Hp as (x & -> & Hx). apply list_elem_of_In, in_concat in Hx as (q & Hq & Hx).
      apply list_elem_of_In in Hq, Hx. apply list_elem_of_lookup_1 in Hq as [b Hq].
      apply (Hall b q); [apply lookup_lt_Some in Hq; lia|done|]. by apply list_elem_of_fmap_2.
    + left. rewrite decide_False by done. destruct (switch_spec k x.2 Hk Hx) as (k' & -> & Hk' & Hm & Hc & _).
      cbn [mbind outcome_bind]. exists s', k', x.2. splits; auto; [eauto|]. rewrite Hps.
      apply (concat_elem_fmap _ q); [by eapply list_elem_of_lookup_2|]. apply list_elem_of_fmap_2.
      apply (rotation_in _ _ _ (rotation_upcoming (as_rr bd) q)). rewrite Hu. apply elem_of_app. right. by left.
  - intros s ps k (qs & Hok & Hps) Hl. simpl. rewrite (priority_count_spec s k qs); [|apply Hok|intros p Hp; apply Hl; by rewrite Hps].
    by rewrite runnable_in_count, Hps.
  - intros s ps k p (qs & Hok & Hps) Hk Hp. simpl. unfold priority_promote_process, prio_band_of.
    destruct (decide (p = 0)); [exists s, k; splits; eauto|]. pose proof Hp as [d Hd]. unfold load_proc. rewrite Hd.
    cbn [mbind outcome_bind or_ub]. pose proof Hok as [Hln Hb Hnd]. pose proof (prio_clamp_range (sched_prio d)).
    destruct (lookup_lt_is_Some_2 s (Z.to_nat (prio_clamp (sched_prio d)))) as [bd Hbd].
    { rewrite Hln. unfold IR0_SCHED_PRIO_BANDS, IR0_SCHED_PRIO_MAX in *. lia. }
    rewrite Hbd. cbn [mbind outcome_bind or_ub]. destruct (Forall2_lookup_l _ _ _ _ _ Hb Hbd) as (q & Hq & Hbq).
    rewrite (find_node_spec _ _ _ q) by (apply Hbq || apply (rr_ok_fuel _ _ Hbq)). cbn [mbind outcome_bind].
    destruct (decide (node_of q p = 0)) as [Hz|Hz]; [exists s, k; splits; eauto|].
    destruct (wake_spec k p Hk Hp) as (k' & Ek & Hk' & _). rewrite Ek. cbn [mbind outcome_bind].
    eexists _, k'. split; [reflexivity|]. splits; auto. exists qs. split; [|done]. constructor; auto.
    + by rewrite length_insert.
    + rewrite <- (list_insert_id qs _ q Hq). apply Forall2_insert; [done|]. apply (rr_ok_cursor _ _ _ Hbq). right.
      unfold node_of in *. destruct (list_find _ q) as [[i [nd pn]]|] eqn:Ef; [|done]. apply list_find_Some in Ef as (Hi & _).
      apply (list_elem_of_fmap_2 fst q (nd, pn)). by eapply list_elem_of_lookup_2.
Defined.

(** ** Dispatch (sched.c) and reschedule helpers (sched_resched.c) *)

(** The tick handler's pending flag (clock_system.c) next to the backend. *)
Record sched_sys (S : Type) := { backend : S; machine : kern; sched_resched_pending : bool }.
Arguments backend {S} _.
Arguments machine {S} _.
Arguments sched_resched_pending {S} _.

Definition with_sched {S} (x : S * kern) (y : sched_sys S) : sched_sys S :=
  {| backend := x.1; machine := x.2; sched_resched_pending := sched_resched_pending y |}.

Section dispatch.
Context {S : Type} `{!SchedOps S}.

Definition sched_add_process (y : sched_sys S) (node proc : Z) : outcome (sched_sys S) :=
  x ← op_add (backend y) (machine y) node proc; Ok (with_sched x y).

Definition sched_remove_process (y : sched_sys S) (proc : Z) : outcome (sched_sys S) :=
  s ← op_remove (backend y) proc; Ok (with_sched (s, machine y) y).

Definition sched_schedule_next (y : sched_sys S) : outcome (sched_sys S) :=
  x ← op_schedule_next (backend y) (machine y); Ok (with_sched x y).

Definition sched_count_runnable (y : sched_sys S) : outcome Z := op_count_runnable (backend y) (machine y).

Definition sched_promote_process (y : sched_sys S) (proc : Z) : outcome (sched_sys S) :=
  x ← op_promote (backend y) (machine y) proc; Ok (with_sched x y).

Definition clock_take_sched_resched_pending (y : sched_sys S) : sched_sys S * bool :=
  ({| backend := backend y; machine := machine y; sched_resched_pending := false |}, sched_resched_pending y).

(** [!current_process || current_process->state ...]: the state, if any. *)
Definition current_state (k : kern) : outcome (option process_state_t) :=
  if decide (current_process k = 0) then Ok None
  else d ← load_proc k (current_process k); Ok (Some (state d)).

Definition sched_try_preempt_blocked (y : sched_sys S) : outcome (sched_sys S) :=
  st ← current_state (machine y);
  if decide (st <> Some PROCESS_BLOCKED) then Ok y else
  c ← sched_count_runnable y;
  if decide (c = 0) then Ok y else sched_schedule_next y.

Definition sched_user_return_take_switch (y : sched_sys S) : outcome (sched_sys S * bool) :=
  st ← current_state (machine y);
  if decide (st = None \/ st = Some PROCESS_BLOCKED) then Ok (y, false) else
  c ← sched_count_runnable y;
  if decide (c <= 1) then Ok (y, false) else
  let '(y, pending) := clock_take_sched_resched_pending y in
  Ok (y, pending).

Definition sched_need_resched_user_return (y : sched_sys S) : outcome (sched_sys S) :=
  '(y, sw) ← sched_user_return_take_switch y;
  if sw : bool then sched_schedule_next y else Ok y.
End dispatch.

(** ** Runs of scheduler calls *)

Inductive sched_op :=
| SAdd (node proc : Z) | SRemove (proc : Z) | SNext | SPromote (proc : Z)
| SPreemptBlocked | SUserReturn | STick | SBlock.

Section runs.
Context {S : Type} `{!SchedOps S, !SchedLaws S}.

(** [STick] is the timer interrupt raising the pending flag; [SBlock] is the
    current process going to sleep through [process_set_sched_state]. *)
Definition sched_exec (y : sched_sys S) (op : sched_op) : outcome (sched_sys S) :=
  match op with
  | SAdd node p => sched_add_process y node p
  | SRemove p => sched_remove_process y p
  | SNext => sched_schedule_next y
  | SPromote p => sched_promote_process y p
  | SPreemptBlocked => sched_try_preempt_blocked y
  | SUserReturn => sched_need_resched_user_return y
  | STick => Ok {| backend := backend y; machine := machine y; sched_resched_pending := true |}
  | SBlock => k ← process_set_sched_state (machine y) (current_process (machine y)) PROCESS_BLOCKED;
              Ok (with_sched (backend y, k) y)
  end.

Definition sched_op_ok (y : sched_sys S) (op : sched_op) : Prop :=
  match op with
  | SAdd node p => node <> 0 /\ fresh_node_for (backend y) node /\ is_Some (procs (machine y) !! p)
  | SRemove p => p <> 0
  | SPromote p => is_Some (procs (machine y) !! p)
  | _ => True
  end.

(** The whole-system invariant: the backend queues exactly [ps], all of them
    exist, and the machine's process states are coherent. *)
Record sched_inv (y : sched_sys S) (ps : list Z) : Prop := {
  si_holds : holds (backend y) ps;
  si_kern : kern_ok (machine y);
  si_live : forall p, p ∈ ps -> is_Some (procs (machine y) !! p)
}.

Definition ps_after (ps : list Z) (op : sched_op) : list Z :=
  match op with
  | SAdd _ p => if decide (p ∈ ps) then ps else ps ++ [p]
  | SRemove p => filter (fun x => x <> p) ps
  | _ => ps
  end.

Lemma set_state_dom k k' p st : process_set_sched_state k p st = Ok k' ->
  forall x, is_Some (procs k !! x) -> is_Some (procs k' !! x).
Proof.
  unfold process_set_sched_state. destruct (decide _); [intros [= <-]; auto|]. unfold load_proc.
  destruct (procs k !! p) as [d|]; [|done]. simpl. intros [= <-] x Hx. simpl. rewrite lookup_insert_is_Some'. auto.
Qed.

Lemma block_ok k : kern_ok k -> exists k', process_set_sched_state k (current_process k) PROCESS_BLOCKED = Ok k' /\ kern_ok k'.
Proof.
  intros []. destruct (decide (current_process k = 0)) as [Hc|Hc].
  - exists k. unfold process_set_sched_state. rewrite decide_True by (by left). split; [done|by constructor].
  - destruct ko_current as [?|[d Hd]]; [done|]. rewrite (set_state_Ok _ _ d) by done. eexists. split; [reflexivity|].
    constructor; simpl.
    + intros x dx. simpl. rewrite lookup_insert_Some. intros [[<- <-]|[_ Hx]]; [done|by apply ko_views in Hx].
    + intros x dx. rewrite lookup_insert_Some. intros [[<- <-]|[_ Hx]]; [done|by apply ko_sole].
    + right. by rewrite lookup_insert_eq.
    + by rewrite lookup_insert_ne.
Qed.

Lemma schedule_next_inv y ps :
  sched_inv y ps -> (length ps <= capacity)%nat ->
  (exists y' p, sched_schedule_next y = Ok y' /\ sched_inv y' ps /\ p ∈ ps /\ runnable (machine y) p = true /\
     current_process (machine y') = p /\ sched_resched_pending y' = sched_resched_pending y) \/
  (n_runnable (machine y) ps = 0%nat /\ exists y', sched_schedule_next y = Ok y' /\ sched_inv y' ps /\
     machine y' = machine y /\ sched_resched_pending y' = sched_resched_pending y).
Proof.
  intros [Hh Hk Hl] Hc. unfold sched_schedule_next.
  destruct (law_next _ _ _ Hh Hk Hl Hc) as [(s' & k' & p & -> & Hh' & Hk' & Hm & Hp & Hr & Hcur)|[Hz (s' & -> & Hh')]].
  - left. eexists _, p. split; [reflexivity|]. splits; auto. constructor; simpl; auto.
    intros x Hx. apply not_eq_None_Some. rewrite (mi_dom _ _ Hm). by apply not_eq_None_Some, Hl.
  - right. split; [done|]. eexists. split; [reflexivity|]. splits; auto. by constructor.
Qed.

Lemma current_state_ok k : kern_ok k -> exists st, current_state k = Ok st /\
  match st with None => current_process k = 0
  | Some s => exists d, procs k !! current_process k = Some d /\ state d = s end.
Proof.
  intros []. unfold current_state. destruct (decide (current_process k = 0)) as [Hc|Hc]; [by exists None|].
  destruct ko_current as [?|[d Hd]]; [done|]. unfold load_proc. rewrite Hd. simpl. exists (Some (state d)). eauto.
Qed.

Lemma sched_exec_inv y ps op :
  sched_inv y ps -> (length ps <= capacity)%nat -> sched_op_ok y op ->
  exists y', sched_exec y op = Ok y' /\ sched_inv y' (ps_after ps op).
Proof.
  intros Hi Hc Hop. pose proof Hi as [Hh Hk Hl]. destruct op; simpl in *.
  - destruct Hop as (Hn & Hf & Hp). unfold sched_add_process.
    destruct (law_add _ _ _ _ _ Hh Hk Hp Hn Hf) as (s' & k' & -> & Hk' & Ek & Hh').
    eexists. split; [reflexivity|]. constructor; simpl; auto. intros x Hx. apply (set_state_dom _ _ _ _ Ek).
    destruct (decide (proc ∈ ps)); [auto|]. apply elem_of_app in Hx as [?|Hx]; [auto|]. by apply list_elem_of_singleton in Hx as ->.
  - unfold sched_remove_process. destruct (law_remove _ _ _ Hh Hop) as (s' & -> & Hh').
    eexists. split; [reflexivity|]. constructor; simpl; auto. intros x Hx. apply list_elem_of_filter in Hx as [_ Hx]. auto.
  - destruct (schedule_next_inv _ _ Hi Hc) as [(y' & p & ? & ? & _)|(_ & y' & ? & ? & _)]; eauto.
  - unfold sched_promote_process. destruct (law_promote _ _ _ _ Hh Hk Hop) as (s' & k' & -> & Hk' & Hh' & Hkk).
    eexists. split; [reflexivity|]. constructor; simpl; auto. intros x Hx. destruct Hkk as [->|Ek]; [auto|].
    apply (set_state_dom _ _ _ _ Ek). auto.
  - unfold sched_try_preempt_blocked. destruct (current_state_ok _ Hk) as (st & -> & _). cbn [mbind outcome_bind].
    destruct (decide _); [eauto|]. unfold sched_count_runnable. rewrite (law_count _ _ _ Hh Hl). cbn [mbind outcome_bind].
    destruct (decide _); [eauto|]. destruct (schedule_next_inv _ _ Hi Hc) as [(y' & p & ? & ? & _)|(_ & y' & ? & ? & _)]; eauto.
  - unfold sched_need_resched_user_return, sched_user_return_take_switch.
    destruct (current_state_ok _ Hk) as (st & -> & _). cbn [mbind outcome_bind].
    destruct (decide _); [eauto|]. unfold sched_count_runnable. rewrite (law_count _ _ _ Hh Hl). cbn [mbind outcome_bind].
    destruct (decide _); [eauto|]. cbn [clock_take_sched_resched_pending mbind outcome_bind].
    set (y1 := {| backend := backend y; machine := machine y; sched_resched_pending := false |}).
    assert (Hi1 : sched_inv y1 ps) by by constructor.
    destruct (sched_resched_pending y); [|eauto].
    destruct (schedule_next_inv _ _ Hi1 Hc) as [(y' & p & ? & ? & _)|(_ & y' & ? & ? & _)]; eauto.
  - eexists. split; [reflexivity|]. by constructor.
  - destruct (block_ok _ Hk) as (k' & E & Hk'). rewrite E. cbn [mbind outcome_bind]. eexists. split; [reflexivity|].
    constructor; simpl; auto. intros x Hx. apply (set_state_dom _ _ _ _ E). auto.
Qed.

(** C25: whichever backend is active, every scheduler entry point (add, remove,
    schedule, promote, the two reschedule helpers, the tick and a process
    blocking itself) applied to a consistent system returns, without panic or
    wild access, to a consistent system that queues exactly the expected
    processes: process and task state agree, at most the current process is
    RUNNING, and nothing is queued twice or lost. *)
Theorem sched_step_safe y ps op :
  sched_inv y ps -> (length ps <= capacity)%nat -> sched_op_ok y op ->
  exists y', sched_exec y op = Ok y' /\ sched_inv y' (ps_after ps op).
Proof. apply sched_exec_inv. Qed.

(** when the current process is blocked and some queued process can run,
    [sched_try_preempt_blocked] hands the CPU to a runnable queued process other
    than the blocked one; in every other case it changes nothing. *)
Theorem sched_preempt_blocked_progress y ps :
  sched_inv y ps -> (length ps <= capacity)%nat ->
  exists y', sched_try_preempt_blocked y = Ok y' /\ sched_inv y' ps /\
    (current_state (machine y) = Ok (Some PROCESS_BLOCKED) -> n_runnable (machine y) ps <> 0%nat ->
     current_process (machine y') ∈ ps /\ runnable (machine y) (current_process (machine y')) = true /\
     current_process (machine y') <> current_process (machine y)) /\
    (current_state (machine y) <> Ok (Some PROCESS_BLOCKED) \/ n_runnable (machine y) ps = 0%nat -> y' = y).
Proof.
  intros Hi Hc. pose proof Hi as [Hh Hk Hl]. unfold sched_try_preempt_blocked.
  destruct (current_state_ok _ Hk) as (st & Est & Hst). rewrite Est. cbn [mbind outcome_bind].
  destruct (decide (st <> Some PROCESS_BLOCKED)) as [Hn|Hn].
  { exists y. splits; auto. intros [= ->]. done. }
  assert (Hst' : st = Some PROCESS_BLOCKED) by by apply dec_stable. subst st.
  unfold sched_count_runnable. rewrite (law_count _ _ _ Hh Hl). cbn [mbind outcome_bind].
  destruct (decide (Z.of_nat (n_runnable (machine y) ps) = 0)) as [Hz|Hz].
  { exists y. splits; auto. intros; lia. }
  destruct (schedule_next_inv _ _ Hi Hc) as [(y' & p & -> & Hi' & Hp & Hr & Hcur & _)|[Hz' _]]; [|lia].
  exists y'. splits; auto.
  - intros _ _. rewrite Hcur. splits; auto. intros ->. destruct Hst as (d & Hd & Hs).
    rewrite (runnable_state _ _ _ Hd) in Hr. unfold is_runnable in Hr. by rewrite Hs in Hr.
  - intros [?|?]; [done|lia].
Qed.

(** On return to user mode the tick's pending flag leads to a switch only
    when the current process is not blocked and at least two processes can run;
    only then is the flag consumed, and without the flag nothing changes. *)
Theorem sched_user_return_correct y ps :
  sched_inv y ps -> (length ps <= capacity)%nat ->
  exists y' , sched_need_resched_user_return y = Ok y' /\ sched_inv y' ps /\
    (let eligible := current_process (machine y) <> 0 /\ current_state (machine y) <> Ok (Some PROCESS_BLOCKED) /\
                     (2 <= n_runnable (machine y) ps)%nat in
     (eligible -> sched_resched_pending y' = false) /\
     (eligible -> sched_resched_pending y = true ->
        current_process (machine y') ∈ ps /\ runnable (machine y) (current_process (machine y')) = true) /\
     (~ eligible -> y' = y) /\
     (sched_resched_pending y = false -> y' = y)).
Proof.
  intros Hi Hc. pose proof Hi as [Hh Hk Hl]. unfold sched_need_resched_user_return, sched_user_return_take_switch.
  destruct (current_state_ok _ Hk) as (st & Est & Hst). rewrite Est. cbn [mbind outcome_bind].
  destruct (decide (st = None \/ st = Some PROCESS_BLOCKED)) as [Hn|Hn].
  { exists y. splits; auto; intros (H1 & H2 & _); exfalso; destruct Hn as [-> | ->]; naive_solver. }
  unfold sched_count_runnable. rewrite (law_count _ _ _ Hh Hl). cbn [mbind outcome_bind].
  destruct (decide (Z.of_nat (n_runnable (machine y) ps) <= 1)) as [Hz|Hz].
  { exists y. splits; auto; intros (_ & _ & H2); exfalso; lia. }
  assert (Hel : current_process (machine y) <> 0 /\ Ok st <> Ok (Some PROCESS_BLOCKED) /\ (2 <= n_runnable (machine y) ps)%nat).
  { splits; [|naive_solver|lia]. destruct st as [st|]; [|naive_solver]. destruct Hst as (d & Hd & _).
    intros E. rewrite E, (ko_null _ Hk) in Hd. done. }
  cbn [clock_take_sched_resched_pending mbind outcome_bind].
  set (y1 := {| backend := backend y; machine := machine y; sched_resched_pending := false |}).
  assert (Hi1 : sched_inv y1 ps) by by constructor.
  destruct (sched_resched_pending y) eqn:Ep.
  - destruct (schedule_next_inv _ _ Hi1 Hc) as [(y' & p & -> & Hi' & Hp & Hr & Hcur & Hpd)|[Hz' _]].
    + exists y'. simpl in *. rewrite Hcur. splits; auto; [naive_solver|done].
    + unfold y1 in Hz'. simpl in Hz'. lia.
  - exists y1. splits; auto; [done|naive_solver|]. intros _. unfold y1. destruct y. simpl in *. by subst.
Qed.
End runs.

(** ** Concrete systems on both backends *)

Definition demo_sys : sched_sys rr_state := {| backend := demo_rr; machine := demo_kern; sched_resched_pending := true |}.
Definition demo_sys_prio : sched_sys (list prio_band) :=
  {| backend := demo_prio; machine := demo_kern; sched_resched_pending := true |}.

Lemma demo_sys_inv : sched_inv demo_sys [100; 200].
Proof. constructor; simpl; [exists demo_q; split; [exact demo_rr_ok|done]|exact demo_kern_ok|exact demo_live]. Qed.

Lemma demo_sys_prio_inv : sched_inv demo_sys_prio [100; 200].
Proof. constructor; simpl; [exists demo_bands; split; [exact demo_prio_ok|done]|exact demo_kern_ok|exact demo_live]. Qed.

Lemma sched_step_safe_witness :
  (exists y', sched_exec demo_sys (SRemove 100) = Ok y' /\ sched_inv y' [200]) /\
  (exists y', sched_exec demo_sys_prio SNext = Ok y' /\ sched_inv y' [100; 200]).
Proof.
  split.
  - apply (sched_step_safe demo_sys [100; 200] (SRemove 100) demo_sys_inv); [vm_compute; lia|done].
  - apply (sched_step_safe demo_sys_prio [100; 200] SNext demo_sys_prio_inv); [vm_compute; lia|done].
Defined.

(** After the first switch process 100 runs; it then blocks. *)
Definition demo_blocked : sched_sys rr_state :=
  match (y ← sched_exec demo_sys SNext; sched_exec y SBlock) with Ok y => y | _ => demo_sys end.

Lemma demo_blocked_inv : sched_inv demo_blocked [100; 200].
Proof.
  destruct (sched_exec_inv demo_sys [100; 200] SNext demo_sys_inv) as (y1 & E1 & H1); [vm_compute; lia|done|].
  destruct (sched_exec_inv y1 [100; 200] SBlock H1) as (y2 & E2 & H2); [vm_compute; lia|done|].
  vm_compute in E1. injection E1 as <-. vm_compute in E2. injection E2 as <-. exact H2.
Qed.

Lemma sched_preempt_blocked_progress_witness :
  current_process (machine demo_blocked) = 100 /\
  exists y', sched_try_preempt_blocked demo_blocked = Ok y' /\ current_process (machine y') ∈ [100; 200] /\
    current_process (machine y') <> 100.
Proof.
  split; [reflexivity|].
  destruct (sched_preempt_blocked_progress demo_blocked [100; 200] demo_blocked_inv) as (y' & E & _ & Hp & _); [vm_compute; lia|].
  exists y'. split; [exact E|].
  destruct Hp as (H1 & _ & H2); [reflexivity|vm_compute; lia|]. split; [exact H1|exact H2].
Defined.

Lemma sched_user_return_correct_witness :
  exists y', sched_need_resched_user_return demo_sys_prio = Ok y' /\ sched_inv y' [100; 200].
Proof.
  destruct (sched_user_return_correct demo_sys_prio [100; 200] demo_sys_prio_inv) as (y' & E & Hi & _); [vm_compute; lia|].
  exists y'. split; [exact E|exact Hi].
Defined.
