(* ===== verification/Rtc.v ===== *)
(** * Calendar time (src/kernel/lib/rtc_calendar.c)

    The pure half of the real-time clock driver: CMOS register formats to
    civil fields, and civil fields to seconds since 1970-01-01.  A NULL
    pointer is [None]; the fields are [uint8_t] (the year [uint16_t]), which
    [rtc_wf] records, and [time_t] is 64 bits wide, which no result leaves. *)

From S2P Require Import Prelude.

Definition RTC_STATUS_B_24HOUR : Z := 2.
Definition RTC_STATUS_B_BINARY : Z := 4.

Record rtc_time_t := { second : Z; minute : Z; hour : Z; day : Z; month : Z; year : Z; century : Z }.

Definition rtc_bcd_to_binary (bcd : Z) : Z := u8 (Z.shiftr bcd 4 * 10 + Z.land bcd 15).

Definition rtc_civil_year (rt : option rtc_time_t) : Z :=
  match rt with
  | None => 1970
  | Some t =>
      let y :=
        if decide (0 < century t /\ century t < 100) then u16 (century t * 100 + year t mod 100)
        else if decide (1970 <= year t) then year t
        else u16 (2000 + year t mod 100) in
      if decide (y < 1970) then 1970 else y
  end.

(** The leap-year test, written out twice in the source. *)
Definition leap_year (y : Z) : Z :=
  if decide (y mod 4 = 0 /\ (y mod 100 <> 0 \/ y mod 400 = 0)) then 1 else 0.

Definition days_in_month : list Z := [31; 28; 31; 30; 31; 30; 31; 31; 30; 31; 30; 31].

(** [for (uint16_t y = 1970; y < year; y++)]; [None] when the fuel is spent. *)
Fixpoint years_loop (fuel : nat) (y yr days : Z) : option Z :=
  match fuel with
  | O => None
  | S f => if decide (y < yr) then years_loop f (u16 (y + 1)) yr (days + (365 + leap_year y)) else Some days
  end.

(** [for (int m = 1; m < (int)rt->month && m <= 12; m++)]. *)
Fixpoint months_loop (fuel : nat) (m mon leap days : Z) : outcome (option Z) :=
  match fuel with
  | O => Ok None
  | S f =>
      if decide (m < mon /\ m <= 12) then
        d ← or_ub (days_in_month !! Z.to_nat (m - 1));
        months_loop f (m + 1) mon leap (days + (d + if decide (m = 2) then leap else 0))
      else Ok (Some days)
  end.

Definition rtc_fields_to_unix (rt : option rtc_time_t) : outcome (option Z) :=
  match rt with
  | None => Ok (Some 0)
  | Some t =>
      let yr := rtc_civil_year rt in
      let leap := leap_year yr in
      match years_loop (Z.to_nat yr) 1970 yr 0 with
      | None => Ok None
      | Some days =>
          r ← months_loop 13 1 (month t) leap days;
          match r with
          | None => Ok None
          | Some days =>
              let days := if decide (0 < day t /\ day t <= 31) then days + (day t - 1) else days in
              Ok (Some (days * 86400 + (if decide (hour t < 24) then hour t else 0) * 3600
                   + (if decide (minute t < 60) then minute t else 0) * 60
                   + (if decide (second t < 60) then second t else 0)))
          end
      end
  end.

Definition set_hour (h : Z) (t : rtc_time_t) : rtc_time_t :=
  {| second := second t; minute := minute t; hour := h; day := day t; month := month t; year := year t; century := century t |}.

Definition rtc_apply_cmos_format (time : option rtc_time_t) (status_b : Z) : option rtc_time_t :=
  match time with
  | None => None
  | Some t =>
      let hour_raw := hour t in
      let t :=
        if negb (flag_set status_b RTC_STATUS_B_BINARY) then
          {| second := rtc_bcd_to_binary (second t); minute := rtc_bcd_to_binary (minute t);
             hour := if negb (flag_set status_b RTC_STATUS_B_24HOUR) then rtc_bcd_to_binary (u8 (Z.land hour_raw 127))
                     else rtc_bcd_to_binary hour_raw;
             day := rtc_bcd_to_binary (day t); month := rtc_bcd_to_binary (month t);
             year := rtc_bcd_to_binary (u8 (Z.land (year t) 255)); century := rtc_bcd_to_binary (century t) |}
        else if negb (flag_set status_b RTC_STATUS_B_24HOUR) then set_hour (u8 (Z.land hour_raw 127)) t
        else t in
      Some
        (if negb (flag_set status_b RTC_STATUS_B_24HOUR) then
           if flag_set hour_raw 128 then
             if decide (hour t < 12) then set_hour (u8 (hour t + 12)) t else t
           else if decide (hour t = 12) then set_hour 0 t else t
         else t)
  end.

(** ** The widths of the fields *)

Definition rtc_wf (t : rtc_time_t) : Prop :=
  0 <= second t < 256 /\ 0 <= minute t < 256 /\ 0 <= hour t < 256 /\ 0 <= day t < 256 /\ 0 <= month t < 256 /\
  0 <= year t < 65536 /\ 0 <= century t < 256.

(** ** Reference: the proleptic Gregorian calendar in closed form *)

(** Days from 1970-01-01 to January 1st of year [y], by counting leap years. *)
Definition days_before_year (y : Z) : Z :=
  365 * (y - 1970) + ((y - 1) / 4 - (y - 1) / 100 + (y - 1) / 400) - 477.

(** Days of the year before month [m], by the 153-day rule of five-month
    groups that starts the year in March. *)
Definition days_before_month (leap m : Z) : Z :=
  if decide (m <= 2) then 31 * (m - 1) else (153 * (m - 3) + 2) / 5 + 59 + leap.

Definition month_length (y m : Z) : Z :=
  default 0 (days_in_month !! Z.to_nat (m - 1)) + if decide (m = 2) then leap_year y else 0.

Definition clip (lo hi v : Z) : Z := Z.max lo (Z.min hi v).

(** What the conversion computes from fields that need not form a date. *)
Definition unix_closed_form (t : rtc_time_t) : Z :=
  let y := rtc_civil_year (Some t) in
  (days_before_year y + days_before_month (leap_year y) (clip 1 13 (month t))
     + (if decide (1 <= day t <= 31) then day t - 1 else 0)) * 86400
  + (if decide (hour t < 24) then hour t else 0) * 3600
  + (if decide (minute t < 60) then minute t else 0) * 60
  + (if decide (second t < 60) then second t else 0).

(** ** Reference: the calendar as a clock that ticks once a second *)

Record civil := { c_year : Z; c_month : Z; c_day : Z; c_hour : Z; c_minute : Z; c_second : Z }.

Definition civil_of (t : rtc_time_t) : civil :=
  {| c_year := rtc_civil_year (Some t); c_month := month t; c_day := day t;
     c_hour := hour t; c_minute := minute t; c_second := second t |}.

Definition civil_ok (c : civil) : Prop :=
  1970 <= c_year c /\ 1 <= c_month c <= 12 /\ 1 <= c_day c <= month_length (c_year c) (c_month c) /\
  0 <= c_hour c < 24 /\ 0 <= c_minute c < 60 /\ 0 <= c_second c < 60.

Definition epoch : civil :=
  {| c_year := 1970; c_month := 1; c_day := 1; c_hour := 0; c_minute := 0; c_second := 0 |}.

(** The following second, carrying into minutes, hours, days, months, years. *)
Definition next_day (c : civil) : civil :=
  if decide (c_day c < month_length (c_year c) (c_month c)) then
    {| c_year := c_year c; c_month := c_month c; c_day := c_day c + 1; c_hour := 0; c_minute := 0; c_second := 0 |}
  else if decide (c_month c < 12) then
    {| c_year := c_year c; c_month := c_month c + 1; c_day := 1; c_hour := 0; c_minute := 0; c_second := 0 |}
  else {| c_year := c_year c + 1; c_month := 1; c_day := 1; c_hour := 0; c_minute := 0; c_second := 0 |}.

Definition next_second (c : civil) : civil :=
  if decide (c_second c < 59) then
    {| c_year := c_year c; c_month := c_month c; c_day := c_day c; c_hour := c_hour c; c_minute := c_minute c; c_second := c_second c + 1 |}
  else if decide (c_minute c < 59) then
    {| c_year := c_year c; c_month := c_month c; c_day := c_day c; c_hour := c_hour c; c_minute := c_minute c + 1; c_second := 0 |}
  else if decide (c_hour c < 23) then
    {| c_year := c_year c; c_month := c_month c; c_day := c_day c; c_hour := c_hour c + 1; c_minute := 0; c_second := 0 |}
  else next_day c.

(** ** Reference: the register contents of the clock chip

    Values are BCD unless the BINARY bit is set; without the 24HOUR bit the
    hour runs from 1 to 12 with bit 7 meaning PM. *)

Definition to_bcd (v : Z) : Z := v / 10 * 16 + v mod 10.
Definition cmos_value (status_b v : Z) : Z := if flag_set status_b RTC_STATUS_B_BINARY then v else to_bcd v.
Definition cmos_hour (status_b h : Z) : Z :=
  if flag_set status_b RTC_STATUS_B_24HOUR then cmos_value status_b h
  else cmos_value status_b (if decide (h mod 12 = 0) then 12 else h mod 12) + if decide (12 <= h) then 128 else 0.

Definition cmos_registers (status_b : Z) (t : rtc_time_t) : rtc_time_t :=
  {| second := cmos_value status_b (second t); minute := cmos_value status_b (minute t);
     hour := cmos_hour status_b (hour t); day := cmos_value status_b (day t); month := cmos_value status_b (month t);
     year := cmos_value status_b (year t); century := cmos_value status_b (century t) |}.

Ltac civil_fields := cbn [c_year c_month c_day c_hour c_minute c_second].

Section calendar.
Implicit Types t : rtc_time_t.

Lemma leap_year_bool y : leap_year y = 0 \/ leap_year y = 1.
Proof. unfold leap_year. case_decide; auto. Qed.

Lemma days_before_year_succ y : days_before_year (y + 1) = days_before_year y + (365 + leap_year y).
Proof.
  unfold days_before_year, leap_year. replace (y + 1 - 1) with y by lia.
  case_decide as H; Z.to_euclidean_division_equations; lia.
Qed.

Lemma years_loop_spec y yr days fuel : 0 <= y <= yr -> yr < 65536 -> (Z.to_nat (yr - y) < fuel)%nat ->
  years_loop fuel y yr days = Some (days + (days_before_year yr - days_before_year y)).
Proof.
  revert y days. induction fuel as [|f IH]; intros y days Hy Hr Hf; [lia|]. cbn [years_loop].
  case_decide as Hlt.
  - assert (E : u16 (y + 1) = y + 1) by (unfold u16; apply Z.mod_small; lia).
    rewrite E, IH by lia. f_equal. rewrite days_before_year_succ. lia.
  - f_equal. assert (y = yr) as -> by lia. lia.
Qed.

Lemma days_before_month_succ leap m : 1 <= m <= 12 ->
  exists d, days_in_month !! Z.to_nat (m - 1) = Some d /\
    days_before_month leap (m + 1) = days_before_month leap m + (d + if decide (m = 2) then leap else 0).
Proof.
  intros Hm. assert (Hc : m = 1 \/ m = 2 \/ m = 3 \/ m = 4 \/ m = 5 \/ m = 6 \/ m = 7 \/ m = 8 \/ m = 9 \/ m = 10 \/ m = 11 \/ m = 12) by lia.
  unfold days_before_month.
  repeat destruct Hc as [->|Hc]; [..|subst m]; (eexists; split; [reflexivity|]);
    repeat case_decide; try lia; Z.to_euclidean_division_equations; lia.
Qed.

Lemma months_loop_spec m mon leap days fuel : 1 <= m <= 13 -> (13 - m < Z.of_nat fuel) ->
  months_loop fuel m mon leap days =
    Ok (Some (days + (days_before_month leap (clip m 13 mon) - days_before_month leap m))).
Proof.
  revert m days. induction fuel as [|f IH]; intros m days Hm Hf; [lia|]. cbn [months_loop].
  destruct (decide (m < mon /\ m <= 12)) as [H|H].
  - destruct (days_before_month_succ leap m) as (d & -> & E); [lia|]. cbn [or_ub mbind outcome_bind].
    rewrite IH by lia. do 2 f_equal. rewrite E. unfold clip.
    replace (Z.max (m + 1) (Z.min 13 mon)) with (Z.max m (Z.min 13 mon)) by lia. lia.
  - do 2 f_equal. unfold clip. replace (Z.max m (Z.min 13 mon)) with m by lia. lia.
Qed.

Lemma rtc_civil_year_range t : rtc_wf t -> 1970 <= rtc_civil_year (Some t) < 65536.
Proof. intros (_ & _ & _ & _ & _ & Hy & Hc). unfold rtc_civil_year, u16. repeat case_decide; Z.to_euclidean_division_equations; lia. Qed.

Lemma days_before_1970 : days_before_year 1970 = 0.
Proof. reflexivity. Qed.

Lemma days_before_month_1 leap : days_before_month leap 1 = 0.
Proof. reflexivity. Qed.

Lemma rtc_fields_to_unix_eq t : rtc_wf t -> rtc_fields_to_unix (Some t) = Ok (Some (unix_closed_form t)).
Proof.
  intros Hwf. pose proof (rtc_civil_year_range t Hwf) as Hy. unfold rtc_fields_to_unix, unix_closed_form.
  set (y := rtc_civil_year (Some t)) in *. rewrite years_loop_spec by lia. rewrite months_loop_spec by lia.
  rewrite days_before_1970, days_before_month_1. cbn [mbind outcome_bind]. do 3 f_equal.
  repeat case_decide; lia.
Qed.

(** The seconds of a date are days, then the time of day. *)
Definition civil_seconds (c : civil) : Z :=
  (days_before_year (c_year c) + days_before_month (leap_year (c_year c)) (c_month c) + (c_day c - 1)) * 86400
  + c_hour c * 3600 + c_minute c * 60 + c_second c.

Lemma month_length_max y m : month_length y m <= 31.
Proof.
  unfold month_length. destruct (leap_year_bool y) as [->| ->];
  (destruct (Z.to_nat (m - 1)) as [|n] eqn:E;
    [case_decide; simpl; lia|do 12 (destruct n as [|n]; [simpl; case_decide; lia|]); simpl; case_decide; lia]).
Qed.

Lemma unix_closed_form_civil t : rtc_wf t -> civil_ok (civil_of t) -> unix_closed_form t = civil_seconds (civil_of t).
Proof.
  intros Hwf (Hy & Hm & Hd & Hh & Hmi & Hs). unfold unix_closed_form, civil_seconds. cbv zeta. cbn [civil_of c_year c_month c_day c_hour c_minute c_second] in *.
  pose proof (month_length_max (rtc_civil_year (Some t)) (month t)).
  rewrite !decide_True by lia. unfold clip. by replace (Z.max 1 (Z.min 13 (month t))) with (month t) by lia.
Qed.

Lemma next_day_seconds c : civil_ok c -> c_hour c = 23 -> c_minute c = 59 -> c_second c = 59 ->
  civil_seconds (next_day c) = civil_seconds c + 1.
Proof.
  intros (Hy & Hm & Hd & _) E1 E2 E3. unfold civil_seconds at 2. rewrite E1, E2, E3.
  destruct (days_before_month_succ (leap_year (c_year c)) (c_month c) Hm) as (d & Ed & Em).
  assert (El : month_length (c_year c) (c_month c) = d + if decide (c_month c = 2) then leap_year (c_year c) else 0)
    by (unfold month_length; by rewrite Ed).
  rewrite <- El in Em. clear El. unfold next_day. set (l := month_length _ _) in *. case_decide as H1.
  { unfold civil_seconds. civil_fields. lia. }
  case_decide as H2; unfold civil_seconds; civil_fields.
  - rewrite Em. lia.
  - assert (E : c_month c = 12) by lia. rewrite E in *. rewrite days_before_year_succ, days_before_month_1.
    assert (Ey : days_before_month (leap_year (c_year c)) (12 + 1) = 365 + leap_year (c_year c)) by (unfold days_before_month; rewrite decide_False by lia; Z.to_euclidean_division_equations; lia).
    rewrite Ey in Em. lia.
Qed.

Lemma next_second_seconds c : civil_ok c -> civil_seconds (next_second c) = civil_seconds c + 1.
Proof.
  intros Hok. pose proof Hok as (_ & _ & _ & Hh & Hmi & Hs). unfold next_second.
  case_decide; [unfold civil_seconds; civil_fields; lia|]. case_decide; [unfold civil_seconds; civil_fields; lia|].
  case_decide; [unfold civil_seconds; civil_fields; lia|]. apply next_day_seconds; auto; lia.
Qed.

Lemma next_day_ok c : civil_ok c -> civil_ok (next_day c).
Proof.
  intros (Hy & Hm & Hd & _). assert (Hl : forall y m, 1 <= m <= 12 -> 1 <= month_length y m).
  { intros y m Hm'. destruct (days_before_month_succ 0 m Hm') as (d & Ed & _). unfold month_length. rewrite Ed. cbn [default]. unfold id.
    assert (28 <= d).
    { apply list_elem_of_lookup_2 in Ed. revert d Ed. apply Forall_forall. unfold days_in_month. repeat constructor; lia. }
    destruct (leap_year_bool y) as [-> | ->]; case_decide; lia. }
  unfold next_day. case_decide; [unfold civil_ok; civil_fields; splits; lia|].
  case_decide; (unfold civil_ok; civil_fields; splits; try lia; apply Hl; lia).
Qed.

Lemma next_second_ok c : civil_ok c -> civil_ok (next_second c).
Proof.
  intros Hok. pose proof Hok as (Hy & Hm & Hd & Hh & Hmi & Hs). unfold next_second.
  case_decide; [unfold civil_ok; civil_fields; splits; lia|]. case_decide; [unfold civil_ok; civil_fields; splits; lia|].
  case_decide; [unfold civil_ok; civil_fields; splits; lia|]. by apply next_day_ok.
Qed.

(** ** Register formats *)

Lemma below_cases (n : nat) (P : Z -> bool) : forallb P (map Z.of_nat (seq 0 n)) = true -> forall v, 0 <= v < Z.of_nat n -> P v = true.
Proof.
  intros H v Hv. rewrite forallb_forall in H. apply H. apply in_map_iff. exists (Z.to_nat v). split; [lia|]. apply in_seq. lia.
Qed.

Lemma bcd_roundtrip v : 0 <= v < 100 -> rtc_bcd_to_binary (to_bcd v) = v.
Proof. intros Hv. apply Z.eqb_eq. revert v Hv. apply (below_cases 100 (fun v => rtc_bcd_to_binary (to_bcd v) =? v)). reflexivity. Qed.

Lemma bcd_year_roundtrip v : 0 <= v < 100 -> rtc_bcd_to_binary (u8 (Z.land (to_bcd v) 255)) = v.
Proof. intros Hv. apply Z.eqb_eq. revert v Hv. apply (below_cases 100 (fun v => rtc_bcd_to_binary (u8 (Z.land (to_bcd v) 255)) =? v)). reflexivity. Qed.

(** What [rtc_apply_cmos_format] makes of the hour register. *)
Definition decode_hour (bin h24 : bool) (raw : Z) : Z :=
  let h := if bin then if h24 then raw else u8 (Z.land raw 127)
           else if h24 then rtc_bcd_to_binary raw else rtc_bcd_to_binary (u8 (Z.land raw 127)) in
  if h24 then h
  else if flag_set raw 128 then if decide (h < 12) then u8 (h + 12) else h else if decide (h = 12) then 0 else h.

Definition encode_hour (bin h24 : bool) (h : Z) : Z :=
  let val v := if bin then v else to_bcd v in
  if h24 then val h else val (if decide (h mod 12 = 0) then 12 else h mod 12) + if decide (12 <= h) then 128 else 0.

Lemma hour_roundtrip bin h24 h : 0 <= h < 24 -> decode_hour bin h24 (encode_hour bin h24 h) = h.
Proof.
  intros Hh. apply Z.eqb_eq. revert h Hh. apply (below_cases 24 (fun h => decode_hour bin h24 (encode_hour bin h24 h) =? h)).
  by destruct bin, h24.
Qed.

Lemma cmos_hour_encode b h :
  cmos_hour b h = encode_hour (flag_set b RTC_STATUS_B_BINARY) (flag_set b RTC_STATUS_B_24HOUR) h.
Proof. done. Qed.

Lemma apply_cmos_fields b t :
  rtc_apply_cmos_format (Some t) b =
    Some (if flag_set b RTC_STATUS_B_BINARY then
            set_hour (decode_hour true (flag_set b RTC_STATUS_B_24HOUR) (hour t)) t
          else
            {| second := rtc_bcd_to_binary (second t); minute := rtc_bcd_to_binary (minute t);
               hour := decode_hour false (flag_set b RTC_STATUS_B_24HOUR) (hour t);
               day := rtc_bcd_to_binary (day t); month := rtc_bcd_to_binary (month t);
               year := rtc_bcd_to_binary (u8 (Z.land (year t) 255)); century := rtc_bcd_to_binary (century t) |}).
Proof.
  unfold rtc_apply_cmos_format, decode_hour. f_equal.
  destruct (flag_set b RTC_STATUS_B_BINARY), (flag_set b RTC_STATUS_B_24HOUR); cbn [negb hour set_hour];
    repeat case_match; destruct t; reflexivity.
Qed.
End calendar.

(** ** The conversions *)

(** For every value of the fields, dates or not, [rtc_fields_to_unix] runs its
    two loops to their end without leaving the month table and returns the
    closed-form day count of the Gregorian calendar: the civil year is clamped
    to 1970, a month past December counts the whole year, an out-of-range day,
    hour, minute or second counts as zero, and the result fits [time_t]. *)
Theorem rtc_fields_to_unix_closed_form t : rtc_wf t ->
  rtc_fields_to_unix (Some t) = Ok (Some (unix_closed_form t)) /\ 0 <= unix_closed_form t < 2 ^ 63.
Proof.
  intros Hwf. split; [by apply rtc_fields_to_unix_eq|]. pose proof (rtc_civil_year_range t Hwf) as Hy.
  destruct Hwf as (Hs & Hmi & Hh & Hd & Hm & _). unfold unix_closed_form. cbv zeta.
  set (y := rtc_civil_year (Some t)) in *. clearbody y.
  assert (Hdy : 0 <= days_before_year y < 2 ^ 25) by (unfold days_before_year; Z.to_euclidean_division_equations; lia).
  assert (Hdm : 0 <= days_before_month (leap_year y) (clip 1 13 (month t)) < 2 ^ 10).
  { unfold days_before_month, clip. destruct (leap_year_bool y) as [-> | ->]; case_decide; Z.to_euclidean_division_equations; lia. }
  repeat case_decide; lia.
Qed.

Lemma rtc_fields_to_unix_closed_form_witness :
  let t := {| second := 8; minute := 30; hour := 99; day := 0; month := 40; year := 24; century := 20 |} in
  rtc_wf t /\ rtc_fields_to_unix (Some t) = Ok (Some (unix_closed_form t)) /\ unix_closed_form t = 1735691408.
Proof. cbv zeta. split; [repeat split|split; [apply rtc_fields_to_unix_closed_form; repeat split|reflexivity]]; cbn; lia. Defined.

(** Seconds since the epoch are counted by the calendar: the epoch is 0 and
    the second after a date, with its carries into minutes, hours, days,
    months of the right length and leap years, is one more, whichever way the
    year is spread over the year and century fields. *)
Theorem rtc_unix_counts_seconds t t' : rtc_wf t -> rtc_wf t' -> civil_ok (civil_of t) ->
  civil_of t' = next_second (civil_of t) ->
  (civil_of t = epoch -> rtc_fields_to_unix (Some t) = Ok (Some 0)) /\
  exists v, rtc_fields_to_unix (Some t) = Ok (Some v) /\ rtc_fields_to_unix (Some t') = Ok (Some (v + 1)).
Proof.
  intros H H' Hok E. rewrite !rtc_fields_to_unix_eq by done. rewrite (unix_closed_form_civil t H Hok). split.
  { intros ->. reflexivity. }
  eexists. split; [done|]. rewrite (unix_closed_form_civil t'), E, next_second_seconds; auto.
  rewrite E. by apply next_second_ok.
Qed.

Lemma rtc_unix_counts_seconds_witness :
  let t := {| second := 59; minute := 59; hour := 23; day := 28; month := 2; year := 0; century := 20 |} in
  let t' := {| second := 0; minute := 0; hour := 0; day := 29; month := 2; year := 2000; century := 0 |} in
  civil_ok (civil_of t) /\
  exists v, rtc_fields_to_unix (Some t) = Ok (Some v) /\ rtc_fields_to_unix (Some t') = Ok (Some (v + 1)).
Proof.
  cbv zeta. split; [vm_compute; repeat split; congruence|].
  apply rtc_unix_counts_seconds; [repeat split; cbn; lia|repeat split; cbn; lia|vm_compute; repeat split; congruence|reflexivity].
Defined.

(** Reading the clock chip loses nothing: registers holding a time in any of
    the four formats (BCD or binary, 12 or 24 hours) decode to that time. *)
Theorem rtc_cmos_roundtrip b t :
  0 <= second t < 60 -> 0 <= minute t < 60 -> 0 <= hour t < 24 -> 0 <= day t < 32 -> 0 <= month t < 13 ->
  0 <= year t < 100 -> 0 <= century t < 100 ->
  rtc_apply_cmos_format (Some (cmos_registers b t)) b = Some t.
Proof.
  intros Hs Hmi Hh Hd Hm Hy Hc. rewrite apply_cmos_fields. f_equal. unfold cmos_registers, set_hour, cmos_value.
  cbn [hour second minute day month year century]. rewrite cmos_hour_encode.
  destruct (flag_set b RTC_STATUS_B_BINARY); rewrite hour_roundtrip by done.
  - by destruct t.
  - rewrite !bcd_roundtrip, bcd_year_roundtrip by lia. by destruct t.
Qed.

Lemma rtc_cmos_roundtrip_witness :
  let t := {| second := 7; minute := 45; hour := 0; day := 31; month := 12; year := 99; century := 19 |} in
  cmos_registers 0 t = {| second := 7; minute := 69; hour := 18; day := 49; month := 18; year := 153; century := 25 |} /\
  rtc_apply_cmos_format (Some (cmos_registers 0 t)) 0 = Some t.
Proof. cbv zeta. split; [reflexivity|]. apply rtc_cmos_roundtrip; cbn; lia. Defined.
