(* ===== verification/Pipe.v ===== *)
(** * Pipes (src/kernel/lib/pipe.c)

    A pipe is the struct at its address in [pipes]; touching a freed one is
    [UB].  The spinlock brackets make every operation atomic on this
    uniprocessor kernel.  [events] is the sequence of KTM records the operations
    emit, latest first. *)

From S2P Require Import Prelude.

Definition PIPE_SIZE : Z := 4096.
Definition PIPE_BUF : Z := PIPE_SIZE.

Record pipe_t := {
  buffer : list Z;
  read_pos : Z;
  write_pos : Z;
  count : Z;
  pipe_id : Z;
  fd_refs : Z;
  readers : Z;
  writers : Z;
  closed_read : bool;
  closed_write : bool;
  named : bool
}.

Inductive pipe_event :=
| EvCreate (id : Z)
| EvEndAcquire (id e readers writers : Z)
| EvEof (id readers writers count : Z)
| EvRead (id result writers count : Z)
| EvEpipe (id readers writers count : Z)
| EvWrite (id result readers count : Z)
| EvEndClose (id e readers writers : Z)
| EvBlock (id writers count : Z)
| EvWake (id e peers count : Z)
| EvCheckpoint (pipe_ok fd_ok : bool) (created destroyed : Z).

Record pipe_sys := {
  pipes : gmap Z pipe_t;
  pipe_stats_created : Z;
  pipe_stats_destroyed : Z;
  pipe_next_id : Z;
  events : list pipe_event
}.

Definition pipe_boot : pipe_sys := {|
  pipes := ∅; pipe_stats_created := 0; pipe_stats_destroyed := 0; pipe_next_id := 1; events := [] |}.

Definition load_pipe (y : pipe_sys) (p : Z) : outcome pipe_t := or_ub (pipes y !! p).

Definition store_pipe (p : Z) (v : pipe_t) (y : pipe_sys) : pipe_sys := {|
  pipes := <[p := v]> (pipes y); pipe_stats_created := pipe_stats_created y;
  pipe_stats_destroyed := pipe_stats_destroyed y; pipe_next_id := pipe_next_id y; events := events y |}.

Definition emit (e : pipe_event) (y : pipe_sys) : pipe_sys := {|
  pipes := pipes y; pipe_stats_created := pipe_stats_created y;
  pipe_stats_destroyed := pipe_stats_destroyed y; pipe_next_id := pipe_next_id y; events := e :: events y |}.

(** [pipe_stats_destroyed++; kfree(pipe);] *)
Definition free_pipe (p : Z) (y : pipe_sys) : pipe_sys := {|
  pipes := delete p (pipes y); pipe_stats_created := pipe_stats_created y;
  pipe_stats_destroyed := u64 (pipe_stats_destroyed y + 1); pipe_next_id := pipe_next_id y; events := events y |}.

Definition zero_pipe (id : Z) : pipe_t := {|
  buffer := replicate (Z.to_nat PIPE_SIZE) 0; read_pos := 0; write_pos := 0; count := 0; pipe_id := id;
  fd_refs := 0; readers := 0; writers := 0; closed_read := false; closed_write := false; named := false |}.

(** [fault] is KTM_FAULT_HIT("pipe.create"), [ptr] what [kmalloc_try] returned. *)
Definition pipe_create (fault : bool) (ptr : Z) (y : pipe_sys) : pipe_sys * Z :=
  if fault then (y, 0) else
  if decide (ptr = 0) then (y, 0) else
  let id := pipe_next_id y in
  (emit (EvCreate id)
     {| pipes := <[ptr := zero_pipe id]> (pipes y); pipe_stats_created := u64 (pipe_stats_created y + 1);
        pipe_stats_destroyed := pipe_stats_destroyed y; pipe_next_id := u64 (id + 1); events := events y |}, ptr).

Definition set_ends (p : pipe_t) (refs rd wr : Z) (cr cw : bool) : pipe_t := {|
  buffer := buffer p; read_pos := read_pos p; write_pos := write_pos p; count := count p; pipe_id := pipe_id p;
  fd_refs := refs; readers := rd; writers := wr; closed_read := cr; closed_write := cw; named := named p |}.

Definition pipe_acquire_end (y : pipe_sys) (pipe e : Z) : outcome pipe_sys :=
  if decide (pipe = 0) then Ok y else
  if decide (e <> 0 /\ e <> 1) then Ok y else
  p ← load_pipe y pipe;
  refs ← int_incr (fd_refs p);
  p' ← (if decide (e = 0) then
          rd ← int_incr (readers p);
          Ok (set_ends p refs rd (writers p) (if named p then false else closed_read p) (closed_write p))
        else
          wr ← int_incr (writers p);
          Ok (set_ends p refs (readers p) wr (closed_read p) (if named p then false else closed_write p)));
  Ok (emit (EvEndAcquire (pipe_id p') e (u32 (readers p')) (u32 (writers p'))) (store_pipe pipe p' y)).

Definition pipe_acquire (y : pipe_sys) (pipe : Z) : outcome pipe_sys :=
  if decide (pipe = 0) then Ok y else
  p ← load_pipe y pipe;
  refs ← int_incr (fd_refs p);
  Ok (store_pipe pipe (set_ends p refs (readers p) (writers p) (closed_read p) (closed_write p)) y).

(** [while (bytes_read < to_read)]: [n] bytes out of the ring. *)
Fixpoint read_loop (n : nat) (buf : list Z) (pos : Z) : outcome (list Z * Z) :=
  match n with
  | O => Ok ([], pos)
  | S m => b ← or_ub (buf !! Z.to_nat pos);
           '(bs, pos') ← read_loop m buf ((pos + 1) mod PIPE_SIZE);
           Ok (b :: bs, pos')
  end.

(** [while (bytes_written < to_write)]: the bytes [src] into the ring. *)
Fixpoint write_loop (src : list Z) (buf : list Z) (pos : Z) : outcome (list Z * Z) :=
  match src with
  | [] => Ok (buf, pos)
  | b :: src' => if decide (Z.to_nat pos < length buf)%nat
                 then write_loop src' (<[Z.to_nat pos := b]> buf) ((pos + 1) mod PIPE_SIZE) else UB
  end.

Definition set_ring (p : pipe_t) (buf : list Z) (rp wp c : Z) : pipe_t := {|
  buffer := buf; read_pos := rp; write_pos := wp; count := c; pipe_id := pipe_id p;
  fd_refs := fd_refs p; readers := readers p; writers := writers p;
  closed_read := closed_read p; closed_write := closed_write p; named := named p |}.

(** [pipe_read]: the result and the bytes stored through [buf]. *)
Definition pipe_read (y : pipe_sys) (pipe buf n : Z) : outcome (pipe_sys * Z * list Z) :=
  if decide (pipe = 0 \/ buf = 0) then Ok (y, - EINVAL, []) else
  p ← load_pipe y pipe;
  if decide (count p = 0) then
    if decide (writers p <= 0) then
      Ok (emit (EvEof (pipe_id p) (u32 (readers p)) (u32 (writers p)) (count p)) y, 0, [])
    else Ok (emit (EvRead (pipe_id p) (u64 (- EAGAIN)) (u32 (writers p)) (count p)) y, - EAGAIN, [])
  else
  let to_read := if decide (n < count p) then n else count p in
  '(bs, rp) ← read_loop (Z.to_nat to_read) (buffer p) (read_pos p);
  let p' := set_ring p (buffer p) rp (write_pos p) (count p - to_read) in
  Ok (emit (EvRead (pipe_id p) to_read (u32 (writers p)) (count p')) (store_pipe pipe p' y), s32 to_read, bs).

(** [pipe_write]: [src] is the [n]-byte object behind [buf]. *)
Definition pipe_write (y : pipe_sys) (pipe buf : Z) (src : list Z) : outcome (pipe_sys * Z) :=
  if decide (pipe = 0 \/ buf = 0) then Ok (y, - EINVAL) else
  p ← load_pipe y pipe;
  if decide (readers p <= 0) then
    Ok (emit (EvEpipe (pipe_id p) (u32 (readers p)) (u32 (writers p)) (count p)) y, - EPIPE)
  else
  let n := Z.of_nat (length src) in
  let space := PIPE_SIZE - count p in
  if decide (space = 0) then Ok (y, - EAGAIN) else
  if decide (n <= PIPE_BUF /\ space < n) then Ok (y, - EAGAIN) else
  let to_write := if decide (n < space) then n else space in
  '(buf', wp) ← write_loop (take (Z.to_nat to_write) src) (buffer p) (write_pos p);
  let p' := set_ring p buf' (read_pos p) wp (count p + to_write) in
  Ok (emit (EvWrite (pipe_id p) to_write (u32 (readers p)) (count p')) (store_pipe pipe p' y), s32 to_write).

(** [pipe_close_end]; [pipe_wake_all] only wakes sleepers. *)
Definition pipe_close_end (y : pipe_sys) (pipe e : Z) : outcome pipe_sys :=
  if decide (pipe = 0) then Ok y else
  if decide (e <> 0 /\ e <> 1) then Ok y else
  p ← load_pipe y pipe;
  let p := if decide (e = 0)
           then set_ends p (fd_refs p) (if decide (0 < readers p) then readers p - 1 else readers p) (writers p)
                         true (closed_write p)
           else set_ends p (fd_refs p) (readers p) (if decide (0 < writers p) then writers p - 1 else writers p)
                         (closed_read p) true in
  let '(p, last) := if decide (0 < fd_refs p)
                    then (set_ends p (fd_refs p - 1) (readers p) (writers p) (closed_read p) (closed_write p),
                          bool_decide (fd_refs p - 1 = 0))
                    else (p, false) in
  let y := emit (EvEndClose (pipe_id p) e (u32 (readers p)) (u32 (writers p))) (store_pipe pipe p y) in
  Ok (if last && negb (named p) then free_pipe pipe y else y).

Definition pipe_ktm_note_read_sleep (y : pipe_sys) (pipe : Z) : outcome pipe_sys :=
  if decide (pipe = 0) then Ok y else
  p ← load_pipe y pipe; Ok (emit (EvBlock (pipe_id p) (u32 (writers p)) (count p)) y).

Definition pipe_ktm_note_read_wake (y : pipe_sys) (pipe : Z) : outcome pipe_sys :=
  if decide (pipe = 0) then Ok y else
  p ← load_pipe y pipe; Ok (emit (EvWake (pipe_id p) 0 (u32 (writers p)) (count p)) y).

Definition pipe_ktm_note_write_wake (y : pipe_sys) (pipe : Z) : outcome pipe_sys :=
  if decide (pipe = 0) then Ok y else
  p ← load_pipe y pipe; Ok (emit (EvWake (pipe_id p) 1 (u32 (readers p)) (count p)) y).

Definition pipe_abort_unopened (y : pipe_sys) (pipe : Z) : outcome pipe_sys :=
  if decide (pipe = 0) then Ok y else _ ← load_pipe y pipe; Ok (free_pipe pipe y).

Definition pipe_stats_get (y : pipe_sys) : Z * Z := (pipe_stats_created y, pipe_stats_destroyed y).

(** The fd-slot counters come from the descriptor layer. *)
Definition pipe_ipc_lifecycle_audit (y : pipe_sys) (fd_created fd_destroyed : Z) : pipe_sys :=
  let '(created, destroyed) := pipe_stats_get y in
  emit (EvCheckpoint (bool_decide (created = destroyed)) (bool_decide (fd_created = fd_destroyed)) created destroyed) y.

(** ** The ring as a queue *)

(** [n] bytes of the ring from [pos]. *)
Fixpoint ring_bytes (buf : list Z) (pos : Z) (n : nat) : list Z :=
  match n with
  | O => []
  | S m => default 0 (buf !! Z.to_nat pos) :: ring_bytes buf ((pos + 1) mod PIPE_SIZE) m
  end.

Definition contents (p : pipe_t) : list Z := ring_bytes (buffer p) (read_pos p) (Z.to_nat (count p)).

Record ring_ok (p : pipe_t) : Prop := {
  ri_len : Z.of_nat (length (buffer p)) = PIPE_SIZE;
  ri_rd : 0 <= read_pos p < PIPE_SIZE;
  ri_count : 0 <= count p <= PIPE_SIZE;
  ri_wr : write_pos p = (read_pos p + count p) mod PIPE_SIZE
}.

Lemma step_mod a k : (((a + k) mod PIPE_SIZE) + 1) mod PIPE_SIZE = (a + (k + 1)) mod PIPE_SIZE.
Proof. rewrite Zplus_mod_idemp_l. f_equal. lia. Qed.

Lemma step_add pos n : 0 <= pos < PIPE_SIZE -> ((pos + 1) mod PIPE_SIZE + n) mod PIPE_SIZE = (pos + (n + 1)) mod PIPE_SIZE.
Proof. intros. rewrite Zplus_mod_idemp_l. f_equal. lia. Qed.

Lemma step_range pos : 0 <= (pos + 1) mod PIPE_SIZE < PIPE_SIZE.
Proof. apply Z.mod_pos_bound. reflexivity. Qed.

Lemma length_ring_bytes buf pos n : length (ring_bytes buf pos n) = n.
Proof. revert pos; induction n; intros pos; simpl; auto. Qed.

Lemma ring_bytes_app buf pos n m : 0 <= pos < PIPE_SIZE ->
  ring_bytes buf pos (n + m) = ring_bytes buf pos n ++ ring_bytes buf ((pos + Z.of_nat n) mod PIPE_SIZE) m.
Proof.
  revert pos; induction n as [|n IH]; intros pos Hp.
  - simpl. rewrite Z.add_0_r, Z.mod_small by done. done.
  - cbn [ring_bytes Nat.add app]. rewrite IH by apply step_range. do 3 f_equal.
    rewrite step_add by done. f_equal. lia.
Qed.

Lemma read_loop_spec n buf pos :
  Z.of_nat (length buf) = PIPE_SIZE -> 0 <= pos < PIPE_SIZE ->
  read_loop n buf pos = Ok (ring_bytes buf pos n, (pos + Z.of_nat n) mod PIPE_SIZE).
Proof.
  intros Hl. revert pos; induction n as [|n IH]; intros pos Hp; simpl.
  - by rewrite Z.add_0_r, Z.mod_small.
  - destruct (lookup_lt_is_Some_2 buf (Z.to_nat pos)) as [b Hb]; [lia|]. rewrite Hb. simpl.
    rewrite IH by apply step_range. simpl. do 2 f_equal. rewrite step_add by done. f_equal. lia.
Qed.

(** A write outside a window of the ring leaves the window's bytes alone. *)
Lemma ring_bytes_insert_out buf pos n i b :
  0 <= pos < PIPE_SIZE ->
  (forall k, 0 <= k < Z.of_nat n -> (pos + k) mod PIPE_SIZE <> i) -> 0 <= i ->
  ring_bytes (<[Z.to_nat i := b]> buf) pos n = ring_bytes buf pos n.
Proof.
  intros Hp Hi Hi0. revert pos Hp Hi; induction n as [|n IH]; intros pos Hp Hi; simpl; [done|]. f_equal.
  - rewrite list_lookup_insert_ne; [done|]. intros E. apply (Hi 0); [lia|]. rewrite Z.add_0_r, Z.mod_small by done. lia.
  - apply IH; [apply step_range|]. intros k Hk. rewrite step_add by done. apply Hi. lia.
Qed.

Lemma mod_window_ne a j k : 0 <= j < k -> k < PIPE_SIZE -> (a + j) mod PIPE_SIZE <> (a + k) mod PIPE_SIZE.
Proof.
  intros Hj Hk E. assert (Hd : (k - j) mod PIPE_SIZE = 0).
  { replace (k - j) with ((a + k) - (a + j)) by lia. rewrite Zminus_mod, E, Z.sub_diag. apply Zmod_0_l. }
  rewrite Z.mod_small in Hd by lia. lia.
Qed.

(** Writing [src] behind the [c] queued bytes appends it to the queue. *)
Lemma write_loop_spec src buf rp c :
  Z.of_nat (length buf) = PIPE_SIZE -> 0 <= rp < PIPE_SIZE ->
  Z.of_nat c + Z.of_nat (length src) <= PIPE_SIZE ->
  exists buf', write_loop src buf ((rp + Z.of_nat c) mod PIPE_SIZE) =
    Ok (buf', (rp + Z.of_nat (c + length src)) mod PIPE_SIZE) /\
    length buf' = length buf /\ ring_bytes buf' rp (c + length src) = ring_bytes buf rp c ++ src.
Proof.
  revert buf c. induction src as [|b src IH]; intros buf c Hl Hr Hc.
  - exists buf. simpl. rewrite Nat.add_0_r, app_nil_r. auto.
  - simpl length in Hc. cbn [write_loop]. set (wp := (rp + Z.of_nat c) mod PIPE_SIZE).
    assert (Hwp : 0 <= wp < PIPE_SIZE) by (apply Z.mod_pos_bound; reflexivity).
    rewrite decide_True by lia.
    destruct (IH (<[Z.to_nat wp := b]> buf) (S c)) as (buf' & E & Hlen & Hb); [by rewrite length_insert|done|lia|].
    exists buf'. rewrite length_insert in Hlen.
    replace ((wp + 1) mod PIPE_SIZE) with ((rp + Z.of_nat (S c)) mod PIPE_SIZE) by (unfold wp; rewrite step_mod; f_equal; lia).
    simpl length. replace (c + S (length src))%nat with (S c + length src)%nat by lia. splits; auto.
    rewrite Hb. replace (S c) with (c + 1)%nat by lia. rewrite ring_bytes_app by done.
    rewrite ring_bytes_insert_out; [|done| |lia].
    + rewrite <- app_assoc. f_equal. cbn [ring_bytes app]. fold wp. rewrite list_lookup_insert_eq by lia. done.
    + intros k Hk. unfold wp. apply mod_window_ne; lia.
Qed.

(** An anonymous pipe whose counters are [r] and [w]. *)
Record ends_ok (p : pipe_t) (r w : Z) : Prop := {
  en_refs : fd_refs p = r + w; en_rd : readers p = r; en_wr : writers p = w;
  en_nonneg : 0 <= r /\ 0 <= w; en_anon : named p = false
}.

(** ** Reading and writing *)

Lemma s32_small n : 0 <= n <= PIPE_SIZE -> s32 n = n.
Proof. intros. unfold s32, PIPE_SIZE in *. rewrite Z.mod_small by lia. lia. Qed.

Lemma read_data_spec y ptr p buf n :
  ptr <> 0 -> buf <> 0 -> pipes y !! ptr = Some p -> ring_ok p -> 0 <= n -> count p <> 0 ->
  let m := Z.min n (count p) in
  exists p' bs, pipe_read y ptr buf n =
      Ok (emit (EvRead (pipe_id p) m (u32 (writers p)) (count p')) (store_pipe ptr p' y), m, bs) /\
    Z.of_nat (length bs) = m /\ ring_ok p' /\ contents p = bs ++ contents p' /\
    count p' = count p - m /\ readers p' = readers p /\ writers p' = writers p /\ (forall r w, ends_ok p r w -> ends_ok p' r w).
Proof.
  intros Hptr Hbuf Hp [] Hn Hc m. unfold pipe_read. rewrite decide_False by tauto. unfold load_pipe. rewrite Hp.
  cbn [mbind outcome_bind or_ub]. rewrite decide_False by done.
  replace (if decide (n < count p) then n else count p) with m by (unfold m; case_decide; lia).
  assert (Hm : 0 <= m <= count p) by (unfold m; lia).
  rewrite read_loop_spec by done. cbn [mbind outcome_bind]. rewrite s32_small by lia.
  eexists _, _. split; [reflexivity|]. rewrite length_ring_bytes. simpl. splits; auto; try lia.
  3: { intros r w []. by constructor. }
  - constructor; simpl; auto; try lia; [apply Z.mod_pos_bound; reflexivity|].
    rewrite Zplus_mod_idemp_l, ri_wr0. f_equal. lia.
  - unfold contents. simpl. replace (Z.to_nat (count p)) with (Z.to_nat m + Z.to_nat (count p - m))%nat by lia.
    by rewrite ring_bytes_app.
Qed.

Lemma write_data_spec y ptr p buf src :
  ptr <> 0 -> buf <> 0 -> pipes y !! ptr = Some p -> ring_ok p -> 0 < readers p ->
  let n := Z.of_nat (length src) in let space := PIPE_SIZE - count p in
  space <> 0 -> ~ (n <= PIPE_BUF /\ space < n) ->
  let m := Z.min n space in
  exists p', pipe_write y ptr buf src =
      Ok (emit (EvWrite (pipe_id p) m (u32 (readers p)) (count p')) (store_pipe ptr p' y), m) /\
    ring_ok p' /\ contents p' = contents p ++ take (Z.to_nat m) src /\
    count p' = count p + m /\ readers p' = readers p /\ writers p' = writers p /\ (forall r w, ends_ok p r w -> ends_ok p' r w).
Proof.
  intros Hptr Hbuf Hp [] Hr n space Hs Ha m. unfold pipe_write. rewrite decide_False by tauto. unfold load_pipe. rewrite Hp.
  cbn [mbind outcome_bind or_ub]. fold n space. rewrite !decide_False by (done || lia).
  replace (if decide (n < space) then n else space) with m by (unfold m; case_decide; lia).
  assert (Hm : 0 <= m <= space /\ m <= n) by (unfold m, n, space; lia).
  assert (Htl : length (take (Z.to_nat m) src) = Z.to_nat m) by (rewrite length_take; unfold n in *; lia).
  destruct (write_loop_spec (take (Z.to_nat m) src) (buffer p) (read_pos p) (Z.to_nat (count p))) as (buf' & E & Hlen & Hb);
    [done|done|rewrite Htl; unfold space in *; lia|].
  rewrite Z2Nat.id in E by lia. rewrite ri_wr0, E. cbn [mbind outcome_bind]. rewrite s32_small by (unfold space in *; lia).
  eexists. split; [reflexivity|]. unfold contents. simpl. rewrite Htl in *.
  replace (Z.to_nat (count p + m)) with (Z.to_nat (count p) + Z.to_nat m)%nat by lia. splits; auto; [|intros r w []; by constructor].
  constructor; simpl; auto; [lia|unfold space in *; lia|]. f_equal. lia.
Qed.

Lemma pipe_read_cases y ptr p buf n :
  ptr <> 0 -> buf <> 0 -> pipes y !! ptr = Some p -> ring_ok p -> 0 <= n ->
  exists y' r bs, pipe_read y ptr buf n = Ok (y', r, bs) /\
    ((count p = 0 /\ pipes y' = pipes y /\ bs = [] /\ r = if decide (writers p <= 0) then 0 else - EAGAIN) \/
     (count p <> 0 /\ exists p', r = Z.min n (count p) /\ Z.of_nat (length bs) = r /\
        pipes y' = <[ptr := p']> (pipes y) /\ ring_ok p' /\ contents p = bs ++ contents p' /\
        readers p' = readers p /\ writers p' = writers p /\ (forall r w, ends_ok p r w -> ends_ok p' r w))).
Proof.
  intros Hptr Hb Hp Hok Hn. destruct (decide (count p = 0)) as [Hc|Hc].
  - unfold pipe_read, load_pipe. rewrite decide_False by tauto. rewrite Hp. cbn [mbind outcome_bind or_ub].
    rewrite (decide_True (P := count p = 0)) by done.
    destruct (decide (writers p <= 0)); do 3 eexists; (split; [reflexivity|]); left; auto.
  - destruct (read_data_spec y ptr p buf n Hptr Hb Hp Hok Hn Hc) as (p' & bs & -> & Hl & Hok' & Hcon & _ & Hr & Hw & He).
    do 3 eexists. split; [reflexivity|]. right. split; [done|]. exists p'. simpl. splits; auto.
Qed.

Lemma pipe_write_cases y ptr p buf src :
  ptr <> 0 -> buf <> 0 -> pipes y !! ptr = Some p -> ring_ok p ->
  let n := Z.of_nat (length src) in let space := PIPE_SIZE - count p in
  exists y' r, pipe_write y ptr buf src = Ok (y', r) /\
    ((readers p <= 0 /\ r = - EPIPE /\ pipes y' = pipes y) \/
     (0 < readers p /\ (space = 0 \/ (n <= PIPE_BUF /\ space < n)) /\ r = - EAGAIN /\ y' = y) \/
     (0 < readers p /\ space <> 0 /\ (n <= PIPE_BUF -> r = n) /\ r = Z.min n space /\
      exists p', pipes y' = <[ptr := p']> (pipes y) /\ ring_ok p' /\
        contents p' = contents p ++ take (Z.to_nat r) src /\ readers p' = readers p /\ writers p' = writers p /\ (forall r w, ends_ok p r w -> ends_ok p' r w))).
Proof.
  intros Hptr Hb Hp Hok n space. destruct (decide (readers p <= 0)) as [Hr|Hr].
  { unfold pipe_write, load_pipe. rewrite decide_False by tauto. rewrite Hp. cbn [mbind outcome_bind or_ub].
    rewrite decide_True by done. do 2 eexists. split; [reflexivity|]. left. auto. }
  destruct (decide (space = 0 \/ (n <= PIPE_BUF /\ space < n))) as [Hs|Hs].
  - unfold pipe_write, load_pipe. rewrite decide_False by tauto. rewrite Hp. cbn [mbind outcome_bind or_ub].
    rewrite decide_False by done. fold n space. exists y, (- EAGAIN). split; [|right; left; splits; auto; lia].
    destruct Hs as [Hs|Hs]; [by rewrite decide_True|]. rewrite (decide_True (P := n <= PIPE_BUF /\ space < n)) by done. by case_decide.
  - destruct (write_data_spec y ptr p buf src Hptr Hb Hp Hok) as (p' & -> & Hok' & Hcon & _ & Hrd & Hwr & He); [lia|tauto|tauto|].
    fold n space in Hcon |- *. do 2 eexists. split; [reflexivity|]. right. right. splits; auto; [lia|lia|].
    exists p'. simpl. splits; auto.
Qed.

Lemma zero_pipe_ok id : ring_ok (zero_pipe id) /\ contents (zero_pipe id) = [].
Proof. split; [|done]. by constructor. Qed.

(** ** Reference counts *)

Inductive end_op := EAcquire (e : Z) | EClose (e : Z).

Definition end_exec (y : pipe_sys) (ptr : Z) (op : end_op) : outcome pipe_sys :=
  match op with EAcquire e => pipe_acquire_end y ptr e | EClose e => pipe_close_end y ptr e end.

Fixpoint end_run (y : pipe_sys) (ptr : Z) (ops : list end_op) : outcome pipe_sys :=
  match ops with [] => Ok y | op :: ops' => y ← end_exec y ptr op; end_run y ptr ops' end.

(** The contract: open read ends and write ends, or [None] once the pipe is
    gone.  A call on a dead pipe, or closing an end nobody holds, is a caller
    error ([None] of the outer option). *)
Definition abs_end (st : option (Z * Z)) (op : end_op) : option (option (Z * Z)) :=
  match st, op with
  | Some (r, w), EAcquire 0 => Some (Some (r + 1, w))
  | Some (r, w), EAcquire 1 => Some (Some (r, w + 1))
  | Some (r, w), EClose 0 => if decide (0 < r) then Some (if decide (r + w = 1) then None else Some (r - 1, w)) else None
  | Some (r, w), EClose 1 => if decide (0 < w) then Some (if decide (r + w = 1) then None else Some (r, w - 1)) else None
  | _, _ => None
  end.

Fixpoint abs_ends (st : option (Z * Z)) (ops : list end_op) : option (option (Z * Z)) :=
  match ops with [] => Some st | op :: ops' => st' ← abs_end st op; abs_ends st' ops' end.

Definition ends_match (y0 y : pipe_sys) (ptr : Z) (p0 : pipe_t) (st : option (Z * Z)) : Prop :=
  match st with
  | Some (r, w) => exists p, pipes y !! ptr = Some p /\ ends_ok p r w /\ contents p = contents p0 /\
      (ring_ok p0 -> ring_ok p) /\ pipe_stats_destroyed y = pipe_stats_destroyed y0
  | None => pipes y !! ptr = None /\ pipe_stats_destroyed y = u64 (pipe_stats_destroyed y0 + 1)
  end /\ delete ptr (pipes y) = delete ptr (pipes y0) /\ pipe_stats_created y = pipe_stats_created y0.

Lemma ends_match_store y0 y ptr p0 p p' e r w :
  pipes y !! ptr = Some p -> contents p = contents p0 -> (ring_ok p0 -> ring_ok p) ->
  pipe_stats_destroyed y = pipe_stats_destroyed y0 -> delete ptr (pipes y) = delete ptr (pipes y0) ->
  pipe_stats_created y = pipe_stats_created y0 ->
  contents p' = contents p -> (ring_ok p -> ring_ok p') -> ends_ok p' r w ->
  ends_match y0 (emit e (store_pipe ptr p' y)) ptr p0 (Some (r, w)).
Proof.
  intros Hp Hc Hrk Hd Hdel Hcr Hc' Hrk' He. split; [|split; [|done]].
  - exists p'. simpl. rewrite lookup_insert_eq. splits; auto. congruence.
  - simpl. by rewrite delete_insert_eq.
Qed.

Lemma set_ends_ring p refs rd wr cr cw :
  contents (set_ends p refs rd wr cr cw) = contents p /\ (ring_ok p -> ring_ok (set_ends p refs rd wr cr cw)).
Proof. split; [done|]. intros []. by constructor. Qed.

Lemma acquire_refines y0 y ptr p0 r w e st' :
  ptr <> 0 -> ends_match y0 y ptr p0 (Some (r, w)) -> r + w < INT_MAX ->
  abs_end (Some (r, w)) (EAcquire e) = Some st' ->
  exists y', pipe_acquire_end y ptr e = Ok y' /\ ends_match y0 y' ptr p0 st'.
Proof.
  intros Hptr ((p & Hp & [] & Hc & Hrk & Hd) & Hdel & Hcr) Hmax Ha. unfold pipe_acquire_end, load_pipe, int_incr.
  rewrite decide_False by done.
  assert (He : e = 0 \/ e = 1) by (destruct e as [|[]|]; simpl in Ha; try done; auto).
  rewrite decide_False by lia. rewrite Hp. cbn [mbind outcome_bind or_ub]. rewrite (decide_True (P := fd_refs p < INT_MAX)) by lia.
  destruct He as [-> | ->]; simpl in Ha; injection Ha as <-; cbn [mbind outcome_bind].
  - rewrite (decide_True (P := 0 = 0)), (decide_True (P := readers p < INT_MAX)) by (done || lia). cbn [mbind outcome_bind]. eexists. split; [reflexivity|].
    eapply ends_match_store; eauto; [apply set_ends_ring|]. constructor; simpl; auto; lia.
  - rewrite (decide_False (P := 1 = 0)), (decide_True (P := writers p < INT_MAX)) by (done || lia). cbn [mbind outcome_bind].
    eexists. split; [reflexivity|].
    eapply ends_match_store; eauto; [apply set_ends_ring|]. constructor; simpl; auto; lia.
Qed.

Lemma close_refines y0 y ptr p0 r w e st' :
  ptr <> 0 -> ends_match y0 y ptr p0 (Some (r, w)) ->
  abs_end (Some (r, w)) (EClose e) = Some st' ->
  exists y', pipe_close_end y ptr e = Ok y' /\ ends_match y0 y' ptr p0 st'.
Proof.
  intros Hptr ((p & Hp & [] & Hc & Hrk & Hd) & Hdel & Hcr) Ha. unfold pipe_close_end, load_pipe.
  rewrite decide_False by done.
  assert (He : e = 0 \/ e = 1) by (destruct e as [|[]|]; simpl in Ha; try done; auto).
  rewrite decide_False by lia. rewrite Hp. cbn [mbind outcome_bind or_ub].
  assert (Hpos : (e = 0 /\ 0 < r \/ e = 1 /\ 0 < w) /\
    st' = if decide (r + w = 1) then None else Some (if decide (e = 0) then r - 1 else r, if decide (e = 0) then w else w - 1)).
  { destruct He as [-> | ->]; simpl in Ha; (destruct (decide (0 < _)); [|done]); injection Ha as <-; (split; [auto|done]). }
  destruct Hpos as [Hpos ->]. set (p1 := if decide (e = 0) then _ else _).
  assert (Hp1 : fd_refs p1 = r + w /\ readers p1 = (if decide (e = 0) then r - 1 else r) /\
    writers p1 = (if decide (e = 0) then w else w - 1) /\ named p1 = false /\ contents p1 = contents p /\ (ring_ok p -> ring_ok p1)).
  { unfold p1. destruct He as [-> | ->].
    - rewrite !(decide_True (P := 0 = 0)) by done. rewrite (decide_True (P := 0 < readers p)) by lia.
      splits; first [done | simpl; lia | intros []; by constructor].
    - rewrite !(decide_False (P := 1 = 0)) by done. rewrite (decide_True (P := 0 < writers p)) by lia.
      splits; first [done | simpl; lia | intros []; by constructor]. }
  destruct Hp1 as (F1 & F2 & F3 & F4 & F5 & F6). clearbody p1.
  rewrite (decide_True (P := 0 < fd_refs p1)) by lia. eexists. split; [reflexivity|]. simpl. rewrite F1, F4.
  destruct (decide (r + w = 1)) as [H1|H1].
  - rewrite bool_decide_true by lia. simpl. split; [|simpl; rewrite delete_insert_eq; split; [by rewrite delete_delete_eq|done]].
    simpl. by rewrite lookup_delete_eq, Hd.
  - rewrite bool_decide_false by lia. simpl. eapply ends_match_store; eauto; [intros Hrp; destruct (F6 Hrp); by constructor|].
    destruct He as [-> | ->]; [rewrite !(decide_True (P := 0 = 0)) in * by done|rewrite !(decide_False (P := 1 = 0)) in * by done];
      (constructor; simpl; auto; lia).
Qed.

Lemma abs_end_bound r w op r' w' : abs_end (Some (r, w)) op = Some (Some (r', w')) -> r' + w' <= r + w + 1.
Proof.
  destruct op as [e|e]; destruct e as [|[]|]; simpl; try done; intros Ha.
  all: try (injection Ha as <- <-; lia).
  all: destruct (decide (0 < _)); [|done]; destruct (decide (r + w = 1)); simplify_eq; lia.
Qed.

Lemma end_run_refines y0 y ptr p0 st ops st' :
  ptr <> 0 -> ends_match y0 y ptr p0 st -> abs_ends st ops = Some st' ->
  match st with Some (r, w) => r + w + Z.of_nat (length ops) <= INT_MAX | None => True end ->
  exists y', end_run y ptr ops = Ok y' /\ ends_match y0 y' ptr p0 st'.
Proof.
  intros Hptr. revert y st. induction ops as [|op ops IH]; intros y st Hm Ha Hb; simpl in *.
  - injection Ha as <-. eauto.
  - destruct (abs_end st op) as [st1|] eqn:E; [|done]. simpl in Ha. destruct st as [[r w]|]; [|done].
    assert (Hex : exists y1, end_exec y ptr op = Ok y1 /\ ends_match y0 y1 ptr p0 st1).
    { destruct op; simpl; [eapply acquire_refines; eauto; lia|eapply close_refines; eauto]. }
    destruct Hex as (y1 & -> & Hm1). cbn [mbind outcome_bind]. apply (IH y1 st1); auto.
    destruct st1 as [[r1 w1]|]; [|done]. apply abs_end_bound in E. lia.
Qed.

(** ** A pipe and its ends as a byte queue *)

Inductive pipe_op := PEnd (op : end_op) | PWrite (src : list Z) | PRead (n : Z).

(** One call: the value returned (0 for the [void] functions) and the bytes
    stored in the reader's buffer. *)
Definition pipe_exec (y : pipe_sys) (ptr buf : Z) (op : pipe_op) : outcome (pipe_sys * (Z * list Z)) :=
  match op with
  | PEnd e => y ← end_exec y ptr e; Ok (y, (0, []))
  | PWrite src => '(y, r) ← pipe_write y ptr buf src; Ok (y, (r, []))
  | PRead n => '(y, r, bs) ← pipe_read y ptr buf n; Ok (y, (r, bs))
  end.

Fixpoint pipe_run (y : pipe_sys) (ptr buf : Z) (ops : list pipe_op) : outcome (pipe_sys * list (Z * list Z)) :=
  match ops with
  | [] => Ok (y, [])
  | op :: ops' => '(y, r) ← pipe_exec y ptr buf op; '(y, rs) ← pipe_run y ptr buf ops'; Ok (y, r :: rs)
  end.

(** What the users of a pipe see: its open read ends, its open write ends and
    the bytes queued, or nothing once it is gone. *)
Definition abs_pipe : Type := option (Z * Z * list Z).

Definition abs_write (w : list Z) (q : list Z) : Z :=
  let room := PIPE_SIZE - Z.of_nat (length q) in
  if decide (room = 0 \/ (Z.of_nat (length w) <= PIPE_BUF /\ room < Z.of_nat (length w))) then - EAGAIN
  else Z.min (Z.of_nat (length w)) room.

(** The contract of one call: the state after it and what it returns; [None]
    when the caller has no right to make it ([abs_end]). *)
Definition abs_call (st : abs_pipe) (op : pipe_op) : option (abs_pipe * (Z * list Z)) :=
  match st, op with
  | Some (r, w, q), PEnd e =>
      match abs_end (Some (r, w)) e with
      | Some (Some (r', w')) => Some (Some (r', w', q), (0, []))
      | Some None => Some (None, (0, []))
      | None => None
      end
  | Some (r, w, q), PWrite src =>
      if decide (r = 0) then Some (st, (- EPIPE, []))
      else let n := abs_write src q in Some (Some (r, w, q ++ take (Z.to_nat n) src), (n, []))
  | Some (r, w, q), PRead n =>
      if decide (n < 0) then None
      else if decide (q = []) then Some (st, (if decide (w = 0) then 0 else - EAGAIN, []))
      else Some (Some (r, w, drop (Z.to_nat n) q), (Z.min n (Z.of_nat (length q)), take (Z.to_nat n) q))
  | None, _ => None
  end.

Fixpoint abs_calls (st : abs_pipe) (ops : list pipe_op) : option (abs_pipe * list (Z * list Z)) :=
  match ops with
  | [] => Some (st, [])
  | op :: ops' =>
      match abs_call st op with
      | Some (st1, r) => match abs_calls st1 ops' with Some (st2, rs) => Some (st2, r :: rs) | None => None end
      | None => None
      end
  end.

(** The bytes the writes reported as accepted, and the bytes the reads stored. *)
Fixpoint accepted (ops : list pipe_op) (rs : list (Z * list Z)) : list Z :=
  match ops, rs with
  | PWrite src :: ops', (r, _) :: rs' => take (Z.to_nat r) src ++ accepted ops' rs'
  | _ :: ops', _ :: rs' => accepted ops' rs'
  | _, _ => []
  end.

Definition delivered (rs : list (Z * list Z)) : list Z := concat rs.*2.

(** The object at [ptr] is the abstract pipe [st]; the other pipes are [others]. *)
Definition pipe_shows (others : gmap Z pipe_t) (y : pipe_sys) (ptr : Z) (st : abs_pipe) : Prop :=
  match st with
  | Some (r, w, q) => exists p, pipes y !! ptr = Some p /\ ring_ok p /\ ends_ok p r w /\ contents p = q
  | None => pipes y !! ptr = None
  end /\ delete ptr (pipes y) = others.

Lemma length_queued p : ring_ok p -> Z.of_nat (length (contents p)) = count p.
Proof. intros []. unfold contents. rewrite length_ring_bytes. lia. Qed.

Lemma write_refines others y ptr buf r w q src st' res :
  ptr <> 0 -> buf <> 0 -> pipe_shows others y ptr (Some (r, w, q)) ->
  abs_call (Some (r, w, q)) (PWrite src) = Some (st', res) ->
  exists y', pipe_exec y ptr buf (PWrite src) = Ok (y', res) /\ pipe_shows others y' ptr st'.
Proof.
  intros Hptr Hb [(p & Hp & Hok & He & Hq) Ho]. simpl. pose proof He as [].
  pose proof (length_queued p Hok) as Hl. rewrite Hq in Hl.
  destruct (pipe_write_cases y ptr p buf src Hptr Hb Hp Hok) as (y1 & n & -> & Hc). cbn [mbind outcome_bind].
  destruct Hc as [(Hr & -> & E)|[(Hr & Hs & -> & ->)|(Hr & Hs & Hn & -> & p1 & E & Hok1 & Hc1 & _ & _ & He1)]];
    (case_decide; [|unfold abs_write]; try lia); intros [= <- <-].
  - exists y1. split; [done|]. split; rewrite E; eauto 6.
  - rewrite decide_True by lia. exists y. split; [done|]. rewrite take_0, app_nil_r. split; eauto 6.
  - rewrite decide_False by lia. exists y1. rewrite Hl. split; [done|]. split; rewrite E.
    + exists p1. rewrite lookup_insert_eq, Hc1, Hq. auto.
    + by rewrite delete_insert_eq.
Qed.

Lemma read_refines others y ptr buf r w q n st' res :
  ptr <> 0 -> buf <> 0 -> pipe_shows others y ptr (Some (r, w, q)) ->
  abs_call (Some (r, w, q)) (PRead n) = Some (st', res) ->
  exists y', pipe_exec y ptr buf (PRead n) = Ok (y', res) /\ pipe_shows others y' ptr st'.
Proof.
  intros Hptr Hb [(p & Hp & Hok & He & Hq) Ho]. simpl. pose proof He as [].
  pose proof (length_queued p Hok) as Hl. rewrite Hq in Hl. case_decide; [done|].
  destruct (pipe_read_cases y ptr p buf n Hptr Hb Hp Hok ltac:(lia)) as (y1 & k & bs & -> & Hc). cbn [mbind outcome_bind].
  destruct Hc as [(Hz & E & -> & ->)|(Hz & p1 & -> & Hlb & E & Hok1 & Hc1 & _ & _ & He1)].
  - assert (q = []) as -> by (apply length_zero_iff_nil; lia). rewrite decide_True by done. intros [= <- <-].
    exists y1. split; [|split; rewrite E; eauto 6]. repeat f_equal. repeat case_decide; lia || done.
  - rewrite decide_False by (intros ->; simpl in *; lia). intros [= <- <-]. exists y1.
    rewrite Hq in Hc1. pose proof (f_equal length Hc1) as Hlen. rewrite length_app in Hlen.
    assert (take (Z.to_nat n) q = bs /\ drop (Z.to_nat n) q = contents p1) as [-> ->].
    { rewrite Hc1. destruct (decide (n <= count p)).
      - rewrite take_app_length', drop_app_length' by lia. done.
      - assert (contents p1 = []) as -> by (apply length_zero_iff_nil; lia).
        rewrite app_nil_r, take_ge, drop_ge by lia. done. }
    rewrite Hl. split; [done|]. split; rewrite E; [|by rewrite delete_insert_eq].
    exists p1. rewrite lookup_insert_eq. auto.
Qed.

Lemma end_refines others y ptr buf r w q e st' res :
  ptr <> 0 -> pipe_shows others y ptr (Some (r, w, q)) -> r + w < INT_MAX ->
  abs_call (Some (r, w, q)) (PEnd e) = Some (st', res) ->
  exists y', pipe_exec y ptr buf (PEnd e) = Ok (y', res) /\ pipe_shows others y' ptr st'.
Proof.
  intros Hptr [(p & Hp & Hok & He & Hq) Ho] Hmax. cbn [abs_call pipe_exec].
  destruct (abs_end (Some (r, w)) e) as [st1|] eqn:Ha; [|done].
  assert (Hm : ends_match y y ptr p (Some (r, w))) by (split; [exists p; auto|done]).
  assert (Hex : exists y1, end_exec y ptr e = Ok y1 /\ ends_match y y1 ptr p st1).
  { destruct e; simpl; [eapply acquire_refines; eauto|eapply close_refines; eauto]. }
  destruct Hex as (y1 & -> & Hm1 & Hd & _). rewrite Ho in Hd.
  destruct st1 as [[r1 w1]|]; intros [= <- <-]; (exists y1; split; [done|]; split; [|done]); [|tauto].
  destruct Hm1 as (p1 & Hp1 & He1 & Hc1 & Hr1 & _). exists p1. splits; auto. congruence.
Qed.

Lemma abs_call_bound r w q op r' w' q' res :
  abs_call (Some (r, w, q)) op = Some (Some (r', w', q'), res) -> r' + w' <= r + w + 1.
Proof.
  destruct op as [e|src|n]; cbn [abs_call].
  - destruct (abs_end (Some (r, w)) e) as [[[r1 w1]|]|] eqn:Ha; simpl; intros [=]; simplify_eq.
    by apply abs_end_bound in Ha.
  - case_decide; intros [=]; lia.
  - repeat case_decide; intros [=]; lia.
Qed.

Lemma pipe_run_refines others y ptr buf st ops st' rs :
  ptr <> 0 -> buf <> 0 -> pipe_shows others y ptr st -> abs_calls st ops = Some (st', rs) ->
  match st with Some (r, w, _) => r + w + Z.of_nat (length ops) <= INT_MAX | None => True end ->
  exists y', pipe_run y ptr buf ops = Ok (y', rs) /\ pipe_shows others y' ptr st'.
Proof.
  intros Hptr Hb. revert y st rs. induction ops as [|op ops IH]; intros y st rs Hs Ha Hmax; simpl in Ha.
  { injection Ha as <- <-. by exists y. }
  destruct (abs_call st op) as [[st1 r1]|] eqn:E; simpl in Ha; [|done].
  destruct (abs_calls st1 ops) as [[st2 rs2]|] eqn:E2; simpl in Ha; [|done]. injection Ha as <- <-.
  destruct st as [[[r w] q]|]; [|done]. cbn [length] in Hmax.
  assert (Hex : exists y1, pipe_exec y ptr buf op = Ok (y1, r1) /\ pipe_shows others y1 ptr st1).
  { destruct op; [eapply end_refines|eapply write_refines|eapply read_refines]; eauto; lia. }
  destruct Hex as (y1 & Ee & Hs1). destruct (IH y1 st1 rs2 Hs1 E2) as (y' & Er & Hs').
  { destruct st1 as [[[r' w'] q']|]; [|done]. apply abs_call_bound in E. lia. }
  exists y'. cbn [pipe_run]. rewrite Ee. cbn [mbind outcome_bind]. by rewrite Er.
Qed.

(** In the contract, what went in is what came out followed by what is queued. *)
Lemma abs_calls_fifo r w q ops st rs : abs_calls (Some (r, w, q)) ops = Some (st, rs) ->
  exists left, q ++ accepted ops rs = delivered rs ++ left /\ forall r' w' q', st = Some (r', w', q') -> left = q'.
Proof.
  revert r w q rs. induction ops as [|op ops IH]; intros r w q rs Ha; cbn [abs_calls] in Ha.
  { injection Ha as <- <-. exists q. rewrite app_nil_r. split; [done|]. by intros ? ? ? [= _ _ <-]. }
  destruct (abs_call (Some (r, w, q)) op) as [[st1 r1]|] eqn:E; simpl in Ha; [|done].
  destruct (abs_calls st1 ops) as [[st2 rs2]|] eqn:E2; simpl in Ha; [|done]. injection Ha as <- <-.
  destruct st1 as [[[r' w'] q1]|].
  - destruct (IH _ _ _ _ E2) as (left & Hl & Hst). exists left. split; [|done]. unfold delivered in *. cbn [fmap list_fmap concat].
    rewrite <- app_assoc, <- Hl. destruct op as [e|src|n]; cbn [abs_call] in E.
    + destruct (abs_end (Some (r, w)) e) as [[[]|]|]; simpl in E; [|done|done]. by injection E as _ _ <- <-.
    + cbn [accepted]. case_decide; injection E as _ _ <- <-; [by rewrite take_0|]. by rewrite <- app_assoc.
    + cbn [accepted]. repeat (case_decide; [done || (injection E as _ _ <- <-; done)|]). injection E as _ _ <- <-.
      cbn [snd]. by rewrite app_assoc, take_drop.
  - destruct ops; [|done]. injection E2 as <- <-. destruct op as [e|src|n]; cbn [abs_call] in E.
    + destruct (abs_end (Some (r, w)) e) as [[[]|]|]; simpl in E; [done| |done]. injection E as <-. exists q. by rewrite app_nil_r.
    + by case_decide.
    + by repeat case_decide.
Qed.

(** ** Properties *)

(** [pipe_read] on a well-formed pipe: an empty pipe reports end of file
    exactly when no writer is left and EAGAIN otherwise; a non-empty one yields
    the oldest [min count queued] bytes in order and leaves the rest queued,
    without touching the ends. *)
Theorem pipe_read_correct y ptr p buf n :
  ptr <> 0 -> buf <> 0 -> pipes y !! ptr = Some p -> ring_ok p -> 0 <= n ->
  exists y' r bs, pipe_read y ptr buf n = Ok (y', r, bs) /\
    ((count p = 0 /\ pipes y' = pipes y /\ bs = [] /\ r = if decide (writers p <= 0) then 0 else - EAGAIN) \/
     (count p <> 0 /\ exists p', r = Z.min n (count p) /\ Z.of_nat (length bs) = r /\
        pipes y' = <[ptr := p']> (pipes y) /\ ring_ok p' /\ contents p = bs ++ contents p' /\
        readers p' = readers p /\ writers p' = writers p /\ (forall r w, ends_ok p r w -> ends_ok p' r w))).
Proof. apply pipe_read_cases. Qed.

(** [pipe_write] on a well-formed pipe: EPIPE when no reader is left;
    otherwise a request of at most PIPE_BUF bytes is all or nothing (every byte is
    appended, or EAGAIN and nothing changes) and a larger one appends as many
    leading bytes as fit; the queue only ever grows at its end. *)
Theorem pipe_write_correct y ptr p buf src :
  ptr <> 0 -> buf <> 0 -> pipes y !! ptr = Some p -> ring_ok p ->
  let n := Z.of_nat (length src) in let space := PIPE_SIZE - count p in
  exists y' r, pipe_write y ptr buf src = Ok (y', r) /\
    ((readers p <= 0 /\ r = - EPIPE /\ pipes y' = pipes y) \/
     (0 < readers p /\ (space = 0 \/ (n <= PIPE_BUF /\ space < n)) /\ r = - EAGAIN /\ y' = y) \/
     (0 < readers p /\ space <> 0 /\ (n <= PIPE_BUF -> r = n) /\ r = Z.min n space /\
      exists p', pipes y' = <[ptr := p']> (pipes y) /\ ring_ok p' /\
        contents p' = contents p ++ take (Z.to_nat r) src /\ readers p' = readers p /\ writers p' = writers p /\ (forall r w, ends_ok p r w -> ends_ok p' r w))).
Proof. apply pipe_write_cases. Qed.

(** C26: an anonymous pipe is a FIFO byte stream.  Take a pipe just created and
    any sequence of calls that acquire and close its ends, write to it and read
    from it (non-negative counts) in which callers close only ends they hold and make no call
    once the last end is closed (fewer than 2^31 calls).  Every call returns
    what the queue of [abs_call] says: a write without open read ends fails with EPIPE, a
    write of at most PIPE_BUF bytes is appended whole or refused with EAGAIN, a
    longer one appends the prefix that fits; a read gives the oldest bytes,
    EAGAIN on an empty queue with a writer, 0 (end of file) without one.  The
    bytes the writes reported as accepted are the bytes the reads delivered followed by the bytes still queued, in
    order; the object lives exactly until its last end is closed, and the other
    pipes are not touched. *)
Theorem pipe_stream_fifo y ptr buf ops st rs :
  ptr <> 0 -> buf <> 0 -> Z.of_nat (length ops) <= INT_MAX -> abs_calls (Some (0, 0, [])) ops = Some (st, rs) ->
  exists y' left, pipe_run (pipe_create false ptr y).1 ptr buf ops = Ok (y', rs) /\
    pipe_shows (delete ptr (pipes y)) y' ptr st /\ accepted ops rs = delivered rs ++ left /\
    forall r w q, st = Some (r, w, q) -> left = q.
Proof.
  intros Hptr Hb Hl Ha. unfold pipe_create. rewrite decide_False by done. cbn [fst].
  destruct (abs_calls_fifo _ _ _ _ _ _ Ha) as (left & Hf & Hst).
  destruct (pipe_run_refines (delete ptr (pipes y)) (pipe_create false ptr y).1 ptr buf (Some (0, 0, [])) ops st rs) as (y' & E & Hs);
    auto.
  - unfold pipe_create. rewrite decide_False by done. destruct (zero_pipe_ok (pipe_next_id y)). split.
    + exists (zero_pipe (pipe_next_id y)). simpl. rewrite lookup_insert_eq. splits; auto. by constructor.
    + simpl. by rewrite delete_insert_eq.
  - exists y', left. unfold pipe_create in E. rewrite decide_False in E by done. auto.
Qed.

(** the life cycle of an anonymous pipe: through any sequence of end
    acquisitions and closes in which callers close only ends they hold, the
    reader and writer counts are the open ends, the queued bytes are untouched, and the object is
    freed (and counted destroyed) exactly at the close that releases its last
    reference, never earlier; other pipes are not affected. *)
Theorem pipe_lifecycle y ptr id ops st :
  ptr <> 0 -> pipes y !! ptr = Some (zero_pipe id) -> abs_ends (Some (0, 0)) ops = Some st ->
  Z.of_nat (length ops) <= INT_MAX ->
  exists y', end_run y ptr ops = Ok y' /\ ends_match y y' ptr (zero_pipe id) st.
Proof.
  intros Hptr Hp Ha Hl. apply (end_run_refines y y ptr (zero_pipe id) (Some (0, 0))); auto.
  split; [|done]. exists (zero_pipe id). splits; auto. by constructor.
Qed.

(** ** Concrete pipe *)

Definition demo_pipe : pipe_sys := (pipe_create false 4096 pipe_boot).1.

Lemma pipe_read_correct_witness :
  exists y' r bs, pipe_read demo_pipe 4096 1 10 = Ok (y', r, bs) /\ r = 0 /\ bs = [].
Proof.
  destruct (pipe_read_correct demo_pipe 4096 (zero_pipe 1) 1 10) as (y' & r & bs & E & [(_ & _ & -> & ->)|[Hc _]]);
    [done|done|reflexivity|apply zero_pipe_ok|done| |].
  - exists y', 0, []. split; [exact E|done].
  - exfalso. apply Hc. reflexivity.
Defined.

Lemma pipe_write_correct_witness :
  exists y' r, pipe_write demo_pipe 4096 1 [104; 105] = Ok (y', r) /\ r = - EPIPE.
Proof.
  destruct (pipe_write_correct demo_pipe 4096 (zero_pipe 1) 1 [104; 105]) as (y' & r & E & [(_ & Hr & _)|[(H0 & _)|(H0 & _)]]);
    [done|done|reflexivity|apply zero_pipe_ok|..].
  - exists y', r. split; [exact E|exact Hr].
  - exfalso. by vm_compute in H0.
  - exfalso. by vm_compute in H0.
Defined.

(** A writer sends three bytes and closes; the reader gets them in two reads
    and then end of file; closing the read end frees the pipe. *)
Definition demo_calls : list pipe_op :=
  [PEnd (EAcquire 0); PRead 2; PEnd (EAcquire 1); PRead 2; PWrite [104; 105; 33]; PRead 2;
   PEnd (EClose 1); PRead 2; PRead 2; PEnd (EClose 0)].

Lemma pipe_stream_fifo_witness :
  exists y' (left : list Z), pipe_run demo_pipe 4096 1 demo_calls =
      Ok (y', [(0, []); (0, []); (0, []); (- EAGAIN, []); (3, []); (2, [104; 105]); (0, []); (1, [33]); (0, []); (0, [])]) /\
    pipes y' !! 4096 = None /\ left = [].
Proof.
  destruct (pipe_stream_fifo pipe_boot 4096 1 demo_calls None
    [(0, []); (0, []); (0, []); (- EAGAIN, []); (3, []); (2, [104; 105]); (0, []); (1, [33]); (0, []); (0, [])])
    as (y' & left & E & [Hp _] & Hf & _); [done|done|by vm_compute|reflexivity|].
  exists y', left. split; [exact E|]. split; [exact Hp|]. symmetry. apply (app_inv_head [104; 105; 33]). rewrite app_nil_r. exact Hf.
Defined.

Lemma pipe_lifecycle_witness :
  exists y', end_run demo_pipe 4096 [EAcquire 0; EAcquire 1; EClose 1; EClose 0] = Ok y' /\
    ends_match demo_pipe y' 4096 (zero_pipe 1) None.
Proof.
  apply (pipe_lifecycle demo_pipe 4096 1); [done|reflexivity|reflexivity|]. vm_compute. discriminate.
Defined.
