(* ===== verification/Perm.v ===== *)
(** * Permission checks, credentials and open flags
    (src/fs/permissions.c, src/kernel/credentials.c, src/kernel/lib/open_flags.c) *)

From S2P Require Import Prelude.

Definition ROOT_UID : Z := 0.
Definition ROOT_GID : Z := 0.
Definition ACCESS_READ : Z := 1.
Definition ACCESS_WRITE : Z := 2.
Definition ACCESS_EXEC : Z := 4.

Definition S_IRUSR : Z := 0x100.
Definition S_IWUSR : Z := 0x080.
Definition S_IXUSR : Z := 0x040.
Definition S_IRGRP : Z := 0x020.
Definition S_IWGRP : Z := 0x010.
Definition S_IXGRP : Z := 0x008.
Definition S_IROTH : Z := 0x004.
Definition S_IWOTH : Z := 0x002.
Definition S_IXOTH : Z := 0x001.

(** The fields of [stat_t] the checks read. *)
Record stat_t := { st_mode : Z; st_uid : Z; st_gid : Z }.

(** [st] is NULL or the object it points to. *)
Definition ir0_access_from_stat (st : option stat_t) (mode euid egid : Z) : bool :=
  match st with
  | None => false
  | Some st =>
      if decide (euid = ROOT_UID) then true else
      let file_mode := u16 (st_mode st) in
      if decide (euid = st_uid st) then
        if flag_set mode ACCESS_READ && negb (flag_set file_mode S_IRUSR) then false else
        if flag_set mode ACCESS_WRITE && negb (flag_set file_mode S_IWUSR) then false else
        if flag_set mode ACCESS_EXEC && negb (flag_set file_mode S_IXUSR) then false else true
      else if decide (egid = st_gid st) then
        if flag_set mode ACCESS_READ && negb (flag_set file_mode S_IRGRP) then false else
        if flag_set mode ACCESS_WRITE && negb (flag_set file_mode S_IWGRP) then false else
        if flag_set mode ACCESS_EXEC && negb (flag_set file_mode S_IXGRP) then false else true
      else
        if flag_set mode ACCESS_READ && negb (flag_set file_mode S_IROTH) then false else
        if flag_set mode ACCESS_WRITE && negb (flag_set file_mode S_IWOTH) then false else
        if flag_set mode ACCESS_EXEC && negb (flag_set file_mode S_IXOTH) then false else true
  end.

(** [groups] is NULL or an array; reading past it is [UB]. *)
Fixpoint groups_loop (st : option stat_t) (mode euid egid : Z) (groups : list Z) (n : nat) {struct n} : outcome bool :=
  match n with
  | O => Ok false
  | S m =>
      match groups with
      | [] => UB
      | g :: groups' =>
          if decide (g = egid) then groups_loop st mode euid egid groups' m
          else if ir0_access_from_stat st mode euid g then Ok true
          else groups_loop st mode euid egid groups' m
      end
  end.

Definition ir0_access_from_stat_groups (st : option stat_t) (mode euid egid : Z)
    (groups : option (list Z)) (ngroups : Z) : outcome bool :=
  if ir0_access_from_stat st mode euid egid then Ok true else
  match groups with
  | None => Ok false
  | Some gs => if decide (ngroups <= 0) then Ok false
               else groups_loop st mode euid egid gs (Z.to_nat ngroups)
  end.

(** ** Credentials *)

(** The credential fields of [process_t]. *)
Record process_cred := {
  p_uid : Z; p_gid : Z; p_euid : Z; p_egid : Z; p_umask : Z; p_pid : Z; p_cwd : list Z;
  p_groups : list Z; p_ngroups : Z
}.

Record ir0_task_cred := { uid : Z; gid : Z; euid : Z; egid : Z; umask : Z; pid : Z; cwd : list Z }.

Definition boot_root : ir0_task_cred :=
  {| uid := 0; gid := 0; euid := 0; egid := 0; umask := 18; pid := 0; cwd := [47] |}.

Definition ir0_current_cred (current : option process_cred) : ir0_task_cred :=
  match current with
  | None => boot_root
  | Some p => {| uid := u32 (p_uid p); gid := u32 (p_gid p); euid := u32 (p_euid p); egid := u32 (p_egid p);
                 umask := u32 (p_umask p); pid := p_pid p; cwd := p_cwd p |}
  end.

Definition ir0_current_pid (current : option process_cred) : Z := pid (ir0_current_cred current).
Definition ir0_current_umask (current : option process_cred) : Z := umask (ir0_current_cred current).
Definition ir0_cred_is_root (current : option process_cred) : bool :=
  bool_decide (euid (ir0_current_cred current) = ROOT_UID).
Definition get_current_uid (current : option process_cred) : Z := u32 (euid (ir0_current_cred current)).
Definition get_current_gid (current : option process_cred) : Z := u32 (egid (ir0_current_cred current)).
Definition is_root (p : option process_cred) : bool :=
  match p with Some p => bool_decide (p_euid p = ROOT_UID) | None => false end.

Section access.
(** [ir0_stat_path_routed]: [None] when it fails. *)
Context (stat_path : list Z -> option stat_t).

Definition ir0_check_file_access (current : option process_cred) (path : option (list Z)) (mode : Z) : outcome bool :=
  let c := ir0_current_cred current in
  match path with
  | None => Ok false
  | Some path =>
      match stat_path path with
      | None => Ok false
      | Some st =>
          match current with
          | None => Ok (ir0_access_from_stat (Some st) mode (euid c) (egid c))
          | Some p => ir0_access_from_stat_groups (Some st) mode (euid c) (egid c) (Some (p_groups p)) (s32 (p_ngroups p))
          end
      end
  end.

Definition check_file_access (path : option (list Z)) (mode : Z) (process : option process_cred) : bool :=
  match path, process with
  | Some path, Some p =>
      match stat_path path with
      | None => false
      | Some st => ir0_access_from_stat (Some st) mode (u32 (p_euid p)) (u32 (p_egid p))
      end
  | _, _ => false
  end.
End access.

(** ** Open flags *)

Definition IR0_O_ACCMODE : Z := 0x0003.
Definition IR0_O_APPEND : Z := 0x0008.
Definition IR0_O_NONBLOCK : Z := 0x0800.
Definition IR0_O_CREAT : Z := 0x0100.
Definition IR0_O_EXCL : Z := 0x0200.
Definition IR0_O_TRUNC : Z := 0x0400.
Definition IR0_O_DIRECTORY : Z := 0x0200000.
Definition IR0_O_CLOEXEC : Z := 0x80000.
Definition LINUX_O_CREAT : Z := 0x0040.
Definition LINUX_O_EXCL : Z := 0x0080.
Definition LINUX_O_TRUNC : Z := 0x0200.
Definition LINUX_O_APPEND : Z := 0x0400.
Definition LINUX_O_NONBLOCK : Z := 0x0800.
Definition LINUX_O_DIRECTORY : Z := 0x010000.
Definition LINUX_O_NOFOLLOW : Z := 0x020000.
Definition LINUX_O_CLOEXEC : Z := 0x080000.

(** [if (flags & bit) ir0 |= out;] *)
Definition or_if (flags bit out ir0 : Z) : Z := if flag_set flags bit then Z.lor ir0 out else ir0.

Definition linux_open_flags_to_ir0 (linux_flags : Z) : Z :=
  let ir0 := Z.land linux_flags IR0_O_ACCMODE in
  let ir0 := or_if linux_flags LINUX_O_CREAT IR0_O_CREAT ir0 in
  let ir0 := or_if linux_flags LINUX_O_EXCL IR0_O_EXCL ir0 in
  let ir0 := or_if linux_flags LINUX_O_TRUNC IR0_O_TRUNC ir0 in
  let ir0 := or_if linux_flags LINUX_O_APPEND IR0_O_APPEND ir0 in
  let ir0 := or_if linux_flags LINUX_O_NONBLOCK IR0_O_NONBLOCK ir0 in
  let ir0 := or_if linux_flags LINUX_O_DIRECTORY IR0_O_DIRECTORY ir0 in
  let ir0 := or_if linux_flags LINUX_O_CLOEXEC IR0_O_CLOEXEC ir0 in
  ir0.

Definition ir0_open_flags_ok_for_vfs (flags : Z) : bool :=
  let f := u32 flags in
  if flag_set f LINUX_O_CREAT then false else
  if flag_set f LINUX_O_EXCL then false else
  if flag_set f LINUX_O_DIRECTORY && negb (flag_set f IR0_O_DIRECTORY) then false else
  if flag_set f LINUX_O_NOFOLLOW then false else
  if flag_set f LINUX_O_TRUNC && negb (flag_set f IR0_O_EXCL) && negb (flag_set f IR0_O_TRUNC) then false else
  true.

(** ** The access decision, stated with permission classes *)

(** Shift of the mode bits of the class the caller falls into: owner, group, or
    others.  The classes exclude each other. *)
Definition class_shift (st : stat_t) (euid egid : Z) : Z :=
  if decide (euid = st_uid st) then 6 else if decide (egid = st_gid st) then 3 else 0.

(** Does the class grant read, write and execute as requested? *)
Definition class_grants (st : stat_t) (mode euid egid : Z) : Prop :=
  let sh := class_shift st euid egid in
  (Z.testbit mode 0 = true -> Z.testbit (st_mode st) (sh + 2) = true) /\
  (Z.testbit mode 1 = true -> Z.testbit (st_mode st) (sh + 1) = true) /\
  (Z.testbit mode 2 = true -> Z.testbit (st_mode st) sh = true).

Lemma flag_set_testbit v n : 0 <= n -> flag_set v (2 ^ n) = Z.testbit v n.
Proof.
  intros Hn. unfold flag_set, truthy. destruct (Z.testbit v n) eqn:E.
  - apply negb_true_iff, Z.eqb_neq. intros H. assert (Hb : Z.testbit (Z.land v (2 ^ n)) n = true).
    { rewrite Z.land_spec, E, Z.pow2_bits_true by done. done. }
    rewrite H, Z.bits_0 in Hb. done.
  - apply negb_false_iff, Z.eqb_eq, Z.bits_inj'. intros m Hm. rewrite Z.land_spec, Z.bits_0.
    rewrite Z.pow2_bits_eqb by done. destruct (Z.eqb_spec n m) as [<-|]; [by rewrite E|by rewrite andb_false_r].
Qed.

Lemma u16_testbit v n : 0 <= n < 16 -> Z.testbit (u16 v) n = Z.testbit v n.
Proof. intros Hn. unfold u16. rewrite Z.mod_pow2_bits_low by lia. done. Qed.

Lemma mode_bit v b n : b = 2 ^ n -> 0 <= n < 16 -> flag_set (u16 v) b = Z.testbit v n.
Proof. intros -> Hn. rewrite flag_set_testbit by lia. by apply u16_testbit. Qed.

(** Three guarded refusals are three implications. *)
Lemma three_guards (a b c x y z : bool) :
  (if a && negb x then false else if b && negb y then false else if c && negb z then false else true) = true <->
  (a = true -> x = true) /\ (b = true -> y = true) /\ (c = true -> z = true).
Proof. destruct a, b, c, x, y, z; simpl; naive_solver. Qed.

Lemma access_from_stat_spec st mode euid egid :
  ir0_access_from_stat (Some st) mode euid egid = true <-> euid = ROOT_UID \/ class_grants st mode euid egid.
Proof.
  unfold ir0_access_from_stat. destruct (decide (euid = ROOT_UID)) as [Hr|Hr]; [naive_solver|].
  unfold class_grants, class_shift.
  change ACCESS_READ with (2 ^ 0). change ACCESS_WRITE with (2 ^ 1). change ACCESS_EXEC with (2 ^ 2).
  rewrite !flag_set_testbit by lia.
  destruct (decide (euid = st_uid st)); [|destruct (decide (egid = st_gid st))]; rewrite three_guards.
  - rewrite (mode_bit _ S_IRUSR 8), (mode_bit _ S_IWUSR 7), (mode_bit _ S_IXUSR 6) by (done || lia). naive_solver.
  - rewrite (mode_bit _ S_IRGRP 5), (mode_bit _ S_IWGRP 4), (mode_bit _ S_IXGRP 3) by (done || lia). naive_solver.
  - rewrite (mode_bit _ S_IROTH 2), (mode_bit _ S_IWOTH 1), (mode_bit _ S_IXOTH 0) by (done || lia). naive_solver.
Qed.

Lemma groups_loop_spec st mode eu eg groups n :
  (n <= length groups)%nat ->
  exists r, groups_loop st mode eu eg groups n = Ok r /\
    (r = true <-> exists g, g ∈ take n groups /\ g <> eg /\ ir0_access_from_stat st mode eu g = true).
Proof.
  revert groups; induction n as [|n IH]; intros groups Hn; simpl.
  { exists false. split; [done|]. split; [done|]. intros (g & Hg & _). by apply not_elem_of_nil in Hg. }
  destruct groups as [|g groups]; simpl in *; [lia|]. destruct (IH groups ltac:(lia)) as (r & E & Hr).
  destruct (decide (g = eg)) as [->|Hne].
  - exists r. split; [done|]. rewrite Hr. split; intros (g' & Hg & H1 & H2); exists g'; splits; auto.
    + by right.
    + apply elem_of_cons in Hg as [->|?]; [congruence|done].
  - destruct (ir0_access_from_stat st mode eu g) eqn:Eg.
    + exists true. split; [done|]. split; [|done]. intros _. exists g. splits; auto. by left.
    + exists r. split; [done|]. rewrite Hr. split; intros (g' & Hg & H1 & H2); exists g'; splits; auto.
      * by right.
      * apply elem_of_cons in Hg as [->|?]; [congruence|done].
Qed.

(** ** Properties *)

(** [ir0_access_from_stat] grants a request exactly when the caller's
    effective uid is root or the one permission class that applies (owner if
    the uids match, else group if the gid matches, else others) has every
    requested bit of read, write and execute. *)
Theorem access_from_stat_correct st mode eu eg :
  ir0_access_from_stat (Some st) mode eu eg = true <-> eu = ROOT_UID \/ class_grants st mode eu eg.
Proof. apply access_from_stat_spec. Qed.

(** with [ngroups] entries in the array the supplementary-group check
    returns, reads nothing past the array, and grants exactly when the check
    would grant with the effective gid or with one of those groups in its place. *)
Theorem access_groups_correct st mode eu eg groups ngroups :
  0 <= ngroups <= Z.of_nat (length groups) ->
  exists r, ir0_access_from_stat_groups (Some st) mode eu eg (Some groups) ngroups = Ok r /\
    (r = true <-> exists g, (g = eg \/ g ∈ take (Z.to_nat ngroups) groups) /\ (eu = ROOT_UID \/ class_grants st mode eu g)).
Proof.
  intros Hn. unfold ir0_access_from_stat_groups. pose proof (access_from_stat_spec st mode eu eg) as Ha.
  destruct (ir0_access_from_stat (Some st) mode eu eg) eqn:E.
  { exists true. split; [done|]. split; [|done]. intros _. exists eg. split; [by left|]. by apply Ha. }
  assert (Hno : ~ (eu = ROOT_UID \/ class_grants st mode eu eg)) by (intros H; by apply Ha in H).
  destruct (groups_loop_spec (Some st) mode eu eg groups (Z.to_nat ngroups)) as (r & Er & Hr); [lia|].
  assert (Hgoal : r = true <-> exists g, (g = eg \/ g ∈ take (Z.to_nat ngroups) groups) /\ (eu = ROOT_UID \/ class_grants st mode eu g)).
  { rewrite Hr. split.
    - intros (g & Hg & _ & Hx). exists g. split; [by right|]. by apply access_from_stat_spec.
    - intros (g & [->|Hg] & Hx); [done|]. exists g. splits; [done|by intros ->|]. by apply access_from_stat_spec. }
  destruct (decide (ngroups <= 0)) as [H0|H0]; [|eauto].
  exists false. split; [done|]. rewrite <- Hgoal, Hr. split; [done|]. intros (g & Hg & _).
  replace (Z.to_nat ngroups) with 0%nat in Hg by lia. by apply not_elem_of_nil in Hg.
Qed.

Lemma access_groups_correct_witness :
  exists r, ir0_access_from_stat_groups (Some {| st_mode := 0x1a0; st_uid := 1; st_gid := 10 |}) ACCESS_READ 1000 100 (Some [27; 10]) 2 = Ok r /\
    (r = true <-> exists g, (g = 100 \/ g ∈ take 2 [27; 10]) /\
       (1000 = ROOT_UID \/ class_grants {| st_mode := 0x1a0; st_uid := 1; st_gid := 10 |} ACCESS_READ 1000 g)).
Proof. apply access_groups_correct. simpl. lia. Defined.

(** A process whose effective group is denied by the group bits (mode 0604) is
    let in through the bits for others as soon as it has any other
    supplementary group: the classes do not exclude each other here. *)
Lemma group_denial_bypassed :
  let st := {| st_mode := 0x184; st_uid := 1; st_gid := 10 |} in
  ir0_access_from_stat_groups (Some st) ACCESS_READ 1000 10 (Some []) 0 = Ok false /\
  ir0_access_from_stat_groups (Some st) ACCESS_READ 1000 10 (Some [27]) 1 = Ok true /\
  ir0_access_from_stat_groups (Some st) ACCESS_READ 1000 27 (Some [10]) 1 = Ok true.
Proof. vm_compute. auto. Qed.

Lemma access_mode_cases f : exists m, Z.land f IR0_O_ACCMODE = m /\ (m = 0 \/ m = 1 \/ m = 2 \/ m = 3).
Proof.
  exists (Z.land f IR0_O_ACCMODE). split; [done|]. pose proof (Z.land_ones f 2 ltac:(lia)) as E.
  change (Z.ones 2) with IR0_O_ACCMODE in E. rewrite E. pose proof (Z.mod_pos_bound f (2 ^ 2) ltac:(lia)). lia.
Qed.

(** Translating Linux open(2) flags keeps the access mode, sets each IR0 flag
    exactly when the corresponding Linux flag was given, and always yields
    flags the VFS accepts: no Linux bit pattern leaks through. *)
Theorem open_flags_translation f :
  let g := linux_open_flags_to_ir0 f in
  ir0_open_flags_ok_for_vfs g = true /\ Z.land g IR0_O_ACCMODE = Z.land f IR0_O_ACCMODE /\
  flag_set g IR0_O_CREAT = flag_set f LINUX_O_CREAT /\ flag_set g IR0_O_EXCL = flag_set f LINUX_O_EXCL /\
  flag_set g IR0_O_TRUNC = flag_set f LINUX_O_TRUNC /\ flag_set g IR0_O_APPEND = flag_set f LINUX_O_APPEND /\
  flag_set g IR0_O_NONBLOCK = flag_set f LINUX_O_NONBLOCK /\
  flag_set g IR0_O_DIRECTORY = flag_set f LINUX_O_DIRECTORY /\ flag_set g IR0_O_CLOEXEC = flag_set f LINUX_O_CLOEXEC.
Proof.
  unfold linux_open_flags_to_ir0, or_if. destruct (access_mode_cases f) as (m & -> & Hm).
  destruct (flag_set f LINUX_O_CREAT), (flag_set f LINUX_O_EXCL), (flag_set f LINUX_O_TRUNC), (flag_set f LINUX_O_APPEND),
    (flag_set f LINUX_O_NONBLOCK), (flag_set f LINUX_O_DIRECTORY), (flag_set f LINUX_O_CLOEXEC);
    destruct Hm as [-> | [-> | [-> | ->]]]; vm_compute; auto 10.
Qed.
