(* ===== verification/CString.v ===== *)
(** * C strings and memory blocks (src/includes/string.c)

    An object of [n] bytes is a list of [n] values in [0, 255]; a pointer that
    is only read is the suffix of its object from the pointed byte on, a pointer
    that is written through is the object with an offset.  Reading or writing
    outside the object is [UB].  [None] is the null pointer where the code
    tests for it. *)

From S2P Require Import Prelude.

Definition store (s : list Z) (i : nat) (b : Z) : outcome (list Z) :=
  if decide (i < length s)%nat then Ok (<[i := b]> s) else UB.

(** ** Lengths and comparison *)

Fixpoint strlen_loop (s : list Z) (len : nat) : outcome nat :=
  match s with
  | [] => UB
  | c :: s' => if decide (c = 0) then Ok len else strlen_loop s' (S len)
  end.

Definition strlen (str : option (list Z)) : outcome nat :=
  match str with None => Ok 0%nat | Some s => strlen_loop s 0 end.

Definition kstrlen (s : list Z) : outcome nat := strlen_loop s 0.

Fixpoint kstrcmp (s1 s2 : list Z) : outcome Z :=
  match s1, s2 with
  | a :: s1', b :: s2' => if decide (a <> 0 /\ a = b) then kstrcmp s1' s2' else Ok (a - b)
  | _, _ => UB
  end.

Fixpoint kstrncmp (s1 s2 : list Z) (n : nat) {struct n} : outcome Z :=
  match n with
  | O => Ok 0
  | S m => match s1, s2 with
           | a :: s1', b :: s2' => if decide (a <> 0 /\ a = b) then kstrncmp s1' s2' m else Ok (a - b)
           | _, _ => UB
           end
  end.

Definition strcmp (s1 s2 : option (list Z)) : outcome Z :=
  match s1, s2 with
  | Some a, Some b => kstrcmp a b
  | Some _, None => Ok 1
  | None, Some _ => Ok (-1)
  | None, None => Ok 0
  end.

Definition strncmp (s1 s2 : option (list Z)) (n : nat) : outcome Z :=
  match s1, s2 with
  | Some a, Some b => if decide (n = 0%nat) then Ok 0 else kstrncmp a b n
  | _, _ => Ok 0
  end.

(** ** Memory blocks *)

(** [while (n-- > 0) *p++ = (unsigned char)c;] from offset [i]. *)
Fixpoint memset (p : list Z) (i : nat) (value : Z) (num : nat) : outcome (list Z) :=
  match num with
  | O => Ok p
  | S m => p ← store p i (u8 value); memset p (S i) value m
  end.

Definition __kmemset_impl := memset.

Definition __kmemset_checked (dst : option (list Z)) (c : Z) (n : nat) : outcome (list Z) :=
  match dst with None => Panic "null destination pointer in kmemset" | Some d => __kmemset_impl d 0 c n end.

(** Source and destination in different objects. *)
Fixpoint memcpy (d : list Z) (i : nat) (src : list Z) (num : nat) {struct num} : outcome (list Z) :=
  match num with
  | O => Ok d
  | S m => match src with
           | [] => UB
           | b :: src' => d ← store d i b; memcpy d (S i) src' m
           end
  end.

Definition __kmemcpy_impl := memcpy.

Definition __kmemcpy_checked (dst src : option (list Z)) (n : nat) : outcome (list Z) :=
  match dst, src with
  | Some d, Some s => __kmemcpy_impl d 0 s n
  | _, _ => Panic "null pointer in kmemcpy"
  end.

(** The two loops of [memmove], both offsets in the object [m]. *)
Fixpoint move_up (m : list Z) (d s : nat) (num : nat) : outcome (list Z) :=
  match num with
  | O => Ok m
  | S k => b ← or_ub (m !! s); m ← store m d b; move_up m (S d) (S s) k
  end.

Fixpoint move_down (m : list Z) (d s : nat) (num : nat) : outcome (list Z) :=
  match num with
  | O => Ok m
  | S k => b ← or_ub (m !! (s + k)%nat); m ← store m (d + k) b; move_down m d s k
  end.

Definition memmove (m : list Z) (d s num : nat) : outcome (list Z) :=
  if decide (d < s)%nat then move_up m d s num else move_down m d s num.

Fixpoint memcmp (p1 p2 : list Z) (num : nat) {struct num} : outcome Z :=
  match num with
  | O => Ok 0
  | S m => match p1, p2 with
           | a :: p1', b :: p2' => if decide (a <> b) then Ok (a - b) else memcmp p1' p2' m
           | _, _ => UB
           end
  end.

(** ** Copying and appending strings *)

(** Copy up to and including the terminator. *)
Fixpoint strcpy_loop (d : list Z) (i : nat) (src : list Z) : outcome (list Z) :=
  match src with
  | [] => UB
  | c :: src' => d ← store d i c; if decide (c = 0) then Ok d else strcpy_loop d (S i) src'
  end.

Definition strcpy (dest src : list Z) : outcome (list Z) := strcpy_loop dest 0 src.

(** The bounded copy loop [while (n > 0 && *src != 0)]: destination, offset
    reached and what is left of [n]. *)
Fixpoint bounded_copy (d : list Z) (i : nat) (src : list Z) (n : nat) {struct n} : outcome (list Z * nat * nat) :=
  match n with
  | O => Ok (d, i, O)
  | S m => match src with
           | [] => UB
           | c :: src' => if decide (c = 0) then Ok (d, i, n)
                          else d ← store d i c; bounded_copy d (S i) src' m
           end
  end.

(** [strncpy(dest + i, src, n)]. *)
Definition strncpy (dest : list Z) (i : nat) (src : list Z) (n : nat) : outcome (list Z) :=
  '(d, j, k) ← bounded_copy dest i src n; memset d j 0 k.

Definition __kstrncpy_impl (dest src : list Z) (n : nat) : outcome (list Z) := strncpy dest 0 src n.

Definition __kstrncpy_checked (dest src : option (list Z)) (n : nat) : outcome (list Z) :=
  match dest, src with
  | Some d, Some s => __kstrncpy_impl d s n
  | _, _ => Panic "null pointer in kstrncpy"
  end.

Definition strcat (dest src : list Z) : outcome (list Z) :=
  i ← strlen_loop dest 0; strcpy_loop dest i src.

Definition strncat (dest src : list Z) (n : nat) : outcome (list Z) :=
  i ← strlen_loop dest 0; '(d, j, _) ← bounded_copy dest i src n; store d j 0.

(** ** Searching; a returned pointer is an offset from the argument *)

Fixpoint strchr_loop (s : list Z) (c : Z) (i : nat) : outcome (option nat) :=
  match s with
  | [] => UB
  | x :: s' => if decide (x = 0) then Ok (if decide (c = 0) then Some i else None)
               else if decide (x = u8 c) then Ok (Some i) else strchr_loop s' c (S i)
  end.

Definition strchr (str : list Z) (c : Z) : outcome (option nat) := strchr_loop str c 0.

Fixpoint strrchr_loop (s : list Z) (c : Z) (i : nat) (last : option nat) : outcome (option nat) :=
  match s with
  | [] => UB
  | x :: s' => if decide (x = 0) then Ok (if decide (c = 0) then Some i else last)
               else strrchr_loop s' c (S i) (if decide (x = u8 c) then Some i else last)
  end.

Definition strrchr (str : list Z) (c : Z) : outcome (option nat) := strrchr_loop str c 0 None.

(** The inner loop of [strstr] and its test: is the needle a prefix here? *)
Fixpoint starts_with (h n : list Z) {struct n} : outcome bool :=
  match n with
  | [] => UB
  | c :: n' => if decide (c = 0) then Ok true
               else match h with
                    | [] => UB
                    | x :: h' => if decide (x = c) then starts_with h' n' else Ok false
                    end
  end.

Fixpoint strstr_loop (h needle : list Z) (i : nat) : outcome (option nat) :=
  match h with
  | [] => UB
  | x :: h' => if decide (x = 0) then Ok None
               else b ← starts_with h needle; if b : bool then Ok (Some i) else strstr_loop h' needle (S i)
  end.

Definition strstr (haystack needle : list Z) : outcome (option nat) :=
  match needle with
  | [] => UB
  | c :: _ => if decide (c = 0) then Ok (Some 0%nat) else strstr_loop haystack needle 0
  end.

(** ** Tokenising *)

(** The two scanning loops: over delimiters ([b] true) or over token bytes. *)
Fixpoint tok_scan (s delim : list Z) (b : bool) (i : nat) : outcome nat :=
  match s with
  | [] => UB
  | x :: s' => if decide (x = 0) then Ok i
               else r ← strchr delim x;
                    if bool_decide (b = bool_decide (r <> None)) then tok_scan s' delim b (S i) else Ok i
  end.

(** [strtok_r] on the string object [m]: the object after the call, the token's
    offset and the saved offset. *)
Definition strtok_r (m : list Z) (str : option nat) (delim : list Z) (saveptr : option nat)
  : outcome (list Z * option nat * option nat) :=
  let saveptr := match str with Some p => Some p | None => saveptr end in
  match saveptr with
  | None => Ok (m, None, None)
  | Some p =>
      p ← tok_scan (drop p m) delim true p;
      c ← or_ub (m !! p);
      if decide (c = 0) then Ok (m, None, Some p) else
      let token := p in
      p ← tok_scan (drop p m) delim false p;
      c ← or_ub (m !! p);
      if decide (c <> 0) then m ← store m p 0; Ok (m, Some token, Some (S p))
      else Ok (m, Some token, Some p)
  end.

(** [strtok]: the saved pointer is the static [strtok_str]. *)
Definition strtok (m : list Z) (str : option nat) (delim : list Z) (strtok_str : option nat)
  : outcome (list Z * option nat * option nat) := strtok_r m str delim strtok_str.

(** ** Character classes *)

Definition isdigit (c : Z) : bool := (48 <=? c) && (c <=? 57).
Definition isalpha (c : Z) : bool := ((97 <=? c) && (c <=? 122)) || ((65 <=? c) && (c <=? 90)).
Definition isalnum (c : Z) : bool := isalpha c || isdigit c.
Definition isspace (c : Z) : bool := (c =? 32) || (c =? 9) || (c =? 10) || (c =? 13) || (c =? 12) || (c =? 11).
Definition isupper (c : Z) : bool := (65 <=? c) && (c <=? 90).
Definition islower (c : Z) : bool := (97 <=? c) && (c <=? 122).
Definition toupper (c : Z) : Z := if islower c then c - 97 + 65 else c.
Definition tolower (c : Z) : Z := if isupper c then c - 65 + 97 else c.

(** ** The string an object holds *)

Definition cstring (s t : list Z) : Prop := (exists rest, s = t ++ 0 :: rest) /\ Forall (fun c => c <> 0) t.

(** A string literal: its bytes and the terminator. *)
Definition bytes_of (s : string) : list Z := map (fun a => Z.of_N (Ascii.N_of_ascii a)) (String.list_ascii_of_string s).
Definition lit (s : string) : list Z := bytes_of s ++ [0].

(** The text of an object, up to its first terminator. *)
Fixpoint text (s : list Z) : list Z :=
  match s with [] => [] | c :: s' => if decide (c = 0) then [] else c :: text s' end.

Section strings.
Implicit Types s t d : list Z.

Lemma cstring_inv s t : cstring s t ->
  (t = [] /\ exists rest, s = 0 :: rest) \/ (exists c t' s', t = c :: t' /\ s = c :: s' /\ c <> 0 /\ cstring s' t').
Proof.
  intros [[rest ->] Hf]. destruct t as [|c t]; [left; eauto|]. apply Forall_cons in Hf as [Hc Hf].
  right. exists c, t, (t ++ 0 :: rest). splits; auto. split; eauto.
Qed.

Lemma cstring_lit a : Forall (fun c => c <> 0) (bytes_of a) -> cstring (lit a) (bytes_of a).
Proof. intros H. split; [|done]. by exists []. Qed.

Lemma cstring_intro t rest : Forall (fun c => c <> 0) t -> cstring (t ++ 0 :: rest) t.
Proof. split; eauto. Qed.

Lemma cstring_app u s t : Forall (fun c => c <> 0) u -> cstring s t -> cstring (u ++ s) (u ++ t).
Proof. intros Hu [[rest ->] Hf]. split; [exists rest; by rewrite <- app_assoc|]. by apply Forall_app. Qed.

Lemma cstring_drop s t i : (i <= length t)%nat -> cstring s t -> cstring (drop i s) (drop i t).
Proof.
  intros Hi [[rest ->] Hf]. rewrite drop_app_le by lia. split; [eauto|]. by apply Forall_drop.
Qed.

Lemma cstring_fun s t t' : cstring s t -> cstring s t' -> t = t'.
Proof.
  revert s t'. induction t as [|c t IH]; intros s t' H H'.
  - destruct (cstring_inv _ _ H) as [[_ [r ->]]|(c & ? & ? & ? & _)]; [|done].
    by destruct (cstring_inv _ _ H') as [[-> _]|(c & ? & ? & ? & [= <- <-] & ? & _)].
  - destruct (cstring_inv _ _ H) as [[? _]|(? & ? & s' & [= <- <-] & -> & Hc & H1)]; [done|].
    destruct (cstring_inv _ _ H') as [[_ [r [= ? ?]]]|(? & t'' & ? & -> & [= <- <-] & _ & H2)]; [done|].
    f_equal. by eapply IH.
Qed.

Lemma cstring_text s t : cstring s t -> text s = t.
Proof.
  revert s. induction t as [|c t IH]; intros s H; destruct (cstring_inv _ _ H) as [[? [r ->]]|(? & ? & s' & [= <- <-] & -> & Hc & H1)];
    simpl; try done. rewrite decide_False by done. f_equal. auto.
Qed.

Lemma cstring_length s t : cstring s t -> (length t < length s)%nat.
Proof. intros [[rest ->] _]. rewrite length_app. simpl. lia. Qed.

Lemma cstring_nul s t : cstring s t -> s !! length t = Some 0.
Proof. intros [[rest ->] _]. by rewrite list_lookup_middle. Qed.

Lemma cstring_lookup s t i c : cstring s t -> t !! i = Some c -> s !! i = Some c.
Proof. intros [[rest ->] _] H. by apply lookup_app_l_Some. Qed.

Lemma strlen_loop_spec s t n : cstring s t -> strlen_loop s n = Ok (n + length t)%nat.
Proof.
  revert s n. induction t as [|c t IH]; intros s n H; destruct (cstring_inv _ _ H) as [[? [r ->]]|(? & ? & s' & [= <- <-] & -> & Hc & H1)]; try done.
  - simpl. f_equal. lia.
  - simpl. rewrite decide_False by done. rewrite (IH s' (S n) H1). f_equal. simpl. lia.
Qed.

(** ** Comparison is the lexicographic order *)

Fixpoint lex (t1 t2 : list Z) : comparison :=
  match t1, t2 with
  | [], [] => Eq
  | [], _ :: _ => Lt
  | _ :: _, [] => Gt
  | a :: t1', b :: t2' => match a ?= b with Eq => lex t1' t2' | c => c end
  end.

Lemma lex_eq t1 t2 : lex t1 t2 = Eq <-> t1 = t2.
Proof.
  revert t2; induction t1 as [|a t1 IH]; intros [|b t2]; simpl; try (split; congruence).
  destruct (a ?= b) eqn:E; [apply Z.compare_eq_iff in E as ->; rewrite IH; split; congruence| |];
    (split; [done|]; intros [= -> ->]; by rewrite Z.compare_refl in E).
Qed.

Definition bytes t := Forall (fun c => 0 <= c <= 255) t.

Lemma kstrcmp_spec s1 s2 t1 t2 : cstring s1 t1 -> cstring s2 t2 -> bytes t1 -> bytes t2 ->
  exists r, kstrcmp s1 s2 = Ok r /\ -255 <= r <= 255 /\ (r ?= 0) = lex t1 t2.
Proof.
  revert s1 s2 t2. induction t1 as [|a t1 IH]; intros s1 s2 t2 H1 H2 B1 B2;
    destruct (cstring_inv _ _ H1) as [[? [r1 ->]]|(? & ? & s1' & [= <- <-] & -> & Ha & H1')];
    destruct (cstring_inv _ _ H2) as [[-> [r2 ->]]|(b & t2' & s2' & -> & -> & Hb & H2')]; try done; cbn [kstrcmp].
  - exists 0. done.
  - apply Forall_cons in B2 as [B2 _]. rewrite decide_False by naive_solver. eexists; split; [reflexivity|]. split; [lia|].
    simpl. apply Z.compare_lt_iff. lia.
  - apply Forall_cons in B1 as [B1 _]. rewrite decide_False by naive_solver. eexists; split; [reflexivity|]. split; [lia|].
    simpl. apply Z.compare_gt_iff. lia.
  - apply Forall_cons in B1 as [B1 B1'], B2 as [B2 B2']. destruct (decide (a = b)) as [->|Hn].
    + rewrite decide_True by done. simpl. rewrite Z.compare_refl. eauto.
    + rewrite decide_False by naive_solver. eexists; split; [reflexivity|]. split; [lia|]. simpl.
      destruct (a ?= b) eqn:E; [rewrite Z.compare_eq_iff in E|rewrite Z.compare_lt_iff in E|rewrite Z.compare_gt_iff in E]; try done.
      * apply Z.compare_lt_iff. lia.
      * apply Z.compare_gt_iff. lia.
Qed.

(** Equality test, without the range of the bytes. *)
Lemma kstrcmp_eq s1 s2 t1 t2 : cstring s1 t1 -> cstring s2 t2 ->
  exists r, kstrcmp s1 s2 = Ok r /\ (r = 0 <-> t1 = t2).
Proof.
  revert s1 s2 t2. induction t1 as [|a t1 IH]; intros s1 s2 t2 H1 H2;
    destruct (cstring_inv _ _ H1) as [[? [r1 ->]]|(? & ? & s1' & [= <- <-] & -> & Ha & H1')];
    destruct (cstring_inv _ _ H2) as [[-> [r2 ->]]|(b & t2' & s2' & -> & -> & Hb & H2')]; try done; cbn [kstrcmp].
  - exists 0. done.
  - rewrite decide_False by naive_solver. eexists; split; [reflexivity|]. split; [intros; lia|done].
  - rewrite decide_False by naive_solver. eexists; split; [reflexivity|]. split; [intros; lia|done].
  - destruct (decide (a = b)) as [->|Hn].
    + rewrite decide_True by done. destruct (IH _ _ _ H1' H2') as (r & -> & Hr). exists r. split; [done|]. rewrite Hr. split; congruence.
    + rewrite decide_False by naive_solver. eexists; split; [reflexivity|]. split; [intros; lia|congruence].
Qed.

(** [strncmp] compares the first [n] bytes. *)
Lemma kstrncmp_take n s1 s2 t1 t2 : cstring s1 t1 -> cstring s2 t2 ->
  exists r, kstrncmp s1 s2 n = Ok r /\ (r = 0 <-> take n t1 = take n t2).
Proof.
  revert s1 s2 t1 t2. induction n as [|n IH]; intros s1 s2 t1 t2 H1 H2; [by exists 0|].
  destruct (cstring_inv _ _ H1) as [[-> [r1 ->]]|(a & ? & s1' & -> & -> & Ha & H1')];
    destruct (cstring_inv _ _ H2) as [[-> [r2 ->]]|(b & t2' & s2' & -> & -> & Hb & H2')]; cbn [kstrncmp].
  - exists 0. done.
  - rewrite decide_False by naive_solver. eexists; split; [reflexivity|]. split; [intros; lia|done].
  - rewrite decide_False by naive_solver. eexists; split; [reflexivity|]. split; [intros; lia|done].
  - destruct (decide (a = b)) as [->|Hn].
    + rewrite decide_True by done. destruct (IH _ _ _ _ H1' H2') as (r & -> & Hr). exists r. split; [done|]. simpl. rewrite Hr. split; congruence.
    + rewrite decide_False by naive_solver. eexists; split; [reflexivity|]. simpl. split; [intros; lia|congruence].
Qed.
End strings.

(** ** Copies overwrite exactly one window of the destination *)

(** [d] with the window of [w]'s length at [i] replaced by [w]. *)
Definition splice (d : list Z) (i : nat) (w : list Z) : list Z := take i d ++ w ++ drop (i + length w) d.

Section copies.
Implicit Types s t d w m : list Z.

Lemma length_splice d i w : (i + length w <= length d)%nat -> length (splice d i w) = length d.
Proof. intros H. unfold splice. rewrite !length_app, length_take, length_drop. lia. Qed.

Lemma lookup_splice d i w j : (i + length w <= length d)%nat ->
  splice d i w !! j = if decide (i <= j < i + length w)%nat then w !! (j - i)%nat else d !! j.
Proof.
  intros H. unfold splice. destruct (decide (j < i)%nat).
  { rewrite decide_False by lia. rewrite lookup_app_l by (rewrite length_take; lia). by apply lookup_take_lt. }
  rewrite lookup_app_r by (rewrite length_take; lia). rewrite length_take, Nat.min_l by lia.
  case_decide.
  - apply lookup_app_l. lia.
  - rewrite lookup_app_r by lia. rewrite lookup_drop. f_equal. lia.
Qed.

Lemma splice_nil d i : splice d i [] = d.
Proof. unfold splice. simpl. by rewrite Nat.add_0_r, take_drop. Qed.

Lemma splice_app d i u w : (i + length u + length w <= length d)%nat ->
  splice (splice d i u) (i + length u) w = splice d i (u ++ w).
Proof.
  intros H. apply list_eq. intros j.
  rewrite !lookup_splice by (rewrite ?length_app, ?length_splice; lia). rewrite length_app.
  repeat dec_goal; try lia; try done.
  - rewrite lookup_app_r by lia. f_equal. lia.
  - rewrite lookup_app_l by lia. done.
Qed.

Lemma store_splice d i b : (i < length d)%nat -> store d i b = Ok (splice d i [b]).
Proof.
  intros H. unfold store. rewrite decide_True by done. f_equal. unfold splice. simpl.
  rewrite insert_take_drop by done. by replace (S i) with (i + 1)%nat by lia.
Qed.

Lemma splice_cons d i b w : (i + S (length w) <= length d)%nat ->
  splice (splice d i [b]) (S i) w = splice d i (b :: w).
Proof. intros H. replace (S i) with (i + length [b])%nat by (simpl; lia). rewrite splice_app by (simpl; lia). done. Qed.

Lemma memset_spec d i v n : (i + n <= length d)%nat -> memset d i v n = Ok (splice d i (replicate n (u8 v))).
Proof.
  revert d i. induction n as [|n IH]; intros d i H; cbn [memset]; [by rewrite splice_nil|].
  rewrite store_splice by lia. cbn [mbind outcome_bind].
  rewrite IH by (rewrite length_splice; simpl; lia). by rewrite splice_cons by (rewrite length_replicate; lia).
Qed.

Lemma memcpy_spec d i s n : (n <= length s)%nat -> (i + n <= length d)%nat -> memcpy d i s n = Ok (splice d i (take n s)).
Proof.
  revert d i s. induction n as [|n IH]; intros d i s Hs H; cbn [memcpy]; [by rewrite splice_nil|].
  destruct s as [|b s]; simpl in Hs; [lia|]. rewrite store_splice by lia. cbn [mbind outcome_bind].
  rewrite IH by (rewrite ?length_splice; simpl; lia). by rewrite splice_cons by (rewrite length_take; lia).
Qed.

Lemma move_up_spec (n : nat) m (d s : nat) : (d < s)%nat -> (s + n <= length m)%nat ->
  move_up m d s n = Ok (splice m d (take n (drop s m))).
Proof.
  revert m d s. induction n as [|n IH]; intros m d s Hd Hs; cbn [move_up]; [by rewrite splice_nil|].
  destruct (lookup_lt_is_Some_2 m s) as [b Hb]; [lia|]. rewrite Hb. cbn [or_ub mbind outcome_bind].
  rewrite store_splice by lia. cbn [mbind outcome_bind].
  rewrite IH by (rewrite ?length_splice; simpl; lia). f_equal.
  rewrite (drop_S m b s Hb). simpl.
  assert (E : drop (S s) (splice m d [b]) = drop (S s) m).
  { apply list_eq. intros j. rewrite !lookup_drop, lookup_splice by (simpl; lia). rewrite decide_False by (simpl; lia). done. }
  rewrite E, splice_cons; [done|]. rewrite length_take, length_drop. lia.
Qed.

Lemma move_down_spec (n : nat) m (d s : nat) : (s <= d)%nat -> (d + n <= length m)%nat ->
  move_down m d s n = Ok (splice m d (take n (drop s m))).
Proof.
  revert m. induction n as [|n IH]; intros m Hd Hn; cbn [move_down]; [by rewrite splice_nil|].
  destruct (lookup_lt_is_Some_2 m (s + n)) as [b Hb]; [lia|]. rewrite Hb. cbn [or_ub mbind outcome_bind].
  rewrite store_splice by lia. cbn [mbind outcome_bind].
  rewrite IH by (rewrite ?length_splice; simpl; lia). f_equal.
  assert (Hl : forall k, (k <= S n)%nat -> length (take k (drop s m)) = k) by (intros; rewrite length_take, length_drop; lia).
  assert (Hl' : length (take n (drop s (splice m (d + n) [b]))) = n) by (rewrite length_take, length_drop, length_splice; simpl; lia).
  apply list_eq. intros j. rewrite !lookup_splice; rewrite ?Hl, ?Hl', ?length_splice; simpl; try lia.
  repeat dec_goal; try lia; try done.
  - rewrite !lookup_take_lt, !lookup_drop by lia. rewrite lookup_splice by (simpl; lia). simpl. dec_goal; [lia|done].
  - replace (j - (d + n))%nat with 0%nat by lia. rewrite lookup_take_lt, lookup_drop by lia. change ([b] !! 0%nat) with (Some b). rewrite <- Hb. f_equal. lia.
Qed.

Lemma memmove_spec m (d s n : nat) : (s + n <= length m)%nat -> (d + n <= length m)%nat ->
  memmove m d s n = Ok (splice m d (take n (drop s m))).
Proof. intros. unfold memmove. case_decide; [by apply move_up_spec|apply move_down_spec; lia]. Qed.

Lemma strcpy_loop_spec d i s t : cstring s t -> (i + length t < length d)%nat ->
  strcpy_loop d i s = Ok (splice d i (t ++ [0])).
Proof.
  revert d i s. induction t as [|c t IH]; intros d i s H Hi;
    destruct (cstring_inv _ _ H) as [[? [r ->]]|(? & ? & s' & [= <- <-] & -> & Hc & H1)]; try done; simpl in Hi; cbn [strcpy_loop].
  - rewrite store_splice by lia. done.
  - rewrite store_splice by lia. cbn [mbind outcome_bind]. rewrite decide_False by done.
    rewrite (IH _ _ _ H1) by (rewrite length_splice; simpl; lia). rewrite splice_cons; [done|]. rewrite length_app; simpl; lia.
Qed.

Lemma bounded_copy_spec n d i s t : cstring s t -> (i + n <= length d)%nat ->
  bounded_copy d i s n = Ok (splice d i (take n t), (i + length (take n t))%nat, (n - length (take n t))%nat).
Proof.
  revert d i s t. induction n as [|n IH]; intros d i s t H Hi; cbn [bounded_copy].
  { simpl. by rewrite splice_nil, Nat.add_0_r. }
  destruct (cstring_inv _ _ H) as [[-> [r ->]]|(c & t' & s' & -> & -> & Hc & H1)].
  - rewrite decide_True by done. simpl. by rewrite splice_nil, Nat.add_0_r.
  - rewrite decide_False by done. rewrite store_splice by lia. cbn [mbind outcome_bind].
    rewrite (IH _ _ _ _ H1) by (rewrite length_splice; simpl; lia). cbn [take length].
    rewrite splice_cons by (rewrite length_take; lia). by rewrite Nat.add_succ_r.
Qed.

Lemma strncpy_spec n d i s t : cstring s t -> (i + n <= length d)%nat ->
  strncpy d i s n = Ok (splice d i (take n t ++ replicate (n - length t) 0)).
Proof.
  intros H Hi. unfold strncpy. rewrite (bounded_copy_spec n d i s t H Hi). cbn [mbind outcome_bind].
  assert (length (take n t) <= n)%nat by (rewrite length_take; lia).
  rewrite memset_spec by (rewrite length_splice; lia).
  rewrite splice_app by (rewrite length_replicate; lia). rewrite length_take. do 4 f_equal. lia.
Qed.

Lemma strcat_spec d s t u : cstring d t -> cstring s u -> (length t + length u < length d)%nat ->
  strcat d s = Ok (splice d (length t) (u ++ [0])).
Proof.
  intros Hd Hs Hl. unfold strcat. rewrite (strlen_loop_spec d t 0 Hd). cbn [mbind outcome_bind].
  rewrite Nat.add_0_l. by apply strcpy_loop_spec.
Qed.

Lemma splice_prefix d t i w : (i + length w <= length d)%nat -> take i d = t -> take (i + length w) (splice d i w) = t ++ w.
Proof.
  intros H <-. unfold splice. assert (Hl : length (take i d) = i) by (rewrite length_take; lia).
  rewrite app_assoc. rewrite take_app_le by (rewrite length_app; lia). apply take_ge. rewrite length_app. lia.
Qed.
End copies.

(** ** Searching *)

Section search.
Implicit Types s t : list Z.

Lemma u8_id c : 0 <= c <= 255 -> u8 c = c.
Proof. intros. apply Z.mod_small. lia. Qed.

(** A byte is found exactly when it occurs. *)
Lemma strchr_mem s t c i : cstring s t -> 0 < c <= 255 ->
  exists r, strchr_loop s c i = Ok r /\ (r <> None <-> c ∈ t).
Proof.
  intros H Hc. revert s i H. induction t as [|x t IH]; intros s i H;
    destruct (cstring_inv _ _ H) as [[? [rr ->]]|(? & ? & s' & [= <- <-] & -> & Hx & H1)]; try done; cbn [strchr_loop].
  - rewrite (decide_False (P := c = 0)) by lia. rewrite decide_True by done. exists None. split; [done|]. split; [done|]. by intros ?%not_elem_of_nil.
  - rewrite (decide_False (P := x = 0)) by done. rewrite u8_id by lia. case_decide as E.
    + exists (Some i). split; [done|]. subst. split; [left|done].
    + destruct (IH s' (S i) H1) as (r & -> & Hr). exists r. split; [done|]. rewrite Hr, elem_of_cons. naive_solver.
Qed.

Definition last_at (c : Z) (t : list Z) (i : nat) : Prop := t !! i = Some c /\ c ∉ drop (S i) t.

Lemma strrchr_loop_spec s t c i last : cstring s t -> 0 < c <= 255 ->
  exists r, strrchr_loop s c i last = Ok r /\
    (((c ∉ t) /\ r = last) \/ exists j, r = Some (i + j)%nat /\ last_at c t j).
Proof.
  intros H Hc. revert s i last H. induction t as [|x t IH]; intros s i last H;
    destruct (cstring_inv _ _ H) as [[? [rr ->]]|(? & ? & s' & [= <- <-] & -> & Hx & H1)]; try done; cbn [strrchr_loop].
  - rewrite (decide_False (P := c = 0)) by lia. rewrite decide_True by done. exists last. split; [done|].
    left. split; [|done]. apply not_elem_of_nil.
  - rewrite (decide_False (P := x = 0)) by done. rewrite u8_id by lia.
    destruct (IH s' (S i) (if decide (x = c) then Some i else last) H1) as (r & -> & Hr). exists r. split; [done|].
    destruct Hr as [[Hn ->]|(j & -> & Hj & Hd)].
    + case_decide as E; [right; exists 0%nat; subst; split; [f_equal; lia|by split]|].
      left. split; [|done]. rewrite elem_of_cons. naive_solver.
    + right. exists (S j). split; [f_equal; lia|]. by split.
Qed.

Lemma starts_with_spec h n th tn : cstring h th -> cstring n tn -> starts_with h n = Ok (bool_decide (tn `prefix_of` th)).
Proof.
  revert h n th. induction tn as [|c tn IH]; intros h n th Hh Hn;
    destruct (cstring_inv _ _ Hn) as [[? [rr ->]]|(? & ? & n' & [= <- <-] & -> & Hc & Hn')]; try discriminate; cbn [starts_with].
  - rewrite decide_True by done. rewrite bool_decide_true; [done|]. apply prefix_nil.
  - rewrite decide_False by done. destruct (cstring_inv _ _ Hh) as [[-> [r2 ->]]|(x & th' & h' & -> & -> & Hx & Hh')].
    + rewrite decide_False by done. rewrite bool_decide_false; [done|]. by intros ?%prefix_nil_not.
    + case_decide as E.
      * subst. rewrite (IH h' n' th') by done. f_equal. apply bool_decide_ext. split; [apply prefix_cons|]. by intros ?%prefix_cons_inv_2.
      * rewrite bool_decide_false; [done|]. intros ?%prefix_cons_inv_1. congruence.
Qed.

(** [strstr] finds the first occurrence. *)
Lemma strstr_loop_spec h n th tn i : cstring h th -> cstring n tn -> tn <> [] ->
  exists r, strstr_loop h n i = Ok r /\
    match r with
    | Some k => exists j, k = (i + j)%nat /\ tn `prefix_of` drop j th /\ forall j', (j' < j)%nat -> ~ tn `prefix_of` drop j' th
    | None => forall j, ~ tn `prefix_of` drop j th
    end.
Proof.
  intros Hh Hn Hne. revert h i Hh. induction th as [|x th IH]; intros h i Hh;
    destruct (cstring_inv _ _ Hh) as [[? [rr ->]]|(? & ? & h' & [= <- <-] & -> & Hx & Hh')]; try done; cbn [strstr_loop].
  - rewrite decide_True by done. exists None. split; [done|]. intros j. rewrite drop_nil. intros ?%prefix_nil_inv. done.
  - rewrite decide_False by done. rewrite (starts_with_spec (x :: h') n (x :: th) tn) by done. cbn [mbind outcome_bind].
    case_bool_decide as Hp.
    + exists (Some i). split; [done|]. exists 0%nat. splits; [lia|done|]. lia.
    + destruct (IH h' (S i) Hh') as ([k|] & -> & Hr); (eexists; split; [reflexivity|]).
      * destruct Hr as (j & -> & Hj & Hf). exists (S j). splits; [lia|done|]. intros [|j'] Hlt; [done|]. apply Hf. lia.
      * intros [|j]; [done|]. apply Hr.
Qed.
End search.

(** ** Tokens *)

(** The maximal runs of bytes outside [p], in order. *)
Definition emit_field (w : list Z) : list (list Z) := match w with [] => [] | _ => [w] end.

Fixpoint fields_from (p : Z -> bool) (cur l : list Z) : list (list Z) :=
  match l with
  | [] => emit_field cur
  | c :: l' => if p c then emit_field cur ++ fields_from p [] l' else fields_from p (cur ++ [c]) l'
  end.

Definition fields (p : Z -> bool) (l : list Z) : list (list Z) := fields_from p [] l.

Section fields.
Implicit Types l w : list Z.
Context (p : Z -> bool).

Lemma fields_from_run w cur l : Forall (fun c => p c = false) w -> fields_from p cur (w ++ l) = fields_from p (cur ++ w) l.
Proof.
  revert cur. induction w as [|c w IH]; intros cur H; simpl; [by rewrite app_nil_r|].
  apply Forall_cons in H as [-> H]. rewrite IH by done. by rewrite <- app_assoc.
Qed.

Lemma fields_skip w l : Forall (fun c => p c = true) w -> fields p (w ++ l) = fields p l.
Proof.
  unfold fields. induction w as [|c w IH]; intros H; simpl; [done|]. apply Forall_cons in H as [-> H]. simpl. auto.
Qed.

Lemma fields_run w : Forall (fun c => p c = false) w -> fields p w = emit_field w.
Proof. intros H. rewrite <- (app_nil_r w) at 1. unfold fields. by rewrite fields_from_run. Qed.

Lemma fields_run_delim w c l : Forall (fun c => p c = false) w -> p c = true ->
  fields p (w ++ c :: l) = emit_field w ++ fields p l.
Proof. intros H Hc. unfold fields at 1. rewrite fields_from_run by done. simpl. by rewrite Hc. Qed.

(** The longest prefix on which [p] is [b]. *)
Fixpoint run_of (b : bool) l : list Z :=
  match l with [] => [] | c :: l' => if bool_decide (b = p c) then c :: run_of b l' else [] end.

Lemma run_of_all b l : Forall (fun c => p c = b) (run_of b l).
Proof. induction l as [|c l IH]; simpl; [done|]. case_bool_decide; [|done]. by apply Forall_cons. Qed.

Lemma run_of_split b l : exists r, l = run_of b l ++ r /\ (r = [] \/ exists c r', r = c :: r' /\ p c = negb b).
Proof.
  induction l as [|c l (r & E & Hr)]; simpl; [by exists []; auto|].
  case_bool_decide as Hb.
  - exists r. simpl. rewrite <- E. auto.
  - exists (c :: l). split; [done|]. right. exists c, l. split; [done|]. destruct b, (p c); done.
Qed.
End fields.

(** Call [strtok_r] until it returns NULL and read each token it returns. *)
Fixpoint strtok_run (fuel : nat) (m : list Z) (str : option nat) (delim : list Z) (save : option nat) : outcome (list (list Z)) :=
  match fuel with
  | O => UB
  | S fuel' =>
      '(m, tok, save) ← strtok_r m str delim save;
      match tok with
      | None => Ok []
      | Some p => ws ← strtok_run fuel' m None delim save; Ok (text (drop p m) :: ws)
      end
  end.

Section strtok.
Context (delim dl : list Z) (Hdl : cstring delim dl).

Definition is_delim (c : Z) : bool := bool_decide (c ∈ dl).

Lemma tok_scan_spec s t b i : cstring s t -> bytes t ->
  tok_scan s delim b i = Ok (i + length (run_of is_delim b t))%nat.
Proof.
  revert s i. induction t as [|x t IH]; intros s i H Hb;
    destruct (cstring_inv _ _ H) as [[? [rr ->]]|(? & ? & s' & [= <- <-] & -> & Hx & H1)]; try discriminate; cbn [tok_scan run_of].
  - rewrite decide_True by done. simpl. f_equal. lia.
  - apply Forall_cons in Hb as [Hb Hb']. rewrite decide_False by done.
    destruct (strchr_mem delim dl x 0 Hdl) as (r & E & Hr); [lia|]. unfold strchr. rewrite E. cbn [mbind outcome_bind].
    replace (bool_decide (r <> None)) with (is_delim x) by (apply bool_decide_ext; by rewrite Hr).
    case_bool_decide; [|simpl; f_equal; lia]. rewrite (IH s' (S i) H1 Hb'). simpl. f_equal. lia.
Qed.

Lemma scan_at pre s t b : cstring s t -> bytes t ->
  tok_scan (drop (length pre) (pre ++ s)) delim b (length pre) = Ok (length pre + length (run_of is_delim b t))%nat.
Proof. intros. rewrite drop_app_length. by apply tok_scan_spec. Qed.

Lemma run_of_app b a r : Forall (fun c => is_delim c = b) a -> (r = [] \/ exists c r', r = c :: r' /\ is_delim c = negb b) ->
  run_of is_delim b (a ++ r) = a.
Proof.
  intros Ha Hr. induction a as [|x a IH]; simpl.
  - destruct Hr as [->|(c & r' & -> & Hc)]; [done|]. simpl. rewrite Hc. by destruct b.
  - apply Forall_cons in Ha as [<- Ha]. rewrite bool_decide_true by done. f_equal. auto.
Qed.

Lemma strtok_r_blank pre u rest str : Forall (fun c => is_delim c = true) u -> Forall (fun c => c <> 0) u -> bytes u ->
  str = Some (length pre) \/ str = None ->
  strtok_r (pre ++ u ++ 0 :: rest) str delim (Some (length pre)) =
    Ok (pre ++ u ++ 0 :: rest, None, Some (length pre + length u)%nat).
Proof.
  intros Hu Hz Hb Hstr. unfold strtok_r.
  replace (match str with Some p0 => Some p0 | None => Some (length pre) end) with (Some (length pre)) by (destruct Hstr as [-> | ->]; done).
  rewrite (scan_at pre _ u true) by auto using cstring_intro. cbn [mbind outcome_bind].
  replace (run_of is_delim true u) with u by (rewrite <- (app_nil_r u) at 2; symmetry; apply run_of_app; auto).
  rewrite app_assoc, <- length_app, list_lookup_middle by done. cbn [or_ub mbind outcome_bind]. by rewrite decide_True.
Qed.

(** A field [w] behind delimiters [a] is cut out; the delimiter ending it, if
    there is one, becomes its terminator. *)
Lemma strtok_r_cut pre a w z rest str :
  Forall (fun c => is_delim c = true) a -> w <> [] -> Forall (fun c => is_delim c = false) w ->
  (z = [] \/ exists e z', z = e :: z' /\ is_delim e = true) ->
  Forall (fun c => c <> 0) (a ++ w ++ z) -> bytes (a ++ w ++ z) -> str = Some (length pre) \/ str = None ->
  strtok_r (pre ++ (a ++ w ++ z) ++ 0 :: rest) str delim (Some (length pre)) =
    Ok ((pre ++ a) ++ w ++ match z with [] => 0 :: rest | _ :: z' => 0 :: z' ++ 0 :: rest end,
        Some (length (pre ++ a)),
        Some match z with [] => length (pre ++ a ++ w) | _ :: _ => S (length (pre ++ a ++ w)) end).
Proof.
  intros Ha Hne Hw Hz H0 Hb Hstr. unfold strtok_r.
  replace (match str with Some p0 => Some p0 | None => Some (length pre) end) with (Some (length pre)) by (destruct Hstr as [-> | ->]; done).
  rewrite (scan_at pre _ (a ++ w ++ z) true) by auto using cstring_intro. cbn [mbind outcome_bind].
  destruct w as [|c w]; [done|]. pose proof Hw as [Hc _]%Forall_cons.
  rewrite run_of_app by (try done; right; exists c, (w ++ z); done).
  pose proof H0 as [_ H1]%Forall_app. pose proof Hb as [_ Hb1]%Forall_app. pose proof H1 as [Hc0 _]%Forall_cons.
  rewrite <- length_app. replace (pre ++ (a ++ (c :: w) ++ z) ++ 0 :: rest) with ((pre ++ a) ++ ((c :: w) ++ z) ++ 0 :: rest) by (by rewrite <- !app_assoc).
  replace (((pre ++ a) ++ ((c :: w) ++ z) ++ 0 :: rest) !! length (pre ++ a)) with (Some c) by (simpl; by rewrite list_lookup_middle).
  cbn [or_ub mbind outcome_bind]. rewrite decide_False by done.
  rewrite (scan_at (pre ++ a) _ ((c :: w) ++ z) false) by auto using cstring_intro. cbn [mbind outcome_bind].
  rewrite run_of_app by done. rewrite <- (app_assoc (c :: w) z). rewrite (app_assoc (pre ++ a)), <- length_app.
  replace (pre ++ a ++ c :: w) with ((pre ++ a) ++ c :: w) by (by rewrite <- app_assoc).
  destruct Hz as [->|(e & z' & -> & He)].
  - change ([] ++ 0 :: rest) with (0 :: rest). rewrite list_lookup_middle by done. cbn [or_ub mbind outcome_bind]. rewrite decide_False by tauto. by rewrite <- app_assoc.
  - change ((e :: z') ++ 0 :: rest) with (e :: z' ++ 0 :: rest). rewrite list_lookup_middle by done. cbn [or_ub mbind outcome_bind].
    apply Forall_app in H1 as [_ [He0 _]%Forall_cons]. rewrite decide_True by done. unfold store.
    rewrite decide_True by (rewrite (length_app _ (e :: _)); simpl; lia). cbn [mbind outcome_bind].
    rewrite <- (Nat.add_0_r (length ((pre ++ a) ++ c :: w))) at 1. rewrite insert_app_r. simpl. by rewrite <- app_assoc.
Qed.

Lemma strtok_run_fields fuel pre u rest str :
  (length u < fuel)%nat -> Forall (fun c => c <> 0) u -> bytes u -> str = Some (length pre) \/ str = None ->
  strtok_run fuel (pre ++ u ++ 0 :: rest) str delim (Some (length pre)) = Ok (fields is_delim u).
Proof.
  revert pre u rest str. induction fuel as [|fuel IH]; intros pre u rest str Hf H0 Hb Hstr; [lia|]. cbn [strtok_run].
  destruct (run_of_split is_delim true u) as (r & Hu & Hr). pose proof (run_of_all is_delim true u) as Ha.
  set (a := run_of is_delim true u) in *. clearbody a. subst u. destruct Hr as [->|(c & r' & -> & Hc)].
  { rewrite app_nil_r in *. rewrite strtok_r_blank by done. cbn [mbind outcome_bind].
    rewrite <- (app_nil_r a), fields_skip by done. done. }
  destruct (run_of_split is_delim false (c :: r')) as (z & Hu & Hz). pose proof (run_of_all is_delim false (c :: r')) as Hw.
  set (w := run_of is_delim false (c :: r')) in *. assert (Hne : w <> []) by (unfold w; simpl; by rewrite Hc). clearbody w. rewrite Hu in *.
  rewrite strtok_r_cut by done. cbn [mbind outcome_bind].
  pose proof H0 as [_ [Hw0 Hz0]%Forall_app]%Forall_app. pose proof Hb as [_ [_ Hzb]%Forall_app]%Forall_app.
  rewrite fields_skip by done. rewrite drop_app_length. destruct Hz as [->|(e & z' & -> & He)].
  - rewrite app_nil_r in *.
    replace ((pre ++ a) ++ w ++ 0 :: rest) with ((pre ++ a ++ w) ++ [] ++ 0 :: rest) by (by rewrite <- !app_assoc). rewrite (IH (pre ++ a ++ w) [] rest None) by (auto; rewrite length_app in Hf; destruct w; simpl in *; try done; lia).
    cbn [mbind outcome_bind]. rewrite (fields_run _ w) by done. rewrite (cstring_text _ w) by (by apply cstring_intro). by destruct w.
  - apply Forall_cons in Hz0 as [_ Hz0], Hzb as [_ Hzb].
    replace (S (length (pre ++ a ++ w))) with (length ((pre ++ a ++ w) ++ [0])) by (rewrite length_app; simpl; lia).
    replace ((pre ++ a) ++ w ++ 0 :: z' ++ 0 :: rest) with (((pre ++ a ++ w) ++ [0]) ++ z' ++ 0 :: rest) by (by rewrite <- !app_assoc).
    rewrite IH by (auto; rewrite !length_app in Hf; simpl in Hf; lia). cbn [mbind outcome_bind].
    rewrite fields_run_delim by done. rewrite (cstring_text _ w) by (by apply cstring_intro). by destruct w.
Qed.
End strtok.

(** ** Buffers that hold a text *)

Definition nz (t : list Z) : Prop := Forall (fun c => c <> 0) t.

Section buffers.
Implicit Types cur t : list Z.

(** A buffer of [size] bytes whose first bytes are the text [cur]. *)
Definition holds (dest : list Z) (size : nat) cur : Prop :=
  length dest = size /\ (length cur < size)%nat /\ take (length cur) dest = cur /\ nz cur.

Lemma holds_store dest size cur k b : holds dest size cur -> (length cur <= k < size)%nat ->
  exists d, store dest k b = Ok d /\ holds d size cur /\ d !! k = Some b.
Proof.
  intros (Hl & Hc & Ht & Hz) Hk. unfold store. rewrite decide_True by lia. eexists; split; [reflexivity|].
  split; [|rewrite list_lookup_insert_eq by lia; done]. split; [by rewrite length_insert|]. splits; auto.
  by rewrite take_insert_ge by lia.
Qed.

Lemma holds_cstring dest size cur : holds dest size cur -> dest !! length cur = Some 0 -> cstring dest cur.
Proof.
  intros (Hl & Hc & Ht & Hz) H0. split; [|done]. exists (drop (S (length cur)) dest).
  transitivity (take (length cur) dest ++ drop (length cur) dest); [by rewrite take_drop|].
  by rewrite (drop_S dest 0 (length cur)), Ht.
Qed.

Lemma holds_splice dest size cur w : holds dest size cur -> nz w -> (length cur + length w < size)%nat ->
  forall pad, (length cur + length w + length pad <= size)%nat -> holds (splice dest (length cur) (w ++ pad)) size (cur ++ w).
Proof.
  intros (Hl & Hc & Ht & Hz) Hw Hlt pad Hp. split; [rewrite length_splice; rewrite ?length_app; lia|].
  rewrite length_app. splits; [lia| |by apply Forall_app].
  unfold splice. rewrite Ht, <- (app_assoc w pad), app_assoc. rewrite <- length_app. apply take_app_length.
Qed.

(** The buffer holding [cur] with a terminator stored behind it. *)
Lemma holds_finish dest size cur : holds dest size cur ->
  exists d, store dest (length cur) 0 = Ok d /\ length d = size /\ cstring d cur /\ holds d size cur.
Proof.
  intros Hh. destruct (holds_store dest size cur (length cur) 0 Hh) as (d & E & Hd & H0); [destruct Hh; lia|].
  exists d. splits; auto; [apply Hd|]. by apply (holds_cstring _ size).
Qed.

Lemma holds_nil dest size : length dest = size -> (0 < size)%nat -> holds dest size [].
Proof. intros. split; [done|]. splits; simpl; auto. constructor. Qed.

Lemma copy_terminated d size s t : cstring s t -> length d = size -> (length t < size)%nat ->
  exists x d', strncpy d 0 s (size - 1) = Ok x /\ store x (size - 1) 0 = Ok d' /\ holds d' size t /\ cstring d' t.
Proof.
  intros Hs Hd Ht. rewrite (strncpy_spec _ d 0 s t) by (done || lia). rewrite take_ge by lia.
  set (x := splice d 0 (t ++ replicate (size - 1 - length t) 0)). exists x.
  assert (Hx : holds x size t).
  { apply (holds_splice d size [] t); simpl; try lia; [apply holds_nil; lia|apply Hs|rewrite length_replicate; lia]. }
  destruct (holds_store x size t (size - 1) 0 Hx) as (d' & E & Hh & H0); [lia|].
  exists d'. splits; auto. apply (holds_cstring _ size); [done|].
  destruct (decide (length t = size - 1)%nat) as [->|Hne]; [done|]. unfold store in E. case_decide; [|done]. injection E as <-.
  rewrite list_lookup_insert_ne by lia. unfold x. rewrite lookup_splice by (rewrite length_app, length_replicate; lia).
  rewrite decide_True by (rewrite length_app, length_replicate; lia). rewrite Nat.sub_0_r, lookup_app_r by lia.
  rewrite Nat.sub_diag. apply lookup_replicate_2. lia.
Qed.

End buffers.

(** [memmove] copies a window of an object onto another one of the same
    object correctly however the two overlap: the destination window holds
    what the source window held before the call and every other byte is
    unchanged, for every pair of windows inside the object. *)
Theorem memmove_correct (m : list Z) (d s n : nat) :
  (s + n <= length m)%nat -> (d + n <= length m)%nat ->
  exists m', memmove m d s n = Ok m' /\ length m' = length m /\
    forall j, m' !! j = if decide (d <= j < d + n)%nat then m !! (s + (j - d))%nat else m !! j.
Proof.
  intros Hs Hd. rewrite memmove_spec by done. assert (Hl : length (take n (drop s m)) = n) by (rewrite length_take, length_drop; lia).
  eexists. split; [reflexivity|]. split; [apply length_splice; lia|]. intros j. rewrite lookup_splice by lia. rewrite Hl.
  dec_goal; [|done]. by rewrite lookup_take_lt, lookup_drop by lia.
Qed.

Lemma memmove_correct_witness : exists m', memmove [1; 2; 3; 4; 5] 1 0 3 = Ok m' /\ m' = [1; 1; 2; 3; 5].
Proof.
  destruct (memmove_correct [1; 2; 3; 4; 5] 1 0 3) as (m' & E & _); [simpl; lia|simpl; lia|].
  exists m'. split; [exact E|]. vm_compute in E. congruence.
Defined.

(** Calling [strtok_r] on a string until it returns NULL yields exactly the
    string's maximal delimiter-free runs, in order, each readable as a
    terminated string at the returned pointer; the calls end after at most one
    more than the length of the string. *)
Theorem strtok_tokens (delim dl t rest : list Z) (fuel : nat) :
  cstring delim dl -> Forall (fun c => c <> 0) t -> bytes t -> (length t < fuel)%nat ->
  strtok_run fuel (t ++ 0 :: rest) (Some 0%nat) delim None = Ok (fields (is_delim dl) t).
Proof.
  intros Hd H0 Hb Hf. rewrite <- (strtok_run_fields delim dl Hd fuel [] t rest (Some 0%nat)) by auto.
  destruct fuel; [done|]. done.
Qed.

Lemma strtok_tokens_witness :
  strtok_run 9 (lit "/bin//ls") (Some 0%nat) (lit "/") None = Ok [bytes_of "bin"; bytes_of "ls"].
Proof.
  transitivity (Ok (fields (is_delim (bytes_of "/")) (bytes_of "/bin//ls"))); [|reflexivity].
  apply (strtok_tokens (lit "/") (bytes_of "/") (bytes_of "/bin//ls") [] 9).
  - apply cstring_lit. vm_compute. repeat constructor; discriminate.
  - vm_compute. repeat constructor; discriminate.
  - vm_compute. repeat constructor; discriminate.
  - vm_compute. lia.
Defined.
