(* ===== verification/Format.v ===== *)
(** * Number conversion and formatted output (src/includes/string.c)

    Objects and pointers as in [CString].  A C [int] that leaves its range is
    [UB]; unsigned arithmetic wraps.  The variable arguments are a list, one
    item per argument: 32-bit integers, 64-bit integers and pointers, strings.
    Taking an argument of another kind, or one that is not there, is [UB]. *)

From S2P Require Import Prelude CString.

Definition INT_MIN : Z := -2147483648.
Definition LONG_MIN : Z := -9223372036854775808.
Definition LONG_MAX : Z := 9223372036854775807.

Definition in_int (z : Z) : outcome Z := if decide (INT_MIN <= z <= INT_MAX) then Ok z else UB.
Definition in_long (z : Z) : outcome Z := if decide (LONG_MIN <= z <= LONG_MAX) then Ok z else UB.

(** ** Numbers from text *)

Fixpoint skip_blanks (s : list Z) : outcome (list Z) :=
  match s with
  | [] => UB
  | c :: s' => if decide (c = 32 \/ c = 9 \/ c = 10) then skip_blanks s' else Ok s
  end.

Definition read_sign (s : list Z) : outcome (Z * list Z) :=
  c ← or_ub (s !! 0%nat);
  if decide (c = 45) then Ok (-1, drop 1 s) else if decide (c = 43) then Ok (1, drop 1 s) else Ok (1, s).

(** The digit loop of [atoi] and [atol]; [fit] is the type of the result. *)
Fixpoint read_digits (fit : Z -> outcome Z) (s : list Z) (result : Z) : outcome Z :=
  match s with
  | [] => UB
  | c :: s' => if decide (48 <= c <= 57)
               then r ← fit (result * 10); r ← fit (r + (c - 48)); read_digits fit s' r
               else Ok result
  end.

Definition atoi (str : list Z) : outcome Z :=
  s ← skip_blanks str; '(sign, s) ← read_sign s; r ← read_digits in_int s 0; in_int (sign * r).

Definition atol (str : list Z) : outcome Z :=
  s ← skip_blanks str; '(sign, s) ← read_sign s; r ← read_digits in_long s 0; in_long (sign * r).

Definition digit_of (c : Z) : option Z :=
  if decide (48 <= c <= 57) then Some (c - 48)
  else if decide (97 <= c <= 122) then Some (c - 97 + 10)
  else if decide (65 <= c <= 90) then Some (c - 65 + 10) else None.

(** The digit loop of [strtoul]: the value and the unread text. *)
Fixpoint strtoul_digits (s : list Z) (base result : Z) : outcome (Z * list Z) :=
  match s with
  | [] => UB
  | c :: s' =>
      if decide (c = 0) then Ok (result, s) else
      match digit_of c with
      | None => Ok (result, s)
      | Some d => if decide (base <= d) then Ok (result, s) else strtoul_digits s' base (u64 (result * base + d))
      end
  end.

Definition detect_base (s : list Z) (base : Z) : outcome (Z * list Z) :=
  if decide (base <> 0) then Ok (base, s) else
  c ← or_ub (s !! 0%nat);
  if decide (c <> 48) then Ok (10, s) else
  let s := drop 1 s in
  c ← or_ub (s !! 0%nat);
  if decide (c = 120 \/ c = 88) then Ok (16, drop 1 s) else Ok (8, s).

(** The value and, for [endptr], the text it is left at. *)
Definition strtoul (str : list Z) (base : Z) : outcome (Z * list Z) :=
  s ← skip_blanks str;
  '(sign, s) ← read_sign s;
  '(base, s) ← detect_base s base;
  '(r, s) ← strtoul_digits s base 0;
  Ok (u64 (sign * r), s).

Definition to_s64 (z : Z) : Z := if decide (z <= LONG_MAX) then z else z - 2 ^ 64.

Definition strtol (str : list Z) (base : Z) : outcome (Z * list Z) :=
  '(v, e) ← strtoul str base; Ok (to_s64 v, e).

(** ** Numbers to text *)

(** [while (start < end)]; [fuel] is the length, twice the number of swaps. *)
Fixpoint reverse_loop (fuel : nat) (str : list Z) (start end_ : nat) : outcome (list Z) :=
  match fuel with
  | O => Ok str
  | S fuel' =>
      if decide (start < end_)%nat then
        a ← or_ub (str !! start);
        b ← or_ub (str !! end_);
        str ← store str start b;
        str ← store str end_ a;
        reverse_loop fuel' str (S start) (end_ - 1)
      else Ok str
  end.

Definition reverse_string (str : list Z) (length : nat) : outcome (list Z) := reverse_loop length str 0 (length - 1).

(** [while (value != 0)]: remainders into [str]; every round stores a byte, so
    the object's length bounds the rounds. *)
Fixpoint int_digits (fuel : nat) (value : Z) (str : list Z) (base : Z) (i : nat) : outcome (list Z * nat) :=
  if decide (value = 0) then Ok (str, i) else
  match fuel with
  | O => UB
  | S fuel' =>
      if decide (base = 0) then UB else
      let rem := Z.rem value base in
      str ← store str i (u8 (if decide (9 < rem) then rem - 10 + 97 else rem + 48));
      int_digits fuel' (Z.quot value base) str base (S i)
  end.

Definition int_to_string (value : Z) (str : list Z) (base : Z) : outcome (list Z * nat) :=
  if decide (value = 0) then str ← store str 0 48; str ← store str 1 0; Ok (str, 1%nat) else
  '(value, neg) ← (if decide (value < 0 /\ base = 10) then v ← in_int (- value); Ok (v, true) else Ok (value, false));
  '(str, i) ← int_digits (length str) value str base 0;
  '(str, i) ← (if neg : bool then s ← store str i 45; Ok (s, S i) else Ok (str, i));
  str ← store str i 0;
  str ← reverse_string str i;
  Ok (str, i).

Definition dig_lo : list Z := bytes_of "0123456789abcdef".
Definition dig_up : list Z := bytes_of "0123456789ABCDEF".

(** [while (value > 0 && n < 32)]: the array [rev], least significant digit
    first; [room] is the part of it that is left. *)
Fixpoint rev_digits (room : nat) (dig : list Z) (value base : Z) : outcome (list Z) :=
  match room with
  | O => Ok []
  | S room' =>
      if decide (0 < value) then
        c ← or_ub (dig !! Z.to_nat (value mod base));
        r ← rev_digits room' dig (value / base) base; Ok (c :: r)
      else Ok []
  end.

(** Store the bytes [w] from [str + i] on. *)
Fixpoint store_all (str : list Z) (i : nat) (w : list Z) : outcome (list Z) :=
  match w with [] => Ok str | c :: w' => s ← store str i c; store_all s (S i) w' end.

(** [u64_to_string(value, str + i, base, upper)]. *)
Definition u64_to_string (value : Z) (str : list Z) (i : nat) (base : Z) (upper : bool) : outcome (list Z * nat) :=
  let dig := if upper then dig_up else dig_lo in
  let base := if decide (base < 2 \/ 16 < base) then 10 else base in
  if decide (value = 0) then str ← store str i 48; str ← store str (i + 1) 0; Ok (str, 1%nat) else
  r ← rev_digits 32 dig value base;
  str ← store_all str i (rev r);
  str ← store str (i + length r) 0;
  Ok (str, length r).

Definition i64_to_string (value : Z) (str : list Z) : outcome (list Z * nat) :=
  if decide (value < 0) then
    let mag := if decide (value = LONG_MIN) then 2 ^ 63 else u64 (- value) in
    str ← store str 0 45;
    '(str, n) ← u64_to_string mag str 1 10 false;
    Ok (str, S n)
  else u64_to_string (u64 value) str 0 10 false.

(** The nibbles from [nibble - 1] down to 0. *)
Fixpoint nibble_loop (nibble : nat) (value : Z) (str : list Z) (pos : nat) (started : bool) : outcome (list Z * nat) :=
  match nibble with
  | O => Ok (str, pos)
  | S k =>
      let digit := Z.land (Z.shiftr value (Z.of_nat k * 4)) 15 in
      if bool_decide (digit <> 0) || started || bool_decide (k = 0%nat)
      then c ← or_ub (dig_lo !! Z.to_nat digit); str ← store str pos c; nibble_loop k value str (S pos) true
      else nibble_loop k value str pos started
  end.

Definition pointer_to_string (value : Z) (str : list Z) : outcome (list Z * nat) :=
  str ← store str 0 48;
  str ← store str 1 120;
  '(str, pos) ← nibble_loop 16 value str 2 false;
  str ← store str pos 0;
  Ok (str, pos).

(** ** Formatted output *)

Inductive varg := AInt (z : Z) | ALong (z : Z) | AStr (s : option (list Z)).

Definition arg_int (ap : list varg) : outcome (Z * list varg) :=
  match ap with AInt z :: ap' => Ok (z, ap') | _ => UB end.
Definition arg_long (ap : list varg) : outcome (Z * list varg) :=
  match ap with ALong z :: ap' => Ok (z, ap') | _ => UB end.
Definition arg_str (ap : list varg) : outcome (option (list Z) * list varg) :=
  match ap with AStr s :: ap' => Ok (s, ap') | _ => UB end.

(** [while (width > len && remaining > 0)]; every round stores a byte. *)
Fixpoint pad_loop (fuel : nat) (str : list Z) (pos : nat) (remaining width len pad : Z) : outcome (list Z * nat * Z) :=
  if decide (len < width /\ 0 < remaining) then
    match fuel with
    | O => UB
    | S fuel' => str ← store str pos pad; pad_loop fuel' str (S pos) (remaining - 1) (width - 1) len pad
    end
  else Ok (str, pos, remaining).

(** [if (len > (int)remaining) len = (int)remaining;] and the copy; a negative
    length is a huge [size_t]. *)
Definition put_bytes (str : list Z) (pos : nat) (remaining : Z) (src : list Z) (len : Z) : outcome (list Z * nat * Z) :=
  let len := if decide (s32 remaining < len) then s32 remaining else len in
  if decide (len < 0) then UB else
  str ← memcpy str pos src (Z.to_nat len);
  Ok (str, (pos + Z.to_nat len)%nat, u64 (remaining - len)).

Definition put_number (str : list Z) (pos : nat) (remaining width pad : Z) (num : list Z) (len : nat) : outcome (list Z * nat * Z) :=
  '(str, pos, remaining) ← pad_loop (S (length str)) str pos remaining width (Z.of_nat len) pad;
  put_bytes str pos remaining num (Z.of_nat len).

(** The field width. *)
Fixpoint read_width (f : list Z) (width : Z) : outcome (Z * list Z) :=
  match f with
  | [] => UB
  | c :: f' => if decide (48 <= c <= 57)
               then w ← in_int (width * 10); w ← in_int (w + (c - 48)); read_width f' w
               else Ok (width, f)
  end.

(** The length modifier: whether it is [z], and how many [l]. *)
Definition read_length (f : list Z) : outcome (bool * Z * list Z) :=
  c ← or_ub (f !! 0%nat);
  if decide (c = 122) then Ok (true, 0, drop 1 f) else
  if decide (c <> 108) then Ok (false, 0, f) else
  c ← or_ub (drop 1 f !! 0%nat);
  if decide (c <> 108) then Ok (false, 1, drop 1 f) else Ok (false, 2, drop 2 f).

Definition num_str : list Z := replicate 32 0.

(** An unsigned argument of the width the modifier says. *)
Definition arg_unsigned (is_size_t : bool) (long_count : Z) (ap : list varg) : outcome (Z * list varg) :=
  if (is_size_t : bool) || bool_decide (1 <= long_count) then '(v, ap) ← arg_long ap; Ok (u64 v, ap)
  else '(v, ap) ← arg_int ap; Ok (u32 v, ap).

(** The [switch]: one conversion. *)
Definition convert (c : Z) (is_size_t : bool) (long_count width pad : Z) (str : list Z) (pos : nat) (remaining : Z) (ap : list varg)
  : outcome (list Z * nat * Z * list varg) :=
  if decide (c = 100 \/ c = 105) then
    '(num, len, ap) ← (if decide (1 <= long_count)
                       then '(v, ap) ← arg_long ap; '(num, len) ← i64_to_string v num_str; Ok (num, len, ap)
                       else '(v, ap) ← arg_int ap; '(num, len) ← int_to_string v num_str 10; Ok (num, len, ap));
    '(str, pos, remaining) ← put_number str pos remaining width pad num len; Ok (str, pos, remaining, ap)
  else if decide (c = 117) then
    '(v, ap) ← arg_unsigned is_size_t long_count ap;
    '(num, len) ← u64_to_string v num_str 0 10 false;
    '(str, pos, remaining) ← put_number str pos remaining width pad num len; Ok (str, pos, remaining, ap)
  else if decide (c = 120 \/ c = 88) then
    '(v, ap) ← arg_unsigned is_size_t long_count ap;
    '(num, len) ← u64_to_string v num_str 0 16 (bool_decide (c = 88));
    '(str, pos, remaining) ← put_number str pos remaining width pad num len; Ok (str, pos, remaining, ap)
  else if decide (c = 112) then
    '(v, ap) ← arg_long ap;
    '(num, len) ← pointer_to_string (u64 v) (replicate 19 0);
    '(str, pos, remaining) ← put_number str pos remaining width pad num len; Ok (str, pos, remaining, ap)
  else if decide (c = 115) then
    '(s, ap) ← arg_str ap;
    let s := default (lit "(null)") s in
    len ← strlen (Some s);
    '(str, pos, remaining) ← put_bytes str pos remaining s (s32 (Z.of_nat len)); Ok (str, pos, remaining, ap)
  else if decide (c = 99) then
    '(v, ap) ← arg_int ap;
    if decide (0 < remaining) then str ← store str pos (u8 v); Ok (str, S pos, remaining - 1, ap)
    else Ok (str, pos, remaining, ap)
  else if decide (c = 37) then
    if decide (0 < remaining) then str ← store str pos 37; Ok (str, S pos, remaining - 1, ap)
    else Ok (str, pos, remaining, ap)
  else Ok (str, pos, remaining, ap).

(** The main loop; every round consumes a byte of the format. *)
Fixpoint format_loop (fuel : nat) (f : list Z) (ap : list varg) (str : list Z) (pos : nat) (remaining : Z) : outcome (list Z * nat) :=
  match fuel with
  | O => UB
  | S fuel' =>
      c ← or_ub (f !! 0%nat);
      if decide (c = 0 \/ remaining <= 0) then Ok (str, pos) else
      if decide (c = 37) then
        let f := drop 1 f in
        c ← or_ub (f !! 0%nat);
        let pad := if decide (c = 48) then 48 else 32 in
        let f := if decide (c = 48) then drop 1 f else f in
        '(width, f) ← read_width f 0;
        '(is_size_t, long_count, f) ← read_length f;
        c ← or_ub (f !! 0%nat);
        '(str, pos, remaining, ap) ← convert c is_size_t long_count width pad str pos remaining ap;
        format_loop fuel' (drop 1 f) ap str pos remaining
      else
        str ← store str pos c;
        format_loop fuel' (drop 1 f) ap str (S pos) (remaining - 1)
  end.

Definition vsnprintf (str : option (list Z)) (size : Z) (format : option (list Z)) (ap : list varg) : outcome (option (list Z) * Z) :=
  match str, format with
  | Some d, Some f =>
      if decide (size = 0) then Ok (str, 0) else
      '(d, pos) ← format_loop (S (length f)) f ap d 0 (size - 1);
      d ← store d pos 0;
      Ok (Some d, s32 (Z.of_nat pos))
  | _, _ => Ok (str, 0)
  end.

Definition snprintf (str : option (list Z)) (size : Z) (format : option (list Z)) (args : list varg) : outcome (option (list Z) * Z) :=
  vsnprintf str size format args.

Definition sprintf (str format : option (list Z)) (args : list varg) : outcome (option (list Z) * Z) :=
  vsnprintf str (u64 (-1)) format args.

(** ** [itoa] *)

Definition digits36 : list Z := bytes_of "0123456789abcdefghijklmnopqrstuvwxyz".

(** The digit loop; [tmp] is [tmp_value], unset before the first round. *)
Fixpoint itoa_digits (fuel : nat) (value base : Z) (str : list Z) (i : nat) (tmp : option Z) : outcome (list Z * nat * option Z) :=
  if decide (value = 0) then Ok (str, i, tmp) else
  match fuel with
  | O => UB
  | S fuel' =>
      let v := Z.quot value base in
      let d := value - v * base in
      if decide (d < 0) then UB else
      c ← or_ub (digits36 !! Z.to_nat d);
      str ← store str i c;
      itoa_digits fuel' v base str (S i) (Some value)
  end.

Definition itoa (value : Z) (str : list Z) (base : Z) : outcome (list Z) :=
  if decide (base < 2 \/ 36 < base) then store str 0 0 else
  '(str, i, tmp) ← itoa_digits (length str) value base str 0 None;
  t ← or_ub tmp;
  '(str, i) ← (if decide (t < 0 /\ base = 10) then s ← store str i 45; Ok (s, S i) else Ok (str, i));
  str ← store str i 0;
  reverse_loop i str 0 (i - 1).

(** ** Digits *)

(** Digits of [v], least significant first, at most [fuel] of them. *)
Fixpoint lsd (fuel : nat) (base v : Z) : list Z :=
  match fuel with
  | O => []
  | S f => if decide (0 < v) then v mod base :: lsd f base (v / base) else []
  end.

(** Horner's rule, most significant digit first. *)
Fixpoint horner (base acc : Z) (ds : list Z) : Z :=
  match ds with [] => acc | d :: ds' => horner base (acc * base + d) ds' end.

Section digits.
Context (base : Z) (Hbase : 2 <= base).

Lemma horner_app acc ds ds' : horner base acc (ds ++ ds') = horner base (horner base acc ds) ds'.
Proof. revert acc. induction ds as [|d ds IH]; intros acc; simpl; auto. Qed.

Lemma lsd_value fuel v : 0 <= v < base ^ Z.of_nat fuel -> horner base 0 (rev (lsd fuel base v)) = v.
Proof.
  revert v. induction fuel as [|f IH]; intros v Hv; [simpl in *; lia|]. cbn [lsd]. case_decide as Hp; [|simpl; lia].
  simpl rev. rewrite horner_app, IH; simpl; [pose proof (Z.div_mod v base); lia|].
  split; [apply Z.div_pos; lia|]. apply Z.div_lt_upper_bound; [lia|].
  replace (Z.of_nat (S f)) with (1 + Z.of_nat f) in Hv by lia. rewrite Z.pow_add_r in Hv by lia. lia.
Qed.

Lemma lsd_length fuel v k : v < base ^ Z.of_nat k -> (length (lsd fuel base v) <= k)%nat.
Proof.
  revert v k. induction fuel as [|f IH]; intros v k Hv; simpl; [lia|]. case_decide as Hp; [|simpl; lia].
  destruct k as [|k]; [simpl in Hv; lia|]. simpl. apply le_n_S, IH. apply Z.div_lt_upper_bound; [lia|].
  replace (Z.of_nat (S k)) with (1 + Z.of_nat k) in Hv by lia. rewrite Z.pow_add_r in Hv by lia. lia.
Qed.

Lemma lsd_range fuel v : Forall (fun d => 0 <= d < base) (lsd fuel base v).
Proof. revert v. induction fuel as [|f IH]; intros v; simpl; [done|]. case_decide; [|done]. constructor; [apply Z.mod_pos_bound; lia|auto]. Qed.

Lemma lsd_nonempty fuel v : 0 < v -> (0 < fuel)%nat -> (0 < length (lsd fuel base v))%nat.
Proof. intros Hv Hf. destruct fuel; [lia|]. simpl. rewrite decide_True by done. simpl. lia. Qed.

Lemma horner_bound acc ds k : 0 <= acc -> Forall (fun d => 0 <= d) ds -> horner base acc ds < k -> acc < k.
Proof.
  revert acc. induction ds as [|d ds IH]; intros acc Ha Hd Hk; simpl in Hk; [done|]. apply Forall_cons in Hd as [Hd Hds].
  assert (acc * base + d < k) by (apply IH; auto; nia). nia.
Qed.
End digits.

Lemma store_all_spec w str i : (i + length w <= length str)%nat -> store_all str i w = Ok (splice str i w).
Proof.
  revert str i. induction w as [|c w IH]; intros str i H; simpl in *; [by rewrite splice_nil|].
  rewrite store_splice by lia. cbn [mbind outcome_bind]. rewrite IH by (rewrite length_splice; simpl; lia). by rewrite splice_cons by lia.
Qed.

(** Reversing the window [m] between [a] and [c]. *)
Lemma reverse_loop_spec fuel (a m c : list Z) : (length m <= fuel)%nat -> (m <> [] \/ a = []) ->
  reverse_loop fuel (a ++ m ++ c) (length a) (length a + length m - 1) = Ok (a ++ rev m ++ c).
Proof.
  revert a m c. induction fuel as [|f IH]; intros a m c Hf Hne; [by destruct m; [|simpl in Hf; lia]|]. cbn [reverse_loop].
  destruct m as [|x m]; [rewrite decide_False by (simpl; lia); done|].
  destruct m as [|y m _] using rev_ind; [rewrite decide_False by (simpl; lia); done|].
  rewrite decide_True by (simpl; rewrite length_app; simpl; lia).
  set (e := (length a + length (x :: m ++ [y]) - 1)%nat). assert (He : e = (length (a ++ x :: m))) by (unfold e; rewrite !length_app; simpl; rewrite length_app; simpl; lia).
  replace (a ++ (x :: m ++ [y]) ++ c) with (a ++ x :: m ++ y :: c) by (simpl; by rewrite <- app_assoc).
  rewrite (list_lookup_middle a (m ++ y :: c) x (length a)) by done. cbn [or_ub mbind outcome_bind].
  assert (El : (a ++ x :: m ++ y :: c) !! e = Some y).
  { rewrite He. rewrite app_comm_cons, app_assoc. by rewrite list_lookup_middle. }
  rewrite El. cbn [or_ub mbind outcome_bind].
  assert (Es1 : store (a ++ x :: m ++ y :: c) (length a) y = Ok (a ++ y :: m ++ y :: c)).
  { unfold store. rewrite decide_True by (rewrite length_app; simpl; lia). by rewrite <- (Nat.add_0_r (length a)), insert_app_r. }
  rewrite Es1. cbn [mbind outcome_bind].
  assert (Es2 : store (a ++ y :: m ++ y :: c) e x = Ok (a ++ y :: m ++ x :: c)).
  { unfold store. rewrite decide_True by (rewrite He, !length_app; simpl; rewrite length_app; simpl; lia). f_equal.
    rewrite He. rewrite !app_comm_cons, !app_assoc.
    replace (length (a ++ x :: m)) with (length (a ++ y :: m) + 0)%nat by (rewrite !length_app; simpl; lia). by rewrite insert_app_r. }
  rewrite Es2. cbn [mbind outcome_bind].
  destruct m as [|z m].
  - simpl. destruct f as [|f]; [done|]. cbn [reverse_loop]. rewrite decide_False by (rewrite He, length_app; simpl; lia). done.
  - replace (a ++ y :: (z :: m) ++ x :: c) with ((a ++ [y]) ++ (z :: m) ++ x :: c) by (by rewrite <- app_assoc).
    replace (S (length a)) with (length (a ++ [y])) by (rewrite length_app; simpl; lia).
    replace (e - 1)%nat with (length (a ++ [y]) + length (z :: m) - 1)%nat by (rewrite He, !length_app; simpl; lia).
    rewrite IH by (simpl in Hf; rewrite length_app in Hf; simpl in *; lia || auto). f_equal. simpl. rewrite rev_app_distr. simpl.
    by rewrite <- !app_assoc.
Qed.

Lemma reverse_string_spec str n : (n <= length str)%nat -> reverse_string str n = Ok (rev (take n str) ++ drop n str).
Proof.
  intros Hn. unfold reverse_string. rewrite <- (take_drop n str) at 1.
  assert (Hl : length (take n str) = n) by (rewrite length_take; lia).
  pose proof (reverse_loop_spec n [] (take n str) (drop n str)) as H. simpl in H. rewrite Hl in H. apply H; auto.
Qed.

(** ** What the conversions write *)

Definition dchar (upper : bool) (d : Z) : Z := default 0 ((if upper then dig_up else dig_lo) !! Z.to_nat d).

Lemma rev_digits_spec room (upper : bool) v base : 2 <= base <= 16 ->
  rev_digits room (if upper then dig_up else dig_lo) v base = Ok (map (dchar upper) (lsd room base v)).
Proof.
  intros Hb. revert v. induction room as [|room IH]; intros v; cbn [rev_digits lsd]; [done|]. case_decide; [|done].
  assert (Hm : 0 <= v mod base < base) by (apply Z.mod_pos_bound; lia).
  destruct (lookup_lt_is_Some_2 (if upper then dig_up else dig_lo) (Z.to_nat (v mod base))) as [c Hc].
  { replace (length (if upper then dig_up else dig_lo)) with 16%nat by (by destruct upper). lia. }
  rewrite Hc. cbn [or_ub mbind outcome_bind]. rewrite IH. cbn [mbind outcome_bind map]. by replace (dchar upper (v mod base)) with c by (unfold dchar; by rewrite Hc).
Qed.

(** The text of [v] in [base]. *)
Definition u64_text (upper : bool) (base v : Z) : list Z :=
  if decide (v = 0) then [48] else map (dchar upper) (rev (lsd 32 base v)).

Lemma u64_to_string_spec v str i base upper : 2 <= base <= 16 -> (i + length (u64_text upper base v) < length str)%nat ->
  u64_to_string v str i base upper = Ok (splice str i (u64_text upper base v ++ [0]), length (u64_text upper base v)).
Proof.
  intros Hb Hl. unfold u64_to_string, u64_text in *. rewrite (decide_False (P := base < 2 \/ 16 < base)) by lia.
  destruct (decide (v = 0)) as [->|Hv].
  - simpl in Hl. rewrite store_splice by lia. cbn [mbind outcome_bind]. rewrite store_splice by (rewrite length_splice; simpl; lia).
    cbn [mbind outcome_bind]. replace (i + 1)%nat with (S i) by lia. by rewrite splice_cons by (simpl; lia).
  - rewrite rev_digits_spec by done. cbn [mbind outcome_bind]. rewrite <- map_rev. set (ds := lsd 32 base v) in *. clearbody ds.
    set (t := map (dchar upper) (rev ds)) in *. assert (Hlen : length (map (dchar upper) ds) = length t) by (unfold t; by rewrite !length_map, length_rev).
    rewrite Hlen. rewrite store_all_spec by lia. cbn [mbind outcome_bind].
    rewrite store_splice by (rewrite length_splice; lia). cbn [mbind outcome_bind]. by rewrite splice_app by (simpl; lia).
Qed.

Lemma dchar_table : forallb (fun d => bool_decide (digit_of (dchar false d) = Some d) && bool_decide (digit_of (dchar true d) = Some d) &&
  bool_decide (dchar false d <> 0) && bool_decide (dchar true d <> 0) && bool_decide (isalnum (dchar false d) = true /\ isalnum (dchar true d) = true)) (map Z.of_nat (seq 0 16)) = true.
Proof. vm_compute. reflexivity. Qed.

Lemma dchar_digit upper d : 0 <= d < 16 -> digit_of (dchar upper d) = Some d /\ dchar upper d <> 0 /\ isalnum (dchar upper d) = true.
Proof.
  intros Hd. pose proof dchar_table as T. rewrite forallb_forall in T. specialize (T d).
  rewrite !andb_true_iff, !bool_decide_eq_true in T. destruct T as ((((? & ?) & ?) & ?) & ? & ?).
  - apply in_map_iff. exists (Z.to_nat d). split; [lia|]. apply in_seq. lia.
  - by destruct upper.
Qed.

Lemma u64_text_length upper base v k : 2 <= base -> 0 <= v < base ^ Z.of_nat k -> (1 <= k)%nat -> (1 <= length (u64_text upper base v) <= k)%nat.
Proof.
  intros Hb Hv Hk. unfold u64_text. case_decide; [simpl; lia|]. rewrite length_map, length_rev.
  pose proof (lsd_length base Hb 32 v k (proj2 Hv)) as H1.
  assert (H2 : (0 < length (lsd 32 base v))%nat) by (apply lsd_nonempty; lia). lia.
Qed.

Lemma u64_text_nz upper base v : 2 <= base <= 16 -> nz (u64_text upper base v).
Proof.
  intros Hb. unfold u64_text, nz. case_decide; [repeat constructor; done|]. apply Forall_fmap. apply Forall_rev.
  eapply Forall_impl; [apply (lsd_range base ltac:(lia) 32 v)|]. intros d Hd. simpl in Hd. apply (dchar_digit upper d). lia.
Qed.

(** [store] of a terminated text into an object. *)
Lemma splice_cstring str t : nz t -> (length t < length str)%nat -> cstring (splice str 0 (t ++ [0])) t.
Proof. intros Hz Hl. unfold splice. simpl. rewrite <- app_assoc. by apply cstring_intro. Qed.

(** ** Signed decimal *)

Definition dec_text (v : Z) : list Z := if decide (v < 0) then 45 :: u64_text false 10 (- v) else u64_text false 10 v.

Lemma dchar_dec d : 0 <= d < 10 -> dchar false d = d + 48.
Proof.
  intros Hd. assert (H : d = 0 \/ d = 1 \/ d = 2 \/ d = 3 \/ d = 4 \/ d = 5 \/ d = 6 \/ d = 7 \/ d = 8 \/ d = 9) by lia.
  destruct H as [->|[->|[->|[->|[->|[->|[->|[->|[->| ->]]]]]]]]]; reflexivity.
Qed.

Lemma int_digits_spec fuel v str i : 0 <= v < 10 ^ Z.of_nat fuel -> (i + length (lsd fuel 10 v) <= length str)%nat ->
  int_digits fuel v str 10 i = Ok (splice str i (map (dchar false) (lsd fuel 10 v)), (i + length (lsd fuel 10 v))%nat).
Proof.
  revert v str i. induction fuel as [|f IH]; intros v str i Hv Hl.
  - simpl in *. rewrite decide_True by lia. by rewrite splice_nil, Nat.add_0_r.
  - cbn [int_digits lsd] in *. destruct (decide (v = 0)) as [->|Hn]; [simpl; by rewrite splice_nil, Nat.add_0_r|].
    rewrite (decide_True (P := 0 < v)) in * by lia. rewrite (decide_False (P := 10 = 0)) by done.
    rewrite Z.rem_mod_nonneg, Z.quot_div_nonneg by lia. assert (Hm : 0 <= v mod 10 < 10) by (apply Z.mod_pos_bound; lia).
    rewrite decide_False by lia. rewrite u8_id by lia. simpl length in *. rewrite store_splice by lia. cbn [mbind outcome_bind].
    rewrite IH.
    + cbn [map]. rewrite dchar_dec by done. rewrite splice_cons by (rewrite length_map; lia). f_equal. f_equal. lia.
    + split; [apply Z.div_pos; lia|]. apply Z.div_lt_upper_bound; [lia|].
      replace (Z.of_nat (S f)) with (1 + Z.of_nat f) in Hv by lia. rewrite Z.pow_add_r in Hv by lia. lia.
    + rewrite length_splice by (simpl; lia). lia.
Qed.

Lemma lsd_fuel base n m v : 2 <= base -> v < base ^ Z.of_nat n -> v < base ^ Z.of_nat m -> lsd n base v = lsd m base v.
Proof.
  intros Hb. revert m v. induction n as [|n IH]; intros m v Hn Hm.
  - simpl in Hn. destruct m; simpl; [done|]. by rewrite decide_False by lia.
  - destruct m as [|m]; simpl; [simpl in Hm; by rewrite decide_False by lia|]. case_decide; [|done]. f_equal. apply IH.
    + apply Z.div_lt_upper_bound; [lia|]. replace (Z.of_nat (S n)) with (1 + Z.of_nat n) in Hn by lia. rewrite Z.pow_add_r in Hn by lia. lia.
    + apply Z.div_lt_upper_bound; [lia|]. replace (Z.of_nat (S m)) with (1 + Z.of_nat m) in Hm by lia. rewrite Z.pow_add_r in Hm by lia. lia.
Qed.

Lemma reverse_text str w : (length w < length str)%nat ->
  reverse_string (splice str 0 (w ++ [0])) (length w) = Ok (splice str 0 (rev w ++ [0])).
Proof.
  intros Hl. rewrite reverse_string_spec by (rewrite length_splice; rewrite ?length_app; simpl; lia). f_equal. unfold splice. simpl.
  rewrite <- !app_assoc, take_app_length, drop_app_length. simpl. rewrite !length_app, length_rev. simpl. done.
Qed.

Lemma pow10_big n : (10 <= n)%nat -> 2147483648 < 10 ^ Z.of_nat n.
Proof. intros Hn. apply (Z.lt_le_trans _ (10 ^ 10)); [reflexivity|]. apply Z.pow_le_mono_r; lia. Qed.

(** The reversed digits of a positive number, behind them a sign. *)
Lemma int_digits_text v str : 0 < v <= INT_MAX -> (12 <= length str)%nat ->
  let w := map (dchar false) (lsd (length str) 10 v) in
  int_digits (length str) v str 10 0 = Ok (splice str 0 w, length w) /\ rev w = u64_text false 10 v /\ (1 <= length w <= 10)%nat.
Proof.
  intros Hv Hl w. unfold INT_MAX in Hv. pose proof (pow10_big (length str) ltac:(lia)) as Hp.
  assert (Hw : (length (lsd (length str) 10 v) <= 10)%nat) by (apply lsd_length; [lia|]; simpl; lia).
  assert (Hw1 : (0 < length (lsd (length str) 10 v))%nat) by (apply lsd_nonempty; lia).
  unfold w. rewrite length_map. split; [apply int_digits_spec; lia|]. split; [|lia]. unfold u64_text. rewrite decide_False by lia.
  rewrite <- map_rev. do 2 f_equal. apply lsd_fuel; [lia|lia|]. simpl. lia.
Qed.

Lemma splice_app0 (d u w : list Z) : (length u + length w <= length d)%nat -> splice (splice d 0 u) (length u) w = splice d 0 (u ++ w).
Proof. intros H. apply (splice_app d 0). lia. Qed.

Lemma int_to_string_spec v str : INT_MIN < v <= INT_MAX -> (12 <= length str)%nat ->
  (length (dec_text v) <= 11)%nat /\ nz (dec_text v) /\
  int_to_string v str 10 = Ok (splice str 0 (dec_text v ++ [0]), length (dec_text v)).
Proof.
  unfold INT_MIN, INT_MAX. intros Hv Hl. unfold int_to_string, dec_text.
  destruct (decide (v = 0)) as [->|Hn].
  { simpl. split; [lia|]. split; [repeat constructor; done|]. rewrite store_splice by lia. cbn [mbind outcome_bind].
    rewrite store_splice by (rewrite length_splice; simpl; lia). cbn [mbind outcome_bind]. by rewrite splice_cons by (simpl; lia). }
  destruct (decide (v < 0)) as [Hneg|Hpos].
  - rewrite decide_True by done. unfold in_int. rewrite decide_True by (unfold INT_MIN, INT_MAX; lia). cbn [mbind outcome_bind].
    destruct (int_digits_text (- v) str) as (E & Hrev & Hlen); [unfold INT_MAX; lia|done|]. rewrite E. cbn [mbind outcome_bind].
    set (w := map _ _) in *. rewrite store_splice by (rewrite length_splice; lia). cbn [mbind outcome_bind].
    rewrite (splice_app0 str w [45]) by (simpl; lia). rewrite store_splice by (rewrite length_splice; rewrite ?length_app; simpl; lia).
    cbn [mbind outcome_bind]. replace (S (length w)) with (length (w ++ [45])) by (rewrite length_app; simpl; lia).
    rewrite (splice_app0 str (w ++ [45]) [0]) by (rewrite length_app; simpl; lia). rewrite reverse_text by (rewrite length_app; simpl; lia).
    cbn [mbind outcome_bind]. rewrite rev_app_distr. simpl. rewrite Hrev.
    assert (Hlr : length (u64_text false 10 (- v)) = length w) by (rewrite <- Hrev; apply length_rev).
    split; [simpl; lia|]. split; [constructor; [done|by apply u64_text_nz]|]. rewrite length_app, Hlr. simpl. do 2 f_equal. lia.
  - rewrite decide_False by tauto. cbn [mbind outcome_bind].
    destruct (int_digits_text v str) as (E & Hrev & Hlen); [unfold INT_MAX; lia|done|]. rewrite E. cbn [mbind outcome_bind].
    set (w := map _ _) in *. rewrite store_splice by (rewrite length_splice; lia). cbn [mbind outcome_bind].
    rewrite (splice_app0 str w [0]) by (simpl; lia). rewrite reverse_text by lia. cbn [mbind outcome_bind]. rewrite Hrev.
    assert (Hlr : length (u64_text false 10 v) = length w) by (rewrite <- Hrev; apply length_rev).
    split; [lia|]. split; [by apply u64_text_nz|]. by rewrite Hlr.
Qed.

Lemma i64_to_string_spec v str : LONG_MIN <= v <= LONG_MAX -> (22 <= length str)%nat ->
  (length (dec_text v) <= 20)%nat /\ nz (dec_text v) /\
  i64_to_string v str = Ok (splice str 0 (dec_text v ++ [0]), length (dec_text v)).
Proof.
  unfold LONG_MIN, LONG_MAX. intros Hv Hl. unfold i64_to_string, dec_text. destruct (decide (v < 0)) as [Hneg|Hpos].
  - set (mag := if decide (v = LONG_MIN) then 2 ^ 63 else u64 (- v)).
    assert (Hm : mag = - v) by (unfold mag, LONG_MIN, u64; dec_goal; [subst; done|apply Z.mod_small; lia]).
    clearbody mag. subst mag. assert (Hk : (1 <= length (u64_text false 10 (- v)) <= 19)%nat) by (apply u64_text_length; simpl; lia).
    rewrite store_splice by lia. cbn [mbind outcome_bind].
    rewrite u64_to_string_spec by (rewrite ?length_splice; simpl; lia). cbn [mbind outcome_bind].
    rewrite (splice_cons str 0) by (rewrite length_app; simpl; lia). split; [simpl; lia|]. split; [|done]. constructor; [done|by apply u64_text_nz].
  - assert (Hk : (1 <= length (u64_text false 10 v) <= 19)%nat) by (apply u64_text_length; simpl; lia).
    unfold u64. rewrite Z.mod_small by lia. rewrite u64_to_string_spec by lia. split; [lia|]. split; [by apply u64_text_nz|done].
Qed.

(** ** Reading a number back *)

Lemma u64_text_digits upper base v : 4 <= base <= 16 -> 0 <= v < 2 ^ 64 ->
  exists ds, u64_text upper base v = map (dchar upper) ds /\ ds <> [] /\ Forall (fun d => 0 <= d < base) ds /\ horner base 0 ds = v.
Proof.
  intros Hb Hv. unfold u64_text. destruct (decide (v = 0)) as [->|Hn].
  - exists [0]. split; [by destruct upper|]. split; [done|]. split; [repeat constructor; lia|done].
  - exists (rev (lsd 32 base v)). split; [done|]. split; [|split].
    + assert (Hl : (0 < length (lsd 32 base v))%nat) by (apply lsd_nonempty; lia). rewrite <- length_rev in Hl.
      intros E. rewrite E in Hl. by apply Nat.lt_irrefl in Hl.
    + apply Forall_rev, lsd_range. lia.
    + apply lsd_value; [lia|]. split; [lia|]. assert (E : 2 ^ 64 = 4 ^ Z.of_nat 32) by reflexivity.
      apply (Z.lt_le_trans _ (2 ^ 64)); [apply Hv|]. rewrite E. apply Z.pow_le_mono_l. lia.
Qed.

Lemma strtoul_digits_spec upper base ds rest acc : 2 <= base <= 16 -> Forall (fun d => 0 <= d < base) ds -> 0 <= acc ->
  horner base acc ds < 2 ^ 64 -> strtoul_digits (map (dchar upper) ds ++ 0 :: rest) base acc = Ok (horner base acc ds, 0 :: rest).
Proof.
  intros Hb. revert acc. induction ds as [|d ds IH]; intros acc Hd Ha Hh; cbn [map app strtoul_digits horner] in *.
  { by rewrite decide_True. }
  apply Forall_cons in Hd as [Hd Hds]. destruct (dchar_digit upper d) as (E & Hz & _); [lia|]. rewrite decide_False by done. rewrite E.
  rewrite decide_False by lia. assert (acc * base + d < 2 ^ 64).
  { apply (horner_bound base ltac:(lia) _ ds); [nia|eapply Forall_impl; [exact Hds|]; simpl; lia|done]. }
  unfold u64. rewrite Z.mod_small by nia. apply IH; auto. nia.
Qed.

Lemma alnum_head c s : isalnum c = true -> skip_blanks (c :: s) = Ok (c :: s) /\ read_sign (c :: s) = Ok (1, c :: s).
Proof.
  unfold isalnum, isalpha, isdigit. rewrite !orb_true_iff, !andb_true_iff, !Z.leb_le. intros H. split.
  - cbn [skip_blanks]. by rewrite decide_False by lia.
  - unfold read_sign. cbn [lookup list_lookup or_ub mbind outcome_bind]. rewrite !decide_False by lia. done.
Qed.

Lemma strtoul_text upper base v rest : 4 <= base <= 16 -> 0 <= v < 2 ^ 64 ->
  strtoul (u64_text upper base v ++ 0 :: rest) base = Ok (v, 0 :: rest).
Proof.
  intros Hb Hv. destruct (u64_text_digits upper base v Hb Hv) as (ds & -> & Hne & Hr & Hh). unfold strtoul.
  destruct ds as [|d ds]; [done|]. pose proof Hr as [Hd _]%Forall_cons. destruct (dchar_digit upper d) as (_ & _ & Ha); [lia|].
  destruct (alnum_head (dchar upper d) (map (dchar upper) ds ++ 0 :: rest) Ha) as [E1 E2].
  change (map (dchar upper) (d :: ds) ++ 0 :: rest) with (dchar upper d :: map (dchar upper) ds ++ 0 :: rest).
  rewrite E1. cbn [mbind outcome_bind]. rewrite E2. cbn [mbind outcome_bind]. unfold detect_base. rewrite decide_True by lia. cbn [mbind outcome_bind].
  pose proof (strtoul_digits_spec upper base (d :: ds) rest 0 ltac:(lia) Hr ltac:(lia)) as E. cbn [map app] in E. rewrite E by (rewrite Hh; lia).
  cbn [mbind outcome_bind]. rewrite Hh. unfold u64. rewrite Z.mul_1_l, Z.mod_small by done. done.
Qed.

Lemma read_digits_spec ds rest acc : Forall (fun d => 0 <= d < 10) ds -> 0 <= acc -> horner 10 acc ds <= INT_MAX ->
  read_digits in_int (map (dchar false) ds ++ 0 :: rest) acc = Ok (horner 10 acc ds).
Proof.
  revert acc. induction ds as [|d ds IH]; intros acc Hd Ha Hh; cbn [map app read_digits horner] in *.
  { by rewrite decide_False by lia. }
  apply Forall_cons in Hd as [Hd Hds]. rewrite dchar_dec by lia. rewrite decide_True by lia.
  assert (acc * 10 + d < INT_MAX + 1).
  { apply (horner_bound 10 ltac:(lia) _ ds); [nia|eapply Forall_impl; [exact Hds|]; simpl; lia|lia]. }
  unfold in_int. rewrite decide_True by (unfold INT_MIN; lia). cbn [mbind outcome_bind]. rewrite decide_True by (unfold INT_MIN; lia).
  cbn [mbind outcome_bind]. replace (d + 48 - 48) with d by lia. apply IH; auto. lia.
Qed.

Lemma atoi_text v rest : INT_MIN < v <= INT_MAX -> atoi (dec_text v ++ 0 :: rest) = Ok v.
Proof.
  unfold INT_MIN. intros Hv. unfold dec_text. destruct (decide (v < 0)) as [Hneg|Hpos].
  - destruct (u64_text_digits false 10 (- v) ltac:(lia)) as (ds & -> & _ & Hr & Hh); [unfold INT_MAX in *; lia|].
    unfold atoi, read_sign. simpl app. cbn [skip_blanks]. rewrite decide_False by lia. cbn [mbind outcome_bind lookup list_lookup or_ub].
    rewrite decide_True by done. cbn [mbind outcome_bind]. simpl drop. rewrite drop_0. rewrite read_digits_spec by (auto; unfold INT_MAX in *; lia).
    cbn [mbind outcome_bind]. rewrite Hh. unfold in_int. rewrite decide_True by (unfold INT_MIN, INT_MAX in *; lia). f_equal. lia.
  - destruct (u64_text_digits false 10 v ltac:(lia)) as (ds & -> & Hne & Hr & Hh); [unfold INT_MAX in *; lia|].
    destruct ds as [|d ds]; [done|]. pose proof Hr as [Hd _]%Forall_cons. destruct (dchar_digit false d) as (_ & _ & Ha); [lia|].
    destruct (alnum_head (dchar false d) (map (dchar false) ds ++ 0 :: rest) Ha) as [E1 E2]. unfold atoi.
    change (map (dchar false) (d :: ds) ++ 0 :: rest) with (dchar false d :: map (dchar false) ds ++ 0 :: rest).
    rewrite E1. cbn [mbind outcome_bind]. rewrite E2. cbn [mbind outcome_bind].
    pose proof (read_digits_spec (d :: ds) rest 0 Hr ltac:(lia)) as E. cbn [map app] in E. rewrite E by (rewrite Hh; lia).
    cbn [mbind outcome_bind]. rewrite Hh. unfold in_int. rewrite decide_True by (unfold INT_MIN in *; lia). f_equal. lia.
Qed.

(** ** Well-formed formats *)

Definition is_dig (c : Z) : Prop := 48 <= c <= 57.

Definition str_arg_ok (s : option (list Z)) : Prop :=
  match s with None => True | Some s => exists t, cstring s t /\ Z.of_nat (length t) <= INT_MAX end.

(** The arguments a conversion character takes, under its length modifier. *)
Inductive arg_ok (c : Z) (z : bool) (l : Z) : list varg -> list varg -> Prop :=
| AO_int v ap : c = 100 \/ c = 105 -> l = 0 -> INT_MIN < v <= INT_MAX -> arg_ok c z l (AInt v :: ap) ap
| AO_long v ap : c = 100 \/ c = 105 -> 1 <= l -> LONG_MIN <= v <= LONG_MAX -> arg_ok c z l (ALong v :: ap) ap
| AO_uint v ap : c = 117 \/ c = 120 \/ c = 88 -> z = false -> l = 0 -> arg_ok c z l (AInt v :: ap) ap
| AO_ulong v ap : c = 117 \/ c = 120 \/ c = 88 -> z = true \/ 1 <= l -> arg_ok c z l (ALong v :: ap) ap
| AO_ptr v ap : c = 112 -> arg_ok c z l (ALong v :: ap) ap
| AO_str s ap : c = 115 -> str_arg_ok s -> arg_ok c z l (AStr s :: ap) ap
| AO_char v ap : c = 99 -> arg_ok c z l (AInt v :: ap) ap
| AO_none ap : c ∉ [100; 105; 117; 120; 88; 112; 115; 99] -> arg_ok c z l ap ap.

Definition modifier (z : bool) (l : Z) (m : list Z) : Prop :=
  (z = false /\ l = 0 /\ m = []) \/ (z = true /\ l = 0 /\ m = [122]) \/ (z = false /\ l = 1 /\ m = [108]) \/ (z = false /\ l = 2 /\ m = [108; 108]).

(** A format whose directives are complete, with a width of at most nine
    digits, and the arguments it consumes. *)
Inductive fmt_ok : list Z -> list varg -> Prop :=
| FO_end ap : fmt_ok [] ap
| FO_char c f ap : c <> 37 -> c <> 0 -> fmt_ok f ap -> fmt_ok (c :: f) ap
| FO_dir ds m z l c f ap ap' :
    Forall is_dig ds -> (length ds <= 9)%nat -> modifier z l m -> c <> 0 -> ~ is_dig c -> c <> 108 -> c <> 122 ->
    arg_ok c z l ap ap' -> fmt_ok f ap' -> fmt_ok (37 :: ds ++ m ++ c :: f) ap.

Lemma fmt_ok_nz f ap : fmt_ok f ap -> nz f.
Proof.
  induction 1 as [| |ds m z l c f ap ap' Hds _ Hm Hc]; unfold nz in *; [constructor|constructor; auto|]. constructor; [done|]. apply Forall_app. split.
  - eapply Forall_impl; [exact Hds|]. unfold is_dig. simpl. lia.
  - apply Forall_app. split; [|by constructor]. destruct Hm as [(_ & _ & ->)|[(_ & _ & ->)|[(_ & _ & ->)|(_ & _ & ->)]]]; repeat constructor; done.
Qed.

Lemma read_width_spec ds c f w k : Forall is_dig ds -> ~ is_dig c -> 0 <= w < 10 ^ k -> 0 <= k -> k + Z.of_nat (length ds) <= 9 ->
  exists w', read_width (ds ++ c :: f) w = Ok (w', c :: f) /\ 0 <= w'.
Proof.
  revert w k. induction ds as [|d ds IH]; intros w k Hds Hc Hw Hk Hl; cbn [app read_width].
  { unfold is_dig in Hc. rewrite decide_False by done. eauto with lia. }
  apply Forall_cons in Hds as [Hd Hds]. unfold is_dig in Hd. rewrite decide_True by done. simpl length in Hl.
  assert (Hp : 10 ^ (k + 1) = 10 * 10 ^ k) by (rewrite Z.pow_add_r by lia; lia).
  assert (Hb : 10 ^ (k + 1) <= 10 ^ 9) by (apply Z.pow_le_mono_r; lia). change (10 ^ 9) with 1000000000 in Hb.
  unfold in_int. rewrite decide_True by (unfold INT_MIN, INT_MAX; lia). cbn [mbind outcome_bind].
  rewrite decide_True by (unfold INT_MIN, INT_MAX; lia). cbn [mbind outcome_bind]. apply (IH _ (k + 1)); auto; lia.
Qed.

Lemma read_length_spec z l m c f : modifier z l m -> c <> 108 -> c <> 122 -> read_length (m ++ c :: f) = Ok (z, l, c :: f).
Proof.
  intros [(-> & -> & ->)|[(-> & -> & ->)|[(-> & -> & ->)|(-> & -> & ->)]]] H1 H2; unfold read_length; cbn [app lookup list_lookup or_ub mbind outcome_bind drop].
  - rewrite decide_False by done. by rewrite decide_True by done.
  - by rewrite decide_True.
  - rewrite (decide_False (P := 108 = 122)) by done. rewrite (decide_False (P := 108 <> 108)) by tauto.
    cbn [lookup list_lookup or_ub mbind outcome_bind]. by rewrite decide_True by done.
  - rewrite (decide_False (P := 108 = 122)) by done. rewrite (decide_False (P := 108 <> 108)) by tauto.
    cbn [lookup list_lookup or_ub mbind outcome_bind]. by rewrite decide_False by tauto.
Qed.

Lemma nibble_loop_spec k v str pos st : (pos + k <= length str)%nat ->
  exists str' pos', nibble_loop k v str pos st = Ok (str', pos') /\ length str' = length str /\ (pos' <= pos + k)%nat.
Proof.
  revert str pos st. induction k as [|k IH]; intros str pos st Hl; cbn [nibble_loop]; [do 2 eexists; split; [reflexivity|]; lia|].
  set (d := Z.land _ 15). assert (Hd : 0 <= d < 16).
  { unfold d. change 15 with (Z.ones 4). rewrite Z.land_ones by lia. apply Z.mod_pos_bound. reflexivity. }
  destruct (lookup_lt_is_Some_2 dig_lo (Z.to_nat d)) as [c Hc]; [change (length dig_lo) with 16%nat; lia|].
  destruct (bool_decide (d <> 0) || st || bool_decide (k = 0%nat)).
  - rewrite Hc. cbn [or_ub mbind outcome_bind]. rewrite store_splice by lia. cbn [mbind outcome_bind].
    destruct (IH (splice str pos [c]) (S pos) true) as (s' & p' & E & Hls & Hp); [rewrite length_splice; simpl; lia|].
    rewrite length_splice in Hls by (simpl; lia). exists s', p'. splits; auto. lia.
  - destruct (IH str pos st) as (s' & p' & E & Hls & Hp); [lia|]. exists s', p'. splits; auto. lia.
Qed.

Lemma pointer_to_string_spec v : exists num n, pointer_to_string v (replicate 19 0) = Ok (num, n) /\ length num = 19%nat /\ (n <= 18)%nat.
Proof.
  unfold pointer_to_string. set (str := replicate 19 0). assert (Hl : length str = 19%nat) by done. clearbody str.
  rewrite store_splice by lia. cbn [mbind outcome_bind]. rewrite store_splice by (rewrite length_splice; simpl; lia). cbn [mbind outcome_bind].
  set (s2 := splice _ 1 _). assert (Hl2 : length s2 = 19%nat) by (unfold s2; rewrite !length_splice; rewrite ?length_splice; simpl; lia). clearbody s2.
  destruct (nibble_loop_spec 16 v s2 2 false) as (s3 & n & E & Hl3 & Hn); [lia|]. rewrite E. cbn [mbind outcome_bind].
  rewrite store_splice by lia. cbn [mbind outcome_bind]. do 2 eexists. split; [reflexivity|]. rewrite length_splice by (simpl; lia). lia.
Qed.

(** ** Output stays inside the buffer *)

Section safety.
Context (orig : list Z) (size : Z).
Context (Hsize : 1 <= size <= 2 ^ 31) (Hfit : size <= Z.of_nat (length orig)).

(** [pos] bytes written, [remaining] to go before the terminator, and nothing
    changed from [size] on. *)
Definition out_ok (str : list Z) (pos : nat) (remaining : Z) : Prop :=
  length str = length orig /\ Z.of_nat pos + remaining = size - 1 /\ 0 <= remaining /\
  forall j, (Z.to_nat size <= j)%nat -> str !! j = orig !! j.

Lemma out_splice str pos remaining w : out_ok str pos remaining -> Z.of_nat (length w) <= remaining ->
  out_ok (splice str pos w) (pos + length w) (remaining - Z.of_nat (length w)).
Proof.
  intros (Hl & Hp & Hr & Hj) Hw. split; [rewrite length_splice; lia|]. splits; [lia|lia|].
  intros j Hge. rewrite lookup_splice by lia. rewrite decide_False by lia. auto.
Qed.

Lemma out_store str pos remaining b : out_ok str pos remaining -> 0 < remaining ->
  exists s, store str pos b = Ok s /\ out_ok s (S pos) (remaining - 1).
Proof.
  intros Ho Hr. pose proof Ho as (Hl & Hp & _). rewrite store_splice by lia. eexists. split; [reflexivity|].
  replace (S pos) with (pos + length [b])%nat by (simpl; lia). by apply (out_splice str pos remaining [b]); [|simpl; lia].
Qed.

Lemma pad_loop_safe fuel str pos remaining width len pad : out_ok str pos remaining -> remaining < Z.of_nat fuel ->
  exists s p r, pad_loop fuel str pos remaining width len pad = Ok (s, p, r) /\ out_ok s p r.
Proof.
  revert str pos remaining width. induction fuel as [|f IH]; intros str pos remaining width Ho Hf; cbn [pad_loop].
  - pose proof Ho as (_ & _ & Hr & _). lia.
  - destruct (decide (len < width /\ 0 < remaining)) as [[_ Hr]|_]; [|eauto 10].
    destruct (out_store str pos remaining pad Ho Hr) as (s & -> & Ho'). cbn [mbind outcome_bind]. apply IH; [done|lia].
Qed.

Lemma put_bytes_safe str pos remaining src len : out_ok str pos remaining -> 0 <= len <= Z.of_nat (length src) ->
  exists s p r, put_bytes str pos remaining src len = Ok (s, p, r) /\ out_ok s p r.
Proof.
  intros Ho Hlen. pose proof Ho as (Hl & Hp & Hr & _). unfold put_bytes.
  assert (Hs : s32 remaining = remaining) by (unfold s32; rewrite Z.mod_small by lia; lia). rewrite Hs.
  set (n := if decide (remaining < len) then remaining else len). assert (Hn : 0 <= n <= len /\ n <= remaining) by (unfold n; dec_goal; lia).
  rewrite decide_False by lia. rewrite memcpy_spec by lia. cbn [mbind outcome_bind]. do 3 eexists. split; [reflexivity|].
  unfold u64. rewrite Z.mod_small by lia. assert (Htl : length (take (Z.to_nat n) src) = Z.to_nat n) by (rewrite length_take; lia).
  pose proof (out_splice str pos remaining (take (Z.to_nat n) src) Ho) as H. rewrite Htl in H. rewrite Z2Nat.id in H by lia. apply H. lia.
Qed.

Lemma put_number_safe str pos remaining width pad num len : out_ok str pos remaining -> (len <= length num)%nat ->
  exists s p r, put_number str pos remaining width pad num len = Ok (s, p, r) /\ out_ok s p r.
Proof.
  intros Ho Hlen. unfold put_number. destruct (pad_loop_safe (S (length str)) str pos remaining width (Z.of_nat len) pad Ho) as (s & p & r & -> & Ho').
  { destruct Ho as (Hl & Hp & Hr & _). lia. }
  cbn [mbind outcome_bind]. apply put_bytes_safe; [done|lia].
Qed.

Lemma length_text_splice t : (length t < 32)%nat -> length (splice num_str 0 (t ++ [0])) = 32%nat.
Proof. intros H. rewrite length_splice; rewrite ?length_app; simpl; lia. Qed.

Lemma u64_num_ok v base upper : (base = 10 \/ base = 16) -> 0 <= v < 2 ^ 64 ->
  exists num len, u64_to_string v num_str 0 base upper = Ok (num, len) /\ length num = 32%nat /\ (len <= 32)%nat.
Proof.
  intros Hb Hv. assert (Hk : (1 <= length (u64_text upper base v) <= 20)%nat).
  { apply u64_text_length; [lia| |lia]. destruct Hb as [-> | ->]; simpl Z.of_nat; split; [lia| |lia|]; (eapply Z.lt_trans; [apply Hv|reflexivity]). }
  rewrite u64_to_string_spec by (change (length num_str) with 32%nat; lia). do 2 eexists. split; [reflexivity|].
  split; [apply length_text_splice; lia|lia].
Qed.

Lemma convert_safe c z l width pad str pos remaining ap ap' : out_ok str pos remaining -> arg_ok c z l ap ap' ->
  exists s p r, convert c z l width pad str pos remaining ap = Ok (s, p, r, ap') /\ out_ok s p r.
Proof.
  intros Ho Ha. unfold convert.
  assert (Hnum : forall num len (ap1 : list varg), (len <= length num)%nat ->
    exists s p r, ('(s, p, r) ← put_number str pos remaining width pad num len; Ok (s, p, r, ap1)) = Ok (s, p, r, ap1) /\ out_ok s p r).
  { intros num len ap1 Hl. destruct (put_number_safe str pos remaining width pad num len Ho Hl) as (s & p & r & -> & Ho'). cbn [mbind outcome_bind]. eauto 10. }
  destruct Ha as [v ap Hc Hl Hv|v ap Hc Hl Hv|v ap Hc Hz Hl|v ap Hc Hl|v ap Hc|s ap Hc Hs|v ap Hc|ap Hc].
  - rewrite (decide_True (P := c = 100 \/ c = 105)) by done. rewrite decide_False by lia. cbn [arg_int mbind outcome_bind].
    destruct (int_to_string_spec v num_str Hv) as (H1 & _ & ->); [simpl; lia|]. cbn [mbind outcome_bind]. apply Hnum. rewrite length_text_splice; lia.
  - rewrite (decide_True (P := c = 100 \/ c = 105)) by done. rewrite decide_True by lia. cbn [arg_long mbind outcome_bind].
    destruct (i64_to_string_spec v num_str Hv) as (H1 & _ & ->); [simpl; lia|]. cbn [mbind outcome_bind]. apply Hnum. rewrite length_text_splice; lia.
  - assert (Hu : arg_unsigned z l (AInt v :: ap) = Ok (u32 v, ap)) by (subst; done).
    assert (Hr : 0 <= u32 v < 2 ^ 64) by (unfold u32; pose proof (Z.mod_pos_bound v (2 ^ 32) ltac:(done)); lia).
    destruct Hc as [-> |Hc]; [rewrite decide_False, (decide_True (P := 117 = 117)) by lia|rewrite !decide_False, (decide_True (P := c = 120 \/ c = 88)) by lia];
      rewrite Hu; cbn [mbind outcome_bind]; (edestruct u64_num_ok as (num & len & E & Hn & Hlen); [| |rewrite E; cbn [mbind outcome_bind]; apply Hnum; lia]; [auto|done]).
  - assert (Hu : arg_unsigned z l (ALong v :: ap) = Ok (u64 v, ap)).
    { unfold arg_unsigned. destruct Hl as [-> |Hl]; [done|]. rewrite bool_decide_true, orb_true_r by done. done. }
    assert (Hr : 0 <= u64 v < 2 ^ 64) by (apply Z.mod_pos_bound; done).
    destruct Hc as [-> |Hc]; [rewrite decide_False, (decide_True (P := 117 = 117)) by lia|rewrite !decide_False, (decide_True (P := c = 120 \/ c = 88)) by lia];
      rewrite Hu; cbn [mbind outcome_bind]; (edestruct u64_num_ok as (num & len & E & Hn & Hlen); [| |rewrite E; cbn [mbind outcome_bind]; apply Hnum; lia]; [auto|done]).
  - subst c. rewrite !(decide_False (P := _ \/ _)), (decide_False (P := 112 = 117)), (decide_True (P := 112 = 112)) by lia. cbn [arg_long mbind outcome_bind].
    destruct (pointer_to_string_spec (u64 v)) as (num & n & -> & Hn & Hln). cbn [mbind outcome_bind]. apply Hnum. lia.
  - subst c. rewrite !(decide_False (P := _ \/ _)), (decide_False (P := 115 = 117)), (decide_False (P := 115 = 112)), (decide_True (P := 115 = 115)) by lia. cbn [arg_str mbind outcome_bind].
    assert (Ht : exists t, cstring (default (lit "(null)") s) t /\ Z.of_nat (length t) <= INT_MAX).
    { destruct s as [s|]; [done|]. exists (bytes_of "(null)"). split; [apply cstring_lit; repeat constructor; done|vm_compute; discriminate]. }
    destruct Ht as (t & Hct & Htl). simpl strlen. rewrite (strlen_loop_spec _ t 0 Hct). cbn [mbind outcome_bind]. rewrite Nat.add_0_l.
    assert (E : s32 (Z.of_nat (length t)) = Z.of_nat (length t)) by (unfold s32, INT_MAX in *; rewrite Z.mod_small by lia; lia). rewrite E.
    destruct (put_bytes_safe str pos remaining (default (lit "(null)") s) (Z.of_nat (length t)) Ho) as (s' & p & r & -> & Ho').
    { apply cstring_length in Hct. lia. }
    cbn [mbind outcome_bind]. eauto 10.
  - subst c. rewrite !(decide_False (P := _ \/ _)), (decide_False (P := 99 = 117)), (decide_False (P := 99 = 112)), (decide_False (P := 99 = 115)), (decide_True (P := 99 = 99)) by lia.
    cbn [arg_int mbind outcome_bind]. case_decide as Hr; [|eauto 10].
    destruct (out_store str pos remaining (u8 v) Ho Hr) as (s' & -> & Ho'). cbn [mbind outcome_bind]. eauto 10.
  - rewrite !not_elem_of_cons in Hc. destruct Hc as (H1 & H2 & H3 & H4 & H5 & H6 & H7 & H8 & _).
    rewrite !(decide_False (P := _ \/ _)), (decide_False (P := c = 117)), (decide_False (P := c = 112)), (decide_False (P := c = 115)), (decide_False (P := c = 99)) by tauto.
    destruct (decide (c = 37)); [|eauto 10]. case_decide as Hr; [|eauto 10].
    destruct (out_store str pos remaining 37 Ho Hr) as (s' & -> & Ho'). cbn [mbind outcome_bind]. eauto 10.
Qed.

(** What the loop reads of a directive behind the pad flag. *)
Lemma directive_parse ds z l m c f : Forall is_dig ds -> (length ds <= 9)%nat -> modifier z l m -> ~ is_dig c -> c <> 108 -> c <> 122 ->
  exists w, read_width (ds ++ m ++ c :: f) 0 = Ok (w, m ++ c :: f) /\ read_length (m ++ c :: f) = Ok (z, l, c :: f).
Proof.
  intros Hds Hdl Hm Hc H1 H2. assert (Hx : exists x y, m ++ c :: f = x :: y /\ ~ is_dig x).
  { destruct Hm as [(_ & _ & ->)|[(_ & _ & ->)|[(_ & _ & ->)|(_ & _ & ->)]]]; simpl; do 2 eexists; (split; [reflexivity|]); auto; unfold is_dig; lia. }
  destruct Hx as (x & y & E & Hx). destruct (read_width_spec ds x y 0 0) as (w & Ew & _); auto; try lia.
  exists w. rewrite E at 1 2. split; [done|]. by apply read_length_spec.
Qed.

Lemma format_loop_safe fuel f rest ap str pos remaining : fmt_ok f ap -> (length f < fuel)%nat -> out_ok str pos remaining ->
  exists s p r, format_loop fuel (f ++ 0 :: rest) ap str pos remaining = Ok (s, p) /\ out_ok s p r.
Proof.
  intros Hf. revert fuel str pos remaining. induction Hf as [ap|c f ap Hc H0 Hf IH|ds m z l c f ap ap' Hds Hdl Hm Hc0 Hcd H1 H2 Ha Hf IH];
    intros fuel str pos remaining Hfuel Ho; (destruct fuel as [|fuel]; [lia|]); cbn [format_loop app lookup list_lookup or_ub mbind outcome_bind].
  - rewrite decide_True by auto. eauto 10.
  - destruct (decide (c = 0 \/ remaining <= 0)) as [_|Hn]; [eauto 10|]. rewrite decide_False by done.
    destruct (out_store str pos remaining c Ho ltac:(lia)) as (s & -> & Ho'). cbn [mbind outcome_bind drop]. rewrite drop_0. apply IH; [simpl in Hfuel; lia|done].
  - destruct (decide (37 = 0 \/ remaining <= 0)) as [_|Hn]; [eauto 10|]. rewrite (decide_True (P := 37 = 37)) by done. cbn [drop]. rewrite drop_0.
    replace ((ds ++ m ++ c :: f) ++ 0 :: rest) with (ds ++ m ++ c :: f ++ 0 :: rest) by (by rewrite <- !app_assoc).
    assert (Hlf : (length f < fuel)%nat) by (simpl in Hfuel; rewrite !length_app in Hfuel; simpl in Hfuel; lia).
    assert (Hgo : forall g pad, Forall is_dig g -> (length g <= 9)%nat -> exists s p r,
      ('(width, f0) ← read_width (g ++ m ++ c :: f ++ 0 :: rest) 0; '(z0, l0, f0) ← read_length f0; c0 ← or_ub (f0 !! 0%nat);
       '(str, pos, remaining, ap) ← convert c0 z0 l0 width pad str pos remaining ap; format_loop fuel (drop 1 f0) ap str pos remaining) = Ok (s, p) /\ out_ok s p r).
    { intros g pad Hg Hgl. destruct (directive_parse g z l m c (f ++ 0 :: rest)) as (w & -> & E); auto. cbn [mbind outcome_bind]. rewrite E.
      cbn [mbind outcome_bind lookup list_lookup or_ub].
      destruct (convert_safe c z l w pad str pos remaining ap ap' Ho Ha) as (s & p & r & -> & Ho'). cbn [mbind outcome_bind drop]. rewrite drop_0. by apply IH. }
    destruct ds as [|d ds].
    + assert (Hx : exists x y, m ++ c :: f ++ 0 :: rest = x :: y /\ x <> 48).
      { destruct Hm as [(_ & _ & ->)|[(_ & _ & ->)|[(_ & _ & ->)|(_ & _ & ->)]]]; simpl; do 2 eexists; (split; [reflexivity|]); unfold is_dig in *; lia. }
      destruct Hx as (x & y & E & Hx). specialize (Hgo [] 32 Hds Hdl). simpl app in *. rewrite E in *. cbn [lookup list_lookup or_ub mbind outcome_bind].
      rewrite !(decide_False (P := x = 48)) by done. exact Hgo.
    + apply Forall_cons in Hds as [Hd Hds]. simpl in Hdl. cbn [app lookup list_lookup or_ub mbind outcome_bind].
      destruct (decide (d = 48)); [|by apply (Hgo (d :: ds) 32); [constructor|simpl; lia]].
      cbn [drop]. rewrite drop_0. apply (Hgo ds 48); [done|lia].
Qed.
End safety.

(** C40: formatted output is memory safe.  For every buffer of at least [size]
    bytes with [size] from 1 to 2^31, every format string whose directives are
    complete (widths of at most nine digits) and every argument list matching
    them (strings NULL or terminated, INT_MIN for %d excepted), [vsnprintf] completes, returns the length of the text it stored, which is
    below [size], stores the terminator right behind that text, and leaves every
    byte from [size] on unchanged, however long the arguments are. *)
Theorem vsnprintf_safe (str fmt f rest : list Z) (size : Z) (ap : list varg) :
  1 <= size <= 2 ^ 31 -> size <= Z.of_nat (length str) -> fmt = f ++ 0 :: rest -> fmt_ok f ap ->
  exists d n, vsnprintf (Some str) size (Some fmt) ap = Ok (Some d, Z.of_nat n) /\ Z.of_nat n < size /\
    d !! n = Some 0 /\ length d = length str /\ forall j, (Z.to_nat size <= j)%nat -> d !! j = str !! j.
Proof.
  intros Hs Hl -> Hf. unfold vsnprintf. rewrite decide_False by lia.
  destruct (format_loop_safe str size Hs Hl (S (length (f ++ 0 :: rest))) f rest ap str 0 (size - 1)) as (s & p & r & -> & Ho).
  - done.
  - rewrite length_app. lia.
  - split; [done|]. splits; auto; lia.
  - cbn [mbind outcome_bind]. destruct Ho as (Hls & Hp & Hr & Hj). unfold store. rewrite decide_True by lia. cbn [mbind outcome_bind].
    exists (<[p := 0]> s), p. replace (s32 (Z.of_nat p)) with (Z.of_nat p) by (unfold s32; rewrite Z.mod_small by lia; lia).
    splits; auto; [lia|by apply list_lookup_insert_eq; lia|by rewrite length_insert|].
    intros j Hge. rewrite list_lookup_insert_ne by lia. auto.
Qed.

Lemma vsnprintf_safe_witness : exists d n,
  vsnprintf (Some (replicate 16 7)) 12 (Some (lit "pid %05d: %s")) [AInt 42; AStr (Some (lit "page fault"))] = Ok (Some d, Z.of_nat n) /\
  Z.of_nat n < 12 /\ d !! n = Some 0 /\ d !! 12%nat = Some 7.
Proof.
  destruct (vsnprintf_safe (replicate 16 7) (lit "pid %05d: %s") (bytes_of "pid %05d: %s") [] 12
    [AInt 42; AStr (Some (lit "page fault"))]) as (d & n & E & Hn & H0 & _ & Hj).
  - lia.
  - vm_compute. discriminate.
  - reflexivity.
  - apply FO_char; [discriminate|discriminate|]. apply FO_char; [discriminate|discriminate|]. apply FO_char; [discriminate|discriminate|].
    apply FO_char; [discriminate|discriminate|].
    apply (FO_dir [48; 53] [] false 0 100 (bytes_of ": %s") _ [AStr (Some (lit "page fault"))]);
      [repeat constructor; unfold is_dig; lia|simpl; lia|left; auto|discriminate|unfold is_dig; lia|discriminate|discriminate|
       apply AO_int; unfold INT_MIN, INT_MAX; lia|].
    apply FO_char; [discriminate|discriminate|]. apply FO_char; [discriminate|discriminate|].
    apply (FO_dir [] [] false 0 115 [] _ []); [constructor|simpl; lia|left; auto|discriminate|unfold is_dig; lia|discriminate|discriminate| |constructor].
    apply AO_str; [reflexivity|]. exists (bytes_of "page fault"). split; [apply cstring_lit; repeat constructor; discriminate|vm_compute; discriminate].
  - exists d, n. split; [exact E|]. split; [exact Hn|]. split; [exact H0|]. apply (Hj 12%nat). vm_compute. lia.
Defined.

(** numbers survive printing and parsing.  [strtoul] reads back every
    64-bit value [u64_to_string] prints in base 4 to 16, in either letter case,
    and stops exactly at the terminator; [atoi] reads back every [int] that
    [int_to_string] prints, except the most negative one. *)
Theorem number_text_roundtrip (v base w : Z) (upper : bool) (str : list Z) :
  0 <= v < 2 ^ 64 -> 4 <= base <= 16 -> INT_MIN < w <= INT_MAX -> (33 <= length str)%nat ->
  (exists s n, u64_to_string v str 0 base upper = Ok (s, n) /\ strtoul s base = Ok (v, drop n s) /\ s !! n = Some 0) /\
  (exists s n, int_to_string w str 10 = Ok (s, n) /\ atoi s = Ok w).
Proof.
  intros Hv Hb Hw Hl. split.
  - assert (Hk : (1 <= length (u64_text upper base v) <= 32)%nat).
    { apply u64_text_length; [lia| |lia]. split; [lia|]. assert (E : 2 ^ 64 = 4 ^ Z.of_nat 32) by reflexivity.
      apply (Z.lt_le_trans _ (2 ^ 64)); [apply Hv|]. rewrite E. apply Z.pow_le_mono_l. lia. }
    rewrite u64_to_string_spec by lia. do 2 eexists. split; [reflexivity|]. unfold splice. simpl take. rewrite app_nil_l, <- app_assoc. cbn [app].
    rewrite strtoul_text, drop_app_length by done. split; [done|]. by rewrite list_lookup_middle.
  - destruct (int_to_string_spec w str Hw) as (_ & _ & ->); [lia|]. do 2 eexists. split; [reflexivity|]. unfold splice. simpl take.
    rewrite app_nil_l, <- app_assoc. by apply atoi_text.
Qed.

Lemma number_text_roundtrip_witness : exists s n, int_to_string (-70) (replicate 40 1) 10 = Ok (s, n) /\ atoi s = Ok (-70).
Proof. apply (number_text_roundtrip 0 10 (-70) false (replicate 40 1)); [split; reflexivity || lia|lia|unfold INT_MIN, INT_MAX; lia|simpl; lia]. Defined.

(** With [(size_t)-1] as size the clamp [(int)remaining] is negative. *)
Lemma sprintf_clamp_negative : sprintf (Some (replicate 64 0)) (Some (lit "%d")) [AInt 5] = UB.
Proof. vm_compute. reflexivity. Qed.

(** A format ending in "%" is read past its terminator. *)
Lemma vsnprintf_trailing_percent : vsnprintf (Some (replicate 64 0)) 64 (Some (lit "50%")) [] = UB.
Proof. vm_compute. reflexivity. Qed.

(** [itoa] of 0 tests an uninitialised variable, of a negative number indexes
    before its digit table; [%d] of the most negative int overflows. *)
Lemma itoa_undefined : itoa 0 (replicate 16 0) 10 = UB /\ itoa (-5) (replicate 16 0) 10 = UB /\ int_to_string INT_MIN (replicate 32 0) 10 = UB.
Proof. vm_compute. auto. Qed.
