(* ===== verification/Path.v ===== *)
(** * Path names and the chroot jail (src/fs/path.c)

    Strings and buffers as in [CString]: a caller passes the text it reads and
    the destination buffer, and gets back the buffer with the [int] result.
    [None] is a null pointer.  The local arrays [comp], [combined], [temp],
    [norm_root] and [norm_user] hold what is written to them up to the
    terminator; the bytes behind it are never read. *)

From S2P Require Import Prelude CString.

Definition SLASH : Z := 47.
Definition DOT : Z := 46.

(** [while (the byte is '/') src++;] *)
Fixpoint skip_slashes (src : list Z) : outcome (list Z) :=
  match src with
  | [] => UB
  | c :: src' => if decide (c = SLASH) then skip_slashes src' else Ok src
  end.

(** The next component into [comp], of which [room] bytes are left. *)
Fixpoint get_comp (src : list Z) (room : nat) : outcome (list Z * list Z) :=
  match src with
  | [] => UB
  | c :: src' =>
      if decide (c = 0 \/ c = SLASH) then Ok ([], src)
      else match room with
           | O => Ok ([], src)
           | S room' => '(comp, rest) ← get_comp src' room'; Ok (c :: comp, rest)
           end
  end.

(** [while (pos > 1 && dest[pos - 1] != '/') pos--;] *)
Fixpoint back_up (dest : list Z) (pos : nat) : outcome nat :=
  match pos with
  | O => Ok O
  | S q => if decide (q = 0%nat) then Ok pos
           else c ← or_ub (dest !! q); if decide (c = SLASH) then Ok pos else back_up dest q
  end.

(** The end of the loop body: add [comp] to the path; [None] is [return -1]. *)
Definition add_comp (dest : list Z) (pos : nat) (comp : list Z) (size : nat) : outcome (list Z * option nat) :=
  sep ← (if decide (1 < pos)%nat then Ok true
         else if decide (pos = 1%nat) then c ← or_ub (dest !! 0%nat); Ok (bool_decide (c <> SLASH)) else Ok false);
  if (sep : bool) && bool_decide (size <= pos + 1)%nat then Ok (dest, None) else
  '(dest, pos) ← (if sep : bool then d ← store dest pos SLASH; Ok (d, S pos) else Ok (dest, pos));
  if decide (size <= pos + length comp)%nat then Ok (dest, None) else
  dest ← strncpy dest pos (comp ++ [0]) (size - pos - 1);
  dest ← store dest (size - 1) 0;
  Ok (dest, Some (pos + length comp)%nat).

(** The [while] loop over the components; every round consumes a byte of
    [src], so its length bounds the rounds. *)
Fixpoint norm_loop (fuel : nat) (src dest : list Z) (pos size : nat) : outcome (list Z * option nat) :=
  match fuel with
  | O => UB
  | S fuel' =>
      c ← or_ub (src !! 0%nat);
      if decide (c = 0) then Ok (dest, Some pos) else
      src ← skip_slashes src;
      c ← or_ub (src !! 0%nat);
      if decide (c = 0) then Ok (dest, Some pos) else
      '(comp, src) ← get_comp src 255;
      r ← kstrcmp (comp ++ [0]) (lit ".");
      if decide (r = 0) then norm_loop fuel' src dest pos size else
      r ← kstrcmp (comp ++ [0]) (lit "..");
      if decide (r = 0) then
        if decide (1 < pos)%nat then
          pos ← back_up dest (pos - 1); dest ← store dest pos 0; norm_loop fuel' src dest pos size
        else norm_loop fuel' src dest pos size
      else
        '(dest, p) ← add_comp dest pos comp size;
        match p with None => Ok (dest, None) | Some pos => norm_loop fuel' src dest pos size end
  end.

Definition normalize_path (src dest : option (list Z)) (size : nat) : outcome (option (list Z) * Z) :=
  match src, dest with
  | Some src, Some dest =>
      if decide (size = 0%nat) then Ok (Some dest, -1) else
      c ← or_ub (src !! 0%nat);
      if decide (c = 0) then
        if decide (size < 2)%nat then Ok (Some dest, -1) else
        dest ← store dest 0 SLASH; dest ← store dest 1 0; Ok (Some dest, 0)
      else
      '(dest, pos, src) ← (if decide (c = SLASH) then d ← store dest 0 SLASH; Ok (d, 1%nat, drop 1 src) else Ok (dest, 0%nat, src));
      dest ← store dest pos 0;
      '(dest, p) ← norm_loop (S (length src)) src dest pos size;
      match p with
      | None => Ok (Some dest, -1)
      | Some pos =>
          if decide (pos = 0%nat) then
            if decide (size < 2)%nat then Ok (Some dest, -1) else
            dest ← store dest 0 SLASH; dest ← store dest 1 0; Ok (Some dest, 0)
          else dest ← store dest pos 0; Ok (Some dest, 0)
      end
  | _, _ => Ok (dest, -1)
  end.

Definition is_absolute_path (path : option (list Z)) : outcome bool :=
  match path with None => Ok false | Some p => c ← or_ub (p !! 0%nat); Ok (bool_decide (c = SLASH)) end.

(** A local array of [n] bytes; its initial contents are never read. *)
Definition local_array (n : nat) : list Z := replicate n 0.

Definition join_paths (base rel dest : option (list Z)) (size : nat) : outcome (option (list Z) * Z) :=
  match base, rel, dest with
  | Some b, Some r, Some _ =>
      if decide (size = 0%nat) then Ok (dest, -1) else
      abs ← is_absolute_path rel;
      if abs : bool then normalize_path rel dest size else
      base_len ← strlen base;
      rel_len ← strlen rel;
      if decide (512 <= base_len + 1 + rel_len)%nat then Ok (dest, -1) else
      combined ← strncpy (local_array 512) 0 b 511;
      combined ← store combined 511 0;
      last ← (if decide (0 < base_len)%nat then or_ub (combined !! (base_len - 1)%nat) else Ok SLASH);
      combined ← (if decide (last <> SLASH)
                  then m ← store combined base_len SLASH; store m (base_len + 1) 0 else Ok combined);
      combined ← strcat combined r;
      normalize_path (Some combined) dest size
  | _, _, _ => Ok (dest, -1)
  end.

(** [while (len > 1 && temp[len - 1] == '/') temp[--len] = 0;] *)
Fixpoint strip_trailing (temp : list Z) (len : nat) : outcome (list Z) :=
  match len with
  | O => Ok temp
  | S l => if decide (l = 0%nat) then Ok temp
           else c ← or_ub (temp !! l);
                if decide (c = SLASH) then temp ← store temp l 0; strip_trailing temp l else Ok temp
  end.

(** Store a one-byte string, when it fits. *)
Definition put_char (dest : list Z) (size : nat) (c : Z) : outcome (option (list Z) * Z) :=
  if decide (size < 2)%nat then Ok (Some dest, -1) else
  dest ← store dest 0 c; dest ← store dest 1 0; Ok (Some dest, 0).

Definition get_parent_path (path dest : option (list Z)) (size : nat) : outcome (option (list Z) * Z) :=
  match path, dest with
  | Some p, Some d =>
      if decide (size = 0%nat) then Ok (dest, -1) else
      r ← kstrcmp p (lit "/");
      if decide (r = 0) then put_char d size SLASH else
      temp ← strncpy (local_array 256) 0 p 255;
      temp ← store temp 255 0;
      len ← strlen (Some temp);
      temp ← strip_trailing temp len;
      last_slash ← strrchr temp SLASH;
      match last_slash with
      | None => put_char d size DOT
      | Some parent_len =>
          if decide (parent_len = 0%nat) then put_char d size SLASH else
          if decide (size <= parent_len)%nat then Ok (dest, -1) else
          d ← strncpy d 0 temp parent_len;
          d ← store d parent_len 0;
          Ok (Some d, 0)
      end
  | _, _ => Ok (dest, -1)
  end.

(** [!root || root[0] == 0 || (root[0] == '/' && root[1] == 0)] *)
Definition no_jail (root : option (list Z)) : outcome bool :=
  match root with
  | None => Ok true
  | Some r =>
      c ← or_ub (r !! 0%nat);
      if decide (c = 0) then Ok true else
      if decide (c = SLASH) then c1 ← or_ub (r !! 1%nat); Ok (bool_decide (c1 = 0)) else Ok false
  end.

(** [normalize_path] into a fresh 256-byte array. *)
Definition normalize_local (path : option (list Z)) : outcome (list Z * Z) :=
  '(d, r) ← normalize_path path (Some (local_array 256)) 256; Ok (default [] d, r).

Definition ir0_path_apply_root (root abs_user dest : option (list Z)) (size : nat) : outcome (option (list Z) * Z) :=
  match abs_user, dest with
  | Some _, Some _ =>
      if decide (size = 0%nat) then Ok (dest, -1) else
      '(norm_user, r) ← normalize_local abs_user;
      if decide (r <> 0) then Ok (dest, -1) else
      nj ← no_jail root;
      if nj : bool then normalize_path (Some norm_user) dest size else
      '(norm_root, r) ← normalize_local root;
      if decide (r <> 0) then Ok (dest, -1) else
      c0 ← or_ub (norm_user !! 0%nat);
      c1 ← (if decide (c0 = SLASH) then or_ub (norm_user !! 1%nat) else Ok 1);
      if decide (c1 = 0) then normalize_path (Some norm_root) dest size else
      join_paths (Some norm_root) (Some (drop 1 norm_user)) dest size
  | _, _ => Ok (dest, -1)
  end.

Definition IR0_AT_FDCWD : Z := -100.

(** Relative names are joined to the working directory, without the root. *)
Definition ir0_resolve_kpath_at (dirfd : Z) (path resolved : option (list Z)) (resolved_sz : nat) (cwd root : option (list Z))
  : outcome (option (list Z) * Z) :=
  match path, resolved with
  | Some p, Some _ =>
      if decide (resolved_sz = 0%nat) then Ok (resolved, - EINVAL) else
      c ← or_ub (p !! 0%nat);
      if decide (c = 0) then Ok (resolved, - EINVAL) else
      if decide (c = SLASH) then
        '(d, r) ← ir0_path_apply_root root path resolved resolved_sz; Ok (d, if decide (r <> 0) then - ENAMETOOLONG else 0)
      else if decide (dirfd <> IR0_AT_FDCWD) then Ok (resolved, - EBADF) else
      abs ← is_absolute_path cwd;
      let cwd := if abs : bool then cwd else Some [SLASH; 0] in
      '(d, r) ← join_paths cwd path resolved resolved_sz; Ok (d, if decide (r <> 0) then - ENAMETOOLONG else 0)
  | _, _ => Ok (resolved, - EINVAL)
  end.

Definition ir0_path_under_root (root cwd : option (list Z)) : outcome bool :=
  match cwd with
  | None => Ok false
  | Some c =>
      c0 ← or_ub (c !! 0%nat);
      if decide (c0 <> SLASH) then Ok false else
      nj ← no_jail root;
      if nj : bool then Ok true else
      '(norm_root, r) ← normalize_local root;
      if decide (r <> 0) then Ok false else
      '(norm_cwd, r) ← normalize_local cwd;
      if decide (r <> 0) then Ok false else
      rlen ← strlen (Some norm_root);
      r ← strcmp (Some norm_cwd) (Some norm_root);
      if decide (r = 0) then Ok true else
      r ← strncmp (Some norm_cwd) (Some norm_root) rlen;
      if decide (r <> 0) then Ok false else
      x ← or_ub (norm_cwd !! rlen); Ok (bool_decide (x = SLASH))
  end.

(** Copy [vis] into [dest], when it fits. *)
Definition copy_out (vis dest : list Z) (size : nat) : outcome (option (list Z) * Z) :=
  n ← strlen (Some vis);
  if decide (size <= n)%nat then Ok (Some dest, -1) else
  d ← strncpy dest 0 vis (size - 1); d ← store d (size - 1) 0; Ok (Some d, 0).

Definition ir0_path_getcwd_visible (root cwd dest : option (list Z)) (size : nat) : outcome (option (list Z) * Z) :=
  match cwd, dest with
  | Some _, Some d =>
      if decide (size = 0%nat) then Ok (dest, -1) else
      '(norm_cwd, r) ← normalize_local cwd;
      if decide (r <> 0) then Ok (dest, -1) else
      nj ← no_jail root;
      if nj : bool then copy_out norm_cwd d size else
      '(norm_root, r) ← normalize_local root;
      if decide (r <> 0) then Ok (dest, -1) else
      u ← ir0_path_under_root (Some norm_root) (Some norm_cwd);
      if negb u then copy_out norm_cwd d size else
      rlen ← strlen (Some norm_root);
      r ← strcmp (Some norm_cwd) (Some norm_root);
      copy_out (if decide (r = 0) then lit "/" else drop rlen norm_cwd) d size
  | _, _ => Ok (dest, -1)
  end.

(** ** Paths as texts and components *)

Definition is_slash (c : Z) : bool := bool_decide (c = SLASH).
Definition dot : list Z := [DOT].
Definition dotdot : list Z := [DOT; DOT].

(** What [get_comp] cuts off a path, round after round. *)
Fixpoint components (fuel : nat) (t : list Z) : list (list Z) :=
  match fuel with
  | O => []
  | S fuel' =>
      let t := drop (length (run_of is_slash true t)) t in
      match t with
      | [] => []
      | _ => let c := take 255 (run_of is_slash false t) in c :: components fuel' (drop (length c) t)
      end
  end.

Fixpoint back_pos (cur : list Z) (pos : nat) : nat :=
  match pos with
  | O => O
  | S q => if decide (q = 0%nat) then pos else if decide (cur !! q = Some SLASH) then pos else back_pos cur q
  end.

Definition pop (cur : list Z) : list Z :=
  if decide (1 < length cur)%nat then take (back_pos cur (length cur - 1)) cur else cur.

(** The separator that goes before a new component. *)
Definition sep_of (cur : list Z) : list Z :=
  if decide (1 < length cur)%nat then [SLASH]
  else if decide (length cur = 1%nat /\ cur !! 0%nat <> Some SLASH) then [SLASH] else [].

Definition push (size : nat) (cur c : list Z) : option (list Z) :=
  let cur' := cur ++ sep_of cur ++ c in
  if decide (length cur' < size)%nat then Some cur' else None.

Definition norm_step (size : nat) (cur : option (list Z)) (c : list Z) : option (list Z) :=
  cur ← cur;
  if decide (c = dot) then Some cur else if decide (c = dotdot) then Some (pop cur) else push size cur c.

Definition start_of (t : list Z) : list Z := match t with c :: _ => if decide (c = SLASH) then [SLASH] else [] | [] => [] end.
Definition rest_of (t : list Z) : list Z := drop (length (start_of t)) t.

(** The text [normalize_path] leaves in a buffer of [size] bytes. *)
Definition norm_text (size : nat) (t : list Z) : option (list Z) :=
  match t with
  | [] => Some [SLASH]
  | _ => cur ← foldl (norm_step size) (Some (start_of t)) (components (S (length t)) (rest_of t));
         Some (match cur with [] => [SLASH] | _ => cur end)
  end.

Section refinement.
Implicit Types s t cur : list Z.

Lemma skip_slashes_spec s t : cstring s t -> 
  let u := drop (length (run_of is_slash true t)) t in exists s', skip_slashes s = Ok s' /\ cstring s' u.
Proof.
  revert s. induction t as [|c t IH]; intros s H; simpl;
    destruct (cstring_inv _ _ H) as [[? [r ->]]|(? & ? & s' & [= <- <-] & -> & Hc & H1)]; try discriminate; cbn [skip_slashes].
  - rewrite decide_False by done. eauto.
  - unfold is_slash at 1. case_bool_decide as Hb; case_decide as Hd; simpl; try (by eauto).
Qed.

Lemma get_comp_spec s t n : cstring s t ->
  let c := take n (run_of is_slash false t) in exists s', get_comp s n = Ok (c, s') /\ cstring s' (drop (length c) t).
Proof.
  revert s n. induction t as [|c t IH]; intros s n H; simpl;
    destruct (cstring_inv _ _ H) as [[? [r ->]]|(? & ? & s' & [= <- <-] & -> & Hc & H1)]; try discriminate; cbn [get_comp].
  - rewrite decide_True by auto. rewrite take_nil. eauto.
  - destruct (decide (c = SLASH)) as [->|Hs].
    + rewrite decide_True by auto. simpl. rewrite take_nil. eauto.
    + rewrite decide_False by tauto. replace (is_slash c) with false by (symmetry; by apply bool_decide_false). simpl.
      destruct n as [|n]; [simpl; eauto|]. destruct (IH s' n H1) as (s2 & -> & Hs2). simpl. eauto.
Qed.

Lemma back_up_spec dest cur pos : (pos <= length cur)%nat -> take (length cur) dest = cur ->
  back_up dest pos = Ok (back_pos cur pos).
Proof.
  intros Hp Hd. induction pos as [|q IH]; [done|]. cbn [back_up back_pos]. case_decide; [done|].
  assert (Hq : dest !! q = cur !! q) by (rewrite <- Hd at 1; rewrite lookup_take_lt by lia; done).
  destruct (lookup_lt_is_Some_2 cur q) as [c Hc]; [lia|]. rewrite Hq, Hc. cbn [or_ub mbind outcome_bind].
  destruct (decide (c = SLASH)) as [->|]; [by rewrite decide_True|]. rewrite decide_False by congruence. apply IH. lia.
Qed.

Lemma back_pos_le cur pos : (back_pos cur pos <= pos)%nat.
Proof. induction pos as [|q IH]; simpl; [lia|]. repeat dec_goal; lia. Qed.

Lemma back_pos_pos cur pos : (0 < pos)%nat -> (0 < back_pos cur pos)%nat.
Proof. induction pos as [|q IH]; intros H; simpl; [lia|]. repeat dec_goal; lia. Qed.

Lemma length_pop cur : (length (pop cur) <= length cur)%nat.
Proof. unfold pop. dec_goal; [rewrite length_take|]; lia. Qed.

Lemma nz_pop cur : nz cur -> nz (pop cur).
Proof. intros H. unfold pop. case_decide; [by apply Forall_take|done]. Qed.

Lemma nz_sep cur : nz (sep_of cur).
Proof. unfold sep_of, nz. repeat case_decide; repeat constructor; done. Qed.

Lemma kstrcmp_lit comp a : nz comp -> Forall (fun c => c <> 0) (bytes_of a) ->
  exists r, kstrcmp (comp ++ [0]) (lit a) = Ok r /\ (r = 0 <-> comp = bytes_of a).
Proof. intros. apply kstrcmp_eq; [by apply cstring_intro|by apply cstring_lit]. Qed.

Lemma sep_test dest size cur : holds dest size cur ->
  (if decide (1 < length cur)%nat then Ok true
   else if decide (length cur = 1%nat) then c ← or_ub (dest !! 0%nat); Ok (bool_decide (c <> SLASH)) else Ok false)
  = Ok (bool_decide (sep_of cur = [SLASH])).
Proof.
  intros (Hl & Hc & Ht & Hzc). unfold sep_of. destruct (decide (1 < length cur)%nat); [by rewrite bool_decide_true|].
  destruct (decide (length cur = 1%nat)) as [H1|H1]; [|by rewrite decide_False by tauto].
  destruct (lookup_lt_is_Some_2 cur 0) as [c E]; [lia|].
  assert (Hd : dest !! 0%nat = Some c) by (rewrite <- E, <- Ht at 1; rewrite lookup_take_lt by lia; done).
  rewrite Hd, E. simpl. f_equal. destruct (decide (c = SLASH)) as [->|Hn].
  - rewrite (decide_False (P := length cur = _ /\ _)) by naive_solver. by rewrite !bool_decide_false by naive_solver.
  - rewrite (decide_True (P := length cur = _ /\ _)) by naive_solver. by rewrite !bool_decide_true by naive_solver.
Qed.

(** The tail of [add_comp], behind the separator. *)
Lemma append_comp dest size cur comp : holds dest size cur -> nz comp ->
  exists d p, (if decide (size <= length cur + length comp)%nat then Ok (dest, None) else
      dest ← strncpy dest (length cur) (comp ++ [0]) (size - length cur - 1);
      dest ← store dest (size - 1) 0; Ok (dest, Some (length cur + length comp)%nat)) = Ok (d, p) /\ length d = size /\
    if decide (length (cur ++ comp) < size)%nat then p = Some (length (cur ++ comp)) /\ holds d size (cur ++ comp) else p = None.
Proof.
  intros Hh Hz. pose proof Hh as (Hl & Hc & _). rewrite length_app. destruct (decide (size <= length cur + length comp)%nat).
  - do 2 eexists. split; [reflexivity|]. split; [done|]. by rewrite decide_False by lia.
  - rewrite (strncpy_spec _ dest (length cur) (comp ++ [0]) comp) by (try lia; by apply cstring_intro).
    cbn [mbind outcome_bind]. rewrite take_ge by lia.
    pose proof (holds_splice dest size cur comp Hh Hz ltac:(lia) (replicate (size - length cur - 1 - length comp) 0)
                  ltac:(rewrite length_replicate; lia)) as Hh2.
    destruct (holds_store _ _ _ (size - 1) 0 Hh2) as (d & -> & Hh3 & _); [rewrite length_app; lia|]. cbn [mbind outcome_bind].
    do 2 eexists. split; [reflexivity|]. split; [apply Hh3|]. by rewrite decide_True by lia.
Qed.

Lemma add_comp_spec dest size cur comp : holds dest size cur -> nz comp ->
  exists d p, add_comp dest (length cur) comp size = Ok (d, p) /\ length d = size /\
    match push size cur comp with
    | Some cur' => p = Some (length cur') /\ holds d size cur'
    | None => p = None
    end.
Proof.
  intros Hh Hz. pose proof Hh as (Hl & Hc & Ht & Hzc). unfold add_comp, push.
  rewrite (sep_test dest size cur Hh). cbn [mbind outcome_bind].
  assert (Hs : sep_of cur = [SLASH] \/ sep_of cur = []) by (unfold sep_of; repeat case_decide; auto).
  destruct Hs as [Hs|Hs]; rewrite Hs.
  - rewrite bool_decide_true by done. simpl andb. case_bool_decide as Hsz.
    + do 2 eexists. split; [reflexivity|]. split; [done|]. by rewrite decide_False by (rewrite !length_app; simpl; lia).
    + rewrite store_splice by lia. cbn [mbind outcome_bind].
      assert (Hh1 : holds (splice dest (length cur) [SLASH]) size (cur ++ [SLASH])).
      { apply (holds_splice dest size cur [SLASH]) with (pad := []); simpl; try done; try lia. repeat constructor; done. }
      replace (S (length cur)) with (length (cur ++ [SLASH])) by (rewrite length_app; simpl; lia).
      rewrite (app_assoc cur). destruct (append_comp _ _ _ comp Hh1 Hz) as (d & p & E & Hld & Hr). exists d, p. splits; auto. by case_decide.
  - rewrite bool_decide_false by done. simpl andb. cbn [mbind outcome_bind]. simpl app.
    destruct (append_comp _ _ _ comp Hh Hz) as (d & p & E & Hld & Hr). exists d, p. splits; auto. by case_decide.
Qed.

Lemma norm_step_None size cs : foldl (norm_step size) None cs = None.
Proof. by induction cs. Qed.

Lemma nz_run b t : nz t -> nz (run_of is_slash b t).
Proof. intros H. destruct (run_of_split is_slash b t) as (r & E & _). unfold nz in *. rewrite E in H. by apply Forall_app in H as [? _]. Qed.

Lemma lookup_0_cstring s t : cstring s t -> s !! 0%nat = Some (match t with [] => 0 | c :: _ => c end).
Proof. intros H. by destruct (cstring_inv _ _ H) as [[-> [r ->]]|(c & t' & s' & -> & -> & _)]. Qed.

Lemma run_of_nonempty c t : is_slash c = false -> run_of is_slash false (c :: t) = c :: run_of is_slash false t.
Proof. intros H. simpl. by rewrite H. Qed.

(** More rounds than bytes change nothing. *)
Lemma components_fuel n m t : (length t < n)%nat -> (length t < m)%nat -> components n t = components m t.
Proof.
  revert m t. induction n as [|n IH]; intros m t Hn Hm; [lia|]. destruct m as [|m]; [lia|]. cbn [components].
  destruct (run_of_split is_slash true t) as (r & Er & Hr). set (a := run_of is_slash true t) in *.
  assert (Hdr : drop (length a) t = r) by (rewrite Er; apply drop_app_length). rewrite Hdr.
  assert (Hlr : (length r <= length t)%nat) by (rewrite Er, length_app; lia).
  destruct Hr as [->|(c & r' & -> & Hc)]; [done|]. rewrite run_of_nonempty by done. f_equal.
  apply IH; rewrite length_drop; cbn [take length] in *; lia.
Qed.

Lemma norm_loop_spec fuel src t dest size cur :
  cstring src t -> (length t < fuel)%nat -> holds dest size cur ->
  exists d p, norm_loop fuel src dest (length cur) size = Ok (d, p) /\ length d = size /\
    match foldl (norm_step size) (Some cur) (components fuel t) with
    | Some cur' => p = Some (length cur') /\ holds d size cur'
    | None => p = None
    end.
Proof.
  revert src t dest cur. induction fuel as [|fuel IH]; intros src t dest cur Hsrc Hf Hh; [lia|]. cbn [norm_loop components].
  rewrite (lookup_0_cstring _ _ Hsrc). cbn [or_ub mbind outcome_bind].
  destruct (skip_slashes_spec _ _ Hsrc) as (s1 & E1 & Hs1). pose proof Hh as (Hl & Hc & Ht & Hzc).
  destruct t as [|c0 t0]. { rewrite decide_True by done. simpl. do 2 eexists. split; [reflexivity|]. auto. }
  rewrite decide_False by (destruct Hsrc as [_ Hz]; by apply Forall_cons in Hz as [? _]).
  rewrite E1. cbn [mbind outcome_bind]. rewrite (lookup_0_cstring _ _ Hs1). cbn [or_ub mbind outcome_bind].
  destruct (run_of_split is_slash true (c0 :: t0)) as (r & Er & Hr). set (a := run_of is_slash true (c0 :: t0)) in *.
  assert (Hdr : drop (length a) (c0 :: t0) = r) by (rewrite Er; apply drop_app_length). rewrite Hdr in *.
  destruct Hr as [->|(c & r' & -> & Hcs)]. { rewrite decide_True by done. simpl. do 2 eexists. split; [reflexivity|]. auto. }
  simpl in Hcs. pose proof Hs1 as [_ Hzr]. rewrite decide_False by (by apply Forall_cons in Hzr as [? _]).
  destruct (get_comp_spec s1 (c :: r') 255 Hs1) as (s2 & E2 & Hs2).
  assert (Hlen : (length (c :: r') <= length (c0 :: t0))%nat) by (rewrite Er, length_app; lia).
  assert (Hcz : nz (take 255 (run_of is_slash false (c :: r')))) by (by apply Forall_take, nz_run).
  rewrite run_of_nonempty in * by done. set (comp := take 255 (c :: run_of is_slash false r')) in *.
  assert (Hcl : (0 < length comp)%nat) by (simpl; lia).
  rewrite E2. cbn [mbind outcome_bind foldl]. clearbody comp.
  assert (IH' : forall dest cur, holds dest size cur -> exists d p, norm_loop fuel s2 dest (length cur) size = Ok (d, p) /\ length d = size /\
      match foldl (norm_step size) (Some cur) (components fuel (drop (length comp) (c :: r'))) with
      | Some cur' => p = Some (length cur') /\ holds d size cur' | None => p = None end).
  { intros d1 cur1 Hh1. apply IH; auto. rewrite length_drop. cbn [length] in *. lia. }
  destruct (kstrcmp_lit comp "." Hcz) as (r1 & -> & Hr1); [repeat constructor; done|]. cbn [mbind outcome_bind].
  destruct (kstrcmp_lit comp ".." Hcz) as (r2 & -> & Hr2); [repeat constructor; done|]. cbn [mbind outcome_bind].
  unfold norm_step at 2. cbn [mbind option_bind].
  destruct (decide (r1 = 0)) as [H1|H1]; [rewrite (decide_True (P := comp = dot)) by (by apply Hr1); by apply IH'|].
  rewrite (decide_False (P := comp = dot)) by (by rewrite <- Hr1).
  destruct (decide (r2 = 0)) as [H2|H2].
  - rewrite (decide_True (P := comp = dotdot)) by (by apply Hr2). unfold pop. destruct (decide (1 < length cur)%nat); [|by apply IH'].
    rewrite (back_up_spec dest cur) by (done || lia). cbn [mbind outcome_bind]. set (k := back_pos cur (length cur - 1)).
    assert (Hk : (k <= length cur - 1)%nat) by apply back_pos_le.
    assert (Hh1 : holds dest size (take k cur)).
    { split; [done|]. rewrite length_take, Nat.min_l by lia. splits; [lia| |by apply Forall_take].
      rewrite <- Ht, take_take. f_equal. lia. }
    destruct (holds_store dest size (take k cur) k 0 Hh1) as (d1 & -> & Hh2 & _); [rewrite length_take; lia|]. cbn [mbind outcome_bind].
    destruct (IH' d1 _ Hh2) as (d & p & E & Hr). rewrite length_take, Nat.min_l in E by lia. eauto.
  - rewrite (decide_False (P := comp = dotdot)) by (by rewrite <- Hr2).
    destruct (add_comp_spec dest size cur comp Hh Hcz) as (d1 & p1 & -> & Hld & Hp). cbn [mbind outcome_bind].
    destruct (push size cur comp) as [cur'|].
    + destruct Hp as [-> Hh1]. by apply IH'.
    + subst p1. rewrite norm_step_None. eauto.
Qed.

Lemma holds_slash dest size : length dest = size -> (2 <= size)%nat ->
  exists d, store dest 0 SLASH = Ok d /\ holds d size [SLASH].
Proof.
  intros Hl Hs. rewrite store_splice by lia. eexists. split; [reflexivity|].
  apply (holds_splice dest size [] [SLASH]) with (pad := []); simpl; try lia; [apply holds_nil; lia|repeat constructor; done].
Qed.

(** Storing "/" in a buffer of at least two bytes. *)
Lemma store_root dest size : length dest = size -> (2 <= size)%nat ->
  exists d, (dest ← store dest 0 SLASH; dest ← store dest 1 0; Ok (Some dest, 0)) = Ok (Some d, 0) /\ length d = size /\ cstring d [SLASH].
Proof.
  intros Hl Hs. destruct (holds_slash dest size Hl Hs) as (d1 & -> & Hh). cbn [mbind outcome_bind].
  destruct (holds_finish _ _ _ Hh) as (d & E & Hd & Hc & _). simpl in E. rewrite E. cbn [mbind outcome_bind]. eauto.
Qed.

Lemma normalize_path_spec src t dest size :
  cstring src t -> length dest = size -> (2 <= size)%nat ->
  exists d r, normalize_path (Some src) (Some dest) size = Ok (Some d, r) /\ length d = size /\
    match norm_text size t with
    | Some u => r = 0 /\ cstring d u /\ (length u < size)%nat
    | None => r = -1
    end.
Proof.
  intros Hsrc Hl Hs. unfold normalize_path. rewrite decide_False by lia.
  rewrite (lookup_0_cstring _ _ Hsrc). cbn [or_ub mbind outcome_bind]. destruct t as [|c t].
  { rewrite decide_True by done. rewrite decide_False by lia. destruct (store_root dest size Hl Hs) as (d & -> & Hd & Hc).
    exists d, 0. splits; auto. simpl. splits; auto. }
  rewrite (decide_False (P := c = 0)) by (destruct Hsrc as [_ Hz]; by apply Forall_cons in Hz as [? _]).
  assert (Hstart : exists d1, (if decide (c = SLASH) then d ← store dest 0 SLASH; Ok (d, 1%nat, drop 1 src) else Ok (dest, 0%nat, src)) =
            Ok (d1, length (start_of (c :: t)), drop (length (start_of (c :: t))) src) /\ holds d1 size (start_of (c :: t)) /\
            cstring (drop (length (start_of (c :: t))) src) (rest_of (c :: t))).
  { unfold rest_of. simpl. destruct (decide (c = SLASH)) as [->|Hc].
    - destruct (holds_slash dest size Hl Hs) as (d1 & -> & Hh). cbn [mbind outcome_bind]. exists d1. splits; auto.
      by apply (cstring_drop _ _ 1); [simpl; lia|].
    - exists dest. splits; [by rewrite drop_0|apply holds_nil; lia|]. by rewrite !drop_0. }
  destruct Hstart as (d1 & -> & Hh1 & Hrest). cbn [mbind outcome_bind].
  destruct (holds_finish _ _ _ Hh1) as (d2 & -> & _ & _ & Hh2). cbn [mbind outcome_bind].
  set (st := start_of (c :: t)) in *. set (s1 := drop (length st) src) in *.
  assert (Hcomp : components (S (length s1)) (rest_of (c :: t)) = components (S (length (c :: t))) (rest_of (c :: t))).
  { apply components_fuel; [by apply cstring_length in Hrest; lia|]. unfold rest_of. rewrite length_drop. simpl. lia. }
  destruct (norm_loop_spec (S (length s1)) s1 (rest_of (c :: t)) d2 size st Hrest) as (d & p & -> & Hd & Hm);
    [apply cstring_length in Hrest; lia|done|]. cbn [mbind outcome_bind].
  rewrite Hcomp in Hm. unfold norm_text. fold st. destruct (foldl _ _ _) as [cur|]; cbn [mbind option_bind].
  2:{ subst p. eauto. }
  destruct Hm as [-> Hh]. destruct cur as [|x cur].
  - simpl. rewrite decide_False by lia. destruct (store_root d size Hd Hs) as (d3 & -> & Hd3 & Hc3). exists d3, 0. splits; auto.
  - rewrite decide_False by (simpl; lia). destruct (holds_finish _ _ _ Hh) as (d3 & -> & Hd3 & Hc3 & _). cbn [mbind outcome_bind].
    exists d3, 0. splits; auto. apply Hh.
Qed.
End refinement.

(** ** Canonical texts *)

(** The path text with the given components: "/" or "/c1/c2/...". *)
Fixpoint join (cs : list (list Z)) : list Z :=
  match cs with
  | [] => []
  | [c] => c
  | c :: cs' => c ++ SLASH :: join cs'
  end.
Definition render (cs : list (list Z)) : list Z := SLASH :: join cs.

Definition path_fields (t : list Z) : list (list Z) := fields is_slash t.
Definition plain (c : list Z) : Prop := c <> [] /\ Forall (fun x => is_slash x = false) c.
Definition good (c : list Z) : Prop := c <> dot /\ c <> dotdot.
Definition absolute (t : list Z) : Prop := t !! 0%nat = Some SLASH.

Section canonical.
Implicit Types t cur c : list Z.
Implicit Types cs : list (list Z).

Lemma fields_from_app p cur u x v : p x = true -> fields_from p cur (u ++ x :: v) = fields_from p cur u ++ fields_from p [] v.
Proof.
  intros Hx. revert cur. induction u as [|c u IH]; intros cur; simpl; [by rewrite Hx|].
  destruct (p c); [|done]. rewrite IH. by rewrite app_assoc.
Qed.

Lemma path_fields_app u v : path_fields (u ++ SLASH :: v) = path_fields u ++ path_fields v.
Proof. by apply fields_from_app. Qed.

Lemma path_fields_slash v : path_fields (SLASH :: v) = path_fields v.
Proof. apply (path_fields_app []). Qed.

Lemma path_fields_plain c : plain c -> path_fields c = [c].
Proof. intros [Hne Hp]. unfold path_fields. rewrite fields_run by done. by destruct c. Qed.

Lemma fields_from_length p cur t c : c ∈ fields_from p cur t -> (length c <= length cur + length t)%nat.
Proof.
  revert cur. induction t as [|x t IH]; intros cur; simpl.
  - destruct cur; simpl; [by intros ?%not_elem_of_nil|]. intros ->%list_elem_of_singleton. simpl. lia.
  - destruct (p x).
    + intros [H|H]%elem_of_app; [|apply IH in H; simpl in H; lia].
      destruct cur; simpl in H; [by apply not_elem_of_nil in H|]. apply list_elem_of_singleton in H as ->. simpl. lia.
    + intros H%IH. rewrite length_app in H. simpl in H. lia.
Qed.

Lemma emit_field_all (P : list Z -> Prop) cur : (cur <> [] -> P cur) -> Forall P (emit_field cur).
Proof. intros H. destruct cur; simpl; [constructor|]. constructor; [by apply H|constructor]. Qed.

Lemma fields_from_plain cur t : Forall (fun x => is_slash x = false) cur -> Forall plain (fields_from is_slash cur t).
Proof.
  revert cur. induction t as [|x t IH]; intros cur Hc; simpl.
  - by apply emit_field_all.
  - destruct (is_slash x) eqn:Hx.
    + apply Forall_app. split; [by apply emit_field_all|by apply IH].
    + apply IH. apply Forall_app. auto.
Qed.

Lemma path_fields_all_plain t : Forall plain (path_fields t).
Proof. by apply fields_from_plain. Qed.

Lemma path_fields_nz_from cur t : nz cur -> nz t -> Forall nz (fields_from is_slash cur t).
Proof.
  revert cur. induction t as [|x t IH]; intros cur Hc Ht; simpl.
  - by apply emit_field_all.
  - apply Forall_cons in Ht as [Hx Ht]. destruct (is_slash x).
    + apply Forall_app. split; [by apply emit_field_all|apply IH; [constructor|done]].
    + apply IH; [|done]. unfold nz in *. apply Forall_app. auto.
Qed.

Lemma path_fields_join cs : Forall plain cs -> path_fields (join cs) = cs.
Proof.
  induction cs as [|c cs IH]; intros H; [done|]. apply Forall_cons in H as [Hc H].
  destruct cs as [|c' cs]; [by apply path_fields_plain|].
  change (join (c :: c' :: cs)) with (c ++ SLASH :: join (c' :: cs)).
  rewrite path_fields_app, path_fields_plain, IH by done. done.
Qed.

Lemma path_fields_render cs : Forall plain cs -> path_fields (render cs) = cs.
Proof. intros. unfold render. rewrite path_fields_slash. by apply path_fields_join. Qed.

Lemma join_snoc cs c : join (cs ++ [c]) = match cs with [] => c | _ => join cs ++ SLASH :: c end.
Proof.
  induction cs as [|d cs IH]; [done|]. destruct cs as [|d' cs]; [done|].
  change (join ((d :: d' :: cs) ++ [c])) with (d ++ SLASH :: join ((d' :: cs) ++ [c])). rewrite IH.
  change (join (d :: d' :: cs)) with (d ++ SLASH :: join (d' :: cs)). by rewrite <- app_assoc.
Qed.

Lemma join_nonempty c cs : plain c -> join (c :: cs) <> [].
Proof. intros [Hc _]. destruct cs; simpl; [done|]. by destruct c. Qed.

Lemma length_join_app cs cs' : (length (join cs) <= length (join (cs ++ cs')))%nat.
Proof.
  induction cs' as [|c cs' IH] using rev_ind; [by rewrite app_nil_r|]. rewrite app_assoc, join_snoc.
  destruct (cs ++ cs') eqn:E; [apply app_nil in E as [-> ->]; simpl; lia|]. rewrite length_app. simpl in *. lia.
Qed.

Lemma sep_render cs : Forall plain cs -> sep_of (render cs) = match cs with [] => [] | _ => [SLASH] end.
Proof.
  intros H. unfold sep_of. destruct cs as [|c cs].
  - rewrite decide_False by (simpl; lia). rewrite decide_False; [done|]. by intros [_ ?].
  - apply Forall_cons in H as [Hc _]. pose proof (join_nonempty c cs Hc). rewrite decide_True; [done|].
    unfold render. destruct (join (c :: cs)); [done|]. simpl. lia.
Qed.

Lemma push_render size cs c : Forall plain cs ->
  push size (render cs) c = if decide (length (render (cs ++ [c])) < size)%nat then Some (render (cs ++ [c])) else None.
Proof.
  intros H. unfold push. rewrite sep_render by done.
  replace (render cs ++ match cs with [] => [] | _ => [SLASH] end ++ c) with (render (cs ++ [c])); [done|].
  unfold render. rewrite join_snoc. by destruct cs.
Qed.

(** Without ".." the loop produces the canonical text of the components. *)
Lemma norm_run_clean size cs cs' : Forall plain cs -> Forall plain cs' -> dotdot ∉ cs' ->
  (length (render cs) < size)%nat ->
  foldl (norm_step size) (Some (render cs)) cs' =
    let r := render (cs ++ filter (.≠ dot) cs') in if decide (length r < size)%nat then Some r else None.
Proof.
  revert cs. induction cs' as [|c cs' IH]; intros cs Hp Hp' Hdd Hl; cbn [foldl].
  { simpl. rewrite app_nil_r. by rewrite decide_True. }
  apply Forall_cons in Hp' as [Hc Hp']. rewrite not_elem_of_cons in Hdd. destruct Hdd as [Hd Hdd].
  unfold norm_step at 2. cbn [mbind option_bind]. rewrite filter_cons. destruct (decide (c = dot)) as [->|Hn].
  - rewrite (decide_False (P := dot <> dot)) by tauto. by apply IH.
  - rewrite (decide_False (P := c = dotdot)) by congruence. rewrite push_render by done.
    rewrite (decide_True (P := c <> dot)) by done.
    replace (cs ++ c :: filter (.≠ dot) cs') with ((cs ++ [c]) ++ filter (.≠ dot) cs') by (by rewrite <- app_assoc).
    destruct (decide (length (render (cs ++ [c])) < size)%nat) as [Hf|Hf].
    + apply IH; auto. apply Forall_app. auto.
    + rewrite norm_step_None. simpl. rewrite decide_False; [done|].
      pose proof (length_join_app (cs ++ [c]) (filter (.≠ dot) cs')). unfold render in *. simpl in *. lia.
Qed.

Lemma components_fields fuel t : (length t < fuel)%nat -> Forall (fun c => (length c <= 255)%nat) (path_fields t) ->
  components fuel t = path_fields t.
Proof.
  revert t. induction fuel as [|fuel IH]; intros t Hf Hb; [lia|]. cbn [components].
  destruct (run_of_split is_slash true t) as (r & Er & Hr). pose proof (run_of_all is_slash true t) as Ha.
  set (a := run_of is_slash true t) in *. clearbody a. subst t. rewrite drop_app_length.
  unfold path_fields in *. rewrite fields_skip in * by done. rewrite length_app in Hf.
  destruct Hr as [->|(c & r' & -> & Hc)]; [done|].
  destruct (run_of_split is_slash false (c :: r')) as (z & Ez & Hz). pose proof (run_of_all is_slash false (c :: r')) as Hw.
  assert (Hne : run_of is_slash false (c :: r') <> []) by (by rewrite run_of_nonempty).
  set (w := run_of is_slash false (c :: r')) in *. clearbody w. rewrite Ez in *.
  assert (Hwz : fields is_slash (w ++ z) = w :: fields is_slash z).
  { destruct Hz as [->|(e & z' & -> & He)].
    - rewrite app_nil_r, fields_run by done. by destruct w.
    - rewrite fields_run_delim by done. rewrite <- (fields_skip is_slash [e] z') by (by repeat constructor). by destruct w. }
  rewrite Hwz in *. apply Forall_cons in Hb as [Hwl Hb]. rewrite take_ge by done.
  destruct (w ++ z) eqn:E; [by apply app_nil in E as [-> _]|]. rewrite <- E, drop_app_length. f_equal.
  apply IH; [|done]. rewrite <- E, length_app in Hf. destruct w; [done|]. simpl in Hf. lia.
Qed.

Lemma back_pos_last cur i pos : (i < pos)%nat -> cur !! i = Some SLASH ->
  (forall q, (i < q < pos)%nat -> cur !! q <> Some SLASH) -> back_pos cur pos = S i.
Proof.
  induction pos as [|q IH]; intros Hi Hc Hno; [lia|]. cbn [back_pos]. case_decide; [lia|].
  case_decide as Hs; [destruct (decide (q = i)) as [->|]; [done|]; by destruct (Hno q); [lia|]|].
  apply IH; [|done|intros; apply Hno; lia]. destruct (decide (q = i)) as [->|]; [done|lia].
Qed.

(** ".." cuts the text behind the last slash before the last component. *)
Lemma pop_last u c tail : plain c -> tail = [] \/ tail = [SLASH] -> pop (u ++ SLASH :: c ++ tail) = u ++ [SLASH].
Proof.
  intros [Hne Hp] Ht. unfold pop. set (cur := u ++ SLASH :: c ++ tail).
  assert (Hlen : length cur = (length u + 1 + length c + length tail)%nat) by (unfold cur; rewrite length_app; simpl; rewrite length_app; lia).
  assert (Hc : (0 < length c)%nat) by (destruct c; [done|simpl; lia]).
  rewrite decide_True by lia. rewrite (back_pos_last cur (length u)).
  - unfold cur. rewrite cons_middle, app_assoc. apply take_app_length'. rewrite length_app. simpl. lia.
  - lia.
  - unfold cur. by rewrite list_lookup_middle.
  - intros q Hq Hs. unfold cur in Hs. rewrite lookup_app_r in Hs by lia.
    replace (q - length u)%nat with (S (q - length u - 1)) in Hs by lia. simpl in Hs. rewrite lookup_app_l in Hs.
    + rewrite Forall_lookup in Hp. by apply Hp in Hs.
    + destruct Ht as [-> | ->]; simpl in *; lia.
Qed.

(** The text ".." leaves for a stack of components. *)
Definition stopped cs : list Z := render cs ++ match cs with [] => [] | _ => [SLASH] end.

Lemma stopped_fields cs : Forall plain cs -> absolute (stopped cs) /\ path_fields (stopped cs) = cs.
Proof.
  intros H. split; [done|]. unfold stopped. destruct cs as [|c cs]; [done|]. rewrite path_fields_app, path_fields_render by done.
  by rewrite app_nil_r.
Qed.

Lemma pop_stack cs c tail : plain c -> tail = [] \/ tail = [SLASH] -> pop (render (cs ++ [c]) ++ tail) = stopped cs.
Proof.
  intros Hc Ht. unfold stopped, render. rewrite join_snoc. destruct cs as [|d cs].
  - apply (pop_last [] c tail); done.
  - replace ((SLASH :: join (d :: cs) ++ SLASH :: c) ++ tail) with ((SLASH :: join (d :: cs)) ++ SLASH :: c ++ tail); [by apply pop_last|].
    rewrite !app_comm_cons, <- !app_assoc. done.
Qed.

(** ** The meaning of "." and ".." *)

Definition resolve_step cs c : list (list Z) :=
  if decide (c = dot) then cs else if decide (c = dotdot) then removelast cs else cs ++ [c].
Definition resolve cs : list (list Z) := foldl resolve_step [] cs.

Lemma resolve_clean st cs : dotdot ∉ cs -> foldl resolve_step st cs = st ++ filter (.≠ dot) cs.
Proof.
  revert st. induction cs as [|c cs IH]; intros st H; cbn [foldl]; [simpl; by rewrite app_nil_r|].
  rewrite not_elem_of_cons in H. destruct H as [Hd H]. rewrite IH by done. unfold resolve_step. rewrite filter_cons.
  destruct (decide (c = dot)) as [->|Hn]; [by rewrite decide_False by tauto|].
  rewrite decide_False by done. rewrite decide_True by done. by rewrite <- app_assoc.
Qed.

Lemma removelast_plain cs : Forall plain cs -> Forall plain (removelast cs).
Proof. intros H. rewrite removelast_firstn_len. by apply Forall_take. Qed.

Lemma pop_of_stack cs cur : Forall plain cs -> cur = render cs \/ cur = stopped cs -> pop cur = stopped (removelast cs).
Proof.
  intros H Hcur. destruct cs as [|c cs _] using rev_ind; [by destruct Hcur as [-> | ->]|].
  rewrite removelast_last. apply Forall_app in H as [_ [Hc _]%Forall_cons]. destruct Hcur as [-> | ->].
  - rewrite <- (app_nil_r (render _)). apply pop_stack; auto.
  - unfold stopped at 1. replace (match cs ++ [c] with [] => [] | _ => [SLASH] end) with [SLASH] by (by destruct cs). apply pop_stack; auto.
Qed.

(** A block of "." and ".." removes components from the end. *)
Lemma norm_run_dots size cs cur m : Forall plain cs -> cur = render cs \/ cur = stopped cs ->
  Forall (fun c => c = dot \/ c = dotdot) m ->
  exists cur', foldl (norm_step size) (Some cur) m = Some cur' /\
    let cs' := foldl resolve_step cs m in Forall plain cs' /\ (cur' = render cs' \/ cur' = stopped cs').
Proof.
  revert cs cur. induction m as [|c m IH]; intros cs cur Hp Hcur Hm; cbn [foldl]; [eauto|].
  apply Forall_cons in Hm as [Hc Hm]. unfold norm_step at 2. cbn [mbind option_bind]. unfold resolve_step at 2 4 6.
  destruct (decide (c = dot)); [by apply IH|]. destruct Hc as [?| ->]; [done|]. rewrite !decide_True by done.
  rewrite (pop_of_stack cs cur) by done. apply IH; auto. by apply removelast_plain.
Qed.

Lemma push_fields size cur c u : absolute cur -> plain c -> push size cur c = Some u ->
  absolute u /\ path_fields u = path_fields cur ++ [c] /\ (cur !! 1%nat <> Some SLASH -> u !! 1%nat <> Some SLASH).
Proof.
  unfold push. intros Ha Hc. case_decide as Hl; [|done]. intros [= <-]. split; [by apply lookup_app_l_Some|].
  destruct cur as [|x cur]; [done|]. injection Ha as ->. unfold sep_of. destruct cur as [|y cur].
  - rewrite decide_False by (simpl; lia). rewrite decide_False by (intros [_ ?]; done). simpl.
    rewrite path_fields_slash, (path_fields_plain c) by done. split; [done|]. intros _ E. destruct Hc as [Hne Hf].
    destruct c as [|z c]; [done|]. injection E as ->. by apply Forall_cons in Hf as [? _].
  - rewrite decide_True by (simpl; lia). split; [|done]. change ([SLASH] ++ c) with (SLASH :: c).
    by rewrite path_fields_app, (path_fields_plain c).
Qed.

Lemma norm_run_fields size cur b u : absolute cur -> Forall plain b -> dotdot ∉ b ->
  foldl (norm_step size) (Some cur) b = Some u -> absolute u /\ path_fields u = path_fields cur ++ filter (.≠ dot) b.
Proof.
  revert cur. induction b as [|c b IH]; intros cur Ha Hp Hd; cbn [foldl]; [intros [= <-]; simpl; by rewrite app_nil_r|].
  apply Forall_cons in Hp as [Hc Hp]. rewrite not_elem_of_cons in Hd. destruct Hd as [Hn Hd].
  unfold norm_step at 2. cbn [mbind option_bind]. rewrite filter_cons. destruct (decide (c = dot)) as [->|Hdot].
  { rewrite decide_False by tauto. by apply IH. }
  rewrite decide_False by done. rewrite decide_True by done. destruct (push size cur c) as [cur'|] eqn:E; [|by rewrite norm_step_None].
  destruct (push_fields _ _ _ _ Ha Hc E) as (Ha' & Hf & _). intros H. destruct (IH cur' Ha' Hp Hd H) as [Hu Hfu]. split; [done|].
  rewrite Hfu, Hf. by rewrite <- app_assoc.
Qed.

(** ** Whatever the input, the result has no "." or ".." *)

Definition abs_ok cur : Prop :=
  absolute cur /\ Forall good (path_fields cur) /\ cur !! 1%nat <> Some SLASH.

Lemma back_pos_slash cur pos : (0 < pos)%nat -> back_pos cur pos = 1%nat \/ cur !! (back_pos cur pos - 1)%nat = Some SLASH.
Proof.
  induction pos as [|q IH]; intros H; [lia|]. cbn [back_pos]. case_decide; [left; lia|]. case_decide as Hs; [|apply IH; lia].
  right. by replace (S q - 1)%nat with q by lia.
Qed.

Lemma pop_abs_ok cur : abs_ok cur -> abs_ok (pop cur).
Proof.
  intros (Ha & Hg & H1). unfold pop. case_decide as Hl; [|done]. set (k := back_pos cur (length cur - 1)).
  assert (Hk : (0 < k <= length cur - 1)%nat) by (split; [apply back_pos_pos; lia|apply back_pos_le]).
  assert (Hs : cur !! (k - 1)%nat = Some SLASH).
  { destruct (back_pos_slash cur (length cur - 1)) as [E|E]; [lia| |done]. fold k in E. rewrite E. done. }
  assert (Ht : take k cur = take (k - 1) cur ++ [SLASH]) by (rewrite <- (take_S_r cur (k - 1) SLASH Hs); f_equal; lia).
  split; [by unfold absolute; rewrite lookup_take_lt by lia|]. split.
  - rewrite <- (take_drop (k - 1) cur), (drop_S _ _ _ Hs), path_fields_app in Hg. apply Forall_app in Hg as [Hg _].
    rewrite Ht, path_fields_app. apply Forall_app. by split; [|constructor].
  - destruct (decide (k = 1%nat)) as [-> |]; [destruct cur as [|? []]; simpl; congruence|]. by rewrite lookup_take_lt by lia.
Qed.

Lemma norm_run_abs_ok size cur cs u : abs_ok cur -> Forall plain cs ->
  foldl (norm_step size) (Some cur) cs = Some u -> abs_ok u.
Proof.
  revert cur. induction cs as [|c cs IH]; intros cur Hok Hp; cbn [foldl]; [by intros [= <-]|].
  apply Forall_cons in Hp as [Hc Hp]. unfold norm_step at 2. cbn [mbind option_bind].
  case_decide as Hd; [by apply IH|]. case_decide as Hdd; [by apply IH; [apply pop_abs_ok|]|].
  destruct (push size cur c) as [cur'|] eqn:E; [|by rewrite norm_step_None]. apply IH; [|done].
  destruct Hok as (Ha & Hg & H1). destruct (push_fields _ _ _ _ Ha Hc E) as (Ha' & Hf & H1'). split; [done|].
  rewrite Hf. split; [|auto]. apply Forall_app. split; [done|]. by repeat constructor.
Qed.

Lemma components_plain fuel t : Forall plain (components fuel t).
Proof.
  revert t. induction fuel as [|fuel IH]; intros t; cbn [components]; [constructor|].
  destruct (run_of_split is_slash true t) as (r & Er & Hr). set (a := run_of is_slash true t) in *.
  assert (Hdr : drop (length a) t = r) by (rewrite Er; apply drop_app_length). rewrite Hdr.
  destruct Hr as [->|(c & r' & -> & Hc)]; [constructor|]. constructor; [|apply IH].
  split; [by rewrite run_of_nonempty|]. apply Forall_take. apply run_of_all.
Qed.

Lemma abs_ok_root : abs_ok [SLASH].
Proof. split; [done|]. split; [constructor|done]. Qed.

Lemma norm_text_abs size t : absolute t ->
  norm_text size t = foldl (norm_step size) (Some [SLASH]) (components (S (length t)) (drop 1 t)).
Proof.
  intros Ha. destruct t as [|c t]; [done|]. injection Ha as ->. unfold norm_text, rest_of. simpl start_of.
  destruct (foldl _ _ _) as [cur|] eqn:E; [|done]. cbn [mbind option_bind].
  destruct (norm_run_abs_ok _ _ _ _ abs_ok_root (components_plain _ _) E) as (Ha & _). by destruct cur.
Qed.

Lemma norm_text_ok size t u : absolute t -> norm_text size t = Some u -> abs_ok u.
Proof. intros Ha. rewrite norm_text_abs by done. apply norm_run_abs_ok; [apply abs_ok_root|apply components_plain]. Qed.

Lemma path_fields_tail t : absolute t -> path_fields (drop 1 t) = path_fields t.
Proof. intros Ha. destruct t as [|c t]; [done|]. injection Ha as ->. simpl. by rewrite path_fields_slash, drop_0. Qed.

Definition short_fields t : Prop := Forall (fun c => (length c <= 255)%nat) (path_fields t).

Lemma short_text t : (length t <= 255)%nat -> short_fields t.
Proof. intros H. apply Forall_forall. intros c Hc. apply fields_from_length in Hc. simpl in Hc. lia. Qed.

Lemma components_abs t : absolute t -> short_fields t -> components (S (length t)) (drop 1 t) = path_fields t.
Proof.
  intros Ha Hs. rewrite components_fields; [by apply path_fields_tail|rewrite length_drop; lia|].
  unfold short_fields in Hs. by rewrite path_fields_tail.
Qed.

(** Without "..": the canonical text, or -1 exactly when it does not fit. *)
Lemma norm_text_clean size t : absolute t -> short_fields t -> dotdot ∉ path_fields t -> (2 <= size)%nat ->
  norm_text size t = let r := render (filter (.≠ dot) (path_fields t)) in if decide (length r < size)%nat then Some r else None.
Proof.
  intros Ha Hs Hd Hsz. rewrite norm_text_abs, components_abs by done.
  rewrite (norm_run_clean size []) by (try done; try apply path_fields_all_plain; simpl; lia). done.
Qed.

Lemma filter_good cs : Forall good cs -> filter (.≠ dot) cs = cs /\ dotdot ∉ cs.
Proof.
  induction cs as [|c cs IH]; intros H; [split; [done|apply not_elem_of_nil]|].
  apply Forall_cons in H as [[H1 H2] H]. destruct (IH H) as [E Hd]. rewrite filter_cons, decide_True, E by done. split; [done|].
  rewrite not_elem_of_cons. split; congruence.
Qed.

(** A text without "." and ".." is only cleaned of repeated slashes. *)
Lemma norm_text_good size t : absolute t -> short_fields t -> Forall good (path_fields t) -> (2 <= size)%nat ->
  norm_text size t = let r := render (path_fields t) in if decide (length r < size)%nat then Some r else None.
Proof. intros Ha Hs Hg Hsz. destruct (filter_good _ Hg) as [E Hd]. rewrite norm_text_clean by done. by rewrite E. Qed.

Lemma norm_text_resolve size t a m b u : absolute t -> short_fields t -> (2 <= size)%nat ->
  path_fields t = a ++ m ++ b -> dotdot ∉ a -> Forall (fun c => c = dot \/ c = dotdot) m -> dotdot ∉ b ->
  norm_text size t = Some u -> absolute u /\ path_fields u = resolve (path_fields t).
Proof.
  intros Ha Hs Hsz Ht Hda Hm Hdb. rewrite norm_text_abs, components_abs by done.
  pose proof (path_fields_all_plain t) as Hp. rewrite Ht in *. apply Forall_app in Hp as [Hpa [_ Hpb]%Forall_app].
  unfold resolve. rewrite !foldl_app. change [SLASH] with (render []).
  rewrite norm_run_clean by (try done; simpl; lia). cbn zeta. rewrite app_nil_l. case_decide; [|by rewrite !norm_step_None].
  assert (Hpf : Forall plain (filter (.≠ dot) a)) by (rewrite Forall_forall in *; intros x [_ Hx]%list_elem_of_filter; auto).
  rewrite (resolve_clean [] a) by done. rewrite app_nil_l.
  destruct (norm_run_dots size _ (render (filter (.≠ dot) a)) m Hpf) as (cur & -> & Hpc & Hcur); [auto|done|].
  set (cs := foldl resolve_step (filter (.≠ dot) a) m) in *.
  assert (Hc : absolute cur /\ path_fields cur = cs).
  { destruct Hcur as [-> | ->]; [|by apply stopped_fields]. split; [done|by apply path_fields_render]. }
  destruct Hc as [Hac Hfc]. intros H1. destruct (norm_run_fields _ _ _ _ Hac Hpb Hdb H1) as [Hau Hfu].
  split; [done|]. rewrite Hfu, Hfc. by rewrite resolve_clean.
Qed.
End canonical.

(** ** The routines built on [normalize_path] *)

Section routines.
Implicit Types t b r : list Z.

Lemma copy_out_spec vis v dest size : cstring vis v -> length dest = size -> (0 < size)%nat ->
  exists d x, copy_out vis dest size = Ok (Some d, x) /\ length d = size /\
    if decide (length v < size)%nat then x = 0 /\ cstring d v else x = -1.
Proof.
  intros Hv Hd Hs. unfold copy_out, strlen. rewrite (strlen_loop_spec vis v 0 Hv). cbn [mbind outcome_bind]. rewrite Nat.add_0_l.
  destruct (decide (length v < size)%nat) as [Hl|Hl].
  - rewrite decide_False by lia. destruct (copy_terminated dest size vis v Hv Hd Hl) as (x & d & -> & E & Hh & Hc).
    cbn [mbind outcome_bind]. rewrite E. cbn [mbind outcome_bind]. exists d, 0. splits; auto. apply Hh.
  - rewrite decide_True by lia. eauto.
Qed.

Lemma length_local n : length (local_array n) = n.
Proof. apply length_replicate. Qed.

Lemma normalize_local_spec path t : cstring path t ->
  exists d (r : Z), normalize_local (Some path) = Ok (d, r) /\
    match norm_text 256 t with
    | Some u => r = 0 /\ cstring d u /\ (length u < 256)%nat
    | None => r = -1
    end.
Proof.
  intros H. unfold normalize_local.
  destruct (normalize_path_spec path t (local_array 256) 256 H (length_local 256)) as (d & r & -> & _ & Hm); [lia|].
  cbn [mbind outcome_bind]. eauto.
Qed.

Lemma no_jail_spec root t : cstring root t -> no_jail (Some root) = Ok (bool_decide (t = [] \/ t = [SLASH])).
Proof.
  intros H. unfold no_jail. rewrite (lookup_0_cstring _ _ H). cbn [or_ub mbind outcome_bind].
  destruct (cstring_inv _ _ H) as [[-> _]|(c & t' & s' & -> & -> & Hc & H1)]; [done|].
  rewrite decide_False by done. case_decide as Hs.
  - change ((c :: s') !! 1%nat) with (s' !! 0%nat). rewrite (lookup_0_cstring _ _ H1). cbn [or_ub mbind outcome_bind]. f_equal. apply bool_decide_ext. subst.
    destruct t' as [|c' t']; [naive_solver|]. destruct H1 as [_ [? _]%Forall_cons]. naive_solver.
  - f_equal. symmetry. apply bool_decide_false. naive_solver.
Qed.

(** What [join_paths] normalises. *)
Definition joined b r : list Z := b ++ (if decide (last b = Some SLASH) then [] else [SLASH]) ++ r.

Lemma holds_strcat x size b s r : holds x size b -> cstring x b -> cstring s r -> (length b + length r < size)%nat ->
  exists y, strcat x s = Ok y /\ cstring y (b ++ r).
Proof.
  intros Hh Hx Hs Hl. rewrite (strcat_spec x s b r) by (try done; destruct Hh; lia). eexists; split; [reflexivity|].
  assert (Hy : holds (splice x (length b) (r ++ [0])) size (b ++ r)) by (apply holds_splice; simpl; try done; try apply Hs; lia).
  apply (holds_cstring _ size); [done|]. destruct Hh as (Hlx & _). rewrite length_app, lookup_splice by (rewrite length_app; simpl; lia).
  rewrite decide_True by (rewrite length_app; simpl; lia). rewrite lookup_app_r by lia.
  by replace (length b + length r - length b - length r)%nat with 0%nat by lia.
Qed.

Lemma join_paths_spec base rel b r dest size :
  cstring base b -> cstring rel r -> b <> [] -> r !! 0%nat <> Some SLASH -> (length b + 1 + length r < 512)%nat ->
  length dest = size -> (2 <= size)%nat ->
  exists d x, join_paths (Some base) (Some rel) (Some dest) size = Ok (Some d, x) /\ length d = size /\
    match norm_text size (joined b r) with
    | Some u => x = 0 /\ cstring d u /\ (length u < size)%nat
    | None => x = -1
    end.
Proof.
  intros Hb Hr Hne Hna Hl Hd Hs. unfold join_paths. rewrite decide_False by lia.
  unfold is_absolute_path. rewrite (lookup_0_cstring _ _ Hr). cbn [or_ub mbind outcome_bind].
  rewrite bool_decide_false by (destruct r; [done|]; simpl in Hna; congruence).
  unfold strlen. rewrite (strlen_loop_spec _ _ 0 Hb), (strlen_loop_spec _ _ 0 Hr). cbn [mbind outcome_bind]. rewrite !Nat.add_0_l.
  rewrite (decide_False (P := (512 <= _)%nat)) by lia.
  destruct (copy_terminated (local_array 512) 512 base b Hb (length_local 512)) as (x & c1 & E1 & E2 & Hh & Hc); [lia|].
  change (512 - 1)%nat with 511%nat in E1, E2. rewrite E1. cbn [mbind outcome_bind]. rewrite E2. cbn [mbind outcome_bind].
  assert (Hbl : (0 < length b)%nat) by (destruct b; [done|simpl; lia]). rewrite (decide_True (P := (0 < _)%nat)) by done.
  destruct (last b) as [z|] eqn:El; [|by apply last_None in El].
  assert (Hlk : c1 !! (length b - 1)%nat = Some z) by (apply (cstring_lookup _ b); [done|]; by rewrite last_lookup, <- Nat.sub_1_r in El).
  rewrite Hlk. cbn [or_ub mbind outcome_bind]. unfold joined. rewrite El. destruct (decide (z = SLASH)) as [->|Hz].
  - rewrite (decide_False (P := SLASH <> SLASH)) by tauto. rewrite (decide_True (P := Some SLASH = Some SLASH)) by done. cbn [mbind outcome_bind app].
    destruct (holds_strcat c1 512 b rel r Hh Hc Hr) as (y & -> & Hy); [lia|]. cbn [mbind outcome_bind].
    by apply normalize_path_spec.
  - rewrite (decide_True (P := z <> SLASH)) by done. rewrite (decide_False (P := Some z = Some SLASH)) by congruence.
    rewrite store_splice by (destruct Hh; lia). cbn [mbind outcome_bind].
    assert (Hh1 : holds (splice c1 (length b) [SLASH]) 512 (b ++ [SLASH])).
    { apply (holds_splice c1 512 b [SLASH]) with (pad := []); simpl; try done; try lia. repeat constructor; done. }
    destruct (holds_finish _ _ _ Hh1) as (c2 & E3 & _ & Hc2 & Hh2). rewrite length_app in E3. simpl in E3. rewrite E3. cbn [mbind outcome_bind].
    destruct (holds_strcat c2 512 (b ++ [SLASH]) rel r Hh2 Hc2 Hr) as (y & -> & Hy); [rewrite length_app; simpl; lia|]. cbn [mbind outcome_bind].
    rewrite <- app_assoc in Hy. by apply normalize_path_spec.
Qed.

Lemma joined_fields b r : b <> [] -> path_fields (joined b r) = path_fields b ++ path_fields r.
Proof.
  intros Hne. unfold joined. case_decide as E; [|change ([SLASH] ++ r) with (SLASH :: r); by rewrite path_fields_app].
  destruct b as [|z b _] using rev_ind; [done|]. rewrite last_snoc in E. injection E as ->.
  rewrite app_nil_l, <- app_assoc. change ([SLASH] ++ r) with (SLASH :: r).
  rewrite !path_fields_app. change (path_fields []) with (@nil (list Z)). by rewrite app_nil_r.
Qed.

Lemma length_drop_short t u : (length t <= 255)%nat -> (length u <= 255)%nat -> forall b, path_fields b = path_fields t ++ path_fields u -> short_fields b.
Proof. intros Ht Hu b E. unfold short_fields. rewrite E. apply Forall_app. split; by apply short_text. Qed.

Lemma apply_root_spec root user rt ut dest size :
  cstring root rt -> cstring user ut -> absolute rt -> absolute ut -> length dest = size -> (2 <= size)%nat ->
  exists d (x : Z), ir0_path_apply_root (Some root) (Some user) (Some dest) size = Ok (Some d, x) /\ length d = size /\
    match norm_text 256 rt, norm_text 256 ut with
    | Some nr, Some nu => let t := render (path_fields nr ++ path_fields nu) in
                          if decide (length t < size)%nat then x = 0 /\ cstring d t else x = -1
    | _, _ => x = -1
    end.
Proof.
  intros Hr Hu Har Hau Hd Hs. unfold ir0_path_apply_root. rewrite (decide_False (P := size = 0%nat)) by lia.
  destruct (normalize_local_spec user ut Hu) as (nud & ru & -> & Hmu). cbn [mbind outcome_bind].
  destruct (norm_text 256 ut) as [nu|] eqn:Enu.
  2:{ subst ru. rewrite (decide_True (P := -1 <> 0)) by done. do 2 eexists. split; [reflexivity|]. split; [done|]. by destruct (norm_text 256 rt). }
  destruct Hmu as (-> & Hcu & Hlu). rewrite (decide_False (P := 0 <> 0)) by tauto.
  destruct (norm_text_ok _ _ _ Hau Enu) as (Hanu & Hgnu & H1nu).
  rewrite (no_jail_spec root rt Hr). cbn [mbind outcome_bind]. case_bool_decide as Hnj.
  { assert (rt = [SLASH]) as -> by (destruct Hnj; [by subst|done]). change (norm_text 256 [SLASH]) with (Some [SLASH]).
    cbv beta iota. change (path_fields [SLASH]) with (@nil (list Z)). rewrite app_nil_l.
    destruct (normalize_path_spec nud nu dest size Hcu Hd Hs) as (d & x & -> & Hld & Hm).
    rewrite norm_text_good in Hm by (try done; apply short_text; lia). exists d, x. splits; auto. cbn zeta in *.
    case_decide; tauto. }
  destruct (normalize_local_spec root rt Hr) as (nrd & rr & -> & Hmr). cbn [mbind outcome_bind].
  destruct (norm_text 256 rt) as [nr|] eqn:Enr; [|subst rr; rewrite (decide_True (P := -1 <> 0)) by done; eauto].
  destruct Hmr as (-> & Hcr & Hlr). rewrite (decide_False (P := 0 <> 0)) by tauto.
  destruct (norm_text_ok _ _ _ Har Enr) as (Hanr & Hgnr & _).
  rewrite (cstring_lookup _ _ _ _ Hcu Hanu). cbn [or_ub mbind outcome_bind]. rewrite (decide_True (P := SLASH = SLASH)) by done.
  destruct nu as [|c0 nu]; [done|]. injection Hanu as ->. rewrite path_fields_slash in *.
  destruct nu as [|c1 nu].
  - pose proof (cstring_nul _ _ Hcu) as E. simpl in E. rewrite E. cbn [or_ub mbind outcome_bind].
    rewrite (decide_True (P := 0 = 0)) by done. change (path_fields []) with (@nil (list Z)). rewrite app_nil_r.
    destruct (normalize_path_spec nrd nr dest size Hcr Hd Hs) as (d & x & -> & Hld & Hm).
    rewrite norm_text_good in Hm by (try done; apply short_text; lia). exists d, x. splits; auto. cbn zeta in *. case_decide; tauto.
  - rewrite (cstring_lookup nud _ 1 c1 Hcu) by done. cbn [or_ub mbind outcome_bind].
    rewrite (decide_False (P := c1 = 0)) by (destruct Hcu as [_ [_ [? _]%Forall_cons]%Forall_cons]; done).
    assert (Hne : nr <> []) by (intros ->; done).
    destruct (join_paths_spec nrd (drop 1 nud) nr (c1 :: nu) dest size) as (d & x & -> & Hld & Hm); try done; [|simpl in *; lia|].
    { by apply (cstring_drop _ (SLASH :: c1 :: nu) 1); [simpl; lia|]. }
    rewrite norm_text_good in Hm; try done.
    + exists d, x. rewrite joined_fields in Hm by done. splits; auto. cbn zeta in *. case_decide; tauto.
    + unfold joined, absolute. by apply lookup_app_l_Some.
    + apply (length_drop_short nr (c1 :: nu)); [lia|simpl in *; lia|by apply joined_fields].
    + rewrite joined_fields by done. by apply Forall_app.
Qed.

Lemma render_app cs cs' : cs <> [] -> cs' <> [] -> render (cs ++ cs') = render cs ++ render cs'.
Proof.
  intros Hc Hc'. unfold render. change ((SLASH :: join cs) ++ SLASH :: join cs') with (SLASH :: join cs ++ SLASH :: join cs'). f_equal.
  induction cs' as [|c cs' IH] using rev_ind; [done|]. rewrite app_assoc, !join_snoc. destruct cs' as [|c' cs'].
  - rewrite app_nil_r. by destruct cs.
  - rewrite IH by done. destruct cs; [done|]. by rewrite <- app_assoc.
Qed.

(** A canonical text is a fixed point of normalisation. *)
Definition canonical cs : Prop := Forall plain cs /\ Forall good cs /\ (length (render cs) < 256)%nat.

Lemma norm_canonical cs : canonical cs -> norm_text 256 (render cs) = Some (render cs).
Proof.
  intros (Hp & Hg & Hl). rewrite norm_text_good; rewrite ?path_fields_render; try done; [by rewrite decide_True|apply short_text; lia|lia].
Qed.

Lemma under_root_correct root cwd rs cs : cstring root (render rs) -> cstring cwd (render cs) -> canonical rs -> canonical cs ->
  ir0_path_under_root (Some root) (Some cwd) = Ok (bool_decide (rs `prefix_of` cs)).
Proof.
  intros Hr Hc Hkr Hkc. unfold ir0_path_under_root. rewrite (lookup_0_cstring _ _ Hc). cbn [or_ub mbind outcome_bind render].
  rewrite (decide_False (P := SLASH <> SLASH)) by tauto. rewrite (no_jail_spec root _ Hr). cbn [mbind outcome_bind].
  destruct rs as [|r0 rs'].
  { rewrite bool_decide_true by (right; done). rewrite bool_decide_true; [done|]. apply prefix_nil. }
  set (rs := r0 :: rs') in *. pose proof Hkr as (Hpr & _ & _). pose proof Hkc as (Hpc & _ & _).
  rewrite bool_decide_false by (intros [?|E]; [done|]; injection E; apply join_nonempty; by apply Forall_cons in Hpr as [? _]).
  destruct (normalize_local_spec root _ Hr) as (nrd & r1 & -> & Hm). rewrite norm_canonical in Hm by done. destruct Hm as (-> & Hnr & _).
  destruct (normalize_local_spec cwd _ Hc) as (ncd & r2 & -> & Hm). rewrite norm_canonical in Hm by done. destruct Hm as (-> & Hnc & _).
  cbn [mbind outcome_bind]. rewrite !(decide_False (P := 0 <> 0)) by tauto.
  unfold strlen, strcmp, strncmp. rewrite (strlen_loop_spec _ _ 0 Hnr). cbn [mbind outcome_bind]. rewrite Nat.add_0_l.
  destruct (kstrcmp_eq _ _ _ _ Hnc Hnr) as (x & -> & Hx). cbn [mbind outcome_bind]. case_decide as E1.
  { apply Hx in E1. assert (cs = rs) as ->. { by rewrite <- (path_fields_render cs), E1, path_fields_render. } by rewrite bool_decide_true. }
  rewrite decide_False by (unfold render; simpl; lia).
  destruct (kstrncmp_take (length (render rs)) _ _ _ _ Hnc Hnr) as (y & -> & Hy). cbn [mbind outcome_bind]. rewrite (take_ge (render rs)) in Hy by lia.
  case_decide as E2.
  - rewrite bool_decide_false; [done|]. intros [ks ->]. destruct ks as [|k ks]; [rewrite app_nil_r in Hx; tauto|].
    rewrite render_app, take_app_length in Hy by done. tauto.
  - assert (Ev : exists v, render cs = render rs ++ v).
    { exists (drop (length (render rs)) (render cs)). transitivity (take (length (render rs)) (render cs) ++ drop (length (render rs)) (render cs));
        [by rewrite take_drop|]. f_equal. tauto. }
    destruct Ev as [v Ev]. rewrite Ev in Hnc.
    rewrite <- (Nat.add_0_r (length (render rs))), <- lookup_drop.
    assert (Hv : cstring (drop (length (render rs)) ncd) v).
    { rewrite <- (drop_app_length (render rs) v). apply cstring_drop; [rewrite length_app; lia|done]. }
    rewrite (lookup_0_cstring _ _ Hv). cbn [or_ub mbind outcome_bind]. f_equal. apply bool_decide_ext. split.
    + destruct v as [|z v]; [done|]. intros ->. rewrite <- (path_fields_render cs), Ev, path_fields_app, path_fields_render by done. by eexists.
    + intros [ks ->]. destruct ks as [|k ks]; [rewrite app_nil_r in Hx; tauto|]. rewrite render_app in Ev by done.
      apply app_inv_head in Ev. by rewrite <- Ev.
Qed.

Lemma getcwd_canonical root cwd rs ks dest size :
  cstring root (render rs) -> cstring cwd (render (rs ++ ks)) -> canonical rs -> canonical (rs ++ ks) -> length dest = size -> (0 < size)%nat ->
  exists e (y : Z), ir0_path_getcwd_visible (Some root) (Some cwd) (Some dest) size = Ok (Some e, y) /\ length e = size /\
    if decide (length (render ks) < size)%nat then y = 0 /\ cstring e (render ks) else y = -1.
Proof.
  intros Hr Hc Hkr Hkc Hd Hs. unfold ir0_path_getcwd_visible. rewrite (decide_False (P := size = 0%nat)) by lia.
  destruct (normalize_local_spec cwd _ Hc) as (ncd & r2 & -> & Hm). rewrite norm_canonical in Hm by done. destruct Hm as (-> & Hnc & _).
  cbn [mbind outcome_bind]. rewrite !(decide_False (P := 0 <> 0)) by tauto.
  rewrite (no_jail_spec root _ Hr). cbn [mbind outcome_bind]. destruct rs as [|r0 rs'].
  { rewrite bool_decide_true by (right; done). by apply copy_out_spec. }
  set (rs := r0 :: rs') in *. pose proof Hkr as (Hpr & _ & _).
  rewrite bool_decide_false by (intros [?|E]; [done|]; injection E; apply join_nonempty; by apply Forall_cons in Hpr as [? _]).
  destruct (normalize_local_spec root _ Hr) as (nrd & r1 & -> & Hm). rewrite norm_canonical in Hm by done. destruct Hm as (-> & Hnr & _).
  cbn [mbind outcome_bind]. rewrite !(decide_False (P := 0 <> 0)) by tauto.
  rewrite (under_root_correct nrd ncd rs (rs ++ ks)) by done. cbn [mbind outcome_bind]. rewrite bool_decide_true by (by apply prefix_app_r).
  simpl negb. cbv iota. unfold strlen, strcmp. rewrite (strlen_loop_spec _ _ 0 Hnr). cbn [mbind outcome_bind]. rewrite Nat.add_0_l.
  destruct (kstrcmp_eq _ _ _ _ Hnc Hnr) as (x & -> & Hx). cbn [mbind outcome_bind]. apply copy_out_spec; try done.
  destruct ks as [|k ks].
  - rewrite app_nil_r in Hx. rewrite decide_True by tauto. apply cstring_intro. repeat constructor; done.
  - rewrite render_app in Hx, Hnc by done. rewrite decide_False.
    + rewrite <- (drop_app_length (render rs) (render (k :: ks))). apply cstring_drop; [rewrite length_app; lia|done].
    + intros E%Hx. apply (f_equal length) in E. rewrite length_app in E. simpl in E. lia.
Qed.

Lemma strip_none temp t c : cstring temp (t ++ [c]) -> c <> SLASH -> strip_trailing temp (length (t ++ [c])) = Ok temp.
Proof.
  intros H Hc. rewrite length_app. simpl. rewrite Nat.add_1_r. cbn [strip_trailing]. case_decide; [done|].
  rewrite (cstring_lookup _ _ (length t) c H) by (by rewrite list_lookup_middle). cbn [or_ub mbind outcome_bind]. by rewrite decide_False.
Qed.

Lemma last_at_fun c t i j : last_at c t i -> last_at c t j -> i = j.
Proof.
  assert (H : forall i j, (i < j)%nat -> last_at c t i -> last_at c t j -> False).
  { intros i' j' Hlt [_ Hi] [Hj _]. apply Hi. apply list_elem_of_lookup. exists (j' - S i')%nat. rewrite lookup_drop. rewrite <- Hj. f_equal. lia. }
  intros Hi Hj. destruct (decide (i < j)%nat); [exfalso; eauto|]. destruct (decide (j < i)%nat); [exfalso; eauto|]. lia.
Qed.

(** The parent of a canonical path is the path of its other components. *)
Lemma get_parent_canonical path cs c dest size :
  cstring path (render (cs ++ [c])) -> canonical (cs ++ [c]) -> length dest = size -> (2 <= size)%nat ->
  exists e (y : Z), get_parent_path (Some path) (Some dest) size = Ok (Some e, y) /\ length e = size /\
    if decide (length (render cs) < size)%nat then y = 0 /\ cstring e (render cs) else y = -1.
Proof.
  intros Hp (Hpl & Hg & Hl) Hd Hs. unfold get_parent_path. rewrite (decide_False (P := size = 0%nat)) by lia.
  assert (Hpc : plain c) by (by apply Forall_app in Hpl as [_ [? _]%Forall_cons]). pose proof Hpc as [Hcne Hcs].
  assert (Et : exists u, render (cs ++ [c]) = u ++ SLASH :: c /\ (u = [] /\ cs = [] \/ u = render cs /\ cs <> [])).
  { unfold render. rewrite join_snoc. destruct cs; [exists []; auto|eexists (SLASH :: _); split; [reflexivity|auto]]. }
  destruct Et as (u & Et & Hu). rewrite Et in *.
  destruct (kstrcmp_eq _ _ _ _ Hp (cstring_lit "/" ltac:(repeat constructor; done))) as (x & -> & Hx). cbn [mbind outcome_bind].
  rewrite (decide_False (P := x = 0)).
  2:{ rewrite Hx. intros E. apply (f_equal length) in E. rewrite length_app in E. destruct c; [done|]. simpl in E. lia. }
  destruct (copy_terminated (local_array 256) 256 path _ Hp (length_local 256) Hl) as (y & temp & E1 & E2 & Hh & Htc).
  change (256 - 1)%nat with 255%nat in E1, E2. rewrite E1. cbn [mbind outcome_bind]. rewrite E2. cbn [mbind outcome_bind].
  unfold strlen. rewrite (strlen_loop_spec _ _ 0 Htc). cbn [mbind outcome_bind]. rewrite Nat.add_0_l.
  destruct c as [|z c' _] using rev_ind; [done|]. set (c := c' ++ [z]) in *.
  replace (u ++ SLASH :: c) with ((u ++ SLASH :: c') ++ [z]) by (unfold c; by rewrite <- app_assoc).
  rewrite strip_none.
  2:{ unfold c in Htc. by rewrite <- app_assoc. }
  2:{ apply Forall_app in Hcs as [_ [Hz _]%Forall_cons]. intros ->. done. }
  cbn [mbind outcome_bind].
  destruct (strrchr_loop_spec temp _ SLASH 0 None Htc) as (r & Er & Hr); [unfold SLASH; lia|]. unfold strrchr. rewrite Er. cbn [mbind outcome_bind].
  assert (Hla : last_at SLASH (u ++ SLASH :: c) (length u)).
  { split; [by rewrite list_lookup_middle|]. rewrite cons_middle, app_assoc. rewrite drop_app_length' by (rewrite length_app; simpl; lia).
    intros Hin. rewrite Forall_forall in Hcs. by apply Hcs in Hin. }
  destruct Hr as [[Hno _]|(j & -> & Hj)]; [by destruct Hno; apply elem_of_app; right; left|].
  rewrite (last_at_fun _ _ _ _ Hj Hla). rewrite Nat.add_0_l. destruct Hu as [[-> ->]|[-> Hne]].
  - rewrite decide_True by done. unfold put_char. rewrite decide_False by lia.
    destruct (store_root dest size Hd Hs) as (d & -> & Hld & Hcd). exists d, 0. splits; auto. by rewrite decide_True by (simpl; lia).
  - rewrite decide_False by (unfold render; simpl; lia). destruct (decide (length (render cs) < size)%nat) as [Hf|Hf].
    + rewrite decide_False by lia. rewrite (strncpy_spec _ dest 0 temp _ Htc) by lia. cbn [mbind outcome_bind].
      rewrite take_app_length. replace (length (render cs) - _)%nat with 0%nat by (rewrite length_app; lia).
      assert (Hh2 : holds (splice dest 0 (render cs ++ replicate 0 0)) size (render cs)).
      { apply (holds_splice dest size [] (render cs)); rewrite ?length_replicate; cbn [length]; try lia; [apply holds_nil; lia|]. destruct Hp as [_ Hz]. by apply Forall_app in Hz as [? _]. }
      destruct (holds_finish _ _ _ Hh2) as (e & -> & Hle & Hce & _). cbn [mbind outcome_bind]. exists e, 0. splits; auto.
    + rewrite decide_True by lia. eauto.
Qed.
End routines.

(** ** Room: a buffer longer than the input always suffices *)

Fixpoint weight (cs : list (list Z)) : nat := match cs with [] => O | c :: cs' => (S (length c) + weight cs')%nat end.

Lemma weight_app cs cs' : weight (cs ++ cs') = (weight cs + weight cs')%nat.
Proof. induction cs as [|c cs IH]; simpl; [done|]. lia. Qed.

Lemma weight_fields cur t : (weight (fields_from is_slash cur t) <= length cur + length t + 1)%nat.
Proof.
  revert cur. induction t as [|x t IH]; intros cur; simpl; [destruct cur; simpl; lia|].
  destruct (is_slash x).
  - rewrite weight_app. specialize (IH []). simpl in IH. destruct cur; simpl; lia.
  - specialize (IH (cur ++ [x])). rewrite length_app in IH. simpl in IH. lia.
Qed.

Lemma norm_run_fits size cs cur : (length cur + weight cs < size)%nat -> is_Some (foldl (norm_step size) (Some cur) cs).
Proof.
  revert cur. induction cs as [|c cs IH]; intros cur Hl; cbn [foldl weight] in *; [eauto|].
  unfold norm_step at 2. cbn [mbind option_bind]. case_decide; [apply IH; lia|].
  case_decide; [apply IH; pose proof (length_pop cur); lia|]. unfold push.
  assert (Hs : (length (sep_of cur) <= 1)%nat) by (unfold sep_of; repeat dec_goal; simpl; lia).
  rewrite decide_True by (rewrite !length_app; lia). apply IH. rewrite !length_app. lia.
Qed.

Lemma norm_text_fits size t : absolute t -> short_fields t -> (length t + 1 < size)%nat -> is_Some (norm_text size t).
Proof.
  intros Ha Hs Hl. rewrite norm_text_abs, components_abs by done. apply norm_run_fits.
  rewrite <- (path_fields_tail t Ha). pose proof (weight_fields [] (drop 1 t)) as Hw.
  assert (Hd : (length (drop 1 t) = length t - 1)%nat) by apply length_drop.
  assert (0 < length t)%nat by (apply lookup_lt_Some in Ha; done). unfold path_fields, fields. simpl length in *. lia.
Qed.

(** [normalize_path] resolves an absolute path: the text it stores is an
    absolute path whose components are those of the input with "." dropped and
    every ".." removing the component before it.  This holds whenever the ".."
    of the path stand next to each other; a path without ".." is stored in
    canonical form, and refused exactly when that form does not fit.  A buffer
    two bytes longer than the input always suffices, and nothing is written
    outside the buffer in any case. *)
Theorem normalize_path_correct (src t dest : list Z) (size : nat) (a m b : list (list Z)) :
  cstring src t -> absolute t -> short_fields t -> length dest = size -> (2 <= size)%nat ->
  path_fields t = a ++ m ++ b -> dotdot ∉ a -> Forall (fun c => c = dot \/ c = dotdot) m -> dotdot ∉ b ->
  exists d r, normalize_path (Some src) (Some dest) size = Ok (Some d, r) /\ length d = size /\
    (r = 0 \/ r = -1) /\ ((length t + 1 < size)%nat -> r = 0) /\
    (r = 0 -> exists u, cstring d u /\ absolute u /\ path_fields u = resolve (path_fields t)) /\
    (dotdot ∉ path_fields t ->
      let u := render (resolve (path_fields t)) in
      (r = 0 <-> (length u < size)%nat) /\ (r = 0 -> cstring d u)).
Proof.
  intros Hs Ha Hsh Hd Hsz Ht Hda Hm Hdb. destruct (normalize_path_spec src t dest size Hs Hd Hsz) as (d & r & -> & Hl & Hr).
  exists d, r. split; [done|]. split; [done|]. split; [destruct (norm_text size t); naive_solver|]. split; [|split].
  - intros Hfit. destruct (norm_text_fits size t Ha Hsh Hfit) as [u E]. rewrite E in Hr. tauto.
  - intros ->. destruct (norm_text size t) as [u|] eqn:E; [|done]. exists u. split; [tauto|]. by apply (norm_text_resolve size t a m b).
  - intros Hdd u. unfold u, resolve. rewrite (resolve_clean [] (path_fields t)) by done. rewrite app_nil_l.
    rewrite norm_text_clean in Hr by done. cbn zeta in Hr. case_decide as Hfit.
    + destruct Hr as (-> & Hc & _). tauto.
    + subst r. split; [|done]. split; [done|]. intros. lia.
Qed.

Ltac nonzero_bytes := apply cstring_lit; vm_compute; repeat constructor; discriminate.
Ltac no_member := match goal with |- ?P => apply (bool_decide_unpack P); vm_compute; exact I end.

Lemma normalize_path_correct_witness : exists d r u,
  normalize_path (Some (lit "/usr/lib/../bin/./sh")) (Some (local_array 64)) 64 = Ok (Some d, r) /\ r = 0 /\
  cstring d u /\ path_fields u = [bytes_of "usr"; bytes_of "bin"; bytes_of "sh"].
Proof.
  destruct (normalize_path_correct (lit "/usr/lib/../bin/./sh") (bytes_of "/usr/lib/../bin/./sh") (local_array 64) 64
    [bytes_of "usr"; bytes_of "lib"] [dotdot] [bytes_of "bin"; dot; bytes_of "sh"]) as (d & r & E & _ & _ & Hfit & Hu & _).
  - nonzero_bytes.
  - reflexivity.
  - apply short_text. vm_compute. lia.
  - apply length_local.
  - lia.
  - reflexivity.
  - no_member.
  - apply Forall_cons. split; [by right|constructor].
  - no_member.
  - assert (r = 0) as -> by (apply Hfit; vm_compute; lia). destruct (Hu eq_refl) as (u & Hc & _ & Hf).
    exists d, 0, u. split; [exact E|]. split; [done|]. split; [exact Hc|]. rewrite Hf. reflexivity.
Defined.

(** Two ".." after a pushed component that follows another "..": the second one
    only removes an empty segment, and the component it names stays. *)
Lemma normalize_dotdot_lost : exists d,
  normalize_path (Some (lit "/a/b/../c/../..")) (Some (local_array 64)) 64 = Ok (Some d, 0) /\
  text d = bytes_of "/a/" /\ resolve (path_fields (bytes_of "/a/b/../c/../..")) = [].
Proof. eexists. split; [vm_compute; reflexivity|]. split; reflexivity. Qed.

(** A relative path loses the tail of its first component. *)
Lemma normalize_relative_truncated : exists d,
  normalize_path (Some (lit "ab/../c")) (Some (local_array 64)) 64 = Ok (Some d, 0) /\ text d = bytes_of "a/c".
Proof. eexists. split; [vm_compute; reflexivity|reflexivity]. Qed.

(** An absolute path with a one-byte buffer: the store behind the "/" is outside it. *)
Lemma normalize_size_one : normalize_path (Some (lit "/a")) (Some (local_array 1)) 1 = UB.
Proof. reflexivity. Qed.



(** A relative name is resolved without the root: two dots leave it. *)
Lemma relative_name_leaves_root :
  match ir0_resolve_kpath_at IR0_AT_FDCWD (Some (lit "../etc/passwd")) (Some (local_array 64)) 64 (Some (lit "/jail")) (Some (lit "/jail")) with
  | Ok (Some d, 0) => take 12 d = bytes_of "/etc/passwd" ++ [0]
  | _ => False
  end.
Proof. vm_compute. reflexivity. Qed.

(** [getcwd] undoes [chroot]: with a canonical root, the path shown for a
    working directory reached through [ir0_path_apply_root] is the canonical
    text of the normalised path the process asked for (with the root stripped
    exactly once, also when the process is at its root), and -1 exactly when
    that text does not fit. *)
Theorem getcwd_roundtrip (root user ut nu dest dest2 : list Z) (rs : list (list Z)) (size size2 : nat) (d : list Z) :
  cstring root (render rs) -> canonical rs -> cstring user ut -> absolute ut -> norm_text 256 ut = Some nu ->
  length dest = size -> (2 <= size <= 256)%nat -> length dest2 = size2 -> (0 < size2)%nat ->
  ir0_path_apply_root (Some root) (Some user) (Some dest) size = Ok (Some d, 0) ->
  exists e (y : Z), ir0_path_getcwd_visible (Some root) (Some d) (Some dest2) size2 = Ok (Some e, y) /\
    if decide (length (render (path_fields nu)) < size2)%nat then y = 0 /\ cstring e (render (path_fields nu)) else y = -1.
Proof.
  intros Hr Hk Hu Hau En Hd Hs Hd2 Hs2 E.
  destruct (apply_root_spec root user (render rs) ut dest size Hr Hu) as (d' & x & E' & _ & Hm); try done; [lia|].
  rewrite E in E'. injection E' as <- <-. rewrite (norm_canonical rs Hk), En in Hm. cbn zeta in Hm.
  pose proof Hk as (Hp & Hg & Hl). rewrite path_fields_render in Hm by done. case_decide as Hf; [|done]. destruct Hm as [_ Hc].
  destruct (getcwd_canonical root d rs (path_fields nu) dest2 size2) as (e & y & Ee & _ & Hy); try done; [|eauto].
  split; [|split; [|lia]]; apply Forall_app; split; auto; [apply path_fields_all_plain|].
  by destruct (norm_text_ok _ _ _ Hau En) as (_ & ? & _).
Qed.

Lemma getcwd_roundtrip_witness : exists d e,
  ir0_path_apply_root (Some (lit "/srv")) (Some (lit "/home/../tmp")) (Some (local_array 64)) 64 = Ok (Some d, 0) /\
  ir0_path_getcwd_visible (Some (lit "/srv")) (Some d) (Some (local_array 64)) 64 = Ok (Some e, 0) /\ cstring e (bytes_of "/tmp").
Proof.
  set (d := bytes_of "/srv/tmp" ++ replicate 56 0). exists d. assert (E : ir0_path_apply_root (Some (lit "/srv")) (Some (lit "/home/../tmp")) (Some (local_array 64)) 64 = Ok (Some d, 0))
    by (vm_compute; reflexivity).
  destruct (getcwd_roundtrip (lit "/srv") (lit "/home/../tmp") (bytes_of "/home/../tmp") (bytes_of "/tmp") (local_array 64) (local_array 64)
    [bytes_of "srv"] 64 64 d) as (e & y & Ee & Hy); [| | | | | | | | |exact E|].
  - change (render [bytes_of "srv"]) with (bytes_of "/srv"). nonzero_bytes.
  - split; [|split].
    + apply Forall_cons. split; [split; [discriminate|]|constructor].
      match goal with |- ?P => apply (bool_decide_unpack P); vm_compute; exact I end.
    + apply Forall_cons. split; [split; discriminate|constructor].
    + vm_compute. lia.
  - nonzero_bytes.
  - reflexivity.
  - reflexivity.
  - apply length_local.
  - lia.
  - apply length_local.
  - lia.
  - exists e. split; [exact E|]. vm_compute in Hy. destruct Hy as [-> Hy]. split; [exact Ee|exact Hy].
Defined.
