(* ===== verification/Flock.v ===== *)
(** * Advisory whole-file locks (src/fs/flock.c)

    The table of holders is a list of [IR0_FLOCK_MAX] records.  [files] gives
    the [path] array of every open file description, which the functions read
    through the [struct vfs_file] pointer they are passed; reading through any
    other pointer is [UB]. *)

From S2P Require Import Prelude CString.

Definition IR0_FLOCK_MAX : nat := 64.
Definition VFS_PATH_MAX : nat := 256.
Definition LOCK_SH : Z := 1.
Definition LOCK_EX : Z := 2.
Definition LOCK_NB : Z := 4.
Definition LOCK_UN : Z := 8.

Record flock_holder := { h_file : Z; h_path : list Z; h_exclusive : bool }.

Definition flock_empty : flock_holder := {| h_file := 0; h_path := replicate VFS_PATH_MAX 0; h_exclusive := false |}.
Definition flock_boot : list flock_holder := replicate IR0_FLOCK_MAX flock_empty.

(** The first index whose record's [file] is [file]: [flock_find] with a
    description, [flock_alloc] with NULL. *)
Fixpoint find_file (tab : list flock_holder) (file : Z) (i : nat) : option nat :=
  match tab with
  | [] => None
  | h :: tab' => if decide (h_file h = file) then Some i else find_file tab' file (S i)
  end.

Definition flock_find (tab : list flock_holder) (file : Z) : option nat := find_file tab file 0.
Definition flock_alloc (tab : list flock_holder) : option nat := find_file tab 0 0.

Fixpoint flock_conflicts (tab : list flock_holder) (file : Z) (path : list Z) (want_exclusive : bool) : outcome bool :=
  match tab with
  | [] => Ok false
  | h :: tab' =>
      if decide (h_file h = 0 \/ h_file h = file) then flock_conflicts tab' file path want_exclusive else
      r ← kstrcmp (h_path h) path;
      if decide (r <> 0) then flock_conflicts tab' file path want_exclusive else
      if want_exclusive || h_exclusive h then Ok true else flock_conflicts tab' file path want_exclusive
  end.

Definition ir0_flock_release_file (tab : list flock_holder) (file : Z) : outcome (list flock_holder) :=
  if decide (file = 0) then Ok tab else
  match flock_find tab file with
  | None => Ok tab
  | Some i =>
      h ← or_ub (tab !! i);
      p ← store (h_path h) 0 0;
      Ok (<[i := {| h_file := 0; h_path := p; h_exclusive := false |}]> tab)
  end.

Definition ir0_flock_apply (files : gmap Z (list Z)) (tab : list flock_holder) (file operation : Z)
  : outcome (list flock_holder * Z) :=
  if decide (file = 0) then Ok (tab, - EBADF) else
  if flag_set operation LOCK_UN then
    if flag_set operation (Z.lor LOCK_SH LOCK_EX) then Ok (tab, - EINVAL)
    else tab ← ir0_flock_release_file tab file; Ok (tab, 0)
  else
  if negb (flag_set operation (Z.lor LOCK_SH LOCK_EX)) then Ok (tab, - EINVAL) else
  if flag_set operation LOCK_SH && flag_set operation LOCK_EX then Ok (tab, - EINVAL) else
  let want_exclusive := flag_set operation LOCK_EX in
  path ← or_ub (files !! file);
  c ← flock_conflicts tab file path want_exclusive;
  if c : bool then Ok (tab, if flag_set operation LOCK_NB then - EWOULDBLOCK else - ENOLCK) else
  own ← (match flock_find tab file with
         | Some i => h ← or_ub (tab !! i); Ok (Some (i, h))
         | None =>
             match flock_alloc tab with
             | None => Ok None
             | Some i =>
                 h ← or_ub (tab !! i);
                 p ← strncpy (h_path h) 0 path (VFS_PATH_MAX - 1);
                 p ← store p (VFS_PATH_MAX - 1) 0;
                 Ok (Some (i, {| h_file := file; h_path := p; h_exclusive := h_exclusive h |}))
             end
         end);
  match own with
  | None => Ok (tab, - ENOLCK)
  | Some (i, h) =>
      Ok (<[i := {| h_file := h_file h; h_path := h_path h; h_exclusive := want_exclusive |}]> tab, 0)
  end.

(** ** Specification: a finite map from open file descriptions to lock modes *)

Section spec.
Context (path_of : Z -> list Z).

Definition conflict (L : gmap Z bool) (file : Z) (want : bool) : Prop :=
  exists g e, L !! g = Some e /\ g <> file /\ path_of g = path_of file /\ (want || e) = true.

#[export] Instance conflict_dec L file want : Decision (conflict L file want).
Proof.
  refine (cast_if (decide (map_Exists (fun g e => g <> file /\ path_of g = path_of file /\ (want || e) = true) L))).
  - abstract (destruct m as (g & e & ?); exists g, e; tauto).
  - abstract (intros (g & e & ?); apply n; exists g, e; tauto).
Defined.

Inductive lock_request := ReqInvalid | ReqUnlock | ReqLock (exclusive nonblock : bool).

Definition request (operation : Z) : lock_request :=
  let sh := flag_set operation LOCK_SH in let ex := flag_set operation LOCK_EX in
  if flag_set operation LOCK_UN then (if sh || ex then ReqInvalid else ReqUnlock)
  else if xorb sh ex then ReqLock ex (flag_set operation LOCK_NB) else ReqInvalid.

Definition flock_spec (L : gmap Z bool) (file operation : Z) : gmap Z bool * Z :=
  match request operation with
  | ReqInvalid => (L, - EINVAL)
  | ReqUnlock => (delete file L, 0)
  | ReqLock want nb =>
      if decide (conflict L file want) then (L, if nb then - EWOULDBLOCK else - ENOLCK)
      else if decide (L !! file = None /\ size L = IR0_FLOCK_MAX) then (L, - ENOLCK)
      else (<[file := want]> L, 0)
  end.

(** Two descriptions of one path hold locks only if both are shared. *)
Definition exclusive_ok (L : gmap Z bool) : Prop :=
  forall f g e e', L !! f = Some e -> L !! g = Some e' -> f <> g -> path_of f = path_of g -> e = false /\ e' = false.

Lemma flock_spec_exclusive L file operation : exclusive_ok L -> exclusive_ok (flock_spec L file operation).1.
Proof.
  intros H. unfold flock_spec. destruct (request operation) as [| |want nb]; [done| |]; simpl.
  - intros f g e e' [_ Hf]%lookup_delete_Some [_ Hg]%lookup_delete_Some. eauto.
  - case_decide as Hc; [done|]. case_decide; [done|]. simpl.
    assert (Hno : forall g e, L !! g = Some e -> g <> file -> path_of g = path_of file -> want = false /\ e = false).
    { intros g e Hg Hne Hp. apply orb_false_elim, not_true_iff_false. intros E. apply Hc. exists g, e. auto. }
    intros f g e e'. destruct (decide (f = file)) as [->|Hf]; [rewrite lookup_insert_eq|rewrite lookup_insert_ne by done];
      (destruct (decide (g = file)) as [->|Hg]; [rewrite lookup_insert_eq|rewrite lookup_insert_ne by done]); intros Hlf Hlg Hne Hp; try done.
    + injection Hlf as <-. destruct (Hno g e' Hlg); auto.
    + injection Hlg as <-. destruct (Hno f e Hlf); auto.
    + eapply (H f g); eauto.
Qed.
End spec.

(** ** The table implements the map *)

Definition entry (h : flock_holder) : option (Z * bool) := if decide (h_file h = 0) then None else Some (h_file h, h_exclusive h).
Definition used (tab : list flock_holder) : list (Z * bool) := omap entry tab.
Definition locks (tab : list flock_holder) : gmap Z bool := list_to_map (used tab).

Section refinement.
Context (files : gmap Z (list Z)).

Definition path_text (f : Z) : list Z := text (default [] (files !! f)).

(** Every description has a terminated path in an array of [VFS_PATH_MAX] bytes. *)
Definition files_ok : Prop :=
  forall f p, files !! f = Some p -> cstring p (text p) /\ (length (text p) < VFS_PATH_MAX)%nat.

Record table_ok (tab : list flock_holder) : Prop := {
  tk_len : length tab = IR0_FLOCK_MAX;
  tk_path : Forall (fun h => length (h_path h) = VFS_PATH_MAX) tab;
  tk_holds : Forall (fun h => h_file h <> 0 -> cstring (h_path h) (path_text (h_file h))) tab;
  tk_nodup : NoDup (used tab).*1
}.

Context (Hfiles : files_ok).

Lemma used_app t1 t2 : used (t1 ++ t2) = used t1 ++ used t2.
Proof. apply omap_app. Qed.

Lemma used_cons h t : used (h :: t) = match entry h with Some p => p :: used t | None => used t end.
Proof. done. Qed.

Lemma find_file_Some tab f i k : find_file tab f i = Some k ->
  exists pre h post, tab = pre ++ h :: post /\ k = (i + length pre)%nat /\ h_file h = f /\ Forall (fun h => h_file h <> f) pre.
Proof.
  revert i. induction tab as [|h tab IH]; intros i H; simpl in H; [done|]. case_decide.
  - injection H as <-. exists [], h, tab. splits; auto; simpl; lia.
  - destruct (IH _ H) as (pre & h' & post & -> & -> & ? & ?). exists (h :: pre), h', post. splits; auto; simpl; lia.
Qed.

Lemma find_file_None tab f i : find_file tab f i = None -> Forall (fun h => h_file h <> f) tab.
Proof. revert i. induction tab as [|h tab IH]; intros i H; simpl in H; [done|]. case_decide; [done|]. eauto. Qed.

Lemma used_elem tab f e : (f, e) ∈ used tab <-> exists h, h ∈ tab /\ h_file h = f /\ h_exclusive h = e /\ f <> 0.
Proof.
  unfold used. rewrite list_elem_of_omap. split; intros (h & Hh & Hx); exists h; unfold entry in *.
  - case_decide; [done|]. injection Hx as <- <-. auto.
  - destruct Hx as (<- & <- & ?). by rewrite decide_False.
Qed.

Lemma locks_lookup tab f e : table_ok tab -> locks tab !! f = Some e <-> exists h, h ∈ tab /\ h_file h = f /\ h_exclusive h = e /\ f <> 0.
Proof. intros []. unfold locks. rewrite <- elem_of_list_to_map by done. apply used_elem. Qed.

Lemma conflicts_spec tab file path want : files !! file = Some path -> table_ok tab ->
  flock_conflicts tab file path want = Ok (bool_decide (conflict path_text (locks tab) file want)).
Proof.
  intros Hf Hok. transitivity (Ok (bool_decide (Exists (fun h => h_file h <> 0 /\ h_file h <> file /\
      path_text (h_file h) = path_text file /\ (want || h_exclusive h) = true) tab))).
  - destruct Hok as [_ _ Hh _]. destruct (Hfiles _ _ Hf) as [Hp _].
    assert (Ept : path_text file = text path) by (unfold path_text; by rewrite Hf).
    induction tab as [|h tab IH]; cbn [flock_conflicts]; [by rewrite bool_decide_false by (by intros ?%Exists_nil)|].
    apply Forall_cons in Hh as [Hh Ht].
    case_decide as Hs; [rewrite (IH Ht); f_equal; apply bool_decide_ext; rewrite Exists_cons; tauto|].
    destruct (kstrcmp_eq _ _ _ _ (Hh ltac:(tauto)) Hp) as (r & -> & Hr). cbn [mbind outcome_bind]. rewrite <- Ept in Hr.
    case_decide; [rewrite (IH Ht); f_equal; apply bool_decide_ext; rewrite Exists_cons; tauto|].
    destruct (want || h_exclusive h) eqn:E.
    + rewrite bool_decide_true; [done|]. apply Exists_cons. left. tauto.
    + rewrite (IH Ht). f_equal. apply bool_decide_ext. rewrite Exists_cons. intuition congruence.
  - f_equal. apply bool_decide_ext. rewrite Exists_exists. unfold conflict. setoid_rewrite (locks_lookup tab _ _ Hok). naive_solver.
Qed.

(** Replacing one record. *)
Lemma table_replace pre h post h' : table_ok (pre ++ h :: post) -> length (h_path h') = VFS_PATH_MAX ->
  (h_file h' <> 0 -> cstring (h_path h') (path_text (h_file h'))) -> NoDup (used (pre ++ h' :: post)).*1 ->
  table_ok (pre ++ h' :: post).
Proof.
  intros [Hl Hp Hh _] Hp' Hh' Hn. apply Forall_app in Hp as [? [_ ?]%Forall_cons], Hh as [? [_ ?]%Forall_cons].
  constructor; auto; [rewrite <- Hl, !length_app; done| |]; by apply Forall_app; split; [|apply Forall_cons].
Qed.

Lemma insert_middle (pre post : list flock_holder) h h' : <[length pre := h']> (pre ++ h :: post) = pre ++ h' :: post.
Proof. rewrite <- (Nat.add_0_r (length pre)), insert_app_r. done. Qed.

Lemma length_used_full tab : Forall (fun h => h_file h <> 0) tab -> length (used tab) = length tab.
Proof.
  induction tab as [|h tab IH]; intros H; [done|]. apply Forall_cons in H as [Hh H]. rewrite used_cons. unfold entry.
  rewrite decide_False by done. simpl. auto.
Qed.

Lemma length_used_le tab : (length (used tab) <= length tab)%nat.
Proof. induction tab as [|h tab IH]; [done|]. rewrite used_cons. destruct (entry h); simpl; lia. Qed.

Lemma locks_size tab : table_ok tab -> size (locks tab) = length (used tab).
Proof. intros []. unfold locks. by rewrite map_size_list_to_map. Qed.

Lemma not_used tab f : Forall (fun h => h_file h <> f) tab -> f ∉ (used tab).*1.
Proof.
  intros H Hin. apply list_elem_of_fmap in Hin as ([f' e] & -> & Hu). apply used_elem in Hu as (h & Hh & Hf & _).
  rewrite Forall_forall in H. by apply (H h).
Qed.

Lemma list_to_map_middle (u1 u2 : list (Z * bool)) f e : NoDup (u1 ++ (f, e) :: u2).*1 ->
  (list_to_map (u1 ++ (f, e) :: u2) : gmap Z bool) = <[f := e]> (list_to_map (u1 ++ u2)).
Proof. intros H. rewrite (list_to_map_proper _ ((f, e) :: u1 ++ u2)); [done|done|]. by rewrite Permutation_middle. Qed.

Lemma NoDup_middle (u1 u2 : list (Z * bool)) f e : NoDup (u1 ++ (f, e) :: u2).*1 <-> (f ∉ (u1 ++ u2).*1) /\ NoDup (u1 ++ u2).*1.
Proof. rewrite <- Permutation_middle. rewrite fmap_cons. apply NoDup_cons. Qed.

Lemma lookup_not_used (u : list (Z * bool)) f : f ∉ u.*1 -> (list_to_map u : gmap Z bool) !! f = None.
Proof. apply not_elem_of_list_to_map. Qed.

Lemma release_spec tab file : table_ok tab -> file <> 0 ->
  exists tab', ir0_flock_release_file tab file = Ok tab' /\ table_ok tab' /\ locks tab' = delete file (locks tab).
Proof.
  intros Hok Hf. unfold ir0_flock_release_file. rewrite decide_False by done.
  destruct (flock_find tab file) as [i|] eqn:E; unfold flock_find in E.
  - apply find_file_Some in E as (pre & h & post & -> & -> & Hh & _). rewrite Nat.add_0_l, list_lookup_middle by done.
    cbn [or_ub mbind outcome_bind]. pose proof Hok as [_ Hp _ Hn]. apply Forall_app in Hp as [_ [Hp _]%Forall_cons].
    unfold store. rewrite decide_True by (rewrite Hp; unfold VFS_PATH_MAX; lia). cbn [mbind outcome_bind]. rewrite insert_middle.
    assert (Hu : used (pre ++ h :: post) = used pre ++ (file, h_exclusive h) :: used post).
    { rewrite used_app, used_cons. unfold entry. by rewrite decide_False, Hh by (by rewrite Hh). }
    set (h' := {| h_file := 0; h_path := _; h_exclusive := false |}).
    assert (Hu' : used (pre ++ h' :: post) = used pre ++ used post) by (rewrite used_app, used_cons; done).
    rewrite Hu in Hn. eexists. split; [reflexivity|]. split.
    + apply (table_replace pre h); auto; [simpl; by rewrite length_insert|done|]. rewrite Hu'. by apply NoDup_middle in Hn as [_ ?].
    + unfold locks. rewrite Hu, Hu', list_to_map_middle by done. rewrite delete_insert_id; [done|].
      apply lookup_not_used. by apply NoDup_middle in Hn as [? _].
  - apply find_file_None in E. exists tab. splits; auto. unfold locks. rewrite delete_id; [done|]. by apply lookup_not_used, not_used.
Qed.

(** The record [own] ends up with: a copy of the path and the mode asked for. *)
Lemma take_slot_spec pre h post file want p : table_ok (pre ++ h :: post) -> file <> 0 ->
  (h_file h = file \/ h_file h = 0 /\ Forall (fun h => h_file h <> file) (pre ++ h :: post)) ->
  length p = VFS_PATH_MAX -> cstring p (path_text file) ->
  let tab' := pre ++ {| h_file := file; h_path := p; h_exclusive := want |} :: post in
  table_ok tab' /\ locks tab' = <[file := want]> (locks (pre ++ h :: post)).
Proof.
  intros Hok Hf Hh Hl Hp tab'. pose proof (tk_nodup _ Hok) as Hn.
  assert (Hu' : used tab' = used pre ++ (file, want) :: used post).
  { unfold tab'. rewrite used_app, used_cons. unfold entry. simpl. by rewrite decide_False. }
  destruct Hh as [Hh|[Hh Hno]].
  - assert (Hu : used (pre ++ h :: post) = used pre ++ (file, h_exclusive h) :: used post).
    { rewrite used_app, used_cons. unfold entry. by rewrite decide_False, Hh by (by rewrite Hh). }
    rewrite Hu in Hn. apply NoDup_middle in Hn as Hn'. split.
    + apply (table_replace pre h); auto. fold tab'. rewrite Hu'. by apply NoDup_middle.
    + unfold locks. rewrite Hu, Hu', !list_to_map_middle by (done || by apply NoDup_middle). by rewrite insert_insert_eq.
  - assert (Hu : used (pre ++ h :: post) = used pre ++ used post).
    { rewrite used_app, used_cons. unfold entry. by rewrite decide_True. }
    rewrite Hu in Hn. assert (Hn' : NoDup (used pre ++ (file, want) :: used post).*1).
    { apply NoDup_middle. split; [|done]. rewrite <- Hu. by apply not_used. }
    split.
    + apply (table_replace pre h); auto. fold tab'. by rewrite Hu'.
    + unfold locks. rewrite Hu, Hu'. by apply list_to_map_middle.
Qed.

Lemma flag_set_lor v a b : flag_set v (Z.lor a b) = flag_set v a || flag_set v b.
Proof.
  unfold flag_set, truthy. rewrite Z.land_lor_distr_r. destruct (Z.land v a =? 0) eqn:Ea; simpl.
  - apply Z.eqb_eq in Ea. by rewrite Ea, Z.lor_0_l.
  - apply Z.eqb_neq in Ea. apply negb_true_iff, Z.eqb_neq. rewrite Z.lor_eq_0_iff. tauto.
Qed.

(** The locking part of [ir0_flock_apply], once no holder conflicts. *)
Lemma acquire_spec tab file path want : table_ok tab -> file <> 0 -> files !! file = Some path ->
  exists tab' r,
    (own ← (match flock_find tab file with
            | Some i => h ← or_ub (tab !! i); Ok (Some (i, h))
            | None =>
                match flock_alloc tab with
                | None => Ok None
                | Some i =>
                    h ← or_ub (tab !! i);
                    p ← strncpy (h_path h) 0 path (VFS_PATH_MAX - 1);
                    p ← store p (VFS_PATH_MAX - 1) 0;
                    Ok (Some (i, {| h_file := file; h_path := p; h_exclusive := h_exclusive h |}))
                end
            end);
     match own with
     | None => Ok (tab, - ENOLCK)
     | Some (i, h) => Ok (<[i := {| h_file := h_file h; h_path := h_path h; h_exclusive := want |}]> tab, 0)
     end) = Ok (tab', r) /\ table_ok tab' /\
    (locks tab', r) = if decide (locks tab !! file = None /\ size (locks tab) = IR0_FLOCK_MAX) then (locks tab, - ENOLCK)
                      else (<[file := want]> (locks tab), 0).
Proof.
  intros Hok Hf Hp. destruct (Hfiles _ _ Hp) as [Hpc Hpl].
  assert (Ept : path_text file = text path) by (unfold path_text; by rewrite Hp).
  destruct (flock_find tab file) as [i|] eqn:E; unfold flock_find in E.
  - apply find_file_Some in E as (pre & h & post & -> & -> & Hh & _). rewrite Nat.add_0_l, list_lookup_middle by done.
    cbn [or_ub mbind outcome_bind]. rewrite insert_middle, Hh. do 2 eexists. split; [reflexivity|].
    pose proof Hok as [_ Hlp Hhd _]. apply Forall_app in Hlp as [_ [Hlp _]%Forall_cons], Hhd as [_ [Hhd _]%Forall_cons].
    destruct (take_slot_spec pre h post file want (h_path h)) as [Hok' El]; auto; [rewrite <- Hh at 1; apply Hhd; by rewrite Hh|].
    split; [done|]. rewrite El, decide_False; [done|]. intros [Hnone _].
    assert (Hsome : locks (pre ++ h :: post) !! file = Some (h_exclusive h)); [|congruence].
    apply locks_lookup; [done|]. exists h. splits; auto. apply elem_of_app. right. left.
  - apply find_file_None in E. assert (Hnone : locks tab !! file = None) by (by apply lookup_not_used, not_used).
    destruct (flock_alloc tab) as [i|] eqn:E2; unfold flock_alloc in E2.
    + apply find_file_Some in E2 as (pre & h & post & -> & -> & Hh & _). rewrite Nat.add_0_l, list_lookup_middle by done.
      pose proof Hok as [Hl Hlp _ _]. pose proof Hlp as [_ [Hlh _]%Forall_cons]%Forall_app.
      cbn [or_ub mbind outcome_bind].
      destruct (copy_terminated (h_path h) VFS_PATH_MAX path (text path) Hpc Hlh Hpl) as (x & p & -> & E3 & Hh2 & Hc).
      cbn [mbind outcome_bind]. rewrite E3. cbn [mbind outcome_bind]. rewrite insert_middle. do 2 eexists. split; [reflexivity|].
      destruct (take_slot_spec pre h post file want p) as [Hok' El]; auto; [apply Hh2|by rewrite Ept|].
      split; [done|]. cbn [h_file h_path]. rewrite El, decide_False; [done|]. intros [_ Hsz]. rewrite locks_size in Hsz by done.
      rewrite used_app, used_cons in Hsz. unfold entry in Hsz. rewrite decide_True in Hsz by done.
      rewrite length_app in Hsz, Hl. pose proof (length_used_le pre). pose proof (length_used_le post). simpl in Hl. lia.
    + apply find_file_None in E2. cbn [mbind outcome_bind]. do 2 eexists. split; [reflexivity|]. split; [done|].
      rewrite decide_True; [done|]. split; [done|]. rewrite locks_size by done. rewrite length_used_full by done. apply Hok.
Qed.

Lemma apply_spec tab file path operation : table_ok tab -> file <> 0 -> files !! file = Some path ->
  exists tab' r, ir0_flock_apply files tab file operation = Ok (tab', r) /\ table_ok tab' /\
    (locks tab', r) = flock_spec path_text (locks tab) file operation.
Proof.
  intros Hok Hf Hp. unfold ir0_flock_apply, flock_spec, request. rewrite decide_False by done. rewrite flag_set_lor.
  destruct (flag_set operation LOCK_UN).
  - destruct (flag_set operation LOCK_SH || flag_set operation LOCK_EX); [eauto|].
    destruct (release_spec tab file Hok Hf) as (tab' & -> & Hok' & El). cbn [mbind outcome_bind]. do 2 eexists.
    split; [reflexivity|]. split; [done|]. by rewrite El.
  - destruct (flag_set operation LOCK_SH), (flag_set operation LOCK_EX) eqn:Ex; simpl; eauto;
    (rewrite Hp; cbn [or_ub mbind outcome_bind]; rewrite conflicts_spec by done; cbn [mbind outcome_bind];
     case_bool_decide as Hc; [rewrite decide_True by done; eauto|rewrite decide_False by done; by apply acquire_spec]).
Qed.
End refinement.

(** ** Histories *)

Inductive flock_op := FApply (file operation : Z) | FRelease (file : Z).

Fixpoint flock_run (files : gmap Z (list Z)) (tab : list flock_holder) (ops : list flock_op) : outcome (list flock_holder * list Z) :=
  match ops with
  | [] => Ok (tab, [])
  | FApply file operation :: ops' =>
      '(tab, r) ← ir0_flock_apply files tab file operation;
      '(tab, rs) ← flock_run files tab ops'; Ok (tab, r :: rs)
  | FRelease file :: ops' => tab ← ir0_flock_release_file tab file; flock_run files tab ops'
  end.

Fixpoint spec_run (path_of : Z -> list Z) (L : gmap Z bool) (ops : list flock_op) : gmap Z bool * list Z :=
  match ops with
  | [] => (L, [])
  | FApply file operation :: ops' =>
      let '(L, r) := flock_spec path_of L file operation in
      let '(L, rs) := spec_run path_of L ops' in (L, r :: rs)
  | FRelease file :: ops' => spec_run path_of (delete file L) ops'
  end.

Definition flock_op_ok (files : gmap Z (list Z)) (op : flock_op) : Prop :=
  match op with FApply f _ | FRelease f => f <> 0 /\ is_Some (files !! f) end.

Lemma exclusive_delete path_of L f : exclusive_ok path_of L -> exclusive_ok path_of (delete f L).
Proof. intros H a b e e' [_ Ha]%lookup_delete_Some [_ Hb]%lookup_delete_Some. eauto. Qed.

Lemma flock_run_spec files tab ops : files_ok files -> table_ok files tab -> exclusive_ok (path_text files) (locks tab) ->
  Forall (flock_op_ok files) ops ->
  exists tab' rs, flock_run files tab ops = Ok (tab', rs) /\ spec_run (path_text files) (locks tab) ops = (locks tab', rs) /\
    table_ok files tab' /\ exclusive_ok (path_text files) (locks tab').
Proof.
  intros Hfs. revert tab. induction ops as [|op ops IH]; intros tab Hok Hex Ho; [by exists tab, []|].
  apply Forall_cons in Ho as [Ho Hos]. destruct op as [f o|f]; destruct Ho as [Hf [path Hp]]; cbn [flock_run spec_run].
  - destruct (apply_spec files Hfs tab f path o Hok Hf Hp) as (tab1 & r & -> & Hok1 & E). cbn [mbind outcome_bind].
    pose proof (flock_spec_exclusive (path_text files) (locks tab) f o Hex) as Hex1. rewrite <- E in *.
    destruct (IH tab1 Hok1 Hex1 Hos) as (tab2 & rs & -> & -> & Hok2 & Hex2). cbn [mbind outcome_bind]. eauto 10.
  - destruct (release_spec files tab f Hok Hf) as (tab1 & -> & Hok1 & E). cbn [mbind outcome_bind]. rewrite <- E.
    apply IH; auto. rewrite E. by apply exclusive_delete.
Qed.

Lemma table_boot files : table_ok files flock_boot.
Proof.
  constructor; [done| | |].
  - apply Forall_replicate. done.
  - apply Forall_replicate. done.
  - replace (used flock_boot) with (@nil (Z * bool)) by reflexivity. constructor.
Qed.

(** C39: flock(2) is mutual exclusion.  For every sequence of lock, convert,
    unlock and close operations on open file descriptions, starting from boot,
    the table of holders stays well formed and implements the map from
    descriptions to lock modes: each call returns exactly the specified code
    (conversion in place, -EWOULDBLOCK or -ENOLCK on a conflict, -ENOLCK when
    all slots are taken, -EINVAL on a malformed request) and no two
    descriptions of one path ever hold locks unless both are shared. *)
Theorem flock_mutual_exclusion (files : gmap Z (list Z)) (ops : list flock_op) :
  files_ok files -> Forall (flock_op_ok files) ops ->
  exists tab rs, flock_run files flock_boot ops = Ok (tab, rs) /\
    spec_run (path_text files) ∅ ops = (locks tab, rs) /\ exclusive_ok (path_text files) (locks tab).
Proof.
  intros Hfs Ho. assert (E0 : locks flock_boot = ∅) by reflexivity.
  destruct (flock_run_spec files flock_boot ops Hfs (table_boot files)) as (tab & rs & E & Es & _ & Hex); [|done|].
  { intros f g e e' Hf. rewrite E0 in Hf. by apply lookup_empty_Some in Hf. }
  rewrite E0 in Es. exists tab, rs. auto.
Qed.

Definition demo_files : gmap Z (list Z) := {[ 10 := lit "/db"; 20 := lit "/db"; 30 := lit "/log" ]}.

Lemma flock_mutual_exclusion_witness : exists tab,
  flock_run demo_files flock_boot [FApply 10 LOCK_EX; FApply 20 (LOCK_SH + LOCK_NB); FApply 30 LOCK_EX; FRelease 10; FApply 20 LOCK_SH]
    = Ok (tab, [0; - EWOULDBLOCK; 0; 0]) /\ exclusive_ok (path_text demo_files) (locks tab).
Proof.
  destruct (flock_mutual_exclusion demo_files
    [FApply 10 LOCK_EX; FApply 20 (LOCK_SH + LOCK_NB); FApply 30 LOCK_EX; FRelease 10; FApply 20 LOCK_SH]) as (tab & rs & E & Es & Hex).
  - intros f p Hp. unfold demo_files in Hp.
    repeat (apply lookup_insert_Some in Hp as [[<- <-]|[_ Hp]]; [split; [apply cstring_lit; repeat constructor; discriminate|vm_compute; lia]|]).
    apply lookup_singleton_Some in Hp as [<- <-]. split; [apply cstring_lit; repeat constructor; discriminate|vm_compute; lia].
  - repeat (apply Forall_cons; split; [split; [discriminate|vm_compute; eauto]|]). constructor.
  - exists tab. split; [|exact Hex]. rewrite E. f_equal. f_equal. apply (f_equal snd) in Es. vm_compute in Es. exact (eq_sym Es).
Defined.
