(* ===== verification/Minix.v ===== *)
(** * The MINIX file system: volume, inodes, directories (src/fs/minix_fs.c)

    The volume is a map from block numbers to 1024 bytes; a block that is not
    on the device cannot be read or written.  [io] is what the next requests
    to the block layer answer: a request that fails may leave any bytes in the
    block it was writing, and an empty list means that no further request fails.

    [minix_fs] and the statics beside it are the record [minix_state].  The
    statics nothing reads ([minix_last_resolved_ino], [root_inode_cached],
    [cached_root_inode], the one-shot log flags) are left out;
    [cached_result_inode] is kept because [minix_fs_find_inode] hands out a
    pointer to it.  Paths and names are their text.  Arguments stand for the
    clock ([now]: each call of [minix_now_seconds] is one reading) and the
    caller's credentials. *)

From S2P Require Import Prelude Bytes CString Perm.

(** ** Constants and on-disk data *)

Definition EIO : Z := 5.
Definition ENODEV : Z := 19.
Definition MINIX_SUPER_MAGIC : Z := 0x137F.
Definition MINIX_ROOT_INODE : Z := 1.
Definition MINIX_MAX_INODES : Z := 1024.
Definition MINIX_MAX_ZONES : Z := 65535.
Definition MINIX_BLOCK_SIZE : Z := 1024.
Definition MINIX_DIRECT_ZONES : nat := 7.
Definition MINIX_INDIRECT_ZONES : Z := 512.
Definition MINIX_DINDIRECT_ZONES : Z := 262144.
Definition MINIX_NAME_LEN : nat := 14.
Definition VFS_PATH_MAX : nat := 256.
Definition sizeof_inode : Z := 32.
Definition sizeof_dir_entry : Z := 16.
Definition NUM_ENTRIES : nat := 64.

Definition MINIX_IFMT : Z := 0xF000.
Definition MINIX_IFDIR : Z := 0x4000.
Definition MINIX_IFREG : Z := 0x8000.
Definition MINIX_IRWXU : Z := 0x1C0.
Definition MINIX_IRGRP : Z := 0x020.
Definition MINIX_IROTH : Z := 0x004.

Record minix_superblock_t := Super {
  s_ninodes : Z; s_nzones : Z; s_imap_blocks : Z; s_zmap_blocks : Z;
  s_firstdatazone : Z; s_log_zone_size : Z; s_max_size : Z; s_magic : Z
}.

Record minix_inode_t := MInode {
  i_mode : Z; i_uid : Z; i_size : Z; i_time : Z; i_gid : Z; i_nlinks : Z; i_zone : list Z
}.

Definition inode_zeroed : minix_inode_t := MInode 0 0 0 0 0 0 (replicate 9 0).
Definition zone_of (n : minix_inode_t) (k : nat) : Z := default 0 (i_zone n !! k).

Definition set_zone (k : nat) (z : Z) (n : minix_inode_t) : minix_inode_t :=
  MInode (i_mode n) (i_uid n) (i_size n) (i_time n) (i_gid n) (i_nlinks n) (<[k := u16 z]> (i_zone n)).
Definition set_size (z : Z) (n : minix_inode_t) : minix_inode_t :=
  MInode (i_mode n) (i_uid n) (u32 z) (i_time n) (i_gid n) (i_nlinks n) (i_zone n).
Definition set_time (z : Z) (n : minix_inode_t) : minix_inode_t :=
  MInode (i_mode n) (i_uid n) (i_size n) (u32 z) (i_gid n) (i_nlinks n) (i_zone n).
Definition set_nlinks (z : Z) (n : minix_inode_t) : minix_inode_t :=
  MInode (i_mode n) (i_uid n) (i_size n) (i_time n) (i_gid n) (u8 z) (i_zone n).
Definition set_mode (z : Z) (n : minix_inode_t) : minix_inode_t :=
  MInode (u16 z) (i_uid n) (i_size n) (i_time n) (i_gid n) (i_nlinks n) (i_zone n).
Definition set_ids (u g : Z) (n : minix_inode_t) : minix_inode_t :=
  MInode (i_mode n) (u16 u) (i_size n) (i_time n) (u8 g) (i_nlinks n) (i_zone n).

(** Little-endian fields of a buffer. *)
Definition byte_at (b : list Z) (i : nat) : Z := default 0 (b !! i).
Definition get16 (b : list Z) (i : nat) : Z := byte_at b i + 256 * byte_at b (i + 1).
Definition get32 (b : list Z) (i : nat) : Z := get16 b i + 65536 * get16 b (i + 2).
Definition le16 (v : Z) : list Z := [u8 v; u8 (v / 256)].
Definition le32 (v : Z) : list Z := le16 v ++ le16 (v / 65536).

Definition inode_at (b : list Z) (o : nat) : minix_inode_t :=
  MInode (get16 b o) (get16 b (o + 2)) (get32 b (o + 4)) (get32 b (o + 8)) (byte_at b (o + 12)) (byte_at b (o + 13))
    (map (fun k => get16 b (o + 14 + 2 * k)) (seq 0 9)).
Definition inode_bytes (n : minix_inode_t) : list Z :=
  le16 (i_mode n) ++ le16 (i_uid n) ++ le32 (i_size n) ++ le32 (i_time n) ++ [u8 (i_gid n); u8 (i_nlinks n)] ++
  concat (map le16 (i_zone n)).

Definition super_at (b : list Z) : minix_superblock_t :=
  Super (get16 b 0) (get16 b 2) (get16 b 4) (get16 b 6) (get16 b 8) (get16 b 10) (get32 b 12) (get16 b 16).
Definition super_bytes (s : minix_superblock_t) : list Z :=
  le16 (s_ninodes s) ++ le16 (s_nzones s) ++ le16 (s_imap_blocks s) ++ le16 (s_zmap_blocks s) ++
  le16 (s_firstdatazone s) ++ le16 (s_log_zone_size s) ++ le32 (s_max_size s) ++ le16 (s_magic s) ++ [0; 0].

(** Entry [j] of a directory block, and entry [k] of a block of zone numbers. *)
Definition entry_inode (b : list Z) (j : nat) : Z := get16 b (16 * j).
Definition entry_name (b : list Z) (j : nat) : list Z := take MINIX_NAME_LEN (drop (16 * j + 2) b).
Definition put_entry (b : list Z) (j : nat) (inum : Z) (name : list Z) : list Z :=
  splice (splice b (16 * j) (le16 inum)) (16 * j + 2) (name ++ replicate (MINIX_NAME_LEN - length name) 0).
Definition list_zone (b : list Z) (k : Z) : Z := get16 b (Z.to_nat (2 * k)).
Definition put_zone (b : list Z) (k z : Z) : list Z := splice b (Z.to_nat (2 * k)) (le16 z).

Definition zero_block : list Z := replicate 1024 0.

(** ** State and the block layer *)

Inductive io_result := IoOk | IoFail (content : list Z).

Record minix_state := {
  superblock : minix_superblock_t;
  inode_bitmap : option (list Z);
  zone_bitmap : option (list Z);
  initialized : bool;
  zmap_dirty : bool;
  zmap_search_start : Z;
  cached_result_inode : minix_inode_t;
  root_dev_present : bool;
  disk : gmap Z (list Z);
  io : list io_result
}.

Definition set_super (b : minix_superblock_t) (s : minix_state) : minix_state :=
  {| superblock := b; inode_bitmap := inode_bitmap s; zone_bitmap := zone_bitmap s; initialized := initialized s;
     zmap_dirty := zmap_dirty s; zmap_search_start := zmap_search_start s; cached_result_inode := cached_result_inode s;
     root_dev_present := root_dev_present s; disk := disk s; io := io s |}.
Definition set_imap (b : list Z) (s : minix_state) : minix_state :=
  {| superblock := superblock s; inode_bitmap := Some b; zone_bitmap := zone_bitmap s; initialized := initialized s;
     zmap_dirty := zmap_dirty s; zmap_search_start := zmap_search_start s; cached_result_inode := cached_result_inode s;
     root_dev_present := root_dev_present s; disk := disk s; io := io s |}.
Definition set_zmap (b : list Z) (dirty : bool) (start : Z) (s : minix_state) : minix_state :=
  {| superblock := superblock s; inode_bitmap := inode_bitmap s; zone_bitmap := Some b; initialized := initialized s;
     zmap_dirty := dirty; zmap_search_start := start; cached_result_inode := cached_result_inode s;
     root_dev_present := root_dev_present s; disk := disk s; io := io s |}.
Definition set_initialized (b : bool) (s : minix_state) : minix_state :=
  {| superblock := superblock s; inode_bitmap := inode_bitmap s; zone_bitmap := zone_bitmap s; initialized := b;
     zmap_dirty := zmap_dirty s; zmap_search_start := zmap_search_start s; cached_result_inode := cached_result_inode s;
     root_dev_present := root_dev_present s; disk := disk s; io := io s |}.
Definition set_clean (s : minix_state) : minix_state :=
  {| superblock := superblock s; inode_bitmap := inode_bitmap s; zone_bitmap := zone_bitmap s; initialized := initialized s;
     zmap_dirty := false; zmap_search_start := zmap_search_start s; cached_result_inode := cached_result_inode s;
     root_dev_present := root_dev_present s; disk := disk s; io := io s |}.
Definition set_cached (n : minix_inode_t) (s : minix_state) : minix_state :=
  {| superblock := superblock s; inode_bitmap := inode_bitmap s; zone_bitmap := zone_bitmap s; initialized := initialized s;
     zmap_dirty := zmap_dirty s; zmap_search_start := zmap_search_start s; cached_result_inode := n;
     root_dev_present := root_dev_present s; disk := disk s; io := io s |}.
Definition set_disk (d : gmap Z (list Z)) (s : minix_state) : minix_state :=
  {| superblock := superblock s; inode_bitmap := inode_bitmap s; zone_bitmap := zone_bitmap s; initialized := initialized s;
     zmap_dirty := zmap_dirty s; zmap_search_start := zmap_search_start s; cached_result_inode := cached_result_inode s;
     root_dev_present := root_dev_present s; disk := d; io := io s |}.
Definition next_io (s : minix_state) : io_result * minix_state :=
  match io s with
  | [] => (IoOk, s)
  | r :: rs => (r, {| superblock := superblock s; inode_bitmap := inode_bitmap s; zone_bitmap := zone_bitmap s;
                      initialized := initialized s; zmap_dirty := zmap_dirty s; zmap_search_start := zmap_search_start s;
                      cached_result_inode := cached_result_inode s; root_dev_present := root_dev_present s;
                      disk := disk s; io := rs |})
  end.

(** [inl] is the error code, [inr] the contents of the buffer. *)
Definition minix_read_block (s : minix_state) (block_num : Z) : minix_state * (Z + list Z) :=
  if negb (root_dev_present s) then (s, inl (- ENODEV)) else
  let '(r, s) := next_io s in
  match r, disk s !! block_num with
  | IoOk, Some b => (s, inr b)
  | _, _ => (s, inl (- EIO))
  end.

Definition minix_write_block (s : minix_state) (block_num : Z) (buffer : list Z) : minix_state * Z :=
  if negb (root_dev_present s) then (s, - ENODEV) else
  let '(r, s) := next_io s in
  match disk s !! block_num with
  | None => (s, - EIO)
  | Some _ =>
      match r with
      | IoOk => (set_disk (<[block_num := buffer]> (disk s)) s, 0)
      | IoFail c => (set_disk (<[block_num := c]> (disk s)) s, - EIO)
      end
  end.

(** ** Bitmaps *)

Definition minix_zmap_bytes (s : minix_state) : Z :=
  let blocks := s_zmap_blocks (superblock s) in
  (if decide (blocks = 0) then 1 else blocks) * MINIX_BLOCK_SIZE.

Fixpoint sync_zmap_loop (n : nat) (b : nat) (bm : list Z) (s : minix_state) : minix_state * Z :=
  match n with
  | O => (set_clean s, 0)
  | S n' =>
      let '(s, r) := minix_write_block s (2 + s_imap_blocks (superblock s) + Z.of_nat b) (take 1024 (drop (1024 * b) bm)) in
      if decide (r <> 0) then (s, - EIO) else sync_zmap_loop n' (S b) bm s
  end.

Definition minix_sync_zone_bitmap (s : minix_state) : minix_state * Z :=
  match zone_bitmap s with
  | None => (s, 0)
  | Some bm =>
      if negb (zmap_dirty s) then (s, 0)
      else if decide (s_zmap_blocks (superblock s) = 0) then (s, - EIO)
      else sync_zmap_loop (Z.to_nat (s_zmap_blocks (superblock s))) 0 bm s
  end.

(** The bit of a zone in the bitmap: [None] where the code returns early. *)
Definition zone_bit (s : minix_state) (zone_num : Z) : option nat :=
  let first := s_firstdatazone (superblock s) in
  if decide (zone_num < first \/ MINIX_MAX_ZONES <= zone_num) then None
  else if decide (minix_zmap_bytes s <= (zone_num - first) / 8) then None
  else Some (Z.to_nat (zone_num - first)).

Definition minix_is_zone_free (s : minix_state) (zone_num : Z) : outcome bool :=
  match zone_bitmap s, zone_bit s zone_num with
  | Some bm, Some i => if decide (i / 8 < length bm)%nat then Ok (bitmap_test bm i) else UB
  | _, _ => Ok false
  end.

Definition minix_mark_zone_used (s : minix_state) (zone_num : Z) : outcome minix_state :=
  match zone_bitmap s, zone_bit s zone_num with
  | Some bm, Some i =>
      if decide (i / 8 < length bm)%nat then
        Ok (set_zmap (bitmap_clear bm i) true
              (if decide (zmap_search_start s < zone_num + 1) then zone_num + 1 else zmap_search_start s) s)
      else UB
  | _, _ => Ok s
  end.

(** One of the two search loops: zones [i], [i+1], ... [n] of them. *)
Fixpoint alloc_scan (n : nat) (i : Z) (s : minix_state) : outcome (option (minix_state * Z)) :=
  match n with
  | O => Ok None
  | S n' =>
      free ← minix_is_zone_free s i;
      if (free : bool) then s ← minix_mark_zone_used s i; Ok (Some (s, i)) else alloc_scan n' (i + 1) s
  end.

Definition minix_alloc_zone (s : minix_state) : outcome (minix_state * Z) :=
  let limit := s_nzones (superblock s) in
  let first := s_firstdatazone (superblock s) in
  let limit := if decide (limit = 0 \/ MINIX_MAX_ZONES < limit) then MINIX_MAX_ZONES else limit in
  if decide (limit <= first) then Ok (s, 0) else
  let start := zmap_search_start s in
  let start := if decide (start < first \/ limit <= start) then first else start in
  r ← alloc_scan (Z.to_nat (limit - start)) start s;
  match r with
  | Some r => Ok r
  | None =>
      r ← alloc_scan (Z.to_nat (start - first)) first s;
      match r with Some r => Ok r | None => Ok (s, 0) end
  end.

Definition minix_free_zone (s : minix_state) (zone_num : Z) : outcome minix_state :=
  match zone_bitmap s, zone_bit s zone_num with
  | Some bm, Some i =>
      if decide (i / 8 < length bm)%nat then
        Ok (set_zmap (bitmap_set bm i) true
              (if decide (zone_num < zmap_search_start s) then zone_num else zmap_search_start s) s)
      else UB
  | _, _ => Ok s
  end.

Definition imap_update (f : list Z -> nat -> list Z) (s : minix_state) (inode_num : Z) : outcome minix_state :=
  if decide (MINIX_MAX_INODES <= inode_num) then Ok s else
  bm ← or_ub (inode_bitmap s);
  if decide (Z.to_nat inode_num / 8 < length bm)%nat then Ok (set_imap (f bm (Z.to_nat inode_num)) s) else UB.
Definition minix_mark_inode_used : minix_state -> Z -> outcome minix_state := imap_update bitmap_set.
Definition minix_mark_inode_free : minix_state -> Z -> outcome minix_state := imap_update bitmap_clear.

Fixpoint alloc_inode_loop (n : nat) (i : nat) (s : minix_state) (bm : list Z) : outcome (minix_state * Z) :=
  match n with
  | O => Ok (s, 0)
  | S n' =>
      if decide (i / 8 < length bm)%nat then
        if bitmap_test bm i then alloc_inode_loop n' (S i) s bm else Ok (set_imap (bitmap_set bm i) s, Z.of_nat i)
      else UB
  end.

Definition minix_alloc_inode (s : minix_state) : outcome (minix_state * Z) :=
  let limit := s_ninodes (superblock s) in
  let limit := if decide (limit = 0 \/ MINIX_MAX_INODES <= limit) then MINIX_MAX_INODES - 1 else limit in
  bm ← or_ub (inode_bitmap s);
  alloc_inode_loop (Z.to_nat limit) 1 s bm.

Definition minix_sync_inode_bitmap (s : minix_state) : minix_state * Z :=
  match inode_bitmap s with
  | None => (s, - EIO)
  | Some bm => let '(s, r) := minix_write_block s 2 (take 1024 bm) in (s, if decide (r <> 0) then - EIO else 0)
  end.

(** ** Inodes *)

Definition inode_block (s : minix_state) (inode_num : Z) : Z :=
  2 + s_imap_blocks (superblock s) + s_zmap_blocks (superblock s) + (inode_num - 1) * sizeof_inode / MINIX_BLOCK_SIZE.
Definition inode_offset (inode_num : Z) : nat := Z.to_nat ((inode_num - 1) * sizeof_inode mod MINIX_BLOCK_SIZE).

Definition minix_read_inode (s : minix_state) (inode_num : Z) : minix_state * (Z + minix_inode_t) :=
  if decide (inode_num = 0 \/ MINIX_MAX_INODES <= inode_num) then (s, inl (-1))
  else if negb (initialized s) then (s, inl (-1))
  else if decide (s_magic (superblock s) <> MINIX_SUPER_MAGIC) then (s, inl (-1))
  else if decide (s_imap_blocks (superblock s) = 0 \/ s_zmap_blocks (superblock s) = 0) then (s, inl (-1))
  else
    let '(s, r) := minix_read_block s (inode_block s inode_num) in
    match r with
    | inl _ => (s, inl (-1))
    | inr b => (s, inr (inode_at b (inode_offset inode_num)))
    end.

Definition minix_fs_write_inode (s : minix_state) (inode_num : Z) (inode : minix_inode_t) : minix_state * Z :=
  if decide (inode_num = 0) then (s, - EINVAL) else
  let '(s, r) := minix_read_block s (inode_block s inode_num) in
  match r with
  | inl _ => (s, - EIO)
  | inr b =>
      let '(s, r) := minix_write_block s (inode_block s inode_num) (splice b (inode_offset inode_num) (inode_bytes inode)) in
      (s, if decide (r <> 0) then - EIO else 0)
  end.

Definition minix_fs_free_inode (s : minix_state) (inode_num : Z) : outcome (minix_state * Z) :=
  if decide (inode_num = 0 \/ s_ninodes (superblock s) < inode_num) then Ok (s, - EINVAL)
  else if decide (s_imap_blocks (superblock s) * MINIX_BLOCK_SIZE <= inode_num / 8) then Ok (s, - EINVAL)
  else
    s ← match inode_bitmap s with
        | None => Ok s
        | Some bm =>
            if decide (Z.to_nat inode_num / 8 < length bm)%nat then Ok (set_imap (bitmap_clear bm (Z.to_nat inode_num)) s) else UB
        end;
    let '(s, r) := minix_sync_inode_bitmap s in
    Ok (s, if decide (r <> 0) then - EIO else 0).

(** ** Directories *)

Definition is_dirbit (n : minix_inode_t) : bool := flag_set (i_mode n) MINIX_IFDIR.

(** The name field holds 14 bytes and is unterminated when it is full. *)
Definition minix_dirent_name (b : list Z) (j : nat) : list Z := text (entry_name b j).

Definition find_entry (b name : list Z) : option nat :=
  find_from (fun j => negb (entry_inode b j =? 0) && bool_decide (minix_dirent_name b j = name)) 0 NUM_ENTRIES.

Fixpoint find_in_zones (zs : list Z) (s : minix_state) (name : list Z) : minix_state * Z :=
  match zs with
  | [] => (s, 0)
  | z :: zs' =>
      if decide (z = 0) then find_in_zones zs' s name else
      let '(s, r) := minix_read_block s z in
      match r with
      | inl _ => find_in_zones zs' s name
      | inr b => match find_entry b name with Some j => (s, entry_inode b j) | None => find_in_zones zs' s name end
      end
  end.

Definition minix_fs_find_dir_entry (s : minix_state) (dir_inode : minix_inode_t) (name : list Z) : minix_state * Z :=
  if negb (is_dirbit dir_inode) then (s, 0) else find_in_zones (take MINIX_DIRECT_ZONES (i_zone dir_inode)) s name.

(** The walk of [minix_lookup]: [token] is the current component, [next] the
    rest of the path behind the slash that ended it. *)
Fixpoint lookup_loop (fuel : nat) (s : minix_state) (num : Z) (cur : minix_inode_t) (token : list Z) (next : option (list Z))
  : outcome (minix_state * (Z + minix_inode_t * Z)) :=
  match fuel with
  | O => UB
  | S fuel =>
      if decide (token = []) then Ok (s, inr (cur, num)) else
      if negb (is_dirbit cur) then Ok (s, inl (- ENOTDIR)) else
      let '(s, found) := minix_fs_find_dir_entry s cur token in
      if decide (found = 0) then Ok (s, inl (- ENOENT)) else
      let '(s, r) := minix_read_inode s found in
      match r with
      | inl _ => Ok (s, inl (- EIO))
      | inr n =>
          match next with
          | None => Ok (s, inr (n, found))
          | Some rest => let '(token, next) := break_slash rest in lookup_loop fuel s found n token next
          end
      end
  end.

Definition minix_lookup (s : minix_state) (pathname : option (list Z)) : outcome (minix_state * (Z + minix_inode_t * Z)) :=
  match pathname with
  | None => Ok (s, inl (- EINVAL))
  | Some pathname =>
      if negb (initialized s) then Ok (s, inl (- EINVAL)) else
      if decide (pathname = [SLASH]) then
        let '(s, r) := minix_read_inode s MINIX_ROOT_INODE in
        Ok (s, match r with inl _ => inl (- EIO) | inr n => inr (n, MINIX_ROOT_INODE) end)
      else
        let path_copy := take (VFS_PATH_MAX - 1) pathname in
        let '(s, r) := minix_read_inode s MINIX_ROOT_INODE in
        match r with
        | inl _ => Ok (s, inl (- EIO))
        | inr root =>
            let token := match path_copy with c :: p => if decide (c = SLASH) then p else path_copy | [] => [] end in
            if decide (token = []) then Ok (s, inr (root, MINIX_ROOT_INODE)) else
            let '(token, next) := break_slash token in
            lookup_loop VFS_PATH_MAX s MINIX_ROOT_INODE root token next
        end
  end.

(** The result is a pointer to [cached_result_inode], or NULL. *)
Definition minix_fs_find_inode (s : minix_state) (pathname : list Z) : outcome (minix_state * bool) :=
  '(s, r) ← minix_lookup s (Some pathname);
  match r with
  | inl _ => Ok (s, false)
  | inr (n, _) => Ok (set_cached n s, true)
  end.

Definition minix_fs_get_inode_number (s : minix_state) (pathname : list Z) : outcome (minix_state * Z) :=
  '(s, r) ← minix_lookup s (Some pathname);
  match r with
  | inl _ => Ok (s, 0)
  | inr (n, ino) => Ok (set_cached n s, ino)
  end.

(** Code, parent path and last component.  [parent_path] is an array of
    [VFS_PATH_MAX] bytes in every caller. *)
Definition minix_fs_split_path (pathname : list Z) : outcome (Z * list Z * list Z) :=
  match break_last_slash pathname with
  | None => Ok (if decide (MINIX_NAME_LEN < length pathname)%nat then - ENAMETOOLONG else 0, [SLASH], take MINIX_NAME_LEN pathname)
  | Some (parent, base) =>
      if decide (VFS_PATH_MAX <= length parent)%nat then UB else
      Ok (if decide (MINIX_NAME_LEN < length base)%nat then - ENAMETOOLONG else 0,
          match parent with [] => [SLASH] | _ => parent end, take MINIX_NAME_LEN base)
  end.

(** The first entry of a block that is free or already carries the name. *)
Definition free_or_same (b name : list Z) : option nat :=
  find_from (fun j => (entry_inode b j =? 0) || bool_decide (minix_dirent_name b j = name)) 0 NUM_ENTRIES.

(** The zones of the directory from index [k] on, up to the first unused one:
    [Some] where the code returns. *)
Fixpoint add_in_zones (zs : list Z) (k : nat) (s : minix_state) (dir : minix_inode_t) (name : list Z) (inum : Z)
  : minix_state * option (minix_inode_t * Z) :=
  match zs with
  | [] => (s, None)
  | z :: zs' =>
      if decide (z = 0) then (s, None) else
      let '(s, r) := minix_read_block s z in
      match r with
      | inl _ => add_in_zones zs' (S k) s dir name inum
      | inr b =>
          match free_or_same b name with
          | None => add_in_zones zs' (S k) s dir name inum
          | Some j =>
              if decide (entry_inode b j <> 0) then (s, Some (dir, - EEXIST)) else
              let '(s, r) := minix_write_block s z (put_entry b j inum name) in
              if decide (r <> 0) then (s, Some (dir, - EIO)) else
              let entry_offset := Z.of_nat k * MINIX_BLOCK_SIZE + Z.of_nat j * sizeof_dir_entry in
              (s, Some (if decide (i_size dir < entry_offset + sizeof_dir_entry)
                        then set_size (entry_offset + sizeof_dir_entry) dir else dir, 0))
          end
      end
  end.

Definition minix_fs_add_dir_entry (s : minix_state) (dir : minix_inode_t) (name : list Z) (inum : Z)
  : outcome (minix_state * minix_inode_t * Z) :=
  if decide (inum = 0 \/ 65535 <= inum) then Ok (s, dir, - EINVAL)
  else if decide (length name = 0%nat \/ (MINIX_NAME_LEN < length name)%nat) then Ok (s, dir, - EINVAL)
  else
    let '(s, r) := add_in_zones (take MINIX_DIRECT_ZONES (i_zone dir)) 0 s dir name inum in
    match r with
    | Some (dir, code) => Ok (s, dir, code)
    | None =>
        match find_from (fun k => zone_of dir k =? 0) 0 MINIX_DIRECT_ZONES with
        | None => Ok (s, dir, - ENOSPC)
        | Some k =>
            '(s, new_zone) ← minix_alloc_zone s;
            if decide (new_zone = 0) then Ok (s, dir, - ENOSPC) else
            let '(s, r) := minix_write_block s new_zone (put_entry zero_block 0 inum name) in
            if decide (r <> 0) then s ← minix_free_zone s new_zone; Ok (s, dir, - EIO)
            else Ok (s, set_size ((Z.of_nat k + 1) * MINIX_BLOCK_SIZE) (set_zone k new_zone dir), 0)
        end
    end.

Definition no_entries (b : list Z) : bool :=
  match find_from (fun j => negb (entry_inode b j =? 0)) 0 NUM_ENTRIES with None => true | Some _ => false end.

Fixpoint remove_in_zones (zs : list Z) (s : minix_state) (dir : minix_inode_t) (name : list Z)
  : minix_state * minix_inode_t * Z :=
  match zs with
  | [] => (s, dir, - ENOENT)
  | z :: zs' =>
      if decide (z = 0) then remove_in_zones zs' s dir name else
      let '(s, r) := minix_read_block s z in
      match r with
      | inl _ => remove_in_zones zs' s dir name
      | inr b =>
          match find_entry b (take MINIX_NAME_LEN name) with
          | None => remove_in_zones zs' s dir name
          | Some j =>
              let b := put_entry b j 0 [] in
              let '(s, r) := minix_write_block s z b in
              if decide (r <> 0) then (s, dir, - EIO)
              else if decide (0 < i_size dir) then
                (s, if no_entries b then set_size (if decide (sizeof_dir_entry <= i_size dir) then i_size dir - sizeof_dir_entry else 0) dir
                    else dir, 0)
              else (s, dir, 0)
          end
      end
  end.

Definition minix_fs_remove_dir_entry (s : minix_state) (dir : minix_inode_t) (name : list Z) : minix_state * minix_inode_t * Z :=
  if decide (name = []) then (s, dir, - EINVAL) else remove_in_zones (take MINIX_DIRECT_ZONES (i_zone dir)) s dir name.
