(* ===== verification/MinixFile.v ===== *)
(** * The MINIX file system: zones and contents of a file (src/fs/minix_fs.c)

    An inode names its zones directly (seven of them), through one block of
    512 zone numbers, and through a block of 512 such blocks.  The functions
    here walk and change that tree, and read and write the bytes behind it.
    [off_t] values are signed, [size_t] sums wrap. *)

From S2P Require Import Prelude Bytes CString Perm Minix.

(** ** Freeing *)

Fixpoint free_listed (n : nat) (k : Z) (b : list Z) (f : minix_state -> Z -> outcome minix_state) (s : minix_state) : outcome minix_state :=
  match n with
  | O => Ok s
  | S n' =>
      s ← (if decide (list_zone b k <> 0) then f s (list_zone b k) else Ok s);
      free_listed n' (k + 1) b f s
  end.

Definition minix_inode_free_indirect_block (s : minix_state) (ind_zone : Z) : outcome minix_state :=
  if decide (ind_zone = 0) then Ok s else
  let '(s, r) := minix_read_block s ind_zone in
  s ← match r with inl _ => Ok s | inr b => free_listed 512 0 b minix_free_zone s end;
  minix_free_zone s ind_zone.

Fixpoint free_direct (n k : nat) (s : minix_state) (inode : minix_inode_t) : outcome (minix_state * minix_inode_t) :=
  match n with
  | O => Ok (s, inode)
  | S n' =>
      if decide (zone_of inode k <> 0) then
        s ← minix_free_zone s (zone_of inode k); free_direct n' (S k) s (set_zone k 0 inode)
      else free_direct n' (S k) s inode
  end.
Definition minix_inode_free_direct_zones : minix_state -> minix_inode_t -> outcome (minix_state * minix_inode_t) :=
  free_direct MINIX_DIRECT_ZONES 0.

Definition minix_inode_free_indirect_tree (s : minix_state) (inode : minix_inode_t) : outcome (minix_state * minix_inode_t) :=
  if decide (zone_of inode 7 = 0) then Ok (s, inode) else
  s ← minix_inode_free_indirect_block s (zone_of inode 7); Ok (s, set_zone 7 0 inode).

Definition minix_inode_free_double_indirect_tree (s : minix_state) (inode : minix_inode_t) : outcome (minix_state * minix_inode_t) :=
  if decide (zone_of inode 8 = 0) then Ok (s, inode) else
  let dind_zone := zone_of inode 8 in
  let '(s, r) := minix_read_block s dind_zone in
  s ← match r with inl _ => Ok s | inr b => free_listed 512 0 b minix_inode_free_indirect_block s end;
  s ← minix_free_zone s dind_zone;
  Ok (s, set_zone 8 0 inode).

Definition minix_inode_free_all_zones (s : minix_state) (inode : minix_inode_t) : outcome (minix_state * minix_inode_t) :=
  '(s, inode) ← minix_inode_free_direct_zones s inode;
  '(s, inode) ← minix_inode_free_indirect_tree s inode;
  minix_inode_free_double_indirect_tree s inode.

(** ** The zone behind an index *)

(** A zone to hold zone numbers, cleared on disk: its number, or the error. *)
Definition alloc_cleared (s : minix_state) : outcome (minix_state * (Z + Z)) :=
  '(s, z) ← minix_alloc_zone s;
  if decide (z = 0) then Ok (s, inl (- ENOSPC)) else
  let '(s, r) := minix_write_block s z zero_block in
  if decide (r <> 0) then s ← minix_free_zone s z; Ok (s, inl (- EIO)) else Ok (s, inr z).

(** The last step at every depth: entry [k] of the zone list [b] that lives in
    block [holder]. *)
Definition zone_in_list (s : minix_state) (holder : Z) (b : list Z) (k : Z) (allocate : bool) : outcome (minix_state * Z * Z) :=
  if decide (list_zone b k <> 0) then Ok (s, 0, list_zone b k)
  else if negb allocate then Ok (s, 0, 0)
  else
    '(s, new_zone) ← minix_alloc_zone s;
    if decide (new_zone = 0) then Ok (s, - ENOSPC, 0) else
    let b := put_zone b k new_zone in
    let '(s, r) := minix_write_block s holder b in
    if decide (r <> 0) then s ← minix_free_zone s new_zone; Ok (s, - EIO, 0) else Ok (s, 0, list_zone b k).

(** The block of zone numbers in slot [slot] of the inode: 7 or 8.  [inl] is
    the code to return at once. *)
Definition slot_block (s : minix_state) (inode : minix_inode_t) (slot : nat) (allocate : bool)
  : outcome (minix_state * minix_inode_t * (Z + Z * list Z)) :=
  if decide (zone_of inode slot = 0) then
    if negb allocate then Ok (s, inode, inl 0) else
    '(s, r) ← alloc_cleared s;
    match r with
    | inl e => Ok (s, inode, inl e)
    | inr z => Ok (s, set_zone slot z inode, inr (z, zero_block))
    end
  else
    let '(s, r) := minix_read_block s (zone_of inode slot) in
    match r with
    | inl _ => Ok (s, inode, inl (if allocate then - EIO else 0))
    | inr b => Ok (s, inode, inr (zone_of inode slot, b))
    end.

(** Entry [k] of the double-indirect block as a block of zone numbers. *)
Definition listed_block (s : minix_state) (holder : Z) (b : list Z) (k : Z) (allocate : bool)
  : outcome (minix_state * (Z + Z * list Z)) :=
  if decide (list_zone b k = 0) then
    if negb allocate then Ok (s, inl 0) else
    '(s, r) ← alloc_cleared s;
    match r with
    | inl e => Ok (s, inl e)
    | inr z =>
        let '(s, r) := minix_write_block s holder (put_zone b k z) in
        if decide (r <> 0) then s ← minix_free_zone s z; Ok (s, inl (- EIO)) else Ok (s, inr (z, zero_block))
    end
  else
    let '(s, r) := minix_read_block s (list_zone b k) in
    match r with
    | inl _ => Ok (s, inl (if allocate then - EIO else 0))
    | inr b' => Ok (s, inr (list_zone b k, b'))
    end.

(** State, inode, code and [*disk_zone]. *)
Definition minix_inode_zone_at (s : minix_state) (inode : minix_inode_t) (zone_idx : Z) (allocate : bool)
  : outcome (minix_state * minix_inode_t * Z * Z) :=
  if decide (zone_idx < 7) then
    let k := Z.to_nat zone_idx in
    if decide (zone_of inode k = 0) then
      if negb allocate then Ok (s, inode, 0, 0) else
      '(s, new_zone) ← minix_alloc_zone s;
      if decide (new_zone = 0) then Ok (s, inode, - ENOSPC, 0) else
      let inode := set_zone k new_zone inode in
      Ok (s, inode, 0, zone_of inode k)
    else Ok (s, inode, 0, zone_of inode k)
  else if decide (zone_idx < 7 + MINIX_INDIRECT_ZONES) then
    '(s, inode, r) ← slot_block s inode 7 allocate;
    match r with
    | inl e => Ok (s, inode, e, 0)
    | inr (z, b) => '(s, e, dz) ← zone_in_list s z b (zone_idx - 7) allocate; Ok (s, inode, e, dz)
    end
  else
    let rel := zone_idx - 7 - MINIX_INDIRECT_ZONES in
    if decide (MINIX_DINDIRECT_ZONES <= rel) then Ok (s, inode, - EFBIG, 0) else
    '(s, inode, r) ← slot_block s inode 8 allocate;
    match r with
    | inl e => Ok (s, inode, e, 0)
    | inr (z, b) =>
        '(s, r) ← listed_block s z b (rel / MINIX_INDIRECT_ZONES) allocate;
        match r with
        | inl e => Ok (s, inode, e, 0)
        | inr (z, b) => '(s, e, dz) ← zone_in_list s z b (rel mod MINIX_INDIRECT_ZONES) allocate; Ok (s, inode, e, dz)
        end
    end.

Definition minix_inode_resolve_zone := minix_inode_zone_at.

Definition minix_file_zone_count (file_size : Z) : Z :=
  if decide (file_size = 0) then 0 else (file_size + MINIX_BLOCK_SIZE - 1) / MINIX_BLOCK_SIZE.

(** ** Releasing a zone *)

Definition list_empty (b : list Z) : bool :=
  match find_from (fun k => negb (list_zone b (Z.of_nat k) =? 0)) 0 512 with None => true | Some _ => false end.

(** Clear entry [k] of the zone list in block [holder]; whether the list is
    empty now, [None] when it could not be read. *)
Definition clear_listed (s : minix_state) (holder : Z) (k : Z) : minix_state * option bool :=
  let '(s, r) := minix_read_block s holder in
  match r with
  | inl _ => (s, None)
  | inr b => let b := put_zone b k 0 in let '(s, _) := minix_write_block s holder b in (s, Some (list_empty b))
  end.

Definition drop_slot (s : minix_state) (inode : minix_inode_t) (inode_num : Z) (slot : nat) : outcome (minix_state * minix_inode_t) :=
  s ← minix_free_zone s (zone_of inode slot);
  let inode := set_zone slot 0 inode in
  let '(s, _) := minix_fs_write_inode s inode_num inode in
  Ok (s, inode).

Definition minix_inode_release_zone_at (s : minix_state) (inode : minix_inode_t) (inode_num zone_idx : Z)
  : outcome (minix_state * minix_inode_t) :=
  if decide (zone_idx < 7) then
    if decide (zone_of inode (Z.to_nat zone_idx) <> 0) then drop_slot s inode inode_num (Z.to_nat zone_idx) else Ok (s, inode)
  else
    '(s, inode, e, disk_zone) ← minix_inode_zone_at s inode zone_idx false;
    if decide (e <> 0) then Ok (s, inode) else
    if decide (disk_zone = 0) then Ok (s, inode) else
    s ← minix_free_zone s disk_zone;
    if decide (zone_idx < 7 + MINIX_INDIRECT_ZONES) then
      if decide (zone_of inode 7 = 0) then Ok (s, inode) else
      let '(s, r) := clear_listed s (zone_of inode 7) (zone_idx - 7) in
      match r with Some true => drop_slot s inode inode_num 7 | _ => Ok (s, inode) end
    else
      let rel := zone_idx - 7 - MINIX_INDIRECT_ZONES in
      if decide (zone_of inode 8 = 0) then Ok (s, inode) else
      let '(s, r) := minix_read_block s (zone_of inode 8) in
      match r with
      | inl _ => Ok (s, inode)
      | inr dind =>
          let ind_zone := list_zone dind (rel / MINIX_INDIRECT_ZONES) in
          if decide (ind_zone = 0) then Ok (s, inode) else
          let '(s, r) := clear_listed s ind_zone (rel mod MINIX_INDIRECT_ZONES) in
          match r with
          | Some true =>
              s ← minix_free_zone s ind_zone;
              let dind := put_zone dind (rel / MINIX_INDIRECT_ZONES) 0 in
              let '(s, _) := minix_write_block s (zone_of inode 8) dind in
              if list_empty dind then drop_slot s inode inode_num 8 else Ok (s, inode)
          | _ => Ok (s, inode)
          end
      end.

Fixpoint truncate_loop (n : nat) (zone_idx : Z) (s : minix_state) (inode : minix_inode_t) (inode_num : Z)
  : outcome (minix_state * minix_inode_t) :=
  match n with
  | O => Ok (s, inode)
  | S n' =>
      '(s, inode) ← minix_inode_release_zone_at s inode inode_num zone_idx;
      truncate_loop n' (zone_idx + 1) s inode inode_num
  end.

Definition minix_inode_truncate_zones (s : minix_state) (inode : minix_inode_t) (inode_num old_size new_size : Z)
  : outcome (minix_state * minix_inode_t) :=
  if decide (old_size <= new_size) then Ok (s, inode) else
  let old_zones := minix_file_zone_count old_size in
  let new_zones := minix_file_zone_count new_size in
  truncate_loop (Z.to_nat (old_zones - new_zones)) new_zones s inode inode_num.

(** ** Contents *)

(** The bytes of a block from [o] on replaced: what a partial write stores.  A
    block that cannot be read is taken as zeros. *)
Definition patched (s : minix_state) (z : Z) (o : nat) (w : list Z) : minix_state * list Z :=
  let '(s, r) := minix_read_block s z in
  (s, splice (match r with inl _ => zero_block | inr b => b end) o w).

(** Store [w] at [o] of the zone: a whole block is written without reading it. *)
Definition store_chunk (s : minix_state) (z : Z) (o : nat) (w : list Z) : minix_state * Z :=
  let '(s, b) := if decide (o = 0%nat /\ length w = 1024%nat) then (s, w) else patched s z o w in
  minix_write_block s z b.

Fixpoint zero_loop (fuel : nat) (s : minix_state) (inode : minix_inode_t) (pos end_ : Z) : outcome (minix_state * minix_inode_t * Z) :=
  if decide (end_ <= pos) then Ok (s, inode, 0) else
  match fuel with
  | O => UB
  | S fuel =>
      let block_off := pos mod MINIX_BLOCK_SIZE in
      let chunk := Z.min (MINIX_BLOCK_SIZE - block_off) (end_ - pos) in
      '(s, inode, e, disk_zone) ← minix_inode_resolve_zone s inode (pos / MINIX_BLOCK_SIZE) true;
      if decide (e <> 0) then Ok (s, inode, e) else
      let '(s, r) := store_chunk s disk_zone (Z.to_nat block_off) (replicate (Z.to_nat chunk) 0) in
      if decide (r <> 0) then Ok (s, inode, - EIO) else
      zero_loop fuel s inode (pos + chunk) end_
  end.

Definition minix_inode_zero_range (s : minix_state) (inode : minix_inode_t) (start end_ : Z) : outcome (minix_state * minix_inode_t * Z) :=
  zero_loop (Z.to_nat (end_ / MINIX_BLOCK_SIZE - start / MINIX_BLOCK_SIZE + 1)) s inode start end_.

(** The bytes are delivered only when the code is 0: after an error the
    caller's buffer holds a part of them. *)
Fixpoint read_loop (fuel : nat) (s : minix_state) (inode : minix_inode_t) (pos remaining : Z) (acc : list Z) : outcome (minix_state * Z * list Z) :=
  if decide (remaining <= 0) then Ok (s, 0, acc) else
  match fuel with
  | O => UB
  | S fuel =>
      let block_off := pos mod MINIX_BLOCK_SIZE in
      let chunk := Z.min (MINIX_BLOCK_SIZE - block_off) remaining in
      '(s, inode, e, disk_zone) ← minix_inode_zone_at s inode (pos / MINIX_BLOCK_SIZE) false;
      if decide (e <> 0) then Ok (s, e, acc) else
      if decide (disk_zone = 0) then
        read_loop fuel s inode (pos + chunk) (remaining - chunk) (acc ++ replicate (Z.to_nat chunk) 0)
      else
        let '(s, r) := minix_read_block s disk_zone in
        match r with
        | inl _ => Ok (s, - EIO, acc)
        | inr b =>
            read_loop fuel s inode (pos + chunk) (remaining - chunk) (acc ++ take (Z.to_nat chunk) (drop (Z.to_nat block_off) b))
        end
  end.

Definition minix_fs_pread_at (s : minix_state) (path : option (list Z)) (have_buf : bool) (count offset : Z)
  : outcome (minix_state * Z * list Z) :=
  match path with
  | None => Ok (s, - EINVAL, [])
  | Some path =>
      if negb (initialized s) then Ok (s, - EINVAL, []) else
      if decide (0 < count /\ have_buf = false) then Ok (s, - EINVAL, []) else
      if decide (count = 0) then Ok (s, 0, []) else
      if decide (offset < 0) then Ok (s, - EINVAL, []) else
      if negb (root_dev_present s) then Ok (s, - EIO, []) else
      '(s, inode_num) ← minix_fs_get_inode_number s path;
      if decide (inode_num = 0) then Ok (s, - ENOENT, []) else
      let '(s, r) := minix_read_inode s inode_num in
      match r with
      | inl _ => Ok (s, - EIO, [])
      | inr file_inode =>
          if is_dirbit file_inode then Ok (s, - EISDIR, []) else
          if decide (i_size file_inode <= offset) then Ok (s, 0, []) else
          let to_read := if decide (i_size file_inode < u64 (offset + count)) then i_size file_inode - offset else count in
          read_loop (Z.to_nat ((offset + to_read) / MINIX_BLOCK_SIZE - offset / MINIX_BLOCK_SIZE + 1)) s file_inode offset to_read []
      end
  end.

Fixpoint write_loop (fuel : nat) (s : minix_state) (inode : minix_inode_t) (pos : Z) (src : list Z) : outcome (minix_state * minix_inode_t * Z) :=
  if decide (src = []) then Ok (s, inode, 0) else
  match fuel with
  | O => UB
  | S fuel =>
      let block_off := pos mod MINIX_BLOCK_SIZE in
      let chunk := Z.min (MINIX_BLOCK_SIZE - block_off) (Z.of_nat (length src)) in
      '(s, inode, e, disk_zone) ← minix_inode_resolve_zone s inode (pos / MINIX_BLOCK_SIZE) true;
      if decide (e <> 0) then Ok (s, inode, e) else
      let '(s, r) := store_chunk s disk_zone (Z.to_nat block_off) (take (Z.to_nat chunk) src) in
      if decide (r <> 0) then Ok (s, inode, - EIO) else
      write_loop fuel s inode (pos + chunk) (drop (Z.to_nat chunk) src)
  end.

Definition minix_fs_pwrite_at (s : minix_state) (path : option (list Z)) (buf : option (list Z)) (count offset now : Z)
  : outcome (minix_state * Z * Z) :=
  match path with
  | None => Ok (s, - EINVAL, 0)
  | Some path =>
      if negb (initialized s) then Ok (s, - EINVAL, 0) else
      if decide (count = 0) then Ok (s, 0, 0) else
      match buf with
      | None => Ok (s, - EINVAL, 0)
      | Some src =>
          if decide (offset < 0) then Ok (s, - EINVAL, 0) else
          if negb (root_dev_present s) then Ok (s, - EIO, 0) else
          '(s, inode_num) ← minix_fs_get_inode_number s path;
          if decide (inode_num = 0) then Ok (s, - ENOENT, 0) else
          let '(s, r) := minix_read_inode s inode_num in
          match r with
          | inl _ => Ok (s, - EIO, 0)
          | inr file_inode =>
              if is_dirbit file_inode then Ok (s, - EISDIR, 0) else
              let new_size := Z.max (i_size file_inode) (u64 (offset + count)) in
              if decide (s_max_size (superblock s) < new_size) then Ok (s, - EFBIG, 0) else
              '(s, file_inode, e) ←
                (if decide (i_size file_inode < offset) then minix_inode_zero_range s file_inode (i_size file_inode) offset
                 else Ok (s, file_inode, 0));
              if decide (e <> 0) then Ok (s, e, 0) else
              src ← (if decide (count <= Z.of_nat (length src)) then Ok (take (Z.to_nat count) src) else UB);
              '(s, file_inode, e) ← write_loop (Z.to_nat ((offset + count) / MINIX_BLOCK_SIZE - offset / MINIX_BLOCK_SIZE + 1)) s file_inode offset src;
              if decide (e <> 0) then Ok (s, e, 0) else
              let file_inode := set_time now (set_size new_size file_inode) in
              let '(s, r) := minix_fs_write_inode s inode_num file_inode in
              if decide (r <> 0) then Ok (s, - EIO, 0) else
              let '(s, r) := minix_sync_zone_bitmap s in
              if decide (r <> 0) then Ok (s, - EIO, 0) else Ok (s, 0, count)
          end
      end
  end.

Definition minix_truncate (s : minix_state) (path : option (list Z)) (length now : Z) : outcome (minix_state * Z) :=
  match path with
  | None => Ok (s, - EIO)
  | Some path =>
      if negb (initialized s) then Ok (s, - EIO) else
      if decide (s_max_size (superblock s) < length) then Ok (s, - EFBIG) else
      '(s, r) ← minix_lookup s (Some path);
      match r with
      | inl _ => Ok (s, - ENOENT)
      | inr (inode, inode_num) =>
          if is_dirbit inode then Ok (s, - EISDIR) else
          let old_size := i_size inode in
          if decide (length = old_size) then Ok (s, 0) else
          if decide (old_size < length) then
            '(s, inode, e) ← minix_inode_zero_range s inode old_size length;
            if decide (e <> 0) then Ok (s, e) else
            let inode := set_time now (set_size length inode) in
            let '(s, r) := minix_fs_write_inode s inode_num inode in
            if decide (r <> 0) then Ok (s, - EIO) else
            let '(s, r) := minix_sync_zone_bitmap s in
            if decide (r <> 0) then Ok (s, - EIO) else Ok (s, 0)
          else
            '(s, r) ←
              (if decide (length = 0) then '(s, inode) ← minix_inode_free_all_zones s inode; Ok (s, Some inode)
               else
                 '(s, inode) ← minix_inode_truncate_zones s inode inode_num old_size length;
                 let '(s, r) := minix_read_inode s inode_num in
                 Ok (s, match r with inl _ => None | inr inode => Some inode end));
            match r with
            | None => Ok (s, - EIO)
            | Some inode =>
                let inode := set_time now (set_size length inode) in
                let '(s, r) := minix_fs_write_inode s inode_num inode in
                if decide (r <> 0) then Ok (s, - EIO) else
                let '(s, r) := minix_sync_zone_bitmap s in
                if decide (r <> 0) then Ok (s, - EIO) else Ok (s, 0)
            end
      end
  end.
