(* ===== verification/MinixOps.v ===== *)
(** * The MINIX file system: operations on paths (src/fs/minix_fs.c)

    Formatting, mounting, and the operations the virtual file system calls.
    Messages to the console and the log, [minix_fs_ls] and [minix_fs_cat] (which
    only print) are left out. *)

From S2P Require Import Prelude Bytes CString Perm Minix MinixFile.

Definition ENOTSUPP : Z := 524.
Definition DT_UNKNOWN : Z := 0.
Definition DT_DIR : Z := 4.
Definition DT_REG : Z := 8.
Definition DOT : list Z := [46].
Definition DOTDOT : list Z := [46; 46].

(** ** Formatting and mounting *)

Definition padded (w : list Z) : list Z := w ++ replicate (1024 - length w) 0.

Definition formatted_super : minix_superblock_t := Super 64 1024 1 1 5 0 1048576 MINIX_SUPER_MAGIC.
Definition root_mode : Z := Z.lor MINIX_IFDIR (Z.lor MINIX_IRWXU (Z.lor MINIX_IRGRP MINIX_IROTH)).
Definition formatted_root : minix_inode_t := MInode root_mode 0 32 0 0 2 (5 :: replicate 8 0).
Definition dot_block (self parent : Z) : list Z := put_entry (put_entry zero_block 0 self DOT) 1 parent DOTDOT.

(** [kmalloc] returns a cleared block, or halts when there is no memory. *)
Definition kmalloc_block (mem : bool) (n : nat) : outcome (list Z) := if mem then Ok (replicate n 0) else Panic "kmalloc".

Definition minix_fs_format (s : minix_state) (mem : bool) : outcome (minix_state * Z) :=
  let s := set_super formatted_super s in
  let '(s, r) := minix_write_block s 1 (padded (super_bytes formatted_super)) in
  if decide (r <> 0) then Ok (s, -1) else
  imap ← match inode_bitmap s with Some b => Ok b | None => kmalloc_block mem 1024 end;
  zmap ← match zone_bitmap s with Some b => Ok b | None => kmalloc_block mem 1024 end;
  let imap := 2 :: replicate 1023 0 in
  zmap ← (if decide (1024 <= length zmap)%nat then Ok (splice zmap 0 (replicate 1024 255)) else UB);
  let s := set_zmap zmap (zmap_dirty s) (zmap_search_start s) (set_imap imap s) in
  let '(s, r) := minix_write_block s 2 imap in
  if decide (r <> 0) then Ok (s, -1) else
  let '(s, r) := minix_write_block s 3 (take 1024 zmap) in
  if decide (r <> 0) then Ok (s, -1) else
  let '(s, r) := minix_fs_write_inode s MINIX_ROOT_INODE formatted_root in
  if decide (r <> 0) then Ok (s, -1) else
  let '(s, _) := minix_read_inode s MINIX_ROOT_INODE in
  let '(s, r) := minix_write_block s 5 (dot_block 1 1) in
  if decide (r <> 0) then Ok (s, -1) else
  let zmap := bitmap_clear zmap 5 in
  let s := set_zmap zmap (zmap_dirty s) (zmap_search_start s) s in
  let '(s, r) := minix_write_block s 2 imap in
  if decide (r <> 0) then Ok (s, -1) else
  let '(s, r) := minix_write_block s 3 (take 1024 zmap) in
  if decide (r <> 0) then Ok (s, -1) else
  Ok (set_initialized true s, 0).

Definition minix_fs_ensure_root_inode (s : minix_state) : minix_state * Z :=
  let '(s, r) := minix_read_inode s MINIX_ROOT_INODE in
  match r with
  | inl _ => (s, -1)
  | inr root =>
      if decide (Z.land (i_mode root) MINIX_IFMT = MINIX_IFDIR) then (s, 0) else
      let perms := Z.land (i_mode root) 0x1FF in
      let perms := if decide (perms = 0) then Z.lor MINIX_IRWXU (Z.lor MINIX_IRGRP MINIX_IROTH) else perms in
      let root := set_mode (Z.lor MINIX_IFDIR perms) root in
      let root := if decide (zone_of root 0 = 0) then set_zone 0 (s_firstdatazone (superblock s)) root else root in
      let root := if decide (i_nlinks root < 2) then set_nlinks 2 root else root in
      let root := if decide (i_size root = 0) then set_size (2 * sizeof_dir_entry) root else root in
      let '(s, r) := minix_fs_write_inode s MINIX_ROOT_INODE root in
      if decide (r <> 0) then (s, -1) else
      if decide (zone_of root 0 = 0) then (s, 0) else
      let '(s, r) := minix_read_block s (zone_of root 0) in
      match r with
      | inl _ => (s, 0)
      | inr b =>
          if decide (entry_inode b 0 = 0) then
            let '(s, r) := minix_write_block s (zone_of root 0) (put_entry (put_entry b 0 1 DOT) 1 1 DOTDOT) in
            (s, if decide (r <> 0) then -1 else 0)
          else (s, 0)
      end
  end.

Fixpoint read_zmap_loop (n : nat) (b : nat) (bm : list Z) (s : minix_state) : minix_state * option (list Z) :=
  match n with
  | O => (s, Some bm)
  | S n' =>
      let '(s, r) := minix_read_block s (2 + s_imap_blocks (superblock s) + Z.of_nat b) in
      match r with inl _ => (s, None) | inr d => read_zmap_loop n' (S b) (splice bm (1024 * b) d) s end
  end.

Definition minix_fs_init (s : minix_state) (mem : bool) : outcome (minix_state * Z) :=
  let '(s, r) := minix_read_block s 1 in
  match r with
  | inl _ => minix_fs_format s mem
  | inr b =>
      let s := set_super (super_at b) s in
      let sb := superblock s in
      if decide (s_magic sb <> MINIX_SUPER_MAGIC) then minix_fs_format s mem else
      if decide (s_imap_blocks sb = 0 \/ s_zmap_blocks sb = 0 \/ 256 < s_zmap_blocks sb \/ 16 < s_imap_blocks sb)
      then minix_fs_format s mem else
      imap ← match inode_bitmap s with Some b => Ok b | None => kmalloc_block mem 1024 end;
      zmap ← kmalloc_block mem (Z.to_nat (minix_zmap_bytes s));
      let s := set_zmap zmap (zmap_dirty s) (zmap_search_start s) (set_imap imap s) in
      let '(s, r) := minix_read_block s 2 in
      match r with
      | inl _ => minix_fs_format s mem
      | inr imap =>
          let s := set_imap imap s in
          let '(s, r) := read_zmap_loop (Z.to_nat (s_zmap_blocks sb)) 0 zmap s in
          match r with
          | None => minix_fs_format s mem
          | Some zmap =>
              let s := set_initialized true (set_zmap zmap false (s_firstdatazone sb) s) in
              let '(s, r) := minix_read_inode s MINIX_ROOT_INODE in
              if match r with inl _ => true | inr root => bool_decide (i_mode root = 0) end
              then minix_fs_format (set_initialized false s) mem else
              let '(s, r) := minix_fs_ensure_root_inode s in
              if decide (r <> 0) then minix_fs_format (set_initialized false s) mem else
              let '(s, r) := minix_read_inode s MINIX_ROOT_INODE in
              match r with
              | inl _ => minix_fs_format (set_initialized false s) mem
              | inr _ => Ok (s, 0)
              end
          end
      end
  end.

Definition minix_fs_is_working (s : minix_state) : bool := initialized s.
Definition minix_fs_is_available (s : minix_state) : bool := root_dev_present s.
Definition minix_fs_cleanup (s : minix_state) : minix_state := if initialized s then set_initialized false s else s.

Definition minix_mount (s : minix_state) (dir_name : option (list Z)) (mem : bool) : outcome (minix_state * Z) :=
  match dir_name with
  | None => Ok (s, - ENOTSUPP)
  | Some d =>
      if decide (d <> [SLASH]) then Ok (s, - ENOTSUPP) else
      if minix_fs_is_working s then Ok (s, 0) else
      '(s, r) ← minix_fs_init s mem;
      if decide (r <> 0) then Ok (s, r) else Ok (s, 0)
  end.

(** ** Creating *)

(** A new inode owned by the caller, [mode] cut by the umask. *)
Definition new_inode (type mode size time nlinks : Z) (zones : list Z) (current : option process_cred) : minix_inode_t :=
  let cr := ir0_current_cred current in
  MInode (u16 (Z.lor type (Z.land (Z.land mode (Z.lnot (umask cr))) 0x1FF))) (u16 (euid cr)) size (u32 time) (u8 (egid cr)) nlinks zones.

Definition blocked : list (list Z) := map bytes_of ["pid.new"; "pid"; "lock"; "stat.new"; "status.new"].

(** Undo of a failed [mkdir]: the zone and the inode go back. *)
Definition undo_mkdir (s : minix_state) (zone inum : Z) : outcome (minix_state * Z) :=
  s ← minix_free_zone s zone; '(s, _) ← minix_fs_free_inode s inum; Ok (s, - EIO).

Definition minix_fs_mkdir (s : minix_state) (path : option (list Z)) (mode now now' : Z) (current : option process_cred)
  : outcome (minix_state * Z) :=
  if negb (initialized s) then Ok (s, - ENODEV) else
  match path with
  | None | Some [] => Ok (s, - EINVAL)
  | Some path =>
      if decide (path = [SLASH]) then Ok (s, - EEXIST) else
      if negb (root_dev_present s) then Ok (s, - EIO) else
      '(rc_split, parent_path, dirname) ← minix_fs_split_path path;
      if decide (rc_split <> 0) then Ok (s, rc_split) else
      if decide (dirname ∈ blocked) then Ok (s, - EEXIST) else
      '(s, ok) ← minix_fs_find_inode s parent_path;
      if negb ok then Ok (s, - ENOENT) else
      let parent_inode := cached_result_inode s in
      if negb (is_dirbit parent_inode) then Ok (s, - ENOTDIR) else
      let '(s, existing_inode) := minix_fs_find_dir_entry s parent_inode dirname in
      '(s, parent_inode, e) ←
        (if decide (existing_inode = 0) then Ok (s, parent_inode, 0) else
         let '(s, r) := minix_read_inode s existing_inode in
         match r with
         | inr existing =>
             if decide (Z.land (i_mode existing) MINIX_IFMT = 0) then
               let '(s, parent_inode, r) := minix_fs_remove_dir_entry s parent_inode dirname in
               if decide (r <> 0) then Ok (s, parent_inode, - EIO) else
               '(s, _) ← minix_fs_free_inode s existing_inode; Ok (s, parent_inode, 0)
             else Ok (s, parent_inode, - EEXIST)
         | inl _ => Ok (s, parent_inode, - EEXIST)
         end);
      if decide (e <> 0) then Ok (s, e) else
      '(s, new_inode_num) ← minix_alloc_inode s;
      if decide (new_inode_num = 0) then Ok (s, - ENOSPC) else
      '(s, parent_inode_num) ← minix_fs_get_inode_number s parent_path;
      if decide (parent_inode_num = 0) then '(s, _) ← minix_fs_free_inode s new_inode_num; Ok (s, - EIO) else
      '(s, zone) ← minix_alloc_zone s;
      if decide (zone = 0) then '(s, _) ← minix_fs_free_inode s new_inode_num; Ok (s, - ENOSPC) else
      let inode := new_inode MINIX_IFDIR mode MINIX_BLOCK_SIZE now 2 (u16 zone :: replicate 8 0) current in
      let '(s, r) := minix_write_block s zone (dot_block new_inode_num parent_inode_num) in
      if decide (r <> 0) then undo_mkdir s zone new_inode_num else
      let '(s, r) := minix_fs_write_inode s new_inode_num inode in
      if decide (r <> 0) then undo_mkdir s zone new_inode_num else
      '(s, parent_inode, r) ← minix_fs_add_dir_entry s parent_inode dirname new_inode_num;
      if decide (r <> 0) then undo_mkdir s zone new_inode_num else
      let parent_inode := set_time now' (set_nlinks (i_nlinks parent_inode + 1) parent_inode) in
      let '(s, r) := minix_fs_write_inode s parent_inode_num parent_inode in
      if decide (r <> 0) then Ok (s, - EIO) else
      let '(s, r) := minix_sync_zone_bitmap s in
      Ok (s, if decide (r <> 0) then - EIO else 0)
  end.

(** The existing file of a [touch]: the time is stored into
    [cached_result_inode], which the second lookup then overwrites. *)
Definition touch_existing (s : minix_state) (path : list Z) (now : Z) : outcome (minix_state * Z) :=
  if is_dirbit (cached_result_inode s) then Ok (s, - EISDIR) else
  let s := set_cached (set_time now (cached_result_inode s)) s in
  '(s, inode_num) ← minix_fs_get_inode_number s path;
  if decide (inode_num = 0) then Ok (s, 0) else
  let '(s, _) := minix_fs_write_inode s inode_num (cached_result_inode s) in
  Ok (s, 0).

(** The undo of a failed [touch]: free the inode and write the bitmap again. *)
Definition undo_touch (s : minix_state) (inum : Z) : outcome (minix_state * Z) :=
  '(s, _) ← minix_fs_free_inode s inum; let '(s, _) := minix_sync_inode_bitmap s in Ok (s, - EIO).

(** [minix_fs_touch] from the allocation of the inode on. *)
Definition touch_new (s : minix_state) (parent filename : list Z) (parent_inode : minix_inode_t) (mode now now' : Z)
    (current : option process_cred) : outcome (minix_state * Z) :=
  '(s, new_inode_num) ← minix_alloc_inode s;
  if decide (new_inode_num = 0) then Ok (s, - ENOSPC) else
  let '(s, r) := minix_sync_inode_bitmap s in
  if decide (r <> 0) then '(s, _) ← minix_fs_free_inode s new_inode_num; Ok (s, - EIO) else
  let '(s, r) := minix_fs_write_inode s new_inode_num (new_inode MINIX_IFREG mode 0 now 1 (replicate 9 0) current) in
  if decide (r <> 0) then undo_touch s new_inode_num else
  '(s, parent_inode, r) ← minix_fs_add_dir_entry s parent_inode filename new_inode_num;
  if decide (r <> 0) then undo_touch s new_inode_num else
  let parent_inode := set_time now' parent_inode in
  '(s, parent_inode_num) ← minix_fs_get_inode_number s parent;
  if decide (parent_inode_num = 0) then Ok (s, 0) else
  let '(s, _) := minix_fs_write_inode s parent_inode_num parent_inode in
  Ok (s, 0).

Definition minix_fs_touch (s : minix_state) (path : option (list Z)) (mode now now' : Z) (current : option process_cred)
  : outcome (minix_state * Z) :=
  if negb (initialized s) then Ok (s, - ENODEV) else
  match path with
  | None | Some [] => Ok (s, - EINVAL)
  | Some path =>
      if decide (path = [SLASH]) then Ok (s, - EINVAL) else
      if negb (root_dev_present s) then Ok (s, - EIO) else
      '(s, exists_) ← minix_fs_find_inode s path;
      if (exists_ : bool) then touch_existing s path now else
      '(rc_split, parent_path, filename) ← minix_fs_split_path path;
      if decide (rc_split <> 0) then Ok (s, rc_split) else
      '(s, ok) ← minix_fs_find_inode s parent_path;
      if negb ok then Ok (s, - ENOENT) else
      let parent_inode := cached_result_inode s in
      if negb (is_dirbit parent_inode) then Ok (s, - ENOTDIR) else
      if decide (MINIX_NAME_LEN < length filename)%nat then Ok (s, - ENAMETOOLONG) else
      let '(s, existing) := minix_fs_find_dir_entry s parent_inode filename in
      if decide (existing <> 0) then Ok (s, - EEXIST) else
      touch_new s parent_path filename parent_inode mode now now' current
  end.

Definition minix_create := minix_fs_touch.

Definition minix_fs_write_file_len (s : minix_state) (path : option (list Z)) (content : option (list Z)) (content_size now now' : Z)
  (current : option process_cred) : outcome (minix_state * Z) :=
  if negb (initialized s) then Ok (s, -1) else
  match path with
  | None => Ok (s, -1)
  | Some path =>
      if decide (0 < content_size /\ content = None) then Ok (s, -1) else
      if negb (root_dev_present s) then Ok (s, - EIO) else
      '(s, inode_num) ← minix_fs_get_inode_number s path;
      '(s, inode_num) ←
        (if decide (inode_num <> 0) then Ok (s, inode_num) else
         '(s, r) ← minix_fs_touch s (Some path) 0x1A4 now now' current;
         if decide (r <> 0) then Ok (s, 0) else minix_fs_get_inode_number s path);
      if decide (inode_num = 0) then Ok (s, -1) else
      let '(s, r) := minix_read_inode s inode_num in
      match r with
      | inl _ => Ok (s, -1)
      | inr file_inode =>
          if is_dirbit file_inode then Ok (s, -1) else
          '(s, file_inode) ← minix_inode_free_all_zones s file_inode;
          let file_inode := set_size 0 file_inode in
          if decide (content_size = 0) then
            let '(s, r) := minix_fs_write_inode s inode_num (set_time now file_inode) in
            Ok (s, if decide (r <> 0) then -1 else 0)
          else
            let '(s, r) := minix_fs_write_inode s inode_num file_inode in
            if decide (r <> 0) then Ok (s, -1) else
            '(s, r, _) ← minix_fs_pwrite_at s (Some path) content content_size 0 now;
            Ok (s, if decide (r <> 0) then -1 else 0)
      end
  end.

Definition minix_fs_write_file (s : minix_state) (path content : option (list Z)) (now now' : Z) (current : option process_cred)
  : outcome (minix_state * Z) :=
  minix_fs_write_file_len s path content (match content with Some t => Z.of_nat (length t) | None => 0 end) now now' current.

(** ** Names *)

(** [minix_fs_rm] from the removal of the name on. *)
Definition rm_found (s : minix_state) (parent filename : list Z) (parent_inode file_inode : minix_inode_t) (file_inode_num : Z)
    : outcome (minix_state * Z) :=
  let '(s, parent_inode, r) := minix_fs_remove_dir_entry s parent_inode filename in
  if decide (r <> 0) then Ok (s, - EIO) else
  let file_inode := if decide (0 < i_nlinks file_inode) then set_nlinks (i_nlinks file_inode - 1) file_inode else file_inode in
  '(s, e) ←
    (if decide (i_nlinks file_inode = 0) then
       '(s, file_inode) ← minix_inode_truncate_zones s file_inode file_inode_num (i_size file_inode) 0;
       let '(s, r) := minix_fs_write_inode s file_inode_num (set_size 0 file_inode) in
       if decide (r <> 0) then Ok (s, - EIO) else
       '(s, r) ← minix_fs_free_inode s file_inode_num;
       Ok (s, if decide (r <> 0) then - EIO else 0)
     else
       let '(s, r) := minix_fs_write_inode s file_inode_num file_inode in
       Ok (s, if decide (r <> 0) then - EIO else 0));
  if decide (e <> 0) then Ok (s, e) else
  '(s, parent_inode_num) ← minix_fs_get_inode_number s parent;
  if decide (parent_inode_num = 0) then Ok (s, 0) else
  let '(s, r) := minix_fs_write_inode s parent_inode_num parent_inode in
  Ok (s, if decide (r <> 0) then - EIO else 0).

Definition minix_fs_rm (s : minix_state) (path : option (list Z)) : outcome (minix_state * Z) :=
  if negb (initialized s) then Ok (s, - ENODEV) else
  match path with
  | None | Some [] => Ok (s, - EINVAL)
  | Some path =>
      if decide (path = [SLASH]) then Ok (s, - EPERM) else
      '(s, file_inode_num) ← minix_fs_get_inode_number s path;
      if decide (file_inode_num = 0) then Ok (s, - ENOENT) else
      let '(s, r) := minix_read_inode s file_inode_num in
      match r with
      | inl _ => Ok (s, - EIO)
      | inr file_inode =>
          if is_dirbit file_inode then Ok (s, - EISDIR) else
          '(rc_split, parent_path, filename) ← minix_fs_split_path path;
          if decide (rc_split <> 0) then Ok (s, rc_split) else
          '(s, ok) ← minix_fs_find_inode s parent_path;
          if negb ok then Ok (s, - ENOENT) else
          rm_found s parent_path filename (cached_result_inode s) file_inode file_inode_num
      end
  end.

Definition minix_fs_link (s : minix_state) (oldpath newpath : option (list Z)) : outcome (minix_state * Z) :=
  if negb (initialized s) then Ok (s, - ENODEV) else
  match oldpath, newpath with
  | Some oldpath, Some newpath =>
      if decide (oldpath = [] \/ newpath = []) then Ok (s, - EINVAL) else
      '(s, ok) ← minix_fs_find_inode s oldpath;
      if negb ok then Ok (s, - ENOENT) else
      let old_inode := cached_result_inode s in
      if is_dirbit old_inode then Ok (s, - EPERM) else
      '(s, ok) ← minix_fs_find_inode s newpath;
      if (ok : bool) then Ok (s, - EEXIST) else
      '(s, old_inode_num) ← minix_fs_get_inode_number s oldpath;
      if decide (old_inode_num = 0) then Ok (s, - EIO) else
      '(rc_split, parent_path, filename) ← minix_fs_split_path newpath;
      if decide (rc_split <> 0) then Ok (s, rc_split) else
      '(s, ok) ← minix_fs_find_inode s parent_path;
      if negb ok then Ok (s, - ENOENT) else
      let parent_inode := cached_result_inode s in
      if negb (is_dirbit parent_inode) then Ok (s, - ENOTDIR) else
      '(s, parent_inode, r) ← minix_fs_add_dir_entry s parent_inode filename old_inode_num;
      if decide (r <> 0) then Ok (s, - EIO) else
      let '(s, r) := minix_fs_write_inode s old_inode_num (set_nlinks (i_nlinks old_inode + 1) old_inode) in
      if decide (r <> 0) then Ok (s, - EIO) else
      '(s, parent_inode_num) ← minix_fs_get_inode_number s parent_path;
      if decide (parent_inode_num = 0) then Ok (s, 0) else
      let '(s, _) := minix_fs_write_inode s parent_inode_num parent_inode in
      Ok (s, 0)
  | _, _ => Ok (s, - EINVAL)
  end.

(** Whether only "." and ".." are left; [None] when a block cannot be read. *)
Fixpoint dir_is_empty (zs : list Z) (s : minix_state) : minix_state * option bool :=
  match zs with
  | [] => (s, Some true)
  | z :: zs' =>
      if decide (z = 0) then dir_is_empty zs' s else
      let '(s, r) := minix_read_block s z in
      match r with
      | inl _ => (s, None)
      | inr b =>
          match find_from (fun j => negb (entry_inode b j =? 0) &&
                             bool_decide (minix_dirent_name b j <> DOT /\ minix_dirent_name b j <> DOTDOT)) 0 NUM_ENTRIES with
          | Some _ => (s, Some false)
          | None => dir_is_empty zs' s
          end
      end
  end.

(** The part [minix_fs_rmdir] and [minix_fs_rmdir_force] share: unlink the
    name, free the zones and the inode, update the parent.  [fail] maps the error
    of each step to the code returned, [last] that of the final write. *)
Definition remove_dir (s : minix_state) (path : list Z) (dir_inode_num : Z) (dir_inode : minix_inode_t) (now : Z)
  (fail : Z -> Z) (last : Z) : outcome (minix_state * Z) :=
  '(rc_split, parent_path, dirname) ← minix_fs_split_path path;
  if decide (rc_split <> 0) then Ok (s, rc_split) else
  '(s, ok) ← minix_fs_find_inode s parent_path;
  if negb ok then Ok (s, fail (- ENOENT)) else
  let '(s, parent_inode, r) := minix_fs_remove_dir_entry s (cached_result_inode s) dirname in
  if decide (r <> 0) then Ok (s, fail (- EIO)) else
  '(s, _) ← free_direct MINIX_DIRECT_ZONES 0 s dir_inode;
  '(s, r) ← minix_fs_free_inode s dir_inode_num;
  if decide (r <> 0) then Ok (s, fail (- EIO)) else
  '(s, parent_inode_num) ← minix_fs_get_inode_number s parent_path;
  if decide (parent_inode_num = 0) then Ok (s, 0) else
  let parent_inode := if decide (2 < i_nlinks parent_inode) then set_nlinks (i_nlinks parent_inode - 1) parent_inode else parent_inode in
  let '(s, r) := minix_fs_write_inode s parent_inode_num (set_time now parent_inode) in
  Ok (s, if decide (r <> 0) then last else 0).

Definition minix_fs_rmdir (s : minix_state) (path : option (list Z)) (now : Z) : outcome (minix_state * Z) :=
  if negb (initialized s) then Ok (s, - ENODEV) else
  match path with
  | None | Some [] => Ok (s, - EINVAL)
  | Some path =>
      if decide (path = [SLASH]) then Ok (s, - EPERM) else
      '(s, dir_inode_num) ← minix_fs_get_inode_number s path;
      if decide (dir_inode_num = 0) then Ok (s, - ENOENT) else
      let '(s, r) := minix_read_inode s dir_inode_num in
      match r with
      | inl _ => Ok (s, - EIO)
      | inr dir_inode =>
          if negb (is_dirbit dir_inode) then Ok (s, - ENOTDIR) else
          let '(s, r) := dir_is_empty (take MINIX_DIRECT_ZONES (i_zone dir_inode)) s in
          match r with
          | None => Ok (s, - EIO)
          | Some false => Ok (s, - ENOTEMPTY)
          | Some true => remove_dir s path dir_inode_num dir_inode now (fun e => e) (- EIO)
          end
      end
  end.

Definition minix_fs_rmdir_force (s : minix_state) (path : option (list Z)) (now : Z) : outcome (minix_state * Z) :=
  if negb (initialized s) then Ok (s, -1) else
  match path with
  | None | Some [] => Ok (s, -1)
  | Some path =>
      if decide (path = [SLASH]) then Ok (s, -1) else
      '(s, dir_inode_num) ← minix_fs_get_inode_number s path;
      if decide (dir_inode_num = 0) then Ok (s, -1) else
      let '(s, r) := minix_read_inode s dir_inode_num in
      match r with
      | inl _ => Ok (s, -1)
      | inr dir_inode =>
          if negb (is_dirbit dir_inode) then Ok (s, -1) else remove_dir s path dir_inode_num dir_inode now (fun _ => -1) 0
      end
  end.

(** ** Reading *)

(** Append the blocks of the zones that are not holes until [size] bytes are
    there. *)
Fixpoint read_zones (zs : list Z) (s : minix_state) (size : Z) (acc : list Z) : minix_state * option (list Z) :=
  match zs with
  | [] => (s, Some acc)
  | z :: zs' =>
      if decide (size <= Z.of_nat (length acc)) then (s, Some acc) else
      if decide (z = 0) then read_zones zs' s size acc else
      let '(s, r) := minix_read_block s z in
      match r with
      | inl _ => (s, None)
      | inr b => read_zones zs' s size (acc ++ take (Z.to_nat (Z.min (size - Z.of_nat (length acc)) MINIX_BLOCK_SIZE)) b)
      end
  end.

Definition listed_zones (b : list Z) : list Z := map (fun k => list_zone b (Z.of_nat k)) (seq 0 512).

Definition read_ind_block (s : minix_state) (z size : Z) (acc : list Z) : minix_state * option (list Z) :=
  let '(s, r) := minix_read_block s z in
  match r with inl _ => (s, None) | inr b => read_zones (listed_zones b) s size acc end.

Fixpoint read_dind (zs : list Z) (s : minix_state) (size : Z) (acc : list Z) : minix_state * option (list Z) :=
  match zs with
  | [] => (s, Some acc)
  | z :: zs' =>
      if decide (size <= Z.of_nat (length acc)) then (s, Some acc) else
      if decide (z = 0) then read_dind zs' s size acc else
      let '(s, r) := read_ind_block s z size acc in
      match r with None => (s, None) | Some acc => read_dind zs' s size acc end
  end.

(** [mem]: whether [kmalloc_try] found room. *)
Definition minix_fs_read_file (s : minix_state) (path : option (list Z)) (mem : bool) : outcome (minix_state * Z * list Z) :=
  match path with
  | None => Ok (s, - EINVAL, [])
  | Some path =>
      '(s, r) ← minix_lookup s (Some path);
      match r with
      | inl e => Ok (s, e, [])
      | inr (inode, inode_num) =>
          if decide (inode_num = 0) then Ok (s, - ENOENT, []) else
          if negb (flag_set (i_mode inode) MINIX_IFREG) then Ok (s, - EINVAL, []) else
          let size := i_size inode in
          if decide (size = 0) then Ok (s, 0, []) else
          if decide (67108864 < size) then Ok (s, - EFBIG, []) else
          if negb mem then Ok (s, - ENOMEM, []) else
          let '(s, r) := read_zones (take MINIX_DIRECT_ZONES (i_zone inode)) s size [] in
          match r with
          | None => Ok (s, - EIO, [])
          | Some acc =>
              let '(s, r) := if decide (Z.of_nat (length acc) < size /\ zone_of inode 7 <> 0)
                             then read_ind_block s (zone_of inode 7) size acc else (s, Some acc) in
              match r with
              | None => Ok (s, - EIO, [])
              | Some acc =>
                  let '(s, r) :=
                    if decide (Z.of_nat (length acc) < size /\ zone_of inode 8 <> 0) then
                      let '(s, r) := minix_read_block s (zone_of inode 8) in
                      match r with inl _ => (s, None) | inr b => read_dind (listed_zones b) s size acc end
                    else (s, Some acc) in
                  match r with
                  | None => Ok (s, - EIO, [])
                  | Some acc => if decide (Z.of_nat (length acc) < size) then Ok (s, - EFBIG, []) else Ok (s, 0, acc)
                  end
              end
          end
      end
  end.

Definition minix_fs_read_file_wrapper (s : minix_state) (path : option (list Z)) (have_buf : bool) (count offset : Z)
  : outcome (minix_state * Z * list Z) :=
  if decide (offset < 0) then Ok (s, - EINVAL, []) else minix_fs_pread_at s path have_buf count offset.

Definition minix_fs_write_file_wrapper := minix_fs_pwrite_at.

Definition count_free_inodes (s : minix_state) (bm : list Z) : Z :=
  Z.of_nat (count_upto (fun i => negb (bitmap_test bm (S i))) (Z.to_nat (Z.min (s_ninodes (superblock s)) (MINIX_MAX_INODES - 1)))).

Fixpoint count_free_zones (n : nat) (z : Z) (s : minix_state) : outcome Z :=
  match n with
  | O => Ok 0
  | S n' => f ← minix_is_zone_free s z; k ← count_free_zones n' (z + 1) s; Ok (k + if (f : bool) then 1 else 0)
  end.

Record ir0_statfs := { f_blocks : Z; f_bfree : Z; f_files : Z; f_ffree : Z }.

Definition minix_fs_statfs (s : minix_state) (have_buf : bool) : outcome (Z * option ir0_statfs) :=
  if negb have_buf then Ok (- EINVAL, None) else
  match zone_bitmap s with
  | None => Ok (- ENODEV, None)
  | Some _ =>
      if negb (initialized s) then Ok (- ENODEV, None) else
      let first := s_firstdatazone (superblock s) in
      let limit := Z.min (s_nzones (superblock s)) MINIX_MAX_ZONES in
      if decide (limit <= first) then Ok (- EINVAL, None) else
      free_z ← count_free_zones (Z.to_nat (limit - first)) first s;
      bm ← or_ub (inode_bitmap s);
      Ok (0, Some {| f_blocks := limit - first; f_bfree := free_z; f_files := s_ninodes (superblock s);
                     f_ffree := count_free_inodes s bm |})
  end.

Record minix_stat_t := { st_ino : Z; st_nlink : Z; st_uid : Z; st_gid : Z; st_size : Z; st_blocks : Z; st_mtime : Z; st_mode : Z }.

Definition minix_fs_stat (s : minix_state) (pathname : option (list Z)) (have_buf : bool) : outcome (minix_state * Z * option minix_stat_t) :=
  if negb (initialized s) then Ok (s, - ENODEV, None) else
  match pathname with
  | None => Ok (s, - EINVAL, None)
  | Some pathname =>
      if negb have_buf then Ok (s, - EINVAL, None) else
      '(s, r) ← minix_lookup s (Some pathname);
      match r with
      | inl e => Ok (s, e, None)
      | inr (inode, inode_num) =>
          if decide (Z.land (i_mode inode) MINIX_IFMT = 0) then Ok (s, - ENOENT, None) else
          Ok (s, 0, Some {| st_ino := inode_num; st_nlink := i_nlinks inode; st_uid := i_uid inode; st_gid := i_gid inode;
                            st_size := i_size inode; st_blocks := (i_size inode + 511) / 512; st_mtime := i_time inode;
                            st_mode := i_mode inode |})
      end
  end.

Definition minix_is_dir (n : minix_inode_t) : bool := bool_decide (Z.land (i_mode n) MINIX_IFMT = MINIX_IFDIR).
Definition minix_is_reg (n : minix_inode_t) : bool := bool_decide (Z.land (i_mode n) MINIX_IFMT = MINIX_IFREG).

(** Entries [j], ... of one block, at most [room] of them. *)
Fixpoint readdir_block (n j : nat) (b : list Z) (s : minix_state) (room : Z) : minix_state * list (list Z * Z) :=
  match n with
  | O => (s, [])
  | S n' =>
      if decide (room <= 0) then (s, []) else
      if decide (entry_inode b j = 0 \/ byte_at b (16 * j + 2) <= 32) then readdir_block n' (S j) b s room else
      let '(s, r) := minix_read_inode s (entry_inode b j) in
      let type := match r with
                  | inl _ => DT_UNKNOWN
                  | inr t => if minix_is_dir t then DT_DIR else if minix_is_reg t then DT_REG else DT_UNKNOWN
                  end in
      let '(s, rest) := readdir_block n' (S j) b s (room - 1) in
      (s, (minix_dirent_name b j, type) :: rest)
  end.

Fixpoint readdir_zones (zs : list Z) (s : minix_state) (room : Z) : minix_state * list (list Z * Z) :=
  match zs with
  | [] => (s, [])
  | z :: zs' =>
      if decide (room <= 0) then (s, []) else
      if decide (z = 0) then readdir_zones zs' s room else
      let '(s, r) := minix_read_block s z in
      match r with
      | inl _ => readdir_zones zs' s room
      | inr b =>
          let '(s, l) := readdir_block NUM_ENTRIES 0 b s room in
          let '(s, l') := readdir_zones zs' s (room - Z.of_nat (length l)) in
          (s, l ++ l')
      end
  end.

Definition minix_fs_readdir (s : minix_state) (path : list Z) (max_entries : Z) : outcome (minix_state * Z * list (list Z * Z)) :=
  '(s, ok) ← minix_fs_find_inode s path;
  if negb ok then Ok (s, - ENOENT, []) else
  let dir_inode := cached_result_inode s in
  if negb (minix_is_dir dir_inode) then Ok (s, - ENOTDIR, []) else
  let '(s, l) := readdir_zones (take MINIX_DIRECT_ZONES (i_zone dir_inode)) s max_entries in
  Ok (s, Z.of_nat (length l), l).

(** ** Attributes *)

Definition UID_NONE : Z := 0xFFFFFFFF.

Definition minix_fs_chown (s : minix_state) (path : option (list Z)) (owner group : Z) (current : option process_cred)
  : outcome (minix_state * Z) :=
  '(s, r) ← minix_lookup s path;
  match r with
  | inl e => Ok (s, e)
  | inr (inode, inode_num) =>
      if negb (ir0_cred_is_root current) then Ok (s, - EPERM) else
      let u := if decide (owner <> UID_NONE) then owner else i_uid inode in
      let g := if decide (group <> UID_NONE) then group else i_gid inode in
      Ok (minix_fs_write_inode s inode_num (set_ids u g inode))
  end.

Definition owner_or_root (current : option process_cred) (inode : minix_inode_t) : bool :=
  ir0_cred_is_root current || bool_decide (euid (ir0_current_cred current) = i_uid inode).

Definition minix_fs_utimens (s : minix_state) (path : option (list Z)) (mtime : option Z) (now : Z) (current : option process_cred)
  : outcome (minix_state * Z) :=
  '(s, r) ← minix_lookup s path;
  match r with
  | inl e => Ok (s, e)
  | inr (inode, inode_num) =>
      if negb (owner_or_root current inode) then Ok (s, - EPERM) else
      Ok (minix_fs_write_inode s inode_num (set_time (default now mtime) inode))
  end.

Definition minix_fs_chmod (s : minix_state) (path : option (list Z)) (mode : Z) (current : option process_cred)
  : outcome (minix_state * Z) :=
  '(s, r) ← minix_lookup s path;
  match r with
  | inl e => Ok (s, e)
  | inr (inode, inode_num) =>
      if negb (owner_or_root current inode) then Ok (s, - EPERM) else
      Ok (minix_fs_write_inode s inode_num (set_mode (Z.lor (Z.land (i_mode inode) 0xF000) (Z.land mode 0xFFF)) inode))
  end.
