(* ===== verification/MinixZones.v ===== *)
(** * MINIX volumes: encodings, requests and the zone bitmap

    Buffers decode to what was encoded into them; on a volume whose requests
    succeed a block reads back as it was written; the zone bitmap is a set of
    free zones. *)

From S2P Require Import Prelude Bytes CString Perm Minix.

(** ** Encodings *)

Definition blockish (b : list Z) : Prop := length b = 1024%nat /\ bytes b.

Lemma byte_at_range b i : bytes b -> 0 <= byte_at b i < 256.
Proof.
  intros Hb. unfold byte_at. destruct (b !! i) as [c|] eqn:E; [|cbn; lia].
  cbn. apply (Forall_lookup_1 _ _ _ _ Hb) in E. lia.
Qed.

Lemma get16_range b i : bytes b -> 0 <= get16 b i < 65536.
Proof. intros Hb. unfold get16. pose proof (byte_at_range b i Hb). pose proof (byte_at_range b (i + 1) Hb). lia. Qed.

Lemma get32_range b i : bytes b -> 0 <= get32 b i < 4294967296.
Proof. intros Hb. unfold get32. pose proof (get16_range b i Hb). pose proof (get16_range b (i + 2) Hb). lia. Qed.

Lemma u8_range v : 0 <= u8 v <= 255.
Proof. unfold u8. change (2 ^ 8) with 256. pose proof (Z.mod_pos_bound v 256 ltac:(lia)). lia. Qed.

Lemma bytes_le16 v : bytes (le16 v).
Proof. unfold bytes. repeat constructor; apply u8_range. Qed.

Lemma bytes_app a b : bytes (a ++ b) <-> bytes a /\ bytes b.
Proof. apply Forall_app. Qed.

Lemma bytes_le32 v : bytes (le32 v).
Proof. unfold le32. apply bytes_app. split; apply bytes_le16. Qed.

Lemma bytes_replicate n c : 0 <= c <= 255 -> bytes (replicate n c).
Proof. intros. by apply Forall_replicate. Qed.

Lemma bytes_take n b : bytes b -> bytes (take n b).
Proof. apply Forall_take. Qed.

Lemma bytes_drop n b : bytes b -> bytes (drop n b).
Proof. apply Forall_drop. Qed.

Lemma bytes_splice b i w : bytes b -> bytes w -> bytes (splice b i w).
Proof. intros. unfold splice. rewrite !bytes_app. auto using bytes_take, bytes_drop. Qed.

Lemma blockish_splice b i w : blockish b -> bytes w -> (i + length w <= 1024)%nat -> blockish (splice b i w).
Proof. intros [Hl Hb] Hw Hi. split; [rewrite length_splice; lia|by apply bytes_splice]. Qed.

Lemma blockish_zero : blockish zero_block.
Proof. split; [apply length_replicate|apply bytes_replicate; lia]. Qed.

#[export] Hint Resolve bytes_le16 bytes_le32 bytes_take bytes_drop bytes_splice blockish_splice blockish_zero : ir0.

Lemma byte_at_splice b i w j : (i + length w <= length b)%nat ->
  byte_at (splice b i w) j = if decide (i <= j < i + length w)%nat then byte_at w (j - i) else byte_at b j.
Proof.
  intros Hi. unfold byte_at. rewrite lookup_splice by done. by case_decide.
Qed.

Lemma byte_at_app_l a b i : (i < length a)%nat -> byte_at (a ++ b) i = byte_at a i.
Proof. intros. unfold byte_at. by rewrite lookup_app_l. Qed.

Lemma byte_at_app_r a b i : byte_at (a ++ b) (length a + i) = byte_at b i.
Proof. unfold byte_at. rewrite lookup_app_r by lia. by replace (length a + i - length a)%nat with i by lia. Qed.

Lemma get16_app_r a b i : get16 (a ++ b) (length a + i) = get16 b i.
Proof. unfold get16. rewrite <- Nat.add_assoc, !byte_at_app_r. done. Qed.

Lemma get16_app_l a b i : (i + 1 < length a)%nat -> get16 (a ++ b) i = get16 a i.
Proof. intros. unfold get16. rewrite !byte_at_app_l by lia. done. Qed.

Lemma get16_le16 v w : get16 (le16 v ++ w) 0 = u16 v.
Proof.
  unfold get16, byte_at, le16, u8, u16. cbn [lookup list_lookup app Nat.add default from_option id]. change (2 ^ 8) with 256. change (2 ^ 16) with 65536. Z.to_euclidean_division_equations. lia.
Qed.

Lemma get16_splice_other b i w j : (i + length w <= length b)%nat -> (j + 2 <= i \/ i + length w <= j)%nat ->
  get16 (splice b i w) j = get16 b j.
Proof. intros Hi Hj. unfold get16. rewrite !byte_at_splice by done. rewrite !decide_False by lia. done. Qed.

Lemma get16_splice_in b i w j : (i + length w <= length b)%nat -> (j + 1 < length w)%nat ->
  get16 (splice b i w) (i + j) = get16 w j.
Proof.
  intros Hi Hj. unfold get16. rewrite !byte_at_splice by done. rewrite !decide_True by lia.
  f_equal; [f_equal; lia|do 2 f_equal; lia].
Qed.

Lemma get32_splice_in b i w j : (i + length w <= length b)%nat -> (j + 3 < length w)%nat ->
  get32 (splice b i w) (i + j) = get32 w j.
Proof. intros. unfold get32. rewrite <- Nat.add_assoc, !get16_splice_in by lia. done. Qed.

Lemma byte_at_splice_in b i w j : (i + length w <= length b)%nat -> (j < length w)%nat ->
  byte_at (splice b i w) (i + j) = byte_at w j.
Proof. intros. rewrite byte_at_splice by done. rewrite decide_True by lia. f_equal. lia. Qed.

Lemma get16_put b i v : (i + 2 <= length b)%nat -> get16 (splice b i (le16 v)) i = u16 v.
Proof.
  intros. replace i with (i + 0)%nat at 2 by lia. rewrite get16_splice_in by (cbn; lia).
  rewrite <- (app_nil_r (le16 v)). apply get16_le16.
Qed.

(** ** Inodes in their block *)

Definition inode_wf (n : minix_inode_t) : Prop :=
  0 <= i_mode n < 65536 /\ 0 <= i_uid n < 65536 /\ 0 <= i_size n < 4294967296 /\ 0 <= i_time n < 4294967296 /\
  0 <= i_gid n < 256 /\ 0 <= i_nlinks n < 256 /\ length (i_zone n) = 9%nat /\ Forall (fun z => 0 <= z < 65536) (i_zone n).

Lemma length_inode_bytes n : length (i_zone n) = 9%nat -> length (inode_bytes n) = 32%nat.
Proof.
  intros H. unfold inode_bytes. rewrite !length_app. cbn [length le16 le32 app].
  assert (forall l : list Z, length (concat (map le16 l)) = (2 * length l)%nat) as Hc
    by (induction l as [|a l IH]; [done|cbn [map concat]; rewrite length_app, IH; cbn; lia]).
  rewrite Hc, H. done.
Qed.

Lemma bytes_inode_bytes n : bytes (inode_bytes n).
Proof.
  unfold inode_bytes. rewrite !bytes_app. splits; auto with ir0.
  - repeat constructor; apply u8_range.
  - induction (i_zone n) as [|z l IH]; [constructor|]. cbn [map concat]. apply bytes_app. auto with ir0.
Qed.

Lemma get16_zones l k : (k < length l)%nat -> get16 (concat (map le16 l)) (2 * k) = u16 (default 0 (l !! k)).
Proof.
  revert k. induction l as [|z l IH]; intros k Hk; [cbn in Hk; lia|]. cbn [map concat].
  destruct k as [|k]; [apply get16_le16|]. replace (2 * S k)%nat with (length (le16 z) + 2 * k)%nat by (cbn; lia).
  rewrite get16_app_r. apply IH. cbn in Hk. lia.
Qed.

Lemma u16_id v : 0 <= v < 65536 -> u16 v = v.
Proof. intros. apply Z.mod_small. lia. Qed.
Lemma u32_id v : 0 <= v < 4294967296 -> u32 v = v.
Proof. intros. apply Z.mod_small. lia. Qed.
Lemma u8_small v : 0 <= v < 256 -> u8 v = v.
Proof. intros. apply Z.mod_small. lia. Qed.

Lemma get32_le32 a v w i : length a = i -> get32 (a ++ le32 v ++ w) i = u32 v.
Proof.
  intros <-. unfold get32, le32. rewrite <- !app_assoc. rewrite <- (Nat.add_0_r (length a)) at 1.
  rewrite !get16_app_r. change 2%nat with (length (le16 v) + 0)%nat at 1. rewrite get16_app_r, !get16_le16.
  unfold u16, u32. change (2 ^ 16) with 65536. change (2 ^ 32) with 4294967296. Z.to_euclidean_division_equations. lia.
Qed.

Lemma get16_at a v w i : length a = i -> get16 (a ++ le16 v ++ w) i = u16 v.
Proof. intros <-. rewrite <- (Nat.add_0_r (length a)), get16_app_r. apply get16_le16. Qed.

(** An inode reads back as it was stored. *)
Lemma inode_at_bytes n : inode_wf n -> inode_at (inode_bytes n) 0 = n.
Proof.
  intros (H1 & H2 & H3 & H4 & H5 & H6 & H7 & H8). destruct n as [m u sz t g l zs]. cbn [i_mode i_uid i_size i_time i_gid i_nlinks i_zone] in *.
  unfold inode_at, inode_bytes. cbn [i_mode i_uid i_size i_time i_gid i_nlinks i_zone Nat.add].
  set (zb := concat (map le16 zs)).
  assert (Hz : map (fun k => get16 (le16 m ++ le16 u ++ le32 sz ++ le32 t ++ [u8 g; u8 l] ++ zb) (14 + 2 * k)) (seq 0 9) = zs).
  { apply list_eq. intros k. rewrite list_lookup_fmap. destruct (decide (k < 9)%nat) as [Hk|Hk].
    - rewrite lookup_seq_lt by lia. cbn [fmap option_fmap option_map Nat.add].
      destruct (zs !! k) as [z|] eqn:Ez; [|apply lookup_ge_None in Ez; lia].
      replace (le16 m ++ le16 u ++ le32 sz ++ le32 t ++ [u8 g; u8 l] ++ zb)
        with ((le16 m ++ le16 u ++ le32 sz ++ le32 t ++ [u8 g; u8 l]) ++ zb) by (by rewrite <- !app_assoc).
      replace (S (S (S (S (S (S (S (S (S (S (S (S (S (S (2 * k)))))))))))))))%nat
        with (length (le16 m ++ le16 u ++ le32 sz ++ le32 t ++ [u8 g; u8 l]) + 2 * k)%nat by (cbn; lia).
      rewrite get16_app_r. unfold zb. rewrite get16_zones by lia. rewrite Ez. cbn. f_equal. apply u16_id.
      by apply (Forall_lookup_1 _ _ _ _ H8) in Ez.
    - rewrite lookup_seq_ge by lia. symmetry. apply lookup_ge_None. lia. }
  f_equal; [| | | | | |exact Hz].
  - rewrite get16_le16. by apply u16_id.
  - rewrite (get16_at (le16 m)) by done. by apply u16_id.
  - replace (le16 m ++ le16 u ++ le32 sz ++ le32 t ++ [u8 g; u8 l] ++ zb)
      with ((le16 m ++ le16 u) ++ le32 sz ++ le32 t ++ [u8 g; u8 l] ++ zb) by (by rewrite <- !app_assoc).
    rewrite (get32_le32 (le16 m ++ le16 u)) by done. by apply u32_id.
  - replace (le16 m ++ le16 u ++ le32 sz ++ le32 t ++ [u8 g; u8 l] ++ zb)
      with ((le16 m ++ le16 u ++ le32 sz) ++ le32 t ++ [u8 g; u8 l] ++ zb) by (by rewrite <- !app_assoc).
    rewrite (get32_le32 (le16 m ++ le16 u ++ le32 sz)) by done. by apply u32_id.
  - cbn. by apply u8_small.
  - cbn. by apply u8_small.
Qed.

Lemma inode_at_splice b o n : (o + 32 <= length b)%nat -> inode_wf n -> inode_at (splice b o (inode_bytes n)) o = n.
Proof.
  intros Ho Hw. rewrite <- (inode_at_bytes n Hw) at 2. destruct Hw as (_ & _ & _ & _ & _ & _ & Hl & _).
  pose proof (length_inode_bytes n Hl) as Hb.
  unfold inode_at. replace (get16 (splice b o (inode_bytes n)) o) with (get16 (splice b o (inode_bytes n)) (o + 0)) by (f_equal; lia).
  rewrite !get16_splice_in, !get32_splice_in, !byte_at_splice_in by lia. f_equal.
  apply map_ext_in. intros k Hk%in_seq. rewrite <- Nat.add_assoc. rewrite get16_splice_in by lia. done.
Qed.

(** Storing one inode leaves the others of the block alone. *)
Lemma inode_at_splice_other b o n o' : length (i_zone n) = 9%nat -> (o + 32 <= length b)%nat -> (o' + 32 <= o \/ o + 32 <= o')%nat ->
  inode_at (splice b o (inode_bytes n)) o' = inode_at b o'.
Proof.
  intros Hl Ho Ho'. pose proof (length_inode_bytes n Hl) as Hb. unfold inode_at, get32.
  rewrite !get16_splice_other by lia. unfold byte_at at 1 2. rewrite !lookup_splice by lia. rewrite !decide_False by lia. f_equal.
  apply map_ext_in. intros k Hk%in_seq. apply get16_splice_other; lia.
Qed.

Lemma inode_at_wf b o : bytes b -> inode_wf (inode_at b o).
Proof.
  intros Hb. unfold inode_wf, inode_at. cbn [i_mode i_uid i_size i_time i_gid i_nlinks i_zone].
  splits; try apply get16_range; try apply get32_range; try apply byte_at_range; try done.
  apply Forall_map, Forall_forall. intros k _. by apply get16_range.
Qed.

(** ** Zone lists *)

Lemma list_zone_put b k z j : length b = 1024%nat -> 0 <= k < 512 -> 0 <= j < 512 ->
  list_zone (put_zone b k z) j = if decide (j = k) then u16 z else list_zone b j.
Proof.
  intros Hb Hk Hj. unfold list_zone, put_zone. case_decide as E.
  - subst. apply get16_put. lia.
  - apply get16_splice_other; cbn; lia.
Qed.

Lemma blockish_put_zone b k z : blockish b -> 0 <= k < 512 -> blockish (put_zone b k z).
Proof. intros Hb Hk. unfold put_zone. apply blockish_splice; auto with ir0. cbn. lia. Qed.
#[export] Hint Resolve blockish_put_zone : ir0.

Lemma list_zone_zero k : list_zone zero_block k = 0.
Proof.
  unfold list_zone, get16, byte_at, zero_block.
  assert (forall i, default 0 (replicate 1024 0 !! i) = 0) as H.
  { intros i. destruct (replicate 1024 0 !! i) eqn:E; [|done]. by apply lookup_replicate_1 in E as [-> _]. }
  by rewrite !H.
Qed.

Lemma list_zone_range b k : bytes b -> 0 <= list_zone b k < 65536.
Proof. intros. by apply get16_range. Qed.

(** ** Requests that succeed *)

Definition quiet (s : minix_state) : Prop := io s = [] /\ root_dev_present s = true.

Lemma next_io_quiet s : quiet s -> next_io s = (IoOk, s).
Proof. intros [H _]. unfold next_io. by rewrite H. Qed.

Lemma read_block_quiet s z b : quiet s -> disk s !! z = Some b -> minix_read_block s z = (s, inr b).
Proof. intros Hq Hb. unfold minix_read_block. rewrite (proj2 Hq), next_io_quiet, Hb by done. done. Qed.

Lemma write_block_quiet s z b : quiet s -> is_Some (disk s !! z) -> minix_write_block s z b = (set_disk (<[z := b]> (disk s)) s, 0).
Proof. intros Hq [b' Hb]. unfold minix_write_block. rewrite (proj2 Hq), next_io_quiet, Hb by done. done. Qed.

(** ** Volumes *)

Definition zone_limit (sb : minix_superblock_t) : Z :=
  if decide (s_nzones sb = 0 \/ MINIX_MAX_ZONES < s_nzones sb) then MINIX_MAX_ZONES else s_nzones sb.
Definition inode_limit (sb : minix_superblock_t) : Z :=
  if decide (s_ninodes sb = 0 \/ MINIX_MAX_INODES <= s_ninodes sb) then MINIX_MAX_INODES - 1 else s_ninodes sb.

(** Boot block, superblock, bitmaps and inode table lie before the data zones,
    and the table has room for every inode. *)
Record geometry (sb : minix_superblock_t) : Prop := {
  geo_magic : s_magic sb = MINIX_SUPER_MAGIC;
  geo_imap : 1 <= s_imap_blocks sb <= 16;
  geo_zmap : 1 <= s_zmap_blocks sb <= 256;
  geo_inodes : 0 <= s_ninodes sb < 65536;
  geo_zones : 0 <= s_nzones sb < 65536;
  geo_first : 2 + s_imap_blocks sb + s_zmap_blocks sb + (inode_limit sb * 32 + 1023) / 1024 <= s_firstdatazone sb < 65536;
  geo_size : 0 <= s_max_size sb <= 268966912;
  geo_cover : zone_limit sb - s_firstdatazone sb <= s_zmap_blocks sb * 8192
}.

Record volume (s : minix_state) : Prop := {
  vol_quiet : quiet s;
  vol_init : initialized s = true;
  vol_geo : geometry (superblock s);
  vol_zmap : exists bm, zone_bitmap s = Some bm /\ Z.of_nat (length bm) = minix_zmap_bytes s /\ bytes bm;
  vol_imap : exists bm, inode_bitmap s = Some bm /\ blockish bm;
  vol_blocks : forall z b, disk s !! z = Some b -> blockish b;
  vol_there : forall z, 0 <= z < Z.max (s_firstdatazone (superblock s)) (zone_limit (superblock s)) -> is_Some (disk s !! z)
}.

(** The set of free zones. *)
Definition zfree (s : minix_state) (z : Z) : bool := match minix_is_zone_free s z with Ok b => b | _ => false end.

Definition data_zone (s : minix_state) (z : Z) : Prop := s_firstdatazone (superblock s) <= z < zone_limit (superblock s).

(** States that differ in the zone bitmap only. *)
Definition zmap_only (s s' : minix_state) : Prop :=
  exists bm d st, s' = set_zmap bm d st s /\ (forall bm0, zone_bitmap s = Some bm0 -> length bm = length bm0 /\ (bytes bm0 -> bytes bm)).

Lemma bytes_bitmap_set bm i : bytes bm -> bytes (bitmap_set bm i).
Proof. intros H. apply Forall_insert; [done|apply u8_range]. Qed.
Lemma bytes_bitmap_clear bm i : bytes bm -> bytes (bitmap_clear bm i).
Proof. intros H. apply Forall_insert; [done|apply u8_range]. Qed.

Lemma zmap_only_volume s s' : zmap_only s s' -> volume s -> volume s'.
Proof.
  intros (bm & d & st & -> & Hl) [Hq Hi Hg Hz Him Hb Ht]. constructor; cbn; try done.
  destruct Hz as (bm0 & E & Hlen & Hby). destruct (Hl _ E) as [Hl1 Hl2]. exists bm. rewrite Hl1. auto.
Qed.

Lemma is_zone_free_total s z : volume s -> minix_is_zone_free s z = Ok (zfree s z).
Proof.
  intros Hv. destruct (vol_zmap s Hv) as (bm & Hz & Hl & _). unfold zfree, minix_is_zone_free. rewrite Hz.
  destruct (zone_bit s z) as [i|] eqn:E; [|done]. rewrite decide_True; [done|].
  unfold zone_bit in E. repeat case_decide; simplify_eq.
  apply Nat.Div0.div_lt_upper_bound. Z.to_euclidean_division_equations. lia.
Qed.

Lemma zone_bit_bound s z i (bm : list Z) : zone_bit s z = Some i -> Z.of_nat (length bm) = minix_zmap_bytes s -> (i / 8 < length bm)%nat.
Proof.
  unfold zone_bit. intros E Hl. repeat case_decide; simplify_eq. apply Nat.Div0.div_lt_upper_bound.
  Z.to_euclidean_division_equations. lia.
Qed.

Lemma zone_bit_inj s y z i : zone_bit s y = Some i -> zone_bit s z = Some i -> y = z.
Proof. unfold zone_bit. intros. repeat case_decide; simplify_eq. lia. Qed.

Lemma zfree_bit s z : zfree s z = true -> exists i, zone_bit s z = Some i.
Proof. unfold zfree, minix_is_zone_free. destruct (zone_bitmap s); [|done]. destruct (zone_bit s z) as [i|]; [by exists i|done]. Qed.

(** Changing one bit changes the membership of one zone. *)
Lemma zfree_update s z i bm bm' d st v : volume s -> zone_bitmap s = Some bm -> zone_bit s z = Some i -> length bm' = length bm ->
  (forall j, bitmap_test bm' j = if decide (j = i) then v else bitmap_test bm j) ->
  forall y, zfree (set_zmap bm' d st s) y = if decide (y = z) then v else zfree s y.
Proof.
  intros Hv Hz Hi Hl Hb y. destruct (vol_zmap s Hv) as (bm0 & Hz' & Hlen & _). rewrite Hz in Hz'. injection Hz' as <-.
  unfold zfree, minix_is_zone_free. cbn [set_zmap zone_bitmap]. rewrite Hz.
  change (zone_bit (set_zmap bm' d st s) y) with (zone_bit s y).
  destruct (zone_bit s y) as [k|] eqn:Ek; [|case_decide; [congruence|done]].
  pose proof (zone_bit_bound s y k bm Ek Hlen). rewrite (decide_True (P := (k / 8 < length bm')%nat)) by lia. rewrite (decide_True (P := (k / 8 < length bm)%nat)) by lia. rewrite Hb.
  destruct (decide (k = i)) as [->|Hne].
  - rewrite (decide_True (P := y = z)); [done|]. by apply (zone_bit_inj s y z i).
  - rewrite (decide_False (P := y = z)); [done|]. congruence.
Qed.

Lemma mark_zone_used_spec s z : volume s -> zfree s z = true -> exists s', minix_mark_zone_used s z = Ok s' /\ zmap_only s s' /\
  forall y, zfree s' y = if decide (y = z) then false else zfree s y.
Proof.
  intros Hv Hf. destruct (zfree_bit s z Hf) as [i Hi]. destruct (vol_zmap s Hv) as (bm & Hz & Hl & _).
  unfold minix_mark_zone_used. rewrite Hz, Hi. pose proof (zone_bit_bound s z i bm Hi Hl) as Hb. rewrite decide_True by done.
  eexists. split; [reflexivity|]. split.
  - do 3 eexists. split; [reflexivity|]. intros bm0 E. rewrite Hz in E. injection E as <-. split; [apply length_insert|apply bytes_bitmap_clear].
  - apply (zfree_update s z i bm); auto; [apply length_insert|]. intros j. by apply bitmap_test_clear.
Qed.

Lemma free_zone_spec s z : volume s -> exists s', minix_free_zone s z = Ok s' /\ zmap_only s s' /\
  forall y, zfree s' y = if decide (y = z /\ is_Some (zone_bit s z)) then true else zfree s y.
Proof.
  intros Hv. destruct (vol_zmap s Hv) as (bm & Hz & Hl & _). unfold minix_free_zone. rewrite Hz.
  destruct (zone_bit s z) as [i|] eqn:Hi.
  - pose proof (zone_bit_bound s z i bm Hi Hl) as Hb. rewrite decide_True by done. eexists. split; [reflexivity|]. split.
    + do 3 eexists. split; [reflexivity|]. intros bm0 E. rewrite Hz in E. injection E as <-. split; [apply length_insert|apply bytes_bitmap_set].
    + intros y. rewrite (zfree_update s z i bm _ _ _ true); auto; [|apply length_insert|intros j; by apply bitmap_test_set].
      destruct (decide (y = z)); [rewrite decide_True; [done|]|rewrite decide_False by tauto; done]. split; [done|by exists i].
  - exists s. split; [done|]. split.
    + exists bm, (zmap_dirty s), (zmap_search_start s). split; [|intros bm0 E; rewrite Hz in E; injection E as <-; done]. destruct s; cbn in *; by rewrite Hz.
    + intros y. rewrite decide_False; [done|]. intros [_ [? ?]]. done.
Qed.

Lemma alloc_scan_spec n i s : volume s -> exists r, alloc_scan n i s = Ok r /\
  match r with
  | None => forall z, i <= z < i + Z.of_nat n -> zfree s z = false
  | Some (s', z) => i <= z < i + Z.of_nat n /\ zfree s z = true /\ zmap_only s s' /\ (forall y, zfree s' y = if decide (y = z) then false else zfree s y)
  end.
Proof.
  intros Hv. revert i. induction n as [|n IH]; intros i; [exists None; split; [done|lia]|].
  cbn [alloc_scan]. rewrite is_zone_free_total by done. cbn [mbind outcome_bind]. destruct (zfree s i) eqn:E.
  - destruct (mark_zone_used_spec s i Hv E) as (s' & -> & Hz & Hf). eexists. split; [reflexivity|]. split; [lia|done].
  - destruct (IH (i + 1)) as (r & -> & Hr). exists r. split; [done|]. destruct r as [[s' z]|].
    + destruct Hr as (? & ? & ?). split; [lia|done].
    + intros z Hz. destruct (decide (z = i)) as [->|]; [done|]. apply Hr. lia.
Qed.

(** A free zone of the data area is found whenever there is one. *)
Lemma minix_alloc_zone_spec s : volume s -> exists s' z, minix_alloc_zone s = Ok (s', z) /\
  ((z = 0 /\ s' = s /\ forall y, data_zone s y -> zfree s y = false) \/
   (data_zone s z /\ zfree s z = true /\ zmap_only s s' /\ forall y, zfree s' y = if decide (y = z) then false else zfree s y)).
Proof.
  intros Hv. unfold minix_alloc_zone, data_zone. fold (zone_limit (superblock s)).
  set (first := s_firstdatazone (superblock s)). set (limit := zone_limit (superblock s)).
  case_decide as Hfl; [exists s, 0; split; [done|left; splits; [done..|lia]]|].
  set (start := if decide (zmap_search_start s < first \/ limit <= zmap_search_start s) then first else zmap_search_start s).
  assert (Hst : first <= start < limit) by (unfold start; case_decide; lia).
  destruct (alloc_scan_spec (Z.to_nat (limit - start)) start s Hv) as (r & -> & Hr). cbn [mbind outcome_bind].
  destruct r as [[s' z]|]; [exists s', z; split; [done|right]; destruct Hr as (? & ?); split; [lia|done]|].
  destruct (alloc_scan_spec (Z.to_nat (start - first)) first s Hv) as (r & -> & Hr'). cbn [mbind outcome_bind].
  destruct r as [[s' z]|]; [exists s', z; split; [done|right]; destruct Hr' as (? & ?); split; [lia|done]|].
  exists s, 0. split; [done|left]. splits; [done..|]. intros y Hy. destruct (decide (y < start)); [apply Hr'|apply Hr]; lia.
Qed.
