(* ===== verification/MinixTree.v ===== *)
(** * MINIX files: the tree of zones behind an inode

    A slot is a place that holds a zone number: one of the nine fields of the
    inode, an entry of the indirect block, an entry of the double-indirect block,
    or an entry of a block that one names.  [val d n p] is the number in slot
    [p].  On a sound volume no zone is named by two slots, of one inode or of
    two, and no named zone is free ([tree_ok]); the operations are described by
    the slots they change. *)

From S2P Require Import Prelude Bytes CString Perm Minix MinixFile MinixZones.

Inductive slot := Top (k : nat) | Ind (i : Z) | Dind (a : Z) | Leaf (a b : Z).

#[export] Instance slot_eq_dec : EqDecision slot.
Proof. solve_decision. Defined.

Definition slot_ok (p : slot) : Prop :=
  match p with
  | Top k => (k < 9)%nat
  | Ind i => 0 <= i < 512
  | Dind a => 0 <= a < 512
  | Leaf a b => 0 <= a < 512 /\ 0 <= b < 512
  end.

(** Slots whose zone holds zone numbers; the others hold file contents. *)
Definition is_meta (p : slot) : Prop := match p with Top k => (7 <= k)%nat | Dind _ => True | _ => False end.
#[export] Instance is_meta_dec p : Decision (is_meta p).
Proof. destruct p; apply _. Defined.

Definition blk (d : gmap Z (list Z)) (z : Z) : list Z := default zero_block (d !! z).
Definition entry (d : gmap Z (list Z)) (z k : Z) : Z := if decide (z = 0) then 0 else list_zone (blk d z) k.

Definition val (d : gmap Z (list Z)) (n : minix_inode_t) (p : slot) : Z :=
  match p with
  | Top k => zone_of n k
  | Ind i => entry d (zone_of n 7) i
  | Dind a => entry d (zone_of n 8) a
  | Leaf a b => entry d (entry d (zone_of n 8) a) b
  end.

Lemma slot_entry_ne d h b v k : v <> h -> entry (<[h := b]> d) v k = entry d v k.
Proof. intros Hv. unfold entry, blk. rewrite lookup_insert_ne by done. done. Qed.

Lemma entry_insert_eq d h b k : h <> 0 -> entry (<[h := b]> d) h k = list_zone b k.
Proof. intros Hh. unfold entry, blk. rewrite decide_False by done. by rewrite lookup_insert_eq. Qed.

Lemma entry_0 d k : entry d 0 k = 0.
Proof. done. Qed.

Lemma entry_nz d z k : entry d z k <> 0 -> z <> 0.
Proof. unfold entry. case_decide; [done|auto]. Qed.

(** The tree depends on the blocks that hold zone numbers only. *)
Lemma val_frame d d' n p : slot_ok p ->
  (forall q, slot_ok q -> is_meta q -> val d n q <> 0 -> d' !! val d n q = d !! val d n q) -> val d' n p = val d n p.
Proof.
  intros Hp H. assert (He : forall q k, slot_ok q -> is_meta q -> entry d' (val d n q) k = entry d (val d n q) k).
  { intros q k Hq Hm. unfold entry, blk. case_decide; [done|]. by rewrite H. }
  destruct p as [k|i|a|a b]; cbn [val].
  - done.
  - apply (He (Top 7)); cbn; lia.
  - apply (He (Top 8)); cbn; lia.
  - assert (entry d' (zone_of n 8) a = entry d (zone_of n 8) a) as -> by (apply (He (Top 8)); cbn; lia).
    apply (He (Dind a)); cbn in *; tauto.
Qed.

Lemma zone_of_set k z n j : (k < length (i_zone n))%nat -> zone_of (set_zone k z n) j = if decide (j = k) then u16 z else zone_of n j.
Proof.
  intros Hk. unfold zone_of, set_zone. cbn [i_zone]. case_decide as E.
  - subst. by rewrite list_lookup_insert_eq.
  - by rewrite list_lookup_insert_ne.
Qed.

(** The slot [k] below a slot that holds zone numbers. *)
Definition child (hp : slot) (k : Z) : slot :=
  match hp with Top 7 => Ind k | Dind a => Leaf a k | _ => Dind k end.

Lemma child_val d n hp k : slot_ok hp -> is_meta hp -> val d n (child hp k) = entry d (val d n hp) k.
Proof.
  destruct hp as [j|i|a|a b]; cbn; intros Hok Hm; try done.
  assert (j = 7 \/ j = 8)%nat as [->| ->] by lia; done.
Qed.

Section change.
Context (d : gmap Z (list Z)) (n : minix_inode_t).
Hypothesis inj : forall p q, slot_ok p -> slot_ok q -> val d n p = val d n q -> val d n p <> 0 -> p = q.

Lemma meta_ne hp p : slot_ok hp -> slot_ok p -> val d n hp <> 0 -> p <> hp -> val d n p <> val d n hp.
Proof. intros H1 H2 H3 H4 E. apply H4, inj; congruence. Qed.

(** Storing a zone number in an entry changes that slot and no other. *)
Lemma val_put hp k z p : slot_ok hp -> is_meta hp -> 0 <= k < 512 -> slot_ok p -> val d n hp <> 0 ->
  length (blk d (val d n hp)) = 1024%nat -> u16 z = z -> z <> val d n hp ->
  (is_meta (child hp k) -> forall c, 0 <= c < 512 -> entry d z c = entry d (val d n (child hp k)) c) ->
  val (<[val d n hp := put_zone (blk d (val d n hp)) k z]> d) n p = if decide (p = child hp k) then z else val d n p.
Proof.
  intros Hok Hm Hk Hp Hnz Hlen Hz Hzh Heq. set (h := val d n hp) in *. set (b := put_zone (blk d h) k z).
  assert (Hent : forall j, 0 <= j < 512 -> entry (<[h := b]> d) h j = if decide (j = k) then z else entry d h j).
  { intros j Hj. rewrite entry_insert_eq by done. unfold b. rewrite list_zone_put by done. rewrite Hz. case_decide; [done|].
    unfold entry. by rewrite decide_False. }
  assert (Hoth : forall q j, slot_ok q -> q <> hp -> entry (<[h := b]> d) (val d n q) j = entry d (val d n q) j).
  { intros q j Hq Hne. apply slot_entry_ne. by apply meta_ne. }
  destruct hp as [j|i|a|a b0]; cbn in Hm, Hok; try done.
  - assert (j = 7 \/ j = 8)%nat as [->| ->] by lia; cbn [child] in *; unfold h in *; cbn [val] in *.
    + destruct p as [j|i|a|a c]; cbn [val].
      * by rewrite decide_False.
      * rewrite Hent by done. by destruct (decide (i = k)) as [->|Hi]; [rewrite decide_True|rewrite decide_False by congruence].
      * rewrite decide_False by done. apply (Hoth (Top 8)); cbn; [lia|congruence].
      * rewrite decide_False by done. assert (entry (<[zone_of n 7 := b]> d) (zone_of n 8) a = entry d (zone_of n 8) a) as -> by (apply (Hoth (Top 8)); [cbn; lia|congruence]).
        destruct Hp as [Ha Hc]. by apply (Hoth (Dind a)).
    + destruct p as [j|i|a|a c]; cbn [val].
      * by rewrite decide_False.
      * rewrite decide_False by done. apply (Hoth (Top 7)); cbn; [lia|congruence].
      * rewrite Hent by done. by destruct (decide (a = k)) as [->|Hi]; [rewrite decide_True|rewrite decide_False by congruence].
      * destruct Hp as [Ha Hc]. rewrite decide_False by done. rewrite Hent by done. destruct (decide (a = k)) as [->|Hne].
        -- rewrite slot_entry_ne by done. by apply Heq.
        -- by apply (Hoth (Dind a)).
  - cbn [child] in *. unfold h in *; cbn [val] in *. destruct p as [j|i|a'|a' c]; cbn [val].
    + by rewrite decide_False.
    + rewrite decide_False by done. apply (Hoth (Top 7)); cbn; [lia|congruence].
    + rewrite decide_False by done. apply (Hoth (Top 8)); cbn; [lia|congruence].
    + destruct Hp as [Ha Hc].
      assert (entry (<[entry d (zone_of n 8) a := b]> d) (zone_of n 8) a' = entry d (zone_of n 8) a') as -> by (apply (Hoth (Top 8)); [cbn; lia|congruence]).
      destruct (decide (a' = a)) as [->|Hne].
      * rewrite Hent by done. by destruct (decide (c = k)) as [->|Hi]; [rewrite decide_True|rewrite decide_False by congruence].
      * rewrite decide_False by congruence. apply (Hoth (Dind a')); [done|congruence].
Qed.

(** Storing a zone number in the inode: the zone must be clear if it is to hold
    zone numbers. *)
Lemma val_set_top k z p : (k < 9)%nat -> length (i_zone n) = 9%nat -> slot_ok p -> u16 z = z ->
  ((7 <= k)%nat -> forall c, 0 <= c < 512 -> entry d z c = entry d (zone_of n k) c) ->
  val d (set_zone k z n) p = if decide (p = Top k) then z else val d n p.
Proof.
  intros Hk Hl Hp Hz Heq.
  assert (Hzo : forall j, zone_of (set_zone k z n) j = if decide (j = k) then z else zone_of n j) by (intros; by rewrite zone_of_set, Hz by lia).
  destruct p as [j|i|a|a c]; cbn [val]; rewrite !Hzo.
  - destruct (decide (j = k)) as [->|Hne]; [by rewrite decide_True|by rewrite decide_False by congruence].
  - rewrite (decide_False (P := Ind i = Top k)) by done. case_decide as E; [subst k|done]. apply Heq; [lia|done].
  - rewrite (decide_False (P := Dind a = Top k)) by done. case_decide as E; [subst k|done]. apply Heq; [lia|done].
  - rewrite (decide_False (P := Leaf a c = Top k)) by done. case_decide as E; [subst k|done]. destruct Hp as [Ha Hc]. rewrite Heq; [done|lia|done].
Qed.
End change.

(** ** Sound volumes *)

Record tree_ok (s : minix_state) (ns : gmap Z minix_inode_t) : Prop := {
  tree_wf : forall i n, ns !! i = Some n -> inode_wf n;
  tree_used : forall i n p, ns !! i = Some n -> slot_ok p -> val (disk s) n p <> 0 ->
    data_zone s (val (disk s) n p) /\ zfree s (val (disk s) n p) = false;
  tree_inj : forall i j n m p q, ns !! i = Some n -> ns !! j = Some m -> slot_ok p -> slot_ok q ->
    val (disk s) n p = val (disk s) m q -> val (disk s) n p <> 0 -> i = j /\ p = q
}.

Lemma data_zone_there s z : volume s -> data_zone s z -> is_Some (disk s !! z) /\ 0 < z < 65535.
Proof.
  intros Hv [H1 H2]. destruct (vol_geo s Hv) as [_ H3 H4 H5 H6 [H7 H8] _ _].
  assert (0 <= (inode_limit (superblock s) * 32 + 1023) / 1024).
  { apply Z.div_pos; [|lia]. unfold inode_limit. case_decide; unfold MINIX_MAX_INODES in *; lia. }
  assert (zone_limit (superblock s) <= 65535) by (unfold zone_limit, MINIX_MAX_ZONES; case_decide as E; unfold MINIX_MAX_ZONES in *; lia).
  split; [apply (vol_there s Hv); lia|lia].
Qed.

Lemma blk_there s z : volume s -> data_zone s z -> disk s !! z = Some (blk (disk s) z) /\ blockish (blk (disk s) z).
Proof.
  intros Hv Hz. destruct (data_zone_there s z Hv Hz) as [[b Hb] _]. unfold blk. rewrite Hb. split; [done|]. by apply (vol_blocks s Hv z).
Qed.

Lemma set_disk_volume s z b : volume s -> blockish b -> is_Some (disk s !! z) -> volume (set_disk (<[z := b]> (disk s)) s).
Proof.
  intros [Hq Hi Hg Hz Him Hb Ht] Hbb Hs. constructor; cbn [set_disk superblock io disk root_dev_present initialized inode_bitmap zone_bitmap]; try done.
  - intros y c. destruct (decide (y = z)) as [->|Hne]; [rewrite lookup_insert_eq; intros [= <-]; done|].
    rewrite lookup_insert_ne by done. apply Hb.
  - intros y Hy. destruct (decide (y = z)) as [->|Hne]; [rewrite lookup_insert_eq; eauto|]. rewrite lookup_insert_ne by done. by apply Ht.
Qed.

Lemma zfree_pos s z : volume s -> zfree s z = true -> 0 < z.
Proof.
  intros Hv Hf. destruct (zfree_bit s z Hf) as [i Hi]. unfold zone_bit in Hi. repeat case_decide; simplify_eq.
  destruct (vol_geo s Hv) as [_ H3 H4 H5 H6 [H7 H8] _ _].
  assert (0 <= (inode_limit (superblock s) * 32 + 1023) / 1024).
  { apply Z.div_pos; [|lia]. unfold inode_limit. case_decide; unfold MINIX_MAX_INODES in *; lia. }
  lia.
Qed.

(** A slot names its zone alone, so it cannot be found free, and a free zone is
    named by no slot. *)
Lemma free_not_val s ns i n p z : tree_ok s ns -> ns !! i = Some n -> slot_ok p -> zfree s z = true -> z <> 0 -> val (disk s) n p <> z.
Proof. intros Ht Hn Hp Hz Hnz E. destruct (tree_used s ns Ht i n p Hn Hp) as [_ Hf]; congruence. Qed.

(** Giving an empty slot a zone that was free. *)
Lemma tree_graft s s' ns i n n' p0 z : volume s -> tree_ok s ns -> ns !! i = Some n -> slot_ok p0 -> val (disk s) n p0 = 0 ->
  data_zone s z -> zfree s z = true -> superblock s' = superblock s -> (forall y, zfree s' y = if decide (y = z) then false else zfree s y) ->
  inode_wf n' ->
  (forall p, slot_ok p -> val (disk s') n' p = if decide (p = p0) then z else val (disk s) n p) ->
  (forall j m p, j <> i -> ns !! j = Some m -> slot_ok p -> val (disk s') m p = val (disk s) m p) ->
  tree_ok s' (<[i := n']> ns).
Proof.
  intros Hv Ht Hn Hp0 Hold Hz Hf Hsb Hfr Hwf Hmine Hoth.
  assert (Hz0 : z <> 0) by (pose proof (data_zone_there s z Hv Hz); lia).
  (* every slot after the change: the new one, or a slot that was there *)
  assert (Hcase : forall j m p, <[i := n']> ns !! j = Some m -> slot_ok p ->
    (j = i /\ p = p0 /\ val (disk s') m p = z) \/
    (exists m0, ns !! j = Some m0 /\ val (disk s') m p = val (disk s) m0 p /\ (j = i -> p <> p0))).
  { intros j m p Hm Hp. destruct (decide (j = i)) as [->|Hne].
    - rewrite lookup_insert_eq in Hm. injection Hm as <-. rewrite Hmine by done. destruct (decide (p = p0)); [by left|right; eauto].
    - rewrite lookup_insert_ne in Hm by done. right. exists m. rewrite (Hoth j) by done. done. }
  constructor.
  - intros j m Hm. destruct (decide (j = i)) as [->|Hne]; [rewrite lookup_insert_eq in Hm; congruence|].
    rewrite lookup_insert_ne in Hm by done. by apply (tree_wf s ns Ht j).
  - intros j m p Hm Hp Hnz. unfold data_zone. rewrite Hsb, Hfr.
    destruct (Hcase j m p Hm Hp) as [(_ & _ & E)|(m0 & Hm0 & E & _)]; rewrite E in *; [by rewrite decide_True|].
    destruct (tree_used s ns Ht j m0 p Hm0 Hp Hnz) as [Hd Hu]. rewrite decide_False by congruence. done.
  - intros j k m m' p q Hm Hm' Hp Hq E Hnz.
    destruct (Hcase j m p Hm Hp) as [(-> & -> & E1)|(m0 & Hm0 & E1 & Hne)];
    destruct (Hcase k m' q Hm' Hq) as [(-> & -> & E2)|(m1 & Hm1 & E2 & Hne')]; [done| | |].
    + exfalso. apply (free_not_val s ns k m1 q z Ht Hm1 Hq Hf Hz0). congruence.
    + exfalso. apply (free_not_val s ns j m0 p z Ht Hm0 Hp Hf Hz0). congruence.
    + apply (tree_inj s ns Ht j k m0 m1); congruence.
Qed.

(** ** Growing a file

    [grow t]: the tree of inode [i] has grown by zones that were free; of the
    slots for contents only [t] may have changed. *)

Definition same_attrs (n n' : minix_inode_t) : Prop :=
  i_mode n' = i_mode n /\ i_uid n' = i_uid n /\ i_size n' = i_size n /\ i_time n' = i_time n /\ i_gid n' = i_gid n /\ i_nlinks n' = i_nlinks n.

Record same_vol (s s' : minix_state) : Prop := {
  sv_super : superblock s' = superblock s;
  sv_imap : inode_bitmap s' = inode_bitmap s;
  sv_volume : volume s'
}.

Record grow (t : option slot) (ns : gmap Z minix_inode_t) (i : Z) (s : minix_state) (n : minix_inode_t) (s' : minix_state) (n' : minix_inode_t) : Prop := {
  gr_vol : same_vol s s';
  gr_tree : tree_ok s' (<[i := n']> ns);
  gr_attrs : same_attrs n n';
  gr_mono : forall p, slot_ok p -> val (disk s) n p <> 0 -> val (disk s') n' p = val (disk s) n p;
  gr_data : forall p, slot_ok p -> ~ is_meta p -> Some p <> t -> val (disk s') n' p = val (disk s) n p;
  gr_others : forall j m p, j <> i -> ns !! j = Some m -> slot_ok p -> val (disk s') m p = val (disk s) m p;
  gr_blocks : forall y, zfree s y = false -> (forall p, slot_ok p -> is_meta p -> val (disk s) n p <> y) -> disk s' !! y = disk s !! y;
  gr_free : forall y, zfree s' y = true -> zfree s y = true;
  gr_fresh : forall p, slot_ok p -> val (disk s) n p = 0 -> val (disk s') n' p <> 0 -> zfree s (val (disk s') n' p) = true;
  gr_new : forall y, zfree s y = true -> zfree s' y = false -> exists p, slot_ok p /\ val (disk s') n' p = y
}.

Lemma grow_refl t ns i s n : volume s -> tree_ok s ns -> ns !! i = Some n -> grow t ns i s n s n.
Proof.
  intros Hv Ht Hn. constructor; try done.
  - rewrite insert_id by done. done.
  - intros y H1 H2. congruence.
Qed.

Lemma grow_trans t ns i s n s1 n1 s2 n2 : volume s -> ns !! i = Some n -> grow t ns i s n s1 n1 -> grow t (<[i := n1]> ns) i s1 n1 s2 n2 -> grow t ns i s n s2 n2.
Proof.
  intros Hv Hn [V1 T1 A1 M1 D1 O1 B1 F1 R1 N1] [V2 T2 A2 M2 D2 O2 B2 F2 R2 N2]. rewrite insert_insert_eq in T2.
  assert (Hn1 : forall j m, j <> i -> ns !! j = Some m -> <[i := n1]> ns !! j = Some m) by (intros; by rewrite lookup_insert_ne).
  assert (Hfresh : forall p, slot_ok p -> val (disk s) n p = 0 -> val (disk s2) n2 p <> 0 -> zfree s (val (disk s2) n2 p) = true).
  { intros p Hp H0 H2. destruct (decide (val (disk s1) n1 p = 0)) as [E|E]; [auto|]. rewrite M2 in * by done. auto. }
  constructor; [|exact T2| | | | | |auto|exact Hfresh|].
  - destruct V1, V2. constructor; congruence || done.
  - destruct A1 as (?&?&?&?&?&?), A2 as (?&?&?&?&?&?). unfold same_attrs. splits; congruence.
  - intros p Hp Hnz. rewrite M2, M1; auto. rewrite M1; auto.
  - intros p Hp Hm Hne. rewrite D2, D1; auto.
  - intros j m p Hne Hm Hp. rewrite (O2 j), (O1 j); auto.
  - intros y Hy Hne. rewrite B2, B1; auto.
    + destruct (zfree s1 y) eqn:E; [|done]. rewrite F1 in Hy by done. done.
    + intros p Hp Hm E. destruct (decide (val (disk s) n p = 0)) as [H0|H0].
      * destruct (decide (y = 0)) as [->|Hy0]; [by apply (Hne p)|]. rewrite <- E, R1 in Hy; congruence.
      * apply (Hne p Hp Hm). rewrite <- E. symmetry. by apply M1.
  - intros y Hy Hy2. destruct (zfree s1 y) eqn:E; [by apply N2|]. destruct (N1 y Hy E) as (p & Hp & Ep). exists p. split; [done|].
    rewrite <- Ep. apply M2; [done|]. rewrite Ep. pose proof (zfree_pos s y Hv Hy). lia.
Qed.

Definition full (s : minix_state) : Prop := forall y, data_zone s y -> zfree s y = false.

Lemma grow_graft t ns i s s' n n' p0 z : volume s -> tree_ok s ns -> ns !! i = Some n -> slot_ok p0 -> val (disk s) n p0 = 0 ->
  data_zone s z -> zfree s z = true -> same_vol s s' -> (forall y, zfree s' y = if decide (y = z) then false else zfree s y) ->
  inode_wf n' -> same_attrs n n' -> is_meta p0 \/ t = Some p0 ->
  (forall p, slot_ok p -> val (disk s') n' p = if decide (p = p0) then z else val (disk s) n p) ->
  (forall y, y <> z -> (forall p, slot_ok p -> is_meta p -> val (disk s) n p <> y) -> disk s' !! y = disk s !! y) ->
  grow t ns i s n s' n'.
Proof.
  intros Hv Ht Hn Hp0 Hold Hz Hf Hsv Hfr Hwf Hat Hmt Hmine Hblk.
  assert (Hz0 : z <> 0) by (pose proof (data_zone_there s z Hv Hz); lia).
  assert (Hoth : forall j m p, j <> i -> ns !! j = Some m -> slot_ok p -> val (disk s') m p = val (disk s) m p).
  { intros j m p Hne Hm Hp. apply val_frame; [done|]. intros q Hq Hqm Hnz. apply Hblk.
    - by apply (free_not_val s ns j m q z).
    - intros p' Hp' _ E. destruct (tree_inj s ns Ht i j n m p' q) as [-> _]; congruence. }
  constructor; auto.
  - by apply (tree_graft s s' ns i n n' p0 z); try apply Hsv.
  - intros p Hp Hnz. rewrite Hmine by done. rewrite decide_False; [done|congruence].
  - intros p Hp Hnm Hne. rewrite Hmine by done. rewrite decide_False; [done|]. intros ->. destruct Hmt; [done|congruence].
  - intros y Hy Hne. apply Hblk; [congruence|done].
  - intros y. rewrite Hfr. by case_decide.
  - intros p Hp H0. rewrite Hmine by done. case_decide; [by subst|congruence].
  - intros y Hy. rewrite Hfr. case_decide; [|congruence]. intros _. subst. exists p0. split; [done|]. rewrite Hmine by done. by rewrite decide_True.
Qed.

Lemma zmap_only_same s s' : zmap_only s s' -> volume s -> same_vol s s' /\ disk s' = disk s.
Proof.
  intros Hz Hv. pose proof (zmap_only_volume s s' Hz Hv) as Hv'. destruct Hz as (bm & d & st & -> & _).
  split; [constructor; try done|done].
Qed.

Lemma set_disk_same s z b : volume s -> blockish b -> is_Some (disk s !! z) -> same_vol s (set_disk (<[z := b]> (disk s)) s).
Proof. intros. constructor; try done. by apply set_disk_volume. Qed.

Lemma same_vol_trans s1 s2 s3 : same_vol s1 s2 -> same_vol s2 s3 -> same_vol s1 s3.
Proof. intros [] []. constructor; congruence || done. Qed.

Lemma zfree_set_disk d s z : zfree (set_disk d s) z = zfree s z.
Proof. done. Qed.

Lemma alloc_cleared_spec s : volume s -> exists s' r, alloc_cleared s = Ok (s', r) /\
  match r with
  | inl e => e = - ENOSPC /\ s' = s /\ full s
  | inr z => data_zone s z /\ zfree s z = true /\ same_vol s s' /\ disk s' = <[z := zero_block]> (disk s) /\
             forall y, zfree s' y = if decide (y = z) then false else zfree s y
  end.
Proof.
  intros Hv. unfold alloc_cleared. destruct (minix_alloc_zone_spec s Hv) as (s1 & z & -> & [(-> & -> & Hfull)|(Hz & Hf & Hzo & Hfr)]); cbn [mbind outcome_bind].
  { rewrite decide_True by done. do 2 eexists. split; [reflexivity|done]. }
  destruct (data_zone_there s z Hv Hz) as [Hthere Hpos]. rewrite decide_False by lia.
  destruct (zmap_only_same s s1 Hzo Hv) as [Hs1 Hd1].
  rewrite write_block_quiet; [|apply (vol_quiet _ (sv_volume _ _ Hs1))|rewrite Hd1; done]. rewrite decide_False by lia.
  do 2 eexists. split; [reflexivity|]. cbn [disk set_disk]. rewrite Hd1. splits; try done.
  apply (same_vol_trans _ _ _ Hs1). rewrite <- Hd1. apply set_disk_same; [apply Hs1|apply blockish_zero|by rewrite Hd1].
Qed.

Lemma set_zone_wf k z n : inode_wf n -> inode_wf (set_zone k z n).
Proof.
  intros (H1 & H2 & H3 & H4 & H5 & H6 & H7 & H8). unfold inode_wf, set_zone. cbn. splits; try lia.
  - by rewrite length_insert.
  - apply Forall_insert; [done|]. unfold u16. change (2 ^ 16) with 65536. pose proof (Z.mod_pos_bound z 65536). lia.
Qed.

Lemma u16_zone s z : volume s -> data_zone s z -> u16 z = z.
Proof. intros Hv Hz. apply u16_id. pose proof (data_zone_there s z Hv Hz). lia. Qed.

Lemma list_zone_fresh d z b : list_zone (blk (<[z := zero_block]> d) z) b = 0.
Proof. unfold blk. rewrite lookup_insert_eq. apply list_zone_zero. Qed.

Lemma inj_of s ns i n : tree_ok s ns -> ns !! i = Some n ->
  forall p q, slot_ok p -> slot_ok q -> val (disk s) n p = val (disk s) n q -> val (disk s) n p <> 0 -> p = q.
Proof. intros Ht Hn p q Hp Hq E Hnz. by destruct (tree_inj s ns Ht i i n n p q). Qed.

(** The block of zone numbers of an inode is there after the first step. *)
Lemma slot_block_spec ns i s n k : volume s -> tree_ok s ns -> ns !! i = Some n -> (k = 7 \/ k = 8)%nat ->
  exists s' n' r, slot_block s n k true = Ok (s', n', r) /\
  match r with
  | inl e => e = - ENOSPC /\ s' = s /\ n' = n /\ full s
  | inr (h, b) => grow None ns i s n s' n' /\ h = zone_of n' k /\ h <> 0 /\ b = blk (disk s') h /\
                  (zone_of n k <> 0 -> s' = s /\ n' = n)
  end.
Proof.
  intros Hv Ht Hn Hk. assert (Hok : slot_ok (Top k)) by (cbn; lia). unfold slot_block. case_decide as E.
  - destruct (alloc_cleared_spec s Hv) as (s1 & r & -> & Hr). cbn [negb mbind outcome_bind]. destruct r as [e|z].
    { destruct Hr as (-> & -> & ?). do 3 eexists. split; [reflexivity|done]. }
    destruct Hr as (Hz & Hf & Hsv & Hd & Hfr). pose proof (u16_zone s z Hv Hz) as Hu. pose proof (data_zone_there s z Hv Hz) as [_ Hpos].
    pose proof (tree_wf s ns Ht i n Hn) as Hwf. assert (Hlen : length (i_zone n) = 9%nat) by apply Hwf.
    do 3 eexists. split; [reflexivity|]. cbv beta iota. splits; try done.
    + apply (grow_graft None ns i s s1 n (set_zone k z n) (Top k) z); auto; try (by apply set_zone_wf); try done.
      * left. cbn. lia.
      * intros p Hp. rewrite Hd. rewrite val_set_top; [|lia|done|done|done|intros _ c _; rewrite E, entry_0; unfold entry; rewrite decide_False by lia; apply list_zone_fresh].
        case_decide; [done|]. apply val_frame; [done|]. intros q Hq Hm Hnz. apply lookup_insert_ne.
        intros ->. by apply (free_not_val s ns i n q (val (disk s) n q)).
      * intros y Hy _. rewrite Hd. by rewrite lookup_insert_ne.
    + rewrite zone_of_set by lia. by rewrite decide_True.
    + lia.
    + unfold blk. by rewrite Hd, lookup_insert_eq.
  - destruct (tree_used s ns Ht i n (Top k) Hn Hok E) as [Hz _]. destruct (blk_there s _ Hv Hz) as [Hb _]. cbn [val] in Hb.
    rewrite (read_block_quiet s _ _ (vol_quiet s Hv) Hb). do 3 eexists. split; [reflexivity|]. cbv beta iota. splits; try done. by apply grow_refl.
Qed.

Lemma child_ok hp k : slot_ok hp -> is_meta hp -> 0 <= k < 512 -> slot_ok (child hp k).
Proof. destruct hp as [j|i|a|a b]; cbn; intros H1 H2 H3; try done. assert (j = 7 \/ j = 8)%nat as [->| ->] by lia; done. Qed.

Lemma child_list_zone d n hp k : slot_ok hp -> is_meta hp -> val d n hp <> 0 -> list_zone (blk d (val d n hp)) k = val d n (child hp k).
Proof. intros H1 H2 H3. rewrite child_val by done. unfold entry. by rewrite decide_False. Qed.

(** Storing a fresh zone in an entry of a block the tree already has.  [s1] is
    the state after the zone was taken, and cleared when it will hold zone
    numbers. *)
Lemma grow_put t ns i s s1 n hp k z : volume s -> tree_ok s ns -> ns !! i = Some n -> slot_ok hp -> is_meta hp -> 0 <= k < 512 ->
  val (disk s) n hp <> 0 -> val (disk s) n (child hp k) = 0 -> data_zone s z -> zfree s z = true -> same_vol s s1 ->
  (disk s1 = <[z := zero_block]> (disk s) \/ disk s1 = disk s /\ ~ is_meta (child hp k)) ->
  (forall y, zfree s1 y = if decide (y = z) then false else zfree s y) -> is_meta (child hp k) \/ t = Some (child hp k) ->
  let s2 := set_disk (<[val (disk s) n hp := put_zone (blk (disk s) (val (disk s) n hp)) k z]> (disk s1)) s1 in
  minix_write_block s1 (val (disk s) n hp) (put_zone (blk (disk s) (val (disk s) n hp)) k z) = (s2, 0) /\
  grow t ns i s n s2 n /\ val (disk s2) n (child hp k) = z.
Proof.
  intros Hv Ht Hn Hok Hm Hk Hnz Hold Hz Hf Hsv Hd Hfr Ht'. set (h := val (disk s) n hp) in *. cbv zeta.
  pose proof (u16_zone s z Hv Hz) as Hu. pose proof (data_zone_there s z Hv Hz) as [_ Hpos].
  destruct (tree_used s ns Ht i n hp Hn Hok Hnz) as [Hhz Hhf]. destruct (blk_there s h Hv Hhz) as [Hhb Hbb].
  assert (Hzh : z <> h) by (intros ->; unfold h in *; congruence).
  assert (Hd1 : forall y, y <> z -> disk s1 !! y = disk s !! y).
  { intros y Hy. destruct Hd as [->|[-> _]]; [by rewrite lookup_insert_ne|done]. }
  assert (Hval1 : forall p, slot_ok p -> val (disk s1) n p = val (disk s) n p).
  { intros p Hp. apply val_frame; [done|]. intros q Hq _ Hq0. apply Hd1. apply (free_not_val s ns i n q z); auto; lia. }
  assert (Hh1 : val (disk s1) n hp = h) by auto.
  assert (Hb1 : blk (disk s1) h = blk (disk s) h) by (unfold blk; rewrite Hd1 by done; done).
  assert (Hnew : forall p, slot_ok p -> val (<[h := put_zone (blk (disk s) h) k z]> (disk s1)) n p = if decide (p = child hp k) then z else val (disk s) n p).
  { intros p Hp. rewrite <- Hb1. rewrite <- Hh1 at 1 2. rewrite (val_put (disk s1) n); auto.
    - by rewrite Hval1.
    - intros p' q' Hp' Hq'. rewrite !Hval1 by done. by apply (inj_of s ns i n).
    - by rewrite Hh1.
    - rewrite Hh1, Hb1. apply Hbb.
    - by rewrite Hh1.
    - intros Hcm c Hc. rewrite (Hval1 (child hp k)) by (by apply child_ok). rewrite Hold, entry_0. destruct Hd as [->|[_ ?]]; [|done].
      unfold entry. rewrite decide_False by lia. apply list_zone_fresh. }
  assert (Hthere : is_Some (disk s1 !! h)) by (rewrite Hd1, Hhb by done; eauto).
  split; [by apply write_block_quiet; [apply (vol_quiet _ (sv_volume _ _ Hsv))|]|].
  assert (Hsv2 : same_vol s (set_disk (<[h := put_zone (blk (disk s) h) k z]> (disk s1)) s1)).
  { apply (same_vol_trans _ _ _ Hsv). apply set_disk_same; [apply Hsv|by apply blockish_put_zone|done]. }
  split; [|cbn [disk set_disk]; rewrite Hnew by (by apply child_ok); by rewrite decide_True].
  apply (grow_graft t ns i s _ n n (child hp k) z); auto.
  - by apply child_ok.
  - by apply (tree_wf s ns Ht i).
  - done.
  - intros y Hy Hne. cbn [disk set_disk]. rewrite lookup_insert_ne by (apply Hne; done). by apply Hd1.
Qed.

Lemma zone_in_list_spec ns i s n hp k : volume s -> tree_ok s ns -> ns !! i = Some n -> slot_ok hp -> is_meta hp -> 0 <= k < 512 ->
  val (disk s) n hp <> 0 -> ~ is_meta (child hp k) ->
  exists s' e z, zone_in_list s (val (disk s) n hp) (blk (disk s) (val (disk s) n hp)) k true = Ok (s', e, z) /\
  ((e = - ENOSPC /\ s' = s /\ full s) \/
   (e = 0 /\ grow (Some (child hp k)) ns i s n s' n /\ z = val (disk s') n (child hp k) /\ z <> 0 /\
    (val (disk s) n (child hp k) <> 0 -> s' = s))).
Proof.
  intros Hv Ht Hn Hok Hm Hk Hnz Hcm. unfold zone_in_list. rewrite !(child_list_zone _ _ hp k) by done. case_decide as E.
  { do 3 eexists. split; [reflexivity|right]. splits; try done. by apply grow_refl. }
  cbn [negb].
  destruct (minix_alloc_zone_spec s Hv) as (s1 & z & -> & [(-> & -> & Hfull)|(Hz & Hf & Hzo & Hfr)]); cbn [mbind outcome_bind].
  { rewrite decide_True by done. do 3 eexists. split; [reflexivity|by left]. }
  pose proof (data_zone_there s z Hv Hz) as [_ Hpos]. rewrite decide_False by lia.
  destruct (zmap_only_same s s1 Hzo Hv) as [Hs1 Hd1].
  destruct (grow_put (Some (child hp k)) ns i s s1 n hp k z) as (-> & Hg & Hval); auto. rewrite decide_False by lia.
  do 3 eexists. split; [reflexivity|right]. rewrite Hval.
  destruct (tree_used s ns Ht i n hp Hn Hok Hnz) as [Hhz _]. destruct (blk_there s _ Hv Hhz) as [_ Hbb].
  rewrite list_zone_put by (apply Hbb || done). rewrite decide_True, (u16_zone s) by done. splits; auto; [lia|congruence].
Qed.

Lemma listed_block_spec ns i s n a : volume s -> tree_ok s ns -> ns !! i = Some n -> 0 <= a < 512 -> zone_of n 8 <> 0 ->
  exists s' r, listed_block s (zone_of n 8) (blk (disk s) (zone_of n 8)) a true = Ok (s', r) /\
  match r with
  | inl e => e = - ENOSPC /\ s' = s /\ full s
  | inr (h, b) => grow None ns i s n s' n /\ h = val (disk s') n (Dind a) /\ h <> 0 /\ b = blk (disk s') h /\
                  (val (disk s) n (Dind a) <> 0 -> s' = s)
  end.
Proof.
  intros Hv Ht Hn Ha Hnz. assert (Hok : slot_ok (Top 8)) by (cbn; lia). assert (Hm : is_meta (Top 8)) by (cbn; lia).
  pose proof (child_list_zone (disk s) n (Top 8) a Hok Hm Hnz) as Hc. cbn [val child] in Hc.
  unfold listed_block. rewrite Hc. change (entry (disk s) (zone_of n 8) a) with (val (disk s) n (Dind a)). case_decide as E.
  - destruct (alloc_cleared_spec s Hv) as (s1 & r & -> & Hr). cbn [negb mbind outcome_bind]. destruct r as [e|z].
    { destruct Hr as (-> & -> & ?). do 2 eexists. split; [reflexivity|done]. }
    destruct Hr as (Hz & Hf & Hsv & Hd & Hfr). pose proof (data_zone_there s z Hv Hz) as [_ Hpos].
    destruct (grow_put None ns i s s1 n (Top 8) a z) as (Hw & Hg & Hval); auto; [by left|].
    cbn [val child] in Hw. rewrite Hw. rewrite decide_False by lia. do 2 eexists. split; [reflexivity|]. cbv beta iota. splits; try done; [lia|].
    unfold blk. cbn [disk set_disk]. rewrite lookup_insert_ne; [by rewrite Hd, lookup_insert_eq|].
    destruct (tree_used s ns Ht i n (Top 8) Hn Hok Hnz) as [_ Hu]. cbn [val] in Hu. congruence.
  - destruct (tree_used s ns Ht i n (Dind a) Hn Ha E) as [Hz _]. destruct (blk_there s _ Hv Hz) as [Hb _].
    rewrite (read_block_quiet s _ _ (vol_quiet s Hv) Hb). do 2 eexists. split; [reflexivity|]. cbv beta iota. splits; try done. by apply grow_refl.
Qed.

(** ** The zone behind an index of the file *)

Definition MAX_ZONE_IDX : Z := 262663.

Definition dslot (idx : Z) : slot :=
  if decide (idx < 7) then Top (Z.to_nat idx)
  else if decide (idx < 519) then Ind (idx - 7)
  else Leaf ((idx - 519) / 512) ((idx - 519) mod 512).

Lemma dslot_ok idx : 0 <= idx < MAX_ZONE_IDX -> slot_ok (dslot idx) /\ ~ is_meta (dslot idx).
Proof.
  unfold MAX_ZONE_IDX, dslot. intros H. repeat case_decide; cbn; try lia.
  split; [|tauto]. split; Z.to_euclidean_division_equations; lia.
Qed.

Lemma dslot_inj i j : 0 <= i < MAX_ZONE_IDX -> 0 <= j < MAX_ZONE_IDX -> dslot i = dslot j -> i = j.
Proof.
  unfold MAX_ZONE_IDX, dslot. intros Hi Hj H. repeat case_decide; simplify_eq; try lia.
  Z.to_euclidean_division_equations; lia.
Qed.

Lemma grow_weaken ns i s n s' n' t : grow None ns i s n s' n' -> grow t ns i s n s' n'.
Proof. intros []. constructor; auto. Qed.

Lemma zone_at_alloc ns i s n idx : volume s -> tree_ok s ns -> ns !! i = Some n -> 0 <= idx < MAX_ZONE_IDX ->
  exists s' n' e z, minix_inode_zone_at s n idx true = Ok (s', n', e, z) /\ grow (Some (dslot idx)) ns i s n s' n' /\
  ((e = - ENOSPC /\ full s') \/
   (e = 0 /\ z = val (disk s') n' (dslot idx) /\ z <> 0 /\ (val (disk s) n (dslot idx) <> 0 -> s' = s /\ n' = n))).
Proof.
  intros Hv Ht Hn Hidx. unfold MAX_ZONE_IDX in Hidx. unfold minix_inode_zone_at, MINIX_INDIRECT_ZONES, MINIX_DINDIRECT_ZONES, dslot.
  destruct (decide (idx < 7)) as [H7|H7].
  { assert (Hok : slot_ok (Top (Z.to_nat idx))) by (cbn; lia). pose proof (tree_wf s ns Ht i n Hn) as Hwf.
    case_decide as E; [|do 4 eexists; split; [reflexivity|split; [by apply grow_refl|right; done]]]. cbn [negb].
    destruct (minix_alloc_zone_spec s Hv) as (s1 & z & -> & [(-> & -> & Hfull)|(Hz & Hf & Hzo & Hfr)]); cbn [mbind outcome_bind].
    { rewrite decide_True by done. do 4 eexists. split; [reflexivity|]. split; [by apply grow_refl|by left]. }
    pose proof (data_zone_there s z Hv Hz) as [_ Hpos]. rewrite decide_False by lia.
    destruct (zmap_only_same s s1 Hzo Hv) as [Hs1 Hd1]. pose proof (u16_zone s z Hv Hz) as Hu.
    assert (Hl : length (i_zone n) = 9%nat) by apply Hwf.
    assert (Hz' : zone_of (set_zone (Z.to_nat idx) z n) (Z.to_nat idx) = z) by (rewrite zone_of_set by lia; by rewrite decide_True).
    do 4 eexists. split; [reflexivity|]. split; [|right; splits; [done|done|rewrite Hz'; lia|intros; cbn [val] in *; congruence]].
    apply (grow_graft _ ns i s s1 n (set_zone (Z.to_nat idx) z n) (Top (Z.to_nat idx)) z); auto; try (by apply set_zone_wf); try done.
    - intros p Hp. rewrite Hd1. apply val_set_top; auto; intros; cbn in *; lia.
    - intros y _ _. by rewrite Hd1. }
  change (7 + 512) with 519. destruct (decide (idx < 519)) as [H5|H5].
  { destruct (slot_block_spec ns i s n 7 Hv Ht Hn ltac:(auto)) as (s1 & n1 & r & -> & Hr). cbn [mbind outcome_bind].
    destruct r as [e|[h b]]; [destruct Hr as (-> & -> & -> & ?); do 4 eexists; split; [reflexivity|]; split; [by apply grow_refl|by left]|].
    destruct Hr as (Hg1 & -> & Hh & -> & Hsame1). pose proof (sv_volume _ _ (gr_vol _ _ _ _ _ _ _ Hg1)) as Hv1. pose proof (gr_tree _ _ _ _ _ _ _ Hg1) as Ht1.
    destruct (zone_in_list_spec (<[i := n1]> ns) i s1 n1 (Top 7) (idx - 7)) as (s2 & e & z & E2 & Hr2); auto; try (cbn; lia); [apply lookup_insert_eq|].
    cbn [val child] in E2. rewrite E2. cbn [mbind outcome_bind]. do 4 eexists. split; [reflexivity|]. cbn [child] in Hr2.
    destruct Hr2 as [(-> & -> & Hfull)|(-> & Hg2 & -> & Hz & Hsame2)].
    - split; [by apply grow_weaken|by left].
    - split; [by apply (grow_trans _ ns i s n s1 n1); [..|apply grow_weaken|]|]. right. splits; try done.
      intros Hold. assert (zone_of n 7 <> 0) as H0 by (by apply entry_nz in Hold). destruct (Hsame1 H0) as [-> ->]. split; [by apply Hsame2|done]. }
  rewrite decide_False by lia. set (a := (idx - 7 - 512) / 512). set (c := (idx - 7 - 512) mod 512).
  replace ((idx - 519) / 512) with a by (unfold a; f_equal; lia). replace ((idx - 519) mod 512) with c by (unfold c; f_equal; lia).
  assert (Ha : 0 <= a < 512) by (unfold a; Z.to_euclidean_division_equations; lia).
  assert (Hc : 0 <= c < 512) by (unfold c; Z.to_euclidean_division_equations; lia).
  destruct (slot_block_spec ns i s n 8 Hv Ht Hn ltac:(auto)) as (s1 & n1 & r & -> & Hr). cbn [mbind outcome_bind].
  destruct r as [e|[h b]]; [destruct Hr as (-> & -> & -> & ?); do 4 eexists; split; [reflexivity|]; split; [by apply grow_refl|by left]|].
  destruct Hr as (Hg1 & -> & Hh & -> & Hsame1). pose proof (sv_volume _ _ (gr_vol _ _ _ _ _ _ _ Hg1)) as Hv1. pose proof (gr_tree _ _ _ _ _ _ _ Hg1) as Ht1.
  destruct (listed_block_spec (<[i := n1]> ns) i s1 n1 a) as (s2 & r & -> & Hr); auto; [apply lookup_insert_eq|]. cbn [mbind outcome_bind].
  destruct r as [e|[h b]].
  { destruct Hr as (-> & -> & Hfull). do 4 eexists. split; [reflexivity|]. split; [by apply grow_weaken|by left]. }
  destruct Hr as (Hg2 & -> & Hh2 & -> & Hsame2). pose proof (sv_volume _ _ (gr_vol _ _ _ _ _ _ _ Hg2)) as Hv2. pose proof (gr_tree _ _ _ _ _ _ _ Hg2) as Ht2.
  destruct (zone_in_list_spec (<[i := n1]> (<[i := n1]> ns)) i s2 n1 (Dind a) c) as (s3 & e & z & E3 & Hr3); [done|done|apply lookup_insert_eq|done|done|done|done|cbn; tauto|].
  rewrite E3. cbn [mbind outcome_bind child] in *. do 4 eexists. split; [reflexivity|]. rewrite insert_insert_eq in *.
  assert (Hg12 : grow None ns i s n s2 n1) by (by apply (grow_trans _ ns i s n s1 n1)).
  destruct Hr3 as [(-> & -> & Hfull)|(-> & Hg3 & -> & Hz & Hsame3)].
  - split; [by apply grow_weaken|by left].
  - split; [by apply (grow_trans _ ns i s n s2 n1); [..|apply grow_weaken|]|]. right. splits; try done.
    intros Hold. assert (val (disk s) n (Dind a) <> 0) as H1 by (by apply entry_nz in Hold).
    assert (zone_of n 8 <> 0) as H0 by (by apply entry_nz in H1). destruct (Hsame1 H0) as [-> ->]. rewrite (Hsame2 H1) in *. split; [by apply Hsame3|done].
Qed.

(** Looking the zone up changes nothing and finds a hole as 0. *)
Lemma zone_at_read ns i s n idx : volume s -> tree_ok s ns -> ns !! i = Some n -> 0 <= idx < MAX_ZONE_IDX ->
  minix_inode_zone_at s n idx false = Ok (s, n, 0, val (disk s) n (dslot idx)).
Proof.
  intros Hv Ht Hn Hidx. unfold MAX_ZONE_IDX in Hidx. unfold minix_inode_zone_at, MINIX_INDIRECT_ZONES, MINIX_DINDIRECT_ZONES, dslot.
  assert (Hin : forall hp k, slot_ok hp -> is_meta hp -> val (disk s) n hp <> 0 ->
    zone_in_list s (val (disk s) n hp) (blk (disk s) (val (disk s) n hp)) k false = Ok (s, 0, val (disk s) n (child hp k))).
  { intros hp k H1 H2 H3. unfold zone_in_list. rewrite !(child_list_zone _ _ hp k) by done. by case_decide as E; [|rewrite E]. }
  assert (Hrd : forall p, slot_ok p -> val (disk s) n p <> 0 -> minix_read_block s (val (disk s) n p) = (s, inr (blk (disk s) (val (disk s) n p)))).
  { intros p Hp Hnz. destruct (tree_used s ns Ht i n p Hn Hp Hnz) as [Hz _]. apply read_block_quiet; [apply Hv|]. by apply blk_there. }
  destruct (decide (idx < 7)) as [H7|H7]; [cbn [val]; case_decide as E; [by rewrite E|done]|].
  change (7 + 512) with 519. destruct (decide (idx < 519)) as [H5|H5].
  { unfold slot_block. case_decide as E; cbn [negb mbind outcome_bind val]; [by rewrite E|].
    rewrite (Hrd (Top 7) ltac:(cbn; lia) E : minix_read_block s (zone_of n 7) = _). cbn [mbind outcome_bind val].
    pose proof (Hin (Top 7) (idx - 7)) as H. cbn [val child] in H. rewrite H by (cbn; auto with lia). done. }
  rewrite decide_False by lia. set (a := (idx - 7 - 512) / 512). set (c := (idx - 7 - 512) mod 512).
  replace ((idx - 519) / 512) with a by (unfold a; f_equal; lia). replace ((idx - 519) mod 512) with c by (unfold c; f_equal; lia).
  assert (Ha : 0 <= a < 512) by (unfold a; Z.to_euclidean_division_equations; lia).
  unfold slot_block. case_decide as E; cbn [negb mbind outcome_bind]; [cbn [val]; by rewrite E|].
  rewrite (Hrd (Top 8) ltac:(cbn; lia) E : minix_read_block s (zone_of n 8) = _). cbn [mbind outcome_bind val].
  unfold listed_block. pose proof (child_list_zone (disk s) n (Top 8) a ltac:(cbn; lia) ltac:(cbn; lia) E) as Hcz. cbn [val child] in Hcz.
  rewrite Hcz. case_decide as E2; cbn [negb mbind outcome_bind]; [cbn [val]; by rewrite E2|].
  rewrite (Hrd (Dind a) Ha E2 : minix_read_block s (entry (disk s) (zone_of n 8) a) = _). cbn [mbind outcome_bind val]. pose proof (Hin (Dind a) c) as H. cbn [val child] in H. rewrite H by done. done.
Qed.
