(* ===== verification/MinixContent.v ===== *)
(** * MINIX files: contents

    [fbyte d n o] is the byte at offset [o] of the file behind an inode: a hole
    reads as 0.  The read loop delivers these bytes, and the write loop stores
    the source there and keeps every other byte of the blocks the file had. *)

From S2P Require Import Prelude Bytes CString Perm Minix MinixFile MinixZones MinixTree.

Definition MAX_OFFSET : Z := MAX_ZONE_IDX * 1024.

Definition fzone (d : gmap Z (list Z)) (n : minix_inode_t) (idx : Z) : Z := val d n (dslot idx).

Definition fbyte (d : gmap Z (list Z)) (n : minix_inode_t) (o : Z) : Z :=
  let z := fzone d n (o / 1024) in if decide (z = 0) then 0 else byte_at (blk d z) (Z.to_nat (o mod 1024)).

(** [len] bytes from [o] on. *)
Definition frange (d : gmap Z (list Z)) (n : minix_inode_t) (o : Z) (len : nat) : list Z :=
  map (fun k => fbyte d n (o + Z.of_nat k)) (seq 0 len).

Lemma idx_ok o : 0 <= o < MAX_OFFSET -> 0 <= o / 1024 < MAX_ZONE_IDX.
Proof. unfold MAX_OFFSET. intros. Z.to_euclidean_division_equations. lia. Qed.

Lemma length_frange d n o len : length (frange d n o len) = len.
Proof. unfold frange. by rewrite length_map, length_seq. Qed.

Lemma lookup_frange d n o len k : (k < len)%nat -> frange d n o len !! k = Some (fbyte d n (o + Z.of_nat k)).
Proof. intros. unfold frange. rewrite list_lookup_fmap, lookup_seq_lt by done. done. Qed.

Lemma frange_app d n o l1 l2 : frange d n o (l1 + l2) = frange d n o l1 ++ frange d n (o + Z.of_nat l1) l2.
Proof.
  apply list_eq. intros k. destruct (decide (k < l1)%nat) as [H1|H1].
  - rewrite lookup_app_l by (rewrite length_frange; done). rewrite !lookup_frange by lia. done.
  - rewrite lookup_app_r, length_frange by (rewrite length_frange; lia). destruct (decide (k < l1 + l2)%nat) as [H2|H2].
    + rewrite !lookup_frange by lia. do 2 f_equal. lia.
    + rewrite !lookup_ge_None_2 by (rewrite length_frange; lia). done.
Qed.

(** A stretch inside one block. *)
Lemma frange_block d n o len : 0 <= o -> o mod 1024 + Z.of_nat len <= 1024 ->
  frange d n o len = if decide (fzone d n (o / 1024) = 0) then replicate len 0
                     else map (fun k => byte_at (blk d (fzone d n (o / 1024))) (Z.to_nat (o mod 1024) + k)) (seq 0 len).
Proof.
  intros Ho Hl. unfold frange.
  assert (H : forall k, (k < len)%nat -> (o + Z.of_nat k) / 1024 = o / 1024 /\ (o + Z.of_nat k) mod 1024 = o mod 1024 + Z.of_nat k)
    by (intros; split; Z.to_euclidean_division_equations; lia).
  case_decide as E.
  - apply list_eq. intros k. rewrite list_lookup_fmap. destruct (decide (k < len)%nat) as [Hk|Hk].
    + rewrite lookup_seq_lt by done. rewrite lookup_replicate_2 by done. cbn [fmap option_fmap option_map Nat.add]. f_equal. unfold fbyte.
      rewrite (proj1 (H k Hk)), E. by rewrite decide_True.
    + rewrite lookup_seq_ge by lia. symmetry. apply lookup_ge_None. rewrite length_replicate. lia.
  - apply map_ext_in. intros k [_ Hk]%in_seq. cbn in Hk. unfold fbyte. destruct (H k Hk) as [-> ->]. rewrite decide_False by done. f_equal.
    rewrite Z2Nat.inj_add by (try apply Z.mod_pos_bound; lia). lia.
Qed.

Lemma take_drop_bytes b o len : (o + len <= length b)%nat -> take len (drop o b) = map (fun k => byte_at b (o + k)) (seq 0 len).
Proof.
  intros H. apply list_eq. intros k. rewrite list_lookup_fmap. destruct (decide (k < len)%nat) as [Hk|Hk].
  - rewrite lookup_take_lt by done. rewrite lookup_drop, lookup_seq_lt by done. cbn [fmap option_fmap option_map Nat.add]. unfold byte_at.
    destruct (b !! (o + k)%nat) eqn:E; [done|]. apply lookup_ge_None in E. lia.
  - rewrite lookup_take_ge by lia. rewrite lookup_seq_ge by lia. done.
Qed.

(** ** Edits of one file

    What any step of a write does outside the file's own bytes: zones that were
    free may now belong to it, nothing else changes. *)

Record edit (ns : gmap Z minix_inode_t) (i : Z) (s : minix_state) (n : minix_inode_t) (s' : minix_state) (n' : minix_inode_t) : Prop := {
  ed_vol : same_vol s s';
  ed_tree : tree_ok s' (<[i := n']> ns);
  ed_attrs : same_attrs n n';
  ed_mono : forall p, slot_ok p -> val (disk s) n p <> 0 -> val (disk s') n' p = val (disk s) n p;
  ed_others : forall j m p, j <> i -> ns !! j = Some m -> slot_ok p -> val (disk s') m p = val (disk s) m p;
  ed_blocks : forall y, zfree s y = false -> (forall p, slot_ok p -> val (disk s) n p <> y) -> disk s' !! y = disk s !! y;
  ed_free : forall y, zfree s' y = true -> zfree s y = true;
  ed_fresh : forall p, slot_ok p -> val (disk s) n p = 0 -> val (disk s') n' p <> 0 -> zfree s (val (disk s') n' p) = true;
  ed_new : forall y, zfree s y = true -> zfree s' y = false -> exists p, slot_ok p /\ val (disk s') n' p = y
}.

Lemma grow_edit t ns i s n s' n' : grow t ns i s n s' n' -> edit ns i s n s' n'.
Proof. intros [V T A M D O B F R N]. constructor; auto. Qed.

Lemma edit_refl ns i s n : volume s -> tree_ok s ns -> ns !! i = Some n -> edit ns i s n s n.
Proof. intros. apply (grow_edit None). by apply grow_refl. Qed.

Lemma edit_trans ns i s n s1 n1 s2 n2 : volume s -> edit ns i s n s1 n1 -> edit (<[i := n1]> ns) i s1 n1 s2 n2 -> edit ns i s n s2 n2.
Proof.
  intros Hv [V1 T1 A1 M1 O1 B1 F1 R1 N1] [V2 T2 A2 M2 O2 B2 F2 R2 N2]. rewrite insert_insert_eq in T2.
  assert (Hn1 : forall j m, j <> i -> ns !! j = Some m -> <[i := n1]> ns !! j = Some m) by (intros; by rewrite lookup_insert_ne).
  assert (Hfresh : forall p, slot_ok p -> val (disk s) n p = 0 -> val (disk s2) n2 p <> 0 -> zfree s (val (disk s2) n2 p) = true).
  { intros p Hp H0 H2. destruct (decide (val (disk s1) n1 p = 0)) as [E|E]; [auto|]. rewrite M2 in * by done. auto. }
  constructor; [by apply (same_vol_trans _ s1)|exact T2| | | | |auto|exact Hfresh|].
  - destruct A1 as (?&?&?&?&?&?), A2 as (?&?&?&?&?&?). unfold same_attrs. splits; congruence.
  - intros p Hp Hnz. rewrite M2, M1; auto. rewrite M1; auto.
  - intros j m p Hne Hm Hp. rewrite (O2 j), (O1 j); auto.
  - intros y Hy Hne. rewrite B2, B1; auto.
    + destruct (zfree s1 y) eqn:E; [|done]. rewrite F1 in Hy by done. done.
    + intros p Hp E. destruct (decide (val (disk s) n p = 0)) as [H0|H0].
      * destruct (decide (y = 0)) as [->|Hy0]; [by apply (Hne p)|]. rewrite <- E, R1 in Hy; congruence.
      * apply (Hne p Hp). rewrite <- E. symmetry. by apply M1.
  - intros y Hy Hy2. destruct (zfree s1 y) eqn:E; [by apply N2|]. destruct (N1 y Hy E) as (p & Hp & Ep). exists p. split; [done|].
    rewrite <- Ep. apply M2; [done|]. rewrite Ep. pose proof (zfree_pos s y Hv Hy). lia.
Qed.

(** Overwriting a block of contents leaves the tree alone. *)
Lemma edit_data ns i s n p b : volume s -> tree_ok s ns -> ns !! i = Some n -> slot_ok p -> ~ is_meta p -> val (disk s) n p <> 0 -> blockish b ->
  let s' := set_disk (<[val (disk s) n p := b]> (disk s)) s in
  edit ns i s n s' n /\ (forall j m q, ns !! j = Some m -> slot_ok q -> val (disk s') m q = val (disk s) m q).
Proof.
  intros Hv Ht Hn Hp Hnm Hnz Hb s'. destruct (tree_used s ns Ht i n p Hn Hp Hnz) as [Hz Hu].
  destruct (blk_there s _ Hv Hz) as [Hthere _].
  assert (Hval : forall j m q, ns !! j = Some m -> slot_ok q -> val (disk s') m q = val (disk s) m q).
  { intros j m q Hm Hq. apply val_frame; [done|]. intros q' Hq' Hm' Hnz'. apply lookup_insert_ne. intros E.
    destruct (tree_inj s ns Ht i j n m p q') as [_ ->]; congruence. }
  split; [|exact Hval].
  constructor.
  - apply set_disk_same; [done..|]. rewrite Hthere. eauto.
  - rewrite insert_id by done. destruct Ht as [Hwf Hus Hinj]. constructor; [done| |].
    + intros j m q Hm Hq. rewrite (Hval j m q Hm Hq). apply (Hus j m q Hm Hq).
    + intros j k m m' q q' Hm Hm' Hq Hq'. rewrite (Hval j m q Hm Hq), (Hval k m' q' Hm' Hq'). by apply Hinj.
  - done.
  - intros q Hq _. by apply (Hval i).
  - intros j m q _ Hm Hq. by apply (Hval j).
  - intros y _ Hne. apply lookup_insert_ne. by apply Hne.
  - done.
  - intros q Hq H0. rewrite (Hval i n q Hn Hq). done.
  - intros y H1 H2. change (zfree s y = false) in H2. congruence.
Qed.

(** ** The loops *)

Lemma splice_block b w : length w = length b -> splice b 0 w = w.
Proof. intros H. unfold splice. cbn [take app]. rewrite drop_ge by lia. by rewrite app_nil_r. Qed.

Lemma store_chunk_spec ns i s n p o w : volume s -> tree_ok s ns -> ns !! i = Some n -> slot_ok p -> val (disk s) n p <> 0 ->
  (o + length w <= 1024)%nat ->
  store_chunk s (val (disk s) n p) o w = (set_disk (<[val (disk s) n p := splice (blk (disk s) (val (disk s) n p)) o w]> (disk s)) s, 0).
Proof.
  intros Hv Ht Hn Hp Hnz Ho. destruct (tree_used s ns Ht i n p Hn Hp Hnz) as [Hz _]. destruct (blk_there s _ Hv Hz) as [Hb [Hl _]].
  unfold store_chunk, patched. rewrite (read_block_quiet s _ _ (vol_quiet s Hv) Hb).
  assert (Hs : is_Some (disk s !! val (disk s) n p)) by (rewrite Hb; eauto).
  case_decide as E.
  - destruct E as [-> Hw]. rewrite splice_block by lia. apply write_block_quiet; [apply Hv|done].
  - apply write_block_quiet; [apply Hv|done].
Qed.

(** The bytes outside a window, where the file had a block. *)
Definition kept (lo hi : Z) (d : gmap Z (list Z)) (n : minix_inode_t) (d' : gmap Z (list Z)) (n' : minix_inode_t) : Prop :=
  forall o, 0 <= o < MAX_OFFSET -> ~ (lo <= o < hi) -> fzone d n (o / 1024) <> 0 -> fbyte d' n' o = fbyte d n o.

Definition backed (lo hi : Z) (d : gmap Z (list Z)) (n : minix_inode_t) : Prop :=
  forall o, lo <= o < hi -> fzone d n (o / 1024) <> 0.

(** Growing keeps every byte the file had. *)
Lemma grow_bytes t ns i s n s' n' o : tree_ok s ns -> ns !! i = Some n -> grow t ns i s n s' n' -> 0 <= o < MAX_OFFSET ->
  fzone (disk s) n (o / 1024) <> 0 -> fbyte (disk s') n' o = fbyte (disk s) n o /\ fzone (disk s') n' (o / 1024) = fzone (disk s) n (o / 1024).
Proof.
  intros Ht Hn Hg Ho Hz. destruct (dslot_ok _ (idx_ok o Ho)) as [Hok Hnm]. unfold fbyte, fzone in *.
  rewrite (gr_mono _ _ _ _ _ _ _ Hg) by done. split; [|done]. rewrite !decide_False by done. f_equal. unfold blk.
  rewrite (gr_blocks _ _ _ _ _ _ _ Hg); [done| |].
  - by apply (tree_used s ns Ht i n).
  - intros p Hp Hm E. apply Hnm. rewrite <- (inj_of s ns i n Ht Hn p (dslot (o / 1024))); congruence.
Qed.

(** The byte at [o] after a store into the block with index [idx]. *)
Lemma fbyte_store s ns i n idx off w o : volume s -> tree_ok s ns -> ns !! i = Some n -> 0 <= idx < MAX_ZONE_IDX -> fzone (disk s) n idx <> 0 ->
  0 <= off -> off + Z.of_nat (length w) <= 1024 -> 0 <= o < MAX_OFFSET ->
  let d' := <[fzone (disk s) n idx := splice (blk (disk s) (fzone (disk s) n idx)) (Z.to_nat off) w]> (disk s) in
  (forall p, slot_ok p -> val d' n p = val (disk s) n p) ->
  fbyte d' n o = if decide (idx * 1024 + off <= o < idx * 1024 + off + Z.of_nat (length w)) then byte_at w (Z.to_nat (o - (idx * 1024 + off))) else fbyte (disk s) n o.
Proof.
  intros Hv Ht Hn Hidx Hz Hoff Hlen Ho d' Hval. destruct (dslot_ok _ Hidx) as [Hok _]. destruct (dslot_ok _ (idx_ok o Ho)) as [Hok' _].
  destruct (tree_used s ns Ht i n _ Hn Hok Hz) as [Hdz _]. destruct (blk_there s _ Hv Hdz) as [_ [Hbl _]].
  unfold fbyte. replace (fzone d' n (o / 1024)) with (fzone (disk s) n (o / 1024)) by (symmetry; by apply Hval).
  destruct (decide (o / 1024 = idx)) as [<-|Hne].
  - rewrite (decide_False (P := fzone (disk s) n (o / 1024) = 0)) by done. unfold d', blk at 1. rewrite lookup_insert_eq. cbn [default from_option id].
    rewrite byte_at_splice by (unfold fzone in *; lia).
    pose proof (Z.mod_pos_bound o 1024 ltac:(lia)). pose proof (Z.div_mod o 1024 ltac:(lia)).
    destruct (decide (o / 1024 * 1024 + off <= o < o / 1024 * 1024 + off + Z.of_nat (length w))) as [Hin|Hout].
    + rewrite decide_True by lia. f_equal. lia.
    + rewrite decide_False by lia. rewrite decide_False by done. done.
  - rewrite (decide_False (P := idx * 1024 + off <= o < _)) by (Z.to_euclidean_division_equations; lia). case_decide as E; [done|]. f_equal.
    unfold d', blk. rewrite lookup_insert_ne; [done|]. intros E'. apply Hne. symmetry. apply dslot_inj; [done|by apply idx_ok|].
    apply (inj_of s ns i n Ht Hn); done.
Qed.

Lemma edit_fzone ns i s n s' n' o : edit ns i s n s' n' -> 0 <= o < MAX_OFFSET -> fzone (disk s) n (o / 1024) <> 0 ->
  fzone (disk s') n' (o / 1024) = fzone (disk s) n (o / 1024).
Proof. intros He Ho Hz. apply (ed_mono _ _ _ _ _ _ He); [|done]. by apply dslot_ok, idx_ok. Qed.

(** One round: resolve the zone, store the chunk. *)
Lemma write_step ns i s n pos w : volume s -> tree_ok s ns -> ns !! i = Some n -> 0 <= pos -> pos + Z.of_nat (length w) <= MAX_OFFSET -> w <> [] ->
  pos mod 1024 + Z.of_nat (length w) <= 1024 -> bytes w ->
  exists s1 n1 e z, minix_inode_zone_at s n (pos / 1024) true = Ok (s1, n1, e, z) /\
  ((e = - ENOSPC /\ full s1 /\ edit ns i s n s1 n1 /\ kept pos (pos + Z.of_nat (length w)) (disk s) n (disk s1) n1) \/
   (e = 0 /\ exists s2, store_chunk s1 z (Z.to_nat (pos mod 1024)) w = (s2, 0) /\ edit ns i s n s2 n1 /\
    kept pos (pos + Z.of_nat (length w)) (disk s) n (disk s2) n1 /\ backed pos (pos + Z.of_nat (length w)) (disk s2) n1 /\
    forall o, pos <= o < pos + Z.of_nat (length w) -> fbyte (disk s2) n1 o = byte_at w (Z.to_nat (o - pos)))).
Proof.
  intros Hv Ht Hn Hpos Hmax Hne Hfit Hw. pose proof (Z.mod_pos_bound pos 1024 ltac:(lia)) as Hmod. pose proof (Z.div_mod pos 1024 ltac:(lia)) as Hdm.
  assert (0 < length w)%nat by (destruct w; [done|cbn; lia]).
  assert (Hidx : 0 <= pos / 1024 < MAX_ZONE_IDX) by (apply idx_ok; lia).
  assert (Hblk : forall o, pos <= o < pos + Z.of_nat (length w) -> o / 1024 = pos / 1024) by (intros; Z.to_euclidean_division_equations; lia).
  destruct (zone_at_alloc ns i s n _ Hv Ht Hn Hidx) as (s1 & n1 & e & z & -> & Hg & Hr). do 4 eexists. split; [reflexivity|].
  destruct Hr as [[-> Hfull]|(-> & -> & Hz & _)].
  { left. splits; auto; [by apply (grow_edit _ _ _ _ _ _ _ Hg)|]. intros o Ho _ Hzo. by apply (grow_bytes _ ns i s n s1 n1 o Ht Hn Hg). }
  right. split; [done|]. pose proof (sv_volume _ _ (gr_vol _ _ _ _ _ _ _ Hg)) as Hv1. pose proof (gr_tree _ _ _ _ _ _ _ Hg) as Ht1.
  assert (Hn1 : <[i := n1]> ns !! i = Some n1) by apply lookup_insert_eq. destruct (dslot_ok _ Hidx) as [Hok Hnm].
  destruct (tree_used s1 _ Ht1 i n1 _ Hn1 Hok Hz) as [Hdz _]. destruct (blk_there s1 _ Hv1 Hdz) as [_ Hbb].
  eexists. split; [by apply (store_chunk_spec (<[i := n1]> ns) i); auto; lia|].
  destruct (edit_data (<[i := n1]> ns) i s1 n1 (dslot (pos / 1024)) (splice (blk (disk s1) (val (disk s1) n1 (dslot (pos / 1024)))) (Z.to_nat (pos mod 1024)) w))
    as [He Hval]; auto; [apply blockish_splice; auto; lia|].
  assert (He' : edit ns i s n (set_disk (<[val (disk s1) n1 (dslot (pos / 1024)) := splice (blk (disk s1) (val (disk s1) n1 (dslot (pos / 1024)))) (Z.to_nat (pos mod 1024)) w]> (disk s1)) s1) n1)
    by (apply (edit_trans ns i s n s1 n1); auto; by apply (grow_edit _ _ _ _ _ _ _ Hg)).
  assert (Hb : forall o, 0 <= o < MAX_OFFSET -> fbyte (<[val (disk s1) n1 (dslot (pos / 1024)) := splice (blk (disk s1) (val (disk s1) n1 (dslot (pos / 1024)))) (Z.to_nat (pos mod 1024)) w]> (disk s1)) n1 o =
    if decide (pos <= o < pos + Z.of_nat (length w)) then byte_at w (Z.to_nat (o - pos)) else fbyte (disk s1) n1 o).
  { intros o Ho. pose proof (fbyte_store s1 (<[i := n1]> ns) i n1 (pos / 1024) (pos mod 1024) w o Hv1 Ht1 Hn1 Hidx Hz) as H2.
    cbv zeta in H2. etrans; [apply H2; [lia|lia|done|intros p Hp; by apply (Hval i)]|].
    replace (pos / 1024 * 1024 + pos mod 1024) with pos by lia. done. }
  split; [done|]. cbn [disk set_disk]. splits.
  - intros o Ho Hout Hzo. rewrite Hb by done. rewrite decide_False by done. by apply (grow_bytes _ ns i s n s1 n1 o Ht Hn Hg).
  - intros o Ho. rewrite (Hblk o Ho). pose proof (Hval i n1 _ Hn1 Hok) as E'. cbn [disk set_disk] in E'. unfold fzone. by rewrite E'.
  - intros o Ho. rewrite Hb by lia. by rewrite decide_True.
Qed.

Lemma kept_trans lo mid hi d n d1 n1 d2 n2 : lo <= mid <= hi -> kept lo mid d n d1 n1 ->
  (forall o, 0 <= o < MAX_OFFSET -> fzone d n (o / 1024) <> 0 -> fzone d1 n1 (o / 1024) <> 0) ->
  kept mid hi d1 n1 d2 n2 -> kept lo hi d n d2 n2.
Proof. intros Hm H1 Hz H2 o Ho Hout Hzo. rewrite H2, H1; auto; lia. Qed.

Lemma file_write_spec fuel : forall ns i s n pos src, volume s -> tree_ok s ns -> ns !! i = Some n -> 0 <= pos ->
  pos + Z.of_nat (length src) <= MAX_OFFSET -> (src <> [] -> (pos + Z.of_nat (length src)) / 1024 - pos / 1024 + 1 <= Z.of_nat fuel) -> bytes src ->
  exists s' n' e, write_loop fuel s n pos src = Ok (s', n', e) /\ edit ns i s n s' n' /\
  kept pos (pos + Z.of_nat (length src)) (disk s) n (disk s') n' /\
  ((e = - ENOSPC /\ full s') \/
   (e = 0 /\ backed pos (pos + Z.of_nat (length src)) (disk s') n' /\
    forall o, pos <= o < pos + Z.of_nat (length src) -> fbyte (disk s') n' o = byte_at src (Z.to_nat (o - pos)))).
Proof.
  induction fuel as [|fuel IH]; intros ns i s n pos src Hv Ht Hn Hpos Hmax Hfuel Hsrc.
  - destruct src as [|c src]; [|exfalso; specialize (Hfuel ltac:(done)); cbn [length] in *; Z.to_euclidean_division_equations; lia].
    exists s, n, 0. split; [done|]. split; [by apply edit_refl|]. split; [done|]. right. splits; [done|intros o Ho; cbn in Ho; lia|intros o Ho; cbn in Ho; lia].
  - cbn [write_loop]. case_decide as E.
    { subst src. exists s, n, 0. split; [done|]. split; [by apply edit_refl|]. split; [done|]. right. splits; [done|intros o Ho; cbn in Ho; lia|intros o Ho; cbn in Ho; lia]. }
    specialize (Hfuel E). unfold MINIX_BLOCK_SIZE, minix_inode_resolve_zone. pose proof (Z.mod_pos_bound pos 1024 ltac:(lia)) as Hmod.
    set (chunk := Z.min (1024 - pos mod 1024) (Z.of_nat (length src))).
    assert (0 < length src)%nat by (destruct src; [done|cbn; lia]).
    assert (Hlt : length (take (Z.to_nat chunk) src) = Z.to_nat chunk) by (rewrite length_take; lia).
    destruct (write_step ns i s n pos (take (Z.to_nat chunk) src)) as (s1 & n1 & e & z & -> & Hr); auto with ir0; try (rewrite Hlt; lia).
    { intros H0. rewrite H0 in Hlt. cbn in Hlt. lia. }
    rewrite Hlt in Hr. cbn [mbind outcome_bind].
    destruct Hr as [(-> & Hfull & He & Hk)|(-> & s2 & -> & He & Hk & Hb & Hw)].
    { rewrite decide_True by done. do 3 eexists. split; [reflexivity|]. split; [done|]. split; [|by left].
      intros o Ho Hout. apply Hk; [done|lia]. }
    rewrite !decide_False by lia. pose proof (sv_volume _ _ (ed_vol _ _ _ _ _ _ He)) as Hv2. pose proof (ed_tree _ _ _ _ _ _ He) as Ht2.
    destruct (IH (<[i := n1]> ns) i s2 n1 (pos + chunk) (drop (Z.to_nat chunk) src)) as (s3 & n3 & e & -> & He3 & Hk3 & Hr3);
      auto with ir0; try apply lookup_insert_eq; try (rewrite length_drop; lia); try lia.
    { intros Hd. rewrite length_drop. assert (Z.to_nat chunk < length src)%nat by (apply not_ge; intros Hge; apply Hd, drop_ge; lia).
      assert (chunk = 1024 - pos mod 1024) by lia. Z.to_euclidean_division_equations. lia. }
    rewrite length_drop in *. replace (pos + chunk + Z.of_nat (length src - Z.to_nat chunk)) with (pos + Z.of_nat (length src)) in * by lia.
    do 3 eexists. split; [reflexivity|]. split; [by apply (edit_trans ns i s n s2 n1)|].
    assert (Hk' : kept (pos + chunk) (pos + Z.of_nat (length src)) (disk s2) n1 (disk s3) n3) by done.
    split. { apply (kept_trans pos (pos + chunk) _ _ _ (disk s2) n1); [lia|intros o Ho Hout; apply Hk; [done|lia]| |done].
      intros o Ho Hzo. rewrite (edit_fzone _ _ _ _ _ _ o He) by done. done. }
    destruct Hr3 as [[-> Hfull]|(-> & Hb3 & Hw3)]; [by left|]. right. split; [done|]. split.
    + intros o Ho. destruct (decide (o < pos + chunk)); [|apply Hb3; lia]. rewrite (edit_fzone _ _ _ _ _ _ o He3); [apply Hb; lia|lia|apply Hb; lia].
    + intros o Ho. destruct (decide (o < pos + chunk)) as [Hlo|Hhi].
      * rewrite Hk' by (try apply Hb; lia). rewrite Hw by lia. unfold byte_at. rewrite lookup_take_lt by lia. done.
      * rewrite Hw3 by lia. unfold byte_at. rewrite lookup_drop. do 2 f_equal. lia.
Qed.

(** Clearing a range is writing zeros. *)
Lemma zero_loop_write fuel s n pos end_ : 0 <= pos -> zero_loop fuel s n pos end_ = write_loop fuel s n pos (replicate (Z.to_nat (end_ - pos)) 0).
Proof.
  revert s n pos. induction fuel as [|fuel IH]; intros s n pos Hpos; cbn [zero_loop write_loop].
  - destruct (decide (end_ <= pos)) as [H|H].
    + rewrite decide_True; [done|]. by replace (Z.to_nat (end_ - pos)) with 0%nat by lia.
    + rewrite decide_False; [done|]. destruct (Z.to_nat (end_ - pos)) eqn:E; [lia|done].
  - destruct (decide (end_ <= pos)) as [H|H].
    { rewrite decide_True; [done|]. by replace (Z.to_nat (end_ - pos)) with 0%nat by lia. }
    rewrite decide_False by (destruct (Z.to_nat (end_ - pos)) eqn:E; [lia|done]).
    rewrite length_replicate. replace (Z.of_nat (Z.to_nat (end_ - pos))) with (end_ - pos) by lia.
    unfold MINIX_BLOCK_SIZE. set (chunk := Z.min (1024 - pos mod 1024) (end_ - pos)). pose proof (Z.mod_pos_bound pos 1024 ltac:(lia)).
    destruct (minix_inode_resolve_zone s n (pos / 1024) true) as [[[[s1 n1] e] z]| |]; cbn [mbind outcome_bind]; [|done|done].
    case_decide; [done|]. rewrite take_replicate, Nat.min_l by lia. destruct (store_chunk s1 z (Z.to_nat (pos mod 1024)) (replicate (Z.to_nat chunk) 0)) as [s2 r].
    case_decide; [done|]. rewrite IH by lia. f_equal. rewrite drop_replicate. f_equal. lia.
Qed.

Lemma byte_at_replicate n c k : (k < n)%nat -> byte_at (replicate n c) k = c.
Proof. intros. unfold byte_at. by rewrite lookup_replicate_2. Qed.

(** The read loop delivers the bytes of the file. *)
Lemma file_read_spec fuel : forall ns i s n pos remaining acc, volume s -> tree_ok s ns -> ns !! i = Some n -> 0 <= pos -> 0 <= remaining ->
  pos + remaining <= MAX_OFFSET -> (0 < remaining -> (pos + remaining) / 1024 - pos / 1024 + 1 <= Z.of_nat fuel) ->
  read_loop fuel s n pos remaining acc = Ok (s, 0, acc ++ frange (disk s) n pos (Z.to_nat remaining)).
Proof.
  induction fuel as [|fuel IH]; intros ns i s n pos remaining acc Hv Ht Hn Hpos Hrem Hmax Hfuel; cbn [read_loop].
  - assert (remaining = 0) as -> by (destruct (decide (0 < remaining)); [specialize (Hfuel ltac:(done)); Z.to_euclidean_division_equations; lia|lia]).
    rewrite decide_True by done. by rewrite app_nil_r.
  - case_decide as E; [assert (remaining = 0) as -> by lia; by rewrite app_nil_r|]. specialize (Hfuel ltac:(lia)).
    unfold MINIX_BLOCK_SIZE. pose proof (Z.mod_pos_bound pos 1024 ltac:(lia)) as Hmod.
    set (chunk := Z.min (1024 - pos mod 1024) remaining).
    assert (Hsplit : acc ++ frange (disk s) n pos (Z.to_nat remaining) =
      (acc ++ frange (disk s) n pos (Z.to_nat chunk)) ++ frange (disk s) n (pos + chunk) (Z.to_nat (remaining - chunk))).
    { rewrite <- app_assoc. f_equal. replace (Z.to_nat remaining) with (Z.to_nat chunk + Z.to_nat (remaining - chunk))%nat by lia.
      rewrite frange_app. do 2 f_equal. lia. }
    assert (Hidx : 0 <= pos / 1024 < MAX_ZONE_IDX) by (apply idx_ok; lia).
    assert (Hnext : forall acc', read_loop fuel s n (pos + chunk) (remaining - chunk) acc' = Ok (s, 0, acc' ++ frange (disk s) n (pos + chunk) (Z.to_nat (remaining - chunk)))).
    { intros acc'. apply (IH ns i); auto; try lia. intros Hr. assert (chunk = 1024 - pos mod 1024) by lia. Z.to_euclidean_division_equations. lia. }
    rewrite (zone_at_read ns i s n _ Hv Ht Hn Hidx). cbn [mbind outcome_bind]. rewrite decide_False by lia.
    rewrite Hsplit. rewrite (frange_block _ _ pos (Z.to_nat chunk)) by lia. unfold fzone.
    destruct (decide (val (disk s) n (dslot (pos / 1024)) = 0)) as [Ez|Ez]; [apply Hnext|].
    destruct (tree_used s ns Ht i n _ Hn (proj1 (dslot_ok _ Hidx)) Ez) as [Hz _]. destruct (blk_there s _ Hv Hz) as [Hb [Hbl _]].
    rewrite (read_block_quiet s _ _ (vol_quiet s Hv) Hb). rewrite <- take_drop_bytes by lia. apply Hnext.
Qed.
