(* ===== verification/MinixFs.v ===== *)
(** * MINIX volumes as a graph of inodes

    [dinode s i] is inode [i] as it is on disk and [dent d n name] the inode a
    directory gives to a name.  [fs_ok s ns] says that the volume is sound and
    that [ns] is its map of used inodes; on such a volume a path lookup is the
    walk [resolve] along the names of the path. *)

From S2P Require Import Prelude Bytes CString Perm Minix MinixFile MinixZones MinixTree.

(** ** The inode table *)

Definition dinode (s : minix_state) (i : Z) : minix_inode_t := inode_at (blk (disk s) (inode_block s i)) (inode_offset i).

Definition inode_used (s : minix_state) (i : Z) : bool :=
  match inode_bitmap s with Some bm => bitmap_test bm (Z.to_nat i) | None => false end.

Definition inum_ok (s : minix_state) (i : Z) : Prop := 1 <= i <= inode_limit (superblock s).

Lemma inode_limit_bound s : geometry (superblock s) -> 0 <= inode_limit (superblock s) <= 1023.
Proof. intros [_ _ _ H _ _ _ _]. unfold inode_limit, MINIX_MAX_INODES. case_decide as E; unfold MINIX_MAX_INODES in *; lia. Qed.

Lemma table_room k m : 1 <= k <= m -> (k - 1) * 32 / 1024 < (m * 32 + 1023) / 1024.
Proof. intros. Z.to_euclidean_division_equations. lia. Qed.

(** The block of an inode lies between the bitmaps and the data zones. *)
Lemma inode_block_range s i : volume s -> inum_ok s i ->
  2 + s_imap_blocks (superblock s) + s_zmap_blocks (superblock s) <= inode_block s i < s_firstdatazone (superblock s) /\
  (inode_offset i + 32 <= 1024)%nat.
Proof.
  intros Hv Hi. destruct (vol_geo s Hv) as [_ H1 H2 _ _ [H3 _] _ _]. unfold inum_ok in Hi. unfold inode_block, inode_offset, sizeof_inode, MINIX_BLOCK_SIZE.
  split; [|Z.to_euclidean_division_equations; lia]. pose proof (table_room _ _ Hi). assert (0 <= (i - 1) * 32 / 1024) by (apply Z.div_pos; lia). lia.
Qed.

Lemma inode_block_there s i : volume s -> inum_ok s i -> disk s !! inode_block s i = Some (blk (disk s) (inode_block s i)) /\ blockish (blk (disk s) (inode_block s i)).
Proof.
  intros Hv Hi. destruct (inode_block_range s i Hv Hi) as [Hr _]. destruct (vol_geo s Hv) as [_ H1 H2 _ _ _ _ _].
  destruct (vol_there s Hv (inode_block s i)) as [b Hb]; [lia|]. unfold blk. rewrite Hb. split; [done|]. by apply (vol_blocks s Hv (inode_block s i)).
Qed.

Lemma dinode_wf s i : volume s -> inum_ok s i -> inode_wf (dinode s i).
Proof. intros Hv Hi. apply inode_at_wf. by apply inode_block_there. Qed.

Lemma read_inode_spec s i : volume s -> inum_ok s i -> minix_read_inode s i = (s, inr (dinode s i)).
Proof.
  intros Hv Hi. unfold minix_read_inode. pose proof (inode_limit_bound s (vol_geo s Hv)). destruct (vol_geo s Hv) as [Hm H1 H2 _ _ _ _ _].
  unfold inum_ok in Hi. rewrite decide_False by (unfold MINIX_MAX_INODES; lia). rewrite (vol_init s Hv). cbn [negb].
  rewrite decide_False by (rewrite Hm; tauto). rewrite decide_False by lia.
  destruct (inode_block_there s i Hv Hi) as [Hb _]. by rewrite (read_block_quiet s _ _ (vol_quiet s Hv) Hb).
Qed.

Lemma inode_place_inj s i j : inum_ok s i -> inum_ok s j -> inode_block s i = inode_block s j ->
  i = j \/ (inode_offset j + 32 <= inode_offset i)%nat \/ (inode_offset i + 32 <= inode_offset j)%nat.
Proof.
  unfold inum_ok, inode_block, inode_offset, sizeof_inode, MINIX_BLOCK_SIZE. intros Hi Hj E.
  destruct (decide (i = j)); [by left|right]. Z.to_euclidean_division_equations. lia.
Qed.

(** Writing an inode changes that inode and no other block than its own. *)
Lemma write_inode_spec s i n : volume s -> inum_ok s i -> inode_wf n ->
  exists s', minix_fs_write_inode s i n = (s', 0) /\ same_vol s s' /\ (forall y, zfree s' y = zfree s y) /\
  dinode s' i = n /\ (forall j, inum_ok s j -> j <> i -> dinode s' j = dinode s j) /\
  (forall y, y <> inode_block s i -> disk s' !! y = disk s !! y).
Proof.
  intros Hv Hi Hn. destruct (inode_block_there s i Hv Hi) as [Hb Hbb]. destruct (inode_block_range s i Hv Hi) as [_ Ho].
  assert (Hl : length (i_zone n) = 9%nat) by apply Hn. pose proof (length_inode_bytes n Hl) as Hnb.
  unfold minix_fs_write_inode. rewrite decide_False by (unfold inum_ok in Hi; lia). rewrite (read_block_quiet s _ _ (vol_quiet s Hv) Hb).
  rewrite write_block_quiet; [|apply Hv|rewrite Hb; eauto]. rewrite decide_False by tauto.
  eexists. split; [reflexivity|].
  assert (Hblk : forall d z, blk (<[inode_block s i := d]> (disk s)) z = if decide (z = inode_block s i) then d else blk (disk s) z).
  { intros d z. unfold blk. case_decide as E; [subst; by rewrite lookup_insert_eq|by rewrite lookup_insert_ne]. }
  splits.
  - apply set_disk_same; [done| |rewrite Hb; eauto]. apply blockish_splice; [done|apply bytes_inode_bytes|rewrite Hnb; done].
  - done.
  - unfold dinode. cbn [disk set_disk]. change (inode_block (set_disk _ s) i) with (inode_block s i). rewrite Hblk, decide_True by done.
    apply inode_at_splice; [|done]. destruct Hbb as [-> _]. done.
  - intros j Hj Hne. unfold dinode. cbn [disk set_disk]. change (inode_block (set_disk _ s) j) with (inode_block s j). rewrite Hblk.
    case_decide as E; [|done]. rewrite E. destruct (inode_place_inj s j i Hj Hi E) as [?|Hd]; [done|].
    apply inode_at_splice_other; [done|destruct Hbb as [-> _]; done|lia].
  - intros y Hy. cbn [disk set_disk]. by rewrite lookup_insert_ne.
Qed.

(** ** Directories *)

Fixpoint dent_in (d : gmap Z (list Z)) (zs : list Z) (name : list Z) : Z :=
  match zs with
  | [] => 0
  | z :: zs' =>
      if decide (z = 0) then dent_in d zs' name
      else match find_entry (blk d z) name with Some j => entry_inode (blk d z) j | None => dent_in d zs' name end
  end.

Definition dent (d : gmap Z (list Z)) (n : minix_inode_t) (name : list Z) : Z := dent_in d (take 7 (i_zone n)) name.

Lemma dent_in_ext d d' zs name : (forall z, z ∈ zs -> z <> 0 -> d' !! z = d !! z) -> dent_in d' zs name = dent_in d zs name.
Proof.
  induction zs as [|z zs IH]; intros H; [done|]. cbn [dent_in]. rewrite IH by (intros; apply H; [by right|done]).
  case_decide; [done|]. unfold blk. by rewrite H by (try left; done).
Qed.

Lemma find_in_zones_spec s zs name : quiet s -> (forall z, z ∈ zs -> z <> 0 -> is_Some (disk s !! z)) ->
  find_in_zones zs s name = (s, dent_in (disk s) zs name).
Proof.
  intros Hq. induction zs as [|z zs IH]; intros Hz; [done|]. cbn [find_in_zones dent_in]. 
  case_decide; [apply IH; intros; apply Hz; [by right|done]|]. destruct (Hz z) as [b Hb]; [left|done|]. rewrite (read_block_quiet s z b Hq Hb). unfold blk. rewrite Hb. cbn [default from_option id].
  destruct (find_entry b name); [done|]. apply IH. intros; apply Hz; [by right|done].
Qed.

Lemma direct_zone n z : z ∈ take 7 (i_zone n) -> exists k, (k < 7)%nat /\ zone_of n k = z.
Proof. intros (k & Hk)%list_elem_of_lookup. apply lookup_take_Some in Hk as [Hk Hlt]. exists k. split; [done|]. unfold zone_of. by rewrite Hk. Qed.

(** ** Sound volumes and their inodes *)

Record fs_ok (s : minix_state) (ns : gmap Z minix_inode_t) : Prop := {
  fs_vol : volume s;
  fs_table : forall i n, ns !! i = Some n <-> inum_ok s i /\ inode_used s i = true /\ n = dinode s i;
  fs_tree : tree_ok s ns;
  fs_root : exists r, ns !! 1 = Some r /\ is_dirbit r = true;
  fs_closed : forall i n name, ns !! i = Some n -> is_dirbit n = true -> dent (disk s) n name <> 0 -> is_Some (ns !! dent (disk s) n name)
}.

Section fs.
Context (s : minix_state) (ns : gmap Z minix_inode_t) (Hfs : fs_ok s ns).

Lemma live_inode i n : ns !! i = Some n -> inum_ok s i /\ n = dinode s i.
Proof. intros H. apply (fs_table s ns Hfs) in H as (? & _ & ?). done. Qed.

Lemma direct_there i n k : ns !! i = Some n -> (k < 9)%nat -> zone_of n k <> 0 -> data_zone s (zone_of n k) /\ is_Some (disk s !! zone_of n k).
Proof.
  intros Hn Hk Hz. destruct (tree_used s ns (fs_tree s ns Hfs) i n (Top k) Hn Hk Hz) as [Hd _]. split; [done|].
  destruct (blk_there s _ (fs_vol s ns Hfs) Hd) as [Hb _]. cbn [val] in Hb. rewrite Hb. eauto.
Qed.

Lemma find_dir_entry_spec i n name : ns !! i = Some n ->
  minix_fs_find_dir_entry s n name = (s, if is_dirbit n then dent (disk s) n name else 0).
Proof.
  intros Hn. unfold minix_fs_find_dir_entry. destruct (is_dirbit n); [cbn [negb]|done]. apply find_in_zones_spec; [apply (fs_vol s ns Hfs)|].
  intros z (k & Hk & <-)%direct_zone Hz. by apply (direct_there i n k Hn ltac:(lia)).
Qed.
End fs.

(** ** Paths *)

Fixpoint names_of (l : list (list Z)) : list (list Z) := match l with [] => [] | x :: l' => if decide (x = []) then [] else x :: names_of l' end.

Definition unrooted (p : list Z) : list Z := match p with c :: p' => if decide (c = SLASH) then p' else p | [] => [] end.

(** The names [minix_lookup] walks along: the first 255 bytes, up to the first
    empty component. *)
Definition path_names (path : list Z) : list (list Z) := names_of (split_slash (unrooted (take 255 path))).

Fixpoint resolve (get : Z -> minix_inode_t) (d : gmap Z (list Z)) (num : Z) (names : list (list Z)) : Z + Z :=
  match names with
  | [] => inr num
  | name :: rest =>
      if is_dirbit (get num) then
        if decide (dent d (get num) name = 0) then inl (- ENOENT) else resolve get d (dent d (get num) name) rest
      else inl (- ENOTDIR)
  end.

Definition resolved (s : minix_state) (path : list Z) : Z + Z := resolve (dinode s) (disk s) 1 (path_names path).

Lemma names_of_cut token rest : Forall (fun c => c <> SLASH) token -> token <> [] ->
  names_of (split_slash (token ++ SLASH :: rest)) = token :: names_of (split_slash rest).
Proof. intros Ht Hne. rewrite split_slash_app, split_slash_plain by done. cbn [app names_of]. by rewrite decide_False. Qed.

Lemma minix_walk_spec s ns fuel : forall num cur token next, fs_ok s ns -> ns !! num = Some cur -> Forall (fun c => c <> SLASH) token ->
  (length token + match next with Some r => S (length r) | None => 0 end < fuel)%nat ->
  lookup_loop fuel s num cur token next =
    Ok (s, match resolve (dinode s) (disk s) num (names_of (split_slash (match next with Some r => token ++ SLASH :: r | None => token end))) with
           | inl e => inl e | inr i => inr (dinode s i, i) end).
Proof.
  induction fuel as [|fuel IH]; intros num cur token next Hfs Hcur Htok Hfuel; [lia|]. cbn [lookup_loop].
  destruct (live_inode s ns Hfs num cur Hcur) as [Hnum Ecur].
  case_decide as Et.
  { subst token. assert (names_of (split_slash (match next with Some r => [] ++ SLASH :: r | None => [] end)) = []) as ->.
    { destruct next; [cbn [app split_slash]; rewrite decide_True by done|]; done. }
    cbn [resolve]. by rewrite <- Ecur. }
  assert (Hnames : names_of (split_slash (match next with Some r => token ++ SLASH :: r | None => token end)) =
                   token :: match next with Some r => names_of (split_slash r) | None => [] end).
  { destruct next; [by apply names_of_cut|]. rewrite split_slash_plain by done. cbn [names_of]. by rewrite decide_False. }
  rewrite Hnames. cbn [resolve]. rewrite <- Ecur. destruct (is_dirbit cur) eqn:Ed; [cbn [negb]|done].
  rewrite (find_dir_entry_spec s ns Hfs num cur token Hcur), Ed. case_decide as Ef; [done|].
  destruct (fs_closed s ns Hfs num cur token Hcur Ed Ef) as [n Hn]. destruct (live_inode s ns Hfs _ n Hn) as [Hok En].
  rewrite (read_inode_spec s _ (fs_vol s ns Hfs) Hok). destruct next as [rest|]; [|done].
  destruct (break_slash rest) as [tok' next'] eqn:Eb. destruct (break_slash_spec _ _ _ Eb) as [Htok' Hrest].
  rewrite <- En. rewrite (IH _ n tok' next' Hfs Hn Htok').
  - do 3 f_equal. destruct next'; by rewrite Hrest.
  - destruct token; [done|]. cbn [length] in Hfuel. destruct next'; subst rest; [rewrite length_app in Hfuel; cbn in Hfuel|]; lia.
Qed.

(** A lookup reads only, and finds the inode at the end of the names. *)
Lemma minix_lookup_spec s ns path : fs_ok s ns ->
  minix_lookup s (Some path) = Ok (s, match resolved s path with inl e => inl e | inr i => inr (dinode s i, i) end).
Proof.
  intros Hfs. unfold minix_lookup, resolved, path_names, MINIX_ROOT_INODE. rewrite (vol_init s (fs_vol s ns Hfs)). cbn [negb].
  destruct (fs_root s ns Hfs) as (r & Hr & Hd). destruct (live_inode s ns Hfs 1 r Hr) as [Hok Er].
  rewrite (read_inode_spec s 1 (fs_vol s ns Hfs) Hok). case_decide as E; [by subst path|].
  change (VFS_PATH_MAX - 1)%nat with 255%nat. fold (unrooted (take 255 path)). case_decide as Eu; [by rewrite Eu|].
  assert (Hlen : (length (unrooted (take 255 path)) <= 255)%nat).
  { assert (length (take 255 path) <= 255)%nat by (rewrite length_take; lia). unfold unrooted. destruct (take 255 path); cbn in *; [lia|].
    case_decide; cbn; lia. }
  destruct (break_slash (unrooted (take 255 path))) as [tok next] eqn:Eb. destruct (break_slash_spec _ _ _ Eb) as [Htok Hrest].
  assert (E2 : match next with Some q => tok ++ SLASH :: q | None => tok end = unrooted (take 255 path)) by (by destruct next).
  rewrite <- Er. rewrite (minix_walk_spec s ns _ 1 r tok next Hfs Hr Htok).
  - by rewrite E2.
  - unfold VFS_PATH_MAX. rewrite <- E2 in Hlen. destruct next; [rewrite length_app in Hlen; cbn in Hlen; lia|lia].
Qed.

(** What is found is a used inode. *)
Lemma resolve_live s ns : fs_ok s ns -> forall names num i, is_Some (ns !! num) -> resolve (dinode s) (disk s) num names = inr i -> is_Some (ns !! i).
Proof.
  intros Hfs. induction names as [|name names IH]; intros num i [n Hn]; cbn [resolve]; [intros [= <-]; eauto|].
  destruct (live_inode s ns Hfs num n Hn) as [_ En]. rewrite <- En. destruct (is_dirbit n) eqn:Ed; [|done].
  case_decide as E; [done|]. apply IH. by apply (fs_closed s ns Hfs num n name).
Qed.

(** Lookups only depend on the directories. *)
Lemma resolve_ext s ns get' d' : fs_ok s ns ->
  (forall i n, ns !! i = Some n -> is_dirbit (get' i) = is_dirbit n) ->
  (forall i n name, ns !! i = Some n -> is_dirbit n = true -> dent d' (get' i) name = dent (disk s) n name) ->
  forall names num, is_Some (ns !! num) -> resolve get' d' num names = resolve (dinode s) (disk s) num names.
Proof.
  intros Hfs Hd He. induction names as [|name names IH]; intros num [n Hn]; cbn [resolve]; [done|].
  destruct (live_inode s ns Hfs num n Hn) as [_ En]. rewrite (Hd num n Hn), <- En. destruct (is_dirbit n) eqn:Ed; [|done].
  rewrite (He num n name Hn Ed). case_decide as E; [done|]. apply IH. by apply (fs_closed s ns Hfs num n name).
Qed.

Lemma root_live s ns : fs_ok s ns -> is_Some (ns !! 1).
Proof. intros Hfs. destruct (fs_root s ns Hfs) as (r & ? & _). eauto. Qed.
