(* ===== verification/MinixRw.v ===== *)
(** * MINIX files: reading, writing and truncating by path

    The contents of a file are the bytes of its zones up to its size.  Reads
    return a piece of them; writes and truncations replace them and leave the
    contents of every other inode, the directories and the paths alone. *)

From S2P Require Import Prelude Bytes CString Perm Minix MinixFile MinixZones MinixTree MinixContent MinixFs.

(** ** Changes outside the data zones *)

Definition first_zone (s : minix_state) : Z := s_firstdatazone (superblock s).

(** The states agree on free zones and on the blocks that hold data. *)
Record data_same (s s' : minix_state) : Prop := {
  dsm_super : superblock s' = superblock s;
  dsm_volume : volume s';
  dsm_free : forall y, zfree s' y = zfree s y;
  dsm_disk : forall y, first_zone s <= y -> disk s' !! y = disk s !! y
}.

Lemma data_same_trans s1 s2 s3 : data_same s1 s2 -> data_same s2 s3 -> data_same s1 s3.
Proof.
  intros [S1 V1 F1 D1] [S2 V2 F2 D2]. constructor; [congruence|done|congruence|].
  intros y Hy. rewrite D2, D1; [done|done|]. unfold first_zone. by rewrite S1.
Qed.

Lemma val_zones d n n' p : i_zone n' = i_zone n -> val d n' p = val d n p.
Proof. intros E. assert (Hz : forall k, zone_of n' k = zone_of n k) by (intros; unfold zone_of; by rewrite E). destruct p; cbn [val]; by rewrite ?Hz. Qed.

Lemma first_pos s : volume s -> 0 < first_zone s.
Proof.
  intros Hv. destruct (vol_geo s Hv) as [_ H1 H2 _ _ [H3 _] _ _]. unfold first_zone. pose proof (inode_limit_bound s (vol_geo s Hv)).
  assert (0 <= (inode_limit (superblock s) * 32 + 1023) / 1024) by (apply Z.div_pos; lia). lia.
Qed.

Lemma data_same_val s s' ns i n p : data_same s s' -> tree_ok s ns -> ns !! i = Some n -> slot_ok p -> val (disk s') n p = val (disk s) n p.
Proof.
  intros Hd Ht Hn Hp. apply val_frame; [done|]. intros q Hq _ Hnz. destruct (tree_used s ns Ht i n q Hn Hq Hnz) as [[Hz _] _].
  by apply (dsm_disk s s' Hd).
Qed.

Lemma data_same_tree s s' ns ns' : data_same s s' -> tree_ok s ns ->
  (forall i n', ns' !! i = Some n' -> inode_wf n' /\ exists n, ns !! i = Some n /\ i_zone n' = i_zone n) -> tree_ok s' ns'.
Proof.
  intros Hd Ht Hns.
  assert (Hval : forall i n' p, ns' !! i = Some n' -> slot_ok p -> exists n, ns !! i = Some n /\ val (disk s') n' p = val (disk s) n p).
  { intros i n' p Hn' Hp. destruct (Hns i n' Hn') as (_ & n & Hn & E). exists n. split; [done|].
    rewrite (val_zones _ n n') by done. by apply (data_same_val s s' ns i). }
  constructor.
  - intros i n' Hn'. by apply (Hns i n').
  - intros i n' p Hn' Hp. destruct (Hval i n' p Hn' Hp) as (n & Hn & ->). intros Hnz. unfold data_zone.
    rewrite (dsm_super _ _ Hd), (dsm_free _ _ Hd). by apply (tree_used s ns Ht i n p).
  - intros i j n' m' p q Hn' Hm' Hp Hq. destruct (Hval i n' p Hn' Hp) as (n & Hn & ->). destruct (Hval j m' q Hm' Hq) as (m & Hm & ->).
    by apply (tree_inj s ns Ht i j n m).
Qed.

Lemma fbyte_same s s' ns i n n' o : data_same s s' -> tree_ok s ns -> ns !! i = Some n -> i_zone n' = i_zone n -> 0 <= o < MAX_OFFSET ->
  fbyte (disk s') n' o = fbyte (disk s) n o.
Proof.
  intros Hd Ht Hn E Ho. destruct (dslot_ok _ (idx_ok o Ho)) as [Hok _]. unfold fbyte, fzone. rewrite (val_zones _ n n') by done.
  rewrite (data_same_val s s' ns i n) by done. case_decide as Ez; [done|]. f_equal. unfold blk.
  destruct (tree_used s ns Ht i n _ Hn Hok Ez) as [[Hz _] _]. by rewrite (dsm_disk s s' Hd).
Qed.

(** ** Writing the bitmap back *)

Lemma sync_loop_spec n : forall b bm s, volume s -> Z.of_nat (b + n) <= s_zmap_blocks (superblock s) -> Z.of_nat (length bm) = minix_zmap_bytes s -> bytes bm ->
  exists s', sync_zmap_loop n b bm s = (s', 0) /\ same_vol s s' /\ (forall y, zfree s' y = zfree s y) /\
  forall y, 2 + s_imap_blocks (superblock s) + s_zmap_blocks (superblock s) <= y -> disk s' !! y = disk s !! y.
Proof.
  induction n as [|n IH]; intros b bm s Hv Hb Hl Hby; cbn [sync_zmap_loop].
  - exists (set_clean s). split; [done|]. split; [|done]. constructor; try done. destruct Hv as [Hq Hi Hg Hz Him Hbl Ht]. by constructor.
  - destruct (vol_geo s Hv) as [_ H1 H2 _ _ [H3 _] _ _]. pose proof (first_pos s Hv) as Hfp. unfold minix_zmap_bytes, MINIX_BLOCK_SIZE in Hl. rewrite decide_False in Hl by lia.
    assert (Hblk : blockish (take 1024 (drop (1024 * b) bm))) by (split; [rewrite length_take, length_drop; lia|auto with ir0]).
    assert (Hthere : is_Some (disk s !! (2 + s_imap_blocks (superblock s) + Z.of_nat b))).
    { apply (vol_there s Hv). pose proof (inode_limit_bound s (vol_geo s Hv)).
      assert (0 <= (inode_limit (superblock s) * 32 + 1023) / 1024) by (apply Z.div_pos; lia). lia. }
    rewrite write_block_quiet; [|apply Hv|done]. rewrite decide_False by tauto.
    set (s1 := set_disk _ s). assert (Hs1 : same_vol s s1) by (by apply set_disk_same).
    destruct (IH (S b) bm s1) as (s' & -> & Hsv & Hf & Hd); [apply Hs1|cbn; lia| |done|].
    { change (minix_zmap_bytes s1) with (minix_zmap_bytes s). unfold minix_zmap_bytes, MINIX_BLOCK_SIZE. rewrite decide_False by lia. done. }
    exists s'. split; [done|]. split; [by apply (same_vol_trans _ s1)|]. split; [intros y; rewrite Hf; done|].
    intros y Hy. rewrite Hd by done. cbn [disk set_disk s1]. rewrite lookup_insert_ne by lia. done.
Qed.

Lemma sync_zone_bitmap_spec s : volume s -> exists s', minix_sync_zone_bitmap s = (s', 0) /\ same_vol s s' /\ (forall y, zfree s' y = zfree s y) /\
  forall y, 2 + s_imap_blocks (superblock s) + s_zmap_blocks (superblock s) <= y -> disk s' !! y = disk s !! y.
Proof.
  intros Hv. destruct (vol_zmap s Hv) as (bm & Hz & Hl & Hb). unfold minix_sync_zone_bitmap. rewrite Hz.
  destruct (zmap_dirty s); cbn [negb]; [|by exists s]. destruct (vol_geo s Hv) as [_ H1 H2 _ _ _ _ _]. rewrite decide_False by lia.
  apply sync_loop_spec; auto. lia.
Qed.

Lemma table_first s : volume s -> 2 + s_imap_blocks (superblock s) + s_zmap_blocks (superblock s) <= first_zone s.
Proof.
  intros Hv. destruct (vol_geo s Hv) as [_ H1 H2 _ _ [H3 _] _ _]. pose proof (inode_limit_bound s (vol_geo s Hv)).
  assert (0 <= (inode_limit (superblock s) * 32 + 1023) / 1024) by (apply Z.div_pos; lia). unfold first_zone. lia.
Qed.

Lemma dinode_same s s' j : volume s -> superblock s' = superblock s -> inum_ok s j ->
  (forall y, 2 + s_imap_blocks (superblock s) + s_zmap_blocks (superblock s) <= y < first_zone s -> disk s' !! y = disk s !! y) -> dinode s' j = dinode s j.
Proof.
  intros Hv E Hj Hd. destruct (inode_block_range s j Hv Hj) as [Hr _]. unfold dinode, inode_block. rewrite E. f_equal. unfold blk.
  rewrite Hd; [done|]. exact Hr.
Qed.

(** Storing the inode at the end of an operation, and the bitmap. *)
Lemma finish_spec s i n : volume s -> inum_ok s i -> inode_wf n -> exists s1 s2, minix_fs_write_inode s i n = (s1, 0) /\
  minix_sync_zone_bitmap s1 = (s2, 0) /\ forall t, t = s1 \/ t = s2 -> data_same s t /\ inode_bitmap t = inode_bitmap s /\
  dinode t i = n /\ forall j, inum_ok s j -> j <> i -> dinode t j = dinode s j.
Proof.
  intros Hv Hi Hn. destruct (write_inode_spec s i n Hv Hi Hn) as (s1 & -> & Hsv & Hf & Hdi & Hdo & Hd).
  pose proof (sv_volume _ _ Hsv) as Hv1. destruct (sync_zone_bitmap_spec s1 Hv1) as (s2 & E2 & Hsv2 & Hf2 & Hd2).
  destruct (inode_block_range s i Hv Hi) as [Hr _]. rewrite (sv_super _ _ Hsv) in Hd2.
  assert (D1 : data_same s s1) by (constructor; auto; [apply Hsv|intros y Hy; apply Hd; unfold first_zone in Hy; lia]).
  assert (D2 : data_same s1 s2).
  { constructor; auto; try apply Hsv2. intros y Hy. apply Hd2. pose proof (table_first s1 Hv1). rewrite (sv_super _ _ Hsv) in *. lia. }
  exists s1, s2. split; [done|]. split; [done|].
  assert (Hsame : forall j, inum_ok s j -> dinode s2 j = dinode s1 j).
  { intros j Hj. apply dinode_same; [done|by rewrite (sv_super _ _ Hsv2)|unfold inum_ok; by rewrite (sv_super _ _ Hsv)|].
    intros y [Hy _]. apply Hd2. by rewrite (sv_super _ _ Hsv) in Hy. }
  intros t [->| ->]; [split; [done|]; split; [apply Hsv|done]|]. split; [by apply (data_same_trans _ s1)|].
  split; [rewrite (sv_imap _ _ Hsv2); apply Hsv|]. split; [by rewrite Hsame|]. intros j Hj Hne. rewrite Hsame by done. by apply Hdo.
Qed.

(** ** The whole volume after one inode has changed *)

Lemma dent_same s ns d' j m name : tree_ok s ns -> ns !! j = Some m ->
  (forall k, (k < 7)%nat -> zone_of m k <> 0 -> d' !! zone_of m k = disk s !! zone_of m k) -> dent d' m name = dent (disk s) m name.
Proof. intros Ht Hm H. apply dent_in_ext. intros z (k & Hk & <-)%direct_zone Hz. by apply H. Qed.

(** An inode that stays a directory or a file has changed. *)
Lemma fs_replaced s ns s' i n n' : fs_ok s ns -> ns !! i = Some n -> superblock s' = superblock s -> inode_bitmap s' = inode_bitmap s -> volume s' ->
  tree_ok s' (<[i := n']> ns) -> dinode s' i = n' -> (forall j, inum_ok s j -> j <> i -> dinode s' j = dinode s j) ->
  is_dirbit n' = is_dirbit n ->
  (forall j m name, <[i := n']> ns !! j = Some m -> is_dirbit m = true -> dent (disk s') m name <> 0 -> is_Some (ns !! dent (disk s') m name)) ->
  fs_ok s' (<[i := n']> ns).
Proof.
  intros Hfs Hn Hsb Him Hv' Ht' Hdi Hdo Hdir Hcl.
  assert (Hok : forall j, inum_ok s' j <-> inum_ok s j) by (intros; unfold inum_ok; by rewrite Hsb).
  assert (Hus : forall j, inode_used s' j = inode_used s j) by (intros; unfold inode_used; by rewrite Him).
  constructor; auto.
  - intros j m. rewrite Hok, Hus. destruct (decide (j = i)) as [->|Hne].
    + rewrite lookup_insert_eq, Hdi. destruct (proj1 (fs_table s ns Hfs i n) Hn) as (? & ? & _). split; [intros [= <-]; auto|intros (_ & _ & ->); done].
    + rewrite lookup_insert_ne by done. rewrite (fs_table s ns Hfs j m). split; intros (H1 & H2 & ->); splits; auto; rewrite Hdo; auto.
  - destruct (fs_root s ns Hfs) as (r & Hr & Hd). destruct (decide (i = 1)) as [->|Hne].
    + exists n'. rewrite lookup_insert_eq. split; [done|]. rewrite Hdir. congruence.
    + exists r. rewrite lookup_insert_ne by done. done.
  - intros j m name Hm Hd Hnz. apply lookup_insert_is_Some'. right. by apply (Hcl j m name).
Qed.

Lemma volume_update s ns s' i n n' : fs_ok s ns -> ns !! i = Some n -> superblock s' = superblock s -> inode_bitmap s' = inode_bitmap s -> volume s' ->
  tree_ok s' (<[i := n']> ns) -> dinode s' i = n' -> (forall j, inum_ok s j -> j <> i -> dinode s' j = dinode s j) ->
  is_dirbit n' = is_dirbit n ->
  (forall j m name, ns !! j = Some m -> is_dirbit m = true -> dent (disk s') (default inode_zeroed (<[i := n']> ns !! j)) name = dent (disk s) m name) ->
  fs_ok s' (<[i := n']> ns) /\ forall path, resolved s' path = resolved s path.
Proof.
  intros Hfs Hn Hsb Him Hv' Ht' Hdi Hdo Hdir Hdent. split.
  - apply (fs_replaced s ns s' i n n'); auto. intros j m name Hm Hd Hnz.
    assert (exists m0, ns !! j = Some m0 /\ is_dirbit m0 = true /\ dent (disk s') m name = dent (disk s) m0 name) as (m0 & Hm0 & Hd0 & E).
    { destruct (decide (j = i)) as [->|Hne].
      - exists n. rewrite lookup_insert_eq in Hm. injection Hm as <-. rewrite <- Hdir. splits; auto. rewrite <- (Hdent i n name Hn) by congruence. by rewrite lookup_insert_eq.
      - rewrite lookup_insert_ne in Hm by done. exists m. splits; auto. rewrite <- (Hdent j m name Hm Hd). rewrite lookup_insert_ne by done. by rewrite Hm. }
    rewrite E in *. by apply (fs_closed s ns Hfs j m0 name).
  - intros path. unfold resolved. apply (resolve_ext s ns); [done| | |by apply (root_live s ns)].
    + intros j m Hm. destruct (decide (j = i)) as [->|Hne]; [rewrite Hdi; congruence|].
      destruct (live_inode s ns Hfs j m Hm) as [Hj ->]. by rewrite Hdo.
    + intros j m name Hm Hd. rewrite <- (Hdent j m name Hm Hd). f_equal. destruct (decide (j = i)) as [->|Hne].
      * by rewrite lookup_insert_eq.
      * rewrite lookup_insert_ne by done. rewrite Hm. destruct (live_inode s ns Hfs j m Hm) as [Hj ->]. by rewrite Hdo.
Qed.

(** ** Contents *)

Definition contents (d : gmap Z (list Z)) (n : minix_inode_t) : list Z := frange d n 0 (Z.to_nat (i_size n)).

(** Every block up to the size is there: the operations never make holes. *)
Definition dense (d : gmap Z (list Z)) (n : minix_inode_t) : Prop := backed 0 (i_size n) d n.

(** The old bytes with [w] over them at [off], and zeros in between. *)
Definition overwrite (old : list Z) (off : nat) (w : list Z) : list Z :=
  take off (old ++ replicate (off - length old) 0) ++ w ++ drop (off + length w) old.

Definition same_bytes (s s' : minix_state) (m : minix_inode_t) : Prop := forall o, 0 <= o < MAX_OFFSET -> fbyte (disk s') m o = fbyte (disk s) m o.

Lemma length_contents d n : length (contents d n) = Z.to_nat (i_size n).
Proof. apply length_frange. Qed.

Lemma frange_ext d n d' n' o len : (forall x, o <= x < o + Z.of_nat len -> fbyte d' n' x = fbyte d n x) -> frange d' n' o len = frange d n o len.
Proof. intros H. unfold frange. apply map_ext_in. intros k [_ Hk]%in_seq. apply H. lia. Qed.

Lemma contents_same s s' m : i_size m <= MAX_OFFSET -> same_bytes s s' m -> contents (disk s') m = contents (disk s) m.
Proof. intros Hs H. apply frange_ext. intros x Hx. apply H. lia. Qed.

Lemma edit_others ns i s n s' n' j m : tree_ok s ns -> ns !! i = Some n -> edit ns i s n s' n' -> j <> i -> ns !! j = Some m -> same_bytes s s' m.
Proof.
  intros Ht Hn He Hne Hm o Ho. destruct (dslot_ok _ (idx_ok o Ho)) as [Hok _]. unfold fbyte, fzone.
  rewrite (ed_others _ _ _ _ _ _ He j m) by done. case_decide as Ez; [done|]. f_equal. unfold blk. rewrite (ed_blocks _ _ _ _ _ _ He); [done| |].
  - by apply (tree_used s ns Ht j m).
  - intros p Hp E. destruct (tree_inj s ns Ht i j n m p (dslot (o / 1024))) as [-> _]; congruence.
Qed.

(** The blocks before the data zones are not touched by edits. *)
Lemma edit_sys ns i s n s' n' y : volume s -> tree_ok s ns -> ns !! i = Some n -> edit ns i s n s' n' -> 0 < y < first_zone s -> disk s' !! y = disk s !! y.
Proof.
  intros Hv Ht Hn He Hy. apply (ed_blocks _ _ _ _ _ _ He).
  - destruct (zfree s y) eqn:E; [|done]. destruct (zfree_bit s y E) as [k Hk]. unfold zone_bit in Hk. unfold first_zone in Hy. rewrite decide_True in Hk by lia. done.
  - intros p Hp E. destruct (tree_used s ns Ht i n p Hn Hp) as [[Hd _] _]; [lia|]. unfold first_zone in Hy. lia.
Qed.

Lemma edit_dinode ns i s n s' n' j : volume s -> tree_ok s ns -> ns !! i = Some n -> edit ns i s n s' n' -> inum_ok s j -> dinode s' j = dinode s j.
Proof.
  intros Hv Ht Hn He Hj. apply dinode_same; [done|apply (sv_super _ _ (ed_vol _ _ _ _ _ _ He))|done|]. intros y Hy.
  apply (edit_sys ns i s n s' n'); auto. destruct (vol_geo s Hv). lia.
Qed.

Lemma edit_dirs ns i s n s' n' j m k : tree_ok s ns -> ns !! i = Some n -> edit ns i s n s' n' -> j <> i -> ns !! j = Some m -> (k < 7)%nat ->
  zone_of m k <> 0 -> disk s' !! zone_of m k = disk s !! zone_of m k.
Proof.
  intros Ht Hn He Hne Hm Hk Hz. apply (ed_blocks _ _ _ _ _ _ He).
  - apply (tree_used s ns Ht j m (Top k)); [done|cbn; lia|done].
  - intros p Hp E. destruct (tree_inj s ns Ht i j n m p (Top k)) as [-> _]; cbn [val slot_ok]; [done|done|done|lia|done|congruence|done].
Qed.

(** An edit that is abandoned: the inode on disk still names its old zones. *)
Lemma edit_dropped_tree ns i s n s' n' : tree_ok s ns -> ns !! i = Some n -> edit ns i s n s' n' -> tree_ok s' ns.
Proof.
  intros Ht Hn He. pose proof (ed_tree _ _ _ _ _ _ He) as Ht'.
  assert (Htop : forall k, (k < 9)%nat -> zone_of n k = 0 \/ zone_of n' k = zone_of n k).
  { intros k Hk. destruct (decide (zone_of n k = 0)); [by left|right]. by apply (ed_mono _ _ _ _ _ _ He (Top k)). }
  assert (Hsub : forall p, slot_ok p -> val (disk s') n p = 0 \/ val (disk s') n p = val (disk s') n' p).
  { intros p Hp. destruct p as [k|k|a|a b]; cbn [val].
    - destruct (Htop k Hp) as [->| ->]; auto.
    - destruct (Htop 7%nat ltac:(lia)) as [->| ->]; auto.
    - destruct (Htop 8%nat ltac:(lia)) as [->| ->]; auto.
    - destruct (Htop 8%nat ltac:(lia)) as [->| ->]; auto. }
  assert (Hcase : forall j m p, ns !! j = Some m -> slot_ok p -> val (disk s') m p <> 0 -> exists m', <[i := n']> ns !! j = Some m' /\ val (disk s') m' p = val (disk s') m p).
  { intros j m p Hm Hp Hnz. destruct (decide (j = i)) as [->|Hne].
    - exists n'. rewrite lookup_insert_eq. split; [done|]. assert (m = n) as -> by congruence. destruct (Hsub p Hp); congruence.
    - exists m. by rewrite lookup_insert_ne. }
  constructor.
  - apply (tree_wf s ns Ht).
  - intros j m p Hm Hp Hnz. destruct (Hcase j m p Hm Hp Hnz) as (m' & Hm' & E). rewrite <- E in *. by apply (tree_used s' _ Ht' j m').
  - intros j k m m' p q Hm Hm' Hp Hq E Hnz. destruct (Hcase j m p Hm Hp Hnz) as (m1 & Hm1 & E1).
    destruct (Hcase k m' q Hm' Hq) as (m2 & Hm2 & E2); [congruence|]. apply (tree_inj s' _ Ht' j k m1 m2); congruence.
Qed.

Lemma dropped_fbyte ns i s n s' n' o : edit ns i s n s' n' -> 0 <= o < MAX_OFFSET -> fzone (disk s) n (o / 1024) <> 0 ->
  fbyte (disk s') n o = fbyte (disk s') n' o.
Proof.
  intros He Ho Hz. destruct (dslot_ok _ (idx_ok o Ho)) as [Hok _]. unfold fbyte.
  assert (fzone (disk s') n (o / 1024) = fzone (disk s') n' (o / 1024)) as ->; [|done]. unfold fzone in *.
  assert (Htop : forall k, (k < 9)%nat -> zone_of n k <> 0 -> zone_of n' k = zone_of n k) by (intros k Hk; by apply (ed_mono _ _ _ _ _ _ He (Top k))).
  destruct (dslot (o / 1024)) as [k|k|a|a b]; cbn [val] in *.
  - by rewrite Htop.
  - rewrite (Htop 7%nat); [done|lia|by apply entry_nz in Hz].
  - rewrite (Htop 8%nat); [done|lia|by apply entry_nz in Hz].
  - rewrite (Htop 8%nat); [done|lia|]. apply entry_nz in Hz. by apply entry_nz in Hz.
Qed.

Lemma dirbit_mode n n' : i_mode n' = i_mode n -> is_dirbit n' = is_dirbit n.
Proof. unfold is_dirbit. by intros ->. Qed.

Lemma fs_edit_dropped s ns i n s' n' : fs_ok s ns -> ns !! i = Some n -> is_dirbit n = false -> edit ns i s n s' n' ->
  fs_ok s' ns /\ (forall path, resolved s' path = resolved s path).
Proof.
  intros Hfs Hn Hnd He. pose proof (fs_tree s ns Hfs) as Ht. pose proof (fs_vol s ns Hfs) as Hv.
  destruct (live_inode s ns Hfs i n Hn) as [Hi En].
  rewrite <- (insert_id ns i n Hn). apply (volume_update s ns s' i n n); auto; try apply (ed_vol _ _ _ _ _ _ He).
  - rewrite insert_id by done. by apply (edit_dropped_tree ns i s n s' n').
  - rewrite (edit_dinode ns i s n s' n') by done. done.
  - intros j Hj _. by apply (edit_dinode ns i s n s' n').
  - intros j m name Hm Hd. assert (j <> i) by congruence. rewrite lookup_insert_ne by done. rewrite Hm. apply (dent_same s ns _ j); auto. intros k. by apply (edit_dirs ns i s n s' n' j).
Qed.

(** What the rest of the volume sees of an operation on one file. *)
Record touches (ns : gmap Z minix_inode_t) (i : Z) (s : minix_state) (n : minix_inode_t) (s' : minix_state) (n' : minix_inode_t) : Prop := {
  to_vol : same_vol s s';
  to_tree : tree_ok s' (<[i := n']> ns);
  to_mode : i_mode n' = i_mode n;
  to_bytes : forall j m, j <> i -> ns !! j = Some m -> same_bytes s s' m;
  to_dirs : forall j m k, j <> i -> ns !! j = Some m -> (k < 7)%nat -> zone_of m k <> 0 -> disk s' !! zone_of m k = disk s !! zone_of m k;
  to_table : forall j, inum_ok s j -> j <> i -> dinode s' j = dinode s j
}.

Lemma edit_touches s ns i n s' n' : fs_ok s ns -> ns !! i = Some n -> edit ns i s n s' n' -> touches ns i s n s' n'.
Proof.
  intros Hfs Hn He. constructor; try apply He.
  - intros j m. by apply (edit_others ns i s n s' n' j m (fs_tree s ns Hfs) Hn He).
  - intros j m k. by apply (edit_dirs ns i s n s' n' j m k (fs_tree s ns Hfs) Hn He).
  - intros j Hj _. by apply (edit_dinode ns i s n s' n' j (fs_vol s ns Hfs) (fs_tree s ns Hfs) Hn He).
Qed.

(** The inode in memory may differ from the one on disk in other fields. *)
Lemma touches_over ns i s n n0 s' n' : i_mode n0 = i_mode n -> touches (<[i := n0]> ns) i s n0 s' n' -> touches ns i s n s' n'.
Proof.
  intros Hm [V T M B D Tab]. rewrite insert_insert_eq in T. assert (Hj : forall j m, j <> i -> ns !! j = Some m -> <[i := n0]> ns !! j = Some m) by (intros; by rewrite lookup_insert_ne).
  constructor; auto; [congruence|..]; intros j m; [intros Hne Hjm; apply (B j)|intros k Hne Hjm; apply (D j)]; auto.
Qed.

(** The common end of the operations on one inode: it is stored. *)
Lemma fs_store s ns i n s1 n1 n2 : fs_ok s ns -> ns !! i = Some n -> touches ns i s n s1 n1 ->
  inode_wf n2 -> i_zone n2 = i_zone n1 -> i_mode n2 = i_mode n1 ->
  (is_dirbit n = true -> forall name, dent (disk s1) n1 name <> 0 -> is_Some (ns !! dent (disk s1) n1 name)) ->
  exists s2 s3, minix_fs_write_inode s1 i n2 = (s2, 0) /\ minix_sync_zone_bitmap s2 = (s3, 0) /\
  forall t, t = s2 \/ t = s3 -> fs_ok t (<[i := n2]> ns) /\ data_same s1 t /\ superblock t = superblock s /\ inode_bitmap t = inode_bitmap s /\
  dinode t i = n2 /\ (forall j, inum_ok s j -> j <> i -> dinode t j = dinode s j) /\
  (forall j m k, j <> i -> ns !! j = Some m -> (k < 7)%nat -> zone_of m k <> 0 -> disk t !! zone_of m k = disk s !! zone_of m k) /\
  (forall j m, j <> i -> ns !! j = Some m -> same_bytes s t m) /\
  (forall o, 0 <= o < MAX_OFFSET -> fbyte (disk t) n2 o = fbyte (disk s1) n1 o /\ fzone (disk t) n2 (o / 1024) = fzone (disk s1) n1 (o / 1024)).
Proof.
  intros Hfs Hn He Hwf Hz Hm Hcl. pose proof (fs_tree s ns Hfs) as Ht. pose proof (fs_vol s ns Hfs) as Hv.
  destruct (live_inode s ns Hfs i n Hn) as [Hi En]. pose proof (to_vol _ _ _ _ _ _ He) as Hsv. pose proof (sv_volume _ _ Hsv) as Hv1.
  pose proof (to_tree _ _ _ _ _ _ He) as Ht1. assert (Hn1 : <[i := n1]> ns !! i = Some n1) by apply lookup_insert_eq.
  assert (Hok1 : forall j, inum_ok s1 j <-> inum_ok s j) by (intros; unfold inum_ok; by rewrite (sv_super _ _ Hsv)).
  destruct (finish_spec s1 i n2 Hv1) as (s2 & s3 & E1 & E2 & Hdi); [by apply Hok1|done|].
  exists s2, s3. split; [done|]. split; [done|]. intros t Hts. destruct (Hdi t Hts) as (D & Him3 & Hdi3 & Hdo3). clear Hts E1 E2 Hdi s2 s3.
  assert (Hsup : superblock t = superblock s) by (rewrite (dsm_super _ _ D); apply Hsv).
  assert (Hdisk : forall j m k, <[i := n1]> ns !! j = Some m -> (k < 7)%nat -> zone_of m k <> 0 -> disk t !! zone_of m k = disk s1 !! zone_of m k).
  { intros j m k Hjm Hk Hnz. apply (dsm_disk _ _ D). apply (tree_used s1 _ Ht1 j m (Top k) Hjm); [cbn; lia|done]. }
  assert (Hdirs : forall j m k, j <> i -> ns !! j = Some m -> (k < 7)%nat -> zone_of m k <> 0 -> disk t !! zone_of m k = disk s !! zone_of m k).
  { intros j m k Hne Hjm Hk Hnz. rewrite (Hdisk j) by (rewrite ?lookup_insert_ne; done). by apply (to_dirs _ _ _ _ _ _ He j). }
  assert (Hde2 : forall name, dent (disk t) n2 name = dent (disk s1) n1 name).
  { intros name. unfold dent. rewrite Hz. apply dent_in_ext. intros z (k & Hk & <-)%direct_zone Hnz. by apply (Hdisk i). }
  assert (Hmode : is_dirbit n2 = is_dirbit n) by (apply dirbit_mode; rewrite Hm; apply (to_mode _ _ _ _ _ _ He)).
  split; [|splits; auto].
  - apply (fs_replaced s ns t i n n2); auto.
    + rewrite Him3. apply (sv_imap _ _ Hsv).
    + apply (dsm_volume _ _ D).
    + apply (data_same_tree s1 t (<[i := n1]> ns)); auto. intros j m Hjm. destruct (decide (j = i)) as [->|Hne].
      * rewrite lookup_insert_eq in *. injection Hjm as <-. eauto.
      * rewrite lookup_insert_ne in * by done. split; [by apply (tree_wf s ns Ht j)|eauto].
    + intros j Hj Hne. rewrite Hdo3 by (try apply Hok1; done). by apply (to_table _ _ _ _ _ _ He).
    + intros j m name Hjm Hd. destruct (decide (j = i)) as [->|Hne].
      * rewrite lookup_insert_eq in Hjm. injection Hjm as <-. rewrite Hde2. apply Hcl. congruence.
      * rewrite lookup_insert_ne in Hjm by done. rewrite (dent_same s ns (disk t) j m name) by (auto; intros k; by apply (Hdirs j)). by apply (fs_closed s ns Hfs j m).
  - rewrite Him3. apply (sv_imap _ _ Hsv).
  - intros j Hj Hne. rewrite Hdo3 by (try apply Hok1; done). by apply (to_table _ _ _ _ _ _ He).
  - intros j m Hne Hjm o Ho. rewrite <- (to_bytes _ _ _ _ _ _ He j m Hne Hjm o Ho).
    apply (fbyte_same s1 t (<[i := n1]> ns) j m m); auto. by rewrite lookup_insert_ne.
  - intros o Ho. split; [by apply (fbyte_same s1 t (<[i := n1]> ns) i)|]. unfold fzone. rewrite (val_zones _ n1 n2) by done.
    apply (data_same_val s1 t (<[i := n1]> ns) i); auto. by apply dslot_ok, idx_ok.
Qed.

(** Nothing but the one file is seen to change when the inode is a file. *)
Lemma fs_stored s ns i n s1 n1 n2 : fs_ok s ns -> ns !! i = Some n -> is_dirbit n = false -> touches ns i s n s1 n1 ->
  inode_wf n2 -> i_zone n2 = i_zone n1 -> i_mode n2 = i_mode n1 ->
  exists s2 s3, minix_fs_write_inode s1 i n2 = (s2, 0) /\ minix_sync_zone_bitmap s2 = (s3, 0) /\
  forall t, t = s2 \/ t = s3 -> fs_ok t (<[i := n2]> ns) /\ (forall path, resolved t path = resolved s path) /\
  (forall j m, j <> i -> ns !! j = Some m -> same_bytes s t m) /\
  (forall o, 0 <= o < MAX_OFFSET -> fbyte (disk t) n2 o = fbyte (disk s1) n1 o /\ fzone (disk t) n2 (o / 1024) = fzone (disk s1) n1 (o / 1024)) /\
  (forall y, zfree t y = zfree s1 y).
Proof.
  intros Hfs Hn Hnd He Hwf Hz Hm. destruct (fs_store s ns i n s1 n1 n2 Hfs Hn He Hwf Hz Hm) as (s2 & s3 & E1 & E2 & Hst); [congruence|].
  exists s2, s3. split; [done|]. split; [done|]. intros t Ht. destruct (Hst t Ht) as (Hfs2 & D & Hsup & _ & Hdi & Hdo & Hdirs & Hoth & Hby).
  splits; auto; [|apply (dsm_free _ _ D)]. intros path. unfold resolved. apply (resolve_ext s ns); [done| | |by apply (root_live s ns)].
  - intros j m Hjm. destruct (decide (j = i)) as [->|Hne]; [|destruct (live_inode s ns Hfs j m Hjm) as [Hj ->]; by rewrite Hdo].
    assert (m = n) as -> by congruence. rewrite Hdi. apply dirbit_mode. rewrite Hm. apply (to_mode _ _ _ _ _ _ He).
  - intros j m name Hjm Hd. assert (Hne : j <> i) by congruence. destruct (live_inode s ns Hfs j m Hjm) as [Hj Em]. rewrite Hdo by done. rewrite <- Em.
    apply (dent_same s ns _ j); [apply Hfs|done|]. intros k. by apply (Hdirs j).
Qed.

(** ** Lookups by the operations *)

Lemma fs_cached s ns m : fs_ok s ns -> fs_ok (set_cached m s) ns.
Proof.
  intros [Hv Hta Htr Hr Hc]. constructor; auto.
  - destruct Hv. constructor; auto.
  - destruct Htr. constructor; auto.
Qed.

Lemma get_inode_number_spec s ns path : fs_ok s ns ->
  minix_fs_get_inode_number s path = Ok (match resolved s path with inl _ => (s, 0) | inr i => (set_cached (dinode s i) s, i) end).
Proof.
  intros Hfs. unfold minix_fs_get_inode_number. rewrite (minix_lookup_spec s ns) by done. cbn [mbind outcome_bind]. by destruct (resolved s path).
Qed.

Lemma minix_find_inode_spec s ns path : fs_ok s ns ->
  minix_fs_find_inode s path = Ok (match resolved s path with inl _ => (s, false) | inr i => (set_cached (dinode s i) s, true) end).
Proof.
  intros Hfs. unfold minix_fs_find_inode. rewrite (minix_lookup_spec s ns) by done. cbn [mbind outcome_bind]. by destruct (resolved s path).
Qed.

Lemma resolved_live s ns path i : fs_ok s ns -> resolved s path = inr i -> ns !! i = Some (dinode s i) /\ inum_ok s i.
Proof.
  intros Hfs H. destruct (resolve_live s ns Hfs (path_names path) 1 i) as [n Hn]; [by apply (root_live s ns)|done|].
  destruct (live_inode s ns Hfs i n Hn) as [Hi E]. by rewrite Hn, E.
Qed.

(** ** Reading *)

Lemma take_drop_frange d n len off k : (off + k <= len)%nat -> take k (drop off (frange d n 0 len)) = frange d n (Z.of_nat off) k.
Proof.
  intros H. apply list_eq. intros x. destruct (decide (x < k)%nat) as [Hx|Hx].
  - rewrite lookup_take_lt, lookup_drop, !lookup_frange by lia. do 2 f_equal. lia.
  - rewrite lookup_take_ge by lia. rewrite lookup_ge_None_2; [done|]. rewrite length_frange. lia.
Qed.

Lemma pread_spec s ns path i n count off : fs_ok s ns -> resolved s path = inr i -> ns !! i = Some n -> is_dirbit n = false ->
  i_size n <= MAX_OFFSET -> 0 < count -> 0 <= off -> off + count < 2 ^ 64 ->
  exists s', minix_fs_pread_at s (Some path) true count off = Ok (s', 0, take (Z.to_nat count) (drop (Z.to_nat off) (contents (disk s) n))) /\
  fs_ok s' ns /\ disk s' = disk s.
Proof.
  intros Hfs Hres Hn Hnd Hsz Hc Ho Hw. destruct (resolved_live s ns path i Hfs Hres) as [Hn' Hi]. rewrite Hn in Hn'. injection Hn' as En.
  pose proof (fs_vol s ns Hfs) as Hv. unfold minix_fs_pread_at. rewrite (vol_init s Hv), (proj2 (vol_quiet s Hv)). cbn [negb].
  rewrite decide_False by (intros [_ ?]; done). rewrite !decide_False by lia. rewrite (get_inode_number_spec s ns) by done. rewrite Hres. cbn [mbind outcome_bind].
  rewrite decide_False by (unfold inum_ok in Hi; lia).
  pose proof (fs_cached s ns (dinode s i) Hfs) as Hfs1. set (s1 := set_cached (dinode s i) s) in *.
  rewrite (read_inode_spec s1 i (fs_vol s1 ns Hfs1) Hi). change (dinode s1 i) with (dinode s i). rewrite <- En, Hnd.
  pose proof (tree_wf s ns (fs_tree s ns Hfs) i n Hn) as Hwf. assert (0 <= i_size n < 4294967296) as Hsn by apply Hwf.
  exists s1. split; [|done]. unfold contents. change (disk s) with (disk s1). case_decide as E.
  - rewrite drop_ge by (rewrite length_frange; lia). by rewrite take_nil.
  - unfold u64. rewrite (Z.mod_small (off + count)) by lia.
    set (to_read := if decide (i_size n < off + count) then i_size n - off else count).
    assert (Htr : 0 < to_read /\ off + to_read <= i_size n) by (unfold to_read; case_decide; lia).
    rewrite (file_read_spec _ ns i s1 n); [|apply Hfs1|apply Hfs1|done|lia|lia|lia|unfold MINIX_BLOCK_SIZE; Z.to_euclidean_division_equations; lia].
    rewrite app_nil_l. do 2 f_equal. unfold to_read. case_decide.
    + replace (Z.to_nat (i_size n)) with (Z.to_nat off + Z.to_nat (i_size n - off))%nat by lia.
      rewrite (take_ge (drop _ _)) by (rewrite length_drop, length_frange; lia). rewrite frange_app, drop_app_length' by (rewrite length_frange; lia).
      f_equal; lia.
    + rewrite take_drop_frange by lia. f_equal. lia.
Qed.

(** ** Writing *)

Lemma set_size_time_wf z t n : inode_wf n -> inode_wf (set_time t (set_size z n)).
Proof.
  intros (H1 & H2 & H3 & H4 & H5 & H6 & H7 & H8). unfold inode_wf. cbn. unfold u32. change (2 ^ 32) with 4294967296.
  pose proof (Z.mod_pos_bound z 4294967296). pose proof (Z.mod_pos_bound t 4294967296). splits; try lia; done.
Qed.

(** The contents after the window [lo, hi) was written and the size set. *)
Lemma overwrite_contents d n d' n' off w : 0 <= off -> 0 <= i_size n <= MAX_OFFSET -> off + Z.of_nat (length w) <= MAX_OFFSET ->
  i_size n' = Z.max (i_size n) (off + Z.of_nat (length w)) ->
  (forall o, off <= o < off + Z.of_nat (length w) -> fbyte d' n' o = byte_at w (Z.to_nat (o - off))) ->
  (forall o, i_size n <= o < off -> fbyte d' n' o = 0) ->
  (forall o, 0 <= o < i_size n -> ~ (off <= o < off + Z.of_nat (length w)) -> fbyte d' n' o = fbyte d n o) ->
  contents d' n' = overwrite (contents d n) (Z.to_nat off) w.
Proof.
  intros Ho Hs Hmax Hsz Hw Hz Hk. unfold contents, overwrite. rewrite Hsz. rewrite length_frange.
  apply list_eq. intros x.
  assert (Hlen : length (take (Z.to_nat off) (frange d n 0 (Z.to_nat (i_size n)) ++ replicate (Z.to_nat off - Z.to_nat (i_size n)) 0)) = Z.to_nat off)
    by (rewrite length_take, length_app, length_frange, length_replicate; lia).
  destruct (decide (Z.of_nat x < off)) as [H1|H1].
  - rewrite lookup_app_l by lia. rewrite lookup_take_lt by lia. rewrite lookup_frange by lia. destruct (decide (Z.of_nat x < i_size n)) as [H2|H2].
    + rewrite lookup_app_l, lookup_frange by (rewrite ?length_frange; lia). f_equal. apply Hk; lia.
    + rewrite lookup_app_r, length_frange, lookup_replicate_2 by (rewrite ?length_frange; lia). f_equal. apply Hz. lia.
  - rewrite lookup_app_r, Hlen by lia. destruct (decide (Z.of_nat x < off + Z.of_nat (length w))) as [H2|H2].
    + rewrite lookup_app_l by lia. rewrite lookup_frange by lia. rewrite Hw by lia. unfold byte_at.
      replace (Z.to_nat (0 + Z.of_nat x - off)) with (x - Z.to_nat off)%nat by lia.
      destruct (w !! (x - Z.to_nat off)%nat) eqn:E; [done|]. apply lookup_ge_None in E. lia.
    + rewrite lookup_app_r by lia. rewrite lookup_drop. destruct (decide (Z.of_nat x < i_size n)) as [H3|H3].
      * rewrite !lookup_frange by lia. rewrite Hk by lia. do 2 f_equal. lia.
      * rewrite !lookup_ge_None_2 by (rewrite length_frange; lia). done.
Qed.

(** The zeros between the old end of the file and the place written. *)
Lemma gap_spec ns i s n off : volume s -> tree_ok s ns -> ns !! i = Some n -> 0 <= i_size n -> off <= MAX_OFFSET ->
  exists s1 n1 e, (if decide (i_size n < off) then minix_inode_zero_range s n (i_size n) off else Ok (s, n, 0)) = Ok (s1, n1, e) /\
  edit ns i s n s1 n1 /\ kept (i_size n) off (disk s) n (disk s1) n1 /\
  ((e = - ENOSPC /\ full s1) \/
   (e = 0 /\ forall o, i_size n <= o < off -> fbyte (disk s1) n1 o = 0 /\ fzone (disk s1) n1 (o / 1024) <> 0)).
Proof.
  intros Hv Ht Hn Hs Hmax. case_decide as E.
  - unfold minix_inode_zero_range. rewrite zero_loop_write by done.
    destruct (file_write_spec (Z.to_nat (off / MINIX_BLOCK_SIZE - i_size n / MINIX_BLOCK_SIZE + 1)) ns i s n (i_size n) (replicate (Z.to_nat (off - i_size n)) 0))
      as (s1 & n1 & e & -> & He & Hk & Hr); auto; rewrite ?length_replicate; try lia.
    { intros _. unfold MINIX_BLOCK_SIZE. replace (i_size n + Z.of_nat (Z.to_nat (off - i_size n))) with off by lia. Z.to_euclidean_division_equations. lia. }
    { apply bytes_replicate. lia. }
    rewrite length_replicate in *. replace (i_size n + Z.of_nat (Z.to_nat (off - i_size n))) with off in * by lia.
    exists s1, n1, e. split; [done|]. split; [done|]. split; [done|]. destruct Hr as [?|(-> & Hb & Hw)]; [by left|right]. split; [done|].
    intros o Ho. split; [|by apply Hb]. rewrite Hw by done. apply byte_at_replicate. lia.
  - exists s, n, 0. split; [done|]. split; [by apply edit_refl|]. split; [done|]. right. split; [done|]. intros o Ho. lia.
Qed.

Lemma pwrite_spec s ns path i n buf off now : fs_ok s ns -> resolved s path = inr i -> ns !! i = Some n -> is_dirbit n = false ->
  dense (disk s) n -> bytes buf -> buf <> [] -> 0 <= off -> i_size n <= s_max_size (superblock s) ->
  off + Z.of_nat (length buf) <= s_max_size (superblock s) ->
  exists s' e w, minix_fs_pwrite_at s (Some path) (Some buf) (Z.of_nat (length buf)) off now = Ok (s', e, w) /\
  (forall p, resolved s' p = resolved s p) /\ (forall j m, j <> i -> ns !! j = Some m -> same_bytes s s' m) /\
  ((e = - ENOSPC /\ w = 0 /\ full s' /\ fs_ok s' ns /\ forall o, 0 <= o < Z.min off (i_size n) -> fbyte (disk s') n o = fbyte (disk s) n o) \/
   (e = 0 /\ w = Z.of_nat (length buf) /\ exists n', fs_ok s' (<[i := n']> ns) /\
    contents (disk s') n' = overwrite (contents (disk s) n) (Z.to_nat off) buf /\ dense (disk s') n' /\
    i_mode n' = i_mode n /\ i_uid n' = i_uid n /\ i_gid n' = i_gid n /\ i_nlinks n' = i_nlinks n /\ i_time n' = u32 now)).
Proof.
  intros Hfs Hres Hn Hnd Hdense Hb Hne Ho Hsz Hmax. destruct (resolved_live s ns path i Hfs Hres) as [Hn' Hi]. rewrite Hn in Hn'. injection Hn' as En.
  pose proof (fs_vol s ns Hfs) as Hv. destruct (vol_geo s Hv) as [_ _ _ _ _ _ Hgs _]. assert (0 < length buf)%nat by (destruct buf; [done|cbn; lia]).
  pose proof (tree_wf s ns (fs_tree s ns Hfs) i n Hn) as Hwf. assert (0 <= i_size n < 4294967296) as Hsn by apply Hwf.
  unfold minix_fs_pwrite_at. rewrite (vol_init s Hv), (proj2 (vol_quiet s Hv)). cbn [negb].
  rewrite decide_False by lia. rewrite decide_False by lia. rewrite (get_inode_number_spec s ns) by done. rewrite Hres. cbn [mbind outcome_bind].
  rewrite decide_False by (unfold inum_ok in Hi; lia).
  pose proof (fs_cached s ns (dinode s i) Hfs) as Hfs0. set (s0 := set_cached (dinode s i) s) in *.
  rewrite (read_inode_spec s0 i (fs_vol s0 ns Hfs0) Hi). change (dinode s0 i) with (dinode s i). rewrite <- En, Hnd.
  unfold u64. rewrite Z.mod_small by lia. set (count := Z.of_nat (length buf)) in *. set (new_size := Z.max (i_size n) (off + count)).
  change (superblock s0) with (superblock s). rewrite decide_False by (unfold new_size; lia).
  assert (HMAX : MAX_OFFSET = 268966912) by done.
  destruct (gap_spec ns i s0 n off (fs_vol s0 ns Hfs0) (fs_tree s0 ns Hfs0) Hn ltac:(lia) ltac:(lia)) as (s1 & n1 & e1 & -> & He1 & Hk1 & Hr1).
  cbn [mbind outcome_bind]. pose proof (sv_volume _ _ (ed_vol _ _ _ _ _ _ He1)) as Hv1.
  destruct Hr1 as [[-> Hfull]|[-> Hgap]].
  { rewrite decide_True by done. do 3 eexists. split; [reflexivity|]. destruct (fs_edit_dropped s0 ns i n s1 n1 Hfs0 Hn Hnd He1) as [Hf1 Hres1].
    split; [done|]. split; [intros j m Hj Hjm; by apply (edit_others ns i s0 n s1 n1 j m (fs_tree s0 ns Hfs0) Hn He1)|]. left. splits; auto.
    intros o Ho'. assert (Hz : fzone (disk s0) n (o / 1024) <> 0) by (apply Hdense; lia).
    rewrite (dropped_fbyte ns i s0 n s1 n1 o He1) by (done || lia). apply Hk1; [lia|lia|done]. }
  rewrite decide_False by tauto. rewrite decide_True by lia. cbn [mbind outcome_bind]. replace (Z.to_nat count) with (length buf) by lia.
  rewrite (take_ge buf) by lia. assert (Hn1 : <[i := n1]> ns !! i = Some n1) by apply lookup_insert_eq.
  destruct (file_write_spec (Z.to_nat ((off + count) / MINIX_BLOCK_SIZE - off / MINIX_BLOCK_SIZE + 1)) (<[i := n1]> ns) i s1 n1 off buf) as (s2 & n2 & e2 & -> & He2' & Hk2 & Hr2); auto.
  { apply (ed_tree _ _ _ _ _ _ He1). } { lia. }
  { intros _. unfold MINIX_BLOCK_SIZE. Z.to_euclidean_division_equations. lia. }
  cbn [mbind outcome_bind]. assert (He2 : edit ns i s0 n s2 n2) by (by apply (edit_trans ns i s0 n s1 n1); [apply Hfs0|..]).
  assert (Hold : forall o, 0 <= o < i_size n -> ~ (off <= o < off + count) -> fbyte (disk s2) n2 o = fbyte (disk s) n o /\ fzone (disk s2) n2 (o / 1024) <> 0).
  { intros o Hlo Hout. assert (Hz : fzone (disk s0) n (o / 1024) <> 0) by (apply Hdense; lia).
    assert (Hz1 : fzone (disk s1) n1 (o / 1024) <> 0) by (rewrite (edit_fzone _ _ _ _ _ _ o He1) by (done || lia); done).
    split; [|rewrite (edit_fzone _ _ _ _ _ _ o He2) by (done || lia); done]. rewrite Hk2 by (done || lia). apply Hk1; [lia|lia|done]. }
  destruct Hr2 as [[-> Hfull]|(-> & Hback & Hw)].
  { rewrite decide_True by done. do 3 eexists. split; [reflexivity|]. destruct (fs_edit_dropped s0 ns i n s2 n2 Hfs0 Hn Hnd He2) as [Hf2 Hres2].
    split; [done|]. split; [intros j m Hj Hjm; by apply (edit_others ns i s0 n s2 n2 j m (fs_tree s0 ns Hfs0) Hn He2)|]. left. splits; auto.
    intros o Ho'. rewrite (dropped_fbyte ns i s0 n s2 n2 o He2); [apply Hold; lia|lia|apply Hdense; lia]. }
  rewrite decide_False by tauto. destruct (ed_attrs _ _ _ _ _ _ He2) as (Am & Au & As & At & Ag & Al).
  pose proof (tree_wf s2 _ (ed_tree _ _ _ _ _ _ He2) i n2 (lookup_insert_eq _ _ _)) as Hwf2.
  destruct (fs_stored s0 ns i n s2 n2 (set_time now (set_size new_size n2)) Hfs0 Hn Hnd (edit_touches s0 ns i n s2 n2 Hfs0 Hn He2)) as (s3 & s4 & -> & E4 & Hst);
    [by apply set_size_time_wf|done|done|]. destruct (Hst s4 ltac:(auto)) as (Hfs4 & Hres4 & Hoth4 & Hby4 & _).
  rewrite decide_False by tauto. rewrite E4. rewrite decide_False by tauto. do 3 eexists. split; [reflexivity|]. split; [done|]. split; [done|]. right.
  split; [done|]. split; [done|]. eexists. split; [exact Hfs4|].
  assert (Hns : i_size (set_time now (set_size new_size n2)) = new_size) by (cbn; apply u32_id; unfold new_size; lia).
  splits; cbn [set_time set_size i_mode i_uid i_gid i_nlinks i_time]; auto.
  - apply overwrite_contents; try lia.
    + intros o Ho'. rewrite (proj1 (Hby4 o ltac:(lia))). by apply Hw.
    + intros o Ho'. rewrite (proj1 (Hby4 o ltac:(lia))). destruct (Hgap o Ho') as [Hg0 Hgz]. rewrite Hk2 by (done || lia). done.
    + intros o Ho' Hout. rewrite (proj1 (Hby4 o ltac:(lia))). by apply Hold.
  - unfold dense. rewrite Hns. intros o Ho'. rewrite (proj2 (Hby4 o ltac:(unfold new_size in *; lia))).
    destruct (decide (off <= o < off + count)) as [Hin|Hout]; [by apply Hback|]. destruct (decide (o < i_size n)) as [Hlt|Hge].
    + apply Hold; lia.
    + assert (Hg : i_size n <= o < off) by (unfold new_size in *; lia). destruct (Hgap o Hg) as [_ Hgz].
      rewrite (edit_fzone _ _ _ _ _ _ o He2') by (done || lia). done.
Qed.
