(* ===== verification/MinixTrunc.v ===== *)
(** * MINIX files: giving zones back

    [prune w T]: slots of an inode were emptied and their zones, and only those,
    became free; of the slots for contents only those in [T] changed; with [w]
    the inode on disk follows.  Releasing
    an index empties its slot, and the blocks of zone numbers above it as far as
    they are left without entries. *)

From S2P Require Import Prelude Bytes CString Perm Minix MinixFile MinixZones MinixTree MinixContent MinixFs MinixRw.

Lemma data_zone_bit s z : volume s -> data_zone s z -> is_Some (zone_bit s z).
Proof.
  intros Hv [H1 H2]. destruct (vol_geo s Hv) as [_ _ Hz _ _ _ _ Hc]. unfold zone_bit, minix_zmap_bytes, MINIX_BLOCK_SIZE.
  assert (zone_limit (superblock s) <= 65535) by (pose proof (geo_zones _ (vol_geo s Hv)); unfold zone_limit, MINIX_MAX_ZONES; case_decide; unfold MINIX_MAX_ZONES in *; lia).
  rewrite decide_False by (unfold MINIX_MAX_ZONES; lia). rewrite (decide_False (P := s_zmap_blocks (superblock s) = 0)) by lia.
  rewrite decide_False by (Z.to_euclidean_division_equations; lia). eauto.
Qed.

Lemma free_data_zone s z : volume s -> data_zone s z -> exists s', minix_free_zone s z = Ok s' /\ zmap_only s s' /\
  forall y, zfree s' y = if decide (y = z) then true else zfree s y.
Proof.
  intros Hv Hz. destruct (free_zone_spec s z Hv) as (s' & -> & Hzo & Hf). exists s'. split; [done|]. split; [done|]. intros y. rewrite Hf.
  destruct (decide (y = z)); [rewrite decide_True by (split; [done|by apply data_zone_bit])|rewrite decide_False by tauto]; done.
Qed.

Lemma list_empty_spec b : list_empty b = true <-> forall k, 0 <= k < 512 -> list_zone b k = 0.
Proof.
  unfold list_empty. destruct (find_from _ 0 512) as [j|] eqn:E.
  - apply find_from_Some in E as (Hj & Hnz & _). split; [done|]. intros H. rewrite H in Hnz by lia. done.
  - pose proof (proj1 (find_from_None _ _ _) E) as H. split; [intros _ k Hk|done]. specialize (H (Z.to_nat k) ltac:(lia)).
    cbv beta in H. rewrite Z2Nat.id in H by lia. destruct (Z.eqb_spec (list_zone b k) 0); done.
Qed.

Record prune (w : bool) (T : slot -> Prop) (ns : gmap Z minix_inode_t) (i : Z) (s : minix_state) (n : minix_inode_t) (s' : minix_state) (n' : minix_inode_t) : Prop := {
  pr_vol : same_vol s s';
  pr_tree : tree_ok s' (<[i := n']> ns);
  pr_attrs : same_attrs n n';
  pr_sub : forall p, slot_ok p -> val (disk s') n' p = val (disk s) n p \/ val (disk s') n' p = 0;
  pr_data : forall p, slot_ok p -> ~ is_meta p -> ~ T p -> val (disk s') n' p = val (disk s) n p;
  pr_others : forall j m p, j <> i -> ns !! j = Some m -> slot_ok p -> val (disk s') m p = val (disk s) m p;
  pr_blocks : forall y, y <> 0 -> y <> inode_block s i -> (forall p, slot_ok p -> is_meta p -> val (disk s) n p <> y) -> disk s' !! y = disk s !! y;
  pr_free : forall y, zfree s' y = true <-> zfree s y = true \/ exists p, slot_ok p /\ val (disk s) n p = y /\ y <> 0 /\ val (disk s') n' p = 0;
  pr_table : (forall j, inum_ok s j -> j <> i -> dinode s' j = dinode s j) /\
             (w = true -> dinode s i = n -> dinode s' i = n')
}.

Lemma prune_refl w T ns i s n : volume s -> tree_ok s ns -> ns !! i = Some n -> prune w T ns i s n s n.
Proof.
  intros Hv Ht Hn. constructor; auto; try done.
  - by rewrite insert_id.
  - intros y. split; [auto|]. intros [?|(p & _ & H1 & H2 & H3)]; [done|congruence].
Qed.

Lemma prune_weaken w (T T' : slot -> Prop) ns i s n s' n' : (forall p, T p -> T' p) -> prune w T ns i s n s' n' -> prune w T' ns i s n s' n'.
Proof. intros H []. constructor; auto. Qed.

Lemma prune_trans w T ns i s n s1 n1 s2 n2 : prune w T ns i s n s1 n1 -> prune w T (<[i := n1]> ns) i s1 n1 s2 n2 -> prune w T ns i s n s2 n2.
Proof.
  intros [V1 T1 A1 S1 D1 O1 B1 F1 [X1 Y1]] [V2 T2 A2 S2 D2 O2 B2 F2 [X2 Y2]]. rewrite insert_insert_eq in T2.
  assert (Hn1 : forall j m, j <> i -> ns !! j = Some m -> <[i := n1]> ns !! j = Some m) by (intros; by rewrite lookup_insert_ne).
  assert (Hib : inode_block s1 i = inode_block s i) by (unfold inode_block; by rewrite (sv_super _ _ V1)).
  assert (Hok : forall j, inum_ok s1 j <-> inum_ok s j) by (intros; unfold inum_ok; by rewrite (sv_super _ _ V1)).
  constructor.
  - by apply (same_vol_trans _ s1).
  - done.
  - destruct A1 as (?&?&?&?&?&?), A2 as (?&?&?&?&?&?). unfold same_attrs. splits; congruence.
  - intros p Hp. destruct (S2 p Hp) as [->| ->]; auto.
  - intros p Hp Hm Ht. rewrite D2, D1; auto.
  - intros j m p Hne Hm Hp. rewrite (O2 j), (O1 j); auto.
  - intros y Hy0 Hy Hne. rewrite B2, B1; auto; [congruence|]. intros p Hp Hm E. destruct (S1 p Hp) as [E'|E']; [|congruence].
    apply (Hne p Hp Hm). congruence.
  - intros y. rewrite F2, F1. split.
    + intros [[?|(p & H1 & H2 & H3 & H4)]|(p & H1 & H2 & H3 & H4)]; [by left| |].
      * right. exists p. splits; auto. destruct (S2 p H1); congruence.
      * right. exists p. splits; auto. destruct (S1 p H1); congruence.
    + intros [?|(p & H1 & H2 & H3 & H4)]; [auto|]. destruct (decide (val (disk s1) n1 p = 0)) as [E|E]; [left; right; eauto|].
      right. exists p. splits; auto. destruct (S1 p H1); congruence.
  - split; [intros j Hj Hne; rewrite X2, X1; auto; by apply Hok|auto].
Qed.

Lemma data_not_table s i z : volume s -> inum_ok s i -> data_zone s z -> z <> inode_block s i /\ z <> 0.
Proof. intros Hv Hi Hz. destruct (inode_block_range s i Hv Hi) as [Hr _]. pose proof (data_zone_there s z Hv Hz). destruct Hz. lia. Qed.

Lemma prune_one (T : slot -> Prop) ns i s s' n n' p0 : volume s -> tree_ok s ns -> ns !! i = Some n -> inum_ok s i -> slot_ok p0 ->
  val (disk s) n p0 <> 0 -> same_vol s s' -> (forall y, zfree s' y = if decide (y = val (disk s) n p0) then true else zfree s y) ->
  inode_wf n' -> same_attrs n n' -> is_meta p0 \/ T p0 ->
  (forall p, slot_ok p -> val (disk s') n' p = if decide (p = p0) then 0 else val (disk s) n p) ->
  (forall y, y <> 0 -> y <> inode_block s i -> (forall p, slot_ok p -> is_meta p -> val (disk s) n p <> y) -> disk s' !! y = disk s !! y) ->
  ((forall j, inum_ok s j -> j <> i -> dinode s' j = dinode s j) /\ (dinode s i = n -> dinode s' i = n')) ->
  prune true T ns i s n s' n'.
Proof.
  intros Hv Ht Hn Hi Hp0 Hz0 Hsv Hfr Hwf Hat Hmt Hmine Hblk Htab.
  assert (Hoth : forall j m p, j <> i -> ns !! j = Some m -> slot_ok p -> val (disk s') m p = val (disk s) m p).
  { intros j m p Hne Hm Hp. apply val_frame; [done|]. intros q Hq Hqm Hnz. destruct (tree_used s ns Ht j m q Hm Hq Hnz) as [Hdz _].
    destruct (data_not_table s i _ Hv Hi Hdz). apply Hblk; [done..|].
    intros p' Hp' _ E. destruct (tree_inj s ns Ht i j n m p' q) as [-> _]; congruence. }
  assert (Hcase : forall j m p, <[i := n']> ns !! j = Some m -> slot_ok p -> val (disk s') m p <> 0 ->
    exists m0, ns !! j = Some m0 /\ val (disk s') m p = val (disk s) m0 p /\ (j = i -> p <> p0)).
  { intros j m p Hm Hp Hnz. destruct (decide (j = i)) as [->|Hne].
    - rewrite lookup_insert_eq in Hm. injection Hm as <-. rewrite Hmine in * by done. case_decide; [done|]. eauto.
    - rewrite lookup_insert_ne in Hm by done. exists m. rewrite (Hoth j) by done. done. }
  constructor; auto.
  - constructor.
    + intros j m Hm. destruct (decide (j = i)) as [->|Hne]; [rewrite lookup_insert_eq in Hm; congruence|].
      rewrite lookup_insert_ne in Hm by done. by apply (tree_wf s ns Ht j).
    + intros j m p Hm Hp Hnz. destruct (Hcase j m p Hm Hp Hnz) as (m0 & Hm0 & E & Hne). rewrite E in *.
      destruct (tree_used s ns Ht j m0 p Hm0 Hp Hnz) as [Hd Hu]. unfold data_zone. rewrite (sv_super _ _ Hsv), Hfr. split; [done|].
      rewrite decide_False; [done|]. intros E'. destruct (tree_inj s ns Ht j i m0 n p p0) as [-> ->]; auto. by apply Hne.
    + intros j k m m' p q Hm Hm' Hp Hq E Hnz. destruct (Hcase j m p Hm Hp Hnz) as (m0 & Hm0 & E1 & _).
      destruct (Hcase k m' q Hm' Hq) as (m1 & Hm1 & E2 & _); [congruence|]. apply (tree_inj s ns Ht j k m0 m1); congruence.
  - intros p Hp. rewrite Hmine by done. case_decide; auto.
  - intros p Hp Hnm HnT. rewrite Hmine by done. rewrite decide_False; [done|]. intros ->. tauto.
  - intros y. rewrite Hfr. case_decide as E.
    + split; [|done]. intros _. right. exists p0. subst. splits; auto. rewrite Hmine by done. by rewrite decide_True.
    + split; [auto|]. intros [?|(p & Hp & E1 & E2 & E3)]; [done|]. rewrite Hmine in E3 by done. case_decide; congruence.
  - destruct Htab. auto.
Qed.

(** Dropping a slot of the inode: its entries, if it had any, are gone. *)
Lemma drop_slot_spec (T : slot -> Prop) ns i s n k : volume s -> tree_ok s ns -> ns !! i = Some n -> inum_ok s i -> (k < 9)%nat -> zone_of n k <> 0 ->
  ((7 <= k)%nat -> forall c, 0 <= c < 512 -> entry (disk s) (zone_of n k) c = 0) -> (7 <= k)%nat \/ T (Top k) ->
  exists s', drop_slot s n i k = Ok (s', set_zone k 0 n) /\ prune true T ns i s n s' (set_zone k 0 n) /\
  (forall p, slot_ok p -> val (disk s') (set_zone k 0 n) p = if decide (p = Top k) then 0 else val (disk s) n p).
Proof.
  intros Hv Ht Hn Hi Hk Hz Hkids HT. destruct (tree_used s ns Ht i n (Top k) Hn Hk Hz) as [Hdz Hu]. cbn [val] in Hdz, Hu.
  unfold drop_slot. destruct (free_data_zone s _ Hv Hdz) as (s1 & -> & Hzo & Hf). cbn [mbind outcome_bind].
  destruct (zmap_only_same s s1 Hzo Hv) as [Hs1 Hd1]. pose proof (tree_wf s ns Ht i n Hn) as Hwf. assert (Hl : length (i_zone n) = 9%nat) by apply Hwf.
  assert (Hok : forall j, inum_ok s1 j <-> inum_ok s j) by (intros; unfold inum_ok; by rewrite (sv_super _ _ Hs1)).
  assert (Hib : forall j, inode_block s1 j = inode_block s j) by (intros; unfold inode_block; by rewrite (sv_super _ _ Hs1)).
  assert (Hdi1 : forall j, dinode s1 j = dinode s j) by (intros; unfold dinode; by rewrite Hd1, Hib).
  destruct (write_inode_spec s1 i (set_zone k 0 n) (sv_volume _ _ Hs1)) as (s2 & -> & Hsv & Hf2 & Hdi & Hdo & Hd2);
    [by apply Hok|by apply set_zone_wf|]. rewrite Hib in Hd2. rewrite Hd1 in Hd2.
  exists s2. split; [done|].
  assert (Hvals : forall p, slot_ok p -> val (disk s2) (set_zone k 0 n) p = if decide (p = Top k) then 0 else val (disk s) n p).
  { intros p Hp. transitivity (val (disk s) (set_zone k 0 n) p).
    - apply val_frame; [done|]. intros q Hq _ Hnz. apply Hd2. rewrite val_set_top in * by (auto; intros; by rewrite entry_0, Hkids).
      case_decide; [done|]. destruct (tree_used s ns Ht i n q Hn Hq Hnz) as [Hqz _]. by apply (data_not_table s i).
    - apply val_set_top; auto. intros. by rewrite entry_0, Hkids. }
  split; [|done]. apply (prune_one T ns i s s2 n (set_zone k 0 n) (Top k)); auto.
  - by apply (same_vol_trans _ s1).
  - intros y. rewrite Hf2, Hf. done.
  - by apply set_zone_wf.
  - done.
  - split; [intros j Hj Hne; rewrite Hdo by (try apply Hok; done); apply Hdi1|]. intros _. by rewrite Hdi.
Qed.

(** Emptying an entry of a block of zone numbers. *)
Lemma clear_entry_spec (T : slot -> Prop) ns i s n hp k : volume s -> tree_ok s ns -> ns !! i = Some n -> inum_ok s i -> slot_ok hp -> is_meta hp -> 0 <= k < 512 ->
  val (disk s) n hp <> 0 -> val (disk s) n (child hp k) <> 0 ->
  (is_meta (child hp k) -> forall c, 0 <= c < 512 -> entry (disk s) (val (disk s) n (child hp k)) c = 0) -> is_meta (child hp k) \/ T (child hp k) ->
  exists s1 s2, minix_free_zone s (val (disk s) n (child hp k)) = Ok s1 /\ disk s1 = disk s /\ quiet s1 /\
  minix_write_block s1 (val (disk s) n hp) (put_zone (blk (disk s) (val (disk s) n hp)) k 0) = (s2, 0) /\
  disk s2 = <[val (disk s) n hp := put_zone (blk (disk s) (val (disk s) n hp)) k 0]> (disk s) /\
  prune true T ns i s n s2 n /\ (forall p, slot_ok p -> val (disk s2) n p = if decide (p = child hp k) then 0 else val (disk s) n p).
Proof.
  intros Hv Ht Hn Hi Hok Hm Hk Hnz Hcz Hkids HT. pose proof (child_ok hp k Hok Hm Hk) as Hcok.
  destruct (tree_used s ns Ht i n _ Hn Hcok Hcz) as [Hcd _]. destruct (tree_used s ns Ht i n hp Hn Hok Hnz) as [Hhd _].
  destruct (blk_there s _ Hv Hhd) as [Hhb Hbb]. destruct (free_data_zone s _ Hv Hcd) as (s1 & E1 & Hzo & Hf).
  destruct (zmap_only_same s s1 Hzo Hv) as [Hs1 Hd1]. pose proof (sv_volume _ _ Hs1) as Hv1.
  exists s1. eexists. split; [exact E1|]. split; [done|]. split; [apply Hv1|].
  split; [apply write_block_quiet; [apply Hv1|rewrite Hd1, Hhb; eauto]|]. cbn [disk set_disk]. rewrite Hd1. split; [done|].
  assert (Hvals : forall p, slot_ok p -> val (<[val (disk s) n hp := put_zone (blk (disk s) (val (disk s) n hp)) k 0]> (disk s)) n p =
    if decide (p = child hp k) then 0 else val (disk s) n p).
  { intros p Hp. apply val_put; auto; [by apply (inj_of s ns i n)|apply Hbb|]. intros Hcm c Hc. rewrite entry_0. symmetry. by apply Hkids. }
  split; [|exact Hvals]. apply (prune_one T ns i s _ n n (child hp k)); auto; cbn [disk set_disk].
  - apply (same_vol_trans _ s1); [done|]. pose proof (set_disk_same s1 (val (disk s) n hp) (put_zone (blk (disk s) (val (disk s) n hp)) k 0) Hv1) as Hx.
    rewrite Hd1 in Hx. apply Hx; [by apply blockish_put_zone|rewrite Hhb; eauto].
  - by apply (tree_wf s ns Ht i).
  - done.
  - intros y _ _ Hne. apply lookup_insert_ne. by apply Hne.
  - assert (Hdi : forall j, inum_ok s j -> dinode (set_disk (<[val (disk s) n hp := put_zone (blk (disk s) (val (disk s) n hp)) k 0]> (disk s)) s1) j = dinode s j).
    { intros j Hj. unfold dinode. cbn [disk set_disk]. change (inode_block (set_disk _ s1) j) with (inode_block s1 j).
      replace (inode_block s1 j) with (inode_block s j) by (unfold inode_block; by rewrite (sv_super _ _ Hs1)). f_equal. unfold blk.
      rewrite lookup_insert_ne; [done|]. by apply (data_not_table s j). }
    split; [intros j Hj _; by apply Hdi|]. intros E. by rewrite Hdi.
Qed.

Lemma empty_kids d h b : h <> 0 -> list_empty b = true -> d !! h = Some b -> forall c, 0 <= c < 512 -> entry d h c = 0.
Proof. intros Hh He Hb c Hc. unfold entry, blk. rewrite decide_False, Hb by done. by apply list_empty_spec. Qed.

Lemma clear_listed_eq s1 h b k s2 : quiet s1 -> disk s1 !! h = Some b -> minix_write_block s1 h (put_zone b k 0) = (s2, 0) ->
  clear_listed s1 h k = (s2, Some (list_empty (put_zone b k 0))).
Proof. intros Hq Hb Hw. unfold clear_listed. rewrite (read_block_quiet s1 h b Hq Hb). by rewrite Hw. Qed.

(** Emptying the last entry of a block of zone numbers drops the block too. *)
Lemma release_ind (T : slot -> Prop) ns i s n k : volume s -> tree_ok s ns -> ns !! i = Some n -> inum_ok s i -> 0 <= k < 512 ->
  val (disk s) n (Ind k) <> 0 -> T (Ind k) ->
  exists s1 s' n', minix_free_zone s (val (disk s) n (Ind k)) = Ok s1 /\
  (let '(s2, r) := clear_listed s1 (zone_of n 7) k in match r with Some true => drop_slot s2 n i 7 | _ => Ok (s2, n) end) = Ok (s', n') /\
  prune true T ns i s n s' n' /\ val (disk s') n' (Ind k) = 0.
Proof.
  intros Hv Ht Hn Hi Hk Hz HT. assert (H7 : val (disk s) n (Top 7) <> 0) by (by apply entry_nz in Hz).
  destruct (clear_entry_spec T ns i s n (Top 7) k Hv Ht Hn Hi) as (s1 & s2 & E1 & Hd1 & Hq1 & Ew & Hd2 & Hp & Hvals); auto; try (cbn; lia); try (cbn; tauto).
  destruct (tree_used s ns Ht i n (Top 7) Hn ltac:(cbn; lia) H7) as [Hhd _]. destruct (blk_there s _ Hv Hhd) as [Hhb _].
  change (val (disk s) n (Top 7)) with (zone_of n 7) in *. cbn [child] in *. exists s1. rewrite (clear_listed_eq s1 _ (blk (disk s) (zone_of n 7)) k s2 Hq1); [|by rewrite Hd1|done].
  destruct (list_empty _) eqn:Ee; [|exists s2, n; splits; auto; rewrite Hvals by done; by rewrite decide_True].
  assert (Hib : inum_ok s2 i) by (unfold inum_ok; rewrite (sv_super _ _ (pr_vol _ _ _ _ _ _ _ _ Hp)); done).
  pose proof (pr_tree _ _ _ _ _ _ _ _ Hp) as Ht2. rewrite insert_id in Ht2 by done.
  destruct (drop_slot_spec T ns i s2 n 7 (sv_volume _ _ (pr_vol _ _ _ _ _ _ _ _ Hp)) Ht2 Hn Hib) as (s3 & E3 & Hp3 & Hv3); auto.
  { intros _. apply (empty_kids _ _ _ H7 Ee). rewrite Hd2. apply lookup_insert_eq. }
  exists s3, (set_zone 7 0 n). splits; auto; [by apply (prune_trans true T ns i s n s2 n); [|rewrite insert_id]|].
  rewrite Hv3 by done. rewrite decide_False by done. rewrite Hvals by done. by rewrite decide_True.
Qed.

Lemma release_leaf (T : slot -> Prop) ns i s n a c : volume s -> tree_ok s ns -> ns !! i = Some n -> inum_ok s i -> 0 <= a < 512 -> 0 <= c < 512 ->
  val (disk s) n (Leaf a c) <> 0 -> T (Leaf a c) ->
  exists s1 s' n', minix_free_zone s (val (disk s) n (Leaf a c)) = Ok s1 /\ disk s1 = disk s /\ quiet s1 /\
  (let '(s2, r) := clear_listed s1 (val (disk s) n (Dind a)) c in
   match r with
   | Some true =>
       s3 ← minix_free_zone s2 (val (disk s) n (Dind a));
       let dind := put_zone (blk (disk s) (zone_of n 8)) a 0 in
       let '(s4, _) := minix_write_block s3 (zone_of n 8) dind in
       if list_empty dind then drop_slot s4 n i 8 else Ok (s4, n)
   | _ => Ok (s2, n)
   end) = Ok (s', n') /\
  prune true T ns i s n s' n' /\ val (disk s') n' (Leaf a c) = 0.
Proof.
  intros Hv Ht Hn Hi Ha Hc Hz HT. assert (HD : val (disk s) n (Dind a) <> 0) by (by apply entry_nz in Hz).
  assert (H8 : val (disk s) n (Top 8) <> 0) by (by apply entry_nz in HD).
  destruct (clear_entry_spec T ns i s n (Dind a) c Hv Ht Hn Hi) as (s1 & s2 & E1 & Hd1 & Hq1 & Ew & Hd2 & Hp & Hvals); auto; try done; try (cbn; tauto).
  destruct (tree_used s ns Ht i n (Dind a) Hn Ha HD) as [Hhd _]. destruct (blk_there s _ Hv Hhd) as [Hhb _]. cbn [child] in *.
  exists s1. rewrite (clear_listed_eq s1 _ (blk (disk s) (val (disk s) n (Dind a))) c s2 Hq1); [|by rewrite Hd1|done].
  destruct (list_empty (put_zone (blk (disk s) (val (disk s) n (Dind a))) c 0)) eqn:Ee;
    [|exists s2, n; splits; auto; rewrite Hvals by done; by rewrite decide_True].
  pose proof (pr_vol _ _ _ _ _ _ _ _ Hp) as Hsv2. pose proof (sv_volume _ _ Hsv2) as Hv2.
  assert (Hib : inum_ok s2 i) by (unfold inum_ok; rewrite (sv_super _ _ Hsv2); done).
  pose proof (pr_tree _ _ _ _ _ _ _ _ Hp) as Ht2. rewrite insert_id in Ht2 by done.
  assert (EA : val (disk s2) n (Dind a) = val (disk s) n (Dind a)) by (rewrite Hvals by done; by rewrite decide_False).
  assert (EB : blk (disk s2) (zone_of n 8) = blk (disk s) (zone_of n 8)).
  { unfold blk. rewrite Hd2, lookup_insert_ne; [done|]. intros E. pose proof (inj_of s ns i n Ht Hn (Dind a) (Top 8) Ha ltac:(cbn; lia) E HD). done. }
  destruct (clear_entry_spec T ns i s2 n (Top 8) a Hv2 Ht2 Hn Hib) as (s3 & s4 & E3 & Hd3 & Hq3 & Ew4 & Hd4 & Hp4 & Hvals4); auto; try (cbn; lia).
  { change (val (disk s2) n (Dind a) <> 0). by rewrite EA. }
  { intros _. change (forall c, 0 <= c < 512 -> entry (disk s2) (val (disk s2) n (Dind a)) c = 0). rewrite EA. apply (empty_kids _ _ _ HD Ee). rewrite Hd2. apply lookup_insert_eq. }
  change (val (disk s2) n (child (Top 8) a)) with (val (disk s2) n (Dind a)) in E3. rewrite EA in E3. rewrite E3. cbn [mbind outcome_bind].
  change (val (disk s2) n (Top 8)) with (zone_of n 8) in *. rewrite EB in Ew4, Hd4. rewrite Ew4.
  assert (Hp' : prune true T ns i s n s4 n) by (apply (prune_trans true T ns i s n s2 n); [done|by rewrite insert_id]).
  assert (Hleaf : val (disk s4) n (Leaf a c) = 0).
  { rewrite Hvals4 by done. rewrite decide_False by done. rewrite Hvals by done. by rewrite decide_True. }
  destruct (list_empty (put_zone (blk (disk s) (zone_of n 8)) a 0)) eqn:Ee8; [|exists s4, n; splits; auto].
  pose proof (pr_vol _ _ _ _ _ _ _ _ Hp') as Hsv4. pose proof (pr_tree _ _ _ _ _ _ _ _ Hp') as Ht4. rewrite insert_id in Ht4 by done.
  assert (Hib4 : inum_ok s4 i) by (unfold inum_ok; rewrite (sv_super _ _ Hsv4); done).
  destruct (drop_slot_spec T ns i s4 n 8 (sv_volume _ _ Hsv4) Ht4 Hn Hib4) as (s5 & E5 & Hp5 & Hv5); auto.
  { intros _. apply (empty_kids _ _ _ H8 Ee8). rewrite Hd4. apply lookup_insert_eq. }
  exists s5, (set_zone 8 0 n). splits; auto; [by apply (prune_trans true T ns i s n s4 n); [|rewrite insert_id]|].
  rewrite Hv5 by done. by rewrite decide_False.
Qed.

Lemma release_zone_at_spec ns i s n idx : volume s -> tree_ok s ns -> ns !! i = Some n -> inum_ok s i -> 0 <= idx < MAX_ZONE_IDX ->
  exists s' n', minix_inode_release_zone_at s n i idx = Ok (s', n') /\ prune true (eq (dslot idx)) ns i s n s' n' /\ fzone (disk s') n' idx = 0.
Proof.
  intros Hv Ht Hn Hi Hidx. unfold minix_inode_release_zone_at, fzone. destruct (decide (idx < 7)) as [H7|H7].
  { replace (dslot idx) with (Top (Z.to_nat idx)) by (unfold dslot; by rewrite decide_True). case_decide as E.
    - destruct (drop_slot_spec (eq (Top (Z.to_nat idx))) ns i s n (Z.to_nat idx) Hv Ht Hn Hi) as (s' & -> & Hp & Hvals); auto; try lia.
      exists s', (set_zone (Z.to_nat idx) 0 n). splits; auto. rewrite Hvals by (cbn; lia). by rewrite decide_True.
    - exists s, n. split; [done|]. split; [by apply prune_refl|]. cbn [val]. destruct (decide (zone_of n (Z.to_nat idx) = 0)); [done|tauto]. }
  rewrite (zone_at_read ns i s n idx Hv Ht Hn Hidx). cbn [mbind outcome_bind]. rewrite decide_False by tauto.
  case_decide as Ez; [exists s, n; split; [done|split; [by apply prune_refl|done]]|]. unfold MAX_ZONE_IDX in Hidx. unfold MINIX_INDIRECT_ZONES.
  change (7 + 512) with 519. destruct (decide (idx < 519)) as [H5|H5].
  - replace (dslot idx) with (Ind (idx - 7)) in * by (unfold dslot; rewrite decide_False by done; by rewrite decide_True).
    destruct (release_ind (eq (Ind (idx - 7))) ns i s n (idx - 7) Hv Ht Hn Hi ltac:(lia) Ez eq_refl) as (s1 & s' & n' & -> & E & Hp & Hz). cbn [mbind outcome_bind].
    rewrite decide_False by (by apply entry_nz in Ez). eauto.
  - set (a := (idx - 7 - 512) / 512) in *. set (c := (idx - 7 - 512) mod 512) in *.
    replace (dslot idx) with (Leaf a c) in * by (unfold dslot; rewrite !decide_False by done; unfold a, c; f_equal; f_equal; lia).
    assert (Ha : 0 <= a < 512) by (unfold a; Z.to_euclidean_division_equations; lia).
    assert (Hc : 0 <= c < 512) by (unfold c; Z.to_euclidean_division_equations; lia).
    destruct (release_leaf (eq (Leaf a c)) ns i s n a c Hv Ht Hn Hi Ha Hc Ez eq_refl) as (s1 & s' & n' & -> & Hd1 & Hq1 & E & Hp & Hz). cbn [mbind outcome_bind].
    assert (HD : val (disk s) n (Dind a) <> 0) by (by apply entry_nz in Ez). assert (H8 : val (disk s) n (Top 8) <> 0) by (by apply entry_nz in HD).
    rewrite decide_False by done. destruct (tree_used s ns Ht i n (Top 8) Hn ltac:(cbn; lia) H8) as [Hhd _]. destruct (blk_there s _ Hv Hhd) as [Hhb _].
    cbn [val] in Hhb. rewrite (read_block_quiet s1 (zone_of n 8) (blk (disk s) (zone_of n 8)) Hq1); [|rewrite Hd1; exact Hhb].
    assert (Hlz : list_zone (blk (disk s) (zone_of n 8)) a = val (disk s) n (Dind a)).
    { apply (child_list_zone (disk s) n (Top 8) a); [cbn; lia|cbn; lia|done]. }
    rewrite Hlz. rewrite decide_False by done. exists s', n'. split; [exact E|done].
Qed.

Lemma inum_ok_super s s' i : superblock s' = superblock s -> inum_ok s i -> inum_ok s' i.
Proof. unfold inum_ok. by intros ->. Qed.

Lemma prune_zero w T ns i s n s' n' p : prune w T ns i s n s' n' -> slot_ok p -> val (disk s) n p = 0 -> val (disk s') n' p = 0.
Proof. intros Hp Hok E. destruct (pr_sub _ _ _ _ _ _ _ _ Hp p Hok); congruence. Qed.

Lemma truncate_loop_spec k : forall ns i s n idx, volume s -> tree_ok s ns -> ns !! i = Some n -> inum_ok s i -> 0 <= idx -> idx + Z.of_nat k <= MAX_ZONE_IDX ->
  exists s' n', truncate_loop k idx s n i = Ok (s', n') /\ prune true (fun p => exists j, idx <= j < idx + Z.of_nat k /\ p = dslot j) ns i s n s' n' /\
  forall j, idx <= j < idx + Z.of_nat k -> fzone (disk s') n' j = 0.
Proof.
  induction k as [|k IH]; intros ns i s n idx Hv Ht Hn Hi Hidx Hmax; cbn [truncate_loop].
  { exists s, n. split; [done|]. split; [by apply prune_refl|]. lia. }
  destruct (release_zone_at_spec ns i s n idx Hv Ht Hn Hi ltac:(lia)) as (s1 & n1 & -> & Hp1 & Hz1). cbn [mbind outcome_bind].
  pose proof (pr_vol _ _ _ _ _ _ _ _ Hp1) as Hsv.
  destruct (IH (<[i := n1]> ns) i s1 n1 (idx + 1)) as (s2 & n2 & -> & Hp2 & Hz2); try lia.
  { apply Hsv. } { apply (pr_tree _ _ _ _ _ _ _ _ Hp1). } { apply lookup_insert_eq. } { apply (inum_ok_super s); [apply Hsv|done]. }
  exists s2, n2. split; [done|]. split.
  - apply (prune_trans true _ ns i s n s1 n1).
    + apply (prune_weaken true (eq (dslot idx))); [|done]. intros p <-. exists idx. split; [lia|done].
    + apply (prune_weaken true (fun p => exists j, idx + 1 <= j < idx + 1 + Z.of_nat k /\ p = dslot j)); [|done].
      intros p (j & Hj & ->). exists j. split; [lia|done].
  - intros j Hj. destruct (decide (j = idx)) as [->|Hne]; [|apply Hz2; lia].
    apply (prune_zero _ _ _ _ _ _ _ _ _ Hp2); [apply dslot_ok; lia|done].
Qed.

(** ** Freeing the whole tree

    Here the blocks of zone numbers are not updated: the inode lets go of all of
    them at once. *)

Record frees (P : Z -> Prop) (s s' : minix_state) : Prop := {
  fre_vol : same_vol s s';
  fre_disk : disk s' = disk s;
  fre_free : forall y, zfree s' y = true <-> zfree s y = true \/ P y
}.

Lemma frees_refl s : volume s -> frees (fun _ => False) s s.
Proof. intros Hv. constructor; [done|done|tauto]. Qed.

Lemma frees_trans (P Q R : Z -> Prop) s1 s2 s3 : frees P s1 s2 -> frees Q s2 s3 -> (forall y, R y <-> P y \/ Q y) -> frees R s1 s3.
Proof.
  intros [V1 D1 F1] [V2 D2 F2] HR. constructor; [by apply (same_vol_trans _ s2)|congruence|].
  intros y. rewrite F2, F1, HR. tauto.
Qed.

Lemma frees_data s s' z : frees (fun _ => False) s s' -> data_zone s z -> data_zone s' z.
Proof. intros [V _ _]. unfold data_zone. by rewrite (sv_super _ _ V). Qed.

Lemma free_zone_frees s z : volume s -> data_zone s z -> exists s', minix_free_zone s z = Ok s' /\ frees (eq z) s s'.
Proof.
  intros Hv Hz. destruct (free_data_zone s z Hv Hz) as (s' & -> & Hzo & Hf). exists s'. split; [done|].
  destruct (zmap_only_same s s' Hzo Hv). constructor; [done|done|]. intros y. rewrite Hf. case_decide as E; [subst; tauto|]. split; [auto|]. intros [?|<-]; done.
Qed.

(** The entries of a zone list, freed one by one with [f]. *)
Lemma free_listed_spec (f : minix_state -> Z -> outcome minix_state) (Q : Z -> Z -> Prop) s0 b m : forall k s,
  (forall s z, same_vol s0 s -> disk s = disk s0 -> z <> 0 -> (exists j, 0 <= j < 512 /\ list_zone b j = z) -> exists s', f s z = Ok s' /\ frees (Q z) s s') ->
  same_vol s0 s -> disk s = disk s0 -> 0 <= k -> k + Z.of_nat m <= 512 ->
  exists s', free_listed m k b f s = Ok s' /\ frees (fun y => exists j, k <= j < k + Z.of_nat m /\ list_zone b j <> 0 /\ Q (list_zone b j) y) s s'.
Proof.
  induction m as [|m IH]; intros k s Hf Hs Hd Hk Hm; cbn [free_listed].
  { exists s. split; [done|]. constructor; [constructor; try done; apply Hs|done|]. intros y. split; [auto|]. intros [?|(j & ? & _)]; [done|lia]. }
  assert (Hstep : exists s1, (if decide (list_zone b k <> 0) then f s (list_zone b k) else Ok s) = Ok s1 /\ frees (fun y => list_zone b k <> 0 /\ Q (list_zone b k) y) s s1).
  { destruct (decide (list_zone b k = 0)) as [E|E].
    - rewrite decide_False by tauto. exists s. split; [done|]. constructor; [constructor; try done; apply Hs|done|]. tauto.
    - rewrite decide_True by done. destruct (Hf s (list_zone b k) Hs Hd E) as (s1 & -> & [V D F]); [exists k; split; [lia|done]|].
      exists s1. split; [done|]. constructor; [done|done|]. intros y. rewrite F. tauto. }
  destruct Hstep as (s1 & -> & Hfr1). cbn [mbind outcome_bind]. pose proof (fre_vol _ _ _ Hfr1) as V1. pose proof (fre_disk _ _ _ Hfr1) as D1.
  destruct (IH (k + 1) s1 Hf) as (s2 & -> & Hfr2); [by apply (same_vol_trans _ s)|congruence|lia|lia|]. exists s2. split; [done|].
  apply (frees_trans _ _ _ s s1 s2 Hfr1 Hfr2). intros y. split.
  - intros (j & Hj & Hz). destruct (decide (j = k)) as [->|]; [by left|right; exists j; split; [lia|done]].
  - intros [Hz|(j & Hj & Hz)]; [exists k; split; [lia|done]|exists j; split; [lia|done]].
Qed.

Lemma free_indirect_block_spec s z : volume s -> data_zone s z -> z <> 0 -> (forall c, 0 <= c < 512 -> entry (disk s) z c <> 0 -> data_zone s (entry (disk s) z c)) ->
  exists s', minix_inode_free_indirect_block s z = Ok s' /\ frees (fun y => y = z \/ exists c, 0 <= c < 512 /\ entry (disk s) z c <> 0 /\ entry (disk s) z c = y) s s'.
Proof.
  intros Hv Hz Hnz Hkids. unfold minix_inode_free_indirect_block. rewrite decide_False by done. destruct (blk_there s z Hv Hz) as [Hb _].
  rewrite (read_block_quiet s z _ (vol_quiet s Hv) Hb).
  assert (Hent : forall c, list_zone (blk (disk s) z) c = entry (disk s) z c) by (intros; unfold entry; by rewrite decide_False).
  assert (Hdz : forall s', same_vol s s' -> forall y, data_zone s y -> data_zone s' y) by (intros s' V y; unfold data_zone; by rewrite (sv_super _ _ V)).
  destruct (free_listed_spec minix_free_zone (fun z y => z = y) s (blk (disk s) z) 512 0 s) as (s1 & -> & Hfr); try done; try lia.
  { intros s1 y V1 _ Hy (j & Hj & <-). apply free_zone_frees; [apply V1|]. apply (Hdz s1 V1). rewrite Hent in *. by apply Hkids. }
  cbn [mbind outcome_bind]. destruct (free_zone_frees s1 z) as (s2 & -> & Hfr2); [apply (fre_vol _ _ _ Hfr)|by apply (Hdz s1 (fre_vol _ _ _ Hfr))|].
  exists s2. split; [done|]. apply (frees_trans _ _ _ _ _ _ Hfr Hfr2). intros y. setoid_rewrite Hent. split.
  - intros [->|(c & ?)]; [by right|left; eauto].
  - intros [(c & ?)|<-]; [right; eauto|by left].
Qed.

Lemma free_direct_spec m : forall k s n, volume s -> (forall j, (k <= j < k + m)%nat -> zone_of n j <> 0 -> data_zone s (zone_of n j)) -> (k + m <= 9)%nat -> length (i_zone n) = 9%nat -> inode_wf n ->
  exists s' n', free_direct m k s n = Ok (s', n') /\ frees (fun y => exists j, (k <= j < k + m)%nat /\ zone_of n j <> 0 /\ zone_of n j = y) s s' /\
  (forall j, zone_of n' j = if decide (k <= j < k + m)%nat then 0 else zone_of n j) /\ same_attrs n n' /\ inode_wf n'.
Proof.
  induction m as [|m IH]; intros k s n Hv Hdz Hkm Hl Hwf; cbn [free_direct].
  { exists s, n. split; [done|]. split; [|splits; try done].
    - constructor; [done|done|]. intros y. split; [auto|]. intros [?|(j & ? & _)]; [done|lia].
    - intros j. by rewrite decide_False by lia. }
  destruct (decide (zone_of n k = 0)) as [E|E].
  - rewrite decide_False by tauto. destruct (IH (S k) s n) as (s' & n' & -> & Hfr & Hz & Hat & Hwf'); auto; try lia; [intros j Hj; apply Hdz; lia|].
    exists s', n'. split; [done|]. split; [|splits; try done].
    + destruct Hfr as [V D F]. constructor; [done|done|]. intros y. rewrite F. split; (intros [?|(j & Hj & Hnz & ?)]; [by left|right]).
      * exists j. split; [lia|done].
      * exists j. split; [|done]. assert (j <> k) by congruence. lia.
    + intros j. rewrite Hz. destruct (decide (j = k)) as [->|]; [rewrite decide_False, decide_True by lia; done|].
      destruct (decide (S k <= j < S k + m)%nat); [rewrite decide_True by lia|rewrite decide_False by lia]; done.
  - rewrite decide_True by done. destruct (free_zone_frees s (zone_of n k) Hv) as (s1 & -> & Hfr1); [apply Hdz; [lia|done]|]. cbn [mbind outcome_bind].
    assert (Hz1 : forall j, zone_of (set_zone k 0 n) j = if decide (j = k) then 0 else zone_of n j) by (intros; by rewrite zone_of_set by lia).
    destruct (IH (S k) s1 (set_zone k 0 n)) as (s' & n' & -> & Hfr & Hz & Hat & Hwf'); try lia.
    { apply (fre_vol _ _ _ Hfr1). }
    { intros j Hj. rewrite Hz1, decide_False by lia. intros Hnz. unfold data_zone. rewrite (sv_super _ _ (fre_vol _ _ _ Hfr1)). apply Hdz; [lia|done]. }
    { cbn. by rewrite length_insert. } { by apply set_zone_wf. }
    exists s', n'. split; [done|]. split; [|splits; try done].
    + apply (frees_trans _ _ _ _ _ _ Hfr1 Hfr). intros y. split.
      * intros (j & Hj & Hnz & <-). destruct (decide (j = k)) as [->|]; [by left|right]. exists j. rewrite Hz1, decide_False by lia. split; [lia|done].
      * intros [<-|(j & Hj & Hnz & <-)]; [exists k; split; [lia|done]|]. exists j. rewrite Hz1, decide_False in * by lia. split; [lia|done].
    + intros j. rewrite Hz, Hz1. repeat case_decide; try lia; done.
Qed.

Definition named (d : gmap Z (list Z)) (n : minix_inode_t) (ok : slot -> Prop) (y : Z) : Prop := exists p, slot_ok p /\ ok p /\ val d n p <> 0 /\ val d n p = y.

Lemma free_ind_tree s n : volume s -> inode_wf n -> (forall p, slot_ok p -> val (disk s) n p <> 0 -> data_zone s (val (disk s) n p)) ->
  exists s' n', minix_inode_free_indirect_tree s n = Ok (s', n') /\ frees (named (disk s) n (fun p => p = Top 7 \/ exists k, p = Ind k)) s s' /\
  (forall j, zone_of n' j = if decide (j = 7)%nat then 0 else zone_of n j) /\ same_attrs n n' /\ inode_wf n'.
Proof.
  intros Hv Hwf Hdz. assert (Hl : length (i_zone n) = 9%nat) by apply Hwf. unfold minix_inode_free_indirect_tree. case_decide as E.
  - exists s, n. split; [done|]. split; [|splits; try done; intros j; case_decide; [by subst|done]].
    constructor; [done|done|]. intros y. split; [auto|]. intros [?|(p & _ & [->|[k ->]] & Hnz & _)]; [done| |]; cbn [val] in Hnz; [done|].
    by apply entry_nz in Hnz.
  - destruct (free_indirect_block_spec s (zone_of n 7) Hv) as (s1 & -> & Hfr); [by apply (Hdz (Top 7)); [cbn; lia|]|done|intros c Hc; by apply (Hdz (Ind c))|].
    cbn [mbind outcome_bind]. exists s1, (set_zone 7 0 n). split; [done|]. split; [|splits; try done; [|by apply set_zone_wf]].
    + destruct Hfr as [V D F]. constructor; [done|done|]. intros y. rewrite F. split; (intros [?|H]; [by left|right]).
      * destruct H as [->|(c & Hc & Hnz & <-)]; [exists (Top 7)|exists (Ind c)]; cbn [val slot_ok]; splits; eauto; lia.
      * destruct H as (p & Hp & [->|[k ->]] & Hnz & <-); [by left|right]. exists k. done.
    + intros j. by rewrite zone_of_set by lia.
Qed.

Lemma free_dind_tree s n : volume s -> inode_wf n -> (forall p, slot_ok p -> val (disk s) n p <> 0 -> data_zone s (val (disk s) n p)) ->
  exists s' n', minix_inode_free_double_indirect_tree s n = Ok (s', n') /\
  frees (named (disk s) n (fun p => p = Top 8 \/ (exists a, p = Dind a) \/ exists a c, p = Leaf a c)) s s' /\
  (forall j, zone_of n' j = if decide (j = 8)%nat then 0 else zone_of n j) /\ same_attrs n n' /\ inode_wf n'.
Proof.
  intros Hv Hwf Hdz. assert (Hl : length (i_zone n) = 9%nat) by apply Hwf. unfold minix_inode_free_double_indirect_tree. case_decide as E.
  - exists s, n. split; [done|]. split; [|splits; try done; intros j; case_decide; [by subst|done]].
    constructor; [done|done|]. intros y. split; [auto|]. intros [?|(p & _ & Hp & Hnz & _)]; [done|].
    destruct Hp as [->|[[a ->]|(a & c & ->)]]; cbn [val] in Hnz; [done|by apply entry_nz in Hnz|]. apply entry_nz in Hnz. by apply entry_nz in Hnz.
  - assert (H8 : data_zone s (zone_of n 8)) by (apply (Hdz (Top 8)); [cbn; lia|done]). destruct (blk_there s _ Hv H8) as [Hb _].
    rewrite (read_block_quiet s _ _ (vol_quiet s Hv) Hb).
    assert (Hent : forall a, list_zone (blk (disk s) (zone_of n 8)) a = val (disk s) n (Dind a)) by (intros; cbn [val]; unfold entry; by rewrite decide_False).
    assert (Hds : forall s', same_vol s s' -> forall y, data_zone s y -> data_zone s' y) by (intros s' V y; unfold data_zone; by rewrite (sv_super _ _ V)).
    destruct (free_listed_spec minix_inode_free_indirect_block
      (fun z y => y = z \/ exists c, 0 <= c < 512 /\ entry (disk s) z c <> 0 /\ entry (disk s) z c = y) s (blk (disk s) (zone_of n 8)) 512 0 s) as (s1 & -> & Hfr); try done; try lia.
    { intros s1 z V1 D1 Hz (a & Ha & <-). rewrite Hent in *.
      pose proof (free_indirect_block_spec s1 (val (disk s) n (Dind a)) (sv_volume _ _ V1)) as H. rewrite D1 in H. apply H; [|done|].
      - apply (Hds s1 V1). by apply Hdz.
      - intros c Hc Hnz. apply (Hds s1 V1). apply (Hdz (Leaf a c)); done. }
    cbn [mbind outcome_bind]. destruct (free_zone_frees s1 (zone_of n 8)) as (s2 & -> & Hfr2); [apply (fre_vol _ _ _ Hfr)|by apply (Hds s1 (fre_vol _ _ _ Hfr))|].
    cbn [mbind outcome_bind]. exists s2, (set_zone 8 0 n). split; [done|]. split; [|splits; try done; [|by apply set_zone_wf]].
    + apply (frees_trans _ _ _ _ _ _ Hfr Hfr2). intros y. unfold named. setoid_rewrite Hent. split.
      * intros (p & Hp & [->|[[a ->]|(a & c & ->)]] & Hnz & <-); [by right|left; exists a; splits; auto; cbn in Hp; lia|].
        left. destruct Hp as [Ha Hc]. assert (val (disk s) n (Dind a) <> 0) by (by apply entry_nz in Hnz). exists a. splits; auto; [lia|lia|]. right. exists c. done.
      * intros [(a & Ha & Hnz & [->|(c & Hc & Hnz' & <-)])|<-].
        -- exists (Dind a). splits; eauto; cbn; lia.
        -- exists (Leaf a c). splits; eauto; cbn; lia.
        -- exists (Top 8). splits; auto; cbn; lia.
    + intros j. by rewrite zone_of_set by lia.
Qed.

Lemma free_all_zones_spec ns i s n : volume s -> tree_ok s ns -> ns !! i = Some n ->
  exists s' n', minix_inode_free_all_zones s n = Ok (s', n') /\ frees (named (disk s) n (fun _ => True)) s s' /\
  (forall k, zone_of n' k = 0) /\ same_attrs n n' /\ inode_wf n'.
Proof.
  intros Hv Ht Hn. pose proof (tree_wf s ns Ht i n Hn) as Hwf. assert (Hl : length (i_zone n) = 9%nat) by apply Hwf.
  assert (Hdz : forall p, slot_ok p -> val (disk s) n p <> 0 -> data_zone s (val (disk s) n p)) by (intros p Hp Hnz; by apply (tree_used s ns Ht i n p Hn Hp)).
  unfold minix_inode_free_all_zones, minix_inode_free_direct_zones, MINIX_DIRECT_ZONES.
  destruct (free_direct_spec 7 0 s n Hv) as (s1 & n1 & -> & Hf1 & Hz1 & A1 & W1); auto; try lia; [intros j Hj; apply (Hdz (Top j)); cbn; lia|].
  cbn [mbind outcome_bind]. pose proof (fre_vol _ _ _ Hf1) as V1. pose proof (fre_disk _ _ _ Hf1) as D1.
  assert (Hv1 : forall p, slot_ok p -> (forall k, p = Top k -> (7 <= k)%nat) -> val (disk s1) n1 p = val (disk s) n p).
  { intros p Hp Hk. rewrite D1. destruct p as [k|k|a|a c]; cbn [val]; rewrite Hz1, decide_False; try done; try lia. specialize (Hk k eq_refl). lia. }
  assert (Hs : forall s' y, same_vol s s' -> data_zone s y -> data_zone s' y) by (intros s' y V; unfold data_zone; by rewrite (sv_super _ _ V)).
  destruct (free_ind_tree s1 n1 (sv_volume _ _ V1) W1) as (s2 & n2 & -> & Hf2 & Hz2 & A2 & W2).
  { intros p Hp Hnz. apply (Hs s1 _ V1). destruct p as [k|k|a|a c]; try (rewrite Hv1 in * by done; by apply Hdz). cbn [val] in *.
    rewrite Hz1 in *. case_decide; [done|]. by apply (Hdz (Top k)). }
  cbn [mbind outcome_bind]. pose proof (fre_vol _ _ _ Hf2) as V2. pose proof (fre_disk _ _ _ Hf2) as D2. pose proof (same_vol_trans _ _ _ V1 V2) as V12.
  destruct (free_dind_tree s2 n2 (sv_volume _ _ V2) W2) as (s3 & n3 & -> & Hf3 & Hz3 & A3 & W3).
  { intros p Hp Hnz. apply (Hs s2 _ V12). rewrite D2, D1 in *. destruct p as [k|k|a|a c]; cbn [val] in *; rewrite Hz2, Hz1 in *.
    - repeat case_decide; try done. by apply (Hdz (Top k)).
    - rewrite decide_True in Hnz by done. done.
    - rewrite !decide_False in * by lia. by apply (Hdz (Dind a)).
    - rewrite !decide_False in * by lia. by apply (Hdz (Leaf a c)). }
  exists s3, n3. split; [done|]. splits; auto.
  - apply (frees_trans _ _ _ _ _ _ Hf1 (frees_trans _ _ (fun y => named (disk s1) n1 (fun p => p = Top 7 \/ exists k, p = Ind k) y \/ named (disk s2) n2 (fun p => p = Top 8 \/ (exists a, p = Dind a) \/ exists a c, p = Leaf a c) y) _ _ _ Hf2 Hf3 (fun y => iff_refl _))).
    assert (E7 : forall p, (p = Top 7 \/ exists k, p = Ind k) -> val (disk s) n1 p = val (disk s) n p).
    { intros p [->|[k ->]]; cbn [val]; by rewrite Hz1. }
    assert (E8 : forall p, (p = Top 8 \/ (exists a, p = Dind a) \/ exists a c, p = Leaf a c) -> val (disk s) n2 p = val (disk s) n p).
    { intros p [->|[[a ->]|(a & c & ->)]]; cbn [val]; by rewrite Hz2, Hz1. }
    intros y. unfold named. rewrite D2, D1. split.
    + intros (p & Hp & _ & Hnz & <-). destruct p as [k|k|a|a c].
      * destruct (decide (k < 7)%nat); [left; exists k; splits; auto; lia|right]. cbn in Hp.
        assert (k = 7 \/ k = 8)%nat as [->| ->] by lia; [left; exists (Top 7); rewrite E7 by auto|right; exists (Top 8); rewrite E8 by auto]; splits; auto; cbn; lia.
      * right. left. exists (Ind k). rewrite E7 by eauto. splits; eauto.
      * right. right. exists (Dind a). rewrite E8 by eauto. splits; eauto.
      * right. right. exists (Leaf a c). rewrite E8 by eauto. splits; eauto.
    + intros [(k & Hk & Hnz & <-)|[(p & Hp & Hsh & Hnz & <-)|(p & Hp & Hsh & Hnz & <-)]].
      * exists (Top k). splits; auto. cbn. lia.
      * exists p. by rewrite E7 in *.
      * exists p. by rewrite E8 in *.
  - intros k. rewrite Hz3, Hz2, Hz1. repeat case_decide; try done. unfold zone_of. rewrite lookup_ge_None_2; [done|lia].
  - destruct A1 as (?&?&?&?&?&?), A2 as (?&?&?&?&?&?), A3 as (?&?&?&?&?&?). unfold same_attrs. splits; congruence.
Qed.

Lemma free_all_prune ns i s n : volume s -> tree_ok s ns -> ns !! i = Some n -> inum_ok s i ->
  exists s' n', minix_inode_free_all_zones s n = Ok (s', n') /\ prune false (fun _ => True) ns i s n s' n' /\ (forall p, val (disk s') n' p = 0) /\ disk s' = disk s.
Proof.
  intros Hv Ht Hn Hi. destruct (free_all_zones_spec ns i s n Hv Ht Hn) as (s' & n' & -> & [V D F] & Hz & Hat & Hwf). exists s', n'. split; [done|].
  assert (Hval : forall p, val (disk s') n' p = 0) by (intros [k|k|a|a c]; cbn [val]; rewrite Hz, ?entry_0; done).
  split; [|done].
  assert (Hgone : forall j m p, j <> i -> ns !! j = Some m -> slot_ok p -> val (disk s) m p <> 0 -> ~ named (disk s) n (fun _ => True) (val (disk s) m p)).
  { intros j m p Hne Hm Hp Hnz (q & Hq & _ & Hqz & E). destruct (tree_inj s ns Ht i j n m q p) as [-> _]; congruence. }
  constructor; auto; try done.
  - constructor.
    + intros j m Hm. destruct (decide (j = i)) as [->|Hne]; [rewrite lookup_insert_eq in Hm; congruence|]. rewrite lookup_insert_ne in Hm by done. by apply (tree_wf s ns Ht j).
    + intros j m p Hm Hp Hnz. destruct (decide (j = i)) as [->|Hne]; [rewrite lookup_insert_eq in Hm; injection Hm as <-; by rewrite Hval in Hnz|].
      rewrite lookup_insert_ne in Hm by done. rewrite D in *. destruct (tree_used s ns Ht j m p Hm Hp Hnz) as [Hd Hu]. split; [unfold data_zone; by rewrite (sv_super _ _ V)|].
      destruct (zfree s' (val (disk s) m p)) eqn:E; [|done]. apply F in E as [?|?]; [congruence|]. by destruct (Hgone j m p Hne Hm Hp Hnz).
    + intros j k m m' p q Hm Hm' Hp Hq E Hnz.
      destruct (decide (j = i)) as [->|Hne]; [rewrite lookup_insert_eq in Hm; injection Hm as <-; by rewrite Hval in Hnz|].
      destruct (decide (k = i)) as [->|Hne']; [rewrite lookup_insert_eq in Hm'; injection Hm' as <-; rewrite Hval in E; congruence|].
      rewrite lookup_insert_ne in Hm, Hm' by done. rewrite D in *. by apply (tree_inj s ns Ht j k m m').
  - intros j m p _ Hm Hp. by rewrite D.
  - intros y _ _ _. by rewrite D.
  - intros y. rewrite F. unfold named. split; (intros [?|(p & Hp)]; [by left|right]); exists p; destruct Hp as (?&?&?&?); splits; auto; congruence.
  - split; [|done]. intros j Hj _. unfold dinode, inode_block. by rewrite D, (sv_super _ _ V).
Qed.

(** ** Truncation by path *)

Lemma prune_block s ns w T i n s' n' j m p : volume s -> tree_ok s ns -> ns !! i = Some n -> inum_ok s i -> prune w T ns i s n s' n' ->
  ns !! j = Some m -> slot_ok p -> ~ is_meta p \/ j <> i -> val (disk s) m p <> 0 -> disk s' !! val (disk s) m p = disk s !! val (disk s) m p.
Proof.
  intros Hv Ht Hn Hi Hp Hm Hok Hor Hnz. destruct (tree_used s ns Ht j m p Hm Hok Hnz) as [Hd _]. destruct (data_not_table s i _ Hv Hi Hd).
  apply (pr_blocks _ _ _ _ _ _ _ _ Hp); [done|done|]. intros q Hq Hqm E. destruct (tree_inj s ns Ht i j n m q p) as [<- <-]; try congruence. tauto.
Qed.

Lemma prune_touches s ns w T i n s' n' : volume s -> tree_ok s ns -> ns !! i = Some n -> inum_ok s i -> prune w T ns i s n s' n' -> touches ns i s n s' n'.
Proof.
  intros Hv Ht Hn Hi Hp. constructor; try apply Hp.
  - intros j m Hne Hm o Ho. destruct (dslot_ok _ (idx_ok o Ho)) as [Hok _]. unfold fbyte, fzone. rewrite (pr_others _ _ _ _ _ _ _ _ Hp j m) by done.
    case_decide as E; [done|]. f_equal. unfold blk. by rewrite (prune_block s ns w T i n s' n' j m) by auto.
  - intros j m k Hne Hm Hk Hnz. apply (prune_block s ns w T i n s' n' j m (Top k)); auto. cbn. lia.
Qed.

Lemma prune_bytes s ns w T i n s' n' o : fs_ok s ns -> ns !! i = Some n -> prune w T ns i s n s' n' -> 0 <= o < MAX_OFFSET -> ~ T (dslot (o / 1024)) ->
  fbyte (disk s') n' o = fbyte (disk s) n o /\ fzone (disk s') n' (o / 1024) = fzone (disk s) n (o / 1024).
Proof.
  intros Hfs Hn Hp Ho HT. destruct (dslot_ok _ (idx_ok o Ho)) as [Hok Hnm]. destruct (live_inode s ns Hfs i n Hn) as [Hi _]. unfold fbyte, fzone.
  rewrite (pr_data _ _ _ _ _ _ _ _ Hp) by done. split; [|done]. destruct (decide (val (disk s) n (dslot (o / 1024)) = 0)) as [E|E]; [done|]. f_equal. unfold blk.
  rewrite (prune_block s ns w T i n s' n' i n); auto; apply Hfs.
Qed.

(** The bytes kept by a shorter size lie before every index released. *)
Lemma zone_count_spec size o : 0 < size -> 0 <= o -> o / 1024 < minix_file_zone_count size <-> o / 1024 * 1024 < size.
Proof.
  intros Hs Ho. unfold minix_file_zone_count, MINIX_BLOCK_SIZE. rewrite decide_False by lia. replace (size + 1024 - 1) with (size + 1023) by lia.
  Z.to_euclidean_division_equations. lia.
Qed.

Lemma resized_contents d n d' n' len : 0 <= len -> 0 <= i_size n -> i_size n' = len ->
  (forall o, 0 <= o < Z.min len (i_size n) -> fbyte d' n' o = fbyte d n o) -> (forall o, i_size n <= o < len -> fbyte d' n' o = 0) ->
  contents d' n' = take (Z.to_nat len) (contents d n ++ replicate (Z.to_nat (len - i_size n)) 0).
Proof.
  intros Hl Hs Hsz Hk Hz. unfold contents. rewrite Hsz. apply list_eq. intros x. destruct (decide (Z.of_nat x < len)) as [H1|H1].
  - rewrite lookup_take_lt, lookup_frange by lia. destruct (decide (Z.of_nat x < i_size n)) as [H2|H2].
    + rewrite lookup_app_l, lookup_frange by (rewrite ?length_frange; lia). f_equal. apply Hk. lia.
    + rewrite lookup_app_r, length_frange, lookup_replicate_2 by (rewrite ?length_frange; lia). f_equal. apply Hz. lia.
  - rewrite lookup_take_ge by lia. apply lookup_ge_None_2. rewrite length_frange. lia.
Qed.

(** Every zone past the new end left the file and is free. *)
Definition released (s : minix_state) (n : minix_inode_t) (s' : minix_state) (n' : minix_inode_t) (len : Z) : Prop :=
  forall idx, len <= 1024 * idx < i_size n -> fzone (disk s') n' idx = 0 /\ zfree s' (fzone (disk s) n idx) = true.

Lemma prune_released w T ns i s n s' n' idx : prune w T ns i s n s' n' -> 0 <= idx < MAX_ZONE_IDX -> fzone (disk s) n idx <> 0 -> fzone (disk s') n' idx = 0 ->
  zfree s' (fzone (disk s) n idx) = true.
Proof. intros Hp Hi Hnz Hz. apply (pr_free _ _ _ _ _ _ _ _ Hp). right. exists (dslot idx). splits; auto. by apply dslot_ok. Qed.

(** The end of a truncation that shortens the file. *)
Lemma shrink_spec s ns i n s1 n1 len now w T : fs_ok s ns -> ns !! i = Some n -> is_dirbit n = false -> dense (disk s) n -> 0 <= len < i_size n -> i_size n <= MAX_OFFSET ->
  prune w T ns i s n s1 n1 -> (forall o, 0 <= o < len -> ~ T (dslot (o / 1024))) -> (forall idx, len <= 1024 * idx < i_size n -> fzone (disk s1) n1 idx = 0) ->
  exists s2 s3, minix_fs_write_inode s1 i (set_time now (set_size len n1)) = (s2, 0) /\ minix_sync_zone_bitmap s2 = (s3, 0) /\
  (forall p, resolved s3 p = resolved s p) /\ (forall j m, j <> i -> ns !! j = Some m -> same_bytes s s3 m) /\
  fs_ok s3 (<[i := set_time now (set_size len n1)]> ns) /\
  contents (disk s3) (set_time now (set_size len n1)) = take (Z.to_nat len) (contents (disk s) n ++ replicate (Z.to_nat (len - i_size n)) 0) /\
  dense (disk s3) (set_time now (set_size len n1)) /\ released s n s3 (set_time now (set_size len n1)) len.
Proof.
  intros Hfs Hn Hnd Hde Hlen Hmax Hp HT Hgone. pose proof (tree_wf s1 _ (pr_tree _ _ _ _ _ _ _ _ Hp) i n1 (lookup_insert_eq _ _ _)) as Hwf.
  pose proof (tree_wf s ns (fs_tree s ns Hfs) i n Hn) as Hwfn. assert (0 <= i_size n < 4294967296) as Hsn by apply Hwfn.
  destruct (fs_stored s ns i n s1 n1 (set_time now (set_size len n1)) Hfs Hn Hnd (prune_touches s ns w T i n s1 n1 (fs_vol s ns Hfs) (fs_tree s ns Hfs) Hn (proj1 (live_inode s ns Hfs i n Hn)) Hp)) as (s2 & s3 & E1 & E2 & Hst);
    [by apply set_size_time_wf|done|done|]. destruct (Hst s3 ltac:(auto)) as (Hfs3 & Hres & Hoth & Hby & Hzf).
  exists s2, s3. splits; auto.
  - apply resized_contents; try lia; [cbn; apply u32_id; lia|].
    intros o Ho. rewrite (proj1 (Hby o ltac:(lia))). apply (prune_bytes s ns w T i n s1 n1); auto; [lia|apply HT; lia].
  - unfold dense. cbn [set_time set_size i_size]. rewrite u32_id by lia. intros o Ho. rewrite (proj2 (Hby o ltac:(lia))).
    rewrite (proj2 (prune_bytes s ns w T i n s1 n1 o Hfs Hn Hp ltac:(lia) (HT o ltac:(lia)))). apply Hde. lia.
  - intros idx Hidx. assert (E : 1024 * idx / 1024 = idx) by (Z.to_euclidean_division_equations; lia).
    assert (0 <= idx < MAX_ZONE_IDX) by (unfold MAX_OFFSET, MAX_ZONE_IDX in *; lia). rewrite Hzf. split.
    + pose proof (proj2 (Hby (1024 * idx) ltac:(lia))) as Hb. rewrite E in Hb. rewrite Hb. by apply Hgone.
    + apply (prune_released w T ns i s n s1 n1); [done|done| |by apply Hgone]. rewrite <- E. apply Hde. lia.
Qed.

(** The contract of truncation, shared by its three branches. *)
Section truncate.
Context (s : minix_state) (ns : gmap Z minix_inode_t) (path : list Z) (i : Z) (n : minix_inode_t) (len now : Z).
Context (Hfs : fs_ok s ns) (Hres : resolved s path = inr i) (Hn : ns !! i = Some n) (Hnd : is_dirbit n = false).
Context (Hde : dense (disk s) n) (Hlen : 0 <= len <= s_max_size (superblock s)) (Hmax : i_size n <= s_max_size (superblock s)).

Definition truncated (s' : minix_state) (e : Z) : Prop :=
  (forall p, resolved s' p = resolved s p) /\ (forall j m, j <> i -> ns !! j = Some m -> same_bytes s s' m) /\
  ((e = - ENOSPC /\ i_size n < len /\ full s' /\ fs_ok s' ns /\ contents (disk s') n = contents (disk s) n) \/
   (e = 0 /\ exists n', fs_ok s' (<[i := n']> ns) /\
    contents (disk s') n' = take (Z.to_nat len) (contents (disk s) n ++ replicate (Z.to_nat (len - i_size n)) 0) /\ dense (disk s') n' /\ released s n s' n' len /\
    i_mode n' = i_mode n /\ i_uid n' = i_uid n /\ i_gid n' = i_gid n /\ i_nlinks n' = i_nlinks n)).

Lemma truncate_facts : dinode s i = n /\ inum_ok s i /\ volume s /\ tree_ok s ns /\ inode_wf n /\ s_max_size (superblock s) <= 268966912 /\ 0 <= i_size n < 4294967296.
Proof.
  destruct (resolved_live s ns path i Hfs Hres) as [Hn' Hi]. rewrite Hn in Hn'. injection Hn' as En.
  pose proof (fs_vol s ns Hfs) as Hv. pose proof (fs_tree s ns Hfs) as Ht. destruct (vol_geo s Hv) as [_ _ _ _ _ _ Hgs _].
  pose proof (tree_wf s ns Ht i n Hn) as Hwf. splits; auto; try apply Hwf. apply Hgs.
Qed.

(** Up to the choice between growing and cutting. *)
Ltac truncate_enter :=
  destruct truncate_facts as (En & Hi & Hv & Ht & Hwf & Hgs & Hsn); symmetry in En;
  unfold minix_truncate; rewrite (vol_init s Hv); cbn [negb]; rewrite decide_False by lia;
  rewrite (minix_lookup_spec s ns) by done; rewrite Hres; cbn [mbind outcome_bind]; rewrite <- En, Hnd.

Lemma truncate_same : len = i_size n -> exists s' e, minix_truncate s (Some path) len now = Ok (s', e) /\ truncated s' e.
Proof.
  intros Eq. truncate_enter. rewrite decide_True by done. exists s, 0. split; [done|]. split; [done|]. split; [done|]. right. split; [done|].
  exists n. rewrite insert_id by done. splits; auto; [|intros idx Hidx; lia].
  rewrite Eq, Z.sub_diag. cbn [Z.to_nat replicate]. rewrite app_nil_r. symmetry. apply take_ge. rewrite length_contents. lia.
Qed.

Lemma truncate_grow : i_size n < len -> exists s' e, minix_truncate s (Some path) len now = Ok (s', e) /\ truncated s' e.
Proof.
  intros Hgrow. truncate_enter. rewrite (decide_False (P := len = i_size n)) by lia. assert (HMAX : MAX_OFFSET = 268966912) by done. rewrite decide_True by done.
  destruct (gap_spec ns i s n len Hv Ht Hn ltac:(lia) ltac:(lia)) as (s1 & n1 & e & E1 & He & Hk & Hr). rewrite decide_True in E1 by done. rewrite E1. cbn [mbind outcome_bind].
  destruct Hr as [[-> Hfull]|[-> Hgap]].
  - rewrite decide_True by done. do 2 eexists. split; [reflexivity|]. destruct (fs_edit_dropped s ns i n s1 n1 Hfs Hn Hnd He) as [Hf1 Hres1].
    split; [done|]. split; [intros j m Hj Hjm; by apply (edit_others ns i s n s1 n1 j m Ht Hn He)|]. left. splits; auto.
    apply frange_ext. intros o Ho. assert (Hz : fzone (disk s) n (o / 1024) <> 0) by (apply Hde; lia).
    rewrite (dropped_fbyte ns i s n s1 n1 o He) by (done || lia). apply Hk; [lia|lia|done].
  - rewrite decide_False by tauto. destruct (ed_attrs _ _ _ _ _ _ He) as (Am & Au & As & At & Ag & Al).
    pose proof (tree_wf s1 _ (ed_tree _ _ _ _ _ _ He) i n1 (lookup_insert_eq _ _ _)) as Hwf1.
    destruct (fs_stored s ns i n s1 n1 (set_time now (set_size len n1)) Hfs Hn Hnd (edit_touches s ns i n s1 n1 Hfs Hn He)) as (s2 & s3 & -> & E3 & Hst);
      [by apply set_size_time_wf|done|done|]. destruct (Hst s3 ltac:(auto)) as (Hfs3 & Hres3 & Hoth3 & Hby3 & _).
    rewrite decide_False by tauto. rewrite E3. rewrite decide_False by tauto. do 2 eexists. split; [reflexivity|]. split; [done|]. split; [done|]. right.
    split; [done|]. eexists. split; [exact Hfs3|].
    assert (Hold : forall o, 0 <= o < i_size n -> fbyte (disk s1) n1 o = fbyte (disk s) n o /\ fzone (disk s1) n1 (o / 1024) <> 0).
    { intros o Ho. assert (Hz : fzone (disk s) n (o / 1024) <> 0) by (apply Hde; lia). split; [apply Hk; [lia|lia|done]|].
      rewrite (edit_fzone _ _ _ _ _ _ o He) by (done || lia). done. }
    splits; auto.
    + apply resized_contents; try lia; [cbn; apply u32_id; lia|..].
      * intros o Ho. rewrite (proj1 (Hby3 o ltac:(lia))). apply Hold. lia.
      * intros o Ho. rewrite (proj1 (Hby3 o ltac:(lia))). by apply Hgap.
    + unfold dense. cbn [set_time set_size i_size]. rewrite u32_id by lia. intros o Ho. rewrite (proj2 (Hby3 o ltac:(lia))).
      destruct (decide (o < i_size n)); [apply Hold; lia|apply Hgap; lia].
    + intros idx Hidx. lia.
Qed.

Lemma truncate_clear : len = 0 -> 0 < i_size n -> exists s' e, minix_truncate s (Some path) len now = Ok (s', e) /\ truncated s' e.
Proof.
  intros E0 Hgrow. truncate_enter. rewrite (decide_False (P := len = i_size n)) by lia. assert (HMAX : MAX_OFFSET = 268966912) by done. rewrite decide_False, decide_True by lia.
  destruct (free_all_prune ns i s n Hv Ht Hn Hi) as (s1 & n1 & -> & Hp & Hz & _). cbn [mbind outcome_bind].
  destruct (shrink_spec s ns i n s1 n1 len now false _ Hfs Hn Hnd Hde ltac:(lia) ltac:(lia) Hp ltac:(intros; lia) (fun idx _ => Hz (dslot idx))) as (s2 & s3 & -> & E3 & Hr3 & Ho3 & Hf3 & Hc3 & Hd3 & Hrel3).
  rewrite decide_False by tauto. rewrite E3. rewrite decide_False by tauto. do 2 eexists. split; [reflexivity|]. split; [done|]. split; [done|]. right.
  split; [done|]. eexists. destruct (pr_attrs _ _ _ _ _ _ _ _ Hp) as (Am & Au & As & At & Ag & Al). splits; eauto.
Qed.

Lemma truncate_cut : 0 < len < i_size n -> exists s' e, minix_truncate s (Some path) len now = Ok (s', e) /\ truncated s' e.
Proof.
  intros Hgrow. truncate_enter. rewrite (decide_False (P := len = i_size n)) by lia. assert (HMAX : MAX_OFFSET = 268966912) by done. rewrite !decide_False by lia.
  unfold minix_inode_truncate_zones. rewrite decide_False by lia. set (a := minix_file_zone_count len). set (b := minix_file_zone_count (i_size n)).
  assert (Hab : 0 <= a <= b /\ b <= MAX_ZONE_IDX).
  { unfold a, b, minix_file_zone_count, MINIX_BLOCK_SIZE, MAX_ZONE_IDX. rewrite !decide_False by lia. Z.to_euclidean_division_equations. lia. }
  destruct (truncate_loop_spec (Z.to_nat (b - a)) ns i s n a Hv Ht Hn Hi ltac:(lia) ltac:(lia)) as (s1 & n1 & -> & Hp & Hz). cbn [mbind outcome_bind].
  pose proof (pr_vol _ _ _ _ _ _ _ _ Hp) as Hsv. rewrite (read_inode_spec s1 i); [|apply Hsv|by apply (inum_ok_super s); [apply Hsv|]].
  rewrite (proj2 (pr_table _ _ _ _ _ _ _ _ Hp) eq_refl (eq_sym En)). cbv beta iota. cbn [mbind outcome_bind].
  destruct (shrink_spec s ns i n s1 n1 len now true _ Hfs Hn Hnd Hde ltac:(lia) ltac:(lia) Hp) as (s2 & s3 & -> & E3 & Hr3 & Ho3 & Hf3 & Hc3 & Hd3 & Hrel3).
  { intros o Ho (j & Hj & E). apply dslot_inj in E; [|apply idx_ok; lia|lia]. subst j.
    assert (o / 1024 < a) by (apply zone_count_spec; [lia|lia|]; Z.to_euclidean_division_equations; lia). lia. }
  { intros idx Hidx. apply Hz. unfold a, b, minix_file_zone_count, MINIX_BLOCK_SIZE in *. rewrite !decide_False in * by lia. Z.to_euclidean_division_equations. lia. }
  rewrite decide_False by tauto. rewrite E3. rewrite decide_False by tauto. do 2 eexists. split; [reflexivity|]. split; [done|]. split; [done|]. right.
  split; [done|]. eexists. destruct (pr_attrs _ _ _ _ _ _ _ _ Hp) as (Am & Au & As & At & Ag & Al). splits; eauto.
Qed.
End truncate.

(** C36: on a sound volume, [minix_truncate] of a file that is not a directory
    and has no holes, to a length up to s_max_size, cuts the contents to the length
    or extends them with zeros, or, when growing, answers -ENOSPC on a full volume
    with the contents as they were.  After a cut every zone past the new end is out
    of the file and free in the zone bitmap.  Paths, the other files and the
    attributes do not change, the volume stays sound and the file stays without
    holes. *)
Theorem minix_truncate_correct s ns path i n len now : fs_ok s ns -> resolved s path = inr i -> ns !! i = Some n -> is_dirbit n = false ->
  dense (disk s) n -> 0 <= len <= s_max_size (superblock s) -> i_size n <= s_max_size (superblock s) ->
  exists s' e, minix_truncate s (Some path) len now = Ok (s', e) /\
  (forall p, resolved s' p = resolved s p) /\ (forall j m, j <> i -> ns !! j = Some m -> same_bytes s s' m) /\
  ((e = - ENOSPC /\ i_size n < len /\ full s' /\ fs_ok s' ns /\ contents (disk s') n = contents (disk s) n) \/
   (e = 0 /\ exists n', fs_ok s' (<[i := n']> ns) /\
    contents (disk s') n' = take (Z.to_nat len) (contents (disk s) n ++ replicate (Z.to_nat (len - i_size n)) 0) /\ dense (disk s') n' /\ released s n s' n' len /\
    i_mode n' = i_mode n /\ i_uid n' = i_uid n /\ i_gid n' = i_gid n /\ i_nlinks n' = i_nlinks n)).
Proof.
  intros Hfs Hres Hn Hnd Hde Hlen Hmax. destruct (decide (len = i_size n)); [by eapply truncate_same|].
  destruct (decide (i_size n < len)); [by eapply truncate_grow|]. destruct (decide (len = 0)); [eapply truncate_clear; eauto; lia|eapply truncate_cut; eauto; lia].
Qed.
