(* ===== verification/MinixDir.v ===== *)
(** * MINIX directories as lists of names

    [listing d n] are the entries of a directory in the order of its blocks: a
    lookup finds the first with the name, adding an entry adds one to the list
    and removing one takes the first out. *)

From S2P Require Import Prelude Bytes CString Perm Minix MinixFile MinixZones MinixTree MinixContent MinixFs MinixRw.

(** ** One block *)

Definition live (b : list Z) (j : nat) : option (list Z * Z) :=
  if decide (entry_inode b j = 0) then None else Some (minix_dirent_name b j, entry_inode b j).

Definition entries (f : nat -> option (list Z * Z)) (i n : nat) : list (list Z * Z) := omap f (seq i n).
Definition block_listing (b : list Z) : list (list Z * Z) := entries (live b) 0 NUM_ENTRIES.

Fixpoint zone_listing (d : gmap Z (list Z)) (zs : list Z) : list (list Z * Z) :=
  match zs with
  | [] => []
  | z :: zs' => (if decide (z = 0) then [] else block_listing (blk d z)) ++ zone_listing d zs'
  end.

Definition listing (d : gmap Z (list Z)) (n : minix_inode_t) : list (list Z * Z) := zone_listing d (take 7 (i_zone n)).

Fixpoint first_named (l : list (list Z * Z)) (name : list Z) : Z :=
  match l with [] => 0 | (x, i) :: l' => if decide (x = name) then i else first_named l' name end.

Lemma entries_ext f g i n : (forall j, (i <= j < i + n)%nat -> f j = g j) -> entries f i n = entries g i n.
Proof.
  unfold entries. revert i. induction n as [|n IH]; intros i H; [done|]. cbn. rewrite (H i) by lia. rewrite IH; [done|]. intros. apply H. lia.
Qed.

Lemma entries_split f i n j : (i <= j < i + n)%nat ->
  entries f i n = entries f i (j - i) ++ match f j with Some e => [e] | None => [] end ++ entries f (S j) (i + n - S j).
Proof.
  intros Hj. unfold entries. replace n with ((j - i) + (1 + (i + n - S j)))%nat at 1 by lia. rewrite seq_app, omap_app. f_equal.
  replace (i + (j - i))%nat with j by lia. cbn [seq Nat.add omap list_omap]. by destruct (f j).
Qed.

Lemma entries_elem f i n e : e ∈ entries f i n <-> exists j, (i <= j < i + n)%nat /\ f j = Some e.
Proof.
  unfold entries. rewrite list_elem_of_omap. split; intros (j & Hj & E); exists j; split; try done.
  - by apply elem_of_seq in Hj.
  - by apply elem_of_seq.
Qed.

Lemma first_named_app l l' name : first_named (l ++ l') name = if decide (name ∈ l.*1) then first_named l name else first_named l' name.
Proof.
  induction l as [|[x i] l IH]; [done|]. cbn [app first_named fmap list_fmap fst]. rewrite IH. destruct (decide (x = name)) as [->|E].
  - by rewrite decide_True by set_solver.
  - destruct (decide (name ∈ l.*1)) as [E1|E1]; [rewrite decide_True by set_solver; done|rewrite decide_False; [done|set_solver]].
Qed.

Lemma first_named_None l name : name ∉ l.*1 -> first_named l name = 0.
Proof.
  induction l as [|[x i] l IH]; [done|]. cbn [fmap list_fmap fst first_named]. intros [H1 H2]%not_elem_of_cons.
  rewrite decide_False by congruence. auto.
Qed.

Lemma first_named_elem l name : name ∈ l.*1 -> (name, first_named l name) ∈ l.
Proof.
  induction l as [|[x i] l IH]; [by intros ?%elem_of_nil|]. cbn [fmap list_fmap fst first_named]. case_decide as E.
  - intros _. subst. left.
  - intros [?|?]%elem_of_cons; [congruence|]. right. auto.
Qed.

(** The search of a block for a name, and the search for a free entry. *)
Lemma find_entry_listing b name :
  match find_entry b name with
  | Some j => (j < 64)%nat /\ live b j = Some (name, entry_inode b j) /\ name ∉ (entries (live b) 0 j).*1
  | None => name ∉ (block_listing b).*1
  end.
Proof.
  unfold find_entry, block_listing, NUM_ENTRIES.
  assert (Hl : forall n, (forall j, (0 <= j < 0 + n)%nat -> negb (entry_inode b j =? 0) && bool_decide (minix_dirent_name b j = name) = false) ->
            name ∉ (entries (live b) 0 n).*1).
  { intros n H (e & -> & He)%list_elem_of_fmap. apply entries_elem in He as (j & Hj & E). specialize (H j ltac:(lia)).
    unfold live in E. case_decide as E0; [done|]. injection E as <-. cbn [fst] in H. rewrite bool_decide_true in H by done. lia. }
  destruct (find_from _ 0 64) as [j|] eqn:E.
  - apply find_from_Some in E as (Hj & Hp & Hb). apply andb_prop in Hp as [H1 H2]. apply bool_decide_eq_true in H2. splits; [lia| |].
    + unfold live. rewrite decide_False by lia. by rewrite H2.
    + apply Hl. intros k Hk. apply Hb. lia.
  - apply Hl. by apply find_from_None.
Qed.

Lemma dent_in_listing d zs name : dent_in d zs name = first_named (zone_listing d zs) name.
Proof.
  induction zs as [|z zs IH]; [done|]. cbn [dent_in zone_listing]. case_decide; [done|]. rewrite first_named_app.
  pose proof (find_entry_listing (blk d z) name) as Hf. destruct (find_entry (blk d z) name) as [j|].
  - destruct Hf as (Hj & Hl & Hn). unfold block_listing. rewrite (entries_split _ 0 NUM_ENTRIES j) by (unfold NUM_ENTRIES; lia). rewrite Nat.sub_0_r, Hl. cbn [app].
    rewrite decide_True; [|rewrite fmap_app; apply elem_of_app; right; left]. rewrite first_named_app, decide_False by done. cbn [first_named].
    rewrite (decide_True (P := name = name)) by done. done.
  - by rewrite decide_False.
Qed.

Lemma dent_listing d n name : dent d n name = first_named (listing d n) name.
Proof. apply dent_in_listing. Qed.

(** ** Storing an entry *)

Definition name_ok (name : list Z) : Prop := name <> [] /\ (length name <= 14)%nat /\ bytes name /\ nz name.

Lemma text_padded t n : nz t -> text (t ++ replicate n 0) = t.
Proof.
  induction 1 as [|c t Hc Ht IH]; cbn [app text]; [by destruct n|]. rewrite decide_False by done. by rewrite IH.
Qed.

Section put_entry.
Context (b : list Z) (j : nat) (inum : Z) (name : list Z).
Context (Hb : blockish b) (Hj : (j < 64)%nat) (Hlen : (length name <= 14)%nat).

Lemma put_entry_splice : put_entry b j inum name = splice b (16 * j) (le16 inum ++ name ++ replicate (14 - length name) 0).
Proof.
  destruct Hb as [Hl _]. unfold put_entry, MINIX_NAME_LEN. change 2%nat with (length (le16 inum)) at 3. apply splice_app.
  rewrite length_app, length_replicate. cbn [length le16]. lia.
Qed.

Lemma length_put : length (le16 inum ++ name ++ replicate (14 - length name) 0) = 16%nat.
Proof. rewrite !length_app, length_replicate. cbn. lia. Qed.

Lemma blockish_put_entry : bytes name -> blockish (put_entry b j inum name).
Proof.
  intros Hn. rewrite put_entry_splice. apply blockish_splice; [done| |rewrite length_put; lia].
  rewrite !bytes_app. splits; auto with ir0. apply bytes_replicate. lia.
Qed.

Lemma entry_inode_put k : (k < 64)%nat -> entry_inode (put_entry b j inum name) k = if decide (k = j) then u16 inum else entry_inode b k.
Proof.
  intros Hk. destruct Hb as [Hl _]. rewrite put_entry_splice. pose proof length_put as Hp. unfold entry_inode. case_decide as E.
  - subst k. rewrite <- (Nat.add_0_r (16 * j)) at 2. rewrite get16_splice_in by lia. apply get16_le16.
  - apply get16_splice_other; lia.
Qed.

Lemma dirent_name_put k : nz name -> (k < 64)%nat -> minix_dirent_name (put_entry b j inum name) k = if decide (k = j) then name else minix_dirent_name b k.
Proof.
  intros Hnz Hk. destruct Hb as [Hl _]. rewrite put_entry_splice. pose proof length_put as Hp. unfold minix_dirent_name, entry_name, MINIX_NAME_LEN.
  case_decide as E.
  - subst k. rewrite <- (text_padded name (14 - length name) Hnz) at 3. f_equal. apply list_eq. intros x. destruct (decide (x < 14)%nat) as [Hx|Hx].
    + rewrite lookup_take_lt, lookup_drop, lookup_splice by lia. rewrite decide_True by lia.
      replace (16 * j + 2 + x - 16 * j)%nat with (length (le16 inum) + x)%nat by (cbn; lia). rewrite lookup_app_r by lia. f_equal. lia.
    + rewrite lookup_take_ge by lia. symmetry. apply lookup_ge_None_2. rewrite length_app, length_replicate. lia.
  - f_equal. apply list_eq. intros x. destruct (decide (x < 14)%nat) as [Hx|Hx]; [|by rewrite !lookup_take_ge by lia].
    rewrite !lookup_take_lt, !lookup_drop, lookup_splice by lia. rewrite decide_False by lia. done.
Qed.

Lemma live_put k : nz name -> (k < 64)%nat ->
  live (put_entry b j inum name) k = if decide (k = j) then (if decide (u16 inum = 0) then None else Some (name, u16 inum)) else live b k.
Proof.
  intros Hnz Hk. unfold live. rewrite entry_inode_put, dirent_name_put by done. by destruct (decide (k = j)).
Qed.

Lemma block_listing_put : nz name -> exists l1 l2, block_listing b = l1 ++ match live b j with Some e => [e] | None => [] end ++ l2 /\
  l1 = entries (live b) 0 j /\
  block_listing (put_entry b j inum name) = l1 ++ (if decide (u16 inum = 0) then [] else [(name, u16 inum)]) ++ l2.
Proof.
  intros Hnz. exists (entries (live b) 0 j), (entries (live b) (S j) (0 + 64 - S j)). unfold block_listing, NUM_ENTRIES.
  rewrite !(entries_split _ 0 64 j) by lia. rewrite Nat.sub_0_r. splits; [done|done|]. f_equal; [|f_equal].
  - apply entries_ext. intros k Hk. rewrite live_put by (done || lia). by rewrite decide_False by lia.
  - rewrite live_put by done. rewrite decide_True by done. by case_decide.
  - apply entries_ext. intros k Hk. rewrite live_put by (done || lia). by rewrite decide_False by lia.
Qed.
End put_entry.

(** ** The blocks of a directory *)

Lemma zone_listing_app d zs zs' : zone_listing d (zs ++ zs') = zone_listing d zs ++ zone_listing d zs'.
Proof. induction zs as [|z zs IH]; [done|]. cbn [app zone_listing]. by rewrite IH, app_assoc. Qed.

Lemma zone_listing_ext d d' zs : (forall z, z ∈ zs -> z <> 0 -> d' !! z = d !! z) -> zone_listing d' zs = zone_listing d zs.
Proof.
  induction zs as [|z zs IH]; intros H; [done|]. cbn [zone_listing]. rewrite IH by (intros; apply H; [by right|done]). f_equal.
  case_decide; [done|]. unfold blk. rewrite H; [done|left|done].
Qed.

(** A block that is changed, where no other position holds the same zone. *)
Lemma zone_listing_change d zs1 z zs2 b : z <> 0 -> z ∉ zs1 -> z ∉ zs2 ->
  zone_listing (<[z := b]> d) (zs1 ++ z :: zs2) = zone_listing d zs1 ++ block_listing b ++ zone_listing d zs2.
Proof.
  intros Hz H1 H2. rewrite zone_listing_app. cbn [zone_listing]. rewrite decide_False by done. unfold blk. rewrite lookup_insert_eq. cbn [default from_option id].
  f_equal; [|f_equal]; apply zone_listing_ext; intros y Hy _; apply lookup_insert_ne; congruence.
Qed.

Lemma zone_listing_cons d zs1 z zs2 : z <> 0 -> zone_listing d (zs1 ++ z :: zs2) = zone_listing d zs1 ++ block_listing (blk d z) ++ zone_listing d zs2.
Proof. intros Hz. rewrite zone_listing_app. cbn [zone_listing]. by rewrite decide_False. Qed.

(** [l'] is [l] with [e] put in at some place. *)
Definition inserted {A} (e : A) (l l' : list A) : Prop := exists l1 l2, l = l1 ++ l2 /\ l' = l1 ++ e :: l2.

Lemma inserted_mid {A} (l1 lb lb' l2 : list A) e : inserted e lb lb' -> inserted e (l1 ++ lb ++ l2) (l1 ++ lb' ++ l2).
Proof. intros (a & b & -> & ->). exists (l1 ++ a), (b ++ l2). by rewrite <- !app_assoc. Qed.

Lemma inserted_elem {A} (e : A) l l' x : inserted e l l' -> x ∈ l' <-> x = e \/ x ∈ l.
Proof. intros (a & b & -> & ->). rewrite !elem_of_app, elem_of_cons. tauto. Qed.

Lemma first_named_inserted name i l l' x : inserted (name, i) l l' -> name ∉ l.*1 -> first_named l' x = if decide (x = name) then i else first_named l x.
Proof.
  intros (a & b & -> & ->) Hn. rewrite fmap_app, not_elem_of_app in Hn. destruct Hn as [Ha Hb]. rewrite !first_named_app. cbn [first_named].
  destruct (decide (x = name)) as [->|Hne].
  - rewrite decide_False by done. by rewrite decide_True.
  - by rewrite (decide_False (P := name = x)) by congruence.
Qed.

(** The place of a zone among the first seven. *)
Lemma zones_at n zs1 z zs2 : take 7 (i_zone n) = zs1 ++ z :: zs2 -> (length zs1 < 7)%nat /\ zone_of n (length zs1) = z.
Proof.
  intros E. assert (Hl : take 7 (i_zone n) !! length zs1 = Some z) by (rewrite E, lookup_app_r, Nat.sub_diag by lia; done).
  apply lookup_take_Some in Hl as [Hl Hlt]. split; [done|]. unfold zone_of. by rewrite Hl.
Qed.

Lemma zones_once s ns i n zs1 z zs2 : tree_ok s ns -> ns !! i = Some n -> take 7 (i_zone n) = zs1 ++ z :: zs2 -> z <> 0 -> (z ∉ zs1) /\ (z ∉ zs2).
Proof.
  intros Ht Hn E Hz. destruct (zones_at n zs1 z zs2 E) as [Hk Hzk].
  assert (Hu : forall x, (zs1 ++ z :: zs2) !! x = Some z -> x = length zs1).
  { intros x Hx. rewrite <- E in Hx. apply lookup_take_Some in Hx as [Hx Hlt].
    destruct (tree_inj s ns Ht i i n n (Top x) (Top (length zs1))) as [_ [= ?]]; cbn [val slot_ok]; auto; try lia; unfold zone_of in *; rewrite Hx; cbn; congruence. }
  split; intros (x & Hx)%list_elem_of_lookup.
  - pose proof (lookup_lt_Some _ _ _ Hx). specialize (Hu x). rewrite lookup_app_l in Hu by done. specialize (Hu Hx). lia.
  - specialize (Hu (length zs1 + S x)%nat). rewrite lookup_app_r in Hu by lia. replace (length zs1 + S x - length zs1)%nat with (S x) in Hu by lia.
    specialize (Hu Hx). lia.
Qed.

Lemma dir_block_edit s ns i n k z b : volume s -> tree_ok s ns -> ns !! i = Some n -> (k < 7)%nat -> zone_of n k = z -> z <> 0 -> blockish b ->
  edit ns i s n (set_disk (<[z := b]> (disk s)) s) n.
Proof.
  intros Hv Ht Hn Hk <- Hz Hb. destruct (edit_data ns i s n (Top k) b Hv Ht Hn) as [He _]; [cbn; lia|cbn; lia|done|done|exact He].
Qed.

(** ** Adding *)

Definition resized (n n' : minix_inode_t) : Prop := n' = n \/ exists z, n' = set_size z n.

Lemma resized_zones n n' : resized n n' -> i_zone n' = i_zone n /\ i_mode n' = i_mode n /\ i_nlinks n' = i_nlinks n /\ i_uid n' = i_uid n /\ i_gid n' = i_gid n.
Proof. intros [->|[z ->]]; done. Qed.

Lemma resized_wf n n' : inode_wf n -> resized n n' -> inode_wf n'.
Proof.
  intros Hn [->|[z ->]]; [done|]. destruct Hn as (H1 & H2 & H3 & H4 & H5 & H6 & H7 & H8). unfold inode_wf. cbn. unfold u32. change (2 ^ 32) with 4294967296.
  pose proof (Z.mod_pos_bound z 4294967296). splits; try lia; done.
Qed.

Lemma free_or_same_free b name j : name ∉ (block_listing b).*1 -> free_or_same b name = Some j -> (j < 64)%nat /\ entry_inode b j = 0.
Proof.
  intros Hn E. unfold free_or_same, NUM_ENTRIES in E. apply find_from_Some in E as (Hj & Hp & _). split; [lia|].
  destruct (decide (entry_inode b j = 0)) as [E0|E0]; [done|]. exfalso. apply Hn. apply orb_prop in Hp as [Hp|Hp]; [lia|]. apply bool_decide_eq_true in Hp.
  apply list_elem_of_fmap. exists (name, entry_inode b j). split; [done|]. apply entries_elem. exists j. unfold NUM_ENTRIES. split; [lia|].
  unfold live. by rewrite decide_False, Hp.
Qed.

Section add.
Context (name : list Z) (inum : Z) (Hname : name_ok name) (Hinum : 0 < inum < 65535).

Lemma listing_put_free b j : blockish b -> (j < 64)%nat -> entry_inode b j = 0 -> inserted (name, inum) (block_listing b) (block_listing (put_entry b j inum name)).
Proof.
  intros Hb Hj E. destruct Hname as (_ & Hl & _ & Hnz). destruct (block_listing_put b j inum name Hb Hj Hl Hnz) as (l1 & l2 & -> & _ & ->).
  rewrite u16_id by lia. unfold live. rewrite decide_True by done. rewrite decide_False by lia. by exists l1, l2.
Qed.

Lemma add_in_zones_spec s zs : forall k dir, volume s -> (forall z, z ∈ zs -> z <> 0 -> data_zone s z) -> name ∉ (zone_listing (disk s) zs).*1 ->
  add_in_zones zs k s dir name inum = (s, None) \/
  exists zs1 z zs2 b dir', zs = zs1 ++ z :: zs2 /\ z <> 0 /\ blockish b /\ inserted (name, inum) (block_listing (blk (disk s) z)) (block_listing b) /\
    resized dir dir' /\ add_in_zones zs k s dir name inum = (set_disk (<[z := b]> (disk s)) s, Some (dir', 0)).
Proof.
  induction zs as [|z zs IH]; intros k dir Hv Hz Hn; [by left|]. cbn [add_in_zones]. destruct (decide (z = 0)) as [E|E]; [by left|].
  destruct (blk_there s z Hv (Hz z ltac:(set_solver) E)) as [Hb Hbb]. rewrite (read_block_quiet s z _ (vol_quiet s Hv) Hb).
  cbn [zone_listing] in Hn. rewrite decide_False, fmap_app, not_elem_of_app in Hn by done. destruct Hn as [Hn1 Hn2].
  destruct (free_or_same (blk (disk s) z) name) as [j|] eqn:Ej.
  - right. destruct (free_or_same_free _ _ _ Hn1 Ej) as [Hj E0]. rewrite (decide_False (P := entry_inode _ _ <> 0)) by tauto.
    rewrite write_block_quiet; [|apply Hv|rewrite Hb; eauto]. rewrite decide_False by tauto.
    exists [], z, zs, (put_entry (blk (disk s) z) j inum name). eexists. split; [done|].
    splits; [done|apply (blockish_put_entry _ j inum name); try done; apply Hname| | |reflexivity].
    + by apply listing_put_free.
    + case_decide; [right; eauto|by left].
  - destruct (IH (S k) dir Hv) as [->|(zs1 & y & zs2 & b & dir' & -> & Hy & Hbl & Hp & Hr & ->)]; [intros; apply Hz; [by right|done]|done|by left|].
    right. exists (z :: zs1), y, zs2, b, dir'. splits; auto.
Qed.

Lemma zero_block_listing : block_listing zero_block = [].
Proof. vm_compute. reflexivity. Qed.

(** A zone that was free becomes block [k] of the directory. *)
Lemma new_block_spec s s1 s2 ns i n k z b e : volume s -> tree_ok s ns -> ns !! i = Some n -> (k < 7)%nat -> zone_of n k = 0 -> data_zone s z -> zfree s z = true ->
  zmap_only s s1 -> (forall y, zfree s1 y = if decide (y = z) then false else zfree s y) -> s2 = set_disk (<[z := b]> (disk s1)) s1 ->
  blockish b -> block_listing b = [e] ->
  edit ns i s n s2 (set_zone k z n) /\ inserted e (listing (disk s) n) (listing (disk s2) (set_zone k z n)) /\ listing (disk s2) n = listing (disk s) n.
Proof.
  intros Hv Ht Hn Hk Hk0 Hz Hf Hzo Hfr -> Hb Hl9. assert (Hl : length (i_zone n) = 9%nat) by apply (tree_wf s ns Ht i n Hn).
  destruct (data_zone_there s z Hv Hz) as [Hthere Hpos]. destruct (zmap_only_same s s1 Hzo Hv) as [Hs1 Hd1].
  assert (Hu16 : u16 z = z) by (apply u16_id; lia). rewrite Hd1. split; [|split].
  - apply (grow_edit (Some (Top k))). apply (grow_graft _ ns i s _ n (set_zone k z n) (Top k) z); auto.
    + cbn. lia.
    + rewrite <- Hd1. apply (same_vol_trans _ _ _ Hs1). apply set_disk_same; [apply Hs1|done|by rewrite Hd1].
    + apply set_zone_wf. by apply (tree_wf s ns Ht i).
    + done.
    + intros p Hp. cbn [disk set_disk]. rewrite val_set_top by (auto; lia). case_decide; [done|]. apply val_frame; [done|]. intros q Hq _ Hqz. apply lookup_insert_ne.
      intros E. apply (free_not_val s ns i n q z Ht Hn Hq Hf); [lia|done].
    + intros y Hy _. cbn [disk set_disk]. by apply lookup_insert_ne.
  - assert (Ezs : take 7 (i_zone n) = take k (i_zone n) ++ 0 :: drop (S k) (take 7 (i_zone n))).
    { unfold zone_of in Hk0. destruct (i_zone n !! k) as [z0|] eqn:E0; [|apply lookup_ge_None in E0; lia]. cbn in Hk0. subst z0.
      rewrite <- (take_drop k (take 7 (i_zone n))) at 1. rewrite take_take, Nat.min_l by lia. f_equal. apply drop_S. rewrite lookup_take_lt by lia. done. }
    set (zs1 := take k (i_zone n)) in *. set (zs2 := drop (S k) (take 7 (i_zone n))) in *.
    assert (Ezs' : take 7 (i_zone (set_zone k z n)) = zs1 ++ z :: zs2).
    { cbn [set_zone i_zone]. rewrite Hu16. rewrite take_insert_lt by lia. rewrite Ezs. assert (length zs1 = k) as Hzl by (unfold zs1; rewrite length_take; lia).
      rewrite <- Hzl at 1. by rewrite insert_app_r_alt, Nat.sub_diag by lia. }
    assert (Hout : forall y, y ∈ zs1 ++ 0 :: zs2 -> y <> z).
    { intros y Hy ->. rewrite <- Ezs in Hy. apply direct_zone in Hy as (x & Hx & Ex). apply (free_not_val s ns i n (Top x) z Ht Hn); [cbn; lia|done|lia|done]. }
    unfold listing. cbn [disk set_disk]. rewrite Ezs', Ezs. rewrite zone_listing_change; [|lia|intros Hy; apply (Hout z); [set_solver|done]|intros Hy; apply (Hout z); [set_solver|done]].
    rewrite Hl9, zone_listing_app. cbn [zone_listing]. rewrite decide_True by done. cbn [app]. by do 2 eexists.
  - apply zone_listing_ext. intros y (x & Hx & <-)%direct_zone Hy. cbn [disk set_disk]. apply lookup_insert_ne. intros E.
    apply (free_not_val s ns i n (Top x) z Ht Hn); [cbn; lia|done|lia|done].
Qed.

(** A name that is not there is added, or there is no room for it. *)
Lemma add_dir_entry_spec s ns i n : volume s -> tree_ok s ns -> ns !! i = Some n -> name ∉ (listing (disk s) n).*1 ->
  exists s' n' e, minix_fs_add_dir_entry s n name inum = Ok (s', n', e) /\
  ((e = - ENOSPC /\ s' = s /\ n' = n) \/
   (e = 0 /\ exists n1, edit ns i s n s' n1 /\ resized n1 n' /\ inserted (name, inum) (listing (disk s) n) (listing (disk s') n1) /\
    (listing (disk s') n = listing (disk s) n \/ inserted (name, inum) (listing (disk s) n) (listing (disk s') n)))).
Proof.
  intros Hv Ht Hn Hnot. destruct Hname as (Hne & Hlen & Hby & Hnz). unfold minix_fs_add_dir_entry, MINIX_DIRECT_ZONES, MINIX_NAME_LEN.
  rewrite decide_False by lia. rewrite decide_False by (destruct name; [done|cbn in *; lia]).
  assert (Hdz : forall z, z ∈ take 7 (i_zone n) -> z <> 0 -> data_zone s z).
  { intros z (k & Hk & <-)%direct_zone Hz. apply (tree_used s ns Ht i n (Top k) Hn); [cbn; lia|done]. }
  destruct (add_in_zones_spec s _ 0 n Hv Hdz Hnot) as [->|(zs1 & z & zs2 & b & n' & Ezs & Hz & Hb & Hp & Hr & ->)].
  - destruct (find_from _ 0 7) as [k|] eqn:Ek; [|do 3 eexists; split; [reflexivity|by left]].
    apply find_from_Some in Ek as (Hk & Hk0 & _). apply Z.eqb_eq in Hk0.
    destruct (minix_alloc_zone_spec s Hv) as (s1 & z & -> & [(-> & -> & _)|(Hz & Hf & Hzo & Hfr)]); cbn [mbind outcome_bind].
    { rewrite decide_True by done. do 3 eexists. split; [reflexivity|by left]. }
    destruct (data_zone_there s z Hv Hz) as [Hthere Hpos]. rewrite decide_False by lia. destruct (zmap_only_same s s1 Hzo Hv) as [Hs1 Hd1].
    rewrite write_block_quiet; [|apply Hs1|by rewrite Hd1]. rewrite decide_False by tauto. do 3 eexists. split; [reflexivity|right]. split; [done|].
    assert (Hbl : blockish (put_entry zero_block 0 inum name)) by (apply blockish_put_entry; auto with ir0; lia).
    assert (Hli : block_listing (put_entry zero_block 0 inum name) = [(name, inum)]).
    { destruct (listing_put_free zero_block 0 blockish_zero ltac:(lia) ltac:(vm_compute; reflexivity)) as (l1 & l2 & E & ->). rewrite zero_block_listing in E.
      symmetry in E. by apply app_eq_nil in E as [-> ->]. }
    exists (set_zone k z n). destruct (new_block_spec s s1 _ ns i n k z _ (name, inum) Hv Ht Hn ltac:(lia) Hk0 Hz Hf Hzo Hfr eq_refl Hbl Hli) as (He & Hl & Hl').
    split; [exact He|]. split; [right; eauto|]. split; [exact Hl|by left].
  - destruct (zones_once s ns i n zs1 z zs2 Ht Hn Ezs Hz) as [Ho1 Ho2]. destruct (zones_at n zs1 z zs2 Ezs) as [Hk Hzk].
    do 3 eexists. split; [reflexivity|right]. split; [done|]. exists n.
    assert (Hins : inserted (name, inum) (listing (disk s) n) (listing (<[z := b]> (disk s)) n)).
    { unfold listing. rewrite Ezs. rewrite zone_listing_change by done. rewrite zone_listing_cons by done. by apply inserted_mid. }
    split; [|split; [done|split; [exact Hins|right; exact Hins]]].
    by apply (dir_block_edit s ns i n (length zs1)).
Qed.
End add.

(** ** Removing *)

Lemma listing_put_removed b name j : blockish b -> find_entry b name = Some j ->
  exists l1 l2, block_listing b = l1 ++ (name, entry_inode b j) :: l2 /\ (name ∉ l1.*1) /\ block_listing (put_entry b j 0 []) = l1 ++ l2 /\ blockish (put_entry b j 0 []).
Proof.
  intros Hb E. pose proof (find_entry_listing b name) as Hf. rewrite E in Hf. destruct Hf as (Hj & Hl & Hn).
  assert (Hz : nz []) by constructor. destruct (block_listing_put b j 0 [] Hb Hj ltac:(cbn; lia) Hz) as (l1 & l2 & E1 & -> & E2).
  exists (entries (live b) 0 j), l2. rewrite Hl in E1. split; [exact E1|]. split; [done|]. split; [exact E2|]. apply blockish_put_entry; auto; [cbn; lia|constructor].
Qed.

Section remove.
Context (name : list Z) (Hname : name_ok name).

Lemma remove_in_zones_spec s zs : forall dir, volume s -> (forall z, z ∈ zs -> z <> 0 -> data_zone s z) ->
  if decide (name ∈ (zone_listing (disk s) zs).*1)
  then exists zs1 z zs2 b l1 l2 x dir', zs = zs1 ++ z :: zs2 /\ z <> 0 /\ blockish b /\ block_listing (blk (disk s) z) = l1 ++ (name, x) :: l2 /\
    (name ∉ (zone_listing (disk s) zs1 ++ l1).*1) /\ block_listing b = l1 ++ l2 /\ resized dir dir' /\
    remove_in_zones zs s dir name = (set_disk (<[z := b]> (disk s)) s, dir', 0)
  else remove_in_zones zs s dir name = (s, dir, - ENOENT).
Proof.
  induction zs as [|z zs IH]; intros dir Hv Hz; [by rewrite decide_False by set_solver|]. cbn [remove_in_zones zone_listing].
  specialize (IH dir Hv ltac:(intros; apply Hz; [by right|done])). destruct (decide (z = 0)) as [E|E].
  - cbn [app]. destruct (decide (name ∈ _)); [|done]. destruct IH as (zs1 & y & zs2 & b & l1 & l2 & x & dir' & -> & Hy & H1 & H2 & H3 & H4 & H5 & ->).
    exists (z :: zs1), y, zs2, b, l1, l2, x, dir'. splits; auto. cbn [zone_listing]. by rewrite decide_True.
  - destruct (blk_there s z Hv (Hz z ltac:(set_solver) E)) as [Hb Hbb]. rewrite (read_block_quiet s z _ (vol_quiet s Hv) Hb).
    rewrite take_ge by (unfold MINIX_NAME_LEN; apply Hname). pose proof (find_entry_listing (blk (disk s) z) name) as Hf.
    destruct (find_entry (blk (disk s) z) name) as [j|] eqn:Ej.
    + destruct (listing_put_removed _ name j Hbb Ej) as (l1 & l2 & E1 & Hn1 & E2 & Hb2). rewrite decide_True by (rewrite E1, !fmap_app; apply elem_of_app; left; apply elem_of_app; right; left).
      rewrite write_block_quiet; [|apply Hv|rewrite Hb; eauto]. rewrite (decide_False (P := 0 <> 0)) by tauto.
      clear IH. exists [], z, zs, (put_entry (blk (disk s) z) j 0 []), l1, l2, (entry_inode (blk (disk s) z) j).
      destruct (decide (0 < i_size dir)); [destruct (no_entries _)|]; eexists; do 6 (split; [done|]); (split; [|reflexivity]); unfold resized; eauto.
    + rewrite fmap_app. destruct (decide (name ∈ (zone_listing (disk s) zs).*1)) as [Hin|Hin].
      * rewrite decide_True by (apply elem_of_app; by right). destruct IH as (zs1 & y & zs2 & b & l1 & l2 & x & dir' & -> & Hy & H1 & H2 & H3 & H4 & H5 & ->).
        exists (z :: zs1), y, zs2, b, l1, l2, x, dir'. splits; auto. cbn [zone_listing]. rewrite decide_False by done. rewrite <- app_assoc, fmap_app, not_elem_of_app. done.
      * rewrite decide_False by (rewrite not_elem_of_app; done). done.
Qed.

(** The first entry with the name is taken out of the directory. *)
Lemma remove_dir_entry_spec s ns i n : volume s -> tree_ok s ns -> ns !! i = Some n -> name ∈ (listing (disk s) n).*1 ->
  exists s' n' l1 x l2, minix_fs_remove_dir_entry s n name = (s', n', 0) /\ edit ns i s n s' n /\ resized n n' /\
  listing (disk s) n = l1 ++ (name, x) :: l2 /\ (name ∉ l1.*1) /\ listing (disk s') n = l1 ++ l2.
Proof.
  intros Hv Ht Hn Hin. unfold minix_fs_remove_dir_entry, MINIX_DIRECT_ZONES. rewrite decide_False by apply Hname.
  assert (Hdz : forall z, z ∈ take 7 (i_zone n) -> z <> 0 -> data_zone s z).
  { intros z (k & Hk & <-)%direct_zone Hz. apply (tree_used s ns Ht i n (Top k) Hn); [cbn; lia|done]. }
  pose proof (remove_in_zones_spec s _ n Hv Hdz) as Hr. rewrite decide_True in Hr by done.
  destruct Hr as (zs1 & z & zs2 & b & l1 & l2 & x & n' & Ezs & Hz & Hb & H1 & H2 & H3 & H4 & ->).
  destruct (zones_once s ns i n zs1 z zs2 Ht Hn Ezs Hz) as [Ho1 Ho2]. destruct (zones_at n zs1 z zs2 Ezs) as [Hk Hzk].
  exists (set_disk (<[z := b]> (disk s)) s), n', (zone_listing (disk s) zs1 ++ l1), x, (l2 ++ zone_listing (disk s) zs2).
  split; [done|]. split; [by apply (dir_block_edit s ns i n (length zs1))|]. split; [done|]. unfold listing. cbn [disk set_disk]. rewrite Ezs.
  split; [rewrite zone_listing_cons, H1 by done; by rewrite <- !app_assoc|]. split; [done|].
  rewrite zone_listing_change, H3 by done. by rewrite <- !app_assoc.
Qed.

Lemma remove_dir_entry_absent s ns i n : volume s -> tree_ok s ns -> ns !! i = Some n -> name ∉ (listing (disk s) n).*1 ->
  minix_fs_remove_dir_entry s n name = (s, n, - ENOENT).
Proof.
  intros Hv Ht Hn Hin. unfold minix_fs_remove_dir_entry, MINIX_DIRECT_ZONES. rewrite decide_False by apply Hname.
  assert (Hdz : forall z, z ∈ take 7 (i_zone n) -> z <> 0 -> data_zone s z).
  { intros z (k & Hk & <-)%direct_zone Hz. apply (tree_used s ns Ht i n (Top k) Hn); [cbn; lia|done]. }
  pose proof (remove_in_zones_spec s _ n Hv Hdz) as Hr. by rewrite decide_False in Hr.
Qed.
End remove.
