(* ===== verification/MinixInode.v ===== *)
(** * MINIX inodes: allocation, release and storing them by path

    The inode bitmap is the set of inodes in use; taking one that is not used
    and storing it, and dropping one that no directory names, keep a volume
    sound. *)

From S2P Require Import Prelude Bytes CString Perm Minix MinixFile MinixZones MinixTree MinixContent MinixFs MinixRw MinixDir.

(** ** The inode bitmap *)

Lemma set_imap_volume s bm : volume s -> blockish bm -> volume (set_imap bm s).
Proof. intros [Hq Hi Hg Hz Him Hb Ht] Hbm. constructor; cbn; eauto. Qed.

Lemma set_imap_data s bm : volume s -> blockish bm -> data_same s (set_imap bm s).
Proof. intros Hv Hb. constructor; try done. by apply set_imap_volume. Qed.

Lemma alloc_inode_loop_spec k : forall i s bm, blockish bm -> inode_bitmap s = Some bm -> (i + k <= 8 * 1024)%nat ->
  exists s' z, alloc_inode_loop k i s bm = Ok (s', z) /\
  ((z = 0 /\ s' = s /\ forall j, (i <= j < i + k)%nat -> bitmap_test bm j = true) \/
   (exists j, z = Z.of_nat j /\ (i <= j < i + k)%nat /\ bitmap_test bm j = false /\ s' = set_imap (bitmap_set bm j) s)).
Proof.
  induction k as [|k IH]; intros i s bm Hb Hbm Hk; cbn [alloc_inode_loop].
  - exists s, 0. split; [done|left]. splits; auto. lia.
  - destruct Hb as [Hl Hby]. rewrite decide_True by (rewrite Hl; apply Nat.Div0.div_lt_upper_bound; lia). destruct (bitmap_test bm i) eqn:E.
    + destruct (IH (S i) s bm ltac:(split; done) Hbm ltac:(lia)) as (s' & z & -> & [(-> & -> & H)|(j & -> & Hj & Ht & ->)]).
      * exists s, 0. split; [done|left]. splits; auto. intros j Hj. destruct (decide (j = i)) as [->|]; [done|]. apply H. lia.
      * do 2 eexists. split; [reflexivity|right]. exists j. splits; auto; lia.
    + do 2 eexists. split; [reflexivity|right]. exists i. splits; auto; lia.
Qed.

Lemma inode_used_set s bm bm' i v : volume s -> inode_bitmap s = Some bm -> (forall j, bitmap_test bm' j = if decide (j = Z.to_nat i) then v else bitmap_test bm j) ->
  forall j, inum_ok s j -> inum_ok s i -> inode_used (set_imap bm' s) j = if decide (j = i) then v else inode_used s j.
Proof.
  intros Hv Hbm Ht j Hj Hi. unfold inode_used. cbn [set_imap inode_bitmap]. rewrite Hbm, Ht. unfold inum_ok in *.
  destruct (decide (j = i)) as [->|Hne]; [by rewrite decide_True|]. by rewrite decide_False by lia.
Qed.

(** An inode that is not in use is taken whenever there is one. *)
Lemma minix_alloc_inode_spec s : volume s -> exists s' i, minix_alloc_inode s = Ok (s', i) /\
  ((i = 0 /\ s' = s /\ forall j, inum_ok s j -> inode_used s j = true) \/
   (inum_ok s i /\ inode_used s i = false /\ data_same s s' /\ disk s' = disk s /\
    forall j, inum_ok s j -> inode_used s' j = if decide (j = i) then true else inode_used s j)).
Proof.
  intros Hv. destruct (vol_imap s Hv) as (bm & Hbm & Hb). pose proof (inode_limit_bound s (vol_geo s Hv)) as Hlim.
  unfold minix_alloc_inode. fold (inode_limit (superblock s)). rewrite Hbm. cbn [or_ub mbind outcome_bind].
  destruct (alloc_inode_loop_spec (Z.to_nat (inode_limit (superblock s))) 1 s bm Hb Hbm ltac:(lia)) as (s' & z & -> & [(-> & -> & H)|(j & -> & Hj & Ht & ->)]).
  - do 2 eexists. split; [reflexivity|left]. splits; auto. intros j Hj. unfold inode_used. rewrite Hbm. apply H. unfold inum_ok in Hj. lia.
  - assert (Hok : inum_ok s (Z.of_nat j)) by (unfold inum_ok; lia). do 2 eexists. split; [reflexivity|right]. split; [done|].
    split; [unfold inode_used; by rewrite Hbm, Nat2Z.id|].
    split; [apply set_imap_data; [done|]; destruct Hb as [Hl Hby]; split; [unfold bitmap_set; by rewrite length_insert|by apply bytes_bitmap_set]|]. split; [done|].
    intros k Hk. apply (inode_used_set s bm); auto. intros x. rewrite Nat2Z.id. apply bitmap_test_set.
    destruct Hb as [-> _]. apply Nat.Div0.div_lt_upper_bound. lia.
Qed.

(** What is stored in the first bitmap block changes no data and no inode. *)
Lemma imap_block s b : volume s -> blockish b -> let s' := set_disk (<[2 := b]> (disk s)) s in
  data_same s s' /\ is_Some (disk s !! 2) /\ (forall j, inum_ok s j -> dinode s' j = dinode s j) /\ (forall j, inode_used s' j = inode_used s j).
Proof.
  intros Hv Hb s'. pose proof (table_first s Hv) as Htf. destruct (vol_geo s Hv) as [_ H1 H2 _ _ _ _ _]. unfold first_zone in Htf.
  assert (Hth : is_Some (disk s !! 2)) by (apply (vol_there s Hv); lia).
  assert (Hd : forall y, y <> 2 -> disk s' !! y = disk s !! y) by (intros y Hy; cbn [s' disk set_disk]; by apply lookup_insert_ne).
  splits; auto.
  - constructor; try done; [by apply set_disk_volume|]. intros y Hy. apply Hd. unfold first_zone in Hy. lia.
  - intros j Hj. apply dinode_same; auto. intros y [Hy _]. apply Hd. lia.
Qed.

Lemma sync_inode_bitmap_spec s : volume s -> exists s', minix_sync_inode_bitmap s = (s', 0) /\ data_same s s' /\
  (forall j, inum_ok s j -> dinode s' j = dinode s j) /\ (forall j, inode_used s' j = inode_used s j).
Proof.
  intros Hv. destruct (vol_imap s Hv) as (bm & Hbm & Hb). unfold minix_sync_inode_bitmap. rewrite Hbm.
  assert (Hb' : blockish (take 1024 bm)) by (destruct Hb as [Hl Hby]; split; [rewrite length_take; lia|auto with ir0]).
  destruct (imap_block s _ Hv Hb') as (H1 & H2 & H3 & H4). rewrite write_block_quiet; [|apply Hv|done]. rewrite decide_False by tauto. eexists. split; [reflexivity|done].
Qed.

Lemma free_inode_spec s i : volume s -> inum_ok s i -> s_ninodes (superblock s) <> 0 -> exists s', minix_fs_free_inode s i = Ok (s', 0) /\ data_same s s' /\
  (forall j, inum_ok s j -> dinode s' j = dinode s j) /\ (forall j, inum_ok s j -> inode_used s' j = if decide (j = i) then false else inode_used s j).
Proof.
  intros Hv Hi Hni. destruct (vol_imap s Hv) as (bm & Hbm & Hb). destruct (vol_geo s Hv) as [_ H1 H2 H3 _ _ _ _]. pose proof (inode_limit_bound s (vol_geo s Hv)) as Hlim.
  assert (Hle : i <= s_ninodes (superblock s)).
  { unfold inum_ok, inode_limit in Hi. unfold MINIX_MAX_INODES in *. case_decide; lia. }
  unfold minix_fs_free_inode, MINIX_BLOCK_SIZE. unfold inum_ok in Hi. rewrite decide_False by lia. rewrite decide_False by (Z.to_euclidean_division_equations; lia).
  rewrite Hbm. rewrite decide_True by (destruct Hb as [-> _]; apply Nat.Div0.div_lt_upper_bound; lia). cbn [mbind outcome_bind].
  assert (Hbc : blockish (bitmap_clear bm (Z.to_nat i))) by (destruct Hb as [Hl Hby]; split; [unfold bitmap_clear; by rewrite length_insert|by apply bytes_bitmap_clear]).
  set (s1 := set_imap _ s). pose proof (set_imap_data s _ Hv Hbc) as D1. fold s1 in D1.
  destruct (sync_inode_bitmap_spec s1 (dsm_volume _ _ D1)) as (s2 & -> & D2 & Hd2 & Hu2). rewrite decide_False by tauto.
  eexists. split; [reflexivity|]. split; [by apply (data_same_trans _ s1)|]. split; [intros j Hj; by rewrite Hd2|].
  intros j Hj. rewrite Hu2. apply (inode_used_set s bm); auto. intros x. apply bitmap_test_clear.
  destruct Hb as [-> _]. apply Nat.Div0.div_lt_upper_bound. lia.
Qed.

(** ** Sound volumes with one inode more or less *)

Lemma dirs_data s s' ns j m k : data_same s s' -> tree_ok s ns -> ns !! j = Some m -> (k < 7)%nat -> zone_of m k <> 0 -> disk s' !! zone_of m k = disk s !! zone_of m k.
Proof. intros D Ht Hm Hk Hz. apply (dsm_disk _ _ D). apply (tree_used s ns Ht j m (Top k) Hm); [cbn; lia|done]. Qed.

Lemma listing_same s d' m : (forall k, (k < 7)%nat -> zone_of m k <> 0 -> d' !! zone_of m k = disk s !! zone_of m k) -> listing d' m = listing (disk s) m.
Proof. intros H. apply zone_listing_ext. intros z (k & Hk & <-)%direct_zone Hz. by apply H. Qed.

Lemma listing_data s s' ns j m : data_same s s' -> tree_ok s ns -> ns !! j = Some m -> listing (disk s') m = listing (disk s) m.
Proof. intros D Ht Hm. apply listing_same. intros k. by apply (dirs_data s s' ns j). Qed.

Lemma dent_data s s' ns j m name : data_same s s' -> tree_ok s ns -> ns !! j = Some m -> dent (disk s') m name = dent (disk s) m name.
Proof. intros D Ht Hm. by rewrite !dent_listing, (listing_data s s' ns j). Qed.

Lemma bytes_data s s' ns j m : data_same s s' -> tree_ok s ns -> ns !! j = Some m -> same_bytes s s' m.
Proof. intros D Ht Hm o Ho. by apply (fbyte_same s s' ns j m m). Qed.

Lemma val_empty d n p : (forall k, zone_of n k = 0) -> val d n p = 0.
Proof. intros H. destruct p as [k|k|a|a c]; cbn [val]; rewrite !H, ?entry_0; done. Qed.

Lemma fs_added s s' ns i n : fs_ok s ns -> inum_ok s i -> inode_used s i = false -> data_same s s' ->
  (forall j, inum_ok s j -> dinode s' j = if decide (j = i) then n else dinode s j) ->
  (forall j, inum_ok s j -> inode_used s' j = if decide (j = i) then true else inode_used s j) ->
  inode_wf n -> (forall k, zone_of n k = 0) -> is_dirbit n = false -> fs_ok s' (<[i := n]> ns).
Proof.
  intros Hfs Hi Hu D Hdi Hus Hwf Hz Hnd. pose proof (fs_tree s ns Hfs) as Ht.
  assert (Hok : forall j, inum_ok s' j <-> inum_ok s j) by (intros; unfold inum_ok; by rewrite (dsm_super _ _ D)).
  assert (Hns : ns !! i = None) by (destruct (ns !! i) eqn:E; [apply (fs_table s ns Hfs) in E as (_ & ? & _); congruence|done]).
  assert (Hval : forall j m p, <[i := n]> ns !! j = Some m -> slot_ok p -> val (disk s') m p <> 0 -> j <> i /\ ns !! j = Some m /\ val (disk s') m p = val (disk s) m p).
  { intros j m p Hm Hp Hnz. destruct (decide (j = i)) as [->|Hne]; [rewrite lookup_insert_eq in Hm; injection Hm as <-; by rewrite val_empty in Hnz|].
    rewrite lookup_insert_ne in Hm by done. splits; auto. by apply (data_same_val s s' ns j). }
  constructor.
  - apply (dsm_volume _ _ D).
  - intros j m. rewrite Hok. destruct (decide (j = i)) as [->|Hne].
    + rewrite lookup_insert_eq. split; [intros [= <-]|intros (H1 & H2 & ->)]; [|by rewrite Hdi, decide_True].
      split; [done|]. split; [by rewrite Hus, decide_True|by rewrite Hdi, decide_True].
    + rewrite lookup_insert_ne by done. rewrite (fs_table s ns Hfs j m). split; intros (H1 & H2 & H3); (split; [done|]); rewrite Hus, Hdi, !decide_False in * by done; done.
  - constructor.
    + intros j m Hm. destruct (decide (j = i)) as [->|Hne]; [rewrite lookup_insert_eq in Hm; congruence|]. rewrite lookup_insert_ne in Hm by done. by apply (tree_wf s ns Ht j).
    + intros j m p Hm Hp Hnz. destruct (Hval j m p Hm Hp Hnz) as (_ & Hm' & E). rewrite E in *. unfold data_zone. rewrite (dsm_super _ _ D), (dsm_free _ _ D).
      by apply (tree_used s ns Ht j m p).
    + intros j k m m' p q Hm Hm' Hp Hq E Hnz. destruct (Hval j m p Hm Hp Hnz) as (_ & Hm1 & E1). destruct (Hval k m' q Hm' Hq) as (_ & Hm2 & E2); [congruence|].
      apply (tree_inj s ns Ht j k m m'); congruence.
  - destruct (fs_root s ns Hfs) as (r & Hr & Hd). exists r. rewrite lookup_insert_ne by congruence. done.
  - intros j m name Hm Hd. destruct (decide (j = i)) as [->|Hne]; [rewrite lookup_insert_eq in Hm; congruence|]. rewrite lookup_insert_ne in Hm by done.
    rewrite (dent_data s s' ns j) by done. intros Hnz. apply lookup_insert_is_Some'. right. by apply (fs_closed s ns Hfs j m name).
Qed.

Lemma fs_dropped s s' ns i n : fs_ok s ns -> ns !! i = Some n -> i <> 1 -> data_same s s' ->
  (forall j, inum_ok s j -> j <> i -> dinode s' j = dinode s j) ->
  (forall j, inum_ok s j -> inode_used s' j = if decide (j = i) then false else inode_used s j) ->
  (forall j m name, j <> i -> ns !! j = Some m -> is_dirbit m = true -> dent (disk s) m name <> i) -> fs_ok s' (delete i ns).
Proof.
  intros Hfs Hn Hi1 D Hdi Hus Hno. pose proof (fs_tree s ns Hfs) as Ht.
  assert (Hok : forall j, inum_ok s' j <-> inum_ok s j) by (intros; unfold inum_ok; by rewrite (dsm_super _ _ D)).
  assert (Hget : forall j m, delete i ns !! j = Some m -> j <> i /\ ns !! j = Some m) by (intros j m [? ?]%lookup_delete_Some; done).
  constructor.
  - apply (dsm_volume _ _ D).
  - intros j m. rewrite Hok. destruct (decide (j = i)) as [->|Hne].
    + rewrite lookup_delete_eq. split; [done|]. intros (H1 & H2 & _). rewrite Hus, decide_True in H2 by done. done.
    + rewrite lookup_delete_ne by done. rewrite (fs_table s ns Hfs j m). split; intros (H1 & H2 & H3); (split; [done|]); rewrite Hus, Hdi, decide_False in * by done; done.
  - assert (Ht' : tree_ok s' ns) by (apply (data_same_tree s s' ns); auto; intros j m Hm; split; [by apply (tree_wf s ns Ht j)|eauto]).
    constructor.
    + intros j m [_ Hm]%Hget. by apply (tree_wf s ns Ht j).
    + intros j m p [_ Hm]%Hget. by apply (tree_used s' ns Ht' j).
    + intros j k m m' p q [_ Hm]%Hget [_ Hm']%Hget. by apply (tree_inj s' ns Ht' j k).
  - destruct (fs_root s ns Hfs) as (r & Hr & Hd). exists r. rewrite lookup_delete_ne by congruence. done.
  - intros j m name [Hne Hm]%Hget Hd. rewrite (dent_data s s' ns j) by done. intros Hnz. destruct (fs_closed s ns Hfs j m name Hm Hd Hnz) as [t Hmt].
    exists t. rewrite lookup_delete_ne; [done|]. intros E. by apply (Hno j m name).
Qed.
