(* ===== verification/MinixCreate.v ===== *)
(** * MINIX paths and the creation of files

    [parent/name] names the entry [name] of the directory [parent].  Creating a
    file adds that one name for a new empty inode, or leaves everything as it
    was. *)

From S2P Require Import Prelude Bytes CString Perm Minix MinixFile MinixOps MinixZones MinixTree MinixContent MinixFs MinixRw MinixDir MinixInode.

(** ** Paths *)

Definition slashless (name : list Z) : Prop := Forall (fun c => c <> SLASH) name.

(** What precedes the last component of a path without empty components. *)
Definition parent_ok (parent : list Z) : Prop := parent = [] \/ exists r, parent = SLASH :: r /\ Forall (fun c => c <> []) (split_slash r).
Definition or_root (parent : list Z) : list Z := match parent with [] => [SLASH] | _ => parent end.

Lemma names_of_full l : Forall (fun c => c <> []) l -> names_of l = l.
Proof. induction 1 as [|c l Hc Hl IH]; [done|]. cbn [names_of]. by rewrite decide_False, IH. Qed.

Lemma path_names_child parent name : parent_ok parent -> slashless name -> name <> [] -> (length parent + length name < 255)%nat ->
  path_names (parent ++ SLASH :: name) = path_names (or_root parent) ++ [name].
Proof.
  intros Hp Hs Hne Hlen. unfold path_names. rewrite (take_ge (parent ++ _)) by (rewrite length_app; cbn [length]; lia).
  rewrite take_ge by (destruct parent; cbn in *; lia). destruct Hp as [->|(r & -> & Hr)].
  - cbn [app or_root unrooted]. rewrite !decide_True by done. rewrite split_slash_plain by done. cbn [names_of split_slash app]. rewrite decide_False by done. by rewrite decide_True.
  - cbn [app or_root unrooted]. rewrite !decide_True by done. rewrite split_slash_app, (split_slash_plain name) by done.
    rewrite !names_of_full; [done|done|]. apply Forall_app. split; [done|]. by constructor.
Qed.

Lemma break_last_slash_at parent name : slashless name -> break_last_slash (parent ++ SLASH :: name) = Some (parent, name).
Proof.
  intros Hs. assert (Hn : break_last_slash name = None).
  { clear parent. induction Hs as [|c l Hc Hl IH]; [done|]. cbn [break_last_slash]. rewrite IH. by rewrite decide_False. }
  induction parent as [|c parent IH]; cbn [app break_last_slash]; [rewrite Hn; by rewrite decide_True|by rewrite IH].
Qed.

Lemma split_path_spec parent name : slashless name -> (length parent < 256)%nat -> (length name <= 14)%nat ->
  minix_fs_split_path (parent ++ SLASH :: name) = Ok (0, or_root parent, name).
Proof.
  intros Hs Hl Hn. unfold minix_fs_split_path. rewrite break_last_slash_at by done. rewrite decide_False by (unfold VFS_PATH_MAX; lia).
  rewrite decide_False by (unfold MINIX_NAME_LEN; lia). rewrite take_ge by (unfold MINIX_NAME_LEN; lia). done.
Qed.

(** ** Resolution along a path *)

Lemma resolve_child get d num names name : resolve get d num (names ++ [name]) =
  match resolve get d num names with
  | inl e => inl e
  | inr p => if is_dirbit (get p) then if decide (dent d (get p) name = 0) then inl (- ENOENT) else inr (dent d (get p) name) else inl (- ENOTDIR)
  end.
Proof.
  revert num. induction names as [|x names IH]; intros num; cbn [app resolve]; [done|].
  destruct (is_dirbit (get num)); [|done]. case_decide; [done|]. apply IH.
Qed.

(** A walk that succeeds keeps succeeding when names are only added. *)
Lemma resolve_mono s ns get' d' : fs_ok s ns ->
  (forall j m, ns !! j = Some m -> is_dirbit (get' j) = is_dirbit m) ->
  (forall j m name, ns !! j = Some m -> is_dirbit m = true -> dent (disk s) m name <> 0 -> dent d' (get' j) name = dent (disk s) m name) ->
  forall names num i, is_Some (ns !! num) -> resolve (dinode s) (disk s) num names = inr i -> resolve get' d' num names = inr i.
Proof.
  intros Hfs Hd He. induction names as [|name names IH]; intros num i [n Hn]; cbn [resolve]; [done|].
  destruct (live_inode s ns Hfs num n Hn) as [_ En]. rewrite (Hd num n Hn), <- En. destruct (is_dirbit n) eqn:Ed; [|done].
  case_decide as E; [done|]. rewrite (He num n name Hn Ed E). rewrite decide_False by done. apply IH. by apply (fs_closed s ns Hfs num n name).
Qed.

(** ** New inodes *)

Lemma new_inode_file mode now current : let n := new_inode MINIX_IFREG mode 0 now 1 (replicate 9 0) current in
  inode_wf n /\ (forall k, zone_of n k = 0) /\ is_dirbit n = false.
Proof.
  intros n. split; [|split].
  - unfold inode_wf, n, new_inode, u16, u32. cbn [i_mode i_uid i_size i_time i_gid i_nlinks i_zone]. change (2 ^ 16) with 65536. change (2 ^ 32) with 4294967296.
    pose proof (u8_range (egid (ir0_current_cred current))). splits; try apply Z.mod_pos_bound; try lia; [done|]. by apply Forall_replicate.
  - intros k. unfold zone_of, n, new_inode. cbn [i_zone]. destruct (replicate 9 0 !! k) eqn:E; [|done]. by apply lookup_replicate_1 in E as [-> _].
  - unfold is_dirbit, flag_set, n, new_inode. cbn [i_mode]. unfold u16. rewrite <- Z.land_ones by lia. rewrite <- Z.land_assoc. change (Z.land (Z.ones 16) MINIX_IFDIR) with 0x4000.
    rewrite Z.land_lor_distr_l, <- Z.land_assoc. change (Z.land 511 0x4000) with 0. rewrite Z.land_0_r. done.
Qed.

Lemma write_inode_data s i n : volume s -> inum_ok s i -> inode_wf n -> exists s', minix_fs_write_inode s i n = (s', 0) /\ data_same s s' /\
  inode_bitmap s' = inode_bitmap s /\ (forall j, inum_ok s j -> dinode s' j = if decide (j = i) then n else dinode s j).
Proof.
  intros Hv Hi Hn. destruct (write_inode_spec s i n Hv Hi Hn) as (s' & E & Hsv & Hf & Hdi & Hdo & Hd). destruct (inode_block_range s i Hv Hi) as [Hr _].
  exists s'. split; [done|]. split; [|split; [apply Hsv|]].
  - constructor; [apply Hsv|apply Hsv|done|]. intros y Hy. apply Hd. unfold first_zone in Hy. lia.
  - intros j Hj. case_decide; [by subst|by apply Hdo].
Qed.

(** ** The steps of a creation *)

Lemma resolved_data s s' ns : fs_ok s ns -> data_same s s' -> (forall j m, ns !! j = Some m -> dinode s' j = m) -> forall q, resolved s' q = resolved s q.
Proof.
  intros Hfs D Hdi q. unfold resolved. apply (resolve_ext s ns); [done| | |by apply (root_live s ns)].
  - intros j m Hm. by rewrite (Hdi j m).
  - intros j m name Hm _. rewrite (Hdi j m) by done. by apply (dent_data s s' ns j); [|apply Hfs|].
Qed.

Lemma touches_cached c ns i s n s1 n1 : touches ns i s n s1 n1 -> touches ns i s n (set_cached c s1) n1.
Proof.
  intros [[Hs Hi Hv] Ht Ha Hb Hd Htab]. constructor; auto.
  - constructor; auto. destruct Hv. constructor; auto.
  - destruct Ht. constructor; auto.
Qed.

(** An edit of a directory whose inode is not stored yet. *)
Lemma fs_dir_edited s ns i n s' n' : fs_ok s ns -> ns !! i = Some n -> edit ns i s n s' n' ->
  (forall name, dent (disk s') n name <> 0 -> is_Some (ns !! dent (disk s') n name)) -> fs_ok s' ns.
Proof.
  intros Hfs Hn He Hcl. pose proof (fs_tree s ns Hfs) as Ht. pose proof (fs_vol s ns Hfs) as Hv. destruct (live_inode s ns Hfs i n Hn) as [Hi En].
  rewrite <- (insert_id ns i n Hn). apply (fs_replaced s ns s' i n n); auto; try apply (ed_vol _ _ _ _ _ _ He).
  - rewrite insert_id by done. by apply (edit_dropped_tree ns i s n s' n').
  - by rewrite (edit_dinode ns i s n s' n').
  - intros j Hj _. by apply (edit_dinode ns i s n s' n').
  - intros j m name Hm Hd. rewrite insert_id in Hm by done. destruct (decide (j = i)) as [->|Hne]; [assert (m = n) as -> by congruence; apply Hcl|].
    rewrite (dent_same s ns _ j) by (auto; intros k; by apply (edit_dirs ns i s n s' n' j)). by apply (fs_closed s ns Hfs j m name).
Qed.

(** The number of a new inode is taken, and the inode stored. *)
Lemma take_inode_spec s s1 ns i n : fs_ok s ns -> inum_ok s i -> inode_used s i = false -> data_same s s1 -> disk s1 = disk s ->
  (forall j, inum_ok s j -> inode_used s1 j = if decide (j = i) then true else inode_used s j) ->
  inode_wf n -> (forall k, zone_of n k = 0) -> is_dirbit n = false ->
  exists s2 s3, minix_sync_inode_bitmap s1 = (s2, 0) /\ minix_fs_write_inode s2 i n = (s3, 0) /\ fs_ok s3 (<[i := n]> ns) /\ data_same s s3 /\
  (forall j, inum_ok s j -> dinode s3 j = if decide (j = i) then n else dinode s j).
Proof.
  intros Hfs Hi Hu D1 Hd1 Hus Hwf Hz Hnd. pose proof (dsm_volume _ _ D1) as Hv1.
  assert (Hok1 : forall j, inum_ok s1 j <-> inum_ok s j) by (intros; unfold inum_ok; by rewrite (dsm_super _ _ D1)).
  destruct (sync_inode_bitmap_spec s1 Hv1) as (s2 & E2 & D2 & Hd2 & Hu2).
  assert (Hok2 : forall j, inum_ok s2 j <-> inum_ok s j) by (intros; unfold inum_ok; by rewrite (dsm_super _ _ D2), (dsm_super _ _ D1)).
  destruct (write_inode_data s2 i n (dsm_volume _ _ D2)) as (s3 & E3 & D3 & Him3 & Hd3); [by apply Hok2|done|].
  assert (D : data_same s s3) by (apply (data_same_trans _ s1); [done|by apply (data_same_trans _ s2)]).
  assert (Hdi : forall j, inum_ok s j -> dinode s3 j = if decide (j = i) then n else dinode s j).
  { intros j Hj. rewrite Hd3 by (by apply Hok2). case_decide; [done|]. rewrite Hd2 by (by apply Hok1). unfold dinode, inode_block. by rewrite Hd1, (dsm_super _ _ D1). }
  exists s2, s3. splits; auto. apply (fs_added s s3 ns i n); auto. intros j Hj. rewrite <- Hus by done. rewrite <- Hu2. unfold inode_used. by rewrite Him3.
Qed.

(** Giving the inode back when it could not be entered in the directory. *)
Lemma undo_touch_spec s ns i n : fs_ok s (<[i := n]> ns) -> ns !! i = None -> i <> 1 -> s_ninodes (superblock s) <> 0 ->
  (forall j m name, ns !! j = Some m -> is_dirbit m = true -> dent (disk s) m name <> i) ->
  exists s', undo_touch s i = Ok (s', - EIO) /\ fs_ok s' ns /\ data_same s s' /\ (forall j m, <[i := n]> ns !! j = Some m -> dinode s' j = m).
Proof.
  intros Hfs Hi Hi1 Hni Hno. pose proof (fs_vol _ _ Hfs) as Hv. destruct (live_inode s _ Hfs i n (lookup_insert_eq _ _ _)) as [Hok _].
  unfold undo_touch. destruct (free_inode_spec s i Hv Hok Hni) as (s1 & -> & D1 & Hd1 & Hu1). cbn [mbind outcome_bind].
  assert (Hok1 : forall j, inum_ok s1 j <-> inum_ok s j) by (intros; unfold inum_ok; by rewrite (dsm_super _ _ D1)).
  destruct (sync_inode_bitmap_spec s1 (dsm_volume _ _ D1)) as (s2 & -> & D2 & Hd2 & Hu2).
  assert (D : data_same s s2) by (by apply (data_same_trans _ s1)).
  assert (Hdi : forall j, inum_ok s j -> dinode s2 j = dinode s j) by (intros j Hj; rewrite Hd2 by (by apply Hok1); by apply Hd1).
  eexists. split; [reflexivity|]. split; [|split; [done|]].
  - rewrite <- (delete_insert_id ns i n Hi). apply (fs_dropped s s2 (<[i := n]> ns) i n); auto; [apply lookup_insert_eq| |].
    + intros j Hj. rewrite Hu2. by apply Hu1.
    + intros j m name Hne Hm. rewrite lookup_insert_ne in Hm by done. by apply (Hno j).
  - intros j m Hm. destruct (live_inode s _ Hfs j m Hm) as [Hj ->]. by apply Hdi.
Qed.

(** ** A name entered in a directory *)

(** Names were only added: walks that succeeded still do. *)
Definition extends (s s' : minix_state) : Prop := forall q j, resolved s q = inr j -> resolved s' q = inr j.

Section enter.
Context (s : minix_state) (ns : gmap Z minix_inode_t) (p : Z) (pn : minix_inode_t) (name : list Z) (inum : Z).
Context (Hfs : fs_ok s ns) (Hpn : ns !! p = Some pn) (Hdir : is_dirbit pn = true).
Context (Hnew : name ∉ (listing (disk s) pn).*1) (Hin : is_Some (ns !! inum)) (Hnz : inum <> 0).

Lemma entered_dent l' x : l' = listing (disk s) pn \/ inserted (name, inum) (listing (disk s) pn) l' ->
  (dent (disk s) pn x <> 0 -> first_named l' x = dent (disk s) pn x) /\ (first_named l' x <> 0 -> is_Some (ns !! first_named l' x)).
Proof.
  rewrite dent_listing. intros [->|Hi].
  - split; [done|]. rewrite <- dent_listing. by apply (fs_closed s ns Hfs p).
  - rewrite (first_named_inserted name inum _ l' x Hi Hnew). case_decide as E.
    + subst x. split; [|done]. by rewrite first_named_None.
    + split; [done|]. rewrite <- dent_listing. by apply (fs_closed s ns Hfs p).
Qed.

Lemma edit_extends s1 n1 : edit ns p s pn s1 n1 ->
  (listing (disk s1) pn = listing (disk s) pn \/ inserted (name, inum) (listing (disk s) pn) (listing (disk s1) pn)) -> fs_ok s1 ns /\ extends s s1.
Proof.
  intros He Hl. assert (Hd : forall x, (dent (disk s) pn x <> 0 -> dent (disk s1) pn x = dent (disk s) pn x) /\ (dent (disk s1) pn x <> 0 -> is_Some (ns !! dent (disk s1) pn x)))
    by (intros x; rewrite (dent_listing (disk s1)); by apply entered_dent).
  split; [apply (fs_dir_edited s ns p pn s1 n1); auto; apply Hd|]. intros q j. unfold resolved. apply (resolve_mono s ns); [done| | |by apply (root_live s ns)].
  - intros k m Hm. destruct (live_inode s ns Hfs k m Hm) as [Hk ->]. rewrite (edit_dinode ns p s pn s1 n1) by (done || apply Hfs). done.
  - intros k m x Hm Hdm. destruct (live_inode s ns Hfs k m Hm) as [Hk Em]. rewrite (edit_dinode ns p s pn s1 n1) by (done || apply Hfs). rewrite <- Em.
    destruct (decide (k = p)) as [->|Hne]; [assert (m = pn) as -> by congruence; apply Hd|]. intros _.
    apply (dent_same s ns _ k); [apply Hfs|done|]. intros z. apply (edit_dirs ns p s pn s1 n1 k m z (fs_tree s ns Hfs)); auto.
Qed.

(** The directory's inode is stored with the new entry behind it. *)
Lemma enter_store s1 n1 n2 c : edit ns p s pn s1 n1 -> inserted (name, inum) (listing (disk s) pn) (listing (disk s1) n1) ->
  inode_wf n2 -> i_zone n2 = i_zone n1 -> i_mode n2 = i_mode n1 ->
  exists s2 s3, minix_fs_write_inode (set_cached c s1) p n2 = (s2, 0) /\ minix_sync_zone_bitmap s2 = (s3, 0) /\
  forall t, t = s2 \/ t = s3 -> fs_ok t (<[p := n2]> ns) /\ extends s t /\ superblock t = superblock s /\ (forall j, inum_ok s j -> j <> p -> dinode t j = dinode s j) /\
  inserted (name, inum) (listing (disk s) pn) (listing (disk t) n2) /\
  (forall j m, j <> p -> ns !! j = Some m -> listing (disk t) m = listing (disk s) m /\ same_bytes s t m) /\
  (forall parent path, path_names path = path_names parent ++ [name] -> resolved s parent = inr p -> resolved t path = inr inum).
Proof.
  intros He Hl Hwf Hz Hm. pose proof (touches_cached c _ _ _ _ _ _ (edit_touches s ns p pn s1 n1 Hfs Hpn He)) as Hto.
  destruct (fs_store s ns p pn (set_cached c s1) n1 n2 Hfs Hpn Hto Hwf Hz Hm) as (s2 & s3 & E1 & E2 & Hst).
  { intros _ x. rewrite dent_listing. apply entered_dent. by right. }
  exists s2, s3. split; [done|]. split; [done|]. intros t Ht. destruct (Hst t Ht) as (Hfs2 & D & Hsup & _ & Hdi & Hdo & Hdirs & Hoth & _).
  assert (Hlt : listing (disk t) n2 = listing (disk s1) n1).
  { unfold listing at 1. rewrite Hz. apply zone_listing_ext. intros z (k & Hk & <-)%direct_zone Hzk. apply (dsm_disk _ _ D).
    pose proof (to_tree _ _ _ _ _ _ Hto) as Ht1. apply (tree_used (set_cached c s1) _ Ht1 p n1 (Top k) (lookup_insert_eq _ _ _)); [cbn; lia|done]. }
  assert (Hext : extends s t).
  { intros q j. unfold resolved. apply (resolve_mono s ns); [done| | |by apply (root_live s ns)].
    - intros k m Hkm. destruct (decide (k = p)) as [->|Hne]; [|destruct (live_inode s ns Hfs k m Hkm) as [Hk ->]; by rewrite Hdo].
      rewrite Hdi. assert (m = pn) as -> by congruence. apply dirbit_mode. rewrite Hm. apply (to_mode _ _ _ _ _ _ Hto).
    - intros k m x Hkm Hdm. destruct (decide (k = p)) as [->|Hne].
      + rewrite Hdi. assert (m = pn) as -> by congruence. rewrite (dent_listing (disk t)), Hlt. apply entered_dent. by right.
      + destruct (live_inode s ns Hfs k m Hkm) as [Hk Em]. rewrite Hdo by done. rewrite <- Em. intros _. apply (dent_same s ns _ k); [apply Hfs|done|]. intros z. by apply (Hdirs k). }
  splits; auto.
  - by rewrite Hlt.
  - intros j m Hne Hjm. split; [|by apply (Hoth j)]. apply listing_same. intros k. by apply (Hdirs j).
  - intros parent path Hpath Hres. unfold resolved. rewrite Hpath, resolve_child. fold (resolved t parent). rewrite (Hext parent p Hres). rewrite Hdi.
    assert (is_dirbit n2 = true) as ->. { rewrite (dirbit_mode pn n2); [done|]. rewrite Hm. apply (to_mode _ _ _ _ _ _ Hto). }
    rewrite dent_listing, Hlt. rewrite (first_named_inserted name inum _ _ name Hl Hnew). rewrite (decide_True (P := name = name)) by done. by rewrite decide_False.
Qed.
End enter.

(** ** Creating a file *)

Lemma resized_time_wf n n' t : inode_wf n -> resized n n' -> inode_wf (set_time t n').
Proof.
  intros Hn Hr. destruct (resized_wf n n' Hn Hr) as (H1 & H2 & H3 & H4 & H5 & H6 & H7 & H8). unfold inode_wf. cbn. unfold u32. change (2 ^ 32) with 4294967296.
  pose proof (Z.mod_pos_bound t 4294967296). splits; try lia; done.
Qed.

Lemma edit_wf ns i s n s' n' : edit ns i s n s' n' -> inode_wf n'.
Proof. intros He. apply (tree_wf s' _ (ed_tree _ _ _ _ _ _ He) i n' (lookup_insert_eq _ _ _)). Qed.

(** A name that is not in its directory gets there. *)
Lemma touch_reaches s ns parent name p pn mode now now' current :
  fs_ok s ns -> parent_ok parent -> name_ok name -> slashless name -> (length parent + length name < 255)%nat ->
  resolved s (or_root parent) = inr p -> ns !! p = Some pn -> is_dirbit pn = true -> name ∉ (listing (disk s) pn).*1 ->
  minix_fs_touch s (Some (parent ++ SLASH :: name)) mode now now' current = touch_new (set_cached pn s) (or_root parent) name pn mode now now' current.
Proof.
  set (path := parent ++ SLASH :: name). intros Hfs Hpar Hname Hsl Hlen Hres Hpn Hdir Hnew. pose proof (fs_vol s ns Hfs) as Hv.
  assert (Hpath : path_names path = path_names (or_root parent) ++ [name]) by (apply path_names_child; auto; apply Hname).
  destruct (resolved_live s ns _ p Hfs Hres) as [Hpd Hpok]. rewrite Hpn in Hpd. injection Hpd as Epn.
  assert (Hnone : dent (disk s) pn name = 0) by (by rewrite dent_listing, first_named_None).
  assert (Hmiss : exists e, resolved s path = inl e).
  { unfold resolved. rewrite Hpath, resolve_child. fold (resolved s (or_root parent)). rewrite Hres, <- Epn, Hdir, Hnone. rewrite decide_True by done. eauto. }
  destruct Hmiss as [e0 Hmiss]. unfold minix_fs_touch. rewrite (vol_init s Hv). cbn [negb].
  assert (Hcons : exists c rest, path = c :: rest) by (unfold path; destruct parent; cbn; eauto). destruct Hcons as (c & rest & Ec). rewrite Ec. rewrite <- Ec.
  rewrite decide_False by (unfold path; destruct parent as [|? [|? ?]]; [|done..]; cbn; destruct Hname as [? _]; congruence).
  rewrite (proj2 (vol_quiet s Hv)). cbn [negb]. rewrite (minix_find_inode_spec s ns) by done. rewrite Hmiss. cbn [mbind outcome_bind].
  unfold path at 1. rewrite split_path_spec by (auto; try lia; apply Hname). cbn [mbind outcome_bind]. rewrite (decide_False (P := 0 <> 0)) by tauto.
  rewrite (minix_find_inode_spec s ns) by done. rewrite Hres. cbn [mbind outcome_bind negb]. pose proof (fs_cached s ns (dinode s p) Hfs) as Hfs0.
  set (s0 := set_cached (dinode s p) s) in *. change (cached_result_inode s0) with (dinode s p). rewrite <- Epn, Hdir. cbn [negb].
  rewrite decide_False by (unfold MINIX_NAME_LEN; destruct Hname as (_ & ? & _); lia).
  rewrite (find_dir_entry_spec s0 ns Hfs0 p pn name Hpn), Hdir. change (disk s0) with (disk s). rewrite Hnone. rewrite (decide_False (P := 0 <> 0)) by tauto.
  subst s0. by rewrite <- Epn.
Qed.

(** C34: Creating a file in a directory of a sound volume takes an unused inode,
    stores it empty with the caller's identity, and adds exactly that one name
    to the directory; every path that resolved still does, to the same inode.
    When there is no inode or no room in the directory the call fails and every
    path resolves as before. *)
Theorem minix_create_correct s ns parent name p pn mode now now' current : let path := parent ++ SLASH :: name in
  fs_ok s ns -> s_ninodes (superblock s) <> 0 -> parent_ok parent -> name_ok name -> slashless name -> (length parent + length name < 255)%nat ->
  resolved s (or_root parent) = inr p -> ns !! p = Some pn -> is_dirbit pn = true -> name ∉ (listing (disk s) pn).*1 ->
  exists s' e, minix_fs_touch s (Some path) mode now now' current = Ok (s', e) /\
  (((e = - ENOSPC \/ e = - EIO) /\ fs_ok s' ns /\ (forall q, resolved s' q = resolved s q) /\ (forall j m, ns !! j = Some m -> same_bytes s s' m)) \/
   (e = 0 /\ exists i pn', ns !! i = None /\ fs_ok s' (<[p := pn']> (<[i := new_inode MINIX_IFREG mode 0 now 1 (replicate 9 0) current]> ns)) /\
    resolved s' path = inr i /\ extends s s' /\ inserted (name, i) (listing (disk s) pn) (listing (disk s') pn') /\
    (forall j m, j <> p -> ns !! j = Some m -> listing (disk s') m = listing (disk s) m /\ same_bytes s s' m))).
Proof.
  intros path Hfs Hni Hpar Hname Hsl Hlen Hres Hpn Hdir Hnew. pose proof (fs_vol s ns Hfs) as Hv.
  destruct (resolved_live s ns _ p Hfs Hres) as [Hpd Hpok]. rewrite Hpn in Hpd. injection Hpd as Epn.
  unfold path at 1. rewrite (touch_reaches s ns parent name p pn) by done. unfold touch_new.
  pose proof (fs_cached s ns pn Hfs) as Hfs0. set (s0 := set_cached pn s) in *.
  destruct (minix_alloc_inode_spec s0 (fs_vol s0 ns Hfs0)) as (s1 & i & -> & [(-> & -> & _)|(Hi & Hu & D1 & Hd1 & Hus)]); cbn [mbind outcome_bind].
  { rewrite decide_True by done. do 2 eexists. split; [reflexivity|left]. split; [auto|]. done. }
  assert (Hi1 : ns !! i = None) by (destruct (ns !! i) eqn:E; [apply (fs_table s0 ns Hfs0) in E as (_ & ? & _); congruence|done]).
  assert (Hipos : i <> 0 /\ i <> 1 /\ i <> p /\ 0 < i < 65535).
  { pose proof (root_live s ns Hfs) as [r Hr]. pose proof (inode_limit_bound s (vol_geo s Hv)). unfold inum_ok in Hi. change (superblock s0) with (superblock s) in Hi. splits; try congruence; lia. }
  rewrite decide_False by tauto. destruct (new_inode_file mode now current) as (Hwf & Hz0 & Hnd). set (n := new_inode _ _ _ _ _ _ _) in *.
  destruct (take_inode_spec s0 s1 ns i n Hfs0 Hi Hu D1 Hd1 Hus Hwf Hz0 Hnd) as (s2 & s3 & -> & E3 & Hfs3 & D3 & Hdi3). rewrite decide_False by tauto. rewrite E3. rewrite decide_False by tauto.
  assert (Hpn3 : <[i := n]> ns !! p = Some pn) by (rewrite lookup_insert_ne; [done|tauto]). pose proof (fs_tree s ns Hfs) as Ht.
  assert (Hl3 : forall j m, ns !! j = Some m -> listing (disk s3) m = listing (disk s) m) by (intros j m; by apply (listing_data s0 s3 ns j m D3 (fs_tree s0 ns Hfs0))).
  assert (Hb3 : forall j m, ns !! j = Some m -> same_bytes s s3 m) by (intros j m; by apply (bytes_data s0 s3 ns j m D3 (fs_tree s0 ns Hfs0))).
  assert (Hres3 : forall q, resolved s3 q = resolved s q).
  { apply (resolved_data s0 s3 ns Hfs0 D3). intros j m Hm. destruct (live_inode s0 ns Hfs0 j m Hm) as [Hj Em]. rewrite Hdi3 by done. rewrite decide_False; [done|congruence]. }
  assert (Hnew3 : name ∉ (listing (disk s3) pn).*1) by (by rewrite (Hl3 p)).
  destruct (add_dir_entry_spec name i Hname ltac:(tauto) s3 _ p pn (fs_vol _ _ Hfs3) (fs_tree _ _ Hfs3) Hpn3 Hnew3) as (s4 & n' & e & -> & [(-> & -> & ->)|(-> & n1 & He & Hr & Hins & Hold)]); cbn [mbind outcome_bind].
  - rewrite decide_True by done. destruct (undo_touch_spec s3 ns i n) as (s5 & -> & Hfs5 & D5 & Hdi5); auto; try tauto.
    + rewrite (dsm_super _ _ D3). done.
    + intros j m x Hm Hdm E. rewrite dent_listing, (Hl3 j m Hm), <- dent_listing in E. destruct (fs_closed s ns Hfs j m x Hm Hdm) as [? ?]; [rewrite E; tauto|]. congruence.
    + do 2 eexists. split; [reflexivity|left]. split; [auto|]. split; [done|]. split.
      * intros q. rewrite <- Hres3. by apply (resolved_data s3 s5 _ Hfs3 D5).
      * intros j m Hm o Ho. rewrite <- (Hb3 j m Hm o Ho). apply (bytes_data s3 s5 _ j m D5 (fs_tree _ _ Hfs3)); [|done]. rewrite lookup_insert_ne; [done|congruence].
  - rewrite decide_False by tauto. assert (Hin3 : is_Some (<[i := n]> ns !! i)) by (rewrite lookup_insert_eq; eauto).
    destruct (edit_extends s3 _ p pn name i Hfs3 Hpn3 Hdir Hnew3 Hin3 s4 n1 He Hold) as [Hfs4 Hext4].
    assert (Hres4 : resolved s4 (or_root parent) = inr p) by (apply Hext4; by rewrite Hres3).
    rewrite (get_inode_number_spec s4 _ _ Hfs4), Hres4. cbn [mbind outcome_bind]. rewrite decide_False by (unfold inum_ok in Hpok; lia).
    destruct (resized_zones n1 n' Hr) as (Hz' & Hm' & _). pose proof (edit_wf _ _ _ _ _ _ He) as Hwf1.
    destruct (enter_store s3 _ p pn name i Hfs3 Hpn3 Hdir Hnew3 Hin3 ltac:(tauto) s4 n1 (set_time now' n') (dinode s4 p) He Hins) as (s5 & s6 & -> & _ & Hst);
      [by apply (resized_time_wf n1)|done|done|]. destruct (Hst s5 ltac:(auto)) as (Hfs5 & Hext5 & _ & _ & Hins5 & Hoth5 & Hch5).
    do 2 eexists. split; [reflexivity|right]. split; [done|]. exists i, (set_time now' n'). split; [done|]. split; [done|]. split; [|split; [|split]].
    + apply (Hch5 (or_root parent)); [apply path_names_child; auto; apply Hname|by rewrite Hres3].
    + intros q j Hq. apply Hext5. by rewrite Hres3.
    + by rewrite <- (Hl3 p pn Hpn).
    + intros j m Hne Hm. destruct (Hoth5 j m Hne) as [Hlj Hbj]; [rewrite lookup_insert_ne; [done|congruence]|]. split; [by rewrite Hlj, (Hl3 j)|].
      intros o Ho. by rewrite Hbj, (Hb3 j).
Qed.
