(* ===== verification/MinixRemove.v ===== *)
(** * MINIX: removing a name

    Removing a file takes its name out of the directory; with its last name the
    inode and the zones behind it become free.  Walks that do not end at the
    file still end where they did. *)

From S2P Require Import Prelude Bytes CString Perm Minix MinixFile MinixOps MinixZones MinixTree MinixContent MinixFs MinixRw MinixTrunc MinixDir MinixInode MinixCreate.

(** A walk that ends elsewhere does not pass a file. *)
Lemma resolve_avoid s ns get' d' i n : fs_ok s ns -> ns !! i = Some n -> is_dirbit n = false ->
  (forall j m, j <> i -> ns !! j = Some m -> is_dirbit (get' j) = is_dirbit m) ->
  (forall j m name, j <> i -> ns !! j = Some m -> is_dirbit m = true -> dent (disk s) m name <> 0 -> dent (disk s) m name <> i -> dent d' (get' j) name = dent (disk s) m name) ->
  forall names num j, is_Some (ns !! num) -> num <> i -> resolve (dinode s) (disk s) num names = inr j -> j <> i -> resolve get' d' num names = inr j.
Proof.
  intros Hfs Hn Hnd Hd He. induction names as [|name names IH]; intros num j [m Hm] Hne; cbn [resolve]; [done|].
  destruct (live_inode s ns Hfs num m Hm) as [_ Em]. rewrite (Hd num m Hne Hm), <- Em. destruct (is_dirbit m) eqn:Ed; [|done].
  destruct (decide (dent (disk s) m name = 0)) as [E|E]; [done|]. destruct (decide (dent (disk s) m name = i)) as [Ei|Ei].
  - rewrite Ei. destruct names as [|x names]; cbn [resolve]; [by intros [= <-]|]. destruct (live_inode s ns Hfs i n Hn) as [_ <-]. by rewrite Hnd.
  - rewrite (He num m name Hne Hm Ed E Ei). rewrite decide_False by done. apply IH; [|done]. by apply (fs_closed s ns Hfs num m name).
Qed.

Lemma first_named_removed l1 name i l2 x : NoDup (l1 ++ (name, i) :: l2).*1 ->
  first_named (l1 ++ l2) x = if decide (x = name) then 0 else first_named (l1 ++ (name, i) :: l2) x.
Proof.
  intros Hnd. rewrite fmap_app in Hnd. cbn [fmap list_fmap fst] in Hnd. apply NoDup_app in Hnd as (_ & Hx & Hnd2). apply NoDup_cons in Hnd2 as [Hn2 _].
  rewrite !first_named_app. cbn [first_named]. destruct (decide (x = name)) as [->|Hne].
  - rewrite decide_False by (intros H; apply (Hx name H); left). by apply first_named_None.
  - by rewrite (decide_False (P := name = x)) by congruence.
Qed.

Lemma first_named_nodup l1 name i l2 : NoDup (l1 ++ (name, i) :: l2).*1 -> first_named (l1 ++ (name, i) :: l2) name = i.
Proof.
  intros Hnd. rewrite fmap_app in Hnd. cbn [fmap list_fmap fst] in Hnd. apply NoDup_app in Hnd as (_ & Hx & _). rewrite first_named_app. cbn [first_named].
  rewrite decide_False by (intros H; apply (Hx name H); left). by rewrite decide_True.
Qed.

(** ** An inode with no name left *)

Lemma refl_touches s ns i n : fs_ok s ns -> ns !! i = Some n -> touches ns i s n s n.
Proof. intros Hfs Hn. apply edit_touches; auto. by apply edit_refl; [apply Hfs..|]. Qed.

Lemma nlinks_wf z n : inode_wf n -> inode_wf (set_nlinks z n).
Proof.
  intros (H1 & H2 & H3 & H4 & H5 & H6 & H7 & H8). pose proof (u8_range z). unfold inode_wf. cbn. splits; try lia; done.
Qed.

Lemma size_wf z n : inode_wf n -> inode_wf (set_size z n).
Proof. intros H. apply (resized_wf n); [done|right; eauto]. Qed.

(** The zones are released, the inode emptied and its number given back. *)
Lemma release_file_spec s ns i n k : fs_ok s ns -> ns !! i = Some n -> is_dirbit n = false -> i <> 1 -> i_size n <= MAX_OFFSET -> s_ninodes (superblock s) <> 0 ->
  (forall j m name, ns !! j = Some m -> is_dirbit m = true -> dent (disk s) m name <> i) ->
  let n0 := set_nlinks k n in
  exists s1 n1 s2 s3, minix_inode_truncate_zones s n0 i (i_size n0) 0 = Ok (s1, n1) /\ minix_fs_write_inode s1 i (set_size 0 n1) = (s2, 0) /\
  minix_fs_free_inode s2 i = Ok (s3, 0) /\ fs_ok s3 (delete i ns) /\ superblock s3 = superblock s /\
  (forall j, inum_ok s j -> j <> i -> dinode s3 j = dinode s j) /\
  (forall j m, j <> i -> ns !! j = Some m -> listing (disk s3) m = listing (disk s) m /\ same_bytes s s3 m) /\
  (forall o, 0 <= o < i_size n -> fzone (disk s) n (o / 1024) <> 0 -> zfree s3 (fzone (disk s) n (o / 1024)) = true).
Proof.
  intros Hfs Hn Hnd Hi1 Hsz Hni Hno n0. pose proof (fs_vol s ns Hfs) as Hv. pose proof (fs_tree s ns Hfs) as Ht. destruct (live_inode s ns Hfs i n Hn) as [Hi En].
  pose proof (tree_wf s ns Ht i n Hn) as Hwf. assert (0 <= i_size n < 4294967296) as Hsn by apply Hwf. pose proof (nlinks_wf k n Hwf) as Hwf0. fold n0 in Hwf0.
  assert (Ht0 : tree_ok s (<[i := n0]> ns)).
  { apply (data_same_tree s s ns); [by constructor|done|]. intros j m Hm. destruct (decide (j = i)) as [->|Hne].
    - rewrite lookup_insert_eq in Hm. injection Hm as <-. eauto.
    - rewrite lookup_insert_ne in Hm by done. split; [by apply (tree_wf s ns Ht j)|eauto]. }
  assert (Hcnt : 0 <= minix_file_zone_count (i_size n) <= MAX_ZONE_IDX).
  { change MAX_OFFSET with 268966912 in Hsz. change MAX_ZONE_IDX with 262663. unfold minix_file_zone_count, MINIX_BLOCK_SIZE. case_decide; [lia|]. Z.to_euclidean_division_equations. lia. }
  assert (Htr : exists s1 n1, minix_inode_truncate_zones s n0 i (i_size n0) 0 = Ok (s1, n1) /\ touches ns i s n s1 n1 /\
    forall o, 0 <= o < i_size n -> fzone (disk s) n (o / 1024) <> 0 -> zfree s1 (fzone (disk s) n (o / 1024)) = true).
  { unfold minix_inode_truncate_zones. change (i_size n0) with (i_size n). change (minix_file_zone_count 0) with 0. rewrite Z.sub_0_r. case_decide as E.
    - exists s, n0. split; [done|]. split; [|lia]. apply (touches_over ns i s n n0); [done|]. constructor; try done. rewrite insert_insert_eq. done.
    - destruct (truncate_loop_spec (Z.to_nat (minix_file_zone_count (i_size n))) _ i s n0 0 Hv Ht0 (lookup_insert_eq _ _ _) Hi ltac:(lia) ltac:(lia)) as (s1 & n1 & -> & Hp & Hz).
      exists s1, n1. split; [done|]. split.
      + apply (touches_over ns i s n n0); [done|]. by apply (prune_touches s _ true _ i n0 s1 n1 Hv Ht0 (lookup_insert_eq _ _ _) Hi Hp).
      + intros o Ho Hnz. assert (Hoi : 0 <= o / 1024 < minix_file_zone_count (i_size n)).
        { split; [apply Z.div_pos; lia|]. apply zone_count_spec; [lia|lia|]. Z.to_euclidean_division_equations. lia. }
        destruct (dslot_ok (o / 1024) ltac:(lia)) as [Hok _]. apply (pr_free _ _ _ _ _ _ _ _ Hp). right. exists (dslot (o / 1024)).
        split; [done|]. split; [by apply val_zones|]. split; [done|]. apply Hz. lia. }
  destruct Htr as (s1 & n1 & -> & Hto & Hfr). exists s1, n1. pose proof (to_tree _ _ _ _ _ _ Hto) as Ht1.
  destruct (fs_store s ns i n s1 n1 (set_size 0 n1) Hfs Hn Hto) as (s2 & s2' & -> & _ & Hst); [|done|done|congruence|].
  { apply size_wf. by apply (tree_wf s1 _ Ht1 i n1 (lookup_insert_eq _ _ _)). }
  destruct (Hst s2 ltac:(auto)) as (Hfs2 & D & Hsup2 & _ & Hdi2 & Hdo2 & Hdirs2 & Hoth2 & _). set (n2 := set_size 0 n1) in *.
  assert (Hok2 : forall j, inum_ok s2 j <-> inum_ok s j) by (intros; unfold inum_ok; by rewrite Hsup2).
  destruct (free_inode_spec s2 i (fs_vol _ _ Hfs2)) as (s3 & E3 & D3 & Hd3 & Hu3); [by apply Hok2|by rewrite Hsup2|].
  exists s2, s3. split; [done|]. split; [done|]. split; [done|].
  assert (Hj2 : forall j m, j <> i -> ns !! j = Some m -> <[i := n2]> ns !! j = Some m) by (intros; by rewrite lookup_insert_ne).
  assert (Hl2 : forall j m, j <> i -> ns !! j = Some m -> listing (disk s2) m = listing (disk s) m) by (intros j m Hne Hm; apply listing_same; intros x; by apply (Hdirs2 j)).
  split; [|splits].
  - rewrite <- (delete_insert_eq ns i n2). apply (fs_dropped s2 s3 (<[i := n2]> ns) i n2); auto; [apply lookup_insert_eq|].
    intros j m name Hne Hm Hd. rewrite lookup_insert_ne in Hm by done. rewrite dent_listing, (Hl2 j m) by done. rewrite <- dent_listing. by apply (Hno j).
  - rewrite (dsm_super _ _ D3). done.
  - intros j Hj Hne. rewrite Hd3 by (by apply Hok2). by apply Hdo2.
  - intros j m Hne Hm. split; [rewrite (listing_data s2 s3 _ j m D3 (fs_tree _ _ Hfs2)) by auto; by apply (Hl2 j)|].
    intros o Ho. rewrite (bytes_data s2 s3 _ j m D3 (fs_tree _ _ Hfs2)) by auto. by apply (Hoth2 j).
  - intros o Ho Hnz. rewrite (dsm_free _ _ D3), (dsm_free _ _ D). by apply Hfr.
Qed.

(** ** Removing a name *)

(** No directory but [p] names inode [i], and that one only as [name]. *)
Definition only_name (s : minix_state) (ns : gmap Z minix_inode_t) (i p : Z) (name : list Z) : Prop :=
  forall j m x, ns !! j = Some m -> is_dirbit m = true -> (x, i) ∈ listing (disk s) m -> j = p /\ x = name.

Section rm.
Context (s : minix_state) (ns : gmap Z minix_inode_t) (p i : Z) (pn n : minix_inode_t) (name : list Z) (l1 l2 : list (list Z * Z)).
Context (Hfs : fs_ok s ns) (Hpn : ns !! p = Some pn) (Hdir : is_dirbit pn = true) (Hn : ns !! i = Some n) (Hnd : is_dirbit n = false).
Context (Hl : listing (disk s) pn = l1 ++ (name, i) :: l2) (Hdup : NoDup (listing (disk s) pn).*1).

Lemma removed_dent d m x : listing d m = l1 ++ l2 -> dent d m x = if decide (x = name) then 0 else dent (disk s) pn x.
Proof. intros E. rewrite !dent_listing, E. rewrite Hl in *. by apply (first_named_removed l1 name i). Qed.

Lemma removed_dent_name : dent (disk s) pn name = i.
Proof. rewrite dent_listing, Hl. rewrite Hl in Hdup. by apply first_named_nodup. Qed.

(** Everything but the name is as it was. *)
Lemma removed_resolved t : (forall j m, j <> i -> ns !! j = Some m -> is_dirbit (dinode t j) = is_dirbit m /\
  listing (disk t) (dinode t j) = if decide (j = p) then l1 ++ l2 else listing (disk s) m) -> forall q j, resolved s q = inr j -> j <> i -> resolved t q = inr j.
Proof.
  intros Ht q j. unfold resolved. apply (resolve_avoid s ns _ _ i n); auto.
  - intros k m Hne Hm. by apply Ht.
  - intros k m x Hne Hm Hd Hnz Hnei. destruct (Ht k m Hne Hm) as [_ Hlt]. destruct (decide (k = p)) as [->|Hkp].
    + assert (m = pn) as -> by congruence. rewrite (removed_dent _ _ x Hlt). rewrite decide_False; [done|]. intros ->. by rewrite removed_dent_name in Hnei.
    + by rewrite !dent_listing, Hlt.
  - by apply (root_live s ns).
  - destruct (fs_root s ns Hfs) as (r & Hr & Hd). congruence.
Qed.

Lemma removed_edit s1 : edit ns p s pn s1 pn -> listing (disk s1) pn = l1 ++ l2 -> fs_ok s1 ns /\
  (forall j m, ns !! j = Some m -> dinode s1 j = m) /\ (forall j m, j <> p -> ns !! j = Some m -> listing (disk s1) m = listing (disk s) m /\ same_bytes s s1 m) /\
  (only_name s ns i p name -> i <> 0 -> forall j m x, ns !! j = Some m -> is_dirbit m = true -> dent (disk s1) m x <> i).
Proof.
  intros He E. pose proof (fs_tree s ns Hfs) as Ht. assert (Hoth : forall j m, j <> p -> ns !! j = Some m -> listing (disk s1) m = listing (disk s) m).
  { intros j m Hne Hm. apply listing_same. intros k. by apply (edit_dirs ns p s pn s1 pn j). }
  splits; auto.
  - apply (fs_dir_edited s ns p pn s1 pn); auto. intros x. rewrite (removed_dent _ _ x E). case_decide; [done|]. by apply (fs_closed s ns Hfs p).
  - intros j m Hm. destruct (live_inode s ns Hfs j m Hm) as [Hj ->]. by apply (edit_dinode ns p s pn s1 pn); [apply Hfs|..].
  - intros j m Hne Hm. split; [by apply (Hoth j)|]. by apply (edit_others ns p s pn s1 pn j m).
  - intros Hon Hi0 j m x Hm Hd. destruct (decide (j = p)) as [->|Hne].
    + assert (m = pn) as -> by congruence. rewrite (removed_dent _ _ x E). case_decide as Ex; [congruence|]. intros Ei. apply Ex.
      apply (Hon p pn x Hm Hd). rewrite <- Ei. rewrite dent_listing in *. apply first_named_elem. destruct (decide (x ∈ (listing (disk s) pn).*1)); [done|].
      rewrite first_named_None in Ei by done. congruence.
    + intros Ei. rewrite dent_listing, (Hoth j m Hne Hm) in Ei. apply Hne, (Hon j m x Hm Hd). rewrite <- Ei. apply first_named_elem.
      destruct (decide (x ∈ (listing (disk s) m).*1)); [done|]. rewrite first_named_None in Ei by done. congruence.
Qed.
End rm.

Lemma nlinks_zero n : i_nlinks n = 0 -> n = set_nlinks 0 n.
Proof. destruct n as [m u sz t g l zs]. cbn. by intros ->. Qed.

Lemma split_unique (k1 l1 k2 l2 : list (list Z * Z)) name x i : name ∉ k1.*1 -> name ∉ l1.*1 -> k1 ++ (name, x) :: k2 = l1 ++ (name, i) :: l2 -> k1 ++ k2 = l1 ++ l2.
Proof.
  revert l1. induction k1 as [|[a b] k1 IH]; intros [|[a' b'] l1]; cbn [app fmap list_fmap fst].
  - by intros _ _ [= _ ->].
  - intros _ H [= -> _ _]. set_solver.
  - intros H _ [= -> _ _]. set_solver.
  - intros Hk Hl [= -> -> E]. f_equal. apply IH; set_solver.
Qed.

Lemma listing_restored s s' ns p pn pn' : data_same s s' -> tree_ok s ns -> ns !! p = Some pn -> i_zone pn' = i_zone pn -> listing (disk s') pn' = listing (disk s) pn.
Proof. intros D Ht Hpn Hz. rewrite <- (listing_data s s' ns p pn) by done. unfold listing. by rewrite Hz. Qed.

(** The end of the removal: the directory's inode is stored. *)
Lemma rm_tail s ns parent p pn pn' : fs_ok s ns -> resolved s parent = inr p -> ns !! p = Some pn -> is_dirbit pn = true -> resized pn pn' ->
  exists s', ('(s, parent_inode_num) ← minix_fs_get_inode_number s parent;
              if decide (parent_inode_num = 0) then Ok (s, 0) else
              let '(s, r) := minix_fs_write_inode s parent_inode_num pn' in
              Ok (s, if decide (r <> 0) then - EIO else 0)) = Ok (s', 0) /\
  fs_ok s' (<[p := pn']> ns) /\ dinode s' p = pn' /\ (forall j, inum_ok s j -> j <> p -> dinode s' j = dinode s j) /\
  listing (disk s') pn' = listing (disk s) pn /\ (forall j m, j <> p -> ns !! j = Some m -> listing (disk s') m = listing (disk s) m /\ same_bytes s s' m) /\
  (forall y, zfree s' y = zfree s y).
Proof.
  intros Hfs Hres Hpn Hdir Hr. destruct (resized_zones pn pn' Hr) as (Hz & Hm & _). pose proof (tree_wf s ns (fs_tree s ns Hfs) p pn Hpn) as Hwf.
  rewrite (get_inode_number_spec s ns) by done. rewrite Hres. cbn [mbind outcome_bind]. destruct (live_inode s ns Hfs p pn Hpn) as [Hp _].
  rewrite decide_False by (unfold inum_ok in Hp; lia). set (c := dinode s p).
  destruct (fs_store s ns p pn (set_cached c s) pn pn' Hfs Hpn (touches_cached c _ _ _ _ _ _ (refl_touches s ns p pn Hfs Hpn))) as (s' & s'' & -> & _ & Hst); auto.
  { by apply (resized_wf pn). } { intros _ x. by apply (fs_closed s ns Hfs p pn). }
  destruct (Hst s' ltac:(auto)) as (Hfs' & D & _ & _ & Hdi & Hdo & Hdirs & Hoth & _). rewrite decide_False by tauto. exists s'. split; [done|].
  splits; auto; [| |apply (dsm_free _ _ D)].
  - apply (listing_restored (set_cached c s) s' ns p); auto. by apply (fs_cached s ns c Hfs).
  - intros j m Hne Hjm. split; [|by apply (Hoth j)]. apply listing_same. intros k. by apply (Hdirs j).
Qed.

(** The file's inode is given back, or kept with one link less. *)
Lemma rm_inode_spec s ns i n : fs_ok s ns -> ns !! i = Some n -> is_dirbit n = false -> i <> 1 -> i_size n <= MAX_OFFSET -> s_ninodes (superblock s) <> 0 ->
  (i_nlinks n <= 1 -> forall j m name, ns !! j = Some m -> is_dirbit m = true -> dent (disk s) m name <> i) ->
  let n0 := if decide (0 < i_nlinks n) then set_nlinks (i_nlinks n - 1) n else n in
  exists s4, (if decide (i_nlinks n0 = 0) then
                '(s, file_inode) ← minix_inode_truncate_zones s n0 i (i_size n0) 0;
                let '(s, r) := minix_fs_write_inode s i (set_size 0 file_inode) in
                if decide (r <> 0) then Ok (s, - EIO) else
                '(s, r) ← minix_fs_free_inode s i;
                Ok (s, if decide (r <> 0) then - EIO else 0)
              else
                let '(s, r) := minix_fs_write_inode s i n0 in
                Ok (s, if decide (r <> 0) then - EIO else 0)) = Ok (s4, 0) /\
  fs_ok s4 (if decide (i_nlinks n <= 1) then delete i ns else <[i := set_nlinks (i_nlinks n - 1) n]> ns) /\
  (forall j, inum_ok s j -> j <> i -> dinode s4 j = dinode s j) /\
  (forall j m, j <> i -> ns !! j = Some m -> listing (disk s4) m = listing (disk s) m /\ same_bytes s s4 m) /\
  (i_nlinks n <= 1 -> forall o, 0 <= o < i_size n -> fzone (disk s) n (o / 1024) <> 0 -> zfree s4 (fzone (disk s) n (o / 1024)) = true) /\
  (1 < i_nlinks n -> same_bytes s s4 (set_nlinks (i_nlinks n - 1) n)).
Proof.
  intros Hfs Hn Hnd Hi1 Hsz Hni Hno n0. pose proof (tree_wf s ns (fs_tree s ns Hfs) i n Hn) as Hwf. assert (0 <= i_nlinks n < 256) as Hnl by apply Hwf.
  destruct (decide (i_nlinks n <= 1)) as [Hle|Hgt].
  - assert (n0 = set_nlinks 0 n) as En0. { unfold n0. case_decide; [by replace (i_nlinks n - 1) with 0 by lia|apply nlinks_zero; lia]. }
    rewrite En0. rewrite decide_True by done.
    destruct (release_file_spec s ns i n 0 Hfs Hn Hnd Hi1 Hsz Hni (Hno Hle)) as (s4 & n4 & s5 & s6 & -> & E5 & E6 & Hfs6 & Hsup6 & Hdi6 & Hoth6 & Hfr6).
    cbn [mbind outcome_bind]. rewrite E5. rewrite decide_False by tauto. rewrite E6. cbn [mbind outcome_bind]. rewrite decide_False by tauto.
    exists s6. splits; auto. intros; lia.
  - assert (n0 = set_nlinks (i_nlinks n - 1) n) as En0 by (unfold n0; by rewrite decide_True by lia). rewrite En0.
    rewrite decide_False by (cbn [set_nlinks i_nlinks]; rewrite u8_small by lia; lia).
    destruct (fs_store s ns i n s n (set_nlinks (i_nlinks n - 1) n) Hfs Hn (refl_touches s ns i n Hfs Hn)) as (s4 & s5 & -> & _ & Hst); auto; [by apply nlinks_wf|congruence|].
    destruct (Hst s4 ltac:(auto)) as (Hfs4 & D & Hsup4 & _ & Hdi4 & Hdo4 & Hdirs4 & Hoth4 & Hby4). rewrite decide_False by tauto.
    exists s4. splits; auto.
    + intros j m Hne Hjm. split; [|by apply (Hoth4 j)]. apply listing_same. intros k. by apply (Hdirs4 j).
    + intros _ o Ho. destruct (Hby4 o Ho) as [-> _]. symmetry. by apply (fbyte_same s s ns i n); [constructor; auto; apply Hfs|apply Hfs|..].
Qed.

(** A file that is in its directory is found. *)
Lemma rm_reaches s ns parent name p pn i n l1 l2 :
  fs_ok s ns -> parent_ok parent -> name_ok name -> slashless name -> (length parent + length name < 255)%nat ->
  resolved s (or_root parent) = inr p -> ns !! p = Some pn -> is_dirbit pn = true -> listing (disk s) pn = l1 ++ (name, i) :: l2 -> NoDup (listing (disk s) pn).*1 ->
  ns !! i = Some n -> is_dirbit n = false ->
  minix_fs_rm s (Some (parent ++ SLASH :: name)) = rm_found (set_cached pn (set_cached n s)) (or_root parent) name pn n i.
Proof.
  set (path := parent ++ SLASH :: name). intros Hfs Hpar Hname Hsl Hlen Hres Hpn Hdir Hl Hdup Hn Hnd. pose proof (fs_vol s ns Hfs) as Hv.
  assert (Hpath : path_names path = path_names (or_root parent) ++ [name]) by (apply path_names_child; auto; apply Hname).
  destruct (resolved_live s ns _ p Hfs Hres) as [Hpd Hpok]. rewrite Hpn in Hpd. injection Hpd as Epn. destruct (live_inode s ns Hfs i n Hn) as [Hi En].
  pose proof (removed_dent_name s i pn name l1 l2 Hl Hdup) as Hdent. assert (Hi0 : i <> 0) by (unfold inum_ok in Hi; lia). assert (Hpi : p <> i) by congruence.
  assert (Hi1 : i <> 1) by (destruct (fs_root s ns Hfs) as (r & Hr & ?); congruence).
  assert (Hfound : resolved s path = inr i).
  { unfold resolved. rewrite Hpath, resolve_child. fold (resolved s (or_root parent)). rewrite Hres, <- Epn, Hdir, Hdent. by rewrite decide_False. }
  unfold minix_fs_rm. rewrite (vol_init s Hv). cbn [negb].
  assert (Hcons : exists c rest, path = c :: rest) by (unfold path; destruct parent; cbn; eauto). destruct Hcons as (c & rest & Ec). rewrite Ec. rewrite <- Ec.
  rewrite decide_False by (unfold path; destruct parent as [|? [|? ?]]; [|done..]; cbn; destruct Hname as [? _]; congruence).
  rewrite (get_inode_number_spec s ns) by done. rewrite Hfound. cbn [mbind outcome_bind]. rewrite decide_False by done.
  pose proof (fs_cached s ns (dinode s i) Hfs) as Hfs0. set (s0 := set_cached (dinode s i) s) in *.
  rewrite (read_inode_spec s0 i (fs_vol _ _ Hfs0) Hi). change (dinode s0 i) with (dinode s i). rewrite <- En, Hnd.
  unfold path at 1. rewrite split_path_spec by (auto; try lia; apply Hname). cbn [mbind outcome_bind]. rewrite (decide_False (P := 0 <> 0)) by tauto.
  rewrite (minix_find_inode_spec s0 ns) by done. change (resolved s0 (or_root parent)) with (resolved s (or_root parent)). rewrite Hres. cbn [mbind outcome_bind negb].
  change (dinode s0 p) with (dinode s p). rewrite <- Epn. pose proof (fs_cached s0 ns pn Hfs0) as Hfs1. set (s1 := set_cached pn s0) in *. change (cached_result_inode s1) with pn.
  subst s1 s0. by rewrite <- En.
Qed.

(** The entry goes, the others keep their order. *)
Lemma remove_listed s ns p pn name i l1 l2 : fs_ok s ns -> name_ok name -> ns !! p = Some pn ->
  listing (disk s) pn = l1 ++ (name, i) :: l2 -> NoDup (listing (disk s) pn).*1 ->
  exists s' pn', minix_fs_remove_dir_entry s pn name = (s', pn', 0) /\ edit ns p s pn s' pn /\ resized pn pn' /\ listing (disk s') pn = l1 ++ l2.
Proof.
  intros Hfs Hname Hpn Hl Hdup. assert (Hin : name ∈ (listing (disk s) pn).*1) by (rewrite Hl, fmap_app; apply elem_of_app; right; left).
  destruct (remove_dir_entry_spec name Hname s ns p pn (fs_vol _ _ Hfs) (fs_tree _ _ Hfs) Hpn Hin) as (s2 & pn' & k1 & x & k2 & -> & He & Hr & Hk & Hk1 & Hk').
  exists s2, pn'. splits; auto. rewrite Hk'. apply (split_unique _ _ _ _ name x i); auto; [|congruence].
  rewrite Hl, fmap_app in Hdup. apply NoDup_app in Hdup as (_ & Hx & _). intros Hi'. apply (Hx name Hi'). left.
Qed.

(** C35: Removing a file takes exactly its name out of the directory.  With the
    last name its inode and the zones of its contents become free, otherwise the
    link count goes down by one and the contents stay; every path that ended at
    another inode still does, other directories and files do not change, and the
    volume stays sound. *)
Theorem minix_remove_correct s ns parent name p pn i n l1 l2 : let path := parent ++ SLASH :: name in
  fs_ok s ns -> s_ninodes (superblock s) <> 0 -> parent_ok parent -> name_ok name -> slashless name -> (length parent + length name < 255)%nat ->
  resolved s (or_root parent) = inr p -> ns !! p = Some pn -> is_dirbit pn = true -> listing (disk s) pn = l1 ++ (name, i) :: l2 -> NoDup (listing (disk s) pn).*1 ->
  ns !! i = Some n -> is_dirbit n = false -> i_size n <= MAX_OFFSET -> (i_nlinks n <= 1 -> only_name s ns i p name) ->
  exists s' pn', minix_fs_rm s (Some path) = Ok (s', 0) /\
  fs_ok s' (<[p := pn']> (if decide (i_nlinks n <= 1) then delete i ns else <[i := set_nlinks (i_nlinks n - 1) n]> ns)) /\
  listing (disk s') pn' = l1 ++ l2 /\ resolved s' path = inl (- ENOENT) /\
  (forall q j, resolved s q = inr j -> j <> i -> resolved s' q = inr j) /\
  (forall j m, j <> p -> j <> i -> ns !! j = Some m -> listing (disk s') m = listing (disk s) m /\ same_bytes s s' m) /\
  (i_nlinks n <= 1 -> forall o, 0 <= o < i_size n -> fzone (disk s) n (o / 1024) <> 0 -> zfree s' (fzone (disk s) n (o / 1024)) = true) /\
  (1 < i_nlinks n -> same_bytes s s' (set_nlinks (i_nlinks n - 1) n)).
Proof.
  intros path Hfs Hni Hpar Hname Hsl Hlen Hres Hpn Hdir Hl Hdup Hn Hnd Hsz Hon. pose proof (fs_vol s ns Hfs) as Hv.
  assert (Hpath : path_names path = path_names (or_root parent) ++ [name]) by (apply path_names_child; auto; apply Hname).
  destruct (resolved_live s ns _ p Hfs Hres) as [Hpd Hpok]. rewrite Hpn in Hpd. injection Hpd as Epn. destruct (live_inode s ns Hfs i n Hn) as [Hi En].
  pose proof (removed_dent_name s i pn name l1 l2 Hl Hdup) as Hdent. assert (Hi0 : i <> 0) by (unfold inum_ok in Hi; lia). assert (Hpi : p <> i) by congruence.
  assert (Hi1 : i <> 1) by (destruct (fs_root s ns Hfs) as (r & Hr & ?); congruence).
  unfold path at 1. rewrite (rm_reaches s ns parent name p pn i n l1 l2) by done. unfold rm_found.
  pose proof (fs_cached _ ns pn (fs_cached s ns n Hfs)) as Hfs1. set (s1 := set_cached pn _) in *.
  destruct (remove_listed s1 ns p pn name i l1 l2 Hfs1 Hname Hpn Hl Hdup) as (s2 & pn' & -> & He & Hr & Hk').
  rewrite (decide_False (P := 0 <> 0)) by tauto.
  destruct (removed_edit s1 ns p i pn name l1 l2 Hfs1 Hpn Hdir Hl Hdup s2 He Hk') as (Hfs2 & Hdi2 & Hoth2 & Hno2).
  assert (Hsup2 : superblock s2 = superblock s) by apply (sv_super _ _ (ed_vol _ _ _ _ _ _ He)).
  assert (Hok2 : forall j, inum_ok s2 j <-> inum_ok s j) by (intros; unfold inum_ok; by rewrite Hsup2).
  destruct (rm_inode_spec s2 ns i n Hfs2 Hn Hnd Hi1 Hsz) as (s4 & E4 & Hfs4 & Hdi4 & Hoth4 & Hfr4 & Hby4); [by rewrite Hsup2|intros Hle; by apply Hno2; [apply Hon|]|].
  rewrite E4. cbn [mbind outcome_bind]. rewrite (decide_False (P := 0 <> 0)) by tauto.
  set (ns4 := if decide (i_nlinks n <= 1) then delete i ns else <[i := set_nlinks (i_nlinks n - 1) n]> ns) in *.
  assert (Hns4 : forall j m, j <> i -> ns !! j = Some m -> ns4 !! j = Some m).
  { intros j m Hne Hm. unfold ns4. destruct (decide (i_nlinks n <= 1)); [by rewrite lookup_delete_ne|by rewrite lookup_insert_ne]. }
  assert (Hd4 : forall j m, j <> i -> ns !! j = Some m -> dinode s4 j = m).
  { intros j m Hne Hm. destruct (live_inode s ns Hfs j m Hm) as [Hj _]. rewrite Hdi4 by (try apply Hok2; done). by apply Hdi2. }
  assert (Hl4 : forall j m, j <> i -> ns !! j = Some m -> listing (disk s4) m = if decide (j = p) then l1 ++ l2 else listing (disk s) m).
  { intros j m Hne Hm. rewrite (proj1 (Hoth4 j m Hne Hm)). destruct (decide (j = p)) as [->|E]; [assert (m = pn) as -> by congruence; done|]. by apply (Hoth2 j). }
  assert (Hres4 : resolved s4 (or_root parent) = inr p).
  { apply (removed_resolved s ns p i pn n name l1 l2 Hfs Hpn Hdir Hn Hnd Hl Hdup s4); auto. intros j m Hne Hm. rewrite (Hd4 j m) by done. split; [done|by apply Hl4]. }
  destruct (rm_tail s4 ns4 (or_root parent) p pn pn' Hfs4 Hres4 (Hns4 p pn Hpi Hpn) Hdir Hr) as (s5 & E5 & Hfs5 & Hdi5 & Hdo5 & Hl5 & Hoth5 & Hf5).
  exists s5, pn'. split; [exact E5|]. split; [done|]. rewrite (Hl4 p pn Hpi Hpn), decide_True in Hl5 by done. split; [done|].
  assert (Hall : forall j m, j <> i -> ns !! j = Some m -> is_dirbit (dinode s5 j) = is_dirbit m /\ listing (disk s5) (dinode s5 j) = if decide (j = p) then l1 ++ l2 else listing (disk s) m).
  { intros j m Hne Hm. destruct (decide (j = p)) as [->|Hjp].
    - rewrite Hdi5. assert (m = pn) as -> by congruence. split; [|done]. apply dirbit_mode. by apply (resized_zones pn pn').
    - destruct (live_inode s4 ns4 Hfs4 j m (Hns4 j m Hne Hm)) as [Hj Em]. rewrite Hdo5 by done. rewrite <- Em. split; [done|].
      rewrite (proj1 (Hoth5 j m Hjp (Hns4 j m Hne Hm))). rewrite (Hl4 j m Hne Hm). by rewrite decide_False. }
  pose proof (removed_resolved s ns p i pn n name l1 l2 Hfs Hpn Hdir Hn Hnd Hl Hdup s5 Hall) as Hext.
  assert (Hbytes : forall j m, j <> p -> j <> i -> ns !! j = Some m -> same_bytes s s5 m).
  { intros j m Hjp Hne Hm o Ho. rewrite (proj2 (Hoth5 j m Hjp (Hns4 j m Hne Hm)) o Ho). rewrite (proj2 (Hoth4 j m Hne Hm) o Ho). by apply (Hoth2 j). }
  split; [|split; [done|split; [|split]]].
  - unfold resolved. rewrite Hpath, resolve_child. fold (resolved s5 (or_root parent)). rewrite (Hext _ p Hres Hpi). rewrite Hdi5.
    assert (is_dirbit pn' = true) as -> by (rewrite (dirbit_mode pn pn'); [done|by apply (resized_zones pn pn')]).
    rewrite (removed_dent s i pn name l1 l2 Hl Hdup _ pn' name Hl5). rewrite (decide_True (P := name = name)) by done. by rewrite decide_True.
  - intros j m Hjp Hne Hm. split; [|by apply (Hbytes j)]. rewrite (proj1 (Hoth5 j m Hjp (Hns4 j m Hne Hm))). rewrite (Hl4 j m Hne Hm). by rewrite decide_False.
  - intros Hle o Ho Hnz. destruct (dslot_ok (o / 1024) (idx_ok o ltac:(lia))) as [Hok _]. rewrite Hf5.
    assert (E : fzone (disk s2) n (o / 1024) = fzone (disk s) n (o / 1024)) by (by apply (ed_others _ _ _ _ _ _ He i n); [congruence|..]). rewrite <- E in *. by apply Hfr4.
  - intros Hgt o Ho. rewrite (proj2 (Hoth5 i (set_nlinks (i_nlinks n - 1) n) ltac:(congruence) ltac:(unfold ns4; rewrite decide_False by lia; apply lookup_insert_eq)) o Ho).
    rewrite (Hby4 Hgt o Ho). by apply (proj2 (Hoth2 i n ltac:(congruence) Hn) o Ho).
Qed.
