(* ===== verification/MinixSpec.v ===== *)
(** * MINIX: reading back what was written, and a volume

    The theorems that join the operations, and a small volume with a root
    directory and one file on which the theorems are applied. *)

From S2P Require Import Prelude Bytes CString Perm Minix MinixFile MinixOps MinixZones MinixTree MinixContent MinixFs MinixRw MinixTrunc MinixDir MinixInode MinixCreate MinixRemove.

Fixpoint join_names (names : list (list Z)) : list Z := match names with [] => [] | x :: l => SLASH :: x ++ join_names l end.

Lemma join_names_split x l : Forall slashless (x :: l) -> split_slash (x ++ join_names l) = x :: l.
Proof.
  revert x. induction l as [|y l IH]; intros x Hf; apply Forall_cons in Hf as [Hx Hl]; cbn [join_names].
  - rewrite app_nil_r. by apply split_slash_plain.
  - rewrite split_slash_app, split_slash_plain by done. by rewrite IH.
Qed.

(** The walk along names by the listings of the directories. *)
Fixpoint walk_names (s : minix_state) (num : Z) (names : list (list Z)) : Z + Z :=
  match names with
  | [] => inr num
  | name :: rest =>
      if is_dirbit (dinode s num) then
        match first_named (listing (disk s) (dinode s num)) name with 0 => inl (- ENOENT) | i => walk_names s i rest end
      else inl (- ENOTDIR)
  end.

Lemma walk_resolve s names : forall num, resolve (dinode s) (disk s) num names = walk_names s num names.
Proof.
  induction names as [|x l IH]; intros num; [done|]. cbn [resolve walk_names]. rewrite dent_listing. case_match; [|done].
  destruct (first_named _ _) as [|p|p]; cbn; by rewrite ?IH.
Qed.

(** C37: On a sound volume, [minix_lookup] of the path /a/b/... made of non-empty
    names without slashes, at most 255 bytes in all (or of the path "/"), is the
    walk from the root directory that takes at each name the first entry of the
    directory's listing with that name, with -ENOENT at a name not in the listing
    and -ENOTDIR at a component that is no directory; it changes nothing, always
    returns, and what it finds is an inode in use. *)
Theorem minix_lookup_correct s ns names : fs_ok s ns -> Forall (fun x => x <> [] /\ slashless x) names -> (length (join_names names) <= 255)%nat ->
  minix_lookup s (Some (match names with [] => [SLASH] | _ => join_names names end)) =
  Ok (s, match walk_names s 1 names with inl e => inl e | inr i => inr (dinode s i, i) end) /\
  (forall i, walk_names s 1 names = inr i -> ns !! i = Some (dinode s i)).
Proof.
  intros Hfs Hn Hlen. rewrite <- walk_resolve. split.
  - rewrite (minix_lookup_spec s ns) by done. unfold resolved. do 3 f_equal. destruct names as [|x l]; [done|]. unfold path_names. rewrite take_ge by done.
    cbn [join_names unrooted]. rewrite decide_True by done. rewrite join_names_split by (eapply Forall_impl; [exact Hn|]; by intros ? [_ ?]).
    rewrite names_of_full; [done|]. eapply Forall_impl; [exact Hn|]. by intros ? [? _].
  - intros i Hi. destruct (resolve_live s ns Hfs names 1 i (root_live s ns Hfs) Hi) as [n Hin]. destruct (live_inode s ns Hfs i n Hin) as [_ E]. congruence.
Qed.

Lemma pwrite_too_big s ns path i n buf off now : fs_ok s ns -> resolved s path = inr i -> ns !! i = Some n -> is_dirbit n = false -> buf <> [] -> 0 <= off ->
  off + Z.of_nat (length buf) < 2 ^ 64 -> s_max_size (superblock s) < off + Z.of_nat (length buf) ->
  minix_fs_pwrite_at s (Some path) (Some buf) (Z.of_nat (length buf)) off now = Ok (set_cached n s, - EFBIG, 0).
Proof.
  intros Hfs Hres Hn Hnd Hne Ho H64 Hbig. destruct (resolved_live s ns path i Hfs Hres) as [Hn' Hi]. rewrite Hn in Hn'. injection Hn' as En.
  pose proof (fs_vol s ns Hfs) as Hv. assert (0 < length buf)%nat by (destruct buf; [done|cbn; lia]).
  unfold minix_fs_pwrite_at. rewrite (vol_init s Hv), (proj2 (vol_quiet s Hv)). cbn [negb].
  rewrite decide_False by lia. rewrite decide_False by lia. rewrite (get_inode_number_spec s ns) by done. rewrite Hres. cbn [mbind outcome_bind].
  rewrite decide_False by (unfold inum_ok in Hi; lia). rewrite <- En. pose proof (fs_cached s ns n Hfs) as Hfs0.
  rewrite (read_inode_spec (set_cached n s) i (fs_vol _ ns Hfs0) Hi). change (dinode (set_cached n s) i) with (dinode s i). rewrite <- En, Hnd.
  unfold u64. rewrite Z.mod_small by lia. rewrite decide_True; [done|]. change (superblock (set_cached n s)) with (superblock s). lia.
Qed.

(** C32: [minix_fs_pwrite_at] of a non-empty buffer at a non-negative offset (their
    sum below 2^64) to a file that is no directory and has no holes, on a sound
    volume, always returns.  Past s_max_size it answers -EFBIG and nothing on the
    disk changes.  Otherwise either no zone is free and it answers -ENOSPC with the
    file's size and the bytes before the place written as they were, or the
    contents are the old ones with the buffer over them and zeros in a gap, owner,
    mode and link count kept, and the file still has no holes.  Paths, and the
    contents of every other inode, do not change, and the volume stays sound. *)
Theorem minix_write_correct s ns path i n buf off now : fs_ok s ns -> resolved s path = inr i -> ns !! i = Some n -> is_dirbit n = false ->
  dense (disk s) n -> bytes buf -> buf <> [] -> 0 <= off -> i_size n <= s_max_size (superblock s) ->
  off + Z.of_nat (length buf) < 2 ^ 64 ->
  exists s' e w, minix_fs_pwrite_at s (Some path) (Some buf) (Z.of_nat (length buf)) off now = Ok (s', e, w) /\
  (forall p, resolved s' p = resolved s p) /\ (forall j m, j <> i -> ns !! j = Some m -> same_bytes s s' m) /\
  if decide (s_max_size (superblock s) < off + Z.of_nat (length buf)) then e = - EFBIG /\ w = 0 /\ disk s' = disk s /\ fs_ok s' ns else
  ((e = - ENOSPC /\ w = 0 /\ full s' /\ fs_ok s' ns /\ forall o, 0 <= o < Z.min off (i_size n) -> fbyte (disk s') n o = fbyte (disk s) n o) \/
   (e = 0 /\ w = Z.of_nat (length buf) /\ exists n', fs_ok s' (<[i := n']> ns) /\
    contents (disk s') n' = overwrite (contents (disk s) n) (Z.to_nat off) buf /\ dense (disk s') n' /\
    i_mode n' = i_mode n /\ i_uid n' = i_uid n /\ i_gid n' = i_gid n /\ i_nlinks n' = i_nlinks n /\ i_time n' = u32 now)).
Proof.
  intros Hfs Hres Hn Hnd Hde Hb Hne Ho Hsz H64. case_decide as Hbig.
  - exists (set_cached n s), (- EFBIG), 0. split; [by apply (pwrite_too_big s ns path i)|]. split; [done|]. split; [done|]. splits; auto. by apply fs_cached.
  - apply pwrite_spec; auto. lia.
Qed.

Lemma drop_take_overwrite old off w : take (length w) (drop off (overwrite old off w)) = w.
Proof.
  unfold overwrite. rewrite drop_app_length' by (rewrite length_take, length_app, length_replicate; lia). by rewrite take_app_length.
Qed.

(** C33: On a sound volume, what [minix_fs_pwrite_at] stored (a non-empty buffer,
    within s_max_size, in a file without holes that is no directory) is what
    [minix_fs_pread_at] returns at that place, across direct, indirect and
    double-indirect zones, and every read of another file returns what it
    returned before. *)
Theorem minix_write_read_roundtrip s ns path i n buf off now s' w : fs_ok s ns -> resolved s path = inr i -> ns !! i = Some n -> is_dirbit n = false ->
  dense (disk s) n -> bytes buf -> buf <> [] -> 0 <= off -> i_size n <= s_max_size (superblock s) ->
  off + Z.of_nat (length buf) <= s_max_size (superblock s) ->
  minix_fs_pwrite_at s (Some path) (Some buf) (Z.of_nat (length buf)) off now = Ok (s', 0, w) ->
  (exists s'', minix_fs_pread_at s' (Some path) true (Z.of_nat (length buf)) off = Ok (s'', 0, buf)) /\
  (forall other j m count o, resolved s other = inr j -> j <> i -> ns !! j = Some m -> is_dirbit m = false -> i_size m <= MAX_OFFSET ->
    0 < count -> 0 <= o -> o + count < 2 ^ 64 -> exists t t' data,
    minix_fs_pread_at s (Some other) true count o = Ok (t, 0, data) /\ minix_fs_pread_at s' (Some other) true count o = Ok (t', 0, data)).
Proof.
  intros Hfs Hres Hn Hnd Hde Hb Hne Ho Hsz Hmax E. destruct (pwrite_spec s ns path i n buf off now) as (s1 & e & w1 & E1 & Hr & Hoth & Hcase); auto.
  rewrite E in E1. injection E1 as <- <- <-. destruct Hcase as [[He _]|(_ & _ & n' & Hfs' & Hc & Hd & Hm & _)]; [done|].
  destruct (vol_geo s (fs_vol s ns Hfs)) as [_ _ _ _ _ _ Hgs _]. assert (Hlb : (0 < length buf)%nat) by (destruct buf; [done|cbn; lia]).
  assert (Hlen : i_size n' = Z.of_nat (length (contents (disk s') n'))).
  { rewrite length_contents. pose proof (tree_wf s' _ (fs_tree _ _ Hfs') i n' (lookup_insert_eq _ _ _)) as Hwf. assert (0 <= i_size n' < 4294967296) by apply Hwf. lia. }
  assert (Hl : (length (overwrite (contents (disk s) n) (Z.to_nat off) buf) <= Z.to_nat MAX_OFFSET)%nat).
  { unfold overwrite. rewrite !length_app, length_take, length_drop, length_app, length_replicate, length_contents. change MAX_OFFSET with 268966912. lia. }
  split.
  - destruct (pread_spec s' (<[i := n']> ns) path i n' (Z.of_nat (length buf)) off) as (s'' & E'' & _); auto; [by rewrite Hr|apply lookup_insert_eq| | |lia|lia|].
    + rewrite (dirbit_mode n n'); done.
    + rewrite Hlen, Hc. change MAX_OFFSET with 268966912 in *. lia.
    + exists s''. rewrite E'', Hc, Nat2Z.id. do 2 f_equal. apply drop_take_overwrite.
  - intros other j m count o Hrj Hji Hjm Hnj Hsj Hc0 Ho0 Hco. destruct (pread_spec s ns other j m count o) as (t & Et & _); auto.
    destruct (pread_spec s' (<[i := n']> ns) other j m count o) as (t' & Et' & _); auto; [by rewrite Hr|by rewrite lookup_insert_ne|].
    rewrite (contents_same s s' m) in Et' by (auto; by apply (Hoth j)). eauto.
Qed.

(** ** A volume with one file

    Twelve blocks: boot block, superblock, the two bitmaps, one block of 32
    inodes, and seven data zones.  The root directory (inode 1) is in zone 5 and
    names the file [f] (inode 2), whose five bytes are in zone 6. *)

Definition vol_super : minix_superblock_t := Super 32 12 1 1 5 0 268966912 MINIX_SUPER_MAGIC.
Definition vol_root : minix_inode_t := MInode 0x41ED 0 48 0 0 2 (5 :: replicate 8 0).
Definition vol_file : minix_inode_t := MInode 0x81A4 0 5 0 0 1 (6 :: replicate 8 0).
Definition vol_imap : list Z := padded [6].
Definition vol_zmap : list Z := padded [124].
Definition vol_f : list Z := [102].

Definition vol_disk : gmap Z (list Z) := list_to_map
  [(0, zero_block); (1, padded (super_bytes vol_super)); (2, vol_imap); (3, vol_zmap); (4, padded (inode_bytes vol_root ++ inode_bytes vol_file));
   (5, put_entry (dot_block 1 1) 2 2 vol_f); (6, padded (bytes_of "hello")); (7, zero_block); (8, zero_block); (9, zero_block); (10, zero_block); (11, zero_block)].

Definition vol : minix_state :=
  {| superblock := vol_super; inode_bitmap := Some vol_imap; zone_bitmap := Some vol_zmap; initialized := true; zmap_dirty := false; zmap_search_start := 5;
     cached_result_inode := inode_zeroed; root_dev_present := true; disk := vol_disk; io := [] |}.

Definition vol_ns : gmap Z minix_inode_t := {[1 := vol_root; 2 := vol_file]}.

Definition blockish_b (b : list Z) : bool := Nat.eqb (length b) 1024 && forallb (fun c => (0 <=? c) && (c <=? 255)) b.

Lemma blockish_b_sound b : blockish_b b = true -> blockish b.
Proof.
  unfold blockish_b. intros [H1 H2]%andb_prop. apply Nat.eqb_eq in H1. split; [done|]. apply Forall_forall. intros c Hc.
  apply forallb_forall with (x := c) in H2; [lia|]. by apply list_elem_of_In.
Qed.

Lemma range_forallb (f : Z -> bool) (k : nat) z : forallb (fun j => f (Z.of_nat j)) (seq 0 k) = true -> 0 <= z < Z.of_nat k -> f z = true.
Proof.
  intros H Hz. apply forallb_forall with (x := Z.to_nat z) in H; [|apply in_seq; lia]. by rewrite Z2Nat.id in H by lia.
Qed.

Lemma vol_volume : volume vol.
Proof.
  constructor.
  - done.
  - done.
  - constructor; vm_compute; intuition congruence.
  - exists vol_zmap. split; [done|]. split; [vm_compute; reflexivity|]. apply (blockish_b_sound vol_zmap). vm_compute. reflexivity.
  - exists vol_imap. split; [done|]. apply blockish_b_sound. vm_compute. reflexivity.
  - intros z b Hb. apply blockish_b_sound. cbn [vol disk] in Hb. unfold vol_disk in Hb. apply elem_of_list_to_map_2 in Hb.
    assert (Hall : forallb (fun e => blockish_b (snd e)) (map_to_list vol_disk) = true) by (vm_compute; reflexivity).
    apply forallb_forall with (x := (z, b)) in Hall; [done|]. apply list_elem_of_In, elem_of_map_to_list. apply elem_of_list_to_map_1; [|done].
    apply (bool_decide_unpack _). vm_compute. done.
  - intros z Hz. change (Z.max _ _) with 12 in Hz. assert (E : match disk vol !! z with Some _ => true | None => false end = true).
    { apply (range_forallb (fun z => match disk vol !! z with Some _ => true | None => false end) 12); [vm_compute; reflexivity|lia]. }
    destruct (disk vol !! z); [eauto|done].
Qed.

Lemma vol_ns_cases i n : vol_ns !! i = Some n -> (i = 1 /\ n = vol_root) \/ (i = 2 /\ n = vol_file).
Proof. unfold vol_ns. intros [[<- <-]|[_ [<- <-]%lookup_singleton_Some]]%lookup_insert_Some; auto. Qed.

Lemma vol_val i n p : vol_ns !! i = Some n -> slot_ok p -> val (disk vol) n p <> 0 -> p = Top 0 /\ val (disk vol) n p = 4 + i.
Proof.
  intros Hn Hp. destruct (vol_ns_cases i n Hn) as [[-> ->]|[-> ->]]; destruct p as [k|k|a|a c]; cbn [val]; try done;
    (destruct (decide (k = 0%nat)) as [->|Hk]; [done|]); cbn in Hp; intros H; exfalso; apply H; clear H;
    (do 9 (destruct k as [|k]; [done|])); lia.
Qed.

Lemma vol_tree : tree_ok vol vol_ns.
Proof.
  constructor.
  - intros i n Hn. destruct (vol_ns_cases i n Hn) as [[-> ->]|[-> ->]]; unfold inode_wf; cbn; splits; try lia; repeat constructor; lia.
  - intros i n p Hn Hp Hnz. destruct (vol_val i n p Hn Hp Hnz) as [_ ->]. unfold data_zone. change (s_firstdatazone (superblock vol)) with 5.
    change (zone_limit (superblock vol)) with 12. destruct (vol_ns_cases i n Hn) as [[-> _]|[-> _]]; (split; [lia|vm_compute; reflexivity]).
  - intros i j n m p q Hn Hm Hp Hq E Hnz. destruct (vol_val i n p Hn Hp Hnz) as [-> E1]. destruct (vol_val j m q Hm Hq) as [-> E2]; [congruence|]. split; [lia|done].
Qed.

Lemma vol_listing : listing (disk vol) vol_root = [(DOT, 1); (DOTDOT, 1); (vol_f, 2)].
Proof. vm_compute. reflexivity. Qed.

Lemma vol_fs_ok : fs_ok vol vol_ns.
Proof.
  constructor.
  - apply vol_volume.
  - intros i n. split.
    + intros Hn. destruct (vol_ns_cases i n Hn) as [[-> ->]|[-> ->]]; (split; [split; [lia|vm_compute; discriminate]|]); split; vm_compute; reflexivity.
    + intros (Hi & Hu & ->). assert (Hb : 1 <= i <= 32) by exact Hi.
      assert (E : negb (inode_used vol i) || (i =? 1) || (i =? 2) = true).
      { apply (range_forallb (fun i => negb (inode_used vol i) || (i =? 1) || (i =? 2)) 33); [vm_compute; reflexivity|lia]. }
      rewrite Hu in E. cbn [negb orb] in E. assert (i = 1 \/ i = 2) as [->| ->] by lia; vm_compute; reflexivity.
  - apply vol_tree.
  - exists vol_root. split; [reflexivity|vm_compute; reflexivity].
  - intros i n name Hn Hd Hnz. destruct (vol_ns_cases i n Hn) as [[-> ->]|[-> ->]]; [|vm_compute in Hd; discriminate].
    rewrite dent_listing, vol_listing in *. cbn [first_named] in *. repeat case_decide; try done; vm_compute; eauto.
Qed.

Lemma vol_dense : dense (disk vol) vol_file.
Proof. intros o Ho. cbn [vol_file i_size] in Ho. replace (o / 1024) with 0 by (Z.to_euclidean_division_equations; lia). vm_compute. discriminate. Qed.

Lemma vol_name name : name = [103] \/ name = vol_f -> name_ok name /\ slashless name.
Proof. intros [->| ->]; (split; [split; [done|split; [cbn; lia|split]]|]); repeat constructor; done. Qed.

Lemma minix_lookup_witness : minix_lookup vol (Some (bytes_of "/f")) = Ok (vol, inr (vol_file, 2)).
Proof.
  destruct (minix_lookup_correct vol vol_ns [vol_f] vol_fs_ok) as [E _]; [repeat constructor; done|cbn; lia|].
  change (bytes_of "/f") with (join_names [vol_f]). rewrite E. vm_compute. reflexivity.
Defined.

Lemma minix_create_witness : exists s' i pn', minix_fs_touch vol (Some (bytes_of "/g")) 0x1A4 7 8 None = Ok (s', 0) /\ resolved s' (bytes_of "/g") = inr i /\
  inserted ([103], i) (listing (disk vol) vol_root) (listing (disk s') pn').
Proof.
  destruct (vol_name [103]) as [Hok Hsl]; [by left|].
  destruct (minix_create_correct vol vol_ns [] [103] 1 vol_root 0x1A4 7 8 None vol_fs_ok) as (s' & e & E & H);
    [vm_compute; discriminate|by left|exact Hok|exact Hsl|cbn; lia|vm_compute; reflexivity|reflexivity|reflexivity|rewrite vol_listing; apply (bool_decide_unpack _); vm_compute; done|].
  assert (Hc : match minix_fs_touch vol (Some ([] ++ SLASH :: [103])) 0x1A4 7 8 None with Ok (_, e) => e | _ => 1 end = 0) by (vm_compute; reflexivity).
  rewrite E in Hc. subst e. destruct H as [[[He|He] _]|(_ & i & pn' & _ & _ & Hr & _ & Hi & _)]; [discriminate He|discriminate He|]. exists s', i, pn'. split; [exact E|]. split; [exact Hr|exact Hi].
Defined.

Lemma minix_write_witness : exists s' n', minix_fs_pwrite_at vol (Some (bytes_of "/f")) (Some (bytes_of "XYZ")) 3 3 9 = Ok (s', 0, 3) /\
  fs_ok s' (<[2 := n']> vol_ns) /\ contents (disk s') n' = bytes_of "helXYZ".
Proof.
  destruct (minix_write_correct vol vol_ns (bytes_of "/f") 2 vol_file (bytes_of "XYZ") 3 9 vol_fs_ok) as (s' & e & w & E & _ & _ & H);
    [vm_compute; reflexivity|reflexivity|reflexivity|apply vol_dense|repeat constructor; cbn; lia|done|lia|vm_compute; discriminate|vm_compute; reflexivity|].
  rewrite decide_False in H by (vm_compute; discriminate).
  assert (Hc : match minix_fs_pwrite_at vol (Some (bytes_of "/f")) (Some (bytes_of "XYZ")) 3 3 9 with Ok (_, e, _) => e | _ => 1 end = 0) by (vm_compute; reflexivity).
  change (Z.of_nat (length (bytes_of "XYZ"))) with 3 in E, H. rewrite E in Hc. subst e. destruct H as [[? _]|(_ & -> & n' & Hfs & Hco & _)]; [done|]. exists s', n'. split; [exact E|]. split; [exact Hfs|]. rewrite Hco. vm_compute. reflexivity.
Defined.

Lemma minix_write_read_witness : exists s' w s'', minix_fs_pwrite_at vol (Some (bytes_of "/f")) (Some (bytes_of "XYZ")) 3 2000 9 = Ok (s', 0, w) /\
  minix_fs_pread_at s' (Some (bytes_of "/f")) true 3 2000 = Ok (s'', 0, bytes_of "XYZ").
Proof.
  assert (Hc : match minix_fs_pwrite_at vol (Some (bytes_of "/f")) (Some (bytes_of "XYZ")) 3 2000 9 with Ok (_, e, _) => e | _ => 1 end = 0) by (vm_compute; reflexivity).
  destruct (minix_fs_pwrite_at vol (Some (bytes_of "/f")) (Some (bytes_of "XYZ")) 3 2000 9) as [[[s' e] w]|?|] eqn:E; [subst e|done|done].
  destruct (minix_write_read_roundtrip vol vol_ns (bytes_of "/f") 2 vol_file (bytes_of "XYZ") 2000 9 s' w vol_fs_ok) as [[s'' Hr] _];
    [vm_compute; reflexivity|reflexivity|reflexivity|apply vol_dense|repeat constructor; cbn; lia|done|lia|vm_compute; discriminate|vm_compute; discriminate|exact E|].
  exists s', w, s''. split; [done|exact Hr].
Defined.

Lemma minix_truncate_witness :
  (exists s' n', minix_truncate vol (Some (bytes_of "/f")) 2 9 = Ok (s', 0) /\ fs_ok s' (<[2 := n']> vol_ns) /\ contents (disk s') n' = bytes_of "he") /\
  (exists s' n', minix_truncate vol (Some (bytes_of "/f")) 0 9 = Ok (s', 0) /\ fzone (disk s') n' 0 = 0 /\ zfree s' 6 = true).
Proof.
  split.
  - destruct (minix_truncate_correct vol vol_ns (bytes_of "/f") 2 vol_file 2 9 vol_fs_ok) as (s' & e & E & _ & _ & H);
      [vm_compute; reflexivity|reflexivity|reflexivity|apply vol_dense|split; vm_compute; discriminate|vm_compute; discriminate|].
    destruct H as [(_ & H & _)|(-> & n' & Hfs & Hco & _)]; [cbn in H; lia|]. exists s', n'. split; [exact E|]. split; [exact Hfs|]. rewrite Hco. vm_compute. reflexivity.
  - destruct (minix_truncate_correct vol vol_ns (bytes_of "/f") 2 vol_file 0 9 vol_fs_ok) as (s' & e & E & _ & _ & H);
      [vm_compute; reflexivity|reflexivity|reflexivity|apply vol_dense|split; vm_compute; discriminate|vm_compute; discriminate|].
    destruct H as [(_ & H & _)|(-> & n' & _ & _ & _ & Hrel & _)]; [cbn in H; lia|]. exists s', n'. split; [exact E|].
    destruct (Hrel 0) as [Hz Hf]; [cbn; lia|]. split; [exact Hz|exact Hf].
Defined.

Lemma minix_remove_witness : exists s' pn', minix_fs_rm vol (Some (bytes_of "/f")) = Ok (s', 0) /\ fs_ok s' (<[1 := pn']> (delete 2 vol_ns)) /\
  resolved s' (bytes_of "/f") = inl (- ENOENT) /\ zfree s' 6 = true.
Proof.
  destruct (vol_name vol_f) as [Hok Hsl]; [by right|].
  assert (Hone : only_name vol vol_ns 2 1 vol_f).
  { intros j m x Hm Hd Hx. destruct (vol_ns_cases j m Hm) as [[-> ->]|[-> ->]]; [|vm_compute in Hd; discriminate]. rewrite vol_listing in Hx. split; [done|].
    repeat (apply elem_of_cons in Hx as [Hx|Hx]; [congruence|]). by apply elem_of_nil in Hx. }
  destruct (minix_remove_correct vol vol_ns [] vol_f 1 vol_root 2 vol_file [(DOT, 1); (DOTDOT, 1)] [] vol_fs_ok) as (s' & pn' & E & Hfs & _ & Hr & _ & _ & Hz & _);
    [vm_compute; discriminate|by left|exact Hok|exact Hsl|cbn; lia|vm_compute; reflexivity|reflexivity|reflexivity|apply vol_listing|
     rewrite vol_listing; apply (bool_decide_unpack _); vm_compute; done|reflexivity|reflexivity|vm_compute; discriminate|by intros _|].
  exists s', pn'. split; [exact E|]. split; [exact Hfs|]. split; [exact Hr|].
  specialize (Hz ltac:(cbn; lia) 0 ltac:(cbn; lia) ltac:(vm_compute; discriminate)). exact Hz.
Defined.
