(* ===== verification/MinixExamples.v ===== *)
(** * MINIX: where the code departs from what it documents

    Runs on a blank device and on the volume of MinixSpec, and the general fact
    behind the time stamp that [minix_fs_touch] does not store. *)

From S2P Require Import Prelude Bytes CString Perm Minix MinixFile MinixOps MinixZones MinixTree MinixContent MinixFs MinixRw MinixTrunc MinixDir MinixInode MinixCreate MinixRemove MinixSpec.

(** A device of 64 blocks with nothing on it. *)
Definition blank : minix_state :=
  {| superblock := Super 0 0 0 0 0 0 0 0; inode_bitmap := None; zone_bitmap := None; initialized := false; zmap_dirty := false; zmap_search_start := 0;
     cached_result_inode := inode_zeroed; root_dev_present := true; disk := list_to_map (map (fun k => (Z.of_nat k, zero_block)) (seq 0 64)); io := [] |}.

Definition after (r : outcome (minix_state * Z)) : option minix_state := match r with Ok (s, e) => if decide (e = 0) then Some s else None | _ => None end.

(** The zone of the root directory is still free on a formatted volume, and the
    first directory made there is given that zone. *)
Lemma format_root_zone_free :
  match after (minix_fs_format blank true) with
  | Some s => zone_of (dinode s 1) 0 = 5 /\ zfree s 5 = true /\
      match after (minix_fs_mkdir s (Some (bytes_of "/a")) 0x1ED 0 0 None) with
      | Some s' => zone_of (dinode s' 2) 0 = 5 /\ zone_of (dinode s' 1) 0 = 5
      | None => False
      end
  | None => False
  end.
Proof. vm_compute. done. Qed.

(** Inode 33 of the 64 announced by the superblock lies in that zone too. *)
Lemma format_inode_table_overlap :
  match after (minix_fs_format blank true) with
  | Some s => s_ninodes (superblock s) = 64 /\ inode_block s 33 = zone_of (dinode s 1) 0
  | None => False
  end.
Proof. vm_compute. done. Qed.

(** Touching a file that exists succeeds and leaves its inode as it was. *)
Lemma touch_existing_keeps_time s ns path i n mode now now' current : fs_ok s ns -> resolved s path = inr i -> ns !! i = Some n -> is_dirbit n = false -> path <> [] -> path <> [SLASH] ->
  exists s', minix_fs_touch s (Some path) mode now now' current = Ok (s', 0) /\ dinode s' i = n.
Proof.
  intros Hfs Hres Hn Hnd Hp1 Hp2. pose proof (fs_vol s ns Hfs) as Hv. destruct (live_inode s ns Hfs i n Hn) as [Hi En]. unfold minix_fs_touch.
  rewrite (vol_init s Hv), (proj2 (vol_quiet s Hv)). cbn [negb]. destruct path as [|c p]; [done|]. rewrite decide_False by done.
  rewrite (minix_find_inode_spec s ns) by done. rewrite Hres. cbn [mbind outcome_bind]. unfold touch_existing. cbn [set_cached cached_result_inode]. rewrite <- En, Hnd.
  pose proof (fs_cached _ ns (set_time now n) (fs_cached s ns n Hfs)) as Hfs1. rewrite (get_inode_number_spec _ ns) by exact Hfs1.
  match goal with |- context [resolved ?t (c :: p)] => change (resolved t (c :: p)) with (resolved s (c :: p)) end. rewrite Hres. cbn [mbind outcome_bind].
  rewrite decide_False by (unfold inum_ok in Hi; lia). cbn [set_cached cached_result_inode].
  match goal with |- context [minix_fs_write_inode ?t i ?m] => set (s1 := t); change m with (dinode s i) end. rewrite <- En.
  destruct (write_inode_data s1 i n) as (s2 & -> & _ & _ & Hd); [apply (fs_cached _ ns _ Hfs1)|done|by apply (tree_wf s ns (fs_tree s ns Hfs) i)|].
  exists s2. split; [done|]. rewrite Hd by done. by rewrite decide_True.
Qed.

(** A doubled slash ends the walk: what follows it is not looked at. *)
Lemma doubled_slash_ends_walk : path_names (bytes_of "/a//b/c") = path_names (bytes_of "/a").
Proof. vm_compute. reflexivity. Qed.

(** Removing a directory through its entry "." frees the inode and leaves the
    name in the parent. *)
Lemma rmdir_dot_dangles :
  match after (minix_fs_mkdir vol (Some (bytes_of "/a")) 0x1ED 0 0 None) with
  | Some s =>
      match after (minix_fs_rmdir s (Some (bytes_of "/a/.")) 0) with
      | Some s' => resolved s' (bytes_of "/a") = inr 3 /\ inode_used s' 3 = false
      | None => False
      end
  | None => False
  end.
Proof. vm_compute. done. Qed.

(** The inode bitmap on disk does not show the inode of a new directory. *)
Lemma mkdir_keeps_imap_block :
  match after (minix_fs_mkdir vol (Some (bytes_of "/a")) 0x1ED 0 0 None) with
  | Some s => inode_used s 3 = true /\ bool_decide (disk s !! 2 = disk vol !! 2) = true
  | None => False
  end.
Proof. vm_compute. done. Qed.

(** A file with a hole, as another system may have written it: a partial write
    into the hole brings the old bytes of the zone given to it into the file. *)
Definition hole_vol : minix_state :=
  set_disk (<[4 := padded (inode_bytes vol_root ++ inode_bytes (MInode 0x81A4 0 2048 0 0 1 (0 :: 6 :: replicate 7 0)))]>
           (<[7 := replicate 1024 170]> vol_disk)) vol.

Lemma write_into_hole_stale :
  match minix_fs_pread_at hole_vol (Some (bytes_of "/f")) true 4 0, minix_fs_pwrite_at hole_vol (Some (bytes_of "/f")) (Some (bytes_of "XYZ")) 3 10 9 with
  | Ok (_, 0, before), Ok (s', 0, 3) =>
      before = [0; 0; 0; 0] /\
      match minix_fs_pread_at s' (Some (bytes_of "/f")) true 4 0 with Ok (_, 0, data) => data = [170; 170; 170; 170] | _ => False end
  | _, _ => False
  end.
Proof. vm_compute. done. Qed.
