(* ===== verification/Tmpfs.v ===== *)
(** * The in-memory file system (src/fs/tmpfs.c)

    One instance per mount point: a table of 128 inodes linked into a tree by
    [parent], [children] and [sibling] pointers, which are table indices here.
    Strings are their text: the C string functions the code calls are proved to
    compute on texts in [CString].  A file's heap block is the list of its
    bytes, as long as the allocation; reading or writing past it is [UB], and
    so is a pointer walk that does not end within the table.

    Arguments stand for what the code asks of other components: the time, the
    caller's credentials, and whether an allocation succeeds ([kmalloc_try]
    returns NULL, [kmalloc] panics when it does not). *)

From S2P Require Import Prelude Bytes Perm.

Definition TMPFS_MAX_FILES : nat := 128.
Definition TMPFS_MAX_FILE_SIZE : Z := 65536.
Definition TMPFS_MAX_NAME_LEN : nat := 255.
Definition TMPFS_MAX_DIRS : nat := 32.
Definition S_IFDIR : Z := 0x4000.
Definition S_IFREG : Z := 0x8000.
Definition DT_DIR : Z := 4.
Definition DT_REG : Z := 8.
Definition EXDEV : Z := 18.
Definition ENODEV : Z := 19.

Record tmpfs_inode := Inode {
  ino : Z; mode : Z; i_uid : Z; i_gid : Z; size : Z; data_cap : Z; is_dir : bool; name : list Z; data : option (list Z);
  parent : option nat; children : option nat; sibling : option nat; mtime : Z
}.

Definition inode_zero : tmpfs_inode := Inode 0 0 0 0 0 0 false [] None None None None 0.

Record tmpfs_data := {
  root : option nat; inodes : list tmpfs_inode; next_ino : Z; total_size : Z; mount_point : list Z
}.

(** ** Field updates *)

Definition set_children (c : option nat) (n : tmpfs_inode) : tmpfs_inode :=
  Inode (ino n) (mode n) (i_uid n) (i_gid n) (size n) (data_cap n) (is_dir n) (name n) (data n) (parent n) c (sibling n) (mtime n).
Definition set_sibling (c : option nat) (n : tmpfs_inode) : tmpfs_inode :=
  Inode (ino n) (mode n) (i_uid n) (i_gid n) (size n) (data_cap n) (is_dir n) (name n) (data n) (parent n) (children n) c (mtime n).
Definition set_content (s cap : Z) (d : option (list Z)) (now : Z) (n : tmpfs_inode) : tmpfs_inode :=
  Inode (ino n) (mode n) (i_uid n) (i_gid n) s cap (is_dir n) (name n) d (parent n) (children n) (sibling n) now.
Definition set_mode (m : Z) (n : tmpfs_inode) : tmpfs_inode :=
  Inode (ino n) m (i_uid n) (i_gid n) (size n) (data_cap n) (is_dir n) (name n) (data n) (parent n) (children n) (sibling n) (mtime n).
Definition set_owner (u g now : Z) (n : tmpfs_inode) : tmpfs_inode :=
  Inode (ino n) (mode n) u g (size n) (data_cap n) (is_dir n) (name n) (data n) (parent n) (children n) (sibling n) now.

Definition set_inodes (l : list tmpfs_inode) (t : tmpfs_data) : tmpfs_data :=
  {| root := root t; inodes := l; next_ino := next_ino t; total_size := total_size t; mount_point := mount_point t |}.
Definition set_total (z : Z) (t : tmpfs_data) : tmpfs_data :=
  {| root := root t; inodes := inodes t; next_ino := next_ino t; total_size := z; mount_point := mount_point t |}.

Definition load (t : tmpfs_data) (i : nat) : outcome tmpfs_inode := or_ub (inodes t !! i).
Definition put (t : tmpfs_data) (i : nat) (n : tmpfs_inode) : tmpfs_data := set_inodes (<[i := n]> (inodes t)) t.

(** ** Strings *)

Definition prefix_of (p s : list Z) : bool := bool_decide (take (length p) s = p).
Fixpoint skip_slashes (s : list Z) : list Z :=
  match s with c :: s' => if decide (c = SLASH) then skip_slashes s' else s | [] => [] end.

(** ** Instances and paths *)

Definition tmpfs_get_instance (l : list tmpfs_data) (mp : list Z) : option nat :=
  find_from (fun i => match l !! i with Some t => bool_decide (mount_point t = mp) | None => false end) 0 (length l).

Definition path_on (path mp : list Z) : bool :=
  prefix_of mp path && (match drop (length mp) path with [] => true | c :: _ => bool_decide (c = SLASH) end).

Definition tmpfs_get_instance_for_path (l : list tmpfs_data) (path : list Z) : option nat :=
  find_from (fun i => match l !! i with Some t => path_on path (mount_point t) | None => false end) 0 (length l).

Definition tmpfs_get_relative_path (full mp : list Z) : option (list Z) :=
  if negb (prefix_of mp full) then None else
  let rel := skip_slashes (drop (length mp) full) in
  Some (match rel with [] => [SLASH] | _ => rel end).

(** ** Inodes *)

Definition tmpfs_alloc_inode (t : tmpfs_data) (now : Z) : tmpfs_data * option nat :=
  match find_from (fun i => match inodes t !! i with Some n => bool_decide (ino n = 0) | None => false end) 0 TMPFS_MAX_FILES with
  | None => (t, None)
  | Some i =>
      let k := u32 (next_ino t + 1) in
      ({| root := root t; inodes := <[i := Inode k 0 0 0 0 0 false [] None None None None now]> (inodes t);
          next_ino := k; total_size := total_size t; mount_point := mount_point t |}, Some i)
  end.

(** [while (child && child != inode)]: the last node before [inode], and
    whether it was found. *)
Fixpoint find_prev (fuel : nat) (t : tmpfs_data) (prev child : option nat) (i : nat) : outcome (option nat * bool) :=
  match fuel with
  | O => UB
  | S f =>
      match child with
      | None => Ok (prev, false)
      | Some c => if decide (c = i) then Ok (prev, true) else n ← load t c; find_prev f t (Some c) (sibling n) i
      end
  end.

Definition unlink_inode (t : tmpfs_data) (i : nat) : outcome tmpfs_data :=
  n ← load t i;
  match parent n with
  | None => Ok t
  | Some p =>
      pn ← load t p;
      '(prev, found) ← find_prev (S TMPFS_MAX_FILES) t None (children pn) i;
      if found : bool then
        match prev with
        | Some q => qn ← load t q; Ok (put t q (set_sibling (sibling n) qn))
        | None => Ok (put t p (set_children (sibling n) pn))
        end
      else Ok t
  end.

(** Free an inode and its subtree; [fuel] bounds the depth of the recursion
    and the table size the length of a child list. *)
Fixpoint tmpfs_free_inode (fuel : nat) (t : tmpfs_data) (i : nat) : outcome tmpfs_data :=
  match fuel with
  | O => UB
  | S f =>
      n ← load t i;
      let t := match data n with Some _ => set_total (u64 (total_size t - size n)) t | None => t end in
      t ← unlink_inode t i;
      n ← load t i;
      t ← (fix free_children (k : nat) (t : tmpfs_data) (child : option nat) : outcome tmpfs_data :=
             match k with
             | O => UB
             | S k' =>
                 match child with
                 | None => Ok t
                 | Some c => cn ← load t c; t ← tmpfs_free_inode f t c; free_children k' t (sibling cn)
                 end
             end) (S TMPFS_MAX_FILES) t (children n);
      Ok (put t i inode_zero)
  end.

(** Inode numbers grow from parent to child, so they bound the depth. *)
Definition free_fuel (t : tmpfs_data) : nat := S (Z.to_nat (next_ino t)).

(** [while (child)]: the child with that name. *)
Fixpoint find_child (fuel : nat) (t : tmpfs_data) (child : option nat) (token : list Z) : outcome (option nat) :=
  match fuel with
  | O => UB
  | S f =>
      match child with
      | None => Ok None
      | Some c => n ← load t c; if decide (name n = token) then Ok (Some c) else find_child f t (sibling n) token
      end
  end.

Fixpoint lookup_loop (fuel : nat) (t : tmpfs_data) (cur : nat) (token : list Z) : outcome (option nat) :=
  match fuel with
  | O => UB
  | S f =>
      match token with
      | [] => Ok (Some cur)
      | _ =>
          let '(comp, next) := break_slash token in
          n ← load t cur;
          if negb (is_dir n) then Ok None else
          found ← find_child (S TMPFS_MAX_FILES) t (children n) comp;
          match found with
          | None => Ok None
          | Some c =>
              match next with
              | None => Ok (Some c)
              | Some s => lookup_loop f t c (skip_slashes s)
              end
          end
      end
  end.

Definition tmpfs_lookup_inode (t : tmpfs_data) (rel : list Z) : outcome (option nat) :=
  if decide (rel = [SLASH] \/ rel = []) then Ok (root t) else
  let path_copy := take TMPFS_MAX_NAME_LEN rel in
  match root t with
  | None => UB
  | Some r => lookup_loop (S (length path_copy)) t r (skip_slashes path_copy)
  end.

(** The inode of a full path, with its instance. *)
Definition tmpfs_find_inode (l : list tmpfs_data) (path : list Z) : outcome (option (nat * nat)) :=
  match tmpfs_get_instance_for_path l path with
  | None => Ok None
  | Some m =>
      t ← or_ub (l !! m);
      match tmpfs_get_relative_path path (mount_point t) with
      | None => Ok None
      | Some rel => r ← tmpfs_lookup_inode t rel; Ok (match r with Some i => Some (m, i) | None => None end)
      end
  end.

(** ** Operations

    Each takes the list of mounted instances; [path] is [None] for NULL. *)

Definition update (l : list tmpfs_data) (m : nat) (t : tmpfs_data) : list tmpfs_data := <[m := t]> l.

Definition tmpfs_mount (l : list tmpfs_data) (dir_name : option (list Z)) (now : Z) (mem : bool) : outcome (list tmpfs_data * Z) :=
  match dir_name with
  | None => Ok (l, - EINVAL)
  | Some d =>
      match tmpfs_get_instance l d with
      | Some _ => Ok (l, 0)
      | None =>
          if decide (TMPFS_MAX_DIRS <= length l)%nat then Ok (l, - ENOSPC) else
          if negb mem then Panic "kmalloc: out of memory" else
          let t := {| root := None; inodes := replicate TMPFS_MAX_FILES inode_zero; next_ino := 0; total_size := 0;
                      mount_point := take 255 d |} in
          match tmpfs_alloc_inode t now with
          | (_, None) => Ok (l, - ENOMEM)
          | (t, Some r) =>
              n ← load t r;
              let n := Inode (ino n) (Z.lor S_IFDIR 0x1ED) ROOT_UID ROOT_GID (size n) (data_cap n) true [SLASH] (data n) None
                             (children n) (sibling n) (mtime n) in
              let t := put t r n in
              Ok (l ++ [{| root := Some r; inodes := inodes t; next_ino := 1; total_size := total_size t; mount_point := mount_point t |}], 0)
          end
      end
  end.

Definition tmpfs_umount (l : list tmpfs_data) (dir_name : option (list Z)) : outcome (list tmpfs_data * Z) :=
  match dir_name with
  | None => Ok (l, - EINVAL)
  | Some d =>
      match tmpfs_get_instance l d with
      | None => Ok (l, - ENOENT)
      | Some m =>
          t ← or_ub (l !! m);
          _ ← (match root t with None => Ok t | Some r => tmpfs_free_inode (free_fuel t) t r end);
          Ok (delete m l, 0)
      end
  end.

Definition tmpfs_is_available (l : list tmpfs_data) : bool := bool_decide (0 < length l)%nat.

Record tmpfs_stat_t := { st_ino : Z; st_mode : Z; st_size : Z; st_nlink : Z; st_uid : Z; st_gid : Z; st_mtime : Z }.

(** [have_buf] is [buf != NULL]; the result and what is stored in [buf]. *)
Definition tmpfs_stat (l : list tmpfs_data) (path : option (list Z)) (have_buf : bool) : outcome (Z * option tmpfs_stat_t) :=
  match path with
  | None => Ok (- EINVAL, None)
  | Some p =>
      if negb have_buf then Ok (- EINVAL, None) else
      r ← tmpfs_find_inode l p;
      match r with
      | None => Ok (- ENOENT, None)
      | Some (m, i) =>
          t ← or_ub (l !! m); n ← load t i;
          Ok (0, Some {| st_ino := ino n; st_mode := mode n; st_size := size n; st_nlink := 1; st_uid := i_uid n; st_gid := i_gid n; st_mtime := mtime n |})
      end
  end.

(** The parent path and the last component of a relative path. *)
Definition split_name (rel : list Z) : list Z * list Z :=
  let path_copy := take 255 rel in
  match break_last_slash path_copy with
  | None => ([SLASH], path_copy)
  | Some (a, b) => (match a with [] => [SLASH] | _ => a end, b)
  end.

(** Put [n] at the head of the child list of [p]. *)
Definition link_child (t : tmpfs_data) (i p : nat) (n : tmpfs_inode) : outcome tmpfs_data :=
  pn ← load t p;
  let t := put t i (Inode (ino n) (mode n) (i_uid n) (i_gid n) (size n) (data_cap n) (is_dir n) (name n) (data n)
                      (Some p) (children n) (children pn) (mtime n)) in
  pn ← load t p;
  Ok (put t p (set_children (Some i) pn)).

(** [tmpfs_mkdir] and [tmpfs_create_file] differ in the type they give the
    new inode. *)
Definition tmpfs_new (dir : bool) (l : list tmpfs_data) (path : option (list Z)) (md : Z) (current : option process_cred) (now : Z)
  : outcome (list tmpfs_data * Z) :=
  match path with
  | None => Ok (l, - EINVAL)
  | Some p =>
      match tmpfs_get_instance_for_path l p with
      | None => Ok (l, - ENODEV)
      | Some m =>
          t ← or_ub (l !! m);
          match tmpfs_get_relative_path p (mount_point t) with
          | None => Ok (l, - EINVAL)
          | Some rel =>
              r ← tmpfs_lookup_inode t rel;
              if decide (r <> None) then Ok (l, - EEXIST) else
              let '(parent_path, nm) := split_name rel in
              if decide (length nm = 0%nat \/ TMPFS_MAX_NAME_LEN < length nm)%nat then Ok (l, - EINVAL) else
              r ← tmpfs_lookup_inode t parent_path;
              match r with
              | None => Ok (l, - ENOENT)
              | Some pi =>
                  pn ← load t pi;
                  if negb (is_dir pn) then Ok (l, - ENOENT) else
                  match tmpfs_alloc_inode t now with
                  | (t, None) => Ok (update l m t, - ENOSPC)
                  | (t, Some i) =>
                      n ← load t i;
                      let cr := ir0_current_cred current in
                      let effective_mode := Z.land md (Z.lnot (umask cr)) in
                      let n := Inode (ino n) (Z.lor (if dir then S_IFDIR else S_IFREG) (Z.land effective_mode 0x1FF)) (euid cr) (egid cr)
                                 (size n) (data_cap n) dir (take TMPFS_MAX_NAME_LEN nm) (data n) (parent n) (children n) (sibling n) (mtime n) in
                      t ← link_child t i pi n;
                      Ok (update l m t, 0)
                  end
              end
          end
      end
  end.

Definition tmpfs_mkdir : list tmpfs_data -> option (list Z) -> Z -> option process_cred -> Z -> outcome (list tmpfs_data * Z) := tmpfs_new true.
Definition tmpfs_create_file : list tmpfs_data -> option (list Z) -> Z -> option process_cred -> Z -> outcome (list tmpfs_data * Z) := tmpfs_new false.

(** Bytes [off .. off + n) of a block. *)
Definition read_block (b : list Z) (off n : Z) : outcome (list Z) :=
  if decide (0 <= off /\ 0 <= n /\ off + n <= Z.of_nat (length b)) then Ok (take (Z.to_nat n) (drop (Z.to_nat off) b)) else UB.
(** Store [w] at [off]. *)
Definition write_block (b : list Z) (off : Z) (w : list Z) : outcome (list Z) :=
  if decide (0 <= off /\ off + Z.of_nat (length w) <= Z.of_nat (length b))
  then Ok (take (Z.to_nat off) b ++ w ++ drop (Z.to_nat off + length w) b) else UB.

(** The result, the bytes copied to [buf], and what is stored through
    [read_count] when it is stored. *)
Definition tmpfs_read_file (l : list tmpfs_data) (path : option (list Z)) (have_buf : bool) (count offset : Z) : outcome (Z * list Z * option Z) :=
  match path with
  | None => Ok (- EINVAL, [], None)
  | Some p =>
      if negb have_buf then Ok (- EINVAL, [], None) else
      r ← tmpfs_find_inode l p;
      match r with
      | None => Ok (- ENOENT, [], None)
      | Some (m, i) =>
          t ← or_ub (l !! m); n ← load t i;
          if is_dir n then Ok (- EISDIR, [], None) else
          if decide (offset < 0 \/ size n <= offset) then Ok (0, [], None) else
          let available := size n - offset in
          let to_read := if decide (count < available) then count else available in
          bytes ← (match data n with
                   | Some b => if decide (0 < to_read) then read_block b offset to_read else Ok []
                   | None => Ok []
                   end);
          Ok (0, bytes, Some to_read)
      end
  end.

(** The new block of a file that grows to [len] bytes: the old contents, then
    zeros.  Without an old block there must be no old contents. *)
Definition grown_block (n : tmpfs_inode) (len : Z) : outcome (list Z) :=
  old ← (match data n with Some b => read_block b 0 (size n) | None => if decide (size n = 0) then Ok [] else UB end);
  Ok (old ++ replicate (Z.to_nat (len - size n)) 0).

(** The result and what is stored through [written_count]. *)
Definition tmpfs_write_file (l : list tmpfs_data) (path : option (list Z)) (buf : option (list Z)) (offset now : Z) (mem : bool)
  : outcome (list tmpfs_data * Z * option Z) :=
  match path, buf with
  | Some p, Some w =>
      let count := Z.of_nat (length w) in
      if decide (offset < 0) then Ok (l, - EINVAL, None) else
      r ← tmpfs_find_inode l p;
      match r with
      | None => Ok (l, - ENOENT, None)
      | Some (m, i) =>
          t ← or_ub (l !! m); n ← load t i;
          if is_dir n then Ok (l, - EISDIR, None) else
          if decide (TMPFS_MAX_FILE_SIZE < offset \/ TMPFS_MAX_FILE_SIZE - offset < count) then Ok (l, - EFBIG, None) else
          let new_size := offset + count in
          grown ← (if decide (size n < new_size) then
                     if negb mem then Ok None else
                     b ← grown_block n new_size;
                     Ok (Some (set_content new_size new_size (Some b) (mtime n) n))
                   else Ok (Some n));
          match grown with
          | None => Ok (l, - ENOMEM, None)
          | Some n =>
              n ← (if decide (0 < count) then
                     b ← or_ub (data n); b ← write_block b offset w;
                     Ok (set_content (size n) (data_cap n) (Some b) now n)
                   else Ok n);
              Ok (update l m (put t i n), 0, Some count)
          end
      end
  | _, _ => Ok (l, - EINVAL, None)
  end.

Definition tmpfs_link (l : list tmpfs_data) (oldpath newpath : option (list Z)) (now : Z) (mem : bool) : outcome (list tmpfs_data * Z) :=
  match oldpath, newpath with
  | Some po, Some pn =>
      match tmpfs_get_instance_for_path l po with
      | None => Ok (l, - EXDEV)
      | Some m =>
          if decide (tmpfs_get_instance_for_path l pn <> Some m) then Ok (l, - EXDEV) else
          t ← or_ub (l !! m);
          match tmpfs_get_relative_path po (mount_point t), tmpfs_get_relative_path pn (mount_point t) with
          | Some old_rel, Some new_rel =>
              r ← tmpfs_lookup_inode t old_rel;
              match r with
              | None => Ok (l, - ENOENT)
              | Some si =>
                  src ← load t si;
                  if is_dir src then Ok (l, - EPERM) else
                  r ← tmpfs_lookup_inode t new_rel;
                  if decide (r <> None) then Ok (l, - EEXIST) else
                  let '(parent_path, nm) := split_name new_rel in
                  if decide (length nm = 0%nat \/ TMPFS_MAX_NAME_LEN < length nm)%nat then Ok (l, - EINVAL) else
                  r ← tmpfs_lookup_inode t parent_path;
                  match r with
                  | None => Ok (l, - ENOENT)
                  | Some pi =>
                      pnode ← load t pi;
                      if negb (is_dir pnode) then Ok (l, - ENOENT) else
                      match tmpfs_alloc_inode t now with
                      | (t, None) => Ok (update l m t, - ENOSPC)
                      | (t, Some i) =>
                          n ← load t i;
                          let n := Inode (ino n) (mode src) (i_uid src) (i_gid src) (size src) (data_cap src) false
                                     (take TMPFS_MAX_NAME_LEN nm) (data n) (parent n) (children n) (sibling n) (mtime src) in
                          t ← link_child t i pi n;
                          match data src with
                          | Some b =>
                              if decide (0 < size src) then
                                if negb mem then Panic "kmalloc: out of memory" else
                                c ← read_block b 0 (size src);
                                n ← load t i;
                                let t := put t i (set_content (size n) (data_cap n) (Some c) (mtime n) n) in
                                Ok (update l m (set_total (u64 (total_size t + size src)) t), 0)
                              else Ok (update l m t, 0)
                          | None => Ok (update l m t, 0)
                          end
                      end
                  end
              end
          | _, _ => Ok (l, - EINVAL)
          end
      end
  | _, _ => Ok (l, - EINVAL)
  end.

(** [tmpfs_unlink] and [tmpfs_rmdir]: what each refuses of the inode found. *)
Definition tmpfs_remove (refuse : tmpfs_data -> nat -> tmpfs_inode -> option Z) (l : list tmpfs_data) (path : option (list Z))
  : outcome (list tmpfs_data * Z) :=
  match path with
  | None => Ok (l, - EINVAL)
  | Some p =>
      match tmpfs_get_instance_for_path l p with
      | None => Ok (l, - ENODEV)
      | Some m =>
          t ← or_ub (l !! m);
          match tmpfs_get_relative_path p (mount_point t) with
          | None => Ok (l, - EINVAL)
          | Some rel =>
              r ← tmpfs_lookup_inode t rel;
              match r with
              | None => Ok (l, - ENOENT)
              | Some i =>
                  n ← load t i;
                  match refuse t i n with
                  | Some e => Ok (l, e)
                  | None => t ← tmpfs_free_inode (free_fuel t) t i; Ok (update l m t, 0)
                  end
              end
          end
      end
  end.

Definition tmpfs_unlink : list tmpfs_data -> option (list Z) -> outcome (list tmpfs_data * Z) :=
  tmpfs_remove (fun t i n =>
    if is_dir n then Some (- EISDIR) else if decide (root t = Some i) then Some (- EINVAL) else None).

Definition tmpfs_rmdir : list tmpfs_data -> option (list Z) -> outcome (list tmpfs_data * Z) :=
  tmpfs_remove (fun t i n =>
    if negb (is_dir n) then Some (- ENOTDIR) else if decide (root t = Some i) then Some (- EINVAL)
    else if decide (children n <> None) then Some (- ENOTEMPTY) else None).

(** The pattern of the operations that change one existing inode. *)
Definition with_inode (l : list tmpfs_data) (path : option (list Z)) (f : tmpfs_inode -> outcome (option tmpfs_inode * Z))
  : outcome (list tmpfs_data * Z) :=
  match path with
  | None => Ok (l, - EINVAL)
  | Some p =>
      r ← tmpfs_find_inode l p;
      match r with
      | None => Ok (l, - ENOENT)
      | Some (m, i) =>
          t ← or_ub (l !! m); n ← load t i;
          '(n', e) ← f n;
          Ok (match n' with Some n' => update l m (put t i n') | None => l end, e)
      end
  end.

Definition tmpfs_chmod (l : list tmpfs_data) (path : option (list Z)) (md : Z) : outcome (list tmpfs_data * Z) :=
  with_inode l path (fun n =>
    Ok (Some (set_mode (u16 (Z.lor (Z.land (mode n) (Z.lnot 0xFFF)) (Z.land md 0xFFF))) n), 0)).

(** [(uid_t)-1] is 0xFFFFFFFF. *)
Definition tmpfs_chown (l : list tmpfs_data) (path : option (list Z)) (owner group now : Z) : outcome (list tmpfs_data * Z) :=
  with_inode l path (fun n =>
    Ok (Some (set_owner (if decide (owner <> U32_MAX) then owner else i_uid n) (if decide (group <> U32_MAX) then group else i_gid n) now n), 0)).

Definition tmpfs_truncate (l : list tmpfs_data) (path : option (list Z)) (length now : Z) (mem : bool) : outcome (list tmpfs_data * Z) :=
  with_inode l path (fun n =>
    if is_dir n then Ok (None, - EISDIR) else
    if decide (TMPFS_MAX_FILE_SIZE < length) then Ok (None, - EFBIG) else
    if decide (length < size n) then Ok (Some (set_content length (data_cap n) (data n) now n), 0) else
    if decide (size n < length) then
      match data n with
      | Some b =>
          if decide (length <= data_cap n) then
            b ← write_block b (size n) (replicate (Z.to_nat (length - size n)) 0);
            Ok (Some (set_content length (data_cap n) (Some b) now n), 0)
          else if negb mem then Panic "kmalloc: out of memory"
          else b ← grown_block n length; Ok (Some (set_content length length (Some b) now n), 0)
      | None =>
          if negb mem then Panic "kmalloc: out of memory"
          else b ← grown_block n length; Ok (Some (set_content length length (Some b) now n), 0)
      end
    else Ok (Some (set_content (size n) (data_cap n) (data n) now n), 0)).

(** [while (child && count < max_entries)]. *)
Fixpoint readdir_loop (fuel : nat) (t : tmpfs_data) (child : option nat) (room : Z) : outcome (list (list Z * Z)) :=
  match fuel with
  | O => UB
  | S f =>
      match child with
      | None => Ok []
      | Some c =>
          if decide (0 < room) then
            n ← load t c;
            r ← readdir_loop f t (sibling n) (room - 1);
            Ok ((take 255 (name n), if is_dir n then DT_DIR else DT_REG) :: r)
          else Ok []
      end
  end.

Definition tmpfs_readdir (l : list tmpfs_data) (path : option (list Z)) (have_entries : bool) (max_entries : Z)
  : outcome (Z * list (list Z * Z)) :=
  match path with
  | None => Ok (- EINVAL, [])
  | Some p =>
      if decide (have_entries = false \/ max_entries <= 0) then Ok (- EINVAL, []) else
      r ← tmpfs_find_inode l p;
      match r with
      | None => Ok (- ENOENT, [])
      | Some (m, i) =>
          t ← or_ub (l !! m); n ← load t i;
          if negb (is_dir n) then Ok (- ENOTDIR, []) else
          let dots := take (Z.to_nat max_entries) [([46], DT_DIR); ([46; 46], DT_DIR)] in
          r ← readdir_loop (S TMPFS_MAX_FILES) t (children n) (max_entries - Z.of_nat (length dots));
          Ok (Z.of_nat (length (dots ++ r)), dots ++ r)
      end
  end.
