(* ===== verification/TmpfsTree.v ===== *)
(** * The tree behind a tmpfs instance

    The invariant of the inode table, in two layers.  The core of an inode is
    everything but its list pointers; the cores alone decide which paths exist
    ([path_to]), and three transitions of the cores (add a leaf, remove a leaf,
    change an inode in place) account for every operation.  The child lists are
    a chain of pointers through [children] and [sibling] that holds exactly the
    inodes whose [parent] is the directory. *)

From S2P Require Import Prelude Bytes Perm Tmpfs.

Lemma load_lookup t i n : inodes t !! i = Some n -> load t i = Ok n.
Proof. unfold load. by intros ->. Qed.

(** ** Cores *)

Definition strip (n : tmpfs_inode) : tmpfs_inode := set_children None (set_sibling None n).
Definition cores (t : tmpfs_data) (j : nat) : option tmpfs_inode := strip <$> inodes t !! j.

(** The inode in slot [j] is in use. *)
Definition lv (f : nat -> option tmpfs_inode) (j : nat) (n : tmpfs_inode) : Prop := f j = Some n /\ ino n <> 0.

Definition name_ok (s : list Z) : Prop := s <> [] /\ Forall (fun c => c <> SLASH) s /\ (length s <= 255)%nat.

Definition file_ok (n : tmpfs_inode) : Prop :=
  0 <= size n <= TMPFS_MAX_FILE_SIZE /\
  match data n with None => size n = 0 | Some b => size n <= Z.of_nat (length b) /\ data_cap n <= Z.of_nat (length b) end.

Record core_ok (f : nat -> option tmpfs_inode) (r : nat) (next : Z) : Prop := {
  co_range j n : f j = Some n -> (j < TMPFS_MAX_FILES)%nat;
  co_full j : (j < TMPFS_MAX_FILES)%nat -> is_Some (f j);
  co_dead j n : f j = Some n -> ino n = 0 -> n = inode_zero;
  co_root : exists n, lv f r n /\ is_dir n = true /\ parent n = None;
  co_orphan j n : lv f j n -> parent n = None -> j = r;
  co_parent j n p : lv f j n -> parent n = Some p -> exists pn, lv f p pn /\ is_dir pn = true /\ ino pn < ino n;
  co_name j n p : lv f j n -> parent n = Some p -> name_ok (name n);
  co_uniq j j' n n' : lv f j n -> lv f j' n' -> parent n = parent n' -> name n = name n' -> j = j';
  co_ino j n : lv f j n -> 0 < ino n <= next;
  co_inos j j' n n' : lv f j n -> lv f j' n' -> ino n = ino n' -> j = j';
  co_file j n : lv f j n -> is_dir n = false -> file_ok n;
  co_dir j n : lv f j n -> is_dir n = true -> data n = None /\ size n = 0;
  co_next : next < 2 ^ 32
}.

(** ** Paths *)

Inductive path_to (f : nat -> option tmpfs_inode) (r : nat) : nat -> list (list Z) -> Prop :=
| path_root : path_to f r r []
| path_step p x j n : path_to f r p x -> lv f j n -> parent n = Some p -> path_to f r j (x ++ [name n]).

Section core.
Context (f : nat -> option tmpfs_inode) (r : nat) (next : Z) (Hok : core_ok f r next).

Lemma lv_fun j n n' : lv f j n -> lv f j n' -> n = n'.
Proof. intros [H _] [H' _]. congruence. Qed.

Lemma path_live j x : path_to f r j x -> exists n, lv f j n.
Proof using Hok. intros H. destruct H as [|p x j n _ Hn _]; [|eauto]. destruct (co_root _ _ _ Hok) as (n & Hn & _). eauto. Qed.

Lemma path_to_root x : path_to f r r x -> x = [].
Proof using Hok.
  intros H. remember r as j eqn:E in H at 2. destruct H as [|p x j n _ Hn Hp]; [done|]. subst j.
  destruct (co_root _ _ _ Hok) as (n' & Hn' & _ & Hp'). rewrite (lv_fun _ _ _ Hn Hn') in Hp. congruence.
Qed.

(** A live inode is at one path, and a path leads to one inode. *)
Lemma path_unique j x y : path_to f r j x -> path_to f r j y -> x = y.
Proof using Hok.
  intros H. revert y. induction H as [|p x j n Hp IH Hn Hpar]; intros y Hy; [symmetry; by apply path_to_root|].
  inversion Hy as [|p' y' j' n' Hp' Hn' Hpar']; subst.
  - destruct (co_root _ _ _ Hok) as (n' & Hn' & _ & Hp'). rewrite (lv_fun _ _ _ Hn Hn') in Hpar. congruence.
  - rewrite (lv_fun _ _ _ Hn' Hn) in *. assert (p' = p) as -> by congruence. by rewrite (IH y').
Qed.

Lemma path_inj j j' x : path_to f r j x -> path_to f r j' x -> j = j'.
Proof using Hok.
  intros H. revert j'. induction H as [|p x j n Hp IH Hn Hpar]; intros j' Hj'.
  - inversion Hj' as [|p y j n Hp Hn Hpar Ej E]; [done|]. by destruct y.
  - inversion Hj' as [Ej E|p' y j'' n' Hp' Hn' Hpar' Ej E]; [by destruct x|]. subst j''.
    apply app_inj_tail in E as [-> E]. assert (p = p') as -> by (by apply IH). apply (co_uniq _ _ _ Hok j j' n n'); congruence.
Qed.

(** Every live inode has a path: parents have smaller inode numbers. *)
Lemma path_exists j n : lv f j n -> exists x, path_to f r j x.
Proof using Hok.
  remember (Z.to_nat (ino n)) as k eqn:E. revert j n E. induction k as [k IH] using (well_founded_induction lt_wf). intros j n -> Hn.
  destruct (parent n) as [p|] eqn:Hp.
  - destruct (co_parent _ _ _ Hok j n p Hn Hp) as (pn & Hpn & _ & Hlt). pose proof (co_ino _ _ _ Hok p pn Hpn). 
    destruct (IH (Z.to_nat (ino pn)) ltac:(lia) p pn eq_refl Hpn) as [x Hx]. exists (x ++ [name n]). by apply (path_step _ _ p).
  - rewrite (co_orphan _ _ _ Hok j n Hn Hp). exists []. constructor.
Qed.

Lemma path_snoc_inv j x c : path_to f r j (x ++ [c]) -> exists p n, path_to f r p x /\ lv f j n /\ parent n = Some p /\ name n = c.
Proof.
  intros H. inversion H as [Ej E|p y j' n Hp Hn Hpar Ej E]; [by destruct x|]. subst j'. apply app_inj_tail in E as [-> <-]. eauto 8.
Qed.
End core.

(** ** Transitions of the cores *)

Definition fset (f : nat -> option tmpfs_inode) (i : nat) (n : tmpfs_inode) : nat -> option tmpfs_inode :=
  fun j => if decide (j = i) then Some n else f j.

Lemma lv_fset f i n j m : lv (fset f i n) j m <-> (j = i /\ m = n /\ ino n <> 0) \/ (j <> i /\ lv f j m).
Proof. unfold lv, fset. case_decide; naive_solver. Qed.

(** Add a leaf under the directory [p]. *)
Lemma core_add f r next i n p pn : core_ok f r next -> f i = Some inode_zero -> lv f p pn -> is_dir pn = true ->
  ino n = next + 1 -> next + 1 < 2 ^ 32 -> parent n = Some p -> name_ok (name n) ->
  (forall j m, lv f j m -> parent m = Some p -> name m <> name n) ->
  (if is_dir n then data n = None /\ size n = 0 else file_ok n) -> 0 < next ->
  core_ok (fset f i n) r (next + 1).
Proof.
  intros Hok Hi Hp Hd Hino Hnext Hpar Hname Hfresh Hcont Hpos.
  assert (Hnl : forall m, ~ lv f i m) by (intros m [E Hm]; rewrite Hi in E; injection E as <-; done).
  assert (Hne : forall j m, lv f j m -> j <> i) by (intros j m Hj ->; by eapply Hnl).
  assert (Hin : ino n <> 0) by lia.
  assert (Hlift : forall j m, lv f j m -> lv (fset f i n) j m) by (intros j m Hj; apply lv_fset; right; split; [by eapply Hne|done]).
  split.
  - intros j m. unfold fset. case_decide as E; [subst; intros _; by apply (co_range _ _ _ Hok i inode_zero)|apply Hok].
  - intros j Hj. unfold fset. case_decide; [eauto|by apply Hok].
  - intros j m. unfold fset. case_decide; [intros [= <-]; lia|apply Hok].
  - destruct (co_root _ _ _ Hok) as (m & Hm & ?). eauto.
  - intros j m Hj E. apply lv_fset in Hj as [(-> & -> & _)|[_ Hj]]; [congruence|by apply (co_orphan _ _ _ Hok j m)].
  - intros j m q Hj E. apply lv_fset in Hj as [(-> & -> & _)|[_ Hj]].
    + assert (q = p) as -> by congruence. exists pn. splits; auto. pose proof (co_ino _ _ _ Hok p pn Hp). lia.
    + destruct (co_parent _ _ _ Hok j m q Hj E) as (qn & Hq & ? & ?). eauto.
  - intros j m q Hj E. apply lv_fset in Hj as [(-> & -> & _)|[_ Hj]]; [done|by apply (co_name _ _ _ Hok j m q)].
  - intros j j' m m' Hj Hj' Ep En. apply lv_fset in Hj as [(-> & -> & _)|[Hji Hj]], Hj' as [(-> & -> & _)|[Hji' Hj']]; auto.
    + exfalso. apply (Hfresh j' m' Hj'); congruence.
    + exfalso. apply (Hfresh j m Hj); congruence.
    + by apply (co_uniq _ _ _ Hok j j' m m').
  - intros j m Hj. apply lv_fset in Hj as [(-> & -> & _)|[_ Hj]]; [lia|]. pose proof (co_ino _ _ _ Hok j m Hj). lia.
  - intros j j' m m' Hj Hj' E. apply lv_fset in Hj as [(-> & -> & _)|[Hji Hj]], Hj' as [(-> & -> & _)|[Hji' Hj']]; auto.
    + pose proof (co_ino _ _ _ Hok j' m' Hj'). lia.
    + pose proof (co_ino _ _ _ Hok j m Hj). lia.
    + by apply (co_inos _ _ _ Hok j j' m m').
  - intros j m Hj E. apply lv_fset in Hj as [(-> & -> & _)|[_ Hj]]; [by rewrite E in Hcont|by apply (co_file _ _ _ Hok j m)].
  - intros j m Hj E. apply lv_fset in Hj as [(-> & -> & _)|[_ Hj]]; [by rewrite E in Hcont|by apply (co_dir _ _ _ Hok j m)].
  - lia.
Qed.

Lemma path_add f r next i n p x : core_ok f r next -> f i = Some inode_zero -> path_to f r p x -> parent n = Some p -> ino n <> 0 ->
  forall j y, path_to (fset f i n) r j y <-> path_to f r j y \/ (j = i /\ y = x ++ [name n]).
Proof.
  intros Hok Hi Hp Hpar Hin j y.
  assert (Hnl : forall m, ~ lv f i m) by (intros m [E Hm]; rewrite Hi in E; injection E as <-; done).
  assert (Hni : forall z, ~ path_to f r i z) by (intros z Hz; destruct (path_live f r next Hok i z Hz) as [m Hm]; by eapply Hnl).
  assert (Hlift : forall j y, path_to f r j y -> path_to (fset f i n) r j y).
  { intros j0 y0 H. induction H as [|q z j0 m _ IH Hm Hq]; [constructor|]. apply (path_step _ _ q); auto. apply lv_fset. right. split; [|done].
    intros ->. by eapply Hnl. }
  split.
  - intros H. induction H as [|q z j m _ IH Hm Hq]; [left; constructor|]. apply lv_fset in Hm as [(-> & -> & _)|[Hj Hm]].
    + right. split; [done|]. assert (q = p) as -> by congruence. destruct IH as [IH|[-> _]]; [by rewrite (path_unique f r next Hok p z x)|].
      exfalso. by eapply Hni.
    + destruct IH as [IH|[-> _]]; [left; by apply (path_step _ _ q)|].
      destruct (co_parent _ _ _ Hok j m i Hm Hq) as (qn & Hqn & _). exfalso. by eapply Hnl.
  - intros [H|[-> ->]]; [by apply Hlift|]. apply (path_step _ _ p); [by apply Hlift|apply lv_fset; auto|done].
Qed.

(** Remove a leaf. *)
Lemma core_remove f r next i : core_ok f r next -> (i < TMPFS_MAX_FILES)%nat -> i <> r ->
  (forall j m, lv f j m -> parent m <> Some i) -> core_ok (fset f i inode_zero) r next.
Proof.
  intros Hok Hi Hr Hleaf.
  assert (Hl : forall j m, lv (fset f i inode_zero) j m <-> j <> i /\ lv f j m) by (intros j m; rewrite lv_fset; cbn; intuition).
  split.
  - intros j m. unfold fset. case_decide; [by subst|apply Hok].
  - intros j Hj. unfold fset. case_decide; [eauto|by apply Hok].
  - intros j m. unfold fset. case_decide; [by intros [= <-]|apply Hok].
  - destruct (co_root _ _ _ Hok) as (m & Hm & ?). exists m. split; [apply Hl; auto|done].
  - intros j m Hj. apply Hl in Hj as [_ Hj]. by apply (co_orphan _ _ _ Hok j m).
  - intros j m q Hj E. apply Hl in Hj as [_ Hj]. destruct (co_parent _ _ _ Hok j m q Hj E) as (qn & Hq & ? & ?). exists qn.
    split; [|done]. apply Hl. split; [|done]. intros ->. by apply (Hleaf j m).
  - intros j m q Hj. apply Hl in Hj as [_ Hj]. by apply (co_name _ _ _ Hok j m q).
  - intros j j' m m' Hj Hj'. apply Hl in Hj as [_ Hj], Hj' as [_ Hj']. by apply (co_uniq _ _ _ Hok j j' m m').
  - intros j m Hj. apply Hl in Hj as [_ Hj]. by apply (co_ino _ _ _ Hok j m).
  - intros j j' m m' Hj Hj'. apply Hl in Hj as [_ Hj], Hj' as [_ Hj']. by apply (co_inos _ _ _ Hok j j' m m').
  - intros j m Hj. apply Hl in Hj as [_ Hj]. by apply (co_file _ _ _ Hok j m).
  - intros j m Hj. apply Hl in Hj as [_ Hj]. by apply (co_dir _ _ _ Hok j m).
  - apply Hok.
Qed.

Lemma path_remove f r next i : core_ok f r next -> i <> r -> (forall j m, lv f j m -> parent m <> Some i) ->
  forall j y, path_to (fset f i inode_zero) r j y <-> path_to f r j y /\ j <> i.
Proof.
  intros Hok Hr Hleaf j y. split.
  - intros H. induction H as [|q z j m _ IH Hm Hq]; [split; [constructor|done]|].
    apply lv_fset in Hm as [(-> & -> & ?)|[Hj Hm]]; [done|]. split; [|done]. apply (path_step _ _ q); tauto.
  - intros [H Hj]. induction H as [|q z j m Hq IH Hm Hpar]; [constructor|]. apply (path_step _ _ q); auto.
    + apply IH. intros ->. by apply (Hleaf j m).
    + apply lv_fset. auto.
Qed.

(** Change an inode in place. *)
Lemma core_update f r next i n n' : core_ok f r next -> lv f i n -> ino n' = ino n -> parent n' = parent n -> name n' = name n ->
  is_dir n' = is_dir n -> (if is_dir n then data n' = None /\ size n' = 0 else file_ok n') -> core_ok (fset f i n') r next.
Proof.
  intros Hok Hi Ei Ep En Ed Hc.
  (* the inode that was at [j] has the same identity *)
  assert (Hback : forall j m, lv (fset f i n') j m -> exists m0, lv f j m0 /\ ino m = ino m0 /\ parent m = parent m0 /\ name m = name m0 /\
      is_dir m = is_dir m0 /\ (is_dir m0 = false -> file_ok m) /\ (is_dir m0 = true -> data m = None /\ size m = 0)).
  { intros j m Hj. apply lv_fset in Hj as [(-> & -> & _)|[_ Hj]].
    - exists n. splits; auto; intros E; by rewrite E in Hc.
    - exists m. splits; auto; [by apply (co_file _ _ _ Hok j)|by apply (co_dir _ _ _ Hok j)]. }
  assert (Hfwd : forall j m, lv f j m -> exists m', lv (fset f i n') j m' /\ ino m' = ino m /\ parent m' = parent m /\ is_dir m' = is_dir m).
  { intros j m Hj. destruct (decide (j = i)) as [->|Hne].
    - exists n'. rewrite (lv_fun f _ _ _ Hj Hi). splits; auto. apply lv_fset. left. splits; auto. rewrite Ei. apply Hi.
    - exists m. splits; auto. apply lv_fset. auto. }
  split.
  - intros j m. unfold fset. case_decide; [subst; intros _; apply (co_range _ _ _ Hok i n); apply Hi|apply Hok].
  - intros j Hj. unfold fset. case_decide; [eauto|by apply Hok].
  - intros j m. unfold fset. case_decide; [intros [= <-] E; destruct Hi; congruence|apply Hok].
  - destruct (co_root _ _ _ Hok) as (m & Hm & Hd & Hp). destruct (Hfwd r m Hm) as (m' & Hm' & _ & E1 & E2). exists m'. splits; auto; congruence.
  - intros j m Hj E. destruct (Hback j m Hj) as (m0 & Hm0 & _ & Ep0 & _). apply (co_orphan _ _ _ Hok j m0); congruence.
  - intros j m q Hj E. destruct (Hback j m Hj) as (m0 & Hm0 & Ei0 & Ep0 & _). destruct (co_parent _ _ _ Hok j m0 q Hm0 ltac:(congruence)) as (qn & Hq & Hd & Hlt).
    destruct (Hfwd q qn Hq) as (q' & Hq' & E1 & _ & E2). exists q'. splits; auto; [congruence|lia].
  - intros j m q Hj E. destruct (Hback j m Hj) as (m0 & Hm0 & _ & Ep0 & En0 & _). rewrite En0. apply (co_name _ _ _ Hok j m0 q); congruence.
  - intros j j' m m' Hj Hj' E1 E2. destruct (Hback j m Hj) as (m0 & Hm0 & _ & Ep0 & En0 & _), (Hback j' m' Hj') as (m1 & Hm1 & _ & Ep1 & En1 & _).
    apply (co_uniq _ _ _ Hok j j' m0 m1); congruence.
  - intros j m Hj. destruct (Hback j m Hj) as (m0 & Hm0 & -> & _). by apply (co_ino _ _ _ Hok j).
  - intros j j' m m' Hj Hj' E1. destruct (Hback j m Hj) as (m0 & Hm0 & Ei0 & _), (Hback j' m' Hj') as (m1 & Hm1 & Ei1 & _).
    apply (co_inos _ _ _ Hok j j' m0 m1); congruence.
  - intros j m Hj E. destruct (Hback j m Hj) as (m0 & Hm0 & _ & _ & _ & Ed0 & Hf & _). apply Hf. congruence.
  - intros j m Hj E. destruct (Hback j m Hj) as (m0 & Hm0 & _ & _ & _ & Ed0 & _ & Hf). apply Hf. congruence.
  - apply Hok.
Qed.

Lemma path_update f r i n n' : lv f i n -> ino n' = ino n -> parent n' = parent n -> name n' = name n ->
  forall j y, path_to (fset f i n') r j y <-> path_to f r j y.
Proof.
  intros Hi Ei Ep En j y. split; intros H.
  - induction H as [|q z j m _ IH Hm Hq]; [constructor|]. apply lv_fset in Hm as [(-> & -> & _)|[_ Hm]]; [|by apply (path_step _ _ q)].
    rewrite En. apply (path_step _ _ q); congruence.
  - induction H as [|q z j m _ IH Hm Hq]; [constructor|]. destruct (decide (j = i)) as [->|Hne].
    + rewrite (lv_fun f _ _ _ Hm Hi), <- En. apply (path_step _ _ q); auto; [|rewrite Ep, <- (lv_fun f _ _ _ Hm Hi); done].
      apply lv_fset. left. splits; auto. rewrite Ei. apply Hi.
    + apply (path_step _ _ q); auto. apply lv_fset. auto.
Qed.

(** Cores that agree everywhere have the same paths. *)
Lemma path_ext f g r : (forall j, f j = g j) -> forall j y, path_to f r j y -> path_to g r j y.
Proof. intros E j y H. induction H as [|q z j m _ IH Hm Hq]; [constructor|]. apply (path_step _ _ q); auto. destruct Hm. split; [by rewrite <- E|done]. Qed.

Lemma core_ok_ext f g r next : (forall j, f j = g j) -> core_ok f r next -> core_ok g r next.
Proof.
  intros E Hok. assert (Hl : forall j n, lv g j n <-> lv f j n) by (intros j n; unfold lv; by rewrite E).
  split.
  - intros j n. rewrite <- E. apply Hok.
  - intros j. rewrite <- E. apply Hok.
  - intros j n. rewrite <- E. apply Hok.
  - destruct (co_root _ _ _ Hok) as (n & Hn & ?). exists n. by rewrite Hl.
  - intros j n. rewrite Hl. apply Hok.
  - intros j n p. rewrite Hl. intros H1 H2. destruct (co_parent _ _ _ Hok j n p H1 H2) as (pn & ?). exists pn. by rewrite Hl.
  - intros j n p. rewrite Hl. apply Hok.
  - intros j j' n n'. rewrite !Hl. apply Hok.
  - intros j n. rewrite Hl. apply Hok.
  - intros j j' n n'. rewrite !Hl. apply Hok.
  - intros j n. rewrite Hl. apply Hok.
  - intros j n. rewrite Hl. apply Hok.
  - apply Hok.
Qed.

(** ** Child lists *)

Fixpoint chain (t : tmpfs_data) (c : option nat) (ks : list nat) : Prop :=
  match ks with
  | [] => c = None
  | k :: ks' => c = Some k /\ exists n, inodes t !! k = Some n /\ chain t (sibling n) ks'
  end.

Record fs_ok (t : tmpfs_data) (r : nat) (kids : nat -> list nat) : Prop := {
  fs_root : root t = Some r;
  fs_core : core_ok (cores t) r (next_ino t);
  fs_dead i n : inodes t !! i = Some n -> ino n = 0 -> n = inode_zero;
  fs_chain i n : inodes t !! i = Some n -> ino n <> 0 -> chain t (children n) (kids i);
  fs_nodup i : NoDup (kids i);
  fs_kids i j : j ∈ kids i <-> exists n, lv (cores t) j n /\ parent n = Some i
}.

Definition tmpfs_inv (t : tmpfs_data) : Prop := exists r kids, fs_ok t r kids.

Lemma lv_cores t j n : inodes t !! j = Some n -> ino n <> 0 -> lv (cores t) j (strip n).
Proof. intros H Hn. split; [|done]. unfold cores. by rewrite H. Qed.

Lemma cores_lookup t j n : cores t j = Some n -> exists m, inodes t !! j = Some m /\ n = strip m.
Proof. unfold cores. destruct (inodes t !! j) as [m|]; [|done]. intros [= <-]. eauto. Qed.

Lemma cores_put t i n j : (i < length (inodes t))%nat -> cores (put t i n) j = fset (cores t) i (strip n) j.
Proof.
  intros Hi. unfold cores, put, fset, set_inodes. cbn [inodes]. case_decide as E; [subst; by rewrite list_lookup_insert_eq|].
  by rewrite list_lookup_insert_ne.
Qed.

(** Changing list pointers leaves the cores alone. *)
Lemma cores_put_links t i n n' j : inodes t !! i = Some n -> strip n' = strip n -> cores (put t i n') j = cores t j.
Proof.
  intros Hi E. rewrite cores_put by (by eapply lookup_lt_Some). unfold fset. case_decide as Ej; [|done]. subst. unfold cores. by rewrite Hi, E.
Qed.

Section fs.
Context (t : tmpfs_data) (r : nat) (kids : nat -> list nat) (Hok : fs_ok t r kids).

Lemma fs_length : length (inodes t) = TMPFS_MAX_FILES.
Proof using Hok.
  apply Nat.le_antisymm.
  - destruct (decide (length (inodes t) <= TMPFS_MAX_FILES)%nat) as [|H]; [done|].
    destruct (inodes t !! TMPFS_MAX_FILES) as [n|] eqn:E; [|apply lookup_ge_None in E; lia].
    assert (cores t TMPFS_MAX_FILES = Some (strip n)) as Hc by (unfold cores; by rewrite E).
    apply (co_range _ _ _ (fs_core _ _ _ Hok)) in Hc. lia.
  - destruct (decide (length (inodes t) < TMPFS_MAX_FILES)%nat) as [H|]; [|lia].
    destruct (co_full _ _ _ (fs_core _ _ _ Hok) (length (inodes t)) H) as [n Hn]. unfold cores in Hn.
    rewrite (lookup_ge_None_2 _ (length (inodes t))) in Hn by lia. done.
Qed.

Lemma live_lookup j n : lv (cores t) j n -> exists m, inodes t !! j = Some m /\ n = strip m /\ ino m <> 0.
Proof. intros [H Hn]. destruct (cores_lookup t j n H) as (m & Hm & ->). eauto. Qed.

Lemma kids_live i j : j ∈ kids i -> exists n, inodes t !! j = Some n /\ ino n <> 0 /\ parent n = Some i.
Proof using Hok. intros H. apply (fs_kids _ _ _ Hok) in H as (n & Hn & Hp). destruct (live_lookup j n Hn) as (m & Hm & -> & ?). eauto. Qed.

Lemma kids_disjoint i i' j : j ∈ kids i -> j ∈ kids i' -> i = i'.
Proof using Hok. intros H H'. destruct (kids_live i j H) as (n & Hn & _ & Hp), (kids_live i' j H') as (n' & Hn' & _ & Hp'). congruence. Qed.

(** A child list is shorter than the table. *)
Lemma kids_length i : (length (kids i) <= TMPFS_MAX_FILES)%nat.
Proof using Hok.
  rewrite <- (length_seq TMPFS_MAX_FILES 0). apply submseteq_length. apply NoDup_submseteq; [apply Hok|].
  intros j Hj. destruct (kids_live i j Hj) as (n & Hn & _). apply elem_of_seq. pose proof (lookup_lt_Some _ _ _ Hn). rewrite fs_length in *. lia.
Qed.

Lemma kids_names i j j' n n' : j ∈ kids i -> j' ∈ kids i -> inodes t !! j = Some n -> inodes t !! j' = Some n' -> name n = name n' -> j = j'.
Proof using Hok.
  intros Hj Hj' Hn Hn' E. destruct (kids_live i j Hj) as (m & Hm & Hm0 & Hp), (kids_live i j' Hj') as (m' & Hm' & Hm0' & Hp').
  assert (m = n) as -> by congruence. assert (m' = n') as -> by congruence.
  apply (co_uniq _ _ _ (fs_core _ _ _ Hok) j j' (strip n) (strip n')); [by apply lv_cores|by apply lv_cores|cbn; congruence|done].
Qed.

Lemma kids_file i n : inodes t !! i = Some n -> is_dir n = false -> kids i = [].
Proof using Hok.
  intros Hi Hd. destruct (kids i) as [|j ks] eqn:E; [done|]. assert (Hj : j ∈ kids i) by (rewrite E; by left).
  apply (fs_kids _ _ _ Hok) in Hj as (m & Hm & Hp). destruct (co_parent _ _ _ (fs_core _ _ _ Hok) j m i Hm Hp) as (pn & Hpn & Hpd & _).
  destruct (live_lookup i pn Hpn) as (m' & Hm' & -> & _). assert (m' = n) as -> by congruence. cbn in Hpd. congruence.
Qed.

(** Searching the list of a directory. *)
Lemma find_child_spec fuel c ks tok : chain t c ks -> (length ks < fuel)%nat ->
  (find_child fuel t c tok = Ok None /\ forall k n, k ∈ ks -> inodes t !! k = Some n -> name n <> tok) \/
  (exists k n, find_child fuel t c tok = Ok (Some k) /\ k ∈ ks /\ inodes t !! k = Some n /\ name n = tok).
Proof.
  revert fuel c. induction ks as [|k ks IH]; intros fuel c Hc Hf; (destruct fuel as [|fuel]; [cbn in Hf; lia|]); cbn [chain find_child] in *.
  - subst c. left. split; [done|]. intros k n Hk. by apply elem_of_nil in Hk.
  - destruct Hc as (-> & n & Hn & Hc). unfold load. rewrite Hn. cbn [or_ub mbind outcome_bind]. case_decide as E.
    + right. exists k, n. splits; auto. by left.
    + destruct (IH fuel (sibling n) Hc ltac:(cbn in Hf; lia)) as [[-> H]|(k' & n' & -> & Hk & ?)].
      * left. split; [done|]. intros k' n' Hk' Hn'. apply elem_of_cons in Hk' as [->|Hk']; [congruence|by apply (H k')].
      * right. exists k', n'. splits; tauto || (by right).
Qed.

Lemma readdir_loop_spec fuel c ks room : chain t c ks -> (length ks < fuel)%nat ->
  readdir_loop fuel t c room = Ok (take (Z.to_nat room) (omap (fun k => (fun n => (take 255 (name n), if is_dir n then DT_DIR else DT_REG)) <$> inodes t !! k) ks)).
Proof.
  revert fuel c room. induction ks as [|k ks IH]; intros fuel c room Hc Hf; (destruct fuel as [|fuel]; [cbn in Hf; lia|]); cbn [chain readdir_loop] in *.
  - subst c. by destruct (Z.to_nat room).
  - destruct Hc as (-> & n & Hn & Hc). case_decide as E.
    + unfold load. rewrite Hn. cbn [or_ub mbind outcome_bind]. rewrite IH by (auto; cbn in Hf; lia). cbn [mbind outcome_bind omap list_omap]. rewrite Hn. cbn [fmap option_fmap option_map].
      replace (Z.to_nat room) with (S (Z.to_nat (room - 1))) by lia. done.
    + replace (Z.to_nat room) with O by lia. by rewrite take_0.
Qed.

Lemma find_prev_spec fuel prev c ks1 i ks2 : chain t c (ks1 ++ i :: ks2) -> i ∉ ks1 -> (length ks1 < fuel)%nat ->
  find_prev fuel t prev c i = Ok (match last ks1 with Some q => Some q | None => prev end, true).
Proof.
  revert fuel prev c. induction ks1 as [|k ks IH]; intros fuel prev c Hc Hi Hf; (destruct fuel as [|fuel]; [cbn in Hf; lia|]); cbn [app chain find_prev] in *.
  - destruct Hc as (-> & _). by rewrite decide_True.
  - destruct Hc as (-> & n & Hn & Hc). apply not_elem_of_cons in Hi as [Hik Hi]. rewrite decide_False by done. unfold load. rewrite Hn. cbn [or_ub mbind outcome_bind].
    rewrite IH by (auto; cbn in Hf; lia). rewrite last_cons. by destruct (last ks).
Qed.
End fs.

Lemma chain_frame t t' c ks :
  (forall k n, k ∈ ks -> inodes t !! k = Some n -> exists n', inodes t' !! k = Some n' /\ sibling n' = sibling n) -> chain t c ks -> chain t' c ks.
Proof.
  revert c. induction ks as [|k ks IH]; intros c Hf Hc; [done|]. destruct Hc as (-> & n & Hn & Hc). split; [done|].
  destruct (Hf k n ltac:(by left) Hn) as (n' & Hn' & E). exists n'. split; [done|]. rewrite E. apply IH; [|done]. intros k' m Hk'. apply Hf. by right.
Qed.

Lemma chain_app t c ks1 i ks2 : chain t c (ks1 ++ i :: ks2) ->
  exists n, inodes t !! i = Some n /\ chain t (sibling n) ks2 /\ chain t (Some i) (i :: ks2).
Proof.
  revert c. induction ks1 as [|k ks IH]; intros c; cbn; [|intros (-> & n & Hn & Hc); by apply (IH (sibling n))].
  intros (-> & n & Hn & Hc). exists n. splits; auto. eauto.
Qed.

(** ** Adding a leaf *)

Definition kids_add (kids : nat -> list nat) (p i : nat) : nat -> list nat := fun q => if decide (q = p) then i :: kids q else kids q.

Lemma kids_dead t r kids i : fs_ok t r kids -> inodes t !! i = Some inode_zero -> kids i = [].
Proof.
  intros Hok Hi. apply (kids_file t r kids Hok i inode_zero Hi). done.
Qed.

Lemma dead_not_kid t r kids i q : fs_ok t r kids -> inodes t !! i = Some inode_zero -> i ∉ kids q.
Proof. intros Hok Hi Hin. destruct (kids_live t r kids Hok q i Hin) as (n & Hn & Hl & _). assert (n = inode_zero) as -> by congruence. done. Qed.

Lemma tmpfs_alloc_inode_spec t r kids now : fs_ok t r kids -> next_ino t + 1 < 2 ^ 32 ->
  (tmpfs_alloc_inode t now = (t, None) /\ forall j n, inodes t !! j = Some n -> ino n <> 0) \/
  exists i t', tmpfs_alloc_inode t now = (t', Some i) /\ inodes t !! i = Some inode_zero /\
    root t' = root t /\ inodes t' = <[i := Inode (next_ino t + 1) 0 0 0 0 0 false [] None None None None now]> (inodes t) /\
    next_ino t' = next_ino t + 1 /\ total_size t' = total_size t /\ mount_point t' = mount_point t.
Proof.
  intros Hok Hb. assert (Hn : 0 < next_ino t).
  { destruct (co_root _ _ _ (fs_core _ _ _ Hok)) as (n & Hn & _). pose proof (co_ino _ _ _ (fs_core _ _ _ Hok) r n Hn). lia. }
  unfold tmpfs_alloc_inode. destruct (find_from _ 0 TMPFS_MAX_FILES) as [i|] eqn:E.
  - right. apply find_from_Some in E as (_ & Hi & _). destruct (inodes t !! i) as [n|] eqn:Ei; [|done]. apply bool_decide_eq_true in Hi.
    exists i. eexists. split; [reflexivity|]. cbn. unfold u32. rewrite Z.mod_small by lia. splits; auto.
    by rewrite <- (fs_dead _ _ _ Hok i n Ei Hi).
  - left. split; [done|]. intros j n Hj Hz. rewrite find_from_None in E. specialize (E j). pose proof (lookup_lt_Some _ _ _ Hj) as Hl.
    rewrite (fs_length t r kids Hok) in Hl. rewrite Hj in E. specialize (E ltac:(lia)). apply bool_decide_eq_false in E. done.
Qed.

Lemma fs_add t t' r kids i p pn n :
  fs_ok t r kids -> inodes t !! i = Some inode_zero -> inodes t !! p = Some pn -> ino pn <> 0 -> is_dir pn = true ->
  ino n = next_ino t + 1 -> next_ino t + 1 < 2 ^ 32 -> name_ok (name n) -> parent n = Some p -> children n = None -> sibling n = children pn ->
  (forall k m, k ∈ kids p -> inodes t !! k = Some m -> name m <> name n) ->
  (if is_dir n then data n = None /\ size n = 0 else file_ok n) ->
  root t' = root t -> next_ino t' = next_ino t + 1 -> inodes t' = <[p := set_children (Some i) pn]> (<[i := n]> (inodes t)) ->
  fs_ok t' r (kids_add kids p i) /\ (forall j, cores t' j = fset (cores t) i (strip n) j).
Proof.
  intros Hok Hi Hp Hpl Hpd Hino Hb Hname Hpar Hch Hsib Hfresh Hcont Hroot Hnext Hino'.
  assert (Hpi : p <> i) by (intros ->; assert (pn = inode_zero) as -> by congruence; done).
  pose proof (lookup_lt_Some _ _ _ Hi) as Hil. pose proof (lookup_lt_Some _ _ _ Hp) as Hpl'.
  assert (Hin : ino n <> 0).
  { pose proof (co_root _ _ _ (fs_core _ _ _ Hok)) as (m & Hm & _). pose proof (co_ino _ _ _ (fs_core _ _ _ Hok) r m Hm). lia. }
  assert (Hlk : forall j, inodes t' !! j = if decide (j = p) then Some (set_children (Some i) pn) else if decide (j = i) then Some n else inodes t !! j).
  { intros j. rewrite Hino'. case_decide as E1; [subst; apply list_lookup_insert_eq; by rewrite length_insert|]. rewrite list_lookup_insert_ne by done.
    case_decide as E2; [subst; by apply list_lookup_insert_eq|by apply list_lookup_insert_ne]. }
  assert (Hcores : forall j, cores t' j = fset (cores t) i (strip n) j).
  { intros j. unfold cores, fset. rewrite Hlk. destruct (decide (j = p)) as [->|]; [rewrite decide_False by done; by rewrite Hp|]. by case_decide. }
  assert (Hsibs : forall k m, inodes t !! k = Some m -> k <> i -> exists m', inodes t' !! k = Some m' /\ sibling m' = sibling m).
  { intros k m Hk Hki. rewrite Hlk. case_decide as E; [subst; assert (m = pn) as -> by congruence; by eexists|]. rewrite decide_False by done. eauto. }
  pose proof (fs_core _ _ _ Hok) as Hcore. split; [|done]. split.
  - rewrite Hroot. apply Hok.
  - rewrite Hnext. apply (core_ok_ext (fset (cores t) i (strip n))); [done|].
    assert (Hpos : 0 < next_ino t) by (pose proof (co_ino _ _ _ Hcore p (strip pn) (lv_cores t p pn Hp Hpl)); lia).
    apply (core_add (cores t) r (next_ino t) i (strip n) p (strip pn)); auto.
    + unfold cores. by rewrite Hi.
    + by apply lv_cores.
    + intros j m Hm Hmp. destruct (live_lookup t j m Hm) as (m' & Hm' & -> & _). apply (Hfresh j m'); [|done]. apply (fs_kids _ _ _ Hok). eauto.
  - intros j m Hm Hz. rewrite Hlk in Hm. case_decide; [injection Hm as <-; done|]. case_decide; [congruence|by apply (fs_dead _ _ _ Hok j)].
  - intros j m Hm Hml. rewrite Hlk in Hm. unfold kids_add. destruct (decide (j = p)) as [->|Hjp].
    + injection Hm as <-. cbn [children set_children chain]. split; [done|]. exists n. rewrite Hlk, decide_False, decide_True by done. split; [done|].
      rewrite Hsib. apply (chain_frame t); [|by apply (fs_chain _ _ _ Hok p)]. intros k m Hk Hm. apply Hsibs; [done|]. intros ->.
      by apply (dead_not_kid t r kids i p Hok).
    + destruct (decide (j = i)) as [->|Hji].
      * injection Hm as <-. rewrite Hch, (kids_dead t r kids i Hok Hi). done.
      * apply (chain_frame t); [|by apply (fs_chain _ _ _ Hok j)]. intros k m' Hk Hm'. apply Hsibs; [done|]. intros ->.
        by apply (dead_not_kid t r kids i j Hok).
  - intros q. unfold kids_add. case_decide; [|apply Hok]. constructor; [by apply (dead_not_kid t r kids i q Hok)|apply Hok].
  - intros q j. assert (Hl : forall m, lv (cores t') j m <-> lv (fset (cores t) i (strip n)) j m) by (intros m; unfold lv; by rewrite Hcores).
    setoid_rewrite Hl. setoid_rewrite lv_fset. unfold kids_add. case_decide as Eq.
    + subst q. rewrite elem_of_cons, (fs_kids _ _ _ Hok p j). split.
      * intros [->|(m & Hm & E)]; [exists (strip n); split; [by left|done]|]. exists m. split; [right; split; [|done]|done].
        intros ->. destruct Hm as [Hm ?]. unfold cores in Hm. rewrite Hi in Hm. by injection Hm as <-.
      * intros (m & [(-> & -> & _)|[Hji Hm]] & E); [by left|right; eauto].
    + rewrite (fs_kids _ _ _ Hok q j). split.
      * intros (m & Hm & E). exists m. split; [right; split; [|done]|done]. intros ->. destruct Hm as [Hm ?]. unfold cores in Hm. rewrite Hi in Hm. by injection Hm as <-.
      * intros (m & [(-> & -> & _)|[Hji Hm]] & E); [cbn in E; congruence|eauto].
Qed.

(** ** Changing an inode in place *)

Lemma fs_update t r kids i n n' : fs_ok t r kids -> inodes t !! i = Some n -> ino n <> 0 ->
  ino n' = ino n -> parent n' = parent n -> name n' = name n -> is_dir n' = is_dir n -> children n' = children n -> sibling n' = sibling n ->
  (if is_dir n then data n' = None /\ size n' = 0 else file_ok n') ->
  fs_ok (put t i n') r kids /\ (forall j, cores (put t i n') j = fset (cores t) i (strip n') j).
Proof.
  intros Hok Hi Hl Ei Ep En Ed Ec Es Hc. pose proof (lookup_lt_Some _ _ _ Hi) as Hil.
  assert (Hcores : forall j, cores (put t i n') j = fset (cores t) i (strip n') j) by (intros; by apply cores_put).
  assert (Hlk : forall j, inodes (put t i n') !! j = if decide (j = i) then Some n' else inodes t !! j).
  { intros j. cbn. case_decide; [subst; by apply list_lookup_insert_eq|by apply list_lookup_insert_ne]. }
  assert (Hch : forall c ks, chain t c ks -> chain (put t i n') c ks).
  { intros c ks. apply chain_frame. intros k m _ Hk. rewrite Hlk. case_decide as E; [|eauto]. subst. exists n'. split; [done|congruence]. }
  split; [|done]. split.
  - apply Hok.
  - apply (core_ok_ext (fset (cores t) i (strip n'))); [done|]. apply (core_update _ _ _ i (strip n)); auto; [apply Hok|by apply lv_cores].
  - intros j m Hm Hz. rewrite Hlk in Hm. case_decide; [congruence|by apply (fs_dead _ _ _ Hok j)].
  - intros j m Hm Hml. rewrite Hlk in Hm. apply Hch. case_decide as E; [rewrite E in *; injection Hm as <-; rewrite Ec|]; by eapply (fs_chain _ _ _ Hok).
  - apply Hok.
  - intros q j. assert (Hl' : forall m, lv (cores (put t i n')) j m <-> lv (fset (cores t) i (strip n')) j m) by (intros m; unfold lv; by rewrite Hcores).
    setoid_rewrite Hl'. setoid_rewrite lv_fset. rewrite (fs_kids _ _ _ Hok q j). split.
    + intros (m & Hm & E). destruct (decide (j = i)) as [->|Hj]; [|eauto 6]. exists (strip n'). split; [left; cbn; split; [done|split; [done|congruence]]|].
      cbn. rewrite Ep. destruct Hm as [Hm _]. unfold cores in Hm. rewrite Hi in Hm. by injection Hm as <-.
    + intros (m & [(-> & -> & _)|[_ Hm]] & E); [|eauto]. exists (strip n). split; [by apply lv_cores|]. cbn in *. congruence.
Qed.

(** ** Removing a leaf *)

Definition kids_del (kids : nat -> list nat) (p i : nat) : nat -> list nat :=
  fun q => if decide (q = p) then filter (fun k => k <> i) (kids q) else kids q.

Lemma filter_not_in (l : list nat) i : i ∉ l -> filter (fun k => k <> i) l = l.
Proof.
  induction l as [|k l IH]; [done|]. intros H. apply not_elem_of_cons in H as [Hk Hl]. rewrite filter_cons_True by done. by rewrite IH.
Qed.

Lemma filter_middle (l1 l2 : list nat) i : NoDup (l1 ++ i :: l2) -> filter (fun k => k <> i) (l1 ++ i :: l2) = l1 ++ l2.
Proof.
  intros H. apply NoDup_app in H as (_ & Hd & H2). apply NoDup_cons in H2 as [H2 _].
  rewrite filter_app, filter_cons_False by (intros E; by apply E). rewrite !filter_not_in; [done|done|]. intros Hi. apply (Hd i Hi). by left.
Qed.

(** The list without [i], after its predecessor's pointer has been redirected. *)
Lemma chain_bypass t t' c ks0 q i ks2 ni qn : chain t c (ks0 ++ q :: i :: ks2) -> NoDup (ks0 ++ q :: i :: ks2) ->
  inodes t !! i = Some ni -> inodes t !! q = Some qn -> inodes t' !! q = Some (set_sibling (sibling ni) qn) ->
  (forall k, k <> q -> inodes t' !! k = inodes t !! k) -> chain t' c (ks0 ++ q :: ks2).
Proof.
  intros Hc Hnd Hi Hq Hq' Hk. revert c Hc Hnd. induction ks0 as [|k ks IH]; intros c Hc Hnd; cbn [app chain] in *.
  - destruct Hc as (-> & n & Hn & _ & n' & Hn' & Hc). split; [done|]. exists (set_sibling (sibling ni) qn). split; [done|]. cbn.
    assert (n' = ni) as -> by congruence. apply (chain_frame t); [|done]. intros k m Hkin Hm. exists m. rewrite Hk; [done|].
    intros ->. apply NoDup_cons in Hnd as [Hnd _]. apply Hnd. by right.
  - destruct Hc as (-> & n & Hn & Hc). split; [done|]. apply NoDup_cons in Hnd as [Hnk Hnd]. exists n. split; [|by apply IH].
    rewrite Hk; [done|]. intros ->. apply Hnk. apply elem_of_app. right. by left.
Qed.

Lemma unlink_inode_spec t r kids i n p : fs_ok t r kids -> inodes t !! i = Some n -> ino n <> 0 -> parent n = Some p ->
  exists t', unlink_inode t i = Ok t' /\ root t' = root t /\ next_ino t' = next_ino t /\ mount_point t' = mount_point t /\ total_size t' = total_size t /\
    (forall j, cores t' j = cores t j) /\ (exists n', inodes t' !! i = Some n' /\ children n' = children n) /\
    (forall j m, inodes t' !! j = Some m -> ino m = 0 -> m = inode_zero) /\
    (forall j m, inodes t' !! j = Some m -> ino m <> 0 -> chain t' (children m) (kids_del kids p i j)).
Proof.
  intros Hok Hi Hl Hp. assert (Hin : i ∈ kids p) by (apply (fs_kids _ _ _ Hok); exists (strip n); split; [by apply lv_cores|done]).
  destruct (co_parent _ _ _ (fs_core _ _ _ Hok) i (strip n) p (lv_cores t i n Hi Hl) Hp) as (pn' & Hpn & _ & Hlt).
  destruct (live_lookup t p pn' Hpn) as (pn & Hpn' & -> & Hpl). cbn in Hlt.
  assert (Hpi : p <> i) by (intros ->; assert (pn = n) as -> by congruence; lia).
  apply list_elem_of_split in Hin as (ks1 & ks2 & Eks). pose proof (fs_nodup _ _ _ Hok p) as Hnd. rewrite Eks in Hnd.
  pose proof (fs_chain _ _ _ Hok p pn Hpn' Hpl) as Hch. rewrite Eks in Hch.
  assert (Hi1 : i ∉ ks1) by (apply NoDup_app in Hnd as (_ & Hd & _); intros Hx; apply (Hd i Hx); by left).
  assert (Hlen : (length ks1 < S TMPFS_MAX_FILES)%nat).
  { pose proof (kids_length t r kids Hok p) as H. rewrite Eks, length_app in H. lia. }
  unfold unlink_inode, load. rewrite Hi. cbn [or_ub mbind outcome_bind]. rewrite Hp, Hpn'. cbn [or_ub mbind outcome_bind].
  rewrite (find_prev_spec t _ _ _ ks1 i ks2 Hch Hi1 Hlen). cbn [mbind outcome_bind].
  assert (Hdel : forall q, q <> p -> kids_del kids p i q = kids q) by (intros q Hq; unfold kids_del; by rewrite decide_False).
  assert (Hdelp : kids_del kids p i p = ks1 ++ ks2) by (unfold kids_del; rewrite decide_True by done; rewrite Eks; by apply filter_middle).
  pose proof (lookup_lt_Some _ _ _ Hpn') as Hplt.
  destruct (chain_app t _ ks1 i ks2 Hch) as (n0 & Hn0 & Hc2 & _). assert (n0 = n) as -> by congruence.
  destruct (last ks1) as [q|] eqn:El.
  - apply last_Some in El as [ks0 ->]. rewrite <- app_assoc in *. cbn [app] in *.
    assert (Hqk : q ∈ kids p) by (rewrite Eks; apply elem_of_app; right; by left).
    destruct (kids_live t r kids Hok p q Hqk) as (qn & Hqn & Hql & Hqp). rewrite Hqn. cbn [or_ub mbind outcome_bind].
    pose proof (lookup_lt_Some _ _ _ Hqn) as Hqlt. set (qn' := set_sibling (sibling n) qn).
    assert (Hlk : forall j, inodes (put t q qn') !! j = if decide (j = q) then Some qn' else inodes t !! j).
    { intros j. cbn. case_decide; [subst; by apply list_lookup_insert_eq|by apply list_lookup_insert_ne]. }
    assert (Hqi : q <> i) by (intros ->; apply Hi1; apply elem_of_app; right; by left).
    eexists. split; [reflexivity|]. cbn [root next_ino mount_point total_size put set_inodes]. splits; auto.
    + intros j. by apply (cores_put_links t q qn).
    + exists n. rewrite Hlk, decide_False by done. done.
    + intros j m Hm Hz. rewrite Hlk in Hm. case_decide; [injection Hm as <-; done|by apply (fs_dead _ _ _ Hok j)].
    + intros j m Hm Hml. rewrite Hlk in Hm. assert (Hm' : exists m0, inodes t !! j = Some m0 /\ ino m0 <> 0 /\ children m = children m0).
      { case_decide as E; [subst; injection Hm as <-; eauto|eauto]. } destruct Hm' as (m0 & Hm0 & Hml0 & ->).
      destruct (decide (j = p)) as [->|Hjp].
      * rewrite Hdelp. assert (m0 = pn) as -> by congruence.
        apply (chain_bypass t (put t q qn') _ ks0 q i ks2 n qn); auto; [rewrite Hlk; by rewrite decide_True|].
        intros k Hk. rewrite Hlk. by rewrite decide_False.
      * rewrite Hdel by done. apply (chain_frame t); [|by apply (fs_chain _ _ _ Hok j)]. intros k m' Hk Hm'. rewrite Hlk. destruct (decide (k = q)) as [E|E]; [|eauto].
        subst k. exfalso. apply Hjp. by apply (kids_disjoint t r kids Hok j p q).
  - apply last_None in El as ->. cbn [app] in *. set (pn' := set_children (sibling n) pn).
    assert (Hlk : forall j, inodes (put t p pn') !! j = if decide (j = p) then Some pn' else inodes t !! j).
    { intros j. cbn. case_decide; [subst; by apply list_lookup_insert_eq|by apply list_lookup_insert_ne]. }
    assert (Hfr : forall c ks, chain t c ks -> chain (put t p pn') c ks).
    { intros c ks. apply chain_frame. intros k m' _ Hm'. rewrite Hlk. destruct (decide (k = p)) as [E|E]; [|eauto]. subst. exists pn'. split; [done|]. cbn. congruence. }
    eexists. split; [reflexivity|]. cbn [root next_ino mount_point total_size put set_inodes]. splits; auto.
    + intros j. by apply (cores_put_links t p pn).
    + exists n. rewrite Hlk, decide_False by done. done.
    + intros j m Hm Hz. rewrite Hlk in Hm. case_decide; [injection Hm as <-; done|by apply (fs_dead _ _ _ Hok j)].
    + intros j m Hm Hml. rewrite Hlk in Hm. apply Hfr. case_decide as E.
      * subst j. injection Hm as <-. by rewrite Hdelp.
      * rewrite Hdel by done. by apply (fs_chain _ _ _ Hok j).
Qed.

Lemma fs_ok_total t r kids z : fs_ok t r kids -> fs_ok (set_total z t) r kids.
Proof.
  assert (Hch : forall c ks, chain t c ks -> chain (set_total z t) c ks) by (intros c ks; apply chain_frame; eauto).
  intros Hok. split; try apply Hok. intros i n Hi Hn. apply Hch. by apply (fs_chain _ _ _ Hok i).
Qed.

Lemma kids_del_not_in t r kids p i q : fs_ok t r kids -> i ∈ kids p -> i ∉ kids_del kids p i q.
Proof.
  intros Hok Hp. unfold kids_del. case_decide as E; [intros H; by apply list_elem_of_filter in H as [H _]|].
  intros H. apply E. by apply (kids_disjoint t r kids Hok q p i).
Qed.

Lemma free_leaf t r kids i n fuel : fs_ok t r kids -> inodes t !! i = Some n -> ino n <> 0 -> i <> r -> children n = None ->
  exists t' p, parent n = Some p /\ tmpfs_free_inode (S fuel) t i = Ok t' /\ fs_ok t' r (kids_del kids p i) /\
    (forall j, cores t' j = fset (cores t) i inode_zero j) /\ mount_point t' = mount_point t.
Proof.
  intros Hok Hi Hl Hr Hc. destruct (parent n) as [p|] eqn:Hp.
  2:{ destruct Hr. by apply (co_orphan _ _ _ (fs_core _ _ _ Hok) i (strip n) (lv_cores t i n Hi Hl)). }
  assert (Hip : i ∈ kids p) by (apply (fs_kids _ _ _ Hok); exists (strip n); split; [by apply lv_cores|done]).
  cbn [tmpfs_free_inode]. rewrite (load_lookup t i n Hi). cbn [mbind outcome_bind].
  set (t0 := match data n with Some _ => set_total (u64 (total_size t - size n)) t | None => t end).
  assert (Hok0 : fs_ok t0 r kids) by (unfold t0; destruct (data n); [by apply fs_ok_total|done]).
  assert (Hi0 : inodes t0 !! i = Some n) by (unfold t0; by destruct (data n)).
  assert (Hc0 : forall j, cores t0 j = cores t j) by (intros j; unfold t0; by destruct (data n)).
  assert (Hm0 : mount_point t0 = mount_point t) by (unfold t0; by destruct (data n)).
  destruct (unlink_inode_spec t0 r kids i n p Hok0 Hi0 Hl Hp) as (t1 & E1 & R1 & N1 & M1 & _ & C1 & (n1 & Hn1 & Hc1) & D1 & K1).
  rewrite E1. cbn [mbind outcome_bind]. rewrite (load_lookup t1 i n1 Hn1). cbn [mbind outcome_bind]. rewrite Hc1, Hc. cbn [mbind outcome_bind].
  exists (put t1 i inode_zero), p. split; [done|]. split; [done|].
  pose proof (lookup_lt_Some _ _ _ Hn1) as Hlt.
  assert (Hcores : forall j, cores (put t1 i inode_zero) j = fset (cores t) i inode_zero j).
  { intros j. rewrite cores_put by done. unfold fset. case_decide; [done|]. by rewrite C1, Hc0. }
  assert (Hlk : forall j, inodes (put t1 i inode_zero) !! j = if decide (j = i) then Some inode_zero else inodes t1 !! j).
  { intros j. cbn. case_decide; [subst; by apply list_lookup_insert_eq|by apply list_lookup_insert_ne]. }
  assert (Hleaf : forall j m, lv (cores t) j m -> parent m <> Some i).
  { intros j m Hm E. assert (Hj : j ∈ kids i) by (apply (fs_kids _ _ _ Hok); eauto).
    pose proof (fs_chain _ _ _ Hok i n Hi Hl) as Hch. rewrite Hc in Hch. destruct (kids i); [by apply elem_of_nil in Hj|]. by destruct Hch. }
  pose proof (fs_core _ _ _ Hok) as Hcore. splits; auto; [|cbn; congruence]. split.
  - cbn. rewrite R1. apply Hok0.
  - cbn. rewrite N1. apply (core_ok_ext (fset (cores t) i inode_zero)); [done|].
    assert (next_ino t0 = next_ino t) as -> by (unfold t0; by destruct (data n)).
    apply core_remove; auto. by apply (co_range _ _ _ Hcore i (strip n)); unfold cores; rewrite Hi.
  - intros j m Hm Hz. rewrite Hlk in Hm. case_decide; [congruence|by apply (D1 j)].
  - intros j m Hm Hml. rewrite Hlk in Hm. case_decide as E; [injection Hm as <-; done|].
    apply (chain_frame t1); [|by apply (K1 j)]. intros k m' Hk Hm'. rewrite Hlk, decide_False; [eauto|]. intros ->.
    by apply (kids_del_not_in t r kids p i j Hok Hip).
  - intros q. unfold kids_del. case_decide; [apply NoDup_filter|]; apply Hok.
  - intros q j. assert (Hlv : forall m, lv (cores (put t1 i inode_zero)) j m <-> lv (fset (cores t) i inode_zero) j m) by (intros m; unfold lv; by rewrite Hcores).
    setoid_rewrite Hlv. setoid_rewrite lv_fset. split.
    + intros Hj. assert (Hji : j <> i) by (intros ->; by apply (kids_del_not_in t r kids p i q Hok Hip)).
      assert (Hjk : j ∈ kids q) by (unfold kids_del in Hj; case_decide; [apply list_elem_of_filter in Hj; apply Hj|done]).
      apply (fs_kids _ _ _ Hok) in Hjk as (m & Hm & E). eauto 6.
    + intros (m & [(-> & -> & ?)|[Hji Hm]] & E); [done|]. assert (Hjk : j ∈ kids q) by (apply (fs_kids _ _ _ Hok); eauto).
      unfold kids_del. case_decide; [apply list_elem_of_filter; auto|done].
Qed.
