(* ===== verification/TmpfsOps.v ===== *)
(** * What the tmpfs operations do to the tree of paths

    [fs_at t x] is the node at path [x] of an instance: the abstract file
    system.  Looking a path up finds the node at its components, and every
    operation changes the abstract file system at one path. *)

From S2P Require Import Prelude Bytes Perm Tmpfs TmpfsTree.

(** ** Components of a path *)

Lemma skip_slashes_comps s : comps (skip_slashes s) = comps s.
Proof. induction s as [|c s IH]; [done|]. cbn [skip_slashes]. case_decide as E; [rewrite E, comps_slash; done|done]. Qed.

Lemma skip_slashes_head s c s' : skip_slashes s = c :: s' -> c <> SLASH.
Proof. induction s as [|d s IH]; [done|]. cbn. case_decide; [done|]. by intros [= -> ->]. Qed.

Lemma skip_slashes_length s : (length (skip_slashes s) <= length s)%nat.
Proof. induction s as [|d s IH]; [done|]. cbn. case_decide; [lia|done]. Qed.

(** ** Lookup *)

Section lookup.
Context (t : tmpfs_data) (r : nat) (kids : nat -> list nat) (Hok : fs_ok t r kids).
Abbreviation at_path := (path_to (cores t) r).

Lemma path_prefix j x y : at_path j (x ++ y) -> exists p, at_path p x.
Proof.
  revert j. induction y as [|c y IH] using rev_ind; intros j Hj; [rewrite app_nil_r in Hj; eauto|].
  rewrite app_assoc in Hj. apply path_snoc_inv in Hj as (p & n & Hp & _). by apply (IH p).
Qed.

(** One step down the tree is a child of that name. *)
Lemma path_child p x j c : at_path p x -> at_path j (x ++ [c]) <-> exists n, j ∈ kids p /\ inodes t !! j = Some n /\ name n = c.
Proof using Hok.
  intros Hp. split.
  - intros Hj. apply path_snoc_inv in Hj as (q & n & Hq & Hn & Hpar & Hc). assert (q = p) as -> by (by apply (path_inj _ _ _ (fs_core _ _ _ Hok) q p x)).
    destruct (live_lookup t j n Hn) as (m & Hm & -> & _). exists m. splits; auto. apply (fs_kids _ _ _ Hok). eauto.
  - intros (n & Hj & Hn & <-). destruct (kids_live t r kids Hok p j Hj) as (m & Hm & Hl & Hpar). assert (m = n) as -> by congruence.
    apply (path_step _ _ p x j (strip n)); [done|by apply lv_cores|done].
Qed.

Lemma lookup_loop_spec fuel cur x token : at_path cur x -> (forall c s, token = c :: s -> c <> SLASH) -> (length token < fuel)%nat ->
  exists res, lookup_loop fuel t cur token = Ok res /\ forall j, res = Some j <-> at_path j (x ++ comps token).
Proof using Hok.
  revert cur x token. induction fuel as [|fuel IH]; intros cur x token Hcur Hhead Hf; [lia|]. destruct token as [|c0 s0].
  { cbn. exists (Some cur). split; [done|]. intros j. rewrite app_nil_r. split; [by intros [= <-]|]. intros Hj. f_equal.
    by apply (path_inj _ _ _ (fs_core _ _ _ Hok) cur j x). }
  cbn [lookup_loop]. destruct (break_slash (c0 :: s0)) as [comp next] eqn:Eb. destruct (break_slash_spec _ _ _ Eb) as [Hcomp Hnext].
  assert (Hne : comp <> []).
  { intros ->. destruct next as [s|]; [|done]. cbn in Hnext. injection Hnext as E _. by apply (Hhead c0 s0). }
  assert (Ec : comps (c0 :: s0) = comp :: match next with None => [] | Some s => comps s end).
  { destruct next as [s|]; rewrite Hnext; [rewrite comps_app|]; by rewrite (comps_plain comp). }
  rewrite Ec. destruct (path_live _ _ _ (fs_core _ _ _ Hok) cur x Hcur) as [nn Hnn]. destruct (live_lookup t cur nn Hnn) as (n & Hn & -> & Hl).
  rewrite (load_lookup t cur n Hn). cbn [mbind outcome_bind].
  assert (Hsplit : forall y, x ++ comp :: y = (x ++ [comp]) ++ y) by (intros y; by rewrite <- app_assoc).
  destruct (is_dir n) eqn:Ed; cbn [negb].
  2:{ exists None. split; [done|]. intros j. split; [done|]. rewrite Hsplit. intros Hj. apply path_prefix in Hj as [k Hk].
      apply (path_child cur x) in Hk as (m & Hk & _); [|done]. rewrite (kids_file t r kids Hok cur n Hn Ed) in Hk. by apply elem_of_nil in Hk. }
  destruct (find_child_spec t (S TMPFS_MAX_FILES) (children n) (kids cur) comp) as [[-> Hno]|(k & m & -> & Hk & Hm & Hname)].
  { by apply (fs_chain _ _ _ Hok). }
  { pose proof (kids_length t r kids Hok cur). lia. }
  - cbn [mbind outcome_bind]. exists None. split; [done|]. intros j. split; [done|]. rewrite Hsplit. intros Hj. apply path_prefix in Hj as [k Hk].
    apply (path_child cur x) in Hk as (m & Hk & Hm & E); [|done]. by destruct (Hno k m Hk Hm).
  - cbn [mbind outcome_bind]. assert (Hkp : at_path k (x ++ [comp])) by (apply (path_child cur x); eauto).
    destruct next as [s|].
    + destruct (IH k (x ++ [comp]) (skip_slashes s) Hkp) as (res & E & Hres).
      * intros c s1 E1. by eapply skip_slashes_head.
      * rewrite Hnext, length_app in Hf. cbn in Hf. pose proof (skip_slashes_length s). lia.
      * exists res. split; [done|]. intros j. rewrite Hsplit, Hres, skip_slashes_comps. done.
    + exists (Some k). split; [done|]. intros j. split; [by intros [= <-]|]. intros Hj. f_equal. by apply (path_inj _ _ _ (fs_core _ _ _ Hok) k j (x ++ [comp])).
Qed.

(** Looking a path up finds the inode at its components (of the first 255
    bytes), or nothing when there is none. *)
Lemma tmpfs_lookup_spec rel : exists res, tmpfs_lookup_inode t rel = Ok res /\
  forall j, res = Some j <-> at_path j (comps (take 255 rel)).
Proof using Hok.
  unfold tmpfs_lookup_inode. case_decide as H0.
  - exists (Some r). rewrite (fs_root _ _ _ Hok). split; [done|]. assert (comps (take 255 rel) = []) as -> by (by destruct H0; subst).
    intros j. split; [intros [= <-]; constructor|]. intros Hj. f_equal. apply (path_inj _ _ _ (fs_core _ _ _ Hok) r j []); [constructor|done].
  - rewrite (fs_root _ _ _ Hok).
    destruct (lookup_loop_spec (S (length (take 255 rel))) r [] (skip_slashes (take 255 rel))) as (res & E & Hres).
    + constructor.
    + intros c s E. by eapply skip_slashes_head.
    + pose proof (skip_slashes_length (take 255 rel)). lia.
    + exists res. split; [exact E|]. intros j. rewrite Hres, skip_slashes_comps. done.
Qed.
End lookup.

(** ** The abstract file system *)

Record fnode := { f_ino : Z; f_mode : Z; f_uid : Z; f_gid : Z; f_mtime : Z; f_dir : bool; f_bytes : list Z }.

(** The contents of a file: the first [size] bytes of its block. *)
Definition bytes_of_inode (n : tmpfs_inode) : list Z := match data n with Some b => take (Z.to_nat (size n)) b | None => [] end.

Definition node_of (n : tmpfs_inode) : fnode :=
  {| f_ino := ino n; f_mode := mode n; f_uid := i_uid n; f_gid := i_gid n; f_mtime := mtime n; f_dir := is_dir n; f_bytes := bytes_of_inode n |}.

Definition child_named (t : tmpfs_data) (i : nat) (c : list Z) : option nat :=
  find_from (fun j => match inodes t !! j with Some n => bool_decide (ino n <> 0 /\ parent n = Some i /\ name n = c) | None => false end) 0 TMPFS_MAX_FILES.

Fixpoint walk (t : tmpfs_data) (i : nat) (x : list (list Z)) : option nat :=
  match x with [] => Some i | c :: x' => j ← child_named t i c; walk t j x' end.

(** The node at a path of an instance. *)
Definition fs_at (t : tmpfs_data) (x : list (list Z)) : option fnode :=
  r ← root t; j ← walk t r x; n ← inodes t !! j; Some (node_of n).

Definition fupd (F : list (list Z) -> option fnode) (x : list (list Z)) (v : option fnode) : list (list Z) -> option fnode :=
  fun y => if decide (y = x) then v else F y.

Section abstract.
Context (t : tmpfs_data) (r : nat) (kids : nat -> list nat) (Hok : fs_ok t r kids).

Lemma child_named_spec i c j : child_named t i c = Some j <-> exists n, j ∈ kids i /\ inodes t !! j = Some n /\ name n = c.
Proof using Hok.
  assert (Hback : forall j, (exists n, j ∈ kids i /\ inodes t !! j = Some n /\ name n = c) <->
    match inodes t !! j with Some n => bool_decide (ino n <> 0 /\ parent n = Some i /\ name n = c) | None => false end = true).
  { intros k. split.
    - intros (n & Hk & Hn & Hc). destruct (kids_live t r kids Hok i k Hk) as (m & Hm & Hl & Hp). rewrite Hn. assert (m = n) as -> by congruence. by apply bool_decide_eq_true.
    - destruct (inodes t !! k) as [n|] eqn:E; [|done]. intros H. apply bool_decide_eq_true in H as (Hl & Hp & Hc). exists n. splits; auto.
      apply (fs_kids _ _ _ Hok). exists (strip n). split; [by apply lv_cores|done]. }
  unfold child_named. rewrite find_from_Some, <- Hback. split; [tauto|]. intros H. split; [|split; [done|]].
  - destruct H as (n & _ & Hn & _). pose proof (lookup_lt_Some _ _ _ Hn) as Hl. rewrite (fs_length t r kids Hok) in Hl. lia.
  - intros k Hk. apply not_true_iff_false. rewrite <- Hback. intros H'. destruct H as (n & Hj & Hn & E), H' as (n' & Hj' & Hn' & E').
    assert (j = k) by (apply (kids_names t r kids Hok i j k n n'); congruence). lia.
Qed.

Lemma walk_path i x : path_to (cores t) r i x -> forall y j, walk t i y = Some j <-> path_to (cores t) r j (x ++ y).
Proof using Hok.
  intros Hi y. revert i x Hi. induction y as [|c y IH]; intros i x Hi j; cbn [walk].
  - rewrite app_nil_r. split; [by intros [= <-]|]. intros Hj. f_equal. by apply (path_inj _ _ _ (fs_core _ _ _ Hok) i j x).
  - replace (x ++ c :: y) with ((x ++ [c]) ++ y) by (by rewrite <- app_assoc). destruct (child_named t i c) as [k|] eqn:E; cbn [mbind option_bind].
    + apply IH. apply (path_child t r kids Hok i x k c Hi). by apply child_named_spec.
    + split; [done|]. intros Hj. apply path_prefix in Hj as [k Hk]. apply (path_child t r kids Hok i x k c Hi) in Hk. apply child_named_spec in Hk. congruence.
Qed.

Lemma fs_at_spec x v : fs_at t x = Some v <-> exists j n, path_to (cores t) r j x /\ inodes t !! j = Some n /\ v = node_of n.
Proof using Hok.
  unfold fs_at. rewrite (fs_root _ _ _ Hok). cbn [mbind option_bind].
  assert (Hw : forall j, walk t r x = Some j <-> path_to (cores t) r j x) by (intros j; apply (walk_path r []); constructor).
  destruct (walk t r x) as [j|] eqn:E; cbn [mbind option_bind].
  - assert (Hj : path_to (cores t) r j x) by (by apply Hw). destruct (inodes t !! j) as [n|] eqn:En; cbn [mbind option_bind].
    + split; [intros [= <-]; eauto 6|]. intros (j' & n' & Hj' & Hn' & ->). assert (j = j') as <- by (by apply (path_inj _ _ _ (fs_core _ _ _ Hok) j j' x)). congruence.
    + split; [done|]. intros (j' & n' & Hj' & Hn' & ->). assert (j = j') as <- by (by apply (path_inj _ _ _ (fs_core _ _ _ Hok) j j' x)). congruence.
  - split; [done|]. intros (j & n & Hj & _). by apply Hw in Hj.
Qed.

Lemma fs_at_path j x n : path_to (cores t) r j x -> inodes t !! j = Some n -> fs_at t x = Some (node_of n).
Proof using Hok. intros. apply fs_at_spec. eauto. Qed.

Lemma fs_at_none x : (forall j, ~ path_to (cores t) r j x) <-> fs_at t x = None.
Proof using Hok.
  split.
  - intros H. destruct (fs_at t x) as [v|] eqn:E; [|done]. apply fs_at_spec in E as (j & _ & Hj & _). by destruct (H j).
  - intros E j Hj. destruct (path_live _ _ _ (fs_core _ _ _ Hok) j x Hj) as [nn Hn]. destruct (live_lookup t j nn Hn) as (n & Hn' & _).
    rewrite (fs_at_path j x n Hj Hn') in E. done.
Qed.

Lemma path_lookup j x : path_to (cores t) r j x -> exists n, inodes t !! j = Some n /\ ino n <> 0.
Proof using Hok. intros Hj. destruct (path_live _ _ _ (fs_core _ _ _ Hok) j x Hj) as [nn Hn]. destruct (live_lookup t j nn Hn) as (n & ? & _ & ?). eauto. Qed.
End abstract.

Lemma node_of_strip n m : strip n = strip m -> node_of n = node_of m.
Proof. intros E. change (node_of (strip n) = node_of (strip m)). by rewrite E. Qed.

(** The abstract file system after each transition of the cores. *)
Lemma fs_at_change t t' r kids kids' i n' :
  fs_ok t r kids -> fs_ok t' r kids' -> (forall j, cores t' j = fset (cores t) i (strip n') j) ->
  forall y, (forall j, path_to (cores t') r j y -> j <> i -> path_to (cores t) r j y) ->
    (forall j, path_to (cores t) r j y -> j <> i -> path_to (cores t') r j y) ->
    (~ path_to (cores t) r i y) -> (~ path_to (cores t') r i y) -> fs_at t' y = fs_at t y.
Proof.
  intros Hok Hok' Hc y H1 H2 H3 H4. apply option_eq. intros v. rewrite (fs_at_spec t' r kids' Hok'), (fs_at_spec t r kids Hok).
  assert (Hn : forall j, j <> i -> strip <$> inodes t' !! j = strip <$> inodes t !! j).
  { intros j Hj. specialize (Hc j). unfold cores, fset in Hc. by rewrite decide_False in Hc. }
  split; intros (j & n & Hj & Hjn & ->); (assert (Hji : j <> i) by (intros ->; tauto)); specialize (Hn j Hji).
  - rewrite Hjn in Hn. destruct (inodes t !! j) as [m|] eqn:E; [|done]. cbn in Hn. apply (inj Some) in Hn. exists j, m. splits; auto. by apply node_of_strip.
  - rewrite Hjn in Hn. destruct (inodes t' !! j) as [m|] eqn:E; [|done]. cbn in Hn. apply (inj Some) in Hn. exists j, m. splits; auto. by apply node_of_strip.
Qed.

Section transitions.
Context (t t' : tmpfs_data) (r : nat) (kids kids' : nat -> list nat) (Hok : fs_ok t r kids) (Hok' : fs_ok t' r kids').

Lemma paths_of_cores g : (forall j, cores t' j = g j) -> forall j y, path_to (cores t') r j y <-> path_to g r j y.
Proof. intros E j y. split; apply path_ext; auto. Qed.

Lemma fs_at_add i n p x : inodes t !! i = Some inode_zero -> path_to (cores t) r p x -> parent n = Some p -> ino n <> 0 ->
  (forall j, cores t' j = fset (cores t) i (strip n) j) -> inodes t' !! i = Some n ->
  forall y, fs_at t' y = fupd (fs_at t) (x ++ [name n]) (Some (node_of n)) y.
Proof using Hok Hok'.
  intros Hi Hp Hpar Hin Hc Hi' y.
  assert (Hpaths : forall j y, path_to (cores t') r j y <-> path_to (cores t) r j y \/ (j = i /\ y = x ++ [name n])).
  { intros j z. rewrite (paths_of_cores _ Hc). apply (path_add (cores t) r (next_ino t) i (strip n) p x); auto; [apply Hok|unfold cores; by rewrite Hi]. }
  assert (Hni : forall z, ~ path_to (cores t) r i z).
  { intros z Hz. destruct (path_lookup t r kids Hok i z Hz) as (m & Hm & Hl). assert (m = inode_zero) as -> by congruence. done. }
  unfold fupd. case_decide as E.
  - subst y. apply (fs_at_path t' r kids' Hok' i); [apply Hpaths; auto|done].
  - apply (fs_at_change t t' r kids kids' i n); auto.
    + intros j Hj Hji. apply Hpaths in Hj as [Hj|[? _]]; done.
    + intros j Hj _. apply Hpaths. auto.
    + intros Hj. apply Hpaths in Hj as [Hj|[_ ?]]; [by apply (Hni y)|done].
Qed.

Lemma fs_at_remove i x : path_to (cores t) r i x -> i <> r -> (forall j m, lv (cores t) j m -> parent m <> Some i) ->
  (forall j, cores t' j = fset (cores t) i inode_zero j) -> forall y, fs_at t' y = fupd (fs_at t) x None y.
Proof using Hok Hok'.
  intros Hx Hr Hleaf Hc y.
  assert (Hpaths : forall j y, path_to (cores t') r j y <-> path_to (cores t) r j y /\ j <> i).
  { intros j z. rewrite (paths_of_cores _ Hc). apply (path_remove (cores t) r (next_ino t) i); auto. apply Hok. }
  unfold fupd. case_decide as E.
  - subst y. apply (fs_at_none t' r kids' Hok'). intros j Hj. apply Hpaths in Hj as [Hj Hji]. apply Hji. by apply (path_inj _ _ _ (fs_core _ _ _ Hok) j i x).
  - apply (fs_at_change t t' r kids kids' i inode_zero); auto.
    + intros j Hj _. by apply Hpaths in Hj as [Hj _].
    + intros j Hj Hji. by apply Hpaths.
    + intros Hi. apply E. by apply (path_unique _ _ _ (fs_core _ _ _ Hok) i y x).
    + intros Hi. by apply Hpaths in Hi as [_ ?].
Qed.

Lemma fs_at_update i n n' x : path_to (cores t) r i x -> inodes t !! i = Some n -> ino n <> 0 -> ino n' = ino n -> parent n' = parent n -> name n' = name n ->
  (forall j, cores t' j = fset (cores t) i (strip n') j) -> inodes t' !! i = Some n' -> forall y, fs_at t' y = fupd (fs_at t) x (Some (node_of n')) y.
Proof using Hok Hok'.
  intros Hx Hi Hl Ei Ep En Hc Hi' y.
  assert (Hpaths : forall j y, path_to (cores t') r j y <-> path_to (cores t) r j y).
  { intros j z. rewrite (paths_of_cores _ Hc). apply (path_update (cores t) r i (strip n)); auto. by apply lv_cores. }
  unfold fupd. case_decide as E.
  - subst y. apply (fs_at_path t' r kids' Hok' i); [by apply Hpaths|done].
  - assert (Hne : ~ path_to (cores t) r i y) by (intros Hi2; apply E; by apply (path_unique _ _ _ (fs_core _ _ _ Hok) i y x)).
    apply (fs_at_change t t' r kids kids' i n'); auto; [intros j Hj _; by apply Hpaths|intros j Hj _; by apply Hpaths|by rewrite Hpaths].
Qed.
End transitions.

(** ** Creating *)

Lemma split_name_spec rel pp nm : split_name rel = (pp, nm) -> nm <> [] ->
  comps (take 255 rel) = comps (take 255 pp) ++ [nm] /\ name_ok nm /\ take TMPFS_MAX_NAME_LEN nm = nm.
Proof.
  unfold split_name. intros E Hne. pose proof (break_last_slash_spec (take 255 rel)) as Hb.
  assert (Hl : (length (take 255 rel) <= 255)%nat) by (rewrite length_take; lia).
  assert (Hfin : forall s, Forall (fun c => c <> SLASH) s -> s <> [] -> (length s <= 255)%nat -> name_ok s /\ take TMPFS_MAX_NAME_LEN s = s).
  { intros s H1 H2 H3. split; [done|]. by apply take_ge. }
  destruct (break_last_slash (take 255 rel)) as [[a b]|].
  - destruct Hb as [Hs Hb]. injection E as Epp <-. rewrite Hs in *. rewrite length_app in Hl. cbn in Hl. split; [|apply Hfin; auto; lia].
    rewrite comps_app, (comps_plain b) by done. f_equal. subst pp. destruct a as [|c a]; [done|]. rewrite take_ge; [done|cbn in *; lia].
  - injection E as <- <-. split; [by rewrite (comps_plain (take 255 rel))|]. by apply Hfin.
Qed.

Definition is_directory (F : list (list Z) -> option fnode) (x : list (list Z)) : Prop := exists v, F x = Some v /\ f_dir v = true.

(** The node a creation makes. *)
Definition new_node (dir : bool) (md now k : Z) (cr : ir0_task_cred) : fnode :=
  {| f_ino := k; f_mode := Z.lor (if dir then S_IFDIR else S_IFREG) (Z.land (Z.land md (Z.lnot (umask cr))) 0x1FF);
     f_uid := euid cr; f_gid := egid cr; f_mtime := now; f_dir := dir; f_bytes := [] |}.

Lemma fs_fresh_name t r kids p x nm : fs_ok t r kids -> path_to (cores t) r p x -> (forall j, ~ path_to (cores t) r j (x ++ [nm])) ->
  forall k m, k ∈ kids p -> inodes t !! k = Some m -> name m <> nm.
Proof. intros Hok Hp Hno k m Hk Hm E. apply (Hno k). apply (path_child t r kids Hok p x k nm Hp). eauto. Qed.

(** Linking the freshly allocated inode [i] under [p]. *)
Lemma link_child_spec t t1 r kids i p pn n x :
  fs_ok t r kids -> inodes t !! i = Some inode_zero -> path_to (cores t) r p x -> inodes t !! p = Some pn -> is_dir pn = true ->
  (forall j, ~ path_to (cores t) r j (x ++ [name n])) -> name_ok (name n) -> next_ino t + 1 < 2 ^ 32 ->
  root t1 = root t -> next_ino t1 = next_ino t + 1 -> (exists m0, inodes t1 = <[i := m0]> (inodes t)) -> mount_point t1 = mount_point t ->
  ino n = next_ino t + 1 -> children n = None -> (if is_dir n then data n = None /\ size n = 0 else file_ok n) ->
  exists t2, link_child t1 i p n = Ok t2 /\ fs_ok t2 r (kids_add kids p i) /\ mount_point t2 = mount_point t /\ total_size t2 = total_size t1 /\
    inodes t2 !! i = Some (Inode (ino n) (mode n) (i_uid n) (i_gid n) (size n) (data_cap n) (is_dir n) (name n) (data n) (Some p) None (children pn) (mtime n)) /\
    (forall y, fs_at t2 y = fupd (fs_at t) (x ++ [name n]) (Some (node_of n)) y).
Proof.
  intros Hok Hi Hx Hp Hd Hno Hname Hb Hr1 Hn1 [m0 Hin1] Hmp Hino Hch Hcont.
  destruct (path_lookup t r kids Hok p x Hx) as (pn' & Hp' & Hpl). assert (pn' = pn) as -> by congruence.
  assert (Hpi : p <> i) by (intros ->; assert (pn = inode_zero) as -> by congruence; done).
  pose proof (lookup_lt_Some _ _ _ Hi) as Hil. pose proof (lookup_lt_Some _ _ _ Hp) as Hpl'.
  unfold link_child. rewrite (load_lookup t1 p pn) by (rewrite Hin1; by rewrite list_lookup_insert_ne). cbn [mbind outcome_bind].
  set (n2 := Inode (ino n) (mode n) (i_uid n) (i_gid n) (size n) (data_cap n) (is_dir n) (name n) (data n) (Some p) (children n) (children pn) (mtime n)).
  rewrite (load_lookup (put t1 i n2) p pn) by (cbn; rewrite Hin1, !list_lookup_insert_ne; done). cbn [mbind outcome_bind].
  eexists. split; [reflexivity|]. set (t2 := put (put t1 i n2) p (set_children (Some i) pn)).
  assert (Hin2 : inodes t2 = <[p := set_children (Some i) pn]> (<[i := n2]> (inodes t))) by (cbn; by rewrite Hin1, list_insert_insert_eq).
  assert (Hi2 : inodes t2 !! i = Some n2) by (rewrite Hin2, list_lookup_insert_ne by done; by apply list_lookup_insert_eq).
  assert (Hinn : ino n <> 0).
  { pose proof (co_ino _ _ _ (fs_core _ _ _ Hok) p (strip pn) (lv_cores t p pn Hp Hpl)). lia. }
  destruct (fs_add t t2 r kids i p pn n2) as [Hok2 Hc2]; auto.
  { by apply (fs_fresh_name t r kids p x). }
  splits; auto.
  - rewrite Hi2. unfold n2. by rewrite Hch.
  - intros y. rewrite (fs_at_add t t2 r kids (kids_add kids p i) Hok Hok2 i n2 p x) by auto. done.
Qed.

(** ** Paths to instances *)

(** The instance a full path belongs to, and the components below it. *)
Definition resolve (l : list tmpfs_data) (p : list Z) : option (nat * tmpfs_data * list (list Z)) :=
  m ← tmpfs_get_instance_for_path l p; t ← l !! m; rel ← tmpfs_get_relative_path p (mount_point t);
  Some (m, t, comps (take 255 rel)).

Lemma instance_rel l p m : tmpfs_get_instance_for_path l p = Some m ->
  exists t rel, l !! m = Some t /\ tmpfs_get_relative_path p (mount_point t) = Some rel.
Proof.
  unfold tmpfs_get_instance_for_path. intros H. apply find_from_Some in H as (_ & H & _). destruct (l !! m) as [t|]; [|done].
  unfold path_on in H. apply andb_true_iff in H as [H _]. exists t. unfold tmpfs_get_relative_path. rewrite H. eauto.
Qed.

Lemma resolve_Some l p m t x : resolve l p = Some (m, t, x) ->
  exists rel, tmpfs_get_instance_for_path l p = Some m /\ l !! m = Some t /\ tmpfs_get_relative_path p (mount_point t) = Some rel /\ x = comps (take 255 rel).
Proof.
  unfold resolve. destruct (tmpfs_get_instance_for_path l p) as [m'|] eqn:E; [|done]. destruct (instance_rel l p m' E) as (t' & rel & Ht & Hr).
  cbn [mbind option_bind]. rewrite Ht. cbn [mbind option_bind]. rewrite Hr. intros [= <- <- <-]. eauto 6.
Qed.

Lemma resolve_None l p : resolve l p = None -> tmpfs_get_instance_for_path l p = None.
Proof.
  unfold resolve. destruct (tmpfs_get_instance_for_path l p) as [m'|] eqn:E; [|done]. destruct (instance_rel l p m' E) as (t' & rel & Ht & Hr).
  cbn [mbind option_bind]. rewrite Ht. cbn [mbind option_bind]. by rewrite Hr.
Qed.

Lemma find_inode_spec l p m t x r kids : resolve l p = Some (m, t, x) -> fs_ok t r kids ->
  (fs_at t x = None /\ tmpfs_find_inode l p = Ok None) \/
  exists i n, tmpfs_find_inode l p = Ok (Some (m, i)) /\ path_to (cores t) r i x /\ inodes t !! i = Some n /\ ino n <> 0 /\ fs_at t x = Some (node_of n).
Proof.
  intros Hres Hok. destruct (resolve_Some l p m t x Hres) as (rel & Hm & Ht & Hrel & ->). unfold tmpfs_find_inode. rewrite Hm, Ht. cbn [or_ub mbind outcome_bind].
  rewrite Hrel. destruct (tmpfs_lookup_spec t r kids Hok rel) as (res & -> & Hr). cbn [mbind outcome_bind]. destruct res as [i|].
  - right. assert (Hi : path_to (cores t) r i (comps (take 255 rel))) by (by apply Hr). destruct (path_lookup t r kids Hok i _ Hi) as (n & Hn & Hl).
    exists i, n. splits; auto. by apply (fs_at_path t r kids Hok i).
  - left. split; [|done]. apply (fs_at_none t r kids Hok). intros j Hj. by apply Hr in Hj.
Qed.

(** All instances are consistent, and inode numbers do not run out. *)
Definition mounts_ok (l : list tmpfs_data) : Prop := Forall tmpfs_inv l.

Lemma mounts_update l m t : mounts_ok l -> tmpfs_inv t -> mounts_ok (update l m t).
Proof. intros Hl Ht. by apply Forall_insert. Qed.

Lemma update_same l m t : l !! m = Some t -> update l m t = l.
Proof. apply list_insert_id. Qed.

(** What a creation at [x] may answer when it does not succeed; [x] ends in
    the name unless the path has a trailing slash. *)
Definition new_refused (F : list (list Z) -> option fnode) (x : list (list Z)) (full : Prop) (e : Z) : Prop :=
  (e = - EEXIST /\ F x <> None) \/ (e = - EINVAL /\ F x = None) \/
  (e = - ENOENT /\ F x = None /\ exists x0 c, x = x0 ++ [c] /\ ~ is_directory F x0) \/
  (e = - ENOSPC /\ F x = None /\ full).

Definition table_full (t : tmpfs_data) : Prop := forall j n, inodes t !! j = Some n -> ino n <> 0.

Lemma tmpfs_new_spec dir l p m t x md current now : mounts_ok l -> resolve l p = Some (m, t, x) -> next_ino t + 1 < 2 ^ 32 ->
  exists l' e, tmpfs_new dir l (Some p) md current now = Ok (l', e) /\
    ((l' = l /\ new_refused (fs_at t) x (table_full t) e) \/
     (e = 0 /\ exists t' x0 c, x = x0 ++ [c] /\ is_directory (fs_at t) x0 /\ fs_at t x = None /\ l' = update l m t' /\ tmpfs_inv t' /\
        mount_point t' = mount_point t /\
        forall y, fs_at t' y = fupd (fs_at t) x (Some (new_node dir md now (next_ino t + 1) (ir0_current_cred current))) y)).
Proof.
  intros Hl Hres Hb. destruct (resolve_Some l p m t x Hres) as (rel & Hm & Ht & Hrel & Hx).
  destruct (Forall_lookup_1 _ _ _ _ Hl Ht) as (r & kids & Hok). unfold tmpfs_new. rewrite Hm, Ht. cbn [or_ub mbind outcome_bind]. rewrite Hrel.
  destruct (tmpfs_lookup_spec t r kids Hok rel) as (res & -> & Hlk). cbn [mbind outcome_bind]. rewrite <- Hx in Hlk. case_decide as Hex.
  { do 2 eexists. split; [reflexivity|]. left. split; [done|]. left. split; [done|]. destruct res as [j|]; [|done].
    intros E. apply (fs_at_none t r kids Hok) with (j := j) in E. by apply E, Hlk. }
  subst res. assert (Hnone : fs_at t x = None) by (apply (fs_at_none t r kids Hok); intros j Hj; by apply Hlk in Hj).
  destruct (split_name rel) as [pp nm] eqn:Esp. case_decide as Hnm.
  { do 2 eexists. split; [reflexivity|]. left. split; [done|]. right. left. done. }
  assert (Hnm' : nm <> []) by (intros ->; apply Hnm; by left).
  destruct (split_name_spec rel pp nm Esp Hnm') as (Ecomps & Hname & Htake). rewrite <- Hx in Ecomps.
  destruct (tmpfs_lookup_spec t r kids Hok pp) as (res & -> & Hlk2). cbn [mbind outcome_bind].
  assert (Hnodir : ~ is_directory (fs_at t) (comps (take 255 pp)) -> exists l' e, Ok (l, - ENOENT) = Ok (l', e) /\ (l' = l /\ new_refused (fs_at t) x (table_full t) e \/
     (e = 0 /\ exists t' x0 c, x = x0 ++ [c] /\ is_directory (fs_at t) x0 /\ fs_at t x = None /\ l' = update l m t' /\ tmpfs_inv t' /\ mount_point t' = mount_point t /\
        forall y, fs_at t' y = fupd (fs_at t) x (Some (new_node dir md now (next_ino t + 1) (ir0_current_cred current))) y))).
  { intros Hno. do 2 eexists. split; [reflexivity|]. left. split; [done|]. right. right. left. eauto 8. }
  destruct res as [pi|].
  2:{ apply Hnodir. intros (v & Hv & _). apply (fs_at_spec t r kids Hok) in Hv as (j & _ & Hj & _). by apply Hlk2 in Hj. }
  assert (Hpi : path_to (cores t) r pi (comps (take 255 pp))) by (by apply Hlk2). destruct (path_lookup t r kids Hok pi _ Hpi) as (pn & Hpn & Hpl).
  pose proof (fs_at_path t r kids Hok pi _ pn Hpi Hpn) as Hat.
  rewrite (load_lookup t pi pn Hpn). cbn [mbind outcome_bind]. destruct (is_dir pn) eqn:Ed; cbn [negb].
  2:{ apply Hnodir. intros (v & Hv & Hd). rewrite Hat in Hv. injection Hv as <-. cbn in Hd. congruence. }
  destruct (tmpfs_alloc_inode_spec t r kids now Hok Hb) as [[-> Hfull]|(i & t1 & -> & Hi & R1 & I1 & N1 & T1 & M1)].
  { do 2 eexists. split; [reflexivity|]. left. split; [by apply update_same|]. right. right. right. done. }
  assert (Hil : (i < length (inodes t))%nat) by (by eapply lookup_lt_Some).
  rewrite (load_lookup t1 i (Inode (next_ino t + 1) 0 0 0 0 0 false [] None None None None now)) by (rewrite I1; by apply list_lookup_insert_eq).
  cbn [mbind outcome_bind ino size data_cap data parent children sibling mtime].
  edestruct (link_child_spec t t1 r kids i pi pn) as (t2 & E2 & Hok2 & M2 & _ & _ & Hat2);
    [exact Hok|exact Hi|exact Hpi|exact Hpn|exact Ed| | |exact Hb|exact R1|exact N1|by eexists|exact M1| | | |rewrite E2; clear E2].
  - cbn [name]. rewrite Htake, <- Ecomps. intros j Hj. by apply Hlk in Hj.
  - cbn [name]. by rewrite Htake.
  - done.
  - done.
  - cbn. destruct dir; [done|]. unfold file_ok, TMPFS_MAX_FILE_SIZE. cbn. lia.
  - do 2 eexists. split; [reflexivity|]. right. split; [done|]. exists t2, (comps (take 255 pp)), nm. splits; auto.
    + by exists (node_of pn).
    + by exists r, (kids_add kids pi i).
    + intros y. rewrite Hat2. cbn [name]. rewrite Htake, <- Ecomps. done.
Qed.

(** ** Removing *)

Definition rm_refused (dir : bool) (F : list (list Z) -> option fnode) (x : list (list Z)) (e : Z) : Prop :=
  (e = - ENOENT /\ F x = None) \/
  (exists v, F x = Some v /\
     ((dir = false /\ f_dir v = true /\ e = - EISDIR) \/ (dir = true /\ f_dir v = false /\ e = - ENOTDIR) \/
      (dir = true /\ x = [] /\ e = - EINVAL) \/ (dir = true /\ e = - ENOTEMPTY /\ exists c, F (x ++ [c]) <> None))).

Definition tmpfs_rm (dir : bool) : list tmpfs_data -> option (list Z) -> outcome (list tmpfs_data * Z) :=
  if dir then tmpfs_rmdir else tmpfs_unlink.

Lemma root_path t r kids i x : fs_ok t r kids -> path_to (cores t) r i x -> root t = Some i <-> x = [].
Proof.
  intros Hok Hi. rewrite (fs_root _ _ _ Hok). split.
  - intros [= ->]. by apply (path_to_root _ _ _ (fs_core _ _ _ Hok)).
  - intros ->. f_equal. apply (path_inj _ _ _ (fs_core _ _ _ Hok) r i []); [constructor|done].
Qed.

Lemma no_children t r kids i n : fs_ok t r kids -> inodes t !! i = Some n -> ino n <> 0 -> children n = None <-> kids i = [].
Proof.
  intros Hok Hi Hl. pose proof (fs_chain _ _ _ Hok i n Hi Hl) as Hc. destruct (kids i) as [|k ks]; [done|]. destruct Hc as (-> & _). done.
Qed.

Lemma tmpfs_rm_spec dir l p m t x : mounts_ok l -> resolve l p = Some (m, t, x) ->
  exists l' e, tmpfs_rm dir l (Some p) = Ok (l', e) /\
    ((l' = l /\ rm_refused dir (fs_at t) x e) \/
     (e = 0 /\ x <> [] /\ (exists v, fs_at t x = Some v /\ f_dir v = dir) /\ (forall c, fs_at t (x ++ [c]) = None) /\
      exists t', l' = update l m t' /\ tmpfs_inv t' /\ mount_point t' = mount_point t /\ forall y, fs_at t' y = fupd (fs_at t) x None y)).
Proof.
  intros Hl Hres. destruct (resolve_Some l p m t x Hres) as (rel & Hm & Ht & Hrel & Hx).
  destruct (Forall_lookup_1 _ _ _ _ Hl Ht) as (r & kids & Hok).
  assert (E0 : tmpfs_rm dir l (Some p) = tmpfs_remove (fun t i n => if dir
      then (if negb (is_dir n) then Some (- ENOTDIR) else if decide (root t = Some i) then Some (- EINVAL) else if decide (children n <> None) then Some (- ENOTEMPTY) else None)
      else (if is_dir n then Some (- EISDIR) else if decide (root t = Some i) then Some (- EINVAL) else None)) l (Some p)) by (by destruct dir).
  rewrite E0. clear E0. unfold tmpfs_remove. rewrite Hm, Ht. cbn [or_ub mbind outcome_bind]. rewrite Hrel.
  destruct (tmpfs_lookup_spec t r kids Hok rel) as (res & -> & Hlk). rewrite <- Hx in Hlk. cbn [mbind outcome_bind]. destruct res as [i|].
  2:{ do 2 eexists. split; [reflexivity|]. left. split; [done|]. left. split; [done|]. apply (fs_at_none t r kids Hok). intros j Hj. by apply Hlk in Hj. }
  assert (Hi : path_to (cores t) r i x) by (by apply Hlk). destruct (path_lookup t r kids Hok i x Hi) as (n & Hn & Hnl).
  pose proof (fs_at_path t r kids Hok i x n Hi Hn) as Hat. rewrite (load_lookup t i n Hn). cbn [mbind outcome_bind].
  assert (Hno : forall e, rm_refused dir (fs_at t) x e -> exists l' e', Ok (l, e) = Ok (l', e') /\ ((l' = l /\ rm_refused dir (fs_at t) x e') \/
     (e' = 0 /\ x <> [] /\ (exists v, fs_at t x = Some v /\ f_dir v = dir) /\ (forall c, fs_at t (x ++ [c]) = None) /\
      exists t', l' = update l m t' /\ tmpfs_inv t' /\ mount_point t' = mount_point t /\ forall y, fs_at t' y = fupd (fs_at t) x None y))) by eauto 8.
  assert (Hgo : is_dir n = dir -> root t <> Some i -> children n = None -> exists l' e, (t' ← tmpfs_free_inode (free_fuel t) t i; Ok (update l m t', 0)) = Ok (l', e) /\
    ((l' = l /\ rm_refused dir (fs_at t) x e) \/
     (e = 0 /\ x <> [] /\ (exists v, fs_at t x = Some v /\ f_dir v = dir) /\ (forall c, fs_at t (x ++ [c]) = None) /\
      exists t', l' = update l m t' /\ tmpfs_inv t' /\ mount_point t' = mount_point t /\ forall y, fs_at t' y = fupd (fs_at t) x None y))).
  { intros Hd Hroot Hch. assert (Hir : i <> r) by (rewrite (fs_root _ _ _ Hok) in Hroot; congruence). unfold free_fuel.
    destruct (free_leaf t r kids i n (Z.to_nat (next_ino t)) Hok Hn Hnl Hir Hch) as (t' & pp & Hp & -> & Hok' & Hc' & M').
    assert (Hk : kids i = []) by (by apply (no_children t r kids i n)).
    do 2 eexists. split; [reflexivity|]. right. split; [done|]. split; [by rewrite <- (root_path t r kids i x)|]. split; [by exists (node_of n)|]. split.
    - intros c. apply (fs_at_none t r kids Hok). intros j Hj. apply (path_child t r kids Hok i x j c Hi) in Hj as (mm & Hj & _). rewrite Hk in Hj. by apply elem_of_nil in Hj.
    - exists t'. splits; auto; [by exists r, (kids_del kids pp i)|]. apply (fs_at_remove t t' r kids _ Hok Hok' i x); auto.
      intros j mm Hmm E. assert (Hjk : j ∈ kids i) by (apply (fs_kids _ _ _ Hok); eauto). rewrite Hk in Hjk. by apply elem_of_nil in Hjk. }
  destruct dir.
  - destruct (is_dir n) eqn:Ed; cbn [negb]; [|apply Hno; right; exists (node_of n); split; [done|]; right; left; done].
    case_decide as Hroot; [apply Hno; right; exists (node_of n); split; [done|]; right; right; left; split; [done|]; split; [by apply (root_path t r kids i x)|done]|].
    case_decide as Hch; [|apply Hgo; auto].
    apply Hno. right. exists (node_of n). split; [done|]. right. right. right. split; [done|]. split; [done|].
    destruct (kids i) as [|k ks] eqn:Ek; [by apply (no_children t r kids i n Hok Hn Hnl) in Ek|].
    assert (Hki : k ∈ kids i) by (rewrite Ek; by left). destruct (kids_live t r kids Hok i k Hki) as (kn & Hkn & Hkl & _).
    exists (name kn). rewrite (fs_at_path t r kids Hok k (x ++ [name kn]) kn); [done| |done]. apply (path_child t r kids Hok i x k); eauto.
  - destruct (is_dir n) eqn:Ed; [apply Hno; right; exists (node_of n); split; [done|]; left; done|].
    case_decide as Hroot.
    + exfalso. rewrite (fs_root _ _ _ Hok) in Hroot. injection Hroot as ->. destruct (co_root _ _ _ (fs_core _ _ _ Hok)) as (rn & Hrn & Hrd & _).
      destruct (live_lookup t i rn Hrn) as (m' & Hm' & -> & _). assert (m' = n) as -> by congruence. cbn in Hrd. congruence.
    + apply Hgo; auto. apply (no_children t r kids i n); auto. by apply (kids_file t r kids Hok i n).
Qed.

(** ** Contents *)

Lemma length_bytes n : file_ok n -> Z.of_nat (length (bytes_of_inode n)) = size n.
Proof. intros [Hs Hd]. unfold bytes_of_inode. destruct (data n) as [b|]; [rewrite length_take; lia|cbn; lia]. Qed.

Lemma grown_block_spec n len : file_ok n -> grown_block n len = Ok (bytes_of_inode n ++ replicate (Z.to_nat (len - size n)) 0).
Proof.
  intros [Hs Hd]. unfold grown_block, bytes_of_inode, read_block. destruct (data n) as [b|].
  - rewrite decide_True by lia. done.
  - rewrite decide_True by done. done.
Qed.

(** [pwrite] on a byte string: a hole is filled with zeros. *)
Definition write_bytes (old : list Z) (off : nat) (w : list Z) : list Z :=
  take off (old ++ replicate (off - length old) 0) ++ w ++ drop (off + length w) old.
(** [ftruncate] on a byte string. *)
Definition truncate_bytes (old : list Z) (len : nat) : list Z := take len old ++ replicate (len - length old) 0.

Lemma write_bytes_grow old off w k : (off <= length old + k)%nat -> (length old <= off + length w)%nat ->
  take off (old ++ replicate k 0) ++ w = write_bytes old off w.
Proof.
  intros H1 H2. unfold write_bytes. rewrite (drop_ge old) by lia. rewrite app_nil_r. f_equal.
  rewrite !take_app. f_equal. rewrite !take_replicate. f_equal. lia.
Qed.

Lemma write_bytes_inside (b : list Z) sz off w : (off + length w <= sz)%nat -> (sz <= length b)%nat ->
  take sz (take off b ++ w ++ drop (off + length w) b) = write_bytes (take sz b) off w.
Proof.
  intros H1 H2. unfold write_bytes. rewrite length_take, Nat.min_l by lia. replace (off - sz)%nat with O by lia. cbn [replicate]. rewrite app_nil_r.
  rewrite take_take, Nat.min_l by lia. rewrite take_app, length_take, Nat.min_l by lia. rewrite take_ge by (rewrite length_take; lia).
  f_equal. rewrite take_app. rewrite take_ge by lia. f_equal. rewrite skipn_firstn_comm. f_equal. lia.
Qed.

(** ** Changing an existing inode *)

(** [n'] is [n] with other contents or attributes. *)
Definition same_place (n n' : tmpfs_inode) : Prop :=
  ino n' = ino n /\ parent n' = parent n /\ name n' = name n /\ is_dir n' = is_dir n /\ children n' = children n /\ sibling n' = sibling n.

Lemma put_inode_spec t r kids i n n' x : fs_ok t r kids -> path_to (cores t) r i x -> inodes t !! i = Some n -> ino n <> 0 -> same_place n n' ->
  (if is_dir n then data n' = None /\ size n' = 0 else file_ok n') ->
  tmpfs_inv (put t i n') /\ mount_point (put t i n') = mount_point t /\ forall y, fs_at (put t i n') y = fupd (fs_at t) x (Some (node_of n')) y.
Proof.
  intros Hok Hi Hn Hl (H1 & H2 & H3 & H4 & H5 & H6) Hc. destruct (fs_update t r kids i n n' Hok Hn Hl H1 H2 H3 H4 H5 H6 Hc) as [Hok' Hcores].
  split; [by exists r, kids|]. split; [done|]. apply (fs_at_update t _ r kids kids Hok Hok' i n n' x); auto.
  cbn. apply list_lookup_insert_eq. by eapply lookup_lt_Some.
Qed.

Lemma inode_content t r kids i n : fs_ok t r kids -> inodes t !! i = Some n -> ino n <> 0 ->
  if is_dir n then data n = None /\ size n = 0 else file_ok n.
Proof.
  intros Hok Hi Hl. pose proof (lv_cores t i n Hi Hl) as Hlv. pose proof (co_dir _ _ _ (fs_core _ _ _ Hok) i _ Hlv) as Hd.
  pose proof (co_file _ _ _ (fs_core _ _ _ Hok) i _ Hlv) as Hf. cbn in Hd, Hf. destruct (is_dir n); [by apply Hd|]. by apply Hf.
Qed.

Definition chmod_node (md : Z) (v : fnode) : fnode :=
  {| f_ino := f_ino v; f_mode := u16 (Z.lor (Z.land (f_mode v) (Z.lnot 0xFFF)) (Z.land md 0xFFF)); f_uid := f_uid v; f_gid := f_gid v;
     f_mtime := f_mtime v; f_dir := f_dir v; f_bytes := f_bytes v |}.
Definition chown_node (u g now : Z) (v : fnode) : fnode :=
  {| f_ino := f_ino v; f_mode := f_mode v; f_uid := if decide (u <> U32_MAX) then u else f_uid v; f_gid := if decide (g <> U32_MAX) then g else f_gid v;
     f_mtime := now; f_dir := f_dir v; f_bytes := f_bytes v |}.
Definition content_node (b : list Z) (now : Z) (v : fnode) : fnode :=
  {| f_ino := f_ino v; f_mode := f_mode v; f_uid := f_uid v; f_gid := f_gid v; f_mtime := now; f_dir := f_dir v; f_bytes := b |}.

(** The abstract file system becomes [v'] at [x]. *)
Definition changed (l l' : list tmpfs_data) (m : nat) (t : tmpfs_data) (x : list (list Z)) (v' : fnode) : Prop :=
  exists t', l' = update l m t' /\ tmpfs_inv t' /\ mount_point t' = mount_point t /\ forall y, fs_at t' y = fupd (fs_at t) x (Some v') y.

Lemma tmpfs_attr_spec l p m t x (f : tmpfs_inode -> tmpfs_inode) (g : fnode -> fnode) : mounts_ok l -> resolve l p = Some (m, t, x) ->
  (forall n, same_place n (f n) /\ data (f n) = data n /\ size (f n) = size n /\ data_cap (f n) = data_cap n /\ node_of (f n) = g (node_of n)) ->
  exists l' e, with_inode l (Some p) (fun n => Ok (Some (f n), 0)) = Ok (l', e) /\
    ((l' = l /\ e = - ENOENT /\ fs_at t x = None) \/ (e = 0 /\ exists v, fs_at t x = Some v /\ changed l l' m t x (g v))).
Proof.
  intros Hl Hres Hf. destruct (resolve_Some l p m t x Hres) as (_ & _ & Ht & _). destruct (Forall_lookup_1 _ _ _ _ Hl Ht) as (r & kids & Hok).
  unfold with_inode. destruct (find_inode_spec l p m t x r kids Hres Hok) as [[Hnone ->]|(i & n & -> & Hi & Hn & Hnl & Hat)]; cbn [mbind outcome_bind].
  { do 2 eexists. split; [reflexivity|]. by left. }
  rewrite Ht. cbn [or_ub mbind outcome_bind]. rewrite (load_lookup t i n Hn). cbn [mbind outcome_bind]. do 2 eexists. split; [reflexivity|]. right. split; [done|].
  exists (node_of n). split; [done|]. destruct (Hf n) as (Hs & Ed & Es & Ecap & Eg). rewrite <- Eg. exists (put t i (f n)). split; [done|].
  apply (put_inode_spec t r kids i n); auto. pose proof (inode_content t r kids i n Hok Hn Hnl) as Hc. unfold file_ok in *. by rewrite Ed, Es, Ecap.
Qed.

Lemma tmpfs_chmod_spec l p m t x md : mounts_ok l -> resolve l p = Some (m, t, x) ->
  exists l' e, tmpfs_chmod l (Some p) md = Ok (l', e) /\
    ((l' = l /\ e = - ENOENT /\ fs_at t x = None) \/ (e = 0 /\ exists v, fs_at t x = Some v /\ changed l l' m t x (chmod_node md v))).
Proof.
  intros Hl Hres. unfold tmpfs_chmod.
  apply (tmpfs_attr_spec l p m t x (fun n => set_mode (u16 (Z.lor (Z.land (mode n) (Z.lnot 0xFFF)) (Z.land md 0xFFF))) n)); auto.
  intros n. splits; done.
Qed.

Lemma tmpfs_chown_spec l p m t x u g now : mounts_ok l -> resolve l p = Some (m, t, x) ->
  exists l' e, tmpfs_chown l (Some p) u g now = Ok (l', e) /\
    ((l' = l /\ e = - ENOENT /\ fs_at t x = None) \/ (e = 0 /\ exists v, fs_at t x = Some v /\ changed l l' m t x (chown_node u g now v))).
Proof.
  intros Hl Hres. unfold tmpfs_chown.
  apply (tmpfs_attr_spec l p m t x (fun n => set_owner (if decide (u <> U32_MAX) then u else i_uid n) (if decide (g <> U32_MAX) then g else i_gid n) now n)); auto.
  intros n. splits; done.
Qed.

(** ** Writing, truncating, reading *)

Definition write_refused (F : list (list Z) -> option fnode) (x : list (list Z)) (off count : Z) (mem : bool) (e : Z) : Prop :=
  (e = - EINVAL /\ off < 0) \/ (e = - ENOENT /\ F x = None) \/ (e = - EISDIR /\ is_directory F x) \/
  (e = - EFBIG /\ TMPFS_MAX_FILE_SIZE < off + count) \/ (e = - ENOMEM /\ mem = false).

Lemma tmpfs_write_spec l p m t x w off now mem : mounts_ok l -> resolve l p = Some (m, t, x) ->
  exists l' e cnt, tmpfs_write_file l (Some p) (Some w) off now mem = Ok (l', e, cnt) /\
    ((l' = l /\ cnt = None /\ write_refused (fs_at t) x off (Z.of_nat (length w)) mem e) \/
     (e = 0 /\ cnt = Some (Z.of_nat (length w)) /\ 0 <= off /\ off + Z.of_nat (length w) <= TMPFS_MAX_FILE_SIZE /\ exists v, fs_at t x = Some v /\ f_dir v = false /\
        changed l l' m t x (content_node (write_bytes (f_bytes v) (Z.to_nat off) w) (if decide (0 < Z.of_nat (length w)) then now else f_mtime v) v))).
Proof.
  intros Hl Hres. destruct (resolve_Some l p m t x Hres) as (_ & _ & Ht & _). destruct (Forall_lookup_1 _ _ _ _ Hl Ht) as (r & kids & Hok).
  unfold tmpfs_write_file. set (count := Z.of_nat (length w)).
  destruct (decide (off < 0)) as [H0|H0]; [do 3 eexists; split; [reflexivity|]; left; splits; auto; left; done|].
  destruct (find_inode_spec l p m t x r kids Hres Hok) as [[Hnone ->]|(i & n & -> & Hi & Hn & Hnl & Hat)]; cbn [mbind outcome_bind].
  { do 3 eexists. split; [reflexivity|]. left. splits; auto. right. left. done. }
  rewrite Ht. cbn [or_ub mbind outcome_bind]. rewrite (load_lookup t i n Hn). cbn [mbind outcome_bind].
  pose proof (inode_content t r kids i n Hok Hn Hnl) as Hc. destruct (is_dir n) eqn:Ed.
  { do 3 eexists. split; [reflexivity|]. left. splits; auto. right. right. left. split; [done|]. by exists (node_of n). }
  case_decide as Hbig. { do 3 eexists. split; [reflexivity|]. left. splits; auto. right. right. right. left. split; [done|]. unfold TMPFS_MAX_FILE_SIZE in *. lia. }
  pose proof (length_bytes n Hc) as Hlen. pose proof Hc as [Hsz Hdata].
  assert (Hdone : forall n2, same_place n n2 -> file_ok n2 -> node_of n2 = content_node (write_bytes (bytes_of_inode n) (Z.to_nat off) w) (if decide (0 < count) then now else mtime n) (node_of n) ->
    exists l' e cnt, Ok (update l m (put t i n2), 0, Some count) = Ok (l', e, cnt) /\ ((l' = l /\ cnt = None /\ write_refused (fs_at t) x off count mem e) \/
     (e = 0 /\ cnt = Some count /\ 0 <= off /\ off + count <= TMPFS_MAX_FILE_SIZE /\ exists v, fs_at t x = Some v /\ f_dir v = false /\
        changed l l' m t x (content_node (write_bytes (f_bytes v) (Z.to_nat off) w) (if decide (0 < count) then now else f_mtime v) v)))).
  { intros n2 Hs2 Hf2 E2. do 3 eexists. split; [reflexivity|]. right. splits; auto; [lia|lia|]. exists (node_of n). splits; auto.
    exists (put t i n2). split; [done|]. cbn [f_bytes f_mtime node_of]. rewrite <- E2. apply (put_inode_spec t r kids i n); auto. by rewrite Ed. }
  destruct (decide (size n < off + count)) as [Hgrow|Hgrow].
  - destruct mem; cbn [negb mbind outcome_bind]; [|do 3 eexists; split; [reflexivity|]; left; splits; auto; right; right; right; right; done].
    rewrite (grown_block_spec n (off + count) Hc). cbn [mbind outcome_bind]. set (b := bytes_of_inode n ++ replicate (Z.to_nat (off + count - size n)) 0).
    assert (Hbl : Z.of_nat (length b) = off + count) by (unfold b; rewrite length_app, length_replicate; lia).
    assert (Hb2 : take (Z.to_nat off) b ++ w = write_bytes (bytes_of_inode n) (Z.to_nat off) w) by (unfold b; apply write_bytes_grow; lia).
    destruct (decide (0 < count)) as [Hcnt|Hcnt].
    + cbn [data set_content or_ub mbind outcome_bind]. unfold write_block. rewrite decide_True by lia. cbn [mbind outcome_bind].
      rewrite (drop_ge b) by lia. rewrite app_nil_r, Hb2. apply Hdone; [done| |].
      * unfold file_ok. cbn. split; [unfold TMPFS_MAX_FILE_SIZE in *; lia|]. rewrite <- Hb2, length_app, length_take. lia.
      * unfold node_of, content_node, bytes_of_inode at 1. cbn. f_equal. rewrite take_ge; [done|]. rewrite <- Hb2, length_app, length_take. lia.
    + cbn [mbind outcome_bind]. assert (w = []) as -> by (by destruct w; [|cbn in *; lia]). rewrite app_nil_r, take_ge in Hb2 by lia. apply Hdone; [done| |].
      * unfold file_ok. cbn. split; [unfold TMPFS_MAX_FILE_SIZE in *; lia|]. lia.
      * unfold node_of, content_node, bytes_of_inode at 1. cbn. f_equal. rewrite take_ge by lia. done.
  - cbn [mbind outcome_bind]. destruct (decide (0 < count)) as [Hcnt|Hcnt].
    + destruct (data n) as [b|] eqn:Eb; [|lia]. cbn [or_ub mbind outcome_bind]. unfold write_block. rewrite decide_True by lia. cbn [mbind outcome_bind]. apply Hdone; [done| |].
      * unfold file_ok. cbn. split; [done|]. rewrite !length_app, length_take, length_drop. lia.
      * unfold node_of, content_node, bytes_of_inode at 1. cbn. f_equal. rewrite write_bytes_inside by lia. unfold bytes_of_inode. by rewrite Eb.
    + cbn [mbind outcome_bind]. assert (w = []) as -> by (by destruct w; [|cbn in *; lia]). apply Hdone; [done|done|].
      unfold node_of, content_node. f_equal. unfold write_bytes. cbn [length]. rewrite Nat.add_0_r.
      replace (Z.to_nat off - length (bytes_of_inode n))%nat with O by lia. cbn [replicate app]. by rewrite app_nil_r, take_drop.
Qed.

Definition truncate_refused (F : list (list Z) -> option fnode) (x : list (list Z)) (len : Z) (e : Z) : Prop :=
  (e = - ENOENT /\ F x = None) \/ (e = - EISDIR /\ is_directory F x) \/ (e = - EFBIG /\ TMPFS_MAX_FILE_SIZE < len).

Lemma tmpfs_truncate_spec l p m t x len now : mounts_ok l -> resolve l p = Some (m, t, x) -> 0 <= len ->
  exists l' e, tmpfs_truncate l (Some p) len now true = Ok (l', e) /\
    ((l' = l /\ truncate_refused (fs_at t) x len e) \/
     (e = 0 /\ len <= TMPFS_MAX_FILE_SIZE /\ exists v, fs_at t x = Some v /\ f_dir v = false /\
        changed l l' m t x (content_node (truncate_bytes (f_bytes v) (Z.to_nat len)) now v))).
Proof.
  intros Hl Hres Hlen0. destruct (resolve_Some l p m t x Hres) as (_ & _ & Ht & _). destruct (Forall_lookup_1 _ _ _ _ Hl Ht) as (r & kids & Hok).
  unfold tmpfs_truncate, with_inode.
  destruct (find_inode_spec l p m t x r kids Hres Hok) as [[Hnone ->]|(i & n & -> & Hi & Hn & Hnl & Hat)]; cbn [mbind outcome_bind].
  { do 2 eexists. split; [reflexivity|]. left. split; [done|]. left. done. }
  rewrite Ht. cbn [or_ub mbind outcome_bind]. rewrite (load_lookup t i n Hn). cbn [mbind outcome_bind].
  pose proof (inode_content t r kids i n Hok Hn Hnl) as Hc. destruct (is_dir n) eqn:Ed.
  { do 2 eexists. split; [reflexivity|]. left. split; [done|]. right. left. split; [done|]. by exists (node_of n). }
  case_decide as Hbig; [do 2 eexists; split; [reflexivity|]; left; split; [done|]; right; right; done|].
  pose proof (length_bytes n Hc) as Hlen. pose proof Hc as [Hsz Hdata].
  assert (Hdone : forall s cap d, s = len -> file_ok (set_content s cap d now n) ->
    bytes_of_inode (set_content s cap d now n) = truncate_bytes (bytes_of_inode n) (Z.to_nat len) ->
    exists l' e, Ok (update l m (put t i (set_content s cap d now n)), 0) = Ok (l', e) /\ ((l' = l /\ truncate_refused (fs_at t) x len e) \/
     (e = 0 /\ len <= TMPFS_MAX_FILE_SIZE /\ exists v, fs_at t x = Some v /\ f_dir v = false /\ changed l l' m t x (content_node (truncate_bytes (f_bytes v) (Z.to_nat len)) now v)))).
  { intros s cap d -> Hf E. do 2 eexists. split; [reflexivity|]. right. split; [done|]. split; [lia|]. exists (node_of n). splits; auto. eexists. split; [reflexivity|].
    assert (En : content_node (truncate_bytes (f_bytes (node_of n)) (Z.to_nat len)) now (node_of n) = node_of (set_content len cap d now n)).
    { unfold content_node, node_of. rewrite E. done. }
    rewrite En. apply (put_inode_spec t r kids i n); auto; [done|by rewrite Ed]. }
  destruct (decide (len < size n)) as [Hlt|Hge].
  - apply Hdone; auto.
    + unfold file_ok. cbn. split; [lia|]. destruct (data n); lia.
    + unfold bytes_of_inode, truncate_bytes. cbn. destruct (data n) as [b|]; [|lia]. rewrite take_take, Nat.min_l by lia.
      rewrite length_take. replace (Z.to_nat len - Z.to_nat (size n) `min` length b)%nat with O by lia. cbn. by rewrite app_nil_r.
  - assert (Et : truncate_bytes (bytes_of_inode n) (Z.to_nat len) = bytes_of_inode n ++ replicate (Z.to_nat (len - size n)) 0).
    { unfold truncate_bytes. rewrite take_ge by lia. do 2 f_equal. lia. }
    destruct (decide (size n < len)) as [Hgt|Heq].
    + assert (Hnew : exists l' e, ('(n', e) ← (b ← grown_block n len; Ok (Some (set_content len len (Some b) now n), 0));
          Ok (match n' with Some n' => update l m (put t i n') | None => l end, e)) = Ok (l', e) /\ ((l' = l /\ truncate_refused (fs_at t) x len e) \/
        (e = 0 /\ len <= TMPFS_MAX_FILE_SIZE /\ exists v, fs_at t x = Some v /\ f_dir v = false /\ changed l l' m t x (content_node (truncate_bytes (f_bytes v) (Z.to_nat len)) now v)))).
      { rewrite (grown_block_spec n len Hc). cbn [mbind outcome_bind]. rewrite <- Et.
        assert (El : Z.of_nat (length (truncate_bytes (bytes_of_inode n) (Z.to_nat len))) = len) by (rewrite Et, length_app, length_replicate; lia).
        apply Hdone; [done|unfold file_ok; cbn; lia|]. unfold bytes_of_inode at 1. cbn. rewrite take_ge by lia. done. }
      destruct (data n) as [b|] eqn:Eb; [|exact Hnew]. case_decide as Hcap; [|exact Hnew].
      unfold write_block. rewrite length_replicate, decide_True by lia. cbn [mbind outcome_bind].
      apply Hdone; [done| |].
      * unfold file_ok. cbn. split; [lia|]. rewrite !length_app, length_replicate, length_take, length_drop. lia.
      * rewrite Et. unfold bytes_of_inode. cbn. rewrite Eb, app_assoc, take_app_le by (rewrite length_app, length_take, length_replicate; lia).
        rewrite take_ge; [done|]. rewrite length_app, length_take, length_replicate. lia.
    + apply Hdone; [lia|done|]. unfold bytes_of_inode at 1. cbn. rewrite Et. replace (Z.to_nat (len - size n)) with O by lia. cbn. by rewrite app_nil_r.
Qed.

(** Without memory only a truncate that lengthens a file differs: it panics. *)
Lemma tmpfs_truncate_nomem l p m t x len now : mounts_ok l -> resolve l p = Some (m, t, x) ->
  tmpfs_truncate l (Some p) len now false = tmpfs_truncate l (Some p) len now true \/
  (exists msg, tmpfs_truncate l (Some p) len now false = Panic msg) /\ len <= TMPFS_MAX_FILE_SIZE /\
  exists v, fs_at t x = Some v /\ f_dir v = false /\ Z.of_nat (length (f_bytes v)) < len.
Proof.
  intros Hl Hres. destruct (resolve_Some l p m t x Hres) as (_ & _ & Ht & _). destruct (Forall_lookup_1 _ _ _ _ Hl Ht) as (r & kids & Hok).
  unfold tmpfs_truncate, with_inode.
  destruct (find_inode_spec l p m t x r kids Hres Hok) as [[Hnone ->]|(i & n & -> & Hi & Hn & Hnl & Hat)]; cbn [mbind outcome_bind]; [by left|].
  rewrite Ht. cbn [or_ub mbind outcome_bind]. rewrite (load_lookup t i n Hn). cbn [mbind outcome_bind].
  pose proof (inode_content t r kids i n Hok Hn Hnl) as Hc. destruct (is_dir n) eqn:Ed; [by left|].
  case_decide as Hbig; [by left|]. pose proof (length_bytes n Hc) as Hlen. case_decide; [by left|].
  destruct (decide (size n < len)) as [Hgt|]; [|by left].
  assert (Hv : exists v, fs_at t x = Some v /\ f_dir v = false /\ Z.of_nat (length (f_bytes v)) < len)
    by (exists (node_of n); splits; [done|done|]; cbn; by rewrite Hlen).
  destruct (data n); [case_decide; [by left|]|]; right; cbn; (split; [by eexists|split; [lia|exact Hv]]).
Qed.

(** Reading returns a slice of the contents; at or past the end, and at a
    negative offset, nothing is stored through [read_count]. *)
Lemma tmpfs_read_spec l p m t x count off : mounts_ok l -> resolve l p = Some (m, t, x) -> 0 <= count ->
  tmpfs_read_file l (Some p) true count off = Ok (
    match fs_at t x with
    | None => (- ENOENT, [], None)
    | Some v => if f_dir v then (- EISDIR, [], None) else
                if decide (off < 0 \/ Z.of_nat (length (f_bytes v)) <= off) then (0, [], None) else
                let b := take (Z.to_nat count) (drop (Z.to_nat off) (f_bytes v)) in (0, b, Some (Z.of_nat (length b)))
    end).
Proof.
  intros Hl Hres Hcnt. destruct (resolve_Some l p m t x Hres) as (_ & _ & Ht & _). destruct (Forall_lookup_1 _ _ _ _ Hl Ht) as (r & kids & Hok).
  unfold tmpfs_read_file. cbn [negb].
  destruct (find_inode_spec l p m t x r kids Hres Hok) as [[-> ->]|(i & n & -> & Hi & Hn & Hnl & ->)]; cbn [mbind outcome_bind]; [done|].
  rewrite Ht. cbn [or_ub mbind outcome_bind]. rewrite (load_lookup t i n Hn). cbn [mbind outcome_bind f_dir f_bytes node_of].
  pose proof (inode_content t r kids i n Hok Hn Hnl) as Hc. destruct (is_dir n); [done|]. pose proof (length_bytes n Hc) as Hlen. rewrite Hlen.
  case_decide as Hr; [done|]. pose proof Hc as [Hsz Hdata]. unfold bytes_of_inode in *. destruct (data n) as [b|]; [|lia].
  set (k := if decide (count < size n - off) then count else size n - off).
  assert (Hk : k = Z.min count (size n - off)) by (unfold k; case_decide; lia). clearbody k.
  assert (E : take (Z.to_nat k) (drop (Z.to_nat off) b) = take (Z.to_nat count) (drop (Z.to_nat off) (take (Z.to_nat (size n)) b))).
  { rewrite skipn_firstn_comm, take_take. f_equal. lia. }
  rewrite <- E. assert (El : Z.of_nat (length (take (Z.to_nat k) (drop (Z.to_nat off) b))) = k) by (rewrite length_take, length_drop; lia).
  case_decide as Hk0.
  - unfold read_block. rewrite decide_True by lia. cbn [mbind outcome_bind]. by rewrite El.
  - cbn [mbind outcome_bind]. rewrite El. replace (Z.to_nat k) with O by lia. done.
Qed.
