(* ===== verification/TmpfsFree.v ===== *)
(** * Freeing a whole tmpfs tree

    [tmpfs_free_inode] on an inode with descendants, as [tmpfs_umount] calls it
    on the root: the recursion ends, every inode of the subtree is cleared and
    its data block freed, and nothing else is touched but the parent's list
    head. *)

From S2P Require Import Prelude Bytes Perm Tmpfs TmpfsTree TmpfsOps.

(** The subtree at [c] has the inodes [S] and is less than [h] deep. *)
Fixpoint sub (h : nat) (t : tmpfs_data) (c : nat) (S : list nat) : Prop :=
  match h with
  | O => False
  | Datatypes.S h' => exists n ks Ss, inodes t !! c = Some n /\ chain t (children n) ks /\ Forall2 (sub h' t) ks Ss /\
      Forall (fun k => exists kn, inodes t !! k = Some kn /\ parent kn = Some c) ks /\
      S = c :: concat Ss /\ NoDup S /\ (length ks <= TMPFS_MAX_FILES)%nat
  end.

Lemma sub_head h t c S : sub h t c S -> c ∈ S.
Proof. destruct h; [done|]. intros (n & ks & Ss & _ & _ & _ & _ & -> & _). by left. Qed.

Lemma Forall2_heads h t ks Ss : Forall2 (sub h t) ks Ss -> forall k, k ∈ ks -> k ∈ concat Ss.
Proof.
  induction 1 as [|k S ks Ss Hk _ IH]; intros j Hj; [by apply elem_of_nil in Hj|]. cbn. apply elem_of_app.
  apply elem_of_cons in Hj as [->|Hj]; [left; by eapply sub_head|right; auto].
Qed.

Lemma sub_frame h t t' c S : (forall j, j ∈ S -> inodes t' !! j = inodes t !! j) -> sub h t c S -> sub h t' c S.
Proof.
  revert c S. induction h as [|h IH]; intros c S Hf; [done|]. intros (n & ks & Ss & Hn & Hc & Hs & Hp & -> & Hnd & Hl).
  exists n, ks, Ss. rewrite Hf by (by left). splits; auto.
  - apply (chain_frame t); [|done]. intros k m Hk Hm. exists m. rewrite Hf; [done|]. right. by eapply Forall2_heads.
  - clear -IH Hs Hf. assert (Hf' : forall j, j ∈ concat Ss -> inodes t' !! j = inodes t !! j) by (intros; apply Hf; by right). clear Hf.
    induction Hs as [|k S ks Ss Hk _ IH2]; [constructor|]. constructor.
    + apply IH; [|done]. intros j Hj. apply Hf'. cbn. apply elem_of_app. auto.
    + apply IH2. intros j Hj. apply Hf'. cbn. apply elem_of_app. auto.
  - apply Forall_forall. intros k Hk. rewrite Forall_forall in Hp. destruct (Hp k Hk) as (kn & Hkn & ?). exists kn. rewrite Hf; [done|]. right. by eapply Forall2_heads.
Qed.

(** The list pointer of the parent, when there is one. *)
Definition head_of (t : tmpfs_data) (c : nat) (S : list nat) (n : tmpfs_inode) : Prop :=
  match parent n with
  | None => True
  | Some p => (p ∉ S) /\ exists pn, inodes t !! p = Some pn /\ children pn = Some c
  end.

(** Effect of freeing: [S] cleared, the parent's list advanced, the rest kept. *)
Definition freed (t t' : tmpfs_data) (S : list nat) (n : tmpfs_inode) : Prop :=
  (forall j, j ∈ S -> inodes t' !! j = Some inode_zero) /\
  (forall j, j ∉ S -> parent n <> Some j -> inodes t' !! j = inodes t !! j) /\
  (forall p pn, parent n = Some p -> inodes t !! p = Some pn -> inodes t' !! p = Some (set_children (sibling n) pn)).

(** The loop over the children, as [tmpfs_free_inode] runs it. *)
Fixpoint free_children (f k : nat) (t : tmpfs_data) (child : option nat) : outcome tmpfs_data :=
  match k with
  | O => UB
  | S k' => match child with
            | None => Ok t
            | Some c => cn ← load t c; t ← tmpfs_free_inode f t c; free_children f k' t (sibling cn)
            end
  end.

Lemma free_inode_unfold f t i : tmpfs_free_inode (S f) t i =
  (n ← load t i;
   let t := match data n with Some _ => set_total (u64 (total_size t - size n)) t | None => t end in
   t ← unlink_inode t i;
   n ← load t i;
   t ← free_children f (S TMPFS_MAX_FILES) t (children n);
   Ok (put t i inode_zero)).
Proof. reflexivity. Qed.

Lemma unlink_head t c S n : inodes t !! c = Some n -> c ∈ S -> head_of t c S n ->
  exists t1, unlink_inode t c = Ok t1 /\
    (forall j, parent n <> Some j -> inodes t1 !! j = inodes t !! j) /\
    (forall p pn, parent n = Some p -> inodes t !! p = Some pn -> inodes t1 !! p = Some (set_children (sibling n) pn)).
Proof.
  intros Hn Hc Hh. unfold unlink_inode. rewrite (load_lookup t c n Hn). cbn [mbind outcome_bind]. unfold head_of in Hh. destruct (parent n) as [p|].
  - destruct Hh as (Hp & pn & Hpn & Hch). rewrite (load_lookup t p pn Hpn). cbn [mbind outcome_bind]. rewrite Hch. cbn [find_prev]. rewrite decide_True by done.
    cbn [mbind outcome_bind]. eexists. split; [reflexivity|]. split.
    + intros j Hj. cbn. apply list_lookup_insert_ne. congruence.
    + intros p' pn' [= <-] Hpn'. assert (pn' = pn) as -> by congruence. cbn. apply list_lookup_insert_eq. by eapply lookup_lt_Some.
  - exists t. split; [done|]. split; [done|]. intros p pn E. done.
Qed.

Lemma free_children_spec f c : (forall t k S n, sub f t k S -> inodes t !! k = Some n -> head_of t k S n -> exists t', tmpfs_free_inode f t k = Ok t' /\ freed t t' S n) ->
  forall ks Ss fuel t n, inodes t !! c = Some n -> chain t (children n) ks -> Forall2 (sub f t) ks Ss ->
    Forall (fun k => exists kn, inodes t !! k = Some kn /\ parent kn = Some c) ks -> NoDup (c :: concat Ss) -> (length ks < fuel)%nat ->
  exists t', free_children f fuel t (children n) = Ok t' /\ (forall j, j ∈ concat Ss -> inodes t' !! j = Some inode_zero) /\
    (forall j, j <> c -> j ∉ concat Ss -> inodes t' !! j = inodes t !! j) /\ is_Some (inodes t' !! c).
Proof.
  intros IH ks. induction ks as [|k ks IHk]; intros Ss fuel t n Hn Hch Hsub Hpar Hnd Hf; (destruct fuel as [|fuel]; [cbn in Hf; lia|]).
  { cbn in Hch. rewrite Hch. inversion Hsub; subst. exists t. cbn. splits; eauto. intros j Hj. by apply elem_of_nil in Hj. }
  destruct Hch as (Hck & kn & Hkn & Hch). apply Forall2_cons_inv_l in Hsub as (S & Ss' & Hk & Hsub & ->). apply Forall_cons in Hpar as [(kn' & Hkn' & Hkp) Hpar].
  assert (kn' = kn) as -> by congruence. rewrite Hck. cbn [free_children]. rewrite (load_lookup t k kn Hkn). cbn [mbind outcome_bind concat] in *.
  apply NoDup_cons in Hnd as [Hcn Hnd]. apply NoDup_app in Hnd as (HndS & Hdisj & HndR). rewrite elem_of_app in Hcn.
  destruct (IH t k S kn Hk Hkn) as (t1 & -> & Hz & Hkeep & Hpc).
  { unfold head_of. rewrite Hkp. split; [tauto|]. eauto. }
  cbn [mbind outcome_bind]. pose proof (Hpc c n Hkp Hn) as Hc1.
  assert (Hk1 : forall j, j ∈ concat Ss' -> inodes t1 !! j = inodes t !! j).
  { intros j Hj. apply Hkeep; [intros Hj'; by apply (Hdisj j)|]. rewrite Hkp. intros [= <-]. tauto. }
  destruct (IHk Ss' fuel t1 (set_children (sibling kn) n) Hc1) as (t2 & E2 & Hz2 & Hkeep2 & Hc2).
  - cbn [children set_children]. apply (chain_frame t); [|done]. intros j m Hj Hm. exists m. rewrite Hk1; [done|]. by eapply Forall2_heads.
  - clear -Hsub Hk1. induction Hsub as [|j S0 js Ss0 Hj _ IH2]; [constructor|]. constructor.
    + apply (sub_frame f t); [|done]. intros q Hq. apply Hk1. cbn. apply elem_of_app. auto.
    + apply IH2. intros q Hq. apply Hk1. cbn. apply elem_of_app. auto.
  - apply Forall_forall. intros j Hj. rewrite Forall_forall in Hpar. destruct (Hpar j Hj) as (jn & Hjn & ?). exists jn. rewrite Hk1; [done|]. by eapply Forall2_heads.
  - constructor; [tauto|done].
  - cbn in Hf. lia.
  - cbn [children set_children] in E2. exists t2. splits; auto.
    + intros j Hj. apply elem_of_app in Hj as [Hj|Hj]; [|auto]. rewrite Hkeep2; [auto|intros ->; tauto|]. intros Hj'. by apply (Hdisj j).
    + intros j Hjc Hj. rewrite elem_of_app in Hj. rewrite Hkeep2 by tauto. apply Hkeep; [tauto|]. rewrite Hkp. congruence.
Qed.

(** Freeing a subtree ends and does exactly that. *)
Lemma free_sub h t c S n : sub h t c S -> inodes t !! c = Some n -> head_of t c S n ->
  exists t', tmpfs_free_inode h t c = Ok t' /\ freed t t' S n.
Proof.
  revert t c S n. induction h as [|h IH]; intros t c S n; [done|]. intros Hsub Hn Hh. pose proof (sub_head _ _ _ _ Hsub) as Hc.
  rewrite free_inode_unfold, (load_lookup t c n Hn). cbn [mbind outcome_bind].
  set (t0 := match data n with Some _ => set_total (u64 (total_size t - size n)) t | None => t end).
  assert (Hi0 : inodes t0 = inodes t) by (unfold t0; by destruct (data n)).
  destruct (unlink_head t0 c S n) as (t1 & -> & Hk1 & Hp1); [by rewrite Hi0|done|unfold head_of in *; by rewrite Hi0|]. rewrite Hi0 in Hk1, Hp1. cbn [mbind outcome_bind].
  assert (Hpn : forall j, parent n = Some j -> j ∉ S) by (unfold head_of in Hh; intros j E; rewrite E in Hh; tauto).
  assert (Hin : forall j, j ∈ S -> inodes t1 !! j = inodes t !! j) by (intros j Hj; apply Hk1; intros E; by apply (Hpn j)).
  apply (sub_frame _ t t1 c S Hin) in Hsub. destruct Hsub as (n' & ks & Ss & Hn' & Hch & Hs & Hpar & -> & Hnd & Hl).
  assert (n' = n) as -> by (rewrite Hin in Hn' by done; congruence).
  rewrite (load_lookup t1 c n Hn'). cbn [mbind outcome_bind].
  destruct (free_children_spec h c (fun t k S n => IH t k S n) ks Ss (S TMPFS_MAX_FILES) t1 n Hn' Hch Hs Hpar Hnd ltac:(lia)) as (t2 & -> & Hz & Hkeep & Hc2).
  cbn [mbind outcome_bind]. eexists. split; [reflexivity|].
  assert (Hlk : forall j, inodes (put t2 c inode_zero) !! j = if decide (j = c) then Some inode_zero else inodes t2 !! j).
  { intros j. cbn. case_decide; [subst; apply list_lookup_insert_eq; destruct Hc2; by eapply lookup_lt_Some|by apply list_lookup_insert_ne]. }
  split; [|split].
  - intros j Hj. rewrite Hlk. case_decide; [done|]. apply Hz. by apply elem_of_cons in Hj as [?|?].
  - intros j Hj Hp. apply not_elem_of_cons in Hj as [Hjc Hj]. rewrite Hlk, decide_False by done. rewrite Hkeep by done. auto.
  - intros p pn Hp Hpn'. pose proof (Hpn p Hp) as Hps. apply not_elem_of_cons in Hps as [Hpc Hps]. rewrite Hlk, decide_False by done. rewrite Hkeep by done. by apply Hp1.
Qed.

(** ** The tree of a consistent instance is such a subtree *)

Section tree.
Context (t : tmpfs_data) (r : nat) (kids : nat -> list nat) (Hok : fs_ok t r kids).
Abbreviation at_path := (path_to (cores t) r).

Lemma kids_sub h i x ks : at_path i x -> NoDup ks -> (forall k, k ∈ ks -> k ∈ kids i) ->
  (forall k kn, k ∈ ks -> inodes t !! k = Some kn -> exists S, sub h t k S /\ forall j, j ∈ S <-> exists y, at_path j ((x ++ [name kn]) ++ y)) ->
  exists Ss, Forall2 (sub h t) ks Ss /\ NoDup (concat Ss) /\
    forall j, j ∈ concat Ss <-> exists k kn y, k ∈ ks /\ inodes t !! k = Some kn /\ at_path j ((x ++ [name kn]) ++ y).
Proof using Hok.
  intros Hi. induction ks as [|k ks IH]; intros Hnd Hsub Hks.
  { exists []. splits; [constructor|constructor|]. intros j. split; [intros Hj; by apply elem_of_nil in Hj|]. intros (k & _ & _ & Hk & _). by apply elem_of_nil in Hk. }
  apply NoDup_cons in Hnd as [Hk Hnd]. destruct IH as (Ss & HSs & HndS & Hin); [done|intros; apply Hsub; by right|intros j jn Hj; apply Hks; by right|].
  destruct (kids_live t r kids Hok i k (Hsub k ltac:(by left))) as (kn & Hkn & _).
  destruct (Hks k kn ltac:(by left) Hkn) as (S & HS & HinS). exists (S :: Ss). split; [by constructor|]. split.
  - cbn. apply NoDup_app. splits; auto.
    + destruct h; [done|]. by destruct HS as (? & ? & ? & _ & _ & _ & _ & -> & ? & _).
    + intros j Hj Hj'. apply HinS in Hj as [y Hy]. apply Hin in Hj' as (k' & kn' & y' & Hk' & Hkn' & Hy').
      pose proof (path_unique _ _ _ (fs_core _ _ _ Hok) j _ _ Hy Hy') as E. rewrite <- !app_assoc in E. apply app_inv_head in E. cbn in E. injection E as E _.
      assert (k = k') as -> by (apply (kids_names t r kids Hok i k k' kn kn'); auto; apply Hsub; [by left|by right]). done.
  - intros j. cbn. rewrite elem_of_app, HinS, Hin. split.
    + intros [[y Hy]|(k' & kn' & y & Hk' & ?)]; [exists k, kn, y; splits; auto; by left|exists k', kn', y; split; [by right|done]].
    + intros (k' & kn' & y & Hk' & Hkn' & Hy). apply elem_of_cons in Hk' as [->|Hk']; [left; assert (kn' = kn) as -> by congruence; eauto|right; eauto 8].
Qed.

Lemma fs_sub h i x n : at_path i x -> inodes t !! i = Some n -> (Z.to_nat (next_ino t - ino n) < h)%nat ->
  exists S, sub h t i S /\ forall j, j ∈ S <-> exists y, at_path j (x ++ y).
Proof using Hok.
  revert i x n. induction h as [|h IH]; intros i x n Hi Hn Hh; [lia|].
  destruct (path_lookup t r kids Hok i x Hi) as (n' & Hn' & Hl). assert (n' = n) as -> by congruence.
  destruct (kids_sub h i x (kids i) Hi (fs_nodup _ _ _ Hok i)) as (Ss & HSs & Hnd & Hin); [done| |].
  { intros k kn Hk Hkn. destruct (kids_live t r kids Hok i k Hk) as (kn' & Hkn' & Hkl & Hkp). assert (kn' = kn) as -> by congruence.
    apply (IH k (x ++ [name kn]) kn); [apply (path_child t r kids Hok i x k); eauto|done|].
    destruct (co_parent _ _ _ (fs_core _ _ _ Hok) k (strip kn) i (lv_cores t k kn Hkn Hkl) Hkp) as (pn & Hpn & _ & Hlt).
    destruct (live_lookup t i pn Hpn) as (m & Hm & -> & _). assert (m = n) as -> by congruence. cbn in Hlt.
    pose proof (co_ino _ _ _ (fs_core _ _ _ Hok) k (strip kn) (lv_cores t k kn Hkn Hkl)) as Hb. cbn in Hb. lia. }
  assert (Hself : i ∉ concat Ss).
  { intros H. apply Hin in H as (k & kn & y & _ & _ & Hy). pose proof (path_unique _ _ _ (fs_core _ _ _ Hok) i _ _ Hi Hy) as E.
    apply (f_equal length) in E. rewrite !length_app in E. cbn in E. lia. }
  exists (i :: concat Ss). split.
  - exists n, (kids i), Ss. splits; auto.
    + by apply (fs_chain _ _ _ Hok i).
    + apply Forall_forall. intros k Hk. destruct (kids_live t r kids Hok i k Hk) as (kn & ? & _ & ?). eauto.
    + by constructor.
    + by apply (kids_length t r kids Hok).
  - intros j. rewrite elem_of_cons, Hin. split.
    + intros [->|(k & kn & y & _ & _ & Hy)]; [exists []; by rewrite app_nil_r|]. rewrite <- app_assoc in Hy. eauto.
    + intros [y Hy]. destruct y as [|c y]; [left; rewrite app_nil_r in Hy; by apply (path_inj _ _ _ (fs_core _ _ _ Hok) j i x)|right].
      assert (Hy' : at_path j ((x ++ [c]) ++ y)) by (by rewrite <- app_assoc). destruct (path_prefix t r j _ _ Hy') as [k Hk].
      apply (path_child t r kids Hok i x k c Hi) in Hk as (kn & Hk & Hkn & <-). eauto 8.
Qed.
End tree.

(** The recursion of [tmpfs_umount] ends and clears the whole table: every
    inode is zeroed, so every data block has been handed back to the heap. *)
Lemma free_root t r kids : fs_ok t r kids ->
  exists t', tmpfs_free_inode (free_fuel t) t r = Ok t' /\ forall j, (j < TMPFS_MAX_FILES)%nat -> inodes t' !! j = Some inode_zero.
Proof.
  intros Hok. destruct (co_root _ _ _ (fs_core _ _ _ Hok)) as (rn' & Hr & _ & Hrp). destruct (live_lookup t r rn' Hr) as (rn & Hrn & -> & Hrl).
  pose proof (co_ino _ _ _ (fs_core _ _ _ Hok) r _ Hr) as Hb. cbn in Hb, Hrp.
  destruct (fs_sub t r kids Hok (free_fuel t) r [] rn) as (S & HS & Hin); [constructor|done|unfold free_fuel; lia|].
  destruct (free_sub (free_fuel t) t r S rn HS Hrn) as (t' & E & Hz & Hkeep & _); [unfold head_of; by rewrite Hrp|].
  exists t'. split; [done|]. intros j Hj. destruct (decide (j ∈ S)) as [HjS|HjS]; [by apply Hz|]. rewrite Hkeep by (done || congruence).
  destruct (inodes t !! j) as [n|] eqn:Ej; [|apply lookup_ge_None in Ej; rewrite (fs_length t r kids Hok) in Ej; lia].
  destruct (decide (ino n = 0)) as [Hz0|Hl]; [by rewrite (fs_dead _ _ _ Hok j n Ej Hz0)|].
  destruct HjS. apply Hin. destruct (path_exists _ _ _ (fs_core _ _ _ Hok) j (strip n) (lv_cores t j n Ej Hl)) as [y Hy]. eauto.
Qed.
