(* ===== verification/TmpfsSpec.v ===== *)
(** * tmpfs: correctness

    The operations refine operations on a tree of paths, reads return what
    writes stored, unmounting frees everything; then what the code does that its
    callers do not expect. *)

From S2P Require Import Prelude Bytes Perm Tmpfs TmpfsTree TmpfsOps TmpfsFree.

(** ** Mounting *)

Definition empty_instance (mp : list Z) (now : Z) : tmpfs_data :=
  {| root := Some 0%nat;
     inodes := Inode 1 (Z.lor S_IFDIR 0x1ED) ROOT_UID ROOT_GID 0 0 true [SLASH] None None None None now :: replicate 127 inode_zero;
     next_ino := 1; total_size := 0; mount_point := mp |}.

Lemma empty_lookup mp now j n : inodes (empty_instance mp now) !! j = Some n ->
  (j = 0%nat /\ ino n = 1 /\ parent n = None /\ is_dir n = true /\ children n = None /\ data n = None /\ size n = 0) \/ (0 < j < 128 /\ n = inode_zero)%nat.
Proof.
  cbn [inodes empty_instance]. destruct j as [|j]; cbn [lookup list_lookup]; [intros [= <-]; by left|]. intros H. apply lookup_replicate in H as [-> ?]. right. split; [lia|done].
Qed.

Lemma empty_live mp now j n : lv (cores (empty_instance mp now)) j n ->
  j = 0%nat /\ ino n = 1 /\ parent n = None /\ is_dir n = true /\ data n = None /\ size n = 0.
Proof.
  intros H. apply live_lookup in H as (m & Hm & -> & Hl). destruct (empty_lookup _ _ _ _ Hm) as [(-> & H1 & H2 & H3 & _ & H4 & H5)|[_ ->]]; [done|done].
Qed.

Lemma empty_inv mp now : tmpfs_inv (empty_instance mp now).
Proof.
  exists 0%nat, (fun _ => []). split.
  - done.
  - split.
    + intros j n H. apply cores_lookup in H as (m & Hm & _). unfold TMPFS_MAX_FILES. destruct (empty_lookup _ _ _ _ Hm) as [(-> & _)|[? _]]; lia.
    + intros j Hj. unfold cores. destruct (lookup_lt_is_Some_2 (inodes (empty_instance mp now)) j) as [n ->]; [exact Hj|by eexists].
    + intros j n H Hz. apply cores_lookup in H as (m & Hm & ->). destruct (empty_lookup _ _ _ _ Hm) as [(_ & E & _)|[_ ->]]; [cbn in Hz; congruence|done].
    + eexists. split; [split; [reflexivity|done]|done].
    + intros j n H _. by destruct (empty_live _ _ _ _ H).
    + intros j n p H E. destruct (empty_live _ _ _ _ H) as (_ & _ & E' & _). congruence.
    + intros j n p H E. destruct (empty_live _ _ _ _ H) as (_ & _ & E' & _). congruence.
    + intros j j' n n' H H' _ _. destruct (empty_live _ _ _ _ H), (empty_live _ _ _ _ H'). congruence.
    + intros j n H. destruct (empty_live _ _ _ _ H) as (_ & -> & _). cbn. lia.
    + intros j j' n n' H H' _. destruct (empty_live _ _ _ _ H), (empty_live _ _ _ _ H'). congruence.
    + intros j n H E. destruct (empty_live _ _ _ _ H) as (_ & _ & _ & E' & _). congruence.
    + intros j n H _. by destruct (empty_live _ _ _ _ H) as (_ & _ & _ & _ & ? & ?).
    + cbn. lia.
  - intros j n H Hz. destruct (empty_lookup _ _ _ _ H) as [(_ & E & _)|[_ ->]]; [congruence|done].
  - intros j n H Hl. destruct (empty_lookup _ _ _ _ H) as [(_ & _ & _ & _ & -> & _)|[_ ->]]; done.
  - constructor.
  - intros i j. split; [intros H; by apply elem_of_nil in H|]. intros (n & H & E). destruct (empty_live _ _ _ _ H) as (_ & _ & E' & _). congruence.
Qed.

(** Mounting adds an empty instance, once per directory. *)
Lemma tmpfs_mount_spec l d now : mounts_ok l ->
  exists l' e, tmpfs_mount l (Some d) now true = Ok (l', e) /\ mounts_ok l' /\
    (l' = l /\ (e = 0 /\ tmpfs_get_instance l d <> None \/ e = - ENOSPC) \/ e = 0 /\ l' = l ++ [empty_instance (take 255 d) now]).
Proof.
  intros Hl. unfold tmpfs_mount. destruct (tmpfs_get_instance l d) eqn:E; [do 2 eexists; split; [reflexivity|]; split; [done|]; left; auto|].
  case_decide; [do 2 eexists; split; [reflexivity|]; split; [done|]; left; auto|]. cbn [negb].
  do 2 eexists. split; [reflexivity|]. split; [|right; done]. apply Forall_app. split; [done|]. constructor; [apply (empty_inv (take 255 d) now)|constructor].
Qed.

(** ** The operations on the tree *)

Inductive fs_op :=
| OMkdir (p : list Z) (md : Z) | OCreate (p : list Z) (md : Z) | OUnlink (p : list Z) | ORmdir (p : list Z)
| OWrite (p w : list Z) (off : Z) (mem : bool) | OTruncate (p : list Z) (len : Z) (mem : bool) | OChmod (p : list Z) (md : Z) | OChown (p : list Z) (u g : Z).

Definition op_path (op : fs_op) : list Z :=
  match op with OMkdir p _ | OCreate p _ | OUnlink p | ORmdir p | OWrite p _ _ _ | OTruncate p _ _ | OChmod p _ | OChown p _ _ => p end.

Section ops.
Context (current : option process_cred) (now : Z).

Definition run_op (l : list tmpfs_data) (op : fs_op) : outcome (list tmpfs_data * Z) :=
  match op with
  | OMkdir p md => tmpfs_mkdir l (Some p) md current now
  | OCreate p md => tmpfs_create_file l (Some p) md current now
  | OUnlink p => tmpfs_unlink l (Some p)
  | ORmdir p => tmpfs_rmdir l (Some p)
  | OWrite p w off mem => '(l, e, _) ← tmpfs_write_file l (Some p) (Some w) off now mem; Ok (l, e)
  | OTruncate p len mem => tmpfs_truncate l (Some p) len now mem
  | OChmod p md => tmpfs_chmod l (Some p) md
  | OChown p u g => tmpfs_chown l (Some p) u g now
  end.

(** When the tree allows an operation at [x]. *)
Definition op_allowed (F : list (list Z) -> option fnode) (x : list (list Z)) (op : fs_op) : Prop :=
  match op with
  | OMkdir _ _ | OCreate _ _ => F x = None /\ exists x0 c, x = x0 ++ [c] /\ is_directory F x0
  | OUnlink _ => exists v, F x = Some v /\ f_dir v = false
  | ORmdir _ => x <> [] /\ is_directory F x /\ forall c, F (x ++ [c]) = None
  | OWrite _ w off _ => 0 <= off /\ off + Z.of_nat (length w) <= TMPFS_MAX_FILE_SIZE /\ exists v, F x = Some v /\ f_dir v = false
  | OTruncate _ len _ => len <= TMPFS_MAX_FILE_SIZE /\ exists v, F x = Some v /\ f_dir v = false
  | OChmod _ _ | OChown _ _ _ => F x <> None
  end.

(** The node it leaves there; [k] is the next inode number. *)
Definition op_result (k : Z) (old : option fnode) (op : fs_op) : option fnode :=
  match op with
  | OMkdir _ md => Some (new_node true md now k (ir0_current_cred current))
  | OCreate _ md => Some (new_node false md now k (ir0_current_cred current))
  | OUnlink _ | ORmdir _ => None
  | OWrite _ w off _ => (fun v => content_node (write_bytes (f_bytes v) (Z.to_nat off) w) (if decide (0 < Z.of_nat (length w)) then now else f_mtime v) v) <$> old
  | OTruncate _ len _ => (fun v => content_node (truncate_bytes (f_bytes v) (Z.to_nat len)) now v) <$> old
  | OChmod _ md => chmod_node md <$> old
  | OChown _ u g => chown_node u g now <$> old
  end.

(** The error and its reason. *)
Definition op_refused (t : tmpfs_data) (x : list (list Z)) (op : fs_op) (e : Z) : Prop :=
  match op with
  | OMkdir _ _ | OCreate _ _ => new_refused (fs_at t) x (table_full t) e
  | OUnlink _ => rm_refused false (fs_at t) x e
  | ORmdir _ => rm_refused true (fs_at t) x e
  | OWrite _ w off mem => write_refused (fs_at t) x off (Z.of_nat (length w)) mem e
  | OTruncate _ len _ => truncate_refused (fs_at t) x len e
  | OChmod _ _ | OChown _ _ _ => e = - ENOENT /\ fs_at t x = None
  end.

Definition op_args_ok (op : fs_op) : Prop := match op with OTruncate _ len _ => 0 <= len | _ => True end.

(** [kmalloc] panics when a truncate lengthens a file and memory is out. *)
Definition op_panics (F : list (list Z) -> option fnode) (x : list (list Z)) (op : fs_op) : Prop :=
  match op with
  | OTruncate _ len false => len <= TMPFS_MAX_FILE_SIZE /\ exists v, F x = Some v /\ f_dir v = false /\ Z.of_nat (length (f_bytes v)) < len
  | _ => False
  end.
End ops.


(** "/t" with one empty instance. *)
Definition demo_path (s : string) : list Z := map (fun a => Z.of_N (Ascii.N_of_ascii a)) (String.list_ascii_of_string s).
Definition demo_mounts : list tmpfs_data := [empty_instance (demo_path "/t") 5].

Lemma demo_mounts_ok : mounts_ok demo_mounts.
Proof. constructor; [apply empty_inv|constructor]. Qed.


(** ** Reads and writes *)

Lemma find_from_ext (f g : nat -> bool) i n : (forall j, f j = g j) -> find_from f i n = find_from g i n.
Proof. intros E. revert i. induction n as [|n IH]; intros i; [done|]. cbn. rewrite E, IH. done. Qed.

Lemma resolve_update l m t t' q : l !! m = Some t -> mount_point t' = mount_point t ->
  resolve (update l m t') q = (fun '(k, u, x) => (k, if decide (k = m) then t' else u, x)) <$> resolve l q.
Proof.
  intros Hm Hmp. pose proof (lookup_lt_Some _ _ _ Hm) as Hlt. unfold resolve.
  assert (Hlk : forall j, update l m t' !! j = if decide (j = m) then Some t' else l !! j).
  { intros j. unfold update. case_decide; [subst; by apply list_lookup_insert_eq|by apply list_lookup_insert_ne]. }
  assert (E : tmpfs_get_instance_for_path (update l m t') q = tmpfs_get_instance_for_path l q).
  { unfold tmpfs_get_instance_for_path, update. rewrite length_insert. apply find_from_ext. intros j. fold (update l m t'). rewrite Hlk.
    case_decide as Ej; [|done]. subst j. by rewrite Hm, Hmp. }
  rewrite E. destruct (tmpfs_get_instance_for_path l q) as [k|]; [|done]. cbn [mbind option_bind]. rewrite Hlk. destruct (decide (k = m)) as [->|Hk].
  - rewrite Hm. cbn [mbind option_bind]. rewrite Hmp. destruct (tmpfs_get_relative_path q (mount_point t)); [|done]. cbn. by rewrite decide_True.
  - destruct (l !! k) as [u|]; [|done]. cbn [mbind option_bind]. destruct (tmpfs_get_relative_path q (mount_point u)); [|done]. cbn. by rewrite decide_False.
Qed.

Lemma write_bytes_slice old off w : take (length w) (drop off (write_bytes old off w)) = w /\ (length w <= length (write_bytes old off w) - off)%nat.
Proof.
  unfold write_bytes. assert (El : length (take off (old ++ replicate (off - length old) 0)) = off).
  { rewrite length_take, length_app, length_replicate. lia. }
  rewrite drop_app_length' by done. rewrite take_app_length. split; [done|]. rewrite !length_app, El. lia.
Qed.

(** A write can be read back.  When [tmpfs_write_file] returns 0 for some
    bytes at an offset, reading that many bytes there returns exactly them, and
    reading any other path, of this mount or another, at any offset, returns
    what it returned before. *)
Theorem tmpfs_read_after_write l p m t x w off now mem l' cnt :
  mounts_ok l -> resolve l p = Some (m, t, x) -> w <> [] ->
  tmpfs_write_file l (Some p) (Some w) off now mem = Ok (l', 0, cnt) ->
  cnt = Some (Z.of_nat (length w)) /\
  tmpfs_read_file l' (Some p) true (Z.of_nat (length w)) off = Ok (0, w, Some (Z.of_nat (length w))) /\
  forall q k u y count o, resolve l q = Some (k, u, y) -> k <> m \/ y <> x -> 0 <= count ->
    tmpfs_read_file l' (Some q) true count o = tmpfs_read_file l (Some q) true count o.
Proof.
  intros Hl Hres Hw E. destruct (resolve_Some l p m t x Hres) as (_ & _ & Ht & _).
  destruct (tmpfs_write_spec l p m t x w off now mem Hl Hres) as (l2 & e & c & E2 & Hcases). rewrite E in E2. injection E2 as <- <- <-.
  destruct Hcases as [(_ & _ & Hr)|(_ & -> & H0 & H1 & v & Hv & Hd & t' & -> & Ht' & Hm & Hat)].
  { exfalso. destruct Hr as [[? _]|[[? _]|[[? _]|[[? _]|[? _]]]]]; done. }
  assert (Hl' : mounts_ok (update l m t')) by (by apply mounts_update). split; [done|]. split.
  - pose proof (resolve_update l m t t' p Ht Hm) as Hr. rewrite Hres in Hr. cbn in Hr. rewrite decide_True in Hr by done.
    rewrite (tmpfs_read_spec _ p m t' x) by (auto; lia). rewrite Hat. unfold fupd. rewrite decide_True by done. cbn [f_dir content_node f_bytes]. rewrite Hd.
    destruct (write_bytes_slice (f_bytes v) (Z.to_nat off) w) as [Es Hlen]. destruct w as [|c0 w0]; [done|]. rewrite decide_False by (cbn [length] in *; lia).
    rewrite Nat2Z.id, Es. done.
  - intros q k u y count o Hq Hne Hc. pose proof (resolve_update l m t t' q Ht Hm) as Hr. rewrite Hq in Hr. cbn in Hr.
    rewrite (tmpfs_read_spec _ q k _ y count o Hl' Hr Hc), (tmpfs_read_spec _ q k u y count o Hl Hq Hc). f_equal.
    destruct (decide (k = m)) as [->|Hk]; [|done]. destruct (resolve_Some l q m u y Hq) as (_ & _ & Hu & _). assert (u = t) as -> by congruence.
    rewrite Hat. unfold fupd. rewrite decide_False by tauto. done.
Qed.

Definition demo_with_file : list tmpfs_data :=
  match run_op None 7 demo_mounts (OCreate (demo_path "/t/a") 0x1FF) with Ok (l, _) => l | _ => [] end.

Lemma demo_with_file_ok : mounts_ok demo_with_file.
Proof.
  destruct (tmpfs_new_spec false demo_mounts (demo_path "/t/a") 0 (empty_instance (demo_path "/t") 5) [demo_path "a"] 0x1FF None 7)
    as (l' & e & E & H); [exact demo_mounts_ok|reflexivity|cbn; lia|].
  unfold demo_with_file. cbn [run_op]. unfold tmpfs_create_file. rewrite E. destruct H as [[-> _]|(_ & t' & _ & _ & _ & _ & _ & -> & Ht' & _)]; [exact demo_mounts_ok|].
  apply mounts_update; [exact demo_mounts_ok|done].
Qed.

Lemma tmpfs_read_after_write_witness : exists l' cnt,
  tmpfs_write_file demo_with_file (Some (demo_path "/t/a")) (Some [7; 8; 9]) 2 11 true = Ok (l', 0, cnt) /\
  tmpfs_read_file l' (Some (demo_path "/t/a")) true 3 2 = Ok (0, [7; 8; 9], Some 3).
Proof.
  eexists _, _. split; [vm_compute; reflexivity|].
  eapply (tmpfs_read_after_write demo_with_file (demo_path "/t/a") 0 _ [demo_path "a"] [7; 8; 9] 2 11 true);
    [exact demo_with_file_ok|vm_compute; reflexivity|done|vm_compute; reflexivity].
Defined.

(** ** Unmounting *)

(** Unmounting ends and frees everything: the recursive release of the tree
    returns with every inode cleared, so no data block stays allocated, the
    instance is gone from the table and the others are untouched. *)
Theorem tmpfs_umount_frees l d m : mounts_ok l -> tmpfs_get_instance l d = Some m ->
  exists t r t', l !! m = Some t /\ root t = Some r /\ tmpfs_free_inode (free_fuel t) t r = Ok t' /\
    (forall j, (j < TMPFS_MAX_FILES)%nat -> inodes t' !! j = Some inode_zero) /\
    tmpfs_umount l (Some d) = Ok (delete m l, 0) /\ mounts_ok (delete m l).
Proof.
  intros Hl Hm. pose proof Hm as Hm'. unfold tmpfs_get_instance in Hm'. apply find_from_Some in Hm' as (_ & Hm' & _).
  destruct (l !! m) as [t|] eqn:Ht; [|done]. destruct (Forall_lookup_1 _ _ _ _ Hl Ht) as (r & kids & Hok).
  destruct (free_root t r kids Hok) as (t' & E & Hz). exists t, r, t'. splits; auto.
  - apply Hok.
  - unfold tmpfs_umount. rewrite Hm, Ht. cbn [or_ub mbind outcome_bind]. rewrite (fs_root _ _ _ Hok), E. done.
  - by apply Forall_delete.
Qed.

Lemma tmpfs_umount_frees_witness : exists t r t', demo_with_file !! 0%nat = Some t /\ tmpfs_free_inode (free_fuel t) t r = Ok t' /\
  inodes t' !! 1%nat = Some inode_zero /\ tmpfs_umount demo_with_file (Some (demo_path "/t")) = Ok ([], 0).
Proof.
  destruct (tmpfs_umount_frees demo_with_file (demo_path "/t") 0) as (t & r & t' & Ht & _ & E & Hz & Eu & _); [exact demo_with_file_ok|vm_compute; reflexivity|].
  exists t, r, t'. split; [exact Ht|]. split; [exact E|]. split; [apply Hz; unfold TMPFS_MAX_FILES; lia|exact Eu].
Defined.

(** ** Listing *)

(** With room for all entries a listing has the two dot entries and then
    exactly the names of the directory, each with its type. *)
Lemma tmpfs_readdir_spec l p m t x max : mounts_ok l -> resolve l p = Some (m, t, x) -> is_directory (fs_at t) x -> 130 <= max ->
  exists es, tmpfs_readdir l (Some p) true max = Ok (Z.of_nat (length es) + 2, [([46], DT_DIR); ([46; 46], DT_DIR)] ++ es) /\
    forall c ty, (c, ty) ∈ es <-> exists v, fs_at t (x ++ [c]) = Some v /\ ty = if f_dir v then DT_DIR else DT_REG.
Proof.
  intros Hl Hres (v0 & Hv0 & Hd) Hmax. destruct (resolve_Some l p m t x Hres) as (_ & _ & Ht & _). destruct (Forall_lookup_1 _ _ _ _ Hl Ht) as (r & kids & Hok).
  unfold tmpfs_readdir. rewrite decide_False by (intros [?|?]; [done|lia]).
  destruct (find_inode_spec l p m t x r kids Hres Hok) as [[Hn _]|(i & n & -> & Hi & Hn & Hnl & Hat)]; [congruence|]. cbn [mbind outcome_bind].
  rewrite Ht. cbn [or_ub mbind outcome_bind]. rewrite (load_lookup t i n Hn). cbn [mbind outcome_bind].
  assert (is_dir n = true) as -> by (rewrite Hat in Hv0; by injection Hv0 as <-). cbn [negb].
  assert (take (Z.to_nat max) [([46], DT_DIR); ([46; 46], DT_DIR)] = [([46], DT_DIR); ([46; 46], DT_DIR)]) as -> by (apply take_ge; cbn; lia).
  pose proof (kids_length t r kids Hok i) as Hkl. unfold TMPFS_MAX_FILES in Hkl.
  set (f := fun k => (fun n => (take 255 (name n), if is_dir n then DT_DIR else DT_REG)) <$> inodes t !! k).
  rewrite (readdir_loop_spec t _ _ (kids i)) by (try (by apply (fs_chain _ _ _ Hok i)); unfold TMPFS_MAX_FILES; lia). fold f. cbn [mbind outcome_bind length].
  assert (Hol : (length (omap f (kids i)) <= length (kids i))%nat).
  { clear. induction (kids i) as [|k ks IH]; [done|]. cbn. destruct (f k); cbn in *; lia. }
  rewrite take_ge by lia. exists (omap f (kids i)). split; [do 2 f_equal; cbn [length app]; lia|].
  intros c ty. rewrite list_elem_of_omap. split.
  - intros (k & Hk & E). unfold f in E. destruct (inodes t !! k) as [kn|] eqn:Ek; [|done]. injection E as <- <-.
    destruct (kids_live t r kids Hok i k Hk) as (kn' & Hkn' & Hkl' & Hkp). assert (kn' = kn) as -> by congruence.
    destruct (co_name _ _ _ (fs_core _ _ _ Hok) k (strip kn) i (lv_cores t k kn Ek Hkl') Hkp) as (_ & _ & Hnl'). cbn in Hnl'. rewrite take_ge by done.
    exists (node_of kn). split; [|done]. apply (fs_at_path t r kids Hok k); [|done]. apply (path_child t r kids Hok i x k); eauto.
  - intros (v & Hv & ->). apply (fs_at_spec t r kids Hok) in Hv as (k & kn & Hk & Hkn & ->). apply (path_child t r kids Hok i x k c Hi) in Hk as (kn' & Hk & Hkn' & <-).
    assert (kn' = kn) as -> by congruence. exists k. split; [done|]. unfold f. rewrite Hkn. cbn.
    destruct (kids_live t r kids Hok i k Hk) as (kn' & Hkn'' & Hkl' & Hkp). assert (kn' = kn) as -> by congruence.
    destruct (co_name _ _ _ (fs_core _ _ _ Hok) k (strip kn) i (lv_cores t k kn Hkn Hkl') Hkp) as (_ & _ & Hnl'). cbn in Hnl'. by rewrite take_ge.
Qed.

(** ** Behaviours the callers do not expect *)

Fixpoint run_ops (l : list tmpfs_data) (ops : list fs_op) : outcome (list tmpfs_data) :=
  match ops with [] => Ok l | op :: ops' => '(l, e) ← run_op None 7 l op; if decide (e = 0) then run_ops l ops' else UB end.

Definition demo_file (s : string) : fs_op := OCreate (demo_path s) 0x1FF.

(** [tmpfs_link] copies [data_cap] but allocates only [size] bytes: extending
    the link of a file that had been cut back writes past its block. *)
Lemma link_overflows_block : exists l1 l2,
  run_ops demo_mounts [demo_file "/t/a"; OWrite (demo_path "/t/a") (replicate 10 65) 0 true; OTruncate (demo_path "/t/a") 2 true] = Ok l1 /\
  tmpfs_link l1 (Some (demo_path "/t/a")) (Some (demo_path "/t/b")) 8 true = Ok (l2, 0) /\
  tmpfs_truncate l2 (Some (demo_path "/t/b")) 10 9 true = UB.
Proof. do 2 eexists. split; [vm_compute; reflexivity|]. split; vm_compute; reflexivity. Qed.

(** A link is a copy: writing through one name is not seen through the other. *)
Lemma link_is_a_copy : exists l1 l2 l3,
  run_ops demo_mounts [demo_file "/t/a"; OWrite (demo_path "/t/a") [1] 0 true] = Ok l1 /\
  tmpfs_link l1 (Some (demo_path "/t/a")) (Some (demo_path "/t/b")) 8 true = Ok (l2, 0) /\
  run_ops l2 [OWrite (demo_path "/t/b") [2] 0 true] = Ok l3 /\
  tmpfs_read_file l3 (Some (demo_path "/t/a")) true 1 0 = Ok (0, [1], Some 1).
Proof. do 3 eexists. split; [vm_compute; reflexivity|]. split; [vm_compute; reflexivity|]. split; vm_compute; reflexivity. Qed.

(** An instance mounted on "/" owns only the path "/": the fallback root file
    system holds no files. *)
Lemma root_mount_holds_nothing : exists l,
  tmpfs_mount [] (Some (demo_path "/")) 5 true = Ok (l, 0) /\ resolve l (demo_path "/") <> None /\ resolve l (demo_path "/etc") = None /\
  tmpfs_mkdir l (Some (demo_path "/etc")) 0x1ED None 6 = Ok (l, - ENODEV).
Proof. eexists. split; [vm_compute; reflexivity|]. split; [by vm_compute|]. split; vm_compute; reflexivity. Qed.

(** With one instance mounted inside another, paths below the inner mount
    point go to the outer instance. *)
Lemma nested_mount_shadowed : exists l t,
  tmpfs_mount demo_mounts (Some (demo_path "/t/s")) 5 true = Ok (l, 0) /\
  (mount_point <$> l) = [demo_path "/t"; demo_path "/t/s"] /\
  resolve l (demo_path "/t/s/f") = Some (0%nat, t, [demo_path "s"; demo_path "f"]).
Proof. do 2 eexists. split; [vm_compute; reflexivity|]. split; vm_compute; reflexivity. Qed.

(** At the end of the file the byte count is not stored, and a negative offset
    is not refused. *)
Lemma read_end_leaves_count : exists l,
  run_ops demo_mounts [demo_file "/t/a"] = Ok l /\
  tmpfs_read_file l (Some (demo_path "/t/a")) true 4 0 = Ok (0, [], None) /\ tmpfs_read_file l (Some (demo_path "/t/a")) true 4 (-1) = Ok (0, [], None).
Proof. eexists. split; [vm_compute; reflexivity|]. split; vm_compute; reflexivity. Qed.

(** Writes do not add to [total_size], freeing subtracts: it wraps. *)
Lemma total_size_wraps : exists l t,
  run_ops demo_mounts [demo_file "/t/a"; OWrite (demo_path "/t/a") [1; 2; 3] 0 true; OUnlink (demo_path "/t/a")] = Ok l /\
  l !! 0%nat = Some t /\ total_size t = U64_MAX - 2.
Proof. do 2 eexists. split; [vm_compute; reflexivity|]. split; reflexivity. Qed.

(** Only the first 255 bytes of a path below the mount point count: two
    different longer names are the same file. *)
Lemma long_paths_collide : exists l,
  run_ops demo_mounts [OCreate (demo_path "/t/" ++ replicate 300 97) 0x1FF] = Ok l /\
  tmpfs_create_file l (Some (demo_path "/t/" ++ replicate 255 97 ++ [98])) 0x1FF None 8 = Ok (l, - EEXIST).
Proof. eexists. split; [vm_compute; reflexivity|]. vm_compute. reflexivity. Qed.
