(* ===== verification/FdTypes.v ===== *)
(** * File descriptor slots (src/includes/ir0/fd_types.h)

    The per-process descriptor table entry shared by the descriptor objects and
    the table code. *)

From S2P Require Import Prelude.

Definition MAX_FDS_PER_PROCESS : nat := 64.
Definition O_RDWR : Z := 2.
Definition O_NONBLOCK : Z := 2048.
Definition FD_CLOEXEC : Z := 1.

Record fd_entry := {
  in_use : bool;
  path : list Z;
  flags : Z;
  fd_flags : Z;
  vfs_file : Z;
  offset : Z;
  is_pipe : bool;
  pipe_end : Z;
  is_devfs : bool;
  dev_device_id : Z;
  is_socket : bool;
  is_pseudo : bool;
  is_epoll : bool;
  is_memfd : bool;
  is_eventfd : bool;
  is_timerfd : bool
}.

(** [memset(e, 0, sizeof *e)]. *)
Definition fd_zero : fd_entry := {|
  in_use := false; path := replicate 256 0; flags := 0; fd_flags := 0; vfs_file := 0; offset := 0; is_pipe := false;
  pipe_end := 0; is_devfs := false; dev_device_id := 0; is_socket := false; is_pseudo := false; is_epoll := false;
  is_memfd := false; is_eventfd := false; is_timerfd := false |}.
