(* ===== verification/Eventfd.v ===== *)
(** * Event counters (src/kernel/eventfd.c)

    [g_efd] is the static array at address [base]; a pointer names slot [i]
    when it is [base + 24 * i].  The irq-save brackets make the reference count
    updates atomic.  Copies between kernel and user space are arguments:
    whether [copy_to_user] succeeded, and what [copy_from_user] delivered. *)

From S2P Require Import Prelude FdTypes.

Definition EFD_MAX : nat := 32.
Definition EFD_MAGIC : Z := 1162232865.
Definition EFD_SIZE : Z := 24.
Definition IR0_EFD_CLOEXEC : Z := 524288.
Definition IR0_EFD_NONBLOCK : Z := 2048.

Record ir0_eventfd := { magic : Z; e_in_use : bool; refs : Z; count : Z }.

Definition efd_zero : ir0_eventfd := {| magic := 0; e_in_use := false; refs := 0; count := 0 |}.
Definition set_refs (r : Z) (e : ir0_eventfd) : ir0_eventfd :=
  {| magic := magic e; e_in_use := e_in_use e; refs := r; count := count e |}.
Definition set_count (c : Z) (e : ir0_eventfd) : ir0_eventfd :=
  {| magic := magic e; e_in_use := e_in_use e; refs := refs e; count := c |}.

Section eventfd.
Context (base : Z).

Definition efd_addr (i : nat) : Z := base + EFD_SIZE * Z.of_nat i.

(** The slot a live pointer names: the tests of [ir0_eventfd_is]. *)
Definition efd_slot (g : list ir0_eventfd) (p : Z) : option (nat * ir0_eventfd) :=
  if decide (p < base \/ base + EFD_SIZE * Z.of_nat EFD_MAX <= p) then None else
  if decide ((p - base) mod EFD_SIZE <> 0) then None else
  let i := Z.to_nat ((p - base) / EFD_SIZE) in
  e ← g !! i;
  if bool_decide (p <> 0) && bool_decide (magic e = EFD_MAGIC) && e_in_use e then Some (i, e) else None.

Definition ir0_eventfd_is (g : list ir0_eventfd) (p : Z) : bool := bool_decide (is_Some (efd_slot g p)).

Definition ir0_eventfd_acquire (g : list ir0_eventfd) (p : Z) : outcome (list ir0_eventfd) :=
  match efd_slot g p with
  | None => Ok g
  | Some (i, e) => r ← int_incr (refs e); Ok (<[i := set_refs r e]> g)
  end.

Definition ir0_eventfd_release (g : list ir0_eventfd) (p : Z) : list ir0_eventfd :=
  match efd_slot g p with
  | None => g
  | Some (i, e) =>
      let r := if decide (0 < refs e) then refs e - 1 else refs e in
      if decide (r = 0) then <[i := efd_zero]> g else <[i := set_refs r e]> g
  end.

Definition ir0_eventfd_poll_readable (g : list ir0_eventfd) (p : Z) : Z :=
  match efd_slot g p with Some (_, e) => if decide (0 < count e) then 1 else 0 | None => 0 end.

Definition ir0_eventfd_poll_writable (g : list ir0_eventfd) (p : Z) : Z :=
  match efd_slot g p with Some (_, e) => if decide (count e <> U64_MAX) then 1 else 0 | None => 0 end.

(** The result, and the value stored in the user buffer. *)
Definition ir0_eventfd_read (g : list ir0_eventfd) (p buf n : Z) (copy_ok : bool) : list ir0_eventfd * Z * option Z :=
  match efd_slot g p with
  | None => (g, - EINVAL, None)
  | Some (i, e) =>
      if decide (buf = 0) then (g, - EINVAL, None) else
      if decide (n < 8) then (g, - EINVAL, None) else
      if decide (count e = 0) then (g, - EAGAIN, None) else
      let g := <[i := set_count 0 e]> g in
      if copy_ok then (g, 8, Some (count e)) else (g, - EFAULT, None)
  end.

(** [user] is the value [copy_from_user] read, [None] when it failed. *)
Definition ir0_eventfd_write (g : list ir0_eventfd) (p buf n : Z) (user : option Z) : list ir0_eventfd * Z :=
  match efd_slot g p with
  | None => (g, - EINVAL)
  | Some (i, e) =>
      if decide (buf = 0) then (g, - EINVAL) else
      if decide (n < 8) then (g, - EINVAL) else
      match user with
      | None => (g, - EFAULT)
      | Some add =>
          if decide (add = U64_MAX) then (g, - EINVAL) else
          if decide (U64_MAX - add < count e) then (g, - EAGAIN) else
          (<[i := set_count (u64 (count e + add)) e]> g, 8)
      end
  end.

(** The descriptor a new eventfd gets. *)
Definition efd_entry (p fl : Z) : fd_entry := {|
  in_use := true; path := path fd_zero; flags := if flag_set fl IR0_EFD_NONBLOCK then Z.lor O_RDWR O_NONBLOCK else O_RDWR;
  fd_flags := if flag_set fl IR0_EFD_CLOEXEC then FD_CLOEXEC else 0; vfs_file := p; offset := 0; is_pipe := false;
  pipe_end := 0; is_devfs := false; dev_device_id := 0; is_socket := false; is_pseudo := false; is_epoll := false;
  is_memfd := false; is_eventfd := true; is_timerfd := false |}.

(** [have_process] is [current_process != NULL], [tab] what
    [get_process_fd_table] returned. *)
Definition sys_eventfd2 (have_process : bool) (g : list ir0_eventfd) (tab : option (list fd_entry)) (cnt fl : Z)
  : outcome (list ir0_eventfd * option (list fd_entry) * Z) :=
  if negb have_process then Ok (g, tab, - ESRCH) else
  if flag_set fl (Z.lnot (Z.lor IR0_EFD_CLOEXEC IR0_EFD_NONBLOCK)) then Ok (g, tab, - EINVAL) else
  match find_from (fun i => match g !! i with Some e => negb (e_in_use e) | None => false end) 0 EFD_MAX with
  | None => Ok (g, tab, - ENOMEM)
  | Some i =>
      let g1 := <[i := {| magic := EFD_MAGIC; e_in_use := true; refs := 1; count := cnt |}]> g in
      match tab with
      | None => Ok (<[i := efd_zero]> g1, None, - ESRCH)
      | Some t =>
          match find_from (fun fd => match t !! fd with Some x => negb (in_use x) | None => false end) 3 (MAX_FDS_PER_PROCESS - 3) with
          | None => Ok (<[i := efd_zero]> g1, tab, - EMFILE)
          | Some fd => Ok (g1, Some (<[fd := efd_entry (efd_addr i) fl]> t), Z.of_nat fd)
          end
      end
  end.

(** ** Invariant *)

Definition efd_ok (e : ir0_eventfd) : Prop :=
  if e_in_use e then magic e = EFD_MAGIC /\ 0 < refs e /\ 0 <= count e <= U64_MAX else e = efd_zero.
Definition efds_ok (g : list ir0_eventfd) : Prop := length g = EFD_MAX /\ Forall efd_ok g.

Context (Hbase : 0 < base).

Lemma efd_slot_addr g i e : length g = EFD_MAX -> g !! i = Some e ->
  efd_slot g (efd_addr i) = if bool_decide (magic e = EFD_MAGIC) && e_in_use e then Some (i, e) else None.
Proof.
  intros Hl Hi. assert (Hlt : (i < EFD_MAX)%nat) by (rewrite <- Hl; by eapply lookup_lt_Some). unfold efd_slot, efd_addr, EFD_SIZE.
  replace (base + 24 * Z.of_nat i - base) with (Z.of_nat i * 24) by lia. rewrite Z.mod_mul, Z.div_mul by lia. rewrite Nat2Z.id, Hi.
  rewrite decide_False by (unfold EFD_MAX in *; lia). rewrite decide_False by lia. cbn [mbind option_bind].
  by rewrite bool_decide_true by lia.
Qed.

Lemma efd_slot_Some g p i e : efd_slot g p = Some (i, e) -> g !! i = Some e /\ e_in_use e = true /\ p = efd_addr i.
Proof.
  unfold efd_slot. case_decide as H1; [done|]. case_decide as H2; [done|]. intros H. apply bind_Some in H as (e' & Hi & H).
  destruct (bool_decide (p <> 0) && bool_decide (magic e' = EFD_MAGIC) && e_in_use e') eqn:E; [|done]. injection H as <- <-.
  rewrite !andb_true_iff in E. destruct E as [_ E]. splits; auto. unfold efd_addr.
  assert (H2' : (p - base) mod EFD_SIZE = 0) by (destruct (decide ((p - base) mod EFD_SIZE = 0)); tauto). pose proof (Z.div_mod (p - base) EFD_SIZE ltac:(done)) as D.
  assert (0 <= (p - base) / EFD_SIZE) by (apply Z.div_pos; unfold EFD_SIZE; lia). rewrite Z2Nat.id by done. lia.
Qed.

Lemma efds_insert g i e : efds_ok g -> efd_ok e -> efds_ok (<[i := e]> g).
Proof. intros [Hl Hf] He. split; [by rewrite length_insert|]. by apply Forall_insert. Qed.

Lemma efd_zero_ok : efd_ok efd_zero.
Proof. done. Qed.

Lemma live_ok g i e : efds_ok g -> g !! i = Some e -> e_in_use e = true -> magic e = EFD_MAGIC /\ 0 < refs e /\ 0 <= count e <= U64_MAX.
Proof. intros [_ Hf] Hi He. pose proof (Forall_lookup_1 _ _ _ _ Hf Hi) as H. unfold efd_ok in H. by rewrite He in H. Qed.

(** The live object at slot [i] is what its address names. *)
Lemma live_slot g i e : efds_ok g -> g !! i = Some e -> e_in_use e = true -> efd_slot g (efd_addr i) = Some (i, e).
Proof.
  intros Hok Hi He. rewrite (efd_slot_addr g i e) by (done || apply Hok). destruct (live_ok g i e Hok Hi He) as (Hm & _).
  rewrite bool_decide_true by done. by rewrite He.
Qed.

(** ** Operations on a live counter *)

Lemma read_spec g i e buf n ok : efds_ok g -> g !! i = Some e -> e_in_use e = true ->
  ir0_eventfd_read g (efd_addr i) buf n ok =
    if decide (buf = 0 \/ n < 8) then (g, - EINVAL, None)
    else if decide (count e = 0) then (g, - EAGAIN, None)
    else (<[i := set_count 0 e]> g, if ok then 8 else - EFAULT, if ok then Some (count e) else None).
Proof.
  intros Hok Hi He. unfold ir0_eventfd_read. rewrite (live_slot g i e) by done.
  destruct (decide (buf = 0)); [by rewrite decide_True by tauto|].
  destruct (decide (n < 8)); [by rewrite decide_True by tauto|]. rewrite (decide_False (P := buf = 0 \/ n < 8)) by tauto.
  case_decide; [done|]. by destruct ok.
Qed.

Lemma write_spec g i e buf n u : efds_ok g -> g !! i = Some e -> e_in_use e = true -> (forall a, u = Some a -> 0 <= a <= U64_MAX) ->
  ir0_eventfd_write g (efd_addr i) buf n u =
    if decide (buf = 0 \/ n < 8) then (g, - EINVAL)
    else match u with
         | None => (g, - EFAULT)
         | Some a => if decide (a = U64_MAX) then (g, - EINVAL)
                     else if decide (U64_MAX < count e + a) then (g, - EAGAIN)
                     else (<[i := set_count (count e + a) e]> g, 8)
         end.
Proof.
  intros Hok Hi He Hu. unfold ir0_eventfd_write. rewrite (live_slot g i e) by done.
  destruct (decide (buf = 0)); [by rewrite decide_True by tauto|].
  destruct (decide (n < 8)); [by rewrite decide_True by tauto|]. rewrite (decide_False (P := buf = 0 \/ n < 8)) by tauto.
  destruct u as [a|]; [|done]. specialize (Hu a eq_refl). case_decide; [done|].
  destruct (live_ok g i e Hok Hi He) as (_ & _ & Hc).
  destruct (decide (U64_MAX - a < count e)); [by rewrite decide_True by lia|]. rewrite decide_False by lia.
  unfold u64. rewrite Z.mod_small; [done|]. unfold U64_MAX in *. lia.
Qed.

(** A call on one counter; [ok] is whether the copy to the user succeeds. *)
Inductive efd_io := EWrite (buf n : Z) (user : option Z) | ERead (buf n : Z) (ok : bool).

Definition efd_io_ok (op : efd_io) : Prop :=
  match op with EWrite _ _ (Some a) => 0 <= a <= U64_MAX | _ => True end.

(** The value returned and, for a read, the value stored for the user. *)
Definition efd_exec (g : list ir0_eventfd) (p : Z) (op : efd_io) : list ir0_eventfd * (Z * option Z) :=
  match op with
  | EWrite buf n u => let '(g, r) := ir0_eventfd_write g p buf n u in (g, (r, None))
  | ERead buf n ok => let '(g, r, v) := ir0_eventfd_read g p buf n ok in (g, (r, v))
  end.

Fixpoint efd_run (g : list ir0_eventfd) (p : Z) (ops : list efd_io) : list ir0_eventfd * list (Z * option Z) :=
  match ops with
  | [] => (g, [])
  | op :: ops' => let '(g, r) := efd_exec g p op in let '(g, rs) := efd_run g p ops' in (g, r :: rs)
  end.

(** The contract on the count alone: the count after the call, what it
    returns, and the events it discards. *)
Definition efd_call (c : Z) (op : efd_io) : Z * (Z * option Z) * Z :=
  match op with
  | EWrite buf n u =>
      if decide (buf = 0 \/ n < 8) then (c, (- EINVAL, None), 0) else
      match u with
      | None => (c, (- EFAULT, None), 0)
      | Some a => if decide (a = U64_MAX) then (c, (- EINVAL, None), 0)
                  else if decide (U64_MAX < c + a) then (c, (- EAGAIN, None), 0) else (c + a, (8, None), 0)
      end
  | ERead buf n ok =>
      if decide (buf = 0 \/ n < 8) then (c, (- EINVAL, None), 0)
      else if decide (c = 0) then (c, (- EAGAIN, None), 0)
      else if ok then (0, (8, Some c), 0) else (0, (- EFAULT, None), c)
  end.

Fixpoint efd_calls (c : Z) (ops : list efd_io) : Z * list (Z * option Z) * Z :=
  match ops with
  | [] => (c, [], 0)
  | op :: ops' => let '(c, r, l) := efd_call c op in let '(c, rs, ls) := efd_calls c ops' in (c, r :: rs, l + ls)
  end.

(** The sums of the values the writes reported as accepted and of the values
    the reads stored. *)
Fixpoint efd_accepted (ops : list efd_io) (rs : list (Z * option Z)) : Z :=
  match ops, rs with
  | EWrite _ _ u :: ops', (r, _) :: rs' => (if decide (r = 8) then default 0 u else 0) + efd_accepted ops' rs'
  | _ :: ops', _ :: rs' => efd_accepted ops' rs'
  | _, _ => 0
  end.

Fixpoint efd_delivered (rs : list (Z * option Z)) : Z :=
  match rs with [] => 0 | (_, v) :: rs' => default 0 v + efd_delivered rs' end.

Definition copy_ok (op : efd_io) : Prop := match op with ERead _ _ ok => ok = true | _ => True end.

Lemma efd_calls_total c ops : let '(c', rs, lost) := efd_calls c ops in
  c + efd_accepted ops rs = efd_delivered rs + lost + c' /\ (Forall copy_ok ops -> lost = 0).
Proof.
  revert c. induction ops as [|op ops IH]; intros c; simpl; [lia|].
  destruct (efd_call c op) as [[c1 [r v]] l] eqn:E. specialize (IH c1). destruct (efd_calls c1 ops) as [[c2 rs] ls].
  destruct IH as [IH Hl]. rewrite Forall_cons.
  assert (H : c + (match op with EWrite _ _ u => if decide (r = 8) then default 0 u else 0 | _ => 0 end) = default 0 v + l + c1 /\
              (copy_ok op -> l = 0)).
  { destruct op as [buf n [a|]|buf n []]; simpl in *; repeat case_decide; simplify_eq; simpl; try lia; done. }
  split; [|intros [? ?]; rewrite Hl by done; destruct H as [_ H]; rewrite H by done; done].
  destruct op; simpl in *; lia.
Qed.

Lemma set_count_ok e c : efd_ok e -> e_in_use e = true -> 0 <= c <= U64_MAX -> efd_ok (set_count c e).
Proof. unfold efd_ok. simpl. intros H He Hc. rewrite He in *. tauto. Qed.

Lemma efd_call_range c op : efd_io_ok op -> 0 <= c <= U64_MAX -> 0 <= (efd_call c op).1.1 <= U64_MAX.
Proof. intros Ho Hc. destruct op as [buf n [a|]|buf n []]; simpl in *; repeat case_decide; simpl; unfold U64_MAX in *; lia. Qed.

Lemma efd_exec_spec g i e op : efds_ok g -> g !! i = Some e -> e_in_use e = true -> efd_io_ok op ->
  efd_exec g (efd_addr i) op = (<[i := set_count (efd_call (count e) op).1.1 e]> g, (efd_call (count e) op).1.2).
Proof.
  intros Hok Hi He Ho. assert (Hid : <[i := set_count (count e) e]> g = g) by (apply list_insert_id; by destruct e).
  destruct op as [buf n u|buf n ok]; cbn [efd_exec efd_call].
  - rewrite (write_spec g i e) by (auto; intros a ->; done).
    destruct (decide (buf = 0 \/ n < 8)), u as [a|]; simpl; rewrite ?Hid; try done.
    destruct (decide (a = U64_MAX)); simpl; rewrite ?Hid; [done|]. by destruct (decide (U64_MAX < count e + a)); simpl; rewrite ?Hid.
  - rewrite (read_spec g i e) by done. destruct (decide (buf = 0 \/ n < 8)); simpl; [by rewrite Hid|].
    destruct (decide (count e = 0)); simpl; [by rewrite Hid|by destruct ok].
Qed.

Lemma efd_run_spec g i e ops : efds_ok g -> g !! i = Some e -> e_in_use e = true -> Forall efd_io_ok ops ->
  efd_run g (efd_addr i) ops = (<[i := set_count (efd_calls (count e) ops).1.1 e]> g, (efd_calls (count e) ops).1.2) /\
  0 <= (efd_calls (count e) ops).1.1 <= U64_MAX.
Proof.
  intros Hok Hi He Ho. destruct (live_ok g i e Hok Hi He) as (_ & _ & Hc).
  assert (Heok : efd_ok e) by (by apply (Forall_lookup_1 _ g i); [apply Hok|]).
  revert g e Hok Hi He Hc Heok. induction Ho as [|op ops Ho _ IH]; intros g e Hok Hi He Hc Heok; simpl.
  { split; [|done]. f_equal. symmetry. apply list_insert_id. by destruct e. }
  rewrite (efd_exec_spec g i e) by done. pose proof (efd_call_range (count e) op Ho Hc) as Hr.
  destruct (efd_call (count e) op) as [[c1 r] l]. simpl in *.
  assert (Hil : (i < length g)%nat) by (by eapply lookup_lt_Some).
  assert (Hok1 : efd_ok (set_count c1 e)) by (by apply set_count_ok).
  destruct (IH (<[i := set_count c1 e]> g) (set_count c1 e)) as [E Hr2]; auto using efds_insert.
  { by apply list_lookup_insert_eq. }
  rewrite E. simpl in *. destruct (efd_calls c1 ops) as [[c2 rs] ls]. simpl. by rewrite list_insert_insert_eq.
Qed.

(** ** References and creation *)

Lemma efd_acquire_spec g i e : efds_ok g -> g !! i = Some e -> e_in_use e = true -> refs e < INT_MAX ->
  exists g', ir0_eventfd_acquire g (efd_addr i) = Ok g' /\ efds_ok g' /\ g' = <[i := set_refs (refs e + 1) e]> g.
Proof.
  intros Hok Hi He Hr. unfold ir0_eventfd_acquire. rewrite (live_slot g i e) by done. unfold int_incr. rewrite decide_True by done.
  cbn [mbind outcome_bind]. eexists. split; [reflexivity|]. split; [|done]. apply efds_insert; [done|].
  destruct (live_ok g i e Hok Hi He). unfold efd_ok. simpl. rewrite He. intuition lia.
Qed.

(** The last reference frees the slot; earlier ones only count down. *)
Lemma efd_release_spec g i e : efds_ok g -> g !! i = Some e -> e_in_use e = true ->
  efds_ok (ir0_eventfd_release g (efd_addr i)) /\
  ir0_eventfd_release g (efd_addr i) = <[i := if decide (refs e = 1) then efd_zero else set_refs (refs e - 1) e]> g.
Proof.
  intros Hok Hi He. destruct (live_ok g i e Hok Hi He) as (Hm & Hr & Hc). unfold ir0_eventfd_release. rewrite (live_slot g i e) by done.
  rewrite (decide_True (P := 0 < refs e)) by done. destruct (decide (refs e = 1)).
  - rewrite decide_True by lia. split; [|done]. by apply efds_insert.
  - rewrite decide_False by lia. split; [|done]. apply efds_insert; [done|]. unfold efd_ok. simpl. rewrite He. intuition lia.
Qed.

(** A pointer to a freed slot is refused by every operation. *)
Lemma efd_stale g i : efds_ok g -> g !! i = Some efd_zero -> efd_slot g (efd_addr i) = None.
Proof. intros Hok Hi. rewrite (efd_slot_addr g i efd_zero) by (done || apply Hok). done. Qed.

Definition free_slot (g : list ir0_eventfd) (i : nat) : bool := match g !! i with Some e => negb (e_in_use e) | None => false end.
Definition free_fd (t : list fd_entry) (fd : nat) : bool := match t !! fd with Some x => negb (in_use x) | None => false end.

Lemma sys_eventfd2_spec g tab cnt fl : efds_ok g -> 0 <= cnt <= U32_MAX ->
  exists g' tab' r, sys_eventfd2 true g tab cnt fl = Ok (g', tab', r) /\ efds_ok g' /\
    ((r < 0 /\ g' = g /\ tab' = tab /\
      (r = - EINVAL /\ flag_set fl (Z.lnot (Z.lor IR0_EFD_CLOEXEC IR0_EFD_NONBLOCK)) = true \/
       r = - ENOMEM /\ (forall i, (i < EFD_MAX)%nat -> free_slot g i = false) \/ r = - ESRCH /\ tab = None \/
       r = - EMFILE /\ exists t, tab = Some t /\ forall fd, (3 <= fd < MAX_FDS_PER_PROCESS)%nat -> free_fd t fd = false)) \/
     (exists i fd t, r = Z.of_nat fd /\ tab = Some t /\ (3 <= fd < MAX_FDS_PER_PROCESS)%nat /\
        free_slot g i = true /\ free_fd t fd = true /\ (forall k, (3 <= k < fd)%nat -> free_fd t k = false) /\
        g' = <[i := {| magic := EFD_MAGIC; e_in_use := true; refs := 1; count := cnt |}]> g /\
        tab' = Some (<[fd := efd_entry (efd_addr i) fl]> t))).
Proof.
  intros Hok Hcnt. unfold sys_eventfd2. simpl negb. cbv iota.
  destruct (flag_set fl _) eqn:Hfl; [do 3 eexists; split; [reflexivity|]; split; [done|]; left; splits; auto; done|].
  fold (free_slot g). destruct (find_from (free_slot g) 0 EFD_MAX) as [i|] eqn:Hi.
  2:{ do 3 eexists. split; [reflexivity|]. split; [done|]. left. splits; auto; [done|]. right. left. split; [done|].
      rewrite find_from_None in Hi. intros. apply Hi. lia. }
  apply find_from_Some in Hi as (_ & Hi & _). pose proof Hi as Hfree. unfold free_slot in Hi.
  destruct (g !! i) as [e|] eqn:Ei; [|done]. apply negb_true_iff in Hi.
  assert (e = efd_zero) as ->.
  { destruct Hok as [_ Hf]. pose proof (Forall_lookup_1 _ _ _ _ Hf Ei) as H. unfold efd_ok in H. by rewrite Hi in H. }
  assert (Hback : forall x, <[i := efd_zero]> (<[i := x]> g) = g) by (intros x; rewrite list_insert_insert_eq; by apply list_insert_id).
  rewrite Hback. destruct tab as [t|].
  2:{ do 3 eexists. split; [reflexivity|]. split; [done|]. left. splits; auto. done. }
  fold (free_fd t). destruct (find_from (free_fd t) 3 (MAX_FDS_PER_PROCESS - 3)) as [fd|] eqn:Hfd.
  2:{ do 3 eexists. split; [reflexivity|]. split; [done|]. left. splits; auto; [done|]. right. right. right. split; [done|]. exists t. split; [done|].
      rewrite find_from_None in Hfd. intros. apply Hfd. unfold MAX_FDS_PER_PROCESS in *. lia. }
  apply find_from_Some in Hfd as (Hr & Hfd & Hlow). do 3 eexists. split; [reflexivity|]. split.
  - apply efds_insert; [done|]. unfold efd_ok. simpl. unfold U32_MAX, U64_MAX in *. splits; lia.
  - right. exists i, fd, t. splits; auto; unfold MAX_FDS_PER_PROCESS in *; lia.
Qed.
End eventfd.

(** C27: an event counter accounts for every event.  Over any sequence of
    reads and writes of a live eventfd, with whatever buffers, lengths, 64-bit
    values and outcomes of the user copies, every call returns what the counter
    contract [efd_call] says, and the initial count plus the values accepted by
    writes equals the values delivered by reads plus the values lost plus the
    final count.  Values are lost only by a read whose copy to the user fails,
    after the counter was cleared; when the copies succeed nothing is lost.  The
    count never wraps, and the other counters and the reference count are
    untouched. *)
Theorem eventfd_counter_conserved (base : Z) (g : list ir0_eventfd) (i : nat) (e : ir0_eventfd) (ops : list efd_io) :
  0 < base -> efds_ok g -> g !! i = Some e -> e_in_use e = true -> Forall efd_io_ok ops ->
  let '(c', rs, lost) := efd_calls (count e) ops in
  exists g' e',
    efd_run base g (efd_addr base i) ops = (g', rs) /\ efds_ok g' /\ g' !! i = Some e' /\ refs e' = refs e /\ count e' = c' /\
    count e + efd_accepted ops rs = efd_delivered rs + lost + count e' /\ (Forall copy_ok ops -> lost = 0) /\
    0 <= count e' <= U64_MAX /\ (forall j, j <> i -> g' !! j = g !! j).
Proof.
  intros Hb Hok Hi He Ho. destruct (efd_run_spec base Hb g i e ops Hok Hi He Ho) as [E Hr].
  pose proof (efd_calls_total (count e) ops) as Ht. destruct (efd_calls (count e) ops) as [[c' rs] lost]. simpl in *.
  destruct Ht as [Ht Hl]. assert (Hil : (i < length g)%nat) by (by eapply lookup_lt_Some).
  eexists _, (set_count c' e). split; [exact E|]. split.
  { apply efds_insert; [done|]. apply set_count_ok; [|done|done]. by apply (Forall_lookup_1 _ g i); [apply Hok|]. }
  split; [by apply list_lookup_insert_eq|]. split; [done|]. split; [done|]. split; [simpl; lia|]. split; [done|]. split; [done|].
  intros j Hj. by apply list_lookup_insert_ne.
Qed.

Definition demo_efds : list ir0_eventfd := {| magic := EFD_MAGIC; e_in_use := true; refs := 1; count := 5 |} :: replicate 31 efd_zero.

Lemma demo_efds_ok : efds_ok demo_efds.
Proof.
  split; [reflexivity|]. apply Forall_cons. split; [unfold efd_ok, U64_MAX; simpl; lia|]. apply Forall_replicate. done.
Qed.

(** A write, a read, a refused write, a write, a read whose copy fails (two
    events lost) and a last write. *)
Definition demo_efd_calls : list efd_io :=
  [EWrite 1 8 (Some 7); ERead 1 8 true; EWrite 1 8 (Some U64_MAX); EWrite 1 8 (Some 2); ERead 1 8 false; EWrite 1 8 (Some 3)].

Lemma eventfd_counter_conserved_witness : exists g' e',
  efd_run 4096 demo_efds 4096 demo_efd_calls =
    (g', [(8, None); (8, Some 12); (- EINVAL, None); (8, None); (- EFAULT, None); (8, None)]) /\
  g' !! 0%nat = Some e' /\ 5 + (7 + (2 + 3)) = 12 + 2 + 3 /\ count e' = 3.
Proof.
  destruct (eventfd_counter_conserved 4096 demo_efds 0 {| magic := EFD_MAGIC; e_in_use := true; refs := 1; count := 5 |} demo_efd_calls)
    as (g' & e' & E & _ & Hi & _ & Hc & Hs & _).
  - lia.
  - apply demo_efds_ok.
  - reflexivity.
  - reflexivity.
  - repeat (apply Forall_cons; split; [unfold efd_io_ok, U64_MAX; lia || exact I|]). constructor.
  - exists g', e'. split; [exact E|]. split; [exact Hi|]. split; [reflexivity|exact Hc].
Defined.

(** [sys_eventfd2] either fails with no effect, on exactly one of the
    documented causes (bad flags, no free counter, no descriptor table, no free
    descriptor), or takes a free counter, initialises it to the requested value
    with one reference, and binds it to the lowest free descriptor from 3 up,
    with the access and close-on-exec flags asked for; the pointer stored there
    is then recognised as a live eventfd. *)
Theorem eventfd2_correct (base : Z) (g : list ir0_eventfd) (tab : option (list fd_entry)) (cnt fl : Z) :
  0 < base -> efds_ok g -> 0 <= cnt <= U32_MAX ->
  exists g' tab' r, sys_eventfd2 base true g tab cnt fl = Ok (g', tab', r) /\ efds_ok g' /\
    ((r < 0 /\ g' = g /\ tab' = tab /\
      (r = - EINVAL /\ flag_set fl (Z.lnot (Z.lor IR0_EFD_CLOEXEC IR0_EFD_NONBLOCK)) = true \/
       r = - ENOMEM /\ (forall i, (i < EFD_MAX)%nat -> free_slot g i = false) \/ r = - ESRCH /\ tab = None \/
       r = - EMFILE /\ exists t, tab = Some t /\ forall fd, (3 <= fd < MAX_FDS_PER_PROCESS)%nat -> free_fd t fd = false)) \/
     (exists i fd t e, r = Z.of_nat fd /\ tab = Some t /\ (3 <= fd < MAX_FDS_PER_PROCESS)%nat /\
        free_slot g i = true /\ free_fd t fd = true /\ (forall k, (3 <= k < fd)%nat -> free_fd t k = false) /\
        refs e = 1 /\ count e = cnt /\ g' = <[i := e]> g /\
        ir0_eventfd_is base g' (efd_addr base i) = true /\
        tab' = Some (<[fd := efd_entry (efd_addr base i) fl]> t))).
Proof.
  intros Hb Hok Hc. destruct (sys_eventfd2_spec base g tab cnt fl Hok Hc) as (g' & tab' & r & E & Hok' & Hr).
  exists g', tab', r. split; [done|]. split; [done|]. destruct Hr as [Hr|(i & fd & t & H1 & H2 & H3 & H4 & H5 & H6 & H7 & H8)]; [by left|].
  right. exists i, fd, t. eexists. splits; try eassumption; try apply H3; try reflexivity.
  assert (Hl : (i < length g)%nat) by (unfold free_slot in H4; destruct (g !! i) eqn:Ei; [by eapply lookup_lt_Some|done]).
  unfold ir0_eventfd_is. erewrite (live_slot base Hb g' i) by (try done; rewrite H7; by apply list_lookup_insert_eq). by apply bool_decide_true.
Qed.

Lemma eventfd2_correct_witness : exists g' t',
  sys_eventfd2 4096 true demo_efds (Some (replicate 64 fd_zero)) 9 IR0_EFD_NONBLOCK = Ok (g', Some t', 3) /\ efds_ok g'.
Proof.
  destruct (eventfd2_correct 4096 demo_efds (Some (replicate 64 fd_zero)) 9 IR0_EFD_NONBLOCK) as (g' & tab' & r & E & Hok & _).
  - lia.
  - apply demo_efds_ok.
  - unfold U32_MAX. lia.
  - exists g'. vm_compute in E. injection E as <- <- <-. eexists. split; [vm_compute; reflexivity|exact Hok].
Defined.

(** A failed copy to user space loses the events: the counter is cleared first. *)
Lemma eventfd_read_fault_loses : exists g', ir0_eventfd_read 4096 demo_efds 4096 1 8 false = (g', - EFAULT, None) /\
  exists e, g' !! 0%nat = Some e /\ count e = 0.
Proof. eexists. split; [vm_compute; reflexivity|]. eexists. split; reflexivity. Qed.
