(* ===== verification/ObjTable.v ===== *)
(** * Static object tables

    Timers and memory files live in static arrays; a descriptor holds a
    pointer into one, and every operation first runs the object's [_is] test
    (src/kernel/timerfd.c, src/kernel/memfd.c): inside the array, at a slot
    boundary, magic number and [in_use] set.  This file has that test once,
    for any slot type, and the search for a free descriptor the creating
    system calls share. *)

From S2P Require Import Prelude FdTypes.

Section table.
Context {A : Type} (base size : Z) (max : nat) (valid : A -> bool).

Definition obj_addr (i : nat) : Z := base + size * Z.of_nat i.

Definition obj_slot (g : list A) (p : Z) : option (nat * A) :=
  if decide (p < base \/ base + size * Z.of_nat max <= p) then None else
  if decide ((p - base) mod size <> 0) then None else
  let i := Z.to_nat ((p - base) / size) in
  a ← g !! i;
  if bool_decide (p <> 0) && valid a then Some (i, a) else None.

Context (Hbase : 0 < base) (Hsize : 0 < size).

Lemma obj_slot_addr g i a : length g = max -> g !! i = Some a ->
  obj_slot g (obj_addr i) = if valid a then Some (i, a) else None.
Proof using Hbase Hsize.
  intros Hl Hi. assert (Hlt : (i < max)%nat) by (rewrite <- Hl; by eapply lookup_lt_Some). unfold obj_slot, obj_addr.
  replace (base + size * Z.of_nat i - base) with (Z.of_nat i * size) by lia. rewrite Z.mod_mul, Z.div_mul by lia. rewrite Nat2Z.id, Hi.
  rewrite decide_False by nia. rewrite decide_False by lia. cbn [mbind option_bind].
  by rewrite bool_decide_true by nia.
Qed.

Lemma obj_slot_Some g p i a : obj_slot g p = Some (i, a) -> g !! i = Some a /\ valid a = true /\ p = obj_addr i.
Proof using Hsize.
  unfold obj_slot. case_decide as H1; [done|]. case_decide as H2; [done|]. intros H. apply bind_Some in H as (e' & Hi & H).
  destruct (bool_decide (p <> 0) && valid e') eqn:E; [|done]. injection H as <- <-.
  rewrite !andb_true_iff in E. destruct E as [_ E]. splits; auto. unfold obj_addr.
  assert (H2' : (p - base) mod size = 0) by (destruct (decide ((p - base) mod size = 0)); tauto).
  pose proof (Z.div_mod (p - base) size ltac:(lia)) as D.
  assert (0 <= (p - base) / size) by (apply Z.div_pos; lia). rewrite Z2Nat.id by done. lia.
Qed.

(** Distinct slots have distinct addresses. *)
(** Replacing slot [i] changes what its own address names, and no other. *)
Lemma obj_slot_insert_ne g i a p : p <> obj_addr i -> obj_slot (<[i := a]> g) p = obj_slot g p.
Proof using Hsize.
  intros Hp. unfold obj_slot. case_decide as H1; [done|]. case_decide as H2; [done|].
  assert (Hidx : Z.to_nat ((p - base) / size) <> i).
  { intros <-. apply Hp. unfold obj_addr. pose proof (Z.div_mod (p - base) size ltac:(lia)).
    assert (0 <= (p - base) / size) by (apply Z.div_pos; lia). rewrite Z2Nat.id by done. lia. }
  by rewrite list_lookup_insert_ne.
Qed.

Lemma obj_addr_inj i j : obj_addr i = obj_addr j -> i = j.
Proof using Hsize. unfold obj_addr. intros H. nia. Qed.
End table.

(** [for (fd = 3; fd < MAX_FDS_PER_PROCESS; fd++) if (!tab[fd].in_use) break;] *)
Definition fd_is_free (t : list fd_entry) (fd : nat) : bool :=
  match t !! fd with Some x => negb (in_use x) | None => false end.
Definition first_free_fd (t : list fd_entry) : option nat :=
  find_from (fd_is_free t) 3 (MAX_FDS_PER_PROCESS - 3).

Lemma first_free_fd_Some t fd : first_free_fd t = Some fd ->
  (3 <= fd < MAX_FDS_PER_PROCESS)%nat /\ fd_is_free t fd = true /\ (forall k, (3 <= k < fd)%nat -> fd_is_free t k = false).
Proof. intros H. apply find_from_Some in H as (H1 & H2 & H3). splits; auto; unfold MAX_FDS_PER_PROCESS in *; lia. Qed.

Lemma first_free_fd_None t : first_free_fd t = None ->
  forall fd, (3 <= fd < MAX_FDS_PER_PROCESS)%nat -> fd_is_free t fd = false.
Proof. unfold first_free_fd. rewrite find_from_None. intros H fd Hfd. apply H. unfold MAX_FDS_PER_PROCESS in *. lia. Qed.

(** A free table slot: the search of the creating calls over [in_use]. *)
Definition first_free {A} (used : A -> bool) (g : list A) (max : nat) : option nat :=
  find_from (fun i => match g !! i with Some a => negb (used a) | None => false end) 0 max.

Lemma first_free_Some {A} (used : A -> bool) g max i : first_free used g max = Some i ->
  exists a, g !! i = Some a /\ used a = false /\ (i < max)%nat /\ forall j b, (j < i)%nat -> g !! j = Some b -> used b = true.
Proof.
  unfold first_free. intros H. apply find_from_Some in H as (H1 & H2 & H3). destruct (g !! i) as [a|] eqn:E; [|done].
  exists a. apply negb_true_iff in H2. splits; auto; [lia|]. intros j b Hj Eb. specialize (H3 j ltac:(lia)). rewrite Eb in H3. by apply negb_false_iff.
Qed.

Lemma first_free_None {A} (used : A -> bool) g : first_free used g (length g) = None -> Forall (fun a => used a = true) g.
Proof.
  unfold first_free. rewrite find_from_None. intros H. apply Forall_lookup. intros i a Hi. apply lookup_lt_Some in Hi as Hl.
  specialize (H i ltac:(lia)). rewrite Hi in H. by apply negb_false_iff.
Qed.
