(* ===== verification/Timerfd.v ===== *)
(** * Timer descriptors (src/kernel/timerfd.c)

    [g_tfd] is the static array at address [base].  The clock is an argument:
    each call of [clock_get_uptime_milliseconds] is one reading, and
    [timerfd_tick] also returns whether it called [poll_wake_check].  Copies
    between kernel and user space are arguments as in [Eventfd]. *)

From S2P Require Import Prelude FdTypes ObjTable.

Definition TFD_MAX : nat := 16.
Definition TFD_MAGIC : Z := 0x54464421.
Definition TFD_SIZE : Z := 40.
Definition IR0_TFD_CLOEXEC : Z := 0x80000.
Definition IR0_TFD_NONBLOCK : Z := 0x800.
Definition IR0_CLOCK_MONOTONIC : Z := 1.

Record ir0_timerfd := { magic : Z; t_in_use : bool; refs : Z; expire_ms : Z; interval_ms : Z; ticks : Z }.

Definition tfd_zero : ir0_timerfd :=
  {| magic := 0; t_in_use := false; refs := 0; expire_ms := 0; interval_ms := 0; ticks := 0 |}.
Definition tfd_new : ir0_timerfd :=
  {| magic := TFD_MAGIC; t_in_use := true; refs := 1; expire_ms := 0; interval_ms := 0; ticks := 0 |}.
Definition set_refs (r : Z) (t : ir0_timerfd) : ir0_timerfd :=
  {| magic := magic t; t_in_use := t_in_use t; refs := r; expire_ms := expire_ms t; interval_ms := interval_ms t; ticks := ticks t |}.
Definition set_timer (e i k : Z) (t : ir0_timerfd) : ir0_timerfd :=
  {| magic := magic t; t_in_use := t_in_use t; refs := refs t; expire_ms := e; interval_ms := i; ticks := k |}.

(** The [while] loop; [None] when the fuel is spent. *)
Fixpoint tick_loop (fuel : nat) (now : Z) (t : ir0_timerfd) : option ir0_timerfd :=
  match fuel with
  | O => None
  | S f =>
      if decide (expire_ms t <> 0 /\ expire_ms t <= now) then
        let k := u64 (ticks t + 1) in
        if decide (interval_ms t = 0) then Some (set_timer 0 (interval_ms t) k t) else
        let e := u64 (expire_ms t + interval_ms t) in
        let t := set_timer e (interval_ms t) k t in
        if decide (e <= now /\ 0 < interval_ms t) then tick_loop f now t else Some t
      else Some t
  end.

Definition timerfd_tick (now : Z) (t : ir0_timerfd) : option (ir0_timerfd * bool) :=
  if negb (t_in_use t) || bool_decide (expire_ms t = 0) then Some (t, false) else
  t ← tick_loop (S (Z.to_nat now)) now t;
  Some (t, bool_decide (ticks t <> 0)).

Record timespec := { tv_sec : Z; tv_nsec : Z }.
Record itimerspec := { it_interval : timespec; it_value : timespec }.

Definition timespec_to_ms (ts : timespec) : Z := u64 (u64 (u64 (tv_sec ts) * 1000) + u64 (tv_nsec ts) / 1000000).
Definition ms_to_timespec (ms : Z) : timespec := {| tv_sec := ms / 1000; tv_nsec := ms mod 1000 * 1000000 |}.

Section timerfd.
Context (base : Z).

Definition tfd_addr : nat -> Z := obj_addr base TFD_SIZE.
Definition tfd_slot : list ir0_timerfd -> Z -> option (nat * ir0_timerfd) :=
  obj_slot base TFD_SIZE TFD_MAX (fun t => bool_decide (magic t = TFD_MAGIC) && t_in_use t).

Definition ir0_timerfd_is (g : list ir0_timerfd) (p : Z) : bool := bool_decide (is_Some (tfd_slot g p)).

Definition ir0_timerfd_acquire (g : list ir0_timerfd) (p : Z) : outcome (list ir0_timerfd) :=
  match tfd_slot g p with
  | None => Ok g
  | Some (i, t) => r ← int_incr (refs t); Ok (<[i := set_refs r t]> g)
  end.

Definition ir0_timerfd_release (g : list ir0_timerfd) (p : Z) : list ir0_timerfd :=
  match tfd_slot g p with
  | None => g
  | Some (i, t) =>
      let r := if decide (0 < refs t) then refs t - 1 else refs t in
      if decide (r = 0) then <[i := tfd_zero]> g else <[i := set_refs r t]> g
  end.

Definition ir0_timerfd_poll_readable (now : Z) (g : list ir0_timerfd) (p : Z) : option (list ir0_timerfd * Z) :=
  match tfd_slot g p with
  | None => Some (g, 0)
  | Some (i, t) =>
      '(t, _) ← timerfd_tick now t;
      Some (<[i := t]> g, if decide (0 < ticks t) then 1 else 0)
  end.

(** The result, and the value stored in the user buffer. *)
Definition ir0_timerfd_read (now : Z) (g : list ir0_timerfd) (p buf n : Z) (copy_ok : bool)
  : option (list ir0_timerfd * Z * option Z) :=
  match tfd_slot g p with
  | None => Some (g, - EINVAL, None)
  | Some (i, t) =>
      if decide (buf = 0) then Some (g, - EINVAL, None) else
      if decide (n < 8) then Some (g, - EINVAL, None) else
      '(t, _) ← timerfd_tick now t;
      if decide (ticks t = 0) then Some (<[i := t]> g, - EAGAIN, None) else
      let g := <[i := set_timer (expire_ms t) (interval_ms t) 0 t]> g in
      Some (if copy_ok then (g, 8, Some (ticks t)) else (g, - EFAULT, None))
  end.

(** The descriptor a new timer gets. *)
Definition tfd_entry (p fl : Z) : fd_entry := {|
  in_use := true; path := path fd_zero; flags := if flag_set fl IR0_TFD_NONBLOCK then Z.lor O_RDWR O_NONBLOCK else O_RDWR;
  fd_flags := if flag_set fl IR0_TFD_CLOEXEC then FD_CLOEXEC else 0; vfs_file := p; offset := 0; is_pipe := false;
  pipe_end := 0; is_devfs := false; dev_device_id := 0; is_socket := false; is_pseudo := false; is_epoll := false;
  is_memfd := false; is_eventfd := false; is_timerfd := true |}.

Definition sys_timerfd_create (have_process : bool) (g : list ir0_timerfd) (tab : option (list fd_entry)) (clockid fl : Z)
  : list ir0_timerfd * option (list fd_entry) * Z :=
  if negb have_process then (g, tab, - ESRCH) else
  if decide (clockid <> IR0_CLOCK_MONOTONIC) then (g, tab, - EINVAL) else
  if flag_set fl (Z.lnot (Z.lor IR0_TFD_CLOEXEC IR0_TFD_NONBLOCK)) then (g, tab, - EINVAL) else
  match first_free t_in_use g TFD_MAX with
  | None => (g, tab, - ENOMEM)
  | Some i =>
      let g := <[i := tfd_new]> g in
      match tab with
      | None => (<[i := tfd_zero]> g, None, - ESRCH)
      | Some t =>
          match first_free_fd t with
          | None => (<[i := tfd_zero]> g, tab, - EMFILE)
          | Some fd => (g, Some (<[fd := tfd_entry (tfd_addr i) fl]> t), Z.of_nat fd)
          end
      end
  end.

(** The timer a descriptor names, as both timed calls look it up. *)
Definition fd_timer (g : list ir0_timerfd) (tab : option (list fd_entry)) (fd : Z) : option (nat * ir0_timerfd) :=
  if decide (fd < 0 \/ Z.of_nat MAX_FDS_PER_PROCESS <= fd) then None else
  t ← tab; e ← t !! Z.to_nat fd;
  if in_use e && is_timerfd e && bool_decide (vfs_file e <> 0) then tfd_slot g (vfs_file e) else None.

(** What both timed calls report: the time left and the interval. *)
Definition timer_setting (now : Z) (t : ir0_timerfd) : itimerspec :=
  {| it_interval := ms_to_timespec (interval_ms t);
     it_value := if decide (now < expire_ms t) then ms_to_timespec (expire_ms t - now) else {| tv_sec := 0; tv_nsec := 0 |} |}.

(** [user] is what [copy_from_user] read; [n0] .. [n3] are the four clock
    readings.  The result carries what was stored through [old_value]. *)
Definition sys_timerfd_settime (have_process : bool) (g : list ir0_timerfd) (tab : option (list fd_entry)) (fd new_value old_value : Z)
    (user : option itimerspec) (out_ok : bool) (n0 n1 n2 n3 : Z) : option (list ir0_timerfd * Z * option itimerspec) :=
  if negb have_process then Some (g, - ESRCH, None) else
  if decide (new_value = 0) then Some (g, - EFAULT, None) else
  match fd_timer g tab fd with
  | None => Some (g, - EBADF, None)
  | Some (i, t) =>
      match user with
      | None => Some (g, - EFAULT, None)
      | Some nv =>
          '(t, _) ← timerfd_tick n0 t;
          let ov := if decide (old_value <> 0) then Some (timer_setting n1 t) else None in
          if decide (old_value <> 0 /\ out_ok = false) then Some (<[i := t]> g, - EFAULT, None) else
          let value_ms := timespec_to_ms (it_value nv) in
          let interval := timespec_to_ms (it_interval nv) in
          let t := set_timer (if decide (value_ms = 0) then 0 else u64 (n2 + value_ms)) interval 0 t in
          '(t, _) ← timerfd_tick n3 t;
          Some (<[i := t]> g, 0, ov)
      end
  end.

Definition sys_timerfd_gettime (have_process : bool) (g : list ir0_timerfd) (tab : option (list fd_entry)) (fd curr_value : Z)
    (out_ok : bool) (n0 n1 : Z) : option (list ir0_timerfd * Z * option itimerspec) :=
  if decide (have_process = false \/ curr_value = 0) then Some (g, - EFAULT, None) else
  match fd_timer g tab fd with
  | None => Some (g, - EBADF, None)
  | Some (i, t) =>
      '(t, _) ← timerfd_tick n0 t;
      Some (if out_ok then (<[i := t]> g, 0, Some (timer_setting n1 t)) else (<[i := t]> g, - EFAULT, None))
  end.
End timerfd.

(** ** Invariant: the widths of the fields *)

Definition tfd_wf (t : ir0_timerfd) : Prop :=
  0 <= expire_ms t < 2 ^ 64 /\ 0 <= interval_ms t < 2 ^ 64 /\ 0 <= ticks t < 2 ^ 64.
Definition tfd_ok (t : ir0_timerfd) : Prop :=
  if t_in_use t then magic t = TFD_MAGIC /\ 0 < refs t /\ tfd_wf t else t = tfd_zero.
Definition tfds_ok (g : list ir0_timerfd) : Prop := length g = TFD_MAX /\ Forall tfd_ok g.

(** An uptime in milliseconds that a running machine can show. *)
Definition uptime (now : Z) : Prop := 0 <= now < 2 ^ 63.

(** ** The catch-up loop *)

Lemma u64_small z : 0 <= z < 2 ^ 64 -> u64 z = z.
Proof. apply Z.mod_small. Qed.

(** Expirations of a timer first due at [e] with period [i], up to [now]. *)
Definition expirations (e i now : Z) : Z :=
  if decide (now < e) then 0 else if decide (i = 0) then 1 else (now - e) / i + 1.

(** The first expiration after [now]; 0 for a one-shot timer that is due. *)
Definition next_expiry (e i now : Z) : Z :=
  if decide (now < e) then e else if decide (i = 0) then 0 else e + ((now - e) / i + 1) * i.

Lemma tick_loop_periodic fuel now t :
  uptime now -> 0 < expire_ms t -> 0 < interval_ms t < 2 ^ 63 -> (Z.to_nat (now - expire_ms t) < fuel)%nat ->
  tick_loop fuel now t =
    Some (set_timer (next_expiry (expire_ms t) (interval_ms t) now) (interval_ms t)
            (if decide (now < expire_ms t) then ticks t else u64 (ticks t + expirations (expire_ms t) (interval_ms t) now)) t).
Proof.
  revert t. induction fuel as [|f IH]; intros t Hn He Hi Hf; [lia|]. unfold uptime in Hn. cbn [tick_loop].
  unfold next_expiry, expirations. destruct (decide (now < expire_ms t)) as [Hlt|Hge].
  { rewrite decide_False by lia. by destruct t. }
  rewrite decide_True by lia. rewrite !(decide_False (P := interval_ms t = 0)) by lia.
  rewrite (u64_small (expire_ms t + interval_ms t)) by lia. cbn [interval_ms set_timer].
  set (e := expire_ms t) in *. set (i := interval_ms t) in *. destruct (decide (e + i <= now /\ 0 < i)) as [Hc|Hc].
  - rewrite IH; cbn [expire_ms interval_ms ticks set_timer]; fold e i; [|done|lia|done|lia].
    unfold next_expiry, expirations. rewrite !(decide_False (P := now < e + i)), !(decide_False (P := i = 0)) by lia.
    replace (now - (e + i)) with (now - e + (-1) * i) by lia. rewrite Z.div_add by lia.
    unfold set_timer. cbn. f_equal. f_equal; [lia|]. unfold u64. rewrite Zplus_mod_idemp_l. f_equal. lia.
  - assert ((now - e) / i = 0) as -> by (apply Z.div_small; lia). f_equal. unfold set_timer. f_equal. lia.
Qed.

Lemma tick_loop_oneshot fuel now t : 0 < expire_ms t -> interval_ms t = 0 -> (0 < fuel)%nat ->
  tick_loop fuel now t =
    Some (set_timer (next_expiry (expire_ms t) 0 now) 0 (if decide (now < expire_ms t) then ticks t else u64 (ticks t + 1)) t).
Proof.
  intros He Hi Hf. destruct fuel as [|f]; [lia|]. cbn [tick_loop]. unfold next_expiry. destruct (decide (now < expire_ms t)).
  - rewrite decide_False by lia. f_equal. rewrite <- Hi. by destruct t.
  - rewrite !decide_True by lia. by rewrite Hi.
Qed.

(** An interval of more than half the range moves the expiry backwards. *)
Lemma tick_loop_backwards fuel now t :
  uptime now -> 0 <= expire_ms t <= now -> 2 ^ 63 <= interval_ms t < 2 ^ 64 -> (Z.to_nat (expire_ms t) < fuel)%nat ->
  is_Some (tick_loop fuel now t).
Proof.
  revert t. induction fuel as [|f IH]; intros t Hn He Hi Hf; [lia|]. unfold uptime in Hn. cbn [tick_loop].
  case_decide as H0; [|by eexists]. rewrite decide_False by lia. cbn [interval_ms set_timer].
  case_decide as Hc; [|by eexists]. apply IH; cbn [expire_ms interval_ms set_timer]; auto; unfold u64 in *.
  - split; [apply Z.mod_pos_bound; lia|lia].
  - assert (E : (expire_ms t + interval_ms t) mod 2 ^ 64 = expire_ms t + interval_ms t - 2 ^ 64).
    { destruct (decide (expire_ms t + interval_ms t < 2 ^ 64)).
      - rewrite Z.mod_small in Hc by lia. lia.
      - rewrite <- (Z.mod_add _ (-1)) by lia. apply Z.mod_small. lia. }
    rewrite E. lia.
Qed.

Lemma tick_loop_wf fuel now t t' : tfd_wf t -> tick_loop fuel now t = Some t' ->
  tfd_wf t' /\ magic t' = magic t /\ t_in_use t' = t_in_use t /\ refs t' = refs t /\ interval_ms t' = interval_ms t.
Proof.
  revert t. induction fuel as [|f IH]; intros t Hwf; [done|]. cbn [tick_loop]. pose proof Hwf as (He & Hi & Hk).
  assert (Hu : forall z, 0 <= u64 z < 2 ^ 64) by (intros; apply Z.mod_pos_bound; lia).
  case_decide; [|intros [= <-]; splits; auto].
  case_decide. { intros [= <-]. split; [|done]. split; [cbn; lia|]. split; [done|apply Hu]. }
  cbn [interval_ms set_timer]. assert (Hwf' : tfd_wf (set_timer (u64 (expire_ms t + interval_ms t)) (interval_ms t) (u64 (ticks t + 1)) t)).
  { split; [apply Hu|]. split; [done|apply Hu]. }
  case_decide; [|by intros [= <-]]. intros E. by destruct (IH _ Hwf' E).
Qed.

(** [timerfd_tick] always ends: the fuel bound of the model is never reached. *)
Lemma timerfd_tick_total now t : tfd_wf t -> uptime now ->
  exists t' w, timerfd_tick now t = Some (t', w) /\ tfd_wf t' /\ magic t' = magic t /\ t_in_use t' = t_in_use t /\ refs t' = refs t /\
    interval_ms t' = interval_ms t.
Proof.
  intros Hwf Hn. pose proof Hwf as (He & Hi & Hk). unfold timerfd_tick. destruct (negb (t_in_use t) || bool_decide (expire_ms t = 0)) eqn:E.
  { exists t, false. by splits. }
  apply orb_false_iff in E as [_ E0]. apply bool_decide_eq_false in E0.
  assert (is_Some (tick_loop (S (Z.to_nat now)) now t)) as [t' E].
  { unfold uptime in Hn. destruct (decide (interval_ms t = 0)); [rewrite tick_loop_oneshot by lia; by eexists|].
    destruct (decide (interval_ms t < 2 ^ 63)); [rewrite tick_loop_periodic by (unfold uptime; lia); by eexists|].
    destruct (decide (now < expire_ms t)); [cbn [tick_loop]; rewrite decide_False by lia; by eexists|].
    apply tick_loop_backwards; unfold uptime; lia. }
  rewrite E. cbn [mbind option_bind]. exists t', (bool_decide (ticks t' <> 0)). split; [done|]. by eapply tick_loop_wf.
Qed.

(** The closed form of a tick for every interval a caller can mean. *)
Lemma timerfd_tick_spec now t : tfd_wf t -> uptime now -> t_in_use t = true -> expire_ms t <> 0 -> interval_ms t < 2 ^ 63 ->
  exists w, timerfd_tick now t = Some (set_timer (next_expiry (expire_ms t) (interval_ms t) now) (interval_ms t)
    (if decide (now < expire_ms t) then ticks t else u64 (ticks t + expirations (expire_ms t) (interval_ms t) now)) t, w).
Proof.
  intros (He & Hi & Hk) Hn Hu Hz Hh. unfold timerfd_tick. rewrite Hu, bool_decide_false by done. cbn [negb orb].
  unfold uptime in Hn. destruct (decide (interval_ms t = 0)) as [E|E].
  - rewrite tick_loop_oneshot by lia. cbn [mbind option_bind]. rewrite E. unfold expirations.
    destruct (decide (now < expire_ms t)); [by eexists|]. rewrite decide_True by done. by eexists.
  - rewrite tick_loop_periodic by (unfold uptime; lia). by eexists.
Qed.

(** ** Expirations over time *)

Lemma expirations_bound e i n : 0 < e -> 0 <= i -> 0 <= n -> 0 <= expirations e i n <= n.
Proof.
  intros He Hi Hn. unfold expirations. case_decide; [lia|]. case_decide; [lia|].
  assert (0 <= (n - e) / i <= n - e); [|lia]. split; [apply Z.div_pos; lia|]. apply Z.div_le_upper_bound; nia.
Qed.

Lemma next_expiry_later e i n : 0 < e -> 0 <= i -> next_expiry e i n = 0 /\ i = 0 /\ e <= n \/ n < next_expiry e i n.
Proof.
  intros He Hi. unfold next_expiry. case_decide; [lia|]. case_decide; [lia|].
  right. pose proof (Z.mod_pos_bound (n - e) i ltac:(lia)). pose proof (Z.div_mod (n - e) i ltac:(lia)). nia.
Qed.

(** Ticking at [n] and again at [n'] is ticking once at [n']. *)
Lemma expirations_step e i n n' : 0 < e -> 0 <= i -> n <= n' -> next_expiry e i n <> 0 ->
  expirations e i n' = expirations e i n + expirations (next_expiry e i n) i n' /\
  next_expiry (next_expiry e i n) i n' = next_expiry e i n'.
Proof.
  intros He Hi Hn Hz. pose proof (next_expiry_later e i n He Hi) as Hlt. destruct Hlt as [Hlt|Hlt]; [lia|].
  unfold next_expiry in *. destruct (decide (n < e)) as [H1|H1].
  { split; [|done]. unfold expirations at 2. rewrite decide_True by done. lia. }
  destruct (decide (i = 0)) as [->|Hi0]; [done|].
  set (k := (n - e) / i + 1) in *.
  assert (Hd : (n' - (e + k * i)) / i = (n' - e) / i - k).
  { replace (n' - (e + k * i)) with (n' - e + (- k) * i) by lia. rewrite Z.div_add by lia. lia. }
  unfold expirations. rewrite !(decide_False (P := i = 0)) by done. rewrite Hd.
  rewrite (decide_False (P := n < e)), !(decide_False (P := n' < e)) by lia. fold k.
  destruct (decide (n' < e + k * i)) as [H2|H2]; [|split; lia].
  assert (Hk : (n' - e) / i < k) by (apply Z.div_lt_upper_bound; nia).
  assert (Hk' : (n - e) / i <= (n' - e) / i) by (apply Z.div_le_mono; lia). split; [lia|].
  f_equal. f_equal. unfold k in *. lia.
Qed.

(** The timer set to [e], [i], last serviced at [n], after delivering [d]. *)
Definition tracks (t : ir0_timerfd) (e i n d : Z) : Prop :=
  t_in_use t = true /\ magic t = TFD_MAGIC /\ 0 < refs t /\ interval_ms t = i /\
  expire_ms t = next_expiry e i n /\ ticks t + d = expirations e i n /\ 0 <= ticks t /\ 0 <= d.

Section run.
Context (base : Z) (Hbase : 0 < base) (e i : Z) (He : 0 < e < 2 ^ 63) (Hi : 0 <= i < 2 ^ 62).

Lemma tracks_wf t n d : uptime n -> tracks t e i n d -> tfd_wf t.
Proof using He Hi.
  intros Hn (_ & _ & _ & Ei & Ee & Ek & Hk & Hd). unfold uptime in Hn.
  pose proof (expirations_bound e i n ltac:(lia) ltac:(lia) ltac:(lia)). unfold tfd_wf. rewrite Ei, Ee.
  assert (0 <= next_expiry e i n < 2 ^ 64); [|lia]. unfold next_expiry. case_decide; [lia|]. case_decide; [lia|].
  pose proof (Z.mod_pos_bound (n - e) i ltac:(lia)). pose proof (Z.div_mod (n - e) i ltac:(lia)). nia.
Qed.

Lemma tracks_tick t n n' d : uptime n -> uptime n' -> n <= n' -> tracks t e i n d ->
  exists t' w, timerfd_tick n' t = Some (t', w) /\ tracks t' e i n' d.
Proof using He Hi.
  intros Hn Hn' Hle HT. pose proof (tracks_wf t n d Hn HT) as Hwf. destruct HT as (Hu & Hm & Hr & Ei & Ee & Ek & Hk & Hd).
  destruct (decide (next_expiry e i n = 0)) as [E0|E0].
  - unfold timerfd_tick. rewrite Hu, Ee, E0. cbn. exists t, false. split; [done|]. unfold uptime in *.
    destruct (next_expiry_later e i n) as [(_ & Hi0 & Hen)|]; [lia|lia| |lia]. unfold tracks. splits; auto; rewrite ?Ee, ?Ek, ?E0, Hi0.
    + unfold next_expiry. rewrite decide_False by lia. by rewrite decide_True.
    + unfold expirations. by rewrite !(decide_False (P := _ < e)) by lia.
  - destruct (timerfd_tick_spec n' t) as [w E]; auto; [congruence|lia|]. rewrite E. eexists _, w. split; [done|]. clear E.
    destruct (expirations_step e i n n' ltac:(lia) ltac:(lia) Hle E0) as [Es En]. unfold uptime in *.
    pose proof (expirations_bound e i n' ltac:(lia) ltac:(lia) ltac:(lia)) as Hb.
    assert (0 <= expirations (next_expiry e i n) i n').
    { apply expirations_bound; [|lia|lia]. destruct (next_expiry_later e i n); lia. }
    unfold tracks. cbn [set_timer t_in_use magic refs interval_ms expire_ms ticks]. rewrite Ee, Ei. splits; auto.
    + case_decide as Hc; [assert (expirations (next_expiry e i n) i n' = 0) by (unfold expirations at 1; by rewrite decide_True); lia|]. rewrite u64_small by lia. lia.
    + case_decide; [done|]. rewrite u64_small; lia.
Qed.

(** [ok] is whether the copy of the tick count to the user succeeds. *)
Inductive tfd_io := TPoll (now : Z) | TRead (now buf n : Z) (ok : bool).
Definition io_time (op : tfd_io) : Z := match op with TPoll now => now | TRead now _ _ _ => now end.
Definition io_copied (op : tfd_io) : Prop := match op with TPoll _ => True | TRead _ _ _ ok => ok = true end.

(** Poll and read one timer; the sum of the values reads delivered. *)
Fixpoint tfd_run (g : list ir0_timerfd) (p : Z) (ops : list tfd_io) : option (list ir0_timerfd * Z) :=
  match ops with
  | [] => Some (g, 0)
  | TPoll now :: ops' => '(g, _) ← ir0_timerfd_poll_readable base now g p; tfd_run g p ops'
  | TRead now buf n ok :: ops' =>
      '(g, _, v) ← ir0_timerfd_read base now g p buf n ok;
      '(g, del) ← tfd_run g p ops';
      Some (g, default 0 v + del)
  end.

(** The clock readings do not go back, and what the last serviced one is: a
    read that is refused for its arguments does not look at the clock. *)
Definition serviced (op : tfd_io) : bool :=
  match op with TPoll _ => true | TRead _ buf n _ => negb (bool_decide (buf = 0 \/ n < 8)) end.
Fixpoint clock_ordered (n : Z) (ops : list tfd_io) : Prop :=
  match ops with [] => True | op :: ops' => n <= io_time op /\ uptime (io_time op) /\ clock_ordered (io_time op) ops' end.
Fixpoint last_service (n : Z) (ops : list tfd_io) : Z :=
  match ops with [] => n | op :: ops' => last_service (if serviced op then io_time op else n) ops' end.

Lemma clock_ordered_mono n n' ops : n' <= n -> clock_ordered n ops -> clock_ordered n' ops.
Proof. destruct ops as [|op ops]; [done|]. cbn. intros ? (? & ? & ?). splits; auto; lia. Qed.

Lemma tracks_slot g j t n d : length g = TFD_MAX -> g !! j = Some t -> tracks t e i n d -> tfd_slot base g (tfd_addr base j) = Some (j, t).
Proof using Hbase.
  intros Hl Hj (Hu & Hm & _). unfold tfd_slot, tfd_addr. rewrite (obj_slot_addr base TFD_SIZE TFD_MAX _ Hbase ltac:(done) g j t) by done.
  by rewrite bool_decide_true, Hu by done.
Qed.

Lemma tfd_read_refused g t j now buf m ok : tfd_slot base g (tfd_addr base j) = Some (j, t) -> buf = 0 \/ m < 8 ->
  ir0_timerfd_read base now g (tfd_addr base j) buf m ok = Some (g, - EINVAL, None).
Proof using.
  intros Hs Hr. unfold ir0_timerfd_read. rewrite Hs. destruct (decide (buf = 0)); [done|]. by rewrite decide_True by (destruct Hr; done).
Qed.

(** What is delivered, what is lost to failed copies and what is pending. *)
Lemma tfd_run_spec ops g j t n d : uptime n -> length g = TFD_MAX -> g !! j = Some t -> tracks t e i n d -> clock_ordered n ops ->
  exists g' t' del lost, tfd_run g (tfd_addr base j) ops = Some (g', del) /\ length g' = TFD_MAX /\ g' !! j = Some t' /\
    tracks t' e i (last_service n ops) (d + del + lost) /\ 0 <= lost /\ (Forall io_copied ops -> lost = 0) /\
    (forall k, k <> j -> g' !! k = g !! k).
Proof using Hbase He Hi.
  revert g t n d. induction ops as [|op ops IH]; intros g t n d Hn Hl Hj HT Ho.
  { exists g, t, 0, 0. splits; auto; [by rewrite !Z.add_0_r|lia]. }
  destruct Ho as (Hle & Hup & Ho). assert (Hlt : (j < length g)%nat) by (by eapply lookup_lt_Some).
  assert (Hstep : forall t1 d1, tracks t1 e i (io_time op) d1 -> exists g' t' del lost, tfd_run (<[j := t1]> g) (tfd_addr base j) ops = Some (g', del) /\
    length g' = TFD_MAX /\ g' !! j = Some t' /\ tracks t' e i (last_service (io_time op) ops) (d1 + del + lost) /\ 0 <= lost /\
    (Forall io_copied ops -> lost = 0) /\ (forall k, k <> j -> g' !! k = g !! k)).
  { intros t1 d1 H1. destruct (IH (<[j := t1]> g) t1 (io_time op) d1) as (g' & t' & del & lost & E & E1 & E2 & E3 & E4 & E5 & E6); auto;
      [by rewrite length_insert|by apply list_lookup_insert_eq|].
    exists g', t', del, lost. splits; auto. intros k Hk. rewrite E6 by done. by apply list_lookup_insert_ne. }
  pose proof (tracks_slot g j t n d Hl Hj HT) as Hs. destruct (tracks_tick t n (io_time op) d Hn Hup Hle HT) as (t1 & w & Et & HT1).
  assert (Hc : Forall io_copied (op :: ops) -> io_copied op /\ Forall io_copied ops) by apply Forall_cons.
  destruct op as [now|now buf m ok]; cbn [tfd_run last_service serviced io_time io_copied] in *.
  - unfold ir0_timerfd_poll_readable. rewrite Hs. cbn [mbind option_bind]. rewrite Et. cbn [mbind option_bind].
    destruct (Hstep t1 d HT1) as (g' & t' & del & lost & -> & H1 & H2 & H3 & H4 & H5 & H6). exists g', t', del, lost. splits; auto. tauto.
  - destruct (decide (buf = 0 \/ m < 8)) as [Hr|Hr].
    { rewrite (tfd_read_refused g t) by done. cbn [mbind option_bind]. rewrite (bool_decide_true (buf = 0 \/ m < 8)) by done. cbn [negb].
      destruct (IH g t n d Hn Hl Hj HT) as (g' & t' & del & lost & -> & H1 & H2 & H3 & H4 & H5 & H6); [by eapply clock_ordered_mono|].
      exists g', t', del, lost. splits; auto. tauto. }
    unfold ir0_timerfd_read. rewrite Hs, !decide_False by tauto. rewrite Et. cbn [mbind option_bind]. rewrite bool_decide_false by done. cbn [negb].
    destruct (decide (ticks t1 = 0)); cbn [mbind option_bind].
    + destruct (Hstep t1 d HT1) as (g' & t' & del & lost & -> & H1 & H2 & H3 & H4 & H5 & H6). exists g', t', del, lost. splits; auto. tauto.
    + destruct (Hstep (set_timer (expire_ms t1) (interval_ms t1) 0 t1) (d + ticks t1)) as (g' & t' & del & lost & E & H1 & H2 & H3 & H4 & H5 & H6).
      { destruct HT1 as (? & ? & ? & ? & ? & ? & ? & ?). unfold tracks. cbn. splits; auto; lia. }
      pose proof HT1 as (_ & _ & _ & _ & _ & _ & Hk & _).
      destruct ok; cbn [mbind option_bind]; rewrite E; cbn [mbind option_bind default].
      * exists g', t', (ticks t1 + del), lost. splits; auto; [by rewrite Z.add_assoc|tauto].
      * exists g', t', del, (ticks t1 + lost). splits; auto; [|lia|by intros [? _]%Hc].
        by replace (d + del + (ticks t1 + lost)) with (d + ticks t1 + del + lost) by lia.
Qed.
End run.

(** A duration as POSIX allows it, and short enough for the counter. *)
Definition timespec_ok (ts : timespec) : Prop := 0 <= tv_sec ts < 2 ^ 50 /\ 0 <= tv_nsec ts < 1000000000.

Lemma timespec_to_ms_exact ts : timespec_ok ts ->
  timespec_to_ms ts = tv_sec ts * 1000 + tv_nsec ts / 1000000 /\ 0 <= timespec_to_ms ts < 2 ^ 61.
Proof.
  intros [Hs Hn]. unfold timespec_to_ms. rewrite !(u64_small (tv_sec ts)), !(u64_small (tv_nsec ts)) by lia.
  assert (0 <= tv_nsec ts / 1000000 < 1000) by (split; [apply Z.div_pos|apply Z.div_lt_upper_bound]; lia).
  rewrite (u64_small (tv_sec ts * 1000)) by lia. rewrite u64_small by lia. split; lia.
Qed.

Lemma fd_timer_live base g tab fd j t : 0 < base -> tfds_ok g -> fd_timer base g tab fd = Some (j, t) ->
  g !! j = Some t /\ t_in_use t = true /\ magic t = TFD_MAGIC /\ 0 < refs t /\ tfd_wf t.
Proof.
  intros Hb [Hl Hf]. unfold fd_timer. case_decide; [done|]. destruct tab as [tb|]; [|done]. cbn [mbind option_bind].
  destruct (tb !! Z.to_nat fd) as [x|]; [|done]. cbn [mbind option_bind]. case_match; [|done]. intros H'.
  apply obj_slot_Some in H' as (Hj & Hv & _); [|done]. apply andb_true_iff in Hv as [_ Hu].
  pose proof (Forall_lookup_1 _ _ _ _ Hf Hj) as Hok. unfold tfd_ok in Hok. rewrite Hu in Hok. tauto.
Qed.

Lemma settime_tracks base g tab fd nv new old j t n0 n1 n2 n3 : 0 < base -> tfds_ok g -> fd_timer base g tab fd = Some (j, t) ->
  new <> 0 -> timespec_ok (it_value nv) -> timespec_ok (it_interval nv) -> timespec_to_ms (it_value nv) <> 0 ->
  uptime n0 -> 0 <= n2 -> n2 <= n3 < 2 ^ 62 ->
  exists t', sys_timerfd_settime base true g tab fd new old (Some nv) true n0 n1 n2 n3 =
      Some (<[j := t']> g, 0, if decide (old <> 0) then timer_setting n1 <$> (fst <$> timerfd_tick n0 t) else None) /\
    tracks t' (n2 + timespec_to_ms (it_value nv)) (timespec_to_ms (it_interval nv)) n3 0.
Proof.
  intros Hb Hok Hfd Hnew Hv Hi Hz Hn0 Hn2 Hn3. destruct (fd_timer_live base g tab fd j t Hb Hok Hfd) as (Hj & Hu & Hm & Hr & Hwf).
  destruct (timespec_to_ms_exact _ Hv) as [_ Hvb]. destruct (timespec_to_ms_exact _ Hi) as [_ Hib].
  destruct (timerfd_tick_total n0 t Hwf Hn0) as (t0 & w & Et & Hwf0 & Hm0 & Hu0 & Hr0 & _).
  set (e := n2 + timespec_to_ms (it_value nv)). set (i := timespec_to_ms (it_interval nv)) in *.
  assert (HT : tracks (set_timer e i 0 t0) e i n2 0).
  { unfold tracks, e, next_expiry, expirations. cbn. rewrite !decide_True by lia. splits; congruence || lia. }
  destruct (tracks_tick e i ltac:(unfold e; lia) ltac:(lia) _ n2 n3 0 ltac:(unfold uptime; lia) ltac:(unfold uptime; lia) ltac:(lia) HT) as (t' & w' & Et' & HT').
  exists t'. split; [|done]. unfold sys_timerfd_settime. cbn [negb]. rewrite decide_False, Hfd, Et by done. cbn [mbind option_bind].
  rewrite (decide_False (P := old <> 0 /\ true = false)) by (intros [_ ?]; done). rewrite (decide_False (P := timespec_to_ms _ = 0)) by done.
  rewrite u64_small by lia. fold e i. rewrite Et'. done.
Qed.

(** ** Correctness *)

(** C29: [timerfd_tick] always ends, for every expiry and interval a program can
    store and every clock reading below 2^63: also when the expiry passes
    2^64 and wraps.  For intervals below 2^63 it catches up in one step: it
    adds exactly the expirations that have passed and leaves the first one
    still to come, in phase; the other fields are untouched. *)
Theorem timerfd_tick_terminates now t : tfd_wf t -> uptime now ->
  (exists t' w, timerfd_tick now t = Some (t', w) /\ tfd_wf t' /\ refs t' = refs t /\ interval_ms t' = interval_ms t) /\
  (t_in_use t = true -> expire_ms t <> 0 -> interval_ms t < 2 ^ 63 -> expire_ms t <= now ->
   exists t' w, timerfd_tick now t = Some (t', w) /\
     ticks t' = u64 (ticks t + expirations (expire_ms t) (interval_ms t) now) /\
     (interval_ms t = 0 /\ expire_ms t' = 0 \/
      interval_ms t <> 0 /\ now < expire_ms t' <= now + interval_ms t /\ (expire_ms t' - expire_ms t) mod interval_ms t = 0)).
Proof.
  intros Hwf Hn. split.
  { destruct (timerfd_tick_total now t Hwf Hn) as (t' & w & E & H1 & _ & _ & H4 & H5). by exists t', w. }
  intros Hu Hz Hh Hle. destruct (timerfd_tick_spec now t Hwf Hn Hu Hz Hh) as [w E]. rewrite E. do 2 eexists. split; [reflexivity|].
  clear E. cbn [ticks expire_ms set_timer]. rewrite decide_False by lia. split; [done|]. unfold next_expiry. rewrite (decide_False (P := now < _)) by lia.
  destruct Hwf as (He & Hi & _). case_decide as Hi0; [by left|right]. split; [done|].
  set (k := (now - expire_ms t) / interval_ms t).
  pose proof (Z.mod_pos_bound (now - expire_ms t) (interval_ms t) ltac:(lia)). pose proof (Z.div_mod (now - expire_ms t) (interval_ms t) ltac:(lia)) as D. fold k in D.
  split; [nia|]. replace (expire_ms t + (k + 1) * interval_ms t - expire_ms t) with ((k + 1) * interval_ms t) by lia. apply Z.mod_mul. lia.
Qed.

Lemma timerfd_tick_terminates_witness :
  let t := {| magic := TFD_MAGIC; t_in_use := true; refs := 1; expire_ms := 1000; interval_ms := 250; ticks := 2 |} in
  timerfd_tick 1800 t = Some (set_timer 2000 250 6 t, true) /\
  exists t' w, timerfd_tick 1800 t = Some (t', w) /\ refs t' = 1.
Proof.
  cbv zeta. split; [vm_compute; reflexivity|].
  destruct (timerfd_tick_terminates 1800 {| magic := TFD_MAGIC; t_in_use := true; refs := 1; expire_ms := 1000; interval_ms := 250; ticks := 2 |})
    as [(t' & w & E & _ & Hr & _) _]; [unfold tfd_wf; cbn; lia|unfold uptime; lia|]. exists t', w. split; [exact E|exact Hr].
Defined.

(** C28: Every expiration is accounted for, and none is counted twice.  Let
    [timerfd_settime] arm a timer (timespecs with non-negative seconds below
    2^50 and nanoseconds below 10^9, a first expiry of at least a millisecond, and clock readings below 2^62)
    with first expiry [v] milliseconds from now and period [i].  Then for every
    sequence of reads and polls at clock readings that do not go back, the
    values delivered by reads plus the ticks still pending plus the ticks lost
    are exactly the expirations between arming and the last service; no tick is
    lost when the copies of the reads to the user succeed.  Other timers are untouched. *)
Theorem timerfd_expirations_delivered base g tab fd nv new old j t n0 n1 n2 n3 ops :
  0 < base -> tfds_ok g -> fd_timer base g tab fd = Some (j, t) -> new <> 0 ->
  timespec_ok (it_value nv) -> timespec_ok (it_interval nv) -> timespec_to_ms (it_value nv) <> 0 ->
  uptime n0 -> 0 <= n2 -> n2 <= n3 < 2 ^ 62 -> clock_ordered n3 ops ->
  exists g1 ov g2 t2 del lost,
    sys_timerfd_settime base true g tab fd new old (Some nv) true n0 n1 n2 n3 = Some (g1, 0, ov) /\
    tfd_run base g1 (tfd_addr base j) ops = Some (g2, del) /\ g2 !! j = Some t2 /\
    del + ticks t2 + lost = expirations (n2 + timespec_to_ms (it_value nv)) (timespec_to_ms (it_interval nv)) (last_service n3 ops) /\
    0 <= lost /\ 0 <= ticks t2 /\ (Forall io_copied ops -> lost = 0) /\
    (forall k, k <> j -> g2 !! k = g !! k).
Proof.
  intros Hb Hok Hfd Hnew Hv Hi Hz Hn0 Hn2 Hn3 Hops.
  destruct (settime_tracks base g tab fd nv new old j t n0 n1 n2 n3) as (t1 & E & HT); auto.
  destruct (fd_timer_live base g tab fd j t Hb Hok Hfd) as (Hj & _). pose proof (lookup_lt_Some _ _ _ Hj) as Hlt.
  destruct (timespec_to_ms_exact _ Hv) as [_ ?]. destruct (timespec_to_ms_exact _ Hi) as [_ ?].
  destruct (tfd_run_spec base Hb (n2 + timespec_to_ms (it_value nv)) (timespec_to_ms (it_interval nv)) ltac:(lia) ltac:(lia) ops (<[j := t1]> g) j t1 n3 0)
    as (g2 & t2 & del & lost & E2 & _ & Hj2 & HT2 & Hl0 & Hl & Hk); auto.
  - unfold uptime. lia.
  - rewrite length_insert. apply Hok.
  - by apply list_lookup_insert_eq.
  - destruct HT2 as (_ & _ & _ & _ & _ & Hs & Hp & _). do 6 eexists. split; [exact E|]. split; [exact E2|]. split; [exact Hj2|].
    split; [|split; [exact Hl0|split; [done|split; [done|]]]]; [lia|].
    intros k Hne. rewrite Hk by done. by apply list_lookup_insert_ne.
Qed.

Definition demo_tab : list fd_entry := <[3%nat := tfd_entry 4096 0]> (replicate MAX_FDS_PER_PROCESS fd_zero).
Definition demo_tfds : list ir0_timerfd := tfd_new :: replicate 15 tfd_zero.
Definition demo_spec : itimerspec :=
  {| it_interval := {| tv_sec := 0; tv_nsec := 250000000 |}; it_value := {| tv_sec := 1; tv_nsec := 0 |} |}.

Lemma demo_tfds_ok : tfds_ok demo_tfds.
Proof.
  split; [reflexivity|]. apply Forall_cons. split; [unfold tfd_ok, tfd_wf; cbn; lia|]. apply Forall_replicate. done.
Qed.

(** Expiries at 1100, 1350, 1600, 1850 and 2100: three are delivered, one is
    pending when a read with a short buffer is refused, two are lost to a
    failed copy. *)
Definition demo_services : list tfd_io := [TRead 900 1 8 true; TRead 1650 1 8 true; TPoll 1900; TRead 1900 1 4 true; TRead 2100 1 8 false].

Lemma timerfd_expirations_delivered_witness : exists g1 ov g2 t2 del lost,
  sys_timerfd_settime 4096 true demo_tfds (Some demo_tab) 3 1 0 (Some demo_spec) true 100 100 100 100 = Some (g1, 0, ov) /\
  tfd_run 4096 g1 4096 demo_services = Some (g2, del) /\
  g2 !! 0%nat = Some t2 /\ del = 3 /\ ticks t2 = 0 /\ lost = 2.
Proof.
  destruct (timerfd_expirations_delivered 4096 demo_tfds (Some demo_tab) 3 demo_spec 1 0 0 tfd_new 100 100 100 100 demo_services)
    as (g1 & ov & g2 & t2 & del & lost & E1 & E2 & Hj & Hs & _);
    [lia|exact demo_tfds_ok|reflexivity|done|unfold timespec_ok; cbn; lia|unfold timespec_ok; cbn; lia|by vm_compute|unfold uptime; lia|lia|lia|cbn; unfold uptime; lia|].
  exists g1, ov, g2, t2, del, lost. split; [exact E1|]. split; [exact E2|]. split; [exact Hj|].
  vm_compute in E1. injection E1 as <- _. vm_compute in E2. injection E2 as <- <-. vm_compute in Hj. injection Hj as <-.
  split; [reflexivity|]. split; [reflexivity|].
  assert (Hx : expirations (100 + timespec_to_ms (it_value demo_spec)) (timespec_to_ms (it_interval demo_spec)) (last_service 100 demo_services) = 5)
    by (vm_compute; reflexivity).
  rewrite Hx in Hs. cbn [ticks] in Hs. lia.
Defined.

(** [timerfd_settime] does not refuse a negative interval: the expiry then
    moves backwards and one due expiration is counted six times. *)
Lemma settime_negative_interval : exists g' t',
  sys_timerfd_settime 4096 true demo_tfds (Some demo_tab) 3 1 0
    (Some {| it_interval := {| tv_sec := -1; tv_nsec := 0 |}; it_value := {| tv_sec := 0; tv_nsec := 1000000 |} |}) true 5000 5000 5000 5001
    = Some (g', 0, None) /\ g' !! 0%nat = Some t' /\ ticks t' = 6.
Proof. do 2 eexists. split; [vm_compute; reflexivity|]. split; reflexivity. Qed.

(** References: the last one clears the slot, earlier ones only count. *)
Lemma timerfd_release_spec base g j t : 0 < base -> tfds_ok g -> g !! j = Some t -> t_in_use t = true ->
  ir0_timerfd_release base g (tfd_addr base j) = <[j := if decide (refs t = 1) then tfd_zero else set_refs (refs t - 1) t]> g /\
  tfds_ok (ir0_timerfd_release base g (tfd_addr base j)).
Proof.
  intros Hb [Hl Hf] Hj Hu. pose proof (Forall_lookup_1 _ _ _ _ Hf Hj) as Hok. unfold tfd_ok in Hok. rewrite Hu in Hok. destruct Hok as (Hm & Hr & Hwf).
  unfold ir0_timerfd_release, tfd_slot, tfd_addr. rewrite (obj_slot_addr base TFD_SIZE TFD_MAX _ Hb ltac:(done) g j t) by done.
  rewrite bool_decide_true, Hu by done. cbn [andb]. rewrite (decide_True (P := 0 < refs t)) by done.
  assert (Hins : forall x, tfd_ok x -> tfds_ok (<[j := x]> g)) by (intros x Hx; split; [by rewrite length_insert|by apply Forall_insert]).
  destruct (decide (refs t = 1)); [rewrite decide_True by lia; split; [done|by apply Hins]|].
  rewrite decide_False by lia. split; [done|]. apply Hins. unfold tfd_ok. cbn. rewrite Hu. splits; auto; lia || apply Hwf.
Qed.

Lemma timerfd_acquire_spec base g j t : 0 < base -> tfds_ok g -> g !! j = Some t -> t_in_use t = true -> refs t < INT_MAX ->
  ir0_timerfd_acquire base g (tfd_addr base j) = Ok (<[j := set_refs (refs t + 1) t]> g) /\ tfds_ok (<[j := set_refs (refs t + 1) t]> g).
Proof.
  intros Hb [Hl Hf] Hj Hu Hmax. pose proof (Forall_lookup_1 _ _ _ _ Hf Hj) as Hok. unfold tfd_ok in Hok. rewrite Hu in Hok. destruct Hok as (Hm & Hr & Hwf).
  unfold ir0_timerfd_acquire, tfd_slot, tfd_addr. rewrite (obj_slot_addr base TFD_SIZE TFD_MAX _ Hb ltac:(done) g j t) by done.
  rewrite bool_decide_true, Hu by done. cbn [andb]. unfold int_incr. rewrite decide_True by done. split; [done|].
  split; [by rewrite length_insert|]. apply Forall_insert; [done|]. unfold tfd_ok. cbn. rewrite Hu. splits; auto; lia || apply Hwf.
Qed.

(** Creation either fails and changes nothing, or gives the lowest free
    descriptor a fresh disarmed timer. *)
Lemma timerfd_create_spec base g tab clockid fl : tfds_ok g ->
  exists g' tab' r, sys_timerfd_create base true g tab clockid fl = (g', tab', r) /\ tfds_ok g' /\
    ((r < 0 /\ g' = g /\ tab' = tab) \/
     (exists i fd t, r = Z.of_nat fd /\ tab = Some t /\ fd_is_free t fd = true /\ (3 <= fd < MAX_FDS_PER_PROCESS)%nat /\
        g !! i = Some tfd_zero /\ g' = <[i := tfd_new]> g /\ tab' = Some (<[fd := tfd_entry (tfd_addr base i) fl]> t))).
Proof.
  intros Hok. unfold sys_timerfd_create. cbn [negb].
  case_decide; [do 3 eexists; split; [done|]; split; [done|]; by left|].
  destruct (flag_set fl _); [do 3 eexists; split; [done|]; split; [done|]; by left|].
  destruct (first_free t_in_use g TFD_MAX) as [i|] eqn:Ei; [|do 3 eexists; split; [done|]; split; [done|]; by left].
  apply first_free_Some in Ei as (t0 & Hi & Hu & _). destruct Hok as [Hl Hf]. pose proof (Forall_lookup_1 _ _ _ _ Hf Hi) as Ht.
  unfold tfd_ok in Ht. rewrite Hu in Ht. subst t0.
  assert (Hback : <[i := tfd_zero]> (<[i := tfd_new]> g) = g) by (rewrite list_insert_insert_eq; by apply list_insert_id). rewrite Hback.
  destruct tab as [t|]; [|do 3 eexists; split; [done|]; split; [by split|]; by left].
  destruct (first_free_fd t) as [fd|] eqn:Efd; [|do 3 eexists; split; [done|]; split; [by split|]; by left].
  apply first_free_fd_Some in Efd as (Hr & Hfree & _). do 3 eexists. split; [done|]. split.
  - split; [by rewrite length_insert|]. apply Forall_insert; [done|]. unfold tfd_ok, tfd_wf. cbn. lia.
  - right. exists i, fd, t. by splits; try apply Hr.
Qed.
