(* ===== verification/Files.v ===== *)
(** * Descriptor tables and their lifetime
      (src/kernel/process/files_struct.c, src/kernel/process/fdtable.c)

    A [files_struct] lives at its address in [fheap]; touching a freed one is
    [UB].  The kernel objects behind the descriptors (pipes, sockets, device
    nodes, eventfds, open files, ...) are reached through the interface
    [FdBackend]: what acquiring and releasing a reference does to them.  The
    table code is verified against the laws of that interface. *)

From S2P Require Import Prelude CString FdTypes.

Definition IR0_FILES_MAGIC : Z := 1179208773.
Definition SIZEOF_FILES : Z := 19976.

Record files_struct := { f_magic : Z; refcount : Z; fd_table : list fd_entry }.

(** What a descriptor refers to. *)
Inductive fd_ref :=
| RPipe (p e : Z)
| RSocket (p : Z)
| RDevfs (id snap : Z)
| RPseudo (p : Z)
| REpoll (p : Z)
| RMemfd (p : Z)
| REventfd (p : Z)
| RTimerfd (p : Z)
| RVfs (p : Z).

#[export] Instance fd_ref_eq_dec : EqDecision fd_ref.
Proof. solve_decision. Defined.

(** The calls the table code makes on the objects; [fd_wants_snap] is
    [devfs_node_wants_text_snap]. *)
Class FdBackend (S : Type) := {
  fd_acquire : fd_ref -> S -> outcome S;
  fd_release : fd_ref -> S -> outcome S;
  fd_wants_snap : Z -> bool
}.

(** The chain of tests both loops use to find the object of an entry. *)
Definition entry_ref (e : fd_entry) : option fd_ref :=
  let v := vfs_file e in
  let has := bool_decide (v <> 0) in
  if is_pipe e && has then Some (RPipe v (pipe_end e))
  else if is_socket e && has then Some (RSocket v)
  else if is_devfs e then Some (RDevfs (dev_device_id e) v)
  else if is_pseudo e && has then Some (RPseudo v)
  else if is_epoll e then (if has then Some (REpoll v) else None)
  else if is_memfd e && has then Some (RMemfd v)
  else if is_eventfd e && has then Some (REventfd v)
  else if is_timerfd e && has then Some (RTimerfd v)
  else if has then Some (RVfs v) else None.

Section files.
Context {S : Type} `{FdBackend S}.
Context (heap_start heap_end : Z).

Record fsys := { fheap : gmap Z files_struct; objs : S }.

Definition set_fheap (h : gmap Z files_struct) (y : fsys) : fsys := {| fheap := h; objs := objs y |}.

Definition files_struct_live (y : fsys) (f : Z) : outcome bool :=
  if decide (f = 0) then Ok false else
  if decide (f < heap_start) then Ok false else
  let e := u64 (f + SIZEOF_FILES) in
  if decide (e < f \/ heap_end < e) then Ok false else
  s ← or_ub (fheap y !! f);
  if decide (f_magic s <> IR0_FILES_MAGIC) then Ok false else
  if decide (refcount s <= 0) then Ok false else Ok true.

(** [ptr] is what [kmalloc_try] returned. *)
Definition files_create (y : fsys) (ptr : Z) : fsys * Z :=
  if decide (ptr = 0) then (y, 0) else
  (set_fheap (<[ptr := {| f_magic := IR0_FILES_MAGIC; refcount := 1; fd_table := replicate MAX_FDS_PER_PROCESS fd_zero |}]> (fheap y)) y, ptr).

Definition set_refcount (s : files_struct) (r : Z) : files_struct :=
  {| f_magic := f_magic s; refcount := r; fd_table := fd_table s |}.

Definition files_get (y : fsys) (f : Z) : outcome (fsys * Z) :=
  live ← files_struct_live y f;
  if negb live then Ok (y, 0) else
  s ← or_ub (fheap y !! f);
  r ← int_incr (refcount s);
  Ok (set_fheap (<[f := set_refcount s r]> (fheap y)) y, f).

(** The last reference poisons and frees the object. *)
Definition files_put (y : fsys) (f : Z) : outcome fsys :=
  if decide (f = 0) then Ok y else
  live ← files_struct_live y f;
  if negb live then Ok y else
  s ← or_ub (fheap y !! f);
  if decide (refcount s <= 0) then Panic "files_put: refcount underflow" else
  let r := refcount s - 1 in
  Ok (set_fheap (if decide (r = 0) then delete f (fheap y) else <[f := set_refcount s r]> (fheap y)) y).

(** ** Descriptor handles *)

Record ir0_fd := { h_files : Z; h_fd : Z }.
Definition fd_none : ir0_fd := {| h_files := 0; h_fd := -1 |}.

(** [proc] is the process's [files] pointer, [None] a null process; [out] tells
    whether the caller passed a handle. *)
Definition ir0_fd_get (y : fsys) (proc : option Z) (fd : Z) (out : bool) : outcome (fsys * ir0_fd * Z) :=
  if negb out then Ok (y, fd_none, - EINVAL) else
  match proc with
  | None => Ok (y, fd_none, - ESRCH)
  | Some f =>
      if decide (fd < 0 \/ Z.of_nat MAX_FDS_PER_PROCESS <= fd) then Ok (y, fd_none, - EBADF) else
      live ← files_struct_live y f;
      if negb live then Ok (y, fd_none, - EBADF) else
      '(y, g) ← files_get y f;
      if decide (g = 0) then Ok (y, fd_none, - EBADF) else
      s ← or_ub (fheap y !! f);
      e ← or_ub (fd_table s !! Z.to_nat fd);
      if negb (in_use e) then y ← files_put y f; Ok (y, fd_none, - EBADF)
      else Ok (y, {| h_files := f; h_fd := fd |}, 0)
  end.

Definition ir0_fd_put (y : fsys) (h : option ir0_fd) : outcome (fsys * option ir0_fd) :=
  match h with
  | None => Ok (y, None)
  | Some h => if decide (h_files h = 0) then Ok (y, Some h) else
              y ← files_put y (h_files h); Ok (y, Some fd_none)
  end.

(** ** Releasing a table *)

(** What [vfs_file] holds after the object was released. *)
Definition released_file (e : fd_entry) : Z :=
  match entry_ref e with
  | None => vfs_file e
  | Some (RDevfs id v) => if bool_decide (v <> 0) && fd_wants_snap id then 0 else v
  | Some _ => 0
  end.

Definition cleared (e : fd_entry) : fd_entry := {|
  in_use := false; path := <[0%nat := 0]> (path e); flags := 0; fd_flags := 0; vfs_file := released_file e; offset := 0;
  is_pipe := false; pipe_end := -1; is_devfs := false; dev_device_id := 0; is_socket := false; is_pseudo := false;
  is_epoll := false; is_memfd := false; is_eventfd := false; is_timerfd := false |}.

Definition release_entry (e : fd_entry) (s : S) : outcome (fd_entry * S) :=
  if negb (in_use e) then Ok (e, s) else
  s ← (match entry_ref e with None => Ok s | Some r => fd_release r s end);
  Ok (cleared e, s).

Fixpoint release_entries (es : list fd_entry) (s : S) : outcome (list fd_entry * S) :=
  match es with
  | [] => Ok ([], s)
  | e :: es' => '(e, s) ← release_entry e s; '(es', s) ← release_entries es' s; Ok (e :: es', s)
  end.

Definition process_release_fds (y : fsys) (p : option Z) : outcome fsys :=
  match p with
  | None => Ok y
  | Some f =>
      live ← files_struct_live y f;
      if negb live then Ok y else
      x ← or_ub (fheap y !! f);
      if decide (refcount x <> 1) then Ok y else
      '(t, s) ← release_entries (fd_table x) (objs y);
      Ok {| fheap := <[f := {| f_magic := f_magic x; refcount := refcount x; fd_table := t |}]> (fheap y); objs := s |}
  end.

(** ** Sharing and cloning *)

Definition acquire_entry (e : fd_entry) (s : S) : outcome S :=
  if negb (in_use e) then Ok s else
  match entry_ref e with
  | None | Some (REpoll _) => Ok s
  | Some r => fd_acquire r s
  end.

Fixpoint process_files_acquire_entries (es : list fd_entry) (s : S) : outcome S :=
  match es with
  | [] => Ok s
  | e :: es' => s ← acquire_entry e s; process_files_acquire_entries es' s
  end.

(** The process's [files] pointer after the call. *)
Definition process_files_bind (p : option Z) (f : Z) : option Z := match p with None => None | Some _ => Some f end.

(** The results: the system, the child's [files] pointer and the return code;
    [child] is the child's present pointer. *)
Definition process_files_share (y : fsys) (child parent : option Z) : outcome (fsys * option Z * Z) :=
  match child, parent with
  | Some _, Some f =>
      live ← files_struct_live y f;
      if negb live then Ok (y, child, - EINVAL) else
      '(y, g) ← files_get y f;
      if decide (g = 0) then Ok (y, child, - EINVAL) else Ok (y, process_files_bind child f, 0)
  | _, _ => Ok (y, child, - EINVAL)
  end.

Definition process_files_clone (y : fsys) (ptr : Z) (child parent : option Z) : outcome (fsys * option Z * Z) :=
  match child, parent with
  | Some _, Some f =>
      live ← files_struct_live y f;
      if negb live then Ok (y, child, - EINVAL) else
      let '(y, nf) := files_create y ptr in
      if decide (nf = 0) then Ok (y, child, - ENOMEM) else
      x ← or_ub (fheap y !! f);
      s ← process_files_acquire_entries (fd_table x) (objs y);
      Ok ({| fheap := <[nf := {| f_magic := IR0_FILES_MAGIC; refcount := 1; fd_table := fd_table x |}]> (fheap y); objs := s |},
          process_files_bind child nf, 0)
  | _, _ => Ok (y, child, - EINVAL)
  end.

Definition process_duplicate_fd_table (y : fsys) (ptr : Z) (parent child : option Z) : outcome (fsys * option Z * Z) :=
  process_files_clone y ptr child parent.

(** ** A new table *)

Definition named (e : fd_entry) (name : string) : outcome fd_entry :=
  p ← strncpy (path e) 0 (lit name) 255;
  Ok {| in_use := true; path := p; flags := flags e; fd_flags := fd_flags e; vfs_file := vfs_file e; offset := offset e;
        is_pipe := is_pipe e; pipe_end := pipe_end e; is_devfs := is_devfs e; dev_device_id := dev_device_id e;
        is_socket := is_socket e; is_pseudo := is_pseudo e; is_epoll := is_epoll e; is_memfd := is_memfd e;
        is_eventfd := is_eventfd e; is_timerfd := is_timerfd e |}.

Definition unused (e : fd_entry) : fd_entry := {|
  in_use := false; path := <[0%nat := 0]> (path e); flags := 0; fd_flags := 0; vfs_file := 0; offset := 0; is_pipe := false;
  pipe_end := pipe_end e; is_devfs := false; dev_device_id := 0; is_socket := false; is_pseudo := false; is_epoll := false;
  is_memfd := false; is_eventfd := false; is_timerfd := false |}.

Definition name_slot (t : list fd_entry) (i : nat) (name : string) : outcome (list fd_entry) :=
  e ← or_ub (t !! i); e ← named e name; Ok (<[i := e]> t).

(** The process's [files] pointer is [files]; [ptr] is what an allocation
    returns; the result is the system and the pointer the process has then. *)
Definition process_init_fd_table (y : fsys) (ptr : Z) (process : option Z) : outcome (fsys * option Z) :=
  match process with
  | None => Ok (y, None)
  | Some files =>
      let '(y, f) := if decide (files = 0) then files_create y ptr else (y, files) in
      if decide (f = 0) then Ok (y, Some 0) else
      x ← or_ub (fheap y !! f);
      let t := map unused (fd_table x) in
      t ← name_slot t 0 "/dev/stdin";
      t ← name_slot t 1 "/dev/stdout";
      t ← name_slot t 2 "/dev/stderr";
      Ok (set_fheap (<[f := {| f_magic := f_magic x; refcount := refcount x; fd_table := t |}]> (fheap y)) y, Some f)
  end.
End files.
Arguments fsys : clear implicits.

(** ** Laws of the interface *)

(** Objects count their references: [fb_refs] per reference kind, [fb_room] how
    many more the object's counter can take. *)
Class FdBackendLaws (S : Type) `{FdBackend S} := {
  fb_inv : S -> Prop;
  fb_refs : S -> fd_ref -> Z;
  fb_room : S -> fd_ref -> Z;
  fb_refs_nonneg s r : fb_inv s -> 0 <= fb_refs s r;
  fb_acquire_ok s r : fb_inv s -> 0 < fb_refs s r -> 0 < fb_room s r ->
    exists s', fd_acquire r s = Ok s' /\ fb_inv s' /\
      (forall q, fb_refs s' q = fb_refs s q + if decide (q = r) then 1 else 0) /\
      (forall q, fb_room s q - 1 <= fb_room s' q);
  fb_release_ok s r : fb_inv s -> 0 < fb_refs s r ->
    exists s', fd_release r s = Ok s' /\ fb_inv s' /\
      (forall q, fb_refs s' q = fb_refs s q - if decide (q = r) then 1 else 0)
}.

Section balance.
Context {S : Type} `{FdBackendLaws S}.
Context (heap_start heap_end : Z).

Definition used_ref (e : fd_entry) : option fd_ref := if in_use e then entry_ref e else None.

(** How many entries of a table hold [r]. *)
Fixpoint occ (r : fd_ref) (es : list fd_entry) : Z :=
  match es with [] => 0 | e :: es' => (if decide (used_ref e = Some r) then 1 else 0) + occ r es' end.

Definition no_epoll (es : list fd_entry) : Prop := Forall (fun e => forall p, used_ref e <> Some (REpoll p)) es.

Lemma occ_nonneg r es : 0 <= occ r es.
Proof. induction es as [|e es IH]; simpl; [lia|]. dec_goal; lia. Qed.

Lemma acquire_entries_spec es s :
  fb_inv s -> no_epoll es -> (forall e r, e ∈ es -> used_ref e = Some r -> 0 < fb_refs s r /\ Z.of_nat (length es) <= fb_room s r) ->
  exists s', process_files_acquire_entries es s = Ok s' /\ fb_inv s' /\ forall q, fb_refs s' q = fb_refs s q + occ q es.
Proof.
  revert s. induction es as [|e es IH]; intros s Hinv Hne Hr; cbn [process_files_acquire_entries occ].
  { exists s. splits; auto. intros. lia. }
  apply Forall_cons in Hne as [He Hne]. unfold acquire_entry, used_ref in *.
  assert (Hskip : (forall r, (if in_use e then entry_ref e else None) <> Some r) ->
    exists s', process_files_acquire_entries es s = Ok s' /\ fb_inv s' /\
      forall q, fb_refs s' q = fb_refs s q + ((if decide ((if in_use e then entry_ref e else None) = Some q) then 1 else 0) + occ q es)).
  { intros Hno. destruct (IH s Hinv Hne) as (s' & E & Hinv' & Hq).
    - intros e' r He' Hu. destruct (Hr e' r) as [? Hroom]; [by right|done|]. simpl in Hroom. split; [done|lia].
    - exists s'. splits; auto. intros q. rewrite Hq. rewrite decide_False by done. lia. }
  destruct (in_use e) eqn:Eu; simpl; [|by apply Hskip]. destruct (entry_ref e) as [r|] eqn:Er; [|by apply Hskip].
  clear Hskip. destruct (Hr e r) as [Hpos Hroom]; [left|by rewrite Eu|]. simpl in Hroom.
  destruct (fb_acquire_ok s r Hinv Hpos) as (s1 & E1 & Hinv1 & Hq1 & Hroom1); [lia|].
  assert (Hgo : (match r with REpoll _ => Ok s | _ => fd_acquire r s end) = Ok s1) by (destruct r; try done; by destruct (He p)).
  rewrite Hgo. cbn [mbind outcome_bind].
  destruct (IH s1 Hinv1 Hne) as (s2 & E2 & Hinv2 & Hq2).
  - intros e' r' He' Hu. destruct (Hr e' r') as [Hp' Hroom']; [by right|done|]. rewrite Hq1. specialize (Hroom1 r'). simpl in Hroom'.
    split; [dec_goal; lia|lia].
  - exists s2. splits; auto. intros q. rewrite Hq2, Hq1. destruct (decide (q = r)) as [->|Hn].
    + rewrite decide_True by done. lia.
    + rewrite decide_False by congruence. lia.
Qed.

Lemma release_entries_spec es s : fb_inv s -> (forall r, occ r es <= fb_refs s r) ->
  exists s', release_entries es s = Ok (map (fun e => if in_use e then cleared e else e) es, s') /\ fb_inv s' /\
    forall q, fb_refs s' q = fb_refs s q - occ q es.
Proof.
  revert s. induction es as [|e es IH]; intros s Hinv Hr; cbn [release_entries occ map].
  { exists s. splits; auto. intros. lia. }
  unfold release_entry. cbn [occ] in Hr. unfold used_ref in *.
  assert (Hskip : forall e', (forall r, (if in_use e then entry_ref e else None) <> Some r) ->
    exists s', ('(es', s) ← release_entries es s; Ok (e' :: es', s)) = Ok (e' :: map (fun e => if in_use e then cleared e else e) es, s') /\ fb_inv s' /\
      forall q, fb_refs s' q = fb_refs s q - ((if decide ((if in_use e then entry_ref e else None) = Some q) then 1 else 0) + occ q es)).
  { intros e' Hno. destruct (IH s Hinv) as (s' & E & Hinv' & Hq).
    - intros r. specialize (Hr r). rewrite decide_False in Hr by done. lia.
    - exists s'. rewrite E. splits; auto. intros q. rewrite Hq. rewrite decide_False by done. lia. }
  destruct (in_use e) eqn:Eu; simpl negb; cbv iota; [|apply Hskip; done].
  destruct (entry_ref e) as [r|] eqn:Er; [|apply Hskip; done]. clear Hskip.
  pose proof (Hr r) as Hrr. rewrite decide_True in Hrr by done. pose proof (occ_nonneg r es).
  destruct (fb_release_ok s r Hinv) as (s1 & -> & Hinv1 & Hq1); [lia|]. cbn [mbind outcome_bind].
  destruct (IH s1 Hinv1) as (s2 & -> & Hinv2 & Hq2).
  - intros q. rewrite Hq1. specialize (Hr q). destruct (decide (q = r)) as [->|Hn]; [lia|]. rewrite decide_False in Hr by congruence. lia.
  - cbn [mbind outcome_bind]. exists s2. splits; auto. intros q. rewrite Hq2, Hq1. destruct (decide (q = r)) as [->|Hn].
    + rewrite decide_True by done. lia.
    + rewrite decide_False by congruence. lia.
Qed.

(** A pointer [files_struct_live] accepts. *)
Definition live_ptr (f : Z) : Prop := 0 < f /\ heap_start <= f /\ f + SIZEOF_FILES <= heap_end /\ f + SIZEOF_FILES < 2 ^ 64.

Lemma live_spec (y : fsys S) f x : live_ptr f -> fheap y !! f = Some x -> f_magic x = IR0_FILES_MAGIC -> 0 < refcount x ->
  files_struct_live heap_start heap_end y f = Ok true.
Proof.
  intros (Hp0 & Hp1 & Hp2 & Hp3) Hf Hm Hr. unfold files_struct_live, u64. rewrite Z.mod_small by (unfold SIZEOF_FILES in *; lia).
  rewrite !decide_False by (unfold SIZEOF_FILES in *; lia). rewrite Hf. cbn [or_ub mbind outcome_bind].
  rewrite decide_False by tauto. by rewrite decide_False by lia.
Qed.

Lemma get_spec (y : fsys S) f x : live_ptr f -> fheap y !! f = Some x -> f_magic x = IR0_FILES_MAGIC -> 0 < refcount x < INT_MAX ->
  files_get heap_start heap_end y f = Ok (set_fheap (<[f := set_refcount x (refcount x + 1)]> (fheap y)) y, f).
Proof.
  intros Hl Hf Hm Hr. unfold files_get. rewrite (live_spec y f x) by (done || lia). cbn [mbind outcome_bind negb].
  rewrite Hf. cbn [or_ub mbind outcome_bind]. unfold int_incr. by rewrite decide_True by lia.
Qed.

Lemma put_spec (y : fsys S) f x : live_ptr f -> fheap y !! f = Some x -> f_magic x = IR0_FILES_MAGIC -> 0 < refcount x ->
  files_put heap_start heap_end y f =
    Ok (set_fheap (if decide (refcount x = 1) then delete f (fheap y) else <[f := set_refcount x (refcount x - 1)]> (fheap y)) y).
Proof.
  intros Hl Hf Hm Hr. unfold files_put. rewrite decide_False by (destruct Hl; lia). rewrite (live_spec y f x) by done. cbn [mbind outcome_bind negb].
  rewrite Hf. cbn [or_ub mbind outcome_bind]. rewrite decide_False by lia. do 2 f_equal.
  destruct (decide (refcount x = 1)); [by rewrite decide_True by lia|by rewrite decide_False by lia].
Qed.

Lemma clone_spec (y : fsys S) f x nf c :
  live_ptr f -> fheap y !! f = Some x -> f_magic x = IR0_FILES_MAGIC -> 0 < refcount x -> nf <> 0 -> nf <> f ->
  fb_inv (objs y) -> no_epoll (fd_table x) ->
  (forall e r, e ∈ fd_table x -> used_ref e = Some r -> 0 < fb_refs (objs y) r /\ Z.of_nat (length (fd_table x)) <= fb_room (objs y) r) ->
  exists s, process_files_clone heap_start heap_end y nf (Some c) (Some f) =
      Ok ({| fheap := <[nf := {| f_magic := IR0_FILES_MAGIC; refcount := 1; fd_table := fd_table x |}]> (fheap y); objs := s |}, Some nf, 0) /\
    fb_inv s /\ forall q, fb_refs s q = fb_refs (objs y) q + occ q (fd_table x).
Proof.
  intros Hl Hf Hm Hr Hnf Hne Hinv Hep Hrefs. unfold process_files_clone, files_create.
  rewrite (live_spec y f x) by done. cbn [mbind outcome_bind negb]. rewrite (decide_False (P := nf = 0)) by done.
  rewrite (decide_False (P := nf = 0)) by done. simpl. rewrite lookup_insert_ne by done. rewrite Hf. cbn [or_ub mbind outcome_bind].
  destruct (acquire_entries_spec (fd_table x) (objs y) Hinv Hep Hrefs) as (s & -> & Hinv' & Hq). cbn [mbind outcome_bind].
  exists s. split; [|done]. by rewrite insert_insert_eq.
Qed.

Lemma exit_spec (y : fsys S) f x :
  live_ptr f -> fheap y !! f = Some x -> f_magic x = IR0_FILES_MAGIC -> refcount x = 1 ->
  fb_inv (objs y) -> (forall r, occ r (fd_table x) <= fb_refs (objs y) r) ->
  exists y1 y2, process_release_fds heap_start heap_end y (Some f) = Ok y1 /\ files_put heap_start heap_end y1 f = Ok y2 /\
    fheap y2 = delete f (fheap y) /\ fb_inv (objs y2) /\ forall q, fb_refs (objs y2) q = fb_refs (objs y) q - occ q (fd_table x).
Proof.
  intros Hl Hf Hm Hr Hinv Hocc. unfold process_release_fds. rewrite (live_spec y f x) by (done || lia). cbn [mbind outcome_bind negb].
  rewrite Hf. cbn [or_ub mbind outcome_bind]. rewrite decide_False by tauto.
  destruct (release_entries_spec (fd_table x) (objs y) Hinv Hocc) as (s & -> & Hinv' & Hq). cbn [mbind outcome_bind].
  set (x1 := {| f_magic := f_magic x; refcount := refcount x; fd_table := _ |}). exists {| fheap := <[f := x1]> (fheap y); objs := s |}.
  eexists. split; [reflexivity|]. rewrite (put_spec _ f x1); simpl; [|done|apply lookup_insert_eq|done|lia].
  split; [reflexivity|]. rewrite decide_True by done. simpl. splits; auto. by rewrite delete_insert_eq.
Qed.

Lemma fd_get_spec (y : fsys S) f x fd : live_ptr f -> fheap y !! f = Some x -> f_magic x = IR0_FILES_MAGIC ->
  0 < refcount x < INT_MAX -> length (fd_table x) = MAX_FDS_PER_PROCESS ->
  ir0_fd_get heap_start heap_end y (Some f) fd true =
    match fd_table x !! Z.to_nat fd with
    | Some e => if bool_decide (0 <= fd) && in_use e
                then Ok (set_fheap (<[f := set_refcount x (refcount x + 1)]> (fheap y)) y, {| h_files := f; h_fd := fd |}, 0)
                else Ok (y, fd_none, - EBADF)
    | None => Ok (y, fd_none, - EBADF)
    end.
Proof.
  intros Hl Hf Hm Hr Ht. unfold ir0_fd_get. simpl negb. cbv iota. destruct (decide (fd < 0 \/ _)) as [Hrange|Hrange].
  { destruct (decide (0 <= fd)) as [Hp|Hn].
    - rewrite lookup_ge_None_2; [done|]. rewrite Ht. lia.
    - rewrite bool_decide_false by done. by destruct (fd_table x !! Z.to_nat fd). }
  destruct (lookup_lt_is_Some_2 (fd_table x) (Z.to_nat fd)) as [e He]; [rewrite Ht; lia|].
  rewrite (live_spec y f x) by (done || lia). cbn [mbind outcome_bind negb]. rewrite (get_spec y f x) by done. cbn [mbind outcome_bind].
  rewrite decide_False by (destruct Hl; lia). simpl fheap. rewrite lookup_insert_eq. cbn [or_ub mbind outcome_bind set_refcount fd_table].
  rewrite He. cbn [or_ub mbind outcome_bind]. rewrite bool_decide_true by lia. destruct (in_use e); [done|]. simpl negb. cbv iota.
  rewrite (put_spec _ f (set_refcount x (refcount x + 1))); simpl; [|done|apply lookup_insert_eq|done|lia].
  rewrite decide_False by lia. cbn [mbind outcome_bind]. do 3 f_equal.
  unfold set_fheap. simpl. rewrite insert_insert_eq. unfold set_refcount. simpl. replace (refcount x + 1 - 1) with (refcount x) by lia.
  destruct y as [h o]. simpl in *. f_equal. apply insert_id. rewrite Hf. f_equal. by destruct x.
Qed.
End balance.

(** Against the laws of the interface: [fork] gives the child a private copy
    of the table and takes one reference per descriptor; [exit] returns every
    count, and the heap, to what they were, for tables without epoll
    descriptors. *)
Lemma clone_exit_balanced {S : Type} `{FdBackendLaws S} (heap_start heap_end : Z) (y : fsys S) (f nf c : Z) (x : files_struct) :
  live_ptr heap_start heap_end f -> fheap y !! f = Some x -> f_magic x = IR0_FILES_MAGIC -> 0 < refcount x ->
  live_ptr heap_start heap_end nf -> fheap y !! nf = None -> fb_inv (objs y) -> no_epoll (fd_table x) ->
  (forall e r, e ∈ fd_table x -> used_ref e = Some r -> 0 < fb_refs (objs y) r /\ Z.of_nat (length (fd_table x)) <= fb_room (objs y) r) ->
  exists y1 y2 y3, process_files_clone heap_start heap_end y nf (Some c) (Some f) = Ok (y1, Some nf, 0) /\
    (forall q, fb_refs (objs y1) q = fb_refs (objs y) q + occ q (fd_table x)) /\
    fheap y1 = <[nf := {| f_magic := IR0_FILES_MAGIC; refcount := 1; fd_table := fd_table x |}]> (fheap y) /\
    process_release_fds heap_start heap_end y1 (Some nf) = Ok y2 /\ files_put heap_start heap_end y2 nf = Ok y3 /\
    fheap y3 = fheap y /\ forall q, fb_refs (objs y3) q = fb_refs (objs y) q.
Proof.
  intros Hl Hf Hm Hr Hln Hnn Hinv Hep Hrefs. assert (Hne : nf <> f) by (intros ->; congruence).
  destruct (clone_spec heap_start heap_end y f x nf c) as (s & E & Hinv1 & Hq1); auto; [destruct Hln; lia|].
  set (y1 := {| fheap := _; objs := s |}) in E. exists y1.
  destruct (exit_spec heap_start heap_end y1 nf {| f_magic := IR0_FILES_MAGIC; refcount := 1; fd_table := fd_table x |}) as (y2 & y3 & E2 & E3 & Hh & _ & Hq3);
    simpl; auto; [apply lookup_insert_eq|intros r; rewrite Hq1; pose proof (fb_refs_nonneg (objs y) r Hinv); lia|].
  exists y2, y3. splits; auto.
  - rewrite Hh. simpl. by apply delete_insert_id.
  - intros q. rewrite Hq3. simpl. rewrite Hq1. lia.
Qed.

(** a descriptor handle pins its table and nothing else.  [ir0_fd_get] on a
    live table returns -EBADF without effect for a descriptor out of range or
    unused, and otherwise a handle together with exactly one more reference on
    the table, so that the table survives the owner's [files_put];
    [ir0_fd_put] then restores the state exactly. *)
Theorem fd_handle_pins {S : Type} `{FdBackend S} (heap_start heap_end : Z) (y : fsys S) (f fd : Z) (x : files_struct) :
  live_ptr heap_start heap_end f -> fheap y !! f = Some x -> f_magic x = IR0_FILES_MAGIC ->
  0 < refcount x < INT_MAX -> length (fd_table x) = MAX_FDS_PER_PROCESS ->
  (ir0_fd_get heap_start heap_end y (Some f) fd true = Ok (y, fd_none, - EBADF) /\
     ~ (exists e, 0 <= fd /\ fd_table x !! Z.to_nat fd = Some e /\ in_use e = true)) \/
  (exists y1 y2, ir0_fd_get heap_start heap_end y (Some f) fd true = Ok (y1, {| h_files := f; h_fd := fd |}, 0) /\
     (exists e, 0 <= fd /\ fd_table x !! Z.to_nat fd = Some e /\ in_use e = true) /\
     ir0_fd_put heap_start heap_end y1 (Some {| h_files := f; h_fd := fd |}) = Ok (y, Some fd_none) /\
     files_put heap_start heap_end y1 f = Ok y2 /\ exists x2, fheap y2 !! f = Some x2 /\ fd_table x2 = fd_table x /\ refcount x2 = refcount x).
Proof.
  intros Hl Hf Hm Hr Ht. rewrite (fd_get_spec heap_start heap_end y f x fd) by done.
  destruct (fd_table x !! Z.to_nat fd) as [e|] eqn:He; [|left; split; [done|]; by intros (e & _ & ? & _)].
  destruct (bool_decide (0 <= fd) && in_use e) eqn:Hb.
  - right. apply andb_true_iff in Hb as [Hp%bool_decide_eq_true Hu].
    set (y1 := set_fheap _ y). exists y1.
    assert (Eput : files_put heap_start heap_end y1 f = Ok y).
    { rewrite (put_spec heap_start heap_end y1 f (set_refcount x (refcount x + 1))); simpl; [|done|apply lookup_insert_eq|done|lia].
      rewrite decide_False by lia. unfold y1, set_fheap. simpl. rewrite insert_insert_eq. unfold set_refcount. simpl.
      replace (refcount x + 1 - 1) with (refcount x) by lia. destruct y as [h o]. simpl in *. do 2 f_equal. apply insert_id. rewrite Hf. f_equal. by destruct x. }
    exists y. splits; eauto. unfold ir0_fd_put. cbn [h_files]. rewrite decide_False by (destruct Hl; lia). by rewrite Eput.
  - left. split; [done|]. intros (e' & Hp & [= <-] & Hu). rewrite bool_decide_true, Hu in Hb by done. done.
Qed.
