(* ===== verification/Futex.v ===== *)
(** * Futexes (src/kernel/futex.c and sys_futex)

    The 64 static waiter slots over the process memory of [Runq].
    [ir0_futex_wait] sleeps in the middle: [ir0_futex_wait_enter] is the code
    up to the loop that runs other processes while the caller is blocked, and
    [ir0_futex_wait_leave] what follows once some other code has made the
    caller ready. *)

From S2P Require Import Prelude Runq ObjTable.

Definition IR0_FUTEX_MAX_WAITERS : nat := 64.
Definition FUTEX_WAIT : Z := 0.
Definition FUTEX_WAKE : Z := 1.

Record ir0_futex_slot := { proc : Z; uaddr : Z; val : Z; in_use : bool }.
Definition futex_free : ir0_futex_slot := {| proc := 0; uaddr := 0; val := 0; in_use := false |}.
(** [in_use = 0; proc = NULL], the other fields keep their values. *)
Definition futex_clear (w : ir0_futex_slot) : ir0_futex_slot := {| proc := 0; uaddr := uaddr w; val := val w; in_use := false |}.

(** [Some r]: the call returned [r]; [None]: the caller sleeps. *)
Definition ir0_futex_wait_enter (sl : list ir0_futex_slot) (k : kern) (p u v : Z)
  : outcome (list ir0_futex_slot * kern * option Z) :=
  if decide (p = 0 \/ u = 0) then Ok (sl, k, Some (- EINVAL)) else
  match first_free in_use sl IR0_FUTEX_MAX_WAITERS with
  | None => Ok (sl, k, Some (- EAGAIN))
  | Some i =>
      k ← process_set_sched_state k p PROCESS_BLOCKED;
      Ok (<[i := {| proc := p; uaddr := u; val := v; in_use := true |}]> sl, k, None)
  end.

(** [interrupted] is [proc->syscall_interrupted]; the result and its new value. *)
Definition ir0_futex_wait_leave (interrupted : bool) : bool * Z :=
  if interrupted then (false, - EINTR) else (false, 0).

Fixpoint wake_loop (n i : nat) (woke count u : Z) (sl : list ir0_futex_slot) (k : kern) : outcome (list ir0_futex_slot * kern * Z) :=
  match n with
  | O => Ok (sl, k, woke)
  | S n' =>
      if decide (woke < count) then
        w ← or_ub (sl !! i);
        if negb (in_use w) then wake_loop n' (S i) woke count u sl k else
        if decide (uaddr w <> u) then wake_loop n' (S i) woke count u sl k else
        k ← (if decide (proc w <> 0) then process_set_sched_state k (proc w) PROCESS_READY else Ok k);
        wake_loop n' (S i) (woke + 1) count u (<[i := futex_clear w]> sl) k
      else Ok (sl, k, woke)
  end.

Definition ir0_futex_wake (sl : list ir0_futex_slot) (k : kern) (u count : Z) : outcome (list ir0_futex_slot * kern * Z) :=
  if decide (u = 0 \/ count <= 0) then Ok (sl, k, 0) else
  wake_loop IR0_FUTEX_MAX_WAITERS 0 0 count u sl k.

Definition ir0_futex_drop_process (sl : list ir0_futex_slot) (p : Z) : list ir0_futex_slot :=
  if decide (p = 0) then sl else
  (fun w => if in_use w && bool_decide (proc w = p) then futex_clear w else w) <$> sl.

(** [user_ok] is the range check of the address, [word] what [copy_from_user]
    read there; the timeout, the second address and its value are ignored. *)
Definition sys_futex (sl : list ir0_futex_slot) (k : kern) (u op v : Z) (user_ok : bool) (word : option Z)
  : outcome (list ir0_futex_slot * kern * option Z) :=
  if decide (current_process k = 0) then Ok (sl, k, Some (- ESRCH)) else
  if bool_decide (u <> 0) && negb user_ok then Ok (sl, k, Some (- EFAULT)) else
  let cmd := Z.land op 127 in
  if decide (cmd = FUTEX_WAKE) then '(sl, k, r) ← ir0_futex_wake sl k u v; Ok (sl, k, Some r) else
  if decide (cmd = FUTEX_WAIT) then
    match word with
    | None => Ok (sl, k, Some (- EFAULT))
    | Some cur => if decide (cur <> v) then Ok (sl, k, Some (- EAGAIN)) else ir0_futex_wait_enter sl k (current_process k) u v
    end
  else Ok (sl, k, Some (- ENOSYS)).

(** ** Records and sleepers

    A slot in use is a record (process, address).  A record outlives the sleep
    it was made for when the sleep is interrupted. *)

Definition sleeps (k : kern) (p : Z) : Prop := exists d, procs k !! p = Some d /\ state d = PROCESS_BLOCKED.

Definition records (sl : list ir0_futex_slot) : list (Z * Z) :=
  map (fun w => (proc w, uaddr w)) (filter (fun w => in_use w = true) sl).

(** [W] maps the processes asleep in a futex wait to their addresses: each is
    blocked and has a record.  Every recorded process still exists. *)
Record futex_inv (sl : list ir0_futex_slot) (k : kern) (W : gmap Z Z) : Prop := {
  fi_len : length sl = IR0_FUTEX_MAX_WAITERS;
  fi_rec p u : (p, u) ∈ records sl -> p <> 0 /\ u <> 0 /\ is_Some (procs k !! p);
  fi_sleep p u : W !! p = Some u -> (p, u) ∈ records sl /\ sleeps k p
}.

(** The waiters on [u] from slot [i] on, lowest slot first. *)
Definition waiters_in (u : Z) (sl : list ir0_futex_slot) : list Z :=
  map proc (filter (fun w => in_use w = true /\ uaddr w = u) sl).

Fixpoint ready_all (k : kern) (ps : list Z) : kern :=
  match ps with
  | [] => k
  | p :: ps' =>
      ready_all (with_procs (alter (fun d => {| state := PROCESS_READY; task_state := TASK_SCHED_RUNNABLE; sched_prio := sched_prio d |}) p (procs k)) k) ps'
  end.

(** The slots after the first [n] waiters on [u] have left. *)
Fixpoint leave (n : nat) (u : Z) (sl : list ir0_futex_slot) : list ir0_futex_slot :=
  match sl with
  | [] => []
  | w :: sl' =>
      if decide (in_use w = true /\ uaddr w = u) then
        match n with O => w :: sl' | S n' => futex_clear w :: leave n' u sl' end
      else w :: leave n u sl'
  end.

Lemma leave_0 u sl : leave 0 u sl = sl.
Proof. induction sl as [|w sl IH]; [done|]. cbn. case_decide; [done|]. by rewrite IH. Qed.

Lemma ready_one k p : is_Some (procs k !! p) -> p <> 0 -> process_set_sched_state k p PROCESS_READY = Ok (ready_all k [p]).
Proof.
  intros [d Hd] Hp. unfold process_set_sched_state, load_proc. rewrite decide_False by (intros [?|?]; done). rewrite Hd. cbn. do 2 f_equal.
  apply map_eq. intros q. destruct (decide (q = p)) as [->|Hq].
  - by rewrite lookup_insert_eq, lookup_alter_eq, Hd.
  - by rewrite lookup_insert_ne, lookup_alter_ne.
Qed.

Lemma ready_all_dom k ps p : is_Some (procs (ready_all k ps) !! p) <-> is_Some (procs k !! p).
Proof.
  revert k. induction ps as [|q ps IH]; intros k; [done|]. cbn [ready_all]. rewrite IH. cbn [procs with_procs].
  destruct (decide (p = q)) as [->|Hq]; [|by rewrite lookup_alter_ne].
  rewrite lookup_alter_eq. destruct (procs k !! q); cbn; split; intros [? ?]; by eexists.
Qed.

(** The loop from slot [i] on, where the suffix of the table is [rest]. *)
Lemma wake_loop_spec u count pre rest woke k : 
  (forall w, w ∈ rest -> in_use w = true -> proc w <> 0 /\ is_Some (procs k !! proc w)) ->
  wake_loop (length rest) (length pre) woke count u (pre ++ rest) k =
    let T := take (Z.to_nat (count - woke)) (waiters_in u rest) in
    Ok (pre ++ leave (Z.to_nat (count - woke)) u rest, ready_all k T, woke + Z.of_nat (length T)).
Proof.
  revert pre woke k. induction rest as [|w rest IH]; intros pre woke k Hok; cbn zeta.
  { cbn. unfold waiters_in. cbn. rewrite take_nil. cbn. by rewrite Z.add_0_r. }
  cbn [length wake_loop]. destruct (decide (woke < count)) as [Hlt|Hge].
  2:{ replace (Z.to_nat (count - woke)) with O by lia. rewrite leave_0, take_0. cbn. by rewrite Z.add_0_r. }
  assert (Hi : (pre ++ w :: rest) !! length pre = Some w) by (by rewrite list_lookup_middle).
  rewrite Hi. cbn [or_ub mbind outcome_bind].
  assert (Hskip : ~ (in_use w = true /\ uaddr w = u) -> wake_loop (length rest) (S (length pre)) woke count u (pre ++ w :: rest) k =
    Ok (pre ++ leave (Z.to_nat (count - woke)) u (w :: rest), ready_all k (take (Z.to_nat (count - woke)) (waiters_in u (w :: rest))),
        woke + Z.of_nat (length (take (Z.to_nat (count - woke)) (waiters_in u (w :: rest)))))).
  { intros Hn. specialize (IH (pre ++ [w]) woke k). rewrite length_app, Nat.add_1_r, <- app_assoc in IH. cbn [app] in IH.
    rewrite IH by (intros x Hx; apply Hok; by right). cbn [leave]. rewrite decide_False by done.
    unfold waiters_in. rewrite filter_cons_False by done. rewrite <- app_assoc. done. }
  destruct (in_use w) eqn:Eu; cbn [negb]; [|apply Hskip; by intros [? _]].
  destruct (decide (uaddr w <> u)) as [Ha|Ha]; [apply Hskip; by intros [_ ?]|]. apply dec_stable in Ha.
  destruct (Hok w ltac:(by left) Eu) as [Hp Hd]. rewrite decide_True by done. rewrite (ready_one k _ Hd Hp). cbn [mbind outcome_bind].
  rewrite insert_app_r_alt by lia. rewrite Nat.sub_diag. cbn [list_insert insert].
  specialize (IH (pre ++ [futex_clear w]) (woke + 1) (ready_all k [proc w])). rewrite length_app, Nat.add_1_r, <- !app_assoc in IH. cbn [app] in IH.
  rewrite IH.
  - cbv zeta. cbn [leave]. rewrite decide_True by done. unfold waiters_in. rewrite filter_cons_True by done. cbn [map].
    replace (Z.to_nat (count - woke)) with (S (Z.to_nat (count - (woke + 1)))) by lia. cbn [take ready_all length].
    do 2 f_equal. lia.
  - intros x Hx Hxu. destruct (Hok x ltac:(by right) Hxu) as [? ?]. split; [done|]. by apply ready_all_dom.
Qed.

(** ** What a wake does *)

Lemma ready_all_other k ps p : p ∉ ps -> procs (ready_all k ps) !! p = procs k !! p.
Proof.
  revert k. induction ps as [|q ps IH]; intros k Hp; [done|]. apply not_elem_of_cons in Hp as [Hq Hp]. cbn [ready_all].
  rewrite IH by done. cbn. by rewrite lookup_alter_ne.
Qed.

Lemma ready_all_in k ps p : p ∈ ps -> is_Some (procs k !! p) -> exists d, procs (ready_all k ps) !! p = Some d /\ state d = PROCESS_READY.
Proof.
  revert k. induction ps as [|q ps IH]; intros k Hp Hd; [by apply elem_of_nil in Hp|]. cbn [ready_all].
  destruct (decide (p ∈ ps)) as [Hin|Hin].
  - apply IH; [done|]. apply (ready_all_dom k [q] p). done.
  - apply elem_of_cons in Hp as [->|?]; [|done]. rewrite ready_all_other by done. cbn. rewrite lookup_alter_eq.
    destruct Hd as [d ->]. cbn. eauto.
Qed.

Lemma waiters_in_elem u sl p : p ∈ waiters_in u sl <-> (p, u) ∈ records sl.
Proof.
  unfold waiters_in, records. rewrite !list_elem_of_fmap. split.
  - intros (w & -> & Hw). apply list_elem_of_filter in Hw as [[Hu <-] Hin]. exists w. split; [done|]. by apply list_elem_of_filter.
  - intros (w & [= -> ->] & Hw). apply list_elem_of_filter in Hw as [Hu Hin]. exists w. split; [done|]. by apply list_elem_of_filter.
Qed.

Lemma leave_length n u sl : length (leave n u sl) = length sl.
Proof. revert n. induction sl as [|w sl IH]; intros n; [done|]. cbn. case_decide; [destruct n|]; cbn; by rewrite ?IH. Qed.

(** The records that leave are the first [n] on [u]. *)
Lemma leave_records n u sl : records sl ≡ₚ map (fun p => (p, u)) (take n (waiters_in u sl)) ++ records (leave n u sl).
Proof.
  revert n. induction sl as [|w sl IH]; intros n; [by destruct n|]. cbn [leave]. unfold records, waiters_in in *. case_decide as Hw.
  - destruct Hw as [Hu <-]. rewrite (filter_cons_True (fun w0 => in_use w0 = true /\ _)) by done. destruct n as [|n]; [done|].
    rewrite filter_cons_True by done. cbn [map take app]. constructor.
    rewrite (filter_cons_False _ (futex_clear w)) by done. apply IH.
  - rewrite (filter_cons_False (fun w0 => in_use w0 = true /\ _)) by done. rewrite !filter_cons. case_decide; [|apply IH].
    cbn [map]. rewrite <- Permutation_middle. constructor. apply IH.
Qed.

Lemma leave_waiters_same n u sl : waiters_in u (leave n u sl) = drop n (waiters_in u sl).
Proof.
  revert n. induction sl as [|w sl IH]; intros n; [cbn; unfold waiters_in; cbn; by rewrite drop_nil|]. cbn [leave]. case_decide as Hw; [destruct n as [|n]; [done|]|].
  - unfold waiters_in in *. rewrite filter_cons_False by (cbn; by intros [? _]). rewrite filter_cons_True by done. apply IH.
  - unfold waiters_in in *. rewrite !filter_cons_False by done. apply IH.
Qed.

Lemma slot_record sl w : w ∈ sl -> in_use w = true -> (proc w, uaddr w) ∈ records sl.
Proof. intros Hw Hu. apply list_elem_of_fmap. exists w. split; [done|]. by apply list_elem_of_filter. Qed.

Lemma ir0_futex_wake_spec sl k W u count : futex_inv sl k W -> u <> 0 -> 0 < count ->
  let T := take (Z.to_nat count) (waiters_in u sl) in
  ir0_futex_wake sl k u count = Ok (leave (Z.to_nat count) u sl, ready_all k T, Z.of_nat (length T)).
Proof.
  intros Hok Hu Hc T. unfold ir0_futex_wake. rewrite decide_False by lia. rewrite <- (fi_len _ _ _ Hok).
  pose proof (wake_loop_spec u count [] sl 0 k) as E. cbn [length app] in E. rewrite E.
  - cbv zeta. by rewrite Z.sub_0_r, Z.add_0_l.
  - intros w Hw Hwu. by destruct (fi_rec _ _ _ Hok _ _ (slot_record sl w Hw Hwu)) as (? & _ & ?).
Qed.

(** ** Contract *)

(** [FWait]: a running process waits, up to its sleep.  [FInterrupt]: a signal
    makes a sleeper ready and its wait returns.  [FWake]. *)
Inductive futex_op := FWait (p u v : Z) | FInterrupt (p : Z) | FWake (u count : Z).

Definition futex_step (sl : list ir0_futex_slot) (k : kern) (op : futex_op) : outcome (list ir0_futex_slot * kern * option Z) :=
  match op with
  | FWait p u v => ir0_futex_wait_enter sl k p u v
  | FInterrupt p => k ← process_set_sched_state k p PROCESS_READY; Ok (sl, k, Some (ir0_futex_wait_leave true).2)
  | FWake u count => '(sl, k, r) ← ir0_futex_wake sl k u count; Ok (sl, k, Some r)
  end.

(** Who can call: a running process waits, a sleeper is interrupted. *)
Definition futex_enabled (k : kern) (W : gmap Z Z) (op : futex_op) : Prop :=
  match op with
  | FWait p _ _ => exists d, procs k !! p = Some d /\ is_runnable d = true
  | FInterrupt p => is_Some (W !! p)
  | FWake _ _ => True
  end.

(** The calls on the records [M] and the sleepers [W].  A wake takes records,
    stale or not, and so can be spent on processes that no longer sleep. *)
Inductive futex_spec (M : list (Z * Z)) (W : gmap Z Z) : futex_op -> list (Z * Z) -> gmap Z Z -> option Z -> Prop :=
| spec_wait_null p u v : p = 0 \/ u = 0 -> futex_spec M W (FWait p u v) M W (Some (- EINVAL))
| spec_wait_full p u v : p <> 0 -> u <> 0 -> length M = IR0_FUTEX_MAX_WAITERS -> futex_spec M W (FWait p u v) M W (Some (- EAGAIN))
| spec_wait p u v M' : p <> 0 -> u <> 0 -> (length M < IR0_FUTEX_MAX_WAITERS)%nat -> W !! p = None -> M' ≡ₚ (p, u) :: M ->
    futex_spec M W (FWait p u v) M' (<[p := u]> W) None
| spec_interrupt p u : W !! p = Some u -> (p, u) ∈ M -> futex_spec M W (FInterrupt p) M (delete p W) (Some (- EINTR))
| spec_wake_none u count : u = 0 \/ count <= 0 -> futex_spec M W (FWake u count) M W (Some 0)
| spec_wake u count T M' : u <> 0 -> 0 < count -> M ≡ₚ map (fun p => (p, u)) T ++ M' ->
    Z.of_nat (length T) = count \/ (Z.of_nat (length T) < count /\ forall p, (p, u) ∉ M') ->
    futex_spec M W (FWake u count) M' (filter (fun x => x.1 ∉ T) W) (Some (Z.of_nat (length T))).

(** What a call does to the processes: the caller of a wait blocks, those that
    leave the sleepers are ready, and otherwise only processes recorded on the
    address of a wake are touched. *)
Record futex_effect (k k' : kern) (M : list (Z * Z)) (W W' : gmap Z Z) (op : futex_op) : Prop := {
  fe_sleep p : is_Some (W' !! p) -> sleeps k' p;
  fe_ready p : is_Some (W !! p) -> W' !! p = None -> exists d, procs k' !! p = Some d /\ state d = PROCESS_READY;
  fe_frame p : match op with FWait q _ _ | FInterrupt q => p <> q | FWake u _ => (p, u) ∉ M end -> procs k' !! p = procs k !! p
}.

Lemma futex_null_effect k M W op : (forall p, is_Some (W !! p) -> sleeps k p) -> futex_effect k k M W W op.
Proof. intros H. split; [done| |done]. intros p [? ?] ?. congruence. Qed.

Lemma all_in_use_filter sl : Forall (fun w => in_use w = true) sl -> filter (fun w => in_use w = true) sl = sl.
Proof. induction 1 as [|w sl Hw _ IH]; [done|]. by rewrite filter_cons_True, IH. Qed.

Lemma length_records sl : length (records sl) = length (filter (fun w => in_use w = true) sl).
Proof. unfold records. by rewrite length_map. Qed.

(** Filling a free slot adds one record. *)
Lemma records_insert sl i w0 w : sl !! i = Some w0 -> in_use w0 = false -> in_use w = true ->
  records (<[i := w]> sl) ≡ₚ (proc w, uaddr w) :: records sl.
Proof.
  intros Hi H0 Hw. revert i Hi. unfold records. induction sl as [|x sl IH]; intros [|i] Hi; simplify_eq/=.
  - rewrite filter_cons_True, (filter_cons_False _ w0) by (done || by rewrite H0). done.
  - rewrite !filter_cons. case_decide; cbn [map]; rewrite (IH i Hi); [apply Permutation_swap|done].
Qed.

Lemma free_slot_room sl i w0 : sl !! i = Some w0 -> in_use w0 = false -> (length (records sl) < length sl)%nat.
Proof.
  intros Hi H0. pose proof (records_insert sl i w0 {| proc := 0; uaddr := 0; val := 0; in_use := true |} Hi H0 eq_refl) as Hp.
  apply Permutation_length in Hp. cbn [length] in Hp. rewrite length_records in Hp.
  pose proof (length_filter (fun w => in_use w = true) (<[i := {| proc := 0; uaddr := 0; val := 0; in_use := true |}]> sl)) as Hf.
  rewrite length_insert in Hf. lia.
Qed.

(** ** The calls implement the contract *)

Lemma futex_wait_refines sl k W p u v : futex_inv sl k W -> (exists d, procs k !! p = Some d /\ is_runnable d = true) ->
  exists sl' k' W' r, ir0_futex_wait_enter sl k p u v = Ok (sl', k', r) /\ futex_inv sl' k' W' /\
    futex_spec (records sl) W (FWait p u v) (records sl') W' r /\ futex_effect k k' (records sl) W W' (FWait p u v).
Proof.
  intros Hok (d & Hd & Hrun). pose proof (fun q H => match H with ex_intro _ u Hu => proj2 (fi_sleep _ _ _ Hok q u Hu) end) as Hsl.
  unfold ir0_futex_wait_enter. case_decide as H0.
  { exists sl, k, W, (Some (- EINVAL)). splits; auto using futex_null_effect. by constructor. }
  rewrite <- (fi_len _ _ _ Hok). destruct (first_free in_use sl (length sl)) as [i|] eqn:Ei.
  2:{ exists sl, k, W, (Some (- EAGAIN)). splits; auto using futex_null_effect. apply spec_wait_full; [tauto|tauto|].
      rewrite length_records, (all_in_use_filter sl) by (by apply first_free_None). apply Hok. }
  apply first_free_Some in Ei as (w0 & Hi & Hw0 & _). unfold process_set_sched_state, load_proc.
  rewrite decide_False by (intros [?|?]; [tauto|done]). rewrite Hd. cbn [or_ub mbind outcome_bind].
  set (w := {| proc := p; uaddr := u; val := v; in_use := true |}). set (k' := with_procs _ k).
  assert (Hno : W !! p = None).
  { apply eq_None_not_Some. intros HW. destruct (Hsl p HW) as (d' & Hd' & Hb). rewrite Hd in Hd'. injection Hd' as <-.
    unfold is_runnable in Hrun. rewrite Hb in Hrun. by vm_compute in Hrun. }
  assert (Hs : forall q, q <> p -> procs k' !! q = procs k !! q) by (intros q Hq; cbn; by rewrite lookup_insert_ne).
  assert (Hp : sleeps k' p) by (eexists; cbn; rewrite lookup_insert_eq; split; [done|done]).
  pose proof (records_insert sl i w0 w Hi Hw0 eq_refl) as Hr.
  assert (Hslp : forall q a, <[p := u]> W !! q = Some a -> sleeps k' q).
  { intros q a Hq. destruct (decide (q = p)) as [->|Hqp]; [done|]. rewrite lookup_insert_ne in Hq by done.
    unfold sleeps. rewrite Hs by done. apply Hsl. eauto. }
  exists (<[i := w]> sl), k', (<[p := u]> W), None. split; [done|]. split; [split|split; [|split]].
  - rewrite length_insert. apply Hok.
  - intros q a Hq. rewrite Hr, elem_of_cons in Hq. destruct Hq as [[= -> ->]|Hq].
    + splits; [tauto|tauto|]. cbn. rewrite lookup_insert_eq. eauto.
    + destruct (fi_rec _ _ _ Hok _ _ Hq) as (? & ? & ?). splits; auto. cbn. destruct (decide (q = p)) as [->|?]; [rewrite lookup_insert_eq|rewrite lookup_insert_ne]; eauto.
  - intros q a Hq. split; [|by eapply Hslp]. rewrite Hr, elem_of_cons. destruct (decide (q = p)) as [->|Hqp].
    + rewrite lookup_insert_eq in Hq. injection Hq as <-. by left.
    + rewrite lookup_insert_ne in Hq by done. right. by apply (fi_sleep _ _ _ Hok).
  - apply spec_wait; auto; try tauto. rewrite <- (fi_len _ _ _ Hok). by eapply free_slot_room.
  - intros q [a Hq]. by eapply Hslp.
  - intros q [a Ha] Hn. rewrite lookup_insert in Hn. case_decide; congruence.
  - done.
Qed.

Lemma futex_interrupt_refines sl k W p : futex_inv sl k W -> is_Some (W !! p) ->
  exists k', process_set_sched_state k p PROCESS_READY = Ok k' /\ futex_inv sl k' (delete p W) /\
    futex_spec (records sl) W (FInterrupt p) (records sl) (delete p W) (Some (- EINTR)) /\
    futex_effect k k' (records sl) W (delete p W) (FInterrupt p).
Proof.
  intros Hok [u Hu]. destruct (fi_sleep _ _ _ Hok p u Hu) as [Hrec Hs]. destruct (fi_rec _ _ _ Hok p u Hrec) as (Hp & _ & Hd).
  exists (ready_all k [p]). split; [by apply ready_one|]. split; [split|split; [by apply (spec_interrupt _ _ p u)|split]].
  - apply Hok.
  - intros q a Hq. destruct (fi_rec _ _ _ Hok q a Hq) as (? & ? & ?). splits; auto. by apply ready_all_dom.
  - intros q a Hq. apply lookup_delete_Some in Hq as [Hne Hq]. destruct (fi_sleep _ _ _ Hok q a Hq) as [H1 H2]. split; [done|].
    unfold sleeps. rewrite ready_all_other; [done|]. rewrite list_elem_of_singleton. congruence.
  - intros q [a Hq]. apply lookup_delete_Some in Hq as [Hne Hq]. destruct (fi_sleep _ _ _ Hok q a Hq) as [_ H2].
    unfold sleeps. rewrite ready_all_other; [done|]. rewrite list_elem_of_singleton. congruence.
  - intros q [a Ha] Hn. destruct (decide (q = p)) as [->|Hq]; [|rewrite lookup_delete_ne in Hn by done; congruence].
    apply ready_all_in; [by apply list_elem_of_singleton|done].
  - intros q Hq. apply ready_all_other. by rewrite list_elem_of_singleton.
Qed.

Lemma waiter_stays sl n u p : (p, u) ∈ records sl -> p ∉ take n (waiters_in u sl) -> (p, u) ∈ records (leave n u sl).
Proof.
  intros Hr Hn. rewrite (leave_records n u sl), elem_of_app in Hr. destruct Hr as [Hr|Hr]; [|done].
  apply list_elem_of_fmap in Hr as (q & [= <-] & Hq). done.
Qed.

Lemma other_stays sl n u p a : a <> u -> (p, a) ∈ records sl -> (p, a) ∈ records (leave n u sl).
Proof.
  intros Ha Hr. rewrite (leave_records n u sl), elem_of_app in Hr. destruct Hr as [Hr|Hr]; [|done].
  apply list_elem_of_fmap in Hr as (q & [= _ ->] & _). done.
Qed.

Lemma futex_wake_refines sl k W u count : futex_inv sl k W ->
  exists sl' k' W' r, ir0_futex_wake sl k u count = Ok (sl', k', r) /\ futex_inv sl' k' W' /\
    futex_spec (records sl) W (FWake u count) (records sl') W' (Some r) /\ futex_effect k k' (records sl) W W' (FWake u count).
Proof.
  intros Hok. pose proof (fun q H => match H with ex_intro _ u Hu => proj2 (fi_sleep _ _ _ Hok q u Hu) end) as Hsl.
  destruct (decide (u = 0 \/ count <= 0)) as [H0|H0].
  { unfold ir0_futex_wake. rewrite decide_True by done. exists sl, k, W, 0. splits; auto using futex_null_effect. by constructor. }
  rewrite (ir0_futex_wake_spec sl k W u count) by (auto; lia). cbv zeta. set (n := Z.to_nat count). set (T := take n (waiters_in u sl)).
  assert (HT : forall p, p ∈ T -> (p, u) ∈ records sl).
  { intros p Hp. rewrite (leave_records n u sl), elem_of_app. left. apply list_elem_of_fmap. eauto. }
  assert (Hslp : forall q a, filter (fun x => x.1 ∉ T) W !! q = Some a -> W !! q = Some a /\ (q ∉ T) /\ sleeps (ready_all k T) q).
  { intros q a Hq. apply map_lookup_filter_Some in Hq as [Hq Hn]. splits; auto. unfold sleeps. rewrite ready_all_other by done. apply Hsl. eauto. }
  exists (leave n u sl), (ready_all k T), (filter (fun x => x.1 ∉ T) W), (Z.of_nat (length T)).
  split; [done|]. split; [split|split; [|split]].
  - rewrite leave_length. apply Hok.
  - intros p a Hp. destruct (fi_rec _ _ _ Hok p a) as (? & ? & ?); [rewrite (leave_records n u sl), elem_of_app; by right|].
    splits; auto. by apply ready_all_dom.
  - intros p a Hp. destruct (Hslp p a Hp) as (HW & Hn & Hs). split; [|done]. destruct (fi_sleep _ _ _ Hok p a HW) as [Hr _].
    destruct (decide (a = u)) as [->|Ha]; [by apply waiter_stays|by apply other_stays].
  - apply spec_wake; [tauto|lia|by apply leave_records|]. unfold T. rewrite length_take.
    destruct (decide (n <= length (waiters_in u sl))%nat); [left; lia|right; split; [lia|]]. intros p Hp.
    apply waiters_in_elem in Hp. rewrite leave_waiters_same, drop_ge in Hp by lia. by apply elem_of_nil in Hp.
  - intros p [a Hp]. by destruct (Hslp p a Hp) as (_ & _ & ?).
  - intros p [a Ha] Hn. apply ready_all_in.
    + destruct (decide (p ∈ T)); [done|]. rewrite map_lookup_filter, Ha in Hn. simpl in Hn. rewrite option_guard_True in Hn by done. done.
    + destruct (fi_sleep _ _ _ Hok p a Ha) as [Hr _]. by destruct (fi_rec _ _ _ Hok p a Hr) as (_ & _ & ?).
  - intros p Hp. apply ready_all_other. intros Hin. by apply Hp, HT.
Qed.

(** C24: The futex table is a set of at most 64 wait records, and no sleeper is
    without one.  As long as no process with a record has been freed, a wait by
    a running process, the interruption of a sleeping wait and a wake with any
    arguments succeed and do exactly what [futex_spec] prescribes: a wait
    records and blocks its caller, and is refused with EAGAIN exactly when 64
    records exist; an interrupted wait returns -EINTR and leaves its record
    behind; a wake takes records of that address only, as many as asked or all
    there are, reports their number, and makes the process of each record READY
    (a record left behind is taken and counted like any other).  Every process
    asleep in a wait stays blocked and recorded until its record is taken or it
    is interrupted, and no other process is touched. *)
Theorem futex_refines_sleepers sl k W op : futex_inv sl k W -> futex_enabled k W op ->
  exists sl' k' W' r, futex_step sl k op = Ok (sl', k', r) /\ futex_inv sl' k' W' /\
    futex_spec (records sl) W op (records sl') W' r /\ futex_effect k k' (records sl) W W' op.
Proof.
  intros Hok Hen. destruct op as [p u v|p|u count]; cbn [futex_step futex_enabled] in *.
  - by apply futex_wait_refines.
  - destruct (futex_interrupt_refines sl k W p Hok Hen) as (k' & -> & Hok' & Hs & He). cbn. eauto 10.
  - destruct (futex_wake_refines sl k W u count Hok) as (sl' & k' & W' & r & -> & Hok' & Hs & He). cbn. eauto 10.
Qed.

Definition demo_proc (st : process_state_t) : process_t := {| state := st; task_state := TASK_SCHED_RUNNABLE; sched_prio := 0 |}.
Definition demo_kern : kern :=
  {| procs := {[1 := demo_proc PROCESS_RUNNING; 2 := demo_proc PROCESS_READY]}; current_process := 1; first := false; switches := [] |}.
Definition no_waiters : list ir0_futex_slot := replicate IR0_FUTEX_MAX_WAITERS futex_free.

Lemma no_waiters_inv k : futex_inv no_waiters k ∅.
Proof. split; [reflexivity| |]; intros p u Hp; [by apply elem_of_nil in Hp|by rewrite lookup_empty in Hp]. Qed.

Lemma futex_refines_sleepers_witness :
  exists sl' k' W' r, futex_step no_waiters demo_kern (FWait 1 4096 7) = Ok (sl', k', r) /\ r = None /\
    records sl' = [(1, 4096)] /\ futex_inv sl' k' W'.
Proof.
  destruct (futex_refines_sleepers no_waiters demo_kern ∅ (FWait 1 4096 7)) as (sl' & k' & W' & r & E & Hi & _);
    [apply no_waiters_inv|eexists; split; [reflexivity|reflexivity]|].
  exists sl', k', W', r. split; [exact E|]. vm_compute in E. injection E as <- <- <-. split; [done|]. split; [reflexivity|exact Hi].
Defined.

(** A signal that ends a wait leaves the caller's slot in use.  Process 1 waits
    and is interrupted (made ready, EINTR); process 2 waits on the same address;
    the wake of one waiter finds the slot of process 1: it reports one process
    woken, and process 2 sleeps on. *)
Lemma interrupted_waiter_steals_wake :
  exists sl1 k1 sl2 k2 sl3 k3,
    ir0_futex_wait_enter no_waiters demo_kern 1 4096 7 = Ok (sl1, k1, None) /\
    (exists k1', process_set_sched_state k1 1 PROCESS_READY = Ok k1' /\ ir0_futex_wait_leave true = (false, - EINTR) /\
       ir0_futex_wait_enter sl1 k1' 2 4096 7 = Ok (sl2, k2, None)) /\
    ir0_futex_wake sl2 k2 4096 1 = Ok (sl3, k3, 1) /\ sleeps k3 2.
Proof.
  do 6 eexists. split; [reflexivity|]. split; [eexists; split; [reflexivity|]; split; [reflexivity|]; vm_compute; reflexivity|].
  split; [vm_compute; reflexivity|]. eexists. split; reflexivity.
Qed.

(** Nothing calls [ir0_futex_drop_process]: the slot of a process that was
    killed while it waited keeps the pointer, and a later wake follows it. *)
Lemma killed_waiter_dangling :
  exists sl1 k1, ir0_futex_wait_enter no_waiters demo_kern 1 4096 7 = Ok (sl1, k1, None) /\
    ir0_futex_wake sl1 (with_procs (delete 1 (procs k1)) k1) 4096 1 = UB /\
    ir0_futex_wake (ir0_futex_drop_process sl1 1) (with_procs (delete 1 (procs k1)) k1) 4096 1 =
      Ok (ir0_futex_drop_process sl1 1, with_procs (delete 1 (procs k1)) k1, 0).
Proof. do 2 eexists. split; [reflexivity|]. split; vm_compute; reflexivity. Qed.
