(* ===== verification/FdObjects.v ===== *)
(** * The objects behind descriptors implement the descriptor interface

    The interface [Files.FdBackend] instantiated with the pipes of [Pipe], the
    event counters of [Eventfd] and the timers of [Timerfd].  The laws of the
    interface hold for this instance, so the theorems of [Files] apply to it.
    The kinds of object that have no model of their own are reference counters
    here; the theorem about [fork] and [exit] is for tables without them. *)

From S2P Require Import Prelude FdTypes ObjTable Timerfd Pipe Eventfd Files.

Definition fd_ref_code (r : fd_ref) : Z * Z * Z :=
  match r with
  | RPipe p e => (0, p, e) | RSocket p => (1, p, 0) | RDevfs i s => (2, i, s) | RPseudo p => (3, p, 0) | REpoll p => (4, p, 0)
  | RMemfd p => (5, p, 0) | REventfd p => (6, p, 0) | RTimerfd p => (7, p, 0) | RVfs p => (8, p, 0)
  end.

Definition fd_ref_decode (c : Z * Z * Z) : option fd_ref :=
  match c with
  | (0, p, e) => Some (RPipe p e) | (1, p, _) => Some (RSocket p) | (2, i, s) => Some (RDevfs i s) | (3, p, _) => Some (RPseudo p)
  | (4, p, _) => Some (REpoll p) | (5, p, _) => Some (RMemfd p) | (6, p, _) => Some (REventfd p) | (7, p, _) => Some (RTimerfd p)
  | (8, p, _) => Some (RVfs p) | _ => None
  end.

#[export] Instance fd_ref_countable : Countable fd_ref.
Proof. refine (inj_countable fd_ref_code fd_ref_decode _). by intros []. Defined.

Record kernel_objs := { ko_pipes : pipe_sys; ko_efds : list ir0_eventfd; ko_tfds : list ir0_timerfd; ko_other : gmap fd_ref Z }.

Section instance.
Context (base tbase : Z) (wants_snap : Z -> bool).

Definition other_refs (m : gmap fd_ref Z) (r : fd_ref) : Z := default 0 (m !! r).

Definition ko_acquire (r : fd_ref) (s : kernel_objs) : outcome kernel_objs :=
  match r with
  | RPipe p e => y ← pipe_acquire_end (ko_pipes s) p e; Ok {| ko_pipes := y; ko_efds := ko_efds s; ko_tfds := ko_tfds s; ko_other := ko_other s |}
  | REventfd p => g ← ir0_eventfd_acquire base (ko_efds s) p; Ok {| ko_pipes := ko_pipes s; ko_efds := g; ko_tfds := ko_tfds s; ko_other := ko_other s |}
  | RTimerfd p => g ← ir0_timerfd_acquire tbase (ko_tfds s) p; Ok {| ko_pipes := ko_pipes s; ko_efds := ko_efds s; ko_tfds := g; ko_other := ko_other s |}
  | _ => n ← int_incr (other_refs (ko_other s) r);
         Ok {| ko_pipes := ko_pipes s; ko_efds := ko_efds s; ko_tfds := ko_tfds s; ko_other := <[r := n]> (ko_other s) |}
  end.

Definition ko_release (r : fd_ref) (s : kernel_objs) : outcome kernel_objs :=
  match r with
  | RPipe p e => y ← pipe_close_end (ko_pipes s) p e; Ok {| ko_pipes := y; ko_efds := ko_efds s; ko_tfds := ko_tfds s; ko_other := ko_other s |}
  | REventfd p => Ok {| ko_pipes := ko_pipes s; ko_efds := ir0_eventfd_release base (ko_efds s) p; ko_tfds := ko_tfds s; ko_other := ko_other s |}
  | RTimerfd p => Ok {| ko_pipes := ko_pipes s; ko_efds := ko_efds s; ko_tfds := ir0_timerfd_release tbase (ko_tfds s) p; ko_other := ko_other s |}
  | _ => Ok {| ko_pipes := ko_pipes s; ko_efds := ko_efds s; ko_tfds := ko_tfds s; ko_other := <[r := other_refs (ko_other s) r - 1]> (ko_other s) |}
  end.

#[export] Instance kernel_backend : FdBackend kernel_objs := {|
  fd_acquire := ko_acquire; fd_release := ko_release; fd_wants_snap := wants_snap |}.

(** ** Reference counts *)

Definition pipe_refs (y : pipe_sys) (p e : Z) : Z :=
  if decide (p = 0) then 0 else
  match pipes y !! p with
  | Some v => if decide (e = 0) then readers v else if decide (e = 1) then writers v else 0
  | None => 0
  end.

Definition efd_refs (g : list ir0_eventfd) (p : Z) : Z := match efd_slot base g p with Some (_, e) => refs e | None => 0 end.

Definition tfd_refs (g : list ir0_timerfd) (p : Z) : Z := match tfd_slot tbase g p with Some (_, t) => Timerfd.refs t | None => 0 end.

Definition ko_refs (s : kernel_objs) (r : fd_ref) : Z :=
  match r with
  | RPipe p e => pipe_refs (ko_pipes s) p e
  | REventfd p => efd_refs (ko_efds s) p
  | RTimerfd p => tfd_refs (ko_tfds s) p
  | _ => other_refs (ko_other s) r
  end.

Definition ko_room (s : kernel_objs) (r : fd_ref) : Z :=
  INT_MAX - match r with
            | RPipe p _ => match pipes (ko_pipes s) !! p with Some v => fd_refs v | None => 0 end
            | REventfd p => efd_refs (ko_efds s) p
            | RTimerfd p => tfd_refs (ko_tfds s) p
            | _ => other_refs (ko_other s) r
            end.

Definition pipes_counted (y : pipe_sys) : Prop := map_Forall (fun _ v => ends_ok v (readers v) (writers v)) (pipes y).
Definition ko_inv (s : kernel_objs) : Prop :=
  (0 < base /\ 0 < tbase) /\ pipes_counted (ko_pipes s) /\ (efds_ok (ko_efds s) /\ tfds_ok (ko_tfds s)) /\ forall r, 0 <= other_refs (ko_other s) r.

Lemma tfd_slot_live g p i t : tfds_ok g -> tfd_slot tbase g p = Some (i, t) ->
  g !! i = Some t /\ t_in_use t = true /\ 0 < Timerfd.refs t /\ p = tfd_addr tbase i.
Proof.
  intros [_ Hf] E. apply obj_slot_Some in E as (Hi & Hv & ->); [|done]. apply andb_true_iff in Hv as [_ Hu].
  pose proof (Forall_lookup_1 _ _ _ _ Hf Hi) as Hok. unfold tfd_ok in Hok. rewrite Hu in Hok. tauto.
Qed.

Lemma ko_refs_nonneg s r : ko_inv s -> 0 <= ko_refs s r.
Proof.
  intros (_ & Hc & [Hg Ht] & Ho). destruct r as [p e| | | | | |p|p|]; simpl; try apply Ho.
  - unfold pipe_refs. case_decide; [lia|]. destruct (pipes (ko_pipes s) !! p) as [v|] eqn:Hp; [|lia].
    destruct (Hc p v Hp) as [_ _ _ [? ?] _]. repeat case_decide; lia.
  - unfold efd_refs. destruct (efd_slot base (ko_efds s) p) as [[i e]|] eqn:E; [|lia].
    destruct (efd_slot_Some base _ p i e E) as (Hi & He & _). destruct (live_ok _ _ _ Hg Hi He) as (_ & ? & _). lia.
  - unfold tfd_refs. destruct (tfd_slot tbase (ko_tfds s) p) as [[i e]|] eqn:E; [|lia].
    destruct (tfd_slot_live _ _ _ _ Ht E) as (_ & _ & ? & _). lia.
Qed.

Lemma lookup_delete_same {A} (m m' : gmap Z A) p q : delete p m = delete p m' -> q <> p -> m !! q = m' !! q.
Proof. intros E Hq. rewrite <- (lookup_delete_ne m p q), E by done. by rewrite lookup_delete_ne. Qed.

(** What an end operation that meets the pipe's contract does to the counts. *)
Lemma pipe_step_refs y y' p v st : pipes_counted y -> pipes y !! p = Some v -> ends_match y y' p v st ->
  pipes_counted y' /\ forall q, pipes y' !! q = if decide (q = p) then pipes y' !! p else pipes y !! q.
Proof.
  intros Hc Hp (Hst & Hdel & _). assert (Hq : forall q, q <> p -> pipes y' !! q = pipes y !! q) by (intros; by eapply lookup_delete_same).
  split; [|intros q; case_decide; [by subst|auto]]. intros q w Hw. destruct (decide (q = p)) as [->|Hn].
  - destruct st as [[r wr]|]; [|destruct Hst; congruence]. destruct Hst as (v' & E & Hok & _). rewrite E in Hw. injection Hw as <-.
    destruct Hok. by constructor; subst.
  - rewrite Hq in Hw by done. by apply (Hc q).
Qed.

Lemma pipe_refs_step y y' p v st e d : p <> 0 -> pipes_counted y -> pipes y !! p = Some v -> e = 0 \/ e = 1 -> ends_match y y' p v st ->
  match st with
  | Some (r, w) => r = readers v + (if decide (e = 0) then d else 0) /\ w = writers v + (if decide (e = 1) then d else 0)
  | None => d = -1 /\ readers v + writers v = 1 /\ (if decide (e = 0) then readers v else writers v) = 1
  end ->
  forall q b, pipe_refs y' q b = pipe_refs y q b + if decide (q = p /\ b = e) then d else 0.
Proof.
  intros Hp0 Hc Hp He Hm Hst q b. destruct (pipe_step_refs y y' p v st Hc Hp Hm) as [_ Hq]. unfold pipe_refs.
  destruct (decide (q = 0)) as [->|Hq0]; [rewrite decide_False by naive_solver; lia|]. rewrite Hq.
  destruct (decide (q = p)) as [->|Hn]; [|rewrite (decide_False (P := q = p /\ b = e)) by tauto; lia]. rewrite Hp.
  destruct (Hc p v Hp). destruct Hm as (Hst' & _). destruct st as [[r w]|].
  - destruct Hst' as (v' & -> & [] & _). destruct Hst as [-> ->]. destruct He as [-> | ->]; repeat dec_goal; try lia; naive_solver lia.
  - destruct Hst' as [-> _]. destruct Hst as (-> & H1 & H2). destruct He as [-> | ->]; repeat dec_goal; try lia; naive_solver lia.
Qed.

Lemma pipe_refs_pos y p e : pipes_counted y -> 0 < pipe_refs y p e ->
  exists v, p <> 0 /\ pipes y !! p = Some v /\ (e = 0 /\ 0 < readers v \/ e = 1 /\ 0 < writers v) /\
    ends_match y y p v (Some (readers v, writers v)).
Proof.
  intros Hc. unfold pipe_refs. case_decide; [lia|]. destruct (pipes y !! p) as [v|] eqn:Hp; [|lia]. intros Hr.
  exists v. splits; auto; [repeat case_decide; auto; lia|]. split; [|done]. exists v. splits; auto. by apply (Hc p).
Qed.

Lemma pipe_acquire_law y p e : pipes_counted y -> 0 < pipe_refs y p e ->
  (forall v, pipes y !! p = Some v -> fd_refs v < INT_MAX) ->
  exists y', pipe_acquire_end y p e = Ok y' /\ pipes_counted y' /\
    (forall q b, pipe_refs y' q b = pipe_refs y q b + if decide (q = p /\ b = e) then 1 else 0) /\
    forall q, match pipes y' !! q with Some v => fd_refs v | None => 0 end <= match pipes y !! q with Some v => fd_refs v | None => 0 end + 1.
Proof.
  intros Hc Hr Hroom. destruct (pipe_refs_pos y p e Hc Hr) as (v & Hp0 & Hp & He & Hm). specialize (Hroom v Hp). pose proof (Hc p v Hp) as [Hf _ _ _ _].
  set (st := (readers v + (if decide (e = 0) then 1 else 0), writers v + (if decide (e = 1) then 1 else 0))).
  destruct (acquire_refines y y p v (readers v) (writers v) e (Some st)) as (y' & E & Hm'); auto; [lia| |].
  { destruct He as [[-> _]|[-> _]]; simpl; unfold st; simpl; do 3 f_equal; lia. }
  destruct (pipe_step_refs y y' p v _ Hc Hp Hm') as [Hc' Hq]. exists y'. splits; auto.
  - apply (pipe_refs_step y y' p v (Some st)); auto; [|by unfold st]. destruct He as [[-> _]|[-> _]]; auto.
  - intros q. rewrite Hq. destruct (decide (q = p)) as [->|]; [|lia]. destruct Hm' as ((v' & -> & [] & _) & _). rewrite Hp. unfold st in *. simpl in *.
    destruct He as [[-> _]|[-> _]]; repeat case_decide; lia.
Qed.

Lemma pipe_release_law y p e : pipes_counted y -> 0 < pipe_refs y p e ->
  exists y', pipe_close_end y p e = Ok y' /\ pipes_counted y' /\
    (forall q b, pipe_refs y' q b = pipe_refs y q b - if decide (q = p /\ b = e) then 1 else 0).
Proof.
  intros Hc Hr. destruct (pipe_refs_pos y p e Hc Hr) as (v & Hp0 & Hp & He & Hm). pose proof (Hc p v Hp) as [Hf _ _ [Hn1 Hn2] _].
  set (st := if decide (readers v + writers v = 1) then None
             else Some (readers v + (if decide (e = 0) then -1 else 0), writers v + (if decide (e = 1) then -1 else 0))).
  destruct (close_refines y y p v (readers v) (writers v) e st) as (y' & E & Hm'); auto.
  { destruct He as [[-> H1]|[-> H1]]; simpl; rewrite decide_True by done; unfold st; do 2 f_equal; (case_decide; [done|]);
      simpl; do 2 f_equal; lia. }
  destruct (pipe_step_refs y y' p v _ Hc Hp Hm') as [Hc' Hq]. exists y'. splits; auto. intros q b.
  rewrite (pipe_refs_step y y' p v st e (-1)); auto; [dec_goal; lia|destruct He as [[-> _]|[-> _]]; auto|].
  unfold st. destruct (decide (readers v + writers v = 1)); [|done]. splits; auto. destruct He as [[-> H1]|[-> H1]]; repeat dec_goal; lia.
Qed.

Lemma efd_slot_insert g i e' q : (i < length g)%nat ->
  efd_slot base (<[i := e']> g) q =
    if decide (q = efd_addr base i) then efd_slot base (<[i := e']> g) (efd_addr base i) else efd_slot base g q.
Proof.
  intros Hi. destruct (decide (q = efd_addr base i)) as [->|Hn]; [done|]. unfold efd_slot. case_decide as H1; [done|]. case_decide as H2; [done|].
  assert (Hidx : Z.to_nat ((q - base) / EFD_SIZE) <> i).
  { intros <-. apply Hn. unfold efd_addr. assert (H2' : (q - base) mod EFD_SIZE = 0) by (destruct (decide ((q - base) mod EFD_SIZE = 0)); tauto).
    pose proof (Z.div_mod (q - base) EFD_SIZE ltac:(done)). assert (0 <= (q - base) / EFD_SIZE) by (apply Z.div_pos; unfold EFD_SIZE; lia).
    rewrite Z2Nat.id by done. lia. }
  by rewrite list_lookup_insert_ne.
Qed.

(** Replacing the counter at slot [i] changes the count of its address only. *)
Lemma efd_refs_insert g i e' n : 0 < base -> (i < length g)%nat -> efds_ok (<[i := e']> g) ->
  (if e_in_use e' then refs e' else 0) = n ->
  forall q, efd_refs (<[i := e']> g) q = if decide (q = efd_addr base i) then n else efd_refs g q.
Proof.
  intros Hb Hi Hok Hn q. unfold efd_refs. rewrite efd_slot_insert by done. destruct (decide (q = efd_addr base i)); [|done].
  assert (Hl : <[i := e']> g !! i = Some e') by (by apply list_lookup_insert_eq).
  rewrite (efd_slot_addr base Hb _ i e') by (done || apply Hok). destruct (e_in_use e') eqn:E.
  - destruct (live_ok _ _ _ Hok Hl E) as (Hm & _). rewrite bool_decide_true by done. done.
  - by rewrite andb_false_r.
Qed.

Lemma efd_acquire_law g p : 0 < base -> efds_ok g -> 0 < efd_refs g p < INT_MAX ->
  exists g', ir0_eventfd_acquire base g p = Ok g' /\ efds_ok g' /\
    forall q, efd_refs g' q = efd_refs g q + if decide (q = p) then 1 else 0.
Proof.
  intros Hb Hok Hr. unfold efd_refs in Hr. destruct (efd_slot base g p) as [[i e]|] eqn:Es; [|lia].
  destruct (efd_slot_Some base g p i e Es) as (Hi & He & ->).
  destruct (efd_acquire_spec base Hb g i e Hok Hi He) as (g' & E & Hok' & ->); [lia|]. exists (<[i := set_refs (refs e + 1) e]> g). splits; auto.
  intros q. rewrite (efd_refs_insert g i _ (refs e + 1)); auto; [|by eapply lookup_lt_Some|simpl; by rewrite He].
  case_decide as Hq; [|lia]. subst. unfold efd_refs. by rewrite Es.
Qed.

Lemma efd_release_law g p : 0 < base -> efds_ok g -> 0 < efd_refs g p ->
  efds_ok (ir0_eventfd_release base g p) /\
  forall q, efd_refs (ir0_eventfd_release base g p) q = efd_refs g q - if decide (q = p) then 1 else 0.
Proof.
  intros Hb Hok Hr. unfold efd_refs in Hr. destruct (efd_slot base g p) as [[i e]|] eqn:Es; [|lia].
  destruct (efd_slot_Some base g p i e Es) as (Hi & He & ->). destruct (efd_release_spec base Hb g i e Hok Hi He) as [Hok' E]. split; [done|].
  intros q. rewrite E in *. rewrite (efd_refs_insert g i _ (refs e - 1)); auto; [|by eapply lookup_lt_Some|].
  - destruct (decide (q = efd_addr base i)) as [->|]; [|lia]. unfold efd_refs. by rewrite Es.
  - destruct (decide (refs e = 1)); simpl; [lia|by rewrite He].
Qed.

(** The same for timers. *)
Lemma tfd_refs_insert g i t' n : 0 < tbase -> (i < length g)%nat -> tfds_ok (<[i := t']> g) ->
  (if t_in_use t' then Timerfd.refs t' else 0) = n ->
  forall q, tfd_refs (<[i := t']> g) q = if decide (q = tfd_addr tbase i) then n else tfd_refs g q.
Proof.
  intros Hb Hi Hok Hn q. unfold tfd_refs. destruct (decide (q = tfd_addr tbase i)) as [->|Hq].
  - assert (Hl : <[i := t']> g !! i = Some t') by (by apply list_lookup_insert_eq).
    unfold tfd_slot, tfd_addr. rewrite (obj_slot_addr tbase TFD_SIZE TFD_MAX _ Hb ltac:(done) _ i t') by (done || apply Hok).
    destruct Hok as [_ Hf]. pose proof (Forall_lookup_1 _ _ _ _ Hf Hl) as Ht. unfold tfd_ok in Ht. destruct (t_in_use t').
    + rewrite bool_decide_true by tauto. done.
    + by rewrite andb_false_r.
  - unfold tfd_slot. by rewrite obj_slot_insert_ne.
Qed.

Lemma tfd_acquire_law g p : 0 < tbase -> tfds_ok g -> 0 < tfd_refs g p < INT_MAX ->
  exists g', ir0_timerfd_acquire tbase g p = Ok g' /\ tfds_ok g' /\
    forall q, tfd_refs g' q = tfd_refs g q + if decide (q = p) then 1 else 0.
Proof.
  intros Hb Hok Hr. unfold tfd_refs in Hr. destruct (tfd_slot tbase g p) as [[i e]|] eqn:Es; [|lia].
  destruct (tfd_slot_live g p i e Hok Es) as (Hi & He & _ & ->).
  destruct (timerfd_acquire_spec tbase g i e Hb Hok Hi He) as (E & Hok'); [lia|]. eexists. split; [exact E|]. split; [done|].
  intros q. rewrite (tfd_refs_insert g i _ (Timerfd.refs e + 1)); auto; [|by eapply lookup_lt_Some|simpl; by rewrite He].
  case_decide as Hq; [|lia]. subst. unfold tfd_refs. by rewrite Es.
Qed.

Lemma tfd_release_law g p : 0 < tbase -> tfds_ok g -> 0 < tfd_refs g p ->
  tfds_ok (ir0_timerfd_release tbase g p) /\
  forall q, tfd_refs (ir0_timerfd_release tbase g p) q = tfd_refs g q - if decide (q = p) then 1 else 0.
Proof.
  intros Hb Hok Hr. unfold tfd_refs in Hr. destruct (tfd_slot tbase g p) as [[i e]|] eqn:Es; [|lia].
  destruct (tfd_slot_live g p i e Hok Es) as (Hi & He & _ & ->). destruct (timerfd_release_spec tbase g i e Hb Hok Hi He) as [E Hok']. split; [done|].
  intros q. rewrite E in *. rewrite (tfd_refs_insert g i _ (Timerfd.refs e - 1)); auto; [|by eapply lookup_lt_Some|].
  - destruct (decide (q = tfd_addr tbase i)) as [->|]; [|lia]. unfold tfd_refs. by rewrite Es.
  - destruct (decide (Timerfd.refs e = 1)); simpl; [lia|by rewrite He].
Qed.

Lemma other_insert m r n q : other_refs (<[r := n]> m) q = if decide (q = r) then n else other_refs m q.
Proof. unfold other_refs. case_decide; [subst; by rewrite lookup_insert_eq|by rewrite lookup_insert_ne]. Qed.

Lemma ko_acquire_law s r : ko_inv s -> 0 < ko_refs s r -> 0 < ko_room s r ->
  exists s', ko_acquire r s = Ok s' /\ ko_inv s' /\ (forall q, ko_refs s' q = ko_refs s q + if decide (q = r) then 1 else 0) /\
    (forall q, ko_room s q - 1 <= ko_room s' q).
Proof.
  intros ([Hb Htb] & Hc & [Hg Ht] & Ho) Hr Hroom.
  assert (Hother : match r with RPipe _ _ | REventfd _ | RTimerfd _ => False | _ => True end ->
    exists s', (n ← int_incr (other_refs (ko_other s) r);
       Ok {| ko_pipes := ko_pipes s; ko_efds := ko_efds s; ko_tfds := ko_tfds s; ko_other := <[r := n]> (ko_other s) |}) = Ok s' /\ ko_inv s' /\
      (forall q, ko_refs s' q = ko_refs s q + if decide (q = r) then 1 else 0) /\ (forall q, ko_room s q - 1 <= ko_room s' q)).
  { intros Hk. unfold int_incr. rewrite decide_True by (destruct r; try done; simpl in *; unfold ko_room in Hroom; lia). cbn [mbind outcome_bind].
    eexists. split; [reflexivity|]. split.
    { split; [done|]. split; [done|]. split; [done|]. intros q. simpl. rewrite other_insert. pose proof (Ho q). pose proof (Ho r). dec_goal; lia. }
    split; intros q; [|unfold ko_room]; destruct q; cbn [ko_refs ko_pipes ko_efds ko_tfds ko_other]; rewrite ?other_insert; try (rewrite decide_False by (destruct r; done || naive_solver)); try lia;
      destruct (decide (_ = r)) as [<-|]; lia. }
  destruct r; simpl ko_acquire; try (by apply Hother); clear Hother.
  - destruct (pipe_acquire_law (ko_pipes s) p e Hc Hr) as (y' & -> & Hc' & Hq & Hrm);
      [intros v Hv; unfold ko_room in Hroom; rewrite Hv in Hroom; lia|]. cbn [mbind outcome_bind].
    eexists. split; [reflexivity|]. split; [done|]. split.
    + intros q. destruct q as [q b| | | | | | | |]; cbn [ko_refs ko_pipes ko_efds ko_tfds ko_other]; try (rewrite decide_False by done; lia). rewrite Hq.
      destruct (decide (q = p /\ b = e)) as [[-> ->]|Hn]; [by rewrite decide_True|]. rewrite decide_False; [done|]. intros [=]. tauto.
    + intros q. unfold ko_room. destruct q as [q b| | | | | | | |]; simpl; try lia. specialize (Hrm q). lia.
  - destruct (efd_acquire_law (ko_efds s) p Hb Hg) as (g' & -> & Hg' & Hq); [simpl in Hr; unfold ko_room in Hroom; lia|]. cbn [mbind outcome_bind].
    eexists. split; [reflexivity|]. split; [done|]. split.
    + intros q. destruct q as [| | | | | |q| |]; cbn [ko_refs ko_pipes ko_efds ko_tfds ko_other]; try (rewrite decide_False by done; lia). rewrite Hq.
      destruct (decide (q = p)) as [->|Hn]; [by rewrite decide_True|]. rewrite decide_False; [done|]. congruence.
    + intros q. unfold ko_room. destruct q as [| | | | | |q| |]; simpl; try lia. rewrite Hq. dec_goal; lia.
  - destruct (tfd_acquire_law (ko_tfds s) p Htb Ht) as (g' & -> & Ht' & Hq); [simpl in Hr; unfold ko_room in Hroom; lia|]. cbn [mbind outcome_bind].
    eexists. split; [reflexivity|]. split; [done|]. split.
    + intros q. destruct q as [| | | | | | |q|]; cbn [ko_refs ko_pipes ko_efds ko_tfds ko_other]; try (rewrite decide_False by done; lia). rewrite Hq.
      destruct (decide (q = p)) as [->|Hn]; [by rewrite decide_True|]. rewrite decide_False; [done|]. congruence.
    + intros q. unfold ko_room. destruct q as [| | | | | | |q|]; simpl; try lia. rewrite Hq. dec_goal; lia.
Qed.

Lemma ko_release_law s r : ko_inv s -> 0 < ko_refs s r ->
  exists s', ko_release r s = Ok s' /\ ko_inv s' /\ (forall q, ko_refs s' q = ko_refs s q - if decide (q = r) then 1 else 0).
Proof.
  intros ([Hb Htb] & Hc & [Hg Ht] & Ho) Hr.
  assert (Hother : match r with RPipe _ _ | REventfd _ | RTimerfd _ => False | _ => True end ->
    forall q, ko_refs {| ko_pipes := ko_pipes s; ko_efds := ko_efds s; ko_tfds := ko_tfds s; ko_other := <[r := other_refs (ko_other s) r - 1]> (ko_other s) |} q =
      ko_refs s q - if decide (q = r) then 1 else 0).
  { intros Hk q. destruct q; cbn [ko_refs ko_pipes ko_efds ko_tfds ko_other]; rewrite ?other_insert; try (rewrite decide_False by (destruct r; done || naive_solver)); try lia;
      destruct (decide (_ = r)) as [<-|]; lia. }
  destruct r; simpl ko_release; try (eexists; split; [reflexivity|]; split; [|by apply Hother];
    (split; [done|]; split; [done|]; split; [done|]; intros q; simpl; rewrite other_insert; specialize (Ho q); simpl in Hr; dec_goal; lia));
    clear Hother.
  - destruct (pipe_release_law (ko_pipes s) p e Hc Hr) as (y' & -> & Hc' & Hq). cbn [mbind outcome_bind].
    eexists. split; [reflexivity|]. split; [done|]. intros q. destruct q as [q b| | | | | | | |]; cbn [ko_refs ko_pipes ko_efds ko_tfds ko_other]; try (rewrite decide_False by done; lia). rewrite Hq.
    destruct (decide (q = p /\ b = e)) as [[-> ->]|Hn]; [by rewrite decide_True|]. rewrite decide_False; [done|]. intros [=]. tauto.
  - destruct (efd_release_law (ko_efds s) p Hb Hg Hr) as [Hg' Hq].
    eexists. split; [reflexivity|]. split; [done|]. intros q. destruct q as [| | | | | |q| |]; cbn [ko_refs ko_pipes ko_efds ko_tfds ko_other]; try (rewrite decide_False by done; lia). rewrite Hq.
    destruct (decide (q = p)) as [->|Hn]; [by rewrite decide_True|]. rewrite decide_False; [done|]. congruence.
  - destruct (tfd_release_law (ko_tfds s) p Htb Ht Hr) as [Ht' Hq].
    eexists. split; [reflexivity|]. split; [done|]. intros q. destruct q as [| | | | | | |q|]; cbn [ko_refs ko_pipes ko_efds ko_tfds ko_other]; try (rewrite decide_False by done; lia). rewrite Hq.
    destruct (decide (q = p)) as [->|Hn]; [by rewrite decide_True|]. rewrite decide_False; [done|]. congruence.
Qed.

#[export] Instance kernel_backend_laws : FdBackendLaws kernel_objs := {|
  fb_inv := ko_inv; fb_refs := ko_refs; fb_room := ko_room; fb_refs_nonneg := ko_refs_nonneg; fb_acquire_ok := ko_acquire_law; fb_release_ok := ko_release_law |}.

(** A descriptor of a pipe end, an event counter or a timer. *)
Definition modelled_ref (r : fd_ref) : Prop :=
  match r with RPipe _ _ | REventfd _ | RTimerfd _ => True | _ => False end.
End instance.

(** C30: fork and exit balance the references of pipes, event counters and
    timers.  Take a table whose descriptors are pipe ends, eventfds and
    timerfds, each with a counted reference (and counters far enough from
    [INT_MAX] for one more reference per descriptor).  When the allocation of
    the child's table succeeds, [process_files_clone]
    gives the child a private copy and each object one more reference per
    descriptor that names it; when the child exits, releasing its descriptors
    and dropping its table succeeds and returns the reference count of every
    pipe end, counter and timer, and the heap of tables, to what they were before the
    fork. *)
Theorem fork_exit_balanced base tbase wants_snap (heap_start heap_end : Z) (y : fsys kernel_objs) (f nf c : Z) (x : files_struct) :
  live_ptr heap_start heap_end f -> fheap y !! f = Some x -> f_magic x = IR0_FILES_MAGIC -> 0 < refcount x ->
  live_ptr heap_start heap_end nf -> fheap y !! nf = None -> ko_inv base tbase (objs y) ->
  (forall e r, e ∈ fd_table x -> used_ref e = Some r ->
     modelled_ref r /\ 0 < ko_refs base tbase (objs y) r /\ Z.of_nat (length (fd_table x)) <= ko_room base tbase (objs y) r) ->
  let B := kernel_backend base tbase wants_snap in
  exists y1 y2 y3, process_files_clone (H := B) heap_start heap_end y nf (Some c) (Some f) = Ok (y1, Some nf, 0) /\
    (forall q, ko_refs base tbase (objs y1) q = ko_refs base tbase (objs y) q + occ q (fd_table x)) /\
    fheap y1 = <[nf := {| f_magic := IR0_FILES_MAGIC; refcount := 1; fd_table := fd_table x |}]> (fheap y) /\
    process_release_fds (H := B) heap_start heap_end y1 (Some nf) = Ok y2 /\ files_put heap_start heap_end y2 nf = Ok y3 /\
    fheap y3 = fheap y /\ forall q, ko_refs base tbase (objs y3) q = ko_refs base tbase (objs y) q.
Proof.
  intros Hl Hf Hm Hr Hln Hnn Hinv Hrefs B.
  apply (clone_exit_balanced (H0 := kernel_backend_laws base tbase wants_snap) heap_start heap_end y f nf c x); auto.
  - apply Forall_forall. intros e He p Hp. by destruct (Hrefs e _ He Hp).
  - intros e r He Hu. by destruct (Hrefs e r He Hu) as (_ & ?).
Qed.

(** ** A concrete process *)

Definition demo_objs : kernel_objs := {|
  ko_pipes := match y ← pipe_acquire_end demo_pipe 4096 0; pipe_acquire_end y 4096 1 with Ok y => y | _ => demo_pipe end;
  ko_efds := demo_efds; ko_tfds := demo_tfds; ko_other := {[ REpoll 777 := 1 ]} |}.

Definition pipe_fd (p e : Z) : fd_entry := {|
  in_use := true; path := replicate 256 0; flags := 0; fd_flags := 0; vfs_file := p; offset := 0; is_pipe := true;
  pipe_end := e; is_devfs := false; dev_device_id := 0; is_socket := false; is_pseudo := false; is_epoll := false;
  is_memfd := false; is_eventfd := false; is_timerfd := false |}.
Definition epoll_fd (p : Z) : fd_entry := {|
  in_use := true; path := replicate 256 0; flags := 0; fd_flags := 0; vfs_file := p; offset := 0; is_pipe := false;
  pipe_end := 0; is_devfs := false; dev_device_id := 0; is_socket := false; is_pseudo := false; is_epoll := true;
  is_memfd := false; is_eventfd := false; is_timerfd := false |}.

Definition demo_table : list fd_entry :=
  replicate 3 fd_zero ++ [pipe_fd 4096 0; pipe_fd 4096 1; efd_entry 8192 0; tfd_entry 12288 0] ++ replicate 57 fd_zero.
Definition demo_files_of (t : list fd_entry) : files_struct := {| f_magic := IR0_FILES_MAGIC; refcount := 1; fd_table := t |}.
Definition demo_sys (t : list fd_entry) : fsys kernel_objs := {| fheap := {[ 1048576 := demo_files_of t ]}; objs := demo_objs |}.

#[local] Existing Instance kernel_backend.
#[local] Existing Instance kernel_backend_laws.
#[local] Instance demo_backend : FdBackend kernel_objs := kernel_backend 8192 12288 (fun _ => false).
#[local] Instance demo_laws : FdBackendLaws kernel_objs := kernel_backend_laws 8192 12288 (fun _ => false).

Lemma demo_objs_ok : ko_inv 8192 12288 demo_objs.
Proof.
  split; [lia|]. split; [|split; [split; [apply demo_efds_ok|apply demo_tfds_ok]|]].
  2:{ intros r. unfold other_refs. simpl. destruct ({[REpoll 777 := 1]} !! r) as [n|] eqn:E; [|simpl; lia].
      apply lookup_singleton_Some in E as [_ <-]. simpl. lia. }
  assert (E : pipes (ko_pipes demo_objs) = {[ 4096 := set_ends (zero_pipe 1) 2 1 1 false false ]}) by reflexivity.
  unfold pipes_counted. rewrite E. apply map_Forall_singleton. constructor; simpl; lia || reflexivity.
Qed.

Lemma demo_refs_in e r : e ∈ demo_table -> used_ref e = Some r ->
  r = RPipe 4096 0 \/ r = RPipe 4096 1 \/ r = REventfd 8192 \/ r = RTimerfd 12288.
Proof.
  unfold demo_table. rewrite !elem_of_app. intros He Hr.
  assert (Hz : e <> fd_zero) by (intros ->; done).
  destruct He as [He|[He|He]]; [by apply elem_of_replicate in He as [-> _]| |by apply elem_of_replicate in He as [-> _]].
  repeat (apply elem_of_cons in He as [->|He]; [injection Hr as <-; tauto|]). by apply not_elem_of_nil in He.
Qed.

Lemma fork_exit_balanced_witness : exists y1 y2 y3,
  process_files_clone 65536 16777216 (demo_sys demo_table) 2097152 (Some 0) (Some 1048576) = Ok (y1, Some 2097152, 0) /\
  ko_refs 8192 12288 (objs y1) (RPipe 4096 1) = 2 /\ ko_refs 8192 12288 (objs y1) (RTimerfd 12288) = 2 /\
  process_release_fds 65536 16777216 y1 (Some 2097152) = Ok y2 /\ files_put 65536 16777216 y2 2097152 = Ok y3 /\
  fheap y3 = fheap (demo_sys demo_table) /\ ko_refs 8192 12288 (objs y3) (RPipe 4096 1) = 1.
Proof.
  destruct (fork_exit_balanced 8192 12288 (fun _ => false) 65536 16777216 (demo_sys demo_table) 1048576 2097152 0 (demo_files_of demo_table))
    as (y1 & y2 & y3 & E1 & Hq1 & _ & E2 & E3 & Hh & Hq3).
  - repeat split; vm_compute; congruence.
  - reflexivity.
  - reflexivity.
  - reflexivity.
  - repeat split; vm_compute; congruence.
  - reflexivity.
  - apply demo_objs_ok.
  - intros e r He Hr. destruct (demo_refs_in e r He Hr) as [->|[->|[->| ->]]]; (split; [exact I|]); vm_compute; split; congruence.
  - exists y1, y2, y3. split; [exact E1|]. split; [rewrite Hq1; reflexivity|]. split; [rewrite Hq1; reflexivity|].
    split; [exact E2|]. split; [exact E3|]. split; [exact Hh|]. rewrite Hq3. reflexivity.
Defined.

Lemma fd_handle_pins_witness : exists y1,
  ir0_fd_get 65536 16777216 (demo_sys demo_table) (Some 1048576) 3 true = Ok (y1, {| h_files := 1048576; h_fd := 3 |}, 0) /\
  ir0_fd_put 65536 16777216 y1 (Some {| h_files := 1048576; h_fd := 3 |}) = Ok (demo_sys demo_table, Some fd_none).
Proof.
  destruct (fd_handle_pins 65536 16777216 (demo_sys demo_table) 1048576 3 (demo_files_of demo_table)) as [[_ Hno]|(y1 & y2 & E & _ & Ep & _)].
  - repeat split; vm_compute; congruence.
  - reflexivity.
  - reflexivity.
  - split; reflexivity.
  - reflexivity.
  - exfalso. apply Hno. eexists. split; [lia|]. split; [reflexivity|reflexivity].
  - exists y1. split; [exact E|exact Ep].
Defined.

(** Epoll descriptors are not acquired by [fork] but released by [exit]: the
    child's exit drops the only reference of the parent's epoll object. *)
Lemma epoll_lost_after_fork : exists y1 y2,
  process_files_clone 65536 16777216 (demo_sys (epoll_fd 777 :: replicate 63 fd_zero)) 2097152 (Some 0) (Some 1048576) = Ok (y1, Some 2097152, 0) /\
  ko_refs 8192 12288 (objs y1) (REpoll 777) = 1 /\ process_release_fds 65536 16777216 y1 (Some 2097152) = Ok y2 /\ ko_refs 8192 12288 (objs y2) (REpoll 777) = 0 /\
  fheap y2 !! 1048576 = Some (demo_files_of (epoll_fd 777 :: replicate 63 fd_zero)).
Proof.
  do 2 eexists. split; [vm_compute; reflexivity|]. split; [vm_compute; reflexivity|].
  split; [vm_compute; reflexivity|]. split; vm_compute; reflexivity.
Qed.
