(* ===== verification/RecordUpdate.v ===== *)
(** * Functional update of records

    A structure assignment [p->f = v] is written [p <| f := v |>].  A record type
    declares its field list once, as an instance of [Fields]; the update of one
    field is derived from it on demand. *)

From S2P Require Import Prelude.

(** The record rebuilt from its projections. *)
Class Fields (R : Type) := fields : R -> R.

Class Field {R T : Type} (proj : R -> T) := update : T -> R -> R.
Arguments update {R T} proj {_} _ _.

Ltac derive_field :=
  match goal with
  | |- @Field ?R ?T ?proj =>
      let rebuild := eval cbv delta [fields] in (@fields R _) in
      let rebuild := eval hnf in rebuild in
      match eval pattern proj in rebuild with
      | ?upd proj =>
          let u := eval cbv beta in (fun (v : T) (r : R) => upd (fun _ => v) r) in exact u
      end
  end.

#[export] Hint Extern 1 (Field _) => derive_field : typeclass_instances.

Declare Scope record_scope.
Delimit Scope record_scope with record.
Notation "r <| f := v |>" := (update f v r) (at level 12, left associativity, f at level 99) : record_scope.
Global Open Scope record_scope.
