(* ===== verification/ProcState.v ===== *)
(** * Process descriptors: registers, signal, wait and resume state

    The fields of [struct process] (src/kernel/process.h) behind signals, wait4
    and the resumption of blocked system calls, and the operations that touch
    one process only: the accessors of wait_state.c, signal_enter.c and
    saved_context.c, the resume helpers of core.c, the domain clones of
    domains.c and the x86-64 register copies of arch_task_ops.c and
    arch_signal.c.  The scheduler's view of a process ([state], [task.state])
    is [process_t] of [Runq]; the rest of the descriptor (credentials, file
    tables, address space, paths) belongs to other components.

    A pointer is its address, NULL is 0; a flag byte is a [bool]; an owned
    [kmalloc] object is an [option]. *)

From S2P Require Import Prelude RecordUpdate Runq.

Inductive process_mode_t := KERNEL_MODE | USER_MODE.
Inductive process_lifecycle_t := PROCESS_LIFECYCLE_ALIVE | PROCESS_LIFECYCLE_ZOMBIE | PROCESS_LIFECYCLE_DEAD.

#[export] Instance process_mode_eq_dec : EqDecision process_mode_t.
Proof. solve_decision. Defined.
#[export] Instance process_lifecycle_eq_dec : EqDecision process_lifecycle_t.
Proof. solve_decision. Defined.

(** ** Register files *)

(** [struct sigcontext]: the interrupted user registers. *)
Record sigcontext := {
  c_r15 : Z; c_r14 : Z; c_r13 : Z; c_r12 : Z; c_rbp : Z; c_rbx : Z; c_r11 : Z; c_r10 : Z; c_r9 : Z; c_r8 : Z;
  c_rax : Z; c_rcx : Z; c_rdx : Z; c_rsi : Z; c_rdi : Z; c_orig_rax : Z; c_rip : Z; c_cs : Z; c_rflags : Z;
  c_rsp : Z; c_ss : Z
}.

(** [arch_syscall_frame_t]: user registers captured at a system call. *)
Record arch_syscall_frame_t := {
  f_rip : Z; f_rflags : Z; f_rsp : Z; f_rbx : Z; f_rbp : Z; f_r12 : Z; f_r13 : Z; f_r14 : Z; f_r15 : Z;
  f_rdi : Z; f_rsi : Z; f_rdx : Z; f_r10 : Z; f_r8 : Z; f_r9 : Z
}.

(** [arch_task_context_t] without the control and debug registers, which none of
    the code below reads or writes. *)
Record arch_task_context_t := {
  t_rax : Z; t_rbx : Z; t_rcx : Z; t_rdx : Z; t_rsi : Z; t_rdi : Z; t_r8 : Z; t_r9 : Z; t_r10 : Z; t_r11 : Z;
  t_r12 : Z; t_r13 : Z; t_r14 : Z; t_r15 : Z; t_rsp : Z; t_rbp : Z; t_rip : Z; t_rflags : Z; t_cs : Z;
  t_ds : Z; t_es : Z; t_fs : Z; t_gs : Z; t_ss : Z
}.

(** ** The descriptor *)

(** Signal management. *)
Record sigstate := {
  signal_pending : Z; signal_mask : Z; signal_ignored : Z; signal_handlers : list Z; signal_sa_flags : list Z;
  signal_sa_mask : list Z; signal_restorer : list Z; signal_mask_saved : Z; signal_mask_saved_valid : bool;
  signal_frame_sp : Z; saved_context : option sigcontext; signal_enter_pending : bool;
  signal_last_delivered : Z; signal_defer_catchable : bool; it_real_expire_ms : Z; it_real_interval_ms : Z
}.

(** The wait4 contract of a blocked parent. *)
Record waitstate := {
  wait_status_ptr : Z; wait_blocked : bool; wait_target_pid : Z; wait_options : Z; wait_resume_child_pid : Z
}.

(** How a task blocked in the kernel goes on. *)
Record resumestate := {
  irq_frame_saved : bool; poll_resume_via_arch : bool; coop_resched_resume : bool; want_kernel_ret : bool;
  kernel_syscall_sleep : bool; kernel_sleep_interrupted : bool;
  kernel_sleep_syscall_frame : arch_syscall_frame_t; syscall_frame : arch_syscall_frame_t;
  syscall_resume_rax : Z; syscall_entry_nr : Z; syscall_block_nr : Z; syscall_frame_fresh : bool;
  syscall_interrupted : bool; poll_waiter : Z; clock_wait_armed : bool; clock_wait_deadline_ms : Z
}.

(** [stack_start] and [stack_size] are those of the process's [mm]. *)
Record proc_t := {
  pid : Z; ppid : Z; pgid : Z; sid : Z; tgid : Z; mode : process_mode_t; comm : string;
  lifecycle : process_lifecycle_t; exit_code : Z; exit_signal : Z; p_next : Z; fork_pending_child : Z;
  stack_start : Z; stack_size : Z; signals : sigstate; wait : waitstate; resume : resumestate;
  regs : arch_task_context_t
}.

#[export] Instance sigcontext_fields : Fields sigcontext := fun r => {|
  c_r15 := c_r15 r; c_r14 := c_r14 r; c_r13 := c_r13 r; c_r12 := c_r12 r;
  c_rbp := c_rbp r; c_rbx := c_rbx r; c_r11 := c_r11 r; c_r10 := c_r10 r;
  c_r9 := c_r9 r; c_r8 := c_r8 r; c_rax := c_rax r; c_rcx := c_rcx r;
  c_rdx := c_rdx r; c_rsi := c_rsi r; c_rdi := c_rdi r; c_orig_rax := c_orig_rax r;
  c_rip := c_rip r; c_cs := c_cs r; c_rflags := c_rflags r; c_rsp := c_rsp r;
  c_ss := c_ss r |}.
#[export] Instance arch_syscall_frame_t_fields : Fields arch_syscall_frame_t := fun r => {|
  f_rip := f_rip r; f_rflags := f_rflags r; f_rsp := f_rsp r; f_rbx := f_rbx r;
  f_rbp := f_rbp r; f_r12 := f_r12 r; f_r13 := f_r13 r; f_r14 := f_r14 r;
  f_r15 := f_r15 r; f_rdi := f_rdi r; f_rsi := f_rsi r; f_rdx := f_rdx r;
  f_r10 := f_r10 r; f_r8 := f_r8 r; f_r9 := f_r9 r |}.
#[export] Instance arch_task_context_t_fields : Fields arch_task_context_t := fun r => {|
  t_rax := t_rax r; t_rbx := t_rbx r; t_rcx := t_rcx r; t_rdx := t_rdx r;
  t_rsi := t_rsi r; t_rdi := t_rdi r; t_r8 := t_r8 r; t_r9 := t_r9 r;
  t_r10 := t_r10 r; t_r11 := t_r11 r; t_r12 := t_r12 r; t_r13 := t_r13 r;
  t_r14 := t_r14 r; t_r15 := t_r15 r; t_rsp := t_rsp r; t_rbp := t_rbp r;
  t_rip := t_rip r; t_rflags := t_rflags r; t_cs := t_cs r; t_ds := t_ds r;
  t_es := t_es r; t_fs := t_fs r; t_gs := t_gs r; t_ss := t_ss r |}.
#[export] Instance sigstate_fields : Fields sigstate := fun r => {|
  signal_pending := signal_pending r; signal_mask := signal_mask r; signal_ignored := signal_ignored r; signal_handlers := signal_handlers r;
  signal_sa_flags := signal_sa_flags r; signal_sa_mask := signal_sa_mask r; signal_restorer := signal_restorer r; signal_mask_saved := signal_mask_saved r;
  signal_mask_saved_valid := signal_mask_saved_valid r; signal_frame_sp := signal_frame_sp r; saved_context := saved_context r; signal_enter_pending := signal_enter_pending r;
  signal_last_delivered := signal_last_delivered r; signal_defer_catchable := signal_defer_catchable r; it_real_expire_ms := it_real_expire_ms r; it_real_interval_ms := it_real_interval_ms r |}.
#[export] Instance waitstate_fields : Fields waitstate := fun r => {|
  wait_status_ptr := wait_status_ptr r; wait_blocked := wait_blocked r; wait_target_pid := wait_target_pid r; wait_options := wait_options r;
  wait_resume_child_pid := wait_resume_child_pid r |}.
#[export] Instance resumestate_fields : Fields resumestate := fun r => {|
  irq_frame_saved := irq_frame_saved r; poll_resume_via_arch := poll_resume_via_arch r; coop_resched_resume := coop_resched_resume r; want_kernel_ret := want_kernel_ret r;
  kernel_syscall_sleep := kernel_syscall_sleep r; kernel_sleep_interrupted := kernel_sleep_interrupted r; kernel_sleep_syscall_frame := kernel_sleep_syscall_frame r; syscall_frame := syscall_frame r;
  syscall_resume_rax := syscall_resume_rax r; syscall_entry_nr := syscall_entry_nr r; syscall_block_nr := syscall_block_nr r; syscall_frame_fresh := syscall_frame_fresh r;
  syscall_interrupted := syscall_interrupted r; poll_waiter := poll_waiter r; clock_wait_armed := clock_wait_armed r; clock_wait_deadline_ms := clock_wait_deadline_ms r |}.
#[export] Instance proc_t_fields : Fields proc_t := fun r => {|
  pid := pid r; ppid := ppid r; pgid := pgid r; sid := sid r;
  tgid := tgid r; mode := mode r; comm := comm r; lifecycle := lifecycle r;
  exit_code := exit_code r; exit_signal := exit_signal r; p_next := p_next r; fork_pending_child := fork_pending_child r;
  stack_start := stack_start r; stack_size := stack_size r; signals := signals r; wait := wait r;
  resume := resume r; regs := regs r |}.

Abbreviation on_signals f p := (p <| signals := f (signals p) |>).
Abbreviation on_resume f p := (p <| resume := f (resume p) |>).

(** ** Registers *)

Definition USER_CODE_SEL : Z := 0x1B.
Definition USER_DATA_SEL : Z := 0x23.
Definition KERNEL_CODE_SEL : Z := 0x08.
Definition KERNEL_DATA_SEL : Z := 0x10.
Definition RFLAGS_IF : Z := 0x202.
Definition IR0_RFLAGS_TF : Z := 0x100.

(** [single_step] is [ir0_debug_single_step_active()]. *)
Definition ir0_rflags_sanitize_user (single_step : bool) (rflags : Z) : Z :=
  let out := Z.lor (Z.lor rflags 2) 0x200 in
  if single_step then out else Z.land out (u64 (Z.lnot IR0_RFLAGS_TF)).

Definition task_initial_user_status (single_step : bool) : Z := ir0_rflags_sanitize_user single_step RFLAGS_IF.

Definition task_set_user_segments (t : arch_task_context_t) : arch_task_context_t :=
  t <| t_cs := USER_CODE_SEL |> <| t_ss := USER_DATA_SEL |> <| t_ds := USER_DATA_SEL |> <| t_es := USER_DATA_SEL |>
    <| t_fs := USER_DATA_SEL |> <| t_gs := USER_DATA_SEL |>.

Definition task_set_kernel_segments (t : arch_task_context_t) : arch_task_context_t :=
  t <| t_cs := KERNEL_CODE_SEL |> <| t_ss := KERNEL_DATA_SEL |> <| t_ds := KERNEL_DATA_SEL |> <| t_es := KERNEL_DATA_SEL |>
    <| t_fs := KERNEL_DATA_SEL |> <| t_gs := KERNEL_DATA_SEL |>.

Definition task_cs_is_user (t : arch_task_context_t) : bool := truthy (Z.land (t_cs t) 3).

Definition task_store_sigcontext (t : arch_task_context_t) : sigcontext := {|
  c_r15 := t_r15 t; c_r14 := t_r14 t; c_r13 := t_r13 t; c_r12 := t_r12 t; c_rbp := t_rbp t; c_rbx := t_rbx t;
  c_r11 := t_r11 t; c_r10 := t_r10 t; c_r9 := t_r9 t; c_r8 := t_r8 t; c_rax := t_rax t; c_rcx := t_rcx t;
  c_rdx := t_rdx t; c_rsi := t_rsi t; c_rdi := t_rdi t; c_orig_rax := 0; c_rip := t_rip t; c_cs := t_cs t;
  c_rflags := t_rflags t; c_rsp := t_rsp t; c_ss := t_ss t |}.

Definition task_load_sigcontext (t : arch_task_context_t) (ctx : sigcontext) : arch_task_context_t := {|
  t_rax := c_rax ctx; t_rbx := c_rbx ctx; t_rcx := c_rcx ctx; t_rdx := c_rdx ctx; t_rsi := c_rsi ctx; t_rdi := c_rdi ctx;
  t_r8 := c_r8 ctx; t_r9 := c_r9 ctx; t_r10 := c_r10 ctx; t_r11 := c_r11 ctx; t_r12 := c_r12 ctx; t_r13 := c_r13 ctx;
  t_r14 := c_r14 ctx; t_r15 := c_r15 ctx; t_rsp := c_rsp ctx; t_rbp := c_rbp ctx; t_rip := c_rip ctx;
  t_rflags := c_rflags ctx; t_cs := u16 (c_cs ctx); t_ds := t_ds t; t_es := t_es t; t_fs := t_fs t; t_gs := t_gs t;
  t_ss := u16 (c_ss ctx) |}.

Definition task_apply_syscall_frame (single_step : bool) (t : arch_task_context_t) (sf : arch_syscall_frame_t) (rax : Z)
    : arch_task_context_t :=
  let rflags := ir0_rflags_sanitize_user single_step (Z.lor (f_rflags sf) 2) in
  task_set_user_segments {|
    t_rax := rax; t_rbx := f_rbx sf; t_rcx := f_rip sf; t_rdx := f_rdx sf; t_rsi := f_rsi sf; t_rdi := f_rdi sf;
    t_r8 := f_r8 sf; t_r9 := f_r9 sf; t_r10 := f_r10 sf; t_r11 := rflags; t_r12 := f_r12 sf; t_r13 := f_r13 sf;
    t_r14 := f_r14 sf; t_r15 := f_r15 sf; t_rsp := f_rsp sf; t_rbp := f_rbp sf; t_rip := f_rip sf; t_rflags := rflags;
    t_cs := t_cs t; t_ds := t_ds t; t_es := t_es t; t_fs := t_fs t; t_gs := t_gs t; t_ss := t_ss t |}.

Definition signal_fill_sigcontext_from_syscall_frame (sf : arch_syscall_frame_t) (retval : Z) : sigcontext := {|
  c_r15 := f_r15 sf; c_r14 := f_r14 sf; c_r13 := f_r13 sf; c_r12 := f_r12 sf; c_rbp := f_rbp sf; c_rbx := f_rbx sf;
  c_r11 := 0; c_r10 := f_r10 sf; c_r9 := f_r9 sf; c_r8 := f_r8 sf; c_rax := retval; c_rcx := 0; c_rdx := f_rdx sf;
  c_rsi := f_rsi sf; c_rdi := f_rdi sf; c_orig_rax := 0; c_rip := f_rip sf; c_cs := USER_CODE_SEL;
  c_rflags := (if decide (f_rflags sf = 0) then RFLAGS_IF else f_rflags sf); c_rsp := f_rsp sf; c_ss := USER_DATA_SEL |}.

Definition signal_fill_syscall_frame_from_sigcontext (ctx : sigcontext) : arch_syscall_frame_t := {|
  f_rip := c_rip ctx; f_rflags := (if decide (c_rflags ctx = 0) then RFLAGS_IF else c_rflags ctx); f_rsp := c_rsp ctx;
  f_rbx := c_rbx ctx; f_rbp := c_rbp ctx; f_r12 := c_r12 ctx; f_r13 := c_r13 ctx; f_r14 := c_r14 ctx; f_r15 := c_r15 ctx;
  f_rdi := c_rdi ctx; f_rsi := c_rsi ctx; f_rdx := c_rdx ctx; f_r10 := c_r10 ctx; f_r8 := c_r8 ctx; f_r9 := c_r9 ctx |}.

(** [None]: the context is rejected. *)
Definition signal_sigcontext_validate_and_sanitize (single_step : bool) (ctx : sigcontext) : option sigcontext :=
  if decide (c_rip ctx < 0x400000 \/ c_rip ctx > 0x7FFFFFFFFFFF \/ c_rsp ctx < 0x400000 \/ c_rsp ctx > 0x7FFFFFFFFFFF)
  then None
  else Some (ctx <| c_rflags := ir0_rflags_sanitize_user single_step (Z.lor (Z.lor (c_rflags ctx) 2) RFLAGS_IF) |>
                 <| c_cs := USER_CODE_SEL |> <| c_ss := USER_DATA_SEL |>).

Definition signal_prepare_task_handler (t : arch_task_context_t) (handler sig frame_sp : Z) : arch_task_context_t :=
  if decide (handler = 0) then t else t <| t_rsp := frame_sp |> <| t_rip := handler |> <| t_rdi := u64 (u32 sig) |>.

(** ** System-call frames *)

Definition frame_zero : arch_syscall_frame_t := {|
  f_rip := 0; f_rflags := 0; f_rsp := 0; f_rbx := 0; f_rbp := 0; f_r12 := 0; f_r13 := 0; f_r14 := 0; f_r15 := 0;
  f_rdi := 0; f_rsi := 0; f_rdx := 0; f_r10 := 0; f_r8 := 0; f_r9 := 0 |}.

Definition syscall_frame_arm_restart (sf : arch_syscall_frame_t) : arch_syscall_frame_t :=
  if decide (f_rip sf >= 2) then sf <| f_rip := f_rip sf - 2 |> else sf.

(** [(int64_t)val < 0]. *)
Definition signal_syscall_read_fd_suspicious (val : Z) : bool := bool_decide (val >= 2 ^ 63).
Definition signal_syscall_user_ptr_suspicious (val : Z) : bool := bool_decide (val >= 2 ^ 63) || bool_decide (val < 0x1000).

Definition signal_blocked_syscall_frame_sanitize (sf : arch_syscall_frame_t) (block_nr : Z) : arch_syscall_frame_t :=
  if decide (block_nr <> 0) then sf else
  if signal_syscall_read_fd_suspicious (f_rdi sf) then sf <| f_rdi := 0 |> else sf.

Definition signal_repair_sigcontext_syscall_arg (ctx_val snap_val task_val : Z) : Z :=
  if negb (signal_syscall_user_ptr_suspicious ctx_val) then ctx_val else
  if negb (signal_syscall_user_ptr_suspicious snap_val) then snap_val else
  if negb (signal_syscall_user_ptr_suspicious task_val) then task_val else ctx_val.

Definition signal_repair_sigcontext_read_fd (ctx_val snap_val task_val : Z) : Z :=
  if negb (signal_syscall_read_fd_suspicious ctx_val) then ctx_val else
  if negb (signal_syscall_read_fd_suspicious snap_val) then snap_val else
  if negb (signal_syscall_read_fd_suspicious task_val) then task_val else ctx_val.

(** The frame to resume with and its return value. *)
Definition signal_resume_blocked_syscall_frame (block_sf : arch_syscall_frame_t) (restart : bool) (block_nr : Z)
    : arch_syscall_frame_t * Z :=
  let out := signal_blocked_syscall_frame_sanitize block_sf block_nr in
  if restart then (syscall_frame_arm_restart out, block_nr) else (out, u64 (- EINTR)).

(** ** Wait state (wait_state.c) *)

Definition waitstate_zero : waitstate := {|
  wait_status_ptr := 0; wait_blocked := false; wait_target_pid := 0; wait_options := 0; wait_resume_child_pid := 0 |}.

Definition process_signal_defer_catchable_set (p : proc_t) : proc_t := on_signals (update signal_defer_catchable true) p.
Definition process_signal_defer_catchable_clear (p : proc_t) : proc_t := on_signals (update signal_defer_catchable false) p.

Definition process_wait_state_init (p : proc_t) : proc_t := p <| wait := waitstate_zero |>.

Definition process_wait_state_arm (p : proc_t) (target options status_ptr : Z) : proc_t :=
  process_signal_defer_catchable_set
    (p <| wait := {| wait_status_ptr := status_ptr; wait_blocked := true; wait_target_pid := target;
                     wait_options := options; wait_resume_child_pid := 0 |} |>).

Definition process_wait_state_clear (p : proc_t) : proc_t :=
  process_wait_state_init (process_signal_defer_catchable_clear p).

(** ** Signal delivery flags (signal_enter.c, saved_context.c) *)

Definition _NSIG : Z := 32.

Definition process_signal_enter_pending_set (p : proc_t) : proc_t := on_signals (update signal_enter_pending true) p.
Definition process_signal_enter_pending_clear (p : proc_t) : proc_t := on_signals (update signal_enter_pending false) p.
Definition process_signal_last_delivered_clear (p : proc_t) : proc_t := on_signals (update signal_last_delivered 0) p.

Definition process_signal_last_delivered_set (p : proc_t) (sig : Z) : proc_t :=
  if decide (sig < 1 \/ sig >= _NSIG) then p else on_signals (update signal_last_delivered (u8 sig)) p.

Definition process_saved_context_present (p : proc_t) : bool :=
  match saved_context (signals p) with Some _ => true | None => false end.

Definition process_saved_context_clear (p : proc_t) : proc_t := on_signals (update saved_context None) p.

(** [None]: a context is already armed, the new one is freed. *)
Definition process_saved_context_attach (p : proc_t) (ctx : sigcontext) : option proc_t :=
  if process_saved_context_present p then None else Some (on_signals (update saved_context (Some ctx)) p).

(** ** Blocked system calls (core.c, signal_enter.c) *)

Definition IR0_CLOCK_WAIT_DISARMED : Z := U64_MAX.
Definition IR0_USER_RIP_LO : Z := 0x00400000.
Definition IR0_USER_RIP_HI : Z := 0x00007FFFFFFFFFFF.

Definition process_rip_in_user_range (rip : Z) : bool :=
  bool_decide (rip >= IR0_USER_RIP_LO) && bool_decide (rip <= IR0_USER_RIP_HI).

Definition process_kernel_sleep_interrupted_clear (p : proc_t) : proc_t :=
  on_resume (fun r => r <| kernel_sleep_interrupted := false |> <| kernel_sleep_syscall_frame := frame_zero |>) p.

Definition process_kernel_sleep_capture_syscall_frame (p : proc_t) : proc_t :=
  if negb (syscall_frame_fresh (resume p)) then p else
  on_resume (fun r =>
    let f := syscall_frame r in
    let nr := syscall_entry_nr r in
    r <| kernel_sleep_syscall_frame :=
           (if bool_decide (nr = 0) && bool_decide (f_rdi f >= 2 ^ 63) then f <| f_rdi := 0 |> else f) |>
      <| syscall_block_nr := nr |>) p.

Definition process_kernel_sleep_interrupted_backup_frame (p : proc_t) : proc_t :=
  if coop_resched_resume (resume p) then p else
  if kernel_syscall_sleep (resume p) then on_resume (update kernel_sleep_interrupted true) p else
  if syscall_frame_fresh (resume p) then
    on_resume (update kernel_sleep_interrupted true) (process_kernel_sleep_capture_syscall_frame p)
  else p.

Definition process_clear_in_thread_syscall_block (p : proc_t) : proc_t :=
  let p := on_resume (fun r => r <| irq_frame_saved := false |> <| poll_resume_via_arch := false |>
    <| coop_resched_resume := false |> <| want_kernel_ret := false |> <| kernel_syscall_sleep := false |>) p in
  on_resume (update syscall_block_nr 0) (process_kernel_sleep_interrupted_clear p).

Definition process_reset_blocked_syscall_state (p : proc_t) : proc_t :=
  let p := on_resume (fun r => r <| irq_frame_saved := false |> <| poll_resume_via_arch := false |>
    <| coop_resched_resume := false |> <| want_kernel_ret := false |> <| kernel_syscall_sleep := false |>) p in
  let p := process_kernel_sleep_interrupted_clear p in
  let p := on_resume (fun r => r <| syscall_resume_rax := 0 |> <| syscall_entry_nr := 0 |> <| syscall_block_nr := 0 |>
    <| syscall_frame_fresh := false |> <| syscall_interrupted := false |>) p in
  on_resume (fun r => r <| poll_waiter := 0 |> <| clock_wait_armed := false |>
    <| clock_wait_deadline_ms := IR0_CLOCK_WAIT_DISARMED |>) (process_wait_state_init p).

Definition process_arm_kernel_syscall_sleep (p : proc_t) : proc_t :=
  if decide (mode p <> USER_MODE) then p else
  let p := on_resume (update kernel_syscall_sleep true) p in
  let r := resume p in
  let p := if syscall_frame_fresh r then process_kernel_sleep_capture_syscall_frame p
           else if bool_decide (syscall_block_nr r <> 0) && bool_decide (syscall_block_nr r <> syscall_entry_nr r)
           then on_resume (fun r => r <| kernel_sleep_syscall_frame := frame_zero |> <| syscall_block_nr := 0 |>) p
           else p in
  if process_rip_in_user_range (t_rip (regs p)) then on_resume (update want_kernel_ret true) p
  else on_resume (update want_kernel_ret false) (p <| regs := task_set_kernel_segments (regs p) |>).

Definition process_after_task_save (p : proc_t) : proc_t :=
  if decide (mode p <> USER_MODE \/ want_kernel_ret (resume p) = false) then p else
  if process_rip_in_user_range (t_rip (regs p)) then p else
  on_resume (update want_kernel_ret false) (p <| regs := task_set_kernel_segments (regs p) |>).

Definition process_restore_user_task_segments (p : proc_t) : proc_t :=
  if decide (mode p <> USER_MODE) then p else
  let p := on_resume (fun r => r <| want_kernel_ret := false |> <| kernel_syscall_sleep := false |>) p in
  p <| regs := task_set_user_segments (regs p) |>.

Definition process_apply_syscall_frame_to_task (single_step : bool) (p : proc_t) (rax : Z) : proc_t :=
  p <| regs := task_apply_syscall_frame single_step (regs p) (syscall_frame (resume p)) rax |>.

Definition process_arm_blocked_syscall_resume (single_step : bool) (p : proc_t) (rax : Z) : proc_t :=
  if decide (mode p <> USER_MODE) then p else
  on_resume (fun r => r <| syscall_resume_rax := rax |> <| irq_frame_saved := true |>)
    (process_apply_syscall_frame_to_task single_step p rax).

Definition process_arm_coop_resched_resume (single_step : bool) (p : proc_t) (rax : Z) : proc_t :=
  if decide (mode p <> USER_MODE) then p else
  on_resume (fun r => r <| syscall_resume_rax := rax |> <| coop_resched_resume := true |> <| irq_frame_saved := true |>)
    (process_apply_syscall_frame_to_task single_step p rax).

(** [KERNEL_CS] with a user instruction pointer: [kernel_ret] would jump to user
    space with ring-0 privileges. *)
Definition process_cs_rip_kernel_ret_bad (cs rip : Z) : bool :=
  if decide (Z.land cs 3 <> 0) then false else
  if decide (rip < IR0_USER_RIP_LO \/ rip > IR0_USER_RIP_HI) then false else true.

Definition process_task_kernel_ret_rip_bad (p : proc_t) : bool := process_cs_rip_kernel_ret_bad (t_cs (regs p)) (t_rip (regs p)).

(** ** Domain clones (domains.c) *)

(** [process_signals_clone]: the child [d] takes dispositions and mask of [s]. *)
Definition process_signals_clone (d s : proc_t) : proc_t :=
  let d := on_signals (fun x => {|
    signal_pending := 0; signal_mask := signal_mask (signals s); signal_ignored := signal_ignored (signals s);
    signal_handlers := signal_handlers (signals s); signal_sa_flags := signal_sa_flags (signals s);
    signal_sa_mask := signal_sa_mask (signals s); signal_restorer := signal_restorer (signals s);
    signal_mask_saved := 0; signal_mask_saved_valid := false; signal_frame_sp := 0; saved_context := None;
    signal_enter_pending := false; signal_last_delivered := 0; signal_defer_catchable := false;
    it_real_expire_ms := 0; it_real_interval_ms := 0 |}) d in
  process_kernel_sleep_interrupted_clear d.

(** [process_rel_init_child] without the scheduler's fields, which the caller
    writes into its own process memory. *)
Definition process_rel_init_child (child parent : proc_t) (child_pid : Z) : proc_t :=
  child <| pid := child_pid |> <| tgid := child_pid |> <| ppid := pid parent |> <| sid := sid parent |>
        <| pgid := pgid parent |> <| mode := mode parent |>.
