(* ===== verification/Signal.v ===== *)
(** * Signals (src/kernel/lib/signals.c, process/signals.c and the signal system calls)

    Dispositions, masks and pending sets of one process, the choice of the
    handler stack, the delivery engine [handle_signals] and the return from a
    handler.  What a pending signal does to the process table ([process_exit],
    stopping) is the result of [handle_signals]; [ProcTable] carries it out.

    The user stack is an interface, [SigMem]: storing and loading a
    [struct sigframe] and a word in the address space of the process, each of
    which can fail on an unmapped page.  Signal numbers index arrays of 32
    entries; every access below is behind a range test of the source. *)

From S2P Require Import Prelude RecordUpdate Runq CopyUser ProcState.

(** ** Signal numbers and flags *)

Definition SIGHUP : Z := 1.
Definition SIGINT : Z := 2.
Definition SIGQUIT : Z := 3.
Definition SIGILL : Z := 4.
Definition SIGTRAP : Z := 5.
Definition SIGABRT : Z := 6.
Definition SIGBUS : Z := 7.
Definition SIGFPE : Z := 8.
Definition SIGKILL : Z := 9.
Definition SIGUSR1 : Z := 10.
Definition SIGSEGV : Z := 11.
Definition SIGUSR2 : Z := 12.
Definition SIGPIPE : Z := 13.
Definition SIGALRM : Z := 14.
Definition SIGTERM : Z := 15.
Definition SIGCHLD : Z := 17.
Definition SIGCONT : Z := 18.
Definition SIGSTOP : Z := 19.

Definition SIG_DFL : Z := 0.
Definition SIG_IGN : Z := 1.
Definition SA_NODEFER : Z := 0x40000000.
Definition SA_RESTORER : Z := 0x04000000.
Definition SA_RESTART : Z := 0x10000000.
Definition SIG_BLOCK : Z := 0.
Definition SIG_UNBLOCK : Z := 1.
Definition SIG_SETMASK : Z := 2.

(** [1U << sig] and [x & ~m] on [uint32_t]. *)
Definition SIGNAL_MASK (sig : Z) : Z := u32 (Z.shiftl 1 sig).
Definition bits_clear (x m : Z) : Z := Z.land x (u32 (Z.lnot m)).

Definition pending (p : proc_t) (sig : Z) : bool := flag_set (signal_pending (signals p)) (SIGNAL_MASK sig).
Definition masked (p : proc_t) (sig : Z) : bool := flag_set (signal_mask (signals p)) (SIGNAL_MASK sig).
Definition ignored (p : proc_t) (sig : Z) : bool := flag_set (signal_ignored (signals p)) (SIGNAL_MASK sig).
Definition handler_of (p : proc_t) (sig : Z) : Z := signal_handlers (signals p) !!! Z.to_nat sig.

(** [handler && handler != SIG_DFL && handler != SIG_IGN] *)
Definition is_caught (h : Z) : bool := bool_decide (h <> SIG_DFL) && bool_decide (h <> SIG_IGN).

Definition pending_clear (sig : Z) (p : proc_t) : proc_t :=
  on_signals (fun s => s <| signal_pending := bits_clear (signal_pending s) (SIGNAL_MASK sig) |>) p.
Definition pending_raise (sig : Z) (p : proc_t) : proc_t :=
  on_signals (fun s => s <| signal_pending := Z.lor (signal_pending s) (SIGNAL_MASK sig) |>) p.
Definition handler_reset (sig : Z) (p : proc_t) : proc_t :=
  on_signals (fun s => s <| signal_handlers := <[Z.to_nat sig := SIG_DFL]> (signal_handlers s) |>) p.

(** [is_user_address] on a pointer-sized object: the range test of copy_user.c
    without the mapping check. *)
Definition is_user_pointer (addr : Z) : bool :=
  bool_decide (addr <> 0) && bool_decide (addr <= u64 (addr + 8)) && mm_user_va_ok addr 8.

(** ** Masks while a handler runs *)

Definition signals_apply_handler_mask (p : proc_t) (sig sa_flags : Z) : proc_t :=
  if decide (sig < 1 \/ sig >= _NSIG) then p else
  let p := if signal_mask_saved_valid (signals p) then p
           else on_signals (fun s => s <| signal_mask_saved := signal_mask s |> <| signal_mask_saved_valid := true |>) p in
  let p := on_signals (fun s => s <| signal_mask := Z.lor (signal_mask s) (signal_sa_mask s !!! Z.to_nat sig) |>) p in
  if flag_set sa_flags SA_NODEFER then p
  else on_signals (fun s => s <| signal_mask := Z.lor (signal_mask s) (SIGNAL_MASK sig) |>) p.

Definition signals_restore_handler_mask (p : proc_t) : proc_t :=
  if negb (signal_mask_saved_valid (signals p)) then p
  else on_signals (fun s => s <| signal_mask := signal_mask_saved s |> <| signal_mask_saved_valid := false |>) p.

Definition signals_on_sigreturn (p : proc_t) : proc_t :=
  on_signals (update signal_frame_sp 0) (signals_restore_handler_mask p).

(** [sizeof(struct sigframe)]: two words, 21 registers, the mask. *)
Definition SIGFRAME_SIZE : Z := 192.

(** [ir0_console_after_signal_abandon] resynchronises the console input. *)
Definition signals_try_abandon_sigframe (p : proc_t) : proc_t :=
  let frame_sp := signal_frame_sp (signals p) in
  if decide (frame_sp = 0) then p else
  let usp := f_rsp (syscall_frame (resume p)) in
  if decide (usp <> 0 /\ usp <= u64 (frame_sp + SIGFRAME_SIZE + 128)) then p else
  signals_on_sigreturn (process_signal_enter_pending_clear (process_saved_context_clear p)).

(** ** Dispositions *)

Definition signals_has_user_handler (p : proc_t) (sig : Z) : bool :=
  if decide (sig < 1 \/ sig >= _NSIG) then false else
  if ignored p sig then false else
  if masked p sig then false else
  let handler := handler_of p sig in
  if negb (is_caught handler) then false else
  if bool_decide (mode p = USER_MODE) && negb (is_user_pointer handler) then false else true.

Definition process_signal_is_default_fatal (p : proc_t) (sig : Z) : bool :=
  if decide (sig = SIGKILL) then true else
  if decide (sig <> SIGTERM /\ sig <> SIGHUP /\ sig <> SIGINT /\ sig <> SIGQUIT /\ sig <> SIGUSR1 /\ sig <> SIGUSR2 /\
             sig <> SIGSEGV /\ sig <> SIGFPE /\ sig <> SIGILL /\ sig <> SIGBUS /\ sig <> SIGABRT /\ sig <> SIGALRM /\
             sig <> SIGPIPE) then false else
  if ignored p sig then false else
  negb (is_caught (handler_of p sig)).

Definition signals_pause_should_interrupt (p : proc_t) : bool :=
  if decide (signal_pending (signals p) = 0) then false else
  if pending p SIGKILL then true else
  if pending p SIGTERM && negb (ignored p SIGTERM) && negb (signals_has_user_handler p SIGTERM) then true else
  if pending p SIGHUP && negb (ignored p SIGHUP) && negb (signals_has_user_handler p SIGHUP) then true else
  truthy (bits_clear (signal_pending (signals p)) (signal_mask (signals p))).

Definition signals_should_handle_on_run (p : proc_t) : bool :=
  if decide (signal_pending (signals p) = 0) then false else
  if truthy (bits_clear (signal_pending (signals p)) (signal_mask (signals p))) then true else
  signals_pause_should_interrupt p.

Definition no_handlers : list Z := replicate 32 0.

Definition signals_reset_on_exec (p : proc_t) : proc_t :=
  on_signals (fun s => s <| signal_pending := 0 |> <| signal_mask := 0 |> <| signal_ignored := 0 |>
      <| signal_mask_saved := 0 |> <| signal_mask_saved_valid := false |> <| signal_frame_sp := 0 |>
      <| it_real_expire_ms := 0 |> <| it_real_interval_ms := 0 |>
      <| signal_handlers := no_handlers |> <| signal_sa_flags := no_handlers |> <| signal_sa_mask := no_handlers |>
      <| signal_restorer := no_handlers |>)
    (process_saved_context_clear p).

(** The process is the current one; the result is the return value. *)
Definition register_signal_handler (p : proc_t) (signal handler : Z) : proc_t * Z :=
  if decide (signal < 1 \/ signal >= _NSIG) then (p, -1) else
  if decide (signal = SIGKILL \/ signal = SIGSTOP) then (p, -1) else
  if bool_decide (mode p = USER_MODE) && is_caught handler && negb (is_user_pointer handler) then (p, -1) else
  let p := on_signals (fun s => s <| signal_handlers := <[Z.to_nat signal := handler]> (signal_handlers s) |>) p in
  if decide (handler = SIG_IGN) then
    (on_signals (fun s => s <| signal_ignored := Z.lor (signal_ignored s) (SIGNAL_MASK signal) |>
                            <| signal_pending := bits_clear (signal_pending s) (SIGNAL_MASK signal) |>) p, 0)
  else
    (on_signals (fun s => s <| signal_ignored := bits_clear (signal_ignored s) (SIGNAL_MASK signal) |>) p, 0).

Definition signal_ignore (p : proc_t) (signal : Z) : proc_t * Z :=
  if decide (signal < 1 \/ signal >= _NSIG) then (p, -1) else
  if decide (signal = SIGKILL \/ signal = SIGSTOP) then (p, -1) else
  register_signal_handler p signal SIG_IGN.

(** ** Signal system calls

    A user buffer is [None] for NULL and [Some None] when the copy faults. *)

(** [struct sigaction] as the system call reads it. *)
Record user_sigaction := { sa_handler : Z; sa_flags : Z; sa_restorer : Z; sa_mask : Z }.

Definition SIGSET_SIZE : Z := 128.

Definition sys_rt_sigaction (p : proc_t) (signum : Z) (act : option (option user_sigaction)) (oldact : option bool)
    (sigsetsize : Z) : proc_t * Z :=
  if decide (signum < 1 \/ signum >= _NSIG) then (p, - EINVAL) else
  if decide (signum = SIGKILL \/ signum = SIGSTOP) then (p, - EINVAL) else
  if decide (sigsetsize <> SIGSET_SIZE /\ sigsetsize <> 8) then (p, - EINVAL) else
  match oldact with
  | Some false => (p, - EFAULT)
  | _ =>
      match act with
      | None => (p, 0)
      | Some None => (p, - EFAULT)
      | Some (Some a) =>
          let '(p, r) := register_signal_handler p signum (sa_handler a) in
          if decide (r <> 0) then (p, - EFAULT) else
          let i := Z.to_nat signum in
          (on_signals (fun s => s <| signal_sa_mask := <[i := u32 (sa_mask a)]> (signal_sa_mask s) |>
             <| signal_sa_flags := <[i := u32 (sa_flags a)]> (signal_sa_flags s) |>
             <| signal_restorer := <[i := if flag_set (sa_flags a) SA_RESTORER then sa_restorer a else 0]> (signal_restorer s) |>) p, 0)
      end
  end.

Definition sys_rt_sigprocmask (p : proc_t) (how : Z) (set : option (option Z)) (oldset : option bool) (sigsetsize : Z)
    : proc_t * Z :=
  if decide (sigsetsize <> SIGSET_SIZE /\ sigsetsize <> 8) then (p, - EINVAL) else
  match oldset with
  | Some false => (p, - EFAULT)
  | _ =>
      match set with
      | None => (p, 0)
      | Some None => (p, - EFAULT)
      | Some (Some bits) =>
          let newmask := u32 bits in
          if decide (how = SIG_BLOCK) then
            (on_signals (fun s => s <| signal_mask := Z.lor (signal_mask s) newmask |>) p, 0)
          else if decide (how = SIG_UNBLOCK) then
            (on_signals (fun s => s <| signal_mask := bits_clear (signal_mask s) newmask |>) p, 0)
          else if decide (how = SIG_SETMASK) then (on_signals (update signal_mask newmask) p, 0)
          else (p, - EINVAL)
      end
  end.

(** ** The handler stack *)

Definition USER_STACK_TOP : Z := 0x7FFFF000.
Definition USER_STACK_BASE : Z := USER_STACK_TOP - 0x100000.
Definition SIGNAL_HANDLER_TOP_MARGIN : Z := 0x4000.

(** The stack of the process, or the default one. *)
Definition stack_bounds (p : proc_t) : Z * Z :=
  let lo := stack_start p in
  let hi := u64 (lo + stack_size p) in
  if decide (lo = 0 \/ hi <= lo) then (USER_STACK_BASE, USER_STACK_TOP) else (lo, hi).

Definition signal_sp_in_stack (p : proc_t) (sp : Z) : bool :=
  if decide (sp = 0) then false else
  let '(lo, hi) := stack_bounds p in
  bool_decide (sp >= u64 (lo + 16)) && bool_decide (sp < hi).

Definition align16 (x : Z) : Z := Z.land x (u64 (Z.lnot 0xF)).

(** The handler's stack pointer and the address of its frame; [None] is the
    return value 0. *)
Definition signal_pick_handler_sp (p : proc_t) (saved_sp : Z) : option (Z * Z) :=
  let '(stack_lo, stack_hi) := stack_bounds p in
  let saved_sp := align16 saved_sp in
  let min_sp := u64 (stack_lo + 2048) in
  let saved_sp := if signal_sp_in_stack p saved_sp then saved_sp else 0 in
  let user_sp := saved_sp in
  let user_sp := if decide (user_sp < SIGFRAME_SIZE + 8) then 0 else user_sp in
  let user_sp := if decide (user_sp <> 0 /\ user_sp > u64 (stack_hi - SIGNAL_HANDLER_TOP_MARGIN)) then 0 else user_sp in
  let finish user_sp :=
    let frame_addr := u64 (user_sp - SIGFRAME_SIZE) in
    let user_sp := u64 (frame_addr - 8) in
    if decide (user_sp < min_sp \/ u64 (frame_addr + SIGFRAME_SIZE) > stack_hi) then None else
    if decide (user_sp < 0x400000 \/ user_sp > 0x7FFFFFFFFFFF) then None else
    Some (user_sp, frame_addr) in
  if decide (user_sp = 0 \/ user_sp < min_sp) then
    let margin := SIGNAL_HANDLER_TOP_MARGIN in
    let margin := if decide (margin + SIGFRAME_SIZE + 8 + 2048 > u64 (stack_hi - stack_lo))
                  then u64 (stack_hi - stack_lo) / 4 else margin in
    let user_sp := align16 (u64 (stack_hi - margin)) in
    if decide (user_sp < u64 (SIGFRAME_SIZE + 8 + min_sp)) then None else finish user_sp
  else if decide (user_sp < SIGFRAME_SIZE + 8) then None else finish user_sp.

(** ** Signal frames on the user stack *)

Record sigframe := { sf_handler : Z; sf_signum : Z; sf_ctx : sigcontext; sf_oldmask : Z }.

(** [copy_to_user_region_in_directory] and the checked [copy_from_user]: a store
    that fails half-way leaves what it has written. *)
Class SigMem (M : Type) := {
  store_frame : M -> Z -> sigframe -> M * bool;
  store_word : M -> Z -> Z -> M * bool;
  load_frame : M -> Z -> option sigframe
}.

(** What is stored is loaded again, also after the word below it is written. *)
Class SigMemLaws (M : Type) `{!SigMem M} := {
  load_stored : forall m a f m1 b w m2, store_frame m a f = (m1, true) -> store_word m1 b w = (m2, true) ->
    b + 8 <= a -> load_frame m2 a = Some f
}.

Section deliver.
Context {M : Type} `{!SigMem M}.

(** [single_step]: see [ProcState]; [kmalloc_ok sig]: the context buffer for
    [sig] can be allocated; [kernel_call]: the code a kernel-mode handler runs. *)
Context (single_step : bool) (kmalloc_ok : Z -> bool) (kernel_call : Z -> Z -> proc_t -> proc_t).

Definition signal_rip_is_registered_handler (p : proc_t) (rip : Z) : bool :=
  if decide (rip < 0x1000) then false
  else existsb (fun i => let h := handler_of p (Z.of_nat i) in is_caught h && bool_decide (h = rip)) (seq 1 31).

Definition signal_delivery_blocked_nested (p : proc_t) : bool :=
  process_saved_context_present p || signal_enter_pending (signals p).

Definition is_fault_signal (sig : Z) : bool :=
  bool_decide (sig = SIGSEGV) || bool_decide (sig = SIGBUS) || bool_decide (sig = SIGILL) || bool_decide (sig = SIGFPE).

(** [signal_pending &= ~mask; exit_signal = sig], then [process_exit(0)]. *)
Definition exit_with (p : proc_t) (sig : Z) : proc_t := pending_clear sig p <| exit_signal := sig |>.

(** The interrupted context as [handle_signals] reconstructs it. *)
Definition interrupted_context (p : proc_t) : sigcontext :=
  let r := resume p in
  let ctx :=
    if kernel_syscall_sleep r then
      signal_fill_sigcontext_from_syscall_frame
        (signal_blocked_syscall_frame_sanitize (kernel_sleep_syscall_frame r) (syscall_block_nr r)) (u64 (- EINTR))
    else if syscall_frame_fresh r then signal_fill_sigcontext_from_syscall_frame (syscall_frame r) (u64 (- EINTR))
    else task_store_sigcontext (regs p) in
  let '(snap_rdi, snap_rsi) :=
    if kernel_syscall_sleep r then (f_rdi (kernel_sleep_syscall_frame r), f_rsi (kernel_sleep_syscall_frame r))
    else if syscall_frame_fresh r then (f_rdi (syscall_frame r), f_rsi (syscall_frame r)) else (0, 0) in
  let ctx := ctx <| c_rdi := signal_repair_sigcontext_read_fd (c_rdi ctx) snap_rdi (t_rdi (regs p)) |> in
  if decide (syscall_block_nr r = 0 \/ syscall_entry_nr r = 0)
  then ctx <| c_rsi := signal_repair_sigcontext_syscall_arg (c_rsi ctx) snap_rsi (t_rsi (regs p)) |>
  else ctx.

(** How one signal of the delivery loop ends: next signal, out of the loop, or
    [process_exit(0)] of the process as given. *)
Inductive deliver_step :=
| DContinue (p : proc_t) (m : M)
| DBreak (p : proc_t) (m : M)
| DExit (p : proc_t).

(** A fault signal that cannot be delivered kills, any other stays pending. *)
Definition undeliverable (p : proc_t) (m : M) (sig : Z) : deliver_step :=
  if is_fault_signal sig then DExit (exit_with p sig) else DContinue p m.

(** The task and its system-call frame are pointed at the handler. *)
Definition enter_handler (p : proc_t) (handler sig user_sp : Z) : proc_t :=
  let p := on_signals (update signal_frame_sp user_sp) p in
  let p := p <| regs := signal_prepare_task_handler (regs p) handler sig user_sp |> in
  let p := process_kernel_sleep_interrupted_backup_frame p in
  let p := on_resume (fun r => r <| syscall_frame :=
      (let f := syscall_frame r in
       f <| f_rip := handler |> <| f_rsp := user_sp |> <| f_rdi := u64 (u32 sig) |> <| f_rsi := 0 |> <| f_rdx := 0 |>
         <| f_rflags := (if decide (f_rflags f = 0) then task_initial_user_status single_step else f_rflags f) |>) |>) p in
  let p := on_resume (update want_kernel_ret false) p in
  let p := process_apply_syscall_frame_to_task single_step p 0 in
  let p := on_resume (update syscall_frame_fresh false) p in
  let p := signals_apply_handler_mask p sig (signal_sa_flags (signals p) !!! Z.to_nat sig) in
  let p := process_signal_last_delivered_set (process_signal_enter_pending_set p) sig in
  pending_clear sig p.

Definition arm_user_handler (p : proc_t) (m : M) (handler sig : Z) : deliver_step :=
  if signal_delivery_blocked_nested p then undeliverable p m sig else
  if negb (kmalloc_ok sig) then DContinue (pending_clear sig (handler_reset sig p)) m else
  let ctx := interrupted_context p in
  if decide (c_rip ctx < 0x400000 \/ c_rip ctx > 0x7FFFFFFFFFFF) then DContinue p m else
  if decide (c_rsp ctx < 0x400000 \/ c_rsp ctx > 0x7FFFFFFFFFFF) then DContinue p m else
  if signal_rip_is_registered_handler p (c_rip ctx) then undeliverable p m sig else
  match process_saved_context_attach p ctx with
  | None => undeliverable p m sig
  | Some p =>
      match signal_pick_handler_sp p (c_rsp ctx) with
      | None => DContinue (pending_clear sig (handler_reset sig (process_saved_context_clear p))) m
      | Some (user_sp, frame_addr) =>
          let restorer := signal_restorer (signals p) !!! Z.to_nat sig in
          if decide (restorer = 0 \/ is_user_pointer restorer = false) then DBreak (process_saved_context_clear p) m else
          let frame := {| sf_handler := handler; sf_signum := sig; sf_ctx := ctx; sf_oldmask := signal_mask (signals p) |} in
          let '(m, ok) := store_frame m frame_addr frame in
          if negb ok then DBreak (process_saved_context_clear p) m else
          let '(m, ok) := store_word m user_sp restorer in
          if negb ok then DBreak (process_saved_context_clear p) m else
          DContinue (enter_handler p handler sig user_sp) m
      end
  end.

(** The body of the delivery loop. *)
Definition deliver_signal (p : proc_t) (m : M) (sig : Z) : deliver_step :=
  if negb (pending p sig) then DContinue p m else
  if ignored p sig then DContinue (pending_clear sig p) m else
  if masked p sig then DContinue p m else
  if bool_decide (sig = SIGCHLD) && wait_blocked (wait p) then DContinue p m else
  if bool_decide (sig = SIGCHLD) && bool_decide (comm p = "run"%string) then DContinue (pending_clear SIGCHLD p) m else
  let handler := handler_of p sig in
  if negb (is_caught handler) then DContinue p m else
  if signal_defer_catchable (signals p) then DContinue p m else
  if is_user_pointer handler then
    (if decide (mode p = USER_MODE) then arm_user_handler p m handler sig
     else DContinue (kernel_call handler sig (pending_clear sig p)) m)
  else DContinue (pending_clear sig (handler_reset sig p)) m.

Fixpoint deliver_loop (n : nat) (p : proc_t) (m : M) (sig : Z) : deliver_step :=
  match n with
  | O => DContinue p m
  | S n' => match deliver_signal p m sig with
            | DContinue p m => deliver_loop n' p m (sig + 1)
            | e => e
            end
  end.

(** How [handle_signals] ends: it returned, with the scheduler state of the
    process; the process stopped; or [process_exit code] of the process. *)
Inductive sig_end :=
| SigReturn (p : proc_t) (st : process_state_t) (m : M)
| SigStop (p : proc_t)
| SigExit (p : proc_t) (code : Z).

(** The part of [process_signal_default_kill] that runs when the victim is the
    current process. *)
Definition default_kill_self (p : proc_t) (st : process_state_t) (sig : Z) : option proc_t :=
  if decide (st = PROCESS_ZOMBIE) then None else
  if negb (process_signal_is_default_fatal p sig) then None else Some (exit_with p sig).

(** Error signals: terminate unless a user handler is registered. *)
Definition error_signal (p : proc_t) (st : process_state_t) (sig : Z) : option proc_t :=
  if negb (pending p sig) then None else
  if signals_has_user_handler p sig then None else
  match default_kill_self p st sig with Some p' => Some p' | None => Some (exit_with p sig) end.

(** SIGINT, SIGHUP and SIGQUIT: drop when ignored, die when not caught. *)
Definition term_signal (p : proc_t) (sig : Z) : proc_t + proc_t :=
  if negb (pending p sig) then inl p else
  if ignored p sig then inl (pending_clear sig p) else
  if signals_has_user_handler p sig then inl p else inr (exit_with p sig).

Definition pipe_signal (p : proc_t) : proc_t + proc_t :=
  if negb (pending p SIGPIPE) then inl p else
  if ignored p SIGPIPE then inl (pending_clear SIGPIPE p) else
  if masked p SIGPIPE then inl p else
  if signals_has_user_handler p SIGPIPE then inl p else inr (exit_with p SIGPIPE).

Definition cont_signal (p : proc_t) (st : process_state_t) : proc_t * process_state_t :=
  if negb (pending p SIGCONT) then (p, st) else
  (pending_clear SIGCONT p, if decide (st = PROCESS_BLOCKED) then PROCESS_READY else st).

(** [handle_signals] for the current process [p] in scheduler state [st]. *)
Definition handle_signals (p : proc_t) (st : process_state_t) (m : M) : sig_end :=
  if decide (signal_pending (signals p) = 0) then SigReturn p st m else
  if pending p SIGKILL then SigExit (pending_clear SIGKILL p) (-1) else
  if pending p SIGSTOP then SigStop (pending_clear SIGSTOP p) else
  match error_signal p st SIGSEGV with Some p => SigExit p 0 | None =>
  match error_signal p st SIGFPE with Some p => SigExit p 0 | None =>
  match error_signal p st SIGILL with Some p => SigExit p 0 | None =>
  match error_signal p st SIGBUS with Some p => SigExit p 0 | None =>
  if pending p SIGTERM && ignored p SIGTERM then SigReturn (pending_clear SIGTERM p) st m else
  if pending p SIGTERM && negb (signals_has_user_handler p SIGTERM) then SigExit (exit_with p SIGTERM) 0 else
  match term_signal p SIGINT with inr p => SigExit p 0 | inl p =>
  match term_signal p SIGHUP with inr p => SigExit p 0 | inl p =>
  match term_signal p SIGQUIT with inr p => SigExit p 0 | inl p =>
  if pending p SIGABRT then SigExit (exit_with p SIGABRT) 0 else
  match pipe_signal p with inr p => SigExit p 0 | inl p =>
  let '(p, st) := cont_signal p st in
  match deliver_loop 31 p m 1 with
  | DContinue p m | DBreak p m => SigReturn p st m
  | DExit p => SigExit p 0
  end end end end end end end end end.

(** The result, and whether a handler has been armed. *)
Definition signals_prepare_user_return (p : proc_t) (st : process_state_t) (m : M) : sig_end * bool :=
  if decide (mode p <> USER_MODE) then (SigReturn p st m, false) else
  if negb (signals_should_handle_on_run p) then (SigReturn p st m, false) else
  match handle_signals p st m with
  | SigReturn p st m => (SigReturn p st m, signal_enter_pending (signals p) && process_saved_context_present p)
  | e => (e, false)
  end.

(** ** Return from a handler *)

(** How [sys_sigreturn] ends: it returned a value to the system-call path, or it
    went to user mode with the registers of the process. *)
Inductive sigreturn_end :=
| SrReturn (e : sig_end) (ret : Z)
| SrUser (p : proc_t).

(** [sys_sigreturn] after a handler that interrupted a blocked call. *)
Definition resume_interrupted_call (p : proc_t) (sf : arch_syscall_frame_t) (rax : Z) : proc_t :=
  let p := on_resume (update syscall_frame sf) p in
  let p := process_apply_syscall_frame_to_task single_step p rax in
  let p := on_resume (fun r => r <| syscall_resume_rax := rax |> <| syscall_frame_fresh := true |>
    <| irq_frame_saved := true |> <| coop_resched_resume := false |> <| want_kernel_ret := false |>
    <| kernel_syscall_sleep := false |>) p in
  let p := process_kernel_sleep_interrupted_clear p in
  let p := process_signal_last_delivered_clear (process_signal_enter_pending_clear p) in
  p <| regs := task_set_user_segments (regs p) |>.

(** [sys_sigreturn] once context and mask are settled. *)
Definition sigreturn_resume (p : proc_t) (ctx : sigcontext) : proc_t :=
  if kernel_sleep_interrupted (resume p) then
    let delivered := signal_last_delivered (signals p) in
    let restart := negb (bool_decide (delivered > 0) && bool_decide (delivered < _NSIG) &&
      negb (flag_set (signal_sa_flags (signals p) !!! Z.to_nat delivered) SA_RESTART)) in
    let '(sf, rax) := signal_resume_blocked_syscall_frame (kernel_sleep_syscall_frame (resume p)) restart
                        (if restart then syscall_block_nr (resume p) else 0) in
    resume_interrupted_call p sf rax
  else
    let p := p <| regs := task_load_sigcontext (regs p) ctx |> in
    let p := on_resume (update syscall_frame (signal_fill_syscall_frame_from_sigcontext ctx)) p in
    let p := process_apply_syscall_frame_to_task single_step p (c_rax ctx) in
    let p := process_restore_user_task_segments p in
    let p := on_resume (fun r => r <| irq_frame_saved := false |> <| coop_resched_resume := false |>
      <| want_kernel_ret := false |> <| syscall_frame_fresh := false |>) p in
    process_signal_last_delivered_clear (process_signal_enter_pending_clear p).

(** [ctx_arg] is the context argument when its buffer is valid. *)
Definition sys_sigreturn (p : proc_t) (st : process_state_t) (m : M) (ctx_arg : option sigcontext) : sigreturn_end :=
  if decide (mode p <> USER_MODE) then SrReturn (SigReturn p st m) 0 else
  let user_sp := f_rsp (syscall_frame (resume p)) in
  let user_frame := if decide (user_sp >= 0x400000) then load_frame m user_sp else None in
  let chosen :=
    match user_frame with
    | Some f => Some (sf_ctx f)
    | None => match saved_context (signals p) with Some c => Some c | None => ctx_arg end
    end in
  match chosen with
  | None => SrReturn (SigReturn p st m) (- EFAULT)
  | Some ctx =>
      match signal_sigcontext_validate_and_sanitize single_step ctx with
      | None => SrReturn (handle_signals (pending_raise SIGSEGV (process_saved_context_clear p)) st m) (- EFAULT)
      | Some ctx =>
          let p := process_saved_context_clear p in
          let p := match user_frame with
                   | Some f => on_signals (fun s => s <| signal_mask := u32 (sf_oldmask f) |>
                                 <| signal_mask_saved_valid := false |> <| signal_frame_sp := 0 |>) p
                   | None => signals_on_sigreturn p
                   end in
          SrUser (sigreturn_resume p ctx)
      end
  end.
End deliver.

(** ** Delivery from a page fault

    The interrupt frame holds the user registers; its words are named after the
    registers, as in [sigcontext]. *)

Definition SA_SIGINFO : Z := 4.
Definition SA_RESETHAND : Z := 0x80000000.

Definition signal_fill_sigcontext_from_irq_frame (frame : sigcontext) : sigcontext := frame <| c_orig_rax := 0 |>.

Definition signal_redirect_irq_frame (frame : sigcontext) (handler sig new_rsp info_addr uctx_addr : Z) (sa_siginfo : bool)
    : sigcontext :=
  if decide (handler = 0) then frame else
  frame <| c_rip := handler |> <| c_rsp := new_rsp |> <| c_rdi := u64 (u32 sig) |>
        <| c_rsi := (if sa_siginfo then info_addr else 0) |> <| c_rdx := (if sa_siginfo then uctx_addr else 0) |>.

Definition task_save_user_exception_frame (single_step : bool) (t : arch_task_context_t) (frame : sigcontext)
    : arch_task_context_t :=
  let user := bool_decide (Z.land (c_cs frame) 3 = 3) in {|
  t_rax := c_rax frame; t_rbx := c_rbx frame; t_rcx := c_rcx frame; t_rdx := c_rdx frame; t_rsi := c_rsi frame;
  t_rdi := c_rdi frame; t_r8 := c_r8 frame; t_r9 := c_r9 frame; t_r10 := c_r10 frame; t_r11 := c_r11 frame;
  t_r12 := c_r12 frame; t_r13 := c_r13 frame; t_r14 := c_r14 frame; t_r15 := c_r15 frame; t_rsp := c_rsp frame;
  t_rbp := c_rbp frame; t_rip := c_rip frame;
  t_rflags := ir0_rflags_sanitize_user single_step (Z.lor (Z.lor (c_rflags frame) 2) RFLAGS_IF);
  t_cs := (if user then USER_CODE_SEL else u16 (c_cs frame)); t_ds := t_ds t; t_es := t_es t; t_fs := t_fs t; t_gs := t_gs t;
  t_ss := (if user then USER_DATA_SEL else u16 (c_ss frame)) |}.

Definition exception_frame_is_user (frame : sigcontext) : bool := bool_decide (Z.land (c_cs frame) 3 = 3).

(** The process is the current one. *)
Definition process_save_user_exception_frame (single_step : bool) (p : proc_t) (frame : sigcontext) : proc_t :=
  if decide (mode p <> USER_MODE) then p else
  if negb (exception_frame_is_user frame) then p else
  p <| regs := task_save_user_exception_frame single_step (regs p) frame |>.

(** The [siginfo_t] of a fault (signal, faulting address) and the cleared
    [ucontext] on the user stack. *)
Class SigInfoMem (M : Type) := {
  store_siginfo : M -> Z -> Z -> Z -> M * bool;
  store_ucontext : M -> Z -> M * bool
}.

Section fault.
Context {M : Type} `{!SigInfoMem M} (single_step : bool) (kmalloc_ok : Z -> bool).

(** The return value, or [process_exit(0)]. *)
Inductive irq_end :=
| IrqReturn (p : proc_t) (frame : sigcontext) (m : M) (ret : Z)
| IrqExit (p : proc_t).

Definition irq_undeliverable (p : proc_t) (frame : sigcontext) (m : M) (sig : Z) : irq_end :=
  if is_fault_signal sig then IrqExit (exit_with p sig) else IrqReturn p frame m 0.

(** The arguments of an SA_SIGINFO handler; [None]: no room for them. *)
Definition store_info (p : proc_t) (m : M) (sig new_rsp fault_addr : Z) : option (Z * Z * M * bool) :=
  let info_addr := u64 (new_rsp - 128) in
  let uctx_addr := align16 (u64 (info_addr - 128)) in
  let info_addr := align16 info_addr in
  if bool_decide (uctx_addr < 0x400000) || negb (signal_sp_in_stack p uctx_addr) then None else
  let '(m, ok) := store_siginfo m info_addr sig fault_addr in
  let '(m, ok) := if ok then store_ucontext m uctx_addr else (m, false) in
  Some (info_addr, uctx_addr, m, ok).

Definition signals_deliver_from_irq_frame (p : proc_t) (m : M) (sig : Z) (frame : sigcontext) (fault_addr : Z) : irq_end :=
  if negb (signals_has_user_handler p sig) then IrqReturn p frame m 0 else
  if decide (mode p <> USER_MODE) then IrqReturn p frame m 0 else
  if signal_delivery_blocked_nested p then irq_undeliverable p frame m sig else
  let handler := handler_of p sig in
  let sa_flags := signal_sa_flags (signals p) !!! Z.to_nat sig in
  if negb (kmalloc_ok sig) then IrqReturn p frame m 0 else
  let ctx := signal_fill_sigcontext_from_irq_frame frame in
  if signal_rip_is_registered_handler p (c_rip ctx) then irq_undeliverable p frame m sig else
  match process_saved_context_attach p ctx with
  | None => irq_undeliverable p frame m sig
  | Some p =>
      match signal_pick_handler_sp p (c_rsp frame) with
      | None => IrqReturn (process_saved_context_clear p) frame m 0
      | Some (new_rsp, _) =>
          let sa_siginfo := flag_set sa_flags SA_SIGINFO in
          match (if sa_siginfo then store_info p m sig new_rsp fault_addr else Some (0, 0, m, true)) with
          | None => IrqReturn (process_saved_context_clear p) frame m 0
          | Some (info_addr, uctx_addr, m, ok) =>
              if negb ok then IrqReturn (process_saved_context_clear p) frame m 0 else
              let frame := signal_redirect_irq_frame frame handler sig new_rsp info_addr uctx_addr sa_siginfo in
              let p := process_save_user_exception_frame single_step p frame in
              let p := if flag_set sa_flags SA_RESETHAND then handler_reset sig p else p in
              let p := on_signals (update signal_frame_sp new_rsp) p in
              IrqReturn (pending_clear sig (signals_apply_handler_mask p sig sa_flags)) frame m 1
          end
      end
  end.
End fault.
