(* ===== verification/SigFrame.v ===== *)
(** * Signals: where a handler's frame is placed ([signal_pick_handler_sp])

    The 64-bit arithmetic of the choice in closed form, the bounds of the frame
    it yields, and the two stack positions for which it goes wrong. *)

From S2P Require Import Prelude RecordUpdate Runq ProcState Signal.

(** ** The handler stack *)

Lemma align16_eq x : 0 <= x < 2 ^ 64 -> align16 x = x - x mod 16.
Proof.
  intros Hx. unfold align16, u64. rewrite <- (Z.land_ones (Z.lnot 15)), (Z.land_comm (Z.lnot 15)), Z.land_assoc, Z.land_ones by lia.
  rewrite Z.mod_small by lia. change (Z.land x (Z.lnot 15)) with (Z.land x (Z.lnot (Z.ones 4))).
  rewrite <- Z.ldiff_land, Z.ldiff_ones_r by lia. rewrite Z.shiftr_div_pow2, Z.shiftl_mul_pow2 by lia.
  change (2 ^ 4) with 16. pose proof (Z.div_mod x 16). lia.
Qed.

Lemma stack_bounds_range p lo hi :
  stack_bounds p = (lo, hi) -> 0 <= stack_start p < 2 ^ 64 -> 0 < lo < hi /\ hi < 2 ^ 64.
Proof.
  unfold stack_bounds, u64. pose proof (Z.mod_pos_bound (stack_start p + stack_size p) (2 ^ 64)).
  destruct (decide _) as [|Hn]; intros [= <- <-] Hs; [unfold USER_STACK_BASE, USER_STACK_TOP|]; lia.
Qed.

(** Every 64-bit operation of the choice is exact for a stack in user space. *)
Lemma u64_id x : 0 <= x < 2 ^ 64 -> u64 x = x.
Proof. apply Z.mod_small. Qed.

Lemma align16_bounds x : 0 <= x < 2 ^ 64 -> (0 <= align16 x /\ x - 15 <= align16 x <= x) /\ align16 x mod 16 = 0.
Proof.
  intros Hx. rewrite align16_eq by done. pose proof (Z.mod_pos_bound x 16). pose proof (Z.mod_le x 16). splits; try lia.
  rewrite Zminus_mod, Zmod_mod, Z.sub_diag. done.
Qed.

Section pick.
Context (p : proc_t) (lo hi saved_sp : Z).
Context (Hb : stack_bounds p = (lo, hi)) (Hlo : 0x400000 <= lo) (Hhi : lo < hi <= 0x7FFFFFFFFFFF) (Hsp : 0 <= saved_sp < 2 ^ 64).

Lemma sp_in_stack_eq sp : 0 <= sp -> signal_sp_in_stack p sp = bool_decide (lo + 16 <= sp < hi).
Proof.
  intros H0. unfold signal_sp_in_stack. rewrite Hb. destruct (decide (sp = 0)) as [->|Hn].
  - symmetry. apply bool_decide_false. lia.
  - rewrite u64_id by lia. repeat case_bool_decide; try done; lia.
Qed.

(** The top of the frame: the interrupted stack pointer, or a slot near the top
    of the stack. *)
Definition frame_top : Z :=
  if decide (lo + 2048 <= align16 saved_sp <= hi - SIGNAL_HANDLER_TOP_MARGIN) then align16 saved_sp
  else align16 (hi - if decide (SIGNAL_HANDLER_TOP_MARGIN + SIGFRAME_SIZE + 8 + 2048 > hi - lo) then (hi - lo) / 4
                     else SIGNAL_HANDLER_TOP_MARGIN).

(** The last checks of the choice, for a frame that ends at [u]. *)
Lemma finish_eq u :
  200 <= u <= hi ->
  (let frame_addr := u64 (u - SIGFRAME_SIZE) in
   let user_sp := u64 (frame_addr - 8) in
   if decide (user_sp < lo + 2048 \/ u64 (frame_addr + SIGFRAME_SIZE) > hi) then None else
   if decide (user_sp < 0x400000 \/ user_sp > 0x7FFFFFFFFFFF) then None else Some (user_sp, frame_addr)) =
  if decide (u - 200 < lo + 2048) then None else Some (u - 200, u - 192).
Proof.
  intros Hu. unfold SIGFRAME_SIZE. cbv zeta. rewrite (u64_id (u - 192)), (u64_id (u - 192 - 8)), (u64_id (u - 192 + 192)) by lia.
  destruct (decide (u - 200 < _)).
  - by rewrite decide_True by lia.
  - rewrite !decide_False by lia. do 2 f_equal; lia.
Qed.

Lemma fallback_range :
  let margin := if decide (SIGNAL_HANDLER_TOP_MARGIN + SIGFRAME_SIZE + 8 + 2048 > hi - lo) then (hi - lo) / 4
                else SIGNAL_HANDLER_TOP_MARGIN in
  0 <= margin <= hi - lo /\ 0 <= hi - margin < 2 ^ 64.
Proof.
  pose proof (Z.div_pos (hi - lo) 4). pose proof (Z.mul_div_le (hi - lo) 4). unfold SIGNAL_HANDLER_TOP_MARGIN, SIGFRAME_SIZE.
  cbv zeta. destruct (decide _); lia.
Qed.

(** The choice in closed form. *)
Lemma pick_eq :
  signal_pick_handler_sp p saved_sp =
  if decide (frame_top - 200 < lo + 2048) then None else Some (frame_top - 200, frame_top - 192).
Proof.
  pose proof (align16_bounds saved_sp Hsp) as [Ha _]. pose proof fallback_range as Hf. unfold signal_pick_handler_sp, frame_top.
  rewrite Hb, (sp_in_stack_eq (align16 saved_sp)) by lia. set (a := align16 saved_sp) in *.
  set (margin := if decide (_ > hi - lo) then _ else _) in *. cbv zeta in Hf.
  pose proof (align16_bounds (hi - margin) (proj2 Hf)) as [Hm _].
  rewrite (u64_id (lo + 2048)), (u64_id (hi - lo)), (u64_id (hi - SIGNAL_HANDLER_TOP_MARGIN)) by (unfold SIGNAL_HANDLER_TOP_MARGIN; lia).
  fold margin. rewrite (u64_id (hi - margin)), (u64_id (SIGFRAME_SIZE + 8 + (lo + 2048))) by (unfold SIGFRAME_SIZE; lia).
  destruct (decide (lo + 2048 <= a <= hi - SIGNAL_HANDLER_TOP_MARGIN)) as [Hd|Hd].
  - rewrite bool_decide_true by (unfold SIGNAL_HANDLER_TOP_MARGIN in *; lia).
    rewrite (decide_False (P := a < SIGFRAME_SIZE + 8)) by (unfold SIGFRAME_SIZE; lia).
    rewrite (decide_False (P := a <> 0 /\ _)) by lia. rewrite decide_False by lia.
    rewrite decide_False by (unfold SIGFRAME_SIZE; lia).
    apply finish_eq. unfold SIGNAL_HANDLER_TOP_MARGIN in *; lia.
  - set (u := if decide (_ /\ _) then 0 else _).
    assert (Hu : u = 0 \/ u < lo + 2048).
    { subst u. destruct (decide (_ /\ _)) as [|Hn]; [by left|]. destruct (decide (_ < SIGFRAME_SIZE + 8)) as [|Hn2]; [by left|].
      destruct (bool_decide (lo + 16 <= a < hi)); [|by left]. lia. }
    clearbody u. rewrite decide_True by done. unfold SIGFRAME_SIZE at 1. set (t := align16 (hi - margin)) in *.
    destruct (decide (t < 192 + 8 + (lo + 2048))).
    + by rewrite decide_True by lia.
    + apply finish_eq. lia.
Qed.

Lemma frame_top_aligned : frame_top mod 16 = 0 /\ frame_top <= hi.
Proof.
  unfold frame_top. pose proof fallback_range as Hf. cbv zeta in Hf.
  destruct (decide (lo + 2048 <= align16 saved_sp <= _)) as [Hd|_].
  - destruct (align16_bounds saved_sp Hsp) as [_ Hm]. split; [exact Hm|unfold SIGNAL_HANDLER_TOP_MARGIN in *; lia].
  - destruct (align16_bounds _ (proj2 Hf)) as [Hm Hm2]. split; [exact Hm2|]. destruct Hm as [_ Hm]. destruct Hf as [[Hf _] _].
    etrans; [apply Hm|]. lia.
Qed.
End pick.

(** C20: the frame of a signal handler.  For a process whose stack lies in user
    space, a stack pointer chosen for the handler leaves the frame inside the
    stack, above its lowest 2 KiB, the frame is 16-byte aligned and the handler
    starts 8 bytes below it with the return address; when the interrupted stack
    pointer is inside the two margins, the frame lies wholly below it, so
    nothing the interrupted code has on its stack is overwritten; and a choice
    is always found unless the interrupted stack pointer is within 200 bytes of
    the lower margin. *)
Theorem handler_frame_placed p lo hi saved_sp :
  stack_bounds p = (lo, hi) -> 0x400000 <= lo -> lo + 0x5000 <= hi <= 0x7FFFFFFFFFFF -> 0 <= saved_sp < 2 ^ 64 ->
  match signal_pick_handler_sp p saved_sp with
  | Some (sp, frame) =>
      frame = sp + 8 /\ frame mod 16 = 0 /\ lo + 2048 <= sp /\ frame + SIGFRAME_SIZE <= hi /\
      (lo + 2048 <= align16 saved_sp -> frame + SIGFRAME_SIZE <= saved_sp)
  | None => lo + 2048 <= align16 saved_sp < lo + 2048 + SIGFRAME_SIZE + 8
  end.
Proof.
  intros Hb Hlo Hhi Hsp. assert (Hh : lo < hi <= 0x7FFFFFFFFFFF) by lia.
  destruct (frame_top_aligned lo hi saved_sp Hlo Hh Hsp) as [Ht Hle]. rewrite (pick_eq p lo hi saved_sp Hb Hlo Hh Hsp).
  destruct (align16_bounds saved_sp Hsp) as [Ha _].
  destruct (align16_bounds (hi - 0x4000)) as [Hf _]; [lia|].
  assert (Hcase : frame_top lo hi saved_sp = align16 saved_sp /\ lo + 2048 <= align16 saved_sp \/
    frame_top lo hi saved_sp = align16 (hi - 0x4000) /\ ~ lo + 2048 <= align16 saved_sp <= hi - 0x4000).
  { unfold frame_top, SIGNAL_HANDLER_TOP_MARGIN, SIGFRAME_SIZE. destruct (decide _) as [|Hn]; [left; split; [done|lia]|right].
    rewrite decide_False by lia. done. }
  unfold SIGFRAME_SIZE. destruct (decide _) as [Hn|Hn]; [lia|].
  splits; try lia. rewrite Zminus_mod, Ht. done.
Qed.

(** A frame near the top of the default stack, for a process that has used
    almost all of it: the 200 bytes written are part of its live stack. *)
Definition deep_proc : proc_t := {|
  pid := 7; ppid := 1; pgid := 7; sid := 7; tgid := 7; mode := USER_MODE; comm := "deep"%string;
  lifecycle := PROCESS_LIFECYCLE_ALIVE; exit_code := 0; exit_signal := 0; p_next := 0; fork_pending_child := 0;
  stack_start := USER_STACK_BASE; stack_size := 0x100000;
  signals := {| signal_pending := 0; signal_mask := 0; signal_ignored := 0; signal_handlers := no_handlers;
    signal_sa_flags := no_handlers; signal_sa_mask := no_handlers; signal_restorer := no_handlers;
    signal_mask_saved := 0; signal_mask_saved_valid := false; signal_frame_sp := 0; saved_context := None;
    signal_enter_pending := false; signal_last_delivered := 0; signal_defer_catchable := false;
    it_real_expire_ms := 0; it_real_interval_ms := 0 |};
  wait := waitstate_zero;
  resume := {| irq_frame_saved := false; poll_resume_via_arch := false; coop_resched_resume := false; want_kernel_ret := false;
    kernel_syscall_sleep := false; kernel_sleep_interrupted := false; kernel_sleep_syscall_frame := frame_zero;
    syscall_frame := frame_zero; syscall_resume_rax := 0; syscall_entry_nr := 0; syscall_block_nr := 0;
    syscall_frame_fresh := false; syscall_interrupted := false; poll_waiter := 0; clock_wait_armed := false;
    clock_wait_deadline_ms := IR0_CLOCK_WAIT_DISARMED |};
  regs := {| t_rax := 0; t_rbx := 0; t_rcx := 0; t_rdx := 0; t_rsi := 0; t_rdi := 0; t_r8 := 0; t_r9 := 0; t_r10 := 0;
    t_r11 := 0; t_r12 := 0; t_r13 := 0; t_r14 := 0; t_r15 := 0; t_rsp := 0; t_rbp := 0; t_rip := 0; t_rflags := RFLAGS_IF;
    t_cs := USER_CODE_SEL; t_ds := USER_DATA_SEL; t_es := USER_DATA_SEL; t_fs := USER_DATA_SEL; t_gs := USER_DATA_SEL;
    t_ss := USER_DATA_SEL |} |}.

Lemma handler_frame_placed_witness :
  match signal_pick_handler_sp deep_proc 0x7FF80000 with Some (sp, frame) => frame = 0x7FF7FF40 | None => False end /\
  match signal_pick_handler_sp deep_proc 0x7FF80000 with
  | Some (sp, frame) =>
      frame = sp + 8 /\ frame mod 16 = 0 /\ USER_STACK_BASE + 2048 <= sp /\ frame + SIGFRAME_SIZE <= USER_STACK_TOP /\
      (USER_STACK_BASE + 2048 <= align16 0x7FF80000 -> frame + SIGFRAME_SIZE <= 0x7FF80000)
  | None => USER_STACK_BASE + 2048 <= align16 0x7FF80000 < USER_STACK_BASE + 2048 + SIGFRAME_SIZE + 8
  end.
Proof.
  split; [vm_compute; reflexivity|].
  apply (handler_frame_placed deep_proc USER_STACK_BASE USER_STACK_TOP 0x7FF80000); [reflexivity|vm_compute; discriminate| |lia].
  vm_compute. split; discriminate.
Defined.

(** With the stack pointer in the lowest 2 KiB, the frame lands 16 KiB below the
    top of the stack, inside what the interrupted code has on it. *)
Lemma deep_stack_frame_overlaps :
  exists sp frame, signal_pick_handler_sp deep_proc (USER_STACK_BASE + 1024) = Some (sp, frame) /\
    USER_STACK_BASE + 1024 < frame /\ frame + SIGFRAME_SIZE < USER_STACK_TOP.
Proof. eexists _, _. split; [vm_compute; reflexivity|]. split; reflexivity. Qed.

(** 200 bytes above the lower margin no slot is chosen at all. *)
Lemma deep_stack_no_slot : signal_pick_handler_sp deep_proc (USER_STACK_BASE + 2048 + 16) = None.
Proof. vm_compute. reflexivity. Qed.
