(* ===== verification/SigDeliver.v ===== *)
(** * Signals: the type of the signal state, and what one delivery does

    - [sig_ok], the typing of the signal state, and its preservation;
    - [trim], [armed], [delivered]: what the delivery loop may do, and that it
      arms at most one handler. *)

From S2P Require Import Prelude RecordUpdate Runq Bytes CopyUser ProcState Signal.

(** ** Bits *)

Lemma signal_mask_bit sig : 0 <= sig < 32 -> SIGNAL_MASK sig = Z.shiftl 1 sig.
Proof.
  intros Hs. unfold SIGNAL_MASK, u32. apply Z.mod_small. rewrite Z.shiftl_1_l.
  split; [apply Z.pow_nonneg; lia|apply Z.pow_lt_mono_r; lia].
Qed.

Lemma signal_flag_bit x sig : 0 <= sig < 32 -> flag_set x (SIGNAL_MASK sig) = Z.testbit x sig.
Proof. intros Hs. unfold flag_set. rewrite signal_mask_bit by done. apply truthy_land_bit. lia. Qed.

Lemma testbit_mask sig i : 0 <= sig < 32 -> 0 <= i -> Z.testbit (SIGNAL_MASK sig) i = bool_decide (i = sig).
Proof.
  intros Hs Hi. rewrite signal_mask_bit, Z.shiftl_1_l by done. case_bool_decide as E.
  - subst. by apply Z.pow2_bits_true.
  - apply Z.pow2_bits_false. lia.
Qed.

Lemma testbit_bits_clear x m i : 0 <= i < 32 -> Z.testbit (bits_clear x m) i = Z.testbit x i && negb (Z.testbit m i).
Proof.
  intros Hi. unfold bits_clear, u32. rewrite Z.land_spec, Z.mod_pow2_bits_low, Z.lnot_spec by lia. done.
Qed.

Definition mask32 (x : Z) : Prop := 0 <= x < 2 ^ 32.

Lemma mask32_lor x y : mask32 x -> mask32 y -> mask32 (Z.lor x y).
Proof.
  unfold mask32. intros Hx Hy. split; [apply Z.lor_nonneg; lia|].
  destruct (decide (Z.lor x y = 0)) as [->|Hn]; [lia|]. apply Z.log2_lt_pow2; [pose proof (Z.lor_nonneg x y); lia|].
  rewrite Z.log2_lor by lia. destruct (decide (x = 0)) as [->|]; destruct (decide (y = 0)) as [->|]; [done|..];
  repeat match goal with |- Z.max _ _ < _ => apply Z.max_lub_lt end; try (apply Z.log2_lt_pow2; lia); simpl; lia.
Qed.

Lemma mask32_clear x m : mask32 (bits_clear x m).
Proof.
  unfold mask32, bits_clear, u32. rewrite <- (Z.land_ones (Z.lnot m)), Z.land_assoc, Z.land_ones by lia.
  apply Z.mod_pos_bound. lia.
Qed.

Lemma mask32_u32 x : mask32 (u32 x).
Proof. unfold mask32, u32. apply Z.mod_pos_bound. lia. Qed.

Lemma mask32_signal sig : mask32 (SIGNAL_MASK sig).
Proof. apply mask32_u32. Qed.

Lemma mask32_0 : mask32 0.
Proof. unfold mask32. lia. Qed.

#[export] Hint Resolve mask32_lor mask32_clear mask32_u32 mask32_signal mask32_0 : ir0.

Lemma pending_clear_same sig p : 0 <= sig < 32 -> pending (pending_clear sig p) sig = false.
Proof.
  intros Hs. unfold pending. rewrite signal_flag_bit by done. cbn. rewrite testbit_bits_clear, testbit_mask by lia.
  by rewrite bool_decide_true, andb_false_r.
Qed.

Lemma pending_clear_other sig i p : 0 <= sig < 32 -> 0 <= i < 32 -> i <> sig -> pending (pending_clear sig p) i = pending p i.
Proof.
  intros Hs Hi Hne. unfold pending. rewrite !signal_flag_bit by done. cbn.
  rewrite testbit_bits_clear, testbit_mask, bool_decide_false by (done || lia). by rewrite andb_true_r.
Qed.

(** ** The type of the signal state *)

(** Arrays of 32 entries, 32-bit masks; a handler is SIG_DFL, SIG_IGN or an
    address in user space, and the ignored mask is exactly the SIG_IGN entries;
    SIGKILL and SIGSTOP keep their default action. *)
Record sig_ok (p : proc_t) : Prop := {
  so_lens : length (signal_handlers (signals p)) = 32%nat /\ length (signal_sa_flags (signals p)) = 32%nat /\
            length (signal_sa_mask (signals p)) = 32%nat /\ length (signal_restorer (signals p)) = 32%nat;
  so_masks : mask32 (signal_pending (signals p)) /\ mask32 (signal_mask (signals p)) /\
             mask32 (signal_ignored (signals p)) /\ mask32 (signal_mask_saved (signals p));
  so_sa_mask : Forall mask32 (signal_sa_mask (signals p));
  so_handler : forall sig, 1 <= sig < 32 -> is_caught (handler_of p sig) = true -> mode p = USER_MODE ->
               is_user_pointer (handler_of p sig) = true;
  so_ignored : forall sig, 1 <= sig < 32 -> ignored p sig = bool_decide (handler_of p sig = SIG_IGN);
  so_kill : handler_of p SIGKILL = SIG_DFL;
  so_stop : handler_of p SIGSTOP = SIG_DFL
}.

(** The widths of the remaining integers: flags of 32 bits; handlers, restorers,
    the stack pointer of the frame and the interval timer of 64 bits; the last
    delivered signal is a signal number or 0. *)
Definition word64 (x : Z) : Prop := 0 <= x < 2 ^ 64.

Record sig_wide (s : sigstate) : Prop := {
  sw_flags : Forall mask32 (signal_sa_flags s);
  sw_handlers : Forall word64 (signal_handlers s) /\ Forall word64 (signal_restorer s);
  sw_words : word64 (signal_frame_sp s) /\ word64 (it_real_expire_ms s) /\ word64 (it_real_interval_ms s);
  sw_last : 0 <= signal_last_delivered s < 32
}.

Lemma word64_0 : word64 0.
Proof. unfold word64. lia. Qed.

Lemma word64_1 : word64 1.
Proof. unfold word64. lia. Qed.

#[export] Hint Resolve word64_0 word64_1 : ir0.

(** Closes [sig_wide] of a state that differs from [H]'s in other fields. *)
Ltac sig_wide_frame H :=
  let H' := fresh in pose proof H as H'; destruct H' as [? [? ?] (? & ? & ?) ?]; constructor; cbn; splits; auto with ir0; lia.

Lemma wide_pending_clear sig p : sig_wide (signals p) -> sig_wide (signals (pending_clear sig p)).
Proof. intros H. sig_wide_frame H. Qed.

Lemma wide_handler_reset sig p : sig_wide (signals p) -> sig_wide (signals (handler_reset sig p)).
Proof. intros []. destruct sw_handlers0. constructor; cbn; [done| |done|done]. split; [|done]. by apply Forall_insert; [|apply word64_0]. Qed.

Lemma wide_register p sig h : sig_wide (signals p) -> word64 h -> sig_wide (signals (register_signal_handler p sig h).1).
Proof.
  intros H Hh. unfold register_signal_handler. destruct (decide _); [done|]. destruct (decide _); [done|]. destruct (_ && _); [done|].
  assert (Hg : forall g i, sig_wide ((signals p) <| signal_handlers := <[Z.to_nat sig := h]> (signal_handlers (signals p)) |>
    <| signal_ignored := g |> <| signal_pending := i |>)).
  { intros g i. destruct H as [? [? ?] ? ?]. constructor; cbn; [done| |done|done]. split; [|done]. by apply Forall_insert. }
  destruct (decide _); cbn [fst].
  - apply (Hg (Z.lor _ _) (bits_clear _ _)).
  - apply (Hg (bits_clear _ _) (signal_pending (signals p))).
Qed.

Lemma wide_sigaction p signum act oldact size : sig_wide (signals p) ->
  (forall a, act = Some (Some a) -> word64 (sa_handler a) /\ word64 (sa_restorer a)) ->
  sig_wide (signals (sys_rt_sigaction p signum act oldact size).1).
Proof.
  intros H Ha. unfold sys_rt_sigaction. destruct (decide _); [done|]. destruct (decide _); [done|]. destruct (decide _); [done|].
  destruct oldact as [[|]|]; [|done|];
    (destruct act as [[a|]|]; [|done|done]; destruct (Ha a eq_refl) as [Hh Hrs];
     pose proof (wide_register p signum (sa_handler a) H Hh) as Hr;
     destruct (register_signal_handler p signum (sa_handler a)) as [q r]; cbn in Hr;
     destruct (decide _); [exact Hr|]; destruct Hr as [? [? ?] ? ?]; constructor; cbn; [| |done|done];
     [apply Forall_insert; auto with ir0|split; [done|]; apply Forall_insert; [done|]; destruct (flag_set _ _); auto with ir0]).
Qed.

Lemma wide_sigprocmask p how set oldset size : sig_wide (signals p) -> sig_wide (signals (sys_rt_sigprocmask p how set oldset size).1).
Proof.
  intros H. unfold sys_rt_sigprocmask. destruct (decide _); [done|].
  destruct oldset as [[|]|]; [|done|]; (destruct set as [[bits|]|]; [|done|done]);
    repeat (destruct (decide _); [sig_wide_frame H|]); done.
Qed.

Lemma wide_exec p : sig_wide (signals p) -> sig_wide (signals (signals_reset_on_exec p)).
Proof.
  intros H. constructor; cbn -[no_handlers]; [|split| |apply H]; try (by apply Forall_replicate; auto with ir0). splits; auto with ir0.
Qed.

Lemma wide_apply_mask p sig flags : sig_wide (signals p) -> sig_wide (signals (signals_apply_handler_mask p sig flags)).
Proof.
  intros H. unfold signals_apply_handler_mask. destruct (decide _); [done|].
  destruct (signal_mask_saved_valid (signals p)), (flag_set flags SA_NODEFER); sig_wide_frame H.
Qed.

Lemma wide_on_sigreturn p : sig_wide (signals p) -> sig_wide (signals (signals_on_sigreturn p)).
Proof.
  intros H. unfold signals_on_sigreturn, signals_restore_handler_mask.
  destruct (signal_mask_saved_valid (signals p)); sig_wide_frame H.
Qed.

Lemma wide_abandon p : sig_wide (signals p) -> sig_wide (signals (signals_try_abandon_sigframe p)).
Proof.
  intros H. unfold signals_try_abandon_sigframe. destruct (decide _); [done|]. destruct (decide _); [done|].
  apply wide_on_sigreturn. sig_wide_frame H.
Qed.

(** [sig_ok] depends on these fields only. *)
Lemma sig_ok_frame p q :
  sig_ok p -> mode q = mode p ->
  signal_handlers (signals q) = signal_handlers (signals p) -> length (signal_sa_flags (signals q)) = 32%nat ->
  signal_sa_mask (signals q) = signal_sa_mask (signals p) -> length (signal_restorer (signals q)) = 32%nat ->
  mask32 (signal_pending (signals q)) -> mask32 (signal_mask (signals q)) ->
  signal_ignored (signals q) = signal_ignored (signals p) -> mask32 (signal_mask_saved (signals q)) -> sig_ok q.
Proof.
  intros [] Em Eh Ef Esm Er Hp Hm Ei Hs. destruct so_lens0 as (? & ? & ? & ?), so_masks0 as (? & ? & ? & ?).
  constructor; unfold ignored, handler_of in *; rewrite ?Eh, ?Esm, ?Ei, ?Em; splits; auto; congruence.
Qed.

(** Changes outside the signal state. *)
Lemma sig_ok_ext p q : sig_ok p -> mode q = mode p -> signals q = signals p -> sig_ok q.
Proof.
  intros Hp Em Es. pose proof Hp as [(? & ? & ? & ?) (? & ? & ? & ?) _ _ _ _ _]. apply (sig_ok_frame p); rewrite ?Es; auto.
Qed.

(** Closes [sig_ok] of a state whose dispositions are those of [H]'s. *)
Ltac sig_frame H :=
  let H' := fresh in
  pose proof H as H'; destruct H' as [(? & ? & ? & ?) (? & ? & ? & ?) ? ? ? ? ?];
  eapply (sig_ok_frame _ _ H); cbn; rewrite ?length_insert; auto with ir0.

Lemma lookup_total_insert_Z (l : list Z) sig i v :
  0 <= sig < Z.of_nat (length l) -> 0 <= i ->
  <[Z.to_nat sig := v]> l !!! Z.to_nat i = if decide (i = sig) then v else l !!! Z.to_nat i.
Proof.
  intros Hs Hi. destruct (decide (i = sig)) as [->|Hne].
  - rewrite list_lookup_total_insert_eq; [done|lia].
  - rewrite list_lookup_total_insert_ne; [done|lia].
Qed.

Lemma sig_ok_pending_clear sig p : sig_ok p -> sig_ok (pending_clear sig p).
Proof. intros H. sig_frame H. Qed.

Lemma sig_ok_pending_raise sig p : sig_ok p -> sig_ok (pending_raise sig p).
Proof. intros H. sig_frame H. Qed.

Lemma sig_ok_sa_mask p sig : sig_ok p -> 1 <= sig < 32 -> mask32 (signal_sa_mask (signals p) !!! Z.to_nat sig).
Proof.
  intros [(_ & _ & Hl & _) _ Hf _ _ _ _] Hs. rewrite Forall_lookup in Hf.
  destruct (lookup_lt_is_Some_2 (signal_sa_mask (signals p)) (Z.to_nat sig)) as [v Hv]; [lia|].
  rewrite (list_lookup_total_correct _ _ _ Hv). eauto.
Qed.

(** Setting one entry of the handler table together with its ignored bit. *)
Lemma sig_ok_set p q sig h :
  sig_ok p -> 1 <= sig < 32 -> sig <> SIGKILL -> sig <> SIGSTOP ->
  (is_caught h = true -> mode p = USER_MODE -> is_user_pointer h = true) ->
  mode q = mode p -> signal_handlers (signals q) = <[Z.to_nat sig := h]> (signal_handlers (signals p)) ->
  signal_sa_flags (signals q) = signal_sa_flags (signals p) -> signal_sa_mask (signals q) = signal_sa_mask (signals p) ->
  signal_restorer (signals q) = signal_restorer (signals p) ->
  mask32 (signal_pending (signals q)) -> signal_mask (signals q) = signal_mask (signals p) ->
  signal_mask_saved (signals q) = signal_mask_saved (signals p) -> mask32 (signal_ignored (signals q)) ->
  (forall i, 1 <= i < 32 -> ignored q i = if decide (i = sig) then bool_decide (h = SIG_IGN) else ignored p i) ->
  sig_ok q.
Proof.
  intros [] Hs Hk Hst Hh Em Eh Ef Esm Er Hp Emk Ems Hi Hig.
  destruct so_lens0 as (Hl & ? & ? & ?), so_masks0 as (? & ? & ? & ?).
  assert (Hget : forall i, 1 <= i < 32 -> handler_of q i = if decide (i = sig) then h else handler_of p i).
  { intros i Hi'. unfold handler_of. rewrite Eh. apply lookup_total_insert_Z; rewrite ?Hl; lia. }
  constructor; rewrite ?Eh, ?Ef, ?Esm, ?Er, ?Emk, ?Ems, ?Em, ?length_insert; auto.
  - intros i Hi'. rewrite Hget by done. destruct (decide (i = sig)); auto.
  - intros i Hi'. rewrite Hig, Hget by done. destruct (decide (i = sig)); auto.
  - rewrite Hget, decide_False by (unfold SIGKILL in *; lia). done.
  - rewrite Hget, decide_False by (unfold SIGSTOP in *; lia). done.
Qed.

Lemma ignored_raise p sig i : 1 <= sig < 32 -> 1 <= i < 32 ->
  flag_set (Z.lor (signal_ignored (signals p)) (SIGNAL_MASK sig)) (SIGNAL_MASK i) = if decide (i = sig) then true else ignored p i.
Proof.
  intros Hs Hi. unfold ignored. rewrite !signal_flag_bit, Z.lor_spec, testbit_mask by lia.
  destruct (decide (i = sig)); [rewrite bool_decide_true by done; apply orb_true_r|].
  by rewrite bool_decide_false, orb_false_r.
Qed.

Lemma ignored_lower p sig i : 1 <= sig < 32 -> 1 <= i < 32 ->
  flag_set (bits_clear (signal_ignored (signals p)) (SIGNAL_MASK sig)) (SIGNAL_MASK i) = if decide (i = sig) then false else ignored p i.
Proof.
  intros Hs Hi. unfold ignored. rewrite !signal_flag_bit, testbit_bits_clear, testbit_mask by lia.
  destruct (decide (i = sig)); [rewrite bool_decide_true by done; apply andb_false_r|].
  by rewrite bool_decide_false, andb_true_r.
Qed.

Lemma sig_ok_register p sig h : sig_ok p -> sig_ok (register_signal_handler p sig h).1.
Proof.
  intros H. unfold register_signal_handler.
  destruct (decide _) as [|Hr]; [done|]. destruct (decide (sig = SIGKILL \/ sig = SIGSTOP)) as [|Hk]; [done|].
  destruct (bool_decide (mode p = USER_MODE) && _ && _) eqn:Eu; [done|].
  assert (Hh : is_caught h = true -> mode p = USER_MODE -> is_user_pointer h = true).
  { intros Hc Hm. rewrite Hc, bool_decide_true in Eu by done. by apply negb_false_iff in Eu. }
  unfold _NSIG in Hr. pose proof (so_masks _ H) as (? & ? & ? & ?).
  destruct (decide (h = SIG_IGN)) as [->|Hi].
  - eapply (sig_ok_set p _ sig SIG_IGN); cbn; auto with ir0; try lia; try tauto.
    intros i Hi. unfold ignored at 1. cbn. rewrite ignored_raise by lia. destruct (decide (i = sig)); [|done].
    by rewrite bool_decide_true.
  - eapply (sig_ok_set p _ sig h); cbn; auto with ir0; try lia; try tauto.
    intros i Hi'. unfold ignored at 1. cbn. rewrite ignored_lower by lia. destruct (decide (i = sig)); [|done].
    by rewrite bool_decide_false.
Qed.

Lemma sig_ok_handler_reset p sig :
  sig_ok p -> 1 <= sig < 32 -> is_caught (handler_of p sig) = true -> sig_ok (handler_reset sig p).
Proof.
  intros H Hs Hc. pose proof H as [_ (? & ? & ? & ?) _ _ Hi Hk Hst].
  apply (sig_ok_set p _ sig SIG_DFL); cbn; auto.
  - intros ->. rewrite Hk in Hc. done.
  - intros ->. rewrite Hst in Hc. done.
  - intros i Hi'. unfold ignored at 1. cbn. fold (ignored p i). destruct (decide (i = sig)) as [->|]; [|done].
    rewrite Hi by done. unfold is_caught in Hc. apply andb_true_iff in Hc as [_ Hc]. apply bool_decide_eq_true in Hc.
    by rewrite !bool_decide_false.
Qed.

Lemma sig_ok_sigaction p signum act oldact size : sig_ok p -> sig_ok (sys_rt_sigaction p signum act oldact size).1.
Proof.
  intros H. unfold sys_rt_sigaction. destruct (decide _); [done|]. destruct (decide _); [done|]. destruct (decide _); [done|].
  destruct oldact as [[|]|]; [|done|];
    (destruct act as [[a|]|]; [|done|done];
     pose proof (sig_ok_register p signum (sa_handler a) H) as Hr;
     destruct (register_signal_handler p signum (sa_handler a)) as [q r]; cbn in Hr;
     destruct (decide _); [exact Hr|];
     pose proof Hr as [(? & ? & ? & ?) (? & ? & ? & ?) Hf ? ? ? ?]; constructor; cbn; rewrite ?length_insert; auto;
     apply Forall_insert; auto with ir0).
Qed.

Lemma sig_ok_sigprocmask p how set oldset size : sig_ok p -> sig_ok (sys_rt_sigprocmask p how set oldset size).1.
Proof.
  intros H. unfold sys_rt_sigprocmask. destruct (decide _); [done|].
  destruct oldset as [[|]|]; [|done|]; (destruct set as [[bits|]|]; [|done|done]);
    repeat (destruct (decide _); [sig_frame H|]); done.
Qed.

#[local] Arguments no_handlers : simpl never.

Lemma no_handlers_at i : (i < 32)%nat -> no_handlers !!! i = 0.
Proof. apply lookup_total_replicate_2. Qed.

Lemma sig_ok_exec p : sig_ok p -> sig_ok (signals_reset_on_exec p).
Proof.
  intros H. constructor; cbn; splits; auto with ir0.
  - by apply Forall_replicate, mask32_0.
  - intros sig Hs. unfold handler_of. cbn. by rewrite no_handlers_at by lia.
  - intros sig Hs. unfold handler_of, ignored. cbn. rewrite no_handlers_at by lia. unfold flag_set. by rewrite Z.land_0_l.
Qed.

Lemma sig_ok_clone d s : sig_ok s -> mode d = mode s -> sig_ok (process_signals_clone d s).
Proof. intros H Em. sig_frame H. Qed.

Lemma sig_ok_apply_mask p sig flags : sig_ok p -> sig_ok (signals_apply_handler_mask p sig flags).
Proof.
  intros H. unfold signals_apply_handler_mask. destruct (decide _) as [|Hs]; [done|]. unfold _NSIG in Hs.
  pose proof (sig_ok_sa_mask p sig H ltac:(lia)) as Hm.
  destruct (signal_mask_saved_valid (signals p)), (flag_set flags SA_NODEFER); sig_frame H.
Qed.

Lemma sig_ok_on_sigreturn p : sig_ok p -> sig_ok (signals_on_sigreturn p).
Proof.
  intros H. unfold signals_on_sigreturn, signals_restore_handler_mask.
  destruct (signal_mask_saved_valid (signals p)); sig_frame H.
Qed.

Lemma sig_ok_abandon p : sig_ok p -> sig_ok (signals_try_abandon_sigframe p).
Proof.
  intros H. unfold signals_try_abandon_sigframe. destruct (decide _); [done|]. destruct (decide _); [done|].
  apply sig_ok_on_sigreturn. sig_frame H.
Qed.
Lemma sig_ok_fault {M : Type} `{!SigInfoMem M} single_step kmalloc_ok p (m : M) sig frame addr :
  sig_ok p -> mode p = USER_MODE ->
  match signals_deliver_from_irq_frame single_step kmalloc_ok p m sig frame addr with
  | IrqReturn q _ _ _ | IrqExit q => sig_ok q /\ mode q = USER_MODE
  end.
Proof.
  intros H Hm. unfold signals_deliver_from_irq_frame.
  destruct (signals_has_user_handler p sig) eqn:Hh; [|by split]. cbn [negb].
  assert (Hs : 1 <= sig < 32 /\ is_caught (handler_of p sig) = true).
  { revert Hh. unfold signals_has_user_handler, _NSIG. destruct (decide _); [done|].
    destruct (ignored p sig), (masked p sig), (is_caught (handler_of p sig)); try done. intros _. split; [lia|done]. }
  destruct Hs as [Hs Hc]. rewrite decide_False by congruence.
  assert (Hu : forall fr (m' : M), match irq_undeliverable p fr m' sig with IrqReturn q _ _ _ | IrqExit q => sig_ok q /\ mode q = USER_MODE end).
  { intros fr m'. unfold irq_undeliverable. destruct (is_fault_signal sig); [|by split]. split; [|done].
    apply (sig_ok_ext (pending_clear sig p)); [by apply sig_ok_pending_clear|done|done]. }
  destruct (signal_delivery_blocked_nested p); [apply Hu|]. destruct (kmalloc_ok sig); [|by split]. cbn [negb].
  set (ctx := signal_fill_sigcontext_from_irq_frame frame). clearbody ctx.
  destruct (signal_rip_is_registered_handler p _); [apply Hu|]. unfold process_saved_context_attach.
  destruct (process_saved_context_present p); [apply Hu|].
  set (q := p <| signals := _ |>). assert (Hq : sig_ok q) by (sig_frame H). assert (Mq : mode q = USER_MODE) by done.
  assert (Eq : handler_of q sig = handler_of p sig) by done.
  assert (Hclr : sig_ok (process_saved_context_clear q) /\ mode (process_saved_context_clear q) = USER_MODE)
    by (split; [sig_frame Hq|done]).
  clearbody q. destruct (signal_pick_handler_sp q _) as [[sp fa]|]; [|exact Hclr].
  destruct (if flag_set _ SA_SIGINFO then _ else _) as [[[[ia ua] m'] ok]|]; [|exact Hclr].
  destruct ok; [|exact Hclr]. cbn [negb]. cbv zeta.
  set (fr := signal_redirect_irq_frame _ _ _ _ _ _ _). clearbody fr.
  set (r := process_save_user_exception_frame single_step q fr).
  assert (Hr : sig_ok r /\ mode r = USER_MODE /\ handler_of r sig = handler_of p sig).
  { subst r. unfold process_save_user_exception_frame. destruct (decide _); [done|]. destruct (negb _); [done|].
    split; [by apply (sig_ok_ext q)|done]. }
  clearbody r. destruct Hr as (Hr & Mr & Er). set (fl := signal_sa_flags _ !!! _). clearbody fl.
  set (v := if flag_set fl SA_RESETHAND then handler_reset sig r else r).
  assert (Hv : sig_ok v /\ mode v = USER_MODE).
  { subst v. destruct (flag_set fl SA_RESETHAND); [|done]. split; [|done]. apply sig_ok_handler_reset; congruence || lia. }
  clearbody v. destruct Hv as [Hv Mv]. split.
  - apply sig_ok_pending_clear, sig_ok_apply_mask. sig_frame Hv.
  - unfold signals_apply_handler_mask. cbn. by repeat case_match.
Qed.
#[export] Hint Resolve sig_ok_pending_clear sig_ok_pending_raise sig_ok_handler_reset sig_ok_apply_mask : ir0.

(** ** The delivery loop

    [trim p q]: between the two states only pending signals have been dropped
    and handlers reset to the default.  A signal is dropped for one of four
    reasons: it is SIGCONT, it is ignored, it is the SIGCHLD of the program
    called "run", or its handler could not be entered and was uninstalled. *)

Definition excused (p q : proc_t) (i : Z) : Prop :=
  i = SIGCONT \/ ignored p i = true \/ (i = SIGCHLD /\ comm p = "run"%string) \/
  (masked p i = false /\ is_caught (handler_of p i) = true /\ handler_of q i = SIG_DFL).

Record trim (p q : proc_t) : Prop := {
  tr_mode : mode q = mode p;
  tr_regs : regs q = regs p;
  tr_resume : resume q = resume p;
  tr_wait : wait q = wait p;
  tr_comm : comm q = comm p;
  tr_stack : stack_start q = stack_start p /\ stack_size q = stack_size p;
  tr_mask : signal_mask (signals q) = signal_mask (signals p) /\ signal_ignored (signals q) = signal_ignored (signals p) /\
            signal_mask_saved (signals q) = signal_mask_saved (signals p) /\
            signal_mask_saved_valid (signals q) = signal_mask_saved_valid (signals p);
  tr_tables : signal_sa_flags (signals q) = signal_sa_flags (signals p) /\ signal_sa_mask (signals q) = signal_sa_mask (signals p) /\
              signal_restorer (signals q) = signal_restorer (signals p);
  tr_armed : saved_context (signals q) = saved_context (signals p) /\ signal_enter_pending (signals q) = signal_enter_pending (signals p) /\
             signal_frame_sp (signals q) = signal_frame_sp (signals p) /\
             signal_last_delivered (signals q) = signal_last_delivered (signals p);
  tr_pending : forall i, 0 <= i < 32 -> pending q i = true -> pending p i = true;
  tr_drop : forall i, 1 <= i < 32 -> pending p i = true -> pending q i = false -> excused p q i;
  tr_mask32 : mask32 (signal_pending (signals p)) -> mask32 (signal_pending (signals q));
  tr_wide : sig_wide (signals p) -> sig_wide (signals q);
  tr_handlers : forall i, 1 <= i < 32 -> handler_of q i = handler_of p i \/
                  is_caught (handler_of p i) = true /\ handler_of q i = SIG_DFL;
  tr_lens : length (signal_handlers (signals q)) = length (signal_handlers (signals p));
  tr_defer : signal_defer_catchable (signals q) = signal_defer_catchable (signals p)
}.

Lemma caught_not_default h : is_caught h = true -> h <> SIG_DFL.
Proof. unfold is_caught. rewrite andb_true_iff, !bool_decide_eq_true. tauto. Qed.

Lemma trim_drop_trans p q r : trim p q -> trim q r ->
  forall i, 1 <= i < 32 -> pending p i = true -> pending r i = false -> excused p r i.
Proof.
  intros [] [] i Hi Hp Hr. destruct tr_mask0 as (Em & Ei & _). unfold excused, ignored, masked in *.
  destruct (pending q i) eqn:Hq.
  - destruct (tr_drop1 i Hi Hq Hr) as [?|[Hg|[[? Hc]|(Hm & Hc & Hd)]]]; [by left| | |].
    + right. left. by rewrite <- Ei.
    + right. right. left. split; [done|congruence].
    + right. right. right. rewrite Em in Hm. splits; [done| |done]. destruct (tr_handlers0 i Hi) as [<-|[? E]]; [done|].
      by apply caught_not_default in Hc.
  - destruct (tr_drop0 i Hi Hp Hq) as [?|[Hg|[Hc|(Hm & Hc & Hd)]]]; auto. right. right. right. splits; auto.
    destruct (tr_handlers1 i Hi) as [->|[? ->]]; done.
Qed.

#[export] Instance trim_preorder : PreOrder trim.
Proof.
  split.
  - intros p. constructor; auto. congruence.
  - intros p q r H1 H2. pose proof (trim_drop_trans p q r H1 H2) as Hdrop. destruct H1, H2. constructor; try congruence; auto.
    + destruct tr_stack0, tr_stack1. split; congruence.
    + destruct tr_mask0 as (?&?&?&?), tr_mask1 as (?&?&?&?). splits; congruence.
    + destruct tr_tables0 as (?&?&?), tr_tables1 as (?&?&?). splits; congruence.
    + destruct tr_armed0 as (?&?&?&?), tr_armed1 as (?&?&?&?). splits; congruence.
    + intros i Hi. destruct (tr_handlers1 i Hi) as [->|[Hc ->]]; [auto|]. right. split; [|done].
      destruct (tr_handlers0 i Hi) as [E|[? _]]; [by rewrite <- E|done].
Qed.

Lemma pending_clear_cases p sig i : 0 <= sig < 32 -> 0 <= i < 32 ->
  pending (pending_clear sig p) i = if decide (i = sig) then false else pending p i.
Proof. intros Hs Hi. destruct (decide (i = sig)) as [->|Hne]; [by apply pending_clear_same|by apply pending_clear_other]. Qed.

Lemma trim_clear p sig : 0 <= sig < 32 -> sig = SIGCONT \/ ignored p sig = true \/ (sig = SIGCHLD /\ comm p = "run"%string) ->
  trim p (pending_clear sig p).
Proof.
  intros Hs Hex. pose proof (wide_pending_clear sig p). constructor; cbn; auto with ir0.
  - intros i Hi. rewrite pending_clear_cases by done. by destruct (decide (i = sig)).
  - intros i Hi Hp. rewrite pending_clear_cases by lia. destruct (decide (i = sig)) as [->|]; [|congruence].
    intros _. unfold excused. tauto.
Qed.

Lemma trim_drop p sig : length (signal_handlers (signals p)) = 32%nat -> 1 <= sig < 32 ->
  is_caught (handler_of p sig) = true -> masked p sig = false -> trim p (pending_clear sig (handler_reset sig p)).
Proof.
  intros Hl Hs Hc Hm.
  assert (Hh : forall i, 1 <= i < 32 -> handler_of (pending_clear sig (handler_reset sig p)) i = if decide (i = sig) then SIG_DFL else handler_of p i).
  { intros i Hi. unfold handler_of. cbn. apply lookup_total_insert_Z; rewrite ?Hl; lia. }
  assert (Hp : forall i, 0 <= i < 32 -> pending (pending_clear sig (handler_reset sig p)) i = if decide (i = sig) then false else pending p i).
  { intros i Hi. rewrite pending_clear_cases by lia. done. }
  pose proof (fun H => wide_pending_clear sig _ (wide_handler_reset sig p H)).
  constructor; cbn; auto with ir0; [| | |by rewrite length_insert].
  - intros i Hi. rewrite Hp by done. by destruct (decide (i = sig)).
  - intros i Hi Hpi. rewrite Hp by lia. destruct (decide (i = sig)) as [->|]; [|congruence]. intros _.
    right. right. right. splits; auto. by rewrite Hh, decide_True.
  - intros i Hi. rewrite Hh by done. destruct (decide (i = sig)) as [->|]; auto.
Qed.

(** [process_saved_context_clear] on a process that had none. *)
Lemma trim_unsave p ctx : saved_context (signals p) = None ->
  trim p (process_saved_context_clear (on_signals (update saved_context (Some ctx)) p)).
Proof. intros Hn. constructor; cbn; auto; [unfold pending; cbn; congruence|]. intros H. sig_wide_frame H. Qed.

Section deliver.
Context {M : Type} `{!SigMem M}.
Context (single_step : bool) (kmalloc_ok : Z -> bool) (kernel_call : Z -> Z -> proc_t -> proc_t).
Abbreviation deliver_signal := (deliver_signal single_step kmalloc_ok kernel_call).
Abbreviation deliver_loop := (deliver_loop single_step kmalloc_ok kernel_call).
Abbreviation handle_signals := (handle_signals single_step kmalloc_ok kernel_call).
Abbreviation enter_handler := (enter_handler single_step).

(** Signal [sig] may be delivered to a handler of [p]. *)
Definition deliverable (p : proc_t) (sig : Z) : Prop :=
  1 <= sig < 32 /\ pending p sig = true /\ ignored p sig = false /\ masked p sig = false /\
  is_caught (handler_of p sig) = true /\ is_user_pointer (handler_of p sig) = true.

(** [q], [m'] is [p], [m] with a frame for [sig] pushed and the handler entered. *)
Definition armed (p : proc_t) (m : M) (sig : Z) (q : proc_t) (m' : M) : Prop :=
  deliverable p sig /\ signal_delivery_blocked_nested p = false /\
  exists sp fa m1, let ctx := interrupted_context p in
    process_rip_in_user_range (c_rip ctx) = true /\ process_rip_in_user_range (c_rsp ctx) = true /\
    signal_pick_handler_sp p (c_rsp ctx) = Some (sp, fa) /\
    store_frame m fa {| sf_handler := handler_of p sig; sf_signum := sig; sf_ctx := ctx; sf_oldmask := signal_mask (signals p) |} = (m1, true) /\
    store_word m1 sp (signal_restorer (signals p) !!! Z.to_nat sig) = (m', true) /\
    q = enter_handler (on_signals (update saved_context (Some ctx)) p) (handler_of p sig) sig sp.

Lemma in_user_range x : ~ (x < 0x400000 \/ x > 0x7FFFFFFFFFFF) -> process_rip_in_user_range x = true.
Proof.
  intros H. unfold process_rip_in_user_range, IR0_USER_RIP_LO, IR0_USER_RIP_HI. by rewrite !bool_decide_true by lia.
Qed.

Lemma undeliverable_spec p (m : M) sig :
  match undeliverable p m sig with
  | DContinue q m' => q = p /\ m' = m | DBreak _ _ => False | DExit q => q = exit_with p sig /\ is_fault_signal sig = true
  end.
Proof. unfold undeliverable. by destruct (is_fault_signal sig) eqn:E. Qed.

Lemma arm_user_handler_spec p (m : M) sig :
  length (signal_handlers (signals p)) = 32%nat -> deliverable p sig ->
  match arm_user_handler single_step kmalloc_ok p m (handler_of p sig) sig with
  | DContinue q m' => (trim p q /\ m' = m) \/ armed p m sig q m'
  | DBreak q m' => trim p q /\ signal_delivery_blocked_nested p = false
  | DExit q => q = exit_with p sig /\ is_fault_signal sig = true /\ deliverable p sig
  end.
Proof.
  intros Hl Hd. pose proof Hd as (Hs & _ & _ & Hmk & Hc & _). unfold arm_user_handler.
  destruct (signal_delivery_blocked_nested p) eqn:En.
  { pose proof (undeliverable_spec p m sig). destruct (undeliverable p m sig); [left|done|by destruct H].
    destruct H as [-> ->]. by split. }
  unfold signal_delivery_blocked_nested in En. apply orb_false_iff in En as [Esc Eep].
  assert (Hsn : saved_context (signals p) = None) by (unfold process_saved_context_present in Esc; by destruct (saved_context (signals p))).
  destruct (negb (kmalloc_ok sig)); [left; split; [by apply trim_drop|done]|].
  destruct (decide _) as [|Hrip]; [by left|]. destruct (decide _) as [|Hrsp]; [by left|].
  destruct (signal_rip_is_registered_handler p _).
  { pose proof (undeliverable_spec p m sig). destruct (undeliverable p m sig); [left|done|by destruct H].
    destruct H as [-> ->]. by split. }
  unfold process_saved_context_attach. rewrite Esc.
  set (p1 := on_signals (update saved_context (Some (interrupted_context p))) p).
  change (signal_pick_handler_sp p1 (c_rsp (interrupted_context p))) with (signal_pick_handler_sp p (c_rsp (interrupted_context p))).
  destruct (signal_pick_handler_sp p (c_rsp (interrupted_context p))) as [[sp fa]|] eqn:Epick.
  2: { left. split; [|done]. transitivity (process_saved_context_clear p1); [by apply trim_unsave|by apply trim_drop]. }
  assert (Hu : trim p (process_saved_context_clear p1)) by by apply trim_unsave.
  assert (Hnn : signal_delivery_blocked_nested p = false) by (unfold signal_delivery_blocked_nested; by rewrite Esc, Eep).
  destruct (decide _); [done|].
  destruct (store_frame m fa _) as [m1 [|]] eqn:E1; cbn [negb]; [|done].
  destruct (store_word m1 sp _) as [m2 [|]] eqn:E2; cbn [negb]; [|done].
  right. split; [done|]. split; [done|]. exists sp, fa, m1. cbv zeta. splits; auto using in_user_range.
Qed.

(** The three parts of the descriptor that entering a handler changes. *)
Definition entered_signals (s : sigstate) (sig sp : Z) : sigstate :=
  let m := Z.lor (signal_mask s) (signal_sa_mask s !!! Z.to_nat sig) in
  s <| signal_frame_sp := sp |>
    <| signal_mask_saved := (if signal_mask_saved_valid s then signal_mask_saved s else signal_mask s) |>
    <| signal_mask_saved_valid := true |>
    <| signal_mask := (if flag_set (signal_sa_flags s !!! Z.to_nat sig) SA_NODEFER then m else Z.lor m (SIGNAL_MASK sig)) |>
    <| signal_enter_pending := true |> <| signal_last_delivered := u8 sig |>
    <| signal_pending := bits_clear (signal_pending s) (SIGNAL_MASK sig) |>.

Definition handler_frame (f : arch_syscall_frame_t) (h sig sp : Z) : arch_syscall_frame_t :=
  f <| f_rip := h |> <| f_rsp := sp |> <| f_rdi := u64 (u32 sig) |> <| f_rsi := 0 |> <| f_rdx := 0 |>
    <| f_rflags := (if decide (f_rflags f = 0) then task_initial_user_status single_step else f_rflags f) |>.

(** The system-call frame saved for the return from the handler. *)
Definition backup_resume (r : resumestate) : resumestate :=
  if coop_resched_resume r then r else
  if kernel_syscall_sleep r then r <| kernel_sleep_interrupted := true |> else
  if syscall_frame_fresh r then
    let f := syscall_frame r in
    r <| kernel_sleep_syscall_frame := signal_blocked_syscall_frame_sanitize f (syscall_entry_nr r) |>
      <| syscall_block_nr := syscall_entry_nr r |> <| kernel_sleep_interrupted := true |>
  else r.

Lemma backup_frame_eq p :
  process_kernel_sleep_interrupted_backup_frame p = p <| resume := backup_resume (resume p) |>.
Proof.
  destruct p as [? ? ? ? ? ? ? ? ? ? ? ? ? ? ? ? r ?]. unfold process_kernel_sleep_interrupted_backup_frame, backup_resume,
    process_kernel_sleep_capture_syscall_frame, signal_blocked_syscall_frame_sanitize, signal_syscall_read_fd_suspicious.
  cbn. destruct (coop_resched_resume r); [done|]. destruct (kernel_syscall_sleep r); [done|].
  destruct (syscall_frame_fresh r); [|done]. cbn. destruct (decide (syscall_entry_nr r <> 0)) as [Hn|Hn].
  - by rewrite bool_decide_false.
  - rewrite bool_decide_true by lia. done.
Qed.

Lemma backup_frame_kept r : syscall_frame (backup_resume r) = syscall_frame r.
Proof.
  unfold backup_resume. destruct (coop_resched_resume r); [done|]. destruct (kernel_syscall_sleep r); [done|].
  by destruct (syscall_frame_fresh r).
Qed.

Lemma apply_mask_eq p sig flags : 1 <= sig < 32 ->
  signals_apply_handler_mask p sig flags = p <| signals := (let s := signals p in
    let m := Z.lor (signal_mask s) (signal_sa_mask s !!! Z.to_nat sig) in
    s <| signal_mask_saved := (if signal_mask_saved_valid s then signal_mask_saved s else signal_mask s) |>
      <| signal_mask_saved_valid := true |>
      <| signal_mask := (if flag_set flags SA_NODEFER then m else Z.lor m (SIGNAL_MASK sig)) |>) |>.
Proof.
  intros Hs. unfold signals_apply_handler_mask, _NSIG. rewrite decide_False by lia.
  destruct p as [? ? ? ? ? ? ? ? ? ? ? ? ? ? s ? ? ?], s as [? ? ? ? ? ? ? ? [|] ? ? ? ? ? ? ?]; cbn;
    destruct (flag_set flags SA_NODEFER); done.
Qed.

Lemma enter_handler_eq p h sig sp : 1 <= sig < 32 ->
  enter_handler p h sig sp =
  p <| signals := entered_signals (signals p) sig sp |>
    <| resume := (let r := backup_resume (resume p) in
        r <| syscall_frame := handler_frame (syscall_frame r) h sig sp |>
          <| want_kernel_ret := false |> <| syscall_frame_fresh := false |>) |>
    <| regs := task_apply_syscall_frame single_step (signal_prepare_task_handler (regs p) h sig sp)
                 (handler_frame (syscall_frame (resume p)) h sig sp) 0 |>.
Proof.
  intros Hs. unfold Signal.enter_handler. rewrite backup_frame_eq, apply_mask_eq by done.
  unfold process_signal_last_delivered_set, _NSIG. rewrite decide_False by lia.
  destruct p as [? ? ? ? ? ? ? ? ? ? ? ? ? ? s ? r ?]. cbn [resume]. rewrite <- (backup_frame_kept r).
  destruct s. reflexivity.
Qed.

Lemma deliver_signal_spec p (m : M) sig :
  length (signal_handlers (signals p)) = 32%nat -> mode p = USER_MODE -> 1 <= sig < 32 ->
  match deliver_signal p m sig with
  | DContinue q m' => (trim p q /\ m' = m) \/ armed p m sig q m'
  | DBreak q m' => trim p q /\ signal_delivery_blocked_nested p = false
  | DExit q => q = exit_with p sig /\ is_fault_signal sig = true /\ deliverable p sig
  end.
Proof.
  intros Hl Hm Hs. unfold Signal.deliver_signal.
  destruct (pending p sig) eqn:Ep; cbn [negb]; [|by left].
  destruct (ignored p sig) eqn:Ei; [left; split; [apply trim_clear; [lia|auto]|done]|].
  destruct (masked p sig) eqn:Em; [by left|].
  destruct (bool_decide (sig = SIGCHLD) && wait_blocked (wait p)); [by left|].
  destruct (bool_decide (sig = SIGCHLD) && bool_decide (comm p = _)) eqn:Er.
  { apply andb_true_iff in Er as [_ Hr%bool_decide_eq_true]. left. split; [apply trim_clear; [unfold SIGCHLD; lia|auto]|done]. }
  destruct (is_caught (handler_of p sig)) eqn:Ec; cbn [negb]; [|by left].
  destruct (signal_defer_catchable (signals p)); [by left|].
  destruct (is_user_pointer (handler_of p sig)) eqn:Eu; [|left; split; [by apply trim_drop|done]].
  rewrite decide_True by done. by apply arm_user_handler_spec.
Qed.

Lemma armed_nested p m sig q m' : armed p m sig q m' -> signal_delivery_blocked_nested q = true.
Proof. intros ((Hs & _) & _ & sp & fa & m1 & _ & _ & _ & _ & _ & ->). by rewrite enter_handler_eq. Qed.

Lemma trim_nested p q : trim p q -> signal_delivery_blocked_nested q = signal_delivery_blocked_nested p.
Proof.
  intros []. destruct tr_armed0 as (E1 & E2 & _). unfold signal_delivery_blocked_nested, process_saved_context_present.
  by rewrite E1, E2.
Qed.

Lemma armed_lens p m sig q m' : armed p m sig q m' ->
  length (signal_handlers (signals q)) = length (signal_handlers (signals p)) /\ mode q = mode p.
Proof. intros ((Hs & _) & _ & sp & fa & m1 & _ & _ & _ & _ & _ & ->). by rewrite enter_handler_eq. Qed.

(** How a run of the loop ends: nothing armed, or exactly one signal. *)
Definition delivered (p : proc_t) (m : M) (from : Z) (q : proc_t) (m' : M) : Prop :=
  trim p q \/ exists p1 s qa, trim p p1 /\ from <= s /\ armed p1 m s qa m' /\ trim qa q.

(** Once a handler is armed, the rest of the loop leaves the stack alone. *)
Lemma deliver_loop_nested n p (m : M) sig :
  length (signal_handlers (signals p)) = 32%nat -> mode p = USER_MODE -> 1 <= sig -> sig + Z.of_nat n <= 32 ->
  signal_delivery_blocked_nested p = true ->
  match deliver_loop n p m sig with
  | DContinue q m' => trim p q /\ m' = m | DBreak q m' => False | DExit q => True end.
Proof.
  revert p sig. induction n as [|n IH]; intros p sig Hl Hm Hs Hn Hne; cbn; [done|].
  pose proof (deliver_signal_spec p m sig Hl Hm ltac:(lia)) as Hd.
  destruct (deliver_signal p m sig) as [q m'|q m'|q]; [|destruct Hd; congruence|done].
  destruct Hd as [[Ht ->]|(_ & Ha & _)]; [|congruence].
  specialize (IH q (sig + 1)). destruct (deliver_loop n q m (sig + 1)); [| |done].
  - destruct IH as [Ht' ->]; [by rewrite (tr_lens _ _ Ht)|by rewrite (tr_mode _ _ Ht)|lia|lia|by rewrite (trim_nested _ _ Ht)|].
    split; [by etrans|done].
  - apply IH; [by rewrite (tr_lens _ _ Ht)|by rewrite (tr_mode _ _ Ht)|lia|lia|by rewrite (trim_nested _ _ Ht)].
Qed.

Lemma deliver_loop_spec n p (m : M) sig :
  length (signal_handlers (signals p)) = 32%nat -> mode p = USER_MODE -> 1 <= sig -> sig + Z.of_nat n <= 32 ->
  match deliver_loop n p m sig with
  | DContinue q m' | DBreak q m' => delivered p m sig q m' | DExit q => True end.
Proof.
  revert p sig. induction n as [|n IH]; intros p sig Hl Hm Hs Hn; cbn; [by left|].
  pose proof (deliver_signal_spec p m sig Hl Hm ltac:(lia)) as Hd.
  destruct (deliver_signal p m sig) as [q m'|q m'|q]; [|left; apply Hd|done].
  destruct Hd as [[Ht ->]|Ha].
  - specialize (IH q (sig + 1)). destruct (deliver_loop n q m (sig + 1)) as [q' m'|q' m'|]; [| |done];
      (destruct IH as [Ht'|(p1 & s & qa & Ht' & Hle & Ha & Hq)];
        [by rewrite (tr_lens _ _ Ht)|by rewrite (tr_mode _ _ Ht)|lia|lia|left; by etrans|];
       right; exists p1, s, qa; splits; auto; [by etrans|lia]).
  - destruct (armed_lens _ _ _ _ _ Ha) as [El Em].
    pose proof (deliver_loop_nested n q m' (sig + 1)) as Hnest.
    destruct (deliver_loop n q m' (sig + 1)) as [q' m''|q' m''|];
      [destruct Hnest as [Ht ->]|exfalso; apply Hnest|done]; rewrite ?El, ?Em; try lia; try done; eauto using armed_nested.
    right. exists p, sig, q. splits; auto; [done|lia].
Qed.

Lemma term_signal_trim p sig q : 0 <= sig < 32 -> term_signal p sig = inl q -> trim p q.
Proof.
  intros Hs. unfold term_signal. repeat case_match; intros [= <-]; try done. apply trim_clear; auto.
Qed.

Lemma pipe_signal_trim p q : pipe_signal p = inl q -> trim p q.
Proof. unfold pipe_signal. repeat case_match; intros [= <-]; try done. apply trim_clear; [unfold SIGPIPE; lia|auto]. Qed.

(** What [handle_signals] does when it returns. *)
Lemma handle_signals_spec p st (m : M) q st' m' :
  length (signal_handlers (signals p)) = 32%nat -> mode p = USER_MODE ->
  handle_signals p st m = SigReturn q st' m' -> delivered p m 1 q m'.
Proof.
  intros Hl Hm. unfold Signal.handle_signals.
  destruct (decide _); [intros [= <- _ <-]; by left|].
  destruct (pending p SIGKILL); [done|]. destruct (pending p SIGSTOP); [done|].
  do 4 (destruct (error_signal _ _ _); [done|]).
  destruct (pending p SIGTERM && ignored p SIGTERM) eqn:Eti.
  { apply andb_true_iff in Eti as [_ Eti]. intros [= <- _ <-]. left. apply trim_clear; [unfold SIGTERM; lia|auto]. }
  clear Eti. destruct (_ && _); [done|].
  destruct (term_signal p SIGINT) as [p1|] eqn:E1; [|done]. apply term_signal_trim in E1; [|unfold SIGINT; lia].
  destruct (term_signal p1 SIGHUP) as [p2|] eqn:E2; [|done]. apply term_signal_trim in E2; [|unfold SIGHUP; lia].
  destruct (term_signal p2 SIGQUIT) as [p3|] eqn:E3; [|done]. apply term_signal_trim in E3; [|unfold SIGQUIT; lia].
  destruct (pending p3 SIGABRT); [done|].
  destruct (pipe_signal p3) as [p4|] eqn:E4; [|done]. apply pipe_signal_trim in E4.
  assert (Ht4 : trim p p4) by (repeat (etrans; [eassumption|]); done).
  unfold cont_signal. set (p5 := if negb (pending p4 SIGCONT) then (p4, st) else _).
  assert (Ht5 : trim p p5.1).
  { subst p5. destruct (negb _); [done|]. etrans; [exact Ht4|]. apply trim_clear; [unfold SIGCONT; lia|auto]. }
  destruct p5 as [p5 st5]. cbn [fst] in Ht5.
  pose proof (deliver_loop_spec 31 p5 m 1) as Hloop. rewrite (tr_lens _ _ Ht5), (tr_mode _ _ Ht5) in Hloop.
  specialize (Hloop Hl Hm ltac:(lia) ltac:(lia)).
  destruct (deliver_loop 31 p5 m 1) as [q' m''|q' m''|]; [| |done];
    (intros [= <- <- <-]; destruct Hloop as [Ht|(p1' & s & qa & Ht & Hle & Ha & Hq)];
     [left; by etrans|right; exists p1', s, qa; splits; auto; by etrans]).
Qed.

(** ** Delivery keeps the signal state typed *)

Lemma sig_ok_trim p q : sig_ok p -> trim p q -> sig_ok q.
Proof.
  intros [] []. destruct so_lens0 as (? & ? & ? & ?), so_masks0 as (? & ? & ? & ?), tr_mask0 as (Em & Ei & Es & _),
    tr_tables0 as (Ef & Esm & Er).
  assert (Hdfl : forall i, 1 <= i < 32 -> is_caught (handler_of p i) = false -> handler_of q i = handler_of p i).
  { intros i Hi Hc. destruct (tr_handlers0 i Hi) as [|[Hc' _]]; [done|congruence]. }
  constructor; rewrite ?Ef, ?Esm, ?Er, ?Em, ?Ei, ?Es, ?tr_lens0, ?tr_mode0; auto.
  - intros i Hi Hc Hmd. destruct (tr_handlers0 i Hi) as [E|[_ E]]; rewrite E in Hc |- *; [auto|done].
  - intros i Hi. unfold ignored. rewrite Ei. fold (ignored p i). rewrite so_ignored0 by done.
    destruct (tr_handlers0 i Hi) as [->|[Hc ->]]; [done|]. unfold is_caught in Hc. apply andb_true_iff in Hc as [_ Hc].
    apply bool_decide_eq_true in Hc. by rewrite !bool_decide_false.
  - rewrite Hdfl; [done|unfold SIGKILL; lia|by rewrite so_kill0].
  - rewrite Hdfl; [done|unfold SIGSTOP; lia|by rewrite so_stop0].
Qed.

Lemma sig_ok_exit_with p sig : sig_ok p -> sig_ok (exit_with p sig).
Proof. intros H. sig_frame H. Qed.

Lemma sig_ok_armed p (m : M) sig q m' : sig_ok p -> armed p m sig q m' -> sig_ok q.
Proof.
  intros H ((Hs & _) & _ & sp & fa & m1 & _ & _ & _ & _ & _ & ->). rewrite enter_handler_eq by done.
  pose proof (sig_ok_sa_mask p sig H Hs). sig_frame H.
  - destruct (flag_set _ _); auto with ir0.
  - destruct (signal_mask_saved_valid _); auto.
Qed.

Lemma sig_ok_deliver_loop n p (m : M) sig :
  sig_ok p -> mode p = USER_MODE -> 1 <= sig -> sig + Z.of_nat n <= 32 ->
  match deliver_loop n p m sig with DContinue q _ | DBreak q _ | DExit q => sig_ok q /\ mode q = USER_MODE end.
Proof.
  revert p m sig. induction n as [|n IH]; intros p m sig H Hm Hs Hn; cbn; [done|].
  pose proof (deliver_signal_spec p m sig (proj1 (so_lens _ H)) Hm ltac:(lia)) as Hd.
  destruct (deliver_signal p m sig) as [q m'|q m'|q].
  - destruct Hd as [[Ht ->]|Ha].
    + apply IH; [by eapply sig_ok_trim|by rewrite (tr_mode _ _ Ht)|lia|lia].
    + apply IH; [by eapply sig_ok_armed|by rewrite (proj2 (armed_lens _ _ _ _ _ Ha))|lia|lia].
  - destruct Hd as [Ht _]. split; [by eapply sig_ok_trim|by rewrite (tr_mode _ _ Ht)].
  - destruct Hd as [-> _]. split; [by apply sig_ok_exit_with|done].
Qed.

Lemma error_signal_ok p st sig q : sig_ok p -> error_signal p st sig = Some q -> sig_ok q /\ mode q = mode p.
Proof.
  intros H. unfold error_signal, default_kill_self.
  repeat case_match; intros; simplify_eq; (split; [by apply sig_ok_exit_with|done]).
Qed.

Lemma term_signal_ok p sig : sig_ok p -> match term_signal p sig with inl q | inr q => sig_ok q /\ mode q = mode p end.
Proof.
  intros H. unfold term_signal. repeat case_match; simplify_eq; split; auto using sig_ok_pending_clear, sig_ok_exit_with.
Qed.

Lemma pipe_signal_ok p : sig_ok p -> match pipe_signal p with inl q | inr q => sig_ok q /\ mode q = mode p end.
Proof.
  intros H. unfold pipe_signal. repeat case_match; simplify_eq; split; auto using sig_ok_pending_clear, sig_ok_exit_with.
Qed.

Lemma sig_ok_handle_signals p st (m : M) :
  sig_ok p -> mode p = USER_MODE ->
  match handle_signals p st m with SigReturn q _ _ | SigStop q | SigExit q _ => sig_ok q /\ mode q = USER_MODE end.
Proof.
  intros H Hm. unfold Signal.handle_signals. destruct (decide _); [done|].
  destruct (pending p SIGKILL); [split; [by apply sig_ok_pending_clear|done]|]. destruct (pending p SIGSTOP); [split; [by apply sig_ok_pending_clear|done]|].
  do 4 (destruct (error_signal _ _ _) eqn:E; [rewrite <- Hm; by eapply error_signal_ok|clear E]).
  destruct (_ && ignored p SIGTERM); [split; [by apply sig_ok_pending_clear|done]|].
  destruct (pending p SIGTERM && _); [split; [by apply sig_ok_exit_with|done]|].
  pose proof (term_signal_ok p SIGINT H) as H1. destruct (term_signal p SIGINT) as [p1|]; [|by rewrite <- Hm]. destruct H1 as [H1 M1].
  pose proof (term_signal_ok p1 SIGHUP H1) as H2. destruct (term_signal p1 SIGHUP) as [p2|]; [|by rewrite <- Hm, <- M1]. destruct H2 as [H2 M2].
  pose proof (term_signal_ok p2 SIGQUIT H2) as H3. destruct (term_signal p2 SIGQUIT) as [p3|]; [|by rewrite <- Hm, <- M1, <- M2]. destruct H3 as [H3 M3].
  destruct (pending p3 SIGABRT); [split; [by apply sig_ok_exit_with|cbn; congruence]|].
  pose proof (pipe_signal_ok p3 H3) as H4. destruct (pipe_signal p3) as [p4|]; [|by rewrite <- Hm, <- M1, <- M2, <- M3]. destruct H4 as [H4 M4].
  unfold cont_signal. set (p5 := if negb (pending p4 SIGCONT) then (p4, st) else _).
  assert (Ht5 : sig_ok p5.1 /\ mode p5.1 = mode p4) by (subst p5; destruct (negb _); cbn [fst]; split; auto using sig_ok_pending_clear).
  destruct p5 as [p5 st5]. destruct Ht5 as [H5 M5]. cbn [fst] in *.
  pose proof (sig_ok_deliver_loop 31 p5 m 1 H5 ltac:(congruence) ltac:(lia) ltac:(lia)) as Hl.
  by destruct (deliver_loop 31 p5 m 1).
Qed.
End deliver.
