(* ===== verification/SigFate.v ===== *)
(** * Signals: what becomes of a process with pending signals

    - [signal_fate]: which pending signal decides, in the order in which
      [handle_signals] looks at them;
    - [can_enter]: when a handler can be entered, and that the loop then enters
      the handler of the lowest such signal;
    - when the loop itself ends the process. *)

From S2P Require Import Prelude RecordUpdate Runq Bytes CopyUser ProcState Signal SigFrame SigDeliver.

(** ** The contract *)

(** Signal [sig] has a handler that may run now. *)
Definition handles (p : proc_t) (sig : Z) : bool :=
  negb (ignored p sig) && negb (masked p sig) && is_caught (handler_of p sig) && is_user_pointer (handler_of p sig).

(** A pending [sig] ends the process: a fault without handler, any SIGABRT, and
    a terminating signal neither ignored nor handled (a blocked SIGPIPE waits). *)
Definition dies (p : proc_t) (sig : Z) : bool :=
  pending p sig &&
  if is_fault_signal sig then negb (handles p sig)
  else if decide (sig = SIGABRT) then true
  else negb (ignored p sig) && negb (bool_decide (sig = SIGPIPE) && masked p sig) && negb (handles p sig).

Inductive fate := FKilled | FStopped | FDies (sig : Z) | FTermDropped | FReturns.

Definition signal_fate (p : proc_t) : fate :=
  if pending p SIGKILL then FKilled else
  if pending p SIGSTOP then FStopped else
  match List.find (dies p) [SIGSEGV; SIGFPE; SIGILL; SIGBUS] with Some s => FDies s | None =>
  if pending p SIGTERM && ignored p SIGTERM then FTermDropped else
  match List.find (dies p) [SIGTERM; SIGINT; SIGHUP; SIGQUIT; SIGABRT; SIGPIPE] with
  | Some s => FDies s | None => FReturns end end.

(** ** States that differ by dropped signals *)

Lemma trim_deliverable p q sig : trim p q -> deliverable q sig -> deliverable p sig /\ handler_of q sig = handler_of p sig.
Proof.
  intros [] (Hs & Hp & Hi & Hm & Hc & Hu). destruct tr_mask as (Em & Ei & _).
  assert (E : handler_of q sig = handler_of p sig).
  { destruct (tr_handlers sig Hs) as [|[_ E]]; [done|]. by rewrite E in Hc. }
  split; [|done]. unfold deliverable, ignored, masked in *. rewrite Ei, Em, E in *. splits; auto; try lia. apply tr_pending; [lia|done].
Qed.

Lemma trim_context p q : trim p q -> interrupted_context q = interrupted_context p.
Proof. intros []. unfold interrupted_context. by rewrite tr_resume, tr_regs. Qed.

Lemma trim_pick p q sp : trim p q -> signal_pick_handler_sp q sp = signal_pick_handler_sp p sp.
Proof.
  intros []. destruct tr_stack as [E1 E2]. unfold signal_pick_handler_sp, signal_sp_in_stack.
  assert (E : stack_bounds q = stack_bounds p) by (unfold stack_bounds; by rewrite E1, E2). rewrite E. reflexivity.
Qed.

Lemma trim_registered p q rip : trim p q -> signal_rip_is_registered_handler p rip = false -> signal_rip_is_registered_handler q rip = false.
Proof.
  intros [] H. unfold signal_rip_is_registered_handler in *. destruct (decide _); [done|].
  apply not_true_iff_false. intros Hq. apply not_true_iff_false in H. apply H. clear H.
  rewrite existsb_exists in *. destruct Hq as (i & Hin & Hi). exists i. split; [done|].
  apply in_seq in Hin. apply andb_true_iff in Hi as [Hc Hr].
  destruct (tr_handlers (Z.of_nat i) ltac:(lia)) as [E|[_ E]]; rewrite E in *; [by rewrite Hc, Hr|done].
Qed.

Lemma pick_slot p saved_sp sp fa :
  signal_pick_handler_sp p saved_sp = Some (sp, fa) -> fa = sp + 8 /\ 0x400000 <= sp <= 0x7FFFFFFFFFFF.
Proof.
  unfold signal_pick_handler_sp. destruct (stack_bounds p) as [lo hi]. cbv zeta.
  set (u := if decide (_ /\ _) then 0 else _). clearbody u.
  assert (Hfin : forall v, (if decide (u64 (u64 (v - SIGFRAME_SIZE) - 8) < u64 (lo + 2048) \/ u64 (u64 (v - SIGFRAME_SIZE) + SIGFRAME_SIZE) > hi)
      then None else if decide (u64 (u64 (v - SIGFRAME_SIZE) - 8) < 0x400000 \/ u64 (u64 (v - SIGFRAME_SIZE) - 8) > 0x7FFFFFFFFFFF) then None
      else Some (u64 (u64 (v - SIGFRAME_SIZE) - 8), u64 (v - SIGFRAME_SIZE))) = Some (sp, fa) -> fa = sp + 8 /\ 0x400000 <= sp <= 0x7FFFFFFFFFFF).
  { intros v. destruct (decide _); [done|]. destruct (decide _) as [|Hr]; [done|]. intros [= <- <-].
    set (f := u64 (v - SIGFRAME_SIZE)) in *. assert (Hf : 0 <= f < 2 ^ 64) by (apply Z.mod_pos_bound; lia).
    destruct (decide (f < 8)) as [Hs|Hs].
    - exfalso. unfold u64 in Hr. rewrite <- (Z.mod_add (f - 8) 1), Z.mod_small in Hr by lia. lia.
    - rewrite u64_id in Hr |- * by lia. lia. }
  destruct (decide (u = 0 \/ _)); [destruct (decide _); [done|]|destruct (decide _); [done|]]; apply Hfin.
Qed.

(** An ignored pending signal is dropped. *)
Definition quiet (p : proc_t) (sig : Z) : proc_t := if pending p sig && ignored p sig then pending_clear sig p else p.

Lemma trim_quiet p sig : 1 <= sig < 32 -> trim p (quiet p sig).
Proof.
  intros Hs. unfold quiet. destruct (pending p sig && ignored p sig) eqn:E; [|done].
  apply andb_true_iff in E as [_ E]. apply trim_clear; [lia|auto].
Qed.

Lemma pending_quiet p sig i : 1 <= sig < 32 -> 1 <= i < 32 ->
  pending (quiet p sig) i = pending p i && negb (bool_decide (i = sig) && ignored p sig).
Proof.
  intros Hs Hi. unfold quiet. destruct (pending p sig && ignored p sig) eqn:E.
  - apply andb_true_iff in E as [Ep Ei]. rewrite pending_clear_cases, Ei, andb_true_r by lia.
    destruct (decide (i = sig)) as [->|]; [rewrite bool_decide_true by done; by rewrite andb_false_r|].
    rewrite bool_decide_false by done. by rewrite andb_true_r.
  - case_bool_decide as Hi'; [subst i|by rewrite andb_true_r]. destruct (pending p sig), (ignored p sig); done.
Qed.

Lemma quiet_same p sig i : ignored (quiet p sig) i = ignored p i /\ masked (quiet p sig) i = masked p i /\
  handler_of (quiet p sig) i = handler_of p i /\ mode (quiet p sig) = mode p.
Proof. unfold quiet. by destruct (_ && _). Qed.

Lemma dies_quiet p sig i : 1 <= sig < 32 -> 1 <= i < 32 -> i <> sig -> dies (quiet p sig) i = dies p i.
Proof.
  intros Hs Hi Hne. destruct (quiet_same p sig i) as (E1 & E2 & E3 & _). unfold dies, handles.
  rewrite E1, E2, E3, pending_quiet, bool_decide_false by done. by rewrite andb_true_r.
Qed.

Ltac sig_num := first [lia | by vm_compute].

(** ** The tests before the loop *)

Section fate.
Context {M : Type} `{!SigMem M}.
Context (single_step : bool) (kmalloc_ok : Z -> bool) (kernel_call : Z -> Z -> proc_t -> proc_t).
Abbreviation deliver_signal := (deliver_signal single_step kmalloc_ok kernel_call).
Abbreviation deliver_loop := (deliver_loop single_step kmalloc_ok kernel_call).
Abbreviation handle_signals := (handle_signals single_step kmalloc_ok kernel_call).
Abbreviation armed := (armed single_step).
Abbreviation delivered := (delivered single_step).

Lemma has_handler_eq p sig : mode p = USER_MODE -> 1 <= sig < 32 -> signals_has_user_handler p sig = handles p sig.
Proof using Type.
  intros Hm Hs. unfold signals_has_user_handler, handles, _NSIG. rewrite decide_False by lia.
  destruct (ignored p sig), (masked p sig), (is_caught (handler_of p sig)); cbn; try done.
  rewrite bool_decide_true by done. by destruct (is_user_pointer _).
Qed.

Lemma error_signal_eq p st sig : mode p = USER_MODE -> 1 <= sig < 32 -> is_fault_signal sig = true ->
  error_signal p st sig = if dies p sig then Some (exit_with p sig) else None.
Proof using Type.
  intros Hm Hs Hf. unfold error_signal, dies, default_kill_self. rewrite has_handler_eq, Hf by done.
  destruct (pending p sig), (handles p sig); cbn; try done. destruct (decide _); [done|]. by destruct (negb _).
Qed.

Lemma term_signal_eq p sig : mode p = USER_MODE -> 1 <= sig < 32 -> is_fault_signal sig = false -> sig <> SIGABRT -> sig <> SIGPIPE ->
  term_signal p sig = if dies p sig then inr (exit_with p sig) else inl (quiet p sig).
Proof using Type.
  intros Hm Hs Hf Ha Hp. unfold term_signal, dies, quiet. rewrite has_handler_eq, Hf, decide_False, bool_decide_false by done.
  destruct (pending p sig), (ignored p sig), (handles p sig); done.
Qed.

Lemma pipe_signal_eq p : mode p = USER_MODE -> pipe_signal p = if dies p SIGPIPE then inr (exit_with p SIGPIPE) else inl (quiet p SIGPIPE).
Proof using Type.
  intros Hm. unfold pipe_signal, dies, quiet. rewrite has_handler_eq by sig_num. cbn [is_fault_signal].
  destruct (pending p SIGPIPE), (ignored p SIGPIPE), (masked p SIGPIPE), (handles p SIGPIPE); done.
Qed.

(** The process at the head of the delivery loop. *)
Definition before_loop (p : proc_t) : proc_t :=
  let p4 := quiet (quiet (quiet (quiet p SIGINT) SIGHUP) SIGQUIT) SIGPIPE in
  if pending p4 SIGCONT then pending_clear SIGCONT p4 else p4.

Definition continued (p : proc_t) (st : process_state_t) : process_state_t :=
  if pending p SIGCONT && bool_decide (st = PROCESS_BLOCKED) then PROCESS_READY else st.

Lemma nothing_pending p i : signal_pending (signals p) = 0 -> pending p i = false.
Proof using Type. intros E. unfold pending, flag_set. by rewrite E, Z.land_0_l. Qed.

Lemma deliver_loop_idle n p (m : M) sig : signal_pending (signals p) = 0 -> deliver_loop n p m sig = DContinue p m.
Proof.
  intros E. revert sig. induction n as [|n IH]; intros sig; [done|]. cbn. unfold Signal.deliver_signal.
  rewrite (nothing_pending p sig E). apply IH.
Qed.

Lemma trim_before_loop p : trim p (before_loop p).
Proof using Type.
  unfold before_loop. cbv zeta. transitivity (quiet (quiet (quiet (quiet p SIGINT) SIGHUP) SIGQUIT) SIGPIPE).
  - do 3 (etrans; [|apply trim_quiet; sig_num]). apply trim_quiet. sig_num.
  - destruct (pending _ SIGCONT); [|done]. apply trim_clear; [sig_num|auto].
Qed.

(** Pending before the loop: everything but SIGCONT and the ignored ones among
    SIGINT, SIGHUP, SIGQUIT and SIGPIPE. *)
Lemma pending_before_loop p i : 1 <= i < 32 ->
  pending (before_loop p) i =
  pending p i && negb (bool_decide (i = SIGCONT) || bool_decide (i ∈ [SIGINT; SIGHUP; SIGQUIT; SIGPIPE]) && ignored p i).
Proof using Type.
  intros Hi. unfold before_loop. cbv zeta. set (p4 := quiet _ SIGPIPE).
  assert (E4 : pending p4 i = pending p i && negb (bool_decide (i ∈ [SIGINT; SIGHUP; SIGQUIT; SIGPIPE]) && ignored p i)).
  { unfold p4. rewrite !pending_quiet by sig_num. rewrite !(proj1 (quiet_same _ _ _)).
    destruct (decide (i = SIGINT)) as [->|]; [by destruct (pending p _), (ignored p SIGINT), (ignored p SIGHUP), (ignored p SIGQUIT), (ignored p SIGPIPE)|].
    destruct (decide (i = SIGHUP)) as [->|]; [by destruct (pending p _), (ignored p SIGINT), (ignored p SIGHUP), (ignored p SIGQUIT), (ignored p SIGPIPE)|].
    destruct (decide (i = SIGQUIT)) as [->|]; [by destruct (pending p _), (ignored p SIGINT), (ignored p SIGHUP), (ignored p SIGQUIT), (ignored p SIGPIPE)|].
    destruct (decide (i = SIGPIPE)) as [->|]; [by destruct (pending p _), (ignored p SIGINT), (ignored p SIGHUP), (ignored p SIGQUIT), (ignored p SIGPIPE)|].
    rewrite !bool_decide_false; [by rewrite !andb_true_r|..]; try done.
    rewrite !elem_of_cons. intros [?|[?|[?|[?|?%elem_of_nil]]]]; done. }
  destruct (decide (i = SIGCONT)) as [->|Hne].
  - rewrite bool_decide_true, orb_true_l, andb_false_r by done.
    destruct (pending p4 SIGCONT) eqn:E; [apply pending_clear_same; sig_num|done].
  - rewrite bool_decide_false, orb_false_l by done. rewrite <- E4.
    destruct (pending p4 SIGCONT); [|done]. by apply pending_clear_other; [sig_num|lia|].
Qed.

(** [handle_signals] decides by [signal_fate]. *)
Lemma handle_signals_fate p st (m : M) : mode p = USER_MODE ->
  match signal_fate p with
  | FKilled => handle_signals p st m = SigExit (pending_clear SIGKILL p) (-1)
  | FStopped => handle_signals p st m = SigStop (pending_clear SIGSTOP p)
  | FDies s => exists p1, trim p p1 /\ handle_signals p st m = SigExit (exit_with p1 s) 0
  | FTermDropped => handle_signals p st m = SigReturn (pending_clear SIGTERM p) st m
  | FReturns => handle_signals p st m =
      match deliver_loop 31 (before_loop p) m 1 with
      | DContinue q m' | DBreak q m' => SigReturn q (continued p st) m' | DExit q => SigExit q 0
      end
  end.
Proof.
  intros Hm. unfold Signal.handle_signals, signal_fate. destruct (decide (signal_pending (signals p) = 0)) as [E0|_].
  { pose proof (fun i => nothing_pending p i E0) as Hn.
    assert (Hd : forall i, dies p i = false) by (intros i; unfold dies; by rewrite Hn).
    assert (Hq : forall i, quiet p i = p) by (intros i; unfold quiet; by rewrite Hn).
    assert (Hb : before_loop p = p) by (unfold before_loop; cbv zeta; by rewrite !Hq, Hn).
    assert (Hc : continued p st = st) by (unfold continued; by rewrite Hn).
    rewrite !Hn. cbn [List.find]. rewrite !Hd. cbn [andb]. by rewrite Hb, Hc, deliver_loop_idle. }
  destruct (pending p SIGKILL); [done|]. destruct (pending p SIGSTOP); [done|]. cbn [List.find].
  do 4 (rewrite error_signal_eq by (done || sig_num); destruct (dies p _); [by exists p|]).
  destruct (pending p SIGTERM && ignored p SIGTERM) eqn:Et; [done|].
  rewrite has_handler_eq by (done || sig_num).
  assert (ET : dies p SIGTERM = pending p SIGTERM && negb (handles p SIGTERM)).
  { unfold dies. cbn [is_fault_signal]. destruct (pending p SIGTERM), (ignored p SIGTERM), (handles p SIGTERM); done. }
  rewrite <- ET. destruct (dies p SIGTERM); [by exists p|]. clear Et ET.
  rewrite term_signal_eq by (done || sig_num). destruct (dies p SIGINT); [by exists p|].
  set (p1 := quiet p SIGINT). assert (M1 : mode p1 = USER_MODE) by (rewrite <- Hm; apply (quiet_same _ _ 1)).
  rewrite term_signal_eq by (done || sig_num). rewrite <- (dies_quiet p SIGINT SIGHUP) by sig_num. fold p1.
  assert (T1 : trim p p1) by (apply trim_quiet; sig_num). destruct (dies p1 SIGHUP); [by exists p1|].
  set (p2 := quiet p1 SIGHUP). assert (M2 : mode p2 = USER_MODE) by (rewrite <- M1; apply (quiet_same _ _ 1)).
  rewrite term_signal_eq by (done || sig_num). rewrite <- (dies_quiet p SIGINT SIGQUIT) by sig_num. fold p1.
  rewrite <- (dies_quiet p1 SIGHUP SIGQUIT) by sig_num. fold p2.
  assert (T2 : trim p p2) by (etrans; [exact T1|apply trim_quiet; sig_num]). destruct (dies p2 SIGQUIT); [by exists p2|].
  set (p3 := quiet p2 SIGQUIT). assert (M3 : mode p3 = USER_MODE) by (rewrite <- M2; apply (quiet_same _ _ 1)).
  assert (T3 : trim p p3) by (etrans; [exact T2|apply trim_quiet; sig_num]).
  rewrite <- (dies_quiet p SIGINT SIGABRT), <- (dies_quiet p SIGINT SIGPIPE) by sig_num. fold p1.
  rewrite <- (dies_quiet p1 SIGHUP SIGABRT), <- (dies_quiet p1 SIGHUP SIGPIPE) by sig_num. fold p2.
  rewrite <- (dies_quiet p2 SIGQUIT SIGABRT), <- (dies_quiet p2 SIGQUIT SIGPIPE) by sig_num. fold p3.
  assert (EA : dies p3 SIGABRT = pending p3 SIGABRT) by apply andb_true_r. rewrite EA. destruct (pending p3 SIGABRT); [by exists p3|].
  rewrite pipe_signal_eq by done. destruct (dies p3 SIGPIPE); [by exists p3|].
  unfold cont_signal. fold (before_loop p). unfold before_loop, continued. cbv zeta. fold p1. fold p2. fold p3.
  set (p4 := quiet p3 SIGPIPE). assert (EC : pending p4 SIGCONT = pending p SIGCONT).
  { unfold p4, p3, p2, p1. rewrite !pending_quiet by sig_num. rewrite !bool_decide_false by done. by rewrite !andb_true_r. }
  rewrite EC. destruct (pending p SIGCONT); cbn; [|done]. by destruct (decide (st = PROCESS_BLOCKED)); [rewrite bool_decide_true|rewrite bool_decide_false].
Qed.

(** ** The loop *)

(** Entering a handler leaves no more deliverable than there was. *)
Lemma armed_deliverable p (m : M) sig q m' s : armed p m sig q m' -> deliverable q s -> deliverable p s.
Proof.
  intros ((Hs & _) & _ & sp & fa & m1 & _ & _ & _ & _ & _ & ->). rewrite enter_handler_eq by done.
  unfold deliverable, pending, ignored, masked, handler_of. cbn. intros (H1 & Hp & Hi & Hm & Hc & Hu). splits; auto; try lia.
  - rewrite signal_flag_bit, testbit_bits_clear in Hp by lia. apply andb_true_iff in Hp as [Hp _]. by rewrite signal_flag_bit by lia.
  - rewrite signal_flag_bit in Hm |- * by lia. destruct (flag_set _ SA_NODEFER); rewrite !Z.lor_spec, !orb_false_iff in Hm; tauto.
Qed.

Lemma armed_pending p (m : M) sig q m' i : armed p m sig q m' -> 1 <= i < 32 -> i <> sig ->
  pending q i = pending p i /\ handler_of q i = handler_of p i /\ ignored q i = ignored p i /\ comm q = comm p /\
  (masked q i = false -> masked p i = false).
Proof.
  intros ((Hs & _) & _ & sp & fa & m1 & _ & _ & _ & _ & _ & ->) Hi Hne. rewrite enter_handler_eq by done.
  unfold pending, masked, ignored, handler_of. cbn. splits; auto.
  - rewrite !signal_flag_bit, testbit_bits_clear, testbit_mask, bool_decide_false by (done || lia). by rewrite andb_true_r.
  - rewrite !signal_flag_bit by lia. destruct (flag_set _ SA_NODEFER); rewrite !Z.lor_spec, !orb_false_iff; tauto.
Qed.

Lemma armed_wide p (m : M) sig q m' : armed p m sig q m' -> sig_wide (signals p) -> sig_wide (signals q).
Proof.
  intros ((Hs & _) & _ & sp & fa & m1 & _ & _ & Hp & _ & _ & ->) H. rewrite enter_handler_eq by done.
  apply pick_slot in Hp as [_ Hsp]. assert (Hu : u8 sig = sig) by (apply Z.mod_small; lia).
  destruct H as [? [? ?] (? & ? & ?) ?]. constructor; cbn; rewrite ?Hu; splits; auto; unfold word64; lia.
Qed.

(** The loop ends the process only for a fault signal that has a handler. *)
Lemma deliver_loop_exit n p (m : M) sig q :
  length (signal_handlers (signals p)) = 32%nat -> mode p = USER_MODE -> 1 <= sig -> sig + Z.of_nat n <= 32 ->
  deliver_loop n p m sig = DExit q ->
  exists s p1, q = exit_with p1 s /\ is_fault_signal s = true /\ deliverable p s /\ (sig_wide (signals p) -> sig_wide (signals p1)).
Proof.
  revert p m sig. induction n as [|n IH]; intros p m sig Hl Hm Hs Hn; cbn; [done|].
  pose proof (deliver_signal_spec single_step kmalloc_ok kernel_call p m sig Hl Hm ltac:(lia)) as Hd.
  destruct (deliver_signal p m sig) as [p1 m1|p1 m1|p1]; [|done|intros [= <-]; exists sig, p; tauto].
  intros E. destruct Hd as [[Ht ->]|Ha].
  - destruct (IH p1 m (sig + 1)) as (s & p2 & -> & Hf & Hd & Hw); auto; [by rewrite (tr_lens _ _ Ht)|by rewrite (tr_mode _ _ Ht)|lia|lia|].
    exists s, p2. splits; auto; [by destruct (trim_deliverable _ _ _ Ht Hd)|]. intros ?. by apply Hw, (tr_wide _ _ Ht).
  - destruct (armed_lens _ _ _ _ _ _ Ha) as [El Em].
    destruct (IH p1 m1 (sig + 1)) as (s & p2 & -> & Hf & Hd & Hw); auto; [congruence|congruence|lia|lia|].
    exists s, p2. splits; auto; [by eapply armed_deliverable|]. intros ?. by apply Hw, (armed_wide _ _ _ _ _ Ha).
Qed.

(** The handler of [sig] can be entered, leaving the stack as [m']. *)
Definition can_enter (p : proc_t) (m : M) (sig : Z) (m' : M) : Prop :=
  deliverable p sig /\ (sig = SIGCHLD -> wait_blocked (wait p) = false /\ comm p <> "run"%string) /\
  signal_defer_catchable (signals p) = false /\ kmalloc_ok sig = true /\
  let ctx := interrupted_context p in
  let restorer := signal_restorer (signals p) !!! Z.to_nat sig in
  0x400000 <= c_rip ctx <= 0x7FFFFFFFFFFF /\ 0x400000 <= c_rsp ctx <= 0x7FFFFFFFFFFF /\
  signal_rip_is_registered_handler p (c_rip ctx) = false /\ is_user_pointer restorer = true /\
  exists sp fa m1, signal_pick_handler_sp p (c_rsp ctx) = Some (sp, fa) /\
    store_frame m fa {| sf_handler := handler_of p sig; sf_signum := sig; sf_ctx := ctx; sf_oldmask := signal_mask (signals p) |} = (m1, true) /\
    store_word m1 sp restorer = (m', true).

Lemma can_enter_armed p (m : M) sig m' : mode p = USER_MODE -> signal_delivery_blocked_nested p = false -> can_enter p m sig m' ->
  exists q, deliver_signal p m sig = DContinue q m' /\ armed p m sig q m'.
Proof using Type.
  intros Hm Hn (Hd & Hch & Hdef & Hk & Hrip & Hrsp & Hreg & Hrest & sp & fa & m1 & Hpick & E1 & E2).
  pose proof Hd as (Hs & Hp & Hi & Hmk & Hc & Hu). unfold Signal.deliver_signal. rewrite Hp, Hi, Hmk, Hc, Hdef, Hu. cbn [negb].
  assert (Hsc : bool_decide (sig = SIGCHLD) && wait_blocked (wait p) = false /\
    bool_decide (sig = SIGCHLD) && bool_decide (comm p = "run"%string) = false).
  { case_bool_decide as E; [|done]. destruct (Hch E) as [-> ?]. by rewrite bool_decide_false. }
  destruct Hsc as [-> ->]. rewrite decide_True by done. unfold arm_user_handler. rewrite Hn, Hk. cbn [negb].
  rewrite !decide_False by lia. rewrite Hreg. unfold process_saved_context_attach.
  unfold signal_delivery_blocked_nested in Hn. apply orb_false_iff in Hn as [Esc Eep]. rewrite Esc.
  set (p1 := p <| signals := _ |>).
  change (signal_pick_handler_sp p1 (c_rsp (interrupted_context p))) with (signal_pick_handler_sp p (c_rsp (interrupted_context p))).
  rewrite Hpick. change (signal_restorer (signals p1)) with (signal_restorer (signals p)).
  rewrite decide_False.
  2: { rewrite Hrest. intros [E|?]; [|done]. rewrite E in Hrest. by vm_compute in Hrest. }
  change (signal_mask (signals p1)) with (signal_mask (signals p)). rewrite E1. cbn [negb]. rewrite E2. cbn [negb].
  eexists. split; [reflexivity|]. split; [done|]. split; [unfold signal_delivery_blocked_nested; by rewrite Esc, Eep|].
  exists sp, fa, m1. cbv zeta. splits; auto; apply in_user_range; lia.
Qed.

Lemma can_enter_trim p q (m : M) sig m' : trim p q -> pending q sig = pending p sig -> handler_of q sig = handler_of p sig ->
  can_enter p m sig m' -> can_enter q m sig m'.
Proof using Type.
  intros Ht Ep Eh ((Hs & Hp & Hi & Hmk & Hc & Hu) & Hch & Hdef & Hk & Hrip & Hrsp & Hreg & Hrest & H).
  pose proof Ht as []. destruct tr_mask as (Em & Ei & _), tr_tables as (_ & _ & Er).
  unfold can_enter, deliverable, ignored, masked in *. cbv zeta in *.
  rewrite (trim_context _ _ Ht), tr_wait, tr_comm, tr_defer, Em, Ei, Er, Ep, Eh, (trim_pick _ _ _ Ht). splits; auto; try lia.
  by eapply trim_registered.
Qed.

(** A signal that is not deliverable does not concern the others. *)
Lemma deliver_signal_skip p (m : M) j :
  length (signal_handlers (signals p)) = 32%nat -> mode p = USER_MODE -> 1 <= j < 32 -> ~ deliverable p j ->
  exists q, deliver_signal p m j = DContinue q m /\ trim p q /\
    forall i, 1 <= i < 32 -> i <> j -> pending q i = pending p i /\ handler_of q i = handler_of p i.
Proof.
  intros Hl Hm Hj Hnd. pose proof (deliver_signal_spec single_step kmalloc_ok kernel_call p m j Hl Hm Hj) as Hd.
  assert (Hcl : forall i, 1 <= i < 32 -> i <> j -> pending (pending_clear j p) i = pending p i) by (intros; apply pending_clear_other; lia).
  assert (Hid : exists q, @DContinue M p m = DContinue q m /\ trim p q /\
    forall i, 1 <= i < 32 -> i <> j -> pending q i = pending p i /\ handler_of q i = handler_of p i) by (exists p; by splits).
  unfold Signal.deliver_signal in *. unfold deliverable in Hnd.
  destruct (pending p j) eqn:Ep; cbn [negb] in *; [|done].
  destruct (ignored p j) eqn:Ei; [exists (pending_clear j p); splits; auto; apply trim_clear; [lia|auto]|].
  destruct (masked p j) eqn:Em; [done|]. destruct (bool_decide (j = SIGCHLD) && wait_blocked (wait p)); [done|].
  destruct (bool_decide (j = SIGCHLD) && bool_decide (comm p = _)) eqn:Er.
  { apply andb_true_iff in Er as [Ej%bool_decide_eq_true Hr%bool_decide_eq_true]. rewrite <- Ej in *.
    exists (pending_clear j p). splits; auto. apply trim_clear; [lia|]. right. right. split; [exact Ej|done]. }
  destruct (is_caught (handler_of p j)) eqn:Ec; cbn [negb] in *; [|done].
  destruct (signal_defer_catchable (signals p)); [done|]. destruct (is_user_pointer (handler_of p j)) eqn:Eu; [exfalso; apply Hnd; splits; auto; lia|].
  eexists. split; [reflexivity|]. split; [by apply trim_drop|]. intros i Hi Hne. split.
  - rewrite pending_clear_other by lia. done.
  - unfold handler_of. cbn. rewrite lookup_total_insert_Z by (rewrite ?Hl; lia). by rewrite decide_False.
Qed.

(** The lowest deliverable signal is the one whose handler runs. *)
Lemma deliver_loop_enters n p (m : M) sig t m1 :
  length (signal_handlers (signals p)) = 32%nat -> mode p = USER_MODE -> signal_delivery_blocked_nested p = false ->
  1 <= sig -> sig + Z.of_nat n <= 32 -> sig <= t < sig + Z.of_nat n ->
  (forall j, sig <= j < t -> ~ deliverable p j) -> can_enter p m t m1 ->
  match deliver_loop n p m sig with
  | DContinue q m' | DBreak q m' => exists p1 qa, trim p p1 /\ armed p1 m t qa m1 /\ trim qa q /\ m' = m1
  | DExit _ => True
  end.
Proof.
  revert p sig. induction n as [|n IH]; intros p sig Hl Hm Hn Hs Hb Ht Hlow Hc; [lia|]. cbn [Signal.deliver_loop].
  destruct (decide (sig = t)) as [->|Hne].
  - destruct (can_enter_armed p m t m1 Hm Hn Hc) as (qa & -> & Ha). destruct (armed_lens _ _ _ _ _ _ Ha) as [El Em].
    pose proof (deliver_loop_nested single_step kmalloc_ok kernel_call n qa m1 (t + 1) ltac:(congruence) ltac:(congruence) ltac:(lia) ltac:(lia)
      (armed_nested _ _ _ _ _ _ Ha)) as Hnest.
    destruct (deliver_loop n qa m1 (t + 1)); [|done|done]. destruct Hnest as [Hq ->]. exists p, qa. by splits.
  - destruct (deliver_signal_skip p m sig Hl Hm ltac:(lia) (Hlow sig ltac:(lia))) as (q & -> & Hq & Ho).
    destruct (Ho t ltac:(lia) ltac:(lia)) as [Ep Eh].
    specialize (IH q (sig + 1)). destruct (deliver_loop n q m (sig + 1)) as [q' m'|q' m'|]; [| |done];
      (destruct IH as (p1 & qa & H1 & H2 & H3 & H4);
       [by rewrite (tr_lens _ _ Hq)|by rewrite (tr_mode _ _ Hq)|by rewrite (trim_nested _ _ Hq)|lia|lia|lia| |by eapply can_enter_trim|];
       [intros j Hj Hd; apply (Hlow j ltac:(lia)); by destruct (trim_deliverable _ _ _ Hq Hd)|];
       exists p1, qa; splits; auto; by etrans).
Qed.

(** ** Widths *)

Lemma wide_delivered p (m : M) from q m' : delivered p m from q m' -> sig_wide (signals p) -> sig_wide (signals q).
Proof.
  intros [Ht|(p1 & s & qa & H1 & _ & Ha & Hq)] Hw; [by apply (tr_wide _ _ Ht)|].
  apply (tr_wide _ _ Hq), (armed_wide _ _ _ _ _ Ha). by apply (tr_wide _ _ H1).
Qed.

Lemma wide_exit_with p sig : sig_wide (signals p) -> sig_wide (signals (exit_with p sig)).
Proof. intros H. sig_wide_frame H. Qed.

Lemma wide_handle_signals p st (m : M) :
  length (signal_handlers (signals p)) = 32%nat -> mode p = USER_MODE -> sig_wide (signals p) ->
  match handle_signals p st m with SigReturn q _ _ | SigStop q | SigExit q _ => sig_wide (signals q) end.
Proof.
  intros Hl Hm Hw. pose proof (handle_signals_fate p st m Hm) as H. pose proof (trim_before_loop p) as Ht.
  assert (Hl5 : length (signal_handlers (signals (before_loop p))) = 32%nat) by (by rewrite (tr_lens _ _ Ht)).
  assert (Hm5 : mode (before_loop p) = USER_MODE) by (by rewrite (tr_mode _ _ Ht)).
  pose proof (tr_wide _ _ Ht Hw) as Hw5.
  destruct (signal_fate p).
  - rewrite H. by apply wide_pending_clear.
  - rewrite H. by apply wide_pending_clear.
  - destruct H as (p1 & H1 & ->). apply wide_exit_with. by apply (tr_wide _ _ H1).
  - rewrite H. by apply wide_pending_clear.
  - pose proof (deliver_loop_spec single_step kmalloc_ok kernel_call 31 _ m 1 Hl5 Hm5 ltac:(lia) ltac:(lia)) as Hd. rewrite H.
    destruct (deliver_loop 31 (before_loop p) m 1) as [q m'|q m'|q] eqn:E; [by eapply wide_delivered|by eapply wide_delivered|].
    apply deliver_loop_exit in E as (s & p1 & -> & _ & _ & Hp1); [|done|done|lia|lia]. by apply wide_exit_with, Hp1.
Qed.
End fate.

Lemma wide_fault {M : Type} `{!SigInfoMem M} single_step kmalloc_ok p (m : M) sig frame addr :
  sig_wide (signals p) ->
  match signals_deliver_from_irq_frame single_step kmalloc_ok p m sig frame addr with
  | IrqReturn q _ _ _ | IrqExit q => sig_wide (signals q)
  end.
Proof.
  intros H. unfold signals_deliver_from_irq_frame.
  assert (Hu : forall fr (m' : M), match irq_undeliverable p fr m' sig with IrqReturn q _ _ _ | IrqExit q => sig_wide (signals q) end).
  { intros fr m'. unfold irq_undeliverable. destruct (is_fault_signal sig); [by apply wide_exit_with|done]. }
  destruct (negb _); [done|]. destruct (decide _); [done|]. destruct (signal_delivery_blocked_nested p); [apply Hu|].
  destruct (negb _); [done|]. set (ctx := signal_fill_sigcontext_from_irq_frame frame). clearbody ctx.
  destruct (signal_rip_is_registered_handler p _); [apply Hu|]. unfold process_saved_context_attach.
  destruct (process_saved_context_present p); [apply Hu|].
  set (q := p <| signals := _ |>). assert (Hq : sig_wide (signals q)) by (sig_wide_frame H). clearbody q.
  assert (Hclr : sig_wide (signals (process_saved_context_clear q))) by (sig_wide_frame Hq).
  destruct (signal_pick_handler_sp q _) as [[sp fa]|] eqn:Ep; [|exact Hclr]. apply pick_slot in Ep as [_ Hsp].
  destruct (if flag_set _ SA_SIGINFO then _ else _) as [[[[ia ua] m'] ok]|]; [|exact Hclr].
  destruct (negb ok); [exact Hclr|]. cbv zeta.
  set (fr := signal_redirect_irq_frame _ _ _ _ _ _ _). clearbody fr.
  set (r := process_save_user_exception_frame single_step q fr).
  assert (Hr : sig_wide (signals r)).
  { subst r. unfold process_save_user_exception_frame. destruct (decide _); [done|]. by destruct (negb _). }
  clearbody r. set (fl := signal_sa_flags _ !!! _). clearbody fl.
  set (v := if flag_set fl SA_RESETHAND then handler_reset sig r else r).
  assert (Hv : sig_wide (signals v)) by (subst v; destruct (flag_set fl SA_RESETHAND); [by apply wide_handler_reset|done]).
  clearbody v. apply wide_pending_clear, wide_apply_mask. destruct Hv as [? [? ?] (? & ? & ?) ?].
  constructor; cbn; splits; auto; unfold word64; lia.
Qed.
