(* ===== verification/SigSpec.v ===== *)
(** * Signals: delivery and return, as the process sees them

    The state stays typed whatever the process and the kernel do; a returning
    [handle_signals] enters at most one handler, with the frame that brings the
    process back; and returning from the handler resumes the interrupted system
    call with its registers and signal mask. *)

From S2P Require Import Prelude RecordUpdate Runq Bytes CopyUser ProcState Signal SigFrame SigDeliver SigFate.

Section claims.
Context {M : Type} `{!SigMem M, !SigMemLaws M, !SigInfoMem M}.
Context (single_step : bool) (kmalloc_ok : Z -> bool) (kernel_call : Z -> Z -> proc_t -> proc_t).
Abbreviation handle_signals := (handle_signals single_step kmalloc_ok kernel_call).
Abbreviation sys_sigreturn := (sys_sigreturn single_step kmalloc_ok kernel_call).

(** The state after the delivery of [sig], relative to the one before. *)
Record entered (p : proc_t) (sig : Z) (q : proc_t) (m' : M) : Prop := {
  en_deliverable : deliverable p sig;
  en_rip : t_rip (regs q) = handler_of p sig;
  en_rdi : t_rdi (regs q) = sig;
  en_ring : task_cs_is_user (regs q) = true;
  en_slot : 0x400000 <= t_rsp (regs q) <= 0x7FFFFFFFFFFF;
  en_frame : load_frame m' (t_rsp (regs q) + 8) =
             Some {| sf_handler := handler_of p sig; sf_signum := sig; sf_ctx := interrupted_context p;
                     sf_oldmask := signal_mask (signals p) |};
  en_site : process_rip_in_user_range (c_rip (interrupted_context p)) = true /\
            process_rip_in_user_range (c_rsp (interrupted_context p)) = true;
  en_saved : saved_context (signals q) = Some (interrupted_context p) /\ signal_enter_pending (signals q) = true /\
             signal_last_delivered (signals q) = sig;
  en_pending : pending q sig = false;
  en_mask : signal_mask (signals q) =
    Z.lor (Z.lor (signal_mask (signals p)) (signal_sa_mask (signals p) !!! Z.to_nat sig))
          (if flag_set (signal_sa_flags (signals p) !!! Z.to_nat sig) SA_NODEFER then 0 else SIGNAL_MASK sig);
  en_resume : kernel_sleep_interrupted (resume q) = kernel_sleep_interrupted (backup_resume (resume p)) /\
              kernel_sleep_syscall_frame (resume q) = kernel_sleep_syscall_frame (backup_resume (resume p)) /\
              syscall_block_nr (resume q) = syscall_block_nr (backup_resume (resume p));
  en_flags : signal_sa_flags (signals q) = signal_sa_flags (signals p)
}.

Lemma u8_sig sig : 1 <= sig < 32 -> u8 sig = sig.
Proof. intros H. apply Z.mod_small. lia. Qed.

Lemma sig_arg sig : 1 <= sig < 32 -> u64 (u32 sig) = sig.
Proof. intros H. unfold u64, u32. by rewrite !Z.mod_small by (rewrite ?Z.mod_small; lia). Qed.

(** One delivery, between states that differ by [trim]. *)
Lemma delivered_entered p (m : M) p1 sig qa m' q :
  trim p p1 -> armed single_step p1 m sig qa m' -> trim qa q -> entered p sig q m'.
Proof.
  intros Ht (Hd & Hn & sp & fa & m1 & Hrip & Hrsp & Epick & E1 & E2 & Eq) Hq. cbv zeta in *.
  destruct (trim_deliverable _ _ _ Ht Hd) as [Hd' Eh]. pose proof Hd' as (Hs & _).
  rewrite (trim_context _ _ Ht) in *. rewrite (trim_pick _ _ _ Ht) in Epick. apply pick_slot in Epick as [Hfa Hsp].
  rewrite enter_handler_eq in Eq by done. pose proof (sig_arg sig Hs) as Harg. pose proof (u8_sig sig Hs) as Hu8.
  destruct Ht, Hq. destruct tr_mask as (Em & _ & _), tr_tables as (Ef & Esm & _), tr_mask0 as (Em' & _), tr_tables0 as (Ef' & _ & _),
    tr_armed0 as (Esv & Eep & _ & Eld). 
  assert (Er : regs q = regs qa) by done. assert (Ers : resume q = resume qa) by done.
  constructor; rewrite ?Er, ?Ers, ?Em', ?Ef', ?Esv, ?Eep, ?Eld; subst qa; cbn; rewrite ?Em, ?Ef, ?Esm, ?Hu8, ?Harg, <- ?Eh, ?tr_resume; auto.
  - rewrite <- Em, <- Hfa. eapply load_stored; [exact E1|exact E2|lia].
  - apply not_true_iff_false. intros Hp. apply tr_pending0 in Hp; [|lia]. apply not_false_iff_true in Hp. apply Hp.
    apply (pending_clear_same sig p1). lia.
  - destruct (flag_set _ SA_NODEFER); [by rewrite Z.lor_0_r|done].
Qed.

Definition not_armed (p : proc_t) : Prop := saved_context (signals p) = None /\ signal_enter_pending (signals p) = false.

Lemma not_armed_nested p : not_armed p -> signal_delivery_blocked_nested p = false.
Proof. intros [E1 E2]. unfold signal_delivery_blocked_nested, process_saved_context_present. by rewrite E1, E2. Qed.

(** No handler entered: registers, resume state and mask are untouched. *)
Definition not_entered (p q : proc_t) : Prop :=
  not_armed q /\ regs q = regs p /\ resume q = resume p /\ signal_mask (signals q) = signal_mask (signals p).

(** Pending signals other than [sig] that are gone, each for its reason. *)
Definition drops_excused (p q : proc_t) (sig : Z) : Prop :=
  forall i, 1 <= i < 32 -> i <> sig -> pending p i = true -> pending q i = false -> excused p q i.

(** [handle_signals] came back with [q], [st'], [m']. *)
Record came_back (p : proc_t) (st : process_state_t) (m : M) (q : proc_t) (st' : process_state_t) (m' : M) : Prop := {
  cb_state : st' = continued p st;
  cb_cont : pending q SIGCONT = false;
  cb_ignored s : s ∈ [SIGINT; SIGHUP; SIGQUIT; SIGPIPE] -> ignored p s = true -> pending q s = false;
  cb_pending i : 1 <= i < 32 -> pending q i = true -> pending p i = true;
  cb_handler : (not_entered p q /\ drops_excused p q 0) \/ (exists sig, entered p sig q m' /\ drops_excused p q sig);
  cb_enters sig m1 : sig <> SIGCONT -> (forall j, 1 <= j < sig -> ~ deliverable p j) -> can_enter kmalloc_ok p m sig m1 ->
    entered p sig q m'
}.

Lemma trim_not_entered p q : not_armed p -> trim p q -> not_entered p q.
Proof.
  intros [E1 E2] []. destruct tr_mask as (Em & _), tr_armed as (E3 & E4 & _). unfold not_entered, not_armed. rewrite E3, E4. by splits.
Qed.

(** Dropped signals across a delivery. *)
Lemma delivered_drops p (m : M) p1 sig qa m' q :
  trim p p1 -> armed single_step p1 m sig qa m' -> trim qa q -> drops_excused p q sig.
Proof.
  intros Ht Ha Hq i Hi Hne Hp Hn. destruct (armed_pending single_step kmalloc_ok kernel_call _ _ _ _ _ i Ha Hi Hne) as (Ep & Eh & Ei & Ec & Emk).
  pose proof Ht as []. destruct tr_mask as (Em & Eg & _). destruct (pending p1 i) eqn:H1.
  - destruct (SigDeliver.tr_drop _ _ Hq i Hi ltac:(congruence) Hn) as [?|[Hig|[[? Hc]|(Hm & Hc & Hd)]]]; [by left| | |].
    + right. left. unfold ignored in *. congruence.
    + right. right. left. split; [done|congruence].
    + rewrite Eh in Hc. right. right. right. splits; [|destruct (tr_handlers i Hi) as [<-|[? E]]; [done|by rewrite E in Hc]|done].
      apply Emk in Hm. unfold masked in *. by rewrite <- Em.
  - destruct (tr_drop i Hi Hp H1) as [?|[?|[?|(Hm & Hc & Hd)]]]; [by left|by right; left|by right; right; left|].
    right. right. right. splits; auto. rewrite <- Eh in Hd. destruct (SigDeliver.tr_handlers _ _ Hq i Hi) as [->|[? ->]]; done.
Qed.

Lemma delivered_pending p (m : M) p1 sig qa m' q i :
  trim p p1 -> armed single_step p1 m sig qa m' -> trim qa q -> 1 <= i < 32 -> pending q i = true -> pending p1 i = true.
Proof.
  intros Ht Ha Hq Hi Hp. pose proof Ha as (Hd & _). destruct (decide (i = sig)) as [->|Hne].
  - exfalso. pose proof (en_pending _ _ _ _ (delivered_entered _ _ _ _ _ _ _ Ht Ha Hq)). congruence.
  - destruct (armed_pending single_step kmalloc_ok kernel_call _ _ _ _ _ i Ha Hi Hne) as (<- & _). apply (tr_pending _ _ Hq); [lia|done].
Qed.

Lemma before_loop_handler p i : handler_of (before_loop p) i = handler_of p i.
Proof. unfold before_loop, quiet. cbv zeta. by repeat destruct (pending _ _ && ignored _ _); destruct (pending _ SIGCONT). Qed.

(** What a pass over the loop leaves, seen from the state before it. *)
Lemma loop_came_back p (m : M) st q m' :
  sig_ok p -> mode p = USER_MODE -> not_armed p ->
  deliver_loop single_step kmalloc_ok kernel_call 31 (before_loop p) m 1 = DContinue q m' \/
  deliver_loop single_step kmalloc_ok kernel_call 31 (before_loop p) m 1 = DBreak q m' ->
  came_back p st m q (continued p st) m'.
Proof.
  intros Hok Hm Hn E. set (p5 := before_loop p) in *. pose proof (trim_before_loop p) as Ht. fold p5 in Ht.
  assert (Hl5 : length (signal_handlers (signals p5)) = 32%nat) by (rewrite (tr_lens _ _ Ht); apply Hok).
  assert (Hm5 : mode p5 = USER_MODE) by (by rewrite (tr_mode _ _ Ht)).
  assert (Hn5 : signal_delivery_blocked_nested p5 = false) by (rewrite (trim_nested _ _ Ht); by apply not_armed_nested).
  pose proof (deliver_loop_spec single_step kmalloc_ok kernel_call 31 p5 m 1 Hl5 Hm5 ltac:(lia) ltac:(lia)) as Hloop.
  assert (Hd : delivered single_step p5 m 1 q m') by (destruct E as [E|E]; by rewrite E in Hloop). clear Hloop.
  assert (Hp5 : forall i, 1 <= i < 32 -> pending q i = true -> pending p5 i = true).
  { intros i Hi Hp. destruct Hd as [Hq|(p1 & s & qa & H1 & _ & Ha & Hq)]; [apply (tr_pending _ _ Hq); [lia|done]|].
    apply (tr_pending _ _ H1); [lia|]. by eapply (delivered_pending p5 m p1 s qa m' q). }
  constructor.
  - done.
  - apply not_true_iff_false. intros Hp%Hp5; [|by vm_compute]. unfold p5 in Hp. rewrite pending_before_loop in Hp by by vm_compute.
    by rewrite bool_decide_true, orb_true_l, andb_false_r in Hp.
  - intros s Hs Hi. assert (Hsr : 1 <= s < 32) by (rewrite !elem_of_cons in Hs; destruct Hs as [->|[->|[->|[->|?%elem_of_nil]]]]; by vm_compute).
    apply not_true_iff_false. intros Hp%Hp5; [|done]. unfold p5 in Hp. rewrite pending_before_loop in Hp by done.
    by rewrite (bool_decide_true (s ∈ _)), Hi, orb_true_r, andb_false_r in Hp.
  - intros i Hi Hp. apply (tr_pending _ _ Ht); [lia|]. by apply Hp5.
  - destruct Hd as [Hq|(p1 & s & qa & H1 & _ & Ha & Hq)].
    + left. assert (Hpq : trim p q) by by etrans. split; [by apply trim_not_entered|]. intros i Hi _. by apply (tr_drop _ _ Hpq).
    + right. exists s. assert (Hp1 : trim p p1) by by etrans. split; [by eapply delivered_entered|by eapply delivered_drops].
  - intros sig m1 Hc Hlow Hce. pose proof Hce as (Hdl & _). pose proof Hdl as (Hs & Hp & Hi & _).
    assert (Hce5 : can_enter kmalloc_ok p5 m sig m1).
    { apply (can_enter_trim kmalloc_ok p); auto; [|apply before_loop_handler]. unfold p5. rewrite pending_before_loop by done.
      rewrite bool_decide_false by done. rewrite Hi, andb_false_r. apply andb_true_r. }
    pose proof (deliver_loop_enters single_step kmalloc_ok kernel_call 31 p5 m 1 sig m1 Hl5 Hm5 Hn5 ltac:(lia) ltac:(lia) ltac:(lia)) as H.
    assert (Hex : exists p1 qa, trim p5 p1 /\ armed single_step p1 m sig qa m1 /\ trim qa q /\ m' = m1).
    { destruct E as [E|E]; rewrite E in H; apply H; auto; intros j Hj Hdj; apply (Hlow j Hj); by destruct (trim_deliverable _ _ _ Ht Hdj). }
    destruct Hex as (p1 & qa & H1 & Ha & Hq & ->). eapply delivered_entered; [|exact Ha|exact Hq]. by etrans.
Qed.

Lemma exit_with_clear p s : 1 <= s < 32 -> exit_signal (exit_with p s) = s /\ pending (exit_with p s) s = false.
Proof. intros Hs. split; [done|]. apply (pending_clear_same s p). lia. Qed.

Lemma fate_dies p s : signal_fate p = FDies s -> 1 <= s < 32.
Proof.
  assert (Hin : forall l, (forall x, In x l -> 1 <= x < 32) -> List.find (dies p) l = Some s -> 1 <= s < 32)
    by (intros l Hl Hf; apply List.find_some in Hf as [? _]; auto).
  unfold signal_fate. destruct (pending p SIGKILL); [done|]. destruct (pending p SIGSTOP); [done|].
  destruct (List.find (dies p) [SIGSEGV; _; _; _]) eqn:E1.
  { intros [= ->]. apply Hin in E1; [done|]. intros x. cbn. intros Hx. repeat destruct Hx as [<-|Hx]; [by vm_compute..|done]. }
  clear E1. destruct (pending p SIGTERM && _); [done|]. destruct (List.find (dies p) _) eqn:E2; [|done].
  intros [= ->]. apply Hin in E2; [done|]. intros x. cbn. intros Hx. repeat destruct Hx as [<-|Hx]; [by vm_compute..|done].
Qed.


(** ** Back from the handler *)

(** The process is inside system call [nr] with user registers [f]: asleep in
    the kernel, or about to return. *)
Definition in_syscall (r : resumestate) (f : arch_syscall_frame_t) (nr : Z) : Prop :=
  coop_resched_resume r = false /\
  (kernel_syscall_sleep r = true /\ kernel_sleep_syscall_frame r = f /\ syscall_block_nr r = nr \/
   kernel_syscall_sleep r = false /\ syscall_frame_fresh r = true /\ syscall_frame r = f /\ syscall_entry_nr r = nr).

Lemma sanitize_id f nr : f_rdi f < 2 ^ 63 -> signal_blocked_syscall_frame_sanitize f nr = f.
Proof.
  intros H. unfold signal_blocked_syscall_frame_sanitize, signal_syscall_read_fd_suspicious.
  rewrite bool_decide_false by lia. by destruct (decide _).
Qed.

Lemma backup_in_syscall r f nr : in_syscall r f nr -> f_rdi f < 2 ^ 63 ->
  kernel_sleep_interrupted (backup_resume r) = true /\ kernel_sleep_syscall_frame (backup_resume r) = f /\
  syscall_block_nr (backup_resume r) = nr.
Proof.
  intros (Hc & H) Hr. unfold backup_resume. rewrite Hc.
  destruct H as [(-> & <- & <-)|(-> & -> & <- & <-)]; cbn; [done|]. by rewrite sanitize_id.
Qed.

Lemma sanitize_rip f nr : f_rip (signal_blocked_syscall_frame_sanitize f nr) = f_rip f.
Proof. unfold signal_blocked_syscall_frame_sanitize. destruct (decide _); [done|]. by destruct (signal_syscall_read_fd_suspicious _). Qed.

Lemma context_in_syscall p f nr : in_syscall (resume p) f nr -> c_rip (interrupted_context p) = f_rip f.
Proof.
  intros (_ & H). unfold interrupted_context. set (d := decide (_ \/ _)).
  destruct H as [(Hk & <- & <-)|(Hk & Hf & <- & <-)]; rewrite Hk, ?Hf; destruct d; try exact (sanitize_rip _ _); reflexivity.
Qed.

(** The handler of [q] has returned into its restorer: [q'] enters
    [rt_sigreturn] with the stack pointer on the frame, which is intact, and the
    record of the interrupted call is still there. *)
Record at_sigreturn (q : proc_t) (m' : M) (q' : proc_t) (m'' : M) : Prop := {
  as_mode : mode q' = mode q;
  as_sp : f_rsp (syscall_frame (resume q')) = t_rsp (regs q) + 8;
  as_frame : load_frame m'' (t_rsp (regs q) + 8) = load_frame m' (t_rsp (regs q) + 8);
  as_call : kernel_sleep_interrupted (resume q') = kernel_sleep_interrupted (resume q) /\
            kernel_sleep_syscall_frame (resume q') = kernel_sleep_syscall_frame (resume q) /\
            syscall_block_nr (resume q') = syscall_block_nr (resume q);
  as_last : signal_last_delivered (signals q') = signal_last_delivered (signals q);
  as_flags : signal_sa_flags (signals q') = signal_sa_flags (signals q)
}.

(** The task returns to user mode with the registers of [f] and [rax]. *)
Definition user_regs (f : arch_syscall_frame_t) (rax : Z) (t : arch_task_context_t) : Prop :=
  t_rax t = rax /\ t_rip t = f_rip f /\ t_rsp t = f_rsp f /\ t_rdi t = f_rdi f /\ t_rsi t = f_rsi f /\ t_rdx t = f_rdx f /\
  t_r10 t = f_r10 f /\ t_r8 t = f_r8 f /\ t_r9 t = f_r9 f /\ t_rbx t = f_rbx f /\ t_rbp t = f_rbp f /\ t_r12 t = f_r12 f /\
  t_r13 t = f_r13 f /\ t_r14 t = f_r14 f /\ t_r15 t = f_r15 f /\ task_cs_is_user t = true.

Lemma user_regs_apply f rax t : user_regs f rax (task_set_user_segments (task_apply_syscall_frame single_step t f rax)).
Proof. unfold user_regs. by splits. Qed.

(** The call is restarted at its instruction, or returns -EINTR. *)
Definition resumed_frame (f : arch_syscall_frame_t) (restart : bool) : arch_syscall_frame_t :=
  if restart then f <| f_rip := f_rip f - 2 |> else f.
Definition resumed_rax (nr : Z) (restart : bool) : Z := if restart then nr else u64 (- EINTR).

Lemma resume_interrupted_eq p sf rax :
  signals (resume_interrupted_call single_step p sf rax) =
    (signals p) <| signal_enter_pending := false |> <| signal_last_delivered := 0 |> /\
  syscall_frame (resume (resume_interrupted_call single_step p sf rax)) = sf /\
  user_regs sf rax (regs (resume_interrupted_call single_step p sf rax)).
Proof. splits; [reflexivity|reflexivity|]. exact (user_regs_apply sf rax (regs p)). Qed.

Lemma sigreturn_resume_call q1 ctx sig f nr :
  1 <= sig < 32 -> f_rdi f < 2 ^ 63 -> f_rip f >= 2 -> kernel_sleep_interrupted (resume q1) = true ->
  kernel_sleep_syscall_frame (resume q1) = f -> syscall_block_nr (resume q1) = nr -> signal_last_delivered (signals q1) = sig ->
  let restart := flag_set (signal_sa_flags (signals q1) !!! Z.to_nat sig) SA_RESTART in
  sigreturn_resume single_step q1 ctx =
  resume_interrupted_call single_step q1 (resumed_frame f restart) (resumed_rax nr restart).
Proof.
  intros Hs Hrdi Hge B1 B2 B3 Hld restart. unfold sigreturn_resume. rewrite B1, B2, B3, Hld.
  rewrite (bool_decide_true (sig > 0)), (bool_decide_true (sig < _NSIG)) by (unfold _NSIG; lia).
  rewrite andb_true_l, negb_involutive. fold restart. cbv zeta. unfold signal_resume_blocked_syscall_frame.
  rewrite sanitize_id by done. destruct restart; [|done]. unfold syscall_frame_arm_restart. by rewrite decide_True by lia.
Qed.

(** The state in which the process goes on. *)
Lemma sigreturn_resume_spec q1 ctx sig f nr :
  1 <= sig < 32 -> f_rdi f < 2 ^ 63 -> f_rip f >= 2 -> kernel_sleep_interrupted (resume q1) = true ->
  kernel_sleep_syscall_frame (resume q1) = f -> syscall_block_nr (resume q1) = nr -> signal_last_delivered (signals q1) = sig ->
  saved_context (signals q1) = None ->
  let u := sigreturn_resume single_step q1 ctx in
  let restart := flag_set (signal_sa_flags (signals q1) !!! Z.to_nat sig) SA_RESTART in
  signal_mask (signals u) = signal_mask (signals q1) /\ not_armed u /\
  user_regs (resumed_frame f restart) (resumed_rax nr restart) (regs u).
Proof.
  intros Hs Hrdi Hge B1 B2 B3 Hld Hsv. cbv zeta. rewrite (sigreturn_resume_call q1 ctx sig f nr) by done. cbv zeta.
  match goal with |- context [resume_interrupted_call _ q1 ?sf ?rax] => destruct (resume_interrupted_eq q1 sf rax) as (E1 & _ & E3) end.
  unfold not_armed. rewrite E1. splits; [reflexivity|exact Hsv|reflexivity|exact E3].
Qed.

Lemma user_range_bounds x : process_rip_in_user_range x = true -> 0x400000 <= x <= 0x7FFFFFFFFFFF.
Proof.
  unfold process_rip_in_user_range. rewrite andb_true_iff, !bool_decide_eq_true. unfold IR0_USER_RIP_LO, IR0_USER_RIP_HI. lia.
Qed.

Lemma sanitize_ctx ctx :
  process_rip_in_user_range (c_rip ctx) = true -> process_rip_in_user_range (c_rsp ctx) = true ->
  exists c, signal_sigcontext_validate_and_sanitize single_step ctx = Some c.
Proof.
  intros H1%user_range_bounds H2%user_range_bounds. unfold signal_sigcontext_validate_and_sanitize.
  rewrite decide_False by lia. eauto.
Qed.

Lemma in_syscall_rip p f nr :
  in_syscall (resume p) f nr -> process_rip_in_user_range (c_rip (interrupted_context p)) = true -> f_rip f >= 2.
Proof. intros Hsys Hrip%user_range_bounds. rewrite <- (context_in_syscall p f nr Hsys). lia. Qed.

(** [sys_sigreturn] when the frame on the user stack is readable and valid. *)
Lemma sigreturn_from_user p st (m : M) ctx_arg uf c :
  mode p = USER_MODE -> f_rsp (syscall_frame (resume p)) >= 0x400000 ->
  load_frame m (f_rsp (syscall_frame (resume p))) = Some uf ->
  signal_sigcontext_validate_and_sanitize single_step (sf_ctx uf) = Some c ->
  sys_sigreturn p st m ctx_arg =
  SrUser (sigreturn_resume single_step
    (on_signals (fun s => s <| signal_mask := u32 (sf_oldmask uf) |> <| signal_mask_saved_valid := false |>
                            <| signal_frame_sp := 0 |>) (process_saved_context_clear p)) c).
Proof.
  intros Hm Hsp Hl Hc. unfold Signal.sys_sigreturn. destruct (decide (mode p <> USER_MODE)) as [|_]; [done|].
  destruct (decide (_ >= _)) as [_|]; [|done]. rewrite Hl, Hc. reflexivity.
Qed.

Lemma sigreturn_resumes p sig q (m' : M) q' m'' st ctx_arg f nr :
  sig_ok p -> mode p = USER_MODE -> mode q = mode p -> in_syscall (resume p) f nr -> f_rdi f < 2 ^ 63 ->
  entered p sig q m' -> at_sigreturn q m' q' m'' ->
  exists u, sys_sigreturn q' st m'' ctx_arg = SrUser u /\
    let restart := flag_set (signal_sa_flags (signals p) !!! Z.to_nat sig) SA_RESTART in
    signal_mask (signals u) = signal_mask (signals p) /\ not_armed u /\
    user_regs (resumed_frame f restart) (resumed_rax nr restart) (regs u).
Proof.
  intros Hok Hm Hmq Hsys Hrdi [] []. destruct en_deliverable0 as (Hs & _).
  destruct (backup_in_syscall _ _ _ Hsys Hrdi) as (B1 & B2 & B3). destruct en_resume0 as (R1 & R2 & R3), as_call0 as (C1 & C2 & C3).
  destruct en_saved0 as (_ & _ & Hld), en_site0 as [Hrip Hrsp].
  destruct (sanitize_ctx _ Hrip Hrsp) as [c Hc].
  pose proof (in_syscall_rip _ _ _ Hsys Hrip) as Hge.
  assert (Hmask : u32 (signal_mask (signals p)) = signal_mask (signals p)) by (apply Z.mod_small, (so_masks _ Hok)).
  rewrite <- as_frame0, <- as_sp0 in en_frame0.
  rewrite (sigreturn_from_user q' st m'' ctx_arg _ c ltac:(congruence) ltac:(lia) en_frame0 Hc).
  match goal with |- context [sigreturn_resume _ ?x c] => set (q1 := x) end.
  assert (Hr : resume q1 = resume q') by reflexivity.
  assert (Hs1 : signal_mask (signals q1) = u32 (signal_mask (signals p)) /\ saved_context (signals q1) = None /\
    signal_last_delivered (signals q1) = signal_last_delivered (signals q') /\
    signal_sa_flags (signals q1) = signal_sa_flags (signals q')) by by splits.
  clearbody q1. destruct Hs1 as (H1 & H2 & H3 & H4). eexists. split; [reflexivity|].
  pose proof (sigreturn_resume_spec q1 c sig f nr Hs Hrdi Hge) as H. rewrite Hr, H3, H4 in H.
  rewrite H1, Hmask, as_flags0, en_flags0 in H. apply H; congruence.
Qed.

(** C18: returning from a signal handler that interrupted a system call.  Take
    a user process inside system call [nr] with user registers [f], asleep in it
    or with the call completed and its frame still fresh, not yielded through
    the cooperative rescheduler ([coop_resched_resume] clear) and with a first
    argument below 2^63 (a larger one is taken for a clobbered descriptor).
    When a signal is delivered to a handler and the handler
    returns with its frame and the record of the call intact, [rt_sigreturn] puts the process
    back into user mode with the instruction pointer, stack pointer, arguments
    and callee-saved registers of [f], with the signal mask it
    had before the delivery and no handler armed.  With SA_RESTART the call is
    executed again from its instruction; without it the result register holds
    -EINTR.  Code interrupted outside a system call is not covered. *)
Theorem signal_roundtrip p st (m : M) q st' m' f nr :
  sig_ok p -> mode p = USER_MODE -> not_armed p -> in_syscall (resume p) f nr -> f_rdi f < 2 ^ 63 ->
  handle_signals p st m = SigReturn q st' m' -> saved_context (signals q) <> None ->
  exists sig, deliverable p sig /\ forall q' m'' st'' ctx_arg, at_sigreturn q m' q' m'' ->
    exists u, sys_sigreturn q' st'' m'' ctx_arg = SrUser u /\
      let restart := flag_set (signal_sa_flags (signals p) !!! Z.to_nat sig) SA_RESTART in
      signal_mask (signals u) = signal_mask (signals p) /\ not_armed u /\
      user_regs (resumed_frame f restart) (resumed_rax nr restart) (regs u).
Proof.
  intros Hok Hm Hn Hsys Hrdi E Hsv. apply handle_signals_spec in E; [|by apply so_lens|done].
  destruct E as [Ht|(p1 & s & qa & Ht & _ & Ha & Hq)].
  { destruct Hn as [E1 _]. destruct (tr_armed _ _ Ht) as (E2 & _). congruence. }
  pose proof (delivered_entered _ _ _ _ _ _ _ Ht Ha Hq) as He. exists s. split; [apply He|].
  intros q' m'' st'' ctx_arg Has. assert (Hmq : mode q = mode p).
  { rewrite (tr_mode _ _ Hq), (proj2 (armed_lens _ _ _ _ _ _ Ha)). apply Ht. }
  destruct (sigreturn_resumes p s q m' q' m'' st'' ctx_arg f nr Hok Hm Hmq Hsys Hrdi He Has) as (u & E & H).
  exists u. by split.
Qed.

(** ** Runs

    What can happen to the signal state of a user process: system calls,
    signals sent to it, delivery, faults, return from a handler, exec, and user
    code in between, which may leave any registers and any saved resume state. *)

Inductive sig_event :=
| EvSigaction (signum : Z) (act : option (option user_sigaction)) (oldact : option bool) (size : Z)
| EvSigprocmask (how : Z) (set : option (option Z)) (oldset : option bool) (size : Z)
| EvIgnore (signum : Z)
| EvRaise (sig : Z)
| EvDeliver (st : process_state_t)
| EvFault (sig : Z) (frame : sigcontext) (addr : Z)
| EvSigreturn (st : process_state_t) (ctx_arg : option sigcontext)
| EvSyscallEntry
| EvExec
| EvUser (r : resumestate) (t : arch_task_context_t) (m : M).

(** The words of a [struct sigaction] are 64-bit words. *)
Definition event_ok (e : sig_event) : Prop :=
  match e with EvSigaction _ (Some (Some a)) _ _ => word64 (sa_handler a) /\ word64 (sa_restorer a) | _ => True end.

Definition end_state (e : sig_end (M := M)) (m : M) : proc_t * M :=
  match e with SigReturn q _ m' => (q, m') | SigStop q | SigExit q _ => (q, m) end.

Definition sig_exec (x : proc_t * M) (e : sig_event) : proc_t * M :=
  let '(p, m) := x in
  match e with
  | EvSigaction signum act oldact size => ((sys_rt_sigaction p signum act oldact size).1, m)
  | EvSigprocmask how set oldset size => ((sys_rt_sigprocmask p how set oldset size).1, m)
  | EvIgnore signum => ((signal_ignore p signum).1, m)
  | EvRaise sig => (pending_raise sig p, m)
  | EvDeliver st => end_state (signals_prepare_user_return single_step kmalloc_ok kernel_call p st m).1 m
  | EvFault sig frame addr =>
      match signals_deliver_from_irq_frame single_step kmalloc_ok p m sig frame addr with
      | IrqReturn q _ m' _ => (q, m') | IrqExit q => (q, m)
      end
  | EvSigreturn st ctx_arg => match sys_sigreturn p st m ctx_arg with SrReturn e _ => end_state e m | SrUser u => (u, m) end
  | EvSyscallEntry => (signals_try_abandon_sigframe p, m)
  | EvExec => (signals_reset_on_exec p, m)
  | EvUser r t m' => (p <| resume := r |> <| regs := t |>, m')
  end.

Lemma sigreturn_resume_signals p ctx : exists s, signals (sigreturn_resume single_step p ctx) = s /\
  s = (signals p) <| signal_enter_pending := false |> <| signal_last_delivered := 0 |> /\ mode (sigreturn_resume single_step p ctx) = mode p.
Proof.
  unfold sigreturn_resume. destruct (kernel_sleep_interrupted (resume p)).
  - cbv zeta. destruct (signal_resume_blocked_syscall_frame _ _ _) as [sf rax]. eexists. splits; reflexivity.
  - unfold process_restore_user_task_segments. cbv zeta.
    destruct (decide _); eexists; splits; reflexivity.
Qed.

(** A well-typed user process. *)
Definition typed (p : proc_t) : Prop := (sig_ok p /\ sig_wide (signals p)) /\ mode p = USER_MODE.

Lemma typed_handle_signals p st (m : M) : typed p -> typed (end_state (handle_signals p st m) m).1.
Proof.
  intros [[H Hw] Hm]. pose proof (sig_ok_handle_signals single_step kmalloc_ok kernel_call p st m H Hm) as Ho.
  pose proof (wide_handle_signals single_step kmalloc_ok kernel_call p st m (proj1 (so_lens _ H)) Hm Hw) as Hwd.
  unfold typed. destruct (handle_signals p st m); cbn [end_state fst] in *; tauto.
Qed.

Lemma typed_sigreturn p st (m : M) ctx_arg : typed p ->
  match sys_sigreturn p st m ctx_arg with SrReturn e _ => typed (end_state e m).1 | SrUser u => typed u end.
Proof.
  intros Hp. pose proof Hp as [[H Hw] Hm]. unfold Signal.sys_sigreturn. rewrite decide_False by congruence.
  set (uf := if decide _ then _ else _). set (ch := match uf with Some f => _ | None => _ end). clearbody ch.
  destruct ch as [ctx|]; [|done]. destruct (signal_sigcontext_validate_and_sanitize single_step ctx) as [c|].
  2: { apply typed_handle_signals. split; [split|done]; [apply sig_ok_pending_raise; sig_frame H|sig_wide_frame Hw]. }
  set (q := match uf with Some f => _ | None => _ end).
  assert (Hq : typed q).
  { subst q. destruct uf; split; [split; [sig_frame H|sig_wide_frame Hw]|done| |].
    - split; [apply sig_ok_on_sigreturn; sig_frame H|apply wide_on_sigreturn; sig_wide_frame Hw].
    - unfold signals_on_sigreturn, signals_restore_handler_mask. cbn. by destruct (signal_mask_saved_valid _). }
  clearbody q. destruct Hq as [[Hq Wq] Mq]. destruct (sigreturn_resume_signals q c) as (s & Es & -> & Em).
  split; [|congruence]. rewrite Es. split; [|sig_wide_frame Wq]. pose proof Hq as [(? & ? & ? & ?) (? & ? & ? & ?) _ _ _ _ _].
  apply (sig_ok_frame q); rewrite ?Es, ?Em; auto.
Qed.

Lemma sig_exec_typed x e : event_ok e -> typed x.1 -> typed (sig_exec x e).1.
Proof.
  destruct x as [p m]. intros He Hp. pose proof Hp as [[H Hw] Hm]. cbn [fst] in *. destruct e; cbn [sig_exec fst].
  - split; [split; [by apply sig_ok_sigaction|apply wide_sigaction; [done|by intros a ->]]|].
    rewrite <- Hm. unfold sys_rt_sigaction, register_signal_handler. repeat case_match; simplify_eq; done.
  - split; [split; [by apply sig_ok_sigprocmask|by apply wide_sigprocmask]|]. rewrite <- Hm. unfold sys_rt_sigprocmask. repeat case_match; simplify_eq; done.
  - unfold signal_ignore. destruct (decide _); [done|]. destruct (decide _); [done|].
    split; [split; [by apply sig_ok_register|by apply wide_register; [|apply word64_1]]|].
    rewrite <- Hm. unfold register_signal_handler. repeat case_match; simplify_eq; done.
  - split; [split; [by apply sig_ok_pending_raise|sig_wide_frame Hw]|done].
  - unfold signals_prepare_user_return. rewrite decide_False by congruence. destruct (negb _); [done|].
    pose proof (typed_handle_signals p st m Hp). by destruct (handle_signals p st m).
  - pose proof (sig_ok_fault single_step kmalloc_ok p m sig frame addr H Hm) as Hf.
    pose proof (wide_fault single_step kmalloc_ok p m sig frame addr Hw) as Hwf.
    destruct (signals_deliver_from_irq_frame single_step kmalloc_ok p m sig frame addr); (split; [split|]); tauto.
  - pose proof (typed_sigreturn p st m ctx_arg Hp). by destruct (sys_sigreturn p st m ctx_arg).
  - split; [split; [by apply sig_ok_abandon|by apply wide_abandon]|]. rewrite <- Hm.
    unfold signals_try_abandon_sigframe, signals_on_sigreturn, signals_restore_handler_mask. repeat case_match; done.
  - split; [split; [by apply sig_ok_exec|by apply wide_exec]|done].
  - split; [split; [by eapply sig_ok_ext|done]|done].
Qed.

(** C19: the signal state of a user process is typed.  Starting from a typed
    state, after any sequence of signal system calls (with 64-bit words in
    [struct sigaction]), signals sent, deliveries at system calls and page
    faults, handler returns, execs and user code: the four tables have one
    entry per signal; pending, blocked, ignored and saved masks, the sa_mask
    and the sa_flags fit 32 bits; handlers, restorers, the frame's stack
    pointer and the two interval-timer fields fit 64 bits; the last delivered
    signal is 0 or a signal number; every installed handler is an address in
    user space, a signal is ignored exactly when its handler is SIG_IGN, and
    SIGKILL and SIGSTOP still have their default action. *)
Theorem signal_state_typed p m es :
  sig_ok p -> sig_wide (signals p) -> mode p = USER_MODE -> Forall event_ok es ->
  let q := (foldl sig_exec (p, m) es).1 in sig_ok q /\ sig_wide (signals q).
Proof.
  intros H Hw Hm Hes. cut (typed (foldl sig_exec (p, m) es).1); [by intros []|].
  cut (typed (p, m).1); [|by split]. generalize (p, m). induction Hes as [|e es He _ IH]; intros x Hx; [done|].
  cbn. apply IH. by apply sig_exec_typed.
Qed.
End claims.

(** ** A user stack of 8-byte words *)

Abbreviation words := (gmap Z Z).

Fixpoint store_words (m : words) (a : Z) (ws : list Z) : words :=
  match ws with [] => m | w :: ws' => <[a := w]> (store_words m (a + 8) ws') end.

Fixpoint load_words (m : words) (a : Z) (n : nat) : option (list Z) :=
  match n with O => Some [] | S n' => w ← m !! a; ws ← load_words m (a + 8) n'; Some (w :: ws) end.

Definition ctx_words (c : sigcontext) : list Z :=
  [c_r15 c; c_r14 c; c_r13 c; c_r12 c; c_rbp c; c_rbx c; c_r11 c; c_r10 c; c_r9 c; c_r8 c; c_rax c; c_rcx c; c_rdx c;
   c_rsi c; c_rdi c; c_orig_rax c; c_rip c; c_cs c; c_rflags c; c_rsp c; c_ss c].

(** [struct sigframe] in memory: 24 words. *)
Definition frame_words (f : sigframe) : list Z := [sf_handler f; sf_signum f] ++ ctx_words (sf_ctx f) ++ [sf_oldmask f].

Definition frame_of_words (ws : list Z) : option sigframe :=
  match ws with
  | [h; s; r15; r14; r13; r12; rbp; rbx; r11; r10; r9; r8; rax; rcx; rdx; rsi; rdi; orig; rip; cs; fl; rsp; ss; mask] =>
      Some {| sf_handler := h; sf_signum := s; sf_oldmask := mask;
              sf_ctx := {| c_r15 := r15; c_r14 := r14; c_r13 := r13; c_r12 := r12; c_rbp := rbp; c_rbx := rbx; c_r11 := r11;
                c_r10 := r10; c_r9 := r9; c_r8 := r8; c_rax := rax; c_rcx := rcx; c_rdx := rdx; c_rsi := rsi; c_rdi := rdi;
                c_orig_rax := orig; c_rip := rip; c_cs := cs; c_rflags := fl; c_rsp := rsp; c_ss := ss |} |}
  | _ => None
  end.

#[export] Instance words_sigmem : SigMem words := {|
  store_frame := fun m a f => (store_words m a (frame_words f), true);
  store_word := fun m a w => (<[a := w]> m, true);
  load_frame := fun m a => ws ← load_words m a 24; frame_of_words ws |}.

(** The first two words of [siginfo_t] and the fault address; 16 zero words. *)
#[export] Instance words_siginfo : SigInfoMem words := {|
  store_siginfo := fun m a sig addr => (store_words m a [sig; 1; addr], true);
  store_ucontext := fun m a => (store_words m a (replicate 16 0), true) |}.

Lemma load_words_below (m : words) b w a n : b < a -> load_words (<[b := w]> m) a n = load_words m a n.
Proof.
  revert a. induction n as [|n IH]; intros a Hb; [done|]. cbn. rewrite lookup_insert_ne by lia. by rewrite IH by lia.
Qed.

Lemma load_store_words m a ws : load_words (store_words m a ws) a (length ws) = Some ws.
Proof.
  revert a. induction ws as [|w ws IH]; intros a; [done|]. cbn. rewrite lookup_insert_eq. cbn.
  rewrite load_words_below by lia. by rewrite IH.
Qed.

Lemma load_store_frame m a f : load_frame (store_words m a (frame_words f)) a = Some f.
Proof.
  unfold load_frame, words_sigmem. change 24%nat with (length (frame_words f)). rewrite load_store_words.
  destruct f as [h s c k]. by destruct c.
Qed.

Lemma load_frame_below (m : words) b w a : b < a -> load_frame (<[b := w]> m) a = load_frame m a.
Proof. intros Hb. unfold load_frame, words_sigmem. by rewrite load_words_below. Qed.

#[export] Instance words_sigmem_laws : SigMemLaws words.
Proof.
  constructor. intros m a f m1 b w m2 H1 H2 Hb.
  assert (E2 : <[b := w]> m1 = m2) by exact (f_equal fst H2). assert (E1 : store_words m a (frame_words f) = m1) by exact (f_equal fst H1).
  subst m2 m1. rewrite load_frame_below by lia. apply load_store_frame.
Qed.

(** ** Concrete runs *)

Definition no_kernel_handler (h sig : Z) (p : proc_t) : proc_t := p.

(** A process in [nanosleep] (35) with a SIGALRM handler at 0x401000. *)
Definition alarm_frame : arch_syscall_frame_t := {|
  f_rip := 0x400102; f_rflags := RFLAGS_IF; f_rsp := 0x7FF80000; f_rbx := 1; f_rbp := 2; f_r12 := 3; f_r13 := 4; f_r14 := 5;
  f_r15 := 6; f_rdi := 0x7FF80010; f_rsi := 0; f_rdx := 7; f_r10 := 8; f_r8 := 9; f_r9 := 10 |}.

(** The process of [SigFrame] with a handler for [sig] at 0x401000, [sig]
    pending, inside system call [nr]. *)
Definition in_call (sig flags nr : Z) (sleeping : bool) : proc_t :=
  let i := Z.to_nat sig in
  let p := on_signals (fun s => s <| signal_pending := SIGNAL_MASK sig |>
    <| signal_handlers := <[i := 0x401000]> no_handlers |> <| signal_restorer := <[i := 0x402000]> no_handlers |>
    <| signal_sa_flags := <[i := flags]> no_handlers |>) deep_proc in
  on_resume (fun r => r <| syscall_frame_fresh := negb sleeping |> <| syscall_frame := alarm_frame |>
    <| kernel_sleep_syscall_frame := (if sleeping then alarm_frame else frame_zero) |> <| kernel_syscall_sleep := sleeping |>
    <| syscall_entry_nr := nr |> <| syscall_block_nr := (if sleeping then nr else 0) |>) p.

Definition alarm_proc : proc_t := in_call SIGALRM SA_RESTART 35 true.

Abbreviation run_signals p := (handle_signals false (fun _ => true) no_kernel_handler p PROCESS_RUNNING (∅ : words)).

(** [sig_ok] of a concrete process, signal by signal. *)
Definition typed_check (p : proc_t) : bool :=
  forallb (fun sig => implb (is_caught (handler_of p sig)) (is_user_pointer (handler_of p sig)) &&
                      Bool.eqb (ignored p sig) (bool_decide (handler_of p sig = SIG_IGN))) (seqZ 1 31).

Lemma typed_check_ok p :
  typed_check p = true ->
  length (signal_handlers (signals p)) = 32%nat /\ length (signal_sa_flags (signals p)) = 32%nat /\
  length (signal_sa_mask (signals p)) = 32%nat /\ length (signal_restorer (signals p)) = 32%nat ->
  mask32 (signal_pending (signals p)) /\ mask32 (signal_mask (signals p)) /\
  mask32 (signal_ignored (signals p)) /\ mask32 (signal_mask_saved (signals p)) ->
  Forall mask32 (signal_sa_mask (signals p)) -> handler_of p SIGKILL = SIG_DFL -> handler_of p SIGSTOP = SIG_DFL -> sig_ok p.
Proof.
  intros Hc Hl Hm Hf Hk Hs. unfold typed_check in Hc. rewrite forallb_forall in Hc.
  assert (Hall : forall sig, 1 <= sig < 32 -> implb (is_caught (handler_of p sig)) (is_user_pointer (handler_of p sig)) = true /\
    ignored p sig = bool_decide (handler_of p sig = SIG_IGN)).
  { intros sig Hsig. specialize (Hc sig). rewrite <- list_elem_of_In, elem_of_seqZ, andb_true_iff, Bool.eqb_true_iff in Hc. apply Hc. lia. }
  constructor; auto.
  - intros sig Hsig Hca _. destruct (Hall sig Hsig) as [H _]. by rewrite Hca in H.
  - intros sig Hsig. by apply Hall.
Qed.

Lemma alarm_proc_ok : sig_ok alarm_proc.
Proof.
  apply typed_check_ok; [vm_compute; reflexivity|by splits|by splits| |reflexivity|reflexivity].
  repeat (apply Forall_cons_2; [unfold mask32; lia|]). apply Forall_nil_2.
Qed.

Lemma alarm_proc_wide : sig_wide (signals alarm_proc).
Proof.
  assert (H32 : Forall mask32 no_handlers) by (apply Forall_replicate, mask32_0).
  assert (H64 : Forall word64 no_handlers) by (apply Forall_replicate, word64_0).
  constructor; [|split|by cbn; auto with ir0|by vm_compute].
  - apply (Forall_insert mask32 no_handlers 14); [done|unfold mask32, SA_RESTART; lia].
  - apply (Forall_insert word64 no_handlers 14); [done|unfold word64; lia].
  - apply (Forall_insert word64 no_handlers 14); [done|unfold word64; lia].
Qed.

Lemma signal_state_typed_witness :
  let q := (foldl (sig_exec false (fun _ => true) no_kernel_handler) (alarm_proc, (∅ : words))
    [EvIgnore SIGINT; EvRaise SIGTERM; EvDeliver PROCESS_RUNNING]).1 in sig_ok q /\ sig_wide (signals q).
Proof.
  apply (signal_state_typed false (fun _ => true) no_kernel_handler alarm_proc ∅); [exact alarm_proc_ok|exact alarm_proc_wide|reflexivity|].
  repeat constructor.
Defined.

(** The state in which the SIGALRM handler starts. *)
Definition alarm_entered : proc_t * words :=
  match run_signals alarm_proc with SigReturn q _ m => (q, m) | SigStop q | SigExit q _ => (q, ∅) end.

Lemma alarm_runs : run_signals alarm_proc = SigReturn alarm_entered.1 PROCESS_RUNNING alarm_entered.2.
Proof. vm_compute. reflexivity. Qed.


Lemma signal_roundtrip_witness :
  in_syscall (resume alarm_proc) alarm_frame 35 /\
  exists sig, deliverable alarm_proc sig /\ forall q' m'' st'' ctx_arg, at_sigreturn alarm_entered.1 alarm_entered.2 q' m'' ->
    exists u, sys_sigreturn false (fun _ => true) no_kernel_handler q' st'' m'' ctx_arg = SrUser u /\
      let restart := flag_set (signal_sa_flags (signals alarm_proc) !!! Z.to_nat sig) SA_RESTART in
      signal_mask (signals u) = signal_mask (signals alarm_proc) /\ not_armed u /\
      user_regs (resumed_frame alarm_frame restart) (resumed_rax 35 restart) (regs u).
Proof.
  assert (Hsys : in_syscall (resume alarm_proc) alarm_frame 35) by (split; [reflexivity|left; by splits]).
  split; [exact Hsys|].
  eapply (signal_roundtrip false (fun _ => true) no_kernel_handler alarm_proc PROCESS_RUNNING ∅);
    [exact alarm_proc_ok|reflexivity|split; reflexivity|exact Hsys|reflexivity|exact alarm_runs|vm_compute; discriminate].
Defined.

(** *** Where the code does not do what it means to *)

(** The interrupt path of a [write] (1) that has already returned: the handler
    of SIGUSR1 is entered on the way out. *)
Definition after_write (flags : Z) : proc_t * words :=
  match run_signals (in_call SIGUSR1 flags 1 false) with SigReturn q _ m => (q, m) | SigStop q | SigExit q _ => (q, ∅) end.

(** The process enters [rt_sigreturn] right after the handler. *)
Definition return_from (x : proc_t * words) : proc_t :=
  on_resume (fun r => r <| syscall_frame := (syscall_frame r) <| f_rsp := t_rsp (regs x.1) + 8 |> |>) x.1.

Definition sigreturn_regs (x : proc_t * words) : option arch_task_context_t :=
  match sys_sigreturn false (fun _ => true) no_kernel_handler (return_from x) PROCESS_RUNNING x.2 None with
  | SrUser u => Some (regs u) | SrReturn _ _ => None
  end.

(** A completed system call is executed a second time under SA_RESTART, and
    loses its result to -EINTR without it. *)
Lemma completed_call_repeated :
  (t_rip <$> sigreturn_regs (after_write SA_RESTART)) = Some (f_rip alarm_frame - 2) /\
  (t_rax <$> sigreturn_regs (after_write SA_RESTART)) = Some 1 /\
  (t_rax <$> sigreturn_regs (after_write 0)) = Some (u64 (- EINTR)).
Proof. vm_compute. done. Qed.

(** User code interrupted outside a system call with a negative number in rdi:
    the context saved for it has 0 there. *)
Lemma negative_rdi_lost :
  let p := deep_proc <| regs := (regs deep_proc) <| t_rdi := u64 (-5) |> |> in
  c_rdi (interrupted_context p) = 0.
Proof. vm_compute. reflexivity. Qed.

(** A Linux signal set holds signal [n] in bit [n - 1]; taken bit for bit, the
    set {SIGINT} blocks SIGHUP and leaves SIGINT unblocked. *)
Lemma linux_sigset_off_by_one :
  let p := (sys_rt_sigprocmask deep_proc SIG_SETMASK (Some (Some (Z.shiftl 1 (SIGINT - 1)))) None 8).1 in
  masked p SIGINT = false /\ masked p SIGHUP = true.
Proof. vm_compute. done. Qed.

(** A stack pointer in the blind spot of [signal_pick_handler_sp]: the signal is
    dropped and its handler uninstalled. *)
Lemma blind_spot_drops_signal :
  let p := in_call SIGUSR1 0 1 false in
  let p := on_resume (fun r => r <| syscall_frame := alarm_frame <| f_rsp := USER_STACK_BASE + 2048 + 16 |> |>) p in
  match run_signals p with
  | SigReturn q _ _ => handler_of q SIGUSR1 = SIG_DFL /\ signal_pending (signals q) = 0 /\ t_rip (regs q) = t_rip (regs p)
  | _ => False
  end.
Proof. vm_compute. done. Qed.

(** The interrupt frame of user code that faulted. *)
Definition fault_frame : sigcontext :=
  task_store_sigcontext ((regs deep_proc) <| t_rip := 0x400200 |> <| t_rsp := 0x7FF80000 |> <| t_cs := USER_CODE_SEL |>).

(** A handler entered from a page fault finds no return address: nothing is
    written to the user stack, so its [ret] pops whatever lay there. *)
Lemma fault_handler_no_restorer (m : words) :
  match signals_deliver_from_irq_frame false (fun _ => true) (in_call SIGSEGV 0 1 false) m SIGSEGV fault_frame 0x10 with
  | IrqReturn q frame m' ret => ret = 1 /\ c_rip frame = 0x401000 /\ c_rsp frame <> 0x7FF80000 /\ m' = m
  | IrqExit _ => False
  end.
Proof. vm_compute. done. Qed.

(** SIGABRT kills although a handler for it is installed. *)
Lemma caught_abort_kills :
  let p := in_call SIGABRT 0 1 false in
  is_caught (handler_of p SIGABRT) = true /\ exists q, run_signals p = SigExit q 0 /\ exit_signal q = SIGABRT.
Proof. split; [vm_compute; reflexivity|]. eexists. split; vm_compute; reflexivity. Qed.

(** A blocked SIGTERM kills although it is caught: a second one that arrives
    while its handler runs ends the process. *)
Lemma blocked_term_kills :
  let p := on_signals (update signal_mask (SIGNAL_MASK SIGTERM)) (in_call SIGTERM 0 1 false) in
  is_caught (handler_of p SIGTERM) = true /\ exists q, run_signals p = SigExit q 0 /\ exit_signal q = SIGTERM.
Proof. split; [vm_compute; reflexivity|]. eexists. split; vm_compute; reflexivity. Qed.
