(* ===== verification/ProcTable.v ===== *)
(** * The process table (src/kernel/process/wait.c, exit.c, signals.c, core.c, fork.c)

    Process descriptors live in two memories with the same addresses: the
    scheduler's view in the machine of [Sched] and the rest in [w_procs]; the
    table is the list that starts at [w_list] and goes on through [p_next].
    Freeing a descriptor removes it from both, so touching it afterwards is
    [UB], as is a walk along a list that does not end.

    [process_exit] does not return: a call that may end the running process
    yields [Away w], the world in which the CPU has gone on with somebody else,
    or [Back w a] when it returns.

    What a dying process gives back (descriptors, waiter slots, address space,
    the futex of its thread id) is an interface, [ProcRes]: those components
    only wake sleepers, which is what [ProcResLaws] of [ProcInv] says.  The futex
    table breaks it for a killed waiter, see [Futex]. *)

From S2P Require Import Prelude RecordUpdate Runq RrSched PrioSched Sched ProcState Signal.

Definition ECHILD : Z := 10.
Definition WNOHANG : Z := 1.

(** ** Resources of a process *)

Class ProcRes (S R : Type) := {
  (** [tcp_wire_on_process_exit], [process_exit_robust_list] and the wake-up of
      the clear-child-tid word *)
  res_exit_begin : R -> sched_sys S -> Z -> outcome (R * sched_sys S);
  (** [ir0_console_purge_waiters_for_process], [pipe_purge_waiters_for_process] *)
  res_purge_waiters : R -> Z -> R;
  (** [ir0_console_clear_fg_pgid] *)
  res_clear_fg : R -> Z -> Z -> R;
  res_release_fds : R -> sched_sys S -> Z -> outcome (R * sched_sys S);
  (** [process_destroy] *)
  res_destroy : R -> sched_sys S -> Z -> outcome (R * sched_sys S);
  (** the status word stored at a user address of the parent *)
  res_put_status : R -> Z -> Z -> Z -> R;
  (** the phases of [fork] between the descriptor and the table: address space,
      kernel stack, copy-on-write, regions, files; a failing phase gives back what
      the ones before it took *)
  res_fork : R -> Z -> Z -> R * bool;
  (** what [fork_rollback] gives back: files, address space, regions, stack *)
  res_rollback : R -> sched_sys S -> Z -> outcome (R * sched_sys S)
}.

Section table.
Context {S R : Type} `{!SchedOps S, !ProcRes S R}.

(** The address [kmalloc] yields for the next node of the scheduler. *)
Context (knode : S -> Z).

Record world := {
  w_sys : sched_sys S;
  w_procs : gmap Z proc_t;
  w_list : Z;
  w_next_pid : Z;
  w_res : R
}.

#[export] Instance world_fields : Fields world := fun w => {|
  w_sys := w_sys w; w_procs := w_procs w; w_list := w_list w; w_next_pid := w_next_pid w; w_res := w_res w |}.

Implicit Types w : world.

Inductive ctl (A : Type) :=
| Back (w : world) (a : A)
| Away (w : world).
Arguments Back {A} _ _.
Arguments Away {A} _.

(** Sequencing of calls that may not come back. *)
Definition andthen {A B} (x : outcome (ctl A)) (f : world -> A -> outcome (ctl B)) : outcome (ctl B) :=
  r ← x; match r with Back w a => f w a | Away w => Ok (Away w) end.

Definition load w (a : Z) : outcome proc_t := or_ub (w_procs w !! a).
Definition store w (a : Z) (p : proc_t) : world := w <| w_procs := <[a := p]> (w_procs w) |>.

(** [p->f = ...] *)
Definition modify w (a : Z) (f : proc_t -> proc_t) : outcome world := p ← load w a; Ok (store w a (f p)).

Definition kern_of w : kern := machine (w_sys w).
Definition cur w : Z := current_process (kern_of w).
Definition with_kern w (k : kern) : world := w <| w_sys := with_sched (backend (w_sys w), k) (w_sys w) |>.

Definition pstate w (a : Z) : outcome process_state_t := d ← load_proc (kern_of w) a; Ok (state d).
Definition set_sched_state w (a : Z) (st : process_state_t) : outcome world :=
  k ← process_set_sched_state (kern_of w) a st; Ok (with_kern w k).

Definition process_mark_zombie w (a : Z) : outcome world :=
  if decide (a = 0) then Ok w else
  w ← modify w a (update lifecycle PROCESS_LIFECYCLE_ZOMBIE);
  d ← load_proc (kern_of w) a;
  Ok (with_kern w (with_procs (<[a := {| state := PROCESS_ZOMBIE; task_state := TASK_SCHED_TERMINATED;
                                         sched_prio := sched_prio d |}]> (procs (kern_of w))) (kern_of w))).

Definition add_process w (a : Z) : outcome world :=
  y ← sched_add_process (w_sys w) (knode (backend (w_sys w))) a; Ok (w <| w_sys := y |>).
Definition remove_process w (a : Z) : outcome world := y ← sched_remove_process (w_sys w) a; Ok (w <| w_sys := y |>).
Definition promote_process w (a : Z) : outcome world := y ← sched_promote_process (w_sys w) a; Ok (w <| w_sys := y |>).
Definition schedule_next w : outcome world := y ← sched_schedule_next (w_sys w); Ok (w <| w_sys := y |>).
Definition clock_request_sched_resched w : world :=
  w <| w_sys := {| backend := backend (w_sys w); machine := machine (w_sys w); sched_resched_pending := true |} |>.

Definition use_res w (f : R -> sched_sys S -> outcome (R * sched_sys S)) : outcome world :=
  '(r, y) ← f (w_res w) (w_sys w); Ok (w <| w_res := r |> <| w_sys := y |>).

(** ** The list *)

Definition list_fuel w : nat := Datatypes.S (size (w_procs w)).

Fixpoint find_pid (n : nat) w (a pid_ : Z) : outcome Z :=
  match n with
  | O => UB
  | Datatypes.S n' =>
      if decide (a = 0) then Ok 0 else
      p ← load w a; if decide (pid p = pid_) then Ok a else find_pid n' w (p_next p) pid_
  end.

Definition process_find_by_pid w (pid_ : Z) : outcome Z := find_pid (list_fuel w) w (w_list w) pid_.

Fixpoint unlink (n : nat) w (prev scan target : Z) : outcome (world * Z) :=
  match n with
  | O => UB
  | Datatypes.S n' =>
      if decide (scan = 0) then Ok (w, - ENOENT) else
      p ← load w scan;
      if decide (scan = target) then
        w ← (if decide (prev <> 0) then modify w prev (update p_next (p_next p)) else Ok (w <| w_list := p_next p |>));
        w ← modify w scan (update p_next 0);
        Ok (w, 0)
      else unlink n' w scan (p_next p) target
  end.

Definition process_remove_from_list w (target : Z) : outcome (world * Z) :=
  if decide (target = 0) then Ok (w, - EINVAL) else unlink (list_fuel w) w 0 (w_list w) target.

(** [kfree] of a descriptor. *)
Definition free_proc w (a : Z) : world :=
  with_kern (w <| w_procs := delete a (w_procs w) |>) (with_procs (delete a (procs (kern_of w))) (kern_of w)).

Definition process_reap_zombie_child w (child : Z) : outcome world :=
  if decide (child = 0) then Ok w else
  '(w, removed) ← process_remove_from_list w child;
  if decide (removed <> 0) then Ok w else
  w ← use_res w (fun r y => res_destroy r y child);
  Ok (free_proc w child).

Definition is_zombie_child w (parent_pid : Z) (a : Z) : outcome bool :=
  p ← load w a; st ← pstate w a; Ok (bool_decide (ppid p = parent_pid) && bool_decide (st = PROCESS_ZOMBIE)).

Fixpoint reap_loop (n : nat) w (child parent_pid : Z) : outcome world :=
  match n with
  | O => UB
  | Datatypes.S n' =>
      if decide (child = 0) then Ok w else
      p ← load w child;
      let next := p_next p in
      z ← is_zombie_child w parent_pid child;
      w ← (if z : bool then process_reap_zombie_child w child else Ok w);
      reap_loop n' w next parent_pid
  end.

Definition process_reap_zombies w (parent : Z) : outcome world :=
  if decide (parent = 0) then Ok w else
  p ← load w parent; reap_loop (list_fuel w) w (w_list w) (pid p).

(** Any child of [dying] other than itself? *)
Fixpoint has_child (n : nat) w (a dying dying_pid : Z) : outcome bool :=
  match n with
  | O => UB
  | Datatypes.S n' =>
      if decide (a = 0) then Ok false else
      p ← load w a;
      if decide (ppid p = dying_pid /\ a <> dying) then Ok true else has_child n' w (p_next p) dying dying_pid
  end.

(** [child->ppid = to] for every child; [keep] is excluded. *)
Fixpoint reparent_loop (n : nat) w (a dying_pid to keep : Z) : outcome world :=
  match n with
  | O => UB
  | Datatypes.S n' =>
      if decide (a = 0) then Ok w else
      p ← load w a;
      w ← (if decide (ppid p = dying_pid /\ a <> keep) then modify w a (update ppid to) else Ok w);
      reparent_loop n' w (p_next p) dying_pid to keep
  end.

Definition process_reparent_children w (dying : Z) : outcome world :=
  if decide (dying = 0) then Ok w else
  d ← load w dying;
  hc ← has_child (list_fuel w) w (w_list w) dying (pid d);
  if negb hc then Ok w else
  init ← process_find_by_pid w 1;
  if decide (init = 0 \/ init = dying) then reparent_loop (list_fuel w) w (w_list w) (pid d) 0 dying
  else reparent_loop (list_fuel w) w (w_list w) (pid d) 1 0.

(** ** Waiting for children *)

Definition process_wait_pid_matches_child (wait_pid : Z) (parent child : proc_t) : bool :=
  if decide (wait_pid = -1) then true else
  if decide (wait_pid > 0) then bool_decide (pid child = wait_pid) else
  if decide (wait_pid = 0) then bool_decide (pgid child = pgid parent) else
  bool_decide (pgid child = - wait_pid).

Definition process_child_wait_status_word (child : proc_t) : Z :=
  if decide (exit_signal child > 0) then Z.land (exit_signal child) 0x7f
  else Z.shiftl (Z.land (exit_code child) 0xff) 8.

Definition process_wait_child_matches_blocked_target w (parent child_pid : Z) : outcome bool :=
  if decide (parent = 0 \/ child_pid <= 0) then Ok false else
  p ← load w parent;
  if negb (wait_blocked (wait p)) then Ok false else
  child ← process_find_by_pid w child_pid;
  if decide (child = 0) then Ok false else
  c ← load w child;
  if decide (ppid c <> pid p) then Ok false else
  Ok (process_wait_pid_matches_child (wait_target_pid (wait p)) p c).

(** [READY], then into the run queue and to its front. *)
Definition make_ready w (a : Z) : outcome world :=
  w ← set_sched_state w a PROCESS_READY; w ← add_process w a; promote_process w a.

(** [process_validate_userspace_buffer] of the current process on the status
    pointer is [status_ok]. *)
Definition process_wait_wake_blocked_parent (status_ok : Z -> bool) w (parent child : Z) : outcome world :=
  if decide (parent = 0 \/ child = 0) then Ok w else
  p ← load w parent;
  if negb (wait_blocked (wait p)) then Ok w else
  c ← load w child;
  m ← process_wait_child_matches_blocked_target w parent (pid c);
  if negb m then Ok w else
  if negb (irq_frame_saved (resume p)) then make_ready w parent else
  let status_val := process_child_wait_status_word c in
  let status_ptr := if decide (wait_status_ptr (wait p) = 0) then f_rsi (syscall_frame (resume p)) else wait_status_ptr (wait p) in
  let w := if bool_decide (status_ptr <> 0) && status_ok status_ptr
           then w <| w_res := res_put_status (w_res w) parent status_ptr status_val |> else w in
  w ← modify w parent (fun p => p <| wait := (wait p) <| wait_resume_child_pid := pid c |> |>
                                  <| resume := (resume p) <| syscall_resume_rax := pid c |> |>);
  make_ready w parent.

(** ** Signals and exit *)

Context (status_ok : Z -> bool).

(** SIGCHLD to a parent and the wake-up of its wait4; [send] is [send_signal]. *)
Definition notify_parent (send : world -> Z -> Z -> outcome (ctl Z)) w (parent dying : Z) : outcome (ctl unit) :=
  p ← load w parent;
  andthen (send w (pid p) SIGCHLD) (fun w _ =>
  st ← pstate w parent;
  p ← load w parent;
  w ← (if decide (st = PROCESS_BLOCKED \/ wait_blocked (wait p) = true)
       then process_wait_wake_blocked_parent status_ok w parent dying else Ok w);
  Ok (Back w tt)).

(** The last part of [process_exit]: the idle task back into the run queue. *)
Fixpoint find_idle (n : nat) w (a : Z) : outcome Z :=
  match n with
  | O => UB
  | Datatypes.S n' =>
      if decide (a = 0) then Ok 0 else
      p ← load w a;
      st ← pstate w a;
      if decide (mode p = KERNEL_MODE /\ st <> PROCESS_ZOMBIE /\ comm p = "idle"%string) then Ok a
      else find_idle n' w (p_next p)
  end.

(** [process_exit] up to the zombie. *)
Definition exit_teardown w (dying code : Z) : outcome world :=
  w ← modify w dying (fun p =>
    let p := on_resume (update irq_frame_saved false) p in
    process_kernel_sleep_interrupted_clear (process_signal_last_delivered_clear (process_signal_defer_catchable_clear p)));
  w ← use_res w (fun r y => res_exit_begin r y dying);
  w ← process_reap_zombies w dying;
  w ← process_reparent_children w dying;
  let w := w <| w_res := res_purge_waiters (w_res w) dying |> in
  p ← load w dying;
  let w := if decide (pgid p > 1) then w <| w_res := res_clear_fg (w_res w) (pgid p) (pid p) |> else w in
  w ← use_res w (fun r y => res_release_fds r y dying);
  w ← process_mark_zombie w dying;
  modify w dying (fun p => p <| exit_code := (if decide (exit_signal p = 0) then code else 0) |>).

(** Whom a zombie reports to. *)
Definition exit_notify (send : world -> Z -> Z -> outcome (ctl Z)) w (dying : Z) : outcome (ctl unit) :=
  p ← load w dying;
  if decide (ppid p > 0) then
    parent ← process_find_by_pid w (ppid p);
    pst ← (if decide (parent = 0) then Ok PROCESS_ZOMBIE else pstate w parent);
    if decide (parent <> 0 /\ pst <> PROCESS_ZOMBIE) then notify_parent send w parent dying else
    w ← modify w dying (update ppid 1);
    parent ← process_find_by_pid w 1;
    if decide (parent = 0) then Ok (Back w tt) else
    q ← load w parent;
    andthen (send w (pid q) SIGCHLD) (fun w _ =>
    st ← pstate w parent;
    w ← (if decide (st = PROCESS_BLOCKED) then process_wait_wake_blocked_parent status_ok w parent dying else Ok w);
    Ok (Back w tt))
  else Ok (Back w tt).

Definition process_exit_with (send : world -> Z -> Z -> outcome (ctl Z)) w (code : Z) : outcome (ctl unit) :=
  let dying := cur w in
  if decide (dying = 0) then Ok (Away w) else
  w ← exit_teardown w dying code;
  andthen (exit_notify send w dying) (fun w _ =>
  w ← remove_process w dying;
  idle ← find_idle (list_fuel w) w (w_list w);
  w ← (if decide (idle = 0) then Ok w else add_process w idle);
  w ← schedule_next w;
  Ok (Away w)).

(** The teardown of a process other than the current one, up to the zombie. *)
Definition kill_teardown w (dying sig : Z) : outcome world :=
  w ← modify w dying (fun p => on_resume (update irq_frame_saved false) p);
  w ← process_reap_zombies w dying;
  w ← process_reparent_children w dying;
  w ← use_res w (fun r y => res_release_fds r y dying);
  w ← modify w dying (fun p => exit_with p sig <| exit_code := 0 |>);
  process_mark_zombie w dying.

Definition kill_notify (send : world -> Z -> Z -> outcome (ctl Z)) w (dying : Z) : outcome (ctl unit) :=
  p ← load w dying;
  if decide (ppid p > 0) then
    parent ← process_find_by_pid w (ppid p);
    pst ← (if decide (parent = 0) then Ok PROCESS_ZOMBIE else pstate w parent);
    if decide (parent <> 0 /\ pst <> PROCESS_ZOMBIE) then notify_parent send w parent dying else Ok (Back w tt)
  else Ok (Back w tt).

(** [process_signal_default_kill] *)
Definition default_kill_with (send : world -> Z -> Z -> outcome (ctl Z)) w (dying sig : Z) : outcome (ctl bool) :=
  if decide (dying = 0) then Ok (Back w false) else
  st ← pstate w dying;
  if decide (st = PROCESS_ZOMBIE) then Ok (Back w false) else
  p ← load w dying;
  if negb (process_signal_is_default_fatal p sig) then Ok (Back w false) else
  if decide (dying = cur w) then
    w ← modify w dying (fun p => exit_with p sig);
    andthen (process_exit_with send w 0) (fun w _ => Ok (Back w true))
  else
  w ← kill_teardown w dying sig;
  w ← remove_process w dying;
  andthen (kill_notify send w dying) (fun w _ => Ok (Back w true)).

(** [send_signal]; a killed process sends SIGCHLD, which kills nobody, so a call
    nests once: fuel 2. *)
Fixpoint send_signal_fuel (n : nat) w (pid_ sig : Z) : outcome (ctl Z) :=
  match n with
  | O => UB
  | Datatypes.S n' =>
      if decide (sig < 0 \/ sig >= _NSIG) then Ok (Back w (-1)) else
      a ← process_find_by_pid w pid_;
      if decide (a = 0) then Ok (Back w (-1)) else
      if decide (sig = 0) then Ok (Back w 0) else
      p ← load w a;
      if bool_decide (pid p = 1) && negb (is_caught (handler_of p sig)) then Ok (Back w 0) else
      andthen (if process_signal_is_default_fatal p sig
               then default_kill_with (send_signal_fuel n') w a sig else Ok (Back w false)) (fun w killed =>
      if killed : bool then Ok (Back (clock_request_sched_resched w) 0) else
      w ← modify w a (pending_raise sig);
      st ← pstate w a;
      if decide (st = PROCESS_BLOCKED) then
        w ← set_sched_state w a PROCESS_READY;
        w ← promote_process w a;
        Ok (Back (clock_request_sched_resched w) 0)
      else Ok (Back w 0))
  end.

Definition send_signal := send_signal_fuel 2.
Definition process_exit w (code : Z) : outcome (ctl unit) := process_exit_with send_signal w code.
Definition process_signal_default_kill w (dying sig : Z) : outcome (ctl bool) := default_kill_with send_signal w dying sig.

Fixpoint pgrp_loop (n : nat) w (a pgid_ sig cnt : Z) : outcome (ctl Z) :=
  match n with
  | O => UB
  | Datatypes.S n' =>
      if decide (a = 0) then Ok (Back w cnt) else
      p ← load w a;
      andthen (if decide (pgid p <> pgid_) then Ok (Back w cnt)
               else andthen (send_signal w (pid p) sig) (fun w r => Ok (Back w (if decide (r = 0) then cnt + 1 else cnt))))
        (fun w cnt => p ← load w a; pgrp_loop n' w (p_next p) pgid_ sig cnt)
  end.

Definition send_signal_pgrp w (pgid_ sig : Z) : outcome (ctl Z) :=
  if decide (pgid_ <= 0 \/ sig < 0 \/ sig >= _NSIG) then Ok (Back w 0) else pgrp_loop (list_fuel w) w (w_list w) pgid_ sig 0.

(** ** wait4 *)

(** The scan of [process_wait]: is there a matching child, and the first that is
    a zombie. *)
Fixpoint scan_children (n : nat) w (a : Z) (me : proc_t) (target : Z) (found : bool) : outcome (bool * Z) :=
  match n with
  | O => UB
  | Datatypes.S n' =>
      if decide (a = 0) then Ok (found, 0) else
      p ← load w a;
      if decide (ppid p <> pid me) then scan_children n' w (p_next p) me target found else
      if negb (process_wait_pid_matches_child target me p) then scan_children n' w (p_next p) me target found else
      st ← pstate w a;
      if decide (st = PROCESS_ZOMBIE) then Ok (true, a) else scan_children n' w (p_next p) me target true
  end.

Definition wait_find_matching_zombie w (me target : Z) : outcome Z :=
  p ← load w me; '(_, z) ← scan_children (list_fuel w) w (w_list w) p target false; Ok z.

(** What one pass of the loop of [process_wait] does: return, or sleep. *)
Inductive wait_out := WaitReturn (ret : Z) | WaitSleep.

(** [status]: the status pointer; [buf_ok]: its range is valid; [copy_ok]: the
    store succeeds. *)
Definition wait_reap w (me zombie target status : Z) (buf_ok copy_ok : bool) : outcome (world * wait_out) :=
  if bool_decide (status <> 0) && negb buf_ok then Ok (w, WaitReturn (- EFAULT)) else
  z ← load w zombie;
  let status_val := process_child_wait_status_word z in
  let reaped_pid := pid z in
  w ← process_reap_zombie_child w zombie;
  if bool_decide (status <> 0) && negb copy_ok then Ok (w, WaitReturn (- EFAULT)) else
  let w := if decide (status <> 0) then w <| w_res := res_put_status (w_res w) me status status_val |> else w in
  w ← modify w me (fun p =>
    let p := process_clear_in_thread_syscall_block (process_wait_state_clear p) in
    let p := on_resume (update syscall_resume_rax 0) p in
    p <| regs := (regs p) <| t_rax := u64 (u32 reaped_pid) |> |>);
  more ← wait_find_matching_zombie w me (-1);
  w ← (if decide (more = 0) then modify w me (pending_clear SIGCHLD) else Ok w);
  Ok (w, WaitReturn reaped_pid).

(** Arming the sleep; [active_opts] are the options of the call. *)
Definition wait_arm w (me target active_opts status : Z) : outcome world :=
  modify w me (fun p =>
    if decide (mode p = USER_MODE) then
      let p := process_wait_state_arm p target active_opts status in
      let p := on_resume (fun r => r <| coop_resched_resume := false |> <| syscall_resume_rax := 0 |>) p in
      let p := p <| regs := (regs p) <| t_rax := 0 |> |> in
      process_arm_kernel_syscall_sleep (on_resume (update irq_frame_saved false) p)
    else process_wait_state_arm p target active_opts 0).

(** One pass of [for (;;)] with interrupts off from scan to sleep, so the second
    scan sees what the first did.  When it sleeps, the process is BLOCKED; it
    comes back to the top of the loop once it has been made ready. *)
Definition process_wait_pass w (target status options : Z) (buf_ok copy_ok : bool) : outcome (world * wait_out) :=
  let me := cur w in
  if decide (me = 0) then Ok (w, WaitReturn (- ESRCH)) else
  p ← load w me;
  let active_opts := if decide (mode p = USER_MODE) then wait_options (wait p) else options in
  '(found, zombie) ← scan_children (list_fuel w) w (w_list w) p target false;
  if decide (zombie <> 0) then wait_reap w me zombie target status buf_ok copy_ok else
  if negb found then w ← modify w me process_reset_blocked_syscall_state; Ok (w, WaitReturn (- ECHILD)) else
  if flag_set active_opts WNOHANG then w ← modify w me process_reset_blocked_syscall_state; Ok (w, WaitReturn 0) else
  w ← wait_arm w me target active_opts status;
  w ← set_sched_state w me PROCESS_BLOCKED;
  Ok (w, WaitSleep).

(** The test of the sleep loop: a zombie that came in the meantime makes the
    sleeper ready again. *)
Definition wait_recheck w (target : Z) : outcome world :=
  let me := cur w in
  st ← pstate w me;
  if decide (st <> PROCESS_BLOCKED) then Ok w else
  z ← wait_find_matching_zombie w me target;
  if decide (z <> 0) then set_sched_state w me PROCESS_READY else Ok w.

Fixpoint zombie_child (n : nat) w (a parent_pid : Z) : outcome bool :=
  match n with
  | O => UB
  | Datatypes.S n' =>
      if decide (a = 0) then Ok false else
      z ← is_zombie_child w parent_pid a;
      if z : bool then Ok true else p ← load w a; zombie_child n' w (p_next p) parent_pid
  end.

Definition process_has_zombie_child w (parent : Z) : outcome bool :=
  if decide (parent = 0) then Ok false else p ← load w parent; zombie_child (list_fuel w) w (w_list w) (pid p).

Definition process_reap_zombie_on_wait_resume w (parent child_pid : Z) : outcome world :=
  if decide (parent = 0 \/ child_pid <= 0) then Ok w else
  m ← process_wait_child_matches_blocked_target w parent child_pid;
  if negb m then Ok w else
  child ← process_find_by_pid w child_pid;
  if decide (child = 0) then Ok w else
  p ← load w parent;
  z ← is_zombie_child w (pid p) child;
  if z : bool then process_reap_zombie_child w child else Ok w.

(** ** fork *)

(** [memset(child, 0)] and the clones of [fork_process_create]. *)
Definition proc_zero : proc_t := {|
  pid := 0; ppid := 0; pgid := 0; sid := 0; tgid := 0; mode := KERNEL_MODE; comm := ""%string;
  lifecycle := PROCESS_LIFECYCLE_ALIVE; exit_code := 0; exit_signal := 0; p_next := 0; fork_pending_child := 0;
  stack_start := 0; stack_size := 0;
  signals := {| signal_pending := 0; signal_mask := 0; signal_ignored := 0; signal_handlers := no_handlers;
    signal_sa_flags := no_handlers; signal_sa_mask := no_handlers; signal_restorer := no_handlers; signal_mask_saved := 0;
    signal_mask_saved_valid := false; signal_frame_sp := 0; saved_context := None; signal_enter_pending := false;
    signal_last_delivered := 0; signal_defer_catchable := false; it_real_expire_ms := 0; it_real_interval_ms := 0 |};
  wait := waitstate_zero;
  resume := {| irq_frame_saved := false; poll_resume_via_arch := false; coop_resched_resume := false; want_kernel_ret := false;
    kernel_syscall_sleep := false; kernel_sleep_interrupted := false; kernel_sleep_syscall_frame := frame_zero;
    syscall_frame := frame_zero; syscall_resume_rax := 0; syscall_entry_nr := 0; syscall_block_nr := 0;
    syscall_frame_fresh := false; syscall_interrupted := false; poll_waiter := 0; clock_wait_armed := false;
    clock_wait_deadline_ms := 0 |};
  regs := {| t_rax := 0; t_rbx := 0; t_rcx := 0; t_rdx := 0; t_rsi := 0; t_rdi := 0; t_r8 := 0; t_r9 := 0; t_r10 := 0;
    t_r11 := 0; t_r12 := 0; t_r13 := 0; t_r14 := 0; t_r15 := 0; t_rsp := 0; t_rbp := 0; t_rip := 0; t_rflags := 0;
    t_cs := 0; t_ds := 0; t_es := 0; t_fs := 0; t_gs := 0; t_ss := 0 |} |}.

Definition fork_process_create (parent : proc_t) (child_pid : Z) : proc_t :=
  let child := proc_zero <| regs := regs parent |> in
  let child := process_rel_init_child child parent child_pid in
  let child := child <| comm := comm parent |> in
  process_signals_clone child parent.

(** [process_get_next_pid] *)
Definition process_get_next_pid w : outcome (world * Z) :=
  let pid_ := w_next_pid w in n ← int_incr pid_; Ok (w <| w_next_pid := n |>, pid_).

(** [fork_attach_pending_child]: [kid] is the descriptor of the child, at the
    address [child]. *)
Definition fork_attach_pending_child w (child parent : Z) (kid : proc_t) (prio : Z) : outcome world :=
  let w := store w child (kid <| p_next := w_list w |>) <| w_list := child |> in
  let w := with_kern w (with_procs (<[child := {| state := PROCESS_READY; task_state := TASK_SCHED_RUNNABLE; sched_prio := prio |}]>
                                      (procs (kern_of w))) (kern_of w)) in
  w ← set_sched_state w child PROCESS_BLOCKED;
  modify w parent (update fork_pending_child child).

(** The system call returns 0 in the child and the child's pid in the parent. *)
Definition fork_prepare_child_return (single_step : bool) (child parent : proc_t) : proc_t :=
  if decide (mode parent = USER_MODE)
  then child <| regs := task_apply_syscall_frame single_step (regs child) (syscall_frame (resume parent)) 0 |>
  else child <| regs := (regs child) <| t_rax := 0 |> |>.

Definition fork_prepare_parent_return (single_step : bool) (child_pid : Z) (parent : proc_t) : proc_t :=
  if decide (mode parent = USER_MODE) then process_apply_syscall_frame_to_task single_step parent (u32 child_pid)
  else parent <| regs := (regs parent) <| t_rax := u32 child_pid |> |>.

(** [fork_rollback] of a child that is in the table already. *)
Definition fork_rollback w (child : Z) : outcome world :=
  let parent := cur w in
  w ← (if decide (parent = 0) then Ok w
       else modify w parent (fun p => if decide (fork_pending_child p = child) then p <| fork_pending_child := 0 |> else p));
  st ← pstate w child;
  w ← (if decide (st = PROCESS_READY \/ st = PROCESS_RUNNING) then remove_process w child else Ok w);
  '(w, _) ← process_remove_from_list w child;
  w ← use_res w (fun r y => res_rollback r y child);
  Ok (free_proc w child).

(** [fork]: [child] is what [kmalloc_try] returned, [arch_ret] what the port's
    [fork_prepare_parent_return] does (0 on x86-64: a port may refuse). *)
Definition fork w (child : Z) (single_step : bool) (arch_ret : Z) : outcome (world * Z) :=
  let parent := cur w in
  if decide (parent = 0) then Ok (w, -1) else
  p ← load w parent;
  d ← load_proc (kern_of w) parent;
  if decide (child = 0) then Ok (w, - ENOMEM) else
  '(w, child_pid) ← process_get_next_pid w;
  let kid := fork_process_create p child_pid in
  let '(r, ok) := res_fork (w_res w) parent child in
  let w := w <| w_res := r |> in
  if negb ok then Ok (w, - ENOMEM) else
  let kid := kid <| stack_start := stack_start p |> <| stack_size := stack_size p |> in
  let kid := if decide (mode p = USER_MODE) then fork_prepare_child_return single_step kid p else kid in
  w ← fork_attach_pending_child w child parent kid (sched_prio d);
  if decide (mode p <> USER_MODE) then Ok (w, child_pid) else
  w ← modify w parent (fork_prepare_parent_return single_step child_pid);
  if decide (0 <= arch_ret) then Ok (w, child_pid) else
  w ← fork_rollback w child;
  Ok (w, arch_ret).

Definition process_fork_wake_pending w (parent : Z) : outcome world :=
  if decide (parent = 0) then Ok w else
  p ← load w parent;
  let child := fork_pending_child p in
  if decide (child = 0) then Ok w else
  w ← modify w parent (update fork_pending_child 0);
  w ← set_sched_state w child PROCESS_READY;
  add_process w child.
End table.

Arguments Back {S R A} _ _.
Arguments Away {S R A} _.
