(* ===== verification/ProcInv.v ===== *)
(** * The invariant of the process table

    [winv x w l ps]: the table is the list [l], the run queue holds [ps], and

    - the links from [w_list] run through exactly [l]; every descriptor, in
      either memory, is on it, so nothing is leaked and nothing freed is listed;
    - pids are positive, distinct and below [next_pid];
    - nobody but [x], a process in the middle of dying, is both dead and queued,
      and the two records of a death (state and life cycle) agree;
    - every process has a parent in the table that is alive, or init, or none:
      somebody can reap it.

    A part of an operation that only wakes processes is [quiet]; [yields] is the
    total correctness triple of the outcome monad. *)

From S2P Require Import Prelude RecordUpdate Runq RrSched PrioSched Sched ProcState Signal ProcTable.

(** ** Total correctness *)

Definition yields {A} (x : outcome A) (Q : A -> Prop) : Prop := exists a, x = Ok a /\ Q a.

Lemma yields_ret {A} (a : A) (Q : A -> Prop) : Q a -> yields (Ok a) Q.
Proof. by exists a. Qed.

Lemma yields_bind {A B} (x : outcome A) (f : A -> outcome B) P Q :
  yields x P -> (forall a, P a -> yields (f a) Q) -> yields (x ≫= f) Q.
Proof. intros (a & -> & Ha) H. exact (H a Ha). Qed.

(** A lemma about two consecutive calls. *)
Lemma yields_bind2 {A B C} (x : outcome A) (f : A -> outcome B) (g : B -> outcome C) P Q :
  yields (x ≫= f) P -> (forall b, P b -> yields (g b) Q) -> yields (x ≫= (fun a => f a ≫= g)) Q.
Proof. intros (b & E & Hb) H. destruct x as [a| |]; cbn in *; try done. rewrite E. exact (H b Hb). Qed.

Lemma yields_weaken {A} (x : outcome A) (P Q : A -> Prop) : yields x P -> (forall a, P a -> Q a) -> yields x Q.
Proof. intros (a & -> & Ha) H. exists a. eauto. Qed.

(** ** The part of a descriptor the table depends on *)

(** Everything but the pending signals and the two fields a wake-up fills in. *)
Definition core (p : proc_t) : proc_t :=
  p <| signals := (signals p) <| signal_pending := 0 |> |> <| wait := (wait p) <| wait_resume_child_pid := 0 |> |>
    <| resume := (resume p) <| syscall_resume_rax := 0 |> |>.

(** The descriptor without its link. *)
Definition unlinked (p : proc_t) : proc_t := p <| p_next := 0 |>.

(** The chain of links from [a] through [l] to [b]. *)
Fixpoint pseg (m : gmap Z proc_t) (a : Z) (l : list Z) (b : Z) : Prop :=
  match l with
  | [] => a = b
  | x :: l' => a = x /\ x <> 0 /\ exists p, m !! x = Some p /\ pseg m (p_next p) l' b
  end.

Lemma pseg_app m a l1 l2 b : pseg m a (l1 ++ l2) b <-> exists c, pseg m a l1 c /\ pseg m c l2 b.
Proof.
  revert a; induction l1 as [|x l1 IH]; intros a; simpl; [naive_solver|]. split.
  - intros (-> & Hx & p & Hp & H). apply IH in H as (c & H1 & H2). exists c. eauto 8.
  - intros (c & (-> & Hx & p & Hp & H1) & H2). splits; auto. exists p. split; [done|]. apply IH. eauto.
Qed.

Lemma pseg_head m a l b : pseg m a l b -> a = default b (head l).
Proof. destruct l; simpl; naive_solver. Qed.

Lemma pseg_in m a l b x : pseg m a l b -> x ∈ l -> x <> 0 /\ is_Some (m !! x).
Proof.
  revert a; induction l as [|y l IH]; intros a; simpl; [by intros _ ?%not_elem_of_nil|].
  intros (-> & Hy & p & Hp & H) Hx. apply elem_of_cons in Hx as [->|Hx]; [rewrite Hp; eauto|eauto].
Qed.

(** Only the links of [l] matter. *)
Lemma pseg_frame m m' a l b :
  (forall x, x ∈ l -> p_next <$> m' !! x = p_next <$> m !! x) -> pseg m a l b -> pseg m' a l b.
Proof.
  revert a; induction l as [|y l IH]; intros a Hf; simpl; [done|]. intros (-> & Hy & p & Hp & H). splits; auto.
  pose proof (Hf y ltac:(by left)) as Ef. rewrite Hp in Ef. apply fmap_Some in Ef as (p' & Hp' & En).
  exists p'. split; [done|]. rewrite <- En. apply IH; [|done]. intros x Hx. apply Hf. by right.
Qed.

Section view.
Context {B R : Type}.
Implicit Types w : world (S := B) (R := R).

Definition tbl w : gmap Z proc_t := core <$> w_procs w.
Definition pst w (a : Z) : option process_state_t := state <$> procs (kern_of w) !! a.

Lemma tbl_load w a c : tbl w !! a = Some c -> exists p, w_procs w !! a = Some p /\ c = core p.
Proof. unfold tbl. rewrite lookup_fmap. intros H. apply fmap_Some in H as (p & Hp & ->). eauto. Qed.

Lemma load_eq w a p : w_procs w !! a = Some p -> load w a = Ok p.
Proof. intros Hp. unfold load. by rewrite Hp. Qed.

End view.

Abbreviation dead w a := (pst w a = Some PROCESS_ZOMBIE).
Abbreviation without a l := (filter (fun b => b <> a) l).

(** Steps over [load w a] with [H : tbl w !! a = Some c]. *)
Ltac load_core H p Hp :=
  destruct (tbl_load _ _ _ H) as (p & Hp & ->);
  rewrite (load_eq _ _ _ Hp); cbn [mbind outcome_bind].

(** ** The invariant *)

Section table.
Context {B R : Type} `{!SchedOps B, !SchedLaws B, !ProcRes B R}.
Abbreviation world := (world (S := B) (R := R)).
Implicit Types w : world.

(** The parent of [c], or none. *)
Definition reapable w (c : proc_t) : Prop :=
  ppid c = 0 \/ exists b cb, tbl w !! b = Some cb /\ pid cb = ppid c /\ (pid cb = 1 \/ ~ dead w b).

Record winv (x : Z) w (l ps : list Z) : Prop := {
  wi_links : pseg (tbl w) (w_list w) l 0;
  wi_nodup : NoDup l;
  wi_dom : forall a, is_Some (tbl w !! a) <-> a ∈ l;
  wi_kdom : forall a, is_Some (procs (kern_of w) !! a) <-> a ∈ l;
  wi_sched : sched_inv (w_sys w) ps;
  wi_queue : NoDup ps;
  wi_queued : forall a, a ∈ ps -> a <> x -> ~ dead w a;
  wi_life : forall a c, tbl w !! a = Some c -> lifecycle c = PROCESS_LIFECYCLE_ZOMBIE <-> dead w a;
  wi_pid : forall a c, tbl w !! a = Some c -> 0 < pid c < w_next_pid w;
  wi_pids : forall a b c d, tbl w !! a = Some c -> tbl w !! b = Some d -> pid c = pid d -> a = b;
  wi_tree : forall a c, tbl w !! a = Some c -> ppid c <> pid c /\ reapable w c;
  wi_init : forall a c, tbl w !! a = Some c -> pid c = 1 -> ppid c = 0
}.

Section facts.
Context (x : Z) w (l ps : list Z) (Hw : winv x w l ps).

Lemma winv_load a : a ∈ l -> exists p, w_procs w !! a = Some p /\ tbl w !! a = Some (core p).
Proof.
  intros Ha. apply (wi_dom _ _ _ _ Hw) in Ha as [c Hc]. pose proof Hc as Hc'. unfold tbl in Hc'.
  rewrite lookup_fmap in Hc'. apply fmap_Some in Hc' as (p & Hp & ->). eauto.
Qed.

Lemma winv_tbl a c : tbl w !! a = Some c -> a ∈ l /\ a <> 0.
Proof.
  intros Hc. assert (Ha : a ∈ l) by (apply (wi_dom _ _ _ _ Hw); eauto). split; [done|].
  by destruct (pseg_in _ _ _ _ _ (wi_links _ _ _ _ Hw) Ha).
Qed.

Lemma winv_nonnull a : a ∈ l -> a <> 0.
Proof. intros Ha. by destruct (pseg_in _ _ _ _ _ (wi_links _ _ _ _ Hw) Ha). Qed.

Lemma winv_state a : a ∈ l -> exists d, procs (kern_of w) !! a = Some d /\ pst w a = Some (state d) /\ pstate w a = Ok (state d).
Proof.
  intros Ha. apply (wi_kdom _ _ _ _ Hw) in Ha as [d Hd]. exists d. unfold pst, pstate, load_proc. by rewrite Hd.
Qed.

Lemma winv_fuel : (length l < list_fuel w)%nat.
Proof.
  unfold list_fuel. apply Nat.lt_succ_r. transitivity (size (list_to_set l : gset Z)).
  - by rewrite size_list_to_set by apply (wi_nodup _ _ _ _ Hw).
  - rewrite <- size_dom. apply subseteq_size. intros a Ha. apply elem_of_list_to_set in Ha.
    apply winv_load in Ha as (p & Hp & _). apply elem_of_dom. eauto.
Qed.

Lemma winv_cur : cur w = 0 \/ cur w ∈ l.
Proof.
  destruct (ko_current _ (si_kern _ _ (wi_sched _ _ _ _ Hw))) as [H|H]; [by left|right]. by apply (wi_kdom _ _ _ _ Hw).
Qed.

Lemma winv_short : (length ps <= length l)%nat.
Proof.
  apply submseteq_length, NoDup_submseteq; [apply (wi_queue _ _ _ _ Hw)|]. intros a Ha.
  apply (wi_kdom _ _ _ _ Hw). by apply (si_live _ _ (wi_sched _ _ _ _ Hw)).
Qed.
End facts.

(** ** Walks over the list *)

Lemma find_pid_spec w l n a pid_ :
  pseg (tbl w) a l 0 -> (length l < n)%nat ->
  yields (find_pid n w a pid_) (fun r =>
    (r = 0 /\ forall b c, b ∈ l -> tbl w !! b = Some c -> pid c <> pid_) \/
    (r ∈ l /\ exists c, tbl w !! r = Some c /\ pid c = pid_)).
Proof.
  revert a n. induction l as [|y l IH]; intros a [|n] Hl Hn; simpl in Hn; try lia; cbn [find_pid].
  - cbn in Hl. subst. apply yields_ret. left. split; [done|]. by intros b c ?%not_elem_of_nil.
  - destruct Hl as (-> & Hy & c & Hc & Hl). rewrite decide_False by done. load_core Hc p Hp.
    destruct (decide (pid p = pid_)) as [E|E].
    + apply yields_ret. right. split; [by left|]. eauto.
    + apply (yields_weaken _ _ _ (IH (p_next p) n Hl ltac:(lia))). intros r [[-> Hr]|[Hr1 Hr2]].
      * left. split; [done|]. intros b c' Hb Hc'. apply elem_of_cons in Hb as [->|Hb]; [|eauto].
        rewrite Hc in Hc'. by injection Hc' as <-.
      * right. split; [by right|done].
Qed.

(** With unique pids a lookup is determined. *)
Lemma find_by_pid_spec x w l ps pid_ :
  winv x w l ps ->
  yields (process_find_by_pid w pid_) (fun r =>
    (r = 0 /\ forall b c, tbl w !! b = Some c -> pid c <> pid_) \/
    (r ∈ l /\ exists c, tbl w !! r = Some c /\ pid c = pid_)).
Proof.
  intros Hw. pose proof Hw as []. unfold process_find_by_pid.
  apply (yields_weaken _ _ _ (find_pid_spec w l _ _ pid_ wi_links0 (winv_fuel _ _ _ _ Hw))).
  intros r [[-> Hr]|Hr]; [left|by right]. split; [done|]. intros b c Hc. apply (Hr b); [|done]. by eapply winv_tbl.
Qed.

Lemma find_by_pid_of x w l ps a c :
  winv x w l ps -> tbl w !! a = Some c -> process_find_by_pid w (pid c) = Ok a.
Proof.
  intros Hw Hc. destruct (find_by_pid_spec x w l ps (pid c) Hw) as (r & -> & [[-> Hr]|(_ & c' & Hc' & E)]).
  - by destruct (Hr a c Hc).
  - f_equal. eapply wi_pids; eauto.
Qed.

Lemma has_child_spec w l n a dying dp :
  pseg (tbl w) a l 0 -> (length l < n)%nat ->
  yields (has_child n w a dying dp) (fun b =>
    b = false -> forall y c, y ∈ l -> tbl w !! y = Some c -> ppid c = dp -> y = dying).
Proof.
  revert a n. induction l as [|y l IH]; intros a [|n] Hl Hn; simpl in Hn; try lia; cbn [has_child].
  - cbn in Hl. subst. apply yields_ret. by intros _ y c ?%not_elem_of_nil.
  - destruct Hl as (-> & Hy & c & Hc & Hl). rewrite decide_False by done. load_core Hc p Hp.
    destruct (decide _) as [E|E]; [by apply yields_ret|].
    apply (yields_weaken _ _ _ (IH (p_next p) n Hl ltac:(lia))). intros b Hb E' z c' Hz Hc' Ep.
    apply elem_of_cons in Hz as [->|Hz]; [|eauto]. rewrite Hc in Hc'. injection Hc' as <-.
    destruct (decide (y = dying)); [done|]. exfalso. apply E. by split.
Qed.

(** Only the table changes. *)
Definition with_table w (m : gmap Z proc_t) : world := w <| w_procs := m |>.

Lemma tbl_insert w a p : tbl (store w a p) = <[a := core p]> (tbl w).
Proof. unfold tbl, store. cbn. by rewrite fmap_insert. Qed.

Definition reparented (l : list Z) (dp to keep a : Z) (c : proc_t) : proc_t :=
  if decide (a ∈ l /\ ppid c = dp /\ a <> keep) then c <| ppid := to |> else c.

Lemma reparent_loop_spec w l n a dp to keep :
  pseg (tbl w) a l 0 -> NoDup l -> (length l < n)%nat ->
  yields (reparent_loop n w a dp to keep) (fun w' => (exists m, w' = with_table w m) /\
    forall b, tbl w' !! b = reparented l dp to keep b <$> tbl w !! b).
Proof.
  revert w a n. induction l as [|y l IH]; intros w a [|n] Hl Hnd Hn; simpl in Hn; try lia; cbn [reparent_loop].
  - cbn in Hl. subst. apply yields_ret. split; [exists (w_procs w); by destruct w|]. intros b.
    destruct (tbl w !! b); [|done]. cbn. unfold reparented. by rewrite decide_False by (intros (Hx & _); by apply not_elem_of_nil in Hx).
  - destruct Hl as (-> & Hy & c & Hc & Hl). rewrite decide_False by done. load_core Hc p Hp.
    apply NoDup_cons in Hnd as [Hny Hnd].
    set (w1 := if decide (ppid p = dp /\ y <> keep) then store w y (p <| ppid := to |>) else w).
    assert (E1 : (if decide (ppid p = dp /\ y <> keep) then modify w y (update ppid to) else Ok w) = Ok w1).
    { subst w1. destruct (decide _); [|done]. unfold modify, load. by rewrite Hp. }
    rewrite E1. cbn [mbind outcome_bind].
    assert (Hother : forall b, b <> y -> tbl w1 !! b = tbl w !! b).
    { intros b Hb. subst w1. destruct (decide _); [|done]. by rewrite tbl_insert, lookup_insert_ne. }
    assert (Hself : tbl w1 !! y = reparented (y :: l) dp to keep y <$> tbl w !! y).
    { rewrite Hc. cbn. unfold reparented. subst w1. destruct (decide (ppid p = dp /\ y <> keep)) as [E|E].
      - rewrite tbl_insert, lookup_insert_eq, decide_True by (split; [by left|done]). done.
      - rewrite Hc, decide_False; [done|]. intros (_ & ? & ?). by apply E. }
    assert (Hl1 : pseg (tbl w1) (p_next p) l 0).
    { apply (pseg_frame (tbl w)); [|done]. intros b Hb. by rewrite Hother by (intros ->; done). }
    apply (yields_weaken _ _ _ (IH w1 (p_next p) n Hl1 Hnd ltac:(lia))). intros w' [[m ->] Hm]. split.
    + exists m. subst w1. by destruct (decide _), w.
    + intros b. rewrite Hm. destruct (decide (b = y)) as [->|Hb].
      * rewrite Hself, Hc. cbn. unfold reparented at 1. rewrite decide_False; [done|]. by intros (? & _).
      * rewrite Hother by done. destruct (tbl w !! b); [|done]. cbn. unfold reparented. f_equal.
        destruct (decide (b ∈ l /\ _)) as [(?&?&?)|E]; [rewrite decide_True; [done|]; split; [by right|done]|].
        rewrite decide_False; [done|]. intros (Hin & ? & ?). apply elem_of_cons in Hin as [?|?]; [done|]. by apply E.
Qed.

Lemma find_idle_spec x w l0 ps l n a :
  winv x w l0 ps -> (forall b, b ∈ l -> b ∈ l0) -> pseg (tbl w) a l 0 -> (length l < n)%nat ->
  yields (find_idle n w a) (fun r => r = 0 \/ (r ∈ l0 /\ ~ dead w r)).
Proof.
  intros Hw. revert a n. induction l as [|y l IH]; intros a [|n] Hsub Hl Hn; simpl in Hn; try lia; cbn [find_idle].
  - cbn in Hl. subst. apply yields_ret. by left.
  - destruct Hl as (-> & Hy & c & Hc & Hl). rewrite decide_False by done. load_core Hc p Hp.
    assert (Hy0 : y ∈ l0) by (apply Hsub; by left).
    destruct (winv_state _ _ _ _ Hw y Hy0) as (d & _ & Ed & ->). cbn [mbind outcome_bind].
    destruct (decide _) as [(_ & E & _)|E]; [apply yields_ret; right; split; [done|congruence]|].
    apply IH; [|done|lia]. intros b Hb. apply Hsub. by right.
Qed.

(** ** Steps that only wake processes *)

Definition ystate (y : sched_sys B) (a : Z) : option process_state_t := state <$> procs (machine y) !! a.

(** From run queue [ps] to [ps']: a process keeps its state or, alive, becomes
    READY; the queue only grows, by living processes. *)
Record wakes (y : sched_sys B) (ps : list Z) (y' : sched_sys B) (ps' : list Z) : Prop := {
  wk_cur : current_process (machine y') = current_process (machine y);
  wk_state : forall a, ystate y' a = ystate y a \/
    exists st, ystate y a = Some st /\ st <> PROCESS_ZOMBIE /\ ystate y' a = Some PROCESS_READY;
  wk_queue : forall a, a ∈ ps -> a ∈ ps';
  wk_new : forall a, a ∈ ps' -> a ∈ ps \/ exists st, ystate y a = Some st /\ st <> PROCESS_ZOMBIE;
  wk_sched : sched_inv y' ps';
  wk_nodup : NoDup ps'
}.

Lemma wakes_refl y ps : sched_inv y ps -> NoDup ps -> wakes y ps y ps.
Proof. intros. constructor; auto. Qed.

Lemma wakes_dead y ps y' ps' a : wakes y ps y' ps' -> ystate y' a = Some PROCESS_ZOMBIE <-> ystate y a = Some PROCESS_ZOMBIE.
Proof. intros []. destruct (wk_state0 a) as [->|(st & E & Hs & ->)]; [done|]. rewrite E. split; congruence. Qed.

Lemma wakes_dom y ps y' ps' a : wakes y ps y' ps' -> is_Some (ystate y' a) <-> is_Some (ystate y a).
Proof. intros []. destruct (wk_state0 a) as [->|(st & -> & Hs & ->)]; [done|]. by split. Qed.

Lemma wakes_trans y ps y1 ps1 y2 ps2 : wakes y ps y1 ps1 -> wakes y1 ps1 y2 ps2 -> wakes y ps y2 ps2.
Proof.
  intros H1 H2. pose proof H1 as [C1 S1 Q1 N1 _ _]. pose proof H2 as [C2 S2 Q2 N2 I2 D2]. constructor; auto; [congruence|..].
  - intros a. destruct (S1 a) as [E1|(st & E1 & Hs & E1')]; destruct (S2 a) as [E2|(st2 & E2 & Hs2 & E2')].
    + left. congruence.
    + right. exists st2. rewrite <- E1. auto.
    + right. exists st. splits; auto. congruence.
    + right. exists st. auto.
  - intros a Ha. destruct (N2 a Ha) as [Ha'|(st & E & Hs)]; [auto|]. right.
    destruct (S1 a) as [E1|(st' & E1 & ?)]; [exists st; by rewrite <- E1|naive_solver].
Qed.

(** What a dying process gives back wakes others at most; what is destroyed does
    not come back. *)
Class ProcResLaws := {
  law_exit_begin : forall r y a ps, sched_inv y ps -> NoDup ps -> is_Some (procs (machine y) !! a) ->
    yields (res_exit_begin r y a) (fun ry : R * sched_sys B => exists ps', wakes y ps ry.2 ps');
  law_release_fds : forall r y a ps, sched_inv y ps -> NoDup ps -> is_Some (procs (machine y) !! a) ->
    yields (res_release_fds r y a) (fun ry : R * sched_sys B => exists ps', wakes y ps ry.2 ps');
  law_destroy : forall r y a ps, sched_inv y ps -> NoDup ps -> is_Some (procs (machine y) !! a) ->
    yields (res_destroy r y a) (fun ry : R * sched_sys B => exists ps', wakes y ps ry.2 ps' /\ (a ∉ ps -> a ∉ ps'));
  law_rollback : forall r y a ps, sched_inv y ps -> NoDup ps -> is_Some (procs (machine y) !! a) ->
    yields (res_rollback r y a) (fun ry : R * sched_sys B => exists ps', wakes y ps ry.2 ps' /\ (a ∉ ps -> a ∉ ps'))
}.

Record quiet w (ps : list Z) w' (ps' : list Z) : Prop := {
  q_tbl : tbl w' = tbl w;
  q_list : w_list w' = w_list w;
  q_next : w_next_pid w' = w_next_pid w;
  q_wakes : wakes (w_sys w) ps (w_sys w') ps'
}.

Lemma quiet_refl x w l ps : winv x w l ps -> quiet w ps w ps.
Proof. intros []. constructor; auto. by apply wakes_refl. Qed.

Lemma quiet_trans w ps w1 ps1 w2 ps2 : quiet w ps w1 ps1 -> quiet w1 ps1 w2 ps2 -> quiet w ps w2 ps2.
Proof. intros [] []. constructor; try congruence. by eapply wakes_trans. Qed.

Lemma quiet_dead w ps w' ps' a : quiet w ps w' ps' -> dead w' a <-> dead w a.
Proof. intros []. by eapply wakes_dead. Qed.

Lemma is_Some_state (k : kern) a : is_Some (state <$> procs k !! a) <-> is_Some (procs k !! a).
Proof. by rewrite fmap_is_Some. Qed.

Lemma winv_quiet x w l ps w' ps' : winv x w l ps -> quiet w ps w' ps' -> winv x w' l ps'.
Proof.
  intros [] Hq. pose proof Hq as [Et El En Hk]. pose proof (fun a => quiet_dead _ _ _ _ a Hq) as Hd. constructor; rewrite ?Et, ?El, ?En; auto.
  - intros a. rewrite <- wi_kdom0. rewrite <- !is_Some_state. apply (wakes_dom _ _ _ _ a Hk).
  - apply Hk.
  - apply Hk.
  - intros a Ha Hx. rewrite Hd. destruct (wk_new _ _ _ _ Hk a Ha) as [?|(st & E & Hs)]; [auto|].
    intros E'. unfold pst, kern_of in E'. unfold ystate in E. congruence.
  - intros a c Hc. rewrite Hd. auto.
  - intros a c Hc. destruct (wi_tree0 a c Hc) as [Hn Hr]. split; [done|]. destruct Hr as [?|(b & cb & Hb & E & Hl)]; [by left|right].
    exists b, cb. rewrite Et, Hd. auto.
Qed.

(** A change of one descriptor that its core does not see. *)
Lemma modify_quiet x w l ps a f :
  winv x w l ps -> a ∈ l -> (forall p, w_procs w !! a = Some p -> core (f p) = core p) ->
  yields (modify w a f) (fun w' => quiet w ps w' ps /\ w_sys w' = w_sys w).
Proof.
  intros Hw Ha Hf. destruct (winv_load _ _ _ _ Hw a Ha) as (p & Hp & Hc). unfold modify, load. rewrite Hp.
  apply yields_ret. pose proof Hw as []. split; [|done]. constructor; auto; [|by apply wakes_refl].
  rewrite tbl_insert, Hf by done. by apply insert_id.
Qed.

Lemma use_res_spec w f P :
  yields (f (w_res w) (w_sys w)) P ->
  yields (use_res w f) (fun w' => exists r y, w' = w <| w_res := r |> <| w_sys := y |> /\ P (r, y)).
Proof.
  intros H. unfold use_res. eapply yields_bind; [exact H|]. intros [r y] Hy. apply yields_ret. by exists r, y.
Qed.

Lemma use_res_quiet x w l ps f :
  winv x w l ps ->
  yields (f (w_res w) (w_sys w)) (fun ry : R * sched_sys B => exists ps', wakes (w_sys w) ps ry.2 ps') ->
  yields (use_res w f) (fun w' => exists ps', quiet w ps w' ps').
Proof.
  intros Hw Hf. apply (yields_weaken _ _ _ (use_res_spec w f _ Hf)). intros w' (r & y & -> & ps' & Hk).
  exists ps'. by constructor.
Qed.

(** Resources outside the table. *)
Lemma quiet_res x w l ps r : winv x w l ps -> quiet w ps (w <| w_res := r |>) ps.
Proof. intros []. constructor; auto. by apply wakes_refl. Qed.

(** ** Taking a process off the list *)

Lemma without_middle (pre suf : list Z) a : NoDup (pre ++ a :: suf) -> without a (pre ++ a :: suf) = pre ++ suf.
Proof.
  intros Hnd. apply NoDup_app in Hnd as (_ & Hd & Hs). apply NoDup_cons in Hs as [Hs _].
  rewrite filter_app, filter_cons, decide_False by auto. f_equal; apply filter_keep.
  - intros b Hb ->. apply (Hd a Hb). by left.
  - by intros b Hb ->.
Qed.

Lemma modify_next w a c v :
  tbl w !! a = Some c ->
  yields (modify w a (update p_next v)) (fun w' => (exists m, w' = with_table w m) /\ tbl w' = <[a := c <| p_next := v |>]> (tbl w)).
Proof.
  intros Hc. destruct (tbl_load _ _ _ Hc) as (p & Hp & ->). unfold modify, load. rewrite Hp. apply yields_ret.
  split; [by eexists|]. by rewrite tbl_insert.
Qed.

Lemma unlinked_insert (m : gmap Z proc_t) a c v b :
  m !! a = Some c -> unlinked <$> <[a := c <| p_next := v |>]> m !! b = unlinked <$> m !! b.
Proof.
  intros Hc. destruct (decide (b = a)) as [->|Hb]; [by rewrite lookup_insert_eq, Hc|by rewrite lookup_insert_ne].
Qed.

(** The tail of the walk: links around [target] are joined. *)
Lemma unlink_hit w pre target suf :
  pseg (tbl w) (w_list w) (pre ++ target :: suf) 0 -> NoDup (pre ++ target :: suf) ->
  forall p, tbl w !! target = Some p ->
  let prev := default 0 (last pre) in
  yields (w ← (if decide (prev <> 0) then modify w prev (update p_next (p_next p)) else Ok (w <| w_list := p_next p |>));
          w ← modify w target (update p_next 0); Ok (w, 0 : Z)) (fun wr => wr.2 = 0 /\
    (exists m a, wr.1 = with_table w m <| w_list := a |>) /\
    (forall b, unlinked <$> tbl wr.1 !! b = unlinked <$> tbl w !! b) /\ pseg (tbl wr.1) (w_list wr.1) (pre ++ suf) 0).
Proof.
  intros Hl Hnd p Hp prev. apply NoDup_app in Hnd as (Hndp & Hd & Hs). apply NoDup_cons in Hs as [Hts Hns].
  apply pseg_app in Hl as (c & Hl1 & (-> & Ht0 & p' & Hp' & Hl2)). rewrite Hp in Hp'. injection Hp' as <-.
  assert (Htp : target ∉ pre) by (intros H; apply (Hd target H); by left).
  destruct pre as [|z pre' _] using rev_ind.
  - subst prev. cbn [last default decide]. rewrite decide_False by (cbn; lia). cbn [mbind outcome_bind]. cbn in Hl1.
    eapply yields_bind; [by apply (modify_next (w <| w_list := p_next p |>) target p)|]. intros w' [[m ->] Et].
    apply yields_ret. cbn [fst snd]. split; [done|]. split; [exists m, (p_next p); done|]. rewrite Et. split.
    + intros b. by apply unlinked_insert.
    + cbn. apply (pseg_frame (tbl w)); [|done]. intros b Hb. rewrite lookup_insert_ne; [done|]. by intros ->.
  - assert (Ep : prev = z) by (subst prev; by rewrite last_snoc). clearbody prev. subst prev.
    apply pseg_app in Hl1 as (d & Hl1 & (-> & Hz0 & pz & Hpz & Enz)). cbn in Enz.
    assert (Hzt : z <> target) by (intros ->; apply Htp, elem_of_app; right; by left).
    rewrite decide_True by done.
    eapply yields_bind; [by apply (modify_next w z pz)|]. intros w1 [[m1 ->] Et1].
    assert (Hp1 : tbl (with_table w m1) !! target = Some p) by (by rewrite Et1, lookup_insert_ne).
    eapply yields_bind; [exact (modify_next (with_table w m1) target p 0 Hp1)|].
    intros w2 [[m ->] Et]. apply yields_ret. cbn [fst snd]. split; [done|].
    split; [exists m, (w_list w); by destruct w|]. rewrite Et.
    split; [intros b; rewrite unlinked_insert by done; rewrite Et1; by apply unlinked_insert|].
    apply NoDup_app in Hndp as (_ & Hdz & _).
    assert (Hold : forall b, b <> z -> b <> target ->
      p_next <$> (<[target := p <| p_next := 0 |>]> (tbl (with_table w m1))) !! b = p_next <$> tbl w !! b).
    { intros b Hb Hb'. rewrite lookup_insert_ne by done. by rewrite Et1, lookup_insert_ne. }
    rewrite <- app_assoc. apply pseg_app. exists z. split.
    + apply (pseg_frame (tbl w)); [|done]. intros b Hb. apply Hold.
      * intros ->. apply (Hdz z Hb). by left.
      * intros ->. apply Htp, elem_of_app. by left.
    + cbn [app pseg]. splits; auto. exists (pz <| p_next := p_next p |>). split; [by rewrite lookup_insert_ne, Et1, lookup_insert_eq|].
      apply (pseg_frame (tbl w)); [|exact Hl2]. intros b Hb. apply Hold; [|by intros ->].
      intros ->. apply (Hd z); [apply elem_of_app; right; by left|by right].
Qed.

Lemma unlink_list_spec w pre suf n target :
  pseg (tbl w) (w_list w) (pre ++ suf) 0 -> NoDup (pre ++ suf) -> target ∈ suf -> (length suf < n)%nat ->
  yields (unlink n w (default 0 (last pre)) (default 0 (head suf)) target) (fun wr => wr.2 = 0 /\
    (exists m a, wr.1 = with_table w m <| w_list := a |>) /\
    (forall b, unlinked <$> tbl wr.1 !! b = unlinked <$> tbl w !! b) /\
    pseg (tbl wr.1) (w_list wr.1) (without target (pre ++ suf)) 0).
Proof.
  revert pre n. induction suf as [|y suf IH]; intros pre [|n] Hl Hnd Hin Hn; simpl in Hn; try lia;
    [by apply not_elem_of_nil in Hin|]. cbn [unlink head default from_option id].
  pose proof Hl as Hl'. apply pseg_app in Hl' as (c & Hl1 & (-> & Hy & p & Hp & Hl2)).
  rewrite decide_False by done. load_core Hp q Hq. destruct (decide (y = target)) as [->|Hyt].
  - rewrite without_middle by done. apply (unlink_hit w pre target suf Hl Hnd (core q) Hp).
  - assert (Enext : p_next q = default 0 (head suf)) by exact (pseg_head _ _ _ _ Hl2). rewrite Enext.
    apply elem_of_cons in Hin as [->|Hin]; [done|].
    assert (Elast : y = default 0 (last (pre ++ [y]))) by (by rewrite last_snoc). rewrite Elast at 1.
    assert (Eapp : pre ++ y :: suf = (pre ++ [y]) ++ suf) by (by rewrite <- app_assoc). rewrite Eapp in *.
    by apply IH; auto with lia.
Qed.

Lemma remove_from_list_spec x w l ps a :
  winv x w l ps -> a ∈ l ->
  yields (process_remove_from_list w a) (fun wr => wr.2 = 0 /\
    (exists m h, wr.1 = with_table w m <| w_list := h |>) /\
    (forall b, unlinked <$> tbl wr.1 !! b = unlinked <$> tbl w !! b) /\
    pseg (tbl wr.1) (w_list wr.1) (without a l) 0).
Proof.
  intros Hw Ha. unfold process_remove_from_list. rewrite decide_False by (by eapply winv_nonnull).
  pose proof (unlink_list_spec w [] l (list_fuel w) a (wi_links _ _ _ _ Hw) (wi_nodup _ _ _ _ Hw) Ha (winv_fuel _ _ _ _ Hw)) as H.
  by rewrite <- (pseg_head _ _ _ _ (wi_links _ _ _ _ Hw)) in H.
Qed.

(** [w'] continues [w]: some processes may be gone, the others have their
    descriptors, up to links and wake-ups. *)
Record follows w (l ps : list Z) w' (l' ps' : list Z) : Prop := {
  fo_tbl : forall b, b ∈ l' -> unlinked <$> tbl w' !! b = unlinked <$> tbl w !! b;
  fo_state : forall b, b ∈ l' -> pst w' b = pst w b \/
    exists st, pst w b = Some st /\ st <> PROCESS_ZOMBIE /\ pst w' b = Some PROCESS_READY;
  fo_cur : cur w' = cur w;
  fo_next : w_next_pid w' = w_next_pid w;
  fo_sub : forall b, b ∈ l' -> b ∈ l;
  fo_queue : forall b, b ∈ ps -> b ∈ ps'
}.

Lemma follows_quiet w l ps w' ps' : quiet w ps w' ps' -> follows w l ps w' l ps'.
Proof. intros [Et El En []]. constructor; auto; intros b _; [by rewrite Et|apply wk_state0]. Qed.

Lemma follows_trans w l ps w1 l1 ps1 w2 l2 ps2 :
  follows w l ps w1 l1 ps1 -> follows w1 l1 ps1 w2 l2 ps2 -> follows w l ps w2 l2 ps2.
Proof.
  intros [T1 S1 C1 N1 U1 Q1] [T2 S2 C2 N2 U2 Q2]. constructor; try congruence; auto.
  - intros b Hb. rewrite T2, T1 by auto. done.
  - intros b Hb. destruct (S1 b (U2 b Hb)) as [E1|(st & E1 & Hs & E1')]; destruct (S2 b Hb) as [E2|(st2 & E2 & Hs2 & E2')].
    + left. congruence.
    + right. exists st2. rewrite <- E1. auto.
    + right. exists st. splits; auto. congruence.
    + right. exists st. auto.
Qed.

Lemma follows_dead w l ps w' l' ps' b : follows w l ps w' l' ps' -> b ∈ l' -> dead w' b <-> dead w b.
Proof.
  intros [] Hb. destruct (fo_state0 b Hb) as [->|(st & E & Hs & ->)]; [done|]. rewrite E. split; congruence.
Qed.

(** The descriptor of a survivor. *)
Lemma unlinked_back (m m' : gmap Z proc_t) b c' :
  unlinked <$> m' !! b = unlinked <$> m !! b -> m' !! b = Some c' ->
  exists c, m !! b = Some c /\ unlinked c' = unlinked c.
Proof. intros E Hc. rewrite Hc in E. symmetry in E. apply fmap_Some in E as (c & Hc' & E). eauto. Qed.

Lemma unlinked_eq c c' : unlinked c' = unlinked c ->
  pid c' = pid c /\ ppid c' = ppid c /\ lifecycle c' = lifecycle c /\ pgid c' = pgid c.
Proof. intros E. splits; [exact (f_equal pid E)|exact (f_equal ppid E)|exact (f_equal lifecycle E)|exact (f_equal pgid E)]. Qed.

Lemma kern_ok_delete k a : kern_ok k -> a <> current_process k -> kern_ok (with_procs (delete a (procs k)) k).
Proof.
  intros [] Ha. constructor; cbn.
  - intros b d Hd. cbn in Hd. apply lookup_delete_Some in Hd as [_ Hd]. by apply (ko_views b).
  - intros b d Hd. apply lookup_delete_Some in Hd as [_ Hd]. by apply ko_sole.
  - destruct ko_current as [?|Hc]; [by left|right]. by rewrite lookup_delete_ne.
  - destruct (decide (a = 0)) as [->|]; [by rewrite lookup_delete_eq|by rewrite lookup_delete_ne].
Qed.

(** A process leaves the table for good. *)
Lemma winv_removed x w l ps a ca w' ps' y' :
  winv x w l ps -> tbl w !! a = Some ca -> (forall b c, tbl w !! b = Some c -> ppid c <> pid ca) ->
  a <> cur w -> a ∉ ps' -> wakes (w_sys w) ps y' ps' ->
  w_sys w' = with_sched (backend y', with_procs (delete a (procs (machine y'))) (machine y')) y' ->
  w_next_pid w' = w_next_pid w -> tbl w' !! a = None ->
  (forall b, b <> a -> unlinked <$> tbl w' !! b = unlinked <$> tbl w !! b) ->
  pseg (tbl w') (w_list w') (without a l) 0 ->
  winv x w' (without a l) ps' /\ follows w l ps w' (without a l) ps'.
Proof.
  intros Hw Hca Hkids Hcur Hq Hk Esys En Ha Hrest Hl. pose proof Hw as []. pose proof Hk as [].
  assert (Hpst : forall b, b <> a -> pst w' b = ystate y' b).
  { intros b Hb. unfold pst, kern_of. rewrite Esys. cbn. by rewrite lookup_delete_ne. }
  assert (Hback : forall b c', tbl w' !! b = Some c' -> b <> a /\ exists c, tbl w !! b = Some c /\ unlinked c' = unlinked c).
  { intros b c' Hc'. assert (b <> a) by congruence. split; [done|]. apply (unlinked_back _ _ _ _ (Hrest b ltac:(done)) Hc'). }
  assert (Hdead : forall b, b <> a -> dead w' b <-> dead w b) by (intros b Hb; rewrite Hpst by done; by eapply wakes_dead).
  assert (Hin : forall b, b ∈ without a l <-> b ∈ l /\ b <> a) by (intros b; rewrite list_elem_of_filter; tauto).
  assert (Hks : forall b, b <> a -> procs (kern_of w') !! b = procs (machine y') !! b).
  { intros b Hb. unfold kern_of. rewrite Esys. cbn. by rewrite lookup_delete_ne. }
  split; [constructor|constructor]; rewrite ?En; auto.
  - by apply NoDup_filter.
  - intros b. rewrite Hin, <- wi_dom0. destruct (decide (b = a)) as [->|Hb]; [rewrite Ha; split; [by intros []|naive_solver]|].
    pose proof (Hrest b Hb) as E. rewrite <- (fmap_is_Some unlinked), E, fmap_is_Some. naive_solver.
  - intros b. rewrite Hin, <- wi_kdom0. destruct (decide (b = a)) as [->|Hb].
    + unfold kern_of. rewrite Esys. cbn. rewrite lookup_delete_eq. split; [by intros []|naive_solver].
    + rewrite Hks by done. rewrite <- !is_Some_state. pose proof (wakes_dom _ _ _ _ b Hk) as E. unfold ystate, kern_of in *. naive_solver.
  - pose proof wk_sched0 as [Hh Hkk Hlv]. rewrite Esys. constructor; cbn; auto.
    + apply kern_ok_delete; [done|]. rewrite wk_cur0. done.
    + intros b Hb. rewrite lookup_delete_ne; [auto|]. by intros ->.
  - intros b Hb Hbx. assert (Hba : b <> a) by (by intros ->). rewrite Hdead by done.
    destruct (wk_new0 b Hb) as [?|(st & E & Hs)]; [auto|]. unfold pst, kern_of. unfold ystate in E. congruence.
  - intros b c' Hc'. destruct (Hback b c' Hc') as (Hb & c & Hc & E%unlinked_eq). destruct E as (_ & _ & -> & _).
    rewrite Hdead by done. auto.
  - intros b c' Hc'. destruct (Hback b c' Hc') as (Hb & c & Hc & E%unlinked_eq). destruct E as (-> & _). eauto.
  - intros b1 b2 c1' c2' H1 H2. destruct (Hback b1 c1' H1) as (_ & c1 & Hc1 & E1%unlinked_eq).
    destruct (Hback b2 c2' H2) as (_ & c2 & Hc2 & E2%unlinked_eq). destruct E1 as (-> & _), E2 as (-> & _). eauto.
  - intros b c' Hc'. destruct (Hback b c' Hc') as (Hb & c & Hc & E%unlinked_eq). destruct E as (Ep & Epp & _).
    destruct (wi_tree0 b c Hc) as [Hne Hr]. rewrite Ep, Epp. split; [done|]. unfold reapable. rewrite Epp.
    destruct Hr as [?|(p & cp & Hp & Epid & Hpd)]; [by left|right].
    assert (Hpa : p <> a) by (intros ->; apply (Hkids b c Hc); congruence).
    pose proof (Hrest p Hpa) as Ec. rewrite Hp in Ec. apply fmap_Some in Ec as (cp' & Hp' & E'). symmetry in E'.
    apply unlinked_eq in E' as (E1 & _). exists p, cp'. rewrite E1, (Hdead p Hpa). auto.
  - intros b c' Hc' H1. destruct (Hback b c' Hc') as (_ & c & Hc & E%unlinked_eq). destruct E as (Ep & -> & _).
    rewrite Ep in H1. eauto.
  - intros b Hb. apply Hrest. by apply Hin in Hb as [_ ?].
  - intros b Hb. apply Hin in Hb as [_ Hb]. rewrite Hpst by done. apply wk_state0.
  - unfold cur, kern_of. rewrite Esys. cbn. exact wk_cur0.
  - intros b Hb. by apply Hin in Hb as [? _].
Qed.

Lemma no_children_left x w l ps a ca :
  winv x w l ps -> tbl w !! a = Some ca -> dead w a -> pid ca <> 1 -> forall b c, tbl w !! b = Some c -> ppid c <> pid ca.
Proof.
  intros Hw Ha Hd H1 b c Hc E. destruct (wi_tree _ _ _ _ Hw b c Hc) as [_ [E0|(p & cp & Hp & Ep & Hl)]].
  - pose proof (wi_pid _ _ _ _ Hw a ca Ha). lia.
  - assert (p = a) as -> by (eapply (wi_pids _ _ _ _ Hw); eauto; congruence). rewrite Ha in Hp. injection Hp as <-. naive_solver.
Qed.

(** ** Reaping *)

Context {Hlaws : ProcResLaws}.

Lemma is_zombie_child_eq x w l ps a c pp :
  winv x w l ps -> tbl w !! a = Some c ->
  exists b, is_zombie_child w pp a = Ok b /\ (b = true <-> ppid c = pp /\ dead w a).
Proof.
  intros Hw Hc. destruct (winv_tbl _ _ _ _ Hw a c Hc) as [Ha _]. unfold is_zombie_child. load_core Hc p Hp.
  destruct (winv_state _ _ _ _ Hw a Ha) as (d & _ & Ed & ->). cbn [mbind outcome_bind]. eexists. split; [reflexivity|].
  change (ppid (core p)) with (ppid p). rewrite andb_true_iff, !bool_decide_eq_true, Ed.
  split; intros [E1 E2]; (split; [done|congruence]).
Qed.

Lemma tbl_free w a : tbl (free_proc w a) = delete a (tbl w).
Proof. unfold tbl, free_proc. cbn. by rewrite fmap_delete. Qed.

Lemma reap_spec x w l ps a ca :
  winv x w l ps -> tbl w !! a = Some ca -> dead w a -> pid ca <> 1 -> a <> cur w -> a <> x ->
  yields (process_reap_zombie_child w a) (fun w' => exists ps', winv x w' (without a l) ps' /\ follows w l ps w' (without a l) ps').
Proof.
  intros Hw Hca Hd H1 Hcur Hx. destruct (winv_tbl _ _ _ _ Hw a ca Hca) as [Ha Ha0].
  unfold process_reap_zombie_child. rewrite decide_False by done.
  eapply yields_bind; [exact (remove_from_list_spec x w l ps a Hw Ha)|].
  intros [w1 r] (Er & (m & h & Ew1) & Hun & Hl1). cbn [fst snd] in *. subst r. rewrite decide_False by (cbn; lia).
  assert (Esys1 : w_sys w1 = w_sys w) by (by rewrite Ew1).
  eapply yields_bind.
  { apply use_res_spec. rewrite Esys1. apply (law_destroy _ _ a ps); [apply Hw|apply Hw|]. by apply (wi_kdom _ _ _ _ Hw). }
  intros w2 (r & y & Ew2 & ps' & Hk & Hnot). cbn [snd] in Hk. apply yields_ret. exists ps'.
  apply (winv_removed x w l ps a ca _ ps' y); auto.
  - by eapply no_children_left.
  - apply Hnot. intros Hps. by apply (wi_queued _ _ _ _ Hw a Hps).
  - by subst w2.
  - by rewrite Ew2, Ew1.
  - rewrite tbl_free. by apply lookup_delete_eq.
  - intros b Hb. rewrite tbl_free, lookup_delete_ne by done. subst w2. apply Hun.
  - rewrite tbl_free. apply (pseg_frame (tbl w1)); [|by subst w2].
    intros b Hb. apply list_elem_of_filter in Hb as [Hb _]. rewrite lookup_delete_ne by done. by subst w2.
Qed.

(** The current process is no corpse. *)
Definition cur_alive w : Prop := ~ dead w (cur w).

Lemma elem_without (b a : Z) l1 l2 : b ∈ l1 ++ a :: l2 -> b <> a -> b ∈ l1 ++ l2.
Proof.
  intros Hb Hn. apply elem_of_app in Hb as [Hb|Hb]; apply elem_of_app; [by left|right].
  by apply elem_of_cons in Hb as [?|?].
Qed.

Lemma unknown_not_dead x w l ps a : winv x w l ps -> a ∉ l -> ~ dead w a.
Proof.
  intros Hw Ha E. apply Ha, (wi_kdom _ _ _ _ Hw). unfold pst in E. destruct (procs (kern_of w) !! a); [eauto|done].
Qed.

Lemma reap_loop_spec x pp n w l1 l2 ps a :
  0 < pp -> ~ dead w x -> winv x w (l1 ++ l2) ps -> pseg (tbl w) a l2 0 -> (length l2 < n)%nat -> cur_alive w ->
  yields (reap_loop n w a pp) (fun w' => exists l2' ps', winv x w' (l1 ++ l2') ps' /\
    follows w (l1 ++ l2) ps w' (l1 ++ l2') ps' /\
    (forall b c, b ∈ l2 -> tbl w !! b = Some c -> b ∈ l2' <-> ~ (ppid c = pp /\ dead w b)) /\ (forall b, b ∈ l2' -> b ∈ l2)).
Proof.
  intros Hpp. revert w l1 ps a n. induction l2 as [|y l2 IH]; intros w l1 ps a [|n] Hx Hw Hl Hn Hca; simpl in Hn; try lia; cbn [reap_loop].
  - cbn in Hl. subst. rewrite decide_True by done. apply yields_ret. exists [], ps. split; [done|].
    split; [apply follows_quiet, (quiet_refl _ _ _ _ Hw)|]. split; [by intros b c ?%not_elem_of_nil|done].
  - destruct Hl as (-> & Hy & c & Hc & Hl). rewrite decide_False by done.
    destruct (is_zombie_child_eq x w _ ps y c pp Hw Hc) as (z & Ez & Hz). load_core Hc p Hp. rewrite Ez. cbn [mbind outcome_bind].
    pose proof (wi_nodup _ _ _ _ Hw) as Hnd. pose proof Hnd as Hnd'. apply NoDup_app in Hnd' as (_ & _ & Hnd').
    apply NoDup_cons in Hnd' as [Hyl2 _].
    destruct z.
    + destruct (proj1 Hz eq_refl) as [Epp Hd].
      assert (H1 : pid (core p) <> 1).
      { intros E. pose proof (wi_init _ _ _ _ Hw y _ Hc E). cbn in Epp. cbn in H. lia. }
      assert (Hyc : y <> cur w) by (intros ->; done). assert (Hyx : y <> x) by (by intros ->).
      destruct (reap_spec x w _ ps y (core p) Hw Hc Hd H1 Hyc Hyx) as (w1 & -> & ps1 & Hw1 & Hf1). cbn [mbind outcome_bind].
      rewrite without_middle in Hw1, Hf1 by done.
      assert (Hl' : pseg (tbl w1) (p_next p) l2 0).
      { pose proof (wi_links _ _ _ _ Hw1) as Hs. apply pseg_app in Hs as (d & _ & Hs).
        pose proof (pseg_head _ _ _ _ Hs) as Eh. pose proof (pseg_head _ _ _ _ Hl) as Eh'. cbn in Eh'. by rewrite Eh', <- Eh. }
      assert (Hkeep : forall b, ~ dead w b -> ~ dead w1 b).
      { intros b Hb. destruct (decide (b ∈ l1 ++ l2)) as [Hin|Hin]; [by rewrite (follows_dead _ _ _ _ _ _ _ Hf1 Hin)|].
        by eapply unknown_not_dead. }
      assert (Hca1 : cur_alive w1) by (unfold cur_alive; rewrite (fo_cur _ _ _ _ _ _ Hf1); by apply Hkeep).
      assert (Hx1 : ~ dead w1 x) by by apply Hkeep.
      destruct (IH w1 l1 ps1 (p_next p) n Hx1 Hw1 Hl' ltac:(lia) Hca1) as (w' & E' & l2' & ps' & Hw' & Hf' & Hin' & Hsub).
      exists w'. split; [exact E'|]. exists l2', ps'. split; [done|]. split; [|split].
      * by apply (follows_trans _ _ _ w1 (l1 ++ l2) ps1).
      * intros b cb Hb Hcb. apply elem_of_cons in Hb as [->|Hb].
        { split; [intros Hin; by apply Hsub in Hin|]. rewrite Hc in Hcb. injection Hcb as <-. intros H. exfalso. by apply H. }
        assert (Hb' : b ∈ l1 ++ l2) by (apply elem_of_app; by right).
        pose proof (fo_tbl _ _ _ _ _ _ Hf1 b Hb') as Et. rewrite Hcb in Et. apply fmap_Some in Et as (cb1 & Hcb1 & Eu).
        symmetry in Eu. apply unlinked_eq in Eu as (_ & Epp' & _).
        by rewrite (Hin' b cb1 Hb Hcb1), Epp', (follows_dead _ _ _ _ _ _ _ Hf1 Hb').
      * intros b Hb. right. by apply Hsub.
    + cbn [mbind outcome_bind]. assert (Hnz : ~ (ppid (core p) = pp /\ dead w y)) by (intros H; by apply Hz in H).
      assert (Eapp : l1 ++ y :: l2 = (l1 ++ [y]) ++ l2) by (by rewrite <- app_assoc).
      rewrite Eapp in Hw. destruct (IH w (l1 ++ [y]) ps (p_next p) n Hx Hw Hl ltac:(lia) Hca) as (w' & E' & l2' & ps' & Hw' & Hf' & Hin' & Hsub).
      exists w'. split; [exact E'|]. exists (y :: l2'), ps'. rewrite Eapp.
      assert (Eapp' : (l1 ++ [y]) ++ l2' = l1 ++ y :: l2') by (by rewrite <- app_assoc). rewrite Eapp' in Hw', Hf'.
      split; [done|]. split; [done|]. split.
      * intros b cb Hb Hcb. rewrite elem_of_cons. apply elem_of_cons in Hb as [->|Hb].
        { rewrite Hc in Hcb. injection Hcb as <-. split; [intros _; exact Hnz|intros _; by left]. }
        rewrite (Hin' b cb Hb Hcb). split; [|by right]. intros [->|?]; done.
      * intros b Hb. apply elem_of_cons in Hb as [->|Hb]; [by left|right; auto].
Qed.

Lemma reap_zombies_spec x w l ps a c :
  winv x w l ps -> tbl w !! a = Some c -> ~ dead w x -> cur_alive w ->
  yields (process_reap_zombies w a) (fun w' => exists l' ps', winv x w' l' ps' /\ follows w l ps w' l' ps' /\
    forall b cb, b ∈ l -> tbl w !! b = Some cb -> b ∈ l' <-> ~ (ppid cb = pid c /\ dead w b)).
Proof.
  intros Hw Hc Hx Hca. destruct (winv_tbl _ _ _ _ Hw a c Hc) as [Ha Ha0]. unfold process_reap_zombies. rewrite decide_False by done.
  pose proof (wi_pid _ _ _ _ Hw a c Hc) as Hpid. load_core Hc p Hp.
  destruct (reap_loop_spec x (pid p) (list_fuel w) w [] l ps (w_list w)) as (w' & E & l' & ps' & Hw' & Hf & Hin & _); auto.
  - apply Hpid.
  - apply Hw.
  - by eapply winv_fuel.
  - exists w'. split; [exact E|]. exists l', ps'. auto.
Qed.

(** ** Changes of descriptors *)

(** Descriptors change in place, at most to a parent of 0 or 1. *)
Lemma winv_update x w l ps m (g : Z -> proc_t -> proc_t) :
  winv x w l ps -> (forall b, tbl (with_table w m) !! b = g b <$> tbl w !! b) ->
  (forall b c, tbl w !! b = Some c -> pid (g b c) = pid c /\ p_next (g b c) = p_next c /\ lifecycle (g b c) = lifecycle c) ->
  (forall b c, tbl w !! b = Some c -> ppid (g b c) = ppid c \/ ppid (g b c) = 0 \/
     (ppid (g b c) = 1 /\ pid c <> 1 /\ exists i ci, tbl w !! i = Some ci /\ pid ci = 1)) ->
  winv x (with_table w m) l ps.
Proof.
  intros [] Hm Hg Hpp. set (w' := with_table w m) in *.
  assert (Hback : forall b c', tbl w' !! b = Some c' -> exists c, tbl w !! b = Some c /\ c' = g b c).
  { intros b c' Hc'. rewrite Hm in Hc'. apply fmap_Some in Hc' as (c & Hc & ->). eauto. }
  assert (Hpar : forall b c, tbl w !! b = Some c -> exists c', tbl w' !! b = Some c' /\ pid c' = pid c).
  { intros b c Hc. exists (g b c). rewrite Hm, Hc. split; [done|]. by apply Hg. }
  constructor; auto.
  - apply (pseg_frame (tbl w)); [|done]. intros b _. rewrite Hm. destruct (tbl w !! b) as [c|] eqn:Hc; [|done]. cbn. f_equal. by apply Hg.
  - intros b. rewrite <- wi_dom0, Hm. apply fmap_is_Some.
  - intros b c' Hc'. apply Hback in Hc' as (c & Hc & ->). destruct (Hg b c Hc) as (_ & _ & ->). by apply wi_life0.
  - intros b c' Hc'. apply Hback in Hc' as (c & Hc & ->). destruct (Hg b c Hc) as (-> & _). eauto.
  - intros b1 b2 c1 c2 H1 H2 E. apply Hback in H1 as (d1 & H1 & ->), H2 as (d2 & H2 & ->).
    destruct (Hg _ _ H1) as (E1 & _), (Hg _ _ H2) as (E2 & _). eapply wi_pids0; eauto. congruence.
  - intros b c' Hc'. apply Hback in Hc' as (c & Hc & ->). destruct (Hg b c Hc) as (-> & _).
    pose proof (wi_pid0 b c Hc). destruct (wi_tree0 b c Hc) as [Hne Hr]. unfold reapable.
    destruct (Hpp b c Hc) as [E|[E|(E & Hn & i & ci & Hi & E1)]]; rewrite E.
    + split; [done|]. destruct Hr as [?|(p & cp & Hp & Ep & Hl)]; [by left|right]. destruct (Hpar p cp Hp) as (cp' & Hp' & E').
      exists p, cp'. rewrite E'. auto.
    + split; [lia|by left].
    + split; [done|right]. destruct (Hpar i ci Hi) as (ci' & Hi' & E'). exists i, ci'. rewrite E'. auto.
  - intros b c' Hc' E1. apply Hback in Hc' as (c & Hc & ->). destruct (Hg b c Hc) as (E & _). rewrite E in E1.
    pose proof (wi_init0 b c Hc E1). destruct (Hpp b c Hc) as [Ep|[Ep|(_ & Hn & _)]]; [congruence|done|done].
Qed.

(** [p->f = ...] outside links, pids and life cycle. *)
Lemma modify_spec x w l ps a f :
  winv x w l ps -> a ∈ l ->
  (forall p, pid (f p) = pid p /\ p_next (f p) = p_next p /\ lifecycle (f p) = lifecycle p /\ ppid (f p) = ppid p) ->
  yields (modify w a f) (fun w' => exists p, w_procs w !! a = Some p /\ winv x w' l ps /\ w_sys w' = w_sys w /\
    w_next_pid w' = w_next_pid w /\ w_res w' = w_res w /\ tbl w' = <[a := core (f p)]> (tbl w)).
Proof.
  intros Hw Ha Hf. destruct (winv_load _ _ _ _ Hw a Ha) as (p & Hp & Hc). unfold modify, load. rewrite Hp. apply yields_ret.
  exists p. split; [done|]. split; [|splits; auto; apply tbl_insert]. destruct (Hf p) as (E1 & E2 & E3 & E4).
  assert (Et : forall b, tbl (store w a (f p)) !! b = (if decide (b = a) then fun _ => core (f p) else id) <$> tbl w !! b).
  { intros b. rewrite tbl_insert. destruct (decide (b = a)) as [->|Hb]; [by rewrite lookup_insert_eq, Hc|].
    rewrite lookup_insert_ne by done. by destruct (tbl w !! b). }
  apply (winv_update x w l ps _ (fun b => if decide (b = a) then fun _ => core (f p) else id) Hw Et).
  - intros b c Hb. destruct (decide (b = a)) as [->|]; [|done]. rewrite Hc in Hb. injection Hb as <-. by splits.
  - intros b c Hb. left. destruct (decide (b = a)) as [->|]; [|done]. rewrite Hc in Hb. by injection Hb as <-.
Qed.

(** ** Reparenting *)

Definition adopted (dp to : Z) (c : proc_t) : proc_t := if decide (ppid c = dp) then c <| ppid := to |> else c.

Lemma adopted_fields dp to c : pid (adopted dp to c) = pid c /\ p_next (adopted dp to c) = p_next c /\
  lifecycle (adopted dp to c) = lifecycle c /\ pgid (adopted dp to c) = pgid c.
Proof. unfold adopted. by destruct (decide _). Qed.

(** Afterwards the dying process has no children, and nobody is an orphan. *)
Lemma reparent_spec x w l ps a c :
  winv x w l ps -> tbl w !! a = Some c ->
  yields (process_reparent_children w a) (fun w' => winv x w' l ps /\ (exists m, w' = with_table w m) /\
    (exists to, (to = 0 \/ to = 1) /\ forall b, tbl w' !! b = adopted (pid c) to <$> tbl w !! b) /\
    forall b cb, tbl w' !! b = Some cb -> ppid cb <> pid c).
Proof.
  intros Hw Hc. destruct (winv_tbl _ _ _ _ Hw a c Hc) as [Ha Ha0]. pose proof (wi_pid _ _ _ _ Hw a c Hc) as Hpid.
  pose proof (fun b cb Hb => proj1 (wi_tree _ _ _ _ Hw b cb Hb)) as Hself.
  assert (Hloop : forall to keep, to = 0 \/ (to = 1 /\ pid c <> 1 /\ exists i ci, tbl w !! i = Some ci /\ pid ci = 1) -> keep = 0 \/ keep = a ->
    yields (reparent_loop (list_fuel w) w (w_list w) (pid c) to keep) (fun w' => winv x w' l ps /\ (exists m, w' = with_table w m) /\
    (exists to, (to = 0 \/ to = 1) /\ forall b, tbl w' !! b = adopted (pid c) to <$> tbl w !! b) /\ forall b cb, tbl w' !! b = Some cb -> ppid cb <> pid c)).
  { intros to keep Hto Hkeep.
    apply (yields_weaken _ _ _ (reparent_loop_spec w l _ _ (pid c) to keep (wi_links _ _ _ _ Hw) (wi_nodup _ _ _ _ Hw) (winv_fuel _ _ _ _ Hw))).
    intros w' [[m ->] Hm].
    assert (Ha' : forall b, tbl (with_table w m) !! b = adopted (pid c) to <$> tbl w !! b).
    { intros b. rewrite Hm. destruct (tbl w !! b) as [cb|] eqn:Hb; [|done]. cbn. f_equal. unfold reparented, adopted.
      destruct (winv_tbl _ _ _ _ Hw b cb Hb) as [Hbl Hb0]. destruct (decide (ppid cb = pid c)) as [E|E].
      - rewrite decide_True; [done|]. splits; auto. destruct Hkeep as [->| ->]; [done|]. intros ->. apply (Hself a cb Hb). congruence.
      - rewrite decide_False; [done|]. by intros (_ & ? & _). }
    split; [|split; [by exists m|split; [exists to; split; [tauto|done]|]]].
    - apply (winv_update x w l ps m (fun _ => adopted (pid c) to) Hw Ha').
      + intros b cb _. destruct (adopted_fields (pid c) to cb) as (? & ? & ? & _). done.
      + intros b cb Hb. unfold adopted. destruct (decide (ppid cb = pid c)) as [E|E]; [|by left]. right. cbn.
        destruct Hto as [->|(-> & Hn & Hi)]; [by left|right]. splits; auto. intros E1.
        pose proof (wi_init _ _ _ _ Hw b cb Hb E1). lia.
    - intros b cb Hb. rewrite Ha' in Hb. apply fmap_Some in Hb as (d & Hd & ->). unfold adopted.
      destruct (decide (ppid d = pid c)); [|done]. cbn. lia. }
  unfold process_reparent_children. rewrite decide_False by done. load_core Hc p Hp.
  eapply yields_bind; [exact (has_child_spec w l _ _ a (pid p) (wi_links _ _ _ _ Hw) (winv_fuel _ _ _ _ Hw))|].
  intros [|] Hhc; cbn [negb].
  - eapply yields_bind; [exact (find_by_pid_spec x w l ps 1 Hw)|]. intros i Hi.
    destruct (decide (i = 0 \/ i = a)) as [E|E]; [apply Hloop; auto|]. apply Hloop; auto. right.
    destruct Hi as [[-> _]|(Hil & ci & Hci & E1)]; [naive_solver|]. splits; auto; [|eauto].
    intros E2. apply E. right. eapply (wi_pids _ _ _ _ Hw); eauto. cbn in *. congruence.
  - apply yields_ret. split; [done|]. split; [exists (w_procs w); by destruct w|].
    assert (Hno : forall b cb, tbl w !! b = Some cb -> ppid cb <> pid (core p)).
    { intros b cb Hb E. destruct (winv_tbl _ _ _ _ Hw b cb Hb) as [Hbl _].
      assert (b = a) as -> by (by eapply (Hhc eq_refl)). apply (Hself a cb Hb). rewrite Hc in Hb. by injection Hb as <-. }
    split; [|done]. exists 0. split; [by left|]. intros b. destruct (tbl w !! b) as [cb|] eqn:Hb; [|done]. cbn. f_equal. unfold adopted.
    rewrite decide_False; [done|]. by apply Hno with b.
Qed.
End table.
