(* ===== verification/ProcExit.v ===== *)
(** * How a process ends

    Waking a process, telling a parent, the teardown of [process_exit], its
    remote twin [process_signal_default_kill], and [send_signal], over the
    invariant of [ProcInv]. *)

From S2P Require Import Prelude RecordUpdate Runq RrSched PrioSched Sched ProcState Signal ProcTable ProcInv.

Section ending.
Context {B R : Type} `{!SchedOps B, !SchedLaws B, !ProcRes B R, Hlaws : !ProcResLaws}.
Abbreviation world := (world (S := B) (R := R)).
Implicit Types w : world.

(** ** Death *)

Lemma kern_ok_zombie k a d : kern_ok k -> procs k !! a = Some d ->
  kern_ok (with_procs (<[a := {| state := PROCESS_ZOMBIE; task_state := TASK_SCHED_TERMINATED; sched_prio := sched_prio d |}]> (procs k)) k).
Proof.
  intros [] Hd. constructor; cbn.
  - intros b e. cbn. rewrite lookup_insert_Some. intros [[<- <-]|[_ Hb]]; [done|by apply (ko_views b)].
  - intros b e. rewrite lookup_insert_Some. intros [[<- <-]|[_ Hb]]; [done|by apply ko_sole].
  - destruct ko_current as [?|Hc]; [by left|right]. rewrite lookup_insert_is_Some'. by right.
  - rewrite lookup_insert_ne; [done|]. intros ->. congruence.
Qed.

(** A childless process becomes a zombie that may still be queued. *)
Lemma mark_zombie_spec w l ps a c :
  winv 0 w l ps -> tbl w !! a = Some c -> (forall b cb, tbl w !! b = Some cb -> ppid cb <> pid c) ->
  yields (process_mark_zombie w a) (fun w' => winv a w' l ps /\ dead w' a /\ (forall b, b <> a -> pst w' b = pst w b) /\
    cur w' = cur w /\ w_next_pid w' = w_next_pid w /\ tbl w' = <[a := c <| lifecycle := PROCESS_LIFECYCLE_ZOMBIE |>]> (tbl w)).
Proof.
  intros Hw Hc Hkids. destruct (winv_tbl _ _ _ _ Hw a c Hc) as [Ha Ha0]. unfold process_mark_zombie. rewrite decide_False by done.
  destruct (tbl_load _ _ _ Hc) as (p & Hp & ->). unfold modify, load. rewrite Hp. cbn [or_ub mbind outcome_bind].
  destruct (winv_state _ _ _ _ Hw a Ha) as (d & Hd & Ed & _). unfold load_proc.
  change (kern_of (store w a (p <| lifecycle := PROCESS_LIFECYCLE_ZOMBIE |>))) with (kern_of w). rewrite Hd. cbn [or_ub mbind outcome_bind].
  apply yields_ret. set (w' := with_kern _ _).
  assert (Et : tbl w' = <[a := core p <| lifecycle := PROCESS_LIFECYCLE_ZOMBIE |>]> (tbl w)) by apply tbl_insert.
  assert (Hs : forall b, b <> a -> pst w' b = pst w b).
  { intros b Hb. unfold pst. subst w'. cbn. by rewrite lookup_insert_ne. }
  assert (Hda : dead w' a) by (unfold pst; subst w'; cbn; by rewrite lookup_insert_eq).
  assert (Hdom : forall b, is_Some (procs (kern_of w') !! b) <-> is_Some (procs (kern_of w) !! b)).
  { intros b. subst w'. cbn. rewrite lookup_insert_is_Some'. split; [intros [<-|?]; [eauto|done]|by right]. }
  assert (Hback : forall b c', tbl w' !! b = Some c' -> exists cb, tbl w !! b = Some cb /\ pid c' = pid cb /\ ppid c' = ppid cb).
  { intros b c'. rewrite Et, lookup_insert_Some. intros [[<- <-]|[_ Hb]]; [by exists (core p)|eauto]. }
  split; [|by splits]. pose proof Hw as []. constructor; auto.
  - rewrite Et. apply (pseg_frame (tbl w)); [|done]. intros b _. destruct (decide (b = a)) as [->|]; [|by rewrite lookup_insert_ne].
    by rewrite lookup_insert_eq, Hc.
  - intros b. rewrite <- wi_dom, Et, lookup_insert_is_Some'. split; [intros [<-|?]; [eauto|done]|by right].
  - intros b. by rewrite Hdom.
  - destruct wi_sched. constructor; cbn; auto; [by apply kern_ok_zombie|]. intros b Hb. apply Hdom. auto.
  - intros b Hb Hba. rewrite Hs by done. apply wi_queued; [done|]. intros ->.
    destruct wi_sched. apply si_live in Hb as [e He]. pose proof (ko_null _ si_kern). congruence.
  - intros b c' Hc'. destruct (decide (b = a)) as [->|Hb].
    + rewrite Et, lookup_insert_eq in Hc'. injection Hc' as <-. done.
    + rewrite Hs by done. rewrite Et, lookup_insert_ne in Hc' by done. auto.
  - intros b c' Hc'. apply Hback in Hc' as (cb & Hb & -> & _). eauto.
  - intros b1 b2 c1 c2 H1 H2 E. apply Hback in H1 as (d1 & H1 & E1 & _), H2 as (d2 & H2 & E2 & _). eapply wi_pids; eauto. congruence.
  - intros b c' Hc'. apply Hback in Hc' as (cb & Hb & E1 & E2). destruct (wi_tree b cb Hb) as [Hne Hr]. unfold reapable.
    rewrite E1, E2. split; [done|]. destruct Hr as [?|(q & cq & Hq & Eq & Hl)]; [by left|right].
    assert (Hqa : q <> a).
    { intros ->. rewrite Hc in Hq. injection Hq as <-. by apply (Hkids b cb Hb). }
    exists q, cq. rewrite Hs by done. rewrite Et, lookup_insert_ne by done. auto.
  - intros b c' Hc' E. apply Hback in Hc' as (cb & Hb & E1 & ->). rewrite E1 in E. eauto.
Qed.

(** ** Waking *)

Context (knode : B -> Z) (Hknode : forall s, knode s <> 0 /\ fresh_node_for s (knode s)).

Lemma set_ready_quiet x w l ps a :
  winv x w l ps -> a ∈ l -> ~ dead w a ->
  yields (set_sched_state w a PROCESS_READY) (fun w' => quiet w ps w' ps /\ pst w' a = Some PROCESS_READY /\ w_procs w' = w_procs w).
Proof.
  intros Hw Ha Hd. destruct (winv_state _ _ _ _ Hw a Ha) as (d & Hpd & Ed & _). pose proof (winv_nonnull _ _ _ _ Hw a Ha) as Ha0.
  pose proof Hw as []. destruct wi_sched. unfold set_sched_state.
  destruct (wake_spec (kern_of w) a si_kern) as (k' & Ek & Hk & Hcur & _ & _ & _ & Ho & Hdom & _); [eauto|].
  rewrite Ek. cbn [mbind outcome_bind]. rewrite (set_state_Ok _ _ d) in Ek by done. injection Ek as <-. apply yields_ret.
  assert (Hst : forall b, b <> a -> ystate (w_sys (with_kern w (with_procs (<[a := in_state d PROCESS_READY]> (procs (kern_of w))) (kern_of w)))) b = ystate (w_sys w) b).
  { intros b Hb. unfold ystate. cbn. by rewrite lookup_insert_ne. }
  split; [|split; [unfold pst; cbn; by rewrite lookup_insert_eq|done]]. constructor; auto. constructor; auto.
  - intros b. destruct (decide (b = a)) as [->|Hb]; [right|left; by apply Hst]. exists (state d). splits; auto; [congruence|].
    unfold ystate. cbn. by rewrite lookup_insert_eq.
  - constructor; cbn; auto. intros b Hb. rewrite lookup_insert_is_Some'. right. by apply si_live.
Qed.

Lemma add_process_quiet x w l ps a :
  winv x w l ps -> a ∈ l -> ~ dead w a ->
  yields (add_process knode w a) (fun w' => exists ps', quiet w ps w' ps' /\ a ∈ ps' /\ pst w' a = Some PROCESS_READY /\ w_procs w' = w_procs w).
Proof.
  intros Hw Ha Hd. destruct (winv_state _ _ _ _ Hw a Ha) as (d & Hpd & Ed & _). pose proof (winv_nonnull _ _ _ _ Hw a Ha) as Ha0.
  pose proof Hw as []. pose proof wi_sched as []. unfold add_process, sched_add_process. destruct (Hknode (backend (w_sys w))) as [Hn Hf].
  destruct (law_add _ _ _ _ a si_holds si_kern ltac:(eauto) Hn Hf) as (s' & k' & -> & Hk' & Ek & Hh'). cbn [mbind outcome_bind].
  pose proof Ek as Ek'. rewrite (set_state_Ok _ _ d) in Ek' by done. injection Ek' as <-.
  apply yields_ret. exists (if decide (a ∈ ps) then ps else ps ++ [a]).
  split; [|split; [destruct (decide _); [done|]; apply elem_of_app; right; by left|split; [unfold pst; cbn; by rewrite lookup_insert_eq|done]]].
  constructor; auto. constructor; auto.
  - intros b. destruct (decide (b = a)) as [->|Hb]; [right|left; unfold ystate; cbn; by rewrite lookup_insert_ne].
    exists (state d). splits; auto; [congruence|]. unfold ystate. cbn. by rewrite lookup_insert_eq.
  - intros b Hb. destruct (decide _); [done|]. apply elem_of_app. by left.
  - intros b Hb. destruct (decide (a ∈ ps)); [by left|]. apply elem_of_app in Hb as [Hb|Hb]; [by left|right].
    apply list_elem_of_singleton in Hb as ->. exists (state d). split; [done|congruence].
  - constructor; cbn; auto. intros b Hb. rewrite lookup_insert_is_Some'. destruct (decide (a ∈ ps)); [right; by apply si_live|].
    apply elem_of_app in Hb as [Hb|Hb]; [right; by apply si_live|]. apply list_elem_of_singleton in Hb as ->. by left.
  - destruct (decide (a ∈ ps)); [done|]. apply NoDup_app. splits; auto; [|apply NoDup_singleton].
    intros b Hb Hb'. apply list_elem_of_singleton in Hb' as ->. done.
Qed.

Lemma promote_quiet x w l ps a :
  winv x w l ps -> a ∈ l -> pst w a = Some PROCESS_READY ->
  yields (promote_process w a) (fun w' => quiet w ps w' ps /\ pst w' a = Some PROCESS_READY /\ w_procs w' = w_procs w).
Proof.
  intros Hw Ha Hr. destruct (winv_state _ _ _ _ Hw a Ha) as (d & Hpd & Ed & _). pose proof (winv_nonnull _ _ _ _ Hw a Ha) as Ha0.
  rewrite Hr in Ed. injection Ed as Ed. pose proof Hw as []. pose proof wi_sched as []. unfold promote_process, sched_promote_process.
  destruct (law_promote _ _ _ a si_holds si_kern ltac:(eauto)) as (s' & k' & -> & Hk' & Hh' & Hkk). cbn [mbind outcome_bind]. apply yields_ret.
  assert (Hst : forall b, state <$> procs k' !! b = state <$> procs (machine (w_sys w)) !! b).
  { intros b. destruct Hkk as [->|Ek]; [done|]. rewrite (set_state_Ok _ _ d) in Ek by done. injection Ek as <-. cbn.
    destruct (decide (b = a)) as [->|]; [|by rewrite lookup_insert_ne]. rewrite lookup_insert_eq. unfold kern_of in Hpd. rewrite Hpd. cbn. congruence. }
  assert (Hcur : current_process k' = current_process (machine (w_sys w))).
  { destruct Hkk as [->|Ek]; [done|]. rewrite (set_state_Ok _ _ d) in Ek by done. by injection Ek as <-. }
  split; [|split; [unfold pst, kern_of; cbn; by rewrite Hst|done]].
  constructor; auto. constructor; auto.
  - intros b. left. apply Hst.
  - constructor; cbn; auto. intros b Hb. rewrite <- is_Some_state, Hst, is_Some_state. by apply si_live.
Qed.

Lemma make_ready_quiet x w l ps a :
  winv x w l ps -> a ∈ l -> ~ dead w a ->
  yields (make_ready knode w a) (fun w' => exists ps', quiet w ps w' ps' /\ a ∈ ps' /\ pst w' a = Some PROCESS_READY /\ w_procs w' = w_procs w).
Proof.
  intros Hw Ha Hd. unfold make_ready. eapply yields_bind; [exact (set_ready_quiet x w l ps a Hw Ha Hd)|]. intros w1 (Hq1 & _ & Ep1).
  pose proof (winv_quiet _ _ _ _ _ _ Hw Hq1) as Hw1. assert (Hd1 : ~ dead w1 a) by (by rewrite (quiet_dead _ _ _ _ _ Hq1)).
  eapply yields_bind; [exact (add_process_quiet x w1 l ps a Hw1 Ha Hd1)|]. intros w2 (ps2 & Hq2 & Hin & Hr & Ep2).
  pose proof (winv_quiet _ _ _ _ _ _ Hw1 Hq2) as Hw2.
  apply (yields_weaken _ _ _ (promote_quiet x w2 l ps2 a Hw2 Ha Hr)). intros w3 (Hq3 & Hr3 & Ep3). exists ps2. split; [|splits; auto; congruence].
  eapply quiet_trans; [exact Hq1|]. by eapply quiet_trans.
Qed.

(** ** Telling the parent *)

Context (status_ok : Z -> bool).

Lemma wait_match_eq x w l ps parent child cp cc :
  winv x w l ps -> tbl w !! parent = Some cp -> tbl w !! child = Some cc ->
  process_wait_child_matches_blocked_target w parent (pid cc) =
    Ok (wait_blocked (wait cp) && bool_decide (ppid cc = pid cp) && process_wait_pid_matches_child (wait_target_pid (wait cp)) cp cc).
Proof.
  intros Hw Hp Hc. destruct (winv_tbl _ _ _ _ Hw _ _ Hp) as [_ Hp0], (winv_tbl _ _ _ _ Hw _ _ Hc) as [_ Hc0].
  pose proof (wi_pid _ _ _ _ Hw _ _ Hc). pose proof (find_by_pid_of _ _ _ _ _ _ Hw Hc) as Ef.
  unfold process_wait_child_matches_blocked_target. rewrite decide_False by lia.
  destruct (tbl_load _ _ _ Hp) as (p & Lp & ->), (tbl_load _ _ _ Hc) as (c & Lc & ->).
  rewrite (load_eq _ _ _ Lp). cbn [mbind outcome_bind]. change (wait_blocked (wait (core p))) with (wait_blocked (wait p)).
  destruct (wait_blocked (wait p)); [|done]. cbn [negb andb]. rewrite Ef. cbn [mbind outcome_bind]. rewrite decide_False by done.
  rewrite (load_eq _ _ _ Lc). cbn [mbind outcome_bind]. change (ppid (core c)) with (ppid c). change (pid (core p)) with (pid p).
  destruct (decide (ppid c <> pid p)) as [E|E]; [by rewrite bool_decide_false|]. apply dec_stable in E. by rewrite bool_decide_true.
Qed.

(** A parent asleep in wait4 for this child becomes ready and is queued. *)
Definition awaited (cp cc : proc_t) : bool :=
  wait_blocked (wait cp) && bool_decide (ppid cc = pid cp) && process_wait_pid_matches_child (wait_target_pid (wait cp)) cp cc.

Lemma wait_wake_quiet x w l ps parent child cp cc :
  winv x w l ps -> tbl w !! parent = Some cp -> tbl w !! child = Some cc -> ~ dead w parent ->
  yields (process_wait_wake_blocked_parent knode status_ok w parent child) (fun w' => exists ps', quiet w ps w' ps' /\
    (awaited cp cc = true -> parent ∈ ps' /\ pst w' parent = Some PROCESS_READY)).
Proof.
  intros Hw Hp Hc Hd. destruct (winv_tbl _ _ _ _ Hw _ _ Hp) as [Hpl Hp0], (winv_tbl _ _ _ _ Hw _ _ Hc) as [_ Hc0].
  pose proof (wait_match_eq _ _ _ _ _ _ _ _ Hw Hp Hc) as Em. unfold process_wait_wake_blocked_parent. rewrite decide_False by tauto.
  unfold awaited. destruct (tbl_load _ _ _ Hp) as (p & Lp & ->), (tbl_load _ _ _ Hc) as (c & Lc & ->).
  rewrite (load_eq _ _ _ Lp). cbn [mbind outcome_bind]. change (wait_blocked (wait (core p))) with (wait_blocked (wait p)) in *.
  destruct (wait_blocked (wait p)) eqn:Eb; cbn [negb]; [|apply yields_ret; exists ps; split; [by eapply quiet_refl|done]].
  rewrite (load_eq _ _ _ Lc). cbn [mbind outcome_bind]. change (pid (core c)) with (pid c) in Em. rewrite Em. cbn [mbind outcome_bind].
  destruct (_ && _ && _) eqn:Ea; cbn [negb]; [|apply yields_ret; exists ps; split; [by eapply quiet_refl|done]].
  destruct (irq_frame_saved (resume p)); cbn [negb].
  - set (w1 := if bool_decide _ && _ then _ else w).
    assert (Hq1 : quiet w ps w1 ps) 
      by (subst w1; match goal with |- quiet _ _ (if ?b then _ else _) _ => destruct b end; [by eapply quiet_res|by eapply quiet_refl]).
    pose proof (winv_quiet _ _ _ _ _ _ Hw Hq1) as Hw1. clearbody w1.
    eapply yields_bind; [apply (modify_quiet x w1 l ps parent _ Hw1 Hpl); by intros [] _|]. intros w2 [Hq2 _].
    pose proof (winv_quiet _ _ _ _ _ _ Hw1 Hq2) as Hw2. pose proof (quiet_trans _ _ _ _ _ _ Hq1 Hq2) as Hq.
    assert (Hd2 : ~ dead w2 parent) by (by rewrite (quiet_dead _ _ _ _ _ Hq)).
    apply (yields_weaken _ _ _ (make_ready_quiet x w2 l ps parent Hw2 Hpl Hd2)). intros w3 (ps3 & Hq3 & Hin & Hr & _).
    exists ps3. split; [by eapply quiet_trans|done].
  - apply (yields_weaken _ _ _ (make_ready_quiet x w l ps parent Hw Hpl Hd)). intros w3 (ps3 & Hq3 & Hin & Hr & _). eauto.
Qed.

Lemma resched_quiet x w l ps : winv x w l ps -> quiet w ps (clock_request_sched_resched w) ps.
Proof. intros []. constructor; auto. destruct wi_sched. constructor; auto. by constructor. Qed.

(** The end of [send_signal]: the signal is recorded and a sleeper woken. *)
Lemma raise_spec x w l ps a sig :
  winv x w l ps -> a ∈ l ->
  yields (w ← modify w a (pending_raise sig); st ← pstate w a;
          if decide (st = PROCESS_BLOCKED) then
            w ← set_sched_state w a PROCESS_READY; w ← promote_process w a; Ok (Back (clock_request_sched_resched w) 0)
          else Ok (Back w 0)) (fun r => exists w', r = Back w' 0 /\ quiet w ps w' ps /\
    (pst w a = Some PROCESS_BLOCKED -> pst w' a = Some PROCESS_READY) /\ (pst w a <> Some PROCESS_BLOCKED -> w_sys w' = w_sys w) /\
    exists p, w_procs w !! a = Some p /\ w_procs w' !! a = Some (pending_raise sig p)).
Proof.
  intros Hw Ha. destruct (winv_load _ _ _ _ Hw a Ha) as (p & Hp & _). destruct (winv_state _ _ _ _ Hw a Ha) as (d & _ & Ed & _).
  assert (Em : modify w a (pending_raise sig) = Ok (store w a (pending_raise sig p))) by (unfold modify, load; by rewrite Hp).
  destruct (modify_quiet x w l ps a (pending_raise sig) Hw Ha) as (w1 & E1 & Hq1 & Es1); [by intros [] _|].
  rewrite E1. rewrite Em in E1. injection E1 as E1. cbn [mbind outcome_bind]. pose proof (winv_quiet _ _ _ _ _ _ Hw Hq1) as Hw1.
  assert (Hl1 : w_procs w1 !! a = Some (pending_raise sig p)) by (rewrite <- E1; cbn; apply lookup_insert_eq).
  assert (Es : pst w1 a = pst w a) by (unfold pst, kern_of; by rewrite Es1). clear E1 Em.
  destruct (winv_state _ _ _ _ Hw1 a Ha) as (d1 & _ & Ed1 & ->). cbn [mbind outcome_bind].
  destruct (decide (state d1 = PROCESS_BLOCKED)) as [Hb|Hb].
  - assert (Hd1 : ~ dead w1 a) by congruence.
    eapply yields_bind; [exact (set_ready_quiet x w1 l ps a Hw1 Ha Hd1)|]. intros w2 (Hq2 & Hr2 & Ep2).
    pose proof (winv_quiet _ _ _ _ _ _ Hw1 Hq2) as Hw2.
    eapply yields_bind; [exact (promote_quiet x w2 l ps a Hw2 Ha Hr2)|]. intros w3 (Hq3 & Hr3 & Ep3).
    pose proof (winv_quiet _ _ _ _ _ _ Hw2 Hq3) as Hw3. apply yields_ret. eexists. split; [reflexivity|].
    split; [|split; [done|split; [congruence|]]].
    + eapply quiet_trans; [exact Hq1|]. eapply quiet_trans; [exact Hq2|]. eapply quiet_trans; [exact Hq3|]. by eapply resched_quiet.
    + exists p. split; [done|]. cbn. by rewrite Ep3, Ep2.
  - apply yields_ret. exists w1. split; [done|]. split; [done|]. split; [congruence|]. split; [done|]. eauto.
Qed.

(** SIGCHLD kills nobody: it is recorded, or init ignores it. *)
Lemma send_chld_quiet x w l ps n a c :
  winv x w l ps -> tbl w !! a = Some c ->
  yields (send_signal_fuel knode status_ok (Datatypes.S n) w (pid c) SIGCHLD) (fun r => exists w' ret, r = Back w' ret /\ quiet w ps w' ps).
Proof.
  intros Hw Hc. destruct (winv_tbl _ _ _ _ Hw a c Hc) as [Ha Ha0]. cbn [send_signal_fuel].
  rewrite decide_False by (unfold SIGCHLD, _NSIG; lia). rewrite (find_by_pid_of _ _ _ _ _ _ Hw Hc). cbn [mbind outcome_bind].
  rewrite decide_False by done. rewrite decide_False by done. load_core Hc p Hp.
  destruct (bool_decide (pid p = 1) && _); [apply yields_ret; exists w, 0; split; [done|by eapply quiet_refl]|].
  change (process_signal_is_default_fatal p SIGCHLD) with false. unfold andthen. cbn [mbind outcome_bind].
  apply (yields_weaken _ _ _ (raise_spec x w l ps a SIGCHLD Hw Ha)). intros r (w' & -> & Hq & _). eauto.
Qed.

Abbreviation send n := (send_signal_fuel knode status_ok (Datatypes.S n)).

Lemma notify_parent_spec x w l ps n parent dying cp cd :
  winv x w l ps -> tbl w !! parent = Some cp -> tbl w !! dying = Some cd -> ~ dead w parent ->
  yields (notify_parent knode status_ok (send n) w parent dying) (fun r => exists w' ps', r = Back w' tt /\ quiet w ps w' ps' /\
    (awaited cp cd = true -> parent ∈ ps' /\ pst w' parent = Some PROCESS_READY)).
Proof.
  intros Hw Hp Hc Hd. destruct (winv_tbl _ _ _ _ Hw _ _ Hp) as [Hpl _]. pose proof (send_chld_quiet x w l ps n parent cp Hw Hp) as Hs.
  unfold notify_parent. destruct (tbl_load _ _ _ Hp) as (p & Lp & E). rewrite (load_eq _ _ _ Lp). cbn [mbind outcome_bind].
  change (pid p) with (pid (core p)). rewrite <- E. destruct Hs as (r & -> & w1 & ret & -> & Hq1). unfold andthen. cbn [mbind outcome_bind].
  pose proof (winv_quiet _ _ _ _ _ _ Hw Hq1) as Hw1. rewrite <- (q_tbl _ _ _ _ Hq1) in Hp, Hc.
  rewrite <- (quiet_dead _ _ _ _ parent Hq1) in Hd.
  destruct (winv_state _ _ _ _ Hw1 parent Hpl) as (d & _ & Ed & ->). cbn [mbind outcome_bind].
  destruct (tbl_load _ _ _ Hp) as (p1 & Lp1 & E1). rewrite (load_eq _ _ _ Lp1). cbn [mbind outcome_bind].
  destruct (decide (state d = PROCESS_BLOCKED \/ wait_blocked (wait p1) = true)) as [Hb|Hb].
  - eapply yields_bind; [exact (wait_wake_quiet x w1 l ps parent dying cp cd Hw1 Hp Hc Hd)|]. intros w2 (ps2 & Hq2 & Ha). apply yields_ret.
    exists w2, ps2. split; [done|]. split; [by eapply quiet_trans|done].
  - apply yields_ret. exists w1, ps. split; [done|]. split; [done|]. unfold awaited. intros Ha. exfalso. apply Hb. right.
    apply andb_true_iff in Ha as [Ha _]. apply andb_true_iff in Ha as [Ha _]. by rewrite E1 in Ha.
Qed.

Lemma awaited_ppid cp cd : awaited cp cd = true -> ppid cd = pid cp.
Proof. intros Ha. apply andb_true_iff in Ha as [Ha _]. apply andb_true_iff in Ha as [_ Ha]. by apply bool_decide_eq_true in Ha. Qed.

Lemma exit_notify_spec x w l ps n dying cd :
  winv x w l ps -> tbl w !! dying = Some cd ->
  yields (exit_notify knode status_ok (send n) w dying) (fun r => exists w' ps', r = Back w' tt /\ quiet w ps w' ps' /\
    forall parent cp, tbl w !! parent = Some cp -> awaited cp cd = true -> ~ dead w parent ->
      parent ∈ ps' /\ pst w' parent = Some PROCESS_READY).
Proof.
  intros Hw Hc. destruct (winv_tbl _ _ _ _ Hw _ _ Hc) as [Hcl _]. destruct (wi_tree _ _ _ _ Hw _ _ Hc) as [_ Hr].
  unfold exit_notify. destruct (tbl_load _ _ _ Hc) as (p & Lp & E). rewrite (load_eq _ _ _ Lp). cbn [mbind outcome_bind].
  change (ppid p) with (ppid (core p)). rewrite <- E. destruct (decide (ppid cd > 0)) as [Hpos|Hpos].
  2: { apply yields_ret. exists w, ps. split; [done|]. split; [by eapply quiet_refl|]. intros parent cp Hp Ha _.
       pose proof (awaited_ppid _ _ Ha). pose proof (wi_pid _ _ _ _ Hw _ _ Hp). lia. }
  destruct Hr as [?|(b & cb & Hb & Ep & Hl)]; [lia|]. rewrite <- Ep. rewrite (find_by_pid_of _ _ _ _ _ _ Hw Hb). cbn [mbind outcome_bind].
  destruct (winv_tbl _ _ _ _ Hw _ _ Hb) as [Hbl Hb0]. rewrite (decide_False (P := b = 0)) by done.
  destruct (winv_state _ _ _ _ Hw b Hbl) as (d & _ & Ed & ->). cbn [mbind outcome_bind].
  destruct (decide (b <> 0 /\ state d <> PROCESS_ZOMBIE)) as [[_ Hnz]|Hz].
  - assert (Hnd : ~ dead w b) by congruence.
    apply (yields_weaken _ _ _ (notify_parent_spec x w l ps n b dying cb cd Hw Hb Hc Hnd)). intros r (w' & ps' & -> & Hq & Ha).
    exists w', ps'. split; [done|]. split; [done|]. intros parent cp Hp Hap _.
    assert (parent = b) as -> by (eapply (wi_pids _ _ _ _ Hw); eauto; rewrite Ep; symmetry; by apply awaited_ppid).
    rewrite Hb in Hp. injection Hp as <-. auto.
  - assert (Hdb : dead w b) by (rewrite Ed; f_equal; apply dec_stable; intros ?; by apply Hz).
    assert (E1 : pid cb = 1) by (by destruct Hl). assert (Epp : ppid p = 1) by (change (ppid (core p) = 1); rewrite <- E; congruence).
    eapply yields_bind; [apply (modify_quiet x w l ps dying _ Hw Hcl)|].
    { intros q Lq. rewrite Lp in Lq. injection Lq as <-. destruct p. cbn in Epp. by rewrite Epp. }
    intros w1 [Hq1 _]. pose proof (winv_quiet _ _ _ _ _ _ Hw Hq1) as Hw1.
    assert (Hb1 : tbl w1 !! b = Some cb) by (by rewrite (q_tbl _ _ _ _ Hq1)). rewrite <- E1.
    rewrite (find_by_pid_of _ _ _ _ _ _ Hw1 Hb1). cbn [mbind outcome_bind]. rewrite decide_False by done.
    destruct (tbl_load _ _ _ Hb1) as (q & Lq & Eq). rewrite (load_eq _ _ _ Lq). cbn [mbind outcome_bind].
    pose proof (send_chld_quiet x w1 l ps n b cb Hw1 Hb1) as (r & Es & w2 & ret & -> & Hq2). rewrite Eq in Es.
    change (pid (core q)) with (pid q) in Es. rewrite Es. unfold andthen. cbn [mbind outcome_bind].
    pose proof (winv_quiet _ _ _ _ _ _ Hw1 Hq2) as Hw2. pose proof (quiet_trans _ _ _ _ _ _ Hq1 Hq2) as Hq.
    destruct (winv_state _ _ _ _ Hw2 b Hbl) as (d2 & _ & Ed2 & ->). cbn [mbind outcome_bind].
    rewrite <- (quiet_dead _ _ _ _ b Hq) in Hdb. rewrite decide_False by congruence.
    apply yields_ret. exists w2, ps. split; [done|]. split; [done|]. intros parent cp Hp Hap Hnd. exfalso. apply Hnd.
    assert (parent = b) as -> by (eapply (wi_pids _ _ _ _ Hw); eauto; rewrite Ep; symmetry; by apply awaited_ppid).
    by rewrite <- (quiet_dead _ _ _ _ b Hq).
Qed.

(** ** Giving the children away *)

(** From [w] to [w'] the dead children of [c] are reaped and the living ones get
    the parent [to]; everybody else is as before, up to links and wake-ups. *)
Record heirs (c : proc_t) w (l ps : list Z) w' (l' ps' : list Z) : Prop := {
  he_in : forall b cb, tbl w !! b = Some cb -> b ∈ l' <-> ~ (ppid cb = pid c /\ dead w b);
  he_sub : forall b, b ∈ l' -> b ∈ l;
  he_tbl : exists to, (to = 0 \/ to = 1) /\ forall b, b ∈ l' -> unlinked <$> tbl w' !! b = (fun cb => unlinked (adopted (pid c) to cb)) <$> tbl w !! b;
  he_state : forall b, b ∈ l' -> pst w' b = pst w b \/
    exists st, pst w b = Some st /\ st <> PROCESS_ZOMBIE /\ pst w' b = Some PROCESS_READY;
  he_cur : cur w' = cur w;
  he_next : w_next_pid w' = w_next_pid w;
  he_queue : forall b, b ∈ ps -> b ∈ ps';
  he_childless : forall b cb, tbl w' !! b = Some cb -> ppid cb <> pid c
}.

Lemma heirs_quiet_l c w l ps w1 ps1 w' l' ps' :
  quiet w ps w1 ps1 -> heirs c w1 l ps1 w' l' ps' -> heirs c w l ps w' l' ps'.
Proof.
  intros Hq []. pose proof Hq as [Et _ En []]. constructor; auto; try congruence.
  - intros b cb Hb. rewrite <- Et in Hb. by rewrite (he_in0 b cb Hb), (quiet_dead _ _ _ _ b Hq).
  - by rewrite Et in he_tbl0.
  - intros b Hb. apply he_state0 in Hb. unfold pst, kern_of in *. fold (ystate (w_sys w') b) (ystate (w_sys w1) b) (ystate (w_sys w) b) in *.
    destruct (wk_state b) as [E|(st & E & Hs & E')]; [by rewrite <- E|]. right. exists st. splits; auto.
    destruct Hb as [->|(st' & _ & _ & ->)]; done.
  - rewrite he_cur0. exact wk_cur.
Qed.

Lemma heirs_quiet_r c w l ps w1 l' ps1 w' ps' :
  heirs c w l ps w1 l' ps1 -> quiet w1 ps1 w' ps' -> heirs c w l ps w' l' ps'.
Proof.
  intros [] Hq. pose proof Hq as [Et _ En []]. constructor; auto; try congruence.
  - by rewrite Et.
  - intros b Hb. apply he_state0 in Hb. unfold pst, kern_of in *. fold (ystate (w_sys w') b) (ystate (w_sys w1) b) (ystate (w_sys w) b) in *.
    destruct (wk_state b) as [E|(st & E & Hs & E')]; [by rewrite E|]. right.
    destruct Hb as [Eb|(st' & ? & ? & _)]; [exists st; splits; auto; congruence|]. exists st'. auto.
  - rewrite <- he_cur0. exact wk_cur.
  - by rewrite Et.
Qed.

Lemma orphan_spec w l ps a c :
  winv 0 w l ps -> tbl w !! a = Some c -> cur_alive w ->
  yields (w ← process_reap_zombies w a; process_reparent_children w a) (fun w' => exists l' ps', winv 0 w' l' ps' /\ a ∈ l' /\
    heirs c w l ps w' l' ps' /\ exists c', tbl w' !! a = Some c' /\ unlinked c' = unlinked c).
Proof.
  intros Hw Hc Hca. destruct (winv_tbl _ _ _ _ Hw a c Hc) as [Ha _].
  assert (H0 : ~ dead w 0) by (eapply unknown_not_dead; [done|]; intros H0; by apply (winv_nonnull _ _ _ _ Hw) in H0).
  pose proof (proj1 (wi_tree _ _ _ _ Hw a c Hc)) as Hself.
  eapply yields_bind; [exact (reap_zombies_spec 0 w l ps a c Hw Hc H0 Hca)|]. intros w1 (l' & ps' & Hw1 & Hf & Hin).
  assert (Ha' : a ∈ l') by (apply (Hin a c Ha Hc); by intros [? _]).
  pose proof (fo_tbl _ _ _ _ _ _ Hf a Ha') as Ec. rewrite Hc in Ec. apply fmap_Some in Ec as (c1 & Hc1 & Ec). symmetry in Ec.
  pose proof (unlinked_eq _ _ Ec) as (Ep & Epp & _).
  apply (yields_weaken _ _ _ (reparent_spec 0 w1 l' ps' a c1 Hw1 Hc1)). intros w2 (Hw2 & [m Em] & (to & Hto01 & Hto) & Hkids). rewrite Ep in *.
  exists l', ps'. split; [done|]. split; [done|].
  assert (Hun : forall b, b ∈ l' -> unlinked <$> tbl w2 !! b = (fun cb => unlinked (adopted (pid c) to cb)) <$> tbl w !! b).
  { intros b Hb. pose proof (fo_tbl _ _ _ _ _ _ Hf b Hb) as E. rewrite Hto.
    destruct (tbl w1 !! b) as [c1b|], (tbl w !! b) as [cb|]; cbn [fmap option_fmap option_map] in E |- *; try done. apply (inj Some) in E. f_equal.
    pose proof (unlinked_eq _ _ E) as (_ & E1 & _). unfold adopted. rewrite E1. destruct (decide _); [|done].
    exact (f_equal (update ppid to) E). }
  split.
  - destruct Hf as [_ Hst Hcur Hnx Hsub Hqu]. constructor; auto.
    + intros b cb Hb. apply Hin; [|done]. by eapply winv_tbl.
    + by exists to.
    + by rewrite Em.
    + by rewrite Em.
    + by rewrite Em.
  - specialize (Hun a Ha'). rewrite Hc in Hun. apply fmap_Some in Hun as (c2 & Hc2 & E2). exists c2. split; [done|].
    rewrite <- E2. unfold adopted. by rewrite decide_False.
Qed.

(** What the others see of the death of [a], whose descriptor was [c]. *)
Record died (a : Z) (c : proc_t) w (l ps : list Z) w' (l' ps' : list Z) : Prop := {
  di_dead : dead w' a;
  di_kept : a ∈ l';
  di_in : forall b cb, b <> a -> tbl w !! b = Some cb -> b ∈ l' <-> ~ (ppid cb = pid c /\ dead w b);
  di_sub : forall b, b ∈ l' -> b ∈ l;
  di_tbl : exists to, (to = 0 \/ to = 1) /\ forall b cb, b ∈ l' -> b <> a -> tbl w !! b = Some cb ->
    exists cb', tbl w' !! b = Some cb' /\ unlinked cb' = unlinked (adopted (pid c) to cb);
  di_state : forall b, b ∈ l' -> b <> a -> pst w' b = pst w b \/
    exists st, pst w b = Some st /\ st <> PROCESS_ZOMBIE /\ pst w' b = Some PROCESS_READY;
  di_cur : cur w' = cur w;
  di_queue : forall b, b ∈ ps -> b ∈ ps';
  di_childless : forall b cb, tbl w' !! b = Some cb -> b <> a -> ppid cb <> pid c
}.

Lemma died_of_heirs a c c1 w w1 l ps w2 l' ps' w3 :
  tbl w1 = <[a := c1]> (tbl w) -> w_sys w1 = w_sys w -> pid c1 = pid c -> a ∈ l' -> heirs c1 w1 l ps w2 l' ps' ->
  (forall b, b <> a -> tbl w3 !! b = tbl w2 !! b) -> (forall b, b <> a -> pst w3 b = pst w2 b) -> dead w3 a -> cur w3 = cur w2 ->
  died a c w l ps w3 l' ps'.
Proof.
  intros Et Es Ep Ha [] Ht3 Hs3 Hd3 Hc3.
  assert (Hw1 : forall b, pst w1 b = pst w b) by (intros b; unfold pst, kern_of; by rewrite Es).
  assert (Ht1 : forall b, b <> a -> tbl w1 !! b = tbl w !! b) by (intros b Hb; by rewrite Et, lookup_insert_ne).
  rewrite Ep in *. constructor; auto.
  - intros b cb Hb Hcb. rewrite <- Ht1 in Hcb by done. by rewrite (he_in0 b cb Hcb), Hw1.
  - destruct he_tbl0 as (to & Hto01 & Hto). exists to. split; [done|]. intros b cb Hb Hba Hcb. specialize (Hto b Hb). rewrite Ht1, Hcb in Hto by done.
    apply fmap_Some in Hto as (cb' & Hcb' & E). exists cb'. rewrite Ht3 by done. auto.
  - intros b Hb Hba. rewrite Hs3, <- Hw1 by done. auto.
  - rewrite Hc3, he_cur0. unfold cur, kern_of. by rewrite Es.
  - intros b cb Hcb Hba. rewrite Ht3 in Hcb by done. eauto.
Qed.

Definition same_ids (c' c : proc_t) : Prop := pid c' = pid c /\ ppid c' = ppid c /\ pgid c' = pgid c.

Lemma exit_teardown_spec w l ps a c code :
  winv 0 w l ps -> tbl w !! a = Some c -> cur_alive w ->
  yields (exit_teardown w a code) (fun w' => exists l' ps' c', winv a w' l' ps' /\ died a c w l ps w' l' ps' /\
    tbl w' !! a = Some c' /\ same_ids c' c /\ exit_signal c' = exit_signal c /\
    exit_code c' = (if decide (exit_signal c = 0) then code else 0)).
Proof.
  intros Hw Hc Hca. destruct (winv_tbl _ _ _ _ Hw a c Hc) as [Ha _]. unfold exit_teardown.
  eapply yields_bind; [apply (modify_spec 0 w l ps a _ Hw Ha); intros p; splits; reflexivity|].
  intros w1 (p & Lp & Hw1 & Es1 & _ & _ & Et1). set (c1 := core _) in Et1.
  assert (Ec1 : pid c1 = pid c /\ ppid c1 = ppid c /\ pgid c1 = pgid c /\ exit_signal c1 = exit_signal c).
  { destruct (tbl_load _ _ _ Hc) as (q & Lq & ->). rewrite Lp in Lq. injection Lq as <-. subst c1. by destruct p. }
  clearbody c1. destruct Ec1 as (Ep & Epp & Epg & Esig).
  assert (Hca1 : cur_alive w1) by (unfold cur_alive, pst, cur, kern_of in *; by rewrite Es1).
  eapply yields_bind; [apply (use_res_quiet 0 w1 l ps _ Hw1), (law_exit_begin _ _ a ps); [apply Hw1|apply Hw1|by apply (wi_kdom _ _ _ _ Hw1)]|].
  intros w2 (ps2 & Hq2). pose proof (winv_quiet _ _ _ _ _ _ Hw1 Hq2) as Hw2.
  assert (Hc2 : tbl w2 !! a = Some c1) by (by rewrite (q_tbl _ _ _ _ Hq2), Et1, lookup_insert_eq).
  assert (Hca2 : cur_alive w2).
  { unfold cur_alive. rewrite (quiet_dead _ _ _ _ _ Hq2). unfold cur, kern_of. by rewrite (wk_cur _ _ _ _ (q_wakes _ _ _ _ Hq2)). }
  eapply yields_bind2; [exact (orphan_spec w2 l ps2 a c1 Hw2 Hc2 Hca2)|]. intros w4 (l' & ps4 & Hw4 & Ha4 & Hh4 & c4 & Hc4 & Ec4).
  pose proof (heirs_quiet_l _ _ _ _ _ _ _ _ _ Hq2 Hh4) as Hh.
  set (w5 := w4 <| w_res := _ |>). assert (Hq5 : quiet w4 ps4 w5 ps4) by (by eapply quiet_res).
  pose proof (winv_quiet _ _ _ _ _ _ Hw4 Hq5) as Hw5. clearbody w5.
  destruct (winv_load _ _ _ _ Hw5 a Ha4) as (p5 & L5 & _). rewrite (load_eq _ _ _ L5). cbn [mbind outcome_bind].
  set (w6 := if decide (pgid p5 > 1) then _ else w5).
  assert (Hq6 : quiet w5 ps4 w6 ps4) by (subst w6; destruct (decide _); [by eapply quiet_res|by eapply quiet_refl]).
  pose proof (winv_quiet _ _ _ _ _ _ Hw5 Hq6) as Hw6. clearbody w6.
  eapply yields_bind; [apply (use_res_quiet 0 w6 l' ps4 _ Hw6), (law_release_fds _ _ a ps4); [apply Hw6|apply Hw6|by apply (wi_kdom _ _ _ _ Hw6)]|].
  intros w7 (ps7 & Hq7). pose proof (winv_quiet _ _ _ _ _ _ Hw6 Hq7) as Hw7.
  pose proof (quiet_trans _ _ _ _ _ _ Hq5 (quiet_trans _ _ _ _ _ _ Hq6 Hq7)) as Hq.
  pose proof (heirs_quiet_r _ _ _ _ _ _ _ _ _ Hh Hq) as Hh7. rewrite <- (q_tbl _ _ _ _ Hq) in Hc4.
  pose proof (unlinked_eq _ _ Ec4) as (Ep4 & Epp4 & _ & Epg4). pose proof (f_equal exit_signal Ec4 : exit_signal c4 = exit_signal c1) as Esig4.
  eapply yields_bind; [apply (mark_zombie_spec w7 l' ps7 a c4 Hw7 Hc4); rewrite Ep4; exact (he_childless _ _ _ _ _ _ _ Hh7)|].
  intros w8 (Hw8 & Hd8 & Hs8 & Hcur8 & _ & Et8).
  eapply yields_weaken; [apply (modify_spec a w8 l' ps7 a _ Hw8 Ha4); intros q; splits; reflexivity|].
  intros w9 (p8 & L8 & Hw9 & Es9 & _ & _ & Et9). exists l', ps7. eexists. split; [done|].
  assert (E8 : core p8 = c4 <| lifecycle := PROCESS_LIFECYCLE_ZOMBIE |>).
  { assert (E : tbl w8 !! a = Some (core p8)) by (unfold tbl; by rewrite lookup_fmap, L8).
    rewrite Et8, lookup_insert_eq in E. by apply (inj Some) in E. }
  split; [|split; [by rewrite Et9, lookup_insert_eq|]].
  - eapply (died_of_heirs a c c1 w w1); eauto.
    + intros b Hb. rewrite Et9, lookup_insert_ne, Et8, lookup_insert_ne by done. done.
    + intros b Hb. unfold pst, kern_of. rewrite Es9. by apply Hs8.
    + unfold pst, kern_of. rewrite Es9. exact Hd8.
    + unfold cur, kern_of. rewrite Es9. exact Hcur8.
  - pose proof (f_equal pid E8) as F1. pose proof (f_equal ppid E8) as F2. pose proof (f_equal pgid E8) as F3.
    pose proof (f_equal exit_signal E8) as F4. cbn in F1, F2, F3, F4. cbn. unfold same_ids. cbn.
    rewrite F1, F2, F3, F4, Ep4, Epp4, Epg4, Esig4, Ep, Epp, Epg, Esig. done.
Qed.

(** ** Leaving the run queue *)

Lemma remove_process_spec a w l ps :
  winv a w l ps -> a ∈ l ->
  yields (remove_process w a) (fun w' => winv 0 w' l (without a ps) /\ w_procs w' = w_procs w /\ kern_of w' = kern_of w).
Proof.
  intros Hw Ha. pose proof (winv_nonnull _ _ _ _ Hw a Ha) as Ha0. pose proof Hw as []. pose proof wi_sched as [].
  unfold remove_process, sched_remove_process. destruct (law_remove _ _ a si_holds Ha0) as (s' & -> & Hh). cbn [mbind outcome_bind].
  apply yields_ret. split; [|done].
  assert (Hin : forall b, b ∈ without a ps -> b <> a /\ b ∈ ps) by (intros b Hb; by apply list_elem_of_filter in Hb).
  constructor; auto.
  - constructor; auto. intros b Hb. apply Hin in Hb as [_ Hb]. by apply si_live.
  - by apply NoDup_filter.
  - intros b Hb _. apply Hin in Hb as [Hb1 Hb2]. by apply wi_queued.
Qed.

(** The next process, or nobody when none can run. *)
Lemma schedule_next_spec w l ps :
  winv 0 w l ps -> (length l <= capacity)%nat ->
  yields (schedule_next w) (fun w' => winv 0 w' l ps /\ w_procs w' = w_procs w /\
    (forall b, runnable (kern_of w') b = runnable (kern_of w) b) /\ (forall b, dead w' b <-> dead w b)).
Proof.
  intros Hw Hcap. pose proof (winv_short _ _ _ _ Hw) as Hs. pose proof Hw as []. pose proof wi_sched as [].
  unfold schedule_next, sched_schedule_next.
  assert (Hgo : forall s' k', holds s' ps -> kern_ok k' -> mild (kern_of w) k' ->
    let w' := w <| w_sys := with_sched (s', k') (w_sys w) |> in winv 0 w' l ps /\ w_procs w' = w_procs w /\
    (forall b, runnable (kern_of w') b = runnable (kern_of w) b) /\ (forall b, dead w' b <-> dead w b)).
  { intros s' k' Hh Hk Hm w'.
    assert (Hd : forall b, dead w' b <-> dead w b).
    { intros b. unfold pst, kern_of, w'. cbn. destruct (runnable (kern_of w) b) eqn:Er.
      - pose proof (mi_runnable _ _ Hm b) as Er'. rewrite Er in Er'. unfold runnable in Er, Er'. unfold kern_of in Er.
        destruct (procs (machine (w_sys w)) !! b) as [d|], (procs k' !! b) as [d'|]; cbn; try done.
        apply andb_true_iff in Er as [Er _], Er' as [Er' _]. apply bool_decide_eq_true in Er, Er'. split; intros [= ?]; done.
      - by rewrite (mi_asleep _ _ Hm b Er). }
    assert (Hdom : forall b, is_Some (procs k' !! b) <-> is_Some (procs (kern_of w) !! b)).
    { intros b. rewrite <- !not_eq_None_Some. by rewrite (mi_dom _ _ Hm b). }
    split; [|split; [done|split; [apply Hm|done]]]. constructor; auto.
    - intros b. rewrite <- wi_kdom. apply Hdom.
    - constructor; auto. intros b Hb. apply Hdom. by apply si_live.
    - intros b Hb Hb0. rewrite Hd. auto.
    - intros b c Hc. rewrite Hd. auto.
    - intros b c Hc. destruct (wi_tree b c Hc) as [Hn Hr]. split; [done|].
      destruct Hr as [?|(q & cq & Hq & E & Hl)]; [by left|right]. exists q, cq. rewrite Hd. auto. }
  destruct (law_next _ _ _ si_holds si_kern si_live ltac:(lia)) as [(s' & k' & q & -> & Hh & Hk & Hm & _)|[_ (s' & -> & Hh)]];
    cbn [mbind outcome_bind]; apply yields_ret; apply Hgo; auto. reflexivity.
Qed.

(** The whole of a death: [a] is a zombie off the run queue, with the descriptor
    [c'] for its parent to read. *)
Record exited (a : Z) (c c' : proc_t) w (l : list Z) w' (l' ps' : list Z) : Prop := {
  ex_inv : winv 0 w' l' ps';
  ex_dead : dead w' a;
  ex_kept : a ∈ l';
  ex_queue : a ∉ ps';
  ex_self : tbl w' !! a = Some c' /\ same_ids c' c;
  ex_reaped : forall b cb, b <> a -> tbl w !! b = Some cb -> b ∈ l' <-> ~ (ppid cb = pid c /\ dead w b);
  ex_sub : forall b, b ∈ l' -> b ∈ l;
  ex_others : exists to, (to = 0 \/ to = 1) /\ forall b cb, b ∈ l' -> b <> a -> tbl w !! b = Some cb ->
    exists cb', tbl w' !! b = Some cb' /\ unlinked cb' = unlinked (adopted (pid c) to cb);
  ex_alive : forall b, b ∈ l' -> b <> a -> dead w' b <-> dead w b
}.

(** The parent that waits for [c], if it does, can run. *)
Definition parent_woken (c : proc_t) w w' (ps' : list Z) : Prop :=
  forall parent cp, tbl w !! parent = Some cp -> awaited cp c = true -> ~ dead w parent ->
    parent ∈ ps' /\ runnable (kern_of w') parent = true.

Lemma awaited_same cp cp' c c' : same_ids c' c -> pid cp' = pid cp -> pgid cp' = pgid cp -> wait cp' = wait cp -> awaited cp' c' = awaited cp c.
Proof. intros (E1 & E2 & E3) E4 E5 E6. unfold awaited, process_wait_pid_matches_child. by rewrite E1, E2, E3, E4, E5, E6. Qed.

(** A waiting parent is still there, and still waits, when the news reaches it. *)
Lemma parent_kept a c w l ps w' l' ps' c' parent cp :
  winv 0 w l ps -> died a c w l ps w' l' ps' -> same_ids c' c -> tbl w !! a = Some c ->
  tbl w !! parent = Some cp -> awaited cp c = true -> ~ dead w parent ->
  exists cp', tbl w' !! parent = Some cp' /\ awaited cp' c' = true /\ ~ dead w' parent /\ parent <> a.
Proof.
  intros Hw [] Hids Ha Hp Haw Hnd.
  assert (Hpa : parent <> a).
  { intros ->. rewrite Ha in Hp. injection Hp as <-. apply andb_true_iff in Haw as [Haw _]. apply andb_true_iff in Haw as [_ Haw].
    apply bool_decide_eq_true in Haw. by apply (wi_tree _ _ _ _ Hw a c Ha). }
  assert (Hin : parent ∈ l') by (apply (di_in0 parent cp Hpa Hp); by intros [_ ?]).
  destruct di_tbl0 as (to & _ & Ht). destruct (Ht parent cp Hin Hpa Hp) as (cp' & Hcp' & E). exists cp'. split; [done|].
  destruct (adopted_fields (pid c) to cp) as (A1 & _ & _ & A4).
  pose proof (unlinked_eq _ _ E) as (E1 & _ & _ & E4).
  pose proof (f_equal wait E) as E5. cbn in E5. assert (A5 : wait (adopted (pid c) to cp) = wait cp) by (unfold adopted; by destruct (decide _)).
  split; [|split; [|done]].
  - rewrite <- Haw. apply awaited_same; congruence.
  - destruct (di_state0 parent Hin Hpa) as [->|(st & _ & _ & ->)]; done.
Qed.

Lemma died_dead a c w l ps w' l' ps' b : died a c w l ps w' l' ps' -> b ∈ l' -> b <> a -> dead w' b <-> dead w b.
Proof. intros [] Hb Hba. destruct (di_state0 b Hb Hba) as [->|(st & E & Hs & ->)]; [done|]. rewrite E. split; congruence. Qed.

(** From the death to the end of the call: only wake-ups, and [a] off the queue. *)
Lemma exited_of_died a c c' w l ps w1 l' ps1 w' ps' :
  died a c w l ps w1 l' ps1 -> tbl w1 !! a = Some c' -> same_ids c' c ->
  winv 0 w' l' ps' -> a ∉ ps' -> tbl w' = tbl w1 -> (forall b, dead w' b <-> dead w1 b) ->
  exited a c c' w l w' l' ps'.
Proof.
  intros Hdi Hc' Hids Hw' Hq Et Hd. pose proof Hdi as []. constructor; auto; rewrite ?Et; auto.
  - by apply Hd.
  - intros b Hb Hba. rewrite Hd. by eapply died_dead.
Qed.

Lemma ready_runnable w a : pst w a = Some PROCESS_READY -> runnable (kern_of w) a = true.
Proof.
  unfold pst, runnable. destruct (procs (kern_of w) !! a) as [d|]; [|done]. cbn. intros [= ->]. done.
Qed.

Lemma quiet_ready w ps w' ps' a : quiet w ps w' ps' -> pst w a = Some PROCESS_READY -> pst w' a = Some PROCESS_READY.
Proof. intros [_ _ _ []] E. destruct (wk_state a) as [E'|(st & _ & _ & E')]; [unfold pst, ystate, kern_of in *; congruence|exact E']. Qed.

Lemma tbl_same w w' : w_procs w' = w_procs w -> tbl w' = tbl w.
Proof. intros E. unfold tbl. by rewrite E. Qed.

Lemma process_exit_spec w l ps n c code :
  winv 0 w l ps -> tbl w !! cur w = Some c -> cur_alive w -> (length l <= capacity)%nat ->
  yields (process_exit_with knode status_ok (send n) w code) (fun r => exists w' l' ps' c', r = Away w' /\
    exited (cur w) c c' w l w' l' ps' /\ parent_woken c w w' ps' /\ exit_signal c' = exit_signal c /\
    exit_code c' = (if decide (exit_signal c = 0) then code else 0)).
Proof.
  intros Hw Hc Hca Hcap. set (a := cur w) in *. destruct (winv_tbl _ _ _ _ Hw a c Hc) as [Ha Ha0].
  unfold process_exit_with. fold a. rewrite decide_False by done.
  eapply yields_bind; [exact (exit_teardown_spec w l ps a c code Hw Hc Hca)|].
  intros w1 (l' & ps1 & c' & Hw1 & Hdi & Hc' & Hids & Esig & Ecode). pose proof (di_kept _ _ _ _ _ _ _ _ Hdi) as Ha1.
  destruct (exit_notify_spec a w1 l' ps1 n a c' Hw1 Hc') as (r & -> & w2 & ps2 & -> & Hq2 & Hwake). unfold andthen. cbn [mbind outcome_bind].
  pose proof (winv_quiet _ _ _ _ _ _ Hw1 Hq2) as Hw2.
  eapply yields_bind; [exact (remove_process_spec a w2 l' ps2 Hw2 Ha1)|]. intros w3 (Hw3 & Ep3 & Ek3).
  assert (Hpst3 : forall b, pst w3 b = pst w2 b) by (intros b; unfold pst; by rewrite Ek3).
  eapply yields_bind; [exact (find_idle_spec 0 w3 l' _ l' _ _ Hw3 (fun b Hb => Hb) (wi_links _ _ _ _ Hw3) (winv_fuel _ _ _ _ Hw3))|].
  intros idle Hidle.
  assert (Hadd : yields (if decide (idle = 0) then Ok w3 else add_process knode w3 idle) (fun w4 => exists ps4, quiet w3 (without a ps2) w4 ps4)).
  { destruct (decide (idle = 0)) as [|H0]; [apply yields_ret; eexists; by eapply quiet_refl|]. destruct Hidle as [?|[Hi Hnd]]; [done|].
    apply (yields_weaken _ _ _ (add_process_quiet 0 w3 l' _ idle Hw3 Hi Hnd)). intros w4 (ps4 & ? & _). eauto. }
  eapply yields_bind; [exact Hadd|]. intros w4 (ps4 & Hq4). pose proof (winv_quiet _ _ _ _ _ _ Hw3 Hq4) as Hw4.
  assert (Hlen : (length l' <= capacity)%nat).
  { etrans; [|exact Hcap]. apply submseteq_length, NoDup_submseteq; [apply Hw1|]. by apply (di_sub _ _ _ _ _ _ _ _ Hdi). }
  eapply yields_bind; [exact (schedule_next_spec w4 l' ps4 Hw4 Hlen)|]. intros w5 (Hw5 & Ep5 & Hrun5 & Hd5). apply yields_ret.
  assert (Hd2 : forall b, dead w3 b <-> dead w1 b) by (intros b; rewrite Hpst3; by eapply quiet_dead).
  exists w5, l', ps4, c'. split; [done|]. split; [|split; [|done]].
  - eapply (exited_of_died a c c' w l ps w1 l' ps1); eauto.
    + intros Hin. destruct (wk_new _ _ _ _ (q_wakes _ _ _ _ Hq4) a Hin) as [Hf|(st & E & Hs)]; [by apply list_elem_of_filter in Hf as [? _]|].
      assert (Hda : dead w3 a) by (apply Hd2, Hdi). unfold pst, kern_of in Hda. unfold ystate in E. congruence.
    + by rewrite (tbl_same _ _ Ep5), (q_tbl _ _ _ _ Hq4), (tbl_same _ _ Ep3), (q_tbl _ _ _ _ Hq2).
    + intros b. rewrite Hd5, (quiet_dead _ _ _ _ b Hq4). apply Hd2.
  - intros parent cp Hp Haw Hnd.
    destruct (parent_kept _ _ _ _ _ _ _ _ _ _ _ Hw Hdi Hids Hc Hp Haw Hnd) as (cp' & Hcp' & Haw' & Hnd' & Hpa).
    destruct (Hwake parent cp' Hcp' Haw' Hnd') as [Hin Hr]. split.
    + apply (wk_queue _ _ _ _ (q_wakes _ _ _ _ Hq4)). by apply list_elem_of_filter.
    + rewrite Hrun5. apply ready_runnable, (quiet_ready _ _ _ _ _ Hq4). by rewrite Hpst3.
Qed.

Lemma killed_core p sig c' : c' = core (exit_with p sig <| exit_code := 0 |>) ->
  same_ids c' (core p) /\ exit_signal c' = sig /\ exit_code c' = 0.
Proof. intros ->. destruct p. by splits. Qed.

Lemma irq_cleared_ids p : let p' := on_resume (update irq_frame_saved false) p in
  pid p' = pid p /\ p_next p' = p_next p /\ lifecycle p' = lifecycle p /\ ppid p' = ppid p.
Proof. destruct p. by splits. Qed.

Lemma killed_ids p sig : let p' := exit_with p sig <| exit_code := 0 |> in
  pid p' = pid p /\ p_next p' = p_next p /\ lifecycle p' = lifecycle p /\ ppid p' = ppid p.
Proof. destruct p. by splits. Qed.

Lemma marked_same c' c sig code :
  same_ids c' c -> exit_signal c' = sig -> exit_code c' = code ->
  let z := c' <| lifecycle := PROCESS_LIFECYCLE_ZOMBIE |> in same_ids z c /\ exit_signal z = sig /\ exit_code z = code.
Proof. destruct c'. by splits. Qed.

(** Killing another process. *)
Lemma kill_teardown_spec w l ps a c sig :
  winv 0 w l ps -> tbl w !! a = Some c -> cur_alive w ->
  yields (kill_teardown w a sig) (fun w' => exists l' ps' c', winv a w' l' ps' /\ died a c w l ps w' l' ps' /\
    tbl w' !! a = Some c' /\ same_ids c' c /\ exit_signal c' = sig /\ exit_code c' = 0).
Proof.
  intros Hw Hc Hca. destruct (winv_tbl _ _ _ _ Hw a c Hc) as [Ha Ha0]. unfold kill_teardown.
  eapply yields_bind; [exact (modify_spec 0 w l ps a _ Hw Ha irq_cleared_ids)|].
  intros w1 (p & Lp & Hw1 & Es1 & _ & _ & Et1). set (c1 := core _) in Et1.
  assert (Ec1 : same_ids c1 c).
  { destruct (tbl_load _ _ _ Hc) as (q & Lq & ->). rewrite Lp in Lq. injection Lq as <-. subst c1. destruct p. by splits. }
  clearbody c1. assert (Hca1 : cur_alive w1) by (unfold cur_alive, pst, cur, kern_of in *; by rewrite Es1).
  assert (Hc1 : tbl w1 !! a = Some c1) by (by rewrite Et1, lookup_insert_eq).
  eapply yields_bind2; [exact (orphan_spec w1 l ps a c1 Hw1 Hc1 Hca1)|]. intros w2 (l' & ps2 & Hw2 & Ha2 & Hh2 & c2 & Hc2 & Ec2).
  eapply yields_bind; [apply (use_res_quiet 0 w2 l' ps2 _ Hw2), (law_release_fds _ _ a ps2); [apply Hw2|apply Hw2|by apply (wi_kdom _ _ _ _ Hw2)]|].
  intros w3 (ps3 & Hq3). pose proof (winv_quiet _ _ _ _ _ _ Hw2 Hq3) as Hw3. pose proof (heirs_quiet_r _ _ _ _ _ _ _ _ _ Hh2 Hq3) as Hh3.
  rewrite <- (q_tbl _ _ _ _ Hq3) in Hc2.
  eapply yields_bind; [exact (modify_spec 0 w3 l' ps3 a _ Hw3 Ha2 (fun p => killed_ids p sig))|].
  intros w4 (p3 & L3 & Hw4 & Es4 & _ & _ & Et4). set (c4 := core _) in Et4.
  assert (Ec4 : same_ids c4 c /\ exit_signal c4 = sig /\ exit_code c4 = 0).
  { pose proof (killed_core p3 sig c4 eq_refl) as (Hi & Hx). clearbody c4.
    assert (Ecore : core p3 = c2) by (destruct (tbl_load _ _ _ Hc2) as (q & Lq & ->); rewrite L3 in Lq; by injection Lq as <-).
    rewrite Ecore in Hi. pose proof (unlinked_eq _ _ Ec2) as (F1 & F2 & _ & F3). split; [|done].
    destruct Ec1 as (G1 & G2 & G3), Hi as (H1 & H2 & H3). unfold same_ids. splits; congruence. }
  clearbody c4. destruct Ec4 as (Hids & Esig & Ecode).
  assert (Hc4 : tbl w4 !! a = Some c4) by (by rewrite Et4, lookup_insert_eq).
  assert (Hkids : forall b cb, tbl w4 !! b = Some cb -> ppid cb <> pid c4).
  { intros b cb Hb. destruct (decide (b = a)) as [->|Hba].
    - rewrite Hc4 in Hb. injection Hb as <-. apply (wi_tree _ _ _ _ Hw4 a c4 Hc4).
    - rewrite Et4, lookup_insert_ne in Hb by done. pose proof (he_childless _ _ _ _ _ _ _ Hh3 b cb Hb) as E.
      destruct Hids as (-> & _), Ec1 as (<- & _). exact E. }
  apply (yields_weaken _ _ _ (mark_zombie_spec w4 l' ps3 a c4 Hw4 Hc4 Hkids)). intros w5 (Hw5 & Hd5 & Hs5 & Hcur5 & _ & Et5).
  exists l', ps3, (c4 <| lifecycle := PROCESS_LIFECYCLE_ZOMBIE |>). split; [done|]. split; [|split; [by rewrite Et5, lookup_insert_eq|by apply marked_same]].
  eapply (died_of_heirs a c c1 w w1 l ps w3); eauto; [apply Ec1|..].
  - intros b Hb. by rewrite Et5, lookup_insert_ne, Et4, lookup_insert_ne.
  - intros b Hb. rewrite Hs5 by done. unfold pst, kern_of. by rewrite Es4.
  - rewrite Hcur5. unfold cur, kern_of. by rewrite Es4.
Qed.

Lemma kill_notify_spec x w l ps n dying cd :
  winv x w l ps -> tbl w !! dying = Some cd ->
  yields (kill_notify knode status_ok (send n) w dying) (fun r => exists w' ps', r = Back w' tt /\ quiet w ps w' ps' /\
    forall parent cp, tbl w !! parent = Some cp -> awaited cp cd = true -> ~ dead w parent ->
      parent ∈ ps' /\ pst w' parent = Some PROCESS_READY).
Proof.
  intros Hw Hc. destruct (wi_tree _ _ _ _ Hw _ _ Hc) as [_ Hr].
  unfold kill_notify. destruct (tbl_load _ _ _ Hc) as (p & Lp & E). rewrite (load_eq _ _ _ Lp). cbn [mbind outcome_bind].
  change (ppid p) with (ppid (core p)). rewrite <- E. destruct (decide (ppid cd > 0)) as [Hpos|Hpos].
  2: { apply yields_ret. exists w, ps. split; [done|]. split; [by eapply quiet_refl|]. intros parent cp Hp Ha _.
       pose proof (awaited_ppid _ _ Ha). pose proof (wi_pid _ _ _ _ Hw _ _ Hp). lia. }
  destruct Hr as [?|(b & cb & Hb & Ep & _)]; [lia|]. rewrite <- Ep. rewrite (find_by_pid_of _ _ _ _ _ _ Hw Hb). cbn [mbind outcome_bind].
  destruct (winv_tbl _ _ _ _ Hw _ _ Hb) as [Hbl Hb0]. rewrite (decide_False (P := b = 0)) by done.
  destruct (winv_state _ _ _ _ Hw b Hbl) as (d & _ & Ed & ->). cbn [mbind outcome_bind].
  assert (Huniq : forall parent cp, tbl w !! parent = Some cp -> awaited cp cd = true -> parent = b).
  { intros parent cp Hp Ha. eapply (wi_pids _ _ _ _ Hw); eauto. rewrite Ep. symmetry. by apply awaited_ppid. }
  destruct (decide (b <> 0 /\ state d <> PROCESS_ZOMBIE)) as [[_ Hnz]|Hz].
  - assert (Hnd : ~ dead w b) by congruence.
    apply (yields_weaken _ _ _ (notify_parent_spec x w l ps n b dying cb cd Hw Hb Hc Hnd)). intros r (w' & ps' & -> & Hq & Ha).
    exists w', ps'. split; [done|]. split; [done|]. intros parent cp Hp Hap _. assert (parent = b) as -> by (by eapply Huniq).
    rewrite Hb in Hp. injection Hp as <-. auto.
  - apply yields_ret. exists w, ps. split; [done|]. split; [by eapply quiet_refl|]. intros parent cp Hp Hap Hnd. exfalso. apply Hnd.
    rewrite (Huniq parent cp Hp Hap), Ed. f_equal. apply dec_stable. intros ?. by apply Hz.
Qed.

Lemma kill_spec w l ps n a c sig :
  winv 0 w l ps -> tbl w !! a = Some c -> ~ dead w a -> a <> cur w -> cur_alive w ->
  (forall p, w_procs w !! a = Some p -> process_signal_is_default_fatal p sig = true) ->
  yields (default_kill_with knode status_ok (send n) w a sig) (fun r => exists w' l' ps' c', r = Back w' true /\
    exited a c c' w l w' l' ps' /\ parent_woken c w w' ps' /\ exit_signal c' = sig /\ exit_code c' = 0).
Proof.
  intros Hw Hc Hnd Hac Hca Hfatal. destruct (winv_tbl _ _ _ _ Hw a c Hc) as [Ha Ha0].
  unfold default_kill_with. rewrite decide_False by done.
  destruct (winv_state _ _ _ _ Hw a Ha) as (d & _ & Ed & ->). cbn [mbind outcome_bind]. rewrite decide_False by congruence.
  destruct (winv_load _ _ _ _ Hw a Ha) as (p0 & L0 & _). rewrite (load_eq _ _ _ L0). cbn [mbind outcome_bind].
  rewrite (Hfatal _ L0). cbn [negb]. rewrite decide_False by done.
  eapply yields_bind; [exact (kill_teardown_spec w l ps a c sig Hw Hc Hca)|]. intros w5 (l' & ps3 & c5 & Hw5 & Hdi & Hc5 & Hids & Esig & Ecode).
  pose proof (di_kept _ _ _ _ _ _ _ _ Hdi) as Ha2. pose proof (di_dead _ _ _ _ _ _ _ _ Hdi) as Hd5.
  eapply yields_bind; [exact (remove_process_spec a w5 l' ps3 Hw5 Ha2)|]. intros w6 (Hw6 & Ep6 & Ek6).
  assert (Hc6 : tbl w6 !! a = Some c5) by (by rewrite (tbl_same _ _ Ep6)).
  assert (Hpst6 : forall b, pst w6 b = pst w5 b) by (intros b; unfold pst; by rewrite Ek6).
  destruct (kill_notify_spec 0 w6 l' _ n a c5 Hw6 Hc6) as (r & -> & w7 & ps7 & -> & Hq7 & Hwake). unfold andthen. cbn [mbind outcome_bind].
  apply yields_ret. pose proof (winv_quiet _ _ _ _ _ _ Hw6 Hq7) as Hw7.
  exists w7, l', ps7, c5. split; [done|]. split; [|split; [|done]].
  - eapply (exited_of_died a c c5 w l ps w5 l' ps3); eauto.
    + intros Hin. destruct (wk_new _ _ _ _ (q_wakes _ _ _ _ Hq7) a Hin) as [Hf|(st & E & Hs)]; [by apply list_elem_of_filter in Hf as [? _]|].
      rewrite <- Hpst6 in Hd5. unfold pst, kern_of in Hd5. unfold ystate in E. congruence.
    + by rewrite (q_tbl _ _ _ _ Hq7), (tbl_same _ _ Ep6).
    + intros b. by rewrite (quiet_dead _ _ _ _ b Hq7), Hpst6.
  - intros parent cp Hp Haw Hnp.
    destruct (parent_kept _ _ _ _ _ _ _ _ c5 _ _ Hw Hdi Hids Hc Hp Haw Hnp) as (cp' & Hcp' & Haw' & Hnd' & Hpa).
    rewrite <- (tbl_same _ _ Ep6) in Hcp'. rewrite <- Hpst6 in Hnd'. destruct (Hwake parent cp' Hcp' Haw' Hnd') as [Hin Hr].
    split; [done|]. by apply ready_runnable.
Qed.

(** ** Sending a signal *)

Lemma exited_resched a c c' w l w' l' ps' :
  exited a c c' w l w' l' ps' -> exited a c c' w l (clock_request_sched_resched w') l' ps'.
Proof.
  intros []. assert (Hi : winv 0 (clock_request_sched_resched w') l' ps') by (eapply winv_quiet; [done|by eapply resched_quiet]).
  by constructor.
Qed.

(** The descriptor of [a] itself may change before. *)
Lemma exited_before a c c1 c' w w1 l w' l' ps' :
  tbl w1 = <[a := c1]> (tbl w) -> (forall b, pst w1 b = pst w b) -> same_ids c1 c ->
  exited a c1 c' w1 l w' l' ps' -> exited a c c' w l w' l' ps'.
Proof.
  intros Et Hs (E1 & E2 & E3) [].
  assert (Ht : forall b, b <> a -> tbl w1 !! b = tbl w !! b) by (intros b Hb; by rewrite Et, lookup_insert_ne).
  rewrite E1 in *. constructor; auto.
  - destruct ex_self0 as (Hc & F1 & F2 & F3). split; [done|]. unfold same_ids. splits; congruence.
  - intros b cb Hb Hcb. rewrite <- Ht in Hcb by done. by rewrite (ex_reaped0 b cb Hb Hcb), Hs.
  - destruct ex_others0 as (to & Hto & Ho). exists to. split; [done|]. intros b cb Hb Hba Hcb. rewrite <- Ht in Hcb by done. eauto.
  - intros b Hb Hba. by rewrite (ex_alive0 b Hb Hba), Hs.
Qed.

Lemma exit_with_ids p sig : let p' := exit_with p sig in
  pid p' = pid p /\ p_next p' = p_next p /\ lifecycle p' = lifecycle p /\ ppid p' = ppid p.
Proof. destruct p. by splits. Qed.

Lemma exit_with_core p sig c1 : c1 = core (exit_with p sig) -> same_ids c1 (core p) /\ exit_signal c1 = sig.
Proof. intros ->. destruct p. by splits. Qed.

(** A fatal signal the running process sends itself. *)
Lemma self_kill_spec w l ps n p sig :
  winv 0 w l ps -> w_procs w !! cur w = Some p -> cur_alive w -> (length l <= capacity)%nat -> sig <> 0 ->
  process_signal_is_default_fatal p sig = true ->
  yields (default_kill_with knode status_ok (send n) w (cur w) sig) (fun r => exists w' l' ps' c', r = Away w' /\
    exited (cur w) (core p) c' w l w' l' ps' /\ parent_woken (core p) w w' ps' /\ exit_signal c' = sig /\ exit_code c' = 0).
Proof.
  intros Hw Hp Hca Hcap Hsig Hfatal. set (a := cur w) in *.
  assert (Hc : tbl w !! a = Some (core p)) by (unfold tbl; by rewrite lookup_fmap, Hp).
  destruct (winv_tbl _ _ _ _ Hw a _ Hc) as [Ha Ha0]. unfold default_kill_with. rewrite decide_False by done.
  destruct (winv_state _ _ _ _ Hw a Ha) as (d & _ & Ed & ->). cbn [mbind outcome_bind]. rewrite decide_False by (intros E; apply Hca; by rewrite <- E).
  rewrite (load_eq _ _ _ Hp). cbn [mbind outcome_bind]. rewrite Hfatal. cbn [negb]. fold a. rewrite decide_True by done.
  eapply yields_bind; [exact (modify_spec 0 w l ps a _ Hw Ha (fun p => exit_with_ids p sig))|].
  intros w1 (p1 & L1 & Hw1 & Es1 & _ & _ & Et1). rewrite Hp in L1. injection L1 as <-.
  pose proof (exit_with_core p sig _ eq_refl) as (Hids & Esig). set (c1 := core (exit_with p sig)) in *. clearbody c1.
  assert (Ecur : cur w1 = a) by (unfold cur, kern_of; by rewrite Es1).
  assert (Hs1 : forall b, pst w1 b = pst w b) by (intros b; unfold pst, kern_of; by rewrite Es1).
  assert (Hca1 : cur_alive w1) by (unfold cur_alive; by rewrite Ecur, Hs1).
  assert (Hc1 : tbl w1 !! cur w1 = Some c1) by (by rewrite Ecur, Et1, lookup_insert_eq).
  destruct (process_exit_spec w1 l ps n c1 0 Hw1 Hc1 Hca1 Hcap) as (r & -> & w' & l' & ps' & c' & -> & Hex & Hwake & Esig' & Ecode).
  unfold andthen. cbn [mbind outcome_bind]. apply yields_ret. exists w', l', ps', c'. split; [done|]. rewrite Ecur in Hex.
  split; [by eapply exited_before|]. split; [|split; [congruence|]].
  - intros parent cp Hpar Haw Hnd. apply Hwake with cp; [|by rewrite <- Haw; apply awaited_same|by rewrite Hs1].
    rewrite Et1, lookup_insert_ne; [done|]. intros ->. rewrite Hc in Hpar. injection Hpar as <-.
    apply awaited_ppid in Haw. by apply (wi_tree _ _ _ _ Hw _ _ Hc).
  - by rewrite Ecode, decide_False by congruence.
Qed.

(** No fatal signal: no death. *)
Lemma not_killed w n a sig p :
  w_procs w !! a = Some p -> process_signal_is_default_fatal p sig = false \/ dead w a ->
  (if process_signal_is_default_fatal p sig then default_kill_with knode status_ok (send n) w a sig else Ok (Back w false)) = Ok (Back w false).
Proof.
  intros Hp Hk. destruct (process_signal_is_default_fatal p sig) eqn:E; [|done]. destruct Hk as [?|Hd]; [done|].
  unfold default_kill_with. destruct (decide (a = 0)); [done|]. unfold pst in Hd. apply fmap_Some in Hd as (d & Hd & Ed).
  unfold pstate, load_proc. rewrite Hd. cbn [mbind outcome_bind or_ub]. by rewrite decide_True.
Qed.
End ending.
