(* ===== verification/ProcCalls.v ===== *)
(** * The calls: signals, wait4, fork

    How [send_signal], a pass of [process_wait] and [fork] end, as inductive
    predicates with a case per outcome, proved over the invariant of [ProcInv]
    for any scheduler that keeps [SchedLaws]. *)

From S2P Require Import Prelude RecordUpdate Runq RrSched PrioSched Sched ProcState Signal ProcTable ProcInv ProcExit.

Section signals.
Context {B R : Type} `{!SchedOps B, !SchedLaws B, !ProcRes B R, Hlaws : !ProcResLaws}.
#[local] Abbreviation world := (world (S := B) (R := R)).
Implicit Types w : world.
Context (knode : B -> Z) (Hknode : forall s, knode s <> 0 /\ fresh_node_for s (knode s)) (status_ok : Z -> bool).

(** ** send_signal *)

(** How [send_signal w pid sig] ends. *)
Inductive sent w (l ps : list Z) (pid_ sig : Z) : ctl Z -> Prop :=
| SentNobody :
    sig < 0 \/ sig >= _NSIG \/ (forall a p, w_procs w !! a = Some p -> pid p <> pid_) ->
    sent w l ps pid_ sig (Back w (-1))
| SentNothing a p :
    w_procs w !! a = Some p -> pid p = pid_ -> sig = 0 \/ (pid_ = 1 /\ is_caught (handler_of p sig) = false) ->
    sent w l ps pid_ sig (Back w 0)
| SentRecorded a p w' :
    w_procs w !! a = Some p -> pid p = pid_ -> process_signal_is_default_fatal p sig = false \/ dead w a ->
    winv 0 w' l ps -> w_procs w' !! a = Some (pending_raise sig p) ->
    (pst w a = Some PROCESS_BLOCKED -> pst w' a = Some PROCESS_READY) ->
    (forall b, b <> a -> core <$> w_procs w' !! b = core <$> w_procs w !! b /\ (dead w' b <-> dead w b)) ->
    sent w l ps pid_ sig (Back w' 0)
| SentKilled a p w' l' ps' c' :
    w_procs w !! a = Some p -> pid p = pid_ -> process_signal_is_default_fatal p sig = true -> ~ dead w a -> a <> cur w ->
    exited a (core p) c' w l w' l' ps' -> parent_woken (core p) w w' ps' -> exit_signal c' = sig -> exit_code c' = 0 ->
    sent w l ps pid_ sig (Back w' 0)
| SentSuicide p w' l' ps' c' :
    w_procs w !! cur w = Some p -> pid p = pid_ -> process_signal_is_default_fatal p sig = true ->
    exited (cur w) (core p) c' w l w' l' ps' -> parent_woken (core p) w w' ps' -> exit_signal c' = sig -> exit_code c' = 0 ->
    sent w l ps pid_ sig (Away w').

Lemma sent_inv w l ps pid_ sig r : winv 0 w l ps -> sent w l ps pid_ sig r ->
  exists l' ps', winv 0 (match r with Back w' _ | Away w' => w' end) l' ps'.
Proof. intros Hw []; eauto using ex_inv. Qed.

Lemma send_signal_sent w l ps pid_ sig :
  winv 0 w l ps -> cur_alive w -> (length l <= capacity)%nat ->
  yields (send_signal knode status_ok w pid_ sig) (sent w l ps pid_ sig).
Proof.
  intros Hw Hca Hcap. unfold send_signal. remember 1%nat as n eqn:En. cbn [send_signal_fuel].
  destruct (decide (sig < 0 \/ sig >= _NSIG)) as [Hr|Hr]; [apply yields_ret, SentNobody; tauto|].
  eapply yields_bind; [exact (find_by_pid_spec 0 w l ps pid_ Hw)|]. intros a [[-> Hno]|(Ha & c & Hc & Epid)].
  { rewrite decide_True by done. apply yields_ret, SentNobody. right. right. intros b p Hp.
    apply (Hno b (core p)). unfold tbl. by rewrite lookup_fmap, Hp. }
  rewrite decide_False by (by eapply winv_nonnull). destruct (tbl_load _ _ _ Hc) as (p & Lp & ->). change (pid p = pid_) in Epid.
  destruct (decide (sig = 0)) as [E0|E0]; [apply yields_ret; apply (SentNothing w l ps pid_ sig a p); auto|].
  rewrite (load_eq _ _ _ Lp). cbn [mbind outcome_bind].
  destruct (bool_decide (pid p = 1) && negb (is_caught (handler_of p sig))) eqn:Ei.
  { apply andb_true_iff in Ei as [Ei1 Ei2]. apply bool_decide_eq_true in Ei1. apply negb_true_iff in Ei2.
    apply yields_ret. apply (SentNothing w l ps pid_ sig a p); auto. right. split; [congruence|done]. }
  destruct (decide (process_signal_is_default_fatal p sig = false \/ dead w a)) as [Hk|Hk].
  - subst n. rewrite (not_killed knode status_ok w 0 a sig p Lp Hk). unfold andthen. cbn [mbind outcome_bind].
    apply (yields_weaken _ _ _ (raise_spec 0 w l ps a sig Hw Ha)). intros r (w' & -> & Hq & Hb & _ & p' & Lp' & L').
    rewrite Lp in Lp'. injection Lp' as <-. apply (SentRecorded w l ps pid_ sig a p); auto; [by eapply winv_quiet|].
    intros b _. split; [|by eapply quiet_dead]. pose proof (q_tbl _ _ _ _ Hq) as Et. unfold tbl in Et.
    pose proof (f_equal (.!! b) Et) as Eb. cbn in Eb. by rewrite !lookup_fmap in Eb.
  - assert (Hf : process_signal_is_default_fatal p sig = true) by (destruct (process_signal_is_default_fatal p sig); tauto).
    assert (Hnd : ~ dead w a) by tauto. rewrite Hf. subst n. destruct (decide (a = cur w)) as [->|Hac].
    + destruct (self_kill_spec knode Hknode status_ok w l ps 0 p sig Hw Lp Hca Hcap E0 Hf) as (r & -> & w' & l' & ps' & c' & -> & Hex & Hwk & E1 & E2).
      unfold andthen. cbn [mbind outcome_bind]. apply yields_ret. by apply (SentSuicide w l ps pid_ sig p w' l' ps' c').
    + destruct (kill_spec knode Hknode status_ok w l ps 0 a (core p) sig Hw Hc Hnd Hac Hca) as (r & -> & w' & l' & ps' & c' & -> & Hex & Hwk & E1 & E2).
      { intros q Lq. rewrite Lp in Lq. by injection Lq as <-. }
      unfold andthen. cbn [mbind outcome_bind]. apply yields_ret.
      apply (SentKilled w l ps pid_ sig a p _ l' ps' c'); auto. by apply exited_resched.
Qed.
End signals.

(** ** wait4 *)

Section waits.
Context {B R : Type} `{!SchedOps B, !SchedLaws B, !ProcRes B R, Hlaws : !ProcResLaws}.
#[local] Abbreviation world := (world (S := B) (R := R)).
Implicit Types w : world.


(** [c] is a child of [me] that [target] selects. *)
Definition selected (me : proc_t) (target : Z) (c : proc_t) : Prop :=
  ppid c = pid me /\ process_wait_pid_matches_child target me c = true.

#[local] Instance selected_dec me target c : Decision (selected me target c).
Proof. unfold selected. apply _. Defined.

Lemma selected_core me target c : selected (core me) target (core c) <-> selected me target c.
Proof. by destruct me, c. Qed.

Lemma scan_children_spec x w l0 ps l n a me target found :
  winv x w l0 ps -> (forall b, b ∈ l -> b ∈ l0) -> pseg (tbl w) a l 0 -> (length l < n)%nat ->
  yields (scan_children n w a me target found) (fun fz =>
    (fz.2 = 0 /\ (forall b c, b ∈ l -> tbl w !! b = Some c -> selected me target c -> ~ dead w b) /\
       (fz.1 = true <-> found = true \/ exists b c, b ∈ l /\ tbl w !! b = Some c /\ selected me target c)) \/
    (fz.2 ∈ l /\ exists c, tbl w !! fz.2 = Some c /\ selected me target c /\ dead w fz.2)).
Proof.
  intros Hw. revert a n found. induction l as [|y l IH]; intros a [|n] found Hsub Hl Hn; simpl in Hn; try lia; cbn [scan_children].
  - cbn in Hl. subst. apply yields_ret. left. cbn. split; [done|]. split; [by intros b c ?%not_elem_of_nil|].
    split; [by left|]. intros [?|(b & c & Hb & _)]; [done|]. by apply not_elem_of_nil in Hb.
  - destruct Hl as (-> & Hy & c & Hc & Hl). rewrite decide_False by done. load_core Hc p Hp.
    assert (Hsub' : forall b, b ∈ l -> b ∈ l0) by (intros b Hb; apply Hsub; by right).
    assert (Hskip : forall found', ~ selected me target (core p) \/ (found' = true /\ ~ dead w y) -> (~ selected me target (core p) -> found' = found) ->
      yields (scan_children n w (p_next p) me target found') (fun fz =>
        (fz.2 = 0 /\ (forall b c, b ∈ y :: l -> tbl w !! b = Some c -> selected me target c -> ~ dead w b) /\
           (fz.1 = true <-> found = true \/ exists b c, b ∈ y :: l /\ tbl w !! b = Some c /\ selected me target c)) \/
        (fz.2 ∈ y :: l /\ exists c, tbl w !! fz.2 = Some c /\ selected me target c /\ dead w fz.2))).
    { intros found' Hns Hf. apply (yields_weaken _ _ _ (IH (p_next p) n found' Hsub' Hl ltac:(lia))).
      intros fz [(E & Hnd & Hfz)|(Hin & c & Hcz)]; [left|right; split; [by right|by exists c]]. split; [done|]. split.
      - intros b cb Hb Hcb Hs. apply elem_of_cons in Hb as [->|Hb]; [|eauto]. rewrite Hc in Hcb. injection Hcb as <-.
        destruct Hns as [?|[_ ?]]; done.
      - rewrite Hfz. destruct (decide (selected me target (core p))) as [Hs|Hs].
        + destruct Hns as [?|[-> _]]; [done|]. split; [|by left]. intros _. right. exists y, (core p). split; [by left|done].
        + rewrite (Hf Hs). split; (intros [?|(b & cb & Hb & Hcb & Hsb)]; [by left|right]).
          * exists b, cb. split; [by right|done].
          * apply elem_of_cons in Hb as [->|Hb]; [rewrite Hc in Hcb; by injection Hcb as <-|eauto 6]. }
    destruct (decide (ppid p <> pid me)) as [E1|E1]; [apply Hskip; [left; by intros [? _]|done]|].
    destruct (process_wait_pid_matches_child target me p) eqn:E2; cbn [negb].
    2: { apply Hskip; [left|done]. intros [_ E]. change (process_wait_pid_matches_child target me p = true) in E. congruence. }
    assert (Hs : selected me target (core p)) by (split; [by apply dec_stable in E1|exact E2]).
    destruct (winv_state _ _ _ _ Hw y (Hsub y ltac:(by left))) as (d & _ & Ed & ->). cbn [mbind outcome_bind].
    destruct (decide (state d = PROCESS_ZOMBIE)) as [Ez|Ez].
    + apply yields_ret. right. cbn. split; [by left|]. exists (core p). split; [done|]. split; [done|]. congruence.
    + apply Hskip; [right; split; [done|congruence]|done].
Qed.

Lemma scan_all_spec x w l ps me target :
  winv x w l ps ->
  yields (scan_children (list_fuel w) w (w_list w) me target false) (fun fz =>
    (fz.2 = 0 /\ (forall b c, tbl w !! b = Some c -> selected me target c -> ~ dead w b) /\
       (fz.1 = true <-> exists b c, tbl w !! b = Some c /\ selected me target c)) \/
    (fz.2 ∈ l /\ fz.2 <> 0 /\ exists c, tbl w !! fz.2 = Some c /\ selected me target c /\ dead w fz.2)).
Proof.
  intros Hw. apply (yields_weaken _ _ _ (scan_children_spec x w l ps l _ _ me target false Hw (fun b Hb => Hb) (wi_links _ _ _ _ Hw) (winv_fuel _ _ _ _ Hw))).
  intros [f z] [(E & Hn & Hf)|(Hin & Hz)]; [left|right; split; [done|split; [by eapply winv_nonnull|done]]].
  cbn [fst snd] in *. split; [done|]. split.
  - intros b c Hc. apply Hn; [|done]. by eapply winv_tbl.
  - rewrite Hf. split; [intros [?|(b & c & _ & ?)]; [done|eauto]|]. intros (b & c & Hc & Hs). right. exists b, c. split; [by eapply winv_tbl|done].
Qed.

(** The current process goes to sleep. *)
Lemma set_blocked_spec x w l ps a :
  winv x w l ps -> a ∈ l -> ~ dead w a ->
  yields (set_sched_state w a PROCESS_BLOCKED) (fun w' => winv x w' l ps /\ pst w' a = Some PROCESS_BLOCKED /\
    (forall b, b <> a -> pst w' b = pst w b) /\ w_procs w' = w_procs w /\ cur w' = cur w /\ w_next_pid w' = w_next_pid w).
Proof.
  intros Hw Ha Hd. destruct (winv_state _ _ _ _ Hw a Ha) as (d & Hpd & Ed & _). pose proof (winv_nonnull _ _ _ _ Hw a Ha) as Ha0.
  unfold set_sched_state. rewrite (set_state_Ok _ _ d) by done. cbn [mbind outcome_bind]. apply yields_ret. set (w' := with_kern _ _).
  assert (Hst : forall b, b <> a -> pst w' b = pst w b) by (intros b Hb; unfold pst, w'; cbn; by rewrite lookup_insert_ne).
  assert (Hsa : pst w' a = Some PROCESS_BLOCKED) by (unfold pst, w'; cbn; by rewrite lookup_insert_eq).
  assert (Hdd : forall b, dead w' b <-> dead w b).
  { intros b. destruct (decide (b = a)) as [->|Hb]; [rewrite Hsa; split; [done|by intros ?]|by rewrite Hst]. }
  split; [|by splits]. pose proof Hw as []. pose proof wi_sched as [Hh [] Hlv]. constructor; auto.
  - intros b. rewrite <- wi_kdom. unfold w'. cbn. rewrite lookup_insert_is_Some'. split; [intros [<-|?]; [eauto|done]|by right].
  - constructor; cbn; auto.
    + constructor; cbn.
      * intros b e. cbn. rewrite lookup_insert_Some. intros [[<- <-]|[_ Hb]]; [done|by apply (ko_views b)].
      * intros b e. rewrite lookup_insert_Some. intros [[<- <-]|[_ Hb]]; [done|by apply ko_sole].
      * destruct ko_current as [?|?]; [by left|right]. rewrite lookup_insert_is_Some'. by right.
      * by rewrite lookup_insert_ne.
    + intros b Hb. rewrite lookup_insert_is_Some'. right. by apply Hlv.
  - intros b Hb Hbx. rewrite Hdd. auto.
  - intros b c Hc. rewrite Hdd. auto.
  - intros b c Hc. destruct (wi_tree b c Hc) as [Hn Hr]. split; [done|].
    destruct Hr as [?|(q & cq & Hq & E & Hl)]; [by left|right]. exists q, cq. rewrite Hdd. auto.
Qed.

(** How one pass of wait4 ends for the caller [me] with descriptor [cm]; [opts]
    are the options in force. *)
Inductive waited w (l ps : list Z) (me : Z) (cm : proc_t) (target status opts : Z) (buf_ok copy_ok : bool) : world -> wait_out -> Prop :=
| WaitedFault b cb :
    tbl w !! b = Some cb -> selected cm target cb -> dead w b -> status <> 0 -> buf_ok = false ->
    waited w l ps me cm target status opts buf_ok copy_ok w (WaitReturn (- EFAULT))
| WaitedLost b cb w' ps' :
    tbl w !! b = Some cb -> selected cm target cb -> dead w b -> status <> 0 -> copy_ok = false ->
    winv 0 w' (without b l) ps' -> follows w l ps w' (without b l) ps' ->
    waited w l ps me cm target status opts buf_ok copy_ok w' (WaitReturn (- EFAULT))
| WaitedChild b cb w' ps' r cm' :
    tbl w !! b = Some cb -> selected cm target cb -> dead w b ->
    winv 0 w' (without b l) ps' -> tbl w' !! b = None ->
    (forall a, a ∈ without b l -> a <> me -> unlinked <$> tbl w' !! a = unlinked <$> tbl w !! a /\ (dead w' a <-> dead w a)) ->
    tbl w' !! me = Some cm' -> same_ids cm' cm -> wait cm' = waitstate_zero ->
    w_res w' = (if decide (status = 0) then r else res_put_status r me status (process_child_wait_status_word cb)) ->
    waited w l ps me cm target status opts buf_ok copy_ok w' (WaitReturn (pid cb))
| WaitedNoChild w' :
    (forall b cb, tbl w !! b = Some cb -> ~ selected cm target cb) -> winv 0 w' l ps ->
    waited w l ps me cm target status opts buf_ok copy_ok w' (WaitReturn (- ECHILD))
| WaitedNoHang b cb w' :
    tbl w !! b = Some cb -> selected cm target cb -> (forall b cb, tbl w !! b = Some cb -> selected cm target cb -> ~ dead w b) ->
    flag_set opts WNOHANG = true -> winv 0 w' l ps ->
    waited w l ps me cm target status opts buf_ok copy_ok w' (WaitReturn 0)
| WaitedSleep b cb w' cm' :
    tbl w !! b = Some cb -> selected cm target cb -> (forall b cb, tbl w !! b = Some cb -> selected cm target cb -> ~ dead w b) ->
    flag_set opts WNOHANG = false -> winv 0 w' l ps -> pst w' me = Some PROCESS_BLOCKED ->
    tbl w' !! me = Some cm' -> same_ids cm' cm -> wait_blocked (wait cm') = true -> wait_target_pid (wait cm') = target ->
    (forall a, a <> me -> tbl w' !! a = tbl w !! a /\ pst w' a = pst w a) ->
    waited w l ps me cm target status opts buf_ok copy_ok w' WaitSleep.

Definition ids_kept (f : proc_t -> proc_t) : Prop :=
  forall p, pid (f p) = pid p /\ p_next (f p) = p_next p /\ lifecycle (f p) = lifecycle p /\ ppid (f p) = ppid p.

(** What [process_wait] clears when it has reaped a child. *)
Definition wait_done (reaped : Z) (p : proc_t) : proc_t :=
  let p := process_clear_in_thread_syscall_block (process_wait_state_clear p) in
  let p := on_resume (update syscall_resume_rax 0) p in
  p <| regs := (regs p) <| t_rax := u64 (u32 reaped) |> |>.

Lemma wait_done_ids reaped : ids_kept (wait_done reaped).
Proof. intros []. by splits. Qed.

Lemma wait_done_core reaped p c : c = core (wait_done reaped p) -> same_ids c (core p) /\ wait c = waitstate_zero.
Proof. intros ->. destruct p. by splits. Qed.

Lemma reset_ids : ids_kept process_reset_blocked_syscall_state.
Proof. intros []. by splits. Qed.

Lemma selected_parent me target b cb w l ps a c :
  winv 0 w l ps -> tbl w !! a = Some c -> same_ids me c -> tbl w !! b = Some cb -> selected me target cb -> b <> a /\ pid cb <> 1.
Proof.
  intros Hw Ha (E & _) Hb [Hs _]. pose proof (wi_pid _ _ _ _ Hw a c Ha). split.
  - intros ->. rewrite Ha in Hb. injection Hb as <-. apply (proj1 (wi_tree _ _ _ _ Hw a c Ha)). congruence.
  - intros E1. pose proof (wi_init _ _ _ _ Hw b cb Hb E1). lia.
Qed.

Lemma wait_reap_spec w l ps target status opts buf_ok copy_ok b cb cm :
  winv 0 w l ps -> cur_alive w -> tbl w !! cur w = Some cm -> tbl w !! b = Some cb -> selected cm target cb -> dead w b ->
  yields (wait_reap w (cur w) b target status buf_ok copy_ok) (fun wo => waited w l ps (cur w) cm target status opts buf_ok copy_ok wo.1 wo.2).
Proof.
  intros Hw Hca Hm Hb Hs Hd. set (me := cur w) in *. unfold wait_reap.
  destruct (bool_decide (status <> 0) && negb buf_ok) eqn:Ebuf.
  { apply andb_true_iff in Ebuf as [E1 E2]. apply bool_decide_eq_true in E1. apply negb_true_iff in E2. apply yields_ret. cbn. by eapply WaitedFault. }
  destruct (selected_parent cm target b cb w l ps me cm Hw Hm ltac:(by splits) Hb Hs) as [Hbm H1].
  destruct (tbl_load _ _ _ Hb) as (z & Lz & Ez). rewrite (load_eq _ _ _ Lz). cbn [mbind outcome_bind].
  assert (Eword : process_child_wait_status_word z = process_child_wait_status_word cb) by (by rewrite Ez; destruct z).
  assert (Epid : pid z = pid cb) by (by rewrite Ez; destruct z). rewrite Eword, Epid.
  assert (Hb0 : b <> 0) by (by eapply winv_tbl).
  eapply yields_bind; [exact (reap_spec 0 w l ps b cb Hw Hb Hd H1 Hbm Hb0)|]. intros w1 (ps1 & Hw1 & Hf).
  destruct (bool_decide (status <> 0) && negb copy_ok) eqn:Ecp.
  { apply andb_true_iff in Ecp as [E1 E2]. apply bool_decide_eq_true in E1. apply negb_true_iff in E2. apply yields_ret. cbn. by eapply WaitedLost. }
  set (w2 := if decide (status <> 0) then _ else w1).
  assert (Hq2 : quiet w1 ps1 w2 ps1) by (subst w2; destruct (decide _); [by eapply quiet_res|by eapply quiet_refl]).
  assert (Hr2 : w_res w2 = if decide (status = 0) then w_res w1 else res_put_status (w_res w1) me status (process_child_wait_status_word cb)).
  { subst w2. destruct (decide (status <> 0)), (decide (status = 0)); try done. }
  pose proof (winv_quiet _ _ _ _ _ _ Hw1 Hq2) as Hw2. clearbody w2.
  assert (Hme : me ∈ without b l) by (apply list_elem_of_filter; split; [done|by eapply winv_tbl]).
  eapply yields_bind; [exact (modify_spec 0 w2 _ ps1 me _ Hw2 Hme (wait_done_ids (pid cb)))|].
  intros w3 (p & Lp & Hw3 & Es3 & _ & Er3 & Et3). pose proof (wait_done_core (pid cb) p _ eq_refl) as [Hids Hwz].
  set (cm' := core (wait_done (pid cb) p)) in *. clearbody cm'.
  assert (Hcore : unlinked (core p) = unlinked cm).
  { pose proof (fo_tbl _ _ _ _ _ _ Hf me Hme) as E. rewrite Hm in E. assert (E' : tbl w2 !! me = Some (core p)) by (unfold tbl; by rewrite lookup_fmap, Lp).
    rewrite (q_tbl _ _ _ _ Hq2) in E'. rewrite E' in E. by apply (inj Some) in E. }
  assert (Hids' : same_ids cm' cm).
  { pose proof (unlinked_eq _ _ Hcore) as (F1 & F2 & _ & F3). destruct Hids as (G1 & G2 & G3). unfold same_ids. splits; congruence. }
  unfold wait_find_matching_zombie. assert (Hc3 : tbl w3 !! me = Some cm') by (by rewrite Et3, lookup_insert_eq).
  destruct (tbl_load _ _ _ Hc3) as (p3 & L3 & _). rewrite (load_eq _ _ _ L3). cbn [mbind outcome_bind].
  destruct (scan_all_spec 0 w3 _ ps1 p3 (-1) Hw3) as ([f more] & -> & _). cbn [mbind outcome_bind].
  assert (Hlast : yields (if decide (more = 0) then modify w3 me (pending_clear SIGCHLD) else Ok w3)
    (fun w4 => quiet w3 ps1 w4 ps1 /\ w_res w4 = w_res w3)).
  { destruct (decide (more = 0)); [|apply yields_ret; split; [by eapply quiet_refl|done]]. unfold modify. rewrite (load_eq _ _ _ L3). apply yields_ret.
    split; [|done].  destruct (modify_quiet 0 w3 _ ps1 me (pending_clear SIGCHLD) Hw3 Hme ltac:(by intros [])) as (w4 & E4 & Hq4 & _).
    unfold modify in E4. rewrite (load_eq _ _ _ L3) in E4. cbn [mbind outcome_bind] in E4. by injection E4 as <-. }
  eapply yields_bind; [exact Hlast|]. intros w4 (Hq4 & Er4). apply yields_ret. cbn [fst snd].
  apply (WaitedChild w l ps me cm target status opts buf_ok copy_ok b cb w4 ps1 (w_res w1) cm'); auto.
  - by eapply winv_quiet.
  - rewrite (q_tbl _ _ _ _ Hq4), Et3, lookup_insert_ne by done. rewrite (q_tbl _ _ _ _ Hq2).
    apply eq_None_not_Some. rewrite (wi_dom _ _ _ _ Hw1), list_elem_of_filter. tauto.
  - intros a Ha Ham. rewrite (quiet_dead _ _ _ _ a Hq4), (q_tbl _ _ _ _ Hq4), Et3, lookup_insert_ne, (q_tbl _ _ _ _ Hq2) by done.
    split; [by apply (fo_tbl _ _ _ _ _ _ Hf)|]. unfold pst at 1, kern_of. rewrite Es3. rewrite <- (follows_dead _ _ _ _ _ _ a Hf Ha).
    apply (quiet_dead _ _ _ _ a Hq2).
  - by rewrite (q_tbl _ _ _ _ Hq4).
  - by rewrite Er4, Er3, Hr2.
Qed.

(** The resume helpers touch registers and resume state only. *)
Record resume_only (p q : proc_t) : Prop := {
  ro_ids : pid q = pid p /\ ppid q = ppid p /\ pgid q = pgid p /\ p_next q = p_next p /\ lifecycle q = lifecycle p;
  ro_wait : wait q = wait p
}.

Lemma arm_sleep_resume_only p : resume_only p (process_arm_kernel_syscall_sleep p).
Proof.
  unfold process_arm_kernel_syscall_sleep. destruct (decide _); [by constructor|]. cbv zeta.
  assert (H : forall q : proc_t, resume_only p q -> resume_only p
    (if process_rip_in_user_range (t_rip (regs q)) then on_resume (update want_kernel_ret true) q
     else on_resume (update want_kernel_ret false) (q <| regs := task_set_kernel_segments (regs q) |>))).
  { intros q [(? & ? & ? & ? & ?) ?]. destruct q, (process_rip_in_user_range _); constructor; by splits. }
  apply H. clear H. unfold process_kernel_sleep_capture_syscall_frame. destruct p, resume. cbn.
  destruct syscall_frame_fresh; [by constructor|]. destruct (_ && _); by constructor.
Qed.

Definition armed_wait (target opts status : Z) (p : proc_t) : proc_t :=
  if decide (mode p = USER_MODE) then
    let p := process_wait_state_arm p target opts status in
    let p := on_resume (fun r => r <| coop_resched_resume := false |> <| syscall_resume_rax := 0 |>) p in
    let p := p <| regs := (regs p) <| t_rax := 0 |> |> in
    process_arm_kernel_syscall_sleep (on_resume (update irq_frame_saved false) p)
  else process_wait_state_arm p target opts 0.

Lemma armed_wait_spec target opts status p :
  let q := armed_wait target opts status p in
  (pid q = pid p /\ ppid q = ppid p /\ pgid q = pgid p /\ p_next q = p_next p /\ lifecycle q = lifecycle p) /\
  wait_blocked (wait q) = true /\ wait_target_pid (wait q) = target.
Proof.
  cbv zeta. unfold armed_wait. destruct (decide _); [|by destruct p]. cbv zeta.
  match goal with |- context [process_arm_kernel_syscall_sleep ?q] => pose proof (arm_sleep_resume_only q) as [(H1 & H2 & H3 & H4 & H5) H6]; set (q0 := q) in * end.
  rewrite H1, H2, H3, H4, H5, H6. subst q0. destruct p. by splits.
Qed.

Lemma armed_wait_core target opts status p c : c = core (armed_wait target opts status p) ->
  same_ids c (core p) /\ wait_blocked (wait c) = true /\ wait_target_pid (wait c) = target.
Proof.
  intros ->. pose proof (armed_wait_spec target opts status p) as [(H1 & H2 & H3 & _ & _) [H4 H5]]. cbv zeta in *.
  generalize dependent (armed_wait target opts status p). intros q H1 H2 H3 H4 H5. destruct p, q. cbn in *. by splits.
Qed.

Lemma process_wait_waited w l ps target status options buf_ok copy_ok cm :
  winv 0 w l ps -> cur_alive w -> tbl w !! cur w = Some cm ->
  let opts := if decide (mode cm = USER_MODE) then wait_options (wait cm) else options in
  yields (process_wait_pass w target status options buf_ok copy_ok) (fun wo =>
    waited w l ps (cur w) cm target status opts buf_ok copy_ok wo.1 wo.2).
Proof.
  intros Hw Hca Hm opts. destruct (winv_tbl _ _ _ _ Hw _ _ Hm) as [Hml Hm0]. unfold process_wait_pass. rewrite decide_False by done.
  destruct (tbl_load _ _ _ Hm) as (p & Lp & Ep). rewrite (load_eq _ _ _ Lp). cbn [mbind outcome_bind].
  assert (Eopts : (if decide (mode p = USER_MODE) then wait_options (wait p) else options) = opts) by (unfold opts; rewrite Ep; by destruct p).
  rewrite Eopts. clearbody opts.
  assert (Hsel : forall c, selected p target c <-> selected cm target c) by (intros c; rewrite Ep; by destruct p).
  eapply yields_bind; [exact (scan_all_spec 0 w l ps p target Hw)|].
  intros [found z] [(Ez & Hnd & Hf)|(Hzl & Hz0 & cz & Hcz & Hsz & Hdz)]; cbn [fst snd] in *.
  2: { rewrite decide_True by done. apply Hsel in Hsz. by eapply wait_reap_spec. }
  subst z. rewrite decide_False by tauto.
  assert (Hnd' : forall b cb, tbl w !! b = Some cb -> selected cm target cb -> ~ dead w b) by (intros b cb Hb Hs; apply Hsel in Hs; eauto).
  destruct found; cbn [negb].
  2: { eapply yields_bind; [exact (modify_spec 0 w l ps (cur w) _ Hw Hml reset_ids)|]. intros w1 (p1 & _ & Hw1 & _). apply yields_ret.
       apply WaitedNoChild; [|done]. intros b cb Hb Hs. apply Hsel in Hs. assert (false = true) by (apply Hf; eauto). done. }
  destruct (proj1 Hf eq_refl) as (b & cb & Hb & Hsb). apply Hsel in Hsb.
  destruct (flag_set opts WNOHANG) eqn:Eno.
  { eapply yields_bind; [exact (modify_spec 0 w l ps (cur w) _ Hw Hml reset_ids)|]. intros w1 (p1 & _ & Hw1 & _). apply yields_ret.
    by apply (WaitedNoHang w l ps (cur w) cm target status opts buf_ok copy_ok b cb). }
  assert (Hids : ids_kept (armed_wait target opts status)).
  { intros q. destruct (armed_wait_spec target opts status q) as [(? & ? & ? & ? & ?) _]. by splits. }
  eapply yields_bind; [exact (modify_spec 0 w l ps (cur w) _ Hw Hml Hids)|]. intros w1 (p1 & L1 & Hw1 & Es1 & _ & _ & Et1).
  rewrite Lp in L1. injection L1 as <-. pose proof (armed_wait_core target opts status p _ eq_refl) as (Hi & Hb1 & Ht1).
  set (cm' := core (armed_wait target opts status p)) in *. clearbody cm'. rewrite <- Ep in Hi.
  assert (Hs1 : forall a, pst w1 a = pst w a) by (intros a; unfold pst, kern_of; by rewrite Es1).
  assert (Hnd1 : ~ dead w1 (cur w)) by (by rewrite Hs1).
  eapply yields_bind; [exact (set_blocked_spec 0 w1 l ps (cur w) Hw1 Hml Hnd1)|]. intros w2 (Hw2 & Hbl & Ho & Ep2 & _). apply yields_ret. cbn [fst snd].
  apply (WaitedSleep w l ps (cur w) cm target status opts buf_ok copy_ok b cb w2 cm'); auto.
  - by rewrite (tbl_same _ _ Ep2), Et1, lookup_insert_eq.
  - intros a Ha. rewrite (tbl_same _ _ Ep2), Et1, lookup_insert_ne, Ho, Hs1 by done. done.
Qed.

End waits.

(** ** fork *)

Section forks.
Context {B R : Type} `{!SchedOps B, !SchedLaws B, !ProcRes B R, Hlaws : !ProcResLaws}.
#[local] Abbreviation world := (world (S := B) (R := R)).
Implicit Types w : world.
Context (knode : B -> Z) (Hknode : forall s, knode s <> 0 /\ fresh_node_for s (knode s)).


Lemma winv_next x w l ps n : winv x w l ps -> w_next_pid w <= n -> winv x (w <| w_next_pid := n |>) l ps.
Proof. intros [] Hn. constructor; auto. intros a c Hc. cbn. pose proof (wi_pid a c Hc). lia. Qed.

Lemma ppid_bound x w l ps a c : winv x w l ps -> tbl w !! a = Some c -> 0 <= ppid c < w_next_pid w.
Proof.
  intros Hw Hc. pose proof (wi_pid _ _ _ _ Hw a c Hc). destruct (wi_tree _ _ _ _ Hw a c Hc) as [_ [->|(b & cb & Hb & <- & _)]]; [lia|].
  pose proof (wi_pid _ _ _ _ Hw b cb Hb). lia.
Qed.

(** A new process at the head of the list, child of a living one. *)
Lemma winv_added w l ps child kid me cm w' d :
  winv 0 w l ps -> child ∉ l -> child <> 0 -> tbl w !! me = Some cm -> ~ dead w me ->
  ppid kid = pid cm -> lifecycle kid = PROCESS_LIFECYCLE_ALIVE -> p_next kid = w_list w ->
  (forall a c, tbl w !! a = Some c -> pid c < pid kid) -> pid kid < w_next_pid w' -> w_next_pid w <= w_next_pid w' ->
  tbl w' = <[child := kid]> (tbl w) -> w_list w' = child ->
  w_sys w' = with_sched (backend (w_sys w), with_procs (<[child := d]> (procs (kern_of w))) (kern_of w)) (w_sys w) ->
  state d = PROCESS_READY -> task_state d = TASK_SCHED_RUNNABLE ->
  winv 0 w' (child :: l) ps.
Proof.
  intros Hw Hch H0 Hm Hmd Epp Elf Enx Hfresh Hpid Hnp Et El Es Ed Etd. pose proof Hw as []. pose proof (wi_pid _ _ Hm) as Hpm.
  assert (Hcur : cur w' = cur w) by (unfold cur, kern_of; by rewrite Es).
  assert (Hkp : procs (kern_of w') = <[child := d]> (procs (kern_of w))) by (unfold kern_of; by rewrite Es).
  assert (Hpst : forall a, a <> child -> pst w' a = pst w a) by (intros a Ha; unfold pst; by rewrite Hkp, lookup_insert_ne).
  assert (Hpc : pst w' child = Some PROCESS_READY) by (unfold pst; rewrite Hkp, lookup_insert_eq; cbn; by rewrite Ed).
  assert (Hnone : tbl w !! child = None) by (apply eq_None_not_Some; by rewrite wi_dom).
  assert (Hback : forall a c, tbl w' !! a = Some c -> (a = child /\ c = kid) \/ (a <> child /\ tbl w !! a = Some c)).
  { intros a c. rewrite Et, lookup_insert_Some. intros [[<- <-]|[? ?]]; [by left|right; by split]. }
  assert (Hme : me <> child) by (intros ->; congruence). pose proof (wi_pid _ _ Hm).
  pose proof (Hfresh _ _ Hm) as Hkid. pose proof wi_sched as [Hh [] Hlv]. constructor; auto.
  - rewrite El. cbn. split; [done|]. split; [done|]. exists kid. rewrite Et, lookup_insert_eq. split; [done|]. rewrite Enx.
    apply (pseg_frame (tbl w)); [|done]. intros a Ha. rewrite lookup_insert_ne; [done|]. by intros ->.
  - by apply NoDup_cons.
  - intros a. rewrite elem_of_cons, <- wi_dom, Et, lookup_insert_is_Some'. split; (intros [->|?]; [by left|by right]).
  - intros a. rewrite elem_of_cons, <- wi_kdom, Hkp, lookup_insert_is_Some'. split; (intros [->|?]; [by left|by right]).
  - rewrite Es. constructor; cbn; auto.
    + constructor; cbn.
      * intros a e. cbn. rewrite lookup_insert_Some. intros [[<- <-]|[_ Ha]]; [by rewrite Ed, Etd|by apply (ko_views a)].
      * intros a e. rewrite lookup_insert_Some. intros [[<- <-]|[_ Ha]]; [congruence|by apply ko_sole].
      * destruct ko_current as [?|?]; [by left|right]. rewrite lookup_insert_is_Some'. by right.
      * by rewrite lookup_insert_ne.
    + intros a Ha. rewrite lookup_insert_is_Some'. right. by apply Hlv.
  - intros a Ha Ha0. destruct (decide (a = child)) as [->|Hac]; [by rewrite Hpc|rewrite Hpst by done; auto].
  - intros a c Hc. apply Hback in Hc as [[-> ->]|[Hac Hc]]; [rewrite Hpc, Elf; done|rewrite Hpst by done; auto].
  - intros a c Hc. apply Hback in Hc as [[-> ->]|[Hac Hc]]; [lia|]. pose proof (wi_pid a c Hc). lia.
  - intros a b ca cb Ha Hb E. apply Hback in Ha as [[-> ->]|[Hac Ha]], Hb as [[-> ->]|[Hbc Hb]]; auto.
    + pose proof (Hfresh _ _ Hb). lia.
    + pose proof (Hfresh _ _ Ha). lia.
    + eauto.
  - intros a c Hc. unfold reapable. apply Hback in Hc as [[-> ->]|[Hac Hc]].
    + split; [lia|right]. exists me, cm. rewrite Et, lookup_insert_ne, Hpst by done. auto.
    + destruct (wi_tree a c Hc) as [Hn [?|(b & cb & Hb & E & Hl)]]; split; auto. right. assert (Hbc : b <> child) by (intros ->; congruence).
      exists b, cb. rewrite Et, lookup_insert_ne, Hpst by done. auto.
  - intros a c Hc E. apply Hback in Hc as [[-> ->]|[Hac Hc]]; [lia|eauto].
Qed.

(** The registers a process comes back to from the call, and those of its child. *)
Definition return_regs (single_step : bool) (p : proc_t) (v : Z) : arch_task_context_t :=
  if decide (mode p = USER_MODE) then task_apply_syscall_frame single_step (regs p) (syscall_frame (resume p)) v else regs p.

(** What the child of [p] is. *)
Definition child_of (single_step : bool) (p : proc_t) (child_pid : Z) (k : proc_t) : Prop :=
  pid k = child_pid /\ ppid k = pid p /\ pgid k = pgid p /\ sid k = sid p /\ mode k = mode p /\ lifecycle k = PROCESS_LIFECYCLE_ALIVE /\
  regs k = return_regs single_step p 0 /\ signal_pending (signals k) = 0 /\ signal_mask (signals k) = signal_mask (signals p) /\
  signal_handlers (signals k) = signal_handlers (signals p) /\ exit_signal k = 0 /\ exit_code k = 0 /\ fork_pending_child k = 0.

Definition fork_kid (single_step : bool) (p : proc_t) (n : Z) : proc_t :=
  let kid := fork_process_create p n <| stack_start := stack_start p |> <| stack_size := stack_size p |> in
  if decide (mode p = USER_MODE) then fork_prepare_child_return single_step kid p else kid.

Lemma fork_create_child ss p n nx : child_of ss p n (fork_kid ss p n <| p_next := nx |>).
Proof.
  unfold fork_kid, child_of, return_regs, fork_prepare_child_return.
  destruct (decide (mode p = USER_MODE)); destruct p; by splits.
Qed.

Lemma pending_child_ids v : ids_kept (update fork_pending_child v).
Proof. intros []. by splits. Qed.

Lemma pending_child_core p v c : c = core (p <| fork_pending_child := v |>) -> same_ids c (core p) /\ fork_pending_child c = v.
Proof. intros ->. destruct p. by splits. Qed.

Lemma pending_child_regs p v c : c = core (p <| fork_pending_child := v |>) ->
  regs c = regs (core p) /\ mode c = mode (core p) /\ syscall_frame (resume c) = syscall_frame (resume (core p)).
Proof. intros ->. by destruct p. Qed.

Lemma core_frame (p : proc_t) : syscall_frame (resume (core p)) = syscall_frame (resume p).
Proof. by destruct p. Qed.

Lemma modify_raw w a f w' b : modify w a f = Ok w' -> b <> a -> w_procs w' !! b = w_procs w !! b.
Proof.
  unfold modify, load. destruct (w_procs w !! a); [|done]. cbn. intros [= <-] Hb. cbn. by rewrite lookup_insert_ne.
Qed.

(** The child is in the table, asleep, and the parent remembers it. *)
Record attached (ss : bool) w (l ps : list Z) (me : Z) (p : proc_t) (child n : Z) (rg : arch_task_context_t) w' : Prop := {
  at_inv : winv 0 w' (child :: l) ps;
  at_child : exists k, w_procs w' !! child = Some k /\ child_of ss p n k;
  at_asleep : pst w' child = Some PROCESS_BLOCKED;
  at_parent : exists cm', tbl w' !! me = Some cm' /\ same_ids cm' (core p) /\ fork_pending_child cm' = child /\
    regs cm' = rg /\ mode cm' = mode p /\ syscall_frame (resume cm') = syscall_frame (resume p);
  at_others : forall a, a ∈ l -> a <> me -> tbl w' !! a = tbl w !! a;
  at_states : forall a, a ∈ l -> pst w' a = pst w a;
  at_cur : cur w' = cur w;
  at_next : w_next_pid w' = w_next_pid w
}.

Lemma attach_spec ss w l ps me p child n kid prio :
  winv 0 w l ps -> child ∉ l -> child <> 0 -> w_procs w !! me = Some p -> ~ dead w me ->
  kid = fork_kid ss p n ->
  n < w_next_pid w -> (forall a c, tbl w !! a = Some c -> pid c < n) ->
  yields (fork_attach_pending_child w child me kid prio) (fun w' => attached ss w l ps me p child n (regs p) w').
Proof.
  intros Hw Hch H0 Hp Hmd Ek Hn Hfresh. unfold fork_attach_pending_child.
  assert (Hm : tbl w !! me = Some (core p)) by (unfold tbl; by rewrite lookup_fmap, Hp).
  pose proof (fork_create_child ss p n (w_list w)) as Hkid. rewrite <- Ek in Hkid. clear Ek.
  set (k := kid <| p_next := w_list w |>) in *. assert (Enx : p_next k = w_list w) by (unfold k; by destruct kid). clearbody k.
  pose proof Hkid as (E1 & E2 & _ & _ & _ & E3 & _).
  set (w1 := store w child k <| w_list := child |>). set (w2 := with_kern w1 _).
  assert (Et2 : tbl w2 = <[child := core k]> (tbl w)) by apply tbl_insert.
  assert (Hw2 : winv 0 w2 (child :: l) ps).
  { eapply (winv_added w l ps child (core k) me (core p) w2 _ Hw Hch H0 Hm Hmd); try (by destruct k); auto; try reflexivity.
    - intros a c Hc. change (pid (core k)) with (pid k). rewrite E1. eauto.
    - change (pid (core k)) with (pid k). rewrite E1. exact Hn. }
  assert (Hpst2 : forall a, a <> child -> pst w2 a = pst w a) by (intros a Ha; unfold pst, w2; cbn; by rewrite lookup_insert_ne).
  assert (Hml : me ∈ l) by (by eapply winv_tbl). assert (Hmc : me <> child) by (by intros ->).
  assert (Hcin : child ∈ child :: l) by by left.
  assert (Hnd2 : ~ dead w2 child) by (unfold pst, w2; cbn; by rewrite lookup_insert_eq).
  eapply yields_bind; [exact (set_blocked_spec 0 w2 (child :: l) ps child Hw2 Hcin Hnd2)|]. intros w3 (Hw3 & Hbl & Ho & Ep3 & Hc3 & Hn3).
  assert (Hml' : me ∈ child :: l) by (by right).
  destruct (modify_spec 0 w3 (child :: l) ps me _ Hw3 Hml' (pending_child_ids child)) as (w4 & E4 & p' & L' & Hw4 & Es4 & En4 & _ & Et4).
  exists w4. split; [exact E4|].
  assert (Et3 : tbl w3 = <[child := core k]> (tbl w)) by (by rewrite (tbl_same _ _ Ep3)).
  assert (Ep' : core p' = core p).
  { assert (E : tbl w3 !! me = Some (core p')) by (unfold tbl; by rewrite lookup_fmap, L').
    rewrite Et3, lookup_insert_ne, Hm in E by done. by apply (inj Some) in E. }
  destruct (pending_child_core p' child _ eq_refl) as [Hids Hpend]. pose proof (pending_child_regs p' child _ eq_refl) as Hrg. rewrite Ep', ?core_frame in Hids, Hrg.
  set (cm' := core (p' <| fork_pending_child := child |>)) in *. clearbody cm'. assert (Hs4 : forall a, pst w4 a = pst w3 a) by (intros a; unfold pst, kern_of; by rewrite Es4).
  constructor; auto.
  - exists k. split; [|done]. rewrite (modify_raw _ _ _ _ _ E4) by done. rewrite Ep3. apply lookup_insert_eq.
  - by rewrite Hs4.
  - exists cm'. split; [by rewrite Et4, lookup_insert_eq|done].
  - intros a Ha Ham. rewrite Et4, lookup_insert_ne, Et3, lookup_insert_ne by (done || by intros ->). done.
  - intros a Ha. assert (Hac : a <> child) by (by intros ->). by rewrite Hs4, Ho, Hpst2 by done.
  - unfold cur, kern_of in *. rewrite Es4. exact Hc3.
  - by rewrite En4, Hn3.
Qed.

(** How [fork] ends. *)
Inductive forked (ss : bool) w (l ps : list Z) (p : proc_t) (child : Z) : world -> Z -> Prop :=
| ForkFailed w' ps' ret :
    ret < 0 -> winv 0 w' l ps' -> cur w' = cur w ->
    (forall a, a ∈ l -> a <> cur w -> unlinked <$> tbl w' !! a = unlinked <$> tbl w !! a /\ (dead w' a <-> dead w a)) ->
    (fork_pending_child p = 0 -> exists cm', tbl w' !! cur w = Some cm' /\ fork_pending_child cm' = 0) ->
    forked ss w l ps p child w' ret
| ForkDone w' :
    attached ss (w <| w_next_pid := w_next_pid w + 1 |>) l ps (cur w) p child (w_next_pid w) (return_regs ss p (u32 (w_next_pid w))) w' ->
    forked ss w l ps p child w' (w_next_pid w).

Lemma parent_return_core ss n q c : mode q = USER_MODE -> c = core (fork_prepare_parent_return ss n q) ->
  same_ids c (core q) /\ fork_pending_child c = fork_pending_child (core q) /\ mode c = mode (core q) /\
  syscall_frame (resume c) = syscall_frame (resume (core q)) /\ regs c = task_apply_syscall_frame ss (regs q) (syscall_frame (resume q)) (u32 n).
Proof. intros E ->. unfold fork_prepare_parent_return. rewrite decide_True by done. destruct q. by splits. Qed.

Lemma parent_return_ids ss n : ids_kept (fork_prepare_parent_return ss n).
Proof. intros q. unfold fork_prepare_parent_return. destruct (decide _), q; by splits. Qed.

(** The parent then returns the child's pid. *)
Lemma parent_return_spec ss w l ps me p child n w' :
  attached ss w l ps me p child n (regs p) w' -> me <> child -> mode p = USER_MODE ->
  yields (modify w' me (fork_prepare_parent_return ss n)) (fun w'' => attached ss w l ps me p child n (return_regs ss p (u32 n)) w'').
Proof.
  intros [] Hmc Hu. destruct at_parent0 as (cm & Hcm & Hids & Epend & Erg & Emode & Efr).
  assert (Hml : me ∈ child :: l) by (by eapply winv_tbl).
  destruct (modify_spec 0 w' (child :: l) ps me _ at_inv0 Hml (parent_return_ids ss n)) as (w1 & E1 & q & Lq & Hw1 & Es1 & En1 & _ & Et1).
  exists w1. split; [exact E1|]. assert (Ecm : core q = cm).
  { assert (E : tbl w' !! me = Some (core q)) by (unfold tbl; by rewrite lookup_fmap, Lq). rewrite Hcm in E. by apply (inj Some) in E. }
  assert (Hq : mode q = USER_MODE) by (rewrite <- Hu, <- Emode, <- Ecm; by destruct q).
  assert (Hregs : regs q = regs p) by (rewrite <- Erg, <- Ecm; by destruct q). assert (Hfr : syscall_frame (resume q) = syscall_frame (resume p)) by (rewrite <- Efr, <- Ecm, core_frame; done).
  pose proof (parent_return_core ss n q _ Hq eq_refl) as (F1 & F2 & F3 & F4 & F5). set (c1 := core (fork_prepare_parent_return ss n q)) in *. clearbody c1.
  rewrite Ecm in *. rewrite Hregs, Hfr in F5.
  assert (Hs1 : forall a, pst w1 a = pst w' a) by (intros a; unfold pst, kern_of; by rewrite Es1).
  constructor; auto.
  - destruct at_child0 as (k & Hk & Hkid). exists k. split; [|done]. by rewrite (modify_raw _ _ _ _ _ E1).
  - by rewrite Hs1.
  - exists c1. split; [by rewrite Et1, lookup_insert_eq|]. split; [destruct Hids as (? & ? & ?), F1 as (? & ? & ?); unfold same_ids; splits; congruence|].
    split; [congruence|]. split; [|split; congruence]. rewrite F5. unfold return_regs. by rewrite decide_True.
  - intros a Ha Ham. rewrite Et1, lookup_insert_ne by done. auto.
  - intros a Ha. rewrite Hs1. auto.
  - unfold cur, kern_of in *. by rewrite Es1.
  - by rewrite En1.
Qed.

(** Nobody is a child of the new child. *)
Lemma attached_childless ss w l ps p child n rg w0 :
  winv 0 w0 l ps -> attached ss w0 l ps (cur w0) p child n rg w -> (forall a c, tbl w0 !! a = Some c -> pid c < n) -> w_procs w0 !! cur w0 = Some p ->
  forall b c, tbl w !! b = Some c -> ppid c <> n.
Proof.
  intros Hw0 [] Hfresh Hp b c Hc. set (me := cur w0) in *. assert (Hm0 : tbl w0 !! me = Some (core p)) by (unfold tbl; by rewrite lookup_fmap, Hp).
  pose proof (Hfresh _ _ Hm0 : pid p < n) as Hpn. destruct at_parent0 as (cm' & Hcm & Hids & _). destruct at_child0 as (k & Hk & Ek & Ekp & _).
  assert (Hlt : forall a c, tbl w0 !! a = Some c -> ppid c < n).
  { intros a c0 Hc0. pose proof (wi_pid _ _ _ _ Hw0 _ _ Hm0) as Hp0. change (0 < pid p < w_next_pid w0) in Hp0.
    destruct (wi_tree _ _ _ _ Hw0 a c0 Hc0) as [_ [->|(q & cq & Hq & <- & _)]]; [lia|eauto]. }
  destruct (winv_tbl _ _ _ _ at_inv0 b c Hc) as [Hbl _]. apply elem_of_cons in Hbl as [->|Hbl].
  - unfold tbl in Hc. rewrite lookup_fmap, Hk in Hc. injection Hc as <-. change (ppid k <> n). lia.
  - destruct (decide (b = me)) as [->|Hbm].
    + rewrite Hcm in Hc. injection Hc as <-. destruct Hids as (_ & -> & _). specialize (Hlt me _ Hm0). lia.
    + rewrite (at_others0 b Hbl Hbm) in Hc. specialize (Hlt b c Hc). lia.
Qed.

(** A failed [fork] takes the child out again. *)
Lemma fork_rollback_spec ss w l ps p child n rg w0 :
  winv 0 w0 l ps -> child ∉ l -> attached ss w0 l ps (cur w0) p child n rg w -> (forall a c, tbl w0 !! a = Some c -> pid c < n) -> w_procs w0 !! cur w0 = Some p ->
  yields (fork_rollback w child) (fun w' =>
    exists ps', winv 0 w' l ps' /\ cur w' = cur w0 /\
      (exists cm', tbl w' !! cur w0 = Some cm' /\ fork_pending_child cm' = 0) /\
      forall a, a ∈ l -> a <> cur w0 -> unlinked <$> tbl w' !! a = unlinked <$> tbl w0 !! a /\ (dead w' a <-> dead w0 a)).
Proof.
  intros Hw0 Hch Hat Hfresh Hp. pose proof (attached_childless _ _ _ _ _ _ _ _ _ Hw0 Hat Hfresh Hp) as Hchl. destruct Hat. set (me := cur w0) in *.
  assert (Hm0 : tbl w0 !! me = Some (core p)) by (unfold tbl; by rewrite lookup_fmap, Hp).
  pose proof (Hfresh _ _ Hm0 : pid p < n) as Hpn. destruct at_parent0 as (cm' & Hcm & Hids & Epend & _).
  assert (Hml : me ∈ child :: l) by (by eapply winv_tbl). assert (Hmc : me <> child).
  { intros E. destruct at_child0 as (k & Hk & Ek & _). assert (Hkt : tbl w !! child = Some (core k)) by (unfold tbl; by rewrite lookup_fmap, Hk).
    rewrite <- E, Hcm in Hkt. injection Hkt as ->. destruct Hids as (E1 & _). change (pid k = pid p) in E1. lia. }
  unfold fork_rollback. rewrite at_cur0. fold me. rewrite decide_False by (by eapply winv_tbl).
  destruct (tbl_load _ _ _ Hcm) as (q & Lq & Eq).
  assert (Emod : modify w me (fun p => if decide (fork_pending_child p = child) then p <| fork_pending_child := 0 |> else p) = modify w me (update fork_pending_child 0)).
  { unfold modify. rewrite (load_eq _ _ _ Lq). cbn [mbind outcome_bind]. rewrite decide_True; [done|]. rewrite Eq in Epend. by destruct q. }
  rewrite Emod. clear q Lq Eq Emod.
  eapply yields_bind; [exact (modify_spec 0 w (child :: l) ps me _ at_inv0 Hml (pending_child_ids 0))|].
  intros w1 (p1 & L1 & Hw1 & Es1 & _ & _ & Et1). remember (core (p1 <| fork_pending_child := 0 |>)) as cm1 eqn:Hcm1.
  assert (Est : pstate w1 child = Ok PROCESS_BLOCKED).
  { unfold pst in at_asleep0. unfold pstate, load_proc, kern_of in *. rewrite Es1. destruct (procs _ !! child); [|done]. cbn in *. by injection at_asleep0 as ->. }
  rewrite Est. cbn [mbind outcome_bind]. rewrite decide_False by (by intros [?|?]). cbn [mbind outcome_bind].
  assert (Hcin : child ∈ child :: l) by by left.
  eapply yields_bind; [exact (remove_from_list_spec 0 w1 (child :: l) ps child Hw1 Hcin)|]. intros [w2 r] (_ & (m & h & Ew2) & Hun & Hl2). cbn [fst snd] in *.
  assert (Ewo : without child (child :: l) = l) by (exact (without_middle [] l child (wi_nodup _ _ _ _ at_inv0))).
  assert (Esys2 : w_sys w2 = w_sys w1) by (by rewrite Ew2).
  eapply yields_bind.
  { apply use_res_spec. rewrite Esys2. apply (law_rollback _ _ child ps); [apply Hw1|apply Hw1|]. by apply (wi_kdom _ _ _ _ Hw1). }
  intros w3 (r3 & y & Ew3 & ps' & Hk & Hnot). cbn [snd] in Hk. apply yields_ret. exists ps'.
  destruct at_child0 as (k & Hk0 & Hkid). pose proof Hkid as (Ek & Ekp & _).
  assert (Hkt : tbl w1 !! child = Some (core k)).
  { rewrite Et1, lookup_insert_ne by done. unfold tbl. by rewrite lookup_fmap, Hk0. }
  assert (Hps : child ∉ ps) by (intros Hin; apply Hch, (wi_kdom _ _ _ _ Hw0); by apply (si_live _ _ (wi_sched _ _ _ _ Hw0))).
  assert (Hcc : child <> cur w1) by (unfold cur, kern_of in *; rewrite Es1, at_cur0; congruence).
  assert (Hkids : forall b c, tbl w1 !! b = Some c -> ppid c <> pid (core k)).
  { change (pid (core k)) with (pid k). rewrite Ek. intros b c Hc. destruct (decide (b = me)) as [->|Hbm].
    - assert (E1 : tbl w !! me = Some (core p1)) by (unfold tbl; by rewrite lookup_fmap, L1). destruct (pending_child_core p1 0 _ eq_refl) as [(_ & E2 & _) _].
      rewrite Et1, lookup_insert_eq in Hc. injection Hc as <-. rewrite Hcm1, E2. by apply (Hchl me).
    - rewrite Et1, lookup_insert_ne in Hc by done. by apply (Hchl b). }
  destruct (winv_removed 0 w1 (child :: l) ps child (core k) (free_proc w3 child) ps' y Hw1 Hkt Hkids Hcc (Hnot Hps) Hk) as [Hinv Hf].
  - by subst w3.
  - by rewrite Ew3, Ew2.
  - rewrite tbl_free. apply lookup_delete_eq.
  - intros b Hb. rewrite tbl_free, lookup_delete_ne by done. subst w3. apply Hun.
  - rewrite tbl_free. apply (pseg_frame (tbl w2)); [|by subst w3]. intros b Hb. apply list_elem_of_filter in Hb as [Hb _]. rewrite lookup_delete_ne by done. by subst w3.
  - rewrite Ewo in Hinv, Hf. split; [done|]. split; [rewrite (fo_cur _ _ _ _ _ _ Hf); unfold cur, kern_of in *; by rewrite Es1, at_cur0|].
    split.
    { destruct (winv_tbl _ _ _ _ Hw0 _ _ Hm0) as [Hml0 _]. pose proof (fo_tbl _ _ _ _ _ _ Hf me Hml0) as E. rewrite Et1, lookup_insert_eq in E.
      apply fmap_Some in E as (c2 & Hc2 & E2). exists c2. split; [done|]. rewrite <- (f_equal fork_pending_child E2 : fork_pending_child cm1 = fork_pending_child c2).
      by apply (pending_child_core p1 0). }
    intros a Ha Ham. assert (Hac : a <> child) by (by intros ->). rewrite (fo_tbl _ _ _ _ _ _ Hf a Ha), Et1, lookup_insert_ne, (at_others0 a Ha Ham) by done.
    split; [done|]. rewrite (follows_dead _ _ _ _ _ _ a Hf Ha). assert (Hs1 : pst w1 a = pst w a) by (unfold pst, kern_of; by rewrite Es1). by rewrite Hs1, (at_states0 a Ha).
Qed.

Lemma fork_forked ss w l ps p child arch_ret :
  winv 0 w l ps -> w_procs w !! cur w = Some p -> cur_alive w -> child ∉ l -> child <> 0 -> w_next_pid w < INT_MAX ->
  yields (fork w child ss arch_ret) (fun wr => forked ss w l ps p child wr.1 wr.2).
Proof.
  intros Hw Hp Hca Hch H0 Hmax. set (me := cur w) in *.
  assert (Hm : tbl w !! me = Some (core p)) by (unfold tbl; by rewrite lookup_fmap, Hp).
  destruct (winv_tbl _ _ _ _ Hw me _ Hm) as [Hml Hm0]. unfold fork. fold me. rewrite decide_False by done.
  rewrite (load_eq _ _ _ Hp). cbn [mbind outcome_bind]. destruct (winv_state _ _ _ _ Hw me Hml) as (d & Hd & _ & _).
  unfold load_proc. rewrite Hd. cbn [or_ub mbind outcome_bind]. rewrite decide_False by done.
  unfold process_get_next_pid, int_incr. rewrite decide_True by done. cbn [mbind outcome_bind].
  set (w1 := w <| w_next_pid := w_next_pid w + 1 |>). assert (Hw1 : winv 0 w1 l ps) by (apply winv_next; [done|lia]).
  destruct (res_fork (w_res w1) me child) as [r ok]. cbv zeta. set (w2 := w1 <| w_res := r |>).
  assert (Hw2 : winv 0 w2 l ps) by (eapply winv_quiet; [exact Hw1|by eapply quiet_res]).
  assert (Hfresh : forall a c, tbl w2 !! a = Some c -> pid c < w_next_pid w) by (intros a c Hc; by apply (wi_pid _ _ _ _ Hw a c)).
  destruct ok; cbn [negb]; [|apply yields_ret; apply (ForkFailed ss w l ps p child w2 ps); eauto; done].
  eapply yields_bind.
  { apply (attach_spec ss w2 l ps me p child (w_next_pid w) _ (sched_prio d) Hw2 Hch H0 Hp); [exact Hca|reflexivity|cbn; lia|exact Hfresh]. }
  intros w3 Hat. assert (Hmc : me <> child) by (by intros ->). destruct (decide (mode p <> USER_MODE)) as [Hk|Hu].
  { apply yields_ret. cbn [fst snd]. apply ForkDone. unfold return_regs. rewrite decide_False by done. by destruct Hat; constructor. }
  apply dec_stable in Hu. eapply yields_bind; [exact (parent_return_spec ss w2 l ps me p child _ w3 Hat Hmc Hu)|]. intros w4 Hat4.
  destruct (decide (0 <= arch_ret)).
  { apply yields_ret. cbn [fst snd]. apply ForkDone. by destruct Hat4; constructor. }
  eapply yields_bind; [exact (fork_rollback_spec ss w4 l ps p child (w_next_pid w) _ w2 Hw2 Hch Hat4 Hfresh Hp)|].
  intros w5 (ps' & Hw5 & Hc5 & Hpd & Ho). apply yields_ret. apply (ForkFailed ss w l ps p child w5 ps'); [cbn; lia|exact Hw5|exact Hc5|exact Ho|intros _; exact Hpd].
Qed.

(** The end of the call in the parent: the child may run. *)
Lemma fork_wake_spec ss w l ps child p n rg w' :
  attached ss w l ps (cur w) p child n rg w' ->
  yields (process_fork_wake_pending knode w' (cur w)) (fun w'' => exists ps'', winv 0 w'' (child :: l) ps'' /\ child ∈ ps'' /\
    pst w'' child = Some PROCESS_READY /\ (forall b, dead w'' b <-> dead w' b) /\
    (forall b, b <> cur w -> tbl w'' !! b = tbl w' !! b) /\
    exists cm, tbl w'' !! cur w = Some cm /\ same_ids cm (core p) /\ fork_pending_child cm = 0 /\ regs cm = rg).
Proof.
  intros []. destruct at_parent0 as (cm' & Hcm & Hids & Epend & Erg & _). destruct (winv_tbl _ _ _ _ at_inv0 _ _ Hcm) as [Hml Hm0].
  unfold process_fork_wake_pending. rewrite decide_False by done. destruct (tbl_load _ _ _ Hcm) as (p' & L' & E').
  rewrite (load_eq _ _ _ L'). cbn [mbind outcome_bind]. assert (Ep : fork_pending_child p' = child) by (rewrite E' in Epend; by destruct p').
  rewrite Ep. assert (Hcin : child ∈ child :: l) by by left. rewrite decide_False by (by eapply winv_nonnull).
  eapply yields_bind; [exact (modify_spec 0 w' (child :: l) ps _ _ at_inv0 Hml (pending_child_ids 0))|]. intros w1 (q & Lq & Hw1 & Es1 & _ & _ & Et1).
  destruct (pending_child_core q 0 _ eq_refl) as [Hiq Eq]. destruct (pending_child_regs q 0 _ eq_refl) as [Hrq _].
  assert (Ecq : core q = cm') by (rewrite L' in Lq; apply (inj Some) in Lq; by rewrite <- Lq, E'). rewrite Ecq in Hiq, Hrq. set (c1 := core (q <| fork_pending_child := 0 |>)) in *. clearbody c1.
  assert (Hs1 : forall a, pst w1 a = pst w' a) by (intros a; unfold pst, kern_of; by rewrite Es1).
  assert (Hnd1 : ~ dead w1 child) by (rewrite Hs1; congruence).
  eapply yields_bind; [exact (set_ready_quiet 0 w1 _ ps child Hw1 Hcin Hnd1)|]. intros w2 (Hq2 & Hr2 & _).
  pose proof (winv_quiet _ _ _ _ _ _ Hw1 Hq2) as Hw2. assert (Hnd2 : ~ dead w2 child) by congruence.
  apply (yields_weaken _ _ _ (add_process_quiet knode Hknode 0 w2 _ ps child Hw2 Hcin Hnd2)). intros w3 (ps3 & Hq3 & Hin & Hr3 & _).
  exists ps3. split; [by eapply winv_quiet|]. split; [done|]. split; [done|]. split.
  - intros b. by rewrite (quiet_dead _ _ _ _ b Hq3), (quiet_dead _ _ _ _ b Hq2), Hs1.
  - split; [intros b Hb; by rewrite (q_tbl _ _ _ _ Hq3), (q_tbl _ _ _ _ Hq2), Et1, lookup_insert_ne by done|].
    exists c1. split; [|split; [destruct Hids as (? & ? & ?), Hiq as (? & ? & ?); unfold same_ids; splits; congruence|split; [done|congruence]]]. by rewrite (q_tbl _ _ _ _ Hq3), (q_tbl _ _ _ _ Hq2), Et1, lookup_insert_eq.
Qed.
End forks.
