(* ===== verification/ProcSpec.v ===== *)
(** * What the process calls promise

    The contracts of [send_signal], [process_exit], wait4 and [fork] over the
    invariant of [ProcInv], for either scheduler: no call touches a freed
    descriptor or loses its way in the table, whatever the order of the calls;
    a dead child is found by the parent that waits for it, once, with its
    status. *)

From S2P Require Import Prelude RecordUpdate Runq RrSched PrioSched Sched ProcState Signal ProcTable ProcInv ProcExit ProcCalls.

Section contracts.
Context {B R : Type} `{!SchedOps B, !SchedLaws B, !ProcRes B R, Hlaws : !ProcResLaws}.
Abbreviation world := (world (S := B) (R := R)).
Implicit Types w : world.
Context (knode : B -> Z) (Hknode : forall s, knode s <> 0 /\ fresh_node_for s (knode s)) (status_ok : Z -> bool).

(** C15: [send_signal] always ends, in one of five ways.  A signal number out of
    range or an unknown pid gives -1; signal 0 and a signal init does not catch
    change nothing; a signal that does not kill becomes pending and a sleeping
    target becomes ready; a fatal one turns the target into a zombie with that
    signal in its status, off the run queue, its dead children reaped, its living
    ones given to init and a parent that waits for it runnable; when the target is
    the caller, the call does not return. *)
Theorem send_signal_correct w l ps pid_ sig :
  winv 0 w l ps -> cur_alive w -> (length l <= capacity)%nat ->
  yields (send_signal knode status_ok w pid_ sig) (sent w l ps pid_ sig).
Proof. intros. by apply send_signal_sent. Qed.

(** The status word a parent reads for the end of [c]. *)
Definition end_word (exit_signal_ code : Z) : Z :=
  if decide (exit_signal_ > 0) then Z.land exit_signal_ 0x7f else Z.shiftl (Z.land code 0xff) 8.

Lemma end_word_status c c' code :
  exit_signal c' = exit_signal c -> exit_code c' = (if decide (exit_signal c = 0) then code else 0) -> 0 <= exit_signal c ->
  process_child_wait_status_word c' = end_word (exit_signal c) code.
Proof.
  intros E1 E2 Hs. unfold process_child_wait_status_word, end_word. rewrite E1, E2.
  destruct (decide (exit_signal c > 0)); [done|]. by rewrite decide_True by lia.
Qed.

(** C12: [process_exit] never returns to its caller.  It leaves the caller in the
    table as a zombie off the run queue, with the word wait4 will report (the
    signal that killed it, or the low byte of the code in bits 8 to 15); its dead
    children are gone, no process is its child any more, everybody else is as
    before, and a parent that waits for it is in the run queue and runnable. *)
Theorem process_exit_correct w l ps c code :
  winv 0 w l ps -> tbl w !! cur w = Some c -> cur_alive w -> (length l <= capacity)%nat -> 0 <= exit_signal c ->
  yields (process_exit knode status_ok w code) (fun r => exists w' l' ps' c', r = Away w' /\
    exited (cur w) c c' w l w' l' ps' /\ parent_woken c w w' ps' /\
    process_child_wait_status_word c' = end_word (exit_signal c) code).
Proof.
  intros Hw Hc Hca Hcap Hs. unfold process_exit, send_signal. apply (yields_weaken _ _ _ (process_exit_spec knode Hknode status_ok w l ps 1 c code Hw Hc Hca Hcap)).
  intros r (w' & l' & ps' & c' & -> & Hex & Hpw & E1 & E2). exists w', l', ps', c'. splits; auto. by apply end_word_status.
Qed.


(** [fork] and the wake-up of the child that the dispatcher does when the call is
    over (the delivery of signals in between is [Signal]). *)
Definition fork_call w (child : Z) (single_step : bool) (arch_ret : Z) : outcome (world * Z) :=
  let me := cur w in
  '(w, r) ← fork w child single_step arch_ret; w ← process_fork_wake_pending knode w me; Ok (w, r).

(** A process in user mode comes back from its system call with [v]. *)
Definition returns (p : proc_t) (t : arch_task_context_t) (v : Z) : Prop :=
  t_rax t = v /\ t_rip t = f_rip (syscall_frame (resume p)) /\ t_rsp t = f_rsp (syscall_frame (resume p)) /\
  t_cs t = USER_CODE_SEL /\ t_ss t = USER_DATA_SEL.

Lemma return_regs_returns ss p v : mode p = USER_MODE -> returns p (return_regs ss p v) v.
Proof. intros E. unfold return_regs. rewrite decide_True by done. by splits. Qed.

(** How it ends. *)
Inductive fork_ended (ss : bool) w (l ps : list Z) (p : proc_t) (child : Z) : world -> Z -> Prop :=
| ForkEndedNone w' ps' ret :
    ret < 0 -> winv 0 w' l ps' -> (forall a, a ∈ l -> a <> cur w -> unlinked <$> tbl w' !! a = unlinked <$> tbl w !! a /\ (dead w' a <-> dead w a)) ->
    fork_ended ss w l ps p child w' ret
| ForkEndedChild w' ps' k cm :
    winv 0 w' (child :: l) ps' -> child ∈ ps' -> pst w' child = Some PROCESS_READY ->
    tbl w' !! child = Some (core k) -> child_of ss p (w_next_pid w) k ->
    tbl w' !! cur w = Some cm -> same_ids cm (core p) -> fork_pending_child cm = 0 ->
    (mode p = USER_MODE -> returns p (regs k) 0 /\ returns p (regs cm) (w_next_pid w)) ->
    (forall a, a ∈ l -> a <> cur w -> tbl w' !! a = tbl w !! a) -> (forall a, a ∈ l -> dead w' a <-> dead w a) ->
    fork_ended ss w l ps p child w' (w_next_pid w).

Lemma wake_none w l ps a c :
  winv 0 w l ps -> tbl w !! a = Some c -> fork_pending_child c = 0 -> process_fork_wake_pending knode w a = Ok w.
Proof.
  intros Hw Hc E. unfold process_fork_wake_pending. rewrite decide_False by (by eapply winv_tbl).
  destruct (tbl_load _ _ _ Hc) as (p & Lp & ->). rewrite (load_eq _ _ _ Lp). cbn [mbind outcome_bind].
  by rewrite (E : fork_pending_child p = 0).
Qed.

Lemma fork_call_ended ss w l ps p child arch_ret :
  winv 0 w l ps -> w_procs w !! cur w = Some p -> cur_alive w -> child ∉ l -> w_next_pid w < INT_MAX -> fork_pending_child p = 0 ->
  yields (fork_call w child ss arch_ret) (fun wr => fork_ended ss w l ps p child wr.1 wr.2).
Proof.
  intros Hw Hp Hca Hch Hmax Hpend. assert (Hm : tbl w !! cur w = Some (core p)) by (unfold tbl; by rewrite lookup_fmap, Hp).
  destruct (winv_tbl _ _ _ _ Hw _ _ Hm) as [Hml Hm0]. unfold fork_call.
  destruct (decide (child = 0)) as [->|H0].
  - unfold fork. destruct (winv_state _ _ _ _ Hw _ Hml) as (d & Hd & _). rewrite decide_False by done.
    rewrite (load_eq _ _ _ Hp). unfold load_proc. rewrite Hd. cbn [mbind outcome_bind or_ub]. rewrite decide_True by done. cbn [mbind outcome_bind].
    rewrite (wake_none _ _ _ _ _ Hw Hm Hpend). apply yields_ret. by apply (ForkEndedNone _ _ _ _ _ _ w ps).
  - destruct (fork_forked ss w l ps p child arch_ret Hw Hp Hca Hch H0 Hmax) as ([w1 r] & -> & Hf). cbn [mbind outcome_bind fst snd] in *.
    inversion Hf as [w2 ps2 ret Hneg Hw2 Hc2 Ho Hpd|w2 Hat]; subst.
    + destruct (Hpd Hpend) as (cm' & Hcm & E). rewrite (wake_none _ _ _ _ _ Hw2 Hcm E). apply yields_ret. by apply (ForkEndedNone _ _ _ _ _ _ w1 ps2).
    + eapply yields_bind; [exact (fork_wake_spec knode Hknode ss _ l ps child p _ _ w1 Hat)|].
      intros w3 (ps3 & Hw3 & Hin & Hst & Hd & Ho & cm & Hcm & Hids & Epd & Erg). apply yields_ret. destruct Hat.
      destruct at_child as (k & Hk & Hkid). assert (Hcm0 : child <> cur w) by (by intros ->).
      apply (ForkEndedChild _ _ _ _ _ _ w3 ps3 k cm); auto.
      * rewrite (Ho child Hcm0). unfold tbl. by rewrite lookup_fmap, Hk.
      * intros Hu. destruct Hkid as (_ & _ & _ & _ & _ & _ & -> & _). rewrite Erg. split; [by apply return_regs_returns|].
        assert (Hn : u32 (w_next_pid w) = w_next_pid w).
        { pose proof (wi_pid _ _ _ _ Hw _ _ Hm). unfold INT_MAX in Hmax. apply Z.mod_small. lia. }
        rewrite Hn. by apply return_regs_returns.
      * intros a Ha Ham. by rewrite (Ho a Ham), at_others.
      * intros a Ha. rewrite Hd, at_states; done.
Qed.

(** C16: [fork] with the wake-up at the end of its system call.  Either it returns
    an error and the table holds the processes it held, or it returns a pid nobody
    had and the table has one process more: a child with the caller's group,
    session, mask and handlers and no signal pending, in the run queue and ready,
    that comes back from the same system call with 0 while the caller comes back
    with its pid; nobody else changes. *)
Theorem fork_correct ss w l ps p child arch_ret :
  winv 0 w l ps -> w_procs w !! cur w = Some p -> cur_alive w -> child ∉ l -> w_next_pid w < INT_MAX -> fork_pending_child p = 0 ->
  yields (fork_call w child ss arch_ret) (fun wr => fork_ended ss w l ps p child wr.1 wr.2).
Proof. intros. by apply fork_call_ended. Qed.

Lemma exit_word code : Z.land (Z.shiftl (Z.land code 255) 8) 127 = 0 /\ Z.land (Z.shiftr (Z.shiftl (Z.land code 255) 8) 8) 255 = Z.land code 255.
Proof.
  split; apply Z.bits_inj_iff'; intros i Hi.
  - rewrite Z.land_spec, Z.bits_0. change 127 with (Z.ones 7). destruct (decide (i < 7)).
    + rewrite Z.shiftl_spec_low by lia. done.
    + rewrite Z.ones_spec_high by lia. apply andb_false_r.
  - rewrite Z.land_spec, Z.shiftr_spec, Z.shiftl_spec by lia. replace (i + 8 - 8) with i by lia.
    rewrite Z.land_spec. change 255 with (Z.ones 8). by destruct (Z.testbit code i), (Z.testbit (Z.ones 8) i).
Qed.

(** The parent of the process that died is still there, under its pid. *)
Lemma parent_after a c c' w l ps w' l' ps' parent cp :
  winv 0 w l ps -> tbl w !! a = Some c -> exited a c c' w l w' l' ps' ->
  tbl w !! parent = Some cp -> ~ dead w parent -> ppid c = pid cp -> exists cp', tbl w' !! parent = Some cp' /\ pid cp' = pid cp.
Proof.
  intros Hw Hc [] Hp Hnd E. assert (Hpa : parent <> a) by (intros ->; apply (proj1 (wi_tree _ _ _ _ Hw a c Hc)); congruence).
  assert (Hin : parent ∈ l') by (apply (ex_reaped parent cp Hpa Hp); by intros [_ ?]).
  destruct ex_others as (to & _ & Ht). destruct (Ht parent cp Hin Hpa Hp) as (cp' & Hcp' & Eu). exists cp'. split; [done|].
  destruct (unlinked_eq _ _ Eu) as (-> & _). apply adopted_fields.
Qed.

(** C13: A child's exit reaches its parent.  The parent sleeps in wait4 for the
    child's pid; the child exits with [code]; then the parent is runnable, and
    when it runs again (in any state where the table is as the exit left it) its
    pass returns the child's pid, stores a word from which the low byte of the
    code is read back as bits 8 to 15 with no signal, and frees the child. *)
Theorem wait_exit_roundtrip w l ps c code parent cp :
  winv 0 w l ps -> tbl w !! cur w = Some c -> cur_alive w -> (length l <= capacity)%nat -> exit_signal c = 0 ->
  tbl w !! parent = Some cp -> ~ dead w parent -> ppid c = pid cp -> wait_blocked (wait cp) = true -> wait_target_pid (wait cp) = pid c ->
  yields (process_exit knode status_ok w code) (fun r => exists w' l' ps', r = Away w' /\ winv 0 w' l' ps' /\
    parent ∈ ps' /\ runnable (kern_of w') parent = true /\
    forall w2 ps2 status options, winv 0 w2 l' ps2 -> cur w2 = parent -> cur_alive w2 -> tbl w2 = tbl w' ->
      (forall a, dead w2 a <-> dead w' a) -> status <> 0 ->
      yields (process_wait_pass w2 (pid c) status options true true) (fun wo => wo.2 = WaitReturn (pid c) /\
        tbl wo.1 !! cur w = None /\ exists r word, w_res wo.1 = res_put_status r parent status word /\
          Z.land word 0x7f = 0 /\ Z.land (Z.shiftr word 8) 0xff = Z.land code 0xff)).
Proof.
  intros Hw Hc Hca Hcap Hsig Hp Hpd Epp Hbl Htgt. set (a := cur w) in *. pose proof (wi_pid _ _ _ _ Hw a c Hc) as Hpos.
  assert (Haw : awaited cp c = true).
  { unfold awaited, process_wait_pid_matches_child. rewrite Hbl, Htgt, !decide_False by lia. rewrite decide_True by lia.
    by rewrite !bool_decide_eq_true_2 by congruence. }
  unfold process_exit, send_signal. apply (yields_weaken _ _ _ (process_exit_spec knode Hknode status_ok w l ps 1 c code Hw Hc Hca Hcap)).
  intros r (w' & l' & ps' & c' & -> & Hex & Hpw & E1 & E2). destruct (Hpw parent cp Hp Haw Hpd) as [Hin Hrun].
  exists w', l', ps'. pose proof Hex as []. splits; auto. intros w2 ps2 status options Hw2 Ec2 Hca2 Et2 Hd2 Hst.
  destruct ex_self as [Hc' Hids]. fold a in Hc'. rewrite Hsig, decide_True in E2 by done. rewrite Hsig in E1.
  destruct (parent_after _ _ _ _ _ _ _ _ _ _ _ Hw Hc Hex Hp Hpd Epp) as (cp' & Hcp' & Eid).
  assert (Hm2 : tbl w2 !! cur w2 = Some cp') by (by rewrite Ec2, Et2).
  assert (Hsel : selected cp' (pid c) c').
  { destruct Hids as (F1 & F2 & _). split; [congruence|]. unfold process_wait_pid_matches_child. rewrite decide_False, decide_True by lia. by apply bool_decide_eq_true_2. }
  apply (yields_weaken _ _ _ (process_wait_waited w2 l' ps2 (pid c) status options true true cp' Hw2 Hca2 Hm2)).
  assert (Honly : forall b cb, tbl w2 !! b = Some cb -> selected cp' (pid c) cb -> b = a /\ cb = c').
  { intros b cb Hb [_ Hs]. unfold process_wait_pid_matches_child in Hs. rewrite decide_False, decide_True in Hs by lia. apply bool_decide_eq_true in Hs.
    assert (b = a) as -> by (eapply (wi_pids _ _ _ _ Hw2); [exact Hb|by rewrite Et2|]; destruct Hids; congruence). split; [done|]. rewrite Et2, Hc' in Hb. by injection Hb. }
  rewrite <- Et2 in Hc'. assert (Hda : dead w2 a) by (by apply Hd2).
  assert (Hword : process_child_wait_status_word c' = Z.shiftl (Z.land code 0xff) 8).
  { unfold process_child_wait_status_word. by rewrite E1, E2, decide_False by lia. }
  clear E1 E2. intros [w3 o] H. cbn [fst snd] in H |- *. inversion H; subst; try done.
  - destruct (Honly _ _ ltac:(eassumption) ltac:(eassumption)) as [-> ->]. split; [by destruct Hids as (-> & _)|]. split; [done|].
    match goal with E : w_res _ = _ |- _ => rewrite decide_False in E by done; eexists _, _; split; [exact E|] end.
    rewrite Hword. apply exit_word.
  - match goal with N : forall b cb, _ -> ~ _ |- _ => by destruct (N a c' Hc' Hsel) end.
  - match goal with N : forall b cb, _ -> _ -> ~ _ |- _ => by destruct (N a c' Hc' Hsel Hda) end.
  - match goal with N : forall b cb, _ -> _ -> ~ _ |- _ => by destruct (N a c' Hc' Hsel Hda) end.
Qed.

(** ** Any sequence of calls *)

(** A call of the running process, with what its environment decides, or a turn
    of the scheduler. *)
Inductive proc_op :=
| PExit (code : Z)
| PKill (pid_ sig : Z)
| PWait (target status options : Z) (buf_ok copy_ok : bool)
| PFork (child : Z) (single_step : bool) (arch_ret : Z)
| PNext.

Definition proc_step w (op : proc_op) : outcome world :=
  match op with
  | PExit code => r ← process_exit knode status_ok w code; Ok (match r with Back w _ | Away w => w end)
  | PKill pid_ sig => r ← send_signal knode status_ok w pid_ sig; Ok (match r with Back w _ | Away w => w end)
  | PWait target status options buf_ok copy_ok => '(w, _) ← process_wait_pass w target status options buf_ok copy_ok; Ok w
  | PFork child ss arch_ret => '(w, _) ← fork_call w child ss arch_ret; Ok w
  | PNext => schedule_next w
  end.

(** When the call can happen: somebody alive makes it, the scheduler can look at
    the whole table, [kmalloc] returns no address in use, pids are left. *)
Definition proc_ready w (op : proc_op) : bool :=
  bool_decide (size (w_procs w) <= capacity)%nat &&
  match op with
  | PNext => true
  | PFork child _ _ =>
      bool_decide (~ dead w (cur w)) && bool_decide (is_Some (w_procs w !! cur w)) && bool_decide (w_procs w !! child = None) &&
      bool_decide (w_next_pid w < INT_MAX) && bool_decide (fork_pending_child <$> w_procs w !! cur w = Some 0)
  | _ => bool_decide (~ dead w (cur w)) && bool_decide (is_Some (w_procs w !! cur w))
  end.

(** Calls that cannot happen do not. *)
Definition proc_run w (ops : list proc_op) : outcome world :=
  foldl (fun x op => w ← x; if proc_ready w op then proc_step w op else Ok w) (Ok w) ops.

Lemma proc_step_inv w l ps op :
  winv 0 w l ps -> proc_ready w op = true -> yields (proc_step w op) (fun w' => exists l' ps', winv 0 w' l' ps').
Proof.
  intros Hw Hr. unfold proc_ready in Hr. apply andb_true_iff in Hr as [Hcap Hr]. apply bool_decide_eq_true in Hcap.
  assert (Hlen : (length l <= capacity)%nat) by (pose proof (winv_fuel _ _ _ _ Hw) as Hf; unfold list_fuel in Hf; lia). clear Hcap.
  destruct op as [code|pid_ sig|target status options buf_ok copy_ok|child ss arch_ret|]; cbn [proc_step].
  5: { apply (yields_weaken _ _ _ (schedule_next_spec w l ps Hw Hlen)). intros w' (? & _). eauto. }
  all: repeat (apply andb_true_iff in Hr as [Hr ?]); repeat match goal with E : bool_decide _ = true |- _ => apply bool_decide_eq_true in E end.
  all: match goal with E : is_Some _ |- _ => destruct E as [p Lp] end.
  all: assert (Hm : tbl w !! cur w = Some (core p)) by (unfold tbl; by rewrite lookup_fmap, Lp).
  - eapply yields_bind; [exact (process_exit_spec knode Hknode status_ok w l ps 1 _ code Hw Hm Hr Hlen)|].
    intros r (w' & l' & ps' & c' & -> & [] & _). apply yields_ret. eauto.
  - eapply yields_bind; [exact (send_signal_sent knode Hknode status_ok w l ps pid_ sig Hw Hr Hlen)|].
    intros r Hs. apply yields_ret. by eapply sent_inv.
  - eapply yields_bind; [exact (process_wait_waited w l ps target status options buf_ok copy_ok _ Hw Hr Hm)|].
    intros [w' o] Ho. apply yields_ret. cbn [fst snd] in Ho. inversion Ho; subst; eauto.
  - match goal with E : fork_pending_child <$> _ = _ |- _ => rewrite Lp in E; apply (inj Some) in E end.
    assert (Hch : child ∉ l) by (rewrite <- (wi_dom _ _ _ _ Hw); unfold tbl; rewrite lookup_fmap; intros [x E]; apply fmap_Some in E as (? & ? & _); congruence).
    eapply yields_bind; [apply (fork_call_ended ss w l ps p child arch_ret); eauto|].
    intros [w' r] Ho. apply yields_ret. cbn [fst snd] in Ho. inversion Ho; subst; eauto.
Qed.

(** In any order of exits, kills, waits, forks and turns of the scheduler, on
    either scheduler, no call reads or writes a descriptor that has been freed,
    walks off the table or loops in it, and afterwards the table is sound: the
    links run through exactly the live descriptors, pids are distinct, no zombie is
    in the run queue and every process has a living parent, init, or none. *)
Theorem proc_table_safe w l ps ops :
  winv 0 w l ps -> yields (proc_run w ops) (fun w' => exists l' ps', winv 0 w' l' ps').
Proof.
  unfold proc_run. revert w l ps. induction ops as [|op ops IH]; intros w l ps Hw; cbn [foldl]; [apply yields_ret; eauto|].
  cbn [mbind outcome_bind]. destruct (proc_ready w op) eqn:Hr; [|by eapply IH].
  destruct (proc_step_inv w l ps op Hw Hr) as (w' & -> & l' & ps' & Hw'). by eapply IH.
Qed.

End contracts.

(** ** A system of two processes: init and its child *)

(** Its resources are the status words stored so far. *)
Definition demo_store : Type := list (Z * Z * Z).

#[local] Instance demo_res : ProcRes rr_state demo_store := {|
  res_exit_begin := fun r y _ => Ok (r, y);
  res_purge_waiters := fun r _ => r;
  res_clear_fg := fun r _ _ => r;
  res_release_fds := fun r y _ => Ok (r, y);
  res_destroy := fun r y _ => Ok (r, y);
  res_put_status := fun r a ptr v => (a, ptr, v) :: r;
  res_fork := fun r _ _ => (r, true);
  res_rollback := fun r y _ => Ok (r, y) |}.

#[local] Instance demo_res_laws : ProcResLaws (B := rr_state) (R := demo_store).
Proof.
  constructor; intros r y a ps Hi Hn _; eexists; (split; [reflexivity|]); exists ps; [| |split; [|done]..]; by apply wakes_refl.
Qed.

Definition demo_node (s : rr_state) : Z := 1 + foldr Z.max 0 (map_to_list (rr_nodes s)).*1.

Lemma demo_node_fresh s : demo_node s <> 0 /\ fresh_node_for s (demo_node s).
Proof.
  assert (Hmax : forall zs : list Z, 0 <= foldr Z.max 0 zs /\ forall z, z ∈ zs -> z <= foldr Z.max 0 zs).
  { induction zs as [|z zs [IH1 IH2]]; [split; [done|by intros z ?%not_elem_of_nil]|]. simpl. split; [lia|].
    intros x Hx. apply elem_of_cons in Hx as [->|Hx]; [lia|]. apply IH2 in Hx. lia. }
  unfold demo_node. destruct (Hmax (map_to_list (rr_nodes s)).*1) as [H0 Hle]. split; [lia|].
  cbn. apply eq_None_not_Some. intros [x Hx]. set (z := 1 + _) in Hx. assert (Hz : z <= z - 1); [|lia].
  replace (z - 1) with (foldr Z.max 0 (map_to_list (rr_nodes s)).*1) by (unfold z; lia).
  apply Hle, list_elem_of_fmap. exists (z, x). split; [done|].
  by apply elem_of_map_to_list.
Qed.

Definition demo_init : proc_t := proc_zero <| pid := 1 |> <| pgid := 1 |> <| mode := USER_MODE |> <| p_next := 200 |>.
Definition demo_child : proc_t := proc_zero <| pid := 2 |> <| ppid := 1 |> <| pgid := 1 |> <| mode := USER_MODE |>.

Definition demo_world : world (S := rr_state) (R := demo_store) := {|
  w_sys := demo_sys; w_procs := {[ 100 := demo_init; 200 := demo_child ]}; w_list := 100; w_next_pid := 3; w_res := [] |}.

Lemma demo_tbl a c : tbl demo_world !! a = Some c -> (a = 100 /\ c = core demo_init) \/ (a = 200 /\ c = core demo_child).
Proof.
  unfold tbl. rewrite lookup_fmap. intros H. apply fmap_Some in H as (p & Hp & ->). cbn in Hp.
  apply lookup_insert_Some in Hp as [[<- <-]|[_ Hp]]; [by left|]. apply lookup_singleton_Some in Hp as [<- <-]. by right.
Qed.

Lemma demo_alive a : ~ dead demo_world a.
Proof.
  unfold pst. destruct (procs (kern_of demo_world) !! a) as [d|] eqn:E; [|done]. cbn.
  apply demo_procs in E as (_ & -> & _). done.
Qed.

Lemma demo_winv : winv 0 demo_world [100; 200] [100; 200].
Proof.
  constructor; try (by exact demo_sys_inv).
  - cbn. splits; auto. exists (core demo_init). split; [reflexivity|]. splits; auto. by exists (core demo_child).
  - apply (bool_decide_unpack _). reflexivity.
  - intros a. split.
    + intros [c Hc]. apply demo_tbl in Hc as [[-> _]|[-> _]]; [by left|right; by left].
    + intros Ha. apply elem_of_cons in Ha as [->|Ha]; [by eexists|]. apply list_elem_of_singleton in Ha as ->. by eexists.
  - intros a. split.
    + intros [d Hd]. apply demo_procs in Hd as [[->| ->] _]; [by left|right; by left].
    + intros Ha. apply elem_of_cons in Ha as [->|Ha]; [by eexists|]. apply list_elem_of_singleton in Ha as ->. by eexists.
  - apply (bool_decide_unpack _). reflexivity.
  - intros a _ _. apply demo_alive.
  - intros a c Hc. split; [|intros Hd; by apply demo_alive in Hd]. by apply demo_tbl in Hc as [[_ ->]|[_ ->]].
  - intros a c Hc. by apply demo_tbl in Hc as [[_ ->]|[_ ->]].
  - intros a b c d Hc Hd. apply demo_tbl in Hc as [[-> ->]|[-> ->]], Hd as [[-> ->]|[-> ->]]; done.
  - intros a c Hc. apply demo_tbl in Hc as [[_ ->]|[_ ->]]; (split; [done|]); [by left|right].
    exists 100, (core demo_init). split; [reflexivity|]. split; [done|by left].
  - intros a c Hc. by apply demo_tbl in Hc as [[_ ->]|[_ ->]].
Qed.

Definition after (x : outcome (world (S := rr_state) (R := demo_store))) := match x with Ok w => w | _ => demo_world end.

(** Init runs; it waits for its child; the child runs. *)
Definition demo_running := after (schedule_next demo_world).
Definition demo_waiting := after ('(w, _) ← process_wait_pass demo_running 2 4096 0 true true; Ok w).
Definition demo_switched := after (schedule_next demo_waiting).

Lemma demo_capacity : (2 <= capacity (S := rr_state))%nat.
Proof. vm_compute. lia. Qed.

Lemma demo_running_inv : winv 0 demo_running [100; 200] [100; 200].
Proof.
  destruct (schedule_next_spec demo_world _ _ demo_winv demo_capacity) as (w' & E & Hw & _). unfold demo_running. by rewrite E.
Qed.

Lemma demo_waiting_inv : winv 0 demo_waiting [100; 200] [100; 200].
Proof.
  assert (Hm : tbl demo_running !! cur demo_running = Some (core demo_init)) by (vm_compute; reflexivity).
  assert (Ho : match process_wait_pass demo_running 2 4096 0 true true with Ok (_, o) => o | _ => WaitReturn 0 end = WaitSleep) by (vm_compute; reflexivity).
  destruct (process_wait_waited demo_running _ _ 2 4096 0 true true _ demo_running_inv ltac:(vm_compute; discriminate) Hm) as ([w' o] & E & H).
  unfold demo_waiting. rewrite E in Ho |- *. cbn in H |- *. subst o. by inversion H.
Qed.

Lemma demo_switched_inv : winv 0 demo_switched [100; 200] [100; 200].
Proof.
  destruct (schedule_next_spec demo_waiting _ _ demo_waiting_inv demo_capacity) as (w' & E & Hw & _). unfold demo_switched. by rewrite E.
Qed.

(** Init kills its child with SIGKILL. *)
Lemma send_signal_correct_witness :
  exists r, send_signal demo_node (fun _ => true) demo_running 2 SIGKILL = Ok r /\ sent demo_running [100; 200] [100; 200] 2 SIGKILL r /\
    match r with Back w 0 => pst w 200 = Some PROCESS_ZOMBIE | _ => False end.
Proof.
  destruct (send_signal_correct demo_node demo_node_fresh (fun _ => true) demo_running [100; 200] [100; 200] 2 SIGKILL demo_running_inv) as (r & E & H);
    [vm_compute; discriminate|exact demo_capacity|].
  exists r. split; [exact E|]. split; [exact H|]. vm_compute in E. injection E as <-. reflexivity.
Defined.

(** The child exits while init waits for it. *)
Lemma process_exit_correct_witness :
  exists w' l' ps' c', process_exit demo_node (fun _ => true) demo_switched 7 = Ok (Away w') /\
    exited 200 (core demo_child) c' demo_switched [100; 200] w' l' ps' /\ process_child_wait_status_word c' = 0x700.
Proof.
  destruct (process_exit_correct demo_node demo_node_fresh (fun _ => true) demo_switched [100; 200] [100; 200] (core demo_child) 7 demo_switched_inv)
    as (r & E & w' & l' & ps' & c' & -> & Hx & _ & Hword);
    [vm_compute; reflexivity|vm_compute; discriminate|exact demo_capacity|done|].
  exists w', l', ps', c'. split; [exact E|]. split; [exact Hx|exact Hword].
Defined.


Lemma fork_correct_witness :
  exists wr, fork_call demo_node demo_switched 300 false 0 = Ok wr /\ wr.2 = 3 /\
    fork_ended false demo_switched [100; 200] [100; 200] demo_child 300 wr.1 wr.2.
Proof.
  destruct (fork_correct demo_node demo_node_fresh false demo_switched [100; 200] [100; 200] demo_child 300 0 demo_switched_inv) as (wr & E & H);
    [vm_compute; reflexivity|vm_compute; discriminate|apply (bool_decide_unpack _); vm_compute; reflexivity|vm_compute; reflexivity|reflexivity|].
  exists wr. split; [exact E|]. split; [vm_compute in E; by injection E as <-|exact H].
Defined.

Lemma wait_exit_roundtrip_witness :
  exists w' l' ps', process_exit demo_node (fun _ => true) demo_switched 7 = Ok (Away w') /\ winv 0 w' l' ps' /\ 100 ∈ ps' /\
    match process_wait_pass w' 2 4096 0 true true with Ok (w, o) => o = WaitReturn 2 /\ w_res w = [(100, 4096, 0x700)] | _ => False end.
Proof.
  destruct (wait_exit_roundtrip demo_node demo_node_fresh (fun _ => true) demo_switched [100; 200] [100; 200] (core demo_child) 7 100
    (core (default demo_init (w_procs demo_switched !! 100))) demo_switched_inv) as (r & E & w' & l' & ps' & -> & Hw & Hin & _);
    [vm_compute; reflexivity|vm_compute; discriminate|exact demo_capacity|reflexivity|vm_compute; reflexivity|vm_compute; discriminate|vm_compute; reflexivity..|].
  exists w', l', ps'. split; [exact E|]. split; [exact Hw|]. split; [exact Hin|]. vm_compute in E. injection E as <-. vm_compute. by split.
Defined.

Lemma proc_table_safe_witness :
  exists w' l' ps', proc_run demo_node (fun _ => true) demo_world
    [PNext; PFork 300 false 0; PWait 2 4096 0 true true; PNext; PExit 7; PNext; PKill 3 SIGTERM; PWait (-1) 0 0 true true] = Ok w' /\ winv 0 w' l' ps'.
Proof.
  destruct (proc_table_safe demo_node demo_node_fresh (fun _ => true) demo_world [100; 200] [100; 200]
    [PNext; PFork 300 false 0; PWait 2 4096 0 true true; PNext; PExit 7; PNext; PKill 3 SIGTERM; PWait (-1) 0 0 true true] demo_winv) as (w' & E & l' & ps' & Hw).
  exists w', l', ps'. split; [exact E|exact Hw].
Defined.

(** A process that signals its own group dies before it reaches the members
    behind it in the table: a new child is first, its parent hears nothing. *)
Definition demo_group : world (S := rr_state) (R := demo_store) :=
  after ('(w, _) ← fork_call demo_node demo_switched 300 false 0; schedule_next w).

Lemma pgrp_stops_at_caller :
  exists w', send_signal_pgrp demo_node (fun _ => true) demo_group 1 SIGTERM = Ok (Away w') /\
    pgid <$> w_procs demo_group !! 200 = Some 1 /\ pst w' 300 = Some PROCESS_ZOMBIE /\ pst w' 200 = Some PROCESS_RUNNING /\
    exists p, w_procs w' !! 200 = Some p /\ signal_pending (signals p) = Z.shiftl 1 SIGCHLD.
Proof.
  assert (H : match send_signal_pgrp demo_node (fun _ => true) demo_group 1 SIGTERM with
    | Ok (Away w') => pst w' 300 = Some PROCESS_ZOMBIE /\ pst w' 200 = Some PROCESS_RUNNING /\
        (signal_pending ∘ signals) <$> w_procs w' !! 200 = Some (Z.shiftl 1 SIGCHLD)
    | _ => False end) by (vm_compute; by splits).
  destruct (send_signal_pgrp _ _ _ _ _) as [[|w']| |]; try done. destruct H as (H1 & H2 & H3). apply fmap_Some in H3 as (p & Hp & E).
  exists w'. splits; [done|vm_compute; reflexivity|done|done|]. exists p. by split.
Qed.
